(* ===== verification/_CoqProject ===== *)
-Q . S2P
Prelude.v
Errno.v
PageAlloc.v
Slub.v
AddrSpace.v
Vma.v
PageTable.v
PageTree.v
PageMap.v
Mmap.v
Fault.v
Protect.v
Isolation.v
MmLife.v
PageFree.v
PageDup.v
Fork.v
MmExit.v
KString.v
Printf.v
ListHead.v
RbTree.v
RbBalance.v
Task.v
Sched.v
Signal.v
Kill.v
Heap.v
Wait.v
Kernel.v
Pipe.v
Path.v
Ramfs.v
FileTable.v
FileData.v
Directory.v
OpenFiles.v
PipeCreate.v
Descriptors.v
Tty.v
