(* ===== verification/Prelude.v ===== *)
(** * A verification of the mini-os kernel

    mini-os is a small AArch64 kernel: a buddy page allocator and object
    caches, virtual memory areas and page tables, tasks and a scheduler,
    signals, pipes, an in-memory file system, a VFS and the system calls on
    top.  This development translates its C code into executable definitions
    and proves what makes each part correct.

    ** Conventions

    - A C integer is a [Z] kept in range by an explicit wrap ([u64], [u32],
      [s32], ... in this file).
    - Memory reached through pointers is one map from addresses to values,
      one scalar per cell; static arrays are maps from indices.  What was
      never written reads as 0 ([m.[i]]).
    - A function of the code is a function of the state it uses; [None]
      stands for a loop that did not end within its fuel, and every theorem
      about an operation shows that the fuel chosen suffices.
    - The kernel's spin locks and interrupt masking have no counterpart: an
      operation of the model is one critical section.

    ** Files

    - [Prelude]: integers, arrays, and singly linked lists reached through
      link cells (class [SList]), with the specification of the two list
      idioms of the kernel: push at the head, and unlink through a pointer to
      the link.
    - [PageAlloc]: [mm/page_alloc.c].  The free lists live in the free pages.
      [buddy_inv s A] says that the pool is partitioned into blocks, that the
      blocks in use are [A] and that no two free buddies are unmerged.
      Allocation takes a fresh run and fails only when there is none; release
      coalesces, and ignores a block at an address that is no multiple of its
      size ([freeable]); a run that gives everything back restores the pool.
    - [Slub]: [mm/slub.c].  Slab headers, free lists through the objects and
      partial lists of slabs.  [slub_inv k P O] says which blocks of pages
      and which objects are in use; objects never overlap, and the caches
      keep no page once all objects are free.
    - [Heap]: what the clients of [kmalloc] rely on, as a class: live blocks
      never overlap.  The instance discharges it from [Slub].
    - [AddrSpace], [Vma]: the first part of [mm/mmap.c].  An address space as
      a map from addresses to flags, and the sorted list of
      [vm_area_struct]s that implements it: recording, erasing, splitting and
      duplicating areas, the search for a free range.
    - [PageTable], [PageTree], [PageMap]: the page tables of [mm/mmap.c] in
      the pages of the allocator, the tree that they represent, and address
      spaces ([space k A mm t]: the tables of [mm] are the tree [t], its pages
      and the frames it maps are in use and counted).  Mapping, unmapping and
      copy-on-write change one mapping and keep the contents of every other
      page.
    - [Mmap], [Fault], [Protect]: the rest of [mm/mmap.c] and the address-space
      part of [kernel/fork.c].  [mem_inv k P R mm V t] puts the areas [V] and
      the tables [t] of a process into one memory with the caches and the page
      allocator: areas are sorted ranges of pages, every mapping lies in an
      area that allows what its entry allows, and writable pages are not
      shared.  [munmap], [mmap], [mprotect], [brk] and the page fault keep it
      and change exactly the range they are given, for all arguments but those
      that make the code corrupt the list of areas: a range that wraps around
      the end of the 64-bit addresses, and [brk] of a heap that is not one area.
    - [Isolation]: two processes in one memory ([pair]), which may share
      pages.  A [run] is a list of system calls ([ksys_mmap], [ksys_munmap],
      [ksys_mprotect], [ksys_brk]), faults and stores with any arguments; it
      stops at a call that does not return.  An [orderly] run, in which no call
      corrupts the areas of its own process ([proper]), never stops, keeps both
      consistent, and nothing that one does is visible to the other.
    - [MmLife]: creation of address spaces, and the concrete ones on which the
      theorems of these files are applied.
    - [PageFree], [PageDup], [Fork]: releasing and duplicating page tables,
      and [dup_mm] of [kernel/fork.c].  A child reads what its parent reads,
      shares its pages copy-on-write, and neither sees what the other does
      from then on; a fork that runs out of memory gives everything back.
    - [MmExit]: the end of an address space ([mm_put]).  Whatever a process
      does in between, its end gives back every page and object it took, and
      a child leaves nothing of itself in the memory of its parent.
    - [KString], [Printf]: [lib/].  Strings in byte memory, copies from user
      space, and [vsnprintf] against a reference rendering ([render], which
      also tells whether a decimal is too long for the code's buffer).
    - [ListHead]: [include/linux/list.h], parametric in the nodes.
    - [RbTree], [RbBalance]: [lib/rbtree.c].  Insertion and the removal of a
      node with at most one child keep order, colours and black heights of
      the tree that the memory of nodes holds ([is_tree]).
    - [Task], [Sched]: the task structure, [kernel/sched/core.c] and
      [kernel/sched/idle.c].  [sched_inv s Q T] says which tasks each run
      queue holds, in order; every scheduler operation keeps it, queued tasks
      get to run, and pulling balances the queues.  [context_switch] installs
      the tables of the next task in the processor ([mm_install]).
    - [Signal]: [kernel/signal.c].  Queueing through the chain of parents,
      selection, and the frame of a handler with its return.
    - [Kill]: walks over the list of tasks; [ksys_kill] signals exactly its
      targets, and the parents of the stopped ones for SIGCONT.
    - [Wait]: [kernel/sched/wait.c].  Wait queues; what [wake_up] does, and the
      protocol of [wait_event] ([wait_step]): its statements with the state of
      the interrupts, others that set or clear the condition, wake and switch
      tasks in between, with and without a second processor.
    - [Kernel]: [include/linux/fs.h].  Files, inodes, directory entries, pipes
      and the state that the file system shares with the parts above.
    - [Pipe]: [fs/pipe.c].  Reads and writes refine taking and appending bytes;
      a flag says whether the buffer is NULL.
    - [Path]: path names of [fs/namei.c] against lists of components.
    - [Ramfs]: [fs/ramfs.c], [fs/inode.c] and the dispatch of [fs/namei.c];
      [FileData]: the contents of files, for writes at every offset;
      [Directory]: directories as finite maps, path walks, links, the life of
      inodes ([fs_inv]), and renames, which keep the tree ([hierarchy]).
    - [FileTable]: the descriptor tables of [fs/open.c], with [copy_task_files]
      of [kernel/fork.c] and [exit_files] of [kernel/exit.c].  A file has one
      reference for each slot that holds it ([steady]); what ends with a file
      is behind the class [FileEnds].
    - [OpenFiles]: the instance of [FileEnds]: the counts of open inodes and of
      the ends of pipes, and the blocks of the heap that files and pipes are.
    - [PipeCreate]: [ksys_pipe2] of [fs/pipe.c], with all its ways to fail.
    - [Descriptors]: [close], [dup], [dup2], [dup3] and [fcntl] refine a table
      of descriptors; no sequence of operations on descriptors leaves a
      dangling descriptor or a forgotten file.
    - [Tty]: [drivers/tty/tty.c] and [drivers/tty/serial.c].  Input and reads
      refine a queue of characters that canonical mode cuts into lines; which
      processes the keys of the keyboard signal; which control calls change
      the foreground group and the session, and for whom.

    ** Bounds

    List walks of the memory manager take at most one step per byte of the
    pool ([vma_fuel]); walks over tasks one per task ([walk_fuel]);
    [do_signal] one turn per signal number; walks over the entries of a
    directory one per entry ([dents_fuel]); path walks one per character; the
    doubling of a file's capacity 64, after which it can only be 0; loops
    over a fixed range recurse on that range.  A call that sleeps is two
    functions, up to the sleep and after it.

    Addresses of user code are below [USER_TOP], 2^39, the range that three
    levels of tables translate; loops over its pages take one step per page.

    ** Not modelled

    Boot and exception assembly, the interrupt controller, firmware calls,
    the registers of the UART, the RTC and virtio probing are accesses to
    device registers.  User programs and self tests only issue system calls.
    The process file system, program loading, the system calls that take
    paths, the life cycle of tasks and the clock arithmetic of [kernel/time]
    are not modelled; nor are cache and TLB maintenance. *)
From stdpp Require Export prelude gmap list functions strings.
From Stdlib Require Export ZArith Lia.

#[global] Open Scope Z_scope.

Declare Scope kernel_scope.
Delimit Scope kernel_scope with K.
#[global] Open Scope kernel_scope.

(** ** Machine integers

    C integers are values of [Z] kept in range by an explicit wrap:
    [u64] for [unsigned long], [u32] for [unsigned int], [s32] for [int],
    [s64] for [long], [u8] for [unsigned char] and [s8] for [signed char]. *)

Definition wrapu (w x : Z) : Z := x mod 2 ^ w.
Definition wraps (w x : Z) : Z := (x + 2 ^ (w - 1)) mod 2 ^ w - 2 ^ (w - 1).

Abbreviation u64 := (wrapu 64).
Abbreviation u32 := (wrapu 32).
Abbreviation u8 := (wrapu 8).
Abbreviation s64 := (wraps 64).
Abbreviation s32 := (wraps 32).
Abbreviation s8 := (wraps 8).

Lemma wrapu_id w x : 0 <= x < 2 ^ w -> wrapu w x = x.
Proof. apply Z.mod_small. Qed.

Lemma wrapu_range w x : 0 <= w -> 0 <= wrapu w x < 2 ^ w.
Proof. intros. apply Z.mod_pos_bound. lia. Qed.

Lemma wraps_id w x : 0 < w -> - 2 ^ (w - 1) <= x < 2 ^ (w - 1) -> wraps w x = x.
Proof.
  intros Hw Hx. unfold wraps.
  replace (2 ^ w) with (2 * 2 ^ (w - 1)).
  - rewrite Z.mod_small; lia.
  - rewrite <- Z.pow_succ_r by lia. f_equal. lia.
Qed.

Lemma wraps_range w x : 0 < w -> - 2 ^ (w - 1) <= wraps w x < 2 ^ (w - 1).
Proof.
  intros Hw. unfold wraps. assert (H := Z.mod_pos_bound (x + 2 ^ (w - 1)) (2 ^ w) ltac:(lia)).
  replace (2 ^ w) with (2 * 2 ^ (w - 1)) in *; [lia|]. rewrite <- Z.pow_succ_r by lia. f_equal. lia.
Qed.

(** Masking with [~(2^k - 1)] rounds down to a multiple of [2^k]. *)
Lemma land_mask_down x k :
  0 <= k <= 64 -> 0 <= x < 2 ^ 64 -> Z.land x (u64 (Z.lnot (2 ^ k - 1))) = 2 ^ k * (x / 2 ^ k).
Proof.
  intros Hk Hx.
  assert (E : u64 (Z.lnot (2 ^ k - 1)) = Z.ldiff (Z.ones 64) (Z.ones k)).
  { unfold wrapu. rewrite <- Z.land_ones by lia.
    replace (2 ^ k - 1) with (Z.ones k) by (rewrite Z.ones_equiv; lia).
    rewrite Z.land_comm. symmetry. apply Z.ldiff_land. }
  rewrite E, Z.ldiff_land, Z.land_assoc, Z.land_ones by lia.
  rewrite Z.mod_small by lia. rewrite <- Z.ldiff_land, Z.ldiff_ones_r by lia.
  rewrite Z.shiftl_mul_pow2, Z.shiftr_div_pow2 by lia. lia.
Qed.

(** [x & m] as a condition. *)
Definition has (x m : Z) : bool := negb (Z.land x m =? 0).

Lemma has_1 x : has x 1 = Z.testbit x 0.
Proof.
  unfold has. change 1 with (Z.ones 1). rewrite Z.land_ones by lia. change (2 ^ 1) with 2.
  rewrite Z.bit0_odd, Zmod_odd. by destruct (Z.odd x).
Qed.

(** A condition on one bit. *)
Lemma has_bit x i : 0 <= i -> has x (Z.shiftl 1 i) = Z.testbit x i.
Proof.
  intros Hi. unfold has. rewrite Z.shiftl_1_l.
  destruct (Z.testbit x i) eqn:E.
  - apply negb_true_iff, Z.eqb_neq. intros E0. apply (f_equal (fun y => Z.testbit y i)) in E0.
    rewrite Z.land_spec, E, Z.pow2_bits_true, Z.bits_0 in E0 by lia. done.
  - apply negb_false_iff, Z.eqb_eq. apply Z.bits_inj'. intros n Hn. rewrite Z.land_spec, Z.bits_0.
    destruct (decide (i = n)) as [<-|]; [by rewrite E|]. rewrite Z.pow2_bits_false by lia. apply andb_false_r.
Qed.

(** Allocation results: an address, 0 for failure, and the new state. *)
Lemma result_nonzero {T} (r : option (Z * T)) (s : T) :
  (default 0 (fst <$> r) =? 0) = false -> r <> Some (0, s).
Proof. by intros H ->. Qed.

(** ** Zero-initialised arrays and memory

    A static array, or the memory reached through pointers, is a finite map
    from indices (addresses) to values; what was never written reads as 0. *)

Definition arr_get (m : gmap Z Z) (i : Z) : Z := default 0 (m !! i).
Notation "m .[ i ]" := (arr_get m i)
  (at level 1, i at level 200, left associativity, format "m .[ i ]") : kernel_scope.

Lemma arr_get_insert (m : gmap Z Z) i v : (<[i:=v]> m).[i] = v.
Proof. unfold arr_get. by rewrite lookup_insert_eq. Qed.

Lemma arr_get_insert_ne (m : gmap Z Z) i j v : i <> j -> (<[i:=v]> m).[j] = m.[j].
Proof. intros. unfold arr_get. by rewrite lookup_insert_ne. Qed.

Lemma arr_get_insert_case (m : gmap Z Z) i j v :
  (<[i:=v]> m).[j] = if decide (i = j) then v else m.[j].
Proof.
  case_decide; subst; [apply arr_get_insert | by apply arr_get_insert_ne].
Qed.

(** [for (k = i; n > 0; k++, n--) a[k] = v;] *)
Fixpoint arr_fill (n : nat) (m : gmap Z Z) (i v : Z) : gmap Z Z :=
  match n with
  | O => m
  | S n' => arr_fill n' (<[i := v]> m) (i + 1) v
  end.

Lemma arr_fill_get n m i v j :
  (arr_fill n m i v).[j] = if decide (i <= j < i + Z.of_nat n) then v else m.[j].
Proof.
  revert m i. induction n as [|n IH]; intros m i; cbn [arr_fill].
  - rewrite decide_False by lia. done.
  - rewrite IH. rewrite arr_get_insert_case.
    repeat case_decide; try done; lia.
Qed.

(** ** Tactics and hints *)

Create HintDb kernel.

(** Split the conjunctions that are visible, without unfolding definitions. *)
Ltac splits := repeat match goal with |- _ /\ _ => split end.

(** Decide every boolean comparison of the goal and hypotheses. *)
Ltac zb1 :=
  match goal with
  | |- context [Z.eqb ?a ?b] => destruct (Z.eqb_spec a b)
  | |- context [Z.ltb ?a ?b] => destruct (Z.ltb_spec a b)
  | |- context [Z.leb ?a ?b] => destruct (Z.leb_spec a b)
  | H : context [Z.eqb ?a ?b] |- _ => destruct (Z.eqb_spec a b)
  | H : context [Z.ltb ?a ?b] |- _ => destruct (Z.ltb_spec a b)
  | H : context [Z.leb ?a ?b] |- _ => destruct (Z.leb_spec a b)
  end.
Ltac zb := repeat (zb1; simpl in *; try lia; try congruence).

(** Decide the comparisons of the goal that follow from the context. *)
Ltac zdec :=
  repeat match goal with
  | |- context [Z.eqb ?a ?b] =>
      first [rewrite (proj2 (Z.eqb_eq a b)) by lia | rewrite (proj2 (Z.eqb_neq a b)) by lia]
  | |- context [Z.ltb ?a ?b] =>
      first [rewrite (proj2 (Z.ltb_lt a b)) by lia | rewrite (proj2 (Z.ltb_ge a b)) by lia]
  | |- context [Z.leb ?a ?b] =>
      first [rewrite (proj2 (Z.leb_le a b)) by lia | rewrite (proj2 (Z.leb_gt a b)) by lia]
  end; cbn [andb orb negb].

(** Turn boolean hypotheses about integers into propositions. *)
Ltac zprop :=
  repeat match goal with
  | H : Z.eqb _ _ = true |- _ => apply Z.eqb_eq in H
  | H : Z.eqb _ _ = false |- _ => apply Z.eqb_neq in H
  | H : Z.ltb _ _ = true |- _ => apply Z.ltb_lt in H
  | H : Z.ltb _ _ = false |- _ => apply Z.ltb_ge in H
  | H : Z.leb _ _ = true |- _ => apply Z.leb_le in H
  | H : Z.leb _ _ = false |- _ => apply Z.leb_gt in H
  | H : andb _ _ = true |- _ => apply andb_true_iff in H as [? ?]
  | H : orb _ _ = false |- _ => apply orb_false_iff in H as [? ?]
  | H : negb _ = true |- _ => apply negb_true_iff in H
  | H : negb _ = false |- _ => apply negb_false_iff in H
  end.

(** ** Lists *)

Lemma NoDup_all_eq {A} (l : list A) a :
  NoDup l -> a ∈ l -> (forall x, x ∈ l -> x = a) -> l = [a].
Proof.
  intros Hnd Ha Hall. destruct l as [|x [|y l]]; [by apply not_elem_of_nil in Ha| |].
  - by rewrite (Hall x) by set_solver.
  - exfalso. apply NoDup_cons in Hnd as [Hn _]. apply Hn.
    rewrite (Hall x), (Hall y) by set_solver. set_solver.
Qed.

(** ** Singly linked lists through memory cells

    The kernel threads free blocks, slabs, slab objects, VMAs and wait-queue
    entries on NULL-terminated singly linked lists and unlinks a node with one
    idiom: a pointer-to-pointer [prev] that starts at the head cell and moves
    to the [next] field of the node it designates.  [cell] names what [prev] may point to. *)

Inductive cell := CHead | CNext (p : Z).

#[export] Instance cell_eq_dec : EqDecision cell.
Proof. solve_decision. Defined.

Class SList (T : Type) := {
  sget : T -> cell -> Z;
  sset : T -> cell -> Z -> T
}.

Class SListLaws (T : Type) `{SList T} := {
  sget_sset : forall h c c' v,
    sget (sset h c v) c' = if decide (c = c') then v else sget h c'
}.

(** The walk: stop when the cell holds NULL, store [x->next] into the cell when
    it holds [x], else move to the next cell.  [None] when the fuel runs out;
    the flag tells whether [x] was found. *)
Fixpoint slist_unlink `{SList T} (fuel : nat) (h : T) (x : Z) (prev : cell)
  : option (T * bool) :=
  match fuel with
  | O => None
  | S fuel' =>
      let p := sget h prev in
      if p =? 0 then Some (h, false)
      else if p =? x then Some (sset h prev (sget h (CNext x)), true)
      else slist_unlink fuel' h x (CNext p)
  end.

(** [slist_push] is [x->next = head; head = x]. *)
Definition slist_push `{SList T} (h : T) (x : Z) : T :=
  let h1 := sset h (CNext x) (sget h CHead) in
  sset h1 CHead x.

Section SListSegments.
Context {T : Type} `{SList T}.
Implicit Types (h : T) (l : list Z).

(** [lseg h p l]: following [next] from [p] visits exactly [l], then NULL. *)
Fixpoint lseg h (p : Z) l : Prop :=
  match l with
  | [] => p = 0
  | x :: l' => p = x /\ x <> 0 /\ lseg h (sget h (CNext x)) l'
  end.

Definition slist h l : Prop := lseg h (sget h CHead) l.

Lemma lseg_det h p l l' : lseg h p l -> lseg h p l' -> l = l'.
Proof.
  revert p l'. induction l as [|x l IH]; intros p [|y l'] H1 H2; simpl in H1, H2.
  - done.
  - lia.
  - lia.
  - destruct H1 as (-> & _ & H1), H2 as (-> & _ & H2). f_equal. eauto.
Qed.

Lemma lseg_suffix h p l1 l2 :
  lseg h p (l1 ++ l2) -> exists q, lseg h q l2.
Proof.
  revert p. induction l1 as [|x l1 IH]; simpl; intros p Hl; [eauto|].
  destruct Hl as (_ & _ & Hl). eauto.
Qed.

Lemma lseg_head_notin h x l : lseg h x (x :: l) -> x ∉ l.
Proof.
  intros Hl Hin. apply list_elem_of_split in Hin as (l1 & l2 & ->).
  assert (Hs := Hl). destruct Hs as (_ & _ & Hs).
  apply lseg_suffix in Hs as [q Hq]. assert (q = x) as -> by (simpl in Hq; tauto).
  pose proof (lseg_det _ _ _ _ Hl Hq) as E.
  apply (f_equal length) in E. simpl in E. rewrite length_app in E. simpl in E. lia.
Qed.

Lemma lseg_NoDup h p l : lseg h p l -> NoDup l.
Proof.
  revert p. induction l as [|x l IH]; intros p Hl; [constructor|].
  assert (p = x) as -> by (simpl in Hl; tauto).
  constructor; [by eapply lseg_head_notin|].
  destruct Hl as (_ & _ & Hl). eauto.
Qed.

Lemma lseg_nonzero h p l x : lseg h p l -> x ∈ l -> x <> 0.
Proof.
  revert p. induction l as [|y l IH]; intros p Hl Hx; [by apply not_elem_of_nil in Hx|].
  destruct Hl as (_ & ? & Hl). apply elem_of_cons in Hx as [->|]; eauto.
Qed.

Lemma lseg_frame h h' p l :
  (forall x, x ∈ l -> sget h' (CNext x) = sget h (CNext x)) ->
  lseg h p l -> lseg h' p l.
Proof.
  revert p. induction l as [|x l IH]; simpl; [done|].
  intros p Hf (-> & ? & Hl). split; [done|]. split; [done|].
  rewrite Hf by set_solver. apply IH; [|done]. intros. apply Hf. set_solver.
Qed.

Lemma slist_frame h h' l :
  (forall x, x ∈ l -> sget h' (CNext x) = sget h (CNext x)) ->
  sget h' CHead = sget h CHead ->
  slist h l -> slist h' l.
Proof. unfold slist. intros Hf -> Hl. by eapply lseg_frame. Qed.

End SListSegments.

Section SListOperations.
Context {T : Type} `{SListLaws T}.
Implicit Types (h : T) (l : list Z).

Lemma sget_sset_eq h c v : sget (sset h c v) c = v.
Proof. rewrite sget_sset. by rewrite decide_True. Qed.

Lemma sget_sset_ne h c c' v : c <> c' -> sget (sset h c v) c' = sget h c'.
Proof. intros. rewrite sget_sset. by rewrite decide_False. Qed.

Lemma slist_push_spec h l x :
  x <> 0 -> x ∉ l -> slist h l -> slist (slist_push h x) (x :: l).
Proof.
  intros Hx Hn Hl. unfold slist, slist_push. simpl.
  rewrite sget_sset_eq. split; [done|]. split; [done|].
  rewrite sget_sset_ne by done. rewrite sget_sset_eq.
  eapply lseg_frame; [|exact Hl].
  intros y Hy. rewrite !sget_sset_ne; [done|congruence|done].
Qed.

Lemma slist_unlink_absent_gen fuel h x c l :
  lseg h (sget h c) l -> x ∉ l -> (length l < fuel)%nat ->
  slist_unlink fuel h x c = Some (h, false).
Proof.
  revert c l. induction fuel as [|fuel IH]; intros c l Hl Hx Hf; [lia|]. simpl.
  destruct l as [|y l]; simpl in Hl.
  { by rewrite Hl. }
  destruct Hl as (Ey & Hy & Hl). rewrite Ey.
  apply not_elem_of_cons in Hx as [Hxy Hx].
  rewrite (proj2 (Z.eqb_neq _ _)) by done.
  rewrite (proj2 (Z.eqb_neq _ _)) by done.
  eapply IH; [done..|simpl in Hf; lia].
Qed.

Lemma last_cell_cons c y l :
  default c (CNext <$> last (y :: l)) = default (CNext y) (CNext <$> last l).
Proof. rewrite last_cons. by destruct (last l). Qed.

Lemma slist_unlink_present_gen fuel h x c l1 l2 :
  lseg h (sget h c) (l1 ++ x :: l2) -> (length l1 < fuel)%nat -> x ∉ l1 ->
  slist_unlink fuel h x c =
    Some (sset h (default c (CNext <$> last l1)) (sget h (CNext x)), true).
Proof.
  revert c l1. induction fuel as [|fuel IH]; intros c l1 Hl Hf Hn; [lia|]. simpl.
  destruct l1 as [|y l1]; simpl in Hl.
  { destruct Hl as (Ex & Hx & Hl). rewrite Ex.
    rewrite (proj2 (Z.eqb_neq _ _)) by done. by rewrite Z.eqb_refl. }
  destruct Hl as (Ey & Hy & Hl). rewrite Ey.
  apply not_elem_of_cons in Hn as [Hxy Hn].
  rewrite (proj2 (Z.eqb_neq _ _)) by done.
  rewrite (proj2 (Z.eqb_neq _ _)) by done.
  rewrite (IH _ l1); [|done|simpl in Hf; lia|done].
  by rewrite (last_cell_cons c y).
Qed.

Lemma lseg_unlink h c x l1 l2 :
  lseg h (sget h c) (l1 ++ x :: l2) ->
  (forall y, c = CNext y -> y ∉ l1 ++ l2) ->
  let c' := default c (CNext <$> last l1) in
  let h' := sset h c' (sget h (CNext x)) in
  lseg h' (sget h' c) (l1 ++ l2).
Proof.
  simpl. revert c. induction l1 as [|y l1 IH]; intros c Hl Hc.
  - simpl in *. rewrite sget_sset_eq. destruct Hl as (_ & _ & Hl).
    eapply lseg_frame; [|exact Hl]. intros z Hz. rewrite sget_sset_ne; [done|].
    intros ->. by apply (Hc z).
  - assert (Hnd := lseg_NoDup _ _ _ Hl). apply NoDup_cons in Hnd as [Hy _].
    simpl in Hl. destruct Hl as (Ey & Hy0 & Hl). rewrite last_cell_cons.
    simpl. split; [|split; [done|]].
    + rewrite sget_sset_ne; [done|]. intros <-.
      destruct (last l1) as [z|] eqn:E; simpl in *; [|set_solver].
      apply last_Some_elem_of in E. set_solver.
    + apply IH; [done|]. intros z [= <-]. set_solver.
Qed.

(** Unlinking a present node succeeds and removes exactly that node; only
    the cell that pointed to it is written. *)
Lemma slist_unlink_present fuel h x l1 l2 :
  slist h (l1 ++ x :: l2) -> (length l1 < fuel)%nat ->
  exists c, (c = CHead \/ exists y, y ∈ l1 /\ c = CNext y) /\
    slist_unlink fuel h x CHead = Some (sset h c (sget h (CNext x)), true) /\
    slist (sset h c (sget h (CNext x))) (l1 ++ l2).
Proof.
  intros Hl Hf. assert (Hx1 : x ∉ l1).
  { intros Hx. apply lseg_NoDup, NoDup_app in Hl as (_ & Hd & _).
    apply (Hd x Hx). set_solver. }
  exists (default CHead (CNext <$> last l1)). split; [|split].
  - destruct (last l1) as [y|] eqn:E; simpl; [|by left].
    right. exists y. split; [|done]. by apply last_Some_elem_of in E.
  - by eapply slist_unlink_present_gen.
  - by apply lseg_unlink.
Qed.

Lemma slist_unlink_absent fuel h x l :
  slist h l -> x ∉ l -> (length l < fuel)%nat ->
  slist_unlink fuel h x CHead = Some (h, false).
Proof. apply slist_unlink_absent_gen. Qed.
End SListOperations.

(** ** Sums over finite maps *)

Section Sums.
Context {A : Type}.
Implicit Types (g : A -> Z) (m : gmap Z A).

Definition msum g m : Z := map_fold (fun _ x n => g x + n) 0 m.

Lemma msum_empty g : msum g ∅ = 0.
Proof. apply map_fold_empty. Qed.

Lemma msum_insert g m i x : m !! i = None -> msum g (<[i := x]> m) = g x + msum g m.
Proof. intros Hi. unfold msum. apply (map_fold_insert_L (fun (_ : Z) (x : A) n => g x + n)); [intros; lia|done]. Qed.

Lemma msum_delete g m i x : m !! i = Some x -> msum g m = g x + msum g (delete i m).
Proof. intros Hi. rewrite <- (msum_insert g (delete i m) i x) by apply lookup_delete_eq. by rewrite insert_delete_id. Qed.

Lemma msum_update g m i x y : m !! i = Some x -> msum g (<[i := y]> m) = msum g m - g x + g y.
Proof.
  intros Hi. rewrite (msum_delete g m i x Hi), (msum_delete g (<[i := y]> m) i y) by apply lookup_insert_eq. rewrite delete_insert_eq. lia.
Qed.

Lemma msum_ext g g' m : (forall i x, m !! i = Some x -> g x = g' x) -> msum g m = msum g' m.
Proof.
  induction m as [|i x m Hi IH] using map_ind; intros Hg; [by rewrite !msum_empty|]. rewrite !msum_insert by done.
  rewrite (Hg i x) by apply lookup_insert_eq. rewrite IH; [done|]. intros j y Hj. apply (Hg j). rewrite lookup_insert_ne; [done|congruence].
Qed.

Lemma msum_bound g m c : (forall i x, m !! i = Some x -> 0 <= g x <= c) -> 0 <= msum g m <= c * Z.of_nat (size m).
Proof.
  induction m as [|i x m Hi IH] using map_ind; intros Hg; [rewrite msum_empty, map_size_empty; lia|].
  rewrite msum_insert, map_size_insert_None by done. assert (H1 := Hg i x ltac:(apply lookup_insert_eq)).
  assert (H2 : forall j y, m !! j = Some y -> 0 <= g y <= c) by (intros j y Hj; apply (Hg j); rewrite lookup_insert_ne; congruence).
  specialize (IH H2). lia.
Qed.

Lemma msum_elem g m i x : (forall j y, m !! j = Some y -> 0 <= g y) -> m !! i = Some x -> g x <= msum g m.
Proof.
  intros Hg Hi. rewrite (msum_delete g m i x Hi). assert (H : 0 <= msum g (delete i m)); [|lia]. clear Hi x.
  assert (Hd : forall j y, delete i m !! j = Some y -> 0 <= g y) by (intros j y [_ Hj]%lookup_delete_Some; by apply (Hg j)). revert Hd.
  generalize (delete i m) as m'. intros m'. induction m' as [|j y m' Hj IH] using map_ind; intros Hd; [by rewrite msum_empty|].
  rewrite msum_insert by done. assert (H1 := Hd j y ltac:(apply lookup_insert_eq)). assert (H2 : 0 <= msum g m'); [|lia]. apply IH.
  intros l z Hl. apply (Hd l). rewrite lookup_insert_ne; congruence.
Qed.

Lemma msum_zero g m : (forall i x, m !! i = Some x -> g x = 0) -> msum g m = 0.
Proof.
  induction m as [|i x m Hi IH] using map_ind; intros Hg; [by rewrite msum_empty|]. rewrite msum_insert by done.
  rewrite (Hg i x) by apply lookup_insert_eq. rewrite IH; [done|]. intros j y Hj. apply (Hg j). rewrite lookup_insert_ne; congruence.
Qed.
End Sums.

Lemma msum_fmap {A B} (h : A -> B) (g : B -> Z) (m : gmap Z A) : msum g (h <$> m) = msum (fun x => g (h x)) m.
Proof.
  induction m as [|i x m Hi IH] using map_ind; [by rewrite fmap_empty, !msum_empty|].
  rewrite fmap_insert, !msum_insert, IH; [done|done|]. by rewrite lookup_fmap, Hi.
Qed.

(** 1 when the proposition holds. *)
Definition one (b : Prop) `{Decision b} : Z := if decide b then 1 else 0.

Lemma one_range (b : Prop) `{Decision b} : 0 <= one b <= 1.
Proof. unfold one. case_decide; lia. Qed.
