(* ===== verification/PageAlloc.v ===== *)
(** * Physical page allocator ([mm/page_alloc.c])

    The buddy allocator: 16 free lists threaded through the free pages, the
    order of each free block head in [block_order], a reference count per page
    in [mem_map].  [buddy_inv] relates the concrete state to the lists of free
    blocks and to the map of blocks in use; every operation preserves it. *)
From S2P Require Import Prelude.

Definition PAGE_SHIFT : Z := 12.
Definition PAGE_SIZE : Z := 4096.
Definition KERNEL_VIRT_BASE : Z := 0xffff800080000000.
Definition KERNEL_PHYS_BASE : Z := 0x40000000.
Definition PHYS_VIRT_OFFSET : Z := KERNEL_VIRT_BASE - KERNEL_PHYS_BASE.
Definition PHYS_MEM_SIZE : Z := 128 * 1024 * 1024.
Definition VIRT_MEM_END : Z := KERNEL_VIRT_BASE + PHYS_MEM_SIZE.
Definition MAX_PAGES : Z := PHYS_MEM_SIZE / PAGE_SIZE.

(** The static variables of page_alloc.c, and the memory of the pages. *)
Record buddy := mkBuddy {
  free_area : gmap Z Z;     (* order -> first free block, 0 for NULL *)
  mem_start : Z;
  mem_size : Z;
  max_order : Z;
  pool_pages : Z;
  block_order : gmap Z Z;   (* signed char, -1 when not a free block head *)
  refcount : gmap Z Z;      (* mem_map[pfn]._refcount *)
  mem : gmap Z Z            (* cells of kernel memory, by address *)
}.

Definition set_free_area (s : buddy) (v : gmap Z Z) : buddy :=
  mkBuddy v (mem_start s) (mem_size s) (max_order s) (pool_pages s)
    (block_order s) (refcount s) (mem s).
Definition set_block_order (s : buddy) (v : gmap Z Z) : buddy :=
  mkBuddy (free_area s) (mem_start s) (mem_size s) (max_order s) (pool_pages s)
    v (refcount s) (mem s).
Definition set_refcount (s : buddy) (v : gmap Z Z) : buddy :=
  mkBuddy (free_area s) (mem_start s) (mem_size s) (max_order s) (pool_pages s)
    (block_order s) v (mem s).
Definition set_mem (s : buddy) (v : gmap Z Z) : buddy :=
  mkBuddy (free_area s) (mem_start s) (mem_size s) (max_order s) (pool_pages s)
    (block_order s) (refcount s) v.

Definition addr_to_pfn (s : buddy) (addr : Z) : Z :=
  Z.shiftr (u64 (addr - mem_start s)) PAGE_SHIFT.

Definition pfn_to_addr (s : buddy) (pfn : Z) : Z :=
  u64 (mem_start s + u64 (Z.shiftl pfn PAGE_SHIFT)).

(** [pfn_to_block] is the address itself: a [struct free_block] holds only
    its [next] pointer, at offset 0. *)
Definition pfn_to_block (s : buddy) (pfn : Z) : Z := pfn_to_addr s pfn.

Definition order_valid (s : buddy) (order : Z) : bool :=
  (0 <=? order) && (u32 order <=? max_order s).

Definition addr_in_pool (s : buddy) (addr order : Z) : bool :=
  let size := u64 (Z.shiftl PAGE_SIZE order) in
  let e := u64 (mem_start s + mem_size s) in
  if (addr <? mem_start s) || (e <? u64 (addr + size)) then false
  else if negb (Z.land addr (u64 (size - 1)) =? 0) then false
  else true.

Definition pfn_in_pool (s : buddy) (pfn : Z) : bool := pfn <? pool_pages s.

(** The free list of one order as a linked list: its head is
    [free_area[order]], the [next] field of a block is its first cell. *)
Definition free_list (order : Z) : SList buddy := {|
  sget := fun s c =>
    match c with CHead => (free_area s).[order] | CNext p => (mem s).[p] end;
  sset := fun s c v =>
    match c with
    | CHead => set_free_area s (<[order := v]> (free_area s))
    | CNext p => set_mem s (<[p := v]> (mem s))
    end
|}.

Definition free_list_add (s : buddy) (pfn order : Z) : buddy :=
  let block := pfn_to_block s pfn in
  let s1 := set_mem s (<[block := (free_area s).[order]]> (mem s)) in
  let s2 := set_free_area s1 (<[order := block]> (free_area s1)) in
  set_block_order s2 (<[pfn := s8 order]> (block_order s2)).

(** Fuel for walks over a free list: a list holds at most one block per page. *)
Definition list_fuel (s : buddy) : nat := S (Z.to_nat (pool_pages s)).

Definition free_list_remove (s : buddy) (pfn order : Z) : option buddy :=
  let block := pfn_to_block s pfn in
  '(s1, found) ← @slist_unlink _ (free_list order) (list_fuel s) s block CHead;
  Some (if found : bool
        then set_block_order s1 (<[pfn := -1]> (block_order s1)) else s1).

Definition free_list_pop (s : buddy) (order : Z) : Z * buddy :=
  let block := (free_area s).[order] in
  if block =? 0 then (MAX_PAGES, s)
  else
    let s1 := set_free_area s (<[order := (mem s).[block]]> (free_area s)) in
    let pfn := addr_to_pfn s1 block in
    (pfn, set_block_order s1 (<[pfn := -1]> (block_order s1))).

Fixpoint split_loop (fuel : nat) (s : buddy) (pfn order to_order : Z) : option buddy :=
  match fuel with
  | O => None
  | S fuel' =>
      if to_order <? order then
        let order' := order - 1 in
        split_loop fuel'
          (free_list_add s (Z.lxor pfn (Z.shiftl 1 order')) order') pfn order' to_order
      else Some s
  end.

Definition split_block (s : buddy) (pfn from_order to_order : Z) : option buddy :=
  split_loop (S (Z.to_nat from_order)) s pfn from_order to_order.

Fixpoint buddy_free_loop (fuel : nat) (s : buddy) (pfn o : Z) : option (buddy * Z * Z) :=
  match fuel with
  | O => None
  | S fuel' =>
      if o <? max_order s then
        let buddy_pfn := Z.lxor pfn (Z.shiftl 1 o) in
        if pool_pages s <=? buddy_pfn then Some (s, pfn, o)
        else if negb ((block_order s).[buddy_pfn] =? s8 o) then Some (s, pfn, o)
        else
          s1 ← free_list_remove s buddy_pfn o;
          let pfn' := if buddy_pfn <? pfn then buddy_pfn else pfn in
          buddy_free_loop fuel' s1 pfn' (o + 1)
      else Some (s, pfn, o)
  end.

Definition buddy_free (s : buddy) (pfn order : Z) : option buddy :=
  '(s1, pfn', o) ← buddy_free_loop (S (Z.to_nat (max_order s))) s pfn order;
  Some (free_list_add s1 pfn' o).

(** [page_alloc_init]; the linker symbol [__alloc_start] is the parameter
    [start], and [63 - __builtin_clzl(n)] is the binary logarithm of [n]. *)
Definition page_alloc_init (s : buddy) (start : Z) : buddy :=
  let free_area0 :=
    arr_fill 16 (free_area s) 0 0 in
  let block_order0 :=
    arr_fill (Z.to_nat MAX_PAGES) (block_order s) 0 (-1) in
  let refcount0 :=
    arr_fill (Z.to_nat MAX_PAGES) (refcount s) 0 0 in
  let start' := Z.land (u64 (start + PAGE_SIZE - 1)) (u64 (Z.lnot (PAGE_SIZE - 1))) in
  let s0 := mkBuddy free_area0 start' (mem_size s) (max_order s) (pool_pages s)
              block_order0 refcount0 (mem s) in
  if VIRT_MEM_END <=? start' then s0
  else
    let size := VIRT_MEM_END - start' in
    let npages := size / PAGE_SIZE in
    if npages =? 0 then s0
    else
      let max_order' := Z.log2 npages in
      let pool_pages' := u32 (Z.shiftl 1 max_order') in
      let mem_size' := Z.shiftl pool_pages' PAGE_SHIFT in
      free_list_add
        (mkBuddy free_area0 start' mem_size' max_order' pool_pages'
           block_order0 refcount0 (mem s)) 0 max_order'.

(** A [struct page *] is the index of the page in [mem_map]; [None] is NULL. *)
Definition virt_to_page (s : buddy) (addr : Z) : option Z :=
  if (addr =? 0) || negb (addr_in_pool s addr 0) then None
  else
    let pfn := addr_to_pfn s addr in
    if negb (pfn_in_pool s pfn) then None else Some pfn.

Definition page_address (s : buddy) (page : option Z) : Z :=
  match page with
  | None => 0
  | Some pfn => if negb (pfn_in_pool s pfn) then 0 else pfn_to_addr s pfn
  end.

Fixpoint alloc_loop (fuel : nat) (s : buddy) (o order : Z) : option (Z * buddy) :=
  match fuel with
  | O => None
  | S fuel' =>
      if o <=? max_order s then
        if (free_area s).[o] =? 0 then alloc_loop fuel' s (o + 1) order
        else
          let '(pfn, s1) := free_list_pop s o in
          if pool_pages s1 <=? pfn then Some (0, s1)
          else
            s2 ← split_block s1 pfn o order;
            let s3 := set_block_order s2 (<[pfn := -1]> (block_order s2)) in
            let s4 := set_refcount s3 (<[pfn := 1]> (refcount s3)) in
            Some (pfn_to_addr s4 pfn, s4)
      else Some (0, s)
  end.

Definition alloc_pages (s : buddy) (order : Z) : option (Z * buddy) :=
  if negb (order_valid s order) then Some (0, s)
  else alloc_loop (S (S (Z.to_nat (max_order s)))) s order order.

Definition free_pages (s : buddy) (addr order : Z) : option buddy :=
  if (addr =? 0) || negb (order_valid s order) then Some s
  else
    let pfn := addr_to_pfn s addr in
    if negb (pfn_in_pool s pfn) || negb (addr_in_pool s addr order) then Some s
    else if 0 <=? (block_order s).[pfn] then Some s
    else if 1 <? (refcount s).[pfn] then Some s
    else
      buddy_free (set_refcount s (<[pfn := 0]> (refcount s))) pfn order.

(** [atomic_inc] / [atomic_dec_and_test] on a 32-bit [int] counter. *)
Definition get_page (s : buddy) (page : option Z) : buddy :=
  match page with
  | None => s
  | Some pfn => set_refcount s (<[pfn := s32 ((refcount s).[pfn] + 1)]> (refcount s))
  end.

Definition put_page (s : buddy) (page : option Z) : option buddy :=
  match page with
  | None => Some s
  | Some pfn =>
      let c := s32 ((refcount s).[pfn] - 1) in
      let s1 := set_refcount s (<[pfn := c]> (refcount s)) in
      if negb (c =? 0) then Some s1
      else if negb (pfn_in_pool s1 pfn) then Some s1
      else buddy_free s1 pfn 0
  end.

Definition page_count (s : buddy) (page : option Z) : Z :=
  match page with
  | None => 0
  | Some pfn => u32 ((refcount s).[pfn])
  end.

(** ** Buddies *)

Definition buddy_of (p o : Z) : Z := Z.lxor p (2 ^ o).

Lemma shiftl_1_pow o : 0 <= o -> Z.shiftl 1 o = 2 ^ o.
Proof. intros. rewrite Z.shiftl_mul_pow2 by done. lia. Qed.

Lemma lxor_pow2_aligned p o : 0 <= o -> (2 ^ (o + 1) | p) -> Z.lxor p (2 ^ o) = p + 2 ^ o.
Proof.
  intros Ho [k ->]. symmetry. apply Z.add_nocarry_lxor.
  apply Z.bits_inj'. intros n Hn. rewrite Z.land_spec, Z.bits_0, Z.pow2_bits_eqb by done.
  destruct (Z.eqb_spec o n) as [<-|]; [|by rewrite andb_false_r].
  rewrite Z.mul_pow2_bits_low by lia. done.
Qed.

Lemma buddy_of_cases p o :
  0 <= o -> (2 ^ o | p) ->
  ((2 ^ (o + 1) | p) /\ buddy_of p o = p + 2 ^ o) \/
  ((2 ^ (o + 1) | p - 2 ^ o) /\ buddy_of p o = p - 2 ^ o).
Proof.
  intros Ho [k ->]. destruct (Z.Even_or_Odd k) as [[m Hm]|[m Hm]]; subst k.
  - left. assert ((2 ^ (o + 1) | 2 * m * 2 ^ o)).
    { exists m. rewrite Z.pow_add_r by lia. lia. }
    split; [done|]. by apply lxor_pow2_aligned.
  - right. assert (Hd : (2 ^ (o + 1) | (2 * m + 1) * 2 ^ o - 2 ^ o)).
    { exists m. rewrite Z.pow_add_r by lia. lia. }
    split; [done|]. unfold buddy_of.
    replace ((2 * m + 1) * 2 ^ o) with (((2 * m + 1) * 2 ^ o - 2 ^ o) + 2 ^ o) at 1 by lia.
    rewrite <- (lxor_pow2_aligned _ _ Ho Hd).
    by rewrite Z.lxor_assoc, Z.lxor_nilpotent, Z.lxor_0_r.
Qed.

Lemma buddy_of_invol p o : buddy_of (buddy_of p o) o = p.
Proof. unfold buddy_of. by rewrite Z.lxor_assoc, Z.lxor_nilpotent, Z.lxor_0_r. Qed.

Lemma pow2_pos o : 0 <= o -> 0 < 2 ^ o.
Proof. intros. apply Z.pow_pos_nonneg; lia. Qed.

Lemma pow2_succ o : 0 <= o -> 2 ^ (o + 1) = 2 * 2 ^ o.
Proof. intros. rewrite Z.pow_add_r by lia. lia. Qed.

Lemma divide_pow2_le a b : 0 <= a <= b -> (2 ^ a | 2 ^ b).
Proof.
  intros. exists (2 ^ (b - a)). rewrite <- Z.pow_add_r by lia. f_equal. lia.
Qed.

(** ** The block partition

    [B] maps the first page of every block of the pool to its order and to
    whether it is on a free list. *)

Abbreviation partition := (gmap Z (Z * bool)).

Definition covers (p o q : Z) : Prop := p <= q < p + 2 ^ o.

Definition block_ok (M p o : Z) : Prop :=
  0 <= o <= M /\ 0 <= p /\ (2 ^ o | p) /\ p + 2 ^ o <= 2 ^ M.

Record partition_ok (M : Z) (B : partition) : Prop := {
  part_block : forall p o f, B !! p = Some (o, f) -> block_ok M p o;
  part_cover : forall q, 0 <= q < 2 ^ M ->
    exists p o f, B !! p = Some (o, f) /\ covers p o q;
  part_disj : forall p o f p' o' f' q,
    B !! p = Some (o, f) -> B !! p' = Some (o', f') ->
    covers p o q -> covers p' o' q -> p = p'
}.

(** No two free buddies of the same order are left unmerged. *)
Definition coalesced (M : Z) (B : partition) : Prop :=
  forall p o, o < M -> B !! p = Some (o, true) -> B !! buddy_of p o <> Some (o, true).

Lemma covers_self p o : 0 <= o -> covers p o p.
Proof. intros Ho. pose proof (pow2_pos o Ho). unfold covers. lia. Qed.

Lemma buddy_block_ok M p o :
  block_ok M p o -> o < M -> block_ok M (buddy_of p o) o /\ buddy_of p o <> p.
Proof.
  intros (Ho & Hp & Hd & Hb) HM. pose proof (pow2_pos o ltac:(lia)).
  destruct (buddy_of_cases p o ltac:(lia) Hd) as [[Ha ->]|[Ha ->]].
  - assert (Hp' : p + 2 ^ (o + 1) <= 2 ^ M).
    { destruct Ha as [k Hk], (divide_pow2_le (o + 1) M ltac:(lia)) as [m Hm].
      rewrite pow2_succ in * by lia. assert (k + 1 <= m) by nia. nia. }
    rewrite pow2_succ in Hp' by lia. split; [|lia].
    repeat split; try lia. apply Z.divide_add_r; [done|apply Z.divide_refl].
  - split; [|lia]. repeat split; try lia.
    + destruct Ha as [k Hk]. rewrite pow2_succ in Hk by lia.
      destruct Hd as [m Hm]. assert (-1 < k) by nia. nia.
    + apply Z.divide_sub_r; [done|apply Z.divide_refl].
Qed.

(** Changing the status of a block keeps the partition. *)
Lemma partition_status M B p o f g :
  partition_ok M B -> B !! p = Some (o, f) -> partition_ok M (<[p := (o, g)]> B).
Proof.
  intros HB Hp. assert (Hl : forall p' o' f', <[p := (o, g)]> B !! p' = Some (o', f') ->
    exists f'', B !! p' = Some (o', f'')).
  { intros p' o' f'. rewrite lookup_insert. case_decide; [|eauto].
    subst. intros [= <- <-]. eauto. }
  split.
  - intros p' o' f' Hp'. apply Hl in Hp' as [f'' Hp']. by eapply part_block.
  - intros q Hq. destruct (part_cover _ _ HB q Hq) as (p' & o' & f' & Hp' & Hc).
    destruct (decide (p = p')) as [<-|].
    + exists p, o, g. rewrite lookup_insert_eq. split; [done|]. by simplify_eq.
    + exists p', o', f'. by rewrite lookup_insert_ne.
  - intros p1 o1 f1 p2 o2 f2 q H1 H2.
    apply Hl in H1 as [? H1]. apply Hl in H2 as [? H2]. by eapply part_disj.
Qed.

Lemma partition_self M B p o f p' o' f' :
  partition_ok M B -> B !! p = Some (o, f) -> B !! p' = Some (o', f') ->
  covers p o p' -> p = p'.
Proof.
  intros HB Hp Hp' Hc. eapply part_disj; [done..|].
  apply covers_self. apply (part_block _ _ HB) in Hp' as [? _]. lia.
Qed.

(** Cutting a block in two halves. *)
Lemma partition_split M B p o f g h :
  partition_ok M B -> B !! p = Some (o, f) -> 0 < o ->
  B !! (p + 2 ^ (o - 1)) = None /\
  partition_ok M (<[p + 2 ^ (o - 1) := (o - 1, h)]> (<[p := (o - 1, g)]> B)).
Proof.
  intros HB Hp Ho. pose proof (part_block _ _ HB _ _ _ Hp) as (HoM & Hp0 & Hd & Hb).
  set (t := 2 ^ (o - 1)) in *. assert (Ht : 0 < t) by (apply pow2_pos; lia).
  assert (Ho2 : 2 ^ o = 2 * t).
  { unfold t. rewrite <- pow2_succ by lia. f_equal. lia. }
  assert (Hnone : B !! (p + t) = None).
  { destruct (B !! (p + t)) as [[o' f']|] eqn:E; [|done].
    assert (p = p + t); [|lia].
    eapply (partition_self _ _ _ _ _ _ _ _ HB Hp E). unfold covers. lia. }
  split; [done|].
  set (B' := <[p + t := (o - 1, h)]> (<[p := (o - 1, g)]> B)).
  assert (Hl : forall p' o' f', B' !! p' = Some (o', f') ->
    (p' = p /\ o' = o - 1) \/ (p' = p + t /\ o' = o - 1) \/
    (p' <> p /\ p' <> p + t /\ B !! p' = Some (o', f'))).
  { intros p' o' f'. unfold B'. rewrite !lookup_insert.
    repeat case_decide; subst; intros; simplify_eq; auto. }
  assert (Hpar : forall p' o' f' q, B' !! p' = Some (o', f') -> covers p' o' q ->
    (covers p o q /\ (p' = p \/ p' = p + t)) \/ (p' <> p /\ B !! p' = Some (o', f'))).
  { intros p' o' f' q Hp' Hc. destruct (Hl _ _ _ Hp') as [[-> ->]|[[-> ->]|(?&?&?)]];
      [left..|by right]; unfold covers in *; fold t in Hc; split; auto; lia. }
  split.
  - intros p' o' f' Hp'. destruct (Hl _ _ _ Hp') as [[-> ->]|[[-> ->]|(_ & _ & H')]].
    + repeat split; fold t; try lia.
      eapply Z.divide_trans; [|exact Hd]. apply divide_pow2_le. lia.
    + repeat split; fold t; try lia. apply Z.divide_add_r; [|apply Z.divide_refl].
      eapply Z.divide_trans; [|exact Hd]. apply divide_pow2_le. lia.
    + by eapply part_block.
  - intros q Hq. destruct (part_cover _ _ HB q Hq) as (p' & o' & f' & Hp' & Hc).
    destruct (decide (p' = p)) as [->|Hne].
    + rewrite Hp in Hp'. injection Hp' as <- <-. unfold covers in Hc.
      destruct (Z_lt_le_dec q (p + t)).
      * exists p, (o - 1), g. unfold B'. rewrite lookup_insert_ne by lia.
        rewrite lookup_insert_eq. split; [done|]. unfold covers. fold t. lia.
      * exists (p + t), (o - 1), h. unfold B'. rewrite lookup_insert_eq.
        split; [done|]. unfold covers. fold t. lia.
    + exists p', o', f'. unfold B'. rewrite !lookup_insert_ne; [done|done|congruence].
  - intros p1 o1 f1 p2 o2 f2 q H1 H2 Hc1 Hc2.
    destruct (Hpar _ _ _ _ H1 Hc1) as [[Hc1' Hd1]|[Hn1 Hb1]],
      (Hpar _ _ _ _ H2 Hc2) as [[Hc2' Hd2]|[Hn2 Hb2]].
    + destruct (Hl _ _ _ H1) as [[-> ->]|[[-> ->]|(?&?&?)]],
        (Hl _ _ _ H2) as [[-> ->]|[[-> ->]|(?&?&?)]];
        unfold covers in *; fold t in Hc1, Hc2; lia.
    + destruct Hn2. symmetry. by eapply (part_disj _ _ HB).
    + destruct Hn1. symmetry. by eapply (part_disj _ _ HB).
    + by eapply (part_disj _ _ HB).
Qed.

(** Joining two buddies. *)
Lemma partition_merge M B lo o f g h :
  partition_ok M B -> (2 ^ (o + 1) | lo) ->
  B !! lo = Some (o, f) -> B !! (lo + 2 ^ o) = Some (o, g) ->
  partition_ok M (<[lo := (o + 1, h)]> (delete (lo + 2 ^ o) B)).
Proof.
  intros HB Hd Hlo Hhi.
  pose proof (part_block _ _ HB _ _ _ Hlo) as (Ho & Hlo0 & _ & _).
  pose proof (part_block _ _ HB _ _ _ Hhi) as (_ & _ & _ & Hb).
  assert (Ht : 0 < 2 ^ o) by (apply pow2_pos; lia).
  assert (Ho2 : 2 ^ (o + 1) = 2 * 2 ^ o) by (apply pow2_succ; lia).
  assert (HoM : o + 1 <= M).
  { apply (Z.pow_le_mono_r_iff 2); lia. }
  set (B' := <[lo := (o + 1, h)]> (delete (lo + 2 ^ o) B)).
  assert (Hl : forall p' o' f', B' !! p' = Some (o', f') ->
    (p' = lo /\ o' = o + 1) \/
    (p' <> lo /\ p' <> lo + 2 ^ o /\ B !! p' = Some (o', f'))).
  { intros p' o' f'. unfold B'. rewrite lookup_insert, lookup_delete.
    repeat case_decide; subst; intros; simplify_eq; auto. }
  split.
  - intros p' o' f' Hp'. destruct (Hl _ _ _ Hp') as [[-> ->]|(_ & _ & H')].
    + repeat split; try lia. done.
    + by eapply part_block.
  - intros q Hq. destruct (part_cover _ _ HB q Hq) as (p' & o' & f' & Hp' & Hc).
    destruct (decide (p' = lo)) as [->|]; [|destruct (decide (p' = lo + 2 ^ o)) as [->|]].
    + exists lo, (o + 1), h. unfold B'. rewrite lookup_insert_eq. split; [done|].
      simplify_eq. unfold covers in *. lia.
    + exists lo, (o + 1), h. unfold B'. rewrite lookup_insert_eq. split; [done|].
      simplify_eq. unfold covers in *. lia.
    + exists p', o', f'. unfold B'. by rewrite lookup_insert_ne, lookup_delete_ne by done.
  - assert (Hx : forall p' o' f' q, p' <> lo -> p' <> lo + 2 ^ o -> B !! p' = Some (o', f') ->
      covers p' o' q -> covers lo (o + 1) q -> False).
    { intros p' o' f' q Hn1 Hn2 Hp' Hc Hcl. unfold covers in Hcl.
      destruct (Z_lt_le_dec q (lo + 2 ^ o)).
      - apply Hn1. eapply (part_disj _ _ HB); [done|exact Hlo|done|]. unfold covers; lia.
      - apply Hn2. eapply (part_disj _ _ HB); [done|exact Hhi|done|]. unfold covers; lia. }
    intros p1 o1 f1 p2 o2 f2 q H1 H2 Hc1 Hc2.
    destruct (Hl _ _ _ H1) as [[-> ->]|(?&?&?)], (Hl _ _ _ H2) as [[-> ->]|(?&?&?)].
    + done.
    + exfalso. eauto.
    + exfalso. eauto.
    + by eapply (part_disj _ _ HB).
Qed.

(** ** Pool geometry and addresses *)

Record pool_ok (s : buddy) : Prop := {
  pool_start : 0 < mem_start s /\ (PAGE_SIZE | mem_start s);
  pool_order : 0 <= max_order s <= 15;
  pool_count : pool_pages s = 2 ^ max_order s;
  pool_size : mem_size s = PAGE_SIZE * pool_pages s;
  pool_end : mem_start s + mem_size s <= VIRT_MEM_END
}.

(** Operations never move the pool. *)
Definition same_pool (s s' : buddy) : Prop :=
  mem_start s' = mem_start s /\ mem_size s' = mem_size s /\
  max_order s' = max_order s /\ pool_pages s' = pool_pages s.

#[export] Instance same_pool_preorder : PreOrder same_pool.
Proof. split; [by repeat split|]. intros ??? (?&?&?&?) (?&?&?&?). repeat split; congruence. Qed.

Lemma pool_ok_same s s' : same_pool s s' -> pool_ok s -> pool_ok s'.
Proof. intros (E1 & E2 & E3 & E4) []. split; rewrite ?E1, ?E2, ?E3, ?E4; done. Qed.

Lemma pfn_to_addr_same s s' p : same_pool s s' -> pfn_to_addr s' p = pfn_to_addr s p.
Proof. unfold pfn_to_addr. by intros (-> & _). Qed.

Lemma pool_pages_bound s : pool_ok s -> 1 <= pool_pages s <= 2 ^ 15.
Proof.
  intros Hp. rewrite (pool_count s Hp). pose proof (pool_order s Hp). split.
  - pose proof (pow2_pos (max_order s)). lia.
  - apply Z.pow_le_mono_r; lia.
Qed.

Lemma pfn_to_addr_eq s p :
  pool_ok s -> 0 <= p < pool_pages s -> pfn_to_addr s p = mem_start s + PAGE_SIZE * p.
Proof.
  intros Hs Hp. pose proof (pool_pages_bound s Hs).
  destruct Hs as [[? ?] _ _ Hsz He]. rewrite Hsz in He.
  unfold pfn_to_addr, PAGE_SHIFT, PAGE_SIZE, VIRT_MEM_END, KERNEL_VIRT_BASE, PHYS_MEM_SIZE in *.
  rewrite Z.shiftl_mul_pow2 by lia. change (2 ^ 12) with 4096.
  rewrite (wrapu_id 64 (p * 4096)) by lia. rewrite wrapu_id; lia.
Qed.

Lemma pfn_to_addr_inj s p q :
  pool_ok s -> 0 <= p < pool_pages s -> 0 <= q < pool_pages s ->
  pfn_to_addr s p = pfn_to_addr s q -> p = q.
Proof. intros Hs Hp Hq. rewrite !pfn_to_addr_eq by done. unfold PAGE_SIZE. lia. Qed.

Lemma pfn_to_addr_nonzero s p :
  pool_ok s -> 0 <= p < pool_pages s -> pfn_to_addr s p <> 0.
Proof.
  intros Hs Hp. rewrite pfn_to_addr_eq by done. destruct (pool_start s Hs).
  unfold PAGE_SIZE. lia.
Qed.

Lemma addr_to_pfn_roundtrip s p :
  pool_ok s -> 0 <= p < pool_pages s -> addr_to_pfn s (pfn_to_addr s p) = p.
Proof.
  intros Hs Hp. rewrite pfn_to_addr_eq by done. unfold addr_to_pfn.
  pose proof (pool_pages_bound s Hs).
  rewrite wrapu_id by (unfold PAGE_SIZE; lia).
  rewrite Z.shiftr_div_pow2 by (unfold PAGE_SHIFT; lia).
  unfold PAGE_SIZE, PAGE_SHIFT. change (2 ^ 12) with 4096. 
  replace (mem_start s + 4096 * p - mem_start s) with (p * 4096) by lia.
  by apply Z.div_mul.
Qed.

(** ** Representation of the partition by the free lists *)

#[export] Instance free_list_laws o : @SListLaws buddy (free_list o).
Proof.
  split. intros s [|p] [|q] v; cbn.
  - by rewrite arr_get_insert.
  - done.
  - done.
  - rewrite arr_get_insert_case. repeat case_decide; congruence.
Qed.

(** Status of a page as [block_order] records it. *)
Definition order_entry (B : partition) (p : Z) : Z :=
  match B !! p with Some (o, true) => o | _ => -1 end.

Record buddy_rep (s : buddy) (L : Z -> list Z) (B : partition) : Prop := {
  rep_pool : pool_ok s;
  rep_part : partition_ok (max_order s) B;
  rep_list : forall o, 0 <= o <= 15 ->
    @slist _ (free_list o) s (pfn_to_addr s <$> L o);
  rep_elem : forall o p, p ∈ L o <-> B !! p = Some (o, true);
  rep_order : forall p, 0 <= p < pool_pages s -> (block_order s).[p] = order_entry B p
}.

(** Pages of free blocks, and the memory an operation may write: the first
    cell of pages in [F]. *)
Definition free_page (B : partition) (q : Z) : Prop :=
  exists p o, B !! p = Some (o, true) /\ covers p o q.

Definition writes_in (F : Z -> Prop) (s s' : buddy) : Prop :=
  forall a, (forall q, F q -> 0 <= q < pool_pages s -> a <> pfn_to_addr s q) ->
    (mem s').[a] = (mem s).[a].

Lemma writes_in_refl F s : writes_in F s s.
Proof. by intros a _. Qed.

Lemma writes_in_trans (F G : Z -> Prop) s1 s2 s3 :
  same_pool s1 s2 -> (forall q, G q -> F q) ->
  writes_in F s1 s2 -> writes_in G s2 s3 -> writes_in F s1 s3.
Proof.
  intros Hp HFG H1 H2 a Ha. rewrite H2, H1; [done..|].
  intros q Hq Hr. rewrite (pfn_to_addr_same s1 s2) by done.
  destruct Hp as (_ & _ & _ & Hpp). apply Ha; [by apply HFG|lia].
Qed.

Lemma writes_in_mono (F G : Z -> Prop) s s' :
  (forall q, G q -> F q) -> writes_in G s s' -> writes_in F s s'.
Proof. intros HFG H a Ha. apply H. intros q Hq. apply Ha. by apply HFG. Qed.

Lemma rep_block s L B p o f :
  buddy_rep s L B -> B !! p = Some (o, f) ->
  block_ok (max_order s) p o /\ 0 <= p < pool_pages s /\ 0 <= o <= 15.
Proof.
  intros HR Hp. pose proof (part_block _ _ (rep_part _ _ _ HR) _ _ _ Hp) as Hb.
  split; [done|]. destruct Hb as (Ho & Hp0 & _ & Hb).
  pose proof (pool_order _ (rep_pool _ _ _ HR)).
  rewrite (pool_count _ (rep_pool _ _ _ HR)). pose proof (pow2_pos o). lia.
Qed.

Lemma rep_addr_elem s L B o p :
  buddy_rep s L B -> 0 <= p < pool_pages s ->
  pfn_to_addr s p ∈ pfn_to_addr s <$> L o <-> B !! p = Some (o, true).
Proof.
  intros HR Hp. rewrite <- (rep_elem _ _ _ HR). rewrite list_elem_of_fmap. split.
  - intros (q & Hq & Hin). assert (Hb := Hin).
    apply (rep_elem _ _ _ HR) in Hb. apply (rep_block _ _ _ _ _ _ HR) in Hb as (_ & Hb & _).
    apply pfn_to_addr_inj in Hq; [by subst|apply (rep_pool _ _ _ HR)|done..].
  - intros. eauto.
Qed.

(** Effect of a primitive list operation: the pool and the counts stay. *)
Definition list_op (s s' : buddy) : Prop :=
  same_pool s s' /\ refcount s' = refcount s.

#[export] Instance list_op_preorder : PreOrder list_op.
Proof.
  split; [by split|]. intros ??? [? E1] [? E2]. split; [by etrans|congruence].
Qed.

(** Lists of the other orders survive a write to one list. *)
Lemma slist_other_order s s' L B o o' p :
  buddy_rep s L B -> o' <> o -> 0 <= o' <= 15 ->
  B !! p <> Some (o', true) -> 0 <= p < pool_pages s ->
  (free_area s').[o'] = (free_area s).[o'] ->
  (forall a, a <> pfn_to_addr s p -> (mem s').[a] = (mem s).[a]) ->
  @slist _ (free_list o') s' (pfn_to_addr s <$> L o').
Proof.
  intros HR Ho Ho' Hp Hr Hh Hm.
  apply (@slist_frame _ (free_list o') s s'); [|done|by apply (rep_list _ _ _ HR)].
  intros x Hx. cbn. apply Hm. intros ->. by apply (rep_addr_elem _ _ _ _ _ HR Hr) in Hx.
Qed.

Lemma order_entry_insert (B : partition) (p o q : Z) (f : bool) :
  order_entry (<[p := (o, f)]> B) q =
    if decide (p = q) then (if f then o else -1) else order_entry B q.
Proof. unfold order_entry. rewrite lookup_insert. case_decide; [by destruct f|done]. Qed.

Lemma s8_order o : 0 <= o <= 15 -> s8 o = o.
Proof. intros. apply wraps_id; lia. Qed.

Lemma free_list_add_rep s L B p o :
  buddy_rep s L B -> B !! p = Some (o, false) ->
  let s' := free_list_add s p o in
  buddy_rep s' (<[o := p :: L o]> L) (<[p := (o, true)]> B) /\
  list_op s s' /\ writes_in (eq p) s s'.
Proof.
  intros HR Hp s'. destruct (rep_block _ _ _ _ _ _ HR Hp) as (Hb & Hr & Ho).
  assert (Hpool := rep_pool _ _ _ HR).
  assert (Hmem : forall a, a <> pfn_to_addr s p -> (mem s').[a] = (mem s).[a]).
  { intros a Ha. apply arr_get_insert_ne. unfold pfn_to_block. congruence. }
  split; [split|split; [by repeat split|]].
  - by apply (pool_ok_same s).
  - by eapply partition_status; [apply HR|].
  - intros o' Ho'. change (pfn_to_addr s') with (pfn_to_addr s).
    destruct (decide (o = o')) as [<-|Hne].
    + rewrite fn_lookup_insert. cbn [fmap list_fmap].
      apply (@slist_frame _ (free_list o) (@slist_push _ (free_list o) s (pfn_to_addr s p)) s');
        [done..|].
      apply (@slist_push_spec _ (free_list o) _ s); [by apply pfn_to_addr_nonzero| |by apply HR].
      rewrite (rep_addr_elem _ _ _ _ _ HR Hr). congruence.
    + rewrite fn_lookup_insert_ne by done.
      eapply (slist_other_order s s' L B o o' p); try done; [congruence|].
      apply arr_get_insert_ne. done.
  - intros o' q. destruct (decide (o = o')) as [<-|Hne].
    + rewrite fn_lookup_insert, elem_of_cons, (rep_elem _ _ _ HR), lookup_insert.
      case_decide; naive_solver.
    + rewrite fn_lookup_insert_ne by done. rewrite (rep_elem _ _ _ HR), lookup_insert.
      case_decide; naive_solver.
  - intros q Hq. rewrite order_entry_insert. cbn.
    rewrite arr_get_insert_case. rewrite s8_order by done.
    case_decide; [done|by apply HR].
  - intros a Ha. apply Hmem. by apply Ha.
Qed.

(** Unlinking block [p] from position [l1 ++ p :: l2] of list [o]. *)
Lemma free_list_drop_rep s s' L B p o l1 l2 :
  buddy_rep s L B -> L o = l1 ++ p :: l2 -> list_op s s' ->
  block_order s' = <[p := -1]> (block_order s) ->
  (forall o', o' <> o -> (free_area s').[o'] = (free_area s).[o']) ->
  (forall a, (forall q, q ∈ l1 -> a <> pfn_to_addr s q) -> (mem s').[a] = (mem s).[a]) ->
  @slist _ (free_list o) s' (pfn_to_addr s <$> (l1 ++ l2)) ->
  buddy_rep s' (<[o := l1 ++ l2]> L) (<[p := (o, false)]> B) /\
  list_op s s' /\ writes_in (free_page B) s s'.
Proof.
  intros HR HL Hop; pose proof Hop as [Hpool Hrc]; intros Hbo Hfa Hmem Hlist.
  assert (Hl1 : forall q, q ∈ l1 -> B !! q = Some (o, true)).
  { intros q Hq. apply (rep_elem _ _ _ HR). rewrite HL. set_solver. }
  assert (Hp : B !! p = Some (o, true)).
  { apply (rep_elem _ _ _ HR). rewrite HL. set_solver. }
  destruct (rep_block _ _ _ _ _ _ HR Hp) as (Hb & Hr & Ho).
  assert (Hnd : NoDup (l1 ++ p :: l2)).
  { rewrite <- HL. eapply NoDup_fmap_1, (@lseg_NoDup _ (free_list o)), HR; done. }
  assert (Epool := Hpool). destruct Hpool as (E1 & E2 & E3 & E4).
  assert (Eaddr : pfn_to_addr s' = pfn_to_addr s) by (unfold pfn_to_addr; by rewrite E1).
  split; [split|split; [done|]].
  - eapply pool_ok_same; [done|apply HR].
  - rewrite E3. eapply partition_status; [apply HR|done].
  - intros o' Ho'. rewrite Eaddr. destruct (decide (o = o')) as [<-|Hne].
    + by rewrite fn_lookup_insert.
    + rewrite fn_lookup_insert_ne by done.
      apply (@slist_frame _ (free_list o') s s'); [|by apply Hfa|by apply HR].
      intros x Hx. cbn. apply Hmem. intros q Hq ->.
      apply Hl1 in Hq. destruct (rep_block _ _ _ _ _ _ HR Hq) as (_ & Hqr & _).
      apply (rep_addr_elem _ _ _ _ _ HR Hqr) in Hx. congruence.
  - intros o' q. destruct (decide (o = o')) as [<-|Hne].
    + rewrite fn_lookup_insert, lookup_insert. apply NoDup_app in Hnd as (_ & Hd & Hnd).
      apply NoDup_cons in Hnd as [Hn2 _]. case_decide as Hq.
      * subst q. split; [|done]. intros Hin. exfalso.
        apply elem_of_app in Hin as [Hin|]; [|done]. apply (Hd p Hin). set_solver.
      * rewrite <- (rep_elem _ _ _ HR), HL. set_solver.
    + rewrite fn_lookup_insert_ne by done. rewrite (rep_elem _ _ _ HR), lookup_insert.
      case_decide; naive_solver.
  - intros q Hq. rewrite E4 in Hq. rewrite order_entry_insert, Hbo, arr_get_insert_case.
    case_decide; [done|]. by apply HR.
  - intros a Ha. apply Hmem. intros q Hq. assert (Hq' := Hl1 _ Hq).
    destruct (rep_block _ _ _ _ _ _ HR Hq') as (_ & Hqr & ?).
    apply Ha; [|done]. exists q, o. split; [done|]. apply covers_self. lia.
Qed.

Lemma free_list_length s L B o :
  buddy_rep s L B -> 0 <= o <= 15 -> (length (L o) <= Z.to_nat (pool_pages s))%nat.
Proof.
  intros HR Ho. rewrite <- (length_seqZ 0 (pool_pages s)).
  apply submseteq_length, NoDup_submseteq.
  - eapply NoDup_fmap_1, (@lseg_NoDup _ (free_list o)), HR; done.
  - intros p Hp. apply (rep_elem _ _ _ HR) in Hp.
    apply (rep_block _ _ _ _ _ _ HR) in Hp as (_ & Hr & _). apply elem_of_seqZ. lia.
Qed.

Lemma free_list_remove_rep s L B p o :
  buddy_rep s L B -> B !! p = Some (o, true) ->
  exists s' L', free_list_remove s p o = Some s' /\
    buddy_rep s' L' (<[p := (o, false)]> B) /\
    list_op s s' /\ writes_in (free_page B) s s'.
Proof.
  intros HR Hp. destruct (rep_block _ _ _ _ _ _ HR Hp) as (_ & Hr & Ho).
  assert (Hin := Hp). apply (rep_elem _ _ _ HR) in Hin.
  apply list_elem_of_split in Hin as (l1 & l2 & HL).
  assert (Hl := rep_list _ _ _ HR o Ho). rewrite HL, fmap_app, fmap_cons in Hl.
  assert (Hf : (length (pfn_to_addr s <$> l1) < list_fuel s)%nat).
  { pose proof (free_list_length _ _ _ _ HR Ho) as Hlen. rewrite HL, length_app in Hlen.
    rewrite length_fmap. unfold list_fuel. simpl in Hlen. lia. }
  destruct (@slist_unlink_present _ (free_list o) _ _ _ _ _ _ Hl Hf) as (c & Hc & Eu & Hs).
  set (s1 := @sset _ (free_list o) s c (@sget _ (free_list o) s (CNext (pfn_to_addr s p)))) in *.
  exists (set_block_order s1 (<[p := -1]> (block_order s1))), (<[o := l1 ++ l2]> L).
  split; [unfold free_list_remove, pfn_to_block; by rewrite Eu|].
  assert (Hop : list_op s (set_block_order s1 (<[p := -1]> (block_order s1)))).
  { unfold s1. by destruct c. }
  apply (free_list_drop_rep s _ L B p o l1 l2); try done.
  - unfold s1. by destruct c.
  - intros o' Ho'. unfold s1. destruct c; [|done]. cbn. by rewrite arr_get_insert_ne.
  - intros a Ha. unfold s1. destruct Hc as [->|(y & Hy & ->)]; [done|].
    apply list_elem_of_fmap in Hy as (q & -> & Hq). cbn.
    rewrite arr_get_insert_ne; [done|]. intros <-. by apply (Ha q).
  - rewrite fmap_app. by apply (@slist_frame _ (free_list o) s1).
Qed.

Lemma free_list_pop_rep s L B p o l :
  buddy_rep s L B -> 0 <= o <= 15 -> L o = p :: l ->
  exists s', free_list_pop s o = (p, s') /\
    buddy_rep s' (<[o := l]> L) (<[p := (o, false)]> B) /\
    list_op s s' /\ writes_in (free_page B) s s'.
Proof.
  intros HR Ho HL.
  assert (Hl := rep_list _ _ _ HR o Ho). rewrite HL in Hl. destruct Hl as (Eh & Hn & Hl).
  cbn in Eh. assert (Hp : B !! p = Some (o, true)).
  { apply (rep_elem _ _ _ HR). rewrite HL. set_solver. }
  destruct (rep_block _ _ _ _ _ _ HR Hp) as (_ & Hr & _).
  set (s1 := set_free_area s (<[o := (mem s).[pfn_to_addr s p]]> (free_area s))).
  exists (set_block_order s1 (<[p := -1]> (block_order s1))). split.
  { unfold free_list_pop. rewrite Eh. rewrite (proj2 (Z.eqb_neq _ _)) by done.
    fold s1. change (addr_to_pfn s1) with (addr_to_pfn s).
    rewrite addr_to_pfn_roundtrip by (done || apply HR). done. }
  apply (free_list_drop_rep s _ L B p o [] l); try done.
  - intros o' Ho'. cbn. by rewrite arr_get_insert_ne.
  - cbn. unfold slist. cbn. rewrite arr_get_insert.
    apply (@lseg_frame _ (free_list o) s); done.
Qed.

(** ** Blocks in use *)

Definition used (B : partition) : gmap Z Z :=
  omap (fun e : Z * bool => if snd e then None else Some (fst e)) B.

Lemma used_lookup B p o : used B !! p = Some o <-> B !! p = Some (o, false).
Proof.
  unfold used. rewrite lookup_omap. destruct (B !! p) as [[o' []]|]; naive_solver.
Qed.

Lemma used_free (B : partition) (p o : Z) : used (<[p := (o, true)]> B) = delete p (used B).
Proof. unfold used. by rewrite omap_insert_None. Qed.

Lemma used_alloc (B : partition) (p o : Z) : used (<[p := (o, false)]> B) = <[p := o]> (used B).
Proof. unfold used. by rewrite (omap_insert_Some _ _ _ _ o). Qed.

Lemma used_delete (B : partition) p : used (delete p B) = delete p (used B).
Proof. apply omap_delete. Qed.

(** Pages outside every block in use. *)
Definition outside (A : gmap Z Z) (q : Z) : Prop :=
  forall p o, A !! p = Some o -> ~ covers p o q.

Lemma free_page_outside M B q : partition_ok M B -> free_page B q -> outside (used B) q.
Proof.
  intros HB (p & o & Hp & Hc) p' o' Hu Hc'. apply used_lookup in Hu.
  assert (p = p') as <- by (by eapply (part_disj _ _ HB)). congruence.
Qed.

Lemma in_hand_outside M B p o q :
  partition_ok M B -> B !! p = Some (o, false) -> covers p o q ->
  outside (delete p (used B)) q.
Proof.
  intros HB Hp Hc p' o' Hu Hc'. apply lookup_delete_Some in Hu as [Hne Hu].
  apply used_lookup in Hu. apply Hne. by eapply (part_disj _ _ HB).
Qed.

Lemma outside_delete A p q : outside A q -> outside (delete p A) q.
Proof. intros H p' o' Hp'. apply lookup_delete_Some in Hp' as [_ ?]. by apply H. Qed.

(** ** Splitting and merging the block in hand *)

Lemma rep_split s L B p o :
  buddy_rep s L B -> B !! p = Some (o, false) -> 0 < o ->
  let h := p + 2 ^ (o - 1) in
  B !! h = None /\
  buddy_rep s L (<[h := (o - 1, false)]> (<[p := (o - 1, false)]> B)).
Proof.
  intros HR Hp Ho h.
  destruct (partition_split _ _ _ _ _ false false (rep_part _ _ _ HR) Hp Ho) as [Hn HB].
  fold h in Hn, HB. split; [done|]. split; [apply HR|done|apply HR| |].
  - intros o' q. rewrite (rep_elem _ _ _ HR), !lookup_insert. fold h.
    destruct (decide (h = q)) as [E|], (decide (p = q)) as [E'|]; try subst q; split; congruence.
  - intros q Hq. rewrite !order_entry_insert. fold h. rewrite (rep_order _ _ _ HR) by done.
    unfold order_entry.
    destruct (decide (h = q)) as [E|]; [subst q; by rewrite Hn|].
    destruct (decide (p = q)) as [E|]; [subst q; by rewrite Hp|done].
Qed.

Lemma rep_merge s L B lo o :
  buddy_rep s L B -> (2 ^ (o + 1) | lo) ->
  B !! lo = Some (o, false) -> B !! (lo + 2 ^ o) = Some (o, false) ->
  buddy_rep s L (<[lo := (o + 1, false)]> (delete (lo + 2 ^ o) B)).
Proof.
  intros HR Hd Hlo Hhi.
  assert (HB := partition_merge _ _ _ _ _ _ false (rep_part _ _ _ HR) Hd Hlo Hhi).
  split; [apply HR|done|apply HR| |].
  - intros o' q. rewrite (rep_elem _ _ _ HR), lookup_insert, lookup_delete.
    repeat case_decide; subst; split; congruence.
  - intros q Hq. rewrite order_entry_insert. rewrite (rep_order _ _ _ HR) by done.
    unfold order_entry. case_decide; subst; [by rewrite Hlo|].
    rewrite lookup_delete. case_decide; subst; [by rewrite Hhi|done].
Qed.

Lemma buddy_of_lower p o :
  0 < o -> (2 ^ o | p) -> buddy_of p (o - 1) = p + 2 ^ (o - 1).
Proof. intros Ho Hd. apply lxor_pow2_aligned; [lia|]. by rewrite Z.sub_add. Qed.

Lemma buddy_of_ne p o : 0 <= o -> buddy_of p o <> p.
Proof.
  intros Ho E. assert (Hp := pow2_pos o Ho).
  assert (2 ^ o = Z.lxor p (buddy_of p o)).
  { unfold buddy_of. by rewrite <- Z.lxor_assoc, Z.lxor_nilpotent, Z.lxor_0_l. }
  rewrite E, Z.lxor_nilpotent in *. lia.
Qed.

Lemma coalesced_free M B p o :
  0 <= o -> coalesced M B -> B !! buddy_of p o <> Some (o, true) ->
  coalesced M (<[p := (o, true)]> B).
Proof.
  intros Ho HC Hb q oq Hq Hl Hl'. rewrite lookup_insert in Hl, Hl'.
  destruct (decide (p = q)) as [<-|Hpq].
  - injection Hl as <-. rewrite decide_False in Hl' by (pose proof (buddy_of_ne p o Ho); congruence).
    done.
  - destruct (decide (p = buddy_of q oq)) as [->|]; [|by apply (HC q oq)].
    injection Hl' as ->. by rewrite buddy_of_invol in Hb.
Qed.

Lemma coalesced_sub M (B B' : partition) :
  coalesced M B -> (forall p o, B' !! p = Some (o, true) -> B !! p = Some (o, true)) ->
  coalesced M B'.
Proof. intros HC Hs p o Ho Hp Hb. by apply (HC p o Ho); apply Hs. Qed.

Lemma split_loop_rep fuel s L B p o to :
  buddy_rep s L B -> coalesced (max_order s) B -> B !! p = Some (o, false) ->
  0 <= to <= o -> (Z.to_nat (o - to) < fuel)%nat ->
  exists s' L' B', split_loop fuel s p o to = Some s' /\
    buddy_rep s' L' B' /\ coalesced (max_order s) B' /\
    used B' = <[p := to]> (used B) /\
    list_op s s' /\ writes_in (covers p o) s s'.
Proof.
  revert s L B o. induction fuel as [|fuel IH]; intros s L B o HR HC Hp Hto Hf; [lia|].
  cbn [split_loop]. destruct (Z.ltb_spec to o).
  2:{ assert (to = o) as -> by lia. exists s, L, B. splits; try done.
      by rewrite insert_id by (by apply used_lookup). }
  destruct (rep_block _ _ _ _ _ _ HR Hp) as ((Ho & Hp0 & Hd & Hb) & Hr & Ho').
  assert (Eb : Z.lxor p (Z.shiftl 1 (o - 1)) = p + 2 ^ (o - 1)).
  { rewrite shiftl_1_pow by lia. by apply buddy_of_lower; [lia|]. }
  rewrite Eb. destruct (rep_split _ _ _ _ _ HR Hp ltac:(lia)) as [Hn HR1].
  set (h := p + 2 ^ (o - 1)) in *.
  assert (Ht : 0 < 2 ^ (o - 1)) by (apply pow2_pos; lia).
  set (B1 := <[h := (o - 1, false)]> (<[p := (o - 1, false)]> B)) in *.
  assert (HB1h : B1 !! h = Some (o - 1, false)) by apply lookup_insert_eq.
  destruct (free_list_add_rep _ _ _ _ _ HR1 HB1h) as (HR2 & Hop2 & Hw2).
  set (s2 := free_list_add s h (o - 1)) in *.
  assert (HC2 : coalesced (max_order s2) (<[h := (o - 1, true)]> B1)).
  { destruct Hop2 as [(_ & _ & -> & _) _]. apply coalesced_free; [lia| |].
    - eapply coalesced_sub; [exact HC|]. intros q oq. unfold B1.
      rewrite !lookup_insert. repeat case_decide; congruence.
    - replace (buddy_of h (o - 1)) with p.
      + unfold B1. rewrite lookup_insert_ne by lia. by rewrite lookup_insert_eq.
      + unfold h. rewrite <- buddy_of_lower by (done || lia). by rewrite buddy_of_invol. }
  destruct (IH s2 _ _ (o - 1) HR2 HC2) as (s3 & L3 & B3 & E3 & HR3 & HC3 & HU3 & Hop3 & Hw3).
  { rewrite lookup_insert_ne by lia. unfold B1. rewrite lookup_insert_ne by lia.
    apply lookup_insert_eq. }
  { lia. }
  { lia. }
  exists s3, L3, B3. split; [done|]. split; [done|].
  assert (Emax : max_order s2 = max_order s) by (by destruct Hop2 as [(_ & _ & -> & _) _]).
  rewrite Emax in HC3. split; [done|]. split; [|split].
  - rewrite HU3, used_free. unfold B1. rewrite !used_alloc.
    rewrite delete_insert_id, insert_insert_eq; [done|].
    rewrite lookup_insert_ne by lia. apply eq_None_not_Some. intros [x Hx].
    apply used_lookup in Hx. congruence.
  - by etrans.
  - assert (Epow : 2 ^ o = 2 * 2 ^ (o - 1)).
    { rewrite <- pow2_succ by lia. f_equal. lia. }
    eapply (writes_in_trans _ (covers p (o - 1))); [apply Hop2| | |exact Hw3].
    + intros q. unfold covers. lia.
    + eapply writes_in_mono; [|exact Hw2]. intros q <-. unfold covers. lia.
Qed.

(** One round of [buddy_free]: the free buddy joins the block in hand. *)
Lemma absorb_buddy s L B p o :
  buddy_rep s L B -> coalesced (max_order s) B ->
  B !! p = Some (o, false) -> o < max_order s -> B !! buddy_of p o = Some (o, true) ->
  let p' := if buddy_of p o <? p then buddy_of p o else p in
  exists s1 L1 B1, free_list_remove s (buddy_of p o) o = Some s1 /\
    buddy_rep s1 L1 B1 /\ coalesced (max_order s) B1 /\ B1 !! p' = Some (o + 1, false) /\
    delete p' (used B1) = delete p (used B) /\
    list_op s s1 /\ writes_in (free_page B) s s1.
Proof.
  intros HR HC Hp HoM Hb p'. set (b := buddy_of p o) in *.
  destruct (rep_block _ _ _ _ _ _ HR Hp) as ((Ho & _ & Hd & _) & _ & _).
  destruct (free_list_remove_rep _ _ _ _ _ HR Hb) as (s1 & L1 & E1 & HR1 & Hop & Hw).
  set (B1 := <[b := (o, false)]> B) in *.
  assert (Hne : b <> p) by (apply buddy_of_ne; lia).
  assert (HBp : B1 !! p = Some (o, false)) by (unfold B1; by rewrite lookup_insert_ne).
  assert (HBb : B1 !! b = Some (o, false)) by apply lookup_insert_eq.
  assert (Hub : used B !! b = None).
  { apply eq_None_not_Some. intros [x Hx]. apply used_lookup in Hx. congruence. }
  assert (HC1 : forall X Y, coalesced (max_order s) (<[X := (o + 1, false)]> (delete Y B1))).
  { intros X Y. eapply coalesced_sub; [exact HC|]. intros q oq. unfold B1.
    rewrite lookup_insert, lookup_delete, lookup_insert. repeat case_decide; congruence. }
  pose proof (pow2_pos o ltac:(lia)).
  destruct (buddy_of_cases p o ltac:(lia) Hd) as [[Ha Eb]|[Ha Eb]]; fold b in Eb;
    exists s1, L1; unfold p'; destruct (Z.ltb_spec b p); try lia.
  - exists (<[p := (o + 1, false)]> (delete (p + 2 ^ o) B1)).
    splits; try done.
    + apply rep_merge; try done. by rewrite <- Eb.
    + apply lookup_insert_eq.
    + rewrite used_alloc, delete_insert_eq, used_delete, <- Eb. unfold B1.
      by rewrite used_alloc, delete_insert_id.
  - exists (<[b := (o + 1, false)]> (delete (b + 2 ^ o) B1)).
    replace (b + 2 ^ o) with p by lia. splits; try done.
    + assert (HM := rep_merge s1 L1 B1 b o HR1). replace (b + 2 ^ o) with p in HM by lia.
      apply HM; try done. by rewrite Eb.
    + apply lookup_insert_eq.
    + rewrite used_alloc, delete_insert_eq, used_delete. unfold B1.
      by rewrite used_alloc, delete_delete, delete_insert_id.
Qed.

Lemma buddy_free_loop_rep fuel s L B p o :
  buddy_rep s L B -> coalesced (max_order s) B -> B !! p = Some (o, false) ->
  (Z.to_nat (max_order s - o) < fuel)%nat ->
  exists s' L' B' p' o', buddy_free_loop fuel s p o = Some (s', p', o') /\
    buddy_rep s' L' B' /\ coalesced (max_order s) B' /\ B' !! p' = Some (o', false) /\
    (o' < max_order s -> B' !! buddy_of p' o' <> Some (o', true)) /\
    delete p' (used B') = delete p (used B) /\
    list_op s s' /\ writes_in (outside (delete p (used B))) s s'.
Proof.
  revert s L B p o. induction fuel as [|fuel IH]; intros s L B p o HR HC Hp Hf; [lia|].
  cbn [buddy_free_loop]. destruct (rep_block _ _ _ _ _ _ HR Hp) as (Hb & Hr & Ho).
  destruct (Z.ltb_spec o (max_order s)) as [HoM|].
  2:{ exists s, L, B, p, o. splits; try done; lia. }
  rewrite shiftl_1_pow by lia. fold (buddy_of p o).
  destruct (buddy_block_ok _ _ _ Hb HoM) as [(_ & Hb0 & _ & HbM) _].
  pose proof (pow2_pos o ltac:(lia)). rewrite <- (pool_count _ (rep_pool _ _ _ HR)) in HbM.
  destruct (Z.leb_spec (pool_pages s) (buddy_of p o)); [lia|].
  rewrite (rep_order _ _ _ HR) by lia. rewrite s8_order by done.
  destruct (Z.eqb_spec (order_entry B (buddy_of p o)) o) as [Hoe|Hoe]; cbn [negb].
  2:{ exists s, L, B, p, o. splits; try done.
      intros _ Hx. unfold order_entry in Hoe. by rewrite Hx in Hoe. }
  assert (Hbt : B !! buddy_of p o = Some (o, true)).
  { unfold order_entry in Hoe. destruct (B !! buddy_of p o) as [[o' []]|]; [congruence|lia..]. }
  destruct (absorb_buddy _ _ _ _ _ HR HC Hp HoM Hbt)
    as (s1 & L1 & B1 & E1 & HR1 & HC1 & Hp1 & HU1 & Hop1 & Hw1).
  assert (Emax : max_order s1 = max_order s) by (by destruct Hop1 as [(_ & _ & -> & _) _]).
  rewrite E1. cbn [mbind option_bind].
  destruct (IH s1 L1 B1 _ (o + 1) HR1 ltac:(by rewrite Emax) Hp1 ltac:(lia))
    as (s2 & L2 & B2 & p2 & o2 & E2 & HR2 & HC2 & Hp2 & Hn2 & HU2 & Hop2 & Hw2).
  rewrite Emax in *. exists s2, L2, B2, p2, o2. splits; try done.
  - congruence.
  - by etrans.
  - rewrite HU1 in Hw2. eapply writes_in_trans; [apply Hop1| | |exact Hw2]; [done|].
    eapply writes_in_mono; [|exact Hw1]. intros q Hq.
    eapply outside_delete, free_page_outside; [apply HR|done].
Qed.

Lemma buddy_free_rep s L B p o :
  buddy_rep s L B -> coalesced (max_order s) B -> B !! p = Some (o, false) ->
  exists s' L' B', buddy_free s p o = Some s' /\
    buddy_rep s' L' B' /\ coalesced (max_order s) B' /\
    used B' = delete p (used B) /\
    list_op s s' /\ writes_in (outside (delete p (used B))) s s'.
Proof.
  intros HR HC Hp. destruct (rep_block _ _ _ _ _ _ HR Hp) as (Hb & _ & Ho).
  destruct (buddy_free_loop_rep (S (Z.to_nat (max_order s))) _ _ _ _ _ HR HC Hp ltac:(lia))
    as (s1 & L1 & B1 & p1 & o1 & E1 & HR1 & HC1 & Hp1 & Hn1 & HU1 & Hop1 & Hw1).
  destruct (free_list_add_rep _ _ _ _ _ HR1 Hp1) as (HR2 & Hop2 & Hw2).
  destruct (rep_block _ _ _ _ _ _ HR1 Hp1) as ((Ho1 & _) & _ & _).
  assert (Emax : max_order s1 = max_order s) by (by destruct Hop1 as [(_ & _ & -> & _) _]).
  rewrite Emax in *.
  exists (free_list_add s1 p1 o1), (<[o1 := p1 :: L1 o1]> L1), (<[p1 := (o1, true)]> B1).
  split; [unfold buddy_free; by rewrite E1|]. splits; try done.
  - destruct (decide (o1 < max_order s)) as [Hlt|Hge].
    + apply coalesced_free; [lia|done|by apply Hn1].
    + intros q oq Hoq Hq Hq'. rewrite lookup_insert in Hq, Hq'.
      repeat case_decide; simplify_eq; try lia. by apply (HC1 q oq).
  - by rewrite used_free.
  - eapply writes_in_trans; [apply Hop1| |exact Hw1|exact Hw2].
    intros q <-. rewrite <- HU1.
    eapply in_hand_outside; [apply HR1|done|apply covers_self; lia].
Qed.

(** ** Runs of free pages *)

Lemma aligned_nested a b x y q :
  0 <= a <= b -> (2 ^ a | x) -> (2 ^ b | y) -> covers x a q -> covers y b q ->
  y <= x /\ x + 2 ^ a <= y + 2 ^ b.
Proof.
  intros Hab [i Hi] [j Hj] Hx Hy. unfold covers in *.
  destruct (divide_pow2_le a b Hab) as [m Hm]. pose proof (pow2_pos a ltac:(lia)).
  rewrite Hm in *. subst x y. set (t := 2 ^ a) in *. rewrite !Z.mul_assoc in *.
  set (n := j * m) in *. clearbody n t.
  assert (n < i + 1) by nia. assert (i < n + m) by nia. split; nia.
Qed.

(** In a coalesced partition an aligned run of free pages lies in one free
    block: no free block of a smaller order meets it. *)
Lemma coalesced_run_small M B p k :
  partition_ok M B -> coalesced M B -> block_ok M p k ->
  (forall q, covers p k q -> free_page B q) ->
  forall n o p1 q, o = Z.of_nat n -> o < k -> B !! p1 = Some (o, true) ->
    covers p k q -> covers p1 o q -> False.
Proof.
  intros HB HC (Hk & Hp0 & Hpd & HpM) Hfree n.
  induction n as [n IH] using lt_wf_ind. intros o p1 q Ho Hok Hp1 Hq Hq1.
  pose proof (part_block _ _ HB _ _ _ Hp1) as (Ho1 & Hp10 & Hd1 & _).
  destruct (aligned_nested o k p1 p q ltac:(lia) Hd1 Hpd Hq1 Hq) as [Hin1 Hin2].
  pose proof (pow2_pos o ltac:(lia)) as Ht. pose proof (pow2_succ o ltac:(lia)) as Ho2.
  set (b := buddy_of p1 o).
  assert (exists lo, (2 ^ (o + 1) | lo) /\ covers lo (o + 1) p1 /\ covers lo (o + 1) b)
    as (lo & Hlo & Hlop & Hlob).
  { destruct (buddy_of_cases p1 o ltac:(lia) Hd1) as [[Ha Eb]|[Ha Eb]]; fold b in Eb;
      [exists p1|exists (p1 - 2 ^ o)]; unfold covers; repeat split; try done; lia. }
  assert (Hbk : covers p k b).
  { assert (Hc : covers p k p1) by (unfold covers; lia).
    pose proof (aligned_nested (o + 1) k lo p p1 ltac:(lia) Hlo Hpd Hlop Hc).
    unfold covers in *. lia. }
  destruct (Hfree b Hbk) as (p2 & o2 & Hp2 & Hc2).
  pose proof (part_block _ _ HB _ _ _ Hp2) as (Ho2' & _ & Hd2 & _).
  destruct (Z.lt_trichotomy o2 o) as [Hlt|[->|Hgt]].
  - apply (IH (Z.to_nat o2) ltac:(lia) o2 p2 b); (done || lia).
  - assert (p2 = b) as ->.
    { assert (Hdb : (2 ^ o | b)).
      { destruct (buddy_of_cases p1 o ltac:(lia) Hd1) as [[_ Eb]|[_ Eb]]; fold b in Eb; rewrite Eb.
        - apply Z.divide_add_r; [done|apply Z.divide_refl].
        - apply Z.divide_sub_r; [done|apply Z.divide_refl]. }
      pose proof (aligned_nested o o b p2 b ltac:(lia) Hdb Hd2 (covers_self b o ltac:(lia)) Hc2). lia. }
    by apply (HC p1 o ltac:(lia) Hp1).
  - pose proof (aligned_nested (o + 1) o2 lo p2 b ltac:(lia) Hlo Hd2 Hlob Hc2) as [? ?].
    assert (p1 = p2) as <-.
    { eapply (part_disj _ _ HB _ _ _ _ _ _ p1 Hp1 Hp2); [apply covers_self; lia|].
      unfold covers in *. lia. }
    rewrite Hp1 in Hp2. injection Hp2 as ->. lia.
Qed.

Lemma coalesced_run M B p k :
  partition_ok M B -> coalesced M B -> block_ok M p k ->
  (forall q, covers p k q -> free_page B q) ->
  exists p' o', B !! p' = Some (o', true) /\ k <= o' /\ covers p' o' p.
Proof.
  intros HB HC Hb Hfree. assert (Hk : 0 <= k) by (destruct Hb; lia).
  destruct (Hfree p (covers_self _ _ Hk)) as (p' & o' & Hp' & Hc).
  exists p', o'. splits; try done. apply Z.nlt_ge. intros Hlt.
  pose proof (part_block _ _ HB _ _ _ Hp') as (Ho' & _).
  apply (coalesced_run_small M B p k HB HC Hb Hfree (Z.to_nat o') o' p' p);
    try done; [lia|]. by apply covers_self.
Qed.

Lemma free_page_iff M B q :
  partition_ok M B -> 0 <= q < 2 ^ M -> free_page B q <-> outside (used B) q.
Proof.
  intros HB Hq. split; [by eapply free_page_outside|]. intros Hout.
  destruct (part_cover _ _ HB q Hq) as (p & o & [] & Hp & Hc); [by exists p, o|].
  apply used_lookup in Hp. by destruct (Hout p o Hp).
Qed.

(** ** The allocator invariant *)

(** A count of at least one on the first page of each block in use, zero on
    every other page. *)
Definition refs_ok (s : buddy) (A : gmap Z Z) : Prop :=
  forall p, 0 <= p < pool_pages s ->
    match A !! p with
    | Some _ => 1 <= (refcount s).[p] < 2 ^ 31
    | None => (refcount s).[p] = 0
    end.

(** [buddy_inv s A]: the free lists, [block_order] and the reference counts
    of [s] describe a pool in which exactly the blocks [A] (first page to
    order) are in use, and all free buddies are merged. *)
Definition buddy_inv (s : buddy) (A : gmap Z Z) : Prop :=
  exists L B, buddy_rep s L B /\ coalesced (max_order s) B /\ used B = A /\ refs_ok s A.

(** A naturally aligned run of [2 ^ o] pool pages none of which is in use. *)
Definition free_run (s : buddy) (A : gmap Z Z) (p o : Z) : Prop :=
  block_ok (max_order s) p o /\ forall q, covers p o q -> outside A q.

Lemma rep_run s L B p o :
  buddy_rep s L B -> coalesced (max_order s) B -> free_run s (used B) p o ->
  exists p' o', p' ∈ L o' /\ o <= o' <= max_order s /\ covers p' o' p.
Proof.
  intros HR HC [Hb Hrun].
  destruct (coalesced_run _ B p o (rep_part _ _ _ HR) HC Hb) as (p' & o' & Hp' & Ho & Hc).
  { intros q Hq. apply (free_page_iff _ _ _ (rep_part _ _ _ HR)); [|by apply Hrun].
    destruct Hb as (_ & ? & _ & ?). unfold covers in Hq. lia. }
  exists p', o'. destruct (rep_block _ _ _ _ _ _ HR Hp') as ((? & _) & _).
  split; [by apply (rep_elem _ _ _ HR)|]. split; [lia|done].
Qed.

Lemma alloc_loop_rep fuel s L B o order :
  buddy_rep s L B -> coalesced (max_order s) B -> refs_ok s (used B) ->
  0 <= order <= o -> o <= max_order s + 1 ->
  (Z.to_nat (max_order s + 1 - o) < fuel)%nat ->
  (alloc_loop fuel s o order = Some (0, s) /\
     forall o', o <= o' <= max_order s -> L o' = []) \/
  (exists p s', alloc_loop fuel s o order = Some (pfn_to_addr s p, s') /\
     free_run s (used B) p order /\ buddy_inv s' (<[p := order]> (used B)) /\
     same_pool s s' /\ refcount s' = <[p := 1]> (refcount s) /\
     writes_in (outside (used B)) s s').
Proof.
  revert o. induction fuel as [|fuel IH]; intros o HR HC HF Ho HoM Hf; [lia|].
  cbn [alloc_loop]. pose proof (pool_order _ (rep_pool _ _ _ HR)) as HM.
  destruct (Z.leb_spec o (max_order s)); [|left; split; [done|lia]].
  destruct (L o) as [|p l] eqn:HL.
  { assert (Hh := rep_list _ _ _ HR o ltac:(lia)). rewrite HL in Hh. cbn in Hh.
    unfold slist in Hh. cbn in Hh. rewrite Hh. cbn.
    destruct (IH (o + 1) HR HC HF ltac:(lia) ltac:(lia) ltac:(lia)) as [[E Hn]|Hok]; [left|by right].
    split; [done|]. intros o' Ho'. destruct (decide (o' = o)) as [->|]; [done|]. apply Hn. lia. }
  right. assert (Hp : B !! p = Some (o, true)).
  { apply (rep_elem _ _ _ HR). rewrite HL. set_solver. }
  destruct (rep_block _ _ _ _ _ _ HR Hp) as ((_ & Hp0 & Hpd & HpM) & Hr & _).
  assert (Hh := rep_list _ _ _ HR o ltac:(lia)). rewrite HL in Hh. destruct Hh as (Eh & Hnz & _).
  cbn in Eh. rewrite Eh. rewrite (proj2 (Z.eqb_neq _ _)) by done.
  destruct (free_list_pop_rep s L B p o l HR ltac:(lia) HL) as (s1 & E1 & HR1 & Hop1 & Hw1).
  rewrite E1. pose proof Hop1 as [(_ & _ & Em1 & Ep1) Er1].
  rewrite Ep1. destruct (Z.leb_spec (pool_pages s) p); [lia|].
  set (B1 := <[p := (o, false)]> B) in *.
  destruct (split_loop_rep (S (Z.to_nat o)) s1 _ B1 p o order HR1)
    as (s2 & L2 & B2 & E2 & HR2 & HC2 & HU2 & Hop2 & Hw2); try lia.
  { rewrite Em1. eapply coalesced_sub; [exact HC|]. intros q oq. unfold B1.
    rewrite lookup_insert. case_decide; congruence. }
  { apply lookup_insert_eq. }
  unfold split_block. rewrite E2. cbn [mbind option_bind].
  assert (HU : used B2 = <[p := order]> (used B)).
  { rewrite HU2. unfold B1. by rewrite used_alloc, insert_insert_eq. }
  set (s3 := set_refcount _ _).
  assert (Hsp : same_pool s s2) by (etrans; [apply Hop1|apply Hop2]).
  pose proof Hsp as (Es & _ & EM2 & EP2).
  assert (Er2 : refcount s2 = refcount s) by (destruct Hop2 as [_ ->]; done).
  assert (Hrc : refcount s3 = <[p := 1]> (refcount s)) by (cbn; by rewrite Er2).
  exists p, s3. splits.
  - do 2 f_equal. unfold pfn_to_addr. cbn. by rewrite Es.
  - split.
    + destruct (rep_block _ _ _ _ _ _ HR Hp) as ((? & ? & ? & ?) & _).
      pose proof (Z.pow_le_mono_r 2 order o ltac:(lia) ltac:(lia)). repeat split; try lia.
      eapply Z.divide_trans; [|done]. apply divide_pow2_le. lia.
    + intros q Hq. eapply free_page_outside; [apply HR|]. exists p, o. split; [done|].
      pose proof (Z.pow_le_mono_r 2 order o ltac:(lia) ltac:(lia)). unfold covers in *. lia.
  - exists L2, B2. splits.
    + destruct HR2 as [H1 H2 H3 H4 H5]. split; try done; [by apply (pool_ok_same s2)| |].
      { intros o' Ho'. apply (@slist_frame _ (free_list o') s2); [done..|by apply H3]. }
      intros q Hq. cbn. rewrite arr_get_insert_case. case_decide; [|by apply H5].
      subst q. unfold order_entry.
      assert (used B2 !! p = Some order) as Hu by (rewrite HU; apply lookup_insert_eq).
      apply used_lookup in Hu. by rewrite Hu.
    + cbn. by rewrite EM2, <- Em1.
    + done.
    + intros q Hq. cbn in Hq. rewrite EP2 in Hq. rewrite Hrc.
      rewrite lookup_insert, arr_get_insert_case. case_decide; [lia|]. by apply HF.
  - done.
  - done.
  - eapply (writes_in_trans _ (covers p o)); [apply Hop1| |eapply writes_in_mono; [|exact Hw1]|exact Hw2].
    + intros q Hq. eapply free_page_outside; [apply HR|]. by exists p, o.
    + intros q Hq. by eapply free_page_outside; [apply HR|].
Qed.

Lemma order_valid_iff s order :
  pool_ok s -> order < 2 ^ 31 -> order_valid s order = true <-> 0 <= order <= max_order s.
Proof.
  intros Hs Hlt. pose proof (pool_order s Hs). unfold order_valid.
  rewrite andb_true_iff, !Z.leb_le. split.
  - intros [H1 H2]. rewrite wrapu_id in H2 by lia. lia.
  - intros H1. rewrite wrapu_id by lia. lia.
Qed.

(** [alloc_pages] on a valid order: either there is no free run of that
    order, or a fresh block enters the map of blocks in use. *)
Lemma alloc_pages_rep s A order :
  buddy_inv s A -> 0 <= order <= max_order s ->
  (alloc_pages s order = Some (0, s) /\ forall p, ~ free_run s A p order) \/
  (exists p s', alloc_pages s order = Some (pfn_to_addr s p, s') /\
     0 <= p < pool_pages s /\
     free_run s A p order /\ buddy_inv s' (<[p := order]> A) /\
     same_pool s s' /\ refcount s' = <[p := 1]> (refcount s) /\
     writes_in (outside A) s s').
Proof.
  intros (L & B & HR & HC & <- & HF) Ho.
  pose proof (pool_order _ (rep_pool _ _ _ HR)) as HM.
  unfold alloc_pages.
  rewrite (proj2 (order_valid_iff s order (rep_pool _ _ _ HR) ltac:(lia)) Ho). cbn [negb].
  destruct (alloc_loop_rep (S (S (Z.to_nat (max_order s)))) s L B order order HR HC HF)
    as [[E Hn]|(p & s' & E & Hrun & Hrest)]; try lia.
  - left. split; [done|]. intros p Hrun.
    destruct (rep_run _ _ _ _ _ HR HC Hrun) as (p' & o' & Hin & Ho' & _).
    rewrite Hn in Hin by done. by apply not_elem_of_nil in Hin.
  - right. exists p, s'. split; [done|]. split; [|done].
    destruct Hrun as [(? & ? & _ & ?) _]. rewrite (pool_count _ (rep_pool _ _ _ HR)).
    pose proof (pow2_pos order). lia.
Qed.

Lemma inv_used_block s A p o :
  buddy_inv s A -> A !! p = Some o ->
  block_ok (max_order s) p o /\ 0 <= p < pool_pages s /\ (block_order s).[p] = -1.
Proof.
  intros (L & B & HR & _ & <- & _) Hp. apply used_lookup in Hp.
  destruct (rep_block _ _ _ _ _ _ HR Hp) as (Hb & Hr & _). split; [done|]. split; [done|].
  rewrite (rep_order _ _ _ HR) by done. unfold order_entry. by rewrite Hp.
Qed.

Lemma inv_pool s A : buddy_inv s A -> pool_ok s.
Proof. intros (L & B & HR & _). apply HR. Qed.

Lemma inv_disjoint s A p o p' o' q :
  buddy_inv s A -> A !! p = Some o -> A !! p' = Some o' ->
  covers p o q -> covers p' o' q -> p = p'.
Proof.
  intros (L & B & HR & _ & <- & _) Hp Hp'. apply used_lookup in Hp, Hp'.
  by eapply (part_disj _ _ (rep_part _ _ _ HR)).
Qed.

(** Writing a reference count does not disturb the block structure. *)
Lemma rep_set_refcount s L B r : buddy_rep s L B -> buddy_rep (set_refcount s r) L B.
Proof.
  intros [H1 H2 H3 H4 H5]. split; try done; [by apply (pool_ok_same s)|].
  intros o Ho. apply (@slist_frame _ (free_list o) s); [done..|by apply H3].
Qed.

Lemma buddy_free_inv s A p o :
  buddy_inv s A -> A !! p = Some o ->
  let s0 := set_refcount s (<[p := 0]> (refcount s)) in
  exists s', buddy_free s0 p o = Some s' /\ buddy_inv s' (delete p A) /\
    same_pool s s' /\ refcount s' = <[p := 0]> (refcount s) /\
    writes_in (outside (delete p A)) s s'.
Proof.
  intros (L & B & HR & HC & <- & HF) Hp s0. apply used_lookup in Hp.
  destruct (buddy_free_rep s0 L B p o) as (s' & L' & B' & E & HR' & HC' & HU & Hop & Hw);
    [by apply rep_set_refcount|done|done|].
  exists s'. destruct Hop as [Hsp Hrc]. splits; try done.
  pose proof Hsp as (_ & _ & EM & EP). exists L', B'. splits; try done.
  - by rewrite EM.
  - intros q Hq. rewrite Hrc. rewrite EP in Hq. cbn in Hq |- *.
    rewrite lookup_delete, arr_get_insert_case. case_decide; [done|]. by apply HF.
Qed.

Lemma land_pow2_divide a k : 0 <= k -> Z.land a (2 ^ k - 1) = 0 <-> (2 ^ k | a).
Proof.
  intros Hk. replace (2 ^ k - 1) with (Z.ones k) by (rewrite Z.ones_equiv; lia).
  rewrite Z.land_ones by done. pose proof (pow2_pos k Hk). split.
  - intros. apply Z.mod_divide; [lia|done].
  - intros. apply Z.mod_divide; [lia|done].
Qed.

(** The pool test of [free_pages] on the address of a block of the pool
    reduces to its alignment test on the absolute address. *)
Lemma addr_in_pool_block s p o :
  pool_ok s -> block_ok (max_order s) p o -> 0 <= p < pool_pages s ->
  addr_in_pool s (pfn_to_addr s p) o = true <-> (PAGE_SIZE * 2 ^ o | pfn_to_addr s p).
Proof.
  intros Hs (Ho & Hp0 & Hpd & HpM) Hr. unfold addr_in_pool.
  pose proof (pool_pages_bound s Hs) as HP. rewrite <- (pool_count s Hs) in HpM.
  pose proof (pow2_pos o ltac:(lia)). assert (Ea := pfn_to_addr_eq s p Hs Hr).
  destruct Hs as [[Hs0 Hsd] Hmo Hpc Hsz He]. rewrite Hsz in He.
  assert (Esz : PAGE_SIZE * 2 ^ o = 2 ^ (12 + o)).
  { rewrite Z.pow_add_r by lia. done. }
  assert (Esize : u64 (Z.shiftl PAGE_SIZE o) = 2 ^ (12 + o)).
  { rewrite Z.shiftl_mul_pow2, Esz by lia. apply wrapu_id.
    pose proof (Z.pow_lt_mono_r 2 (12 + o) 64 ltac:(lia) ltac:(lia) ltac:(lia)). lia. }
  rewrite Esize, Ea.
  unfold PAGE_SIZE, VIRT_MEM_END, KERNEL_VIRT_BASE, PHYS_MEM_SIZE in *.
  rewrite (wrapu_id 64 (mem_start s + mem_size s)) by lia.
  rewrite (wrapu_id 64 (mem_start s + 4096 * p + 2 ^ (12 + o))) by lia.
  rewrite (wrapu_id 64 (2 ^ (12 + o) - 1)) by lia.
  rewrite (proj2 (Z.ltb_ge _ _)) by lia. rewrite (proj2 (Z.ltb_ge _ _)) by lia. cbn [orb].
  rewrite Esz, <- land_pow2_divide by lia.
  destruct (Z.eqb_spec (Z.land (mem_start s + 4096 * p) (2 ^ (12 + o) - 1)) 0); cbn; [done|].
  split; done.
Qed.

(** [free_pages] on a block in use. *)
Lemma free_pages_rep s A p o :
  buddy_inv s A -> A !! p = Some o -> (refcount s).[p] = 1 ->
  (PAGE_SIZE * 2 ^ o | pfn_to_addr s p) ->
  exists s', free_pages s (pfn_to_addr s p) o = Some s' /\ buddy_inv s' (delete p A) /\
    same_pool s s' /\ refcount s' = <[p := 0]> (refcount s) /\
    writes_in (outside (delete p A)) s s'.
Proof.
  intros HI Hp Hrc Hal. destruct (inv_used_block _ _ _ _ HI Hp) as (Hb & Hr & Hbo).
  assert (Hs := inv_pool _ _ HI). pose proof (pool_order s Hs).
  unfold free_pages. rewrite addr_to_pfn_roundtrip by done.
  rewrite (proj2 (Z.eqb_neq _ _)) by (by apply pfn_to_addr_nonzero).
  rewrite (proj2 (order_valid_iff s o Hs ltac:(destruct Hb; lia)) ltac:(destruct Hb; lia)).
  rewrite (proj2 (addr_in_pool_block s p o Hs Hb Hr) Hal).
  unfold pfn_in_pool. rewrite (proj2 (Z.ltb_lt _ _)) by lia. cbn [negb orb].
  rewrite Hbo, Hrc. cbn. by apply buddy_free_inv.
Qed.

(** The blocks that [free_pages] takes back: held once, at an address that is a
    multiple of the size of the block. *)
Definition freeable (s : buddy) (p o : Z) : Prop := (refcount s).[p] = 1 /\ pfn_to_addr s p mod (PAGE_SIZE * 2 ^ o) = 0.

#[export] Instance freeable_dec s p o : Decision (freeable s p o).
Proof. unfold freeable. apply _. Defined.

Lemma freeable_iff s p o : 0 <= o -> freeable s p o <-> (refcount s).[p] = 1 /\ (PAGE_SIZE * 2 ^ o | pfn_to_addr s p).
Proof. intros Ho. unfold freeable. rewrite Z.mod_divide; [done|]. unfold PAGE_SIZE. assert (0 < 2 ^ o) by (apply Z.pow_pos_nonneg; lia). lia. Qed.

(** It ignores the others. *)
Lemma free_pages_ignored s A p o :
  buddy_inv s A -> A !! p = Some o -> ~ freeable s p o -> free_pages s (pfn_to_addr s p) o = Some s.
Proof.
  intros HI Hp Hn. destruct (inv_used_block _ _ _ _ HI Hp) as (Hb & Hr & Hbo). assert (Hs := inv_pool _ _ HI).
  assert (Hc : 1 <= (refcount s).[p] < 2 ^ 31) by (destruct HI as (L & B & _ & _ & _ & HF); specialize (HF p Hr); by rewrite Hp in HF).
  rewrite freeable_iff, <- (addr_in_pool_block s p o Hs Hb Hr) in Hn by (destruct Hb; lia).
  unfold free_pages. destruct (_ || _); [done|]. rewrite addr_to_pfn_roundtrip by done.
  destruct (addr_in_pool s (pfn_to_addr s p) o); [|by rewrite orb_true_r]. cbn [negb]. destruct (_ || _); [done|]. destruct (0 <=? _); [done|].
  destruct (Z.ltb_spec 1 ((refcount s).[p])); [done|]. destruct Hn. split; [lia|done].
Qed.

(** ** Initialisation *)

Definition page_align (x : Z) : Z :=
  Z.land (u64 (x + PAGE_SIZE - 1)) (u64 (Z.lnot (PAGE_SIZE - 1))).

Lemma page_align_spec x :
  0 <= x <= 2 ^ 64 - PAGE_SIZE ->
  (PAGE_SIZE | page_align x) /\ x <= page_align x < x + PAGE_SIZE.
Proof.
  intros Hx. unfold page_align, PAGE_SIZE in *. change (4096 - 1) with (2 ^ 12 - 1).
  rewrite (wrapu_id 64 (x + 4096 - 1)) by lia. rewrite land_mask_down by lia.
  change (2 ^ 12) with 4096. split; [exists ((x + 4096 - 1) / 4096); lia|].
  pose proof (Z.div_mod (x + 4096 - 1) 4096 ltac:(lia)).
  pose proof (Z.mod_pos_bound (x + 4096 - 1) 4096 ltac:(lia)). lia.
Qed.

(** The address range in which the linker may place [__alloc_start]. *)
Definition boot_start_ok (start : Z) : Prop :=
  KERNEL_VIRT_BASE <= start <= VIRT_MEM_END - PAGE_SIZE.

Lemma page_alloc_init_pool s start :
  boot_start_ok start ->
  let s' := page_alloc_init s start in
  let npages := (VIRT_MEM_END - page_align start) / PAGE_SIZE in
  pool_ok s' /\ mem_start s' = page_align start /\
  pool_pages s' <= npages < 2 * pool_pages s'.
Proof.
  intros Hst s' npages. unfold boot_start_ok in Hst.
  assert (Hb : 0 <= start <= 2 ^ 64 - PAGE_SIZE).
  { unfold VIRT_MEM_END, KERNEL_VIRT_BASE, PHYS_MEM_SIZE, PAGE_SIZE in *. lia. }
  destruct (page_align_spec start Hb) as [Hd Hr].
  assert (Hlt : page_align start <= VIRT_MEM_END - PAGE_SIZE).
  { destruct Hd as [k Hk].
    unfold VIRT_MEM_END, KERNEL_VIRT_BASE, PHYS_MEM_SIZE, PAGE_SIZE in *. lia. }
  assert (Hnp : 1 <= npages <= 2 ^ 15).
  { unfold npages. split.
    - apply Z.div_le_lower_bound; unfold PAGE_SIZE in *; lia.
    - apply Z.div_le_upper_bound; [unfold PAGE_SIZE; lia|].
      unfold VIRT_MEM_END, PHYS_MEM_SIZE, PAGE_SIZE in *. lia. }
  assert (Hlog : 0 <= Z.log2 npages <= 15).
  { split; [apply Z.log2_nonneg|]. change 15 with (Z.log2 (2 ^ 15)).
    apply Z.log2_le_mono. lia. }
  pose proof (Z.log2_spec npages ltac:(lia)) as Hls.
  assert (Hpp : pool_pages s' = 2 ^ Z.log2 npages /\ max_order s' = Z.log2 npages /\
    mem_start s' = page_align start /\ mem_size s' = PAGE_SIZE * 2 ^ Z.log2 npages).
  { unfold s', page_alloc_init. fold (page_align start).
    rewrite (proj2 (Z.leb_gt _ _)) by (unfold PAGE_SIZE in Hlt; lia). fold npages.
    rewrite (proj2 (Z.eqb_neq _ _)) by lia. cbn.
    rewrite Z.shiftl_1_l. rewrite (wrapu_id 32).
    - rewrite Z.shiftl_mul_pow2 by (unfold PAGE_SHIFT; lia).
      splits; try done. unfold PAGE_SIZE, PAGE_SHIFT. lia.
    - pose proof (Z.pow_le_mono_r 2 (Z.log2 npages) 15 ltac:(lia) ltac:(lia)).
      pose proof (pow2_pos (Z.log2 npages) ltac:(lia)). lia. }
  destruct Hpp as (Epp & Emo & Ems & Emz).
  split; [split|split; [done|]].
  - rewrite Ems. split; [|done]. unfold KERNEL_VIRT_BASE in *. lia.
  - by rewrite Emo.
  - by rewrite Epp, Emo.
  - by rewrite Epp, Emz.
  - rewrite Ems, Emz. pose proof (Z.mul_div_le (VIRT_MEM_END - page_align start) PAGE_SIZE
      ltac:(unfold PAGE_SIZE; lia)) as Hmd. fold npages in Hmd.
    unfold PAGE_SIZE in *. lia.
  - rewrite Epp. rewrite Z.pow_succ_r in Hls by lia. lia.
Qed.

(** A pool with empty free lists and one block in hand. *)
Lemma empty_lists_rep s :
  pool_ok s -> (forall o, 0 <= o <= 15 -> (free_area s).[o] = 0) ->
  (forall p, 0 <= p < pool_pages s -> (block_order s).[p] = -1) ->
  buddy_rep s (fun _ => []) {[0 := (max_order s, false)]}.
Proof.
  intros Hs Hfa Hbo. pose proof (pool_order s Hs). pose proof (pow2_pos (max_order s)).
  split; try done.
  - split.
    + intros p o f [<- [= <- <-]]%lookup_singleton_Some. repeat split; try lia.
      apply Z.divide_0_r.
    + intros q Hq. exists 0, (max_order s), false. rewrite lookup_singleton_eq.
      split; [done|]. unfold covers. lia.
    + intros p o f p' o' f' q [<- _]%lookup_singleton_Some [<- _]%lookup_singleton_Some. done.
  - intros o p. rewrite lookup_singleton_Some. set_solver.
  - intros p Hp. rewrite Hbo by done. unfold order_entry.
    rewrite lookup_singleton. by case_decide.
Qed.

Lemma fresh_pool_inv s0 :
  pool_ok s0 -> (forall o, 0 <= o <= 15 -> (free_area s0).[o] = 0) ->
  (forall p, 0 <= p < pool_pages s0 -> (block_order s0).[p] = -1) ->
  (forall p, 0 <= p < pool_pages s0 -> (refcount s0).[p] = 0) ->
  buddy_inv (free_list_add s0 0 (max_order s0)) ∅.
Proof.
  intros Hs Hfa Hbo Hrc. assert (HR0 := empty_lists_rep s0 Hs Hfa Hbo).
  destruct (free_list_add_rep _ _ _ 0 (max_order s0) HR0 (lookup_singleton_eq _ _)) as (HR1 & _ & _).
  eexists _, _. split; [exact HR1|]. rewrite insert_singleton_eq. splits.
  - intros p o Ho [<- [= <-]]%lookup_singleton_Some. cbn in Ho. lia.
  - apply map_eq. intros p. rewrite lookup_empty. apply eq_None_not_Some. intros [o Ho].
    apply used_lookup in Ho. by apply lookup_singleton_Some in Ho as [_ ?].
  - intros p Hp. rewrite lookup_empty. by apply Hrc.
Qed.

Lemma page_alloc_init_rep s start :
  boot_start_ok start -> buddy_inv (page_alloc_init s start) ∅.
Proof.
  intros Hst. destruct (page_alloc_init_pool s start Hst) as (Hs & Ems & Hpp).
  assert (Hst' := Hst). unfold boot_start_ok in Hst'.
  assert (Hnp : 1 <= (VIRT_MEM_END - page_align start) / PAGE_SIZE).
  { pose proof (pool_pages_bound _ Hs). lia. }
  revert Hs. unfold page_alloc_init. fold (page_align start).
  rewrite (proj2 (Z.leb_gt _ _)).
  2:{ apply Z.nle_gt. intros Hle. 
      assert ((VIRT_MEM_END - page_align start) / PAGE_SIZE <= 0); [|lia].
      apply Z.div_le_upper_bound; unfold PAGE_SIZE; lia. }
  rewrite (proj2 (Z.eqb_neq _ _)) by lia.
  set (s0 := mkBuddy _ _ _ _ _ _ _ _). intros Hs.
  assert (Hs0 : pool_ok s0) by (by apply (pool_ok_same (free_list_add s0 0 (max_order s0)))).
  pose proof (pool_pages_bound s0 Hs0) as Hb0.
  assert (Hmax : forall p, 0 <= p < pool_pages s0 -> 0 <= p < 0 + Z.of_nat (Z.to_nat MAX_PAGES)).
  { intros p Hp. rewrite Z2Nat.id by done. change MAX_PAGES with (2 ^ 15). lia. }
  apply (fresh_pool_inv s0); [done|intros i Hi; unfold s0; cbn [free_area block_order refcount]..]; rewrite arr_fill_get;
    rewrite decide_True; try done; [lia|by apply Hmax..].
Qed.

(** ** Reference counts *)

Lemma page_of_addr s q a :
  pool_ok s -> 0 <= q < pool_pages s ->
  pfn_to_addr s q <= a < pfn_to_addr s q + PAGE_SIZE ->
  forall q', 0 <= q' < pool_pages s -> a = pfn_to_addr s q' -> q' = q.
Proof.
  intros Hs Hq Ha q' Hq' ->. rewrite !pfn_to_addr_eq in Ha by done. unfold PAGE_SIZE in *. lia.
Qed.

(** What an operation that writes outside [A] leaves alone: every cell of
    every page of a block in [A]. *)
Lemma writes_in_used s s' A p o q a :
  pool_ok s -> writes_in (outside A) s s' -> A !! p = Some o -> covers p o q ->
  0 <= q < pool_pages s -> pfn_to_addr s q <= a < pfn_to_addr s q + PAGE_SIZE ->
  (mem s').[a] = (mem s).[a].
Proof.
  intros Hs Hw Hp Hc Hq Ha. apply Hw. intros q' Hout Hq' E.
  assert (q' = q) as -> by (by eapply page_of_addr). by apply (Hout p o).
Qed.

Lemma get_page_rep s A p o :
  buddy_inv s A -> A !! p = Some o -> (refcount s).[p] < 2 ^ 31 - 1 ->
  let s' := get_page s (Some p) in
  buddy_inv s' A /\ same_pool s s' /\ mem s' = mem s /\
  refcount s' = <[p := (refcount s).[p] + 1]> (refcount s).
Proof.
  intros HI Hp Hlt s'. destruct (inv_used_block _ _ _ _ HI Hp) as (_ & Hr & _).
  destruct HI as (L & B & HR & HC & <- & HF).
  assert (Hc := HF p Hr). rewrite Hp in Hc.
  assert (E : refcount s' = <[p := (refcount s).[p] + 1]> (refcount s)).
  { unfold s'. cbn. rewrite (wraps_id 32) by lia. done. }
  splits; try done. exists L, B. splits; try done; [by apply rep_set_refcount|].
  intros q Hq. rewrite E, arr_get_insert_case. case_decide; [subst; rewrite Hp; lia|].
  by apply HF.
Qed.

(** Dropping a reference that is not the last one. *)
Lemma put_page_shared s A p o :
  buddy_inv s A -> A !! p = Some o -> 1 < (refcount s).[p] ->
  exists s', put_page s (Some p) = Some s' /\ buddy_inv s' A /\ same_pool s s' /\
    mem s' = mem s /\ refcount s' = <[p := (refcount s).[p] - 1]> (refcount s).
Proof.
  intros HI Hp Hgt. destruct (inv_used_block _ _ _ _ HI Hp) as (_ & Hr & _).
  destruct HI as (L & B & HR & HC & <- & HF).
  assert (Hc := HF p Hr). rewrite Hp in Hc.
  assert (E : s32 ((refcount s).[p] - 1) = (refcount s).[p] - 1) by (apply wraps_id; lia).
  exists (set_refcount s (<[p := (refcount s).[p] - 1]> (refcount s))). splits; try done.
  - unfold put_page. rewrite E. by rewrite (proj2 (Z.eqb_neq _ _)) by lia.
  - exists L, B. splits; try done; [by apply rep_set_refcount|].
    intros q Hq. cbn. rewrite arr_get_insert_case. case_decide; [subst; rewrite Hp; lia|].
    by apply HF.
Qed.

(** Dropping the last reference of an order-0 page frees it. *)
Lemma put_page_last s A p :
  buddy_inv s A -> A !! p = Some 0 -> (refcount s).[p] = 1 ->
  exists s', put_page s (Some p) = Some s' /\ buddy_inv s' (delete p A) /\ same_pool s s' /\
    refcount s' = <[p := 0]> (refcount s) /\ writes_in (outside (delete p A)) s s'.
Proof.
  intros HI Hp Hrc. destruct (inv_used_block _ _ _ _ HI Hp) as (_ & Hr & _).
  unfold put_page. rewrite Hrc. change (s32 (1 - 1)) with 0. cbn [Z.eqb negb].
  unfold pfn_in_pool. cbn [pool_pages set_refcount].
  rewrite (proj2 (Z.ltb_lt _ _)) by lia. cbn [negb]. by apply buddy_free_inv.
Qed.

(** ** Pages in use belong to their owner *)

Definition in_page (s : buddy) (q a : Z) : Prop :=
  pfn_to_addr s q <= a < pfn_to_addr s q + PAGE_SIZE.

Lemma inv_covers_pool s A p o q :
  buddy_inv s A -> A !! p = Some o -> covers p o q -> 0 <= q < pool_pages s.
Proof.
  intros HI Hp Hc. destruct (inv_used_block _ _ _ _ HI Hp) as ((_ & ? & _ & ?) & _).
  rewrite (pool_count _ (inv_pool _ _ HI)). unfold covers in Hc. lia.
Qed.

(** The invariant reads memory only in the first cell of pages outside the
    blocks in use. *)
Lemma inv_set_mem s A m :
  buddy_inv s A ->
  (forall q, 0 <= q < pool_pages s -> outside A q ->
     m.[pfn_to_addr s q] = (mem s).[pfn_to_addr s q]) ->
  buddy_inv (set_mem s m) A.
Proof.
  intros (L & B & [H1 H2 H3 H4 H5] & HC & <- & HF) Hm. exists L, B. splits; try done.
  split; try done; [by apply (pool_ok_same s)|].
  intros o Ho. apply (@slist_frame _ (free_list o) s); [|done|by apply H3].
  intros x (q & -> & Hq)%list_elem_of_fmap. apply H4 in Hq. cbn.
  destruct (part_block _ _ H2 _ _ _ Hq) as (? & ? & _ & ?).
  pose proof (pow2_pos o ltac:(lia)). apply Hm.
  - rewrite (pool_count _ H1). lia.
  - eapply free_page_outside; [done|]. exists q, o. split; [done|]. apply covers_self. lia.
Qed.

Lemma inv_write s A p o q a v :
  buddy_inv s A -> A !! p = Some o -> covers p o q -> in_page s q a ->
  buddy_inv (set_mem s (<[a := v]> (mem s))) A.
Proof.
  intros HI Hp Hc Ha. apply inv_set_mem; [done|]. intros q' Hq' Hout.
  apply arr_get_insert_ne. intros E. assert (Hq := inv_covers_pool _ _ _ _ _ HI Hp Hc).
  assert (q' = q) as -> by (eapply (page_of_addr s q a); (done || apply (inv_pool _ _ HI))).
  by apply (Hout p o).
Qed.

Lemma in_page_unique s q q' a :
  pool_ok s -> 0 <= q < pool_pages s -> 0 <= q' < pool_pages s ->
  in_page s q a -> in_page s q' a -> q = q'.
Proof.
  intros Hs Hq Hq'. unfold in_page. rewrite !pfn_to_addr_eq by done. unfold PAGE_SIZE. lia.
Qed.

Lemma in_page_base s q : in_page s q (pfn_to_addr s q).
Proof. unfold in_page, PAGE_SIZE. lia. Qed.

Lemma virt_to_page_pool s p :
  pool_ok s -> 0 <= p < pool_pages s -> virt_to_page s (pfn_to_addr s p) = Some p.
Proof.
  intros Hs Hp. unfold virt_to_page. pose proof (pool_order s Hs).
  rewrite (proj2 (Z.eqb_neq _ _)) by (by apply pfn_to_addr_nonzero).
  rewrite (proj2 (addr_in_pool_block s p 0 Hs ltac:(
    rewrite (pool_count s Hs) in Hp; repeat split; try lia; apply Z.divide_1_l) Hp)).
  - cbn [negb orb]. rewrite addr_to_pfn_roundtrip by done. unfold pfn_in_pool.
    by rewrite (proj2 (Z.ltb_lt _ _)) by lia.
  - rewrite pfn_to_addr_eq by done.
    apply Z.divide_add_r; [apply (pool_start s Hs)|exists p; lia].
Qed.

Lemma page_aligned s p :
  pool_ok s -> 0 <= p < pool_pages s -> (PAGE_SIZE | pfn_to_addr s p).
Proof.
  intros Hs Hp. rewrite pfn_to_addr_eq by done.
  apply Z.divide_add_r; [apply (pool_start s Hs)|exists p; lia].
Qed.

(** ** Runs of the allocator

    A client that holds the blocks [A] may allocate, take and drop references
    on the pages it holds, and free a block it holds exclusively. *)
Inductive pa_step : buddy * gmap Z Z -> buddy * gmap Z Z -> Prop :=
| step_alloc s A order p s' :
    alloc_pages s order = Some (pfn_to_addr s p, s') ->
    0 <= order <= max_order s -> 0 <= p < pool_pages s ->
    pa_step (s, A) (s', <[p := order]> A)
| step_alloc_fail s A order s' :
    alloc_pages s order = Some (0, s') -> 0 <= order <= max_order s ->
    pa_step (s, A) (s', A)
| step_get s A p o :
    A !! p = Some o -> (refcount s).[p] < 2 ^ 31 - 1 ->
    pa_step (s, A) (get_page s (Some p), A)
| step_put_shared s A p o s' :
    A !! p = Some o -> 1 < (refcount s).[p] -> put_page s (Some p) = Some s' ->
    pa_step (s, A) (s', A)
| step_put_last s A p s' :
    A !! p = Some 0 -> (refcount s).[p] = 1 -> put_page s (Some p) = Some s' ->
    pa_step (s, A) (s', delete p A)
| step_free s A p o s' :
    A !! p = Some o -> (refcount s).[p] = 1 -> (PAGE_SIZE * 2 ^ o | pfn_to_addr s p) ->
    free_pages s (pfn_to_addr s p) o = Some s' ->
    pa_step (s, A) (s', delete p A).

Lemma pa_step_inv x y :
  pa_step x y -> buddy_inv x.1 x.2 -> buddy_inv y.1 y.2 /\ same_pool x.1 y.1.
Proof.
  intros Hst HI. assert (Hs := inv_pool _ _ HI). destruct Hst; cbn [fst snd] in *.
  - destruct (alloc_pages_rep _ _ _ HI H0) as [[E _]|(p' & s1 & E & Hr & _ & HI' & Hsp & _)];
      rewrite H in E; injection E as E1 E2.
    + by apply pfn_to_addr_nonzero in E1.
    + apply pfn_to_addr_inj in E1; [|done..]. by subst.
  - destruct (alloc_pages_rep _ _ _ HI H0) as [[E _]|(p' & s1 & E & Hr & _ & HI' & Hsp & _)];
      rewrite H in E; [by simplify_eq|].
    injection E as E1 E2. symmetry in E1. by apply pfn_to_addr_nonzero in E1.
  - destruct (get_page_rep _ _ _ _ HI H H0) as (? & ? & _). done.
  - destruct (put_page_shared _ _ _ _ HI H H0) as (s1 & E & ? & ? & _). by rewrite H1 in E; injection E as ->.
  - destruct (put_page_last _ _ _ HI H H0) as (s1 & E & ? & ? & _).
    by rewrite H1 in E; injection E as ->.
  - destruct (free_pages_rep _ _ _ _ HI H H0 H1) as (s1 & E & ? & ? & _).
    by rewrite H2 in E; injection E as ->.
Qed.

Lemma pa_run_inv x y :
  rtc pa_step x y -> buddy_inv x.1 x.2 -> buddy_inv y.1 y.2 /\ same_pool x.1 y.1.
Proof.
  induction 1 as [x|x y z Hxy _ IH]; [by split|]. intros HI.
  destruct (pa_step_inv _ _ Hxy HI) as [HI' Hsp]. destruct (IH HI') as [? ?].
  split; [done|]. by etrans.
Qed.

(** With nothing in use the free lists hold one block of maximal order. *)
Lemma inv_empty_lists s :
  buddy_inv s ∅ ->
  (free_area s).[max_order s] = mem_start s /\ (mem s).[mem_start s] = 0 /\
  forall o, 0 <= o < max_order s -> (free_area s).[o] = 0.
Proof.
  intros (L & B & HR & HC & HU & _). assert (Hs := rep_pool _ _ _ HR).
  pose proof (pool_order s Hs) as HM. pose proof (pool_pages_bound s Hs). pose proof (pool_count s Hs) as HP.
  remember (max_order s) as M eqn:EM.
  assert (Hfull : forall p o, B !! p = Some (o, true) -> p = 0 /\ o = M).
  { assert (Hrun : free_run s (used B) 0 M).
    { split; [|by rewrite HU; intros q _ p o Hp].
      rewrite <- EM. repeat split; try lia. apply Z.divide_0_r. }
    destruct (rep_run _ _ _ _ _ HR ltac:(by rewrite <- EM) Hrun) as (p' & o' & Hin & Ho' & Hc). rewrite <- EM in Ho'.
    assert (o' = M) as -> by lia. apply (rep_elem _ _ _ HR) in Hin.
    destruct (rep_block _ _ _ _ _ _ HR Hin) as ((_ & ? & _ & ?) & _). rewrite <- EM in *.
    assert (p' = 0) as -> by lia. intros p o Hp.
    destruct (rep_block _ _ _ _ _ _ HR Hp) as (_ & Hr & Ho).
    assert (0 = p) as <-.
    { eapply (partition_self _ _ _ _ _ _ _ _ (rep_part _ _ _ HR) Hin Hp). unfold covers. lia. }
    split; [done|]. congruence. }
  assert (HLM : L M = [0]).
  { destruct (part_cover _ _ (rep_part _ _ _ HR) 0 ltac:(rewrite <- EM; lia)) as (p & o & f & Hp & _).
    destruct f; [|apply used_lookup in Hp; by rewrite HU in Hp].
    destruct (Hfull _ _ Hp) as [E1 E2]. rewrite E1, E2 in Hp. apply NoDup_all_eq.
    - eapply NoDup_fmap_1, (@lseg_NoDup _ (free_list M)), HR; lia.
    - by apply (rep_elem _ _ _ HR).
    - intros x Hx. apply (rep_elem _ _ _ HR) in Hx. by apply Hfull in Hx as [-> _]. }
  assert (E0 : pfn_to_addr s 0 = mem_start s).
  { rewrite pfn_to_addr_eq by (done || lia). lia. }
  assert (Hl := rep_list _ _ _ HR M ltac:(lia)). rewrite HLM in Hl. unfold slist in Hl.
  cbn [fmap list_fmap lseg sget free_list] in Hl. rewrite E0 in Hl. destruct Hl as (? & _ & ?).
  splits; try done. intros o Ho. assert (Ho' := rep_list _ _ _ HR o ltac:(lia)).
  destruct (L o) as [|p l] eqn:E; [done|]. exfalso.
  assert (Hp : B !! p = Some (o, true)) by (apply (rep_elem _ _ _ HR); rewrite E; set_solver).
  apply Hfull in Hp as [_ ->]. lia.
Qed.

(** ** Properties *)

(** A small pool used in the concrete instances: 16 pages at the end of RAM. *)
Definition start16 : Z := VIRT_MEM_END - 16 * PAGE_SIZE.
Definition pool16_0 : buddy :=
  mkBuddy ∅ start16 (16 * PAGE_SIZE) 4 16 (arr_fill 16 ∅ 0 (-1)) ∅ ∅.
Definition pool16 : buddy := free_list_add pool16_0 0 4.

Lemma pool16_inv : buddy_inv pool16 ∅.
Proof.
  apply (fresh_pool_inv pool16_0); [split| |intros p Hp|]; try done.
  - split; [done|]. exists (start16 / PAGE_SIZE). by vm_compute.
  - unfold pool16_0 in *. cbn [block_order pool_pages] in *. rewrite arr_fill_get.
    by rewrite decide_True by lia.
Qed.

(** The static variables before initialisation. *)
Definition pa_bss : buddy := mkBuddy ∅ 0 0 0 0 ∅ ∅ ∅.

(** [page_alloc_init] turns any prior state into a well-formed pool with
    nothing in use, starting at the page-aligned [__alloc_start] and as large
    as the largest power of two of pages that fits below the end of RAM. *)
Theorem page_alloc_init_correct s start :
  boot_start_ok start ->
  let s' := page_alloc_init s start in
  let npages := (VIRT_MEM_END - page_align start) / PAGE_SIZE in
  buddy_inv s' ∅ /\ mem_start s' = page_align start /\
  pool_pages s' = 2 ^ max_order s' /\ pool_pages s' <= npages < 2 * pool_pages s'.
Proof.
  intros Hst s' npages. destruct (page_alloc_init_pool s start Hst) as (Hs & ? & ? & ?).
  splits; [by apply page_alloc_init_rep|done|by apply pool_count|done..].
Qed.

Lemma page_alloc_init_correct_witness :
  boot_start_ok start16 /\ buddy_inv (page_alloc_init pa_bss start16) ∅.
Proof.
  assert (H : boot_start_ok start16) by (by vm_compute).
  split; [exact H|]. exact (proj1 (page_alloc_init_correct pa_bss start16 H)).
Defined.

(** C19: On a well-formed pool [alloc_pages] always returns.  It returns NULL,
    leaving the state alone, exactly when no naturally aligned run of
    [2^order] pages is free; otherwise it returns the address of such a run,
    which joins the blocks in use, and changes no cell of a page that was
    already in use. *)
Theorem alloc_pages_correct s A order :
  buddy_inv s A -> 0 <= order <= max_order s ->
  exists a s', alloc_pages s order = Some (a, s') /\
    (a = 0 <-> forall p, ~ free_run s A p order) /\
    (a = 0 -> s' = s) /\
    (a <> 0 -> exists p, a = pfn_to_addr s p /\ free_run s A p order /\
       buddy_inv s' (<[p := order]> A) /\ (refcount s').[p] = 1 /\
       forall p' o' q c, A !! p' = Some o' -> covers p' o' q -> 0 <= q < pool_pages s ->
         pfn_to_addr s q <= c < pfn_to_addr s q + PAGE_SIZE ->
         (mem s').[c] = (mem s).[c]).
Proof.
  intros HI Ho. assert (Hs := inv_pool _ _ HI).
  destruct (alloc_pages_rep s A order HI Ho)
    as [[E Hn]|(p & s' & E & Hr & Hrun & HI' & Hsp & Hrc & Hw)].
  - exists 0, s. splits; try done.
  - assert (Hnz := pfn_to_addr_nonzero s p Hs Hr).
    exists (pfn_to_addr s p), s'. splits; try done.
    { split; [done|]. intros Hn. by destruct (Hn p). }
    intros _. exists p. splits; try done; [by rewrite Hrc, arr_get_insert|].
    intros. by eapply writes_in_used.
Qed.

Lemma alloc_pages_correct_witness :
  0 <= 1 <= max_order pool16 /\
  exists a s', alloc_pages pool16 1 = Some (a, s') /\ a = mem_start pool16.
Proof.
  assert (Ho : 0 <= 1 <= max_order pool16) by (by vm_compute).
  split; [exact Ho|].
  destruct (alloc_pages_correct pool16 ∅ 1 pool16_inv Ho) as (a & s' & E & _).
  exists a, s'. split; [exact E|].
  assert (E' : fst <$> alloc_pages pool16 1 = Some (mem_start pool16)) by (by vm_compute).
  rewrite E in E'. by injection E'.
Defined.

(** C20: [free_pages] of a block in use, by its address and order.  When the
    block is held once and its address is a multiple of its size, the block
    leaves the map of blocks in use, the pool stays well formed (all free
    buddies merged) and no cell of a page still in use changes.  Otherwise the
    call does nothing: a shared block is for [put_page], and a block at an
    address that is not a multiple of its size is lost. *)
Theorem free_pages_correct s A p o :
  buddy_inv s A -> A !! p = Some o ->
  exists s', free_pages s (pfn_to_addr s p) o = Some s' /\
    if decide (freeable s p o)
    then buddy_inv s' (delete p A) /\ (refcount s').[p] = 0 /\
         forall p' o' q c, delete p A !! p' = Some o' -> covers p' o' q -> 0 <= q < pool_pages s ->
           pfn_to_addr s q <= c < pfn_to_addr s q + PAGE_SIZE -> (mem s').[c] = (mem s).[c]
    else s' = s.
Proof.
  intros HI Hp. assert (Hs := inv_pool _ _ HI). destruct (decide (freeable s p o)) as [Hf|Hf]; [|exists s; by rewrite (free_pages_ignored s A)].
  apply freeable_iff in Hf as [Hrc Hal]; [|destruct (inv_used_block _ _ _ _ HI Hp) as ([? _] & _); lia].
  destruct (free_pages_rep s A p o HI Hp Hrc Hal) as (s' & E & HI' & Hsp & Er & Hw).
  exists s'. splits; try done; [by rewrite Er, arr_get_insert|].
  intros. by eapply writes_in_used.
Qed.

(** A pool in which the order-1 block at page 0 is in use. *)
Definition pool16_a : buddy := default pool16 (snd <$> alloc_pages pool16 1).

Lemma pool16_a_inv : buddy_inv pool16_a {[0 := 1]}.
Proof.
  assert (Ho : 0 <= 1 <= max_order pool16) by (by vm_compute).
  destruct (alloc_pages_rep pool16 ∅ 1 pool16_inv Ho) as [[E _]|(p & s' & E & Hr & _ & HI & _)].
  - exfalso. assert (E' : fst <$> alloc_pages pool16 1 = Some (mem_start pool16)) by (by vm_compute).
    rewrite E in E'. by vm_compute in E'.
  - assert (E' : fst <$> alloc_pages pool16 1 = Some (pfn_to_addr pool16 0)) by (by vm_compute).
    assert (p = 0) as ->.
    { rewrite E in E'. injection E' as E'. by apply (pfn_to_addr_inj _ _ _ (inv_pool _ _ pool16_inv) Hr) in E'. }
    unfold pool16_a. rewrite E. by rewrite insert_empty in HI.
Qed.

Lemma free_pages_correct_witness :
  freeable pool16_a 0 1 /\
  exists s', free_pages pool16_a (pfn_to_addr pool16_a 0) 1 = Some s' /\ buddy_inv s' ∅.
Proof.
  assert (Hf : freeable pool16_a 0 1) by (by vm_compute). split; [exact Hf|].
  destruct (free_pages_correct pool16_a {[0 := 1]} 0 1 pool16_a_inv (lookup_singleton_eq 0 1)) as (s' & E & H).
  rewrite (decide_True _ _ Hf) in H. destruct H as [HI _]. exists s'. split; [exact E|]. by rewrite delete_singleton_eq in HI.
Defined.

(** Along every run of a client that allocates, shares and frees only what
    it holds, starting from boot, the pool stays well formed; and whenever
    nothing is in use any more, whatever the order of the frees, the free
    lists are those of a freshly booted pool: one block of maximal order. *)
Theorem pool_restored s start s' A :
  boot_start_ok start -> rtc pa_step (page_alloc_init s start, ∅) (s', A) ->
  buddy_inv s' A /\
  (A = ∅ -> (free_area s').[max_order s'] = page_align start /\
            (mem s').[page_align start] = 0 /\
            forall o, 0 <= o < max_order s' -> (free_area s').[o] = 0).
Proof.
  intros Hst Hrun. destruct (pa_run_inv _ _ Hrun (page_alloc_init_rep s start Hst)) as [HI Hsp].
  split; [done|]. cbn in HI, Hsp. intros ->.
  destruct (page_alloc_init_pool s start Hst) as (_ & <- & _).
  destruct Hsp as (<- & _). by apply inv_empty_lists.
Qed.

Lemma pool_restored_witness :
  exists s' p, rtc pa_step (page_alloc_init pa_bss start16, ∅) (s', delete p {[p := 0]}) /\
    (free_area s').[max_order s'] = page_align start16.
Proof.
  assert (Hb : boot_start_ok start16) by (by vm_compute).
  assert (HI := page_alloc_init_rep pa_bss start16 Hb).
  set (s0 := page_alloc_init pa_bss start16) in *. assert (Hs := inv_pool _ _ HI).
  destruct (alloc_pages_rep s0 ∅ 0 HI ltac:(destruct (pool_order s0 Hs); lia))
    as [[_ Hn]|(p & s1 & E & Hr & _ & HI1 & Hsp & Hrc & _)].
  { exfalso. apply (Hn 0). split; [|by intros q _ p o Hp].
    pose proof (pool_order s0 Hs). pose proof (pool_pages_bound s0 Hs).
    pose proof (pool_count s0 Hs). repeat split; try lia. apply Z.divide_0_r. }
  rewrite insert_empty in HI1.
  assert (Hrc1 : (refcount s1).[p] = 1) by (rewrite Hrc; apply arr_get_insert).
  assert (Hd : (PAGE_SIZE * 2 ^ 0 | pfn_to_addr s1 p)).
  { rewrite (pfn_to_addr_same s0 s1 p Hsp), pfn_to_addr_eq by done.
    apply Z.divide_add_r; [apply (pool_start s0 Hs)|exists p; lia]. }
  destruct (free_pages_rep s1 _ p 0 HI1 (lookup_singleton_eq p 0) Hrc1 Hd) as (s2 & E2 & _).
  assert (Hrun : rtc pa_step (s0, ∅) (s2, delete p {[p := 0]})).
  { eapply rtc_l; [eapply (step_alloc s0 ∅ 0 p s1 E); [|exact Hr]|].
    - destruct (pool_order s0 Hs); lia.
    - rewrite insert_empty. exact (rtc_once _ _ (step_free s1 {[p := 0]} p 0 s2
        (lookup_singleton_eq p 0) Hrc1 Hd E2)). }
  exists s2, p. split; [exact Hrun|].
  destruct (pool_restored pa_bss start16 s2 _ Hb Hrun) as [_ H].
  exact (proj1 (H (delete_singleton_eq p 0))).
Defined.

(** [get_page] and [put_page] count references: taking one raises the count
    by one, dropping one of several lowers it and keeps the page in use, and
    dropping the last one of a single page returns it to the pool. *)
Theorem page_refcounting s A p :
  buddy_inv s A -> A !! p = Some 0 ->
  ((refcount s).[p] < 2 ^ 31 - 1 ->
     let s' := get_page s (Some p) in
     buddy_inv s' A /\ page_count s' (Some p) = page_count s (Some p) + 1) /\
  exists s', put_page s (Some p) = Some s' /\
    if decide (page_count s (Some p) = 1)
    then buddy_inv s' (delete p A) /\ page_count s' (Some p) = 0
    else buddy_inv s' A /\ page_count s' (Some p) = page_count s (Some p) - 1.
Proof.
  intros HI Hp. destruct (inv_used_block _ _ _ _ HI Hp) as (_ & Hr & _).
  assert (Hc : 1 <= (refcount s).[p] < 2 ^ 31).
  { destruct HI as (L & B & _ & _ & _ & HF). specialize (HF p Hr). by rewrite Hp in HF. }
  unfold page_count. rewrite (wrapu_id 32 ((refcount s).[p])) by lia. split.
  - intros Hlt. destruct (get_page_rep _ _ _ _ HI Hp Hlt) as (HI' & _ & _ & Er).
    split; [done|]. rewrite Er, arr_get_insert. apply wrapu_id. lia.
  - case_decide as E.
    + destruct (put_page_last _ _ _ HI Hp E) as (s' & E' & HI' & _ & Er & _).
      exists s'. splits; try done. by rewrite Er, arr_get_insert.
    + destruct (put_page_shared _ _ _ _ HI Hp ltac:(lia)) as (s' & E' & HI' & _ & _ & Er).
      exists s'. splits; try done. rewrite Er, arr_get_insert. apply wrapu_id. lia.
Qed.

Lemma page_refcounting_witness :
  exists s, buddy_inv s {[0 := 0]} /\
    exists s', put_page s (Some 0) = Some s' /\ page_count s' (Some 0) = 0.
Proof.
  destruct (alloc_pages_rep pool16 ∅ 0 pool16_inv) as [[E _]|(p & s & E & Hr & _ & HI & _)].
  - by vm_compute.
  - exfalso. assert (E' : fst <$> alloc_pages pool16 0 = Some start16) by (by vm_compute).
    rewrite E in E'. by vm_compute in E'.
  - assert (E' : fst <$> alloc_pages pool16 0 = Some (pfn_to_addr pool16 0)) by (by vm_compute).
    assert (p = 0) as ->.
    { rewrite E in E'. injection E' as E'.
      by apply (pfn_to_addr_inj _ _ _ (inv_pool _ _ pool16_inv) Hr) in E'. }
    rewrite insert_empty in HI. exists s. split; [exact HI|].
    destruct (page_refcounting s {[0 := 0]} 0 HI (lookup_singleton_eq 0 0)) as [_ (s' & Ep & Hs')].
    exists s'. split; [exact Ep|].
    rewrite decide_True in Hs'; [exact (proj2 Hs')|].
    assert (Ec : (fun x => page_count (snd x) (Some 0)) <$> alloc_pages pool16 0 = Some 1)
      by (by vm_compute).
    rewrite E in Ec. by injection Ec.
Defined.

(** [free_pages] tests the alignment of the absolute address although
    blocks are aligned relative to [mem_start], which is only page aligned:
    a block in use whose address is not a multiple of its size is not freed,
    the call returns with the state unchanged and the block is lost. *)
Theorem free_pages_misaligned_leak s A p o :
  buddy_inv s A -> A !! p = Some o -> ~ (PAGE_SIZE * 2 ^ o | pfn_to_addr s p) ->
  free_pages s (pfn_to_addr s p) o = Some s.
Proof.
  intros HI Hp Hal. apply (free_pages_ignored s A p o HI Hp). intros Hf. apply freeable_iff in Hf as [_ ?]; [done|].
  destruct (inv_used_block _ _ _ _ HI Hp) as ([? _] & _). lia.
Qed.

(** An 8-page pool that starts on an odd page. *)
Definition pool8_0 : buddy :=
  mkBuddy ∅ (VIRT_MEM_END - 9 * PAGE_SIZE) (8 * PAGE_SIZE) 3 8 (arr_fill 8 ∅ 0 (-1)) ∅ ∅.
Definition pool8 : buddy := free_list_add pool8_0 0 3.

Lemma pool8_inv : buddy_inv pool8 ∅.
Proof.
  apply (fresh_pool_inv pool8_0); [split| |intros p Hp|]; try done.
  - split; [done|]. exists ((VIRT_MEM_END - 9 * PAGE_SIZE) / PAGE_SIZE). by vm_compute.
  - unfold pool8_0 in *. cbn [block_order pool_pages] in *. rewrite arr_fill_get.
    by rewrite decide_True by lia.
Qed.

Lemma free_pages_misaligned_leak_witness :
  exists s, buddy_inv s {[0 := 1]} /\ free_pages s (pfn_to_addr s 0) 1 = Some s.
Proof.
  destruct (alloc_pages_rep pool8 ∅ 1 pool8_inv) as [[E _]|(p & s & E & Hr & _ & HI & Hsp & _)].
  - by vm_compute.
  - exfalso. assert (E' : fst <$> alloc_pages pool8 1 = Some (mem_start pool8)) by (by vm_compute).
    rewrite E in E'. by vm_compute in E'.
  - assert (E' : fst <$> alloc_pages pool8 1 = Some (pfn_to_addr pool8 0)) by (by vm_compute).
    assert (p = 0) as ->.
    { rewrite E in E'. injection E' as E'.
      by apply (pfn_to_addr_inj _ _ _ (inv_pool _ _ pool8_inv) Hr) in E'. }
    rewrite insert_empty in HI. exists s. split; [exact HI|].
    apply (free_pages_misaligned_leak s {[0 := 1]} 0 1 HI (lookup_singleton_eq 0 1)).
    rewrite (pfn_to_addr_same pool8 s 0 Hsp). intros Hd.
    apply Z.mod_divide in Hd; [|done]. by vm_compute in Hd.
Defined.

(** Two single pages are allocated and freed, so that they merge with the rest
    of the pool; then the second one is freed again. *)
Definition double_free_run : option (Z * Z) :=
  '(a0, s1) ← alloc_pages pool16 0;
  '(a1, s2) ← alloc_pages s1 0;
  s3 ← free_pages s2 a1 0;
  s4 ← free_pages s3 a0 0;
  s5 ← free_pages s4 a1 0;
  '(b, s6) ← alloc_pages s5 0;
  '(c, s7) ← alloc_pages s6 4;
  Some ((b - start16) / PAGE_SIZE, (c - start16) / PAGE_SIZE).

(** The guard [block_order[pfn] >= 0] of [free_pages] does not catch a
    second free of a page that was merged into a larger free block: the page
    enters a free list a second time, and the allocator then hands out page 1
    and, at the same time, the 16-page block at page 0 that contains it. *)
Theorem double_free_overlap : double_free_run = Some (1, 0) /\ covers 0 4 1.
Proof. split; [by vm_compute|]. unfold covers. lia. Qed.
