(* ===== verification/Slub.v ===== *)
(** * Object caches ([mm/slub.c])

    Per-size caches carved out of single pages, and large allocations that
    take whole blocks.  A slab page starts with its header (at the offsets of
    [struct slab]); the free objects of a slab are chained through their first
    cell, the slabs of a cache that have a free object through [next]. *)
From S2P Require Import Prelude PageAlloc.

Definition SLAB_MAGIC : Z := 0x534C5542.
Definition SIZEOF_SLAB : Z := 40.
Definition MIN_OBJECT_SIZE : Z := 8.
Definition PAGE_MASK : Z := u64 (Z.lnot (PAGE_SIZE - 1)).

(** Field offsets of [struct slab]. *)
Definition SL_magic : Z := 0.
Definition SL_cache : Z := 8.
Definition SL_freelist : Z := 16.
Definition SL_inuse : Z := 24.
Definition SL_objects : Z := 28.
Definition SL_next : Z := 32.

Record kmem_cache := mkCache { object_size : Z; partial : Z }.

(** The static caches are named by an index that plays the role of their
    address; 0 is NULL. *)
Definition cache_32 : Z := 1.
Definition cache_64 : Z := 2.
Definition cache_128 : Z := 3.
Definition cache_256 : Z := 4.
Definition cache_512 : Z := 5.
Definition cache_1024 : Z := 6.
Definition cache_2048 : Z := 7.
Definition vma_cache : Z := 8.

Record slub := mkSlub { pa : buddy; caches : gmap Z kmem_cache }.

Definition set_pa (k : slub) (b : buddy) : slub := mkSlub b (caches k).
Definition set_caches (k : slub) (c : gmap Z kmem_cache) : slub := mkSlub (pa k) c.

Definition cache_of (k : slub) (c : Z) : kmem_cache := default (mkCache 0 0) (caches k !! c).

Definition rd (k : slub) (a : Z) : Z := (mem (pa k)).[a].
Definition wr (k : slub) (a v : Z) : slub := set_pa k (set_mem (pa k) (<[a := v]> (mem (pa k)))).

Definition slab_object_offset (c : kmem_cache) : Z :=
  let off := SIZEOF_SLAB in
  let align := if object_size c <? MIN_OBJECT_SIZE then MIN_OBJECT_SIZE else object_size c in
  Z.land (u32 (off + align - 1)) (u32 (Z.lnot (align - 1))).

Definition slab_objects_per_page (c : kmem_cache) : Z :=
  let off := slab_object_offset c in
  if PAGE_SIZE <=? off then 0 else (PAGE_SIZE - off) / object_size c.

Definition slab_from_object (obj : Z) : Z := Z.land obj PAGE_MASK.

(** The list of partial slabs of one cache. *)
Definition partial_list (c : Z) : SList slub := {|
  sget := fun k l =>
    match l with CHead => partial (cache_of k c) | CNext p => rd k (p + SL_next) end;
  sset := fun k l v =>
    match l with
    | CHead => set_caches k (<[c := mkCache (object_size (cache_of k c)) v]> (caches k))
    | CNext p => wr k (p + SL_next) v
    end
|}.

Definition slub_fuel (k : slub) : nat := S (Z.to_nat (pool_pages (pa k))).

Definition partial_unlink (k : slub) (c slab : Z) : option slub :=
  '(k1, found) ← @slist_unlink _ (partial_list c) (slub_fuel k) k slab CHead;
  Some (if found : bool then wr k1 (slab + SL_next) 0 else k1).

Definition partial_link (k : slub) (c slab : Z) : slub :=
  let k1 := wr k (slab + SL_next) (partial (cache_of k c)) in
  set_caches k1 (<[c := mkCache (object_size (cache_of k1 c)) slab]> (caches k1)).

(** The carving loop of [slab_create]: the object at [i] becomes the head. *)
Fixpoint carve (n : nat) (k : slub) (slab off size i : Z) : slub :=
  match n with
  | O => k
  | S n' =>
      let obj := slab + off + i * size in
      let k1 := wr k obj (rd k (slab + SL_freelist)) in
      let k2 := wr k1 (slab + SL_freelist) obj in
      carve n' k2 slab off size (i + 1)
  end.

Definition slab_init (k : slub) (slab cache inuse objects : Z) : slub :=
  let k := wr k (slab + SL_magic) SLAB_MAGIC in
  let k := wr k (slab + SL_cache) cache in
  let k := wr k (slab + SL_freelist) 0 in
  let k := wr k (slab + SL_inuse) inuse in
  let k := wr k (slab + SL_objects) objects in
  wr k (slab + SL_next) 0.

Definition slab_create (k : slub) (c : Z) : option (Z * slub) :=
  '(slab, b1) ← alloc_pages (pa k) 0;
  let k1 := set_pa k b1 in
  if slab =? 0 then Some (0, k1)
  else
    let off := slab_object_offset (cache_of k1 c) in
    let k2 := slab_init k1 slab c 0 (slab_objects_per_page (cache_of k1 c)) in
    if rd k2 (slab + SL_objects) =? 0 then
      b2 ← free_pages (pa k2) slab 0; Some (0, set_pa k2 b2)
    else
      Some (slab, carve (Z.to_nat (rd k2 (slab + SL_objects))) k2 slab off
                    (object_size (cache_of k2 c)) 0).

Definition slab_destroy (k : slub) (c slab : Z) : option slub :=
  k1 ← partial_unlink k c slab;
  b ← free_pages (pa k1) slab 0;
  Some (set_pa k1 b).

Definition cache_for_size (size : Z) : Z :=
  if size <=? 32 then cache_32
  else if size <=? 64 then cache_64
  else if size <=? 128 then cache_128
  else if size <=? 256 then cache_256
  else if size <=? 512 then cache_512
  else if size <=? 1024 then cache_1024
  else if size <=? 2048 then cache_2048
  else 0.

Fixpoint large_order (fuel : nat) (size order bytes : Z) : option Z :=
  match fuel with
  | O => None
  | S fuel' =>
      if (bytes <? u64 (size + SIZEOF_SLAB)) && (order <? 15)
      then large_order fuel' size (order + 1) (u64 (Z.shiftl bytes 1))
      else Some order
  end.

Definition alloc_large (k : slub) (size : Z) : option (Z * slub) :=
  let size := if size =? 0 then 1 else size in
  order ← large_order 16 size 0 PAGE_SIZE;
  '(slab, b1) ← alloc_pages (pa k) order;
  let k1 := set_pa k b1 in
  if slab =? 0 then Some (0, k1)
  else Some (slab + SIZEOF_SLAB, slab_init k1 slab 0 1 order).

Definition free_large (k : slub) (obj : Z) : option slub :=
  let slab := slab_from_object obj in
  b ← free_pages (pa k) slab (s32 (rd k (slab + SL_objects)));
  Some (set_pa k b).

Definition kmem_cache_init (k : slub) (c size : Z) : slub :=
  let size := if size <? MIN_OBJECT_SIZE then MIN_OBJECT_SIZE else size in
  set_caches k (<[c := mkCache size 0]> (caches k)).

Definition slub_init (k : slub) : slub :=
  let k := kmem_cache_init k cache_32 32 in
  let k := kmem_cache_init k cache_64 64 in
  let k := kmem_cache_init k cache_128 128 in
  let k := kmem_cache_init k cache_256 256 in
  let k := kmem_cache_init k cache_512 512 in
  let k := kmem_cache_init k cache_1024 1024 in
  kmem_cache_init k cache_2048 2048.

(** The second half of [kmem_cache_alloc], once [slab] has a free object. *)
Definition slab_take (k1 : slub) (c slab : Z) : option (Z * slub) :=
  let obj := rd k1 (slab + SL_freelist) in
  let k2 := wr k1 (slab + SL_freelist) (rd k1 obj) in
  let k3 := wr k2 (slab + SL_inuse) (u32 (rd k2 (slab + SL_inuse) + 1)) in
  k4 ← (if rd k3 (slab + SL_freelist) =? 0 then partial_unlink k3 c slab else Some k3);
  Some (obj, k4).

Definition kmem_cache_alloc (k : slub) (c : Z) : option (Z * slub) :=
  let slab := partial (cache_of k c) in
  '(slab, k1) ←
    (if (slab =? 0) || (rd k (slab + SL_freelist) =? 0) then
       '(slab', k') ← slab_create k c;
       Some (slab', if slab' =? 0 then k' else partial_link k' c slab')
     else Some (slab, k));
  if slab =? 0 then Some (0, k1) else slab_take k1 c slab.

Definition kmem_cache_free (k : slub) (c obj : Z) : option slub :=
  if obj =? 0 then Some k
  else
    let slab := slab_from_object obj in
    if negb (rd k (slab + SL_magic) =? SLAB_MAGIC) || negb (rd k (slab + SL_cache) =? c)
    then Some k
    else
      let k1 := wr k obj (rd k (slab + SL_freelist)) in
      let k2 := wr k1 (slab + SL_freelist) obj in
      let k3 := wr k2 (slab + SL_inuse) (u32 (rd k2 (slab + SL_inuse) - 1)) in
      if rd k3 (slab + SL_inuse) =? 0 then slab_destroy k3 c slab
      else if rd k3 (slab + SL_inuse) =? u32 (rd k3 (slab + SL_objects) - 1)
      then Some (partial_link k3 c slab)
      else Some k3.

Definition kmalloc (k : slub) (size : Z) : option (Z * slub) :=
  let size := if size =? 0 then 1 else size in
  let c := cache_for_size size in
  if negb (c =? 0) then kmem_cache_alloc k c else alloc_large k size.

Definition kfree (k : slub) (obj : Z) : option slub :=
  if obj =? 0 then Some k
  else
    let slab := slab_from_object obj in
    if negb (rd k (slab + SL_magic) =? SLAB_MAGIC) then Some k
    else if rd k (slab + SL_cache) =? 0 then free_large k obj
    else kmem_cache_free k (rd k (slab + SL_cache)) obj.

(** ** Layout of a slab *)

(** Object sizes for which the rounding of [slab_object_offset] is exact:
    powers of two that fit a page next to the header. *)
Definition cache_ok (c : kmem_cache) : Prop :=
  exists j, 3 <= j <= 11 /\ object_size c = 2 ^ j.

Definition objs (base : Z) (c : kmem_cache) : list Z :=
  (fun i => base + slab_object_offset c + i * object_size c) <$>
    seqZ 0 (slab_objects_per_page c).

Lemma cache_layout c :
  cache_ok c ->
  let off := slab_object_offset c in
  let n := slab_objects_per_page c in
  SIZEOF_SLAB <= off /\ 8 <= object_size c /\ 1 <= n <= 507 /\
  off + n * object_size c <= PAGE_SIZE.
Proof.
  intros (j & Hj & E). unfold slab_objects_per_page, slab_object_offset. rewrite E.
  assert (j = 3 \/ j = 4 \/ j = 5 \/ j = 6 \/ j = 7 \/ j = 8 \/ j = 9 \/ j = 10 \/ j = 11)
    as Hcases by lia.
  destruct_or! Hcases; subst j; vm_compute; intuition discriminate.
Qed.

Lemma objs_elem base c x :
  x ∈ objs base c <-> exists i, 0 <= i < slab_objects_per_page c /\
    x = base + slab_object_offset c + i * object_size c.
Proof.
  unfold objs. rewrite list_elem_of_fmap. setoid_rewrite elem_of_seqZ. naive_solver.
Qed.

Lemma objs_range base c x :
  cache_ok c -> x ∈ objs base c ->
  base + SIZEOF_SLAB <= x /\ x + object_size c <= base + PAGE_SIZE.
Proof.
  intros Hc (i & Hi & ->)%objs_elem. destruct (cache_layout c Hc) as (? & ? & ? & ?). nia.
Qed.

Lemma objs_disjoint base c x y :
  cache_ok c -> x ∈ objs base c -> y ∈ objs base c -> x <> y ->
  x + object_size c <= y \/ y + object_size c <= x.
Proof.
  intros Hc (i & Hi & ->)%objs_elem (j & Hj & ->)%objs_elem Hne.
  destruct (cache_layout c Hc) as (? & ? & ? & ?). assert (i <> j) by congruence.
  destruct (Z_lt_le_dec i j); [left|right]; nia.
Qed.

Lemma objs_NoDup base c : cache_ok c -> NoDup (objs base c).
Proof.
  intros Hc. apply NoDup_fmap_2_strong; [|apply NoDup_seqZ].
  destruct (cache_layout c Hc) as (? & ? & ? & ?). intros i j _ _ E. nia.
Qed.

Lemma objs_length base c : cache_ok c -> Z.of_nat (length (objs base c)) = slab_objects_per_page c.
Proof.
  intros Hc. unfold objs. rewrite length_fmap, length_seqZ.
  destruct (cache_layout c Hc) as (? & ? & ? & ?). lia.
Qed.

(** ** Representation *)

(** The free objects of the slab at [base]. *)
Definition free_objs (base : Z) : SList slub := {|
  sget := fun k l => match l with CHead => rd k (base + SL_freelist) | CNext p => rd k p end;
  sset := fun k l v => match l with CHead => wr k (base + SL_freelist) v | CNext p => wr k p v end
|}.

#[export] Instance partial_list_laws c : @SListLaws slub (partial_list c).
Proof.
  split. intros k [|p] [|q] v; cbn.
  - unfold cache_of. cbn. by rewrite lookup_insert_eq.
  - done.
  - done.
  - unfold rd, wr. cbn. rewrite arr_get_insert_case. repeat case_decide; try done.
    + assert (p = q) by lia. congruence.
    + congruence.
Qed.

Lemma rd_wr k a b v : rd (wr k a v) b = if decide (a = b) then v else rd k b.
Proof. apply arr_get_insert_case. Qed.

Lemma rd_wr_eq k a v : rd (wr k a v) a = v.
Proof. rewrite rd_wr. by rewrite decide_True. Qed.

Lemma rd_wr_ne k a b v : a <> b -> rd (wr k a v) b = rd k b.
Proof. intros. rewrite rd_wr. by rewrite decide_False. Qed.

Record slab_info := mkSlab { si_cache : Z; si_free : list Z }.

Definition base_of (k : slub) (p : Z) : Z := pfn_to_addr (pa k) p.

Record slab_ok (k : slub) (p : Z) (si : slab_info) : Prop := {
  sl_cache : is_Some (caches k !! si_cache si);
  sl_size : cache_ok (cache_of k (si_cache si));
  sl_magic : rd k (base_of k p + SL_magic) = SLAB_MAGIC;
  sl_owner : rd k (base_of k p + SL_cache) = si_cache si;
  sl_objects : rd k (base_of k p + SL_objects) = slab_objects_per_page (cache_of k (si_cache si));
  sl_inuse : rd k (base_of k p + SL_inuse) =
    slab_objects_per_page (cache_of k (si_cache si)) - Z.of_nat (length (si_free si));
  sl_free : @slist _ (free_objs (base_of k p)) k (si_free si);
  sl_sub : forall x, x ∈ si_free si -> x ∈ objs (base_of k p) (cache_of k (si_cache si))
}.

Definition slab_pages (S : gmap Z slab_info) : gmap Z Z := (fun _ => 0) <$> S.

Record slub_rep (k : slub) (P : gmap Z Z) (S : gmap Z slab_info) (PL : Z -> list Z) : Prop := {
  sr_buddy : buddy_inv (pa k) (P ∪ slab_pages S);
  sr_disj : P ##ₘ slab_pages S;
  sr_ref : forall p, is_Some (S !! p) -> (refcount (pa k)).[p] = 1;
  sr_slab : forall p si, S !! p = Some si -> slab_ok k p si;
  sr_caches : forall c e, caches k !! c = Some e -> c <> 0 /\ cache_ok e;
  sr_partial : forall c, is_Some (caches k !! c) -> @slist _ (partial_list c) k (PL c);
  sr_member : forall c b, is_Some (caches k !! c) -> b ∈ PL c ->
    exists p si, S !! p = Some si /\ b = base_of k p /\ si_cache si = c
}.

(** Between operations the partial lists hold exactly the slabs with a free
    object, and every slab has an object in use. *)
Definition tidy_at (k : slub) (PL : Z -> list Z) (p : Z) (si : slab_info) : Prop :=
  (base_of k p ∈ PL (si_cache si) <-> si_free si <> []) /\
  Z.of_nat (length (si_free si)) < slab_objects_per_page (cache_of k (si_cache si)).

Definition tidy (k : slub) (S : gmap Z slab_info) (PL : Z -> list Z) : Prop :=
  forall p si, S !! p = Some si -> tidy_at k PL p si.

(** Objects handed out and not freed, with their cache. *)
Definition live (k : slub) (S : gmap Z slab_info) (x c : Z) : Prop :=
  exists p si, S !! p = Some si /\ si_cache si = c /\
    x ∈ objs (base_of k p) (cache_of k c) /\ x ∉ si_free si.

(** [slub_inv k P O]: [P] are the blocks of pages in use outside the caches,
    [O] the live objects. *)
Definition slub_inv (k : slub) (P O : gmap Z Z) : Prop :=
  exists S PL, slub_rep k P S PL /\ tidy k S PL /\
    forall x c, O !! x = Some c <-> live k S x c.

Lemma slab_page_used k P S PL p si :
  slub_rep k P S PL -> S !! p = Some si ->
  (P ∪ slab_pages S) !! p = Some 0 /\ 0 <= p < pool_pages (pa k).
Proof.
  intros HR Hp.
  assert (Hu : (P ∪ slab_pages S) !! p = Some 0).
  { rewrite lookup_union_r.
    - unfold slab_pages. by rewrite lookup_fmap, Hp.
    - eapply map_disjoint_Some_l; [symmetry; apply (sr_disj _ _ _ _ HR)|].
      unfold slab_pages. rewrite lookup_fmap, Hp. done. }
  split; [done|]. by destruct (inv_used_block _ _ _ _ (sr_buddy _ _ _ _ HR) Hu) as (_ & ? & _).
Qed.

(** ** Frames *)

(** [k'] has the pool of [k] and caches of the same sizes. *)
Record same_layout (k k' : slub) : Prop := {
  lay_pool : same_pool (pa k) (pa k');
  lay_some : forall c, is_Some (caches k' !! c) <-> is_Some (caches k !! c);
  lay_size : forall c, object_size (cache_of k' c) = object_size (cache_of k c)
}.

#[export] Instance same_layout_preorder : PreOrder same_layout.
Proof.
  split; [by split|]. intros k1 k2 k3 [P1 S1 Z1] [P2 S2 Z2]. split.
  - by etrans.
  - intros c. by rewrite S2, S1.
  - intros c. by rewrite Z2, Z1.
Qed.

Lemma same_layout_wr k a v : same_layout k (wr k a v).
Proof. by split. Qed.

Lemma base_of_layout k k' p : same_layout k k' -> base_of k' p = base_of k p.
Proof. intros [Hp _ _]. by apply pfn_to_addr_same. Qed.

Lemma layout_objects k k' c :
  same_layout k k' ->
  slab_objects_per_page (cache_of k' c) = slab_objects_per_page (cache_of k c).
Proof.
  intros Hl. unfold slab_objects_per_page, slab_object_offset. by rewrite (lay_size _ _ Hl).
Qed.

Lemma layout_objs k k' b c : same_layout k k' -> objs b (cache_of k' c) = objs b (cache_of k c).
Proof.
  intros Hl. unfold objs. rewrite (layout_objects _ _ _ Hl).
  unfold slab_object_offset. by rewrite (lay_size _ _ Hl).
Qed.

Lemma layout_cache_ok k k' c :
  same_layout k k' -> cache_ok (cache_of k c) -> cache_ok (cache_of k' c).
Proof. intros Hl (j & ? & E). exists j. by rewrite (lay_size _ _ Hl). Qed.

(** A slab is described by the cells of its page, its [next] field apart. *)
(** A slab is described by its header, [next] apart, and its free objects. *)
Lemma slab_ok_cells k k' p si :
  same_layout k k' ->
  (forall d, 0 <= d < SL_next -> rd k' (base_of k p + d) = rd k (base_of k p + d)) ->
  (forall x, x ∈ si_free si -> rd k' x = rd k x) ->
  slab_ok k p si -> slab_ok k' p si.
Proof.
  intros Hl Hh Hx [H1 H2 H3 H4 H5 H6 H7 H8]. unfold SL_next in Hh.
  split; rewrite ?(base_of_layout _ _ _ Hl), ?(layout_objects _ _ _ Hl), ?(layout_objs _ _ _ _ Hl);
    try (rewrite Hh; [done|by vm_compute]).
  - by apply (lay_some _ _ Hl).
  - by eapply layout_cache_ok.
  - by apply (@slist_frame _ (free_objs (base_of k p)) k k'); [|by apply Hh; vm_compute|done].
  - done.
Qed.

Lemma slab_ok_frame k k' p si :
  same_layout k k' ->
  (forall a, base_of k p <= a < base_of k p + PAGE_SIZE -> a <> base_of k p + SL_next ->
     rd k' a = rd k a) ->
  slab_ok k p si -> slab_ok k' p si.
Proof.
  intros Hl Hm Hok. apply (slab_ok_cells k); try done.
  - intros d Hd. unfold SL_next in *. apply Hm; unfold SL_next, PAGE_SIZE; lia.
  - intros x Hx. apply (sl_sub _ _ _ Hok), (objs_range _ _ _ (sl_size _ _ _ Hok)) in Hx as [? ?].
    destruct (cache_layout _ (sl_size _ _ _ Hok)) as (_ & ? & _ & _). unfold SIZEOF_SLAB in *.
    apply Hm; [lia|]. unfold SL_next. lia.
Qed.

Lemma pages_apart k P S PL p p' si si' a :
  slub_rep k P S PL -> S !! p = Some si -> S !! p' = Some si' -> p <> p' ->
  base_of k p <= a < base_of k p + PAGE_SIZE ->
  ~ (base_of k p' <= a < base_of k p' + PAGE_SIZE).
Proof.
  intros HR Hp Hp' Hne Ha Ha'. apply Hne.
  destruct (slab_page_used _ _ _ _ _ _ HR Hp), (slab_page_used _ _ _ _ _ _ HR Hp').
  by eapply (in_page_unique (pa k)); [apply (inv_pool _ _ (sr_buddy _ _ _ _ HR))|..].
Qed.

(** A change confined to the page of one slab. *)
Lemma rep_update_slab k k' P S PL p si si' m :
  slub_rep k P S PL -> S !! p = Some si ->
  caches k' = caches k -> pa k' = set_mem (pa k) m ->
  (forall a, ~ (base_of k p <= a < base_of k p + PAGE_SIZE) -> rd k' a = rd k a) ->
  rd k' (base_of k p + SL_next) = rd k (base_of k p + SL_next) ->
  slab_ok k' p si' -> si_cache si' = si_cache si ->
  slub_rep k' P (<[p := si']> S) PL.
Proof.
  intros HR Hp Hc Hpa Hm Hn Hok Hsc.
  assert (Hl : same_layout k k').
  { split; [by rewrite Hpa|by rewrite Hc|unfold cache_of; by rewrite Hc]. }
  assert (Hsp : slab_pages (<[p := si']> S) = slab_pages S).
  { unfold slab_pages. rewrite fmap_insert. apply insert_id. by rewrite lookup_fmap, Hp. }
  destruct (slab_page_used _ _ _ _ _ _ HR Hp) as [Hu Hr].
  assert (Hpool := inv_pool _ _ (sr_buddy _ _ _ _ HR)).
  assert (Hmem : forall a, rd k' a = m.[a]) by (intros a; unfold rd; by rewrite Hpa).
  split; rewrite ?Hsp.
  - rewrite Hpa. apply inv_set_mem; [apply HR|]. intros q Hq Hout. rewrite <- Hmem.
    apply Hm. intros Ha. apply (Hout p 0 Hu). unfold covers.
    assert (q = p) as ->; [|lia].
    by eapply (in_page_unique (pa k)); [done|done|done|apply in_page_base|].
  - apply HR.
  - intros p' [x Hx]. rewrite Hpa. cbn. apply (sr_ref _ _ _ _ HR).
    apply lookup_insert_Some in Hx as [[<- _]|[_ ?]]; eauto.
  - intros p' s'' [[<- <-]|[Hne Hp']]%lookup_insert_Some; [done|].
    eapply (slab_ok_frame k); [done| |by eapply sr_slab].
    intros a Ha _. apply Hm. eapply (pages_apart k P S PL p' p); done.
  - rewrite Hc. apply HR.
  - intros c Hcs. rewrite Hc in Hcs. apply (@slist_frame _ (partial_list c) k k');
      [|cbn; unfold cache_of; by rewrite Hc|by apply HR].
    intros b Hb. cbn. destruct (sr_member _ _ _ _ HR c b Hcs Hb) as (p' & si0 & Hp' & -> & _).
    destruct (decide (p' = p)) as [->|Hne]; [done|]. apply Hm.
    eapply (pages_apart k P S PL p' p); try done. unfold SL_next, PAGE_SIZE. lia.
  - intros c b Hcs Hb. rewrite Hc in Hcs.
    destruct (sr_member _ _ _ _ HR c b Hcs Hb) as (p' & si0 & Hp' & -> & Esc).
    rewrite <- (base_of_layout k k' p' Hl).
    destruct (decide (p = p')) as [<-|Hne].
    + exists p, si'. rewrite lookup_insert_eq. splits; [done..|]. congruence.
    + exists p', si0. by rewrite lookup_insert_ne.
Qed.

(** A change of the links between slabs only. *)
Lemma rep_update_links k k' P S PL PL' m :
  slub_rep k P S PL -> same_layout k k' -> pa k' = set_mem (pa k) m ->
  (forall a, (forall p si, S !! p = Some si -> a <> base_of k p + SL_next) -> rd k' a = rd k a) ->
  (forall c, is_Some (caches k !! c) -> @slist _ (partial_list c) k' (PL' c)) ->
  (forall c b, is_Some (caches k !! c) -> b ∈ PL' c ->
     exists p si, S !! p = Some si /\ b = base_of k p /\ si_cache si = c) ->
  slub_rep k' P S PL'.
Proof.
  intros HR Hl Hpa Hm Hsl Hmem. assert (Hpool := inv_pool _ _ (sr_buddy _ _ _ _ HR)).
  split.
  - rewrite Hpa. apply inv_set_mem; [apply HR|]. intros q Hq Hout.
    transitivity (rd k' (pfn_to_addr (pa k) q)); [unfold rd; by rewrite Hpa|].
    apply Hm. intros p si Hp E. destruct (slab_page_used _ _ _ _ _ _ HR Hp) as [Hu Hr].
    apply (Hout p 0 Hu). assert (q = p) as ->; [|unfold covers; lia].
    eapply (in_page_unique (pa k)); [done..|apply in_page_base|].
    rewrite E. unfold in_page, base_of, SL_next, PAGE_SIZE. lia.
  - apply HR.
  - intros p Hp. rewrite Hpa. by apply (sr_ref _ _ _ _ HR).
  - intros p si Hp. eapply slab_ok_frame; [done| |by eapply sr_slab].
    intros a Ha Hne. apply Hm. intros p' si' Hp' E.
    destruct (decide (p = p')) as [->|Hpp]; [done|].
    eapply (pages_apart k P S PL p p'); [done..|].
    rewrite E. unfold SL_next, PAGE_SIZE. lia.
  - intros c e Hc. destruct (proj1 (lay_some _ _ Hl c) ltac:(eauto)) as [e' He'].
    destruct (sr_caches _ _ _ _ HR c e' He') as [? (j & ? & Ej)]. split; [done|].
    exists j. split; [done|]. pose proof (lay_size _ _ Hl c) as Es. unfold cache_of in Es.
    rewrite Hc, He' in Es. cbn in Es. congruence.
  - intros c Hc. apply Hsl. by apply (lay_some _ _ Hl).
  - intros c b Hc Hb. rewrite (lay_some _ _ Hl) in Hc.
    setoid_rewrite (base_of_layout _ _ _ Hl). by apply Hmem.
Qed.

Lemma base_nonzero k P S PL p si :
  slub_rep k P S PL -> S !! p = Some si -> base_of k p <> 0.
Proof.
  intros HR Hp. destruct (slab_page_used _ _ _ _ _ _ HR Hp).
  by apply pfn_to_addr_nonzero; [apply (inv_pool _ _ (sr_buddy _ _ _ _ HR))|].
Qed.

Lemma base_inj k P S PL p p' si si' :
  slub_rep k P S PL -> S !! p = Some si -> S !! p' = Some si' ->
  base_of k p = base_of k p' -> p = p'.
Proof.
  intros HR Hp Hp'. destruct (slab_page_used _ _ _ _ _ _ HR Hp), (slab_page_used _ _ _ _ _ _ HR Hp').
  by apply pfn_to_addr_inj; [apply (inv_pool _ _ (sr_buddy _ _ _ _ HR))|..].
Qed.

(** A slab sits on at most the partial list of its own cache. *)
Lemma partial_own k P S PL p si c :
  slub_rep k P S PL -> S !! p = Some si -> is_Some (caches k !! c) ->
  base_of k p ∈ PL c -> si_cache si = c.
Proof.
  intros HR Hp Hc Hb. destruct (sr_member _ _ _ _ HR c _ Hc Hb) as (p' & si' & Hp' & E & <-).
  assert (p = p') as <- by (by eapply base_inj). by simplify_eq.
Qed.

Lemma partial_link_rep k P S PL p si :
  slub_rep k P S PL -> S !! p = Some si -> base_of k p ∉ PL (si_cache si) ->
  let c := si_cache si in
  let k' := partial_link k c (base_of k p) in
  slub_rep k' P S (<[c := base_of k p :: PL c]> PL) /\ same_layout k k' /\
  (refcount (pa k') = refcount (pa k)) /\
  forall a, a <> base_of k p + SL_next -> rd k' a = rd k a.
Proof.
  intros HR Hp Hn c k'. assert (Hc := sl_cache _ _ _ (sr_slab _ _ _ _ HR p si Hp)). fold c in Hc, Hn.
  assert (Hrd : forall a, a <> base_of k p + SL_next -> rd k' a = rd k a).
  { intros a Ha. apply arr_get_insert_ne. congruence. }
  assert (Hl : same_layout k k').
  { split; [done| |].
    - intros c'. cbn. destruct (decide (c = c')) as [<-|].
      + rewrite lookup_insert_eq. split; eauto.
      + by rewrite lookup_insert_ne.
    - intros c'. unfold cache_of at 1. cbn. destruct (decide (c = c')) as [<-|].
      + by rewrite lookup_insert_eq.
      + by rewrite lookup_insert_ne. }
  split; [|by splits]. eapply rep_update_links; [done|done|done| | |].
  - intros a Ha. apply Hrd. by eapply Ha.
  - intros c' Hc'. destruct (decide (c = c')) as [<-|Hne].
    + rewrite fn_lookup_insert.
      apply (@slist_push_spec _ (partial_list c) _ k); [by eapply base_nonzero|done|by apply HR].
    + rewrite fn_lookup_insert_ne by done.
      apply (@slist_frame _ (partial_list c') k k'); [| |by apply HR].
      * intros b Hb. cbn. apply Hrd. intros E. assert (b = base_of k p) as -> by lia.
        apply Hne. by eapply partial_own.
      * cbn. unfold cache_of. cbn. by rewrite lookup_insert_ne.
  - intros c' b Hc' Hb. destruct (decide (c = c')) as [<-|Hne].
    + rewrite fn_lookup_insert in Hb. apply elem_of_cons in Hb as [->|Hb]; [eauto|].
      by apply (sr_member _ _ _ _ HR).
    + rewrite fn_lookup_insert_ne in Hb by done. by apply (sr_member _ _ _ _ HR).
Qed.

Lemma partial_length k P S PL c :
  slub_rep k P S PL -> is_Some (caches k !! c) ->
  (length (PL c) <= Z.to_nat (pool_pages (pa k)))%nat.
Proof.
  intros HR Hc. transitivity (length (base_of k <$> seqZ 0 (pool_pages (pa k))));
    [|by rewrite length_fmap, length_seqZ].
  apply submseteq_length, NoDup_submseteq.
  - by eapply (@lseg_NoDup _ (partial_list c)), HR.
  - intros b Hb. destruct (sr_member _ _ _ _ HR c b Hc Hb) as (p & si & Hp & -> & _).
    destruct (slab_page_used _ _ _ _ _ _ HR Hp). apply list_elem_of_fmap_2, elem_of_seqZ. lia.
Qed.

Lemma partial_unlink_rep k P S PL p si l1 l2 :
  slub_rep k P S PL -> S !! p = Some si ->
  let c := si_cache si in
  PL c = l1 ++ base_of k p :: l2 ->
  exists k', partial_unlink k c (base_of k p) = Some k' /\
    slub_rep k' P S (<[c := l1 ++ l2]> PL) /\ same_layout k k' /\
    refcount (pa k') = refcount (pa k) /\
    forall a, (forall p' si', S !! p' = Some si' -> a <> base_of k p' + SL_next) ->
      rd k' a = rd k a.
Proof.
  intros HR Hp c HL. assert (Hc := sl_cache _ _ _ (sr_slab _ _ _ _ HR p si Hp)). fold c in Hc.
  assert (Hs := sr_partial _ _ _ _ HR c Hc). rewrite HL in Hs.
  assert (Hf : (length l1 < slub_fuel k)%nat).
  { pose proof (partial_length _ _ _ _ c HR Hc) as Hlen. rewrite HL, length_app in Hlen.
    unfold slub_fuel. simpl in Hlen. lia. }
  destruct (@slist_unlink_present _ (partial_list c) _ _ _ _ _ _ Hs Hf) as (l & Hlc & Eu & Hs').
  set (k1 := @sset _ (partial_list c) k l (@sget _ (partial_list c) k (CNext (base_of k p)))) in *.
  set (k' := wr k1 (base_of k p + SL_next) 0).
  assert (Hin : forall b, b ∈ l1 -> b ∈ PL c) by (intros b; rewrite HL; set_solver).
  exists k'. split; [unfold partial_unlink; by rewrite Eu|].
  assert (Hl : same_layout k k').
  { destruct Hlc as [->|(y & _ & ->)]; [|done]. split; [done| |].
    - intros c'. cbn. destruct (decide (c = c')) as [<-|].
      + rewrite lookup_insert_eq. split; eauto.
      + by rewrite lookup_insert_ne.
    - intros c'. unfold cache_of at 1. cbn. destruct (decide (c = c')) as [<-|].
      + by rewrite lookup_insert_eq.
      + by rewrite lookup_insert_ne. }
  assert (Hrd : forall a, (forall p' si', S !! p' = Some si' -> a <> base_of k p' + SL_next) ->
    rd k' a = rd k a).
  { intros a Ha. unfold k'. rewrite rd_wr_ne by (apply not_eq_sym; by eapply Ha).
    destruct Hlc as [->|(y & Hy & ->)]; [done|]. unfold k1. cbn.
    destruct (sr_member _ _ _ _ HR c y Hc (Hin _ Hy)) as (p' & si' & Hp' & -> & _).
    apply rd_wr_ne, not_eq_sym. by eapply Ha. }
  assert (Hpa : exists m, pa k' = set_mem (pa k) m).
  { destruct Hlc as [->|(y & _ & ->)]; by eexists. }
  destruct Hpa as [m Hpa].
  split; [|splits; [done|by rewrite Hpa|done]].
  assert (Hnd : base_of k p ∉ l1 ++ l2).
  { apply (@lseg_NoDup _ (partial_list c)) in Hs. apply NoDup_app in Hs as (_ & Hd & Hnd2).
    apply NoDup_cons in Hnd2 as [? _]. intros [Hx|?]%elem_of_app; [|done].
    apply (Hd _ Hx). set_solver. }
  eapply rep_update_links; [done|done|done|done| |].
  - intros c' Hc'. destruct (decide (c = c')) as [<-|Hne].
    + rewrite fn_lookup_insert. apply (@slist_frame _ (partial_list c) k1); [|done|done].
      intros b Hb. cbn. apply rd_wr_ne. intros E. assert (b = base_of k p) as -> by lia. done.
    + rewrite fn_lookup_insert_ne by done.
      apply (@slist_frame _ (partial_list c') k); [| |by apply HR].
      * intros b Hb. cbn. unfold k'. rewrite rd_wr_ne.
        { destruct Hlc as [->|(y & Hy & ->)]; [done|]. unfold k1. cbn. apply rd_wr_ne.
          intros E. assert (b = y) as -> by lia.
          destruct (sr_member _ _ _ _ HR c y Hc (Hin _ Hy)) as (p' & si' & Hp' & -> & E').
          apply Hne. rewrite <- E'. by eapply partial_own. }
        intros E. assert (b = base_of k p) as -> by lia. apply Hne. by eapply partial_own.
      * destruct Hlc as [->|(y & _ & ->)]; [|done].
        cbn. unfold cache_of. cbn. by rewrite lookup_insert_ne.
  - intros c' b Hc' Hb. apply (sr_member _ _ _ _ HR); [done|].
    destruct (decide (c = c')) as [<-|Hne].
    + rewrite fn_lookup_insert in Hb. rewrite HL. set_solver.
    + by rewrite fn_lookup_insert_ne in Hb by done.
Qed.

Lemma partial_unlink_absent k P S PL c b :
  slub_rep k P S PL -> is_Some (caches k !! c) -> b ∉ PL c ->
  partial_unlink k c b = Some k.
Proof.
  intros HR Hc Hb. unfold partial_unlink.
  rewrite (@slist_unlink_absent _ (partial_list c) _ k b (PL c)); [done|by apply HR|done|].
  pose proof (partial_length _ _ _ _ c HR Hc). unfold slub_fuel. lia.
Qed.

(** ** Objects *)

(** Pushing an object on the free list of its slab. *)
Lemma free_objs_push k base F x :
  @slist _ (free_objs base) k F -> x <> 0 -> x ∉ F -> x <> base + SL_freelist ->
  (forall y, y ∈ F -> y <> base + SL_freelist) ->
  @slist _ (free_objs base)
    (wr (wr k x (rd k (base + SL_freelist))) (base + SL_freelist) x) (x :: F).
Proof.
  intros HF Hx Hn Hxb Hyb. unfold slist. cbn [lseg sget free_objs].
  rewrite rd_wr_eq. splits; try done. rewrite rd_wr_ne by done. rewrite rd_wr_eq.
  apply (@lseg_frame _ (free_objs base) k); [|exact HF].
  intros y Hy. cbn. rewrite !rd_wr_ne; [done|congruence|]. apply not_eq_sym. by apply Hyb.
Qed.

Lemma carve_spec n k base off size i F :
  0 < base -> SIZEOF_SLAB <= off -> 0 < size -> 0 <= i ->
  @slist _ (free_objs base) k F ->
  (forall y, y ∈ F -> base + SIZEOF_SLAB <= y < base + off + i * size) ->
  let obj := fun j => base + off + j * size in
  let k' := carve n k base off size i in
  @slist _ (free_objs base) k' (reverse (obj <$> seqZ i (Z.of_nat n)) ++ F) /\
  caches k' = caches k /\ (exists m, pa k' = set_mem (pa k) m) /\
  forall a, a <> base + SL_freelist ->
    (forall j, i <= j < i + Z.of_nat n -> a <> obj j) -> rd k' a = rd k a.
Proof.
  intros Hb Hoff Hsz. revert k i F. induction n as [|n IH]; intros k i F Hi HF Hlo obj k'.
  { splits; try done.
    exists (mem (pa k)). cbn. by destruct (pa k). }
  unfold k'. cbn [carve]. fold (obj i).
  set (k1 := wr (wr k (obj i) (rd k (base + SL_freelist))) (base + SL_freelist) (obj i)).
  assert (Hoi : base + SIZEOF_SLAB <= obj i) by (unfold obj, SIZEOF_SLAB in *; nia).
  destruct (IH k1 (i + 1) (obj i :: F)) as (HF' & Hc' & [m Hm] & Hrd').
  - lia.
  - apply free_objs_push; try done; unfold SIZEOF_SLAB, SL_freelist in *; try lia.
    + intros Hin. apply Hlo in Hin. unfold obj in Hin. lia.
    + intros y Hy. apply Hlo in Hy. lia.
  - intros y [->|Hy]%elem_of_cons; [unfold obj; lia|]. apply Hlo in Hy. lia.
  - splits.
    + rewrite (seqZ_cons i (Z.of_nat (S n))) by lia. rewrite fmap_cons, reverse_cons, <- app_assoc.
      replace (Z.succ i) with (i + 1) by lia. replace (Z.pred (Z.of_nat (S n))) with (Z.of_nat n) by lia.
      exact HF'.
    + done.
    + exists m. by rewrite Hm.
    + intros a Ha Hob. rewrite Hrd'; [|done|intros j Hj; apply Hob; lia].
      unfold k1. rewrite !rd_wr_ne; [done| |congruence]. apply not_eq_sym, Hob. lia.
Qed.

(** The object at the head of the free list is taken. *)
Lemma take_rep k P S PL p c x F :
  slub_rep k P S PL -> S !! p = Some (mkSlab c (x :: F)) ->
  let b := base_of k p in
  let k1 := wr k (b + SL_freelist) (rd k x) in
  let k2 := wr k1 (b + SL_inuse) (u32 (rd k1 (b + SL_inuse) + 1)) in
  rd k (b + SL_freelist) = x /\
  slub_rep k2 P (<[p := mkSlab c F]> S) PL /\
  (rd k2 (b + SL_freelist) = 0 <-> F = []) /\
  forall a, a <> b + SL_freelist -> a <> b + SL_inuse -> rd k2 a = rd k a.
Proof.
  intros HR Hp b k1 k2. assert (Hok := sr_slab _ _ _ _ HR _ _ Hp).
  pose proof (sl_size _ _ _ Hok) as Hco. pose proof (sl_sub _ _ _ Hok) as Hsub.
  cbn [si_cache si_free] in *. fold b in Hsub.
  destruct (sl_free _ _ _ Hok) as (Ex & Hx & HF). fold b in HF. cbn in Ex, HF. fold b in Ex.
  assert (Hrd : forall a, a <> b + SL_freelist -> a <> b + SL_inuse -> rd k2 a = rd k a).
  { intros a H1 H2. unfold k2, k1. by rewrite !rd_wr_ne by congruence. }
  assert (HFc : forall y, y ∈ F -> y <> b + SL_freelist /\ y <> b + SL_inuse).
  { intros y Hy. destruct (objs_range b _ y Hco (Hsub y ltac:(set_solver))).
    unfold SIZEOF_SLAB, SL_freelist, SL_inuse in *. lia. }
  assert (Hhead : rd k2 (b + SL_freelist) = rd k x).
  { unfold k2. rewrite rd_wr_ne by (unfold SL_freelist, SL_inuse; lia). apply rd_wr_eq. }
  assert (HF2 : @lseg _ (free_objs b) k2 (rd k x) F).
  { apply (@lseg_frame _ (free_objs b) k); [|done]. intros y Hy. cbn. apply Hrd; by apply HFc. }
  splits; try done.
  - eapply (rep_update_slab k k2 P S PL p _ _ _ HR Hp); try done.
    + intros a Ha. apply Hrd; unfold SL_freelist, SL_inuse, PAGE_SIZE in *; lia.
    + apply Hrd; unfold SL_next, SL_freelist, SL_inuse; lia.
    + destruct Hok as [H1 H2 H3 H4 H5 H6 H7 H8]. cbn [si_cache si_free] in *.
      split; cbn [si_cache si_free]; change (base_of k2 p) with b;
        try change (cache_of k2 c) with (cache_of k c); try done;
        try (rewrite Hrd; [done|unfold SL_magic, SL_cache, SL_objects, SL_freelist, SL_inuse; lia..]).
      * destruct (cache_layout _ H2) as (_ & _ & Hn & _).
        unfold k2. rewrite rd_wr_eq. unfold k1. rewrite rd_wr_ne by (unfold SL_freelist, SL_inuse; lia).
        unfold b. rewrite H6. cbn [length].
        assert (Hlen : Z.of_nat (length (x :: F)) <= slab_objects_per_page (cache_of k c)).
        { rewrite <- (objs_length b) by done. apply inj_le.
          apply submseteq_length, NoDup_submseteq; [|done].
          eapply (@lseg_NoDup _ (free_objs b)), H7. }
        cbn [length] in Hlen. rewrite wrapu_id by lia. lia.
      * unfold slist. cbn [sget free_objs]. by rewrite Hhead.
      * intros y Hy. apply Hsub. set_solver.
  - rewrite Hhead. split; [|intros ->; exact HF2].
    intros E. destruct F as [|y F]; [done|].
    destruct HF as (Ey & Hy & _). cbn in Ey. congruence.
Qed.

(** An object of a slab that is not free is put back. *)
Lemma put_rep k P S PL p c x F :
  slub_rep k P S PL -> S !! p = Some (mkSlab c F) ->
  let b := base_of k p in
  x ∈ objs b (cache_of k c) -> x ∉ F ->
  let k1 := wr k x (rd k (b + SL_freelist)) in
  let k2 := wr k1 (b + SL_freelist) x in
  let k3 := wr k2 (b + SL_inuse) (u32 (rd k2 (b + SL_inuse) - 1)) in
  slub_rep k3 P (<[p := mkSlab c (x :: F)]> S) PL /\
  forall a, a <> b + SL_freelist -> a <> b + SL_inuse -> a <> x -> rd k3 a = rd k a.
Proof.
  intros HR Hp b Hxo Hxn k1 k2 k3. assert (Hok := sr_slab _ _ _ _ HR _ _ Hp).
  pose proof (sl_size _ _ _ Hok) as Hco. pose proof (sl_sub _ _ _ Hok) as Hsub.
  cbn [si_cache si_free] in *. fold b in Hsub.
  pose proof (objs_range b _ x Hco Hxo) as Hxr.
  destruct (cache_layout _ Hco) as (_ & Hsz & Hn & _).
  assert (Hrd : forall a, a <> b + SL_freelist -> a <> b + SL_inuse -> a <> x -> rd k3 a = rd k a).
  { intros a H1 H2 H3. unfold k3, k2, k1. by rewrite !rd_wr_ne by congruence. }
  split; [|done].
  assert (Hpos : 0 < b).
  { destruct (slab_page_used _ _ _ _ _ _ HR Hp) as [_ Hr].
    unfold b, base_of. rewrite pfn_to_addr_eq by (done || apply (inv_pool _ _ (sr_buddy _ _ _ _ HR))).
    destruct (pool_start _ (inv_pool _ _ (sr_buddy _ _ _ _ HR))). unfold PAGE_SIZE. lia. }
  eapply (rep_update_slab k k3 P S PL p _ _ _ HR Hp); try done.
  - intros a Ha. apply Hrd; unfold SL_freelist, SL_inuse, PAGE_SIZE, SIZEOF_SLAB in *; lia.
  - apply Hrd; unfold SL_next, SL_freelist, SL_inuse, SIZEOF_SLAB in *; lia.
  - destruct Hok as [H1 H2 H3 H4 H5 H6 H7 H8]. cbn [si_cache si_free] in *.
    fold b in H3, H4, H5, H6, H7.
    split; cbn [si_cache si_free]; change (base_of k3 p) with b;
      try change (cache_of k3 c) with (cache_of k c); try done;
      try (rewrite Hrd; [done|unfold SL_magic, SL_cache, SL_objects, SL_freelist, SL_inuse,
             SIZEOF_SLAB in *; lia..]).
    + unfold k3. rewrite rd_wr_eq. unfold k2, k1.
      rewrite !rd_wr_ne by (unfold SL_freelist, SL_inuse, SIZEOF_SLAB in *; lia).
      rewrite H6. cbn [length].
      assert (Hlen : Z.of_nat (length (x :: F)) <= slab_objects_per_page (cache_of k c)).
      { rewrite <- (objs_length b) by done. apply inj_le.
        apply submseteq_length, NoDup_submseteq; [|set_solver].
        apply NoDup_cons. split; [done|]. eapply (@lseg_NoDup _ (free_objs b)), H7. }
      cbn [length] in Hlen. rewrite wrapu_id by lia. lia.
    + apply (@slist_frame _ (free_objs b) k2).
      * intros y Hy. cbn. apply rd_wr_ne.
        assert (Hyo : y ∈ objs b (cache_of k c)) by set_solver.
        pose proof (objs_range b _ y Hco Hyo). unfold SL_inuse, SIZEOF_SLAB in *. lia.
      * cbn. apply rd_wr_ne. unfold SL_inuse, SL_freelist. lia.
      * apply free_objs_push; try done; unfold SIZEOF_SLAB, SL_freelist in *; try lia.
        intros y Hy. pose proof (objs_range b _ y Hco (Hsub _ Hy)).
        unfold SIZEOF_SLAB in *. lia.
    + intros y [->|Hy]%elem_of_cons; [done|]. by apply Hsub.
Qed.

(** ** New slabs *)

Lemma slab_pages_insert P S p si :
  P !! p = None -> P ∪ slab_pages (<[p := si]> S) = <[p := 0]> (P ∪ slab_pages S).
Proof.
  intros HP. unfold slab_pages. rewrite fmap_insert. by rewrite <- insert_union_r.
Qed.

Lemma rep_add_slab k k' P S PL p si b1 m :
  let A := P ∪ slab_pages S in
  slub_rep k P S PL -> A !! p = None -> 0 <= p < pool_pages (pa k) ->
  buddy_inv b1 (<[p := 0]> A) -> same_pool (pa k) b1 ->
  refcount b1 = <[p := 1]> (refcount (pa k)) -> writes_in (outside A) (pa k) b1 ->
  caches k' = caches k -> pa k' = set_mem b1 m ->
  (forall a, ~ in_page (pa k) p a -> m.[a] = (mem b1).[a]) -> slab_ok k' p si ->
  slub_rep k' P (<[p := si]> S) PL /\ same_layout k k' /\
  refcount (pa k') = <[p := 1]> (refcount (pa k)) /\
  forall p' o' q a, A !! p' = Some o' -> covers p' o' q -> in_page (pa k) q a ->
    rd k' a = rd k a.
Proof.
  intros A HR HAp Hr Hb1 Hsp Hrc Hw Hc Hpa Hm Hok.
  pose proof (proj1 (lookup_union_None _ _ _) HAp) as [HPp HSp].
  assert (Hbi := sr_buddy _ _ _ _ HR). assert (Hpool := inv_pool _ _ Hbi).
  assert (Hl : same_layout k k').
  { split; [by rewrite Hpa|by rewrite Hc|unfold cache_of; by rewrite Hc]. }
  assert (Hfr : forall p' o' q a, A !! p' = Some o' -> covers p' o' q -> in_page (pa k) q a ->
    rd k' a = rd k a).
  { intros p' o' q a Hp' Hcv Ha. assert (Hq := inv_covers_pool _ _ _ _ _ Hbi Hp' Hcv).
    unfold rd. rewrite Hpa. cbn [mem set_mem]. rewrite Hm.
    - by eapply (writes_in_used (pa k) b1 A p' o' q a).
    - intros Ha'. assert (p = q) as -> by (by eapply in_page_unique).
      assert (q = p') as ->; [|congruence].
      eapply (inv_disjoint b1 (<[q := 0]> A) q 0 p' o' q Hb1).
      + apply lookup_insert_eq.
      + rewrite lookup_insert_ne; [done|congruence].
      + apply covers_self. lia.
      + done. }
  assert (Hslab : forall p' si' a, S !! p' = Some si' -> base_of k p' <= a < base_of k p' + PAGE_SIZE ->
    rd k' a = rd k a).
  { intros p' si' a Hp' Ha. destruct (slab_page_used _ _ _ _ _ _ HR Hp') as [Hu _].
    eapply (Hfr p' 0 p'); [done|apply covers_self; lia|done]. }
  split; [|splits; [done|by rewrite Hpa|done]]. split.
  - rewrite slab_pages_insert by done. fold A. rewrite Hpa. apply inv_set_mem; [done|].
    intros q Hq Hout. apply Hm. intros Ha. apply (Hout p 0); [apply lookup_insert_eq|].
    assert (Hq' : 0 <= q < pool_pages (pa k)) by (destruct Hsp as (_ & _ & _ & <-); done).
    rewrite (pfn_to_addr_same _ _ _ Hsp) in Ha.
    assert (q = p) as -> by (eapply (in_page_unique (pa k)); [done..|apply in_page_base|done]).
    apply covers_self. lia.
  - unfold slab_pages. rewrite fmap_insert. apply map_disjoint_insert_r_2; [done|apply HR].
  - intros p' Hp'. rewrite Hpa. cbn. rewrite Hrc, arr_get_insert_case. case_decide; [done|].
    apply (sr_ref _ _ _ _ HR). by rewrite lookup_insert_ne in Hp'.
  - intros p' si' [[<- <-]|[Hne Hp']]%lookup_insert_Some; [done|].
    eapply slab_ok_frame; [done| |by eapply sr_slab]. intros a Ha _. by eapply Hslab.
  - rewrite Hc. apply HR.
  - intros c Hcs. rewrite Hc in Hcs.
    apply (@slist_frame _ (partial_list c) k); [|cbn; unfold cache_of; by rewrite Hc|by apply HR].
    intros x Hx. cbn. destruct (sr_member _ _ _ _ HR c x Hcs Hx) as (p' & si' & Hp' & -> & _).
    eapply Hslab; [done|]. unfold SL_next, PAGE_SIZE. lia.
  - intros c x Hcs Hx. rewrite Hc in Hcs.
    destruct (sr_member _ _ _ _ HR c x Hcs Hx) as (p' & si' & Hp' & -> & E).
    exists p', si'. rewrite (base_of_layout _ _ _ Hl). splits; try done.
    rewrite lookup_insert_ne; [done|]. intros ->.
    unfold slab_pages in HSp. by rewrite lookup_fmap, Hp' in HSp.
Qed.

Lemma slab_init_rd k s c i n :
  let k' := slab_init k s c i n in
  rd k' (s + SL_magic) = SLAB_MAGIC /\ rd k' (s + SL_cache) = c /\
  rd k' (s + SL_freelist) = 0 /\ rd k' (s + SL_inuse) = i /\ rd k' (s + SL_objects) = n /\
  forall a, ~ (s <= a < s + SIZEOF_SLAB) -> rd k' a = rd k a.
Proof.
  unfold slab_init. cbv zeta.
  splits; intros; repeat (rewrite rd_wr_ne by (unfold SL_magic, SL_cache, SL_freelist, SL_inuse,
    SL_objects, SL_next, SIZEOF_SLAB in *; lia)); try done; apply rd_wr_eq.
Qed.

(** The page allocator has no block of an order left. *)
Definition no_block (k : slub) (o : Z) : Prop := alloc_pages (pa k) o = Some (0, pa k).

Lemma slab_create_rep k P S PL c :
  slub_rep k P S PL -> is_Some (caches k !! c) ->
  let A := P ∪ slab_pages S in
  (slab_create k c = Some (0, k) /\ no_block k 0) \/
  exists p k', slab_create k c = Some (base_of k p, k') /\ A !! p = None /\
    0 <= p < pool_pages (pa k) /\
    slub_rep k' P (<[p := mkSlab c (reverse (objs (base_of k p) (cache_of k c)))]> S) PL /\
    same_layout k k' /\ refcount (pa k') = <[p := 1]> (refcount (pa k)) /\
    forall p' o' q a, A !! p' = Some o' -> covers p' o' q -> in_page (pa k) q a ->
      rd k' a = rd k a.
Proof.
  intros HR [e He] A. assert (Hbi := sr_buddy _ _ _ _ HR). fold A in Hbi.
  assert (Hpool := inv_pool _ _ Hbi). pose proof (pool_order _ Hpool).
  destruct (sr_caches _ _ _ _ HR c e He) as [Hc0 Hco].
  assert (Ec : cache_of k c = e) by (unfold cache_of; by rewrite He).
  destruct (alloc_pages_rep (pa k) A 0 Hbi ltac:(lia))
    as [[E _]|(p & b1 & E & Hr & Hrun & Hb1 & Hsp & Hrc & Hw)]; unfold slab_create; rewrite E.
  { left. split; [cbn; by destruct k|done]. }
  right. cbn [mbind option_bind]. assert (Hnz := pfn_to_addr_nonzero _ _ Hpool Hr).
  rewrite (proj2 (Z.eqb_neq _ _)) by done. fold (base_of k p). set (b := base_of k p).
  change (cache_of (set_pa k b1) c) with (cache_of k c). rewrite Ec.
  destruct (cache_layout e Hco) as (Hoff & Hsz & Hn & Hfit).
  set (k2 := slab_init (set_pa k b1) b c 0 (slab_objects_per_page e)).
  destruct (slab_init_rd (set_pa k b1) b c 0 (slab_objects_per_page e))
    as (H1 & H2 & H3 & H4 & H5 & H6). fold k2 in H1, H2, H3, H4, H5, H6.
  rewrite H5. rewrite (proj2 (Z.eqb_neq _ _)) by lia.
  change (cache_of k2 c) with (cache_of k c). rewrite Ec.
  assert (Hb0 : 0 < b).
  { unfold b, base_of. rewrite pfn_to_addr_eq by done. destruct (pool_start _ Hpool).
    unfold PAGE_SIZE. lia. }
  destruct (carve_spec (Z.to_nat (slab_objects_per_page e)) k2 b (slab_object_offset e)
    (object_size e) 0 []) as (HF & Hcc & [m Hm] & Hrd); try done; try lia.
  { intros y Hy. by apply not_elem_of_nil in Hy. }
  set (k3 := carve _ k2 b _ _ 0) in *. rewrite Z2Nat.id in HF, Hrd by lia.
  rewrite app_nil_r in HF. fold (objs b e) in HF.
  exists p, k3. split; [done|].
  assert (HAp : A !! p = None).
  { apply eq_None_not_Some. intros [o' Hp]. destruct Hrun as [_ Hrun].
    destruct (inv_used_block _ _ _ _ Hbi Hp) as ((? & _) & _).
    apply (Hrun p (covers_self p 0 ltac:(lia)) p o' Hp), covers_self. lia. }
  split; [done|]. split; [done|].
  assert (Hobj : forall d, 0 <= d < SIZEOF_SLAB -> d <> SL_freelist -> rd k3 (b + d) = rd k2 (b + d)).
  { intros d Hd Hd'. apply Hrd; [lia|]. intros j Hj. unfold SIZEOF_SLAB in *. nia. }
  eapply (rep_add_slab k k3 P S PL p _ b1 m HR HAp Hr Hb1 Hsp Hrc Hw); try done.
  - intros a Ha. assert (Hra : forall x, m.[x] = rd k3 x) by (intros x; unfold rd; by rewrite Hm).
    rewrite Hra. unfold in_page in Ha. fold (base_of k p) in Ha. fold b in Ha.
    rewrite Hrd, H6; [done|unfold SIZEOF_SLAB, PAGE_SIZE in *; lia| |].
    + unfold SL_freelist, PAGE_SIZE in *. lia.
    + intros j Hj ->. apply Ha. unfold SIZEOF_SLAB, PAGE_SIZE in *. nia.
  - assert (Eb : base_of k3 p = b).
    { unfold base_of. rewrite Hm. by apply (pfn_to_addr_same (pa k)). }
    assert (Ek : cache_of k3 c = e) by (unfold cache_of; rewrite Hcc; cbn; by rewrite He).
    split; cbn [si_cache si_free]; rewrite ?Eb, ?Ek; try done.
    + rewrite Hcc. cbn. by rewrite He.
    + by rewrite Hobj.
    + by rewrite Hobj.
    + by rewrite Hobj.
    + rewrite Hobj, H4 by done. rewrite length_reverse, objs_length by done. lia.
    + intros x. by rewrite elem_of_reverse.
Qed.

(** ** What the caches leave alone *)

(** Cells of the blocks [P] and of the objects [O] keep their contents. *)
Record slub_frame (k k' : slub) (P O : gmap Z Z) : Prop := {
  fr_layout : same_layout k k';
  fr_ref : forall p, is_Some (P !! p) -> (refcount (pa k')).[p] = (refcount (pa k)).[p];
  fr_page : forall p o q a, P !! p = Some o -> covers p o q -> in_page (pa k) q a ->
    rd k' a = rd k a;
  fr_obj : forall x c a, O !! x = Some c -> x <= a < x + object_size (cache_of k c) ->
    rd k' a = rd k a
}.

Lemma slub_frame_refl k P O : slub_frame k k P O.
Proof. split; try done. Qed.

Lemma slub_frame_trans k1 k2 k3 P O :
  slub_frame k1 k2 P O -> slub_frame k2 k3 P O -> slub_frame k1 k3 P O.
Proof.
  intros [L1 R1 G1 B1] [L2 R2 G2 B2]. split.
  - by etrans.
  - intros p Hp. by rewrite R2, R1.
  - intros p o q a Hp Hc Ha. rewrite (G2 p o q), (G1 p o q); try done.
    unfold in_page in *. by rewrite (pfn_to_addr_same _ _ _ (lay_pool _ _ L1)).
  - intros x c a Hx Ha. rewrite (B2 x c), (B1 x c); try done. by rewrite (lay_size _ _ L1).
Qed.

Lemma slub_frame_sub k k' P P' O O' :
  P' ⊆ P -> O' ⊆ O -> slub_frame k k' P O -> slub_frame k k' P' O'.
Proof.
  intros HP HO [L R G B]. split; try done.
  - intros p [o Hp]. apply R. exists o. by eapply lookup_weaken.
  - intros p o q a Hp. apply (G p o q). by eapply lookup_weaken.
  - intros x c a Hx. apply (B x c). by eapply lookup_weaken.
Qed.

Lemma live_object k P S PL x c :
  slub_rep k P S PL -> live k S x c ->
  exists p si, S !! p = Some si /\ si_cache si = c /\ cache_ok (cache_of k c) /\
    is_Some (caches k !! c) /\
    base_of k p + SIZEOF_SLAB <= x /\ x + object_size (cache_of k c) <= base_of k p + PAGE_SIZE.
Proof.
  intros HR (p & si & Hp & Hc & Hx & _). assert (Hok := sr_slab _ _ _ _ HR _ _ Hp).
  assert (Hs := sl_size _ _ _ Hok). assert (Hcc := sl_cache _ _ _ Hok). rewrite Hc in Hs, Hcc.
  destruct (objs_range _ _ _ Hs Hx). exists p, si. splits; done.
Qed.

Lemma used_page_apart k P S PL p o q a p' si' :
  slub_rep k P S PL -> P !! p = Some o -> covers p o q -> in_page (pa k) q a ->
  S !! p' = Some si' -> ~ (base_of k p' <= a < base_of k p' + PAGE_SIZE).
Proof.
  intros HR Hp Hc Ha Hp' Ha'. assert (Hbi := sr_buddy _ _ _ _ HR). assert (Hpool := inv_pool _ _ Hbi).
  assert (Hp2 : (P ∪ slab_pages S) !! p = Some o) by (by apply lookup_union_Some_l).
  assert (Hq := inv_covers_pool _ _ _ _ _ Hbi Hp2 Hc).
  destruct (slab_page_used _ _ _ _ _ _ HR Hp') as [Hu Hr].
  assert (q = p') as -> by (by eapply (in_page_unique (pa k))).
  assert (p = p') as ->.
  { eapply (inv_disjoint _ _ p o p' 0 p' Hbi); try done. apply covers_self. lia. }
  apply (map_disjoint_Some_l _ _ _ _ (sr_disj _ _ _ _ HR)) in Hp. unfold slab_pages in Hp.
  by rewrite lookup_fmap, Hp' in Hp.
Qed.

(** Changes confined to slab headers. *)
Lemma frame_headers k k' P S PL O :
  slub_rep k P S PL -> (forall x c, O !! x = Some c -> live k S x c) ->
  same_layout k k' -> refcount (pa k') = refcount (pa k) ->
  (forall a, (forall p si, S !! p = Some si ->
      ~ (base_of k p <= a < base_of k p + SIZEOF_SLAB)) -> rd k' a = rd k a) ->
  slub_frame k k' P O.
Proof.
  intros HR HO Hl Hrc Hm. assert (Hbi := sr_buddy _ _ _ _ HR). assert (Hpool := inv_pool _ _ Hbi).
  split; [done|by rewrite Hrc| |].
  - intros p o q a Hp Hc Ha. apply Hm. intros p' si' Hp' Ha'.
    eapply (used_page_apart k P S PL p o q a p'); try done. unfold SIZEOF_SLAB, PAGE_SIZE in *. lia.
  - intros x c a Hx Ha. apply Hm. intros p' si' Hp' Ha'.
    destruct (live_object _ _ _ _ _ _ HR (HO _ _ Hx)) as (p & si & Hp & _ & Hco & _ & ? & ?).
    destruct (cache_layout _ Hco) as (_ & ? & _).
    destruct (decide (p = p')) as [->|Hne]; [lia|].
    eapply (pages_apart k P S PL p p' _ _ a); [done..| |]; unfold SIZEOF_SLAB, PAGE_SIZE in *; lia.
Qed.

Lemma live_layout k k' S x c : same_layout k k' -> live k' S x c <-> live k S x c.
Proof.
  intros Hl. unfold live. setoid_rewrite (base_of_layout _ _ _ Hl).
  by setoid_rewrite (layout_objs _ _ _ _ Hl).
Qed.

Lemma obj_page k P S PL p p' si si' x :
  slub_rep k P S PL -> S !! p = Some si -> S !! p' = Some si' ->
  x ∈ objs (base_of k p) (cache_of k (si_cache si)) ->
  x ∈ objs (base_of k p') (cache_of k (si_cache si')) -> p = p'.
Proof.
  intros HR Hp Hp' Hx Hx'. destruct (decide (p = p')) as [|Hne]; [done|]. exfalso.
  pose proof (sl_size _ _ _ (sr_slab _ _ _ _ HR _ _ Hp)) as Hc.
  pose proof (sl_size _ _ _ (sr_slab _ _ _ _ HR _ _ Hp')) as Hc'.
  apply (objs_range _ _ _ Hc) in Hx. apply (objs_range _ _ _ Hc') in Hx'.
  destruct (cache_layout _ Hc) as (_ & ? & _), (cache_layout _ Hc') as (_ & ? & _).
  eapply (pages_apart k P S PL p p' _ _ x); [done..| |]; unfold SIZEOF_SLAB in *; lia.
Qed.

(** Moving [x] off the free list of its slab makes it live, and conversely. *)
Lemma live_move k P S PL p c x F y c' :
  slub_rep k P S PL -> S !! p = Some (mkSlab c F) ->
  x ∈ objs (base_of k p) (cache_of k c) -> x ∉ F ->
  live k S y c' <-> live k (<[p := mkSlab c (x :: F)]> S) y c' \/ (y = x /\ c' = c).
Proof.
  intros HR Hp Hx Hn. split.
  - intros (p' & si & Hp' & Hc & Hy & Hf). destruct (decide (p = p')) as [<-|Hne].
    + rewrite Hp in Hp'. injection Hp' as <-. cbn in *. subst c'.
      destruct (decide (y = x)) as [->|Hyx]; [by right|]. left.
      exists p, (mkSlab c (x :: F)). rewrite lookup_insert_eq. splits; try done.
      cbn. set_solver.
    + left. exists p', si. by rewrite lookup_insert_ne.
  - intros [(p' & si & Hp' & Hc & Hy & Hf)|[-> ->]].
    + apply lookup_insert_Some in Hp' as [[<- <-]|[Hne Hp']].
      * cbn in *. subst c'. exists p, (mkSlab c F). splits; try done. cbn. set_solver.
      * by exists p', si.
    + by exists p, (mkSlab c F).
Qed.

(** The same, for a map of the live objects. *)
Lemma live_map_move k P S PL p c x F (O : gmap Z Z) :
  slub_rep k P S PL -> S !! p = Some (mkSlab c F) ->
  x ∈ objs (base_of k p) (cache_of k c) -> x ∉ F ->
  let S' := <[p := mkSlab c (x :: F)]> S in
  ((forall y c', O !! y = Some c' <-> live k S' y c') ->
     O !! x = None /\ forall y c', <[x := c]> O !! y = Some c' <-> live k S y c') /\
  ((forall y c', O !! y = Some c' <-> live k S y c') ->
     O !! x = Some c /\ forall y c', delete x O !! y = Some c' <-> live k S' y c').
Proof.
  intros HR Hp Hx Hn S'.
  assert (Hxd : forall c', ~ live k S' x c').
  { intros c' (p' & si & Hp' & Hc & Hy & Hf).
    apply lookup_insert_Some in Hp' as [[<- <-]|[Hne Hp']].
    - apply Hf. cbn. set_solver.
    - apply Hne. subst c'. by eapply (obj_page k P S PL p p' (mkSlab c F) si x). }
  assert (Hmv := fun y c' => live_move k P S PL p c x F y c' HR Hp Hx Hn). fold S' in Hmv.
  split; intros HO; split.
  - apply eq_None_not_Some. intros [c' Hc']. apply HO in Hc'. by apply Hxd in Hc'.
  - intros y c'. rewrite Hmv, <- HO, lookup_insert_Some.
    split; [naive_solver|]. intros [Hy|[-> ->]]; [|by left]. right. split; [|done].
    intros ->. apply HO in Hy. by apply Hxd in Hy.
  - apply HO. by exists p, (mkSlab c F).
  - intros y c'. rewrite lookup_delete_Some, HO, Hmv. split.
    + intros [Hne [?|[-> _]]]; done.
    + intros Hl. split; [|by left]. intros ->. by apply Hxd in Hl.
Qed.

(** ** Allocation and release *)

Lemma tidy_at_layout k k' PL p si : same_layout k k' -> tidy_at k' PL p si <-> tidy_at k PL p si.
Proof. intros Hl. unfold tidy_at. by rewrite (base_of_layout _ _ _ Hl), (layout_objects _ _ _ Hl). Qed.

Lemma free_length k P S PL p si :
  slub_rep k P S PL -> S !! p = Some si ->
  Z.of_nat (length (si_free si)) <= slab_objects_per_page (cache_of k (si_cache si)).
Proof.
  intros HR Hp. assert (Hok := sr_slab _ _ _ _ HR _ _ Hp).
  rewrite <- (objs_length (base_of k p)) by apply Hok. apply inj_le.
  apply submseteq_length, NoDup_submseteq; [|apply Hok].
  eapply (@lseg_NoDup _ (free_objs (base_of k p))), (sl_free _ _ _ Hok).
Qed.

(** Changing the list of one cache around one slab keeps the others tidy. *)
Lemma tidy_others k P S PL p si l :
  slub_rep k P S PL -> S !! p = Some si ->
  (forall p' si', p' <> p -> S !! p' = Some si' -> tidy_at k PL p' si') ->
  (forall b, b <> base_of k p -> b ∈ l <-> b ∈ PL (si_cache si)) ->
  tidy_at k (<[si_cache si := l]> PL) p si ->
  tidy k S (<[si_cache si := l]> PL).
Proof.
  intros HR Hp Ht Hl Hpt p' si' Hp'. destruct (decide (p' = p)) as [->|Hne]; [by simplify_eq|].
  destruct (Ht p' si' Hne Hp') as [H1 H2]. split; [|done]. rewrite <- H1.
  destruct (decide (si_cache si = si_cache si')) as [E|E].
  - rewrite E, fn_lookup_insert, Hl, E; [done|]. intros Eb. apply Hne. by eapply base_inj.
  - by rewrite fn_lookup_insert_ne.
Qed.

Definition header_frame (k k' : slub) (S : gmap Z slab_info) : Prop :=
  forall a, (forall p si, S !! p = Some si ->
    ~ (base_of k p <= a < base_of k p + SIZEOF_SLAB)) -> rd k' a = rd k a.

Lemma slab_take_rep k P S PL p c x F :
  slub_rep k P S PL -> S !! p = Some (mkSlab c (x :: F)) -> base_of k p ∈ PL c ->
  (forall p' si', p' <> p -> S !! p' = Some si' -> tidy_at k PL p' si') ->
  let S' := <[p := mkSlab c F]> S in
  exists k' PL', slab_take k c (base_of k p) = Some (x, k') /\
    slub_rep k' P S' PL' /\ tidy k' S' PL' /\ same_layout k k' /\
    refcount (pa k') = refcount (pa k) /\ header_frame k k' S.
Proof.
  intros HR Hp Hb Ht S'. destruct (take_rep _ _ _ _ _ _ _ _ HR Hp) as (Ex & HR2 & Hz & Hfr).
  unfold slab_take. rewrite Ex. cbv zeta.
  set (k1 := wr k _ _) in *. set (k2 := wr k1 _ _) in *. fold S' in HR2.
  assert (Hl2 : same_layout k k2) by (split; done).
  assert (Hp2 : S' !! p = Some (mkSlab c F)) by apply lookup_insert_eq.
  assert (Ht2 : forall p' si', p' <> p -> S' !! p' = Some si' -> tidy_at k2 PL p' si').
  { intros p' si' Hne Hp'. unfold S' in Hp'. rewrite lookup_insert_ne in Hp' by done.
    rewrite tidy_at_layout by done. by apply Ht. }
  assert (Hlen := free_length _ _ _ _ _ _ HR Hp). cbn [si_cache si_free length] in Hlen.
  assert (Hhf : header_frame k k2 S).
  { intros a Ha. assert (Hn := Ha _ _ Hp). unfold SIZEOF_SLAB, SL_freelist, SL_inuse in *.
    apply Hfr; lia. }
  destruct F as [|y F].
  - rewrite (proj2 (Z.eqb_eq _ _)) by (by apply Hz).
    apply list_elem_of_split in Hb as (l1 & l2 & HL).
    destruct (partial_unlink_rep k2 P S' PL p (mkSlab c []) l1 l2 HR2 Hp2 HL)
      as (k3 & E3 & HR3 & Hl3 & Hr3 & Hf3). cbn [si_cache] in *.
    change (base_of k2 p) with (base_of k p) in E3. rewrite E3.
    exists k3, (<[c := l1 ++ l2]> PL). splits; [done|done| | |by rewrite Hr3|].
    + assert (Hnd : base_of k p ∉ l1 ++ l2).
      { assert (Hc := sl_cache _ _ _ (sr_slab _ _ _ _ HR _ _ Hp)).
        assert (HN := @lseg_NoDup _ (partial_list c) _ _ _ (sr_partial _ _ _ _ HR c Hc)).
        rewrite HL in HN. apply NoDup_app in HN as (_ & H1 & H2).
        apply NoDup_cons in H2 as [H2 _]. set_solver. }
      intros p' si' Hp'. rewrite (tidy_at_layout _ _ _ _ _ Hl3). revert p' si' Hp'.
      apply (tidy_others k2 P S' PL p (mkSlab c []) (l1 ++ l2)); try done.
      * cbn [si_cache]. rewrite HL. set_solver.
      * split; cbn [si_cache si_free]; [|change (cache_of k2 c) with (cache_of k c); cbn [length] in *; lia]. rewrite fn_lookup_insert.
        split; [intros ?; by destruct Hnd|done].
    + by etrans.
    + intros a Ha. rewrite Hf3; [by apply Hhf|]. intros p' si' Hp' ->.
      unfold S' in Hp'. apply lookup_insert_Some in Hp' as [[<- <-]|[_ Hp']].
      * apply (Ha _ _ Hp). unfold SL_next, SIZEOF_SLAB.
        change (base_of k2 p) with (base_of k p). lia.
      * apply (Ha _ _ Hp'). unfold SL_next, SIZEOF_SLAB.
        change (base_of k2 p') with (base_of k p'). lia.
  - rewrite (proj2 (Z.eqb_neq _ _)) by (intros E%Hz; done).
    exists k2, PL. splits; try done. intros p' si' Hp'.
    destruct (decide (p' = p)) as [->|Hne]; [|by apply Ht2]. simplify_eq.
    rewrite tidy_at_layout by done. split; [by cbn|]. cbn [si_free si_cache length] in *. lia.
Qed.

Lemma slab_take_inv k P S PL O p c x F :
  slub_rep k P S PL -> S !! p = Some (mkSlab c (x :: F)) -> base_of k p ∈ PL c ->
  (forall p' si', p' <> p -> S !! p' = Some si' -> tidy_at k PL p' si') ->
  (forall y c', O !! y = Some c' <-> live k S y c') ->
  exists k', slab_take k c (base_of k p) = Some (x, k') /\ x <> 0 /\ O !! x = None /\
    slub_inv k' P (<[x := c]> O) /\ slub_frame k k' P O.
Proof.
  intros HR Hp Hb Ht HO. assert (Hok := sr_slab _ _ _ _ HR _ _ Hp).
  destruct (sl_free _ _ _ Hok) as (_ & Hx & _).
  assert (HN := @lseg_NoDup _ (free_objs (base_of k p)) _ _ _ (sl_free _ _ _ Hok)).
  cbn [si_free] in HN. apply NoDup_cons in HN as [HxF _].
  assert (Hxo := sl_sub _ _ _ Hok x ltac:(cbn; set_solver)). cbn [si_cache] in Hxo.
  destruct (slab_take_rep _ _ _ _ _ _ _ _ HR Hp Hb Ht) as (k' & PL' & E & HR' & Ht' & Hl & Hrc & Hfr).
  exists k'. assert (Hp' : <[p := mkSlab c F]> S !! p = Some (mkSlab c F)) by apply lookup_insert_eq.
  assert (Hxo' : x ∈ objs (base_of k' p) (cache_of k' c)).
  { by rewrite (base_of_layout _ _ _ Hl), (layout_objs _ _ _ _ Hl). }
  destruct (live_map_move _ _ _ _ _ _ _ _ O HR' Hp' Hxo' HxF) as [Hmv _].
  rewrite insert_insert_eq, (insert_id S) in Hmv by done.
  destruct Hmv as [HOx HO']. { intros y c'. by rewrite (live_layout _ _ _ _ _ Hl). }
  splits; try done.
  - by exists (<[p := mkSlab c F]> S), PL'.
  - eapply frame_headers; try done. intros y c'. by rewrite HO.
Qed.

(** Adding a slab page touches no page in use and no live object. *)
Lemma frame_create k k' P S PL O p :
  slub_rep k P S PL -> (forall y c, O !! y = Some c <-> live k S y c) ->
  (P ∪ slab_pages S) !! p = None -> same_layout k k' ->
  refcount (pa k') = <[p := 1]> (refcount (pa k)) ->
  (forall p' o' q a, (P ∪ slab_pages S) !! p' = Some o' -> covers p' o' q ->
     in_page (pa k) q a -> rd k' a = rd k a) ->
  slub_frame k k' P O.
Proof.
  intros HR HO HA Hl Hrc Hf. apply lookup_union_None in HA as [HP _]. split; [done| | |].
  - intros p' [o Hp']. rewrite Hrc, arr_get_insert_ne; [done|]. congruence.
  - intros p' o q a Hp'. apply Hf. by apply lookup_union_Some_l.
  - intros x c a Hx Ha. apply HO in Hx.
    destruct (live_object _ _ _ _ _ _ HR Hx) as (p' & si & Hp' & _ & _ & _ & ? & ?).
    destruct (slab_page_used _ _ _ _ _ _ HR Hp') as [Hu _].
    apply (Hf p' 0 p' a Hu); [apply covers_self; lia|].
    unfold in_page, base_of, SIZEOF_SLAB in *. lia.
Qed.

(** A fresh slab on the empty partial list of its cache. *)
Lemma refill_rep k P S PL c :
  slub_rep k P S PL -> tidy k S PL -> is_Some (caches k !! c) -> PL c = [] ->
  (slab_create k c = Some (0, k) /\ no_block k 0) \/
  exists p k1, slab_create k c = Some (base_of k p, k1) /\ base_of k p <> 0 /\
    let si := mkSlab c (reverse (objs (base_of k p) (cache_of k c))) in
    let k2 := partial_link k1 c (base_of k p) in
    let PL2 := <[c := [base_of k p]]> PL in
    slub_rep k2 P (<[p := si]> S) PL2 /\
    (forall p' si', p' <> p -> <[p := si]> S !! p' = Some si' -> tidy_at k2 PL2 p' si') /\
    base_of k2 p = base_of k p /\
    (forall y c', live k2 (<[p := si]> S) y c' <-> live k S y c') /\
    forall O, (forall y c', O !! y = Some c' <-> live k S y c') -> slub_frame k k2 P O.
Proof.
  intros HR Ht Hc HPL.
  destruct (slab_create_rep k P S PL c HR Hc) as [E|(p & k1 & E & HA & Hr & HR1 & Hl1 & Hrc1 & Hf1)];
    [by left|].
  right. exists p, k1. set (si := mkSlab c _) in *. cbv zeta.
  pose proof (proj1 (lookup_union_None _ _ _) HA) as [HPp HSp].
  assert (HSp' : S !! p = None).
  { unfold slab_pages in HSp. rewrite lookup_fmap in HSp. by destruct (S !! p). }
  assert (Hp1 : <[p := si]> S !! p = Some si) by apply lookup_insert_eq.
  assert (Eb := base_of_layout _ _ p Hl1).
  assert (Hn : base_of k1 p ∉ PL (si_cache si)) by (cbn; rewrite HPL; set_solver).
  destruct (partial_link_rep k1 P _ PL p si HR1 Hp1 Hn) as (HR2 & Hl2 & Hrc2 & Hf2).
  cbn [si_cache si] in HR2, Hl2, Hrc2, Hf2. rewrite Eb, HPL in HR2. rewrite Eb in Hl2, Hrc2, Hf2.
  set (k2 := partial_link k1 c (base_of k p)) in *.
  assert (Hl : same_layout k k2) by (by etrans).
  splits; [done| |done| | | |].
  - rewrite <- Eb. by eapply base_nonzero.
  - intros p' si' Hne Hp'. rewrite lookup_insert_ne in Hp' by done.
    rewrite (tidy_at_layout _ _ _ _ _ Hl). destruct (Ht _ _ Hp') as [H1 H2]. split; [|done].
    rewrite <- H1. destruct (decide (c = si_cache si')) as [<-|Hcc].
    + rewrite fn_lookup_insert, HPL. split; [|set_solver].
      intros Eb'%list_elem_of_singleton. exfalso. apply Hne. rewrite <- (base_of_layout _ _ p' Hl1) in Eb'.
      rewrite <- Eb in Eb'. eapply base_inj; [exact HR1| |exact Hp1|done].
      rewrite lookup_insert_ne by done. exact Hp'.
    + by rewrite fn_lookup_insert_ne.
  - by apply base_of_layout.
  - intros y c'. rewrite (live_layout _ _ _ _ _ Hl). split.
    + intros (p' & si' & Hp' & Ec & Hy & Hf). apply lookup_insert_Some in Hp' as [[<- <-]|[Hne Hp']].
      * cbn in *. subst c'. destruct Hf. by apply elem_of_reverse.
      * by exists p', si'.
    + intros (p' & si' & Hp' & Ec & Hy & Hf). exists p', si'.
      rewrite lookup_insert_ne; [done|]. congruence.
  - intros O HO. apply (slub_frame_trans _ k1).
    + by eapply frame_create.
    + eapply frame_headers; [exact HR1| |done|done|].
      * intros y c' Hy. apply HO in Hy. destruct Hy as (p' & si' & Hp' & Ec & Hy & Hf).
        exists p', si'. rewrite lookup_insert_ne by congruence.
        by rewrite (base_of_layout _ _ _ Hl1), (layout_objs _ _ _ _ Hl1).
      * intros a Ha. apply Hf2. intros ->. apply (Ha _ _ Hp1). unfold SL_next, SIZEOF_SLAB. lia.
Qed.

Lemma kmem_cache_alloc_inv k P O c :
  slub_inv k P O -> is_Some (caches k !! c) ->
  (kmem_cache_alloc k c = Some (0, k) /\ no_block k 0) \/
  exists x k', kmem_cache_alloc k c = Some (x, k') /\ x <> 0 /\ O !! x = None /\
    slub_inv k' P (<[x := c]> O) /\ slub_frame k k' P O.
Proof.
  intros (S & PL & HR & Ht & HO) Hc. unfold kmem_cache_alloc.
  assert (Hpl := sr_partial _ _ _ _ HR c Hc). unfold slist in Hpl. cbn [sget partial_list] in Hpl.
  destruct (PL c) as [|b l] eqn:EPL.
  - cbn in Hpl. rewrite Hpl. cbn [Z.eqb orb].
    destruct (refill_rep _ _ _ _ _ HR Ht Hc EPL) as
      [[E Hnb]|(p & k1 & E & Hnz & HR2 & Ht2 & Eb & Hlv & Hfr)]; rewrite E; cbn [mbind option_bind].
    { left. done. }
    right. rewrite (proj2 (Z.eqb_neq _ _)) by done. set (k2 := partial_link k1 c _) in *.
    destruct (sr_caches _ _ _ _ HR c (cache_of k c)) as [_ Hco].
    { destruct Hc as [e He]. unfold cache_of. by rewrite He. }
    destruct (reverse (objs (base_of k p) (cache_of k c))) as [|x F] eqn:EF.
    { apply (f_equal length) in EF. rewrite length_reverse in EF. cbn in EF.
      pose proof (objs_length (base_of k p) _ Hco).
      destruct (cache_layout _ Hco) as (_ & _ & ? & _). lia. }
    destruct (slab_take_inv _ _ _ _ O p c x F HR2) as (k' & E' & Hx & HOx & HI & HF').
    + apply lookup_insert_eq.
    + rewrite fn_lookup_insert. rewrite Eb. set_solver.
    + done.
    + intros y c'. by rewrite Hlv.
    + rewrite Eb in E'. exists x, k'. splits; try done.
      eapply slub_frame_trans; [by apply Hfr|done].
  - right. destruct Hpl as (Eb & Hnz & _). rewrite Eb.
    destruct (sr_member _ _ _ _ HR c b Hc ltac:(rewrite EPL; set_solver)) as (p & si & Hp & -> & Ec).
    destruct (Ht _ _ Hp) as [Hin _]. rewrite Ec, EPL in Hin.
    destruct si as [c0 [|x F]]; cbn [si_cache si_free] in *; subst c0.
    { exfalso. by apply Hin; [set_solver|]. }
    destruct (take_rep _ _ _ _ _ _ _ _ HR Hp) as (Ex & _).
    destruct (sl_free _ _ _ (sr_slab _ _ _ _ HR _ _ Hp)) as (_ & Hx & _).
    rewrite Ex, !(proj2 (Z.eqb_neq _ _)) by done. cbn [orb mbind option_bind].
    rewrite !(proj2 (Z.eqb_neq _ _)) by done.
    destruct (slab_take_inv _ _ _ _ O p c x F HR Hp) as (k' & E & ? & ? & ? & ?); try done.
    + rewrite EPL. set_solver.
    + intros p' si' _. apply Ht.
    + by exists x, k'.
Qed.

Lemma slab_pages_delete P S p :
  P !! p = None -> P ∪ slab_pages (delete p S) = delete p (P ∪ slab_pages S).
Proof.
  intros HP. unfold slab_pages. rewrite fmap_delete, delete_union. by rewrite (delete_id P).
Qed.

Lemma slab_from_object_page s p x :
  pool_ok s -> 0 <= p < pool_pages s -> in_page s p x -> slab_from_object x = pfn_to_addr s p.
Proof.
  intros Hs Hp Hx. unfold slab_from_object. unfold in_page in Hx.
  assert (Hd := page_aligned _ _ Hs Hp). destruct Hd as [m Hm].
  assert (Hb := pfn_to_addr_eq _ _ Hs Hp). pose proof (pool_start _ Hs) as [? _].
  pose proof (pool_count _ Hs). pose proof (pool_end _ Hs) as He. rewrite (pool_size _ Hs) in He.
  change PAGE_MASK with (u64 (Z.lnot (2 ^ 12 - 1))). unfold PAGE_SIZE, VIRT_MEM_END, KERNEL_VIRT_BASE, PHYS_MEM_SIZE in *.
  rewrite land_mask_down by lia. change (2 ^ 12) with 4096.
  rewrite Hm in Hx |- *. replace (x / 4096) with m; [lia|].
  apply Z.div_unique with (x - m * 4096); lia.
Qed.

(** Giving the page of a slab back to the page allocator. *)
Lemma rep_remove_slab k P S PL p si :
  slub_rep k P S PL -> S !! p = Some si ->
  (forall c, is_Some (caches k !! c) -> base_of k p ∉ PL c) ->
  exists b, free_pages (pa k) (base_of k p) 0 = Some b /\
    let k' := set_pa k b in
    slub_rep k' P (delete p S) PL /\ same_layout k k' /\
    refcount b = <[p := 0]> (refcount (pa k)) /\
    forall p' o' q a, delete p (P ∪ slab_pages S) !! p' = Some o' -> covers p' o' q ->
      in_page (pa k) q a -> rd k' a = rd k a.
Proof.
  intros HR Hp Hn. assert (Hbi := sr_buddy _ _ _ _ HR). assert (Hpool := inv_pool _ _ Hbi).
  destruct (slab_page_used _ _ _ _ _ _ HR Hp) as [Hu Hr].
  assert (HP : P !! p = None).
  { eapply map_disjoint_Some_l; [symmetry; apply (sr_disj _ _ _ _ HR)|].
    unfold slab_pages. by rewrite lookup_fmap, Hp. }
  destruct (free_pages_rep _ _ _ _ Hbi Hu) as (b & E & Hb & Hsp & Hrc & Hw).
  { by apply (sr_ref _ _ _ _ HR); eexists. }
  { rewrite Z.mul_1_r. by apply page_aligned. }
  exists b. split; [done|]. cbv zeta.
  assert (Hl : same_layout k (set_pa k b)) by (by split).
  assert (Hfr : forall p' o' q a, delete p (P ∪ slab_pages S) !! p' = Some o' -> covers p' o' q ->
      in_page (pa k) q a -> rd (set_pa k b) a = rd k a).
  { intros p' o' q a Hp' Hc Ha. eapply (writes_in_used (pa k) b _ p' o' q); try done.
    apply lookup_delete_Some in Hp' as [_ Hp']. by eapply inv_covers_pool. }
  assert (Hslab : forall p' si' a, p' <> p -> S !! p' = Some si' ->
    base_of k p' <= a < base_of k p' + PAGE_SIZE -> rd (set_pa k b) a = rd k a).
  { intros p' si' a Hne Hp' Ha. destruct (slab_page_used _ _ _ _ _ _ HR Hp') as [Hu' _].
    eapply (Hfr p' 0 p'); [by rewrite lookup_delete_ne|apply covers_self; lia|done]. }
  splits; try done. split; cbn [pa set_pa].
  - by rewrite slab_pages_delete.
  - unfold slab_pages. rewrite fmap_delete. by apply map_disjoint_delete_r, HR.
  - intros p' [si' [Hne Hp']%lookup_delete_Some]. rewrite Hrc, arr_get_insert_ne by done.
    apply (sr_ref _ _ _ _ HR). eauto.
  - intros p' si' [Hne Hp']%lookup_delete_Some.
    eapply slab_ok_frame; [done| |by eapply sr_slab]. intros a Ha _. by eapply Hslab.
  - apply HR.
  - intros c Hcs. apply (@slist_frame _ (partial_list c) k); [|done|by apply HR].
    intros x Hx. cbn. destruct (sr_member _ _ _ _ HR c x Hcs Hx) as (p' & si' & Hp' & -> & _).
    eapply Hslab; [|done|]; [|unfold SL_next, PAGE_SIZE; lia]. intros ->. by apply (Hn c).
  - intros c x Hcs Hx. destruct (sr_member _ _ _ _ HR c x Hcs Hx) as (p' & si' & Hp' & -> & Ec).
    exists p', si'. rewrite (base_of_layout _ _ _ Hl), lookup_delete_ne; [done|].
    intros <-. by apply (Hn c).
Qed.

(** The frame of a release: what is left is untouched. *)
Lemma frame_remove k b P S PL O p :
  let k' := set_pa k b in
  slub_rep k P S PL -> is_Some (S !! p) ->
  (forall y c, O !! y = Some c -> live k (delete p S) y c) -> same_layout k k' ->
  refcount b = <[p := 0]> (refcount (pa k)) ->
  (forall p' o' q a, delete p (P ∪ slab_pages S) !! p' = Some o' -> covers p' o' q ->
     in_page (pa k) q a -> rd k' a = rd k a) ->
  slub_frame k k' P O.
Proof.
  intros k' HR [si Hp] HO Hl Hrc Hf.
  assert (HP : P !! p = None).
  { eapply map_disjoint_Some_l; [symmetry; apply (sr_disj _ _ _ _ HR)|].
    unfold slab_pages. by rewrite lookup_fmap, Hp. }
  split; [done| | |].
  - intros p' [o Hp']. cbn. rewrite Hrc, arr_get_insert_ne; [done|]. congruence.
  - intros p' o q a Hp'. apply Hf. rewrite lookup_delete_ne by congruence.
    by apply lookup_union_Some_l.
  - intros x c a Hx Ha. destruct (HO _ _ Hx) as (p' & si' & [Hne Hp']%lookup_delete_Some & Hcc & Hxo & _).
    assert (Hsz := sl_size _ _ _ (sr_slab _ _ _ _ HR _ _ Hp')). rewrite Hcc in Hsz.
    destruct (objs_range _ _ _ Hsz Hxo).
    destruct (slab_page_used _ _ _ _ _ _ HR Hp') as [Hu _].
    apply (Hf p' 0 p' a); [by rewrite lookup_delete_ne|apply covers_self; lia|].
    unfold in_page, base_of, SIZEOF_SLAB in *. lia.
Qed.

(** [slab_destroy] of a slab all of whose objects are free, whether or not
    it is on its partial list. *)
Lemma slab_destroy_inv k P S PL O p si :
  slub_rep k P S PL -> S !! p = Some si ->
  (forall p' si', p' <> p -> S !! p' = Some si' -> tidy_at k PL p' si') ->
  (forall x, x ∈ objs (base_of k p) (cache_of k (si_cache si)) -> x ∈ si_free si) ->
  (forall y c', O !! y = Some c' <-> live k S y c') ->
  exists k', slab_destroy k (si_cache si) (base_of k p) = Some k' /\
    slub_inv k' P O /\ slub_frame k k' P O.
Proof.
  intros HR Hp Ht Hall HO. set (c := si_cache si) in *.
  assert (Hc := sl_cache _ _ _ (sr_slab _ _ _ _ HR _ _ Hp)). fold c in Hc.
  assert (Hdel : forall y c', live k S y c' <-> live k (delete p S) y c').
  { intros y c'. split; intros (p' & si' & Hp' & Ec & Hy & Hf).
    - exists p', si'. rewrite lookup_delete_ne; [done|]. intros <-. simplify_eq. by apply Hf, Hall.
    - apply lookup_delete_Some in Hp' as [_ Hp']. by exists p', si'. }
  assert (Hun : exists k1 PL1, partial_unlink k c (base_of k p) = Some k1 /\
    slub_rep k1 P S PL1 /\ same_layout k k1 /\ slub_frame k k1 P O /\
    (forall c', is_Some (caches k !! c') -> base_of k p ∉ PL1 c') /\
    forall p' si', p' <> p -> S !! p' = Some si' -> tidy_at k PL1 p' si').
  { destruct (decide (base_of k p ∈ PL c)) as [Hin|Hin].
    - assert (HN := @lseg_NoDup _ (partial_list c) _ _ _ (sr_partial _ _ _ _ HR c Hc)).
      apply list_elem_of_split in Hin as (l1 & l2 & HL). rewrite HL in HN.
      apply NoDup_app in HN as (_ & H1 & [H2 _]%NoDup_cons).
      destruct (partial_unlink_rep k P S PL p si l1 l2 HR Hp HL) as (k1 & E1 & HR1 & Hl1 & Hr1 & Hf1).
      fold c in E1, HR1. exists k1, (<[c := l1 ++ l2]> PL). splits; try done.
      + eapply frame_headers; try done. { intros y c'. by rewrite HO. }
        intros a Ha. apply Hf1. intros p' si' Hp' ->. apply (Ha _ _ Hp'). unfold SL_next, SIZEOF_SLAB. lia.
      + intros c' Hc'. destruct (decide (c = c')) as [<-|Hne].
        * rewrite fn_lookup_insert. set_solver.
        * rewrite fn_lookup_insert_ne by done. intros Hb. apply Hne.
          by eapply (partial_own k P S PL p si).
      + intros p' si' Hne Hp'. destruct (Ht _ _ Hne Hp') as [Hi Hn]. split; [|done]. rewrite <- Hi.
        destruct (decide (c = si_cache si')) as [E|E]; [|by rewrite fn_lookup_insert_ne].
        rewrite <- E, fn_lookup_insert, HL.
        assert (base_of k p' <> base_of k p) by (intros Eb; apply Hne; exact (base_inj k P S PL p' p _ _ HR Hp' Hp Eb)).
        set_solver.
    - exists k, PL. splits; [by eapply partial_unlink_absent|done|reflexivity|apply slub_frame_refl| |done].
      intros c' Hc' Hb. apply Hin. unfold c. by rewrite (partial_own k P S PL p si c'). }
  destruct Hun as (k1 & PL1 & E1 & HR1 & Hl1 & Hf1 & Hn1 & Ht1).
  unfold slab_destroy. rewrite E1. cbn [mbind option_bind].
  destruct (rep_remove_slab k1 P S PL1 p si HR1 Hp) as (b & Eb & HR2 & Hl2 & Hrc2 & Hf2).
  { intros c' Hc'. rewrite (base_of_layout _ _ _ Hl1). by apply Hn1, Hl1. }
  rewrite (base_of_layout _ _ _ Hl1) in Eb. rewrite Eb. cbn [mbind option_bind].
  exists (set_pa k1 b). assert (Hl : same_layout k (set_pa k1 b)) by (by etrans). splits; [done| |].
  - exists (delete p S), PL1. splits; [done| |].
    + intros p' si' [Hne Hp']%lookup_delete_Some. rewrite (tidy_at_layout _ _ _ _ _ Hl). by apply Ht1.
    + intros y c'. by rewrite (live_layout _ _ _ _ _ Hl), <- Hdel.
  - eapply slub_frame_trans; [done|]. eapply frame_remove; try done.
    intros y c' Hy. by rewrite (live_layout _ _ _ _ _ Hl1), <- Hdel, <- HO.
Qed.

(** A free list as long as the slab holds every object of it. *)
Lemma full_free k p si x :
  cache_ok (cache_of k (si_cache si)) -> slab_ok k p si ->
  slab_objects_per_page (cache_of k (si_cache si)) <= Z.of_nat (length (si_free si)) ->
  x ∈ objs (base_of k p) (cache_of k (si_cache si)) -> x ∈ si_free si.
Proof.
  intros Hco Hok Hlen Hx. rewrite <- (objs_length (base_of k p)) in Hlen by done.
  assert (Hs : si_free si ⊆+ objs (base_of k p) (cache_of k (si_cache si))).
  { apply NoDup_submseteq; [|apply Hok].
    eapply (@lseg_NoDup _ (free_objs (base_of k p))), (sl_free _ _ _ Hok). }
  by rewrite (submseteq_length_Permutation _ _ Hs) by lia.
Qed.

(** Writing a freed object and the header of its slab. *)
Lemma frame_put k k' P S PL O p c x F :
  slub_rep k P S PL -> S !! p = Some (mkSlab c F) ->
  x ∈ objs (base_of k p) (cache_of k c) -> same_layout k k' ->
  refcount (pa k') = refcount (pa k) ->
  (forall y c', O !! y = Some c' <-> live k (<[p := mkSlab c (x :: F)]> S) y c') ->
  (forall a, a <> base_of k p + SL_freelist -> a <> base_of k p + SL_inuse -> a <> x ->
     rd k' a = rd k a) ->
  slub_frame k k' P O.
Proof.
  intros HR Hp Hx Hl Hrc HO Hm. split; [done|by rewrite Hrc| |].
  - intros p' o q a Hp' Hc Ha.
    assert (Hn := used_page_apart _ _ _ _ _ _ _ _ _ _ HR Hp' Hc Ha Hp).
    assert (Hco := sl_size _ _ _ (sr_slab _ _ _ _ HR _ _ Hp)). cbn in Hco.
    destruct (objs_range _ _ _ Hco Hx), (cache_layout _ Hco) as (_ & ? & _).
    apply Hm; unfold SL_freelist, SL_inuse, SIZEOF_SLAB, PAGE_SIZE in *; lia.
  - intros y c' a Hy Ha. apply HO in Hy. destruct Hy as (p' & si & Hp' & Ec & Hy & Hf).
    assert (Hsi : exists si', S !! p' = Some si' /\ si_cache si' = c' /\ (p' = p -> y <> x /\ c' = c)).
    { apply lookup_insert_Some in Hp' as [[<- <-]|[Hne Hp']].
      - cbn in *. exists (mkSlab c F). splits; try done. intros _. split; [|done]. set_solver.
      - exists si. splits; try done. }
    destruct Hsi as (si' & HSp' & Ec' & Hsame).
    assert (Hco := sl_size _ _ _ (sr_slab _ _ _ _ HR _ _ HSp')). rewrite Ec' in Hco.
    assert (Hcx := sl_size _ _ _ (sr_slab _ _ _ _ HR _ _ Hp)). cbn in Hcx.
    destruct (objs_range _ _ _ Hco Hy), (objs_range _ _ _ Hcx Hx), (cache_layout _ Hcx) as (_ & ? & _).
    destruct (decide (p' = p)) as [->|Hne].
    + destruct (Hsame eq_refl) as [Hyx ->]. destruct (objs_disjoint _ _ _ _ Hcx Hy Hx Hyx);
        apply Hm; unfold SL_freelist, SL_inuse, SIZEOF_SLAB, PAGE_SIZE in *; lia.
    + assert (Hn := pages_apart k P S PL p' p _ _ a HR HSp' Hp Hne).
      unfold SL_freelist, SL_inuse, SIZEOF_SLAB, PAGE_SIZE in *. apply Hm; lia.
Qed.

Lemma kmem_cache_free_inv k P O c x :
  slub_inv k P O -> O !! x = Some c ->
  exists k', kmem_cache_free k c x = Some k' /\
    slub_inv k' P (delete x O) /\ slub_frame k k' P (delete x O).
Proof.
  intros (S & PL & HR & Ht & HO) Hx. assert (Hlx := proj1 (HO _ _) Hx).
  destruct Hlx as (p & [c0 F] & Hp & Ec & Hxo & HxF). cbn in Ec, HxF. subst c0.
  assert (Hok := sr_slab _ _ _ _ HR _ _ Hp). cbn [si_cache si_free] in Hok.
  destruct (slab_page_used _ _ _ _ _ _ HR Hp) as [Hu Hr].
  assert (Hpool := inv_pool _ _ (sr_buddy _ _ _ _ HR)).
  assert (Hco := sl_size _ _ _ Hok). cbn in Hco. destruct (objs_range _ _ _ Hco Hxo) as [Hx1 Hx2].
  destruct (cache_layout _ Hco) as (_ & Hsz & Hn & _).
  assert (Hbp : 0 < base_of k p).
  { unfold base_of. rewrite pfn_to_addr_eq by done. pose proof (pool_start _ Hpool).
    unfold PAGE_SIZE. lia. }
  assert (Es : slab_from_object x = base_of k p).
  { apply (slab_from_object_page (pa k)); try done.
    unfold in_page, base_of, SIZEOF_SLAB in *. lia. }
  unfold kmem_cache_free. rewrite (proj2 (Z.eqb_neq x 0)) by (unfold SIZEOF_SLAB in *; lia).
  rewrite Es, (sl_magic _ _ _ Hok), (sl_owner _ _ _ Hok). cbn [si_cache]. rewrite !Z.eqb_refl.
  cbn [negb orb]. destruct (put_rep _ _ _ _ _ _ _ _ HR Hp Hxo HxF) as [HR3 Hf3].
  set (k1 := wr k x _) in *. set (k2 := wr k1 _ _) in *. set (k3 := wr k2 _ _) in *.
  set (S3 := <[p := mkSlab c (x :: F)]> S) in *.
  assert (Hl3 : same_layout k k3) by (by split).
  assert (Hp3 : S3 !! p = Some (mkSlab c (x :: F))) by apply lookup_insert_eq.
  destruct (live_map_move _ _ _ _ _ _ _ _ O HR Hp Hxo HxF) as [_ Hmv].
  destruct (Hmv HO) as [_ HO3]. fold S3 in HO3. clear Hmv.
  assert (Hfr : slub_frame k k3 P (delete x O)) by (by eapply frame_put).
  assert (Hok3 := sr_slab _ _ _ _ HR3 _ _ Hp3).
  assert (Hlen := free_length _ _ _ _ _ _ HR3 Hp3). cbn [si_free si_cache] in Hlen.
  rewrite (sl_inuse _ _ _ Hok3 : rd k3 (base_of k p + SL_inuse) = _).
  rewrite (sl_objects _ _ _ Hok3 : rd k3 (base_of k p + SL_objects) = _).
  cbn [si_cache si_free]. change (cache_of k3 c) with (cache_of k c) in *.
  set (n := slab_objects_per_page (cache_of k c)) in *.
  assert (Ht3 : forall p' si', p' <> p -> S3 !! p' = Some si' -> tidy_at k3 PL p' si').
  { intros p' si' Hne Hp'. unfold S3 in Hp'. rewrite lookup_insert_ne in Hp' by done.
    rewrite (tidy_at_layout _ _ _ _ _ Hl3). by apply Ht. }
  assert (HO3' : forall y c', delete x O !! y = Some c' <-> live k3 S3 y c').
  { intros y c'. by rewrite (live_layout _ _ _ _ _ Hl3). }
  destruct (Ht _ _ Hp) as [Hin _]. cbn [si_cache si_free] in Hin.
  case (Z.eqb_spec (n - Z.of_nat (length (x :: F))) 0) as [E0|E0].
  - destruct (slab_destroy_inv k3 P S3 PL (delete x O) p _ HR3 Hp3) as (k' & E & HI & Hf'); try done.
    + intros y. apply (full_free k3 p (mkSlab c (x :: F))); [done|exact Hok3|].
      cbn [si_cache si_free]. change (cache_of k3 c) with (cache_of k c). fold n. lia.
    + exists k'. splits; [done|done|]. by eapply slub_frame_trans.
  - cbn [length] in *. rewrite (wrapu_id 32 (n - 1)) by lia.
    case (Z.eqb_spec (n - Z.of_nat (Datatypes.S (length F))) (n - 1)) as [E1|E1].
    + assert (F = []) as -> by (destruct F; [done|cbn [length] in *; lia]).
      assert (Hnb : base_of k3 p ∉ PL c) by (intros Hb; by apply Hin in Hb).
      destruct (partial_link_rep k3 P S3 PL p _ HR3 Hp3 Hnb) as (HR4 & Hl4 & Hrc4 & Hf4).
      cbn [si_cache] in *. change (base_of k3 p) with (base_of k p) in *.
      eexists. split; [done|]. split.
      * exists S3, (<[c := base_of k p :: PL c]> PL). splits; [done| |].
        -- intros p' si' Hp'. rewrite (tidy_at_layout _ _ _ _ _ Hl4). revert p' si' Hp'.
           apply (tidy_others k3 P S3 PL p (mkSlab c [x])); try done.
           { cbn [si_cache]. change (base_of k3 p) with (base_of k p). set_solver. }
           split; cbn [si_cache si_free length]; [|change (cache_of k3 c) with (cache_of k c); fold n; lia].
           rewrite fn_lookup_insert. change (base_of k3 p) with (base_of k p). set_solver.
        -- intros y c'. by rewrite (live_layout _ _ _ _ _ Hl4).
      * eapply slub_frame_trans; [done|]. eapply frame_headers; try done.
        { intros y c'. by rewrite HO3'. }
        intros a Ha. apply Hf4. intros ->. apply (Ha _ _ Hp3). unfold SL_next, SIZEOF_SLAB.
        change (base_of k3 p) with (base_of k p). lia.
    + exists k3. splits; try done. exists S3, PL. splits; try done. intros p' si' Hp'.
      destruct (decide (p' = p)) as [->|Hne]; [|by apply Ht3]. simplify_eq.
      split; cbn [si_cache si_free length]; [|change (cache_of k3 c) with (cache_of k c); fold n; lia].
      change (base_of k3 p) with (base_of k p). rewrite Hin. split; [done|].
      intros _ ->. cbn in *. lia.
Qed.

(** ** Clients of the page allocator beside the caches *)

(** Replacing the state of the page allocator, without touching the slabs. *)
Lemma rep_set_pa k b P P' S PL :
  slub_rep k P S PL -> same_pool (pa k) b -> buddy_inv b (P' ∪ slab_pages S) ->
  P' ##ₘ slab_pages S ->
  (forall p, is_Some (S !! p) -> (refcount b).[p] = (refcount (pa k)).[p]) ->
  (forall p si a, S !! p = Some si -> base_of k p <= a < base_of k p + SIZEOF_SLAB \/ a ∈ si_free si ->
     (mem b).[a] = rd k a) ->
  let k' := set_pa k b in slub_rep k' P' S PL /\ same_layout k k'.
Proof.
  intros HR Hsp Hb Hd Hrc Hm k'. assert (Hl : same_layout k k') by (by split).
  split; [|done]. split; try done.
  - intros p Hp. cbn. rewrite Hrc by done. by apply (sr_ref _ _ _ _ HR).
  - intros p si Hp. apply (slab_ok_cells k); try done.
    + intros d Hd'. apply (Hm p si); [done|]. left. unfold SL_next, SIZEOF_SLAB in *. lia.
    + intros x Hx. apply (Hm p si); [done|]. by right.
    + by apply (sr_slab _ _ _ _ HR).
  - apply HR.
  - intros c Hc. apply (@slist_frame _ (partial_list c) k); [|done|by apply HR].
    intros x Hx. destruct (sr_member _ _ _ _ HR c x Hc Hx) as (p & si & Hp & -> & _).
    apply (Hm p si); [done|]. left. unfold SL_next, SIZEOF_SLAB. lia.
  - intros c x Hc Hx. setoid_rewrite (base_of_layout k k' _ Hl). by apply (sr_member _ _ _ _ HR).
Qed.

Lemma slab_cell_page k P S PL p si a :
  slub_rep k P S PL -> S !! p = Some si ->
  base_of k p <= a < base_of k p + SIZEOF_SLAB \/ a ∈ si_free si -> in_page (pa k) p a.
Proof.
  intros HR Hp Ha. change (base_of k p <= a < base_of k p + PAGE_SIZE).
  assert (Hok := sr_slab _ _ _ _ HR _ _ Hp). assert (Hco := sl_size _ _ _ Hok).
  destruct (cache_layout _ Hco) as (_ & ? & _).
  destruct Ha as [?|Ha]; [|apply (sl_sub _ _ _ Hok), (objs_range _ _ _ Hco) in Ha];
    unfold SIZEOF_SLAB, PAGE_SIZE in *; lia.
Qed.

Lemma inv_set_pa k b P P' O S PL :
  slub_rep k P S PL -> tidy k S PL -> (forall x c, O !! x = Some c <-> live k S x c) ->
  slub_rep (set_pa k b) P' S PL -> same_layout k (set_pa k b) -> slub_inv (set_pa k b) P' O.
Proof.
  intros HR Ht HO HR' Hl. exists S, PL. splits; try done.
  - intros p si Hp. rewrite (tidy_at_layout _ _ _ _ _ Hl). by apply Ht.
  - intros x c. by rewrite (live_layout _ _ _ _ _ Hl).
Qed.

Lemma slub_alloc_pages k P O order :
  slub_inv k P O -> 0 <= order <= max_order (pa k) ->
  alloc_pages (pa k) order = Some (0, pa k) \/
  exists p b, alloc_pages (pa k) order = Some (pfn_to_addr (pa k) p, b) /\
    0 <= p < pool_pages (pa k) /\ (2 ^ order | p) /\ p + 2 ^ order <= pool_pages (pa k) /\
    (forall q, covers p order q -> outside P q) /\
    slub_inv (set_pa k b) (<[p := order]> P) O /\ refcount b = <[p := 1]> (refcount (pa k)) /\
    slub_frame k (set_pa k b) P O.
Proof.
  intros (S & PL & HR & Ht & HO) Ho. assert (Hbi := sr_buddy _ _ _ _ HR).
  assert (Hpool := inv_pool _ _ Hbi).
  destruct (alloc_pages_rep _ _ _ Hbi Ho) as [[E _]|(p & b & E & Hr & [Hbk Hrun] & Hb & Hsp & Hrc & Hw)];
    [by left|right].
  assert (Hfree : (P ∪ slab_pages S) !! p = None).
  { apply eq_None_not_Some. intros [o Hp]. destruct (inv_used_block _ _ _ _ Hbi Hp) as ((? & _) & _).
    apply (Hrun p) with p o; [apply covers_self; lia|done|apply covers_self; lia]. }
  pose proof (proj1 (lookup_union_None _ _ _) Hfree) as [HPp HSp].
  assert (Hcell : forall p' o' q a, (P ∪ slab_pages S) !! p' = Some o' -> covers p' o' q ->
    in_page (pa k) q a -> (mem b).[a] = rd k a).
  { intros p' o' q a Hp' Hc Ha. eapply writes_in_used; try done. by eapply inv_covers_pool. }
  destruct (rep_set_pa k b P (<[p := order]> P) S PL HR Hsp) as [HR' Hl].
  - by rewrite <- insert_union_l.
  - apply map_disjoint_insert_l_2; [done|apply HR].
  - intros p' [si Hp']. rewrite Hrc. apply arr_get_insert_ne. intros ->.
    unfold slab_pages in HSp. by rewrite lookup_fmap, Hp' in HSp.
  - intros p' si a Hp' Ha. destruct (slab_page_used _ _ _ _ _ _ HR Hp') as [Hu _].
    apply (Hcell p' 0 p' a Hu); [apply covers_self; lia|].
    by eapply slab_cell_page.
  - exists p, b. destruct Hbk as (_ & _ & Hdv & Hle). rewrite <- (pool_count _ Hpool) in Hle. splits; try done; try lia.
    + intros q Hq p' o' Hp'. apply (Hrun q Hq). by apply lookup_union_Some_l.
    + by eapply inv_set_pa.
    + eapply frame_create; try done.
Qed.

Lemma used_page k P S PL p o :
  slub_rep k P S PL -> P !! p = Some o ->
  (P ∪ slab_pages S) !! p = Some o /\ S !! p = None.
Proof.
  intros HR Hp. split; [by apply lookup_union_Some_l|].
  apply (map_disjoint_Some_l _ _ _ _ (sr_disj _ _ _ _ HR)) in Hp.
  unfold slab_pages in Hp. rewrite lookup_fmap in Hp. by destruct (S !! p).
Qed.

(** A block that is not a slab goes back to the page allocator. *)
Lemma release_inv k b P S PL O p o :
  slub_rep k P S PL -> tidy k S PL -> (forall x c, O !! x = Some c <-> live k S x c) ->
  P !! p = Some o ->
  buddy_inv b (delete p (P ∪ slab_pages S)) -> same_pool (pa k) b ->
  refcount b = <[p := 0]> (refcount (pa k)) ->
  writes_in (outside (delete p (P ∪ slab_pages S))) (pa k) b ->
  slub_inv (set_pa k b) (delete p P) O /\ slub_frame k (set_pa k b) (delete p P) O.
Proof.
  intros HR Ht HO Hp Hb Hsp Hrc Hw. destruct (used_page _ _ _ _ _ _ HR Hp) as [_ HSp].
  assert (Hbi := sr_buddy _ _ _ _ HR). assert (Hpool := inv_pool _ _ Hbi).
  assert (HSp' : slab_pages S !! p = None) by (unfold slab_pages; by rewrite lookup_fmap, HSp).
  assert (Hcell : forall p' o' q a, delete p (P ∪ slab_pages S) !! p' = Some o' -> covers p' o' q ->
    in_page (pa k) q a -> (mem b).[a] = rd k a).
  { intros p' o' q a Hp' Hc Ha. eapply writes_in_used; try done.
    apply lookup_delete_Some in Hp' as [_ Hp']. by eapply inv_covers_pool. }
  assert (Hslab : forall p' si a, S !! p' = Some si -> in_page (pa k) p' a -> (mem b).[a] = rd k a).
  { intros p' si a Hp' Ha. destruct (slab_page_used _ _ _ _ _ _ HR Hp') as [Hu _].
    apply (Hcell p' 0 p' a); [rewrite lookup_delete_ne by congruence; done|apply covers_self; lia|done]. }
  destruct (rep_set_pa k b P (delete p P) S PL HR Hsp) as [HR' Hl].
  - rewrite delete_union, (delete_id (slab_pages S)) in Hb; done.
  - by apply map_disjoint_delete_l, HR.
  - intros p' [si Hp']. rewrite Hrc. apply arr_get_insert_ne. congruence.
  - intros p' si a Hp' Ha. apply (Hslab p' si); [done|]. by eapply slab_cell_page.
  - split; [by eapply inv_set_pa|]. split; [done| | |].
    + intros p' [o' [Hne _]%lookup_delete_Some]. cbn. rewrite Hrc. by apply arr_get_insert_ne.
    + intros p' o' q a [Hne Hp']%lookup_delete_Some. apply (Hcell p' o').
      rewrite lookup_delete_ne by done. by apply lookup_union_Some_l.
    + intros x c a Hx Ha. apply HO in Hx.
      destruct (live_object _ _ _ _ _ _ HR Hx) as (p' & si & Hp' & _ & _ & _ & ? & ?).
      apply (Hslab p' si); [done|]. unfold in_page, base_of, SIZEOF_SLAB in *. lia.
Qed.

Lemma slub_free_pages k P O p o :
  slub_inv k P O -> P !! p = Some o -> (refcount (pa k)).[p] = 1 ->
  (PAGE_SIZE * 2 ^ o | pfn_to_addr (pa k) p) ->
  exists b, free_pages (pa k) (pfn_to_addr (pa k) p) o = Some b /\
    slub_inv (set_pa k b) (delete p P) O /\ slub_frame k (set_pa k b) (delete p P) O /\
    refcount b = <[p := 0]> (refcount (pa k)).
Proof.
  intros (S & PL & HR & Ht & HO) Hp Hrc Hal. destruct (used_page _ _ _ _ _ _ HR Hp) as [Hu _].
  destruct (free_pages_rep _ _ _ _ (sr_buddy _ _ _ _ HR) Hu Hrc Hal) as (b & E & Hb & Hsp & Hr & Hw).
  exists b. destruct (release_inv k b P S PL O p o); done.
Qed.

Lemma slub_put_page_last k P O p :
  slub_inv k P O -> P !! p = Some 0 -> (refcount (pa k)).[p] = 1 ->
  exists b, put_page (pa k) (Some p) = Some b /\
    slub_inv (set_pa k b) (delete p P) O /\ slub_frame k (set_pa k b) (delete p P) O /\
    refcount b = <[p := 0]> (refcount (pa k)).
Proof.
  intros (S & PL & HR & Ht & HO) Hp Hrc. destruct (used_page _ _ _ _ _ _ HR Hp) as [Hu _].
  destruct (put_page_last _ _ _ (sr_buddy _ _ _ _ HR) Hu Hrc) as (b & E & Hb & Hsp & Hr & Hw).
  exists b. destruct (release_inv k b P S PL O p 0); done.
Qed.

(** A change of the count of a block that is not a slab. *)
Lemma refcount_inv k b P S PL O p o v :
  slub_rep k P S PL -> tidy k S PL -> (forall x c, O !! x = Some c <-> live k S x c) ->
  P !! p = Some o -> buddy_inv b (P ∪ slab_pages S) -> same_pool (pa k) b ->
  mem b = mem (pa k) -> refcount b = <[p := v]> (refcount (pa k)) ->
  slub_inv (set_pa k b) P O.
Proof.
  intros HR Ht HO Hp Hb Hsp Hm Hrc. destruct (used_page _ _ _ _ _ _ HR Hp) as [_ HSp].
  destruct (rep_set_pa k b P P S PL HR Hsp Hb (sr_disj _ _ _ _ HR)) as [HR' Hl].
  - intros p' [si Hp']. rewrite Hrc. apply arr_get_insert_ne. congruence.
  - intros. by rewrite Hm.
  - by eapply inv_set_pa.
Qed.

Lemma slub_get_page k P O p o :
  slub_inv k P O -> P !! p = Some o -> (refcount (pa k)).[p] < 2 ^ 31 - 1 ->
  let b := get_page (pa k) (Some p) in
  slub_inv (set_pa k b) P O /\ same_pool (pa k) b /\ mem b = mem (pa k) /\
  refcount b = <[p := (refcount (pa k)).[p] + 1]> (refcount (pa k)).
Proof.
  intros (S & PL & HR & Ht & HO) Hp Hlt b. destruct (used_page _ _ _ _ _ _ HR Hp) as [Hu _].
  destruct (get_page_rep _ _ _ _ (sr_buddy _ _ _ _ HR) Hu Hlt) as (Hb & Hsp & Hm & Hr).
  fold b in Hb, Hsp, Hm, Hr. splits; try done. by eapply refcount_inv.
Qed.

Lemma slub_put_page_shared k P O p o :
  slub_inv k P O -> P !! p = Some o -> 1 < (refcount (pa k)).[p] ->
  exists b, put_page (pa k) (Some p) = Some b /\
    slub_inv (set_pa k b) P O /\ same_pool (pa k) b /\ mem b = mem (pa k) /\
    refcount b = <[p := (refcount (pa k)).[p] - 1]> (refcount (pa k)).
Proof.
  intros (S & PL & HR & Ht & HO) Hp Hlt. destruct (used_page _ _ _ _ _ _ HR Hp) as [Hu _].
  destruct (put_page_shared _ _ _ _ (sr_buddy _ _ _ _ HR) Hu Hlt) as (b & E & Hb & Hsp & Hm & Hr).
  exists b. splits; try done. by eapply refcount_inv.
Qed.

(** Memory a client owns: the pages of its blocks and its live objects. *)
Lemma slub_write_page k P O p o q a v :
  slub_inv k P O -> P !! p = Some o -> covers p o q -> in_page (pa k) q a ->
  slub_inv (wr k a v) P O.
Proof.
  intros (S & PL & HR & Ht & HO) Hp Hc Ha. destruct (used_page _ _ _ _ _ _ HR Hp) as [Hu _].
  assert (Hbi := sr_buddy _ _ _ _ HR). assert (Hb := inv_write _ _ _ _ _ _ v Hbi Hu Hc Ha).
  assert (Hsp : same_pool (pa k) (set_mem (pa k) (<[a := v]> (mem (pa k))))) by done.
  destruct (rep_set_pa k _ P P S PL HR Hsp Hb (sr_disj _ _ _ _ HR)) as [HR' Hl]; try done.
  - intros p' si a' Hp' Ha'. apply arr_get_insert_ne. intros <-.
    eapply (used_page_apart k P S PL p o q a p'); try done. by eapply slab_cell_page.
  - by eapply inv_set_pa.
Qed.

Lemma slub_write_obj k P O x c a v :
  slub_inv k P O -> O !! x = Some c -> x <= a < x + object_size (cache_of k c) ->
  slub_inv (wr k a v) P O.
Proof.
  intros (S & PL & HR & Ht & HO) Hx Ha. apply HO in Hx as Hlx.
  destruct Hlx as (p & si & Hp & Ec & Hxo & Hxf).
  assert (Hok := sr_slab _ _ _ _ HR _ _ Hp). assert (Hco := sl_size _ _ _ Hok).
  rewrite Ec in Hco. destruct (objs_range _ _ _ Hco Hxo) as [H1 H2].
  destruct (slab_page_used _ _ _ _ _ _ HR Hp) as [Hu _].
  assert (Hin : in_page (pa k) p a) by (unfold in_page, base_of, SIZEOF_SLAB in *; lia).
  assert (Hb := inv_write _ _ _ _ _ _ v (sr_buddy _ _ _ _ HR) Hu (covers_self p 0 ltac:(lia)) Hin).
  assert (Hsp : same_pool (pa k) (set_mem (pa k) (<[a := v]> (mem (pa k))))) by done.
  destruct (rep_set_pa k _ P P S PL HR Hsp Hb (sr_disj _ _ _ _ HR)) as [HR' Hl]; try done.
  - intros p' si' a' Hp' Ha'. apply arr_get_insert_ne. intros <-.
    assert (Hin' := slab_cell_page _ _ _ _ _ _ _ HR Hp' Ha').
    destruct (decide (p' = p)) as [->|Hne];
      [|eapply (pages_apart k P S PL p' p _ _ a HR Hp' Hp Hne); done].
    simplify_eq. unfold base_of in *. destruct Ha' as [?|Hf]; [lia|].
    apply (sl_sub _ _ _ Hok) in Hf as Hfo.
    destruct (decide (a = x)) as [->|Hax]; [done|].
    destruct (objs_disjoint _ _ _ _ Hco Hfo Hxo Hax); lia.
  - by eapply inv_set_pa.
Qed.

(** ** Initialisation *)

Lemma kmem_cache_init_inv k P O c size :
  slub_inv k P O -> caches k !! c = None -> c <> 0 -> cache_ok (mkCache size 0) ->
  slub_inv (kmem_cache_init k c size) P O.
Proof.
  intros (S & PL & HR & Ht & HO) Hn Hc0 Hco. unfold kmem_cache_init.
  rewrite (proj2 (Z.ltb_ge size MIN_OBJECT_SIZE)).
  2:{ destruct (cache_layout _ Hco) as (_ & ? & _). done. }
  set (k' := set_caches k _).
  assert (Hcs : forall c', c' <> c -> caches k' !! c' = caches k !! c').
  { intros c' Hc'. cbn. by rewrite lookup_insert_ne. }
  assert (Hco' : forall c', c' <> c -> cache_of k' c' = cache_of k c').
  { intros c' Hc'. unfold cache_of. by rewrite Hcs. }
  assert (Hown : forall p si, S !! p = Some si -> si_cache si <> c).
  { intros p si Hp E. destruct (sl_cache _ _ _ (sr_slab _ _ _ _ HR _ _ Hp)) as [e He]. congruence. }
  assert (Hcase : forall c', is_Some (caches k' !! c') -> c' = c \/ (c' <> c /\ is_Some (caches k !! c'))).
  { intros c' Hc'. destruct (decide (c' = c)) as [->|Hne]; [by left|]. right. by rewrite <- Hcs. }
  exists S, (<[c := []]> PL). splits.
  - split; try apply HR.
    + intros p si Hp. assert (Hne := Hown _ _ Hp). destruct (sr_slab _ _ _ _ HR _ _ Hp).
      split; rewrite ?Hco', ?Hcs by done; try done.
      by apply (@slist_frame _ (free_objs (base_of k p)) k).
    + intros c' e. cbn. intros [[<- <-]|[Hne He]]%lookup_insert_Some; [done|]. by apply (sr_caches _ _ _ _ HR).
    + intros c' [->|[Hne Hc']]%Hcase.
      * rewrite fn_lookup_insert. unfold slist. cbn. unfold cache_of. cbn. by rewrite lookup_insert_eq.
      * rewrite fn_lookup_insert_ne by done. apply (@slist_frame _ (partial_list c') k); [done| |by apply HR].
        cbn [sget partial_list]. by rewrite Hco'.
    + intros c' b [->|[Hne Hc']]%Hcase.
      * rewrite fn_lookup_insert. set_solver.
      * rewrite fn_lookup_insert_ne by done. by apply (sr_member _ _ _ _ HR).
  - intros p si Hp. assert (Hne := Hown _ _ Hp). destruct (Ht _ _ Hp) as [H1 H2].
    split; rewrite ?fn_lookup_insert_ne, ?Hco' by done; done.
  - intros x c'. rewrite HO. unfold live. split; intros (p & si & Hp & Ec & Hx & Hf);
      exists p, si; assert (Hne := Hown _ _ Hp); rewrite Ec in Hne; splits; try done;
      [by rewrite Hco'|by rewrite Hco' in Hx].
Qed.

Lemma no_slabs_inv b A : buddy_inv b A -> slub_inv (mkSlub b ∅) A ∅.
Proof.
  intros Hb. exists ∅, (fun _ => []). splits.
  - split; try done.
    + unfold slab_pages. by rewrite fmap_empty, map_union_empty.
    + unfold slab_pages. rewrite fmap_empty. apply map_disjoint_empty_r.
    + intros p [si Hp]. done.
    + intros c x _ Hx. by apply not_elem_of_nil in Hx.
  - intros p si Hp. done.
  - intros x c. split; [done|]. intros (p & si & Hp & _). done.
Qed.

(** The size classes of [kmalloc] exist. *)
Definition sized (k : slub) : Prop :=
  forall size, 0 <= size <= 2048 -> let c := cache_for_size size in
    c <> 0 /\ is_Some (caches k !! c) /\ size <= object_size (cache_of k c).

Lemma sized_layout k k' : same_layout k k' -> sized k -> sized k'.
Proof.
  intros Hl Hs size Hz. destruct (Hs size Hz) as (H1 & H2 & H3). cbv zeta. splits; [done|by apply Hl|].
  by rewrite (lay_size _ _ Hl).
Qed.

Lemma slub_init_inv b A :
  buddy_inv b A -> slub_inv (slub_init (mkSlub b ∅)) A ∅ /\ sized (slub_init (mkSlub b ∅)).
Proof.
  intros Hb. split.
  - unfold slub_init. cbv zeta.
    repeat (apply kmem_cache_init_inv; [|by vm_compute|by vm_compute|
      first [by exists 5|by exists 6|by exists 7|by exists 8|by exists 9|by exists 10|by exists 11]]).
    by apply no_slabs_inv.
  - intros size Hz. unfold cache_for_size. cbv zeta.
    repeat (case Z.leb_spec;
      [intros Hle; splits;
         [done|eexists; vm_compute; reflexivity|etransitivity; [exact Hle|by vm_compute]]
      |intros ?]); lia.
Qed.

(** ** Large allocations *)

(** [x] was handed out by [alloc_large] in the block of order [o] at page [p]. *)
Definition large_block (k : slub) (P : gmap Z Z) (x p o : Z) : Prop :=
  P !! p = Some o /\ x = base_of k p + SIZEOF_SLAB /\
  rd k (base_of k p + SL_magic) = SLAB_MAGIC /\ rd k (base_of k p + SL_cache) = 0 /\
  rd k (base_of k p + SL_objects) = o.

(** The loop stops at the least order that holds the header and the object,
    or at order 15. *)
Lemma large_order_spec n size order bytes :
  0 < size -> size + SIZEOF_SLAB < 2 ^ 64 -> 0 <= order <= 15 ->
  bytes = PAGE_SIZE * 2 ^ order -> (16 - Z.of_nat n <= order) ->
  (forall o, 0 <= o < order -> PAGE_SIZE * 2 ^ o < size + SIZEOF_SLAB) ->
  exists o, large_order n size order bytes = Some o /\ order <= o <= 15 /\
    (o < 15 -> size + SIZEOF_SLAB <= PAGE_SIZE * 2 ^ o) /\
    forall o', 0 <= o' < o -> PAGE_SIZE * 2 ^ o' < size + SIZEOF_SLAB.
Proof.
  intros Hs Hov. revert order bytes. induction n as [|n IH]; intros order bytes Ho -> Hn Hlt; [lia|].
  cbn [large_order]. unfold SIZEOF_SLAB in *. rewrite (wrapu_id 64 (size + 40)) by lia.
  case Z.ltb_spec; intros H1; cbn [andb]; [|by exists order; splits; try lia].
  case Z.ltb_spec; intros H2.
  - assert (Hp : 2 ^ order <= 2 ^ 14) by (apply Z.pow_le_mono_r; lia).
    pose proof (pow2_pos order ltac:(lia)).
    destruct (IH (order + 1) (u64 (Z.shiftl (PAGE_SIZE * 2 ^ order) 1))) as (o & E & Hr & Hfit & Hmin).
    + lia.
    + rewrite Z.shiftl_mul_pow2, pow2_succ by lia. rewrite wrapu_id; unfold PAGE_SIZE in *; lia.
    + lia.
    + intros o Hr. destruct (decide (o = order)) as [->|]; [done|]. apply Hlt. lia.
    + exists o. splits; try done; lia.
  - exists order. splits; try done; try lia.
Qed.

Lemma slab_init_inv k P O p o c i n :
  slub_inv k P O -> P !! p = Some o -> 0 <= p < pool_pages (pa k) -> 0 <= o ->
  slub_inv (slab_init k (base_of k p) c i n) P O.
Proof.
  intros HI Hp Hr Ho. unfold slab_init. cbv zeta.
  assert (Hin : forall d, 0 <= d < PAGE_SIZE -> in_page (pa k) p (base_of k p + d)).
  { intros d Hd. unfold in_page, base_of. lia. }
  repeat (eapply slub_write_page; [|exact Hp|apply covers_self; exact Ho|
    apply Hin; by vm_compute]). done.
Qed.

Lemma slub_inv_pool k P O : slub_inv k P O -> pool_ok (pa k).
Proof. intros (S & PL & HR & _). by eapply inv_pool, sr_buddy. Qed.

Lemma slub_order k P O p o :
  slub_inv k P O -> P !! p = Some o -> 0 <= o.
Proof.
  intros (S & PL & HR & _) Hp. destruct (used_page _ _ _ _ _ _ HR Hp) as [Hu _].
  destruct (inv_used_block _ _ _ _ (sr_buddy _ _ _ _ HR) Hu) as ((? & _) & _). lia.
Qed.

(** Changes confined to one block of pages in use. *)
Lemma frame_block k k' P O p o :
  slub_inv k P O -> P !! p = Some o -> same_layout k k' -> refcount (pa k') = refcount (pa k) ->
  (forall a, (forall q, covers p o q -> ~ in_page (pa k) q a) -> rd k' a = rd k a) ->
  slub_frame k k' (delete p P) O.
Proof.
  intros (S & PL & HR & _ & HO) Hp Hl Hrc Hm. assert (Hbi := sr_buddy _ _ _ _ HR).
  assert (Hpool := inv_pool _ _ Hbi). destruct (used_page _ _ _ _ _ _ HR Hp) as [Hu _].
  split; [done|by rewrite Hrc| |].
  - intros p' o' q a [Hne Hp']%lookup_delete_Some Hc Ha. apply Hm. intros q' Hc' Ha'.
    destruct (used_page _ _ _ _ _ _ HR Hp') as [Hu' _].
    assert (q = q') as <-.
    { exact (in_page_unique (pa k) q q' a Hpool (inv_covers_pool _ _ p' o' q Hbi Hu' Hc)
               (inv_covers_pool _ _ p o q' Hbi Hu Hc') Ha Ha'). }
    by apply Hne, (inv_disjoint _ _ p o p' o' q Hbi).
  - intros x c a Hx Ha. apply HO in Hx. apply Hm. intros q Hc Hq.
    destruct (live_object _ _ _ _ _ _ HR Hx) as (p' & si & Hp' & _ & _ & _ & ? & ?).
    eapply (used_page_apart k P S PL p o q a p'); try done. unfold SIZEOF_SLAB in *. lia.
Qed.

(** [alloc_large] with the order its loop chose. *)
Lemma alloc_large_at k P O size o :
  slub_inv k P O -> size <> 0 -> large_order 16 size 0 PAGE_SIZE = Some o -> 0 <= o <= 15 ->
  (alloc_large k size = Some (0, k) /\ no_block k o) \/
  exists p k', alloc_large k size = Some (base_of k p + SIZEOF_SLAB, k') /\
    o <= max_order (pa k) /\ (forall q, covers p o q -> outside P q) /\
    slub_inv k' (<[p := o]> P) O /\ large_block k' (<[p := o]> P) (base_of k p + SIZEOF_SLAB) p o /\
    (refcount (pa k')).[p] = 1 /\ slub_frame k k' P O.
Proof.
  intros HI Hs Eo Ho. unfold alloc_large. rewrite (proj2 (Z.eqb_neq size 0)) by done.
  rewrite Eo. cbn [mbind option_bind].
  destruct (decide (o <= max_order (pa k))) as [Hle|Hgt].
  2:{ left. unfold no_block, alloc_pages. destruct (order_valid (pa k) o) eqn:Ev; [|cbn; by destruct k].
      apply (order_valid_iff _ _ (slub_inv_pool _ _ _ HI)) in Ev; lia. }
  destruct (slub_alloc_pages k P O o HI ltac:(lia)) as
    [E|(p & b & E & Hr & _ & _ & Hout & HI1 & Hrc & Hf)]; rewrite E; cbn [mbind option_bind].
  { left. split; [cbn; by destruct k|done]. }
  assert (Hpool := slub_inv_pool _ _ _ HI). assert (Hnz := pfn_to_addr_nonzero _ _ Hpool Hr).
  assert (HPp : P !! p = None).
  { apply eq_None_not_Some. intros [o' Hp']. assert (0 <= o') by exact (slub_order _ _ _ _ _ HI Hp').
    apply (Hout p) with p o'; [apply covers_self; lia|done|apply covers_self; lia]. }
  right. rewrite (proj2 (Z.eqb_neq _ _)) by done. fold (base_of k p).
  set (k1 := set_pa k b) in *. set (k' := slab_init _ _ _ _ _). exists p, k'.
  assert (Hsp := lay_pool _ _ (fr_layout _ _ _ _ Hf)). cbn in Hsp.
  assert (Eb : base_of k1 p = base_of k p) by (by apply pfn_to_addr_same).
  destruct (slab_init_rd k1 (base_of k p) 0 1 o) as (H1 & H2 & _ & _ & H5 & H6). fold k' in H1, H2, H5, H6.
  splits; [done|done|done| | | |].
  - unfold k'. rewrite <- Eb. eapply slab_init_inv; [done|apply lookup_insert_eq| |lia].
    destruct Hsp as (_ & _ & _ & Epp). cbn. lia.
  - assert (Eb' : base_of k' p = base_of k p) by exact Eb.
    unfold large_block. rewrite Eb'. splits; try done. apply lookup_insert_eq.
  - change (refcount (pa k')) with (refcount b). rewrite Hrc. apply arr_get_insert.
  - apply (slub_frame_trans _ k1); [done|]. rewrite <- (delete_insert_id P p o) at 1 by done.
    apply (frame_block _ _ _ _ p o HI1); [apply lookup_insert_eq|by split|done|].
    intros a Ha. apply H6. intros Ha'. apply (Ha p); [apply covers_self; lia|].
    change (base_of k1 p <= a < base_of k1 p + PAGE_SIZE). rewrite Eb.
    unfold SIZEOF_SLAB, PAGE_SIZE in *. lia.
Qed.

Lemma alloc_large_inv k P O size :
  slub_inv k P O -> max_order (pa k) < 15 -> 0 < size -> size + SIZEOF_SLAB < 2 ^ 64 ->
  (exists o, alloc_large k size = Some (0, k) /\ no_block k o /\
     forall o', 0 <= o' < o -> PAGE_SIZE * 2 ^ o' < size + SIZEOF_SLAB) \/
  exists p o k', alloc_large k size = Some (base_of k p + SIZEOF_SLAB, k') /\
    (forall q, covers p o q -> outside P q) /\
    slub_inv k' (<[p := o]> P) O /\ large_block k' (<[p := o]> P) (base_of k p + SIZEOF_SLAB) p o /\
    SIZEOF_SLAB + size <= PAGE_SIZE * 2 ^ o /\ (refcount (pa k')).[p] = 1 /\
    slub_frame k k' P O.
Proof.
  intros HI Hmo Hs Hov.
  destruct (large_order_spec 16 size 0 PAGE_SIZE Hs Hov) as (o & Eo & Ho & Hfit & Hmin); try lia.
  destruct (alloc_large_at k P O size o HI ltac:(lia) Eo Ho) as [[E Hnb]|(p & k' & E & Hle & H)].
  { left. by exists o. }
  right.
  exists p, o, k'. specialize (Hfit ltac:(lia)). splits; try done; try apply H. lia.
Qed.

Lemma slub_page_range k P O p o :
  slub_inv k P O -> P !! p = Some o -> 0 <= p < pool_pages (pa k).
Proof.
  intros (S & PL & HR & _) Hp. destruct (used_page _ _ _ _ _ _ HR Hp) as [Hu _].
  by destruct (inv_used_block _ _ _ _ (sr_buddy _ _ _ _ HR) Hu) as (_ & ? & _).
Qed.

Lemma slub_order_max k P O p o :
  slub_inv k P O -> P !! p = Some o -> 0 <= o <= max_order (pa k).
Proof.
  intros (S & PL & HR & _) Hp. destruct (used_page _ _ _ _ _ _ HR Hp) as [Hu _].
  by destruct (inv_used_block _ _ _ _ (sr_buddy _ _ _ _ HR) Hu) as ((? & _) & _).
Qed.

Lemma slub_base_pos k P O p o :
  slub_inv k P O -> P !! p = Some o -> 0 < base_of k p.
Proof.
  intros HI Hp. assert (Hpool := slub_inv_pool _ _ _ HI). assert (Hr := slub_page_range _ _ _ _ _ HI Hp).
  unfold base_of. rewrite pfn_to_addr_eq by done. destruct (pool_start _ Hpool). unfold PAGE_SIZE. lia.
Qed.

(** What the header of the page of a live object says. *)
Lemma slub_live k P O x c :
  slub_inv k P O -> O !! x = Some c ->
  x <> 0 /\ rd k (slab_from_object x + SL_magic) = SLAB_MAGIC /\
  rd k (slab_from_object x + SL_cache) = c /\ c <> 0.
Proof.
  intros (S & PL & HR & Ht & HO) (p & si & Hp & <- & Hx & Hf)%HO.
  assert (Hok := sr_slab _ _ _ _ HR _ _ Hp). assert (Hco := sl_size _ _ _ Hok).
  destruct (objs_range _ _ _ Hco Hx), (cache_layout _ Hco) as (_ & ? & _).
  assert (Hpool := inv_pool _ _ (sr_buddy _ _ _ _ HR)).
  destruct (slab_page_used _ _ _ _ _ _ HR Hp) as [_ Hr].
  rewrite (slab_from_object_page (pa k) p) by (done || (unfold in_page, base_of, SIZEOF_SLAB in *; lia)).
  fold (base_of k p). splits; [|apply Hok|apply Hok|].
  - assert (Hb : 0 < base_of k p); [|unfold SIZEOF_SLAB in *; lia].
    unfold base_of. rewrite pfn_to_addr_eq by done. destruct (pool_start _ Hpool). unfold PAGE_SIZE. lia.
  - destruct (sl_cache _ _ _ Hok) as [e He]. by destruct (sr_caches _ _ _ _ HR _ _ He).
Qed.

Lemma slub_object_size k P O x c : slub_inv k P O -> O !! x = Some c -> 8 <= object_size (cache_of k c).
Proof.
  intros (S & PL & HR & Ht & HO) (p & si & Hp & <- & Hx & Hf)%HO.
  assert (Hok := sr_slab _ _ _ _ HR _ _ Hp). by destruct (cache_layout _ (sl_size _ _ _ Hok)) as (_ & ? & _).
Qed.

(** Runs of pages are aligned to their size in the pool. *)
Lemma slub_page_aligned k P O p o :
  slub_inv k P O -> P !! p = Some o -> (PAGE_SIZE * 2 ^ max_order (pa k) | mem_start (pa k)) ->
  (PAGE_SIZE * 2 ^ o | base_of k p).
Proof.
  intros HI Hp Hal. assert (Hpool := slub_inv_pool _ _ _ HI). assert (Hr := slub_page_range _ _ _ _ _ HI Hp).
  destruct HI as (S & PL & HR & _). destruct (used_page _ _ _ _ _ _ HR Hp) as [Hu _].
  destruct (inv_used_block _ _ _ _ (sr_buddy _ _ _ _ HR) Hu) as ((Ho & _ & Hdiv & _) & _).
  unfold base_of. rewrite pfn_to_addr_eq by done. apply Z.divide_add_r.
  - etransitivity; [|exact Hal]. apply Z.mul_divide_mono_l. exists (2 ^ (max_order (pa k) - o)).
    rewrite <- Z.pow_add_r by lia. f_equal. lia.
  - by apply Z.mul_divide_mono_l.
Qed.

(** Objects lie in the pool. *)
Lemma slub_obj_range k P O x c :
  slub_inv k P O -> O !! x = Some c -> mem_start (pa k) <= x < mem_start (pa k) + mem_size (pa k).
Proof.
  intros (S & PL & HR & Ht & HO) Hx%HO. destruct (live_object _ _ _ _ _ _ HR Hx)
    as (p & si & Hp & _ & Hco & _ & ? & ?). destruct (cache_layout _ Hco) as (_ & ? & _).
  assert (Hpool := inv_pool _ _ (sr_buddy _ _ _ _ HR)).
  destruct (slab_page_used _ _ _ _ _ _ HR Hp) as [_ Hr].
  unfold base_of in *. rewrite pfn_to_addr_eq in * by done. rewrite (pool_size _ Hpool).
  unfold SIZEOF_SLAB, PAGE_SIZE in *. lia.
Qed.

(** ** Properties *)

Lemma kmalloc_spec k P O size :
  slub_inv k P O -> sized k -> max_order (pa k) < 15 ->
  0 <= size < 2 ^ 64 - SIZEOF_SLAB ->
  (exists o, kmalloc k size = Some (0, k) /\ no_block k o /\
     forall o', 0 <= o' < o -> PAGE_SIZE * 2 ^ o' < size + SIZEOF_SLAB) \/
  exists x k', kmalloc k size = Some (x, k') /\ x <> 0 /\ slub_frame k k' P O /\
    ((size <= 2048 /\ exists c, O !! x = None /\ slub_inv k' P (<[x := c]> O) /\
        size <= object_size (cache_of k' c)) \/
     (2048 < size /\ exists p o, (forall q, covers p o q -> outside P q) /\
        slub_inv k' (<[p := o]> P) O /\ large_block k' (<[p := o]> P) x p o /\
        x + size <= base_of k' p + PAGE_SIZE * 2 ^ o /\ (refcount (pa k')).[p] = 1)).
Proof.
  intros HI Hsz Hmo Hs. unfold kmalloc. set (n := if size =? 0 then 1 else size).
  assert (Hn : 0 < n /\ size <= n <= 2048 \/ n = size /\ 2048 < size).
  { unfold n. case (Z.eqb_spec size 0); lia. }
  destruct Hn as [Hn|[-> Hn]].
  - destruct (Hsz n ltac:(lia)) as (Hc0 & Hc & Hfit). rewrite (proj2 (Z.eqb_neq _ _)) by done. cbn [negb].
    destruct (kmem_cache_alloc_inv k P O _ HI Hc) as [[E Hnb]|(x & k' & E & Hx & Hnew & HI' & Hf)].
    { left. exists 0. splits; try done. lia. }
    right. exists x, k'. splits; try done. left. split; [lia|]. exists (cache_for_size n). splits; try done.
    rewrite (lay_size _ _ (fr_layout _ _ _ _ Hf)). lia.
  - replace (cache_for_size size) with 0.
    2:{ unfold cache_for_size. repeat (rewrite (proj2 (Z.leb_gt _ _)) by lia). done. }
    cbn [negb Z.eqb].
    destruct (alloc_large_inv k P O size HI Hmo ltac:(lia) ltac:(lia)) as
      [(o & E & Hnb & Hmin)|(p & o & k' & E & Hout & HI' & HL & Hfit & Hrc & Hf)].
    { left. by exists o. }
    right. assert (Eb := base_of_layout _ _ p (fr_layout _ _ _ _ Hf)).
    exists (base_of k p + SIZEOF_SLAB), k'. splits; [done| |done|].
    + assert (Hb := slub_base_pos _ _ _ _ _ HI' (proj1 HL)). rewrite Eb in Hb. unfold SIZEOF_SLAB. lia.
    + right. split; [done|]. exists p, o. splits; try done. lia.
Qed.

(** C21: a request of [kmalloc] that does not wrap (below [2^64 - 40] bytes)
    either fails and leaves the state alone, or returns a fresh object: a
    live object of a cache whose objects hold the request, or the part after
    the header of a fresh block of pages that holds header and request.
    Blocks and objects in use before are untouched. *)
Theorem kmalloc_correct k P O size :
  slub_inv k P O -> sized k -> max_order (pa k) < 15 ->
  0 <= size < 2 ^ 64 - SIZEOF_SLAB ->
  (exists o, kmalloc k size = Some (0, k) /\ no_block k o /\
     forall o', 0 <= o' < o -> PAGE_SIZE * 2 ^ o' < size + SIZEOF_SLAB) \/
  exists x k', kmalloc k size = Some (x, k') /\ x <> 0 /\ slub_frame k k' P O /\
    ((size <= 2048 /\ exists c, O !! x = None /\ slub_inv k' P (<[x := c]> O) /\
        size <= object_size (cache_of k' c)) \/
     (2048 < size /\ exists p o, (forall q, covers p o q -> outside P q) /\
        slub_inv k' (<[p := o]> P) O /\ large_block k' (<[p := o]> P) x p o /\
        x + size <= base_of k' p + PAGE_SIZE * 2 ^ o /\ (refcount (pa k')).[p] = 1)).
Proof. apply kmalloc_spec. Qed.

Lemma kfree_spec k P O x :
  slub_inv k P O ->
  (is_Some (O !! x) ->
     exists k', kfree k x = Some k' /\ slub_inv k' P (delete x O) /\
       slub_frame k k' P (delete x O)) /\
  (forall p o, large_block k P x p o -> (refcount (pa k)).[p] = 1 ->
     (PAGE_SIZE * 2 ^ o | base_of k p) ->
     exists k', kfree k x = Some k' /\ slub_inv k' (delete p P) O /\
       slub_frame k k' (delete p P) O).
Proof.
  intros HI. split.
  - intros [c Hc]. destruct (slub_live _ _ _ _ _ HI Hc) as (Hx & Hm & Ho & Hc0).
    unfold kfree. rewrite (proj2 (Z.eqb_neq x 0)) by done. rewrite Hm, Z.eqb_refl, Ho. cbn [negb].
    rewrite (proj2 (Z.eqb_neq c 0)) by done. by apply kmem_cache_free_inv.
  - intros p o (Hp & -> & Hm & Hc & Ho) Hrc Hal.
    assert (Hb := slub_base_pos _ _ _ _ _ HI Hp). assert (Hr := slub_page_range _ _ _ _ _ HI Hp).
    assert (Hpool := slub_inv_pool _ _ _ HI).
    assert (Es : slab_from_object (base_of k p + SIZEOF_SLAB) = base_of k p).
    { apply slab_from_object_page; try done.
      unfold in_page, base_of, SIZEOF_SLAB, PAGE_SIZE. lia. }
    assert (Hor := slub_order_max _ _ _ _ _ HI Hp). pose proof (pool_order _ Hpool).
    unfold kfree, free_large. rewrite Es, Hm, Hc, Ho, Z.eqb_refl. cbn [negb Z.eqb].
    rewrite (proj2 (Z.eqb_neq _ _)) by (unfold SIZEOF_SLAB; lia).
    rewrite (wraps_id 32 o) by lia.
    destruct (slub_free_pages k P O p o HI Hp Hrc Hal) as (b & E & HI' & Hf & _).
    unfold base_of. rewrite E. by exists (set_pa k b).
Qed.

(** A large block that [free_pages] ignores stays. *)
Lemma kfree_ignored k P O x p o : slub_inv k P O -> large_block k P x p o -> ~ freeable (pa k) p o -> kfree k x = Some k.
Proof.
  intros HI (Hp & -> & Hm & Hc & Ho) Hn. assert (Hb := slub_base_pos _ _ _ _ _ HI Hp). assert (Hr := slub_page_range _ _ _ _ _ HI Hp).
  assert (Hpool := slub_inv_pool _ _ _ HI). assert (Hor := slub_order_max _ _ _ _ _ HI Hp). pose proof (pool_order _ Hpool).
  assert (Es : slab_from_object (base_of k p + SIZEOF_SLAB) = base_of k p).
  { apply slab_from_object_page; try done. unfold in_page, base_of, SIZEOF_SLAB, PAGE_SIZE. lia. }
  unfold kfree, free_large. rewrite Es, Hm, Hc, Ho, Z.eqb_refl. cbn [negb Z.eqb]. rewrite (proj2 (Z.eqb_neq _ _)) by (unfold SIZEOF_SLAB; lia).
  rewrite (wraps_id 32 o) by lia. destruct HI as (S & PL & HR & _). destruct (used_page _ _ _ _ _ _ HR Hp) as [Hu _].
  unfold base_of. rewrite (free_pages_ignored _ _ _ _ (sr_buddy _ _ _ _ HR) Hu Hn). by destruct k.
Qed.

(** C22: [kfree] of a live object makes it free again, and an empty slab goes
    back to the page allocator.  [kfree] of a large allocation gives its block
    back to the page allocator when the block is held once and its address is a
    multiple of its size; otherwise it does nothing, and the block is lost.
    Everything else in use is untouched. *)
Theorem kfree_correct k P O x :
  slub_inv k P O ->
  (is_Some (O !! x) ->
     exists k', kfree k x = Some k' /\ slub_inv k' P (delete x O) /\
       slub_frame k k' P (delete x O)) /\
  (forall p o, large_block k P x p o ->
     exists k', kfree k x = Some k' /\
       if decide (freeable (pa k) p o) then slub_inv k' (delete p P) O /\ slub_frame k k' (delete p P) O else k' = k).
Proof.
  intros HI. destruct (kfree_spec k P O x HI) as [H1 H2]. split; [exact H1|]. intros p o HL.
  case_decide as Hf; [|exists k; by rewrite (kfree_ignored k P O x p o)]. apply freeable_iff in Hf as [Hr Hd]; [exact (H2 p o HL Hr Hd)|].
  destruct HL as [Hp _]. by destruct (slub_order_max _ _ _ _ _ HI Hp).
Qed.

Lemma objects_disjoint k P O x c :
  slub_inv k P O -> O !! x = Some c ->
  (forall y c', O !! y = Some c' -> y <> x ->
     x + object_size (cache_of k c) <= y \/ y + object_size (cache_of k c') <= x) /\
  (forall p o q a, P !! p = Some o -> covers p o q -> in_page (pa k) q a ->
     ~ (x <= a < x + object_size (cache_of k c))).
Proof.
  intros (S & PL & HR & Ht & HO) Hx. apply HO in Hx.
  destruct Hx as (p & si & Hp & Ec & Hx & Hf). assert (Hok := sr_slab _ _ _ _ HR _ _ Hp).
  assert (Hco := sl_size _ _ _ Hok). rewrite Ec in Hco. destruct (objs_range _ _ _ Hco Hx).
  split.
  - intros y c' (p' & si' & Hp' & Ec' & Hy & Hf')%HO Hne.
    assert (Hco' := sl_size _ _ _ (sr_slab _ _ _ _ HR _ _ Hp')). rewrite Ec' in Hco'.
    destruct (objs_range _ _ _ Hco' Hy), (cache_layout _ Hco) as (_ & ? & _),
      (cache_layout _ Hco') as (_ & ? & _).
    destruct (decide (p = p')) as [<-|Hpp].
    + simplify_eq. destruct (objs_disjoint _ _ _ _ Hco Hy Hx Hne); auto.
    + assert (H1' := pages_apart k P S PL p p' _ _ (base_of k p) HR Hp Hp' Hpp).
      assert (H2' := pages_apart k P S PL p' p _ _ (base_of k p') HR Hp' Hp ltac:(congruence)).
      unfold SIZEOF_SLAB, PAGE_SIZE in *. lia.
  - intros p' o q a Hp' Hc Ha Hxa.
    eapply (used_page_apart k P S PL p' o q a p); try done. unfold SIZEOF_SLAB in *. lia.
Qed.

(** objects in use never overlap each other nor a block of pages in use. *)
Theorem live_objects_disjoint k P O x c :
  slub_inv k P O -> O !! x = Some c ->
  (forall y c', O !! y = Some c' -> y <> x ->
     x + object_size (cache_of k c) <= y \/ y + object_size (cache_of k c') <= x) /\
  (forall p o q a, P !! p = Some o -> covers p o q -> in_page (pa k) q a ->
     ~ (x <= a < x + object_size (cache_of k c))).
Proof. apply objects_disjoint. Qed.

(** the caches keep no page of their own: once every object has been
    freed, the page allocator has in use exactly the blocks of its other
    clients. *)
Theorem slub_returns_pages k P :
  slub_inv k P ∅ -> buddy_inv (pa k) P.
Proof.
  intros (S & PL & HR & Ht & HO). assert (S = ∅) as ->.
  { apply map_empty. intros p. apply eq_None_not_Some. intros [si Hp].
    assert (Hok := sr_slab _ _ _ _ HR _ _ Hp). destruct (Ht _ _ Hp) as [_ Hlt].
    assert (Hall : forall x, x ∈ objs (base_of k p) (cache_of k (si_cache si)) -> x ∈ si_free si).
    { intros x Hx. destruct (decide (x ∈ si_free si)) as [|Hn]; [done|].
      assert (Hlv : live k S x (si_cache si)) by (by exists p, si).
      apply HO in Hlv. by rewrite lookup_empty in Hlv. }
    rewrite <- (objs_length (base_of k p)) in Hlt by apply Hok.
    assert (Hsub : objs (base_of k p) (cache_of k (si_cache si)) ⊆+ si_free si).
    { apply NoDup_submseteq; [by apply objs_NoDup, Hok|done]. }
    apply submseteq_length in Hsub. lia. }
  assert (Hb := sr_buddy _ _ _ _ HR). unfold slab_pages in Hb. by rewrite fmap_empty, map_union_empty in Hb.
Qed.

(** the size computation of [alloc_large] wraps: a request of nearly
    [2^64] bytes that should fail is served with a single page. *)
Theorem kmalloc_overflow k P O size :
  slub_inv k P O -> 2 ^ 64 - SIZEOF_SLAB <= size < 2 ^ 64 ->
  (kmalloc k size = Some (0, k) /\ no_block k 0) \/
  exists p k', kmalloc k size = Some (base_of k p + SIZEOF_SLAB, k') /\
    slub_inv k' (<[p := 0]> P) O /\ large_block k' (<[p := 0]> P) (base_of k p + SIZEOF_SLAB) p 0.
Proof.
  intros HI Hs. unfold kmalloc, SIZEOF_SLAB in *. rewrite (proj2 (Z.eqb_neq size 0)) by lia.
  replace (cache_for_size size) with 0.
  2:{ unfold cache_for_size. repeat (rewrite (proj2 (Z.leb_gt _ _)) by lia). done. }
  cbn [negb Z.eqb]. assert (Eo : large_order 16 size 0 PAGE_SIZE = Some 0).
  { cbn [large_order]. assert (E : u64 (size + SIZEOF_SLAB) = size + 40 - 2 ^ 64).
    { unfold wrapu, SIZEOF_SLAB. rewrite <- (Z.mod_add _ (-1)) by lia. rewrite Z.mod_small; lia. }
    rewrite E, (proj2 (Z.ltb_ge _ _)); [done|]. unfold PAGE_SIZE. lia. }
  destruct (alloc_large_at k P O size 0 HI ltac:(lia) Eo ltac:(lia)) as
    [E|(p & k' & E & _ & _ & HI' & HL & _)]; [by left|right]. by exists p, k'.
Qed.

(** ** Examples *)

Definition k16 : slub := slub_init (mkSlub pool16 ∅).

Lemma k16_inv : slub_inv k16 ∅ ∅ /\ sized k16.
Proof. apply slub_init_inv, pool16_inv. Qed.

Lemma kmalloc_correct_witness :
  exists x k', kmalloc k16 100 = Some (x, k') /\ x <> 0 /\ slub_frame k16 k' ∅ ∅.
Proof.
  destruct k16_inv as [HI Hs].
  destruct (kmalloc_correct k16 ∅ ∅ 100 HI Hs ltac:(by vm_compute) ltac:(by vm_compute))
    as [(_ & E & _)|(x & k' & E & Hx & Hf & _)].
  - destruct (result_nonzero (kmalloc k16 100) k16 ltac:(vm_compute; reflexivity) E).
  - exact (ex_intro _ x (ex_intro _ k' (conj E (conj Hx Hf)))).
Defined.

Lemma k16_object :
  exists x k1, kmalloc k16 100 = Some (x, k1) /\ slub_inv k1 ∅ {[x := cache_128]}.
Proof.
  destruct k16_inv as [HI Hs]. destruct (Hs 100 ltac:(lia)) as (_ & Hc & _).
  destruct (kmem_cache_alloc_inv k16 ∅ ∅ cache_128 HI Hc) as [[E _]|(x & k1 & E & Hx & Hn & HI1 & _)].
  - destruct (result_nonzero (kmem_cache_alloc k16 cache_128) k16 ltac:(vm_compute; reflexivity) E).
  - exists x, k1. split; [exact E|exact HI1].
Qed.

(** A live object of 100 bytes, freed. *)
Lemma kfree_correct_witness :
  exists x k1 k2, kmalloc k16 100 = Some (x, k1) /\ kfree k1 x = Some k2 /\ slub_inv k2 ∅ ∅.
Proof.
  destruct k16_object as (x & k1 & E & HI1). destruct (kfree_correct k1 ∅ _ x HI1) as [Hfree _].
  destruct Hfree as (k2 & E2 & HI2 & _); [rewrite lookup_singleton_eq; by eexists|].
  exists x, k1, k2. splits; [exact E|exact E2|]. by rewrite delete_singleton_eq in HI2.
Defined.

Lemma live_objects_disjoint_witness :
  exists x k1, slub_inv k1 ∅ {[x := cache_128]} /\
    forall y c', ({[x := cache_128]} : gmap Z Z) !! y = Some c' -> y <> x ->
      x + object_size (cache_of k1 cache_128) <= y \/ y + object_size (cache_of k1 c') <= x.
Proof.
  destruct k16_object as (x & k1 & E & HI1). exists x, k1. split; [exact HI1|].
  exact (proj1 (live_objects_disjoint k1 ∅ _ x _ HI1 (lookup_singleton_eq _ _))).
Defined.

Lemma slub_returns_pages_witness :
  exists x k1 k2, kmalloc k16 100 = Some (x, k1) /\ kmem_cache_free k1 cache_128 x = Some k2 /\
    buddy_inv (pa k2) ∅.
Proof.
  destruct k16_object as (x & k1 & E & HI1).
  destruct (kmem_cache_free_inv k1 ∅ _ cache_128 x HI1 (lookup_singleton_eq _ _)) as (k2 & E2 & HI2 & _).
  exists x, k1, k2. splits; [exact E|exact E2|]. rewrite delete_singleton_eq in HI2.
  exact (slub_returns_pages k2 ∅ HI2).
Defined.

Lemma kmalloc_overflow_witness :
  exists p k', kmalloc k16 (2 ^ 64 - 10) = Some (base_of k16 p + SIZEOF_SLAB, k').
Proof.
  destruct (kmalloc_overflow k16 ∅ ∅ (2 ^ 64 - 10) (proj1 k16_inv) ltac:(by vm_compute))
    as [[E _]|(p & k' & E & _)].
  - destruct (result_nonzero (kmalloc k16 (2 ^ 64 - 10)) k16 ltac:(vm_compute; reflexivity) E).
  - exists p, k'. exact E.
Defined.
