(* ===== verification/AddrSpace.v ===== *)
(** * Address spaces

    The specification of the list of areas: an address space assigns flags to
    some addresses.  A sorted list of disjoint areas stands for the map
    [flags_at]; cutting a range out of the areas, inserting an area, splitting
    an area and changing the flags of a range act on that map. *)
From S2P Require Import Prelude.

Record area := mkArea { a_start : Z; a_end : Z; a_flags : Z }.

#[export] Instance area_eq_dec : EqDecision area.
Proof. solve_decision. Defined.

Fixpoint sorted (lo : Z) (A : list area) : Prop :=
  match A with
  | [] => True
  | x :: A' => lo <= a_start x /\ a_start x < a_end x /\ sorted (a_end x) A'
  end.

(** The first area that ends above [a]. *)
Fixpoint find_area (a : Z) (A : list area) : option area :=
  match A with
  | [] => None
  | x :: A' => if a <? a_end x then Some x else find_area a A'
  end.

Definition flags_at (A : list area) (a : Z) : option Z :=
  x ← find_area a A; if a_start x <=? a then Some (a_flags x) else None.

Definition holds (a : Z) (x : area) : Prop := a_start x <= a < a_end x.

(** What is left of an area without [[s, e)]. *)
Definition cut (s e : Z) (x : area) : list area :=
  if (a_end x <=? s) || (e <=? a_start x) then [x]
  else (if a_start x <? s then [mkArea (a_start x) s (a_flags x)] else []) ++
       (if e <? a_end x then [mkArea e (a_end x) (a_flags x)] else []).

Definition last_end (lo : Z) (A : list area) : Z := default lo (a_end <$> last A).

Lemma sorted_mono lo lo' A : lo' <= lo -> sorted lo A -> sorted lo' A.
Proof. destruct A as [|x A]; cbn; [done|]. intros ? (? & ? & ?). splits; try done; lia. Qed.

Lemma last_end_cons lo x A : last_end lo (x :: A) = last_end (a_end x) A.
Proof. unfold last_end. rewrite last_cons. by destruct (last A). Qed.

Lemma sorted_app lo A B : sorted lo (A ++ B) <-> sorted lo A /\ sorted (last_end lo A) B.
Proof.
  revert lo. induction A as [|x A IH]; intros lo; cbn [app sorted].
  - unfold last_end. cbn. tauto.
  - rewrite IH, last_end_cons. tauto.
Qed.

Lemma sorted_elem lo A x : sorted lo A -> x ∈ A -> lo <= a_start x /\ a_start x < a_end x.
Proof.
  revert lo. induction A as [|y A IH]; intros lo HA Hx; [by apply not_elem_of_nil in Hx|].
  cbn in HA. destruct HA as (? & ? & HA). apply elem_of_cons in Hx as [->|Hx]; [done|].
  destruct (IH _ HA Hx). lia.
Qed.

Lemma sorted_last_end lo A : sorted lo A -> lo <= last_end lo A.
Proof.
  revert lo. induction A as [|x A IH]; intros lo HA; cbn in HA.
  - unfold last_end. cbn. lia.
  - destruct HA as (? & ? & HA). rewrite last_end_cons. apply IH in HA. lia.
Qed.

Lemma sorted_elem_end lo A x : sorted lo A -> x ∈ A -> a_end x <= last_end lo A.
Proof.
  revert lo. induction A as [|y A IH]; intros lo HA Hx; [by apply not_elem_of_nil in Hx|].
  cbn in HA. destruct HA as (? & ? & HA). rewrite last_end_cons.
  apply elem_of_cons in Hx as [->|Hx]; [by apply sorted_last_end|by apply IH].
Qed.

Lemma flags_at_cons x A a :
  flags_at (x :: A) a =
    if a <? a_end x then (if a_start x <=? a then Some (a_flags x) else None) else flags_at A a.
Proof. unfold flags_at. cbn. by case (a <? a_end x). Qed.

Lemma flags_at_below lo A a : sorted lo A -> a < lo -> flags_at A a = None.
Proof.
  destruct A as [|x A]; [done|]. intros (H1 & H2 & _) Ha. rewrite flags_at_cons.
  case Z.ltb_spec; [|lia]. case Z.leb_spec; [lia|done].
Qed.

(** The areas of a sorted list are the map. *)
Lemma flags_at_iff lo A a f :
  sorted lo A -> flags_at A a = Some f <-> exists x, x ∈ A /\ holds a x /\ a_flags x = f.
Proof.
  revert lo. induction A as [|x A IH]; intros lo HA.
  - split; [done|]. intros (y & Hy & _). by apply not_elem_of_nil in Hy.
  - cbn in HA. destruct HA as (H1 & H2 & HA). rewrite flags_at_cons. unfold holds in *. split.
    + case Z.ltb_spec; intros Ha; [case Z.leb_spec; intros Hs; [|done]|].
      * intros [= <-]. exists x. set_solver.
      * intros (y & Hy & ?)%(IH _ HA). exists y. set_solver.
    + intros (y & [->|Hy]%elem_of_cons & Ha & Hf).
      * rewrite (proj2 (Z.ltb_lt _ _)), (proj2 (Z.leb_le _ _)) by lia. by rewrite Hf.
      * destruct (sorted_elem _ _ _ HA Hy). rewrite (proj2 (Z.ltb_ge _ _)) by lia.
        apply (IH _ HA). eauto.
Qed.

Lemma flags_at_none lo A a :
  sorted lo A -> flags_at A a = None <-> forall x, x ∈ A -> ~ holds a x.
Proof.
  intros HA. rewrite eq_None_not_Some. split.
  - intros Hn x Hx Ha. apply Hn. exists (a_flags x). apply (flags_at_iff lo A); eauto.
  - intros Hn [f (x & Hx & Ha & _)%(flags_at_iff lo A _ _ HA)]. by apply (Hn x).
Qed.

Lemma flags_at_ext lo lo' A B a :
  sorted lo A -> sorted lo' B ->
  (forall f, (exists x, x ∈ A /\ holds a x /\ a_flags x = f) <->
             (exists x, x ∈ B /\ holds a x /\ a_flags x = f)) ->
  flags_at A a = flags_at B a.
Proof.
  intros HA HB Hf. apply option_eq. intros f. rewrite (flags_at_iff lo A), (flags_at_iff lo' B) by done.
  apply Hf.
Qed.

Lemma flags_at_app lo A B a :
  sorted lo (A ++ B) ->
  flags_at (A ++ B) a = if a <? last_end lo A then flags_at A a else flags_at B a.
Proof.
  revert lo. induction A as [|x A IH]; intros lo HS.
  - cbn [app] in *. unfold last_end. cbn. case Z.ltb_spec; [|done]. intros. by eapply flags_at_below.
  - cbn [app sorted] in HS. destruct HS as (H1 & H2 & HS). cbn [app]. rewrite !flags_at_cons, last_end_cons.
    rewrite (IH _ HS). apply sorted_app in HS as [HS _]. apply sorted_last_end in HS.
    repeat case Z.ltb_spec; try lia; done.
Qed.

(** ** Cutting *)

Lemma cut_elem s e x y :
  a_start x < a_end x -> s < e ->
  y ∈ cut s e x -> a_start x <= a_start y /\ a_start y < a_end y /\ a_end y <= a_end x /\
    a_flags y = a_flags x /\ (a_end y <= s \/ e <= a_start y).
Proof.
  intros Hx Hse. unfold cut. repeat case Z.leb_spec; repeat case Z.ltb_spec; cbn; intros; set_unfold;
    destruct_or?; simplify_eq/=; splits; try lia; done.
Qed.

Lemma cut_holds s e x a :
  a_start x < a_end x -> s < e ->
  (exists y, y ∈ cut s e x /\ holds a y) <-> holds a x /\ ~ (s <= a < e).
Proof.
  intros Hx Hse. split.
  - intros (y & Hy & Ha). apply cut_elem in Hy as (? & ? & ? & _ & ?); try done. unfold holds in *. lia.
  - intros [Ha Hn]. unfold cut, holds in *.
    case Z.leb_spec; cbn; intros; [exists x; set_solver|].
    case Z.leb_spec; cbn; intros; [exists x; set_solver|].
    destruct (decide (a < s)).
    + rewrite (proj2 (Z.ltb_lt _ _)) by lia. exists (mkArea (a_start x) s (a_flags x)).
      split; [set_solver|cbn; lia].
    + rewrite (proj2 (Z.ltb_lt e _)) by lia. exists (mkArea e (a_end x) (a_flags x)).
      split; [set_solver|cbn; lia].
Qed.

Lemma cut_sorted lo s e A : s < e -> sorted lo A -> sorted lo (A ≫= cut s e).
Proof.
  intros Hse. revert lo. induction A as [|x A IH]; intros lo HA; [done|].
  cbn in HA. destruct HA as (H1 & H2 & HA). cbn. apply sorted_app.
  assert (HI := IH _ HA). unfold cut.
  repeat case Z.leb_spec; repeat case Z.ltb_spec; cbn; intros; unfold last_end; cbn;
    splits; try done; try lia; (eapply sorted_mono; [|exact HI]; lia).
Qed.

Theorem cut_flags lo s e A a :
  s < e -> sorted lo A ->
  flags_at (A ≫= cut s e) a = if decide (s <= a < e) then None else flags_at A a.
Proof.
  intros Hse HA. assert (HC := cut_sorted lo s e A Hse HA).
  assert (Hiff : forall f, flags_at (A ≫= cut s e) a = Some f <->
    flags_at A a = Some f /\ ~ (s <= a < e)).
  { intros f. rewrite (flags_at_iff lo _ _ _ HC), (flags_at_iff lo _ _ _ HA). split.
    - intros (y & Hy & Ha & Hf). apply list_elem_of_bind in Hy as (x & Hy & Hx).
      destruct (sorted_elem _ _ _ HA Hx) as [_ Hlt].
      destruct (cut_elem s e x y Hlt Hse Hy) as (? & ? & ? & Ef & ?).
      split; [|unfold holds in Ha; lia]. exists x. splits; [done|unfold holds in *; lia|congruence].
    - intros [(x & Hx & Ha & Hf) Hn]. destruct (sorted_elem _ _ _ HA Hx) as [_ Hlt].
      destruct (proj2 (cut_holds s e x a Hlt Hse) (conj Ha Hn)) as (y & Hy & Hay).
      exists y. splits; [|done|].
      + apply list_elem_of_bind. eauto.
      + destruct (cut_elem s e x y Hlt Hse Hy) as (_ & _ & _ & Ef & _). congruence. }
  apply option_eq. intros f. rewrite Hiff. case_decide; naive_solver.
Qed.

(** ** Inserting *)

Lemma insert_sorted lo A x B :
  sorted lo A -> last_end lo A <= a_start x -> a_start x < a_end x -> sorted (a_end x) B ->
  sorted lo (A ++ x :: B).
Proof. intros. apply sorted_app. cbn. auto. Qed.

Lemma insert_flags lo A x B a :
  sorted lo (A ++ x :: B) -> sorted lo (A ++ B) ->
  flags_at (A ++ x :: B) a =
    if decide (a_start x <= a < a_end x) then Some (a_flags x) else flags_at (A ++ B) a.
Proof.
  intros H1 H2. apply option_eq. intros f. rewrite (flags_at_iff lo _ _ _ H1). case_decide as Ha.
  - split.
    + intros (y & Hy & Hay & Hf).
      enough (Some f = Some (a_flags x)) by congruence.
      transitivity (flags_at (A ++ x :: B) a).
      * symmetry. apply (flags_at_iff lo); eauto.
      * apply (flags_at_iff lo); [done|]. exists x. splits; [set_solver|done|done].
    + intros [= <-]. exists x. splits; [set_solver|done|done].
  - rewrite (flags_at_iff lo _ _ _ H2). split; intros (y & Hy & Hay & Hf); exists y; splits; try done.
    + assert (y <> x) by (intros ->; done). set_solver.
    + set_solver.
Qed.

(** ** Splitting *)

Lemma split_sorted lo A x B m :
  sorted lo (A ++ x :: B) -> a_start x < m < a_end x ->
  sorted lo (A ++ mkArea (a_start x) m (a_flags x) :: mkArea m (a_end x) (a_flags x) :: B).
Proof.
  rewrite !sorted_app. cbn. intros (HA & H1 & H2 & HB) Hm. splits; try done; lia.
Qed.

Lemma split_flags lo A x B m a :
  sorted lo (A ++ x :: B) -> a_start x < m < a_end x ->
  flags_at (A ++ mkArea (a_start x) m (a_flags x) :: mkArea m (a_end x) (a_flags x) :: B) a =
    flags_at (A ++ x :: B) a.
Proof.
  intros HS Hm. eapply flags_at_ext; [by apply split_sorted|done|].
  intros f. unfold holds. split.
  - intros (y & Hy & Ha & Hf). set_unfold in Hy. destruct_or? Hy; simplify_eq/=;
      [exists y|exists x|exists x|exists y]; (split; [set_solver|]); (split; [lia|done]).
  - intros (y & Hy & Ha & Hf). set_unfold in Hy. destruct Hy as [Hy|[->|Hy]].
    + exists y. split; [set_solver|done].
    + destruct (decide (a < m)).
      * exists (mkArea (a_start x) m (a_flags x)). split; [set_solver|]. cbn. split; [lia|done].
      * exists (mkArea m (a_end x) (a_flags x)). split; [set_solver|]. cbn. split; [lia|done].
    + exists y. split; [set_solver|done].
Qed.

(** ** Changing flags *)

Definition reflag (s e : Z) (g : Z -> Z) (x : area) : area :=
  if (s <=? a_start x) && (a_start x <? e) then mkArea (a_start x) (a_end x) (g (a_flags x)) else x.

(** No area reaches across [m]. *)
Definition no_straddle (m : Z) (A : list area) : Prop :=
  forall x, x ∈ A -> ~ (a_start x < m < a_end x).

Lemma reflag_sorted lo s e g A : sorted lo A -> sorted lo (reflag s e g <$> A).
Proof.
  revert lo. induction A as [|x A IH]; intros lo HA; [done|]. destruct HA as (H1 & H2 & HA).
  cbn. apply IH in HA. unfold reflag at 1 2 3 4.
  case (_ && _); cbn; done.
Qed.

Lemma reflag_flags lo s e g A a :
  sorted lo A -> no_straddle s A -> no_straddle e A ->
  flags_at (reflag s e g <$> A) a =
    if decide (s <= a < e) then g <$> flags_at A a else flags_at A a.
Proof.
  revert lo. induction A as [|x A IH]; intros lo HA Hs He; [by case_decide|].
  destruct HA as (H1 & H2 & HA). rewrite fmap_cons, !flags_at_cons.
  assert (Ex : a_start (reflag s e g x) = a_start x /\ a_end (reflag s e g x) = a_end x).
  { unfold reflag. by case (_ && _). }
  destruct Ex as [-> ->]. rewrite (IH _ HA); [|intros y Hy; apply Hs; set_solver|intros y Hy; apply He; set_solver].
  assert (Hsx := Hs x ltac:(set_solver)). assert (Hex := He x ltac:(set_solver)).
  case Z.ltb_spec; intros Ha; [|done]. case Z.leb_spec; intros Ha'; [|by case_decide].
  unfold reflag. repeat case Z.leb_spec; repeat case Z.ltb_spec; repeat case_decide; cbn; intros;
    try done; exfalso; lia.
Qed.
