(* ===== verification/Vma.v ===== *)
(** * Virtual memory areas ([mm/mmap.c], first part)

    An address space ([struct mm_struct]) keeps its areas
    ([struct vm_area_struct]) in a singly linked list sorted by start address.
    Both are objects of the caches, so the list lives in the memory of
    [Slub]; a pointer to a link ([struct vm_area_struct **]) is the address of
    the cell it points to. *)
From S2P Require Import Prelude PageAlloc Slub Errno AddrSpace.

(** Fields of [struct vm_area_struct] and [struct mm_struct]. *)
Definition VM_start : Z := 0.
Definition VM_end : Z := 8.
Definition VM_flags : Z := 16.
Definition VM_next : Z := 24.
Definition SIZEOF_VMA : Z := 32.

Definition MM_mmap : Z := 0.
Definition MM_pgd : Z := 8.
Definition MM_entry : Z := 16.
Definition MM_stack_top : Z := 24.
Definition MM_start_brk : Z := 32.
Definition MM_brk : Z := 40.
Definition MM_mmap_base : Z := 48.
Definition MM_users : Z := 56.
Definition SIZEOF_MM : Z := 64.

Definition USER_STACK_TOP : Z := 0x4040000.
Definition USER_STACK_SIZE : Z := 0x10000.
Definition USER_STACK_BOTTOM : Z := USER_STACK_TOP - USER_STACK_SIZE.

(** Objects are distinct addresses of the pool, which bounds every list. *)
Definition vma_fuel (k : slub) : nat := S (Z.to_nat (mem_size (pa k))).

Fixpoint find_vma_loop (fuel : nat) (k : slub) (vma addr : Z) : option Z :=
  match fuel with
  | O => None
  | S fuel' =>
      if vma =? 0 then Some 0
      else if addr <? rd k (vma + VM_end) then Some vma
      else find_vma_loop fuel' k (rd k (vma + VM_next)) addr
  end.

Definition find_vma (k : slub) (mm addr : Z) : option Z :=
  find_vma_loop (vma_fuel k) k (rd k (mm + MM_mmap)) addr.

Definition vma_alloc (k : slub) (start end_ flags : Z) : option (Z * slub) :=
  '(vma, k) ← kmem_cache_alloc k vma_cache;
  if vma =? 0 then Some (0, k)
  else
    let k := wr k (vma + VM_start) start in
    let k := wr k (vma + VM_end) end_ in
    let k := wr k (vma + VM_flags) flags in
    Some (vma, wr k (vma + VM_next) 0).

(** The loop of [insert_vma]: the first link whose area does not start below
    [start]. *)
Fixpoint insert_pos (fuel : nat) (k : slub) (pp start : Z) : option Z :=
  match fuel with
  | O => None
  | S fuel' =>
      let v := rd k pp in
      if negb (v =? 0) && (rd k (v + VM_start) <? start)
      then insert_pos fuel' k (v + VM_next) start
      else Some pp
  end.

Definition insert_vma (k : slub) (mm new : Z) : option (Z * slub) :=
  if rd k (new + VM_end) <=? rd k (new + VM_start) then Some (- EINVAL, k)
  else
    pp ← insert_pos (vma_fuel k) k (mm + MM_mmap) (rd k (new + VM_start));
    if negb (rd k pp =? 0) && (rd k (rd k pp + VM_start) <? rd k (new + VM_end))
    then Some (- EINVAL, k)
    else if negb (pp =? mm + MM_mmap) &&
            (rd k (new + VM_start) <? rd k (pp - VM_next + VM_end))
    then Some (- EINVAL, k)
    else
      let k := wr k (new + VM_next) (rd k pp) in
      Some (0, wr k pp new).

Fixpoint remove_vma_loop (fuel : nat) (k : slub) (pp vma : Z) : option (Z * slub) :=
  match fuel with
  | O => None
  | S fuel' =>
      if rd k pp =? 0 then Some (- ENOENT, k)
      else if rd k pp =? vma then
        let k := wr k pp (rd k (vma + VM_next)) in
        Some (0, wr k (vma + VM_next) 0)
      else remove_vma_loop fuel' k (rd k pp + VM_next) vma
  end.

Definition remove_vma (k : slub) (mm vma : Z) : option (Z * slub) :=
  remove_vma_loop (vma_fuel k) k (mm + MM_mmap) vma.

Definition vma_record (k : slub) (mm start end_ vm_flags : Z) : option (Z * slub) :=
  if (mm =? 0) || (end_ <=? start) then Some (- EINVAL, k)
  else
    '(vma, k) ← vma_alloc k start end_ vm_flags;
    if vma =? 0 then Some (- ENOMEM, k)
    else
      '(ret, k) ← insert_vma k mm vma;
      if ret <? 0 then k ← kmem_cache_free k vma_cache vma; Some (ret, k)
      else Some (0, k).

Fixpoint free_vma_chain (fuel : nat) (k : slub) (vma : Z) : option slub :=
  match fuel with
  | O => None
  | S fuel' =>
      if vma =? 0 then Some k
      else
        let next := rd k (vma + VM_next) in
        k ← kmem_cache_free k vma_cache vma;
        free_vma_chain fuel' k next
  end.

(** The loop of [dup_vma_list].  [head] is a local of the function; [tail] is
    the address of the last link, 0 for the address of [head] itself. *)
Fixpoint dup_vma_loop (fuel : nat) (k : slub) (src head tail : Z) : option (Z * slub) :=
  match fuel with
  | O => None
  | S fuel' =>
      if src =? 0 then Some (head, k)
      else
        '(copy, k) ← vma_alloc k (rd k (src + VM_start)) (rd k (src + VM_end))
                       (rd k (src + VM_flags));
        if copy =? 0 then
          k ← free_vma_chain (vma_fuel k) k head; Some (0, k)
        else
          let head' := if tail =? 0 then copy else head in
          let k := if tail =? 0 then k else wr k tail copy in
          dup_vma_loop fuel' k (rd k (src + VM_next)) head' (copy + VM_next)
  end.

Definition dup_vma_list (k : slub) (src : Z) : option (Z * slub) :=
  dup_vma_loop (vma_fuel k) k src 0 0.

Fixpoint free_all_loop (fuel : nat) (k : slub) (mm : Z) : option slub :=
  match fuel with
  | O => None
  | S fuel' =>
      let vma := rd k (mm + MM_mmap) in
      if vma =? 0 then Some k
      else
        let k := wr k (mm + MM_mmap) (rd k (vma + VM_next)) in
        k ← kmem_cache_free k vma_cache vma;
        free_all_loop fuel' k mm
  end.

Definition free_all_vmas (k : slub) (mm : Z) : option slub :=
  if mm =? 0 then Some k else free_all_loop (vma_fuel k) k mm.

Fixpoint vma_erase_loop (fuel : nat) (k : slub) (mm start end_ vma : Z) : option (Z * slub) :=
  match fuel with
  | O => None
  | S fuel' =>
      if vma =? 0 then Some (0, k)
      else
        let next := rd k (vma + VM_next) in
        let vstart := rd k (vma + VM_start) in
        let vend := rd k (vma + VM_end) in
        if (vend <=? start) || (end_ <=? vstart) then
          vma_erase_loop fuel' k mm start end_ next
        else if (start <=? vstart) && (vend <=? end_) then
          '(_, k) ← remove_vma k mm vma;
          k ← kmem_cache_free k vma_cache vma;
          vma_erase_loop fuel' k mm start end_ next
        else if (start <=? vstart) && (end_ <? vend) then
          vma_erase_loop fuel' (wr k (vma + VM_start) end_) mm start end_ next
        else if (vstart <? start) && (vend <=? end_) then
          vma_erase_loop fuel' (wr k (vma + VM_end) start) mm start end_ next
        else if (vstart <? start) && (end_ <? vend) then
          '(tail, k) ← vma_alloc k end_ vend (rd k (vma + VM_flags));
          if tail =? 0 then Some (- ENOMEM, k)
          else
            let k := wr k (vma + VM_end) start in
            let k := wr k (tail + VM_next) (rd k (vma + VM_next)) in
            let k := wr k (vma + VM_next) tail in
            vma_erase_loop fuel' k mm start end_ next
        else vma_erase_loop fuel' k mm start end_ next
  end.

Definition vma_erase_range (k : slub) (mm start end_ : Z) : option (Z * slub) :=
  vma_erase_loop (vma_fuel k) k mm start end_ (rd k (mm + MM_mmap)).

Fixpoint unmapped_loop (fuel : nat) (k : slub) (vma last len stack_limit : Z) : option Z :=
  match fuel with
  | O => None
  | S fuel' =>
      if vma =? 0 then Some (if u64 (last + len) <=? stack_limit then last else 0)
      else if (u64 (last + len) <=? rd k (vma + VM_start)) && (u64 (last + len) <=? stack_limit)
      then Some last
      else
        let last := if last <? rd k (vma + VM_end) then page_align (rd k (vma + VM_end)) else last in
        unmapped_loop fuel' k (rd k (vma + VM_next)) last len stack_limit
  end.

Definition find_unmapped_area (k : slub) (mm len : Z) : option Z :=
  let stack_top := rd k (mm + MM_stack_top) in
  let stack_limit :=
    if negb (stack_top =? 0) then u64 (stack_top - USER_STACK_SIZE) else USER_STACK_BOTTOM in
  let last := page_align (rd k (mm + MM_mmap_base)) in
  unmapped_loop (vma_fuel k) k (rd k (mm + MM_mmap)) last len stack_limit.

Fixpoint find_heap_loop (fuel : nat) (k : slub) (mm vma : Z) : option Z :=
  match fuel with
  | O => None
  | S fuel' =>
      if vma =? 0 then Some 0
      else if rd k (vma + VM_start) =? rd k (mm + MM_start_brk) then Some vma
      else find_heap_loop fuel' k mm (rd k (vma + VM_next))
  end.

Definition find_heap_vma (k : slub) (mm : Z) : option Z :=
  find_heap_loop (vma_fuel k) k mm (rd k (mm + MM_mmap)).

Definition vma_split (k : slub) (vma addr : Z) : option (Z * slub) :=
  if (vma =? 0) || (addr <=? rd k (vma + VM_start)) || (rd k (vma + VM_end) <=? addr)
  then Some (0, k)
  else
    '(rvma, k) ← vma_alloc k addr (rd k (vma + VM_end)) (rd k (vma + VM_flags));
    if rvma =? 0 then Some (- ENOMEM, k)
    else
      let k := wr k (vma + VM_end) addr in
      let k := wr k (rvma + VM_next) (rd k (vma + VM_next)) in
      Some (0, wr k (vma + VM_next) rvma).

Fixpoint mprotect_covered_loop (fuel : nat) (k : slub) (mm va end_ : Z) : option bool :=
  match fuel with
  | O => None
  | S fuel' =>
      if va <? end_ then
        vma ← find_vma k mm va;
        if (vma =? 0) || (va <? rd k (vma + VM_start)) then Some false
        else mprotect_covered_loop fuel' k mm (rd k (vma + VM_end)) end_
      else Some true
  end.

Definition mprotect_covered (k : slub) (mm start end_ : Z) : option bool :=
  mprotect_covered_loop (vma_fuel k) k mm start end_.

Definition mmap_init (k : slub) : slub := kmem_cache_init k vma_cache SIZEOF_VMA.

(** ** The list in memory *)

(** One area: its object and the contents of its fields. *)
Record vma := mkVma { vptr : Z; vstart : Z; vend : Z; vflags : Z }.

#[export] Instance vma_eq_dec : EqDecision vma.
Proof. solve_decision. Defined.

Definition vcells (k : slub) (v : vma) : Prop :=
  rd k (vptr v + VM_start) = vstart v /\ rd k (vptr v + VM_end) = vend v /\
  rd k (vptr v + VM_flags) = vflags v.

Definition vlinks : SList slub := {|
  sget := fun k l => match l with CHead => 0 | CNext p => rd k (p + VM_next) end;
  sset := fun k l v => match l with CHead => k | CNext p => wr k (p + VM_next) v end
|}.

Definition vseg (k : slub) (p : Z) (V : list vma) : Prop := @lseg _ vlinks k p (vptr <$> V).

Definition vobjs (V : list vma) : gmap Z Z :=
  list_to_map ((fun v => (vptr v, vma_cache)) <$> V).

(** The areas of [mm] are [V]; [R] are the other live objects, [mm] among
    them. *)
Record mm_rep (k : slub) (P R : gmap Z Z) (mm : Z) (V : list vma) : Prop := {
  mr_inv : slub_inv k P (vobjs V ∪ R);
  mr_disj : vobjs V ##ₘ R;
  mr_cache : is_Some (caches k !! vma_cache) /\ object_size (cache_of k vma_cache) = SIZEOF_VMA;
  mr_mm : exists c, R !! mm = Some c /\ SIZEOF_MM <= object_size (cache_of k c);
  mr_list : vseg k (rd k (mm + MM_mmap)) V;
  mr_cells : forall v, v ∈ V -> vcells k v
}.

(** What operations on the areas of [mm] leave alone: blocks of pages, and
    every other object but the head of the list. *)
Record mm_frame (k k' : slub) (P R : gmap Z Z) (mm : Z) : Prop := {
  mf_layout : same_layout k k';
  mf_ref : forall p, is_Some (P !! p) -> (refcount (pa k')).[p] = (refcount (pa k)).[p];
  mf_page : forall p o q a, P !! p = Some o -> covers p o q -> in_page (pa k) q a ->
    rd k' a = rd k a;
  mf_obj : forall x c a, R !! x = Some c -> x <= a < x + object_size (cache_of k c) ->
    a <> mm + MM_mmap -> rd k' a = rd k a
}.

Lemma mm_frame_refl k P R mm : mm_frame k k P R mm.
Proof. by split. Qed.

Lemma mm_frame_trans k1 k2 k3 P R mm :
  mm_frame k1 k2 P R mm -> mm_frame k2 k3 P R mm -> mm_frame k1 k3 P R mm.
Proof.
  intros [L1 R1 G1 B1] [L2 R2 G2 B2]. split.
  - by etrans.
  - intros p Hp. by rewrite R2, R1.
  - intros p o q a Hp Hc Ha. rewrite (G2 p o q), (G1 p o q); try done.
    unfold in_page in *. by rewrite (pfn_to_addr_same _ _ _ (lay_pool _ _ L1)).
  - intros x c a Hx Ha Hn. rewrite (B2 x c), (B1 x c); try done. by rewrite (lay_size _ _ L1).
Qed.

(** Composes the frames in the context. *)
Ltac mm_chain := repeat (eapply mm_frame_trans; [eassumption|]); apply mm_frame_refl.

Lemma mm_frame_sub k k' P R R' mm : R' ⊆ R -> mm_frame k k' P R mm -> mm_frame k k' P R' mm.
Proof. intros HR [L G1 G2 B]. split; try done. intros x c a Hx. apply (B x c). by eapply lookup_weaken. Qed.

Lemma slub_mm_frame k k' P R O mm : R ⊆ O -> slub_frame k k' P O -> mm_frame k k' P R mm.
Proof.
  intros HR [L G1 G2 B]. split; try done. intros x c a Hx Ha _. apply (B x c); [|done].
  by eapply lookup_weaken.
Qed.

Lemma vobjs_cons v V : vobjs (v :: V) = <[vptr v := vma_cache]> (vobjs V).
Proof. done. Qed.

Lemma vobjs_lookup V x c : vobjs V !! x = Some c <-> c = vma_cache /\ x ∈ vptr <$> V.
Proof.
  induction V as [|v V IH].
  - split; [done|]. intros [_ Hx]. by apply not_elem_of_nil in Hx.
  - rewrite vobjs_cons, lookup_insert_Some, IH. rewrite fmap_cons, elem_of_cons. split.
    + intros [[<- <-]|[_ [-> ?]]]; auto.
    + intros [-> Hx]. destruct (decide (vptr v = x)) as [E|E]; [by left|right].
      destruct Hx as [->|Hx]; done.
Qed.

Lemma vobjs_none V x : vobjs V !! x = None <-> x ∉ vptr <$> V.
Proof.
  rewrite eq_None_not_Some. split.
  - intros Hn Hx. apply Hn. exists vma_cache. by apply vobjs_lookup.
  - intros Hn [c Hc]. apply vobjs_lookup in Hc as [_ Hc]. by apply Hn.
Qed.

(** Only the pointers matter. *)
Lemma vobjs_ext V V' : (forall x, x ∈ vptr <$> V <-> x ∈ vptr <$> V') -> vobjs V = vobjs V'.
Proof.
  intros HV. apply map_eq. intros x. apply option_eq. intros c. by rewrite !vobjs_lookup, HV.
Qed.

Lemma vobjs_middle V1 v V2 : vobjs (V1 ++ v :: V2) = <[vptr v := vma_cache]> (vobjs (V1 ++ V2)).
Proof.
  rewrite <- vobjs_cons. apply vobjs_ext. intros x. rewrite !fmap_app, !fmap_cons, !fmap_app. set_solver.
Qed.

Section Rep.
Context {k : slub} {P R : gmap Z Z} {mm : Z} {V : list vma}.
Hypothesis HR : mm_rep k P R mm V.

Lemma rep_nodup : NoDup (vptr <$> V).
Proof. eapply (@lseg_NoDup _ vlinks), (mr_list _ _ _ _ _ HR). Qed.

Lemma rep_own v : v ∈ V -> (vobjs V ∪ R) !! vptr v = Some vma_cache.
Proof.
  intros Hv. apply lookup_union_Some_l, vobjs_lookup. split; [done|]. by apply list_elem_of_fmap_2.
Qed.

Lemma rep_rest x c : R !! x = Some c -> (vobjs V ∪ R) !! x = Some c.
Proof. intros Hx. by apply lookup_union_Some_r; [apply HR|]. Qed.

Lemma rep_rest_not x c : R !! x = Some c -> x ∉ vptr <$> V.
Proof. intros Hx Hv. eapply map_disjoint_spec; [apply (mr_disj _ _ _ _ _ HR)| |exact Hx].
  by apply vobjs_lookup. Qed.

(** Two cells of different live objects differ. *)
Lemma rep_apart x c y c' a :
  (vobjs V ∪ R) !! x = Some c -> (vobjs V ∪ R) !! y = Some c' -> x <> y ->
  x <= a < x + object_size (cache_of k c) -> ~ (y <= a < y + object_size (cache_of k c')).
Proof.
  intros Hx Hy Hne Ha. destruct (objects_disjoint _ _ _ _ _ (mr_inv _ _ _ _ _ HR) Hx) as [Hd _].
  specialize (Hd y c' Hy ltac:(congruence)). lia.
Qed.

Lemma rep_vma_size : object_size (cache_of k vma_cache) = 32.
Proof. apply HR. Qed.

Lemma rep_fields v w d e :
  v ∈ V -> w ∈ V -> vptr v <> vptr w -> 0 <= d < 32 -> 0 <= e < 32 -> vptr v + d <> vptr w + e.
Proof.
  intros Hv Hw Hne Hd He E.
  eapply (rep_apart (vptr v) vma_cache (vptr w) vma_cache (vptr v + d));
    [by apply rep_own|by apply rep_own|done|rewrite rep_vma_size; lia|rewrite rep_vma_size; lia].
Qed.

Lemma rep_field_rest v x c d a :
  v ∈ V -> R !! x = Some c -> x <= a < x + object_size (cache_of k c) -> 0 <= d < 32 ->
  a <> vptr v + d.
Proof.
  intros Hv Hx Ha Hd E.
  eapply (rep_apart x c (vptr v) vma_cache a); [by apply rep_rest|by apply rep_own| |done|].
  - intros ->. apply (rep_rest_not _ _ Hx). by apply list_elem_of_fmap_2.
  - rewrite rep_vma_size. lia.
Qed.

Lemma rep_field_head v d : v ∈ V -> 0 <= d < 32 -> mm + MM_mmap <> vptr v + d.
Proof.
  intros Hv Hd. destruct (mr_mm _ _ _ _ _ HR) as (c & Hc & Hs).
  apply (rep_field_rest v mm c); try done. unfold MM_mmap, SIZEOF_MM in *. lia.
Qed.

Lemma rep_nonzero v : v ∈ V -> vptr v <> 0.
Proof.
  intros Hv. eapply (@lseg_nonzero _ vlinks); [apply (mr_list _ _ _ _ _ HR)|].
  by apply list_elem_of_fmap_2.
Qed.

(** The list is shorter than the fuel. *)
Lemma rep_length : (length V < vma_fuel k)%nat.
Proof.
  unfold vma_fuel. apply Nat.lt_succ_r. rewrite <- (length_fmap vptr V).
  transitivity (length (seqZ (mem_start (pa k)) (mem_size (pa k)))); [|by rewrite length_seqZ].
  apply submseteq_length, NoDup_submseteq; [apply rep_nodup|].
  intros x (v & -> & Hv)%list_elem_of_fmap. apply elem_of_seqZ.
  by eapply slub_obj_range, rep_own, Hv; apply HR.
Qed.

End Rep.

(** ** Writes to the list *)

Lemma nodup_middle V1 v V2 w :
  NoDup (vptr <$> V1 ++ v :: V2) -> w ∈ V1 ++ V2 -> vptr w <> vptr v.
Proof.
  rewrite fmap_app, fmap_cons. intros (_ & H1 & [H2 _]%NoDup_cons)%NoDup_app Hw E.
  apply elem_of_app in Hw as [Hw|Hw].
  - apply (H1 (vptr w)); [by apply list_elem_of_fmap_2|]. rewrite E. set_solver.
  - apply H2. rewrite <- E. by apply list_elem_of_fmap_2.
Qed.

Definition link (mm : Z) (V : list vma) : Z :=
  match last V with Some v => vptr v + VM_next | None => mm + MM_mmap end.

Lemma rd_wr_case k a v a' : rd (wr k a v) a' = if decide (a = a') then v else rd k a'.
Proof. apply arr_get_insert_case. Qed.

(** Replacing what follows a link. *)
Lemma lseg_relink k k' h l1 l2 l2' :
  let pp := match last l1 with Some x => x + VM_next | None => h end in
  @lseg _ vlinks k (rd k h) (l1 ++ l2) ->
  (forall a, a <> pp -> a ∈ h :: ((fun x => x + VM_next) <$> l1) -> rd k' a = rd k a) ->
  @lseg _ vlinks k' (rd k' pp) l2' -> h ∉ (fun x => x + VM_next) <$> l1 -> NoDup l1 ->
  @lseg _ vlinks k' (rd k' h) (l1 ++ l2').
Proof.
  revert h. induction l1 as [|x l1 IH]; intros h pp Hl Hm Hq Hh Hnd; [exact Hq|].
  apply NoDup_cons in Hnd as [Hx Hnd].
  assert (Epp : pp = match last l1 with Some y => y + VM_next | None => x + VM_next end).
  { unfold pp. rewrite last_cons. by destruct (last l1). }
  assert (Hhp : h <> pp).
  { intros E. apply Hh. rewrite E, Epp. destruct (last l1) as [y|] eqn:El; [|set_solver].
    apply last_Some_elem_of in El. apply list_elem_of_fmap. exists y. set_solver. }
  destruct Hl as (E & Hx0 & Hl). cbn [app lseg]. rewrite (Hm h Hhp) by set_solver.
  splits; [done|done|]. cbn [sget vlinks] in *. apply IH; try done.
  - intros a Ha Hin. apply Hm; [congruence|]. set_solver.
  - by rewrite <- Epp.
  - intros (y & Ey & Hy)%list_elem_of_fmap. assert (y = x) as -> by lia. done.
Qed.

(** Writing to the memory of a live object. *)
Lemma rep_wr k P R mm V y c a x :
  mm_rep k P R mm V -> (vobjs V ∪ R) !! y = Some c -> y <= a < y + object_size (cache_of k c) ->
  slub_inv (wr k a x) P (vobjs V ∪ R).
Proof. intros HR Hy Ha. eapply slub_write_obj; [apply HR|done..]. Qed.

Lemma wr_frame k P O R mm y c a x :
  slub_inv k P O -> R ⊆ O -> O !! y = Some c -> y <= a < y + object_size (cache_of k c) ->
  a = mm + MM_mmap \/ R !! y = None -> mm_frame k (wr k a x) P R mm.
Proof.
  intros HI HRO Hy Ha Hcase. destruct (objects_disjoint _ _ _ _ _ HI Hy) as [Hd Hp].
  split; [by split|done| |].
  - intros p o q a' Hpp Hc Ha'. rewrite rd_wr_case. case_decide; [subst a'|done].
    by destruct (Hp p o q a Hpp Hc Ha').
  - intros z c' a' Hz Ha' Hn. rewrite rd_wr_case. case_decide; [subst a'|done].
    destruct Hcase as [->|Hcase]; [done|].
    assert (Hzy : z <> y) by congruence.
    specialize (Hd z c' (lookup_weaken _ _ _ _ Hz HRO) Hzy). lia.
Qed.

Lemma rep_sub k P R mm V : mm_rep k P R mm V -> R ⊆ vobjs V ∪ R.
Proof. intros HR. apply map_union_subseteq_r, HR. Qed.

Lemma rep_vma_frame k P R mm V v d x :
  mm_rep k P R mm V -> v ∈ V -> 0 <= d < 32 -> mm_frame k (wr k (vptr v + d) x) P R mm.
Proof.
  intros HR Hv Hd. eapply (wr_frame k P _ R mm (vptr v) vma_cache);
    [apply HR|by eapply rep_sub|by eapply rep_own|rewrite (rep_vma_size HR); lia|].
  right. destruct (R !! vptr v) as [c|] eqn:E; [|done].
  destruct (rep_rest_not HR _ _ E). by apply list_elem_of_fmap_2.
Qed.

(** A field of an area is changed. *)
Lemma rep_set_field k P R mm V1 v V2 v' d x :
  mm_rep k P R mm (V1 ++ v :: V2) -> 0 <= d < VM_next -> vptr v' = vptr v ->
  let k' := wr k (vptr v + d) x in
  vcells k' v' -> mm_rep k' P R mm (V1 ++ v' :: V2) /\ mm_frame k k' P R mm.
Proof.
  intros HR Hd Ev k' Hv'. assert (Hv : v ∈ V1 ++ v :: V2) by set_solver.
  assert (Ep : vptr <$> V1 ++ v' :: V2 = vptr <$> V1 ++ v :: V2).
  { rewrite !fmap_app, !fmap_cons. by rewrite Ev. }
  assert (Eo : vobjs (V1 ++ v' :: V2) = vobjs (V1 ++ v :: V2)) by (apply vobjs_ext; by rewrite Ep).
  assert (Hnd := rep_nodup HR). unfold VM_next in Hd.
  split; [|eapply rep_vma_frame; [done|done|lia]].
  assert (Hwr : slub_inv k' P (vobjs (V1 ++ v :: V2) ∪ R)).
  { eapply (rep_wr k P R mm _ (vptr v)); [done|by apply rep_own|].
    rewrite (rep_vma_size HR). lia. }
  assert (Hother : forall w e, w ∈ V1 ++ v :: V2 -> 0 <= e < 32 -> vptr w <> vptr v \/ e = VM_next ->
    rd k' (vptr w + e) = rd k (vptr w + e)).
  { intros w e Hw He Hc. unfold k'. rewrite rd_wr_ne; [done|].
    destruct (decide (vptr w = vptr v)) as [E|E].
    - destruct Hc as [?| ->]; [done|]. unfold VM_next in *. lia.
    - apply not_eq_sym. apply (rep_fields HR); try done. lia. }
  split; rewrite ?Eo; try apply HR; [done| |].
  - unfold vseg. rewrite Ep. assert (Hh : rd k' (mm + MM_mmap) = rd k (mm + MM_mmap)).
    { apply rd_wr_ne. apply not_eq_sym. apply (rep_field_head HR); [done|lia]. }
    rewrite Hh. apply (@lseg_frame _ vlinks k); [|apply HR].
    intros y (w & -> & Hw)%list_elem_of_fmap. cbn. apply Hother; [done|unfold VM_next; lia|by right].
  - intros w Hw. destruct (decide (w = v')) as [->|Hne]; [done|].
    assert (Hwo : w ∈ V1 ++ v :: V2) by set_solver.
    assert (Hwv : vptr w <> vptr v) by (eapply nodup_middle; [exact Hnd|set_solver]).
    destruct (mr_cells _ _ _ _ _ HR w Hwo) as (C1 & C2 & C3).
    unfold vcells. rewrite !Hother; try done; try (by left); unfold VM_start, VM_end, VM_flags; lia.
Qed.

(** Fields of live objects are different cells. *)
Lemma fields_apart k P O x c y c' d e :
  slub_inv k P O -> O !! x = Some c -> O !! y = Some c' ->
  0 <= d < object_size (cache_of k c) -> 0 <= e < object_size (cache_of k c') ->
  x <> y \/ d <> e -> x + d <> y + e.
Proof.
  intros HI Hx Hy Hd He Hne E. destruct (decide (x = y)) as [->|Hxy]; [lia|].
  destruct (objects_disjoint _ _ _ _ _ HI Hx) as [Hdis _].
  specialize (Hdis y c' Hy ltac:(congruence)). lia.
Qed.

Lemma lseg_at_link k h l1 l2 :
  @lseg _ vlinks k (rd k h) (l1 ++ l2) ->
  @lseg _ vlinks k (rd k (match last l1 with Some x => x + VM_next | None => h end)) l2.
Proof.
  revert h. induction l1 as [|x l1 IH]; intros h Hl; [exact Hl|].
  destruct Hl as (_ & _ & Hl). apply IH in Hl. rewrite last_cons. by destruct (last l1).
Qed.

Lemma link_fmap mm V :
  link mm V = match last (vptr <$> V) with Some x => x + VM_next | None => mm + MM_mmap end.
Proof. unfold link. rewrite fmap_last. by destruct (last V). Qed.

(** The object and offset of a link. *)
Lemma link_cell k P R mm V1 V2 :
  mm_rep k P R mm (V1 ++ V2) ->
  exists y c d, link mm V1 = y + d /\ (vobjs (V1 ++ V2) ∪ R) !! y = Some c /\
    0 <= d < object_size (cache_of k c) /\
    (y = mm /\ d = MM_mmap \/ (exists v, v ∈ V1 /\ y = vptr v) /\ d = VM_next).
Proof.
  intros HR. unfold link. destruct (last V1) as [v|] eqn:E.
  - apply last_Some_elem_of in E. exists (vptr v), vma_cache, VM_next. splits; try done.
    + apply rep_own. set_solver.
    + rewrite (rep_vma_size HR). done.
    + right. eauto.
  - destruct (mr_mm _ _ _ _ _ HR) as (c & Hc & Hs). exists mm, c, MM_mmap. splits; try done.
    + by apply (rep_rest HR).
    + unfold MM_mmap, SIZEOF_MM in *. lia.
    + by left.
Qed.

Lemma union_move (V1 V2 : list vma) (v : vma) (R : gmap Z Z) :
  vptr v ∉ vptr <$> V1 ++ V2 ->
  vobjs (V1 ++ v :: V2) ∪ R = vobjs (V1 ++ V2) ∪ <[vptr v := vma_cache]> R.
Proof.
  intros Hn. rewrite vobjs_middle, <- insert_union_l, <- insert_union_r; [done|]. by apply vobjs_none.
Qed.

(** An object of the rest, prepared by its owner, is linked in. *)
Lemma rep_insert k P R mm V1 V2 vn :
  let n := vptr vn in
  mm_rep k P (<[n := vma_cache]> R) mm (V1 ++ V2) -> R !! n = None -> n <> mm -> n <> 0 ->
  vcells k vn ->
  let k1 := wr k (n + VM_next) (rd k (link mm V1)) in
  let k2 := wr k1 (link mm V1) n in
  mm_rep k2 P R mm (V1 ++ vn :: V2) /\ mm_frame k k2 P R mm.
Proof.
  intros n HR HRn Hnm Hn0 Hvn k1 k2. assert (HI := mr_inv _ _ _ _ _ HR).
  assert (Hsz := rep_vma_size HR). assert (Hnd := rep_nodup HR).
  assert (HnV : n ∉ vptr <$> V1 ++ V2) by (eapply (rep_rest_not HR), lookup_insert_eq).
  assert (On : (vobjs (V1 ++ V2) ∪ <[n := vma_cache]> R) !! n = Some vma_cache).
  { apply (rep_rest HR), lookup_insert_eq. }
  destruct (mr_mm _ _ _ _ _ HR) as (cm & Hcm & Hsm). unfold SIZEOF_MM in Hsm.
  assert (Omm := rep_rest HR _ _ Hcm).
  destruct (link_cell _ _ _ _ _ _ HR) as (y & c & d & Epp & Oy & Hd & Hy).
  assert (Ein := fun e => fields_apart k P _ n vma_cache y c VM_next d HI On Oy e Hd).
  assert (Hpn : link mm V1 <> n + VM_next).
  { rewrite Epp. apply not_eq_sym. apply Ein; [rewrite Hsz; by vm_compute|]. left. intros ->.
    destruct Hy as [[-> _]|[(v & Hv & ->) _]]; [done|]. apply HnV, list_elem_of_fmap_2. set_solver. }
  assert (Hrd : forall a, a <> n + VM_next -> a <> link mm V1 -> rd k2 a = rd k a).
  { intros a H1 H2. unfold k2, k1. rewrite !rd_wr_ne by congruence. done. }
  assert (Epp2 : rd k2 (link mm V1) = n) by apply rd_wr_eq.
  assert (En2 : rd k2 (n + VM_next) = rd k (link mm V1)).
  { unfold k2. rewrite rd_wr_ne by done. apply rd_wr_eq. }
  assert (Hother : forall x cx e, (vobjs (V1 ++ V2) ∪ <[n := vma_cache]> R) !! x = Some cx ->
    0 <= e < object_size (cache_of k cx) ->
    (x <> n \/ e <> VM_next) -> (x <> y \/ e <> d) -> rd k2 (x + e) = rd k (x + e)).
  { intros x cx e Hx He H1 H2. apply Hrd.
    - apply (fields_apart k P _ _ cx _ vma_cache _ _ HI Hx On He); [rewrite Hsz; by vm_compute|done].
    - rewrite Epp. by apply (fields_apart k P _ _ cx _ c _ _ HI Hx Oy He Hd). }
  assert (Eo := union_move V1 V2 vn R HnV). fold n in Eo.
  assert (HI2 : slub_inv k2 P (vobjs (V1 ++ vn :: V2) ∪ R)).
  { rewrite Eo. unfold k2. rewrite Epp. eapply slub_write_obj; [|exact Oy|].
    - eapply slub_write_obj; [exact HI|exact On|]. rewrite Hsz. unfold VM_next. lia.
    - change (cache_of k1 c) with (cache_of k c). lia. }
  split.
  - split; [done| |apply HR| | |].
    + rewrite vobjs_middle. apply map_disjoint_insert_l_2; [done|].
      eapply map_disjoint_weaken_r; [apply HR|]. by apply insert_subseteq.
    + exists cm. rewrite lookup_insert_ne in Hcm by done. split; [done|]. change (cache_of k2 cm) with (cache_of k cm). unfold SIZEOF_MM. lia.
    + unfold vseg. rewrite fmap_app, fmap_cons.
      apply (lseg_relink k k2 _ _ (vptr <$> V2)).
      * rewrite <- fmap_app. apply HR.
      * rewrite <- link_fmap. intros a Ha Hin. apply Hrd; [|done].
        apply elem_of_cons in Hin as [->|(x & -> & Hx)%list_elem_of_fmap].
        -- apply (fields_apart k P _ mm cm n vma_cache _ _ HI Omm On);
             [unfold MM_mmap; lia|rewrite Hsz; by vm_compute|left; congruence].
        -- apply list_elem_of_fmap in Hx as (v & -> & Hv).
           assert (Hv' : v ∈ V1 ++ V2) by set_solver.
           apply (fields_apart k P _ (vptr v) vma_cache n vma_cache _ _ HI (rep_own v Hv') On);
             [rewrite Hsz; by vm_compute..|]. left. intros E. apply HnV. rewrite <- E.
           by apply list_elem_of_fmap_2.
      * rewrite <- link_fmap. cbn [lseg]. rewrite Epp2. splits; [done|done|].
        cbn [sget vlinks]. fold n. rewrite En2.
        apply (@lseg_frame _ vlinks k).
        -- intros x (v & -> & Hv)%list_elem_of_fmap. cbn. assert (Hv' : v ∈ V1 ++ V2) by set_solver.
           apply (Hother _ vma_cache); [by apply rep_own|rewrite Hsz; by vm_compute| |].
           ++ left. intros E. apply HnV. rewrite <- E. by apply list_elem_of_fmap_2.
           ++ destruct Hy as [[-> ->]|[(w & Hw & ->) _]]; [by right|]. left. intros E.
              rewrite fmap_app in Hnd. apply NoDup_app in Hnd as (_ & Hnd & _).
              apply (Hnd (vptr w)); [by apply list_elem_of_fmap_2|]. rewrite <- E.
              by apply list_elem_of_fmap_2.
        -- rewrite link_fmap. apply lseg_at_link. rewrite <- fmap_app. apply HR.
      * intros (x & Ex & Hx)%list_elem_of_fmap. apply list_elem_of_fmap in Hx as (v & -> & Hv).
        assert (Hv' : v ∈ V1 ++ V2) by set_solver. by apply (rep_field_head HR v VM_next Hv').
      * rewrite fmap_app in Hnd. by apply NoDup_app in Hnd as (? & _).
    + assert (Hvc : forall w cw, (vobjs (V1 ++ V2) ∪ <[n := vma_cache]> R) !! vptr w = Some cw ->
        SIZEOF_VMA <= object_size (cache_of k cw) -> vptr w <> mm -> vcells k w -> vcells k2 w).
      { intros w cw Hw Hs Hwm (C1 & C2 & C3). unfold SIZEOF_VMA in Hs. unfold vcells.
        rewrite !(Hother _ cw); [done|..]; try done; try (unfold VM_start, VM_end, VM_flags, VM_next; lia);
          destruct Hy as [[-> _]|[_ ->]]; auto; right; by vm_compute. }
      intros w Hw. apply elem_of_app in Hw as [Hw|[->|Hw]%elem_of_cons].
      * apply (Hvc _ vma_cache); [apply rep_own; set_solver|rewrite Hsz; done| |apply HR; set_solver].
        intros E. apply (rep_rest_not HR _ _ Hcm). rewrite <- E. apply list_elem_of_fmap_2. set_solver.
      * apply (Hvc _ vma_cache); [done|rewrite Hsz; done|done|done].
      * apply (Hvc _ vma_cache); [apply rep_own; set_solver|rewrite Hsz; done| |apply HR; set_solver].
        intros E. apply (rep_rest_not HR _ _ Hcm). rewrite <- E. apply list_elem_of_fmap_2. set_solver.
  - apply (mm_frame_trans _ k1).
    + eapply (wr_frame k P _ R mm n vma_cache); [exact HI| |done|rewrite Hsz; unfold VM_next; lia|by right].
      etransitivity; [by apply insert_subseteq|]. by eapply rep_sub.
    + eapply (wr_frame k1 P _ R mm y c).
      * eapply slub_write_obj; [exact HI|exact On|]. rewrite Hsz. unfold VM_next. lia.
      * etransitivity; [by apply insert_subseteq|]. by eapply rep_sub.
      * done.
      * rewrite Epp. change (cache_of k1 c) with (cache_of k c). lia.
      * rewrite Epp. destruct Hy as [[-> ->]|[(v & Hv & ->) _]]; [by left|right].
        destruct (R !! vptr v) as [c'|] eqn:E; [|done].
        destruct (rep_rest_not HR (vptr v) c'); [|apply list_elem_of_fmap_2; set_solver].
        rewrite lookup_insert_ne; [done|congruence].
Qed.

(** An area is unlinked; its object joins the rest. *)
Lemma rep_unlink k P R mm V1 v V2 :
  mm_rep k P R mm (V1 ++ v :: V2) ->
  let k' := wr k (link mm V1) (rd k (vptr v + VM_next)) in
  mm_rep k' P (<[vptr v := vma_cache]> R) mm (V1 ++ V2) /\ mm_frame k k' P R mm /\
  R !! vptr v = None /\ vptr v <> mm /\ rd k' (vptr v + VM_next) = rd k (vptr v + VM_next).
Proof.
  intros HR k'. assert (HI := mr_inv _ _ _ _ _ HR). assert (Hsz := rep_vma_size HR).
  assert (Hnd := rep_nodup HR). assert (Hv : v ∈ V1 ++ v :: V2) by set_solver.
  destruct (mr_mm _ _ _ _ _ HR) as (cm & Hcm & Hsm). unfold SIZEOF_MM in Hsm.
  assert (Hmm : forall w, w ∈ V1 ++ v :: V2 -> vptr w <> mm).
  { intros w Hw E. apply (rep_rest_not HR _ _ Hcm). rewrite <- E. by apply list_elem_of_fmap_2. }
  assert (HRv : R !! vptr v = None).
  { destruct (R !! vptr v) eqn:E; [|done]. destruct (rep_rest_not HR _ _ E). by apply list_elem_of_fmap_2. }
  assert (HnV : vptr v ∉ vptr <$> V1 ++ V2).
  { intros (w & E & Hw)%list_elem_of_fmap. by apply (nodup_middle V1 v V2 w Hnd). }
  destruct (link_cell k P R mm V1 (v :: V2) HR) as (y & c & d & Epp & Oy & Hd & Hy).
  assert (Hother : forall x cx e, (vobjs (V1 ++ v :: V2) ∪ R) !! x = Some cx ->
    0 <= e < object_size (cache_of k cx) -> (x <> y \/ e <> d) -> rd k' (x + e) = rd k (x + e)).
  { intros x cx e Hx He H1. apply rd_wr_ne. rewrite Epp. apply not_eq_sym.
    by apply (fields_apart k P _ _ cx _ c _ _ HI Hx Oy He Hd). }
  assert (Hvy : vptr v <> y).
  { intros <-. destruct Hy as [[E _]|[(w & Hw & E) _]]; [by apply (Hmm v)|].
    apply HnV. rewrite E. apply list_elem_of_fmap_2. set_solver. }
  assert (HI' : slub_inv k' P (vobjs (V1 ++ v :: V2) ∪ R)).
  { unfold k'. rewrite Epp. eapply slub_write_obj; [exact HI|exact Oy|lia]. }
  splits; [| |done|by apply Hmm|].
  - split; [by rewrite <- union_move| |apply HR| | |].
    + apply map_disjoint_insert_r_2; [by apply vobjs_none|].
      eapply map_disjoint_weaken_l; [apply HR|]. rewrite vobjs_middle.
      apply insert_subseteq. by apply vobjs_none.
    + exists cm. rewrite lookup_insert_ne by (by apply Hmm). split; [done|].
      change (cache_of k' cm) with (cache_of k cm). unfold SIZEOF_MM. lia.
    + unfold vseg. rewrite fmap_app. apply (lseg_relink k k' _ _ (vptr <$> v :: V2)).
      * rewrite <- fmap_app. apply HR.
      * rewrite <- link_fmap. intros a Ha _. apply rd_wr_ne. congruence.
      * rewrite <- link_fmap. unfold k' at 2. rewrite rd_wr_eq.
        assert (Hl := mr_list _ _ _ _ _ HR). unfold vseg in Hl. rewrite fmap_app in Hl.
        apply lseg_at_link in Hl. destruct Hl as (_ & _ & Hl).
        apply (@lseg_frame _ vlinks k); [|exact Hl].
        intros x (w & -> & Hw)%list_elem_of_fmap. cbn. assert (Hw' : w ∈ V1 ++ v :: V2) by set_solver.
        apply (Hother _ vma_cache); [by apply rep_own|rewrite Hsz; by vm_compute|].
        destruct Hy as [[-> ->]|[(u & Hu & ->) _]]; [by right|]. left. intros E.
        rewrite fmap_app, fmap_cons in Hnd. apply NoDup_app in Hnd as (_ & Hnd & _).
        apply (Hnd (vptr u)); [by apply list_elem_of_fmap_2|]. rewrite <- E.
        apply elem_of_cons. right. by apply list_elem_of_fmap_2.
      * intros (x & Ex & Hx)%list_elem_of_fmap. apply list_elem_of_fmap in Hx as (w & -> & Hw).
        assert (Hw' : w ∈ V1 ++ v :: V2) by set_solver. by apply (rep_field_head HR w VM_next Hw').
      * rewrite fmap_app in Hnd. by apply NoDup_app in Hnd as (? & _).
    + intros w Hw. assert (Hw' : w ∈ V1 ++ v :: V2) by set_solver.
      destruct (mr_cells _ _ _ _ _ HR w Hw') as (C1 & C2 & C3). unfold vcells.
      rewrite !(Hother _ vma_cache); [done|..]; try (by apply rep_own);
        try (rewrite Hsz; by vm_compute);
        (destruct Hy as [[-> _]|[_ ->]]; [left; by apply Hmm|right; by vm_compute]).
  - eapply (wr_frame k P _ R mm y c); [exact HI|by eapply rep_sub|done|lia|].
    rewrite Epp. destruct Hy as [[-> ->]|[(w & Hw & ->) _]]; [by left|right].
    destruct (R !! vptr w) as [c'|] eqn:E; [|done].
    destruct (rep_rest_not HR (vptr w) c' E). apply list_elem_of_fmap_2. set_solver.
  - apply (Hother _ vma_cache); [by apply rep_own|rewrite Hsz; by vm_compute|by left].
Qed.

(** Writes to an object of the rest. *)
Lemma rep_wr_rest k P R mm V n c d x :
  mm_rep k P R mm V -> R !! n = Some c -> 0 <= d < object_size (cache_of k c) ->
  n <> mm \/ d <> MM_mmap ->
  let k' := wr k (n + d) x in
  mm_rep k' P R mm V /\ mm_frame k k' P (delete n R) mm.
Proof.
  intros HR Hn Hd Hne k'. assert (HI := mr_inv _ _ _ _ _ HR). assert (Hsz := rep_vma_size HR).
  assert (On := rep_rest HR _ _ Hn).
  destruct (mr_mm _ _ _ _ _ HR) as (cm & Hcm & Hsm). unfold SIZEOF_MM in Hsm.
  assert (Hother : forall y cy e, (vobjs V ∪ R) !! y = Some cy -> 0 <= e < object_size (cache_of k cy) ->
    (y <> n \/ e <> d) -> rd k' (y + e) = rd k (y + e)).
  { intros y cy e Hy He Hc. apply rd_wr_ne. apply not_eq_sym.
    by apply (fields_apart k P _ _ cy _ c _ _ HI Hy On He Hd). }
  assert (Hv : forall v e, v ∈ V -> 0 <= e < 32 -> rd k' (vptr v + e) = rd k (vptr v + e)).
  { intros v e Hv He. apply (Hother _ vma_cache); [by apply rep_own|rewrite Hsz; lia|].
    left. intros E. apply (rep_rest_not HR _ _ Hn). rewrite <- E. by apply list_elem_of_fmap_2. }
  split.
  - split; try apply HR.
    + eapply slub_write_obj; [exact HI|exact On|lia].
    + assert (E : rd k' (mm + MM_mmap) = rd k (mm + MM_mmap)).
      { apply (Hother _ cm); [by apply (rep_rest HR)|unfold MM_mmap; lia|].
        destruct Hne as [?|?]; [left; congruence|right; congruence]. }
      rewrite E. apply (@lseg_frame _ vlinks k); [|apply HR].
      intros y (v & -> & Hv')%list_elem_of_fmap. cbn. apply Hv; [done|by vm_compute].
    + intros v Hv'. destruct (mr_cells _ _ _ _ _ HR v Hv') as (C1 & C2 & C3). unfold vcells.
      by rewrite !Hv by (done || by vm_compute).
  - eapply (wr_frame k P _ (delete n R) mm n c); [exact HI| |done|lia|right; apply lookup_delete_eq].
    etransitivity; [apply delete_subseteq|by eapply rep_sub].
Qed.

(** Changes that leave every live object alone. *)
Lemma rep_frame k k' P R R' mm V :
  mm_rep k P R mm V -> slub_inv k' P (vobjs V ∪ R') -> vobjs V ##ₘ R' ->
  slub_frame k k' P (vobjs V) -> R' !! mm = R !! mm ->
  rd k' (mm + MM_mmap) = rd k (mm + MM_mmap) -> mm_rep k' P R' mm V.
Proof.
  intros HR HI Hd Hf Hmm Eh. assert (Hsz := rep_vma_size HR).
  assert (Hl := fr_layout _ _ _ _ Hf).
  assert (Hv : forall v e, v ∈ V -> 0 <= e < 32 -> rd k' (vptr v + e) = rd k (vptr v + e)).
  { intros v e Hv He. apply (fr_obj _ _ _ _ Hf (vptr v) vma_cache); [|rewrite Hsz; lia].
    apply vobjs_lookup. split; [done|by apply list_elem_of_fmap_2]. }
  split; try done.
  - rewrite (lay_some _ _ Hl), (lay_size _ _ Hl). apply HR.
  - rewrite Hmm. destruct (mr_mm _ _ _ _ _ HR) as (c & Hc & Hs). exists c. by rewrite (lay_size _ _ Hl).
  - rewrite Eh. apply (@lseg_frame _ vlinks k); [|apply HR].
    intros y (v & -> & Hv')%list_elem_of_fmap. cbn. apply Hv; [done|by vm_compute].
  - intros v Hv'. destruct (mr_cells _ _ _ _ _ HR v Hv') as (C1 & C2 & C3). unfold vcells.
    by rewrite !Hv by (done || by vm_compute).
Qed.

Lemma vma_alloc_rep k P R mm V s e f :
  mm_rep k P R mm V ->
  (vma_alloc k s e f = Some (0, k) /\ no_block k 0) \/
  exists n k', vma_alloc k s e f = Some (n, k') /\ n <> 0 /\ R !! n = None /\ n <> mm /\
    (n ∉ vptr <$> V) /\ mm_rep k' P (<[n := vma_cache]> R) mm V /\ vcells k' (mkVma n s e f) /\
    rd k' (n + VM_next) = 0 /\ mm_frame k k' P R mm.
Proof.
  intros HR. assert (HI := mr_inv _ _ _ _ _ HR). assert (Hsz := rep_vma_size HR).
  destruct (mr_mm _ _ _ _ _ HR) as (cm & Hcm & Hsm). unfold SIZEOF_MM in Hsm.
  unfold vma_alloc. destruct (kmem_cache_alloc_inv k P _ vma_cache HI (proj1 (mr_cache _ _ _ _ _ HR)))
    as [[E Hnb]|(n & k1 & E & Hn & Hnew & HI1 & Hf)]; rewrite E; cbn [mbind option_bind]; [by left|right].
  rewrite (proj2 (Z.eqb_neq n 0)) by done.
  pose proof (proj1 (lookup_union_None _ _ _) Hnew) as [HnV HnR].
  assert (Hnm : n <> mm) by congruence.
  rewrite insert_union_r in HI1 by done.
  assert (HR1 : mm_rep k1 P (<[n := vma_cache]> R) mm V).
  { apply (rep_frame k k1 P R (<[n := vma_cache]> R) mm V HR HI1).
    - apply map_disjoint_insert_r_2; [done|apply HR].
    - eapply slub_frame_sub; [reflexivity| |exact Hf]. apply map_union_subseteq_l.
    - by rewrite lookup_insert_ne.
    - apply (fr_obj _ _ _ _ Hf mm cm); [by apply (rep_rest HR)|unfold MM_mmap; lia]. }
  assert (Hlay := fr_layout _ _ _ _ Hf).
  assert (Hfr1 : mm_frame k k1 P R mm) by (eapply slub_mm_frame; [by eapply rep_sub|done]).
  assert (Hw : forall j d x, mm_rep j P (<[n := vma_cache]> R) mm V -> 0 <= d < 32 ->
    mm_rep (wr j (n + d) x) P (<[n := vma_cache]> R) mm V /\ mm_frame j (wr j (n + d) x) P R mm).
  { intros j d x Hj Hd.
    destruct (rep_wr_rest j P _ mm V n vma_cache d x Hj) as [H1 H2].
    - apply lookup_insert_eq.
    - by rewrite (rep_vma_size Hj).
    - by left.
    - split; [done|]. by rewrite delete_insert_id in H2. }
  set (k2 := wr k1 (n + VM_start) s). set (k3 := wr k2 (n + VM_end) e).
  set (k4 := wr k3 (n + VM_flags) f). set (k5 := wr k4 (n + VM_next) 0).
  destruct (Hw k1 VM_start s HR1 ltac:(by vm_compute)) as [HR2 F2]. fold k2 in HR2, F2.
  destruct (Hw k2 VM_end e HR2 ltac:(by vm_compute)) as [HR3 F3]. fold k3 in HR3, F3.
  destruct (Hw k3 VM_flags f HR3 ltac:(by vm_compute)) as [HR4 F4]. fold k4 in HR4, F4.
  destruct (Hw k4 VM_next 0 HR4 ltac:(by vm_compute)) as [HR5 F5]. fold k5 in HR5, F5.
  exists n, k5. splits; try done.
  - by apply vobjs_none.
  - unfold vcells. cbn [vptr vstart vend vflags]. unfold k5, k4, k3, k2, VM_start, VM_end, VM_flags, VM_next.
    splits; repeat (rewrite rd_wr_ne by lia); apply rd_wr_eq.
  - apply rd_wr_eq.
  - mm_chain.
Qed.

Lemma vma_free_rep k P R mm V n :
  mm_rep k P (<[n := vma_cache]> R) mm V -> R !! n = None -> n <> mm ->
  exists k', kmem_cache_free k vma_cache n = Some k' /\ mm_rep k' P R mm V /\ mm_frame k k' P R mm.
Proof.
  intros HR HRn Hnm. assert (HI := mr_inv _ _ _ _ _ HR).
  assert (On := rep_rest HR n vma_cache (lookup_insert_eq _ _ _)).
  destruct (mr_mm _ _ _ _ _ HR) as (cm & Hcm & Hsm). unfold SIZEOF_MM in Hsm.
  destruct (kmem_cache_free_inv k P _ _ _ HI On) as (k' & E & HI' & Hf).
  assert (HnV : vobjs V !! n = None) by (apply vobjs_none; eapply (rep_rest_not HR), lookup_insert_eq).
  assert (Eo : delete n (vobjs V ∪ <[n := vma_cache]> R) = vobjs V ∪ R).
  { by rewrite delete_union, delete_insert_id, (delete_id (vobjs V)). }
  rewrite Eo in HI', Hf. exists k'. splits; [done| |].
  - apply (rep_frame k k' P _ R mm V HR HI').
    + eapply map_disjoint_weaken_r; [apply HR|]. by apply insert_subseteq.
    + eapply slub_frame_sub; [reflexivity| |exact Hf]. apply map_union_subseteq_l.
    + by rewrite lookup_insert_ne.
    + apply (fr_obj _ _ _ _ Hf mm cm); [|unfold MM_mmap; lia].
      rewrite lookup_insert_ne in Hcm by done. apply lookup_union_Some_r; [|done].
      eapply map_disjoint_weaken_r; [apply HR|]. by apply insert_subseteq.
  - eapply slub_mm_frame; [|exact Hf]. apply map_union_subseteq_r.
    eapply map_disjoint_weaken_r; [apply HR|]. by apply insert_subseteq.
Qed.

(** ** The operations on the list *)

Definition varea (v : vma) : area := mkArea (vstart v) (vend v) (vflags v).
Definition areas (V : list vma) : list area := varea <$> V.

(** The pointer at a link is the next area. *)
Definition vhead (V : list vma) : Z := match V with [] => 0 | v :: _ => vptr v end.

Lemma rep_link_rd k P R mm V1 V2 :
  mm_rep k P R mm (V1 ++ V2) -> rd k (link mm V1) = vhead V2.
Proof.
  intros HR. assert (Hl := mr_list _ _ _ _ _ HR). unfold vseg in Hl. rewrite fmap_app in Hl.
  apply lseg_at_link in Hl. rewrite <- link_fmap in Hl. destruct V2 as [|v V2]; [done|].
  by destruct Hl as (-> & _).
Qed.

Lemma link_snoc mm V v : link mm (V ++ [v]) = vptr v + VM_next.
Proof. unfold link. by rewrite last_snoc. Qed.

Lemma rep_next k P R mm V1 v V2 :
  mm_rep k P R mm (V1 ++ v :: V2) -> rd k (vptr v + VM_next) = vhead V2.
Proof. intros HR. rewrite <- (link_snoc mm V1 v). eapply rep_link_rd. by rewrite <- app_assoc. Qed.

Lemma rep_head k P R mm V : mm_rep k P R mm V -> rd k (mm + MM_mmap) = vhead V.
Proof. apply (rep_link_rd k P R mm [] V). Qed.

Lemma rep_elem k P R mm V1 v V2 :
  mm_rep k P R mm (V1 ++ v :: V2) ->
  vptr v <> 0 /\ rd k (vptr v + VM_start) = vstart v /\ rd k (vptr v + VM_end) = vend v /\
  rd k (vptr v + VM_flags) = vflags v.
Proof.
  intros HR. assert (Hv : v ∈ V1 ++ v :: V2) by set_solver. split; [by apply (rep_nonzero HR)|].
  by apply HR.
Qed.

Fixpoint find_above (a : Z) (V : list vma) : option vma :=
  match V with [] => None | v :: V' => if a <? vend v then Some v else find_above a V' end.

Lemma find_above_area a V : varea <$> find_above a V = find_area a (areas V).
Proof. induction V as [|v V IH]; [done|]. cbn. by case (a <? vend v). Qed.

Lemma find_above_split a V v :
  find_above a V = Some v -> exists V1 V2, V = V1 ++ v :: V2 /\ a < vend v /\ forall w, w ∈ V1 -> vend w <= a.
Proof.
  induction V as [|w V IH]; [done|]. cbn. case Z.ltb_spec; intros Ha.
  - intros [= ->]. exists [], V. splits; try done. intros w' Hw'. by apply not_elem_of_nil in Hw'.
  - intros (V1 & V2 & -> & H1 & H2)%IH. exists (w :: V1), V2. splits; try done.
    intros u [->|Hu]%elem_of_cons; [lia|by apply H2].
Qed.

Lemma find_vma_loop_rep fuel k P R mm V1 V2 addr :
  mm_rep k P R mm (V1 ++ V2) -> (length V2 < fuel)%nat ->
  find_vma_loop fuel k (vhead V2) addr = Some (default 0 (vptr <$> find_above addr V2)).
Proof.
  revert V1 V2. induction fuel as [|fuel IH]; intros V1 V2 HR Hf; [lia|]. cbn [find_vma_loop].
  destruct V2 as [|v V2]; [done|]. destruct (rep_elem _ _ _ _ _ _ _ HR) as (Hz & _ & He & _).
  cbn [vhead find_above]. rewrite (proj2 (Z.eqb_neq _ _)) by done. rewrite He.
  case Z.ltb_spec; intros Ha; [done|]. rewrite (rep_next _ _ _ _ _ _ _ HR).
  apply (IH (V1 ++ [v])); [by rewrite <- app_assoc|cbn in Hf; lia].
Qed.

Lemma find_vma_rep k P R mm V addr :
  mm_rep k P R mm V ->
  find_vma k mm addr = Some (default 0 (vptr <$> find_above addr V)).
Proof.
  intros HR. unfold find_vma. rewrite (rep_head _ _ _ _ _ HR).
  apply (find_vma_loop_rep _ k P R mm [] V); [done|]. apply (rep_length HR).
Qed.

Lemma insert_pos_rep fuel k P R mm V1 V2 start :
  mm_rep k P R mm (V1 ++ V2) -> (length V2 < fuel)%nat ->
  exists W1 W2, V2 = W1 ++ W2 /\ insert_pos fuel k (link mm V1) start = Some (link mm (V1 ++ W1)) /\
    (forall v, v ∈ W1 -> vstart v < start) /\ (forall v, head W2 = Some v -> start <= vstart v).
Proof.
  revert V1 V2. induction fuel as [|fuel IH]; intros V1 V2 HR Hf; [lia|]. cbn [insert_pos].
  rewrite (rep_link_rd _ _ _ _ _ _ HR). destruct V2 as [|v V2].
  { exists [], []. cbn. rewrite app_nil_r. splits; try done. intros v Hv. by apply not_elem_of_nil in Hv. }
  destruct (rep_elem _ _ _ _ _ _ _ HR) as (Hz & Hs & _ & _). cbn [vhead].
  rewrite (proj2 (Z.eqb_neq _ _)) by done. rewrite Hs. cbn [negb andb].
  case Z.ltb_spec; intros Ha.
  - rewrite <- (link_snoc mm V1 v).
    destruct (IH (V1 ++ [v]) V2) as (W1 & W2 & -> & E & H1 & H2);
      [by rewrite <- app_assoc|cbn in Hf; lia|].
    exists (v :: W1), W2. rewrite <- app_assoc in E. splits; try done.
    intros w [->|Hw]%elem_of_cons; [done|by apply H1].
  - exists [], (v :: V2). rewrite app_nil_r. splits; try done.
    + intros w Hw. by apply not_elem_of_nil in Hw.
    + by intros w [= <-].
Qed.

Lemma find_above_none a V : find_above a V = None -> forall v, v ∈ V -> vend v <= a.
Proof.
  induction V as [|w V IH]; intros Hn v Hv; [by apply not_elem_of_nil in Hv|].
  cbn in Hn. revert Hn. case Z.ltb_spec; [done|]. intros Ha Hn.
  apply elem_of_cons in Hv as [->|Hv]; [done|by apply IH].
Qed.

Lemma areas_app V W : areas (V ++ W) = areas V ++ areas W.
Proof. apply fmap_app. Qed.

Lemma areas_elem V v : v ∈ V -> varea v ∈ areas V.
Proof. apply list_elem_of_fmap_2. Qed.

(** An area that meets the list is refused. *)
Definition overlaps (V : list vma) (s e : Z) : Prop :=
  exists a, s <= a < e /\ is_Some (flags_at (areas V) a).

Lemma overlap_at V v a s e :
  sorted 0 (areas V) -> v ∈ V -> vstart v <= a < vend v -> s <= a < e -> overlaps V s e.
Proof.
  intros HS Hv Ha Hr. exists a. split; [done|]. exists (vflags v). apply (flags_at_iff 0 _ _ _ HS).
  exists (varea v). splits; [by apply areas_elem|done|done].
Qed.

Lemma insert_vma_rep k P R mm V vn :
  let n := vptr vn in
  mm_rep k P (<[n := vma_cache]> R) mm V -> sorted 0 (areas V) -> 0 <= vstart vn ->
  R !! n = None -> n <> mm -> n <> 0 -> vcells k vn ->
  exists r k', insert_vma k mm n = Some (r, k') /\
    ((r = 0 /\ (exists V1 V2, V = V1 ++ V2 /\ mm_rep k' P R mm (V1 ++ vn :: V2) /\
        sorted 0 (areas (V1 ++ vn :: V2))) /\ mm_frame k k' P R mm) \/
     (r = - EINVAL /\ k' = k /\ (vend vn <= vstart vn \/ overlaps V (vstart vn) (vend vn)))).
Proof.
  intros n HR HS H0 HRn Hnm Hn0 Hc. unfold insert_vma. destruct Hc as (Cs & Ce & Cf). fold n in Cs, Ce, Cf.
  rewrite Cs, Ce. case Z.leb_spec; intros Hse.
  { exists (- EINVAL), k. split; [done|]. right. splits; try done. by left. }
  destruct (insert_pos_rep (vma_fuel k) k P _ mm [] V (vstart vn) HR (rep_length HR))
    as (V1 & V2 & -> & E & HV1 & HV2).
  change (link mm []) with (mm + MM_mmap) in E. rewrite E. cbn [mbind option_bind app].
  rewrite (rep_link_rd _ _ _ _ _ _ HR). rewrite areas_app in HS.
  assert (HS2 := HS). apply sorted_app in HS2 as [HS1 HS2].
  assert (Hgood : (forall v, head V2 = Some v -> vend vn <= vstart v) -> last_end 0 (areas V1) <= vstart vn ->
    sorted 0 (areas (V1 ++ vn :: V2))).
  { intros Hhd Hle. rewrite areas_app. apply insert_sorted; try done. destruct V2 as [|v V2]; [done|].
    cbn in HS2 |- *. destruct HS2 as (_ & ? & ?). splits; try done. by apply Hhd. }
  assert (Hlast : forall u, last V1 = Some u -> last_end 0 (areas V1) = vend u).
  { intros u Hu. unfold last_end, areas. by rewrite fmap_last, Hu. }
  destruct (rep_insert k P R mm V1 V2 vn HR HRn Hnm Hn0 (conj Cs (conj Ce Cf))) as [HR' Hf].
  fold n in HR', Hf. rewrite (rep_link_rd _ _ _ _ _ _ HR) in HR', Hf.
  destruct (negb (vhead V2 =? 0) && (rd k (vhead V2 + VM_start) <? vend vn)) eqn:Eb.
  { destruct V2 as [|v V2]; [done|]. destruct (rep_elem _ _ _ _ _ _ _ HR) as (Hz & Hs & _).
    cbn [vhead] in Eb. rewrite Hs in Eb. apply andb_true_iff in Eb as [_ Eb%Z.ltb_lt].
    exists (- EINVAL), k. split; [done|]. right. splits; try done. right.
    destruct (sorted_elem _ _ (varea v) HS2) as [_ Hlt]; [set_solver|]. cbn in Hlt.
    apply (overlap_at _ v (vstart v)); [by rewrite areas_app|set_solver|lia|].
    specialize (HV2 v eq_refl). lia. }
  assert (Hhd : forall v, head V2 = Some v -> vend vn <= vstart v).
  { intros v Hv. destruct V2 as [|w V2]; [done|]. injection Hv as ->.
    destruct (rep_elem _ _ _ _ _ _ _ HR) as (Hz & Hs & _). cbn [vhead] in Eb. rewrite Hs in Eb.
    rewrite (proj2 (Z.eqb_neq _ _) Hz) in Eb. cbn in Eb. by apply Z.ltb_ge in Eb. }
  unfold link at 1 2. destruct (last V1) as [u|] eqn:Eu.
  - assert (Hu : u ∈ V1) by (by apply last_Some_elem_of).
    assert (Hu' : u ∈ V1 ++ V2) by set_solver.
    rewrite (proj2 (Z.eqb_neq _ _)) by (apply not_eq_sym, (rep_field_head HR u VM_next Hu'); by vm_compute).
    replace (vptr u + VM_next - VM_next + VM_end) with (vptr u + VM_end) by lia.
    destruct (mr_cells _ _ _ _ _ HR u Hu') as (_ & Hue & _). rewrite Hue. cbn [negb andb].
    case Z.ltb_spec; intros Hlt.
    + exists (- EINVAL), k. split; [done|]. right. splits; try done. right.
      apply (overlap_at _ u (vstart vn)); [by rewrite areas_app|done| |lia].
      specialize (HV1 u Hu). lia.
    + exists 0. eexists. split; [done|]. left. splits; [done| |done]. exists V1, V2. splits; [done|done|].
      apply Hgood; [done|]. by rewrite (Hlast u eq_refl).
  - rewrite Z.eqb_refl. cbn [negb andb]. exists 0. eexists. split; [done|]. left. splits; [done| |done].
    exists V1, V2. splits; [done|done|]. apply Hgood; [done|]. apply last_None in Eu as ->. done.
Qed.

Lemma remove_vma_loop_rep fuel k P R mm V1 V2 v V3 :
  mm_rep k P R mm (V1 ++ V2 ++ v :: V3) -> (length V2 < fuel)%nat ->
  exists k', remove_vma_loop fuel k (link mm V1) (vptr v) = Some (0, k') /\
    mm_rep k' P (<[vptr v := vma_cache]> R) mm (V1 ++ V2 ++ V3) /\ mm_frame k k' P R mm /\
    R !! vptr v = None /\ vptr v <> mm.
Proof.
  revert V1 V2. induction fuel as [|fuel IH]; intros V1 V2 HR Hf; [lia|]. cbn [remove_vma_loop].
  rewrite (rep_link_rd _ _ _ _ _ _ HR). destruct V2 as [|w V2]; cbn [app vhead] in *.
  - destruct (rep_elem _ _ _ _ _ _ _ HR) as (Hz & _).
    rewrite (proj2 (Z.eqb_neq _ _)), Z.eqb_refl by done.
    destruct (rep_unlink k P R mm V1 v V3 HR) as (HR1 & Hf1 & Hn & Hm & _).
    eexists. split; [done|].
    destruct (rep_wr_rest _ P _ mm _ (vptr v) vma_cache VM_next 0 HR1) as [HR2 Hf2].
    + apply lookup_insert_eq.
    + rewrite (rep_vma_size HR1). by vm_compute.
    + by left.
    + splits; try done. rewrite delete_insert_id in Hf2 by done. by eapply mm_frame_trans.
  - assert (Hne : vptr w <> vptr v).
    { apply (nodup_middle (V1 ++ w :: V2) v V3); [|set_solver].
      assert (Hnd := rep_nodup HR). by rewrite <- app_assoc. }
    destruct (rep_elem _ _ _ _ _ _ _ HR) as (Hz & _).
    rewrite !(proj2 (Z.eqb_neq _ _)) by done. rewrite <- (link_snoc mm V1 w).
    destruct (IH (V1 ++ [w]) V2) as (k' & E & HR' & H); [by rewrite <- app_assoc|cbn in Hf; lia|].
    exists k'. rewrite <- app_assoc in HR'. destruct H as (? & ? & ?). splits; done.
Qed.

Lemma remove_vma_rep k P R mm V1 v V2 :
  mm_rep k P R mm (V1 ++ v :: V2) ->
  exists k', remove_vma k mm (vptr v) = Some (0, k') /\
    mm_rep k' P (<[vptr v := vma_cache]> R) mm (V1 ++ V2) /\ mm_frame k k' P R mm /\
    R !! vptr v = None /\ vptr v <> mm.
Proof.
  intros HR. apply (remove_vma_loop_rep (vma_fuel k) k P R mm [] V1 v V2 HR).
  pose proof (rep_length HR) as Hl. rewrite length_app in Hl. lia.
Qed.

(** [remove_vma] followed by the release of the object. *)
Lemma discard_rep k P R mm V1 v V2 :
  mm_rep k P R mm (V1 ++ v :: V2) ->
  exists k1 k2, remove_vma k mm (vptr v) = Some (0, k1) /\
    kmem_cache_free k1 vma_cache (vptr v) = Some k2 /\
    mm_rep k2 P R mm (V1 ++ V2) /\ mm_frame k k2 P R mm.
Proof.
  intros HR. destruct (remove_vma_rep _ _ _ _ _ _ _ HR) as (k1 & E1 & HR1 & Hf1 & Hn & Hm).
  destruct (vma_free_rep _ _ _ _ _ _ HR1 Hn Hm) as (k2 & E2 & HR2 & Hf2).
  exists k1, k2. splits; try done. by eapply mm_frame_trans.
Qed.

Lemma vma_record_rep k P R mm V s e f :
  mm_rep k P R mm V -> sorted 0 (areas V) -> mm <> 0 -> 0 <= s ->
  exists r k', vma_record k mm s e f = Some (r, k') /\ mm_frame k k' P R mm /\
    ((r = 0 /\ s < e /\ exists V1 V2 n, V = V1 ++ V2 /\
        mm_rep k' P R mm (V1 ++ mkVma n s e f :: V2) /\ sorted 0 (areas (V1 ++ mkVma n s e f :: V2))) \/
     (r = - EINVAL /\ mm_rep k' P R mm V /\ (e <= s \/ overlaps V s e)) \/
     (r = - ENOMEM /\ k' = k /\ no_block k 0)).
Proof.
  intros HR HS Hm Hs. unfold vma_record. rewrite (proj2 (Z.eqb_neq mm 0)) by done. cbn [orb].
  case Z.leb_spec; intros Hse.
  { exists (- EINVAL), k. splits; [done|apply mm_frame_refl|]. right. left. splits; try done. by left. }
  destruct (vma_alloc_rep k P R mm V s e f HR) as
    [[E Hnb]|(n & k1 & E & Hn & HRn & Hnm & HnV & HR1 & Hc & _ & Hf1)]; rewrite E; cbn [mbind option_bind].
  { exists (- ENOMEM), k. splits; [done|apply mm_frame_refl|]. by right; right. }
  rewrite (proj2 (Z.eqb_neq n 0)) by done.
  destruct (insert_vma_rep k1 P R mm V (mkVma n s e f) HR1 HS Hs HRn Hnm Hn Hc)
    as (r & k2 & E2 & [(-> & (V1 & V2 & -> & HR2 & HS2) & Hf2)|(-> & -> & Hov)]); cbn [vptr] in E2;
    rewrite E2; cbn [mbind option_bind].
  - cbn. exists 0, k2. splits; [done|by eapply mm_frame_trans|]. left. splits; try done. by exists V1, V2, n.
  - change (- EINVAL <? 0) with true. cbn.
    destruct (vma_free_rep _ _ _ _ _ _ HR1 HRn Hnm) as (k3 & E3 & HR3 & Hf3). rewrite E3. cbn.
    exists (- EINVAL), k3. splits; [done|by eapply mm_frame_trans|]. by right; left.
Qed.

Lemma free_all_loop_rep fuel k P R mm V :
  mm_rep k P R mm V -> (length V < fuel)%nat ->
  exists k', free_all_loop fuel k mm = Some k' /\ mm_rep k' P R mm [] /\ mm_frame k k' P R mm.
Proof.
  revert k V. induction fuel as [|fuel IH]; intros k V HR Hf; [lia|]. cbn [free_all_loop].
  rewrite (rep_head _ _ _ _ _ HR). destruct V as [|v V]; cbn [vhead].
  { exists k. splits; [done|done|apply mm_frame_refl]. }
  destruct (rep_elem _ _ _ _ [] _ _ HR) as (Hz & _). rewrite (proj2 (Z.eqb_neq _ _)) by done.
  destruct (rep_unlink k P R mm [] v V HR) as (HR1 & Hf1 & Hn & Hm & _).
  change (link mm []) with (mm + MM_mmap) in HR1, Hf1.
  destruct (vma_free_rep _ _ _ _ _ _ HR1 Hn Hm) as (k2 & E2 & HR2 & Hf2). rewrite E2.
  cbn [mbind option_bind].
  destruct (IH k2 V HR2 ltac:(cbn in Hf; lia)) as (k' & E & HR' & Hf').
  exists k'. splits; try done. mm_chain.
Qed.

Lemma free_all_vmas_rep k P R mm V :
  mm_rep k P R mm V -> mm <> 0 ->
  exists k', free_all_vmas k mm = Some k' /\ mm_rep k' P R mm [] /\ mm_frame k k' P R mm.
Proof.
  intros HR Hm. unfold free_all_vmas. rewrite (proj2 (Z.eqb_neq mm 0)) by done.
  eapply free_all_loop_rep; [done|]. apply (rep_length HR).
Qed.

(** The code that splits an area: a new area [[ts, vend)] after [v], which is
    cut to end at [ne]. *)
Lemma split_rep k P R mm V1 v V2 ts ne :
  mm_rep k P R mm (V1 ++ v :: V2) ->
  (vma_alloc k ts (vend v) (vflags v) = Some (0, k) /\ no_block k 0) \/
  exists n k1, vma_alloc k ts (vend v) (vflags v) = Some (n, k1) /\ n <> 0 /\
    let k2 := wr k1 (vptr v + VM_end) ne in
    let k3 := wr k2 (n + VM_next) (rd k2 (vptr v + VM_next)) in
    let k4 := wr k3 (vptr v + VM_next) n in
    mm_rep k4 P R mm (V1 ++ mkVma (vptr v) (vstart v) ne (vflags v) ::
                            mkVma n ts (vend v) (vflags v) :: V2) /\
    mm_frame k k4 P R mm.
Proof.
  intros HR. destruct (vma_alloc_rep k P R mm _ ts (vend v) (vflags v) HR) as
    [E|(n & k1 & E & Hn & HRn & Hnm & HnV & HR1 & Hc & _ & Hf1)]; [by left|right].
  exists n, k1. splits; [done|done|]. cbv zeta. set (v' := mkVma (vptr v) (vstart v) ne (vflags v)).
  set (k2 := wr k1 (vptr v + VM_end) ne).
  destruct (rep_elem _ _ _ _ _ _ _ HR1) as (Hz & C1 & C2 & C3).
  assert (Hv' : vcells k2 v').
  { unfold vcells, k2, v', VM_start, VM_end, VM_flags in *. cbn [vptr vstart vend vflags].
    splits; [by rewrite rd_wr_ne by lia|apply rd_wr_eq|by rewrite rd_wr_ne by lia]. }
  destruct (rep_set_field k1 P _ mm V1 v V2 v' VM_end ne HR1 ltac:(by vm_compute) eq_refl Hv')
    as [HR2 Hf2]. fold k2 in HR2, Hf2.
  set (vn := mkVma n ts (vend v) (vflags v)).
  assert (Hcn : vcells k2 vn).
  { destruct Hc as (N1 & N2 & N3). cbn [vptr] in *.
    assert (Hnv : vptr v <> n).
    { intros <-. apply HnV. apply list_elem_of_fmap_2. set_solver. }
    assert (Hap : forall d, 0 <= d < 32 -> rd k2 (n + d) = rd k1 (n + d)).
    { intros d Hd. apply rd_wr_ne.
      apply (fields_apart k1 P _ (vptr v) vma_cache n vma_cache _ _ (mr_inv _ _ _ _ _ HR1));
        [apply rep_own; set_solver|apply (rep_rest HR1), lookup_insert_eq
        |rewrite (rep_vma_size HR1); by vm_compute|by rewrite (rep_vma_size HR1)|by left]. }
    unfold vcells, vn. cbn [vptr]. by rewrite !Hap by (by vm_compute). }
  assert (HR2' : mm_rep k2 P (<[vptr vn := vma_cache]> R) mm ((V1 ++ [v']) ++ V2)) by (by rewrite <- app_assoc).
  destruct (rep_insert k2 P R mm (V1 ++ [v']) V2 vn HR2' HRn Hnm Hn Hcn) as [HR3 Hf3].
  rewrite link_snoc in HR3, Hf3. rewrite <- app_assoc in HR3. split; [exact HR3|].
  apply (mm_frame_trans _ k1); [done|].
  apply (mm_frame_trans _ k2); [|done]. eapply mm_frame_sub; [|exact Hf2]. by apply insert_subseteq.
Qed.

Lemma vma_split_rep k P R mm V1 v V2 addr :
  mm_rep k P R mm (V1 ++ v :: V2) ->
  exists r k', vma_split k (vptr v) addr = Some (r, k') /\ mm_frame k k' P R mm /\
    ((r = 0 /\ ~ (vstart v < addr < vend v) /\ k' = k) \/
     (r = 0 /\ vstart v < addr < vend v /\ exists n,
        mm_rep k' P R mm (V1 ++ mkVma (vptr v) (vstart v) addr (vflags v) ::
                               mkVma n addr (vend v) (vflags v) :: V2)) \/
     (r = - ENOMEM /\ k' = k /\ no_block k 0)).
Proof.
  intros HR. destruct (rep_elem _ _ _ _ _ _ _ HR) as (Hz & C1 & C2 & C3). unfold vma_split.
  rewrite C1, C2, C3. rewrite (proj2 (Z.eqb_neq _ _)) by done. cbn [orb].
  case Z.leb_spec; intros H1; cbn [orb].
  { exists 0, k. splits; [done|apply mm_frame_refl|]. left. splits; try done. lia. }
  case Z.leb_spec; intros H2; cbn [orb].
  { exists 0, k. splits; [done|apply mm_frame_refl|]. left. splits; try done. lia. }
  destruct (split_rep k P R mm V1 v V2 addr addr HR) as [[E Hnb]|(n & k1 & E & Hn & HR' & Hf)];
    rewrite E; cbn [mbind option_bind].
  { exists (- ENOMEM), k. splits; [done|apply mm_frame_refl|]. by right; right. }
  rewrite (proj2 (Z.eqb_neq n 0)) by done. exists 0. eexists. splits; [done|exact Hf|].
  right. left. splits; try done. by exists n.
Qed.

Lemma varea_cut s e v : cut s e (varea v) =
  if (vend v <=? s) || (e <=? vstart v) then [varea v]
  else (if vstart v <? s then [mkArea (vstart v) s (vflags v)] else []) ++
       (if e <? vend v then [mkArea e (vend v) (vflags v)] else []).
Proof. done. Qed.

(** The loop of [vma_erase_range] from an area on: it fails only when one
    area strictly contains the range and no area can be allocated. *)
Lemma vma_erase_loop_rep fuel k P R mm V1 V2 s e lo :
  mm_rep k P R mm (V1 ++ V2) -> sorted lo (areas V2) -> s < e -> (length V2 < fuel)%nat ->
  exists r k' V2', vma_erase_loop fuel k mm s e (vhead V2) = Some (r, k') /\
    mm_rep k' P R mm (V1 ++ V2') /\ mm_frame k k' P R mm /\
    ((r = 0 /\ areas V2' = areas V2 ≫= cut s e) \/
     (r = - ENOMEM /\ k' = k /\ V2' = V2 /\ no_block k 0 /\ exists v, v ∈ V2 /\ vstart v < s /\ e < vend v)).
Proof.
  revert k V1 V2 lo. induction fuel as [|fuel IH]; intros k V1 V2 lo HR HS Hse Hf; [lia|].
  cbn [vma_erase_loop]. destruct V2 as [|v V2]; cbn [vhead].
  { exists 0, k, []. splits; [done|done|apply mm_frame_refl|by left]. }
  destruct (rep_elem _ _ _ _ _ _ _ HR) as (Hz & C1 & C2 & C3).
  rewrite (proj2 (Z.eqb_neq _ _)) by done. rewrite C1, C2, C3, (rep_next _ _ _ _ _ _ _ HR).
  cbn in HS. destruct HS as (Hlo & Hlt & HS). cbn in Hf. cbn [areas fmap list_fmap].
  (* the rest of the list, after [v] became [W] *)
  assert (Hstep : forall k1 W, mm_rep k1 P R mm (V1 ++ W ++ V2) -> mm_frame k k1 P R mm ->
    areas W = cut s e (varea v) -> ((W = [v] /\ k1 = k) \/ s < vend v) ->
    exists r k' V2', vma_erase_loop fuel k1 mm s e (vhead V2) = Some (r, k') /\
      mm_rep k' P R mm (V1 ++ V2') /\ mm_frame k k' P R mm /\
      ((r = 0 /\ areas V2' = areas (v :: V2) ≫= cut s e) \/
       (r = - ENOMEM /\ k' = k /\ V2' = v :: V2 /\ no_block k 0 /\
          exists u, u ∈ v :: V2 /\ vstart u < s /\ e < vend u))).
  { intros k1 W HR1 Hf1 HW Hc.
    destruct (IH k1 (V1 ++ W) V2 _ ltac:(by rewrite <- app_assoc) HS Hse ltac:(lia))
      as (r & k' & V2' & E & HR' & Hf' & Hr).
    exists r, k', (W ++ V2'). rewrite <- app_assoc in HR'. splits; [done|done|by eapply mm_frame_trans|].
    destruct Hr as [[-> Ha]|(-> & -> & -> & Hnb & u & Hu & Hus & Hue)].
    - left. split; [done|]. rewrite areas_app, Ha, HW. done.
    - right. destruct Hc as [[-> ->]|Hsv].
      + splits; try done. exists u. set_solver.
      + exfalso. destruct (sorted_elem _ _ (varea u) HS (areas_elem _ _ Hu)) as [Hge _]. cbn in Hge. lia. }
  rewrite varea_cut in Hstep.
  destruct ((vend v <=? s) || (e <=? vstart v)) eqn:E1; [by apply (Hstep k [v]); try apply mm_frame_refl; auto|].
  apply orb_false_iff in E1 as [E1%Z.leb_gt E2%Z.leb_gt].
  destruct (decide (s <= vstart v)) as [Hc1|Hc1], (decide (vend v <= e)) as [Hc2|Hc2]; zdec.
  - destruct (discard_rep _ _ _ _ _ _ _ HR) as (k1 & k2 & E3 & E4 & HR2 & Hf2).
    rewrite E3. cbn [mbind option_bind]. rewrite E4. cbn [mbind option_bind].
    apply (Hstep k2 []); try done; [zdec; done|by right].
  - set (v' := mkVma (vptr v) e (vend v) (vflags v)).
    destruct (rep_set_field k P R mm V1 v V2 v' VM_start e HR) as [HR' Hf']; try done.
    { unfold vcells, v', VM_start, VM_end, VM_flags in *. cbn [vptr vstart vend vflags].
      splits; [apply rd_wr_eq|by rewrite rd_wr_ne by lia..]. }
    apply (Hstep _ [v']); try done; [zdec; done|by right].
  - set (v' := mkVma (vptr v) (vstart v) s (vflags v)).
    destruct (rep_set_field k P R mm V1 v V2 v' VM_end s HR) as [HR' Hf']; try done.
    { unfold vcells, v', VM_start, VM_end, VM_flags in *. cbn [vptr vstart vend vflags].
      splits; [by rewrite rd_wr_ne by lia|apply rd_wr_eq|by rewrite rd_wr_ne by lia]. }
    apply (Hstep _ [v']); try done; [zdec; done|by right].
  - destruct (split_rep k P R mm V1 v V2 e s HR) as [[E Hnb]|(n & k1 & E & Hn & HR' & Hf')];
      rewrite E; cbn [mbind option_bind].
    { exists (- ENOMEM), k, (v :: V2). splits; [done|done|apply mm_frame_refl|]. right. splits; try done.
      exists v. splits; [set_solver|lia|lia]. }
    rewrite (proj2 (Z.eqb_neq n 0)) by done.
    eapply (Hstep _ [_; _]); [exact HR'|exact Hf'| |by right]. zdec. done.
Qed.

Lemma vma_erase_range_rep k P R mm V s e :
  mm_rep k P R mm V -> sorted 0 (areas V) -> s < e ->
  exists r k' V', vma_erase_range k mm s e = Some (r, k') /\
    mm_rep k' P R mm V' /\ mm_frame k k' P R mm /\
    ((r = 0 /\ areas V' = areas V ≫= cut s e) \/
     (r = - ENOMEM /\ k' = k /\ V' = V /\ no_block k 0 /\ exists v, v ∈ V /\ vstart v < s /\ e < vend v)).
Proof.
  intros HR HS Hse. unfold vma_erase_range. rewrite (rep_head _ _ _ _ _ HR).
  destruct (vma_erase_loop_rep (vma_fuel k) k P R mm [] V s e 0 HR HS Hse (rep_length HR))
    as (r & k' & V' & E & HR' & Hf & Hr).
  by exists r, k', V'.
Qed.

(** ** Searching *)

(** Bound on the ends of user areas, and on requested lengths, under which
    the arithmetic of the search does not wrap. *)
Definition USER_MAX : Z := 2 ^ 48.

Definition bounded (V : list vma) : Prop := forall v, v ∈ V -> vend v <= USER_MAX.

Definition free_range (V : list vma) (s e : Z) : Prop :=
  forall a, s <= a < e -> flags_at (areas V) a = None.

Definition stack_limit_of (k : slub) (mm : Z) : Z :=
  let stack_top := rd k (mm + MM_stack_top) in
  if negb (stack_top =? 0) then u64 (stack_top - USER_STACK_SIZE) else USER_STACK_BOTTOM.

(** From [last] on, with the areas before ending below it. *)
Lemma unmapped_loop_rep fuel k P R mm V1 V2 last len limit lo :
  mm_rep k P R mm (V1 ++ V2) -> sorted lo (areas V2) -> bounded (V1 ++ V2) ->
  (length V2 < fuel)%nat -> 0 < last <= USER_MAX -> (PAGE_SIZE | last) -> 0 < len <= USER_MAX ->
  exists r, unmapped_loop fuel k (vhead V2) last len limit = Some r /\
    (r <> 0 -> last <= r <= USER_MAX /\ (PAGE_SIZE | r) /\ r + len <= limit /\
       forall v, v ∈ V2 -> vend v <= r \/ r + len <= vstart v) /\
    (r = 0 -> forall x, (PAGE_SIZE | x) -> last <= x -> x + len <= limit ->
       (forall v, v ∈ V2 -> vend v <= x \/ x + len <= vstart v) -> False).
Proof.
  intros HR HS Hb Hf Hl Hal Hlen. revert V1 V2 last lo HR HS Hb Hf Hl Hal.
  induction fuel as [|fuel IH]; intros V1 V2 last lo HR HS Hb Hf Hl Hal; [lia|].
  cbn [unmapped_loop]. unfold USER_MAX in *. rewrite (wrapu_id 64 (last + len)) by lia.
  destruct V2 as [|v V2]; cbn [vhead].
  - cbn. case Z.leb_spec; intros Hle; eexists; (split; [done|]); split; intros.
    + splits; try done; try lia. intros v Hv. by apply not_elem_of_nil in Hv.
    + lia.
    + done.
    + lia.
  - destruct (rep_elem _ _ _ _ _ _ _ HR) as (Hz & C1 & C2 & C3).
    rewrite (proj2 (Z.eqb_neq _ _)) by done. rewrite C1, C2, (rep_next _ _ _ _ _ _ _ HR).
    cbn in HS. destruct HS as (Hlo & Hlt & HS). cbn in Hf.
    assert (Hafter : forall w, w ∈ V2 -> vend v <= vstart w /\ vstart w < vend w).
    { intros w Hw. by destruct (sorted_elem _ _ (varea w) HS (areas_elem _ _ Hw)). }
    destruct ((last + len <=? vstart v) && (last + len <=? limit)) eqn:Eb.
    { apply andb_true_iff in Eb as [E1%Z.leb_le E2%Z.leb_le]. exists last. split; [done|].
      split; [|lia]. intros _. splits; try done; try lia.
      intros w [->|Hw]%elem_of_cons; [lia|]. destruct (Hafter w Hw). lia. }
    assert (Hve : vend v <= 2 ^ 48) by (apply Hb; set_solver).
    set (last' := if last <? vend v then page_align (vend v) else last).
    assert (Hlast' : 0 < last' <= 2 ^ 48 /\ (PAGE_SIZE | last') /\ last <= last' /\ vend v <= last' /\
      (forall x, (PAGE_SIZE | x) -> last <= x -> vend v <= x -> last' <= x)).
    { unfold last'. case Z.ltb_spec; intros Hlv; [|splits; try done; lia].
      destruct (page_align_spec (vend v)) as [Hd Hr]; [unfold PAGE_SIZE; lia|].
      assert (H48 : (PAGE_SIZE | 2 ^ 48)) by (by exists (2 ^ 36)).
      assert (Hmin : forall x, (PAGE_SIZE | x) -> vend v <= x -> page_align (vend v) <= x).
      { intros x [m ->] Hx. destruct Hd as [j Ej]. rewrite Ej in *. unfold PAGE_SIZE in *. lia. }
      splits; try done; try lia; [by apply Hmin|]. intros x Hx _ Hvx. by apply Hmin. }
    destruct Hlast' as (Hl' & Hal' & Hge & Hgv & Hmin).
    destruct (IH (V1 ++ [v]) V2 last' (vend v)) as (r & E & Hsound & Hcompl); try done; try lia;
      [by rewrite <- app_assoc|by rewrite <- app_assoc|].
    exists r. split; [done|]. split.
    + intros Hr. destruct (Hsound Hr) as (H1 & H2 & H3 & H4). splits; try done; try lia.
      intros w [->|Hw]%elem_of_cons; [lia|by apply H4].
    + intros Hr x Hx Hlx Hlim Hall. destruct (Hall v ltac:(set_solver)) as [Hv|Hv].
      * apply (Hcompl Hr x); try done; [by apply Hmin|]. intros w Hw. apply Hall. set_solver.
      * apply andb_false_iff in Eb as [Eb%Z.leb_gt|Eb%Z.leb_gt]; lia.
Qed.

Lemma free_range_iff V s e lo :
  sorted lo (areas V) -> s < e ->
  free_range V s e <-> forall v, v ∈ V -> vend v <= s \/ e <= vstart v.
Proof.
  intros HS Hse. split.
  - intros Hfr v Hv. destruct (sorted_elem _ _ (varea v) HS (areas_elem _ _ Hv)) as [_ Hlt].
    cbn in Hlt. destruct (decide (vend v <= s)); [by left|]. destruct (decide (e <= vstart v)); [by right|].
    exfalso. assert (Hn := Hfr (Z.max s (vstart v)) ltac:(lia)).
    apply (flags_at_none lo _ _ HS) with (x := varea v) in Hn; [|by apply areas_elem].
    apply Hn. unfold holds. cbn. lia.
  - intros Hall a Ha. apply (flags_at_none lo _ _ HS). intros x (v & -> & Hv)%list_elem_of_fmap.
    unfold holds. cbn. specialize (Hall v Hv). lia.
Qed.

Lemma find_unmapped_area_rep k P R mm V len :
  mm_rep k P R mm V -> sorted 0 (areas V) -> bounded V -> 0 < len <= USER_MAX ->
  0 < rd k (mm + MM_mmap_base) <= USER_MAX ->
  let base := page_align (rd k (mm + MM_mmap_base)) in
  let limit := stack_limit_of k mm in
  exists r, find_unmapped_area k mm len = Some r /\
    (r <> 0 -> base <= r <= USER_MAX /\ (PAGE_SIZE | r) /\ r + len <= limit /\ free_range V r (r + len)) /\
    (r = 0 -> forall x, (PAGE_SIZE | x) -> base <= x -> x + len <= limit -> ~ free_range V x (x + len)).
Proof.
  intros HR HS Hb Hlen Hbase base limit. unfold find_unmapped_area. rewrite (rep_head _ _ _ _ _ HR).
  destruct (page_align_spec (rd k (mm + MM_mmap_base))) as [Hd Hr];
    [unfold USER_MAX, PAGE_SIZE in *; lia|]. fold base in Hd, Hr.
  assert (Hbm : base <= USER_MAX).
  { destruct Hd as [m Hm]. unfold USER_MAX, PAGE_SIZE in *. lia. }
  destruct (unmapped_loop_rep (vma_fuel k) k P R mm [] V base len limit 0) as (r & E & H1 & H2);
    try done; [apply (rep_length HR)|lia|].
  exists r. split; [exact E|]. split.
  - intros Hr0. destruct (H1 Hr0) as (? & ? & ? & ?). splits; try done; try lia.
    apply (free_range_iff V _ _ 0); [done|lia|done].
  - intros Hr0 x Hx Hbx Hlx Hfr. apply (H2 Hr0 x Hx Hbx Hlx).
    by apply (free_range_iff V x (x + len) 0 HS ltac:(lia)).
Qed.

(** For any length, also one with which the sums wrap around, the search ends
    and looks at the sums it computes. *)
Lemma unmapped_loop_any fuel k P R mm V1 V2 last len limit :
  mm_rep k P R mm (V1 ++ V2) -> bounded (V1 ++ V2) -> (length V2 < fuel)%nat -> 0 < last <= USER_MAX ->
  exists r, unmapped_loop fuel k (vhead V2) last len limit = Some r /\ (r <> 0 -> 0 < r <= USER_MAX /\ u64 (r + len) <= limit).
Proof.
  revert V1 V2 last. induction fuel as [|fuel IH]; intros V1 V2 last HR Hb Hf Hl; [lia|]. cbn [unmapped_loop].
  destruct V2 as [|v V2]; cbn [vhead].
  - cbn. case Z.leb_spec; intros Hle; eexists; (split; [done|]); [|done]. by intros _.
  - destruct (rep_elem _ _ _ _ _ _ _ HR) as (Hz & C1 & C2 & C3).
    rewrite (proj2 (Z.eqb_neq _ _)) by done. rewrite C1, C2, (rep_next _ _ _ _ _ _ _ HR).
    case andb eqn:Eb; [apply andb_true_iff in Eb as [_ E2%Z.leb_le]; exists last; split; [done|]; by intros _|].
    assert (Hve : vend v <= USER_MAX) by (apply Hb; set_solver). cbn in Hf.
    apply (IH (V1 ++ [v])); try lia; [by rewrite <- app_assoc|by rewrite <- app_assoc|].
    case Z.ltb_spec; intros Hlv; [|done]. destruct (page_align_spec (vend v)) as [[m Em] Hr]; [unfold USER_MAX, PAGE_SIZE in *; lia|].
    unfold USER_MAX, PAGE_SIZE in *. lia.
Qed.

Lemma find_unmapped_area_any k P R mm V len :
  mm_rep k P R mm V -> bounded V -> 0 < rd k (mm + MM_mmap_base) <= USER_MAX ->
  exists r, find_unmapped_area k mm len = Some r /\ (r <> 0 -> 0 < r <= USER_MAX /\ u64 (r + len) <= stack_limit_of k mm).
Proof.
  intros HR Hb Hbase. unfold find_unmapped_area. rewrite (rep_head _ _ _ _ _ HR).
  destruct (page_align_spec (rd k (mm + MM_mmap_base))) as [[m Em] Hr]; [unfold USER_MAX, PAGE_SIZE in *; lia|].
  apply (unmapped_loop_any (vma_fuel k) k P R mm [] V); [done|done|apply (rep_length HR)|]. unfold USER_MAX, PAGE_SIZE in *. lia.
Qed.

Fixpoint find_start (s : Z) (V : list vma) : option vma :=
  match V with [] => None | v :: V' => if vstart v =? s then Some v else find_start s V' end.

Lemma find_start_split s V v :
  find_start s V = Some v -> exists V1 V2, V = V1 ++ v :: V2 /\ vstart v = s.
Proof.
  induction V as [|w V IH]; [done|]. cbn. case Z.eqb_spec; intros Hs.
  - intros [= ->]. by exists [], V.
  - intros (V1 & V2 & -> & H)%IH. by exists (w :: V1), V2.
Qed.

Lemma find_start_none s V : find_start s V = None -> forall v, v ∈ V -> vstart v <> s.
Proof.
  induction V as [|w V IH]; intros Hn v Hv; [by apply not_elem_of_nil in Hv|].
  cbn in Hn. revert Hn. case Z.eqb_spec; [done|]. intros Hs Hn.
  apply elem_of_cons in Hv as [->|Hv]; [done|by apply IH].
Qed.

Lemma find_heap_loop_rep fuel k P R mm V1 V2 :
  mm_rep k P R mm (V1 ++ V2) -> (length V2 < fuel)%nat ->
  find_heap_loop fuel k mm (vhead V2) =
    Some (default 0 (vptr <$> find_start (rd k (mm + MM_start_brk)) V2)).
Proof.
  revert V1 V2. induction fuel as [|fuel IH]; intros V1 V2 HR Hf; [lia|]. cbn [find_heap_loop].
  destruct V2 as [|v V2]; [done|]. destruct (rep_elem _ _ _ _ _ _ _ HR) as (Hz & Hs & _).
  cbn [vhead find_start]. rewrite (proj2 (Z.eqb_neq _ _)) by done. rewrite Hs.
  case Z.eqb_spec; intros Ha; [done|]. rewrite (rep_next _ _ _ _ _ _ _ HR).
  apply (IH (V1 ++ [v])); [by rewrite <- app_assoc|cbn in Hf; lia].
Qed.

Lemma find_heap_vma_rep k P R mm V :
  mm_rep k P R mm V ->
  find_heap_vma k mm = Some (default 0 (vptr <$> find_start (rd k (mm + MM_start_brk)) V)).
Proof.
  intros HR. unfold find_heap_vma. rewrite (rep_head _ _ _ _ _ HR).
  apply (find_heap_loop_rep _ k P R mm [] V); [done|]. apply (rep_length HR).
Qed.

(** [find_vma] and the map of the address space. *)
Lemma find_above_flags V a lo :
  sorted lo (areas V) ->
  flags_at (areas V) a = v ← find_above a V; if vstart v <=? a then Some (vflags v) else None.
Proof. intros _. unfold flags_at. rewrite <- find_above_area. by destruct (find_above a V). Qed.

Lemma mprotect_covered_loop_rep fuel k P R mm V va e :
  mm_rep k P R mm V -> sorted 0 (areas V) ->
  (length (filter (fun v => (va < vend v)%Z) V) < fuel)%nat ->
  exists b, mprotect_covered_loop fuel k mm va e = Some b /\
    (b = true <-> forall a, va <= a < e -> is_Some (flags_at (areas V) a)).
Proof.
  intros HR HS. revert va. induction fuel as [|fuel IH]; intros va Hf; [lia|].
  cbn [mprotect_covered_loop]. case Z.ltb_spec; intros Hlt.
  2:{ exists true. split; [done|]. split; [|done]. intros _ a Ha. lia. }
  rewrite (find_vma_rep _ _ _ _ _ _ HR). cbn [mbind option_bind].
  destruct (find_above va V) as [v|] eqn:Ev.
  - change (default 0 (vptr <$> Some v)) with (vptr v).
    destruct (find_above_split _ _ _ Ev) as (V1 & V2 & EV & Hve & Hbefore).
    assert (HR' := HR). rewrite EV in HR'. destruct (rep_elem _ _ _ _ _ _ _ HR') as (Hz & C1 & C2 & _).
    rewrite (proj2 (Z.eqb_neq _ _)) by done. rewrite C1, C2. cbn [orb].
    case Z.ltb_spec; intros Hs.
    + exists false. split; [done|]. split; [done|]. intros Hall.
      destruct (Hall va ltac:(lia)) as [f Hfl]. rewrite (find_above_flags _ _ 0 HS), Ev in Hfl. cbn in Hfl.
      by rewrite (proj2 (Z.leb_gt _ _)) in Hfl by lia.
    + destruct (IH (vend v)) as (b & Eb & Hb).
      { eapply Nat.lt_le_trans; [|apply Nat.lt_succ_r, Hf].
        rewrite EV, !filter_app, !filter_cons. rewrite decide_False by lia. rewrite decide_True by lia.
        rewrite !length_app. cbn [length].
        assert (Hle : forall W, (length (filter (fun w => (vend v < vend w)%Z) W) <=
          length (filter (fun w => (va < vend w)%Z) W))%nat).
        { intros W. induction W as [|w W IHW]; [done|]. rewrite !filter_cons.
          repeat case_decide; cbn [length]; lia. }
        pose proof (Hle V1). pose proof (Hle V2). lia. }
      exists b. split; [done|]. rewrite Hb. split; intros Hall a Ha.
      * destruct (decide (vend v <= a)); [apply Hall; lia|]. exists (vflags v).
        apply (flags_at_iff 0 _ _ _ HS). exists (varea v).
        splits; [apply areas_elem; rewrite EV; set_solver|unfold holds; cbn; lia|done].
      * apply Hall. lia.
  - exists false. split; [done|]. split; [done|]. intros Hall.
    destruct (Hall va ltac:(lia)) as [f Hfl]. rewrite (find_above_flags _ _ 0 HS), Ev in Hfl. done.
Qed.

Lemma mprotect_covered_rep k P R mm V s e :
  mm_rep k P R mm V -> sorted 0 (areas V) ->
  exists b, mprotect_covered k mm s e = Some b /\
    (b = true <-> forall a, s <= a < e -> is_Some (flags_at (areas V) a)).
Proof.
  intros HR HS. eapply mprotect_covered_loop_rep; [done|done|].
  eapply Nat.le_lt_trans; [apply length_filter|]. apply (rep_length HR).
Qed.

(** ** Copying and freeing a list *)

(** A chain of areas not attached to an address space. *)
Definition chain (k : slub) (h : Z) (W : list vma) : Prop :=
  vseg k h W /\ forall w, w ∈ W -> vcells k w.

Lemma chain_head k h W : chain k h W -> h = vhead W.
Proof. intros [Hs _]. destruct W as [|w W]; [done|]. by destruct Hs as (-> & _). Qed.

Lemma chain_nodup k h W : chain k h W -> NoDup (vptr <$> W).
Proof. intros [Hs _]. by eapply (@lseg_NoDup _ vlinks). Qed.

(** Storing a new area in the last link of a chain. *)
Lemma chain_append k k' h W w vn :
  chain k h (W ++ [w]) -> vptr vn <> 0 ->
  (forall a, a <> vptr w + VM_next -> rd k' a = rd k a) ->
  rd k' (vptr vn + VM_next) = 0 -> rd k' (vptr w + VM_next) = vptr vn ->
  NoDup (vptr <$> W ++ [w]) ->
  vseg k' h ((W ++ [w]) ++ [vn]).
Proof.
  intros [Hs _] Hn Hm Hz Hw Hnd. unfold vseg in *. revert h Hs.
  induction W as [|u W IH]; intros h Hs.
  - cbn in *. destruct Hs as (-> & ? & _). splits; try done.
  - cbn [app fmap list_fmap lseg] in *. apply NoDup_cons in Hnd as [Hu Hnd].
    destruct Hs as (-> & ? & Hs). splits; try done. cbn [sget vlinks] in *.
    rewrite Hm; [by apply IH|]. intros E. apply Hu. replace (vptr u) with (vptr w) by lia.
    apply list_elem_of_fmap_2. set_solver.
Qed.

(** Copies live beside the address space. *)
Record beside (k : slub) (P R : gmap Z Z) (mm : Z) (V : list vma) (h : Z) (W : list vma) : Prop := {
  bs_rep : mm_rep k P (vobjs W ∪ R) mm V;
  bs_chain : chain k h W;
  bs_disj : vobjs W ##ₘ R;
  bs_mm : is_Some (R !! mm)
}.

Lemma chain_frame k k' h W :
  (forall w d, w ∈ W -> 0 <= d < 32 -> rd k' (vptr w + d) = rd k (vptr w + d)) ->
  chain k h W -> chain k' h W.
Proof.
  intros Hm [Hs Hc]. split.
  - apply (@lseg_frame _ vlinks k); [|done]. intros x (w & -> & Hw)%list_elem_of_fmap.
    cbn. apply Hm; [done|by vm_compute].
  - intros w Hw. destruct (Hc w Hw) as (C1 & C2 & C3). unfold vcells.
    by rewrite !Hm by (done || by vm_compute).
Qed.

Lemma beside_own k P R mm V h W w :
  beside k P R mm V h W -> w ∈ W -> (vobjs W ∪ R) !! vptr w = Some vma_cache /\ vptr w <> mm.
Proof.
  intros HB Hw. assert (Hx : vobjs W !! vptr w = Some vma_cache).
  { apply vobjs_lookup. split; [done|by apply list_elem_of_fmap_2]. }
  split; [by apply lookup_union_Some_l|]. intros E.
  destruct (bs_mm _ _ _ _ _ _ _ HB) as [c Hc]. rewrite <- E in Hc.
  by apply (proj1 (map_disjoint_spec _ _) (bs_disj _ _ _ _ _ _ _ HB) _ _ _ Hx Hc).
Qed.

(** A frame that covers [R] and the copies. *)
Lemma beside_mm_frame k k' P R mm V h W :
  beside k P R mm V h W -> mm_frame k k' P (vobjs W ∪ R) mm ->
  mm_frame k k' P R mm /\
  forall w d, w ∈ W -> 0 <= d < 32 -> rd k' (vptr w + d) = rd k (vptr w + d).
Proof.
  intros HB Hf. split.
  - eapply mm_frame_sub; [|exact Hf]. apply map_union_subseteq_r, HB.
  - intros w d Hw Hd. destruct (beside_own _ _ _ _ _ _ _ _ HB Hw) as [Ho Hm].
    assert (Hsz := rep_vma_size (bs_rep _ _ _ _ _ _ _ HB)).
    apply (mf_obj _ _ _ _ _ Hf (vptr w) vma_cache); [done|rewrite Hsz; lia|].
    destruct (mr_mm _ _ _ _ _ (bs_rep _ _ _ _ _ _ _ HB)) as (c & Hc & Hs). unfold SIZEOF_MM in Hs.
    assert (HR := bs_rep _ _ _ _ _ _ _ HB).
    apply (fields_apart k P _ (vptr w) vma_cache mm c _ _ (mr_inv _ _ _ _ _ HR));
      [by apply (rep_rest HR)|by apply (rep_rest HR)|rewrite Hsz; lia|unfold MM_mmap; lia|by left].
Qed.

(** A new area at the end of the copies. *)
Lemma beside_snoc k P R mm V h W s e f :
  beside k P R mm V h W ->
  (vma_alloc k s e f = Some (0, k) /\ no_block k 0) \/
  exists n k1, vma_alloc k s e f = Some (n, k1) /\ n <> 0 /\
    let tail := match last W with Some w => vptr w + VM_next | None => 0 end in
    let k2 := if tail =? 0 then k1 else wr k1 tail n in
    let h2 := if tail =? 0 then n else h in
    beside k2 P R mm V h2 (W ++ [mkVma n s e f]) /\ mm_frame k k2 P R mm.
Proof.
  intros HB. assert (HR := bs_rep _ _ _ _ _ _ _ HB).
  destruct (vma_alloc_rep k P _ mm V s e f HR) as
    [E|(n & k1 & E & Hn & HRn & Hnm & HnV & HR1 & Hc & Hnx & Hf1)]; [by left|right].
  exists n, k1. splits; [done|done|]. cbv zeta.
  destruct (beside_mm_frame _ _ _ _ _ _ _ _ HB Hf1) as [Hf1' Hcells].
  pose proof (proj1 (lookup_union_None _ _ _) HRn) as [HnW HnR]. apply vobjs_none in HnW.
  set (vn := mkVma n s e f) in *.
  assert (Eo : vobjs (W ++ [vn]) ∪ R = <[n := vma_cache]> (vobjs W ∪ R)).
  { rewrite vobjs_middle, app_nil_r. by rewrite insert_union_l. }
  assert (Hdis : vobjs (W ++ [vn]) ##ₘ R).
  { rewrite vobjs_middle, app_nil_r. apply map_disjoint_insert_l_2; [done|apply HB]. }
  assert (Hch1 := chain_frame _ _ _ _ Hcells (bs_chain _ _ _ _ _ _ _ HB)).
  destruct (last W) as [w|] eqn:El.
  - apply last_Some in El as [W' ->].
    assert (Hw : w ∈ W' ++ [w]) by set_solver.
    destruct (beside_own _ _ _ _ _ _ _ _ HB Hw) as [How Hwm].
    assert (Hsz := rep_vma_size HR1).
    assert (Hwn : vptr w <> n).
    { intros <-. apply HnW. by apply list_elem_of_fmap_2. }
    assert (Hpos : vptr w + VM_next <> 0).
    { assert (Hob := slub_obj_range _ _ _ _ _ (mr_inv _ _ _ _ _ HR) (rep_rest HR _ _ How)).
      pose proof (pool_start _ (slub_inv_pool _ _ _ (mr_inv _ _ _ _ _ HR))). unfold VM_next. lia. }
    rewrite !(proj2 (Z.eqb_neq _ _)) by done.
    destruct (rep_wr_rest k1 P _ mm V (vptr w) vma_cache VM_next n HR1) as [HR2 Hf2].
    { by rewrite lookup_insert_ne. } { rewrite Hsz. by vm_compute. } { by left. }
    set (k2 := wr k1 (vptr w + VM_next) n) in *.
    assert (Hother : forall y c d, (vobjs V ∪ <[n := vma_cache]> (vobjs (W' ++ [w]) ∪ R)) !! y = Some c ->
      0 <= d < object_size (cache_of k1 c) -> y <> vptr w \/ d <> VM_next -> rd k2 (y + d) = rd k1 (y + d)).
    { intros y c d Hy Hd Hne. apply rd_wr_ne. apply not_eq_sym.
      apply (fields_apart k1 P _ y c (vptr w) vma_cache _ _ (mr_inv _ _ _ _ _ HR1)); try done.
      - apply (rep_rest HR1). by rewrite lookup_insert_ne.
      - rewrite Hsz. by vm_compute. }
    assert (HoW : forall u, u ∈ W' ++ [w] ->
      (vobjs V ∪ <[n := vma_cache]> (vobjs (W' ++ [w]) ∪ R)) !! vptr u = Some vma_cache).
    { intros u Hu. destruct (beside_own _ _ _ _ _ _ _ _ HB Hu) as [Hou _]. apply (rep_rest HR1).
      rewrite lookup_insert_ne; [done|]. intros Enu. apply HnW. rewrite Enu. by apply list_elem_of_fmap_2. }
    assert (Hon : (vobjs V ∪ <[n := vma_cache]> (vobjs (W' ++ [w]) ∪ R)) !! n = Some vma_cache).
    { apply (rep_rest HR1), lookup_insert_eq. }
    split.
    + split; [by rewrite Eo| |done|apply HB]. split.
      * apply (chain_append k1 k2 h W' w vn); try done.
        -- intros a Ha. apply rd_wr_ne. congruence.
        -- change (vptr vn) with n. rewrite (Hother n vma_cache VM_next Hon); [done| |left; congruence].
           rewrite Hsz. by vm_compute.
        -- apply rd_wr_eq.
        -- by apply (chain_nodup k1 h).
      * intros u Hu. apply elem_of_app in Hu as [Hu| ->%list_elem_of_singleton].
        -- destruct (proj2 Hch1 u Hu) as (C1 & C2 & C3). unfold vcells.
           by rewrite !(Hother _ vma_cache) by
             (by apply HoW || (rewrite Hsz; by vm_compute) || (right; by vm_compute)).
        -- destruct Hc as (C1 & C2 & C3). unfold vcells. change (vptr vn) with n in *.
           by rewrite !(Hother _ vma_cache) by
             (done || (rewrite Hsz; by vm_compute) || (right; by vm_compute)).
    + apply (mm_frame_trans _ k1); [done|]. eapply mm_frame_sub; [|exact Hf2].
      apply map_subseteq_spec. intros x c Hx. rewrite lookup_delete_ne, lookup_insert_ne.
      * apply lookup_union_Some_r; [apply HB|done].
      * congruence.
      * intros <-. assert (HW := proj2 (vobjs_lookup (W' ++ [w]) (vptr w) vma_cache)
          (conj eq_refl (list_elem_of_fmap_2 vptr _ _ Hw))).
        by apply (proj1 (map_disjoint_spec _ _) (bs_disj _ _ _ _ _ _ _ HB) _ _ _ HW Hx).
  - apply last_None in El as ->. cbn [Z.eqb app] in *.
    split; [|done]. split; [by rewrite Eo| |done|apply HB]. split.
    + unfold vseg. cbn. splits; [done|done|]. exact Hnx.
    + intros w ->%list_elem_of_singleton. done.
Qed.

Lemma beside_length k P R mm V h W : beside k P R mm V h W -> (length W < vma_fuel k)%nat.
Proof.
  intros HB. unfold vma_fuel. apply Nat.lt_succ_r. rewrite <- (length_fmap vptr W).
  transitivity (length (seqZ (mem_start (pa k)) (mem_size (pa k)))); [|by rewrite length_seqZ].
  apply submseteq_length, NoDup_submseteq; [by eapply chain_nodup, HB|].
  intros x (w & -> & Hw)%list_elem_of_fmap. apply elem_of_seqZ.
  destruct (beside_own _ _ _ _ _ _ _ _ HB Hw) as [Ho _]. assert (HR := bs_rep _ _ _ _ _ _ _ HB).
  eapply slub_obj_range; [apply HR|]. by apply (rep_rest HR).
Qed.

Lemma free_vma_chain_rep fuel k P R mm V h W :
  beside k P R mm V h W -> (length W < fuel)%nat ->
  exists k', free_vma_chain fuel k h = Some k' /\ mm_rep k' P R mm V /\ mm_frame k k' P R mm.
Proof.
  revert k h W. induction fuel as [|fuel IH]; intros k h W HB Hf; [lia|]. cbn [free_vma_chain].
  assert (HR := bs_rep _ _ _ _ _ _ _ HB). assert (Hch := bs_chain _ _ _ _ _ _ _ HB).
  rewrite (chain_head _ _ _ Hch). destruct W as [|w W]; cbn [vhead].
  { exists k. splits; [done| |apply mm_frame_refl]. unfold vobjs in HR. cbn in HR.
    by rewrite map_empty_union in HR. }
  assert (Hnd := chain_nodup _ _ _ Hch). cbn in Hnd. apply NoDup_cons in Hnd as [HwW _].
  destruct (beside_own _ _ _ _ _ _ _ w HB) as [_ Hwm]; [set_solver|].
  destruct Hch as [(Eh & Hz & Hs) Hc].
  assert (Eo : vobjs (w :: W) ∪ R = <[vptr w := vma_cache]> (vobjs W ∪ R)).
  { rewrite vobjs_cons. by rewrite insert_union_l. }
  rewrite Eo in HR.
  assert (HwR : R !! vptr w = None).
  { eapply map_disjoint_Some_l; [apply (bs_disj _ _ _ _ _ _ _ HB)|].
    rewrite vobjs_cons. apply lookup_insert_eq. }
  assert (Hn : (vobjs W ∪ R) !! vptr w = None).
  { apply lookup_union_None. split; [by apply vobjs_none|done]. }
  rewrite (proj2 (Z.eqb_neq _ _)) by done.
  destruct (vma_free_rep k P _ mm V (vptr w) HR Hn Hwm) as (k1 & E1 & HR1 & Hf1).
  rewrite E1. cbn [mbind option_bind].
  assert (Hdis : vobjs W ##ₘ R).
  { eapply map_disjoint_weaken_l; [apply HB|]. rewrite vobjs_cons. apply insert_subseteq.
    by apply vobjs_none. }
  assert (HB0 : beside k P (<[vptr w := vma_cache]> R) mm V (rd k (vptr w + VM_next)) W).
  { split.
    - by rewrite <- insert_union_r by (by apply vobjs_none).
    - split; [exact Hs|]. intros u Hu. apply Hc. set_solver.
    - apply map_disjoint_insert_r_2; [by apply vobjs_none|done].
    - rewrite lookup_insert_ne by done. apply HB. }
  assert (HB1 : beside k1 P R mm V (rd k (vptr w + VM_next)) W).
  { split; [done| |done|apply HB]. eapply chain_frame; [|apply HB0].
    intros u d Hu Hd. destruct (beside_own _ _ _ _ _ _ _ _ HB0 Hu) as [Hou Hum].
    assert (Hsz := rep_vma_size HR). apply (mf_obj _ _ _ _ _ Hf1 (vptr u) vma_cache).
    - apply lookup_union_Some_l, vobjs_lookup. split; [done|by apply list_elem_of_fmap_2].
    - rewrite Hsz. lia.
    - destruct (mr_mm _ _ _ _ _ HR) as (c & Hcm & Hsm). unfold SIZEOF_MM in Hsm.
      apply (fields_apart k P _ (vptr u) vma_cache mm c _ _ (mr_inv _ _ _ _ _ HR));
        [|by apply (rep_rest HR)|rewrite Hsz; lia|unfold MM_mmap; lia|by left].
      apply (rep_rest HR). rewrite lookup_insert_ne.
      + apply lookup_union_Some_l, vobjs_lookup. split; [done|by apply list_elem_of_fmap_2].
      + intros E. apply HwW. rewrite E. by apply list_elem_of_fmap_2. }
  destruct (IH k1 _ W HB1 ltac:(cbn in Hf; lia)) as (k' & E' & HR' & Hf').
  exists k'. splits; [done|done|]. eapply mm_frame_trans; [|exact Hf'].
  eapply mm_frame_sub; [|exact Hf1]. by apply map_union_subseteq_r.
Qed.

Lemma dup_vma_loop_rep fuel k P R mm V1 V2 h W :
  beside k P R mm (V1 ++ V2) h W -> areas W = areas V1 -> (length V2 < fuel)%nat ->
  let tail := match last W with Some w => vptr w + VM_next | None => 0 end in
  exists h' k', dup_vma_loop fuel k (vhead V2) h tail = Some (h', k') /\ mm_frame k k' P R mm /\
    ((exists W', areas W' = areas (V1 ++ V2) /\ beside k' P R mm (V1 ++ V2) h' W') \/
     (h' = 0 /\ mm_rep k' P R mm (V1 ++ V2) /\ exists k1, mm_frame k k1 P R mm /\ no_block k1 0)).
Proof.
  revert k V1 V2 h W. induction fuel as [|fuel IH]; intros k V1 V2 h W HB HA Hf; [cbn in *; lia|].
  cbv zeta. cbn [dup_vma_loop]. destruct V2 as [|v V2]; cbn [vhead].
  { exists h, k. splits; [done|apply mm_frame_refl|]. left. exists W. rewrite app_nil_r in *. done. }
  assert (HR := bs_rep _ _ _ _ _ _ _ HB). destruct (rep_elem _ _ _ _ _ _ _ HR) as (Hz & C1 & C2 & C3).
  rewrite (proj2 (Z.eqb_neq _ _)) by done. rewrite C1, C2, C3.
  destruct (beside_snoc k P R mm _ h W (vstart v) (vend v) (vflags v) HB)
    as [[E Hnb]|(n & k1 & E & Hn & HB2 & Hf2)]; rewrite E; cbn [mbind option_bind].
  - cbn [Z.eqb]. destruct (free_vma_chain_rep (vma_fuel k) _ _ _ _ _ _ _ HB (beside_length _ _ _ _ _ _ _ HB))
      as (k' & E' & HR' & Hf'). rewrite E'. cbn [mbind option_bind]. exists 0, k'. splits; try done.
    right. splits; try done. exists k. split; [apply mm_frame_refl|done].
  - rewrite (proj2 (Z.eqb_neq n 0)) by done. cbv zeta in HB2, Hf2.
    set (tail := match last W with Some w => vptr w + VM_next | None => 0 end) in *.
    set (k2 := if tail =? 0 then k1 else wr k1 tail n) in *.
    assert (HR2 := bs_rep _ _ _ _ _ _ _ HB2). rewrite (rep_next _ _ _ _ _ _ _ HR2).
    destruct (IH k2 (V1 ++ [v]) V2 (if tail =? 0 then n else h) (W ++ [mkVma n (vstart v) (vend v) (vflags v)]))
      as (h' & k' & E' & Hf' & Hr).
    + by rewrite <- app_assoc.
    + by rewrite !areas_app, HA.
    + cbn in Hf. lia.
    + rewrite last_snoc in E'. cbn [vptr] in E'. exists h', k'. rewrite <- app_assoc in Hr.
      splits; [done|by eapply mm_frame_trans|]. destruct Hr as [Hr|(-> & HR' & k3 & Hk3 & Hnb)]; [by left|right].
      splits; try done. exists k3. split; [by eapply mm_frame_trans|done].
Qed.

Lemma dup_vma_list_rep k P R mm V :
  mm_rep k P R mm V ->
  exists h' k', dup_vma_list k (rd k (mm + MM_mmap)) = Some (h', k') /\ mm_frame k k' P R mm /\
    ((exists W', areas W' = areas V /\ beside k' P R mm V h' W') \/
     (h' = 0 /\ mm_rep k' P R mm V /\ exists k1, mm_frame k k1 P R mm /\ no_block k1 0)).
Proof.
  intros HR. rewrite (rep_head _ _ _ _ _ HR). unfold dup_vma_list.
  apply (dup_vma_loop_rep (vma_fuel k) k P R mm [] V 0 []); [|done|apply (rep_length HR)].
  destruct (mr_mm _ _ _ _ _ HR) as (c & Hc & _). split.
  - unfold vobjs. cbn. by rewrite map_empty_union.
  - split; [done|]. intros w Hw. by apply not_elem_of_nil in Hw.
  - apply map_disjoint_empty_l.
  - by exists c.
Qed.

(** ** Properties *)

(** The address space of [mm]: its list of areas, and the map it stands for. *)
Record mm_space (k : slub) (P R : gmap Z Z) (mm : Z) (V : list vma) : Prop := {
  ms_rep : mm_rep k P R mm V;
  ms_sorted : sorted 0 (areas V)
}.

Definition space_at (V : list vma) (a : Z) : option Z := flags_at (areas V) a.

(** [vma_record] adds exactly the range [[s, e)] with its flags to the
    address space, or changes nothing and reports an empty or overlapping
    range (EINVAL) or that the page allocator is empty (ENOMEM). *)
Theorem vma_record_correct k P R mm V s e f :
  mm_space k P R mm V -> mm <> 0 -> 0 <= s ->
  exists r k' V', vma_record k mm s e f = Some (r, k') /\ mm_space k' P R mm V' /\
    mm_frame k k' P R mm /\
    ((r = 0 /\ s < e /\ ~ overlaps V s e /\
        forall a, space_at V' a = if decide (s <= a < e) then Some f else space_at V a) \/
     (r = - EINVAL /\ V' = V /\ (e <= s \/ overlaps V s e)) \/
     (r = - ENOMEM /\ V' = V /\ k' = k /\ no_block k 0)).
Proof.
  intros [HR HS] Hm Hs. destruct (vma_record_rep k P R mm V s e f HR HS Hm Hs)
    as (r & k' & E & Hf & [(-> & Hse & V1 & V2 & n & -> & HR' & HS')|[(-> & HR' & Hov)|(-> & -> & Hnb)]]).
  - exists 0, k'. eexists. splits; [done|split; [exact HR'|done]|done|]. left.
    rewrite areas_app in HS, HS'. cbn [areas fmap list_fmap] in HS'.
    assert (HI := fun a => insert_flags 0 _ _ _ a HS' HS). splits; try done.
    + intros (a & Ha & Hsome). pose proof (HI a) as Ea. cbn in Ea. rewrite decide_True in Ea by done.
      rewrite areas_app in Hsome. destruct Hsome as [g Hg].
      apply sorted_app in HS' as HS2. destruct HS2 as [H1 (H2 & H3 & H4)]. cbn in H2, H3, H4.
      apply (flags_at_iff 0) in Hg; [|done]. destruct Hg as (x & [Hx|Hx]%elem_of_app & Hh & _); unfold holds in Hh.
      * assert (Hle := sorted_elem_end _ _ _ H1 Hx). lia.
      * destruct (sorted_elem _ _ _ H4 Hx). lia.
    + intros a. unfold space_at. rewrite !areas_app. cbn [areas fmap list_fmap]. rewrite HI. done.
  - exists (- EINVAL), k', V. splits; [done|by split|done|]. by right; left.
  - exists (- ENOMEM), k, V. splits; [done|by split|done|]. by right; right.
Qed.

(** [vma_erase_range] removes exactly [[s, e)] from the address space; it
    fails only when an area has to be split and the page allocator is empty,
    and then nothing has changed. *)
Theorem vma_erase_range_correct k P R mm V s e :
  mm_space k P R mm V -> s < e ->
  exists r k' V', vma_erase_range k mm s e = Some (r, k') /\ mm_space k' P R mm V' /\
    mm_frame k k' P R mm /\
    ((r = 0 /\ forall a, space_at V' a = if decide (s <= a < e) then None else space_at V a) \/
     (r = - ENOMEM /\ V' = V /\ k' = k /\ no_block k 0 /\
        exists v, v ∈ V /\ vstart v < s /\ e < vend v)).
Proof.
  intros [HR HS] Hse. destruct (vma_erase_range_rep k P R mm V s e HR HS Hse)
    as (r & k' & V' & E & HR' & Hf & Hr).
  exists r, k', V'. splits; [done| |done|].
  - split; [done|]. destruct Hr as [[_ ->]|(_ & _ & -> & _)]; [by apply cut_sorted|done].
  - destruct Hr as [[-> Ha]|(-> & Hr)]; [left|right; naive_solver]. split; [done|]. intros a.
    unfold space_at. rewrite Ha. by apply (cut_flags 0).
Qed.

(** [find_unmapped_area] is a first fit that misses nothing: its result is
    a page-aligned free range between [mmap_base] and the stack, and it
    reports failure only when there is no such range. *)
Theorem find_unmapped_area_correct k P R mm V len :
  mm_space k P R mm V -> bounded V -> 0 < len <= USER_MAX ->
  0 < rd k (mm + MM_mmap_base) <= USER_MAX ->
  let base := page_align (rd k (mm + MM_mmap_base)) in
  let limit := stack_limit_of k mm in
  exists r, find_unmapped_area k mm len = Some r /\
    (r <> 0 -> base <= r /\ (PAGE_SIZE | r) /\ r + len <= limit /\ free_range V r (r + len)) /\
    (r = 0 -> forall x, (PAGE_SIZE | x) -> base <= x -> x + len <= limit -> ~ free_range V x (x + len)).
Proof.
  intros [HR HS] Hb Hl Hbase base limit.
  destruct (find_unmapped_area_rep k P R mm V len HR HS Hb Hl Hbase) as (r & E & H1 & H2).
  exists r. splits; try done. intros Hr. destruct (H1 Hr) as (? & ? & ? & ?). splits; try done. lia.
Qed.

(** [dup_vma_list] builds a separate list with the same areas; when memory
    runs out it returns NULL and has freed every copy. *)
Theorem dup_vma_list_correct k P R mm V :
  mm_space k P R mm V ->
  exists h k', dup_vma_list k (rd k (mm + MM_mmap)) = Some (h, k') /\ mm_frame k k' P R mm /\
    ((exists W, areas W = areas V /\ chain k' h W /\ vobjs W ##ₘ R /\ mm_space k' P (vobjs W ∪ R) mm V) \/
     (h = 0 /\ mm_space k' P R mm V /\ exists k1, mm_frame k k1 P R mm /\ no_block k1 0)).
Proof.
  intros [HR HS]. destruct (dup_vma_list_rep k P R mm V HR)
    as (h & k' & E & Hf & [(W & HW & HB)|(-> & HR' & Hnb)]); exists h || exists 0; exists k'; splits; try done.
  - left. exists W. splits; [done|apply HB|apply HB|]. by split; [apply HB|].
  - right. splits; try done.
Qed.

(** ** Examples *)

Lemma mm_rep_empty k P R mm c :
  slub_inv k P R -> is_Some (caches k !! vma_cache) ->
  object_size (cache_of k vma_cache) = SIZEOF_VMA ->
  R !! mm = Some c -> SIZEOF_MM <= object_size (cache_of k c) -> rd k (mm + MM_mmap) = 0 ->
  mm_rep k P R mm [].
Proof.
  intros HI Hc Hs Hm Hsm Hz. split; try done.
  - unfold vobjs. cbn. by rewrite map_empty_union.
  - apply map_disjoint_empty_l.
  - by exists c.
  - intros v Hv. by apply not_elem_of_nil in Hv.
Qed.

Lemma mmap_init_inv k P O :
  slub_inv k P O -> caches k !! vma_cache = None -> slub_inv (mmap_init k) P O.
Proof. intros HI Hn. apply kmem_cache_init_inv; try done. by exists 5. Qed.

(** A fresh address space in an object of 64 bytes. *)
Lemma mm_create k P O x k1 base :
  slub_inv k P O -> is_Some (caches k !! vma_cache) -> object_size (cache_of k vma_cache) = SIZEOF_VMA ->
  is_Some (caches k !! cache_64) -> object_size (cache_of k cache_64) = SIZEOF_MM ->
  kmem_cache_alloc k cache_64 = Some (x, k1) -> x <> 0 ->
  let k2 := wr (wr k1 (x + MM_mmap) 0) (x + MM_mmap_base) base in
  mm_rep k2 P (<[x := cache_64]> O) x [] /\ rd k2 (x + MM_mmap_base) = base.
Proof.
  intros HI Hv Hvs Hc Hs E Hx k2.
  destruct (kmem_cache_alloc_inv k P O cache_64 HI Hc) as [[E' _]|(x' & k' & E' & _ & _ & HI1 & Hf)];
    [congruence|]. rewrite E in E'. injection E' as <- <-.
  assert (Hl := fr_layout _ _ _ _ Hf).
  assert (Hsz : object_size (cache_of k1 cache_64) = 64) by (by rewrite (lay_size _ _ Hl)).
  split; [|apply rd_wr_eq]. apply (mm_rep_empty _ _ _ _ cache_64).
  - eapply slub_write_obj; [eapply slub_write_obj; [exact HI1|apply lookup_insert_eq|]
      |apply lookup_insert_eq|];
      change (cache_of (wr k1 (x + MM_mmap) 0) cache_64) with (cache_of k1 cache_64);
      rewrite Hsz; unfold MM_mmap, MM_mmap_base; lia.
  - by apply (lay_some _ _ Hl).
  - etransitivity; [apply (lay_size _ _ Hl)|done].
  - apply lookup_insert_eq.
  - change (SIZEOF_MM <= object_size (cache_of k1 cache_64)). by rewrite Hsz.
  - unfold k2. rewrite rd_wr_ne by (unfold MM_mmap, MM_mmap_base; lia). apply rd_wr_eq.
Qed.

Lemma result_split {T} (r : option (Z * T)) (s : T) :
  bool_decide (is_Some r) = true -> r = Some (default 0 (fst <$> r), default s (snd <$> r)).
Proof. rewrite bool_decide_eq_true. by intros [[x t] ->]. Qed.

(** An address space in the small pool. *)
Definition kv : slub := mmap_init k16.
Definition mm0 : Z := default 0 (fst <$> kmem_cache_alloc kv cache_64).
Definition km : slub :=
  let k := default kv (snd <$> kmem_cache_alloc kv cache_64) in
  wr (wr k (mm0 + MM_mmap) 0) (mm0 + MM_mmap_base) 0x2000000.

Lemma kv_inv : slub_inv kv ∅ ∅.
Proof. apply mmap_init_inv; [apply k16_inv|vm_compute; reflexivity]. Qed.

Lemma km_rep : mm_rep km ∅ (<[mm0 := cache_64]> ∅) mm0 [] /\ rd km (mm0 + MM_mmap_base) = 0x2000000.
Proof.
  exact (mm_create kv ∅ ∅ mm0 _ 0x2000000 kv_inv
    ltac:(eexists; vm_compute; reflexivity) ltac:(vm_compute; reflexivity)
    ltac:(eexists; vm_compute; reflexivity) ltac:(vm_compute; reflexivity)
    (result_split (kmem_cache_alloc kv cache_64) kv ltac:(vm_compute; reflexivity))
    ltac:(vm_compute; discriminate)).
Qed.

Lemma km_space : mm_space km ∅ (<[mm0 := cache_64]> ∅) mm0 [].
Proof. split; [exact (proj1 km_rep)|exact I]. Qed.

Lemma mm0_nonzero : mm0 <> 0.
Proof. vm_compute. discriminate. Qed.

(** The same with one mapping. *)
Lemma one_area :
  exists k V, vma_record km mm0 0x2000000 0x2003000 3 = Some (0, k) /\
    mm_space k ∅ (<[mm0 := cache_64]> ∅) mm0 V /\ areas V = [mkArea 0x2000000 0x2003000 3].
Proof.
  destruct (vma_record_rep km ∅ _ mm0 [] 0x2000000 0x2003000 3 (proj1 km_rep) I mm0_nonzero ltac:(lia))
    as (r & k & E & _ & H).
  assert (Er : fst <$> vma_record km mm0 0x2000000 0x2003000 3 = Some 0) by (vm_compute; reflexivity).
  rewrite E in Er. cbn in Er. injection Er as ->.
  destruct H as [(_ & _ & V1 & V2 & n & EV & HR & HS)|[(Er & _)|(Er & _)]]; [|discriminate Er..].
  symmetry in EV. apply app_eq_nil in EV as [-> ->]. exists k, [mkVma n 0x2000000 0x2003000 3].
  splits; [exact E|split; [exact HR|exact HS]|reflexivity].
Qed.

Lemma vma_record_correct_witness :
  exists k' V', vma_record km mm0 0x2000000 0x2003000 3 = Some (0, k') /\
    mm_space k' ∅ (<[mm0 := cache_64]> ∅) mm0 V' /\ space_at V' 0x2001000 = Some 3.
Proof.
  destruct (vma_record_correct km ∅ _ mm0 [] 0x2000000 0x2003000 3 km_space mm0_nonzero ltac:(lia))
    as (r & k' & V' & E & HS & _ & H).
  assert (Er : fst <$> vma_record km mm0 0x2000000 0x2003000 3 = Some 0) by (vm_compute; reflexivity).
  rewrite E in Er. cbn in Er. injection Er as ->.
  destruct H as [(_ & _ & _ & Ha)|[(Er & _)|(Er & _)]]; [|discriminate Er..].
  exists k', V'. split; [exact E|]. split; [exact HS|]. exact (Ha 0x2001000).
Defined.

Lemma vma_erase_range_correct_witness :
  exists k V r k' V', mm_space k ∅ (<[mm0 := cache_64]> ∅) mm0 V /\ space_at V 0x2001000 = Some 3 /\
    vma_erase_range k mm0 0x2001000 0x2002000 = Some (r, k') /\
    (r = 0 -> space_at V' 0x2001000 = None /\ space_at V' 0x2002000 = Some 3).
Proof.
  destruct one_area as (k & V & _ & HS & HA).
  destruct (vma_erase_range_correct k ∅ _ mm0 V 0x2001000 0x2002000 HS ltac:(lia))
    as (r & k' & V' & E & _ & _ & H).
  exists k, V, r, k', V'. split; [exact HS|]. split; [unfold space_at; by rewrite HA|]. split; [exact E|].
  intros ->. destruct H as [[_ H]|[Er _]]; [|discriminate Er].
  rewrite !H. unfold space_at. by rewrite HA.
Defined.

Lemma find_unmapped_area_correct_witness :
  find_unmapped_area km mm0 0x4000 = Some 0x2000000 /\
  exists r, find_unmapped_area km mm0 0x4000 = Some r /\
    (r <> 0 -> page_align (rd km (mm0 + MM_mmap_base)) <= r /\ (PAGE_SIZE | r) /\
       r + 0x4000 <= stack_limit_of km mm0 /\ free_range [] r (r + 0x4000)).
Proof.
  split; [vm_compute; reflexivity|].
  destruct (find_unmapped_area_correct km ∅ _ mm0 [] 0x4000 km_space) as (r & E & H & _).
  - intros v Hv. by apply not_elem_of_nil in Hv.
  - unfold USER_MAX. lia.
  - rewrite (proj2 km_rep). unfold USER_MAX. lia.
  - exists r. split; [exact E|exact H].
Defined.

Lemma dup_vma_list_correct_witness :
  exists k V h k', mm_space k ∅ (<[mm0 := cache_64]> ∅) mm0 V /\
    areas V = [mkArea 0x2000000 0x2003000 3] /\
    dup_vma_list k (rd k (mm0 + MM_mmap)) = Some (h, k') /\
    ((exists W, areas W = areas V /\ chain k' h W) \/ h = 0).
Proof.
  destruct one_area as (k & V & _ & HS & HA).
  destruct (dup_vma_list_correct k ∅ _ mm0 V HS) as (h & k' & E & _ & H).
  exists k, V, h, k'. split; [exact HS|]. split; [exact HA|]. split; [exact E|].
  destruct H as [(W & HW & HC & _)|[-> _]]; [left; exists W; by split|by right].
Defined.
