(* ===== verification/PageTable.v ===== *)
(** * User page tables ([mm/mmap.c], second part)

    Three levels of 512 entries of eight bytes; a table is a page of the page
    allocator.  Barriers, cache and TLB maintenance have no counterpart. *)
From S2P Require Import Prelude PageAlloc Slub Errno AddrSpace Vma.

Abbreviation PTE_VALID := 3 (only parsing).
Definition PTE_TABLE : Z := 3.
Abbreviation PTE_AF := (Z.shiftl 1 10) (only parsing).
Abbreviation PTE_SHARED := (Z.shiftl 3 8) (only parsing).
Definition PTE_USER : Z := Z.shiftl 1 6.
Definition PTE_RDONLY : Z := Z.shiftl 1 7.
Abbreviation PTE_NG := (Z.shiftl 1 11) (only parsing).
Definition PTE_UXN : Z := Z.shiftl 1 54.
Definition PTE_ADDR_MASK : Z := 0x0000FFFFFFFFF000.
Definition PTE_FLAGS_MASK : Z := u64 (Z.lnot PTE_ADDR_MASK).

Definition MAP_PROT_READ : Z := 1.
Definition MAP_PROT_WRITE : Z := 2.
Definition MAP_PROT_EXEC : Z := 4.
Abbreviation PROT_READ := 1 (only parsing).
Abbreviation PROT_WRITE := 2 (only parsing).
Abbreviation PROT_EXEC := 4 (only parsing).
Definition VM_READ : Z := MAP_PROT_READ.
Definition VM_WRITE : Z := MAP_PROT_WRITE.
Definition VM_EXEC : Z := MAP_PROT_EXEC.

Definition phys_to_virt (p : Z) : Z := u64 (p + PHYS_VIRT_OFFSET).
Definition virt_to_phys (v : Z) : Z := u64 (v - PHYS_VIRT_OFFSET).

Definition pte_present (pte : Z) : bool := has pte 1.
Definition pte_write (pte : Z) : bool := pte_present pte && negb (has pte PTE_RDONLY).
Definition pte_wrprotect (pte : Z) : Z := Z.lor pte PTE_RDONLY.
Definition pte_mkwrite (pte : Z) : Z := Z.land pte (u64 (Z.lnot PTE_RDONLY)).
Definition pte_cow_candidate (pte vm_flags : Z) : bool :=
  pte_present pte && has pte PTE_RDONLY && has vm_flags VM_WRITE.

(** 512 stores of eight zero bytes. *)
Definition page_zero (k : slub) (page : Z) : slub :=
  set_pa k (set_mem (pa k) (arr_fill (8 * 512) (mem (pa k)) page 0)).

(** [memcpy]: [n] cells, in order. *)
Fixpoint memcpy (n : nat) (k : slub) (dst src : Z) : slub :=
  match n with
  | O => k
  | S n' => memcpy n' (wr k dst (rd k src)) (dst + 1) (src + 1)
  end.

Definition linux_prot_to_map (prot : Z) : Z :=
  let m := 0 in
  let m := if has prot PROT_READ then Z.lor m MAP_PROT_READ else m in
  let m := if has prot PROT_WRITE then Z.lor m MAP_PROT_WRITE else m in
  if has prot PROT_EXEC then Z.lor m MAP_PROT_EXEC else m.

Definition prot_to_pte (prot : Z) : Z :=
  let pte := Z.lor (Z.lor (Z.lor PTE_VALID PTE_AF) PTE_SHARED) PTE_NG in
  let pte := if has prot (Z.lor (Z.lor MAP_PROT_READ MAP_PROT_WRITE) MAP_PROT_EXEC)
             then Z.lor pte PTE_USER else pte in
  let pte := if negb (has prot MAP_PROT_WRITE) then Z.lor pte PTE_RDONLY else pte in
  if negb (has prot MAP_PROT_EXEC) then Z.lor pte PTE_UXN else pte.

Definition pte_set (k : slub) (slot val : Z) : slub := wr k slot val.

Definition l1_idx (va : Z) : Z := Z.land (Z.shiftr va 30) 0x1ff.
Definition l2_idx (va : Z) : Z := Z.land (Z.shiftr va 21) 0x1ff.
Definition l3_idx (va : Z) : Z := Z.land (Z.shiftr va 12) 0x1ff.

(** [entry] does not lead to a table. *)
Definition not_table (entry : Z) : bool := negb (has entry 1) || negb (Z.land entry 3 =? PTE_TABLE).

(** The address of the leaf entry of [va]; 0 when a table is missing. *)
Definition l3_slot (k : slub) (mm va : Z) : Z :=
  if (mm =? 0) || (rd k (mm + MM_pgd) =? 0) then 0
  else
    let entry := rd k (rd k (mm + MM_pgd) + 8 * l1_idx va) in
    if not_table entry then 0
    else
      let l2 := phys_to_virt (Z.land entry PTE_ADDR_MASK) in
      let entry := rd k (l2 + 8 * l2_idx va) in
      if not_table entry then 0
      else
        let l3 := phys_to_virt (Z.land entry PTE_ADDR_MASK) in
        l3 + 8 * l3_idx va.

Definition change_pte_prot (k : slub) (mm va map_prot : Z) : slub :=
  let ptep := l3_slot k mm va in
  if (ptep =? 0) || negb (pte_present (rd k ptep)) then k
  else
    let old := rd k ptep in
    let pte := Z.lor (Z.land old PTE_ADDR_MASK) (prot_to_pte map_prot) in
    let pte :=
      if has map_prot MAP_PROT_WRITE then
        match virt_to_page (pa k) (phys_to_virt (Z.land old PTE_ADDR_MASK)) with
        | Some p => if 1 <? page_count (pa k) (Some p) then pte_wrprotect pte else pte
        | None => pte
        end
      else pte in
    pte_set k ptep pte.

(** Loops over the pages of [[va, end)]: [va] moves by a page as long as it is
    below [end]. *)
Definition pages_fuel (va end_ : Z) : nat := S (Z.to_nat ((end_ - va + PAGE_SIZE - 1) / PAGE_SIZE)).

Fixpoint change_prot_loop (fuel : nat) (k : slub) (mm va end_ map_prot : Z) : option slub :=
  match fuel with
  | O => None
  | S fuel' =>
      if va <? end_
      then change_prot_loop fuel' (change_pte_prot k mm va map_prot) mm (u64 (va + PAGE_SIZE)) end_ map_prot
      else Some k
  end.

Definition change_prot_range (k : slub) (mm start end_ map_prot : Z) : option slub :=
  change_prot_loop (pages_fuel start end_) k mm start end_ map_prot.

Definition get_or_create_table (k : slub) (parent index : Z) : option (Z * slub) :=
  let entry := rd k (parent + 8 * index) in
  if has entry 1 then
    if negb (Z.land entry 3 =? PTE_TABLE) then Some (0, k)
    else Some (phys_to_virt (Z.land entry PTE_ADDR_MASK), k)
  else
    '(table, b) ← alloc_pages (pa k) 0;
    let k := set_pa k b in
    if table =? 0 then Some (0, k)
    else
      let k := page_zero k table in
      Some (table, pte_set k (parent + 8 * index) (Z.lor (virt_to_phys table) PTE_TABLE)).

(** A loop over the indices of a table. *)
Fixpoint for_idx (n : nat) (i : Z) (f : Z -> slub -> option slub) (k : slub) : option slub :=
  match n with
  | O => Some k
  | S n' => k1 ← f i k; for_idx n' (i + 1) f k1
  end.

(** [depth] bounds the levels still below; level 3 holds the leaves. *)
Fixpoint free_pgtable_level (depth : nat) (k : slub) (table level : Z) : option slub :=
  match depth with
  | O => None
  | S depth' =>
      if table =? 0 then Some k
      else
        k ← for_idx 512 0 (fun i k =>
          let ent := rd k (table + 8 * i) in
          if negb (has ent 1) then Some k
          else if level <? 3 then
            free_pgtable_level depth' k (phys_to_virt (Z.land ent PTE_ADDR_MASK)) (level + 1)
          else
            match virt_to_page (pa k) (phys_to_virt (Z.land ent PTE_ADDR_MASK)) with
            | Some p => b ← put_page (pa k) (Some p); Some (set_pa k b)
            | None => Some k
            end) k;
        b ← free_pages (pa k) table 0;
        Some (set_pa k b)
  end.

Definition free_user_page_tables (k : slub) (pgd : Z) : option slub := free_pgtable_level 3 k pgd 1.

(** A loop that a step may leave with a result. *)
Fixpoint for_idx_until (n : nat) (i : Z) (f : Z -> slub -> option (bool * slub)) (k : slub)
  : option (bool * slub) :=
  match n with
  | O => Some (true, k)
  | S n' =>
      '(go, k1) ← f i k;
      if go : bool then for_idx_until n' (i + 1) f k1 else Some (false, k1)
  end.

Fixpoint dup_pgtable_level (depth : nat) (k : slub) (src level : Z) : option (Z * slub) :=
  match depth with
  | O => None
  | S depth' =>
      '(dst, b) ← alloc_pages (pa k) 0;
      let k := set_pa k b in
      if dst =? 0 then Some (0, k)
      else
        let k := page_zero k dst in
        '(ok, k) ← for_idx_until 512 0 (fun i k =>
          let ent := rd k (src + 8 * i) in
          if negb (has ent 1) then Some (true, k)
          else if level <? 3 then
            '(child_dst, k) ← dup_pgtable_level depth' k (phys_to_virt (Z.land ent PTE_ADDR_MASK)) (level + 1);
            if child_dst =? 0 then
              k ← free_pgtable_level depth k dst level; Some (false, k)
            else
              Some (true, pte_set k (dst + 8 * i)
                            (Z.lor (virt_to_phys child_dst) (Z.land ent PTE_FLAGS_MASK)))
          else
            match virt_to_page (pa k) (phys_to_virt (Z.land ent PTE_ADDR_MASK)) with
            | None => k ← free_pgtable_level depth k dst level; Some (false, k)
            | Some page =>
                let shared := if pte_write ent then pte_wrprotect ent else ent in
                let k := set_pa k (get_page (pa k) (Some page)) in
                let k := pte_set k (src + 8 * i) shared in
                Some (true, pte_set k (dst + 8 * i) shared)
            end) k;
        Some (if ok : bool then dst else 0, k)
  end.

Definition dup_pgtable (k : slub) (src level : Z) : option (Z * slub) :=
  dup_pgtable_level (Z.to_nat (4 - level)) k src level.

Definition map_page (k : slub) (mm va pa_ prot : Z) : option (Z * slub) :=
  '(l2, k) ← get_or_create_table k (rd k (mm + MM_pgd)) (l1_idx va);
  if l2 =? 0 then Some (- ENOMEM, k)
  else
    '(l3, k) ← get_or_create_table k l2 (l2_idx va);
    if l3 =? 0 then Some (- ENOMEM, k)
    else Some (0, pte_set k (l3 + 8 * l3_idx va) (Z.lor (Z.land pa_ PTE_ADDR_MASK) (prot_to_pte prot))).

Definition va_mapped (k : slub) (mm va : Z) : bool :=
  let ptep := l3_slot k mm va in negb (ptep =? 0) && has (rd k ptep) 1.

Definition unmap_page (k : slub) (mm va : Z) : option slub :=
  let entry := rd k (rd k (mm + MM_pgd) + 8 * l1_idx va) in
  if not_table entry then Some k
  else
    let l2 := phys_to_virt (Z.land entry PTE_ADDR_MASK) in
    let entry := rd k (l2 + 8 * l2_idx va) in
    if not_table entry then Some k
    else
      let l3 := phys_to_virt (Z.land entry PTE_ADDR_MASK) in
      let entry := rd k (l3 + 8 * l3_idx va) in
      if negb (has entry 1) then Some k
      else
        let p := virt_to_page (pa k) (phys_to_virt (Z.land entry PTE_ADDR_MASK)) in
        let k := pte_set k (l3 + 8 * l3_idx va) 0 in
        match p with
        | Some q => b ← put_page (pa k) (Some q); Some (set_pa k b)
        | None => Some k
        end.

(** The copy-on-write break of a write fault; [vm_flags] are those of the
    area. *)
Definition do_cow_fault (k : slub) (mm va vm_flags : Z) : option (Z * slub) :=
  let ptep := l3_slot k mm va in
  if ptep =? 0 then Some (- EFAULT, k)
  else
    let old_pte := rd k ptep in
    if negb (pte_cow_candidate old_pte vm_flags) then Some (- EFAULT, k)
    else
      let old_kva := phys_to_virt (Z.land old_pte PTE_ADDR_MASK) in
      match virt_to_page (pa k) old_kva with
      | None => Some (- EFAULT, k)
      | Some old =>
          if page_count (pa k) (Some old) =? 1 then Some (0, pte_set k ptep (pte_mkwrite old_pte))
          else
            '(new_page, b) ← alloc_pages (pa k) 0;
            let k := set_pa k b in
            if new_page =? 0 then Some (- ENOMEM, k)
            else
              let k := memcpy (Z.to_nat PAGE_SIZE) k new_page old_kva in
              let new_pte := Z.lor (Z.land (virt_to_phys new_page) PTE_ADDR_MASK)
                                   (Z.land old_pte PTE_FLAGS_MASK) in
              let k := pte_set k ptep (pte_mkwrite new_pte) in
              b ← put_page (pa k) (Some old);
              Some (0, set_pa k b)
      end.
