(* ===== verification/PageTree.v ===== *)
(** * Page tables as trees

    A table with its entries is a tree; [rep] relates a tree to the memory
    that holds it, [owned] lists its tables and [ptes] its leaf entries.  The
    operations of [PageTable] are functions on trees, and account exactly for
    the pages they take and the references they drop. *)
From S2P Require Import Prelude PageAlloc Slub Errno AddrSpace Vma PageTable.

(** ** Entries *)

Lemma land_addr_mask x :
  0 <= x -> Z.land x PTE_ADDR_MASK = 4096 * ((x / 4096) mod 2 ^ 36).
Proof.
  intros Hx. change PTE_ADDR_MASK with (Z.shiftl (Z.ones 36) 12).
  change 4096 with (2 ^ 12). rewrite <- Z.shiftr_div_pow2, <- Z.land_ones by lia.
  rewrite Z.mul_comm, <- Z.shiftl_mul_pow2 by lia. apply Z.bits_inj'. intros n Hn.
  rewrite Z.land_spec, !Z.shiftl_spec by lia.
  destruct (decide (n < 12)).
  - rewrite (Z.testbit_neg_r (Z.ones 36)), (Z.testbit_neg_r (Z.land _ _)) by lia. apply andb_false_r.
  - rewrite Z.land_spec, Z.shiftr_spec by lia. by replace (n - 12 + 12) with n by lia.
Qed.

Lemma addr_mask_lor x f : Z.land f PTE_ADDR_MASK = 0 -> Z.land (Z.lor x f) PTE_ADDR_MASK = Z.land x PTE_ADDR_MASK.
Proof. intros Hf. by rewrite Z.land_lor_distr_l, Hf, Z.lor_0_r. Qed.

Lemma addr_mask_idem x : Z.land (Z.land x PTE_ADDR_MASK) PTE_ADDR_MASK = Z.land x PTE_ADDR_MASK.
Proof. by rewrite <- Z.land_assoc, Z.land_diag. Qed.

Lemma prot_to_pte_mask prot : Z.land (prot_to_pte prot) PTE_ADDR_MASK = 0.
Proof.
  unfold prot_to_pte. by destruct (has prot (Z.lor (Z.lor MAP_PROT_READ MAP_PROT_WRITE) MAP_PROT_EXEC)),
    (has prot MAP_PROT_WRITE), (has prot MAP_PROT_EXEC).
Qed.

Lemma prot_to_pte_present prot : Z.testbit (prot_to_pte prot) 0 = true.
Proof.
  unfold prot_to_pte. by destruct (has prot (Z.lor (Z.lor MAP_PROT_READ MAP_PROT_WRITE) MAP_PROT_EXEC)),
    (has prot MAP_PROT_WRITE), (has prot MAP_PROT_EXEC).
Qed.

Lemma has_rdonly x : has x PTE_RDONLY = Z.testbit x 7.
Proof. by apply has_bit. Qed.

(** The bytes an entry leads to, seen by the kernel. *)
Definition pte_kva (e : Z) : Z := phys_to_virt (Z.land e PTE_ADDR_MASK).

Lemma pool_phys s q :
  pool_ok s -> KERNEL_VIRT_BASE <= mem_start s -> 0 <= q < pool_pages s ->
  let a := pfn_to_addr s q in
  virt_to_phys a = a - PHYS_VIRT_OFFSET /\ phys_to_virt (virt_to_phys a) = a /\
  0 <= virt_to_phys a < 2 ^ 48 /\ (PAGE_SIZE | virt_to_phys a) /\
  Z.land (virt_to_phys a) PTE_ADDR_MASK = virt_to_phys a.
Proof.
  intros Hs Hbase Hq a. assert (Ea := pfn_to_addr_eq _ _ Hs Hq). fold a in Ea.
  assert (Hal := page_aligned _ _ Hs Hq). fold a in Hal.
  pose proof (pool_end _ Hs) as He. rewrite (pool_size _ Hs) in He.
  unfold PAGE_SIZE, VIRT_MEM_END, KERNEL_VIRT_BASE, PHYS_MEM_SIZE in *.
  assert (E : virt_to_phys a = a - PHYS_VIRT_OFFSET).
  { unfold virt_to_phys. apply wrapu_id. unfold PHYS_VIRT_OFFSET, KERNEL_VIRT_BASE, KERNEL_PHYS_BASE. lia. }
  assert (Hd : (4096 | virt_to_phys a)).
  { rewrite E. apply Z.divide_sub_r; [done|]. by exists (PHYS_VIRT_OFFSET / 4096). }
  assert (Hr : 0 <= virt_to_phys a < 2 ^ 48).
  { rewrite E. unfold PHYS_VIRT_OFFSET, KERNEL_VIRT_BASE, KERNEL_PHYS_BASE. lia. }
  splits; try done; try lia.
  - rewrite E. unfold phys_to_virt. replace (a - PHYS_VIRT_OFFSET + PHYS_VIRT_OFFSET) with a by lia.
    apply wrapu_id. lia.
  - destruct Hd as [m Hm]. rewrite Hm in Hr |- *. rewrite land_addr_mask by lia.
    rewrite Z.div_mul, Z.mod_small by lia. lia.
Qed.

(** ** Trees *)

(** A tree of depth [d + 1] is the page of a table and its entries; a tree of
    depth 0 is a leaf entry. *)
Fixpoint tree (d : nat) : Type :=
  match d with O => Z | S d' => (Z * gmap Z (tree d'))%type end.

(** The value of the entry that leads to a tree. *)
Definition entry (k : slub) {d} : tree d -> Z :=
  match d with
  | O => fun e => e
  | S _ => fun t => Z.lor (virt_to_phys (base_of k (fst t))) PTE_TABLE
  end.

Definition slot_val (k : slub) {d} (o : option (tree d)) : Z :=
  match o with Some t => entry k t | None => 0 end.

Definition pte_pfn (k : slub) (e : Z) : Z := addr_to_pfn (pa k) (pte_kva e).

(** A leaf entry is present and leads to a page of the pool. *)
Definition pte_ok (k : slub) (e : Z) : Prop :=
  0 <= e < 2 ^ 64 /\ Z.testbit e 0 = true /\ 0 <= pte_pfn k e < pool_pages (pa k) /\
  pte_kva e = base_of k (pte_pfn k e).

Fixpoint rep (d : nat) (k : slub) : tree d -> Prop :=
  match d with
  | O => fun e => pte_ok k e
  | S d' => fun t =>
      0 <= fst t < pool_pages (pa k) /\
      (forall i, 0 <= i < 512 -> rd k (base_of k (fst t) + 8 * i) = slot_val k (snd t !! i)) /\
      (forall i c, snd t !! i = Some c -> 0 <= i < 512 /\ rep d' k c)
  end.

Fixpoint owned (d : nat) : tree d -> list Z :=
  match d with
  | O => fun _ => []
  | S d' => fun t => fst t :: (map_to_list (snd t) ≫= fun ic => owned d' (snd ic))
  end.

Fixpoint ptes (d : nat) : tree d -> list Z :=
  match d with
  | O => fun e => [e]
  | S d' => fun t => map_to_list (snd t) ≫= fun ic => ptes d' (snd ic)
  end.

Section Kids.
Context {T : Type} (f : T -> list Z).
Implicit Types (m : gmap Z T).

Definition kids m : list Z := map_to_list m ≫= fun ic => f (snd ic).

Lemma kids_insert m i c : m !! i = None -> kids (<[i := c]> m) ≡ₚ f c ++ kids m.
Proof. intros Hi. unfold kids. by rewrite (map_to_list_insert m i c Hi). Qed.

Lemma kids_lookup m i c : m !! i = Some c -> kids m ≡ₚ f c ++ kids (delete i m).
Proof. intros Hi. rewrite <- (insert_delete_id m i c Hi) at 1. apply kids_insert, lookup_delete_eq. Qed.

Lemma kids_elem m x : x ∈ kids m <-> exists i c, m !! i = Some c /\ x ∈ f c.
Proof.
  unfold kids. rewrite list_elem_of_bind. split.
  - intros ([i c] & Hx & Hic). exists i, c. by apply elem_of_map_to_list in Hic.
  - intros (i & c & Hi & Hx). exists (i, c). by rewrite elem_of_map_to_list.
Qed.

Lemma kids_empty : kids ∅ = [].
Proof. unfold kids. by rewrite map_to_list_empty. Qed.
End Kids.

Lemma owned_kids d (t : tree (S d)) : owned (S d) t = fst t :: kids (owned d) (snd t).
Proof. done. Qed.

Lemma owned_root d (t : tree (S d)) : fst t ∈ owned (S d) t.
Proof. rewrite owned_kids. apply list_elem_of_here. Qed.

Lemma owned_kid d (t : tree (S d)) i c q : snd t !! i = Some c -> q ∈ owned d c -> q ∈ kids (owned d) (snd t).
Proof. intros Hi Hq. apply kids_elem. by exists i, c. Qed.

Lemma ptes_kids d (t : tree (S d)) : ptes (S d) t = kids (ptes d) (snd t).
Proof. done. Qed.

Definition in_table (k : slub) (q a : Z) : Prop := base_of k q <= a < base_of k q + PAGE_SIZE.

Lemma entry_same k k' d (t : tree d) : same_pool (pa k) (pa k') -> entry k' t = entry k t.
Proof.
  intros Hs. destruct d; [done|]. cbn. unfold base_of. by rewrite (pfn_to_addr_same _ _ _ Hs).
Qed.

Lemma slot_val_same k k' d (o : option (tree d)) :
  same_pool (pa k) (pa k') -> slot_val k' o = slot_val k o.
Proof. intros Hs. destruct o as [c|]; [|done]. by apply (entry_same k k'). Qed.

Lemma slot_val_kid k d (t : tree (S d)) i c :
  snd t !! i = Some c -> slot_val k (snd t !! i) = entry k c.
Proof. by intros ->. Qed.

Lemma pte_pfn_same k k' e : same_pool (pa k) (pa k') -> pte_pfn k' e = pte_pfn k e.
Proof. intros (E & _). unfold pte_pfn, addr_to_pfn. by rewrite E. Qed.

Lemma pte_ok_same k k' e : same_pool (pa k) (pa k') -> pte_ok k e -> pte_ok k' e.
Proof.
  intros Hs (H1 & H2 & H3 & H4). unfold pte_ok. rewrite (pte_pfn_same k k') by done.
  unfold base_of in *. rewrite (pfn_to_addr_same _ _ _ Hs). destruct Hs as (_ & _ & _ & ->). done.
Qed.

(** A tree depends only on the cells of its tables. *)
Lemma rep_same d k k' (t : tree d) :
  same_pool (pa k) (pa k') ->
  (forall q a, q ∈ owned d t -> in_table k q a -> rd k' a = rd k a) -> rep d k t -> rep d k' t.
Proof.
  revert t. induction d as [|d IH]; intros t Hs Hm Ht; [by apply (pte_ok_same k)|].
  destruct Ht as (Hq & Hc & Hk). cbn. assert (Eb : base_of k' (fst t) = base_of k (fst t)).
  { by apply pfn_to_addr_same. }
  splits.
  - destruct Hs as (_ & _ & _ & Epp). lia.
  - destruct Hs as (_ & _ & _ & Epp). lia.
  - intros i Hi. rewrite Eb, (Hm (fst t)), Hc; [|done|cbn; set_solver|unfold in_table, PAGE_SIZE; lia].
    symmetry. by apply slot_val_same.
  - intros i c Hi. destruct (Hk i c Hi) as [Hr Hc']. split; [done|]. apply IH; [done| |done].
    intros q a Hq' Ha. apply (Hm q); [|done]. rewrite owned_kids. apply elem_of_cons. right.
    apply kids_elem. eauto.
Qed.

(** ** Walking and updating *)

Definition ram (k : slub) : Prop := pool_ok (pa k) /\ KERNEL_VIRT_BASE <= mem_start (pa k).

Lemma ram_same k k' : same_pool (pa k) (pa k') -> ram k -> ram k'.
Proof. intros Hs [H1 H2]. split; [by eapply pool_ok_same|]. destruct Hs as (-> & _). done. Qed.

Lemma table_entry k q :
  ram k -> 0 <= q < pool_pages (pa k) ->
  let e := Z.lor (virt_to_phys (base_of k q)) PTE_TABLE in
  not_table e = false /\ has e 1 = true /\ phys_to_virt (Z.land e PTE_ADDR_MASK) = base_of k q /\
  Z.land e 3 = PTE_TABLE.
Proof.
  intros [Hp Hb] Hq e. destruct (pool_phys _ _ Hp Hb Hq) as (_ & E2 & Hr & [m Hm] & E5).
  fold (base_of k q) in *.
  assert (H3 : Z.land e 3 = 3).
  { unfold e. rewrite Z.land_lor_distr_l. change (Z.land PTE_TABLE 3) with 3.
    change 3 with (Z.ones 2) at 1. rewrite Z.land_ones, Hm by lia.
    replace (m * PAGE_SIZE) with (m * 1024 * 2 ^ 2) by (unfold PAGE_SIZE; lia). by rewrite Z.mod_mul. }
  assert (H1 : has e 1 = true).
  { rewrite has_1. unfold e. rewrite Z.lor_spec. apply orb_true_r. }
  splits; try done.
  - unfold not_table. by rewrite H1, H3.
  - unfold e. rewrite addr_mask_lor by done. by rewrite E5.
Qed.

Lemma not_table_0 : not_table 0 = true.
Proof. done. Qed.

Definition cell_at (k : slub) (q i : Z) : Z := base_of k q + 8 * i.

Lemma cell_in_table k q i : 0 <= i < 512 -> in_table k q (cell_at k q i).
Proof. unfold in_table, cell_at, PAGE_SIZE. lia. Qed.

(** One entry of a table changes, or the tree below it. *)
Lemma rep_set_kid d k k' (t : tree (S d)) i o :
  same_pool (pa k) (pa k') -> rep (S d) k t -> 0 <= i < 512 ->
  rd k' (cell_at k (fst t) i) = slot_val k' o -> (forall c, o = Some c -> rep d k' c) ->
  (forall j, 0 <= j < 512 -> j <> i -> rd k' (cell_at k (fst t) j) = rd k (cell_at k (fst t) j)) ->
  (forall j c q a, j <> i -> snd t !! j = Some c -> q ∈ owned d c -> in_table k q a ->
     rd k' a = rd k a) ->
  rep (S d) k' (fst t, partial_alter (fun _ => o) i (snd t)).
Proof.
  intros Hs (Hq & Hc & Hk) Hi Hv Ho Hother Hkids. cbn [rep fst snd].
  assert (Eb : base_of k' (fst t) = base_of k (fst t)) by (by apply pfn_to_addr_same).
  split; [destruct Hs as (_ & _ & _ & Epp); lia|]. split.
  - intros j Hj. rewrite Eb. fold (cell_at k (fst t) j). destruct (decide (j = i)) as [->|Hne].
    + by rewrite lookup_partial_alter_eq.
    + rewrite lookup_partial_alter_ne, Hother by done. unfold cell_at. rewrite Hc by done.
      symmetry. by apply slot_val_same.
  - intros j c Hj. destruct (decide (j = i)) as [->|Hne].
    + rewrite lookup_partial_alter_eq in Hj. auto.
    + rewrite lookup_partial_alter_ne in Hj by done. destruct (Hk j c Hj) as [Hr Hc']. split; [done|].
      apply (rep_same d k); [done| |done]. intros q a Hq' Ha. by eapply (Hkids j c q).
Qed.

(** The leaf entry of an address, and its update. *)
Definition leaf_at (t : tree 3) (va : Z) : option Z :=
  c2 ← snd t !! l1_idx va; c3 ← snd c2 !! l2_idx va; snd c3 !! l3_idx va.

Definition table_at (t : tree 3) (va : Z) : option (tree 1) :=
  c2 ← snd t !! l1_idx va; snd c2 !! l2_idx va.

Definition alter_kid {d} (f : tree d -> tree d) (i : Z) (t : tree (S d)) : tree (S d) :=
  (fst t, alter f i (snd t)).

Definition set_leaf (t : tree 3) (va : Z) (v : option Z) : tree 3 :=
  alter_kid (alter_kid (fun c3 : tree 1 => (fst c3, partial_alter (fun _ => v) (l3_idx va) (snd c3)) : tree 1)
    (l2_idx va)) (l1_idx va) t.

(** Two addresses of the same page. *)
Definition same_page (va va' : Z) : Prop :=
  l1_idx va = l1_idx va' /\ l2_idx va = l2_idx va' /\ l3_idx va = l3_idx va'.

#[export] Instance same_page_dec va va' : Decision (same_page va va').
Proof. unfold same_page. apply _. Defined.

Lemma leaf_set_leaf t va v va' :
  is_Some (table_at t va) ->
  leaf_at (set_leaf t va v) va' = if decide (same_page va va') then v else leaf_at t va'.
Proof.
  unfold table_at, leaf_at, set_leaf, alter_kid. intros Ht. cbn [fst snd].
  destruct (snd t !! l1_idx va) as [c2|] eqn:E1; [|by destruct Ht]. cbn in Ht.
  destruct Ht as [c3 E2]. case_decide as D.
  - destruct D as (D1 & D2 & D3). rewrite <- D1, <- D2, <- D3, lookup_alter_eq, E1. cbn.
    rewrite lookup_alter_eq, E2. cbn. apply lookup_partial_alter_eq.
  - destruct (decide (l1_idx va = l1_idx va')) as [D1|D1]; [|by rewrite lookup_alter_ne].
    rewrite <- D1, lookup_alter_eq, E1. cbn.
    destruct (decide (l2_idx va = l2_idx va')) as [D2|D2]; [|by rewrite lookup_alter_ne].
    rewrite <- D2, lookup_alter_eq, E2. cbn.
    apply lookup_partial_alter_ne. intros D3. by apply D.
Qed.

Lemma idx_range va : 0 <= l1_idx va < 512 /\ 0 <= l2_idx va < 512 /\ 0 <= l3_idx va < 512.
Proof.
  unfold l1_idx, l2_idx, l3_idx. change 0x1ff with (Z.ones 9). rewrite !Z.land_ones by lia.
  splits; apply Z.mod_pos_bound; lia.
Qed.

Lemma table_leaf t va : leaf_at t va = c3 ← table_at t va; snd c3 !! l3_idx va.
Proof. unfold leaf_at, table_at. by destruct (snd t !! l1_idx va). Qed.

(** What the code reads on its way to the leaf entry of [va]. *)
Lemma walk_rep k t va :
  ram k -> rep 3 k t ->
  let e1 := rd k (base_of k (fst t) + 8 * l1_idx va) in
  match table_at t va with
  | None => not_table e1 = true \/
      (not_table e1 = false /\
       not_table (rd k (phys_to_virt (Z.land e1 PTE_ADDR_MASK) + 8 * l2_idx va)) = true)
  | Some c3 => not_table e1 = false /\
      let e2 := rd k (phys_to_virt (Z.land e1 PTE_ADDR_MASK) + 8 * l2_idx va) in
      not_table e2 = false /\ phys_to_virt (Z.land e2 PTE_ADDR_MASK) = base_of k (fst c3) /\
      rd k (base_of k (fst c3) + 8 * l3_idx va) = default 0 (leaf_at t va)
  end.
Proof.
  intros Hram (Hq & Hc & Hk) e1. rewrite table_leaf. unfold table_at.
  destruct (idx_range va) as (R1 & R2 & R3). unfold e1. rewrite Hc by done.
  destruct (snd t !! l1_idx va) as [c2|] eqn:E1; cbn [mbind option_bind slot_val]; [|by left].
  destruct (Hk _ _ E1) as [_ (Hq2 & Hc2 & Hk2)].
  destruct (table_entry k (fst c2) Hram Hq2) as (N1 & _ & K1 & _).
  cbn [entry]. rewrite N1, K1, Hc2 by done.
  destruct (snd c2 !! l2_idx va) as [c3|] eqn:E2; cbn [mbind option_bind slot_val]; [|by right].
  destruct (Hk2 _ _ E2) as [_ (Hq3 & Hc3 & Hk3)].
  destruct (table_entry k (fst c3) Hram Hq3) as (N2 & _ & K2 & _).
  cbn [entry]. rewrite N2, K2, Hc3 by done. by splits.
Qed.

Lemma l3_slot_rep k mm t va :
  ram k -> rep 3 k t -> mm <> 0 -> rd k (mm + MM_pgd) = base_of k (fst t) ->
  l3_slot k mm va = match table_at t va with Some c3 => cell_at k (fst c3) (l3_idx va) | None => 0 end /\
  forall c3, table_at t va = Some c3 ->
    cell_at k (fst c3) (l3_idx va) <> 0 /\ rd k (cell_at k (fst c3) (l3_idx va)) = default 0 (leaf_at t va).
Proof.
  intros Hram Ht Hm Hpgd. assert (Hw := walk_rep k t va Hram Ht). cbv zeta in Hw.
  unfold l3_slot. rewrite Hpgd, (proj2 (Z.eqb_neq mm 0)) by done. destruct Ht as (Hq & _ & Hk).
  assert (Hnz := pfn_to_addr_nonzero _ _ (proj1 Hram) Hq). fold (base_of k (fst t)) in Hnz.
  rewrite (proj2 (Z.eqb_neq _ 0)) by done. cbn [orb]. destruct (table_at t va) as [c3|] eqn:E3.
  - destruct Hw as (N1 & N2 & K2 & Hl). rewrite N1, N2, K2. split; [done|]. intros ? [= <-].
    split; [|done]. unfold table_at in E3. destruct (snd t !! l1_idx va) as [c2|] eqn:E1; [|done].
    destruct (Hk _ _ E1) as [_ (_ & _ & Hk2)]. destruct (Hk2 _ _ E3) as [_ (Hq3 & _ & _)].
    destruct (idx_range va) as (_ & _ & R3). unfold cell_at, base_of.
    rewrite pfn_to_addr_eq by (done || apply Hram). destruct (pool_start _ (proj1 Hram)).
    unfold PAGE_SIZE. lia.
  - destruct Hw as [N1|[N1 N2]]; rewrite N1; [|rewrite N2]; by split.
Qed.

Lemma alter_set {T} (f : T -> T) (m : gmap Z T) i c :
  m !! i = Some c -> alter f i m = partial_alter (fun _ => Some (f c)) i m.
Proof.
  intros Hc. apply map_eq. intros j. destruct (decide (j = i)) as [->|Hne].
  - by rewrite lookup_alter_eq, lookup_partial_alter_eq, Hc.
  - by rewrite lookup_alter_ne, lookup_partial_alter_ne.
Qed.

Lemma alter_kid_set d (f : tree d -> tree d) i (t : tree (S d)) c :
  snd t !! i = Some c -> alter_kid f i t = (fst t, partial_alter (fun _ => Some (f c)) i (snd t)).
Proof. intros Hc. exact (f_equal (pair (fst t)) (alter_set f _ i c Hc)). Qed.

Lemma kids_alter {T} (f : T -> list Z) (g : T -> T) (m : gmap Z T) i c :
  m !! i = Some c -> kids f (alter g i m) ≡ₚ f (g c) ++ kids f (delete i m).
Proof.
  intros Hc. rewrite (kids_lookup f _ i (g c)).
  - by rewrite delete_alter_eq.
  - by rewrite lookup_alter_eq, Hc.
Qed.

Lemma table_at_split t va c3 :
  table_at t va = Some c3 ->
  exists c2, snd t !! l1_idx va = Some c2 /\ snd c2 !! l2_idx va = Some c3.
Proof. unfold table_at. destruct (snd t !! l1_idx va) as [c2|]; [|done]. intros H. by exists c2. Qed.

Lemma set_leaf_owned t va v :
  is_Some (table_at t va) -> owned 3 (set_leaf t va v) ≡ₚ owned 3 t.
Proof.
  intros [c3 (c2 & E1 & E2)%table_at_split]. unfold set_leaf. rewrite !owned_kids. cbn [alter_kid fst snd].
  apply Permutation_skip. rewrite (kids_alter _ _ _ _ _ E1), (kids_lookup _ _ _ _ E1).
  apply Permutation_app_tail. rewrite !owned_kids. cbn [alter_kid fst snd]. apply Permutation_skip.
  rewrite (kids_alter _ _ _ _ _ E2), (kids_lookup _ _ _ _ E2). apply Permutation_app_tail.
  rewrite !owned_kids. cbn [fst snd]. apply Permutation_skip.
  assert (Hn : forall m : gmap Z Z, kids (owned 0) m = []).
  { intros m. apply elem_of_nil_inv. intros x (i & c & _ & Hx)%kids_elem. by apply not_elem_of_nil in Hx. }
  by rewrite !Hn.
Qed.

Lemma set_leaf_ptes t va :
  is_Some (table_at t va) -> exists rest, ptes 3 t ≡ₚ option_list (leaf_at t va) ++ rest /\
    forall v, ptes 3 (set_leaf t va v) ≡ₚ option_list v ++ rest.
Proof.
  intros [c3 H3]. rewrite table_leaf, H3. cbn [mbind option_bind].
  apply table_at_split in H3 as (c2 & E1 & E2). set (i := l3_idx va).
  assert (Hm : forall (m : gmap Z Z) (v : option Z),
    kids (ptes 0) (partial_alter (fun _ => v) i m) ≡ₚ option_list v ++ kids (ptes 0) (delete i m)).
  { intros m [e|]; cbn [option_list app].
    - rewrite (kids_lookup (ptes 0) _ i e) by apply lookup_partial_alter_eq.
      cbn [ptes app]. apply Permutation_skip. apply (reflexive_eq (R := Permutation)). f_equal.
      apply map_eq. intros j. destruct (decide (j = i)) as [->|]; [by rewrite !lookup_delete_eq|].
      by rewrite !lookup_delete_ne, lookup_partial_alter_ne.
    - done. }
  exists (kids (ptes 0) (delete i (snd c3)) ++ kids (ptes 1) (delete (l2_idx va) (snd c2)) ++
          kids (ptes 2) (delete (l1_idx va) (snd t))).
  assert (Hself : partial_alter (fun _ => snd c3 !! i) i (snd c3) = snd c3).
  { apply map_eq. intros j. destruct (decide (j = i)) as [->|]; [by rewrite lookup_partial_alter_eq|].
    by rewrite lookup_partial_alter_ne. }
  split.
  - rewrite ptes_kids, (kids_lookup _ _ _ _ E1), ptes_kids, (kids_lookup _ _ _ _ E2), ptes_kids.
    rewrite <- Hself at 1. rewrite Hm. by rewrite <- !app_assoc.
  - intros v. unfold set_leaf. rewrite ptes_kids. cbn [alter_kid snd].
    rewrite (kids_alter _ _ _ _ _ E1), ptes_kids. cbn [alter_kid snd].
    rewrite (kids_alter _ _ _ _ _ E2), ptes_kids. cbn [fst snd]. fold i. rewrite Hm.
    by rewrite <- !app_assoc.
Qed.

Lemma table_owned t va c3 : table_at t va = Some c3 -> fst c3 ∈ owned 3 t.
Proof.
  intros (c2 & E1 & E2)%table_at_split. rewrite owned_kids. apply list_elem_of_further.
  apply (owned_kid 2 t _ _ _ E1). rewrite owned_kids. apply list_elem_of_further.
  apply (owned_kid 1 c2 _ _ _ E2), (owned_root 0 c3).
Qed.

Lemma owned_range d k (t : tree d) q : rep d k t -> q ∈ owned d t -> 0 <= q < pool_pages (pa k).
Proof.
  revert t. induction d as [|d IH]; intros t Ht Hq; [by apply not_elem_of_nil in Hq|].
  destruct Ht as (Hr & _ & Hk). rewrite owned_kids in Hq. apply elem_of_cons in Hq as [->|Hq]; [done|].
  apply kids_elem in Hq as (i & c & Hi & Hq). destruct (Hk i c Hi) as [_ Hc]. by apply (IH c).
Qed.

(** Tables of different subtrees are different pages. *)
Lemma kids_apart {T} (f : T -> list Z) (m : gmap Z T) i j c c' x :
  NoDup (kids f m) -> m !! i = Some c -> m !! j = Some c' -> i <> j -> x ∈ f c -> x ∉ f c'.
Proof.
  intros Hnd Hi Hj Hne Hx Hx'. rewrite (kids_lookup _ _ _ _ Hi) in Hnd.
  apply NoDup_app in Hnd as (_ & Hnd & _). apply (Hnd x Hx). apply kids_elem. exists j, c'.
  by rewrite lookup_delete_ne.
Qed.

Lemma kids_nodup {T} (f : T -> list Z) (m : gmap Z T) i c : NoDup (kids f m) -> m !! i = Some c -> NoDup (f c).
Proof. intros Hnd Hi. rewrite (kids_lookup _ _ _ _ Hi) in Hnd. by apply NoDup_app in Hnd as (? & _). Qed.

(** A cell of one table is no cell of another. *)
Lemma tables_apart k q q' a :
  pool_ok (pa k) -> 0 <= q < pool_pages (pa k) -> 0 <= q' < pool_pages (pa k) -> q <> q' ->
  in_table k q a -> ~ in_table k q' a.
Proof. intros Hp Hq Hq' Hne Ha Ha'. apply Hne. by eapply (in_page_unique (pa k)). Qed.

Lemma set_leaf_rep k t va v c3 :
  pool_ok (pa k) -> rep 3 k t -> NoDup (owned 3 t) -> table_at t va = Some c3 ->
  (forall e, v = Some e -> pte_ok k e) ->
  rep 3 (wr k (cell_at k (fst c3) (l3_idx va)) (default 0 v)) (set_leaf t va v).
Proof.
  intros Hp Ht Hnd H3 Hv. destruct (table_at_split _ _ _ H3) as (c2 & E1 & E2).
  destruct (idx_range va) as (R1 & R2 & R3).
  set (a := cell_at k (fst c3) (l3_idx va)). set (k' := wr k a (default 0 v)).
  assert (Hs : same_pool (pa k) (pa k')) by done.
  assert (Hq3 : 0 <= fst c3 < pool_pages (pa k)) by (eapply owned_range, table_owned, H3; done).
  rewrite owned_kids in Hnd. apply NoDup_cons in Hnd as [Hn1 Hnd1].
  assert (Hin2 : fst c3 ∈ owned 2 c2).
  { rewrite owned_kids. apply list_elem_of_further. apply (owned_kid 1 c2 _ _ _ E2), (owned_root 0 c3). }
  assert (Hother : forall q b, 0 <= q < pool_pages (pa k) -> q <> fst c3 -> in_table k q b -> rd k' b = rd k b).
  { intros q b Hq Hne Hb. apply rd_wr_ne. intros E. apply (tables_apart k q (fst c3) b); try done.
    rewrite <- E. by apply cell_in_table. }
  destruct Ht as (Hr1 & Hc1 & Hk1). destruct (Hk1 _ _ E1) as [_ Ht2]. assert (Ht2' := Ht2).
  destruct Ht2 as (Hr2 & Hc2 & Hk2). destruct (Hk2 _ _ E2) as [_ Ht3]. assert (Ht3' := Ht3).
  destruct Ht3 as (_ & Hc3 & Hk3).
  assert (Hnd2 := kids_nodup _ _ _ _ Hnd1 E1). rewrite owned_kids in Hnd2.
  apply NoDup_cons in Hnd2 as [Hn2 Hnd2].
  assert (Hrep3 : rep 1 k' (fst c3, partial_alter (fun _ => v) (l3_idx va) (snd c3))).
  { apply (rep_set_kid 0 k k' c3); try done.
    - fold a. unfold k'. rewrite rd_wr_eq. by destruct v.
    - intros j Hj Hne. apply rd_wr_ne. unfold a, cell_at. lia.
    - intros j c q b _ _ Hq. by apply not_elem_of_nil in Hq. }
  assert (Hrep2 : rep 2 k' (alter_kid (fun c3 : tree 1 =>
    (fst c3, partial_alter (fun _ => v) (l3_idx va) (snd c3)) : tree 1) (l2_idx va) c2)).
  { rewrite (alter_kid_set 1 _ _ c2 c3) by done. apply (rep_set_kid 1 k k' c2); try done.
    - rewrite (Hother (fst c2)); [| done| |by apply cell_in_table].
      + unfold cell_at. rewrite Hc2, E2 by done. done.
      + intros E. apply Hn2. rewrite E. apply (owned_kid 1 c2 _ _ _ E2), (owned_root 0 c3).
    - by intros c [= <-].
    - intros j Hj _. apply (Hother (fst c2)); [done| |by apply cell_in_table].
      intros E. apply Hn2. rewrite E. apply (owned_kid 1 c2 _ _ _ E2), (owned_root 0 c3).
    - intros j c q b Hne Hj Hq Hb. destruct (Hk2 _ _ Hj) as [_ Hc]. apply (Hother q); [by eapply owned_range| |done].
      intros ->. eapply (kids_apart (owned 1) (snd c2) (l2_idx va) j c3 c (fst c3)); try done.
      apply (owned_root 0 c3). }
  unfold set_leaf. rewrite (alter_kid_set 2 _ _ t c2) by done. apply (rep_set_kid 2 k k' t); try done.
  - rewrite (Hother (fst t)); [|done| |by apply cell_in_table].
    + unfold cell_at. rewrite Hc1 by done. by rewrite (slot_val_kid k 2 t (l1_idx va) c2 E1).
    + intros E. apply Hn1. rewrite E. apply (owned_kid 2 t _ _ _ E1), Hin2.
  - by intros c [= <-].
  - intros j Hj _. apply (Hother (fst t)); [done| |by apply cell_in_table].
    intros E. apply Hn1. rewrite E. apply (owned_kid 2 t _ _ _ E1), Hin2.
  - intros j c q b Hne Hj Hq Hb. destruct (Hk1 _ _ Hj) as [_ Hc]. apply (Hother q); [by eapply owned_range| |done].
    intros ->. eapply (kids_apart (owned 2) (snd t) (l1_idx va) j c2 c (fst c3)); try done.
Qed.
