(* ===== verification/PageMap.v ===== *)
(** * Address spaces in page tables

    [space k A mm t]: the page tables of [mm] represent the tree [t], their
    pages are blocks of the page allocator, and every leaf holds a reference
    to the page that it maps.  Mapping, unmapping and the copy of a shared
    page on a write refine updates of the map from addresses to leaf entries
    and account for the references. *)
From S2P Require Import Prelude PageAlloc Slub Errno AddrSpace Vma PageTable PageTree.

(** The number of leaves that map the page [q]. *)
Definition uses (k : slub) (t : tree 3) (q : Z) : Z :=
  Z.of_nat (length (filter (fun e => pte_pfn k e = q) (ptes 3 t))).

(** The page that holds the pointer to the tables. *)
Definition mm_page (k : slub) (mm : Z) : Z := addr_to_pfn (pa k) (mm + MM_pgd).

Record space (k : slub) (A : gmap Z Z) (mm : Z) (t : tree 3) : Prop := {
  sp_buddy : buddy_inv (pa k) A;
  sp_base : KERNEL_VIRT_BASE <= mem_start (pa k);
  sp_mm : mm <> 0;
  sp_root : rd k (mm + MM_pgd) = base_of k (fst t);
  sp_rep : rep 3 k t;
  sp_nodup : NoDup (owned 3 t);
  sp_owned : forall q, q ∈ owned 3 t -> A !! q = Some 0;
  sp_leaf : forall e, e ∈ ptes 3 t -> A !! pte_pfn k e = Some 0 /\ (pte_pfn k e ∉ owned 3 t) /\ pte_pfn k e <> mm_page k mm;
  sp_refs : forall q, 0 < uses k t q -> uses k t q <= (refcount (pa k)).[q];
  sp_cell : (exists p o, A !! p = Some o /\ covers p o (mm_page k mm)) /\ in_page (pa k) (mm_page k mm) (mm + MM_pgd) /\
              mm_page k mm ∉ owned 3 t
}.

(** Pages in use before and after, other than the tables, keep their bytes. *)
Definition pages_kept (k : slub) (A : gmap Z Z) (t : tree 3) (k' : slub) (A' : gmap Z Z) : Prop :=
  forall p o q a, A !! p = Some o -> A' !! p = Some o -> covers p o q -> q ∉ owned 3 t -> in_page (pa k) q a -> rd k' a = rd k a.

Lemma sp_ram k A mm t : space k A mm t -> ram k.
Proof. intros HS. split; [exact (inv_pool _ _ (sp_buddy _ _ _ _ HS))|exact (sp_base _ _ _ _ HS)]. Qed.

Lemma uses_same k k' t q : same_pool (pa k) (pa k') -> uses k' t q = uses k t q.
Proof.
  intros Hs. unfold uses. do 2 f_equal. apply list_filter_iff. intros e. by rewrite (pte_pfn_same k k').
Qed.

Lemma mm_page_same k k' mm : same_pool (pa k) (pa k') -> mm_page k' mm = mm_page k mm.
Proof. intros (E & _). unfold mm_page, addr_to_pfn. by rewrite E. Qed.

Lemma uses_set_leaf k t va v q :
  is_Some (table_at t va) ->
  uses k (set_leaf t va v) q =
    uses k t q - (match leaf_at t va with Some e => if decide (pte_pfn k e = q) then 1 else 0 | None => 0 end)
    + (match v with Some e => if decide (pte_pfn k e = q) then 1 else 0 | None => 0 end).
Proof.
  intros Ht. destruct (set_leaf_ptes t va Ht) as (rest & E1 & E2). unfold uses. rewrite E1, (E2 v), !filter_app, !length_app.
  destruct (leaf_at t va), v; unfold option_list; cbn [option_rect]; rewrite ?filter_cons, ?filter_nil;
    repeat case_decide; try done; cbn [length]; lia.
Qed.

Lemma uses_pos k t e : e ∈ ptes 3 t -> 0 < uses k t (pte_pfn k e).
Proof.
  intros He. unfold uses. assert (Hin : e ∈ filter (fun e' => pte_pfn k e' = pte_pfn k e) (ptes 3 t)) by (by apply list_elem_of_filter).
  destruct (filter _ _); [by apply not_elem_of_nil in Hin|cbn; lia].
Qed.

Lemma leaf_in t va e : leaf_at t va = Some e -> e ∈ ptes 3 t.
Proof.
  intros He. assert (Ht : is_Some (table_at t va)).
  { rewrite table_leaf in He. destruct (table_at t va); [by eexists|done]. }
  destruct (set_leaf_ptes t va Ht) as (rest & -> & _). rewrite He. cbn. left.
Qed.

(** ** Changes that keep a space *)

(** Changes of the state that leave the tables, the cell of the pointer and
    the references of the leaves alone. *)
Lemma space_frame k A mm t k' A' :
  space k A mm t -> buddy_inv (pa k') A' -> same_pool (pa k) (pa k') ->
  (forall q a, q ∈ owned 3 t -> in_page (pa k) q a -> rd k' a = rd k a) ->
  rd k' (mm + MM_pgd) = rd k (mm + MM_pgd) ->
  (forall q, q ∈ owned 3 t -> A' !! q = Some 0) -> (forall e, e ∈ ptes 3 t -> A' !! pte_pfn k e = Some 0) ->
  (forall q, 0 < uses k t q -> uses k t q <= (refcount (pa k')).[q]) ->
  (exists p o, A' !! p = Some o /\ covers p o (mm_page k mm)) -> space k' A' mm t.
Proof.
  intros HS HI' Hs Hmem Hcell Hown Hleaf Hrefs Hblk. destruct HS as [HI Hb Hm Hr Hrep Hnd Ho Hl Hu (_ & Hc2 & Hc3)].
  assert (Ep := mm_page_same k k' mm Hs). split; try done.
  - by destruct Hs as (-> & _).
  - rewrite Hcell, Hr. symmetry. by apply pfn_to_addr_same.
  - by apply (rep_same 3 k).
  - intros e He. rewrite (pte_pfn_same k k'), Ep by done. split; [by apply Hleaf|by apply Hl].
  - intros q. rewrite (uses_same k k') by done. apply Hrefs.
  - rewrite Ep. splits; [done| |done]. unfold in_page in *. by rewrite !(pfn_to_addr_same _ _ _ Hs).
Qed.

(** A leaf entry is written. *)
Lemma space_set_leaf k A mm t va v c3 :
  space k A mm t -> table_at t va = Some c3 ->
  (forall e, v = Some e -> pte_ok k e /\ A !! pte_pfn k e = Some 0 /\ (pte_pfn k e ∉ owned 3 t) /\ pte_pfn k e <> mm_page k mm) ->
  (forall q, 0 < uses k (set_leaf t va v) q -> uses k (set_leaf t va v) q <= (refcount (pa k)).[q]) ->
  let k' := wr k (cell_at k (fst c3) (l3_idx va)) (default 0 v) in
  space k' A mm (set_leaf t va v) /\ pages_kept k A t k' A.
Proof.
  intros HS H3 Hv Hu k'. destruct (idx_range va) as (_ & _ & R3). assert (Hin := table_owned t va c3 H3).
  assert (Ht : is_Some (table_at t va)) by (by exists c3). assert (Hperm := set_leaf_owned t va v Ht).
  assert (Hq3 := owned_range 3 k t (fst c3) (sp_rep _ _ _ _ HS) Hin). assert (Hp := inv_pool _ _ (sp_buddy _ _ _ _ HS)).
  assert (Hother : forall q a, 0 <= q < pool_pages (pa k) -> q <> fst c3 -> in_page (pa k) q a -> rd k' a = rd k a).
  { intros q a Hq Hne Ha. apply rd_wr_ne. intros E. apply (tables_apart k q (fst c3) a); try done. rewrite <- E. by apply cell_in_table. }
  destruct (sp_cell _ _ _ _ HS) as ((p & o & Hpo & Hcov) & Hc2 & Hc3).
  assert (Hmp : 0 <= mm_page k mm < pool_pages (pa k)) by exact (inv_covers_pool _ _ _ _ _ (sp_buddy _ _ _ _ HS) Hpo Hcov).
  split.
  - destruct HS as [HI Hb Hm Hr Hrep Hnd Ho Hl _ _]. split; try done.
    + apply (inv_write _ _ (fst c3) 0 (fst c3)); [done|by apply Ho|by apply covers_self|by apply cell_in_table].
    + rewrite (Hother (mm_page k mm)); [exact Hr|done|intros E; apply Hc3; by rewrite E|done].
    + apply set_leaf_rep; try done. intros e He. by apply Hv.
    + by rewrite Hperm.
    + intros q Hq. apply Ho. by rewrite <- Hperm.
    + intros e He. assert (Hcase : e ∈ ptes 3 t \/ v = Some e).
      { destruct (set_leaf_ptes t va Ht) as (rest & E1 & E2). rewrite (E2 v) in He. rewrite E1.
        apply elem_of_app in He as [He|He]; [|left; apply elem_of_app; by right]. destruct v; [|by apply not_elem_of_nil in He].
        apply list_elem_of_singleton in He as ->. by right. }
      rewrite Hperm. destruct Hcase as [He'|He']; [by apply Hl|by apply Hv].
    + rewrite Hperm. splits; [by exists p, o|done|done].
  - intros p' o' q a Hp' _ Hcov' Hq Ha. apply (Hother q); [exact (inv_covers_pool _ _ _ _ _ (sp_buddy _ _ _ _ HS) Hp' Hcov')| |done].
    by intros ->.
Qed.

(** A spare reference to a page is dropped. *)
Lemma space_put k A mm t p :
  space k A mm t -> A !! p = Some 0 -> p ∉ owned 3 t -> p <> mm_page k mm -> uses k t p < (refcount (pa k)).[p] ->
  let A' := if decide ((refcount (pa k)).[p] = 1) then delete p A else A in
  exists b, put_page (pa k) (Some p) = Some b /\ space (set_pa k b) A' mm t /\ same_pool (pa k) b /\
    refcount b = <[p := (refcount (pa k)).[p] - 1]> (refcount (pa k)) /\
    forall p' o q a, A' !! p' = Some o -> covers p' o q -> in_page (pa k) q a -> rd (set_pa k b) a = rd k a.
Proof.
  intros HS Hp Hno Hnm Hu A'. assert (HI := sp_buddy _ _ _ _ HS). assert (Hpool := inv_pool _ _ HI).
  assert (Hb : exists b, put_page (pa k) (Some p) = Some b /\ buddy_inv b A' /\ same_pool (pa k) b /\
    refcount b = <[p := (refcount (pa k)).[p] - 1]> (refcount (pa k)) /\
    forall p' o q a, A' !! p' = Some o -> covers p' o q -> in_page (pa k) q a -> (mem b).[a] = (mem (pa k)).[a]).
  { unfold A'. case_decide as E1.
    - destruct (put_page_last _ _ _ HI Hp E1) as (b & Eb & HI' & Hs & Er & Hw). exists b. rewrite E1.
      splits; try done. intros p' o q a Hp' Hc Ha. apply (writes_in_used (pa k) b _ p' o q a Hpool Hw Hp' Hc); [|exact Ha].
      apply lookup_delete_Some in Hp' as [_ Hp']. by eapply inv_covers_pool.
    - assert (Hr : 1 < (refcount (pa k)).[p]). { unfold uses in Hu. lia. }
      destruct (put_page_shared _ _ _ _ HI Hp Hr) as (b & Eb & HI' & Hs & Em & Er). exists b. splits; try done.
      intros. by rewrite Em. }
  destruct Hb as (b & Eb & HI' & Hs & Er & Hmem). exists b. splits; try done.
  assert (Hkeep : forall q o, A !! q = Some o -> q <> p -> A' !! q = Some o).
  { intros q o Hq Hne. unfold A'. case_decide; [by rewrite lookup_delete_ne|done]. }
  assert (Hleaf : forall e, e ∈ ptes 3 t -> A' !! pte_pfn k e = Some 0).
  { intros e He. destruct (sp_leaf _ _ _ _ HS e He) as (He0 & _ & _). unfold A'. case_decide as E1; [|done].
    rewrite lookup_delete_ne; [done|]. intros E. assert (Hpos := uses_pos k t e He). rewrite <- E in Hpos. lia. }
  assert (Hown : forall q, q ∈ owned 3 t -> A' !! q = Some 0).
  { intros q Hq. apply Hkeep; [by apply (sp_owned _ _ _ _ HS)|]. by intros ->. }
  destruct (sp_cell _ _ _ _ HS) as ((p0 & o0 & Hp0 & Hc0) & Hin & Hc3).
  assert (Hne0 : p0 <> p).
  { intros ->. assert (o0 = 0) as -> by congruence. unfold covers in Hc0. change (2 ^ 0) with 1 in Hc0. lia. }
  apply (space_frame k A); try done.
  - intros q a Hq Ha. apply (Hmem q 0 q a); [by apply Hown|by apply covers_self|done].
  - apply (Hmem p0 o0 (mm_page k mm)); [by apply Hkeep|done|done].
  - intros q. cbn [pa set_pa]. rewrite Er, arr_get_insert_case. case_decide as E; [subst; lia|]. apply (sp_refs _ _ _ _ HS).
  - exists p0, o0. split; [by apply Hkeep|done].
Qed.

(** What the code reads of a present leaf. *)
Lemma leaf_page k A mm t e :
  space k A mm t -> e ∈ ptes 3 t -> pte_ok k e ->
  has e 1 = true /\ virt_to_page (pa k) (pte_kva e) = Some (pte_pfn k e) /\ e <> 0.
Proof.
  intros HS He (Hr & Hb & Hp & Hk). splits.
  - by rewrite has_1.
  - rewrite Hk. apply virt_to_page_pool; [exact (inv_pool _ _ (sp_buddy _ _ _ _ HS))|done].
  - intros ->. by rewrite Z.bits_0 in Hb.
Qed.

Lemma ptes_ok d k (t : tree d) e : rep d k t -> e ∈ ptes d t -> pte_ok k e.
Proof.
  revert t. induction d as [|d IH]; intros t Ht He; [by apply list_elem_of_singleton in He as ->|].
  destruct Ht as (_ & _ & Hk). rewrite ptes_kids in He. apply kids_elem in He as (i & c & Hi & He).
  destruct (Hk i c Hi) as [_ Hc]. by apply (IH c).
Qed.

Definition drop_page (k : slub) (A : gmap Z Z) (p : Z) : gmap Z Z :=
  if decide ((refcount (pa k)).[p] = 1) then delete p A else A.

Lemma unmap_spec k A mm t va :
  space k A mm t ->
  match leaf_at t va with
  | None => unmap_page k mm va = Some k
  | Some e =>
      exists k', unmap_page k mm va = Some k' /\ space k' (drop_page k A (pte_pfn k e)) mm (set_leaf t va None) /\
        is_Some (table_at t va) /\
        refcount (pa k') = <[pte_pfn k e := (refcount (pa k)).[pte_pfn k e] - 1]> (refcount (pa k)) /\
        pages_kept k A t k' (drop_page k A (pte_pfn k e)) /\ same_pool (pa k) (pa k')
  end.
Proof.
  intros HS. assert (Hram := sp_ram _ _ _ _ HS). assert (Hw := walk_rep k t va Hram (sp_rep _ _ _ _ HS)). cbv zeta in Hw.
  unfold unmap_page. rewrite (sp_root _ _ _ _ HS). rewrite table_leaf. destruct (table_at t va) as [c3|] eqn:E3.
  2:{ cbn. destruct Hw as [->|[-> ->]]; done. }
  destruct Hw as (-> & -> & -> & El). cbn [mbind option_bind]. rewrite El. rewrite table_leaf, E3 in El |- *. cbn [mbind option_bind] in El |- *.
  destruct (snd c3 !! l3_idx va) as [e|] eqn:Ee; cbn [default]; [|done].
  assert (Hle : leaf_at t va = Some e) by (by rewrite table_leaf, E3). assert (Hin := leaf_in t va e Hle).
  assert (Hok := ptes_ok 3 k t e (sp_rep _ _ _ _ HS) Hin). destruct (leaf_page k A mm t e HS Hin Hok) as (Hh & Hvp & _).
  destruct (sp_leaf _ _ _ _ HS e Hin) as (HA & Hno & Hnm). cbn [from_option id]. rewrite Hh. cbn [negb]. fold (pte_kva e). rewrite Hvp.
  assert (Hu := fun q => uses_set_leaf k t va None q ltac:(by exists c3)). rewrite Hle in Hu.
  destruct (space_set_leaf k A mm t va None c3 HS E3) as [HS1 Hk1]; [done| |].
  { intros q. rewrite Hu. assert (Hr := sp_refs _ _ _ _ HS q). case_decide; lia. }
  cbn [default from_option id] in HS1, Hk1. fold (cell_at k (fst c3) (l3_idx va)). unfold pte_set.
  set (k1 := wr k (cell_at k (fst c3) (l3_idx va)) 0) in *.
  assert (Hperm := set_leaf_owned t va None ltac:(by exists c3)).
  destruct (space_put k1 A mm (set_leaf t va None) (pte_pfn k e) HS1 HA) as (b & -> & HS2 & Hs & Er & Hk2).
  { by rewrite Hperm. }
  { done. }
  { change (uses k1) with (uses k). rewrite Hu, decide_True by done. assert (Hr := sp_refs _ _ _ _ HS (pte_pfn k e) (uses_pos k t e Hin)).
    change (refcount (pa k1)) with (refcount (pa k)). lia. }
  cbn [mbind option_bind]. exists (set_pa k1 b). splits; [done|exact HS2|by exists c3|exact Er| |exact Hs].
  intros p o q a Hp Hp' Hc Hq Ha. rewrite (Hk2 p o q a Hp' Hc Ha). by apply (Hk1 p o q).
Qed.

(** A fresh page. *)
Lemma space_alloc k A mm t :
  space k A mm t ->
  alloc_pages (pa k) 0 = Some (0, pa k) \/
  exists p b, alloc_pages (pa k) 0 = Some (base_of k p, b) /\ 0 <= p < pool_pages (pa k) /\ outside A p /\
    space (set_pa k b) (<[p := 0]> A) mm t /\ same_pool (pa k) b /\ refcount b = <[p := 1]> (refcount (pa k)) /\
    (p ∉ owned 3 t) /\ p <> mm_page k mm /\ uses k t p = 0 /\
    forall p' o q a, A !! p' = Some o -> covers p' o q -> in_page (pa k) q a -> rd (set_pa k b) a = rd k a.
Proof.
  intros HS. assert (HI := sp_buddy _ _ _ _ HS). assert (Hpool := inv_pool _ _ HI).
  destruct (alloc_pages_rep (pa k) A 0 HI) as [[E _]|(p & b & E & Hp & Hrun & HI' & Hs & Er & Hw)];
    [destruct (pool_order _ Hpool); lia|by left|right].
  assert (Hout : outside A p) by (apply Hrun; by apply covers_self).
  assert (Hnone : forall q o, A !! q = Some o -> 0 <= o -> q <> p).
  { intros q o Hq Ho ->. by apply (Hout p o Hq), covers_self. }
  assert (Hmem : forall p' o q a, A !! p' = Some o -> covers p' o q -> in_page (pa k) q a -> (mem b).[a] = (mem (pa k)).[a]).
  { intros p' o q a Hp' Hc Ha. apply (writes_in_used (pa k) b _ p' o q a Hpool Hw Hp' Hc); [|exact Ha]. by eapply inv_covers_pool. }
  assert (Hno : p ∉ owned 3 t) by (intros Hq; by apply (Hnone p 0 (sp_owned _ _ _ _ HS p Hq))).
  destruct (sp_cell _ _ _ _ HS) as ((p0 & o0 & Hp0 & Hc0) & Hin & Hc3).
  assert (Hnm : p <> mm_page k mm) by (intros ->; by apply (Hout p0 o0)).
  assert (Hu : uses k t p = 0).
  { destruct (decide (uses k t p = 0)) as [|Hne]; [done|]. exfalso. unfold uses in Hne.
    destruct (filter _ _) as [|e l] eqn:Ef; [done|]. assert (He : e ∈ filter (fun e => pte_pfn k e = p) (ptes 3 t)) by (rewrite Ef; left).
    apply list_elem_of_filter in He as [Ep He]. by apply (Hnone (pte_pfn k e) 0 (proj1 (sp_leaf _ _ _ _ HS e He))). }
  destruct (Hp) as [Hp1 Hp2]. exists p, b. splits; try done. apply (space_frame k A); try done.
  - intros q a Hq Ha. apply (Hmem q 0 q a); [by apply (sp_owned _ _ _ _ HS)|by apply covers_self|done].
  - by apply (Hmem p0 o0 (mm_page k mm)).
  - intros q Hq. assert (Hq0 := sp_owned _ _ _ _ HS q Hq). rewrite lookup_insert_ne; [done|]. by apply not_eq_sym, (Hnone q 0).
  - intros e He. assert (Hq0 := proj1 (sp_leaf _ _ _ _ HS e He)). rewrite lookup_insert_ne; [done|]. by apply not_eq_sym, (Hnone _ 0).
  - intros q. cbn [pa set_pa]. rewrite Er, arr_get_insert_case. case_decide as Eq; [subst; lia|]. apply (sp_refs _ _ _ _ HS).
  - exists p0, o0. split; [|done]. rewrite lookup_insert_ne; [done|]. intros <-. apply Hnm.
    assert (Ho0 : 0 <= o0) by (destruct (inv_used_block _ _ _ _ HI Hp0) as ((? & _) & _); lia). by destruct (Hnone p o0 Hp0 Ho0).
Qed.

(** The bytes of a page that is no table change. *)
Lemma space_mem k A mm t p m :
  space k A mm t -> A !! p = Some 0 -> p ∉ owned 3 t -> p <> mm_page k mm ->
  (forall a, ~ in_page (pa k) p a -> m.[a] = rd k a) -> space (set_pa k (set_mem (pa k) m)) A mm t.
Proof.
  intros HS Hp Hno Hnm Hm. assert (HI := sp_buddy _ _ _ _ HS). assert (Hpool := inv_pool _ _ HI).
  assert (Hpr : 0 <= p < pool_pages (pa k)) by (eapply inv_covers_pool; [done|exact Hp|by apply covers_self]).
  assert (Hother : forall q a, 0 <= q < pool_pages (pa k) -> q <> p -> in_page (pa k) q a -> m.[a] = rd k a).
  { intros q a Hq Hne Ha. apply Hm. intros Ha'. by apply Hne, (in_page_unique (pa k) q p a). }
  destruct (sp_cell _ _ _ _ HS) as ((p0 & o0 & Hp0 & Hc0) & Hin & Hc3).
  apply (space_frame k A); try done.
  - apply inv_set_mem; [done|]. intros q Hq Hout. apply (Hother q); [done| |apply in_page_base].
    intros ->. by apply (Hout p 0 Hp), covers_self.
  - intros q a Hq Ha. apply (Hother q a); [by apply (owned_range 3 k t q (sp_rep _ _ _ _ HS))|by intros ->|done].
  - apply (Hother (mm_page k mm)); [by eapply inv_covers_pool|by apply not_eq_sym|done].
  - apply HS.
  - intros e He. by apply (sp_leaf _ _ _ _ HS).
  - apply (sp_refs _ _ _ _ HS).
  - by exists p0, o0.
Qed.

Lemma memcpy_spec n : forall k dst src,
  (dst + Z.of_nat n <= src \/ src + Z.of_nat n <= dst) ->
  exists m, memcpy n k dst src = set_pa k (set_mem (pa k) m) /\
    forall a, m.[a] = if decide (dst <= a < dst + Z.of_nat n) then rd k (src + (a - dst)) else rd k a.
Proof.
  induction n as [|n IH]; intros k dst src Hd.
  - exists (mem (pa k)). split; [by destruct k as [[]]|]. intros a. rewrite decide_False by lia. done.
  - destruct (IH (wr k dst (rd k src)) (dst + 1) (src + 1)) as (m & E & Hm); [lia|]. exists m. split; [cbn [memcpy]; by rewrite E|].
    intros a. rewrite Hm, !rd_wr. repeat case_decide; try lia; try done.
    + f_equal. lia.
    + f_equal. lia.
Qed.

(** ** Entries of the copy *)

Lemma u64_range x : Z.land x (Z.ones 64) = x -> 0 <= x < 2 ^ 64.
Proof. intros <-. rewrite Z.land_ones by lia. apply Z.mod_pos_bound. lia. Qed.

Lemma u64_mask x : 0 <= x < 2 ^ 64 -> Z.land x (Z.ones 64) = x.
Proof. intros Hx. rewrite Z.land_ones by lia. by apply Z.mod_small. Qed.

Lemma mkwrite_addr e : Z.land (pte_mkwrite e) PTE_ADDR_MASK = Z.land e PTE_ADDR_MASK.
Proof. unfold pte_mkwrite. rewrite <- Z.land_assoc. f_equal. Qed.

Lemma mkwrite_spec k e :
  pte_ok k e -> pte_ok k (pte_mkwrite e) /\ pte_pfn k (pte_mkwrite e) = pte_pfn k e /\ pte_write (pte_mkwrite e) = true.
Proof.
  intros (Hr & Hb & Hp & Hk). assert (Ek : pte_kva (pte_mkwrite e) = pte_kva e) by (unfold pte_kva; by rewrite mkwrite_addr).
  assert (Ep : pte_pfn k (pte_mkwrite e) = pte_pfn k e) by (unfold pte_pfn; by rewrite Ek).
  assert (Hb' : Z.testbit (pte_mkwrite e) 0 = true) by (unfold pte_mkwrite; by rewrite Z.land_spec, Hb).
  assert (Hr' : 0 <= pte_mkwrite e < 2 ^ 64) by (apply u64_range; unfold pte_mkwrite; rewrite <- Z.land_assoc; f_equal).
  split; [|split; [done|]].
  - unfold pte_ok. by rewrite Ep, Ek.
  - unfold pte_write, pte_present. rewrite has_1, Hb'. cbn. apply negb_true_iff. rewrite has_rdonly. unfold pte_mkwrite.
    rewrite Z.land_spec. apply andb_false_r.
Qed.

(** The entry that maps the copy at page [p] with the flags of [e]. *)
Definition cow_pte (k : slub) (p e : Z) : Z :=
  pte_mkwrite (Z.lor (Z.land (virt_to_phys (base_of k p)) PTE_ADDR_MASK) (Z.land e PTE_FLAGS_MASK)).

Lemma cow_pte_spec k p e :
  ram k -> 0 <= p < pool_pages (pa k) -> pte_ok k e ->
  pte_ok k (cow_pte k p e) /\ pte_pfn k (cow_pte k p e) = p /\ pte_write (cow_pte k p e) = true /\
  Z.land (cow_pte k p e) PTE_FLAGS_MASK = Z.land (pte_mkwrite e) PTE_FLAGS_MASK.
Proof.
  intros [Hpool Hb] Hp (Hr & H0 & _). destruct (pool_phys _ _ Hpool Hb Hp) as (_ & E2 & Hv & _ & E5). fold (base_of k p) in *.
  unfold cow_pte. rewrite E5. set (x := Z.lor (virt_to_phys (base_of k p)) (Z.land e PTE_FLAGS_MASK)).
  assert (Ea : Z.land x PTE_ADDR_MASK = virt_to_phys (base_of k p)).
  { unfold x. rewrite addr_mask_lor; [done|]. rewrite <- Z.land_assoc. apply Z.land_0_r. }
  assert (Ekva : pte_kva x = base_of k p) by (unfold pte_kva; by rewrite Ea).
  assert (Epfn : pte_pfn k x = p) by (unfold pte_pfn; rewrite Ekva; by apply addr_to_pfn_roundtrip).
  assert (Hx : pte_ok k x).
  { unfold pte_ok. rewrite Epfn, Ekva. split; [|split; [|done]].
    - apply u64_range. unfold x. rewrite Z.land_lor_distr_l, (u64_mask (virt_to_phys _)) by lia. f_equal.
      rewrite <- Z.land_assoc. f_equal.
    - unfold x. rewrite Z.lor_spec, Z.land_spec, H0. apply orb_true_r. }
  destruct (mkwrite_spec k x Hx) as (H1 & H2 & H3). splits; try done; [by rewrite H2|].
  unfold pte_mkwrite. rewrite <- !Z.land_assoc. rewrite (Z.land_comm (u64 _) PTE_FLAGS_MASK), !Z.land_assoc. f_equal.
  unfold x. rewrite Z.land_lor_distr_l, <- E5, <- !Z.land_assoc. rewrite Z.land_diag. change (Z.land PTE_ADDR_MASK PTE_FLAGS_MASK) with 0.
  by rewrite Z.land_0_r, Z.lor_0_l.
Qed.

Lemma memcpy_z n k dst src :
  0 <= n -> (dst + n <= src \/ src + n <= dst) ->
  exists m, memcpy (Z.to_nat n) k dst src = set_pa k (set_mem (pa k) m) /\
    forall a, m.[a] = if decide (dst <= a < dst + n) then rd k (src + (a - dst)) else rd k a.
Proof. intros Hn. generalize (memcpy_spec (Z.to_nat n) k dst src). by rewrite Z2Nat.id. Qed.

Lemma space_count k A mm t p : space k A mm t -> A !! p = Some 0 -> page_count (pa k) (Some p) = (refcount (pa k)).[p] /\ 1 <= (refcount (pa k)).[p].
Proof.
  intros HS Hp. assert (HI := sp_buddy _ _ _ _ HS). destruct (inv_used_block _ _ _ _ HI Hp) as (_ & Hr & _).
  destruct HI as (L & B & _ & _ & _ & HF). specialize (HF p Hr). rewrite Hp in HF. unfold page_count.
  split; [apply wrapu_id|]; lia.
Qed.

(** The copy of a shared page behind a leaf. *)
Lemma cow_copy_spec k A mm t va c3 e :
  space k A mm t -> table_at t va = Some c3 -> leaf_at t va = Some e -> 1 < (refcount (pa k)).[pte_pfn k e] ->
  forall p b, alloc_pages (pa k) 0 = Some (base_of k p, b) -> 0 <= p < pool_pages (pa k) -> outside A p ->
  space (set_pa k b) (<[p := 0]> A) mm t -> same_pool (pa k) b -> refcount b = <[p := 1]> (refcount (pa k)) ->
  p ∉ owned 3 t -> p <> mm_page k mm -> uses k t p = 0 ->
  (forall p' o q a, A !! p' = Some o -> covers p' o q -> in_page (pa k) q a -> rd (set_pa k b) a = rd k a) ->
  forall m, (forall a, m.[a] = if decide (base_of k p <= a < base_of k p + PAGE_SIZE)
                               then rd (set_pa k b) (pte_kva e + (a - base_of k p)) else rd (set_pa k b) a) ->
  let k1 := set_pa k (set_mem b m) in
  let k2 := wr k1 (cell_at k (fst c3) (l3_idx va)) (cow_pte k p e) in
  exists b', put_page (pa k2) (Some (pte_pfn k e)) = Some b' /\
    space (set_pa k2 b') (<[p := 0]> A) mm (set_leaf t va (Some (cow_pte k p e))) /\
    (forall d, 0 <= d < PAGE_SIZE -> rd (set_pa k2 b') (base_of k p + d) = rd k (base_of k (pte_pfn k e) + d)) /\
    refcount b' = <[pte_pfn k e := (refcount (pa k)).[pte_pfn k e] - 1]> (<[p := 1]> (refcount (pa k))) /\
    pages_kept k A t (set_pa k2 b') (<[p := 0]> A) /\ same_pool (pa k) b'.
Proof.
  intros HS H3 He Hsh p b Ea Hp Hout HSb Hs Er Hno Hnm Hu0 Hmb m Hm k1 k2. set (o := pte_pfn k e) in *.
  assert (Hin := leaf_in t va e He). assert (Hok := ptes_ok 3 k t e (sp_rep _ _ _ _ HS) Hin). destruct (Hok) as (_ & _ & Hor & Hkva). fold o in Hor, Hkva.
  destruct (sp_leaf _ _ _ _ HS e Hin) as (HAo & Hoo & Hom). fold o in HAo, Hoo, Hom.
  assert (Hop : o <> p) by (intros E; rewrite E in HAo; by apply (Hout p 0 HAo), covers_self).
  assert (Hpool := inv_pool _ _ (sp_buddy _ _ _ _ HS)).
  assert (HS1 : space k1 (<[p := 0]> A) mm t).
  { apply (space_mem (set_pa k b) _ mm t p m HSb); [apply lookup_insert_eq|done| |].
    - by rewrite (mm_page_same k (set_pa k b)).
    - intros a Ha. rewrite Hm, decide_False; [done|]. intros Ha'. apply Ha. unfold in_page. cbn [pa set_pa].
      by rewrite (pfn_to_addr_same _ _ _ Hs). }
  assert (Hs1 : same_pool (pa k) (pa k1)) by exact Hs.
  assert (Er1 : refcount (pa k1) = <[p := 1]> (refcount (pa k))) by exact Er.
  destruct (cow_pte_spec k p e (sp_ram _ _ _ _ HS) Hp Hok) as (Hok' & Epf & _ & _). set (e' := cow_pte k p e) in *.
  assert (Epf1 : pte_pfn k1 e' = p) by (by rewrite (pte_pfn_same k k1)).
  assert (Hu := fun q => uses_set_leaf k1 t va (Some e') q ltac:(by exists c3)).
  assert (Hu1 : forall q, uses k1 t q = uses k t q) by (intros q; by apply uses_same).
  rewrite He, Epf1, (pte_pfn_same k k1 e Hs1) in Hu. fold o in Hu.
  assert (Ecell : cell_at k1 (fst c3) (l3_idx va) = cell_at k (fst c3) (l3_idx va)).
  { unfold cell_at, base_of. by rewrite (pfn_to_addr_same _ _ _ Hs1). }
  assert (Hru : uses k t o <= (refcount (pa k)).[o]) by (apply (sp_refs _ _ _ _ HS), uses_pos, Hin).
  destruct (space_set_leaf k1 _ mm t va (Some e') c3 HS1 H3) as [HS2 Hk2].
  { intros x Ex. assert (x = e') as -> by congruence. rewrite Epf1, (mm_page_same k k1) by done. splits; [by apply (pte_ok_same k)|apply lookup_insert_eq|done|done]. }
  { intros q. rewrite Hu, Hu1, Er1, arr_get_insert_case. assert (Hr := sp_refs _ _ _ _ HS q).
    destruct (decide (p = q)) as [<-|Hne]; [rewrite decide_False by done; lia|]. destruct (decide (o = q)); lia. }
  cbn [default from_option id] in HS2, Hk2. rewrite Ecell in HS2, Hk2. fold k2 in HS2, Hk2.
  assert (Hperm := set_leaf_owned t va (Some e') ltac:(by exists c3)).
  destruct (space_put k2 _ mm _ o HS2) as (b' & Eb' & HS3 & Hs3 & Er3 & Hk3).
  { by rewrite lookup_insert_ne. }
  { by rewrite Hperm. }
  { rewrite (mm_page_same k k2); done. }
  { change (uses k2) with (uses k1). change (refcount (pa k2)) with (refcount (pa k1)).
    rewrite Hu, Hu1, Er1, arr_get_insert_ne, decide_True, decide_False by done. lia. }
  change (refcount (pa k2)) with (refcount (pa k1)) in *. rewrite Er1 in Er3. rewrite arr_get_insert_ne in Er3 by done.
  rewrite Er1, arr_get_insert_ne, decide_False in HS3, Hk3 by (done || lia).
  exists b'. splits; [done|done| |done| |etransitivity; [exact Hs1|exact Hs3]].
  - intros d Hd. rewrite (Hk3 p 0 p); [|apply lookup_insert_eq|by apply covers_self|].
    2:{ unfold in_page, base_of. rewrite (pfn_to_addr_same _ _ p (Hs1 : same_pool (pa k) (pa k2))). lia. }
    rewrite (Hk2 p 0 p); [|apply lookup_insert_eq|apply lookup_insert_eq|by apply covers_self|done|].
    2:{ unfold in_page, base_of. rewrite (pfn_to_addr_same _ _ p Hs1). lia. }
    change (rd k1 (base_of k p + d)) with (m.[base_of k p + d]). rewrite Hm, decide_True by lia. rewrite Hkva.
    replace (base_of k p + d - base_of k p) with d by lia.
    apply (Hmb o 0 o); [done|by apply covers_self|]. unfold in_page, base_of. lia.
  - intros p' o' q a Hp' Hp'' Hc Hq Ha.
    assert (Ha1 : in_page (pa k1) q a) by (unfold in_page in *; by rewrite !(pfn_to_addr_same _ _ q Hs1)).
    rewrite (Hk3 p' o' q a Hp'' Hc Ha1), (Hk2 p' o' q a Hp'' Hp'' Hc Hq Ha1). change (rd k1 a) with (m.[a]). rewrite Hm, decide_False; [by apply (Hmb p' o' q)|].
    intros Ha'. assert (Hqr := inv_covers_pool _ _ _ _ _ (sp_buddy _ _ _ _ HS) Hp' Hc).
    assert (q = p) as -> by (by apply (in_page_unique (pa k) q p a)). by apply (Hout p' o').
Qed.

#[local] Opaque memcpy.

Lemma leaf_bits k A mm t va c3 e :
  space k A mm t -> table_at t va = Some c3 -> leaf_at t va = Some e ->
  l3_slot k mm va = cell_at k (fst c3) (l3_idx va) /\ l3_slot k mm va <> 0 /\ rd k (l3_slot k mm va) = e.
Proof.
  intros HS H3 He. destruct (l3_slot_rep k mm t va (sp_ram _ _ _ _ HS) (sp_rep _ _ _ _ HS) (sp_mm _ _ _ _ HS) (sp_root _ _ _ _ HS)) as [E Hc].
  rewrite H3 in E. destruct (Hc c3 H3) as [Hnz Hrd]. rewrite E. splits; [done|done|]. by rewrite Hrd, He.
Qed.

Lemma cow_spec k A mm t va flags e :
  space k A mm t -> leaf_at t va = Some e -> pte_cow_candidate e flags = true ->
  let p := pte_pfn k e in
  (do_cow_fault k mm va flags = Some (- ENOMEM, k) /\ 1 < (refcount (pa k)).[p]) \/
  exists k' A' e', do_cow_fault k mm va flags = Some (0, k') /\ space k' A' mm (set_leaf t va (Some e')) /\ is_Some (table_at t va) /\
    pte_write e' = true /\ Z.land e' PTE_FLAGS_MASK = Z.land (pte_mkwrite e) PTE_FLAGS_MASK /\
    (forall d, 0 <= d < PAGE_SIZE -> rd k' (base_of k (pte_pfn k e') + d) = rd k (base_of k p + d)) /\
    (refcount (pa k')).[pte_pfn k e'] = 1 /\ pages_kept k A t k' A' /\ same_pool (pa k) (pa k') /\
    (forall q, q <> p -> q <> pte_pfn k e' -> (refcount (pa k')).[q] = (refcount (pa k)).[q]) /\
    (if decide ((refcount (pa k)).[p] = 1) then A' = A /\ pte_pfn k e' = p
     else outside A (pte_pfn k e') /\ A' = <[pte_pfn k e' := 0]> A /\ (refcount (pa k')).[p] = (refcount (pa k)).[p] - 1).
Proof.
  intros HS He Hcand p. assert (H3 : exists c3, table_at t va = Some c3).
  { rewrite table_leaf in He. destruct (table_at t va); [by eexists|done]. }
  destruct H3 as [c3 H3]. destruct (leaf_bits k A mm t va c3 e HS H3 He) as (Es & Hnz & Hrd).
  assert (Hin := leaf_in t va e He). assert (Hok := ptes_ok 3 k t e (sp_rep _ _ _ _ HS) Hin).
  destruct (leaf_page k A mm t e HS Hin Hok) as (_ & Hvp & _). fold p in Hvp.
  destruct (sp_leaf _ _ _ _ HS e Hin) as (HA & Hno & Hnm). fold p in HA, Hno, Hnm.
  destruct (space_count k A mm t p HS HA) as [Hcnt Hpos]. assert (Hpr : 0 <= p < pool_pages (pa k)) by apply Hok.
  unfold do_cow_fault. rewrite (proj2 (Z.eqb_neq _ _) Hnz), Hrd, Hcand. cbn [negb]. fold (pte_kva e). rewrite Hvp, Hcnt.
  destruct (Z.eqb_spec ((refcount (pa k)).[p]) 1) as [E1|E1].
  - right. destruct (mkwrite_spec k e Hok) as (Hok' & Epf & Hwr). fold p in Epf.
    destruct (space_set_leaf k A mm t va (Some (pte_mkwrite e)) c3 HS H3) as [HS' Hk'].
    { intros x Ex. assert (x = pte_mkwrite e) as -> by congruence. by rewrite Epf. }
    { intros q. rewrite uses_set_leaf, He, Epf by (by exists c3). fold p. assert (Hr := sp_refs _ _ _ _ HS q). case_decide; lia. }
    cbn [default from_option id] in HS', Hk'. unfold pte_set. rewrite Es. eexists _, A, (pte_mkwrite e). rewrite Epf, decide_True by done.
    splits; try done. intros d Hd. apply (Hk' p 0 p); [done|done|by apply covers_self|done|]. unfold in_page, base_of. lia.
  - destruct (space_alloc k A mm t HS) as [Eal|(p' & b & Eal & Hp' & Hout & HSb & Hs & Er & Hno' & Hnm' & Hu' & Hmb)];
      rewrite Eal; cbn [mbind option_bind].
    { left. split; [|lia]. change (0 =? 0) with true. cbn iota. by destruct k. }
    right. assert (Hbnz : base_of k p' <> 0) by (apply pfn_to_addr_nonzero; [apply (inv_pool _ _ (sp_buddy _ _ _ _ HS))|done]).
    rewrite (proj2 (Z.eqb_neq _ _) Hbnz).
    assert (Hpool := inv_pool _ _ (sp_buddy _ _ _ _ HS)). destruct (Hok) as (_ & _ & _ & Hkva). fold p in Hkva.
    assert (Hop : p <> p') by (intros E; rewrite E in HA; by apply (Hout p' 0 HA), covers_self).
    destruct (memcpy_z PAGE_SIZE (set_pa k b) (base_of k p') (pte_kva e)) as (m & Emc & Hm); [unfold PAGE_SIZE; lia| |].
    { rewrite Hkva. unfold base_of. rewrite !pfn_to_addr_eq by done. unfold PAGE_SIZE. lia. }
    rewrite Emc. clear Emc. change (set_pa (set_pa k b) (set_mem (pa (set_pa k b)) m)) with (set_pa k (set_mem b m)).
    destruct (cow_copy_spec k A mm t va c3 e HS H3 He ltac:(fold p; lia) p' b Eal Hp' Hout HSb Hs Er Hno' Hnm' Hu' Hmb m Hm)
      as (b' & Eb' & HS' & Hcp & Er' & Hkp & Hs').
    fold (cow_pte k p' e). unfold pte_set. rewrite Es. fold p in Eb', Er'. rewrite Eb'. cbn [mbind option_bind].
    destruct (cow_pte_spec k p' e (sp_ram _ _ _ _ HS) Hp' Hok) as (_ & Epf & Hwr & Hfl).
    eexists _, _, (cow_pte k p' e). rewrite Epf, decide_False by done. splits; [done|exact HS'|by exists c3|done|done|exact Hcp| |exact Hkp|exact Hs'| |done|done|].
    + cbn [set_pa pa]. by rewrite Er', arr_get_insert_ne, arr_get_insert.
    + intros q Hq1 Hq2. cbn [set_pa pa]. by rewrite Er', !arr_get_insert_ne.
    + cbn [set_pa pa]. by rewrite Er', arr_get_insert.
Qed.

(** ** New tables *)

(** The tree with an empty table at page [p] below the entry [i]. *)
Definition add_table {d} (p i : Z) (t : tree (S (S d))) : tree (S (S d)) := (fst t, <[i := (p, ∅) : tree (S d)]> (snd t)).

Lemma add_table_owned d p i (t : tree (S (S d))) : snd t !! i = None -> owned (S (S d)) (add_table p i t) ≡ₚ p :: owned (S (S d)) t.
Proof.
  intros Hi. rewrite !owned_kids. unfold add_table. cbn [fst snd]. rewrite (kids_insert _ _ _ _ Hi), owned_kids. cbn [fst snd].
  rewrite kids_empty. cbn [app]. apply Permutation_swap.
Qed.

Lemma add_table_ptes d p i (t : tree (S (S d))) : snd t !! i = None -> ptes (S (S d)) (add_table p i t) ≡ₚ ptes (S (S d)) t.
Proof.
  intros Hi. rewrite !ptes_kids. unfold add_table. cbn [fst snd]. rewrite (kids_insert _ _ _ _ Hi), ptes_kids. cbn [fst snd].
  by rewrite kids_empty.
Qed.

Lemma zeroed_rep d k p :
  0 <= p < pool_pages (pa k) -> (forall a, in_table k p a -> rd k a = 0) -> rep (S d) k ((p, ∅) : tree (S d)).
Proof.
  intros Hp Hz. cbn [rep fst snd]. split; [done|]. split.
  - intros i Hi. rewrite lookup_empty. apply Hz. unfold in_table, PAGE_SIZE. lia.
  - intros i c Hi. by rewrite lookup_empty in Hi.
Qed.

Lemma partial_alter_insert {T} (m : gmap Z T) i x : partial_alter (fun _ => Some x) i m = <[i := x]> m.
Proof. done. Qed.

(** One cell of the table [fst t] is written: the rest of the subtree stays. *)
Lemma add_table_rep d k (t : tree (S (S d))) p i :
  pool_ok (pa k) -> rep (S (S d)) k t -> NoDup (owned (S (S d)) t) -> 0 <= i < 512 -> 0 <= p < pool_pages (pa k) ->
  p ∉ owned (S (S d)) t -> (forall a, in_table k p a -> rd k a = 0) ->
  rep (S (S d)) (wr k (cell_at k (fst t) i) (Z.lor (virt_to_phys (base_of k p)) PTE_TABLE)) (add_table p i t).
Proof.
  intros Hp Ht Hnd Hi Hpr Hno Hz. set (k' := wr k _ _). assert (Hroot := owned_root (S d) t).
  assert (Hq := owned_range _ _ _ _ Ht Hroot). rewrite owned_kids in Hnd. apply NoDup_cons in Hnd as [Hn Hnd].
  assert (Hother : forall q a, 0 <= q < pool_pages (pa k) -> q <> fst t -> in_table k q a -> rd k' a = rd k a).
  { intros q a Hqr Hne Ha. apply rd_wr_ne. intros E. apply (tables_apart k q (fst t) a); try done. rewrite <- E. by apply cell_in_table. }
  unfold add_table. rewrite <- partial_alter_insert. apply (rep_set_kid (S d) k k' t); try done.
  - unfold k'. by rewrite rd_wr_eq.
  - intros c [= <-]. apply zeroed_rep; [done|]. intros a Ha. change (in_table k p a) in Ha.
    rewrite (Hother p); [by apply Hz|done| |done]. by intros ->.
  - intros j Hj Hne. apply rd_wr_ne. unfold cell_at. lia.
  - intros j c q a Hne Hj Hqc Ha. destruct Ht as (_ & _ & Hk). destruct (Hk j c Hj) as [_ Hc].
    apply (Hother q); [by eapply owned_range| |done]. intros ->. apply Hn. by apply (owned_kid (S d) t j c).
Qed.

(** A space with one more table. *)
Lemma space_grow k A mm t t' p q i v :
  space k A mm t -> A !! p = Some 0 -> p ∉ owned 3 t -> p <> mm_page k mm -> uses k t p = 0 ->
  q ∈ owned 3 t -> 0 <= i < 512 -> let k' := wr k (cell_at k q i) v in
  rep 3 k' t' -> owned 3 t' ≡ₚ p :: owned 3 t -> ptes 3 t' ≡ₚ ptes 3 t -> fst t' = fst t ->
  space k' A mm t' /\ forall a, (forall q', q' ∈ owned 3 t -> ~ in_page (pa k) q' a) -> rd k' a = rd k a.
Proof.
  intros HS Hp Hno Hnm Hu Hq Hi k' Hrep Hown Hpt Hroot. assert (HI := sp_buddy _ _ _ _ HS). assert (Hpool := inv_pool _ _ HI).
  destruct (sp_cell _ _ _ _ HS) as ((p0 & o0 & Hp0 & Hc0) & Hin & Hc3).
  assert (Hmp := inv_covers_pool _ _ _ _ _ HI Hp0 Hc0). assert (Hqr := owned_range 3 k t q (sp_rep _ _ _ _ HS) Hq).
  assert (Hframe : forall a, (forall q', q' ∈ owned 3 t -> ~ in_page (pa k) q' a) -> rd k' a = rd k a).
  { intros a Ha. apply rd_wr_ne. intros E. apply (Ha q Hq). rewrite <- E. by apply cell_in_table. }
  split; [|done]. destruct HS as [_ Hb Hm Hr _ Hnd Ho Hl Hrf _]. split; try done.
  - apply (inv_write _ _ q 0 q); [done|by apply Ho|by apply covers_self|by apply cell_in_table].
  - rewrite Hroot. rewrite Hframe; [exact Hr|]. intros q' Hq' Ha. apply Hc3.
    by rewrite <- (in_page_unique (pa k) q' (mm_page k mm) (mm + MM_pgd) Hpool (owned_range 3 k' t' q' Hrep ltac:(rewrite Hown; by right)) Hmp Ha Hin).
  - rewrite Hown. by apply NoDup_cons.
  - intros x Hx. rewrite Hown in Hx. apply elem_of_cons in Hx as [->|Hx]; [done|by apply Ho].
  - intros e He. rewrite Hpt in He. rewrite Hown. destruct (Hl e He) as (H1 & H2 & H3). splits; [done| |done].
    apply not_elem_of_cons. split; [|done]. intros E. assert (Hpos := uses_pos k t e He). change (pte_pfn k' e) with (pte_pfn k e) in E.
    rewrite E in Hpos. lia.
  - intros x. unfold uses. rewrite Hpt. apply Hrf.
  - splits; [by exists p0, o0|done|]. rewrite Hown. apply not_elem_of_cons. split; [by apply not_eq_sym|done].
Qed.

(** [get_or_create_table] at an empty entry of the table [q]; [G p] is the
    tree with the new table at page [p]. *)
Lemma create_spec k A mm t q i (G : Z -> tree 3) :
  space k A mm t -> q ∈ owned 3 t -> 0 <= i < 512 -> rd k (cell_at k q i) = 0 ->
  (forall p k1, pool_ok (pa k1) -> rep 3 k1 t -> 0 <= p < pool_pages (pa k1) -> p ∉ owned 3 t ->
     (forall a, in_table k1 p a -> rd k1 a = 0) ->
     rep 3 (wr k1 (cell_at k1 q i) (Z.lor (virt_to_phys (base_of k1 p)) PTE_TABLE)) (G p)) ->
  (forall p, owned 3 (G p) ≡ₚ p :: owned 3 t /\ ptes 3 (G p) ≡ₚ ptes 3 t /\ fst (G p) = fst t) ->
  get_or_create_table k (base_of k q) i = Some (0, k) \/
  exists p k', get_or_create_table k (base_of k q) i = Some (base_of k p, k') /\ 0 <= p < pool_pages (pa k) /\ outside A p /\
    space k' (<[p := 0]> A) mm (G p) /\ same_pool (pa k) (pa k') /\ refcount (pa k') = <[p := 1]> (refcount (pa k)) /\
    pages_kept k A t k' (<[p := 0]> A).
Proof.
  intros HS Hq Hi Hz Hrep HG. unfold get_or_create_table. fold (cell_at k q i). rewrite Hz. change (has 0 1) with false. cbn iota.
  assert (Hpool := inv_pool _ _ (sp_buddy _ _ _ _ HS)).
  destruct (space_alloc k A mm t HS) as [->|(p & b & -> & Hp & Hout & HSb & Hs & Er & Hno & Hnm & Hu & Hmb)]; cbn [mbind option_bind].
  { left. change (0 =? 0) with true. cbn iota. by destruct k. }
  right. assert (Hbnz : base_of k p <> 0) by (by apply pfn_to_addr_nonzero). rewrite (proj2 (Z.eqb_neq _ _) Hbnz).
  set (m := arr_fill (8 * 512) (mem b) (base_of k p) 0).
  assert (Hm : forall a, m.[a] = if decide (in_page (pa k) p a) then 0 else rd (set_pa k b) a).
  { intros a. unfold m. rewrite arr_fill_get. unfold in_page, base_of, PAGE_SIZE. change (Z.of_nat (8 * 512)) with 4096. by repeat case_decide. }
  assert (Ek1 : page_zero (set_pa k b) (base_of k p) = set_pa k (set_mem b m)) by done. rewrite Ek1. clear Ek1. clearbody m.
  set (k1 := set_pa k (set_mem b m)). assert (Hs1 : same_pool (pa k) (pa k1)) by exact Hs.
  assert (Ein : forall x a, in_page (pa k1) x a <-> in_page (pa k) x a).
  { intros x a. unfold in_page. by rewrite !(pfn_to_addr_same _ _ x Hs1). }
  assert (Eb : forall x, base_of k1 x = base_of k x) by (intros x; by apply pfn_to_addr_same).
  assert (HS1 : space k1 (<[p := 0]> A) mm t).
  { apply (space_mem (set_pa k b) _ mm t p m HSb); [apply lookup_insert_eq|done|by rewrite (mm_page_same k (set_pa k b))|].
    intros a Ha. rewrite Hm, decide_False; [done|]. intros Ha'. apply Ha. by apply Ein. }
  unfold pte_set. change (wr k1 (base_of k q + 8 * i)) with (wr k1 (cell_at k q i)).
  assert (Ec : cell_at k q i = cell_at k1 q i) by (unfold cell_at; by rewrite Eb). 
  assert (Ev : Z.lor (virt_to_phys (base_of k p)) PTE_TABLE = Z.lor (virt_to_phys (base_of k1 p)) PTE_TABLE) by (by rewrite Eb).
  rewrite Ec, Ev.
  destruct (HG p) as (G1 & G2 & G3). destruct (Hs1) as (_ & _ & _ & Epp).
  assert (HR : rep 3 (wr k1 (cell_at k1 q i) (Z.lor (virt_to_phys (base_of k1 p)) PTE_TABLE)) (G p)).
  { apply Hrep; [exact (inv_pool _ _ (sp_buddy _ _ _ _ HS1))|exact (sp_rep _ _ _ _ HS1)|by rewrite Epp|done|].
    intros a Ha. change (rd k1 a) with (m.[a]). rewrite Hm, decide_True; [done|]. by apply Ein. }
  destruct (space_grow k1 _ mm t (G p) p q i (Z.lor (virt_to_phys (base_of k1 p)) PTE_TABLE) HS1) as [HS2 Hk2]; try done.
  { apply lookup_insert_eq. }
  { by rewrite (mm_page_same k k1). }
  { by rewrite (uses_same k k1). }
  eexists p, _. split; [done|]. split; [done|]. split; [done|]. split; [exact HS2|]. split; [exact Hs1|]. split; [exact Er|].
  intros p' o x a Hp' Hp'' Hc Hx Ha. assert (Hxr := inv_covers_pool _ _ _ _ _ (sp_buddy _ _ _ _ HS) Hp' Hc). rewrite Hk2.
  - change (rd k1 a) with (m.[a]). rewrite Hm, decide_False; [by apply (Hmb p' o x)|]. intros Ha'.
    assert (x = p) as -> by (by apply (in_page_unique (pa k) x p a)). by apply (Hout p' o).
  - intros y Hy Ha'. apply Ein in Ha'. apply Hx.
    by rewrite (in_page_unique (pa k) x y a Hpool Hxr (owned_range 3 k t y (sp_rep _ _ _ _ HS) Hy) Ha Ha').
Qed.

Lemma present_spec k q c i :
  ram k -> 0 <= c < pool_pages (pa k) -> rd k (cell_at k q i) = Z.lor (virt_to_phys (base_of k c)) PTE_TABLE ->
  get_or_create_table k (base_of k q) i = Some (base_of k c, k).
Proof.
  intros Hram Hc E. unfold get_or_create_table. fold (cell_at k q i). rewrite E.
  destruct (table_entry k c Hram Hc) as (_ & H1 & H2 & H3). by rewrite H1, H3, H2.
Qed.

(** What a step of the walk that makes missing tables leaves alone: the
    leaves and the pages in use.  Pages that came into use are tables or
    [X]. *)
Record grown (X : Z -> Prop) (k : slub) (A : gmap Z Z) (mm : Z) (t : tree 3) (k' : slub) (A' : gmap Z Z) (t' : tree 3) : Prop := {
  gr_space : space k' A' mm t';
  gr_same : same_pool (pa k) (pa k');
  gr_leaf : forall va, leaf_at t' va = leaf_at t va;
  gr_used : A ⊆ A';
  gr_refs : forall p o, A !! p = Some o -> (refcount (pa k')).[p] = (refcount (pa k)).[p];
  gr_uses : forall q, uses k' t' q = uses k t q;
  gr_owned : forall q, q ∈ owned 3 t' -> q ∈ owned 3 t \/ A !! q = None;
  gr_kept : pages_kept k A t k' A';
  gr_tables : forall q, q ∈ owned 3 t -> q ∈ owned 3 t';
  gr_new : forall q o, A' !! q = Some o -> A !! q = None -> o = 0 /\ (refcount (pa k')).[q] = 1 /\ (q ∈ owned 3 t' \/ X q)
}.

Definition no_page (q : Z) : Prop := False.

Lemma grown_refl X k A mm t : space k A mm t -> grown X k A mm t k A t.
Proof. intros HS. split; try done; [by left|congruence]. Qed.

Lemma grown_other X k A mm t k' A' t' p o q :
  grown X k A mm t k' A' t' -> A !! p = Some o -> covers p o q -> q ∉ owned 3 t -> q ∉ owned 3 t'.
Proof.
  intros Hg Hp Hc Hq Hq1. destruct (gr_owned _ _ _ _ _ _ _ _ Hg q Hq1) as [?|Hn]; [done|].
  assert (HS := gr_space _ _ _ _ _ _ _ _ Hg). assert (Hin := sp_owned _ _ _ _ HS q Hq1).
  assert (Hp1 := lookup_weaken _ _ _ _ Hp (gr_used _ _ _ _ _ _ _ _ Hg)).
  destruct (decide (p = q)) as [->|Hne]; [congruence|].
  apply Hne. apply (inv_disjoint _ _ p o q 0 q (sp_buddy _ _ _ _ HS) Hp1 Hin Hc). by apply covers_self.
Qed.

Lemma grown_trans X k A mm t k1 A1 t1 k2 A2 t2 :
  grown X k A mm t k1 A1 t1 -> grown X k1 A1 mm t1 k2 A2 t2 -> grown X k A mm t k2 A2 t2.
Proof.
  intros Hg [I1 I2 I3 I4 I5 I6 I7 I8 I9 I10]. destruct (Hg) as [H1 H2 H3 H4 H5 H6 H7 H8 H9 H10]. split; try done.
  - by etransitivity.
  - intros va. by rewrite I3, H3.
  - by etransitivity.
  - intros p o Hp. by rewrite (I5 p o (lookup_weaken _ _ _ _ Hp H4)), (H5 p o Hp).
  - intros q. by rewrite I6, H6.
  - intros q Hq. destruct (I7 q Hq) as [Hq1|Hq1]; [by apply H7|]. right. exact (lookup_weaken_None _ _ _ Hq1 H4).
  - intros p o q a Hp Hp2 Hc Hq Ha. assert (Hp1 := lookup_weaken _ _ _ _ Hp H4).
    rewrite (I8 p o q a Hp1 Hp2 Hc); [by apply (H8 p o q)|by apply (grown_other _ _ _ _ _ _ _ _ p o q Hg)|].
    unfold in_page in *. by rewrite !(pfn_to_addr_same _ _ q H2).
  - intros q Hq. by apply I9, H9.
  - intros q o Hq Hn. destruct (A1 !! q) as [o1|] eqn:Eq; [|by apply I10]. assert (o1 = o) as -> by (rewrite (lookup_weaken _ _ _ _ Eq I4) in Hq; congruence).
    destruct (H10 q o Eq Hn) as (E1 & E2 & E3). split; [done|]. split; [by rewrite (I5 q o Eq)|]. destruct E3 as [E3|E3]; [left; by apply I9|by right].
Qed.

Lemma grown_weaken (X Y : Z -> Prop) k A mm t k' A' t' : (forall q, X q -> Y q) -> grown X k A mm t k' A' t' -> grown Y k A mm t k' A' t'.
Proof.
  intros HXY [H1 H2 H3 H4 H5 H6 H7 H8 H9 H10]. split; try done. intros q o Hq Hn. destruct (H10 q o Hq Hn) as (E1 & E2 & E3).
  split; [done|]. split; [done|]. destruct E3; auto.
Qed.

Lemma slot_val_hole k d (t : tree (S d)) i : snd t !! i = None -> slot_val k (snd t !! i) = 0.
Proof. intros E. exact (f_equal (slot_val k (d := d)) E). Qed.

Lemma created_grown k A mm t (G : Z -> tree 3) p k' :
  space k A mm t -> outside A p -> space k' (<[p := 0]> A) mm (G p) -> same_pool (pa k) (pa k') ->
  refcount (pa k') = <[p := 1]> (refcount (pa k)) -> pages_kept k A t k' (<[p := 0]> A) ->
  owned 3 (G p) ≡ₚ p :: owned 3 t -> ptes 3 (G p) ≡ₚ ptes 3 t -> (forall va, leaf_at (G p) va = leaf_at t va) ->
  grown no_page k A mm t k' (<[p := 0]> A) (G p).
Proof.
  intros HS Hout HS' Hs Er Hk Hown Hpt Hleaf.
  assert (Hnone : A !! p = None).
  { apply eq_None_not_Some. intros [o Hp]. apply (Hout p o Hp), covers_self.
    by destruct (inv_used_block _ _ _ _ (sp_buddy _ _ _ _ HS) Hp) as (([? ?] & _) & _). }
  split; try done.
  - by apply insert_subseteq.
  - intros x o Hx. rewrite Er, arr_get_insert_ne; [done|]. congruence.
  - intros x. rewrite (uses_same k k') by done. unfold uses. by rewrite Hpt.
  - intros x Hx. rewrite Hown in Hx. apply elem_of_cons in Hx as [->|Hx]; [by right|by left].
  - intros x Hx. rewrite Hown. by right.
  - intros x o Hx Hn. apply lookup_insert_Some in Hx as [[<- <-]|[_ Hx]]; [|congruence]. rewrite Er, arr_get_insert. split; [done|]. split; [done|].
    left. rewrite Hown. by left.
Qed.

(** The table of the second level. *)
Lemma level2_spec k A mm t va :
  space k A mm t ->
  get_or_create_table k (base_of k (fst t)) (l1_idx va) = Some (0, k) \/
  exists k1 A1 t1 c2, get_or_create_table k (base_of k (fst t)) (l1_idx va) = Some (base_of k1 (fst c2), k1) /\
    grown no_page k A mm t k1 A1 t1 /\ snd t1 !! l1_idx va = Some c2.
Proof.
  intros HS. destruct (idx_range va) as (R1 & _). assert (HR := sp_rep _ _ _ _ HS). destruct (HR) as (Hq & Hc & Hk).
  assert (Hnd := sp_nodup _ _ _ _ HS). destruct (snd t !! l1_idx va) as [c2|] eqn:E2.
  - right. destruct (Hk _ _ E2) as [_ (Hq2 & _)]. exists k, A, t, c2. split; [|split; [by apply grown_refl|done]].
    apply present_spec; [exact (sp_ram _ _ _ _ HS)|done|]. unfold cell_at. rewrite Hc by done. by rewrite (slot_val_kid k 2 t _ c2 E2).
  - destruct (create_spec k A mm t (fst t) (l1_idx va) (fun p => add_table p (l1_idx va) t) HS) as [E|(p & k' & E & Hp & Hout & HS' & Hs & Er & Hkp)].
    + apply (owned_root 2 t).
    + done.
    + unfold cell_at. rewrite Hc by done. exact (slot_val_hole k 2 t _ E2).
    + intros p k1 Hpool Hrep Hp Hno Hz. by apply (add_table_rep 1 k1 t p).
    + intros p. splits; [by apply (add_table_owned 1)|by apply (add_table_ptes 1)|done].
    + by left.
    + right. exists k', (<[p := 0]> A), (add_table p (l1_idx va) t), (p, ∅). splits.
      * rewrite E. do 2 f_equal. symmetry. by apply pfn_to_addr_same.
      * apply (created_grown k A mm t (fun p => add_table p (l1_idx va) t)); try done;
          [by apply (add_table_owned 1)|by apply (add_table_ptes 1)|].
        intros x. unfold leaf_at, add_table. cbn [snd]. destruct (decide (l1_idx va = l1_idx x)) as [Ex|Hne].
        -- by rewrite <- Ex, lookup_insert_eq, E2.
        -- by rewrite lookup_insert_ne.
      * apply lookup_insert_eq.
Qed.

(** A table added below the first level. *)
Lemma add_table_below k t i1 c2 i2 p :
  pool_ok (pa k) -> rep 3 k t -> NoDup (owned 3 t) -> snd t !! i1 = Some c2 -> 0 <= i1 < 512 -> 0 <= i2 < 512 ->
  0 <= p < pool_pages (pa k) -> p ∉ owned 3 t -> (forall a, in_table k p a -> rd k a = 0) ->
  rep 3 (wr k (cell_at k (fst c2) i2) (Z.lor (virt_to_phys (base_of k p)) PTE_TABLE)) (alter_kid (add_table p i2) i1 t : tree 3).
Proof.
  intros Hpool HR Hnd E2 R1 R2 Hp Hno Hz. destruct (HR) as (Hq & Hc & Hk). destruct (Hk _ _ E2) as [_ HR2].
  rewrite owned_kids in Hnd, Hno. apply NoDup_cons in Hnd as [Hn1 Hnd1]. apply not_elem_of_cons in Hno as [Hpt Hno].
  assert (Hnd2 := kids_nodup _ _ _ _ Hnd1 E2). set (k' := wr k _ _).
  assert (Hin2 : fst c2 ∈ kids (owned 2) (snd t)) by (apply (owned_kid 2 t _ c2 _ E2), (owned_root 1 c2)).
  assert (Hq2 := owned_range 2 k c2 _ HR2 (owned_root 1 c2)).
  assert (Hother : forall q a, 0 <= q < pool_pages (pa k) -> q <> fst c2 -> in_table k q a -> rd k' a = rd k a).
  { intros q a Hqr Hne Ha. apply rd_wr_ne. intros E. apply (tables_apart k q (fst c2) a); try done. rewrite <- E. by apply cell_in_table. }
  assert (Hne : fst t <> fst c2) by (intros E; apply Hn1; by rewrite E).
  rewrite (alter_kid_set 2 _ _ t c2) by done. apply (rep_set_kid 2 k k' t); try done.
  - rewrite (Hother (fst t)) by (done || by apply cell_in_table). unfold cell_at. rewrite Hc by done. exact (slot_val_kid k 2 t i1 c2 E2).
  - intros c [= <-]. apply (add_table_rep 0 k c2 p); try done. intros Hin. apply Hno. by apply (owned_kid 2 t _ c2 _ E2).
  - intros j Hj _. apply (Hother (fst t)); [done|done|by apply cell_in_table].
  - intros j c q a Hnj Hj Hqc Ha. destruct (Hk j c Hj) as [_ Hrc]. apply (Hother q); [exact (owned_range 2 k c q Hrc Hqc)| |done].
    intros ->. by apply (kids_apart (owned 2) (snd t) i1 j c2 c (fst c2) Hnd1 E2 Hj (not_eq_sym Hnj) (owned_root 1 c2)).
Qed.

(** The table of the third level. *)
Lemma level3_spec k A mm t va c2 :
  space k A mm t -> snd t !! l1_idx va = Some c2 ->
  get_or_create_table k (base_of k (fst c2)) (l2_idx va) = Some (0, k) \/
  exists k1 A1 t1 c3, get_or_create_table k (base_of k (fst c2)) (l2_idx va) = Some (base_of k1 (fst c3), k1) /\
    grown no_page k A mm t k1 A1 t1 /\ table_at t1 va = Some c3.
Proof.
  intros HS E2. destruct (idx_range va) as (R1 & R2 & _). assert (HR := sp_rep _ _ _ _ HS). destruct (HR) as (Hq & Hc & Hk).
  destruct (Hk _ _ E2) as [_ HR2]. destruct (HR2) as (Hq2 & Hc2 & Hk2).
  assert (Hnd := sp_nodup _ _ _ _ HS). destruct (snd c2 !! l2_idx va) as [c3|] eqn:E3.
  - right. destruct (Hk2 _ _ E3) as [_ (Hq3 & _)]. exists k, A, t, c3. split; [|split; [by apply grown_refl|]].
    + apply present_spec; [exact (sp_ram _ _ _ _ HS)|done|]. unfold cell_at. rewrite Hc2 by done. by rewrite (slot_val_kid k 1 c2 _ c3 E3).
    + unfold table_at. by rewrite E2.
  - set (G := fun p => alter_kid (add_table p (l2_idx va)) (l1_idx va) t : tree 3).
    assert (Hin2 : fst c2 ∈ owned 3 t) by (rewrite owned_kids; right; apply (owned_kid 2 t _ c2 _ E2), (owned_root 1 c2)).
    assert (Gown : forall p, owned 3 (G p) ≡ₚ p :: owned 3 t).
    { intros p. unfold G. rewrite !owned_kids. cbn [alter_kid fst snd]. rewrite (kids_alter _ _ _ _ _ E2), (kids_lookup _ _ _ _ E2).
      rewrite (add_table_owned 0) by done. cbn [app]. apply Permutation_swap. }
    assert (Gpt : forall p, ptes 3 (G p) ≡ₚ ptes 3 t).
    { intros p. unfold G. rewrite !ptes_kids. cbn [alter_kid fst snd]. rewrite (kids_alter _ _ _ _ _ E2), (kids_lookup _ _ _ _ E2).
      by rewrite (add_table_ptes 0). }
    destruct (create_spec k A mm t (fst c2) (l2_idx va) G HS Hin2 R2) as [E|(p & k' & E & Hp & Hout & HS' & Hs & Er & Hkp)].
    + unfold cell_at. rewrite Hc2 by done. exact (slot_val_hole k 1 c2 _ E3).
    + intros p k1 Hpool Hrep Hp Hno Hz. by apply add_table_below.
    + intros p. by splits.
    + by left.
    + right. exists k', (<[p := 0]> A), (G p), (p, ∅). splits.
      * rewrite E. do 2 f_equal. symmetry. by apply pfn_to_addr_same.
      * apply (created_grown k A mm t G); try done.
        intros x. unfold leaf_at, G, alter_kid. cbn [snd]. destruct (decide (l1_idx va = l1_idx x)) as [Ex|Hne].
        -- rewrite <- Ex, lookup_alter_eq, E2. cbn. destruct (decide (l2_idx va = l2_idx x)) as [Ey|Hne].
           ++ by rewrite <- Ey, lookup_insert_eq, E3.
           ++ by rewrite lookup_insert_ne.
        -- by rewrite lookup_alter_ne.
      * unfold table_at, G, alter_kid. cbn [snd]. rewrite lookup_alter_eq, E2. cbn. apply lookup_insert_eq.
Qed.

(** The entry that maps the page [p]. *)
Definition leaf_pte (k : slub) (p prot : Z) : Z := Z.lor (Z.land (virt_to_phys (base_of k p)) PTE_ADDR_MASK) (prot_to_pte prot).

Lemma leaf_pte_spec k p prot : ram k -> 0 <= p < pool_pages (pa k) -> pte_ok k (leaf_pte k p prot) /\ pte_pfn k (leaf_pte k p prot) = p.
Proof.
  intros [Hpool Hb] Hp. destruct (pool_phys _ _ Hpool Hb Hp) as (_ & E2 & Hv & _ & E5). fold (base_of k p) in *.
  unfold leaf_pte. rewrite E5. set (x := Z.lor _ _).
  assert (Ekva : pte_kva x = base_of k p).
  { unfold pte_kva, x. rewrite addr_mask_lor by apply prot_to_pte_mask. by rewrite E5. }
  assert (Epfn : pte_pfn k x = p) by (unfold pte_pfn; rewrite Ekva; by apply addr_to_pfn_roundtrip).
  split; [|done]. unfold pte_ok. rewrite Epfn, Ekva. split; [|split; [|done]].
  - apply u64_range. unfold x. rewrite Z.land_lor_distr_l, (u64_mask (virt_to_phys _)) by lia. f_equal.
    unfold prot_to_pte. by destruct (has prot (Z.lor (Z.lor MAP_PROT_READ MAP_PROT_WRITE) MAP_PROT_EXEC)),
      (has prot MAP_PROT_WRITE), (has prot MAP_PROT_EXEC).
  - unfold x. rewrite Z.lor_spec, prot_to_pte_present. apply orb_true_r.
Qed.

Lemma map_spec k A mm t va p prot :
  space k A mm t -> A !! p = Some 0 -> p ∉ owned 3 t -> p <> mm_page k mm -> leaf_at t va = None ->
  uses k t p < (refcount (pa k)).[p] ->
  exists err k' A' t1, map_page k mm va (virt_to_phys (base_of k p)) prot = Some (err, k') /\
    ((err = - ENOMEM /\ grown no_page k A mm t k' A' t1) \/
     (err = 0 /\ exists k1, grown no_page k A mm t k1 A' t1 /\ is_Some (table_at t1 va) /\ same_pool (pa k1) (pa k') /\ refcount (pa k') = refcount (pa k1) /\
        space k' A' mm (set_leaf t1 va (Some (leaf_pte k p prot))) /\ pages_kept k1 A' t1 k' A')).
Proof.
  intros HS Hp Hno Hnm Hl Hu. unfold map_page. rewrite (sp_root _ _ _ _ HS).
  destruct (level2_spec k A mm t va HS) as [->|(k1 & A1 & t1 & c2 & -> & Hg1 & E2)]; cbn [mbind option_bind].
  { exists (- ENOMEM), k, A, t. split; [done|]. left. split; [done|by apply grown_refl]. }
  assert (HS1 := gr_space _ _ _ _ _ _ _ _ Hg1). assert (HR1 := sp_rep _ _ _ _ HS1). assert (Hpool1 := inv_pool _ _ (sp_buddy _ _ _ _ HS1)).
  assert (Hin2 : fst c2 ∈ owned 3 t1) by (rewrite owned_kids; right; apply (owned_kid 2 t1 _ c2 _ E2), (owned_root 1 c2)).
  rewrite (proj2 (Z.eqb_neq _ 0)) by (apply pfn_to_addr_nonzero; [done|by apply (owned_range 3 k1 t1)]).
  destruct (level3_spec k1 A1 mm t1 va c2 HS1 E2) as [->|(k2 & A2 & t2 & c3 & -> & Hg2 & E3)]; cbn [mbind option_bind].
  { exists (- ENOMEM), k1, A1, t1. split; [done|]. by left. }
  assert (Hg := grown_trans _ _ _ _ _ _ _ _ _ _ _ Hg1 Hg2). assert (HS2 := gr_space _ _ _ _ _ _ _ _ Hg). assert (Hs := gr_same _ _ _ _ _ _ _ _ Hg).
  assert (Hq3 := owned_range 3 k2 t2 _ (sp_rep _ _ _ _ HS2) (table_owned t2 va c3 E3)).
  rewrite (proj2 (Z.eqb_neq _ 0)) by (apply pfn_to_addr_nonzero; [exact (inv_pool _ _ (sp_buddy _ _ _ _ HS2))|done]).
  fold (leaf_pte k p prot). fold (cell_at k2 (fst c3) (l3_idx va)). unfold pte_set.
  assert (Hpr : 0 <= p < pool_pages (pa k)) by (by destruct (inv_used_block _ _ _ _ (sp_buddy _ _ _ _ HS) Hp) as (_ & ? & _)).
  destruct (leaf_pte_spec k p prot (sp_ram _ _ _ _ HS) Hpr) as [Hok Epf].
  assert (Epf2 : pte_pfn k2 (leaf_pte k p prot) = p) by (by rewrite (pte_pfn_same k k2)).
  destruct (space_set_leaf k2 A2 mm t2 va (Some (leaf_pte k p prot)) c3 HS2 E3) as [HS3 Hk3].
  { intros x Ex. assert (x = leaf_pte k p prot) as -> by congruence. rewrite Epf2, (mm_page_same k k2) by done.
    splits; [by apply (pte_ok_same k)|exact (lookup_weaken _ _ _ _ Hp (gr_used _ _ _ _ _ _ _ _ Hg))| |done].
    intros Hin. destruct (gr_owned _ _ _ _ _ _ _ _ Hg p Hin); [done|congruence]. }
  { intros q. rewrite uses_set_leaf, Epf2, (gr_leaf _ _ _ _ _ _ _ _ Hg), Hl by (by exists c3). assert (Hr := sp_refs _ _ _ _ HS2 q).
    destruct (decide (p = q)) as [<-|]; [|lia]. rewrite (gr_uses _ _ _ _ _ _ _ _ Hg), (gr_refs _ _ _ _ _ _ _ _ Hg p 0 Hp). lia. }
  exists 0, (wr k2 (cell_at k2 (fst c3) (l3_idx va)) (leaf_pte k p prot)), A2, t2. split; [done|]. right. split; [done|].
  exists k2. by splits.
Qed.

(** ** The operations *)

(** [map_page] maps a page at a free address, or fails with [-ENOMEM].
    Either way the tables stay a tree of pages of the allocator, no other
    address changes its entry, and no page in use outside the tables changes
    a byte or a reference count. *)
Theorem map_page_correct k A mm t va p prot :
  space k A mm t -> A !! p = Some 0 -> p ∉ owned 3 t -> p <> mm_page k mm -> leaf_at t va = None ->
  uses k t p < (refcount (pa k)).[p] ->
  exists err k' A' t', map_page k mm va (virt_to_phys (base_of k p)) prot = Some (err, k') /\ (err = 0 \/ err = - ENOMEM) /\
    space k' A' mm t' /\ A ⊆ A' /\ pages_kept k A t k' A' /\
    (forall q o, A !! q = Some o -> (refcount (pa k')).[q] = (refcount (pa k)).[q]) /\
    forall va', leaf_at t' va' = if decide (err = 0 /\ same_page va va') then Some (leaf_pte k p prot) else leaf_at t va'.
Proof.
  intros HS Hp Hno Hnm Hl Hu. destruct (map_spec k A mm t va p prot HS Hp Hno Hnm Hl Hu) as (err & k' & A' & t1 & E & Hcase).
  destruct Hcase as [[-> Hg]|(-> & k1 & Hg & H3 & Hs & Er & HS' & Hk)].
  - exists (- ENOMEM), k', A', t1. destruct (Hg) as [H1 H2 H4 H5 H6 H7 H8 H9 _ _]. splits; try done; try (by right).
  - exists 0, k', A', (set_leaf t1 va (Some (leaf_pte k p prot))). destruct (Hg) as [H1 H2 H4 H5 H6 H7 H8 H9 _ _]. splits; try done.
    + by left.
    + intros p' o q a Hp' Hp1 Hc Hq Ha. rewrite (Hk p' o q a Hp1 Hp1 Hc); [by apply (H9 p' o q)|by apply (grown_other _ _ _ _ _ _ _ _ p' o q Hg)|].
      unfold in_page in *. by rewrite !(pfn_to_addr_same _ _ q H2).
    + intros q o Hq. rewrite Er. by apply (H6 q o).
    + intros va'. rewrite leaf_set_leaf by done. rewrite H4. destruct (decide (same_page va va')) as [D|D].
      * by rewrite decide_True.
      * rewrite decide_False; [done|]. by intros [_ ?].
Qed.

(** [unmap_page] removes exactly the entry of the page and gives back its
    reference: the page is freed when it was the last one. *)
Theorem unmap_page_correct k A mm t va :
  space k A mm t ->
  exists k' A' t', unmap_page k mm va = Some k' /\ space k' A' mm t' /\ pages_kept k A t k' A' /\
    (forall va', leaf_at t' va' = if decide (same_page va va') then None else leaf_at t va') /\
    match leaf_at t va with
    | None => k' = k /\ A' = A
    | Some e => A' = drop_page k A (pte_pfn k e) /\
        refcount (pa k') = <[pte_pfn k e := (refcount (pa k)).[pte_pfn k e] - 1]> (refcount (pa k))
    end.
Proof.
  intros HS. assert (Hs := unmap_spec k A mm t va HS). destruct (leaf_at t va) as [e|] eqn:El.
  - destruct Hs as (k' & E & HS' & H3 & Er & Hk & _). exists k', (drop_page k A (pte_pfn k e)), (set_leaf t va None). splits; try done.
    intros va'. by apply leaf_set_leaf.
  - exists k, A, t. splits; try done. intros va'. case_decide as D; [|done]. destruct D as (D1 & D2 & D3).
    rewrite <- El. unfold leaf_at. by rewrite D1, D2, D3.
Qed.

(** a write fault on a page mapped read-only in a writable area.  The last
    user of the page gets it back writable; otherwise the fault makes a
    private copy: a fresh page with the same bytes and flags, writable and
    referenced once, while the old page keeps its bytes and loses one
    reference.  No other address changes. *)
Theorem do_cow_fault_correct k A mm t va flags e :
  space k A mm t -> leaf_at t va = Some e -> pte_cow_candidate e flags = true ->
  let p := pte_pfn k e in
  (do_cow_fault k mm va flags = Some (- ENOMEM, k) /\ 1 < (refcount (pa k)).[p]) \/
  exists k' A' t' e', do_cow_fault k mm va flags = Some (0, k') /\ space k' A' mm t' /\
    (forall va', leaf_at t' va' = if decide (same_page va va') then Some e' else leaf_at t va') /\
    pte_write e' = true /\ Z.land e' PTE_FLAGS_MASK = Z.land (pte_mkwrite e) PTE_FLAGS_MASK /\
    (forall d, 0 <= d < PAGE_SIZE -> rd k' (base_of k (pte_pfn k e') + d) = rd k (base_of k p + d)) /\
    (refcount (pa k')).[pte_pfn k e'] = 1 /\ pages_kept k A t k' A' /\
    (if decide ((refcount (pa k)).[p] = 1) then A' = A /\ pte_pfn k e' = p
     else outside A (pte_pfn k e') /\ A' = <[pte_pfn k e' := 0]> A /\ (refcount (pa k')).[p] = (refcount (pa k)).[p] - 1).
Proof.
  intros HS He Hc p. destruct (cow_spec k A mm t va flags e HS He Hc) as [Hn|(k' & A' & e' & E & HS' & H3 & Hw & Hf & Hd & Hr & Hk & _ & _ & Hcase)]; [by left|right].
  exists k', A', (set_leaf t va (Some e')), e'. splits; try done. intros va'. by apply leaf_set_leaf.
Qed.

(** ** Examples *)

(** A zeroed page as the first table of an [mm_struct]. *)
Lemma empty_space k A mm q m :
  buddy_inv (pa k) A -> KERNEL_VIRT_BASE <= mem_start (pa k) -> mm <> 0 -> A !! q = Some 0 ->
  (exists p o, A !! p = Some o /\ covers p o (mm_page k mm)) -> in_page (pa k) (mm_page k mm) (mm + MM_pgd) -> mm_page k mm <> q ->
  (forall x, 0 <= (refcount (pa k)).[x]) -> m.[mm + MM_pgd] = base_of k q -> (forall a, in_page (pa k) q a -> m.[a] = 0) ->
  (forall x a, x <> mm_page k mm -> x <> q -> in_page (pa k) x a -> 0 <= x < pool_pages (pa k) -> m.[a] = rd k a) ->
  space (set_pa k (set_mem (pa k) m)) A mm ((q, ∅) : tree 3).
Proof.
  intros HI Hb Hm Hq (p & o & Hp & Hc) Hin Hne Hrc Hcell Hz Hmem.
  assert (Hqr : 0 <= q < pool_pages (pa k)) by (eapply inv_covers_pool; [done|exact Hq|by apply covers_self]).
  assert (Ho : owned 3 ((q, ∅) : tree 3) = [q]) by done. split; try done.
  - apply inv_set_mem; [done|]. intros x Hx Hout.
    apply (Hmem x); [| |apply in_page_base|done]; intros ->; [by apply (Hout p o)|by apply (Hout q 0 Hq), covers_self].
  - by apply zeroed_rep.
  - rewrite Ho. apply NoDup_singleton.
  - rewrite Ho. by intros x ->%list_elem_of_singleton.
  - intros e He. by apply not_elem_of_nil in He.
  - rewrite Ho. splits; [by exists p, o|done|]. by rewrite list_elem_of_singleton.
Qed.

(** The page that [alloc_pages] hands out in a state that can be computed. *)
Definition next_pool (s : buddy) : buddy := default s (snd <$> alloc_pages s 0).

Lemma next_pool_spec s A p :
  buddy_inv s A -> 0 <= p < pool_pages s -> fst <$> alloc_pages s 0 = Some (pfn_to_addr s p) ->
  buddy_inv (next_pool s) (<[p := 0]> A) /\ same_pool s (next_pool s) /\ refcount (next_pool s) = <[p := 1]> (refcount s).
Proof.
  intros HI Hp E. assert (Hpool := inv_pool _ _ HI). unfold next_pool.
  destruct (alloc_pages_rep s A 0 HI) as [[E' _]|(q & s' & E' & Hq & _ & HI' & Hs & Er & _)];
    [destruct (pool_order _ Hpool); lia| |]; rewrite E' in E |- *.
  - cbn in E. injection E as E. by destruct (pfn_to_addr_nonzero s p Hpool Hp).
  - cbn in E. injection E as E. apply (pfn_to_addr_inj s q p Hpool Hq Hp) in E as ->. by splits.
Qed.

(** The block of pages 0 and 1 holds the [mm_struct], page 2 is the empty
    first table, page 3 is there to be mapped. *)
Definition pool_b : buddy := next_pool pool16_a.
Definition pool_c : buddy := next_pool pool_b.
Definition demo_mm : Z := pfn_to_addr pool16 0.
Definition demo0 : slub := mkSlub pool_c ∅.
Definition demo_bytes : gmap Z Z := <[demo_mm + MM_pgd := base_of demo0 2]> (arr_fill 4096 (mem pool_c) (base_of demo0 2) 0).
Definition demo : slub := set_pa demo0 (set_mem (pa demo0) demo_bytes).
Definition demo_used : gmap Z Z := <[3 := 0]> (<[2 := 0]> {[0 := 1]}).
Definition demo_tree : tree 3 := (2, ∅).

Lemma pool_c_inv : buddy_inv pool_c demo_used /\ refcount pool_c = <[3 := 1]> (<[2 := 1]> (<[0 := 1]> ∅)).
Proof.
  destruct (next_pool_spec pool16_a {[0 := 1]} 2 pool16_a_inv) as (HI & _ & Er); [vm_compute; split; [discriminate|reflexivity]|vm_compute; reflexivity|].
  destruct (next_pool_spec pool_b _ 3 HI) as (HI' & _ & Er'); [vm_compute; split; [discriminate|reflexivity]|vm_compute; reflexivity|].
  split; [exact HI'|]. fold pool_b in Er. fold pool_c in Er'. rewrite Er', Er.
  assert (E : refcount pool16_a = <[0 := 1]> ∅) by (vm_compute; reflexivity). by rewrite E.
Qed.

Lemma pool_c_refs x : 0 <= (refcount pool_c).[x].
Proof. rewrite (proj2 pool_c_inv). rewrite !arr_get_insert_case. repeat case_decide; try lia. reflexivity. Qed.

Lemma demo_bytes_get a :
  demo_bytes.[a] = if decide (demo_mm + MM_pgd = a) then base_of demo0 2
                   else if decide (base_of demo0 2 <= a < base_of demo0 2 + 4096) then 0 else rd demo0 a.
Proof. unfold demo_bytes. by rewrite arr_get_insert_case, arr_fill_get. Qed.

Lemma demo_numbers :
  mm_page demo0 demo_mm = 0 /\ mem_start (pa demo0) = start16 /\ pool_pages (pa demo0) = 16 /\
  base_of demo0 0 = start16 /\ base_of demo0 2 = start16 + 2 * PAGE_SIZE /\ demo_mm = start16.
Proof. vm_compute. repeat split. Qed.

Lemma demo_space : space demo demo_used demo_mm demo_tree.
Proof.
  destruct demo_numbers as (E0 & Es & Ep & Eb0 & Eb2 & Em). assert (Hpool := inv_pool _ _ (proj1 pool_c_inv)).
  assert (Hmm : in_page (pa demo0) 0 (demo_mm + MM_pgd)).
  { unfold in_page. fold (base_of demo0 0). rewrite Eb0, Em. unfold MM_pgd, PAGE_SIZE. lia. }
  apply empty_space; rewrite ?E0.
  - exact (proj1 pool_c_inv).
  - rewrite Es. vm_compute. discriminate.
  - rewrite Em. vm_compute. discriminate.
  - vm_compute. reflexivity.
  - exists 0, 1. split; [vm_compute; reflexivity|]. unfold covers. lia.
  - exact Hmm.
  - discriminate.
  - exact pool_c_refs.
  - rewrite demo_bytes_get, decide_True by reflexivity. reflexivity.
  - intros a Ha. unfold in_page in Ha. fold (base_of demo0 2) in Ha. rewrite demo_bytes_get, decide_False, decide_True; [reflexivity|exact Ha|].
    rewrite Eb2 in Ha. rewrite Em. unfold MM_pgd, PAGE_SIZE in *. lia.
  - intros x a H1 H2 Ha Hx. rewrite demo_bytes_get, !decide_False; [reflexivity| |].
    + intros Ha'. apply H2. exact (in_page_unique (pa demo0) x 2 a Hpool Hx ltac:(rewrite Ep; lia) Ha Ha').
    + intros <-. apply H1. exact (in_page_unique (pa demo0) x 0 _ Hpool Hx ltac:(rewrite Ep; lia) Ha Hmm).
Qed.

Lemma demo_page : demo_used !! 3 = Some 0 /\ (3 ∉ owned 3 demo_tree) /\ 3 <> mm_page demo demo_mm /\ leaf_at demo_tree 4096 = None /\
  uses demo demo_tree 3 < (refcount (pa demo)).[3].
Proof.
  split; [vm_compute; reflexivity|]. split.
  { intros Hin. apply list_elem_of_singleton in Hin. discriminate Hin. }
  split; [change (mm_page demo demo_mm) with (mm_page demo0 demo_mm); rewrite (proj1 demo_numbers); discriminate|].
  split; [reflexivity|]. change (refcount (pa demo)) with (refcount pool_c). rewrite (proj2 pool_c_inv).
  rewrite arr_get_insert. reflexivity.
Qed.

Definition code_of {K} (r : option (Z * K)) : Z := match r with Some (e, _) => e | None => 1 end.
Lemma demo_map_ok : code_of (map_page demo demo_mm 4096 (virt_to_phys (base_of demo 3)) MAP_PROT_READ) = 0.
Proof. vm_compute. reflexivity. Qed.

Lemma map_page_correct_witness :
  exists k' A' t', map_page demo demo_mm 4096 (virt_to_phys (base_of demo 3)) MAP_PROT_READ = Some (0, k') /\
    space k' A' demo_mm t' /\ leaf_at t' 4096 = Some (leaf_pte demo 3 MAP_PROT_READ).
Proof.
  destruct demo_page as (H1 & H2 & H3 & H4 & H5).
  destruct (map_page_correct demo demo_used demo_mm demo_tree 4096 3 MAP_PROT_READ demo_space H1 H2 H3 H4 H5)
    as (err & k' & A' & t' & E & _ & HS & _ & _ & _ & Hl).
  assert (W := demo_map_ok). rewrite E in W. cbv [code_of] in W. rewrite W in *. clear W.
  exists k', A', t'. split; [exact E|]. split; [exact HS|]. rewrite Hl, decide_True by (split; [reflexivity|repeat split]). reflexivity.
Defined.

(** The space with page 3 mapped read-only. *)
Lemma demo_mapped : exists k A t, space k A demo_mm t /\ same_pool (pa demo) (pa k) /\ leaf_at t 4096 = Some (leaf_pte demo 3 MAP_PROT_READ).
Proof.
  destruct demo_page as (H1 & H2 & H3 & H4 & H5).
  destruct (map_spec demo demo_used demo_mm demo_tree 4096 3 MAP_PROT_READ demo_space H1 H2 H3 H4 H5) as (err & k' & A' & t1 & E & Hc).
  assert (W := demo_map_ok). rewrite E in W. cbv [code_of] in W. rewrite W in *. clear W.
  destruct Hc as [[Hn _]|(_ & k1 & Hg & Ht & Hs & _ & HS & _)]; [discriminate Hn|].
  exists k', A', (set_leaf t1 4096 (Some (leaf_pte demo 3 MAP_PROT_READ))). split; [exact HS|]. split.
  - etransitivity; [exact (gr_same _ _ _ _ _ _ _ _ Hg)|exact Hs].
  - rewrite leaf_set_leaf by exact Ht. rewrite decide_True by (repeat split). reflexivity.
Qed.

Lemma unmap_page_correct_witness :
  exists k A t k' A' t', space k A demo_mm t /\ unmap_page k demo_mm 4096 = Some k' /\ space k' A' demo_mm t' /\ leaf_at t' 4096 = None.
Proof.
  destruct demo_mapped as (k & A & t & HS & _ & Hl).
  destruct (unmap_page_correct k A demo_mm t 4096 HS) as (k' & A' & t' & E & HS' & _ & Hl' & _).
  exists k, A, t, k', A', t'. split; [exact HS|]. split; [exact E|]. split; [exact HS'|].
  rewrite Hl', decide_True by (repeat split). reflexivity.
Defined.

Lemma do_cow_fault_correct_witness :
  exists k A t e, space k A demo_mm t /\ leaf_at t 4096 = Some e /\
    ((do_cow_fault k demo_mm 4096 VM_WRITE = Some (- ENOMEM, k)) \/
     exists k' e', do_cow_fault k demo_mm 4096 VM_WRITE = Some (0, k') /\ pte_write e' = true).
Proof.
  destruct demo_mapped as (k & A & t & HS & _ & Hl). exists k, A, t, (leaf_pte demo 3 MAP_PROT_READ). split; [exact HS|]. split; [exact Hl|].
  destruct (do_cow_fault_correct k A demo_mm t 4096 VM_WRITE _ HS Hl ltac:(vm_compute; reflexivity))
    as [[E _]|(k' & A' & t' & e' & E & _ & _ & Hw & _)]; [left; exact E|right].
  exists k', e'. split; [exact E|exact Hw].
Defined.
