(* ===== verification/Mmap.v ===== *)
(** * The calls on address spaces ([mm/mmap.c], third part, and [kernel/fork.c])

    [mmap], [munmap], [mprotect], [brk], the page fault, creation, duplication
    and release of an address space: every one changes the list of areas and
    the page tables together.  [mem_inv] joins the two: areas and tables live
    in the same memory, and no page is mapped with a permission that its area
    does not give.  [user_byte] is the memory that the process sees. *)
From S2P Require Import Prelude PageAlloc Slub Errno AddrSpace Vma PageTable PageTree PageMap.

Definition MAP_FIXED : Z := 0x10.
Definition MAP_ANONYMOUS : Z := 0x20.
Definition USER_MMAP_BASE : Z := 0x2000000.

Definition ESR_ELx_EC_IABT_LOW : Z := 0x20.
Definition ESR_ELx_WNR : Z := Z.shiftl 1 6.
Definition esr_get_ec (esr : Z) : Z := Z.land (Z.shiftr esr 26) 0x3f.

(** The loop of [mm_mprotect] over the areas that start below [end_]. *)
Fixpoint mprotect_loop (fuel : nat) (k : slub) (mm vma end_ map_prot : Z) : option slub :=
  match fuel with
  | O => None
  | S fuel' =>
      if negb (vma =? 0) && (rd k (vma + VM_start) <? end_) then
        let flags := Z.lor (Z.land (rd k (vma + VM_flags)) (u64 (Z.lnot (Z.lor (Z.lor VM_READ VM_WRITE) VM_EXEC)))) map_prot in
        let k := wr k (vma + VM_flags) flags in
        k ← change_prot_range k mm (rd k (vma + VM_start)) (rd k (vma + VM_end)) map_prot;
        mprotect_loop fuel' k mm (rd k (vma + VM_next)) end_ map_prot
      else Some k
  end.

Definition mm_mprotect (k : slub) (mm start end_ prot : Z) : option (Z * slub) :=
  if (mm =? 0) || (end_ <=? start) then Some (- EINVAL, k)
  else
    covered ← mprotect_covered k mm start end_;
    if negb covered then Some (- ENOMEM, k)
    else
      vma ← find_vma k mm start;
      '(err, k) ← (if negb (vma =? 0) then vma_split k vma start else Some (0, k));
      if negb (err =? 0) then Some (err, k)
      else
        '(err, k) ← (if negb (end_ =? 0) then
                       vma ← find_vma k mm (end_ - 1);
                       if negb (vma =? 0) then vma_split k vma end_ else Some (0, k)
                     else Some (0, k));
        if negb (err =? 0) then Some (err, k)
        else
          let map_prot := linux_prot_to_map prot in
          vma ← find_vma k mm start;
          k ← mprotect_loop (vma_fuel k) k mm vma end_ map_prot;
          Some (0, k).

Definition mm_put (k : slub) (mm : Z) : option slub :=
  if mm =? 0 then Some k
  else
    let k := wr k (mm + MM_users) (s32 (rd k (mm + MM_users) - 1)) in
    if 0 <? rd k (mm + MM_users) then Some k
    else
      k ← (if negb (rd k (mm + MM_pgd) =? 0) then
             k ← free_user_page_tables k (rd k (mm + MM_pgd));
             Some (wr k (mm + MM_pgd) 0)
           else Some k);
      k ← free_all_vmas k mm;
      kfree k mm.

(** The loop of [do_map]: consecutive frames at consecutive pages. *)
Fixpoint map_loop (fuel : nat) (k : slub) (mm va end_ phys prot : Z) : option (Z * slub) :=
  match fuel with
  | O => None
  | S fuel' =>
      if va <? end_ then
        '(err, k) ← map_page k mm va phys prot;
        if negb (err =? 0) then Some (err, k)
        else map_loop fuel' k mm (u64 (va + PAGE_SIZE)) end_ (u64 (phys + PAGE_SIZE)) prot
      else Some (0, k)
  end.

Definition do_map (k : slub) (mm virt phys size prot : Z) : option (Z * slub) :=
  if (mm =? 0) || (rd k (mm + MM_pgd) =? 0) then Some (- EINVAL, k)
  else if size =? 0 then Some (0, k)
  else
    let va := Z.land virt PAGE_MASK in
    let end_ := page_align (u64 (virt + size)) in
    map_loop (pages_fuel va end_) k mm va end_ phys prot.

(** The loops that unmap the pages of [[va, end_)]. *)
Fixpoint unmap_loop (fuel : nat) (k : slub) (mm va end_ : Z) : option slub :=
  match fuel with
  | O => None
  | S fuel' =>
      if va <? end_ then
        k ← unmap_page k mm va;
        unmap_loop fuel' k mm (u64 (va + PAGE_SIZE)) end_
      else Some k
  end.

Definition unmap_range (k : slub) (mm va end_ : Z) : option slub := unmap_loop (pages_fuel va end_) k mm va end_.

Definition do_munmap (k : slub) (mm addr len : Z) : option (Z * slub) :=
  if (mm =? 0) || (rd k (mm + MM_pgd) =? 0) then Some (- EINVAL, k)
  else if len =? 0 then Some (0, k)
  else if has addr (PAGE_SIZE - 1) then Some (- EINVAL, k)
  else
    let end_ := page_align (u64 (addr + len)) in
    '(err, k) ← vma_erase_range k mm addr end_;
    if negb (err =? 0) then Some (err, k)
    else k ← unmap_range k mm addr end_; Some (0, k).

(** [do_brk] above the old break: the heap area is made or extended. *)
Definition brk_raise (k : slub) (mm heap_vma oldbrk newbrk : Z) : option (Z * slub) :=
  let new_end := page_align newbrk in
  if negb (heap_vma =? 0) && negb (rd k (heap_vma + VM_next) =? 0) &&
     (rd k (rd k (heap_vma + VM_next) + VM_start) <? new_end)
  then Some (s64 oldbrk, k)
  else if heap_vma =? 0 then
    '(ret, k) ← vma_record k mm (rd k (mm + MM_start_brk)) new_end (Z.lor MAP_PROT_READ MAP_PROT_WRITE);
    if ret <? 0 then Some (s64 oldbrk, k)
    else Some (s64 newbrk, wr k (mm + MM_brk) newbrk)
  else
    let k := if rd k (heap_vma + VM_end) <? new_end then wr k (heap_vma + VM_end) new_end else k in
    Some (s64 newbrk, wr k (mm + MM_brk) newbrk).

(** [do_brk] below the old break: pages are unmapped, the area is cut. *)
Definition brk_lower (k : slub) (mm heap_vma oldbrk newbrk : Z) : option (Z * slub) :=
  let old_end := page_align oldbrk in
  let new_end := page_align newbrk in
  k ← unmap_range k mm new_end old_end;
  if heap_vma =? 0 then Some (s64 newbrk, wr k (mm + MM_brk) newbrk)
  else if new_end <=? rd k (heap_vma + VM_start) then
    '(_, k) ← remove_vma k mm heap_vma;
    k ← kmem_cache_free k vma_cache heap_vma;
    Some (s64 newbrk, wr k (mm + MM_brk) newbrk)
  else
    Some (s64 newbrk, wr (wr k (heap_vma + VM_end) new_end) (mm + MM_brk) newbrk).

Definition do_brk (k : slub) (mm newbrk : Z) : option (Z * slub) :=
  if (mm =? 0) || (rd k (mm + MM_pgd) =? 0) then Some (- EINVAL, k)
  else
    let oldbrk := rd k (mm + MM_brk) in
    let stack_top := rd k (mm + MM_stack_top) in
    let stack_limit := if negb (stack_top =? 0) then u64 (stack_top - USER_STACK_SIZE) else 0 in
    if (newbrk <? rd k (mm + MM_start_brk)) || (negb (stack_limit =? 0) && (stack_limit <=? newbrk))
    then Some (s64 oldbrk, k)
    else if newbrk =? oldbrk then Some (s64 oldbrk, k)
    else
      heap_vma ← find_heap_vma k mm;
      if oldbrk <? newbrk then brk_raise k mm heap_vma oldbrk newbrk
      else brk_lower k mm heap_vma oldbrk newbrk.

(** The address that [do_mmap] chooses, after unmapping what a fixed mapping
    replaces; [inr] when the call fails there. *)
Definition mmap_place (k : slub) (mm addr len flags stack_limit : Z) : option ((Z + Z) * slub) :=
  if (addr =? 0) || negb (has flags MAP_FIXED) then
    va ← find_unmapped_area k mm len;
    if va =? 0 then Some (inr (- ENOMEM), k) else Some (inl va, k)
  else
    let va := Z.land addr PAGE_MASK in
    if (va =? 0) || (stack_limit <? u64 (va + len)) then Some (inr (- EINVAL), k)
    else
      '(err, k) ← vma_erase_range k mm va (u64 (va + len));
      if negb (err =? 0) then Some (inr err, k)
      else k ← unmap_range k mm va (u64 (va + len)); Some (inl va, k).

Definition do_mmap (k : slub) (mm addr len prot flags : Z) : option (Z * slub) :=
  if (mm =? 0) || (rd k (mm + MM_pgd) =? 0) || (len =? 0) then Some (- EINVAL, k)
  else if negb (has flags MAP_ANONYMOUS) then Some (- EINVAL, k)
  else
    let len := page_align len in
    let stack_top := rd k (mm + MM_stack_top) in
    let stack_limit := if negb (stack_top =? 0) then u64 (stack_top - USER_STACK_SIZE) else USER_STACK_BOTTOM in
    let map_prot := linux_prot_to_map prot in
    '(place, k) ← mmap_place k mm addr len flags stack_limit;
    match place with
    | inr err => Some (err, k)
    | inl va =>
        '(vma, k) ← vma_alloc k va (u64 (va + len)) map_prot;
        if vma =? 0 then Some (- ENOMEM, k)
        else
          '(err, k) ← insert_vma k mm vma;
          if negb (err =? 0) then k ← kmem_cache_free k vma_cache vma; Some (err, k)
          else
            let k := if rd k (mm + MM_mmap_base) <? u64 (va + len) then wr k (mm + MM_mmap_base) (u64 (va + len)) else k in
            Some (s64 va, k)
    end.

(** The system calls; [mm] is the address space of the calling task, 0 for a
    kernel thread. *)
Definition ksys_brk (k : slub) (mm brk : Z) : option (Z * slub) :=
  if mm =? 0 then Some (- EINVAL, k) else do_brk k mm brk.

Definition ksys_mmap (k : slub) (mm addr len prot flags fd off : Z) : option (Z * slub) :=
  if mm =? 0 then Some (- EINVAL, k)
  else if negb (has flags MAP_ANONYMOUS) && (0 <=? s64 fd) then Some (- ENODEV, k)
  else do_mmap k mm addr len prot flags.

Definition ksys_munmap (k : slub) (mm addr len : Z) : option (Z * slub) :=
  if mm =? 0 then Some (- EINVAL, k) else do_munmap k mm addr len.

Definition ksys_mprotect (k : slub) (mm addr len prot : Z) : option (Z * slub) :=
  if mm =? 0 then Some (- EINVAL, k)
  else if has addr (PAGE_SIZE - 1) then Some (- EINVAL, k)
  else if has prot (u64 (Z.lnot (Z.lor (Z.lor PROT_READ PROT_WRITE) PROT_EXEC))) then Some (- EINVAL, k)
  else if len =? 0 then Some (0, k)
  else if 2 ^ 64 - 1 - (PAGE_SIZE - 1) <? len then Some (- ENOMEM, k)
  else
    let nlen := page_align len in
    if 2 ^ 64 - 1 - nlen <? addr then Some (- ENOMEM, k)
    else mm_mprotect k mm addr (u64 (addr + nlen)) prot.

(** The last part of [do_page_fault]: a fresh page of zeros. *)
Definition fault_in (k : slub) (mm va vm_flags : Z) : option (Z * slub) :=
  '(page, b) ← alloc_pages (pa k) 0;
  let k := set_pa k b in
  if page =? 0 then Some (- ENOMEM, k)
  else
    let k := page_zero k page in
    let phys := virt_to_phys page in
    '(err, k) ← map_page k mm va phys vm_flags;
    if negb (err =? 0) then b ← free_pages (pa k) page 0; Some (err, set_pa k b)
    else Some (0, k).

Definition do_page_fault (k : slub) (mm addr esr : Z) : option (Z * slub) :=
  if mm =? 0 then Some (- EFAULT, k)
  else
    let va := Z.land addr PAGE_MASK in
    let ec := esr_get_ec esr in
    let write := has esr ESR_ELx_WNR in
    vma ← find_vma k mm addr;
    if (vma =? 0) || (addr <? rd k (vma + VM_start)) then Some (- EFAULT, k)
    else
      let vm_flags := rd k (vma + VM_flags) in
      let refused :=
        if ec =? ESR_ELx_EC_IABT_LOW then negb (has vm_flags VM_EXEC)
        else if write then negb (has vm_flags VM_WRITE)
        else negb (has vm_flags (Z.lor (Z.lor VM_READ VM_WRITE) VM_EXEC)) in
      if refused then Some (- EFAULT, k)
      else if va_mapped k mm va then
        if write then do_cow_fault k mm va vm_flags else Some (- EFAULT, k)
      else fault_in k mm va vm_flags.

(** [kernel/fork.c] *)
Definition mm_init (k : slub) (mm : Z) : option (Z * slub) :=
  '(pgd, b) ← alloc_pages (pa k) 0;
  let k := set_pa k b in
  if pgd =? 0 then k ← kfree k mm; Some (0, k)
  else
    let k := page_zero k pgd in
    let k := wr k (mm + MM_pgd) pgd in
    let k := wr k (mm + MM_mmap) 0 in
    let k := wr k (mm + MM_entry) 0 in
    let k := wr k (mm + MM_stack_top) 0 in
    let k := wr k (mm + MM_start_brk) 0 in
    let k := wr k (mm + MM_brk) 0 in
    let k := wr k (mm + MM_mmap_base) USER_MMAP_BASE in
    Some (mm, wr k (mm + MM_users) 1).

Definition mm_alloc (k : slub) : option (Z * slub) :=
  '(mm, k) ← kmalloc k SIZEOF_MM;
  if mm =? 0 then Some (0, k) else mm_init k mm.

Definition dup_mm (k : slub) (oldmm : Z) : option (Z * slub) :=
  if (oldmm =? 0) || (rd k (oldmm + MM_pgd) =? 0) then Some (0, k)
  else
    '(mm, k) ← kmalloc k SIZEOF_MM;
    if mm =? 0 then Some (0, k)
    else
      let copy k f := wr k (mm + f) (rd k (oldmm + f)) in
      let k := copy (copy (copy (copy (copy k MM_entry) MM_stack_top) MM_start_brk) MM_brk) MM_mmap_base in
      let k := wr k (mm + MM_users) 1 in
      '(pgd, k) ← dup_pgtable k (rd k (oldmm + MM_pgd)) 1;
      let k := wr k (mm + MM_pgd) pgd in
      if pgd =? 0 then k ← kfree k mm; Some (0, k)
      else
        '(mmap, k) ← dup_vma_list k (rd k (oldmm + MM_mmap));
        let k := wr k (mm + MM_mmap) mmap in
        if negb (rd k (oldmm + MM_mmap) =? 0) && (mmap =? 0) then
          k ← free_user_page_tables k (rd k (mm + MM_pgd));
          k ← kfree k mm; Some (0, k)
        else Some (mm, k).

(** ** Areas and tables in one memory *)

(** The tables of [mm] in pages of [P], with a reference for every leaf. *)
Record tables (k : slub) (P : gmap Z Z) (mm : Z) (t : tree 3) : Prop := {
  tb_base : KERNEL_VIRT_BASE <= mem_start (pa k);
  tb_root : rd k (mm + MM_pgd) = base_of k (fst t);
  tb_rep : rep 3 k t;
  tb_nodup : NoDup (owned 3 t);
  tb_owned : forall q, q ∈ owned 3 t -> P !! q = Some 0;
  tb_leaf : forall e, e ∈ ptes 3 t -> P !! pte_pfn k e = Some 0 /\ pte_pfn k e ∉ owned 3 t;
  tb_refs : forall q, 0 < uses k t q -> uses k t q <= (refcount (pa k)).[q]
}.

Lemma addr_pfn s p a : pool_ok s -> 0 <= p < pool_pages s -> in_page s p a -> addr_to_pfn s a = p.
Proof.
  intros Hpool Hp Ha. unfold in_page in Ha. rewrite pfn_to_addr_eq in Ha by done. unfold addr_to_pfn.
  destruct (pool_start _ Hpool) as [H1 H2]. assert (H3 := pool_pages_bound _ Hpool). unfold PAGE_SIZE in *.
  rewrite wrapu_id by lia. rewrite Z.shiftr_div_pow2 by (unfold PAGE_SHIFT; lia). change (2 ^ PAGE_SHIFT) with 4096.
  symmetry. apply (Z.div_unique _ _ _ (a - (mem_start s + p * 4096))); lia.
Qed.

(** An object of the caches lies in one slab, which is no block of [P]. *)
Lemma object_page k P S PL x c a :
  slub_rep k P S PL -> live k S x c -> x <= a < x + object_size (cache_of k c) ->
  exists p, slab_pages S !! p = Some 0 /\ P !! p = None /\ addr_to_pfn (pa k) a = p /\ in_page (pa k) p a.
Proof.
  intros HR Hl Ha. destruct (live_object _ _ _ _ _ _ HR Hl) as (p & si & Hp & _ & _ & _ & H1 & H2).
  destruct (slab_page_used _ _ _ _ _ _ HR Hp) as [Hu Hr]. assert (Hpool := inv_pool _ _ (sr_buddy _ _ _ _ HR)).
  assert (Hs : slab_pages S !! p = Some 0) by (unfold slab_pages; by rewrite lookup_fmap, Hp).
  assert (Hin : in_page (pa k) p a) by (unfold in_page, base_of, SIZEOF_SLAB in *; lia).
  exists p. splits; [done|by apply (map_disjoint_Some_r _ _ _ _ (sr_disj _ _ _ _ HR) Hs)|by apply addr_pfn|done].
Qed.

Lemma tables_space k P S PL mm c t :
  slub_rep k P S PL -> live k S mm c -> SIZEOF_MM <= object_size (cache_of k c) -> tables k P mm t ->
  space k (P ∪ slab_pages S) mm t.
Proof.
  intros HR Hl Hsz HT. destruct (object_page k P S PL mm c (mm + MM_pgd) HR Hl) as (p & Hs & HP & Ep & Hin).
  { unfold SIZEOF_MM, MM_pgd in *. lia. }
  assert (Hx : forall q, P !! q = Some 0 -> q <> p) by (intros q Hq ->; congruence).
  assert (Em : mm_page k mm = p) by done. destruct HT as [H1 H2 H3 H4 H5 H6 H7]. split; try done.
  - apply (sr_buddy _ _ _ _ HR).
  - destruct (live_object _ _ _ _ _ _ HR Hl) as (p' & si & Hp' & _ & _ & _ & H8 & _).
    destruct (slab_page_used _ _ _ _ _ _ HR Hp') as [_ Hr]. assert (Hpool := inv_pool _ _ (sr_buddy _ _ _ _ HR)).
    unfold base_of in H8. rewrite pfn_to_addr_eq in H8 by done. destruct (pool_start _ Hpool). unfold SIZEOF_SLAB, PAGE_SIZE in *. lia.
  - intros q Hq. by apply lookup_union_Some_l, H5.
  - intros e He. destruct (H6 e He) as [HA Hno]. splits; [by apply lookup_union_Some_l|done|]. rewrite Em. by apply Hx.
  - rewrite Em. splits; [|done|].
    + exists p, 0. split; [|by apply covers_self]. by rewrite lookup_union_r.
    + intros Hq. by apply (Hx p (H5 p Hq)).
Qed.

Lemma slub_eta k k' : caches k' = caches k -> k' = set_pa k (pa k').
Proof. destruct k, k'. cbn. by intros ->. Qed.

(** A change of the tables, seen from the caches: their pages and objects
    are left alone. *)
Lemma lift_space k P S PL O mm c t k' A' t' :
  slub_rep k P S PL -> tidy k S PL -> (forall x c, O !! x = Some c <-> live k S x c) ->
  live k S mm c -> SIZEOF_MM <= object_size (cache_of k c) -> tables k P mm t ->
  space k' A' mm t' -> same_pool (pa k) (pa k') -> caches k' = caches k -> slab_pages S ⊆ A' ->
  (forall p, is_Some (S !! p) -> (refcount (pa k')).[p] = (refcount (pa k)).[p]) -> pages_kept k (P ∪ slab_pages S) t k' A' ->
  (forall q, q ∈ owned 3 t' -> slab_pages S !! q = None) -> (forall e, e ∈ ptes 3 t' -> slab_pages S !! pte_pfn k' e = None) ->
  let P' := A' ∖ slab_pages S in
  slub_inv k' P' O /\ tables k' P' mm t' /\ same_layout k k' /\ A' = P' ∪ slab_pages S /\
  forall x c a, O !! x = Some c -> x <= a < x + object_size (cache_of k c) -> rd k' a = rd k a.
Proof.
  intros HR Ht HO Hl Hsz HT HS' Hs Hc Hsub Href Hkept Hown Hleaf P'.
  assert (EA : A' = P' ∪ slab_pages S).
  { unfold P'. rewrite map_union_comm by (by apply map_disjoint_difference_l1). by rewrite map_difference_union. }
  assert (Hd : P' ##ₘ slab_pages S) by (by apply map_disjoint_difference_l1).
  assert (Hpage : forall p si a, S !! p = Some si -> in_page (pa k) p a -> rd k' a = rd k a).
  { intros p si a Hp Ha. assert (Hp' : slab_pages S !! p = Some 0) by (unfold slab_pages; by rewrite lookup_fmap, Hp).
    apply (Hkept p 0 p a); [by apply lookup_union_Some_r; [apply HR|]|by apply (lookup_weaken _ _ _ _ Hp')|by apply covers_self| |done].
    intros Hq. assert (Hq' := tb_owned _ _ _ _ HT p Hq). by rewrite (map_disjoint_Some_r _ _ _ _ (sr_disj _ _ _ _ HR) Hp') in Hq'. }
  assert (Ek : k' = set_pa k (pa k')) by (by apply slub_eta).
  destruct (rep_set_pa k (pa k') P P' S PL HR Hs) as [HR' Hlay]; try done.
  { rewrite <- EA. apply (sp_buddy _ _ _ _ HS'). }
  { intros p si a Hp Ha. apply (Hpage p si a Hp). exact (slab_cell_page _ _ _ _ _ _ _ HR Hp Ha). }
  rewrite <- Ek in HR', Hlay. splits; try done.
  - rewrite Ek. apply (inv_set_pa k (pa k') P P' O S PL); try done; by rewrite <- Ek.
  - destruct HS' as [J1 J2 J3 J4 J5 J6 J7 J8 J9 J10]. split; try done.
    + intros q Hq. apply lookup_difference_Some. split; [by apply J7|by apply Hown].
    + intros e He. destruct (J8 e He) as (E1 & E2 & _). split; [|done]. apply lookup_difference_Some. split; [done|by apply Hleaf].
  - intros x c' a Hx Ha. apply HO in Hx. destruct (live_object _ _ _ _ _ _ HR Hx) as (p & si & Hp & _ & _ & _ & ? & ?).
    apply (Hpage p si); [done|]. unfold in_page, base_of, SIZEOF_SLAB in *. lia.
Qed.

(** The memory of a process: its list of areas and its tables; [R] are the
    other live objects, [mm] among them. *)
Record mem (k : slub) (P R : gmap Z Z) (mm : Z) (V : list vma) (t : tree 3) : Prop := {
  me_areas : mm_rep k P R mm V;
  me_tables : tables k P mm t
}.

(** The objects of [R] keep their fields. *)
Definition objs_kept (k k' : slub) (R : gmap Z Z) : Prop :=
  same_layout k k' /\ forall x c a, R !! x = Some c -> x <= a < x + object_size (cache_of k c) -> rd k' a = rd k a.

Lemma objs_kept_trans k1 k2 k3 R : objs_kept k1 k2 R -> objs_kept k2 k3 R -> objs_kept k1 k3 R.
Proof.
  intros [L1 H1] [L2 H2]. split; [by etrans|]. intros x c a Hx Ha. rewrite (H2 x c), (H1 x c); try done. by rewrite (lay_size _ _ L1).
Qed.

Lemma objs_kept_sub k k' R R' : R' ⊆ R -> objs_kept k k' R -> objs_kept k k' R'.
Proof. intros Hs [L H]. split; [done|]. intros x c a Hx. apply H. by eapply lookup_weaken. Qed.

(** A list of areas depends only on its objects and on its head. *)
Lemma rep_cells k k' P P' R R' mm V :
  mm_rep k P R mm V -> same_layout k k' -> R' !! mm = R !! mm -> vobjs V ##ₘ R' -> slub_inv k' P' (vobjs V ∪ R') ->
  (forall v e, v ∈ V -> 0 <= e < 32 -> rd k' (vptr v + e) = rd k (vptr v + e)) -> rd k' (mm + MM_mmap) = rd k (mm + MM_mmap) ->
  mm_rep k' P' R' mm V.
Proof.
  intros HR Hl Hmm Hd HI Hv Eh. destruct (mr_mm _ _ _ _ _ HR) as (c & Hc & Hs). split; try done.
  - rewrite (lay_some _ _ Hl), (lay_size _ _ Hl). apply HR.
  - exists c. by rewrite (lay_size _ _ Hl), Hmm.
  - rewrite Eh. apply (@lseg_frame _ vlinks k); [|apply HR].
    intros y (v & -> & Hv')%list_elem_of_fmap. cbn. apply Hv; [done|by vm_compute].
  - intros v Hv'. destruct (mr_cells _ _ _ _ _ HR v Hv') as (C1 & C2 & C3). unfold vcells.
    by rewrite !Hv by (done || by vm_compute).
Qed.

Lemma rep_moved k k' P P' R mm V :
  mm_rep k P R mm V -> slub_inv k' P' (vobjs V ∪ R) -> objs_kept k k' (vobjs V ∪ R) -> mm_rep k' P' R mm V.
Proof.
  intros HR HI [Hl Ho]. destruct (mr_mm _ _ _ _ _ HR) as (c & Hc & Hs). apply (rep_cells k k' P P' R R); try done; [apply HR| |].
  - intros v e Hv He. apply (Ho (vptr v) vma_cache); [by eapply rep_own|rewrite (rep_vma_size HR); lia].
  - apply (Ho mm c); [by eapply rep_rest|]. unfold SIZEOF_MM, MM_mmap in *. lia.
Qed.

(** The pages of [mm] and the slabs behind a state. *)
Lemma mem_open k P R mm V t :
  mem k P R mm V t -> exists S PL c, slub_rep k P S PL /\ tidy k S PL /\ (forall x c, (vobjs V ∪ R) !! x = Some c <-> live k S x c) /\
    live k S mm c /\ SIZEOF_MM <= object_size (cache_of k c) /\ space k (P ∪ slab_pages S) mm t /\
    forall q, P !! q = Some 0 -> slab_pages S !! q = None.
Proof.
  intros [HR HT]. destruct (mr_inv _ _ _ _ _ HR) as (S & PL & Hrep & Ht & HO). destruct (mr_mm _ _ _ _ _ HR) as (c & Hc & Hs).
  assert (Hl : live k S mm c) by (by apply HO; eapply rep_rest). exists S, PL, c. splits; try done.
  - by apply (tables_space k P S PL mm c).
  - intros q Hq. by apply (map_disjoint_Some_l _ _ _ _ (sr_disj _ _ _ _ Hrep) Hq).
Qed.

Lemma mem_lift k P S PL R mm V c t k' A' t' :
  mem k P R mm V t -> slub_rep k P S PL -> tidy k S PL -> (forall x c, (vobjs V ∪ R) !! x = Some c <-> live k S x c) ->
  live k S mm c -> SIZEOF_MM <= object_size (cache_of k c) ->
  space k' A' mm t' -> same_pool (pa k) (pa k') -> caches k' = caches k -> slab_pages S ⊆ A' ->
  (forall p, is_Some (S !! p) -> (refcount (pa k')).[p] = (refcount (pa k)).[p]) -> pages_kept k (P ∪ slab_pages S) t k' A' ->
  (forall q, q ∈ owned 3 t' -> slab_pages S !! q = None) -> (forall e, e ∈ ptes 3 t' -> slab_pages S !! pte_pfn k' e = None) ->
  let P' := A' ∖ slab_pages S in mem k' P' R mm V t' /\ objs_kept k k' (vobjs V ∪ R) /\ A' = P' ∪ slab_pages S.
Proof.
  intros [HR HT] Hrep Ht HO Hl Hs HS' Hp Hc Hsub Href Hk Ho He P'.
  destruct (lift_space k P S PL _ mm c t k' A' t' Hrep Ht HO Hl Hs HT HS' Hp Hc Hsub Href Hk Ho He) as (HI & HT' & Hlay & EA & Hobj).
  assert (Hok : objs_kept k k' (vobjs V ∪ R)) by (split; [done|exact Hobj]). splits; try done.
  split; [|done]. by apply (rep_moved k k' P).
Qed.

(** ** Unmapping *)

(** Mappings were dropped: every page loses as many references as mappings
    and is free without references; the others keep their bytes. *)
Record released (k : slub) (P : gmap Z Z) (t : tree 3) (k' : slub) (P' : gmap Z Z) (t' : tree 3) : Prop := {
  rl_pool : same_pool (pa k) (pa k');
  rl_owned : owned 3 t' ≡ₚ owned 3 t;
  rl_uses : forall q, uses k t' q <= uses k t q;
  rl_ref : forall q, is_Some (P' !! q) -> (refcount (pa k')).[q] = (refcount (pa k)).[q] - (uses k t q - uses k t' q);
  rl_pages : forall q o, P' !! q = Some o <-> P !! q = Some o /\ (uses k t' q = uses k t q \/ uses k t q - uses k t' q < (refcount (pa k)).[q]);
  rl_bytes : forall p o q a, P' !! p = Some o -> covers p o q -> q ∉ owned 3 t -> in_page (pa k) q a -> rd k' a = rd k a
}.

Lemma released_refl k P t : released k P t k P t.
Proof. split; try done; intros; try lia. tauto. Qed.

Lemma released_trans k P t k1 P1 t1 k2 P2 t2 :
  released k P t k1 P1 t1 -> released k1 P1 t1 k2 P2 t2 -> released k P t k2 P2 t2.
Proof.
  intros [A1 A2 A3 A4 A5 A6] [B1 B2 B3 B4 B5 B6]. assert (Eu := fun t q => uses_same k k1 t q A1).
  setoid_rewrite Eu in B3. setoid_rewrite Eu in B4. setoid_rewrite Eu in B5. split.
  - by etransitivity.
  - by rewrite B2, A2.
  - intros q. specialize (A3 q). specialize (B3 q). lia.
  - intros q [o Hq]. rewrite B4 by eauto. apply B5 in Hq as [Hq _]. rewrite A4 by eauto. lia.
  - intros q o. specialize (A3 q). specialize (B3 q). specialize (A4 q). split.
    + intros [H1 H2]%B5. rewrite A4 in H2 by eauto. apply A5 in H1 as [H1 H3]. split; [done|]. lia.
    + intros [H1 H2]. assert (H3 : P1 !! q = Some o) by (apply A5; split; [done|lia]). apply B5. split; [done|].
      rewrite A4 by eauto. lia.
  - intros p o q a Hp Hc Hq Ha. assert (Hp1 : P1 !! p = Some o) by (by apply B5 in Hp as [? _]).
    rewrite (B6 p o q a Hp Hc); [by apply (A6 p o q)|by rewrite A2|]. unfold in_page in *. by rewrite !(pfn_to_addr_same _ _ q A1).
Qed.

Lemma unmap_caches k mm va k' : unmap_page k mm va = Some k' -> caches k' = caches k.
Proof.
  unfold unmap_page, pte_set, wr. intros E. repeat case_match; simplify_eq; try done.
  destruct (put_page _ _); [|done]. cbn in E. by simplify_eq.
Qed.

Lemma slab_pages_0 S q o : slab_pages S !! q = Some o -> o = 0 /\ is_Some (S !! q).
Proof. unfold slab_pages. rewrite lookup_fmap. destruct (S !! q); [|done]. intros [= <-]. eauto. Qed.

Lemma union_minus (P S : gmap Z Z) : P ##ₘ S -> (P ∪ S) ∖ S = P.
Proof.
  intros Hd. apply map_eq. intros q. apply option_eq. intros o. rewrite lookup_difference_Some, lookup_union_Some by done.
  assert (H := map_disjoint_Some_l _ _ q o Hd). clear Hd. split; [intros [[?|?] ?]; [done|congruence]|intros E; split; [by left|by apply H]].
Qed.

Lemma drop_minus k (P S : gmap Z Z) p : P ##ₘ S -> S !! p = None -> drop_page k (P ∪ S) p ∖ S = drop_page k P p.
Proof.
  intros Hd Hs. unfold drop_page. case_decide; [|by apply union_minus].
  rewrite delete_union, (delete_id S) by done. apply union_minus. by apply map_disjoint_delete_l.
Qed.

(** The page behind a dropped leaf. *)
Lemma drop_released k P t va k' e :
  leaf_at t va = Some e -> is_Some (table_at t va) -> same_pool (pa k) (pa k') -> (forall q, 0 < uses k t q -> uses k t q <= (refcount (pa k)).[q]) ->
  refcount (pa k') = <[pte_pfn k e := (refcount (pa k)).[pte_pfn k e] - 1]> (refcount (pa k)) ->
  (forall p o q a, drop_page k P (pte_pfn k e) !! p = Some o -> covers p o q -> q ∉ owned 3 t -> in_page (pa k) q a -> rd k' a = rd k a) ->
  released k P t k' (drop_page k P (pte_pfn k e)) (set_leaf t va None).
Proof.
  intros El H3 Hs Hu Er Hb. assert (Hus := fun q => uses_set_leaf k t va None q H3). rewrite El in Hus.
  assert (Hpos := uses_pos k t e (leaf_in _ _ _ El)). specialize (Hu (pte_pfn k e) Hpos). split; try done.
  - by apply set_leaf_owned.
  - intros q. rewrite Hus. case_decide; lia.
  - intros q _. rewrite Hus, Er, arr_get_insert_case. destruct (decide (pte_pfn k e = q)) as [<-|]; lia.
  - intros q o. rewrite Hus. unfold drop_page. case_decide as D1.
    + rewrite lookup_delete_Some. case_decide as D2; [subst q|]; intuition (lia || congruence).
    + case_decide as D2; [subst q|]; intuition lia.
Qed.

Lemma mem_unmap k P R mm V t va :
  mem k P R mm V t -> exists k' P' t', unmap_page k mm va = Some k' /\ mem k' P' R mm V t' /\ released k P t k' P' t' /\
    objs_kept k k' (vobjs V ∪ R) /\ forall va', leaf_at t' va' = if decide (same_page va va') then None else leaf_at t va'.
Proof.
  intros HM. destruct (mem_open _ _ _ _ _ _ HM) as (S & PL & c & Hrep & Ht & HO & Hl & Hsz & HS & HPS).
  assert (Hu := unmap_spec _ _ mm t va HS). destruct (leaf_at t va) as [e|] eqn:El.
  2:{ exists k, P, t. splits; [done|done|apply released_refl|by split|]. intros va'. case_decide as D; [|done].
      destruct D as (D1 & D2 & D3). rewrite <- El. unfold leaf_at. by rewrite D1, D2, D3. }
  destruct Hu as (k' & E & HS' & H3 & Er & Hk & Hs). set (p := pte_pfn k e) in *. set (A := P ∪ slab_pages S) in *.
  assert (Hp := proj1 (tb_leaf _ _ _ _ (me_tables _ _ _ _ _ _ HM) e (leaf_in _ _ _ El))). fold p in Hp. assert (Hps := HPS p Hp).
  assert (Hperm := set_leaf_owned t va None H3). assert (ED := drop_minus k P (slab_pages S) p (sr_disj _ _ _ _ Hrep) Hps).
  assert (Hsl : forall q, slab_pages S !! q = Some 0 -> drop_page k A p !! q = Some 0).
  { intros q Hq. assert (A !! q = Some 0) by (by apply lookup_union_Some_r; [apply Hrep|]).
    unfold drop_page. case_decide; [rewrite lookup_delete_ne; congruence|done]. }
  destruct (mem_lift k P S PL R mm V c t k' (drop_page k A p) (set_leaf t va None)) as (HM' & Hok & _); try done.
  { by apply (unmap_caches k mm va). }
  { apply map_subseteq_spec. intros q o Hq. destruct (slab_pages_0 _ _ _ Hq) as [-> _]. by apply Hsl. }
  { intros q [si Hq]. rewrite Er. apply arr_get_insert_ne. intros <-. unfold slab_pages in Hps. by rewrite lookup_fmap, Hq in Hps. }
  { intros q Hq. rewrite Hperm in Hq. by apply HPS, (tb_owned _ _ _ _ (me_tables _ _ _ _ _ _ HM)). }
  { intros x Hx. rewrite (pte_pfn_same k k') by done. apply HPS. apply (tb_leaf _ _ _ _ (me_tables _ _ _ _ _ _ HM)).
    destruct (set_leaf_ptes t va H3) as (rest & E1 & E2). rewrite (E2 None) in Hx. rewrite E1. apply elem_of_app. by right. }
  fold A in ED. rewrite ED in HM'. exists k', (drop_page k P p), (set_leaf t va None). splits; [done|done| |done|].
  - apply drop_released; try done; [apply (tb_refs _ _ _ _ (me_tables _ _ _ _ _ _ HM))|]. fold p. intros p' o q a Hp' Hc Hq Ha.
    apply (Hk p' o q a); try done.
    + apply lookup_union_Some_l. unfold drop_page in Hp'. case_decide; [by apply lookup_delete_Some in Hp' as [_ ?]|done].
    + rewrite <- ED in Hp'. by apply lookup_difference_Some in Hp' as [? _].
  - intros va'. by apply leaf_set_leaf.
Qed.

(** ** Ranges of pages *)

(** The tables translate 39 bits of an address. *)
Definition USER_TOP : Z := 2 ^ 39.
Definition uaddr (va : Z) : Prop := 0 <= va < USER_TOP.

Lemma idx_sum va : uaddr va -> (l1_idx va * 512 + l2_idx va) * 512 + l3_idx va = va / PAGE_SIZE.
Proof.
  intros Hv. unfold uaddr, USER_TOP, l1_idx, l2_idx, l3_idx, PAGE_SIZE in *. change 0x1ff with (Z.ones 9).
  rewrite !Z.land_ones, !Z.shiftr_div_pow2 by lia. change (2 ^ 9) with 512. change (2 ^ 12) with 4096.
  change (2 ^ 30) with (4096 * 512 * 512). change (2 ^ 21) with (4096 * 512). rewrite <- !Z.div_div by lia.
  change (2 ^ 39) with (4096 * (512 * 512 * 512)) in Hv. set (x := va / 4096).
  assert (Hx : 0 <= x < 512 * 512 * 512) by (unfold x; split; [apply Z.div_pos; lia|apply Z.div_lt_upper_bound; lia]).
  rewrite (Z.mod_small (x / 512 / 512)) by (split; [apply Z.div_pos; [apply Z.div_pos|]; lia|do 2 (apply Z.div_lt_upper_bound; [lia|]); lia]).
  assert (E1 := Z.div_mod x 512 ltac:(lia)). assert (E2 := Z.div_mod (x / 512) 512 ltac:(lia)). lia.
Qed.

Lemma same_page_iff va va' : uaddr va -> uaddr va' -> same_page va va' <-> va / PAGE_SIZE = va' / PAGE_SIZE.
Proof.
  intros H1 H2. split.
  - intros (D1 & D2 & D3). by rewrite <- !idx_sum, D1, D2, D3 by done.
  - intros E. rewrite <- !idx_sum in E by done. destruct (idx_range va) as (? & ? & ?), (idx_range va') as (? & ? & ?).
    unfold same_page. lia.
Qed.

Lemma in_aligned_page va va' : (PAGE_SIZE | va) -> va / PAGE_SIZE = va' / PAGE_SIZE <-> va <= va' < va + PAGE_SIZE.
Proof.
  intros [n ->]. unfold PAGE_SIZE. rewrite Z.div_mul by lia. assert (E := Z.div_mod va' 4096 ltac:(lia)).
  assert (H := Z.mod_pos_bound va' 4096 ltac:(lia)). lia.
Qed.

Lemma pages_left va end_ fuel :
  va < end_ -> (Z.to_nat ((end_ - va + PAGE_SIZE - 1) / PAGE_SIZE) < S fuel)%nat ->
  (Z.to_nat ((end_ - (va + PAGE_SIZE) + PAGE_SIZE - 1) / PAGE_SIZE) < fuel)%nat.
Proof.
  intros Hlt Hf. replace (end_ - va + PAGE_SIZE - 1) with (end_ - (va + PAGE_SIZE) + PAGE_SIZE - 1 + 1 * PAGE_SIZE) in Hf by lia.
  rewrite Z.div_add in Hf by (unfold PAGE_SIZE; lia). assert (H : 0 <= (end_ - (va + PAGE_SIZE) + PAGE_SIZE - 1) / PAGE_SIZE).
  { apply Z.div_pos; unfold PAGE_SIZE; lia. }
  lia.
Qed.

(** A user range of whole pages. *)
Definition page_range (s e : Z) : Prop := 0 <= s /\ e <= USER_TOP /\ (PAGE_SIZE | s) /\ (PAGE_SIZE | e).

(** A range of whole pages that may go on above the part that the tables
    translate. *)
Definition page_span (s e : Z) : Prop := 0 <= s /\ e <= 2 ^ 64 - PAGE_SIZE /\ (PAGE_SIZE | s) /\ (PAGE_SIZE | e).

Lemma range_span s e : page_range s e -> page_span s e.
Proof. unfold page_range, page_span, USER_TOP, PAGE_SIZE. intros (? & ? & ? & ?). splits; try done; lia. Qed.

(** The tables translate some address of [[s, e)] as they translate [va]: only
    39 bits of an address are looked at. *)
Definition reached (s e va : Z) : Prop := s + (va - s) mod USER_TOP < e.

#[export] Instance reached_dec s e va : Decision (reached s e va).
Proof. unfold reached. apply _. Defined.

Lemma reached_in s e va : 0 <= s -> uaddr va -> s <= va < e -> reached s e va.
Proof. intros Hs Hva H. unfold reached, uaddr, USER_TOP in *. rewrite Z.mod_small by lia. lia. Qed.

(** Below the top, these are the addresses of the range itself. *)
Lemma reached_range s e va : page_range s e -> uaddr va -> reached s e va <-> s <= va < e.
Proof.
  intros (H0 & He & _) Hva. split; [|by apply reached_in]. unfold reached, uaddr, USER_TOP in *. intros H.
  destruct (decide (s <= va)) as [D|D]; [rewrite Z.mod_small in H by lia; lia|]. destruct (decide (s < 2 ^ 39)).
  - rewrite <- (Z.mod_unique (va - s) (2 ^ 39) (-1) (va - s + 2 ^ 39)) in H by lia. lia.
  - assert (Hm := Z.mod_pos_bound (va - s) (2 ^ 39) ltac:(lia)). lia.
Qed.

Lemma idx_low va : same_page va (va mod USER_TOP).
Proof.
  unfold same_page, l1_idx, l2_idx, l3_idx, USER_TOP. change 0x1ff with (Z.ones 9). rewrite <- (Z.land_ones va 39) by lia.
  rewrite !Z.shiftr_land, <- !Z.land_assoc. by splits.
Qed.

Lemma same_page_reached s va : (PAGE_SIZE | s) -> uaddr va -> same_page s va <-> (va - s) mod USER_TOP < PAGE_SIZE.
Proof.
  intros Hs Hva. set (w := s mod USER_TOP). assert (Hw : uaddr w) by (by apply Z.mod_pos_bound).
  assert (Hd : (PAGE_SIZE | w)). { unfold w. rewrite Z.mod_eq by done. apply Z.divide_sub_r; [done|]. apply Z.divide_mul_l. by exists (2 ^ 27). }
  assert (E : (va - s) mod USER_TOP = (va - w) mod USER_TOP) by (unfold w; by rewrite Zminus_mod_idemp_r).
  assert (Hsw : same_page s va <-> same_page w va).
  { destruct (idx_low s) as (E1 & E2 & E3). fold w in E1, E2, E3. unfold same_page. by rewrite E1, E2, E3. }
  rewrite Hsw, same_page_iff, in_aligned_page, E by done. clear Hsw E. unfold uaddr, USER_TOP, PAGE_SIZE in *.
  destruct (decide (w <= va)) as [D|D]; [rewrite Z.mod_small by lia; lia|].
  rewrite <- (Z.mod_unique (va - w) (2 ^ 39) (-1) (va - w + 2 ^ 39)) by lia.
  destruct Hd as [m Em]. assert (m < 2 ^ 27) by lia. lia.
Qed.

(** The first page of the range, and the others. *)
Lemma reached_step s e va : (PAGE_SIZE | s) -> uaddr va -> s + PAGE_SIZE <= e ->
  reached s e va <-> same_page s va \/ reached (s + PAGE_SIZE) e va.
Proof.
  intros Hd Hva He. rewrite same_page_reached by done. unfold reached. assert (Hm := Z.mod_pos_bound (va - s) USER_TOP ltac:(done)).
  set (d := (va - s) mod USER_TOP) in *. destruct (decide (d < PAGE_SIZE)) as [D|D]; [unfold PAGE_SIZE in *; intuition lia|].
  replace ((va - (s + PAGE_SIZE)) mod USER_TOP) with (d - PAGE_SIZE); [intuition lia|].
  assert (E := Z.div_mod (va - s) USER_TOP ltac:(done)). fold d in E.
  apply (Z.mod_unique _ _ ((va - s) / USER_TOP)); unfold PAGE_SIZE in *; lia.
Qed.

Lemma mem_unmap_loop fuel k P R mm V t va end_ :
  mem k P R mm V t -> page_span va end_ -> (Z.to_nat ((end_ - va + PAGE_SIZE - 1) / PAGE_SIZE) < fuel)%nat ->
  exists k' P' t', unmap_loop fuel k mm va end_ = Some k' /\ mem k' P' R mm V t' /\ released k P t k' P' t' /\
    objs_kept k k' (vobjs V ∪ R) /\
    forall va', uaddr va' -> leaf_at t' va' = if decide (reached va end_ va') then None else leaf_at t va'.
Proof.
  revert k P t va. induction fuel as [|fuel IH]; intros k P t va HM (H0 & Htop & Hd1 & Hd2) Hf; [lia|]. cbn [unmap_loop].
  destruct (Z.ltb_spec va end_) as [Hlt|Hge].
  2:{ exists k, P, t. splits; [done|done|apply released_refl|by split|]. intros va' _. rewrite decide_False; [done|].
      unfold reached. assert (H := Z.mod_pos_bound (va' - va) USER_TOP ltac:(done)). lia. }
  destruct (mem_unmap k P R mm V t va HM) as (k1 & P1 & t1 & -> & HM1 & Hr1 & Ho1 & Hl1). cbn [mbind option_bind].
  assert (Hd3 : (PAGE_SIZE | va + PAGE_SIZE)) by (apply Z.divide_add_r; [done|exists 1; lia]).
  assert (Eu : u64 (va + PAGE_SIZE) = va + PAGE_SIZE) by (apply wrapu_id; unfold PAGE_SIZE in *; lia).
  rewrite Eu. destruct (IH k1 P1 t1 (va + PAGE_SIZE) HM1) as (k2 & P2 & t2 & E2 & HM2 & Hr2 & Ho2 & Hl2).
  { unfold page_span, PAGE_SIZE in *. splits; try done; lia. }
  { by apply pages_left. }
  exists k2, P2, t2. splits; [done|done|by eapply released_trans|by eapply objs_kept_trans|].
  intros va' Hva'. rewrite Hl2 by done. rewrite Hl1.
  assert (Hle : va + PAGE_SIZE <= end_).
  { destruct Hd1 as [x ->], Hd2 as [y ->]. unfold PAGE_SIZE in *. lia. }
  assert (Hst := reached_step va end_ va' Hd1 Hva' Hle). repeat case_decide; try done; tauto.
Qed.

Lemma mem_unmap_span k P R mm V t va end_ :
  mem k P R mm V t -> page_span va end_ ->
  exists k' P' t', unmap_range k mm va end_ = Some k' /\ mem k' P' R mm V t' /\ released k P t k' P' t' /\
    objs_kept k k' (vobjs V ∪ R) /\
    forall va', uaddr va' -> leaf_at t' va' = if decide (reached va end_ va') then None else leaf_at t va'.
Proof. intros HM Hr. apply mem_unmap_loop; [done|done|]. unfold pages_fuel. lia. Qed.

Lemma mem_unmap_range k P R mm V t va end_ :
  mem k P R mm V t -> page_range va end_ ->
  exists k' P' t', unmap_range k mm va end_ = Some k' /\ mem k' P' R mm V t' /\ released k P t k' P' t' /\
    objs_kept k k' (vobjs V ∪ R) /\
    forall va', uaddr va' -> leaf_at t' va' = if decide (va <= va' < end_) then None else leaf_at t va'.
Proof.
  intros HM Hr. destruct (mem_unmap_span k P R mm V t va end_ HM (range_span _ _ Hr)) as (k' & P' & t' & E & HM' & Hrl & Hok & Hl).
  exists k', P', t'. splits; try done. intros va' Hva'. rewrite Hl by done. apply decide_ext. by apply reached_range.
Qed.

(** ** Changes of the areas *)

Lemma uses_elem k t q : 0 < uses k t q -> exists e, e ∈ ptes 3 t /\ pte_pfn k e = q.
Proof.
  unfold uses. intros Hu. destruct (filter _ _) as [|e l] eqn:E; [cbn in Hu; lia|].
  assert (He : e ∈ filter (fun e' => pte_pfn k e' = q) (ptes 3 t)) by (rewrite E; left).
  apply list_elem_of_filter in He as [? ?]. by exists e.
Qed.

Lemma tables_frame k k' P R mm t c :
  tables k P mm t -> mm_frame k k' P R mm -> R !! mm = Some c -> SIZEOF_MM <= object_size (cache_of k c) -> tables k' P mm t.
Proof.
  intros [H1 H2 H3 H4 H5 H6 H7] [F1 F2 F3 F4] Hc Hs. assert (Hp := lay_pool _ _ F1). split; try done.
  - by destruct Hp as (-> & _).
  - rewrite (F4 mm c) by (done || unfold SIZEOF_MM, MM_pgd, MM_mmap in *; lia). rewrite H2. symmetry. by apply pfn_to_addr_same.
  - apply (rep_same 3 k); [done| |done]. intros q a Hq Ha. apply (F3 q 0 q a); [by apply H5|by apply covers_self|done].
  - intros e He. rewrite (pte_pfn_same k k') by done. by apply H6.
  - intros q. rewrite (uses_same k k') by done. intros Hq. rewrite F2; [by apply H7|].
    destruct (uses_elem k t q Hq) as (e & He & <-). destruct (H6 e He) as [-> _]. eauto.
Qed.

Lemma mem_frame k k' P R mm V V' t :
  mem k P R mm V t -> mm_rep k' P R mm V' -> mm_frame k k' P R mm -> mem k' P R mm V' t.
Proof.
  intros [HR HT] HR' Hf. split; [done|]. destruct (mr_mm _ _ _ _ _ HR) as (c & Hc & Hs). by apply (tables_frame k k' P R mm t c).
Qed.

Lemma frame_released k k' P R mm t : mm_frame k k' P R mm -> released k P t k' P t.
Proof.
  intros [F1 F2 F3 F4]. split; try done.
  - apply (lay_pool _ _ F1).
  - intros q Hq. rewrite F2 by done. lia.
  - intros q o. split; [intros ?; split; [done|by left]|by intros [? _]].
  - intros p o q a Hp Hc _ Ha. by apply (F3 p o q).
Qed.

(** The byte that the process sees at an address. *)
Definition user_byte (k : slub) (t : tree 3) (va : Z) : option Z :=
  e ← leaf_at t va; Some (rd k (base_of k (pte_pfn k e) + va mod PAGE_SIZE)).

Lemma in_base k q va : in_page (pa k) q (base_of k q + va mod PAGE_SIZE).
Proof. unfold in_page, base_of. assert (H := Z.mod_pos_bound va PAGE_SIZE ltac:(unfold PAGE_SIZE; lia)). lia. Qed.

(** A mapping whose page is in use before and after keeps its byte. *)
Lemma byte_kept k P mm t k' P' t' va :
  tables k P mm t -> tables k' P' mm t' -> released k P t k' P' t' -> pte_pfn k <$> leaf_at t' va = pte_pfn k <$> leaf_at t va ->
  user_byte k' t' va = user_byte k t va.
Proof.
  intros HT HT' Hr El. unfold user_byte. destruct (leaf_at t' va) as [e'|] eqn:E', (leaf_at t va) as [e|] eqn:E; try done. cbn in El |- *. f_equal.
  injection El as El. assert (Hs := rl_pool _ _ _ _ _ _ Hr). destruct (tb_leaf _ _ _ _ HT e (leaf_in _ _ _ E)) as [_ Hno].
  destruct (tb_leaf _ _ _ _ HT' e' (leaf_in _ _ _ E')) as [Hp _]. rewrite (pte_pfn_same k k') in * by done. rewrite El in *.
  unfold base_of in *. rewrite (pfn_to_addr_same _ _ _ Hs).
  apply (rl_bytes _ _ _ _ _ _ Hr (pte_pfn k e) 0 (pte_pfn k e)); [done|by apply covers_self|done|apply in_base].
Qed.

(** ** The invariant of a process *)

(** An entry gives what the flags of its area say, but for a write permission
    that waits for a private copy. *)
Definition VM_ACCESS : Z := Z.lor (Z.lor VM_READ VM_WRITE) VM_EXEC.

Definition matches (f e : Z) : Prop :=
  (pte_write e = true -> has f VM_WRITE = true) /\ has e PTE_UXN = negb (has f VM_EXEC) /\ has e PTE_USER = has f VM_ACCESS.

(** A page that can be written is mapped nowhere else. *)
Definition private (k : slub) (t : tree 3) : Prop :=
  forall va e, uaddr va -> leaf_at t va = Some e -> pte_write e = true -> (refcount (pa k)).[pte_pfn k e] = 1.

Record mem_inv (k : slub) (P R : gmap Z Z) (mm : Z) (V : list vma) (t : tree 3) : Prop := {
  mi_mem : mem k P R mm V t;
  mi_sorted : sorted 0 (areas V);
  mi_pages : forall x, x ∈ areas V -> page_range (a_start x) (a_end x);
  mi_backed : forall va e, uaddr va -> leaf_at t va = Some e -> exists f, space_at V va = Some f /\ matches f e;
  mi_private : private k t
}.

Lemma private_released k P mm t k' P' t' :
  tables k P mm t -> tables k' P' mm t' -> released k P t k' P' t' -> private k t ->
  (forall va e, uaddr va -> leaf_at t' va = Some e -> leaf_at t va = Some e) -> private k' t'.
Proof.
  intros HT HT' Hr Hp Hl va e Hva He Hw. assert (He0 := Hl va e Hva He). assert (H1 := Hp va e Hva He0 Hw).
  assert (Hs := rl_pool _ _ _ _ _ _ Hr). rewrite (pte_pfn_same k k') by done. assert (Hu := uses_pos k t' e (leaf_in _ _ _ He)).
  assert (Hu0 := tb_refs _ _ _ _ HT _ (uses_pos k t e (leaf_in _ _ _ He0))). assert (Hle := rl_uses _ _ _ _ _ _ Hr (pte_pfn k e)).
  destruct (tb_leaf _ _ _ _ HT' e (leaf_in _ _ _ He)) as [HP _]. rewrite (pte_pfn_same k k') in HP by done.
  rewrite (rl_ref _ _ _ _ _ _ Hr) by eauto. lia.
Qed.

Lemma private_frame k k' P R mm t : tables k P mm t -> mm_frame k k' P R mm -> private k t -> private k' t.
Proof.
  intros HT [F1 F2 _ _] Hp va e Hva He Hw. rewrite (pte_pfn_same k k') by apply (lay_pool _ _ F1).
  destruct (tb_leaf _ _ _ _ HT e (leaf_in _ _ _ He)) as [HP _]. rewrite F2 by eauto. by apply (Hp va).
Qed.

Lemma cut_pages s e x y :
  page_range (a_start x) (a_end x) -> page_span s e -> y ∈ cut s e x -> page_range (a_start y) (a_end y).
Proof.
  intros Hx Hs. unfold cut. repeat case Z.leb_spec; repeat case Z.ltb_spec; cbn; intros; set_unfold;
    destruct_or?; simplify_eq/=; try done; unfold page_range, page_span in *; intuition lia.
Qed.

(** The objects of [R] keep their fields, but for the addresses [D]. *)
Definition kept (k k' : slub) (R : gmap Z Z) (D : list Z) : Prop :=
  same_layout k k' /\
  forall x c a, R !! x = Some c -> x <= a < x + object_size (cache_of k c) -> a ∉ D -> rd k' a = rd k a.

Lemma kept_refl k R D : kept k k R D.
Proof. by split. Qed.

Lemma kept_trans k1 k2 k3 R D : kept k1 k2 R D -> kept k2 k3 R D -> kept k1 k3 R D.
Proof.
  intros [L1 H1] [L2 H2]. split; [by etrans|]. intros x c a Hx Ha Hn. rewrite (H2 x c), (H1 x c); try done. by rewrite (lay_size _ _ L1).
Qed.

Lemma kept_weaken k k' R D D' : D ⊆ D' -> kept k k' R D -> kept k k' R D'.
Proof. intros Hs [L H]. split; [done|]. intros x c a Hx Ha Hn. apply (H x c); try done. intros Hd. by apply Hn, Hs. Qed.

Lemma frame_kept k k' P R mm : mm_frame k k' P R mm -> kept k k' R [mm + MM_mmap].
Proof.
  intros [F1 F2 F3 F4]. split; [done|]. intros x c a Hx Ha Hn. apply (F4 x c); try done. intros ->. apply Hn. left.
Qed.

Lemma objs_kept_kept k k' V R D : vobjs V ##ₘ R -> objs_kept k k' (vobjs V ∪ R) -> kept k k' R D.
Proof. intros Hd [L H]. split; [done|]. intros x c a Hx Ha _. apply (H x c); [by apply lookup_union_Some_r|done]. Qed.

(** Areas are cut, then the pages of the range are unmapped. *)
Lemma mem_erase k P R mm V t s e :
  mem_inv k P R mm V t -> page_span s e -> s < e ->
  exists r k1, vma_erase_range k mm s e = Some (r, k1) /\
    ((r = - ENOMEM /\ k1 = k /\ no_block k 0) \/
     (r = 0 /\ exists k' P' V' t', unmap_range k1 mm s e = Some k' /\ mem_inv k' P' R mm V' t' /\ released k P t k' P' t' /\
        kept k k' R [mm + MM_mmap] /\
        (forall a, space_at V' a = if decide (s <= a < e) then None else space_at V a) /\
        (forall va, uaddr va -> leaf_at t' va = if decide (reached s e va) then None else leaf_at t va))).
Proof.
  intros [HM HS Hpg Hb Hpr] Hr Hse. destruct (vma_erase_range_rep k P R mm V s e (me_areas _ _ _ _ _ _ HM) HS Hse)
    as (r & k1 & V1 & E & HR1 & Hf & [[-> EV]|(-> & -> & _ & Hnb & _)]); eexists _, _; (split; [exact E|]); [right|by left].
  split; [done|]. assert (HM1 := mem_frame k k1 P R mm V V1 t HM HR1 Hf).
  destruct (mem_unmap_span k1 P R mm V1 t s e HM1 Hr) as (k' & P' & t' & E' & HM' & Hrl & Hok & Hl).
  assert (Hsp : forall a, space_at V1 a = if decide (s <= a < e) then None else space_at V a).
  { intros a. unfold space_at. rewrite EV. by apply (cut_flags 0). }
  exists k', P', V1, t'. splits; try done.
  - split; [done|rewrite EV; by apply cut_sorted| | |].
    + intros x Hx. rewrite EV in Hx. apply list_elem_of_bind in Hx as (y & Hx & Hy). by apply (cut_pages s e y), Hx; [apply Hpg|].
    + intros va x Hva Hx. rewrite Hl in Hx by done. case_decide as D; [done|]. rewrite Hsp, decide_False; [by apply Hb|].
      intros Hin. apply D, reached_in; [apply Hr|done|done].
    + apply (private_released k1 P mm t k' P' t'); [apply HM1|apply HM'|done| |].
      * by apply (private_frame k k1 P R mm); [apply HM| |].
      * intros va x Hva Hx. rewrite Hl in Hx by done. by case_decide.
  - eapply released_trans; [by eapply frame_released|done].
  - eapply kept_trans; [by eapply frame_kept|]. apply (objs_kept_kept k1 k' V1); [apply HR1|done].
Qed.

Lemma mem_nonzero k P R mm V t : mem k P R mm V t -> mm <> 0 /\ rd k (mm + MM_pgd) <> 0.
Proof.
  intros HM. destruct (mem_open _ _ _ _ _ _ HM) as (S & PL & c & Hrep & _ & _ & _ & _ & HS & _). split; [apply (sp_mm _ _ _ _ HS)|].
  rewrite (sp_root _ _ _ _ HS). apply pfn_to_addr_nonzero; [apply (inv_pool _ _ (sp_buddy _ _ _ _ HS))|apply (sp_rep _ _ _ _ HS)].
Qed.

Lemma page_aligned_bits x : (PAGE_SIZE | x) -> has x (PAGE_SIZE - 1) = false.
Proof.
  intros [n ->]. unfold has, PAGE_SIZE. change (4096 - 1) with (Z.ones 12). rewrite Z.land_ones by lia.
  change (2 ^ 12) with 4096. by rewrite Z.mod_mul.
Qed.

Lemma page_unaligned_bits x : x mod PAGE_SIZE <> 0 -> has x (PAGE_SIZE - 1) = true.
Proof.
  intros Hn. unfold has. apply negb_true_iff, Z.eqb_neq. intros E. apply Hn. unfold PAGE_SIZE in *. change (4096 - 1) with (Z.ones 12) in E.
  by rewrite Z.land_ones in E.
Qed.

(** The end of a range of bytes that does not wrap around, rounded up. *)
Lemma span_end s len : (PAGE_SIZE | s) -> 0 <= s -> 0 < len -> s + len <= 2 ^ 64 - PAGE_SIZE ->
  page_span s (page_align (s + len)) /\ s < page_align (s + len) /\ u64 (s + len) = s + len.
Proof.
  intros Hd Hs Hl Ht. destruct (page_align_spec (s + len)) as [He1 He2]; [unfold PAGE_SIZE in *; lia|].
  assert (Hle : page_align (s + len) <= 2 ^ 64 - PAGE_SIZE).
  { destruct He1 as [n E]. rewrite E in *. unfold PAGE_SIZE in *. lia. }
  splits; [by split|lia|]. apply wrapu_id. unfold PAGE_SIZE in *. lia.
Qed.

(** What removing the pages of [[s, e)] leaves. *)
Record unmapped (k : slub) (P R : gmap Z Z) (mm : Z) (V : list vma) (t : tree 3) (s e : Z)
    (k' : slub) (P' : gmap Z Z) (V' : list vma) (t' : tree 3) : Prop := {
  um_inv : mem_inv k' P' R mm V' t';
  um_rel : released k P t k' P' t';
  um_kept : kept k k' R [mm + MM_mmap];
  um_areas : forall a, space_at V' a = if decide (s <= a < e) then None else space_at V a;
  um_bytes : forall va, uaddr va -> user_byte k' t' va = if decide (reached s e va) then None else user_byte k t va
}.

Lemma do_munmap_spec k P R mm V t addr len :
  mem_inv k P R mm V t -> 0 <= addr -> 0 <= len -> addr + len <= 2 ^ 64 - PAGE_SIZE ->
  exists r k', do_munmap k mm addr len = Some (r, k') /\
    if decide (len = 0) then r = 0 /\ k' = k
    else if decide (addr mod PAGE_SIZE <> 0) then r = - EINVAL /\ k' = k
    else (r = - ENOMEM /\ k' = k /\ no_block k 0) \/
         (r = 0 /\ exists P' V' t', unmapped k P R mm V t addr (page_align (addr + len)) k' P' V' t').
Proof.
  intros HI Ha Hl Htop. set (e := page_align (addr + len)). destruct (mem_nonzero k P R mm V t (mi_mem _ _ _ _ _ _ HI)) as [Hm Hpgd].
  unfold do_munmap. rewrite (proj2 (Z.eqb_neq _ _) Hm), (proj2 (Z.eqb_neq _ _) Hpgd). cbn [orb].
  destruct (decide (len = 0)) as [->|Hz]; [by eexists _, _|]. rewrite (proj2 (Z.eqb_neq _ _) Hz).
  destruct (decide (addr mod PAGE_SIZE <> 0)) as [Hd|Hd%dec_stable%Z.mod_divide]; [rewrite page_unaligned_bits by done; by eexists _, _| |done].
  rewrite page_aligned_bits by done. destruct (span_end addr len Hd Ha ltac:(lia) Htop) as (Hr & Hlt & ->). fold e in Hr, Hlt |- *.
  destruct (mem_erase k P R mm V t addr e HI Hr Hlt) as (r & k1 & -> & [(-> & -> & Hnb)|(-> & k' & P' & V' & t' & E & HI' & Hrl & Hk & Hsp & Hle)]);
    cbn [mbind option_bind].
  { exists (- ENOMEM), k. split; [done|by left]. }
  change (negb (0 =? 0)) with false. cbn iota. rewrite E. cbn [mbind option_bind]. exists 0, k'. split; [done|]. right. split; [done|].
  exists P', V', t'. split; try done. intros va Hva. specialize (Hle va Hva). case_decide.
  - unfold user_byte. by rewrite Hle.
  - apply (byte_kept k P mm t k' P' t'); [apply HI|apply HI'|done|by rewrite Hle].
Qed.

(** C14: [do_munmap] of any range of bytes that does not wrap around the end of
    the 64-bit addresses.  A length of 0 does nothing, and an address that is
    no multiple of the page size is refused with -EINVAL.  Otherwise the call
    fails with -ENOMEM, when there is no page for the area that a split needs,
    and changes nothing; or it removes exactly the range, rounded up to whole
    pages: no area is left in it, no page is mapped in it, every page that
    lost a mapping lost a reference and is free without one, and outside the
    range areas, mappings and bytes are as before.  "In the range" is, for a
    page, as the tables see it: a range above 2^39 takes the pages with it
    whose address has the same low 39 bits. *)
Theorem do_munmap_correct k P R mm V t addr len :
  mem_inv k P R mm V t -> 0 <= addr -> 0 <= len -> addr + len <= 2 ^ 64 - PAGE_SIZE ->
  exists r k', do_munmap k mm addr len = Some (r, k') /\
    if decide (len = 0) then r = 0 /\ k' = k
    else if decide (addr mod PAGE_SIZE <> 0) then r = - EINVAL /\ k' = k
    else (r = - ENOMEM /\ k' = k /\ no_block k 0) \/
         (r = 0 /\ exists P' V' t', unmapped k P R mm V t addr (page_align (addr + len)) k' P' V' t').
Proof. apply do_munmap_spec. Qed.

(** ** Mapping an area *)

(** A field of [mm] other than its list and its tables is written. *)
Lemma mem_set_field k P R mm V t d x :
  mem k P R mm V t -> 0 <= d < SIZEOF_MM -> d <> MM_mmap -> d <> MM_pgd ->
  let k' := wr k (mm + d) x in
  mem k' P R mm V t /\ released k P t k' P t /\ kept k k' R [mm + d].
Proof.
  intros [HR HT] Hd H1 H2 k'. destruct (mr_mm _ _ _ _ _ HR) as (c & Hc & Hs).
  destruct (rep_wr_rest k P R mm V mm c d x HR Hc) as [HR' Hf]; [lia|by right|]. fold k' in HR', Hf.
  assert (Hpg : forall p o q a, P !! p = Some o -> covers p o q -> in_page (pa k) q a -> rd k' a = rd k a) by apply Hf.
  splits.
  - split; [done|]. destruct HT as [T1 T2 T3 T4 T5 T6 T7]. split; try done.
    + unfold k'. rewrite rd_wr_ne by lia. exact T2.
    + apply (rep_same 3 k); [done| |done]. intros q a Hq Ha. apply (Hpg q 0 q a); [by apply T5|by apply covers_self|done].
  - split; try done; [intros q _; change (refcount (pa k')) with (refcount (pa k)); lia|intros q o; tauto|]. intros p o q a Hp Hcv _ Ha. by apply (Hpg p o q).
  - split; [by split|]. intros y cy a Hy Ha Hn. apply rd_wr_ne. intros <-. apply Hn. left.
Qed.

(** The last part of [do_mmap] does what [vma_record] does. *)
Lemma mmap_insert k mm s e f :
  mm <> 0 -> s < e ->
  vma_record k mm s e f =
    '(vma, k) ← vma_alloc k s e f;
    if vma =? 0 then Some (- ENOMEM, k)
    else
      '(err, k) ← insert_vma k mm vma;
      if negb (err =? 0) then k ← kmem_cache_free k vma_cache vma; Some (err, k) else Some (0, k).
Proof.
  intros Hm Hse. unfold vma_record. rewrite (proj2 (Z.eqb_neq _ _) Hm), (proj2 (Z.leb_gt _ _) Hse). cbn [orb].
  destruct (vma_alloc k s e f) as [[n k1]|]; [|done]. cbn [mbind option_bind]. case_match; [done|]. unfold insert_vma.
  case_match; [done|]. destruct (insert_pos _ _ _ _); [|done]. cbn [mbind option_bind]. by repeat case_match.
Qed.

Lemma mem_record k P R mm V t s e f :
  mem_inv k P R mm V t -> page_range s e -> s < e -> (forall a, s <= a < e -> space_at V a = None) ->
  exists r k', vma_record k mm s e f = Some (r, k') /\
    ((r = - ENOMEM /\ k' = k /\ no_block k 0) \/
     (r = 0 /\ exists V', mem_inv k' P R mm V' t /\ mm_frame k k' P R mm /\
        (forall a, space_at V' a = if decide (s <= a < e) then Some f else space_at V a) /\
        exists V1 V2 n, V = V1 ++ V2 /\ V' = V1 ++ mkVma n s e f :: V2)).
Proof.
  intros [HM HS Hpg Hb Hpr] Hr Hse Hfree. destruct (mem_nonzero _ _ _ _ _ _ HM) as [Hm _].
  destruct (vma_record_rep k P R mm V s e f (me_areas _ _ _ _ _ _ HM) HS Hm ltac:(apply Hr))
    as (r & k' & E & Hf & [(-> & _ & V1 & V2 & n & EV & HR' & HS')|[(_ & _ & [?|(a & Ha & Hsome)])|(-> & -> & Hnb)]]);
    [|lia| |exists (- ENOMEM), k; split; [done|by left]].
  2:{ exfalso. specialize (Hfree a Ha). unfold space_at in Hfree. destruct Hsome as [g Hg]. congruence. }
  exists 0, k'. split; [done|]. right. split; [done|]. exists (V1 ++ mkVma n s e f :: V2).
  assert (Hsp : forall a, space_at (V1 ++ mkVma n s e f :: V2) a = if decide (s <= a < e) then Some f else space_at V a).
  { intros a. unfold space_at. rewrite EV, !areas_app in *. cbn [areas fmap list_fmap] in *. exact (insert_flags 0 _ _ _ a HS' HS). }
  split; [|split; [done|split; [done|by exists V1, V2, n]]]. split; try done.
  - by apply (mem_frame k k' P R mm V).
  - intros x Hx. rewrite areas_app in Hx. apply elem_of_app in Hx as [Hx|Hx]; [|cbn in Hx; apply elem_of_cons in Hx as [->|Hx]; [exact Hr|]];
      apply Hpg; rewrite EV, areas_app; apply elem_of_app; [by left|by right].
  - intros va x Hva Hx. rewrite Hsp. destruct (Hb va x Hva Hx) as (g & Hg & Hal). case_decide; [|by exists g].
    by rewrite Hfree in Hg.
  - by apply (private_frame k k' P R mm); [apply HM| |].
Qed.

(** An empty area is made and thrown away again. *)
Lemma mem_record_empty k P R mm V t s e f (g : slub -> option (Z * slub)) :
  mem_inv k P R mm V t -> 0 <= s -> e <= s ->
  exists r k',
    ('(vma, k) ← vma_alloc k s e f;
     if vma =? 0 then Some (- ENOMEM, k)
     else
       '(err, k) ← insert_vma k mm vma;
       if negb (err =? 0) then k ← kmem_cache_free k vma_cache vma; Some (err, k) else g k) = Some (r, k') /\
    ((r = - ENOMEM /\ k' = k /\ no_block k 0) \/ (r = - EINVAL /\ mem_inv k' P R mm V t /\ mm_frame k k' P R mm)).
Proof.
  intros [HM HS Hpg Hb Hpr] Hs He. assert (HR := me_areas _ _ _ _ _ _ HM).
  destruct (vma_alloc_rep k P R mm V s e f HR) as [[-> Hnb]|(n & k1 & -> & Hn & HRn & Hnm & _ & HR1 & (C1 & C2 & _) & _ & Hf1)]; cbn [mbind option_bind].
  { exists (- ENOMEM), k. split; [done|by left]. }
  cbn [vptr vstart vend] in C1, C2. rewrite (proj2 (Z.eqb_neq _ _) Hn). unfold insert_vma. rewrite C1, C2, (proj2 (Z.leb_le _ _) He).
  cbn [mbind option_bind]. change (negb (- EINVAL =? 0)) with true. cbn iota.
  destruct (vma_free_rep _ _ _ _ _ _ HR1 HRn Hnm) as (k2 & -> & HR2 & Hf2). cbn [mbind option_bind].
  assert (Hf : mm_frame k k2 P R mm) by (by eapply mm_frame_trans). exists (- EINVAL), k2. split; [done|]. right. split; [done|]. split; [|done].
  split; try done; [by apply (mem_frame k k2 P R mm V)|by apply (private_frame k k2 P R mm); [apply HM| |]].
Qed.

Lemma mmap_finish k mm s e f (g : slub -> option (Z * slub)) :
  mm <> 0 -> s < e ->
  ('(vma, k) ← vma_alloc k s e f;
   if vma =? 0 then Some (- ENOMEM, k)
   else
     '(err, k) ← insert_vma k mm vma;
     if negb (err =? 0) then k ← kmem_cache_free k vma_cache vma; Some (err, k) else g k) =
  '(r, k) ← vma_record k mm s e f; if r =? 0 then g k else Some (r, k).
Proof.
  intros Hm Hse. rewrite (mmap_insert k mm s e f Hm Hse). destruct (vma_alloc k s e f) as [[n k1]|]; [|done]. cbn [mbind option_bind].
  case_match; [done|]. destruct (insert_vma k1 mm n) as [[r k2]|]; [|done]. cbn [mbind option_bind].
  destruct (Z.eqb_spec r 0) as [->|Hr]; [done|]. cbn [negb]. destruct (kmem_cache_free _ _ _); [|done]. cbn [mbind option_bind].
  by rewrite (proj2 (Z.eqb_neq _ _) Hr).
Qed.

Lemma page_mask_down x : 0 <= x < 2 ^ 64 -> Z.land x PAGE_MASK = x - x mod PAGE_SIZE.
Proof.
  intros Hx. unfold PAGE_MASK, PAGE_SIZE. change (4096 - 1) with (2 ^ 12 - 1). rewrite land_mask_down by lia.
  change (2 ^ 12) with 4096. assert (E := Z.div_mod x 4096 ltac:(lia)). lia.
Qed.

Lemma page_mask_aligned x : 0 <= x < 2 ^ 64 -> (PAGE_SIZE | Z.land x PAGE_MASK) /\ Z.land x PAGE_MASK <= x < Z.land x PAGE_MASK + PAGE_SIZE /\ 0 <= Z.land x PAGE_MASK.
Proof.
  intros Hx. rewrite page_mask_down by done. unfold PAGE_SIZE. assert (E := Z.div_mod x 4096 ltac:(lia)).
  assert (H := Z.mod_pos_bound x 4096 ltac:(lia)). splits; try lia. exists (x / 4096). lia.
Qed.

Lemma bounded_pages V : (forall x, x ∈ areas V -> page_range (a_start x) (a_end x)) -> bounded V.
Proof.
  intros H v Hv. destruct (H _ (areas_elem V v Hv)) as (_ & H2 & _). cbn in H2. unfold USER_TOP, USER_MAX in *. lia.
Qed.

(** Nothing is mapped where there is no area. *)
Lemma unbacked k P R mm V t va : mem_inv k P R mm V t -> uaddr va -> space_at V va = None -> leaf_at t va = None.
Proof.
  intros HI Hva Hn. destruct (leaf_at t va) as [e|] eqn:E; [|done]. destruct (mi_backed _ _ _ _ _ _ HI va e Hva E) as (f & Hf & _). congruence.
Qed.

(** The call asks for the address [addr]. *)
Definition fixed (addr flags : Z) : bool := negb (addr =? 0) && has flags MAP_FIXED.

(** What the search for a place leaves. *)
Record cleared (k : slub) (P R : gmap Z Z) (mm : Z) (V : list vma) (t : tree 3) (s e : Z)
    (k' : slub) (P' : gmap Z Z) (V' : list vma) (t' : tree 3) : Prop := {
  cl_inv : mem_inv k' P' R mm V' t';
  cl_rel : released k P t k' P' t';
  cl_kept : kept k k' R [mm + MM_mmap];
  cl_areas : forall a, space_at V' a = if decide (s <= a < e) then None else space_at V a;
  cl_leaf : forall va, uaddr va -> leaf_at t' va = if decide (s <= va < e) then None else leaf_at t va
}.

Lemma cleared_free k P R mm V t s e :
  mem_inv k P R mm V t -> free_range V s e -> cleared k P R mm V t s e k P V t.
Proof.
  intros HI Hf. split; [done|apply released_refl|apply kept_refl| |].
  - intros a. case_decide; [by apply Hf|done].
  - intros va Hva. case_decide; [|done]. eapply unbacked; [done|done|by apply Hf].
Qed.

(** The place of the areas that a process gets lies below the top, and so does
    its stack once it has one. *)
Record limits (k : slub) (mm : Z) : Prop := {
  lm_base : 0 < rd k (mm + MM_mmap_base) <= USER_TOP;
  lm_stack : rd k (mm + MM_stack_top) = 0 \/ USER_STACK_SIZE < rd k (mm + MM_stack_top) <= USER_TOP
}.

Lemma limits_stack k mm : limits k mm -> 0 < stack_limit_of k mm <= USER_TOP.
Proof.
  intros [_ H]. unfold stack_limit_of. destruct (Z.eqb_spec (rd k (mm + MM_stack_top)) 0) as [->|Hz]; [by vm_compute|]. cbn [negb].
  destruct H as [?|H]; [done|]. rewrite wrapu_id by (unfold USER_TOP, USER_STACK_SIZE in *; lia). unfold USER_STACK_SIZE in *. lia.
Qed.

Lemma limits_base k mm : limits k mm -> 0 < rd k (mm + MM_mmap_base) <= USER_MAX.
Proof. intros [H _]. unfold USER_TOP, USER_MAX in *. lia. Qed.

(** No aligned range of the length is free between the base and the stack. *)
Definition no_place (k : slub) (mm : Z) (V : list vma) (l : Z) : Prop :=
  forall x, (PAGE_SIZE | x) -> page_align (rd k (mm + MM_mmap_base)) <= x -> x + l <= stack_limit_of k mm -> ~ free_range V x (x + l).

Lemma mmap_place_spec k P R mm V t addr l flags :
  mem_inv k P R mm V t -> limits k mm -> 0 <= addr < 2 ^ 64 -> 0 < l -> (PAGE_SIZE | l) ->
  (if fixed addr flags then addr + l < 2 ^ 64 else l <= USER_MAX) ->
  exists place k1, mmap_place k mm addr l flags (stack_limit_of k mm) = Some (place, k1) /\
    match place with
    | inr err => k1 = k /\
        if fixed addr flags
        then (err = - EINVAL /\ (Z.land addr PAGE_MASK = 0 \/ stack_limit_of k mm < Z.land addr PAGE_MASK + l)) \/ (err = - ENOMEM /\ no_block k 0)
        else err = - ENOMEM /\ no_place k mm V l
    | inl va => 0 < va /\ page_range va (va + l) /\ va + l <= stack_limit_of k mm /\
        (if fixed addr flags then va = Z.land addr PAGE_MASK else k1 = k /\ free_range V va (va + l)) /\
        exists P1 V1 t1, cleared k P R mm V t va (va + l) k1 P1 V1 t1
    end.
Proof.
  intros HI Hlm Ha Hl Hd Hw. unfold mmap_place, fixed in *. destruct (mi_mem _ _ _ _ _ _ HI) as [HR HT]. assert (Hlim := limits_stack k mm Hlm).
  replace ((addr =? 0) || negb (has flags MAP_FIXED)) with (negb (negb (addr =? 0) && has flags MAP_FIXED))
    by (by destruct (addr =? 0), (has flags MAP_FIXED)).
  destruct (negb (addr =? 0) && has flags MAP_FIXED) eqn:Ef; cbn [negb].
  - destruct (page_mask_aligned addr) as (Hd2 & Hle & H0); [lia|]. set (va := Z.land addr PAGE_MASK) in *.
    rewrite wrapu_id by lia. destruct (Z.eqb_spec va 0) as [Hz|Hz]; [eexists _, k; split; [done|]; split; [done|left; auto]|].
    destruct (Z.ltb_spec (stack_limit_of k mm) (va + l)); [eexists _, k; split; [done|]; split; [done|left; auto]|]. cbn [orb].
    assert (Hr : page_range va (va + l)) by (split; [lia|split; [lia|split; [done|by apply Z.divide_add_r]]]).
    destruct (mem_erase k P R mm V t va (va + l) HI (range_span _ _ Hr) ltac:(lia)) as (r & k1 & -> & [(-> & -> & Hnb)|(-> & k' & P' & V' & t' & E & HI' & Hrl & Hk & Hsp & Hle')]);
      cbn [mbind option_bind].
    { eexists _, k. split; [done|]. split; [done|by right]. }
    change (negb (0 =? 0)) with false. cbn iota. rewrite E. cbn [mbind option_bind]. eexists (inl va), k'. split; [done|].
    split; [lia|]. split; [done|]. split; [done|]. split; [done|]. exists P', V', t'. split; try done.
    intros x Hx. rewrite Hle' by done. apply decide_ext. by apply reached_range.
  - destruct (find_unmapped_area_rep k P R mm V l HR (mi_sorted _ _ _ _ _ _ HI) (bounded_pages _ (mi_pages _ _ _ _ _ _ HI)) ltac:(lia) (limits_base k mm Hlm))
      as (r & -> & H1 & Hno). cbn [mbind option_bind]. destruct (Z.eqb_spec r 0) as [->|Hz].
    { eexists _, k. split; [done|]. split; [done|]. split; [done|]. exact (Hno eq_refl). }
    destruct (H1 Hz) as (H2 & H3 & H4 & H5). eexists (inl r), k. split; [done|].
    assert (H6 : 0 < r).
    { destruct (page_align_spec (rd k (mm + MM_mmap_base))) as [_ ?]; [destruct (limits_base k mm Hlm); unfold USER_MAX, PAGE_SIZE in *; lia|].
      destruct (limits_base k mm Hlm). lia. }
    assert (Hr : page_range r (r + l)) by (split; [lia|split; [lia|split; [done|by apply Z.divide_add_r]]]).
    split; [done|]. split; [done|]. split; [done|]. split; [done|]. exists P, V, t. by apply cleared_free.
Qed.

Lemma mem_inv_field k P R mm V t d x :
  mem_inv k P R mm V t -> 0 <= d < SIZEOF_MM -> d <> MM_mmap -> d <> MM_pgd ->
  let k' := wr k (mm + d) x in mem_inv k' P R mm V t /\ released k P t k' P t /\ kept k k' R [mm + d].
Proof.
  intros [HM HS Hpg Hb Hpr] Hd H1 H2 k'. destruct (mem_set_field k P R mm V t d x HM Hd H1 H2) as (HM' & Hr & Hk). by splits.
Qed.

Lemma kept_mm k k' P R mm V t D d :
  mem k P R mm V t -> kept k k' R D -> 0 <= d < SIZEOF_MM -> mm + d ∉ D -> rd k' (mm + d) = rd k (mm + d).
Proof.
  intros [HR _] [_ Hk] Hd Hn. destruct (mr_mm _ _ _ _ _ HR) as (c & Hc & Hs). apply (Hk mm c); [done|lia|done].
Qed.

Lemma mem_raise_base k P R mm V t x :
  mem_inv k P R mm V t ->
  let k' := if rd k (mm + MM_mmap_base) <? x then wr k (mm + MM_mmap_base) x else k in
  mem_inv k' P R mm V t /\ released k P t k' P t /\ kept k k' R [mm + MM_mmap_base] /\
    rd k' (mm + MM_mmap_base) = Z.max (rd k (mm + MM_mmap_base)) x.
Proof.
  intros HI k'. unfold k'. destruct (Z.ltb_spec (rd k (mm + MM_mmap_base)) x).
  - destruct (mem_inv_field k P R mm V t MM_mmap_base x HI) as (? & ? & ?); [by vm_compute..|]. splits; try done. rewrite rd_wr_eq. lia.
  - splits; [done|apply released_refl|apply kept_refl|lia].
Qed.

(** An area of the length [l] is at [r]. *)
Record mapped (k : slub) (P R : gmap Z Z) (mm : Z) (V : list vma) (t : tree 3) (r l map_prot : Z)
    (k' : slub) (P' : gmap Z Z) (V' : list vma) (t' : tree 3) : Prop := {
  mp_inv : mem_inv k' P' R mm V' t';
  mp_rel : released k P t k' P' t';
  mp_kept : kept k k' R [mm + MM_mmap; mm + MM_mmap_base];
  mp_base : rd k' (mm + MM_mmap_base) = Z.max (rd k (mm + MM_mmap_base)) (r + l);
  mp_areas : forall a, space_at V' a = if decide (r <= a < r + l) then Some map_prot else space_at V a;
  mp_bytes : forall va, uaddr va -> user_byte k' t' va = if decide (r <= va < r + l) then None else user_byte k t va
}.

(** How [do_mmap] of a length that rounds up to [l] ends: with the error or the
    address [r], in the state [k']. *)
Inductive mmap_ends (k : slub) (P R : gmap Z Z) (mm : Z) (V : list vma) (t : tree 3) (addr l prot flags : Z) (r : Z) (k' : slub) : Prop :=
  | mmap_bad_address :
      r = - EINVAL -> k' = k -> fixed addr flags = true ->
      Z.land addr PAGE_MASK = 0 \/ stack_limit_of k mm < Z.land addr PAGE_MASK + l -> mmap_ends k P R mm V t addr l prot flags r k'
  | mmap_bad_length :
      r = - EINVAL -> fixed addr flags = false -> l = 0 \/ USER_MAX < l ->
      mem_inv k' P R mm V t -> mm_frame k k' P R mm -> mmap_ends k P R mm V t addr l prot flags r k'
  | mmap_no_room :
      r = - ENOMEM -> k' = k -> no_block k 0 \/ (fixed addr flags = false /\ (l = 0 \/ no_place k mm V l)) -> mmap_ends k P R mm V t addr l prot flags r k'
  | mmap_no_area P' V' t' :
      r = - ENOMEM -> no_block k' 0 -> fixed addr flags = true ->
      cleared k P R mm V t (Z.land addr PAGE_MASK) (Z.land addr PAGE_MASK + l) k' P' V' t' -> mmap_ends k P R mm V t addr l prot flags r k'
  | mmap_done P' V' t' :
      0 < r -> page_range r (r + l) -> r + l <= stack_limit_of k mm ->
      (if fixed addr flags then r = Z.land addr PAGE_MASK else free_range V r (r + l)) ->
      mapped k P R mm V t r l (linux_prot_to_map prot) k' P' V' t' -> mmap_ends k P R mm V t addr l prot flags r k'.

(** The rounded length of a call that goes wrong, or its relation to the one
    asked for. *)
Lemma mmap_length len : 0 < len < 2 ^ 64 ->
  (PAGE_SIZE | page_align len) /\ ((2 ^ 64 - PAGE_SIZE < len /\ page_align len = 0) \/ (len <= 2 ^ 64 - PAGE_SIZE /\ len <= page_align len < len + PAGE_SIZE)).
Proof.
  intros Hl. destruct (decide (len <= 2 ^ 64 - PAGE_SIZE)) as [D|D].
  - destruct (page_align_spec len) as [H1 H2]; [lia|]. split; [done|by right].
  - assert (E : page_align len = 0).
    { unfold page_align. replace (u64 (len + PAGE_SIZE - 1)) with (len + PAGE_SIZE - 1 - 2 ^ 64) by (apply (Z.mod_unique _ _ 1); unfold PAGE_SIZE in *; lia).
      replace (u64 (Z.lnot (PAGE_SIZE - 1))) with PAGE_MASK by (by vm_compute). rewrite page_mask_down by (unfold PAGE_SIZE in *; lia).
      rewrite Z.mod_small by (unfold PAGE_SIZE in *; lia). lia. }
    rewrite E. split; [by exists 0|]. left. lia.
Qed.

Lemma mmap_big_spec k P R mm V t addr l prot flags :
  mem_inv k P R mm V t -> limits k mm -> fixed addr flags = false -> l = 0 \/ USER_MAX < l < 2 ^ 64 ->
  exists place k1, mmap_place k mm addr l flags (stack_limit_of k mm) = Some (place, k1) /\
    match place with
    | inr err => err = - ENOMEM /\ k1 = k /\ (l = 0 \/ no_place k mm V l)
    | inl va => k1 = k /\ forall (g : slub -> option (Z * slub)), exists r k',
        ('(vma, k) ← vma_alloc k va (u64 (va + l)) (linux_prot_to_map prot);
         if vma =? 0 then Some (- ENOMEM, k)
         else
           '(err, k) ← insert_vma k mm vma;
           if negb (err =? 0) then k ← kmem_cache_free k vma_cache vma; Some (err, k) else g k) = Some (r, k') /\
        ((r = - ENOMEM /\ k' = k /\ no_block k 0) \/ (r = - EINVAL /\ mem_inv k' P R mm V t /\ mm_frame k k' P R mm))
    end.
Proof.
  intros HI Hlm Hfx Hl. unfold mmap_place, fixed in *. destruct (mi_mem _ _ _ _ _ _ HI) as [HR HT]. assert (Hlim := limits_stack k mm Hlm).
  replace ((addr =? 0) || negb (has flags MAP_FIXED)) with true by (by destruct (addr =? 0), (has flags MAP_FIXED)).
  destruct (find_unmapped_area_any k P R mm V l HR (bounded_pages _ (mi_pages _ _ _ _ _ _ HI)) (limits_base k mm Hlm)) as (r & -> & H1). cbn [mbind option_bind].
  destruct (Z.eqb_spec r 0) as [->|Hz].
  - eexists _, k. split; [done|]. split; [done|]. split; [done|]. destruct Hl as [->|Hl]; [by left|right]. intros x _ Hx Hxl.
    destruct (limits_base k mm Hlm). destruct (page_align_spec (rd k (mm + MM_mmap_base))) as [_ ?]; [unfold USER_MAX, PAGE_SIZE in *; lia|].
    unfold USER_MAX, USER_TOP in *. lia.
  - destruct (H1 Hz) as [Hr1 Hr2]. eexists (inl r), k. split; [done|]. split; [done|]. intros g. apply mem_record_empty; [done|lia|].
    destruct Hl as [->|Hl]; [rewrite Z.add_0_r, wrapu_id by (unfold USER_MAX in *; lia); lia|].
    destruct (decide (r + l < 2 ^ 64)); [rewrite wrapu_id in Hr2 by lia; unfold USER_MAX, USER_TOP in *; lia|].
    replace (u64 (r + l)) with (r + l - 2 ^ 64) by (apply (Z.mod_unique _ _ 1); unfold USER_MAX in *; lia). lia.
Qed.

(** From the place on, for a length that makes sense. *)
Lemma mmap_mapped k P R mm V t addr l prot flags va k1 P1 V1 t1 :
  mem_inv k P R mm V t -> 0 < l -> 0 < va -> page_range va (va + l) -> va + l <= stack_limit_of k mm ->
  (if fixed addr flags then va = Z.land addr PAGE_MASK else k1 = k /\ free_range V va (va + l)) ->
  cleared k P R mm V t va (va + l) k1 P1 V1 t1 ->
  exists r k',
    ('(vma, k) ← vma_alloc k1 va (u64 (va + l)) (linux_prot_to_map prot);
     if vma =? 0 then Some (- ENOMEM, k)
     else
       '(err, k) ← insert_vma k mm vma;
       if negb (err =? 0) then k ← kmem_cache_free k vma_cache vma; Some (err, k)
       else
         let k := if rd k (mm + MM_mmap_base) <? u64 (va + l) then wr k (mm + MM_mmap_base) (u64 (va + l)) else k in
         Some (s64 va, k)) = Some (r, k') /\
    mmap_ends k P R mm V t addr l prot flags r k'.
Proof.
  intros HI Hl Hva Hr Htop Hfix Hcl. destruct (Hcl) as [HI1 Hr1 Hk1 Hs1 Hl1']. destruct (mem_nonzero k P R mm V t (mi_mem _ _ _ _ _ _ HI)) as [Hm _].
  assert (Eu : u64 (va + l) = va + l) by (apply wrapu_id; unfold page_range, USER_TOP in *; lia). rewrite !Eu.
  rewrite mmap_finish by (done || lia).
  destruct (mem_record k1 P1 R mm V1 t1 va (va + l) (linux_prot_to_map prot) HI1 Hr ltac:(lia)) as (r & k2 & -> & Hcase).
  { intros a Haa. by rewrite Hs1, decide_True. }
  cbn [mbind option_bind]. destruct Hcase as [(-> & -> & Hnb)|(-> & V2 & HI2 & Hf2 & Hs2 & _)].
  { exists (- ENOMEM), k1. split; [done|]. destruct (fixed addr flags) eqn:Ef.
    - subst va. by eapply mmap_no_area.
    - destruct Hfix as [-> _]. apply mmap_no_room; [done|done|by left]. }
  change (0 =? 0) with true. cbn iota. eexists (s64 va), _. split; [done|].
  assert (Es : s64 va = va) by (apply wraps_id; unfold page_range, USER_TOP in *; lia). rewrite Es.
  apply (mmap_done _ _ _ _ _ _ _ _ _ _ _ _ P1 V2 t1); [done|done|done|by destruct (fixed addr flags); [|destruct Hfix]|].
  assert (Hk2 : kept k k2 R [mm + MM_mmap]) by (eapply kept_trans; [exact Hk1|by eapply frame_kept]).
  assert (Eb : rd k2 (mm + MM_mmap_base) = rd k (mm + MM_mmap_base)).
  { apply (kept_mm k k2 P R mm V t [mm + MM_mmap]); [apply HI|done|by vm_compute|]. intros Hin%list_elem_of_singleton. unfold MM_mmap_base, MM_mmap in Hin. lia. }
  rewrite Eb. assert (Hr2 : released k P t k2 P1 t1) by (eapply released_trans; [exact Hr1|by eapply frame_released]).
  set (k3 := if _ <? _ then _ else _).
  destruct (mem_raise_base k2 P1 R mm V2 t1 (va + l) HI2) as (HI3 & Hr3 & Hk3 & Eb3). rewrite Eb in HI3, Hr3, Hk3, Eb3. fold k3 in HI3, Hr3, Hk3, Eb3.
  assert (Hr4 : released k P t k3 P1 t1) by (by eapply released_trans). split; try done.
  - eapply kept_trans; [eapply kept_weaken; [|exact Hk2]|eapply kept_weaken; [|exact Hk3]]; intros x ->%list_elem_of_singleton; [left|right; left].
  - intros a. rewrite Hs2, Hs1. by repeat case_decide.
  - intros x Hx. specialize (Hl1' x Hx). case_decide; [unfold user_byte; by rewrite Hl1'|].
    apply (byte_kept k P mm t k3 P1 t1); [apply HI|apply HI3|done|by rewrite Hl1'].
Qed.

Lemma do_mmap_spec k P R mm V t addr len prot flags :
  mem_inv k P R mm V t -> limits k mm -> 0 <= addr < 2 ^ 64 -> 0 <= len < 2 ^ 64 ->
  (fixed addr flags = true -> addr + len <= 2 ^ 64 - PAGE_SIZE) ->
  exists r k', do_mmap k mm addr len prot flags = Some (r, k') /\
    if decide (len = 0 \/ has flags MAP_ANONYMOUS = false) then r = - EINVAL /\ k' = k
    else mmap_ends k P R mm V t addr (page_align len) prot flags r k'.
Proof.
  intros HI Hlm Ha Hlen Hw. destruct (mem_nonzero k P R mm V t (mi_mem _ _ _ _ _ _ HI)) as [Hm Hpgd]. unfold do_mmap.
  rewrite (proj2 (Z.eqb_neq _ _) Hm), (proj2 (Z.eqb_neq _ _) Hpgd). cbn [orb].
  destruct (decide (len = 0 \/ has flags MAP_ANONYMOUS = false)) as [D|D].
  { exists (- EINVAL), k. destruct D as [-> | ->]; [done|]. by destruct (len =? 0). }
  rewrite (proj2 (Z.eqb_neq len 0)) by tauto. destruct (has flags MAP_ANONYMOUS); [|tauto]. cbn [negb]. fold (stack_limit_of k mm).
  destruct (mmap_length len ltac:(lia)) as [Hd Hl]. set (l := page_align len) in *.
  destruct (decide (fixed addr flags = false /\ (l = 0 \/ USER_MAX < l))) as [[Hfx Hbig]|Hok].
  - assert (Hl2 : l = 0 \/ USER_MAX < l < 2 ^ 64) by (destruct Hl as [[_ E]|[? ?]]; [by left|destruct Hbig; [by left|right; lia]]).
    destruct (mmap_big_spec k P R mm V t addr l prot flags HI Hlm Hfx Hl2) as (place & k1 & -> & Hpl). cbn [mbind option_bind]. destruct place as [va|err].
    + destruct Hpl as [-> Hpl].
      destruct (Hpl (fun k => Some (s64 va, if rd k (mm + MM_mmap_base) <? u64 (va + l) then wr k (mm + MM_mmap_base) (u64 (va + l)) else k))) as (r & k' & E & Hc).
      exists r, k'. split; [exact E|]. destruct Hc as [(-> & -> & Hnb)|(-> & HI' & Hf)]; [apply mmap_no_room; auto|by apply mmap_bad_length].
    + destruct Hpl as (-> & -> & Hno). eexists _, _. split; [done|]. apply mmap_no_room; auto.
  - assert (Hl0 : 0 < l). { destruct Hl as [[? E]|[_ ?]]; [|lia]. exfalso. destruct (fixed addr flags) eqn:Ef; [specialize (Hw eq_refl)|]; [unfold PAGE_SIZE in *; lia|tauto]. }
    assert (Hfit : if fixed addr flags then addr + l < 2 ^ 64 else l <= USER_MAX).
    { destruct (fixed addr flags); [|lia]. specialize (Hw eq_refl). destruct Hl as [[? E]|[? ?]]; lia. }
    destruct (mmap_place_spec k P R mm V t addr l flags HI Hlm Ha Hl0 Hd Hfit) as (place & k1 & -> & Hpl). cbn [mbind option_bind]. destruct place as [va|err].
    + destruct Hpl as (Hva & Hr & Htop & Hfix & P1 & V1 & t1 & Hcl). by apply (mmap_mapped k P R mm V t addr l prot flags va k1 P1 V1 t1).
    + eexists _, _. split; [done|]. destruct Hpl as [-> Hpl]. destruct (fixed addr flags) eqn:Ef.
      * destruct Hpl as [[-> ?]|[-> ?]]; [by apply mmap_bad_address|apply mmap_no_room; auto].
      * destruct Hpl as [-> ?]. apply mmap_no_room; auto.
Qed.

(** C16: [do_mmap], in an address space whose mapping base and stack are below
    2^39, for every address and length except a fixed mapping whose range wraps
    around the end of the 64-bit addresses.  A length of 0 or a mapping that
    is not anonymous is refused.  Otherwise the call returns a page-aligned
    range below the stack, at the given address for a fixed mapping and free
    before otherwise; the range has the flags asked for, no page is mapped in
    it yet, and outside of it areas, mappings and bytes are as before.  Errors:
    -EINVAL for a fixed address that is 0 or too high and for a length beyond
    all memory, -ENOMEM when no free range is long enough or there is no page
    for the area.  A failed call changes no area, mapping or byte, except that
    a fixed mapping that fails for lack of memory may have removed what it was
    to replace. *)
Theorem do_mmap_correct k P R mm V t addr len prot flags :
  mem_inv k P R mm V t -> limits k mm -> 0 <= addr < 2 ^ 64 -> 0 <= len < 2 ^ 64 ->
  (fixed addr flags = true -> addr + len <= 2 ^ 64 - PAGE_SIZE) ->
  exists r k', do_mmap k mm addr len prot flags = Some (r, k') /\
    if decide (len = 0 \/ has flags MAP_ANONYMOUS = false) then r = - EINVAL /\ k' = k
    else mmap_ends k P R mm V t addr (page_align len) prot flags r k'.
Proof. apply do_mmap_spec. Qed.
