(* ===== verification/Fault.v ===== *)
(** * Accesses and protections

    The page fault against the memory that the process sees: it brings in a
    page of zeros or a private copy, so that the access succeeds, and changes
    no byte.  [mprotect] changes the flags of a range and of the entries in
    it.  The invariant [mem_inv] survives every sequence of calls and
    faults. *)
From S2P Require Import Prelude PageAlloc Slub Errno AddrSpace Vma PageTable PageTree PageMap Mmap.

(** ** A fresh page *)

Lemma page_base_aligned s p : pool_ok s -> 0 <= p < pool_pages s -> (PAGE_SIZE | pfn_to_addr s p).
Proof.
  intros Hs Hp. rewrite pfn_to_addr_eq by done. destruct (pool_start _ Hs) as [_ Hd]. apply Z.divide_add_r; [done|]. apply Z.divide_factor_l || apply Z.divide_factor_r.
Qed.

Lemma free_is_put s A p :
  buddy_inv s A -> A !! p = Some 0 -> (refcount s).[p] = 1 -> free_pages s (pfn_to_addr s p) 0 = put_page s (Some p).
Proof.
  intros HI Hp Hrc. destruct (inv_used_block _ _ _ _ HI Hp) as (Hb & Hr & Hbo). assert (Hs := inv_pool _ _ HI). pose proof (pool_order s Hs).
  unfold free_pages, put_page. rewrite addr_to_pfn_roundtrip, (proj2 (Z.eqb_neq _ _)) by (done || by apply pfn_to_addr_nonzero).
  rewrite (proj2 (order_valid_iff s 0 Hs ltac:(destruct Hb; lia)) ltac:(destruct Hb; lia)).
  rewrite (proj2 (addr_in_pool_block s p 0 Hs Hb Hr)) by (rewrite Z.mul_1_r; by apply page_base_aligned).
  unfold pfn_in_pool. cbn [pool_pages set_refcount]. rewrite (proj2 (Z.ltb_lt _ _)) by lia. rewrite Hbo, Hrc.
  change (s32 (1 - 1)) with 0. done.
Qed.

Lemma zero_page k p : exists m, page_zero k (base_of k p) = set_pa k (set_mem (pa k) m) /\
  forall a, m.[a] = if decide (base_of k p <= a < base_of k p + PAGE_SIZE) then 0 else rd k a.
Proof.
  unfold page_zero. eexists. split; [done|]. intros a. rewrite arr_fill_get. unfold PAGE_SIZE. 
  replace (Z.of_nat (8 * 512)) with 4096 by reflexivity. done.
Qed.

(** The state with a fresh page of zeros. *)
Lemma fresh_grown k A mm t p b m :
  space k A mm t -> 0 <= p < pool_pages (pa k) -> outside A p -> space (set_pa k b) (<[p := 0]> A) mm t -> same_pool (pa k) b ->
  refcount b = <[p := 1]> (refcount (pa k)) -> p ∉ owned 3 t -> p <> mm_page k mm ->
  (forall p' o q a, A !! p' = Some o -> covers p' o q -> in_page (pa k) q a -> rd (set_pa k b) a = rd k a) ->
  (forall a, m.[a] = if decide (base_of k p <= a < base_of k p + PAGE_SIZE) then 0 else rd (set_pa k b) a) ->
  grown (eq p) k A mm t (set_pa k (set_mem b m)) (<[p := 0]> A) t.
Proof.
  intros HS Hp Hout HSb Hs Er Hno Hnm Hmb Hm. assert (Hin : forall a, in_page b p a <-> base_of k p <= a < base_of k p + PAGE_SIZE).
  { intros a. unfold in_page. by rewrite (pfn_to_addr_same _ _ p Hs). }
  assert (Hnp : A !! p = None) by (destruct (A !! p) as [o|] eqn:E; [|done]; destruct (Hout p o E); apply covers_self;
    destruct (inv_used_block _ _ _ _ (sp_buddy _ _ _ _ HS) E) as ((? & _) & _); lia).
  split; try done.
  - apply (space_mem (set_pa k b) _ mm t p m HSb); [apply lookup_insert_eq|done|by rewrite (mm_page_same k (set_pa k b))|].
    intros a Ha. rewrite Hm, decide_False; [done|]. intros Ha'. by apply Ha, Hin.
  - by apply insert_subseteq.
  - intros q o Hq. cbn [pa set_pa refcount set_mem]. rewrite Er. apply arr_get_insert_ne. congruence.
  - intros q. by apply uses_same.
  - intros q Hq. by left.
  - intros p' o q a Hp' _ Hc Hq Ha. change (rd (set_pa k (set_mem b m)) a) with (m.[a]). rewrite Hm, decide_False; [by apply (Hmb p' o q)|].
    intros Ha'. assert (Hqr := inv_covers_pool _ _ _ _ _ (sp_buddy _ _ _ _ HS) Hp' Hc).
    assert (q = p) as -> by (apply (in_page_unique (pa k) q p a (inv_pool _ _ (sp_buddy _ _ _ _ HS))); try done). by apply (Hout p' o).
  - intros q o Hq Hn. apply lookup_insert_Some in Hq as [[<- <-]|[_ Hq]]; [|congruence]. cbn [pa set_pa refcount set_mem].
    rewrite Er, arr_get_insert. by splits; [..|right].
Qed.

(** The page is given back when a table is missing. *)
Lemma fault_undo k A mm t p k' A' t' :
  grown (eq p) k A mm t k' A' t' -> outside A p -> A' !! p = Some 0 -> (refcount (pa k')).[p] = 1 -> p ∉ owned 3 t' -> p <> mm_page k mm -> uses k' t' p = 0 ->
  exists b, free_pages (pa k') (base_of k' p) 0 = Some b /\ grown no_page k A mm t (set_pa k' b) (delete p A') t'.
Proof.
  intros Hg Hout HA Hr Hno Hnm Hu. destruct (Hg) as [H1 H2 H3 H4 H5 H6 H7 H8 H9 H10].
  assert (Hnp : forall q o, A !! q = Some o -> q <> p).
  { intros q o Hq ->. apply (Hout p o Hq), covers_self. assert (Hq' := lookup_weaken _ _ _ _ Hq H4).
    destruct (inv_used_block _ _ _ _ (sp_buddy _ _ _ _ H1) Hq') as ((? & _) & _). lia. }
  destruct (space_put k' A' mm t' p H1 HA Hno) as (b & Eb & HS & Hs & Er & Hmem); [by rewrite (mm_page_same k k')|lia|].
  rewrite decide_True in HS, Hmem by done. exists b. unfold base_of. rewrite (free_is_put _ A') by (done || apply H1). split; [done|]. split; try done.
  - etransitivity; [exact H2|exact Hs].
  - apply map_subseteq_spec. intros q o Hq. rewrite lookup_delete_ne by (by apply not_eq_sym, (Hnp q o)). by apply (lookup_weaken _ _ _ _ Hq).
  - intros q o Hq. cbn [pa set_pa]. rewrite Er, arr_get_insert_ne by (by apply not_eq_sym, (Hnp q o)). by apply (H5 q o).
  - intros q. rewrite (uses_same k' (set_pa k' b)) by exact Hs. apply H6.
  - intros p' o q a Hp' Hp2 Hc Hq Ha. rewrite (Hmem p' o q a Hp2 Hc), (H8 p' o q a Hp'); try done.
    + by apply (lookup_weaken _ _ _ _ Hp').
    + unfold in_page in *. by rewrite !(pfn_to_addr_same _ _ q H2).
  - intros q o Hq Hn. apply lookup_delete_Some in Hq as [Hne Hq]. destruct (H10 q o Hq Hn) as (E1 & E2 & E3). split; [done|].
    cbn [pa set_pa]. rewrite Er, arr_get_insert_ne by done. split; [done|]. destruct E3; [by left|done].
Qed.

Lemma fault_in_spec k A mm t va prot :
  space k A mm t -> leaf_at t va = None ->
  exists r k' A' t1, fault_in k mm va prot = Some (r, k') /\
    ((r = - ENOMEM /\ grown no_page k A mm t k' A' t1) \/
     (r = 0 /\ exists p k1, outside A p /\ 0 <= p < pool_pages (pa k) /\ grown (eq p) k A mm t k1 A' t1 /\ is_Some (table_at t1 va) /\ A' !! p = Some 0 /\
        same_pool (pa k1) (pa k') /\ refcount (pa k') = refcount (pa k1) /\ (refcount (pa k')).[p] = 1 /\
        space k' A' mm (set_leaf t1 va (Some (leaf_pte k p prot))) /\ pages_kept k1 A' t1 k' A' /\
        forall d, 0 <= d < PAGE_SIZE -> rd k' (base_of k p + d) = 0)).
Proof.
  intros HS Hl. unfold fault_in. destruct (space_alloc k A mm t HS) as [->|(p & b & -> & Hp & Hout & HSb & Hs & Er & Hno & Hnm & Hu & Hmb)]; cbn [mbind option_bind].
  { exists (- ENOMEM), k, A, t. split; [change (0 =? 0) with true; cbn iota; by destruct k|]. left. split; [done|by apply grown_refl]. }
  assert (Hpool := inv_pool _ _ (sp_buddy _ _ _ _ HS)).
  rewrite (proj2 (Z.eqb_neq _ 0)) by (by apply pfn_to_addr_nonzero).
  assert (Eb : base_of k p = base_of (set_pa k b) p) by (symmetry; by apply (pfn_to_addr_same _ _ p Hs)).
  destruct (zero_page (set_pa k b) p) as (m & Em & Hm). rewrite <- Eb in Em, Hm. rewrite Em. clear Em. cbn [pa set_pa].
  assert (Hg := fresh_grown k A mm t p b m HS Hp Hout HSb Hs Er Hno Hnm Hmb Hm).
  change (set_pa (set_pa k b) (set_mem b m)) with (set_pa k (set_mem b m)). set (k1 := set_pa k (set_mem b m)) in *.
  assert (Er1 : (refcount (pa k1)).[p] = 1) by (cbn [k1 pa set_pa refcount set_mem]; by rewrite Er, arr_get_insert).
  rewrite Eb. change (base_of (set_pa k b) p) with (base_of k1 p).
  destruct (map_spec k1 (<[p := 0]> A) mm t va p prot (gr_space _ _ _ _ _ _ _ _ Hg)) as (err & k2 & A2 & t2 & -> & Hcase); try done.
  { apply lookup_insert_eq. }
  { by rewrite (mm_page_same k k1). }
  { rewrite Er1, (uses_same k k1) by done. lia. }
  assert (Hg1 : forall k3 A3 t3, grown no_page k1 (<[p := 0]> A) mm t k3 A3 t3 -> A3 !! p = Some 0 /\ (refcount (pa k3)).[p] = 1 /\ (p ∉ owned 3 t3) /\
    same_pool (pa k) (pa k3) /\ uses k3 t3 p = 0 /\ grown (eq p) k A mm t k3 A3 t3).
  { intros k3 A3 t3 Hg2. splits.
    - apply (lookup_weaken (<[p := 0]> A)); [apply lookup_insert_eq|apply (gr_used _ _ _ _ _ _ _ _ Hg2)].
    - by rewrite (gr_refs _ _ _ _ _ _ _ _ Hg2 p 0 (lookup_insert_eq _ _ _)).
    - apply (grown_other _ _ _ _ _ _ _ _ p 0 p Hg2); [apply lookup_insert_eq|by apply covers_self|done].
    - etransitivity; [exact Hs|exact (gr_same _ _ _ _ _ _ _ _ Hg2)].
    - rewrite (gr_uses _ _ _ _ _ _ _ _ Hg2), (uses_same k k1); done.
    - eapply grown_trans; [exact Hg|]. by apply (grown_weaken no_page). }
  cbn [mbind option_bind]. destruct Hcase as [[-> Hg2]|(-> & k3 & Hg2 & H3 & Hs3 & Er3 & HS3 & Hk3)];
    destruct (Hg1 _ _ _ Hg2) as (HA & Href & Hpo & Hsp & Hus & Hg3).
  - destruct (fault_undo k A mm t p k2 A2 t2 Hg3 Hout HA Href Hpo Hnm Hus) as (b' & Eb' & Hg4).
    change (negb (- ENOMEM =? 0)) with true. cbn iota.
    replace (base_of k1 p) with (base_of k2 p) by (unfold base_of; by rewrite (pfn_to_addr_same _ _ p Hsp), (pfn_to_addr_same _ _ p (Hs : same_pool (pa k) (pa k1)))).
    rewrite Eb'. cbn [mbind option_bind]. exists (- ENOMEM), (set_pa k2 b'), (delete p A2), t2. split; [done|by left].
  - change (negb (0 =? 0)) with false. cbn iota. exists 0, k2, A2, t2. split; [done|]. right. split; [done|]. exists p, k3.
    destruct (Hp) as [Hp1 Hp2]. splits; try done.
    + by rewrite Er3.
    + unfold leaf_pte in *. by rewrite Eb.
    + intros d Hd. assert (Ha : in_page (pa k) p (base_of k p + d)) by (unfold in_page, base_of; lia).
      rewrite (Hk3 p 0 p), (gr_kept _ _ _ _ _ _ _ _ Hg2 p 0 p);
        [|apply lookup_insert_eq|done|by apply covers_self|done| |done|done|by apply covers_self|done|];
        [|unfold in_page in *; by rewrite !(pfn_to_addr_same _ _ p (Hs : same_pool (pa k) (pa k1)))|unfold in_page in *; by rewrite !(pfn_to_addr_same _ _ p Hsp)].
      change (rd k1 (base_of k p + d)) with (m.[base_of k p + d]). by rewrite Hm, decide_True by lia.
Qed.

(** ** Page tables that grow, seen from the caches *)

(** All [n] references of page [q] are those of the tables [t]: it is one of
    them, or mapped. *)
Definition held_by (k : slub) (t : tree 3) (q n : Z) : Prop := (q ∈ owned 3 t /\ n = 1) \/ (0 < uses k t q /\ n = uses k t q).

(** Pages were mapped or copied: the pages in use stay in use with their
    bytes, and the count of each follows its mappings. *)
Record served (k : slub) (P : gmap Z Z) (t : tree 3) (k' : slub) (P' : gmap Z Z) (t' : tree 3) : Prop := {
  sv_pool : same_pool (pa k) (pa k');
  sv_pages : P ⊆ P';
  sv_ref : forall q o, P !! q = Some o -> (refcount (pa k')).[q] - uses k t' q = (refcount (pa k)).[q] - uses k t q;
  sv_bytes : forall p o q a, P !! p = Some o -> covers p o q -> q ∉ owned 3 t -> in_page (pa k) q a -> rd k' a = rd k a;
  sv_owned : forall q, q ∈ owned 3 t' -> q ∈ owned 3 t \/ P !! q = None;
  sv_uses : forall q, 0 < uses k t' q -> 0 < uses k t q \/ P !! q = None;
  sv_tables : forall q, q ∈ owned 3 t -> q ∈ owned 3 t';
  sv_new : forall q o, P' !! q = Some o -> P !! q = None -> o = 0 /\ held_by k t' q (refcount (pa k')).[q]
}.

Lemma mem_served k P S PL R mm V c t k' A' t' :
  mem k P R mm V t -> slub_rep k P S PL -> tidy k S PL -> (forall x c, (vobjs V ∪ R) !! x = Some c <-> live k S x c) ->
  live k S mm c -> SIZEOF_MM <= object_size (cache_of k c) ->
  let A := P ∪ slab_pages S in
  space k' A' mm t' -> same_pool (pa k) (pa k') -> caches k' = caches k -> A ⊆ A' -> pages_kept k A t k' A' ->
  (forall q, q ∈ owned 3 t' -> q ∈ owned 3 t \/ A !! q = None) ->
  (forall q o, A !! q = Some o -> (refcount (pa k')).[q] - uses k t' q = (refcount (pa k)).[q] - uses k t q) ->
  (forall q, 0 < uses k t' q -> 0 < uses k t q \/ A !! q = None) ->
  (forall q, q ∈ owned 3 t -> q ∈ owned 3 t') ->
  (forall q o, A' !! q = Some o -> A !! q = None -> o = 0 /\ held_by k t' q (refcount (pa k')).[q]) ->
  exists P', mem k' P' R mm V t' /\ objs_kept k k' (vobjs V ∪ R) /\ served k P t k' P' t' /\ A' = P' ∪ slab_pages S.
Proof.
  intros HM HR Ht HO Hl Hsz A HS' Hs Hc Hsub Hk Hown Href Hus Htab Hnew. destruct (HM) as [_ HT].
  assert (HA : forall q o, A !! q = Some o <-> P !! q = Some o \/ slab_pages S !! q = Some o) by (intros; apply lookup_union_Some, HR).
  assert (HPS : forall q o, P !! q = Some o -> slab_pages S !! q = None) by (intros q o Hq; exact (map_disjoint_Some_l _ _ _ _ (sr_disj _ _ _ _ HR) Hq)).
  assert (Hup : forall q, 0 < uses k t q -> P !! q = Some 0).
  { intros q Hq. destruct (uses_elem k t q Hq) as (e & He & <-). by apply (tb_leaf _ _ _ _ HT). }
  assert (Hnone : forall q, A !! q = None -> slab_pages S !! q = None) by (intros q Hq; by apply lookup_union_None in Hq as [_ ?]).
  assert (Hus' : forall q, 0 < uses k t' q -> slab_pages S !! q = None).
  { intros q Hq. destruct (Hus q Hq) as [Hq'|Hq']; [by apply (HPS q 0), Hup|by apply Hnone]. }
  destruct (mem_lift k P S PL R mm V c t k' A' t' HM HR Ht HO Hl Hsz HS' Hs Hc) as (HM' & Hok & EA); try done.
  - etransitivity; [|exact Hsub]. apply map_union_subseteq_r, HR.
  - intros p [si Hp]. assert (Hsp : slab_pages S !! p = Some 0) by (unfold slab_pages; by rewrite lookup_fmap, Hp).
    assert (Hz : forall t0, (0 < uses k t0 p -> slab_pages S !! p = None) -> uses k t0 p = 0).
    { intros t0 H0. destruct (decide (0 < uses k t0 p)) as [D|D]; [by rewrite H0 in Hsp|]. unfold uses in *. lia. }
    specialize (Href p 0 (proj2 (HA _ _) (or_intror Hsp))). rewrite (Hz t'), (Hz t) in Href; [lia| |by apply Hus'].
    intros Hq. by apply (HPS p 0), Hup.
  - intros q Hq. destruct (Hown q Hq) as [Hq'|Hq']; [apply (HPS q 0), (tb_owned _ _ _ _ HT), Hq'|by apply Hnone].
  - intros e He. apply Hus'. assert (Hp := uses_pos k' t' e He). by rewrite (uses_same k k') in Hp.
  - exists (A' ∖ slab_pages S). splits; try done. split; try done.
    + apply map_subseteq_spec. intros q o Hq. apply lookup_difference_Some. split; [|by apply (HPS q o)].
      apply (lookup_weaken _ _ _ _ (proj2 (HA q o) (or_introl Hq)) Hsub).
    + intros q o Hq. apply (Href q o), HA. by left.
    + intros p o q a Hp Hcv Hq Ha. assert (HpA := proj2 (HA p o) (or_introl Hp)).
      apply (Hk p o q a HpA (lookup_weaken _ _ _ _ HpA Hsub) Hcv Hq Ha).
    + intros q Hq. destruct (Hown q Hq) as [?|Hn]; [by left|right]. by apply lookup_union_None in Hn as [? _].
    + intros q Hq. destruct (Hus q Hq) as [?|Hn]; [by left|right]. by apply lookup_union_None in Hn as [? _].
    + intros q o Hq Hn. apply lookup_difference_Some in Hq as [Hq Hsq]. apply (Hnew q o Hq). by apply lookup_union_None.
Qed.

Lemma create_caches k parent i t k' : get_or_create_table k parent i = Some (t, k') -> caches k' = caches k.
Proof.
  unfold get_or_create_table. intros E. repeat case_match; simplify_eq; try done.
  destruct (alloc_pages _ _) as [[x b]|]; [|done]. cbn in E. case_match; by simplify_eq.
Qed.

Lemma map_caches k mm va p prot r k' : map_page k mm va p prot = Some (r, k') -> caches k' = caches k.
Proof.
  unfold map_page. intros E. destruct (get_or_create_table k _ _) as [[l2 k1]|] eqn:E1; [|done]. cbn in E.
  apply create_caches in E1. case_match; [by simplify_eq|]. destruct (get_or_create_table k1 _ _) as [[l3 k2]|] eqn:E2; [|done].
  apply create_caches in E2. cbn in E. case_match; simplify_eq; cbn; congruence.
Qed.

Lemma fault_in_caches k mm va prot r k' : fault_in k mm va prot = Some (r, k') -> caches k' = caches k.
Proof.
  unfold fault_in. intros E. destruct (alloc_pages _ _) as [[x b]|]; [|done]. cbn [mbind option_bind] in E. case_match; [by simplify_eq|].
  destruct (map_page _ _ _ _ _) as [[e k1]|] eqn:E1; [|done]. apply map_caches in E1. cbn [mbind option_bind] in E.
  case_match; [|by simplify_eq]. destruct (free_pages _ _ _); [|done]. cbn in E. by simplify_eq.
Qed.

(** ** Entries and areas *)

Lemma leaf_pte_bit k p f i : Z.testbit PTE_ADDR_MASK i = false -> Z.testbit (leaf_pte k p f) i = Z.testbit (prot_to_pte f) i.
Proof. intros H. unfold leaf_pte. by rewrite Z.lor_spec, Z.land_spec, H, andb_false_r. Qed.

(** The bits of an entry that stand for permissions. *)
Definition perm_bits (w x u : bool) (e : Z) : Prop :=
  Z.testbit e 0 = true /\ Z.testbit e 7 = negb w /\ Z.testbit e 54 = negb x /\ Z.testbit e 6 = u.

Lemma prot_to_pte_bits f : perm_bits (has f VM_WRITE) (has f VM_EXEC) (has f VM_ACCESS) (prot_to_pte f).
Proof.
  unfold perm_bits, prot_to_pte. change (Z.lor (Z.lor MAP_PROT_READ MAP_PROT_WRITE) MAP_PROT_EXEC) with VM_ACCESS.
  change MAP_PROT_WRITE with VM_WRITE. change MAP_PROT_EXEC with VM_EXEC.
  by destruct (has f VM_ACCESS), (has f VM_WRITE), (has f VM_EXEC).
Qed.

Lemma perm_matches f e w : perm_bits w (has f VM_EXEC) (has f VM_ACCESS) e -> (w = true -> has f VM_WRITE = true) -> matches f e.
Proof.
  intros (H0 & H1 & H2 & H3) Hw. unfold matches, pte_write, pte_present. rewrite has_1, has_rdonly, H0, H1.
  unfold PTE_UXN, PTE_USER. rewrite !has_bit, H2, H3 by lia. splits; [by destruct w; auto|done|done].
Qed.

Lemma leaf_pte_bits k p f : perm_bits (has f VM_WRITE) (has f VM_EXEC) (has f VM_ACCESS) (leaf_pte k p f).
Proof. unfold perm_bits. rewrite !leaf_pte_bit by reflexivity. apply prot_to_pte_bits. Qed.

(** Areas consist of whole pages. *)
Lemma area_page V va va' :
  sorted 0 (areas V) -> (forall x, x ∈ areas V -> page_range (a_start x) (a_end x)) -> va / PAGE_SIZE = va' / PAGE_SIZE ->
  space_at V va = space_at V va'.
Proof.
  intros HS Hpg E. assert (Hh : forall x, x ∈ areas V -> holds va x <-> holds va' x).
  { intros x Hx. destruct (Hpg x Hx) as (_ & _ & [m Hm] & [n Hn]). unfold holds. rewrite Hm, Hn. unfold PAGE_SIZE in *.
    assert (E1 := Z.div_mod va 4096 ltac:(lia)). assert (E2 := Z.div_mod va' 4096 ltac:(lia)).
    assert (B1 := Z.mod_pos_bound va 4096 ltac:(lia)). assert (B2 := Z.mod_pos_bound va' 4096 ltac:(lia)). lia. }
  unfold space_at. apply option_eq. intros f. rewrite !(flags_at_iff 0) by done.
  split; intros (x & Hx & Hax & Hf); exists x; (split; [done|split; [by apply Hh|done]]).
Qed.

Lemma fresh_uses k A mm t p : space k A mm t -> A !! p = None -> uses k t p = 0.
Proof.
  intros HS Hn. destruct (decide (0 < uses k t p)) as [D|D]; [|unfold uses in *; lia].
  destruct (uses_elem k t p D) as (e & He & E). destruct (sp_leaf _ _ _ _ HS e He) as [HA _]. congruence.
Qed.

Lemma mem_fault_in k P R mm V t va f :
  mem_inv k P R mm V t -> uaddr va -> leaf_at t va = None -> space_at V va = Some f ->
  exists r k' P' t', fault_in k mm va f = Some (r, k') /\ mem_inv k' P' R mm V t' /\ objs_kept k k' (vobjs V ∪ R) /\ served k P t k' P' t' /\
    ((r = - ENOMEM /\ forall va', leaf_at t' va' = leaf_at t va') \/
     (r = 0 /\ exists p, 0 <= p < pool_pages (pa k) /\ P !! p = None /\ P' !! p = Some 0 /\ (refcount (pa k')).[p] = 1 /\
        (forall va', leaf_at t' va' = if decide (same_page va va') then Some (leaf_pte k p f) else leaf_at t va') /\
        forall d, 0 <= d < PAGE_SIZE -> rd k' (base_of k p + d) = 0)).
Proof.
  intros HI Hva Hl Hf. destruct (HI) as [HM HSo Hpg Hb Hpr]. destruct (mem_open _ _ _ _ _ _ HM) as (S & PL & c & HR & Ht & HO & Hlv & Hsz & HS & HPS).
  set (A := P ∪ slab_pages S) in *. assert (Hsame : forall va', uaddr va' -> same_page va va' -> space_at V va' = Some f).
  { intros va' Hva' Hsp. rewrite <- Hf. symmetry. apply area_page; [done|done|]. by apply same_page_iff. }
  destruct (fault_in_spec k A mm t va f HS Hl) as (r & k' & A' & t1 & E & Hcase). assert (Hc := fault_in_caches _ _ _ _ _ _ E).
  destruct Hcase as [[-> Hg]|(-> & p & k1 & Hout & Hp & Hg & H3 & HA' & Hs & Er & Er1 & HS' & Hk & Hz)]; destruct (Hg) as [G1 G2 G3 G4 G5 G6 G7 G8 G9 G10].
  - destruct (mem_served k P S PL R mm V c t k' A' t1 HM HR Ht HO Hlv Hsz G1 G2 Hc G4 G8 G7) as (P' & HM' & Hok & Hsv & _).
    { intros q o Hq. rewrite (G5 q o Hq), <- (uses_same k k' t1 q G2), G6. done. }
    { intros q Hq. left. by rewrite <- G6, (uses_same k k'). }
    { done. }
    { intros q o Hq Hn. destruct (G10 q o Hq Hn) as (E1 & E2 & [E3|[]]). split; [done|by left]. }
    exists (- ENOMEM), k', P', t1. split; [done|]. split; [|split; [done|split; [done|by left]]]. split; try done.
    + intros va' e Hva' He. rewrite G3 in He. by apply Hb.
    + intros va' e Hva' He Hw. rewrite G3 in He. rewrite (pte_pfn_same k k') by done. rewrite (G5 _ 0); [by apply (Hpr va')|].
      apply (sp_leaf _ _ _ _ HS), (leaf_in _ _ _ He).
  - set (e := leaf_pte k p f) in *. assert (Hperm := set_leaf_owned t1 va (Some e) H3). assert (Epf : pte_pfn k e = p) by (by apply leaf_pte_spec; [apply (sp_ram _ _ _ _ HS)|]).
    assert (Hnp : A !! p = None).
    { destruct (A !! p) as [o|] eqn:Eo; [|done]. destruct (Hout p o Eo). apply covers_self.
      destruct (inv_used_block _ _ _ _ (sp_buddy _ _ _ _ HS) Eo) as ((? & _) & _). lia. }
    assert (Hu : forall q, uses k (set_leaf t1 va (Some e)) q = uses k t q + if decide (p = q) then 1 else 0).
    { intros q. rewrite (uses_set_leaf k t1 va (Some e) q H3), G3, Hl, Epf. rewrite <- (uses_same k k1 t1 q G2), G6. lia. }
    assert (Hs' : same_pool (pa k) (pa k')) by (by etransitivity).
    destruct (mem_served k P S PL R mm V c t k' A' (set_leaf t1 va (Some e)) HM HR Ht HO Hlv Hsz HS' Hs' Hc G4) as (P' & HM' & Hok & Hsv & EA).
    { intros p' o q a Hp' Hp2 Hcv Hq Ha. rewrite (Hk p' o q a Hp2 Hp2 Hcv); [by apply (G8 p' o q)| |].
      - by apply (grown_other _ _ _ _ _ _ _ _ p' o q Hg).
      - unfold in_page in *. by rewrite !(pfn_to_addr_same _ _ q G2). }
    { intros q Hq. rewrite Hperm in Hq. by apply G7. }
    { intros q o Hq. fold A in Hq. rewrite Hu, Er, (G5 q o Hq), decide_False by (intros <-; congruence). lia. }
    { intros q Hq. rewrite Hu in Hq. case_decide; [subst q; by right|left; lia]. }
    { intros q Hq. rewrite Hperm. by apply G9. }
    { intros q o Hq Hn. destruct (G10 q o Hq Hn) as (E1 & E2 & E3). split; [done|]. unfold held_by. rewrite Hperm, Hu, Er, E2.
      destruct E3 as [E3|<-]; [by left|right]. rewrite decide_True by done. rewrite (fresh_uses k A mm t p HS Hn). lia. }
    assert (Hle : forall va', leaf_at (set_leaf t1 va (Some e)) va' = if decide (same_page va va') then Some e else leaf_at t va').
    { intros va'. rewrite leaf_set_leaf by done. by rewrite G3. }
    exists 0, k', P', (set_leaf t1 va (Some e)). destruct Hp as [Hp1 Hp2]. split; [done|]. split; [|split; [done|split; [done|]]].
    + split; try done; intros va' x Hva' Hx; rewrite Hle in Hx; case_decide as D; [injection Hx as <-|by apply Hb|injection Hx as <-|].
      * exists f. split; [by apply Hsame|]. eapply perm_matches; [apply leaf_pte_bits|done].
      * intros _. by rewrite (pte_pfn_same k k'), Epf.
      * intros Hw. rewrite (pte_pfn_same k k'), Er by done. rewrite (G5 _ 0); [by apply (Hpr va')|]. apply (sp_leaf _ _ _ _ HS), (leaf_in _ _ _ Hx).
    + right. split; [done|]. exists p. splits; try done.
      * by apply lookup_union_None in Hnp as [? _].
      * rewrite EA in HA'. apply lookup_union_Some_raw in HA' as [?|[_ HA']]; [done|]. apply lookup_union_None in Hnp as [_ Hnp]. by rewrite Hnp in HA'.
Qed.

(** ** The private copy *)

Lemma memcpy_caches n k dst src : caches (memcpy n k dst src) = caches k.
Proof. revert k dst src. induction n as [|n IH]; intros; [done|]. cbn [memcpy]. by rewrite IH. Qed.

#[local] Opaque memcpy.

Lemma cow_caches k mm va f r k' : do_cow_fault k mm va f = Some (r, k') -> caches k' = caches k.
Proof.
  unfold do_cow_fault. intros E. case_match; [by simplify_eq|]. case_match; [by simplify_eq|]. case_match; [|by simplify_eq].
  case_match; [by simplify_eq|]. destruct (alloc_pages _ _) as [[x b]|]; [|done]. cbn [mbind option_bind] in E. case_match; [by simplify_eq|].
  destruct (put_page _ _); [|done]. cbn [mbind option_bind] in E. injection E as <- <-. cbn [set_pa caches pte_set wr]. by rewrite memcpy_caches.
Qed.

Lemma mkwrite_bit e i : 0 <= i < 64 -> i <> 7 -> Z.testbit (pte_mkwrite e) i = Z.testbit e i.
Proof.
  intros Hi H7. unfold pte_mkwrite. rewrite Z.land_spec. replace (Z.testbit (u64 (Z.lnot PTE_RDONLY)) i) with true; [apply andb_true_r|].
  unfold wrapu. rewrite Z.mod_pow2_bits_low, Z.lnot_spec by lia. unfold PTE_RDONLY. rewrite Z.shiftl_spec by lia.
  symmetry. apply negb_true_iff. change 1 with (2 ^ 0). apply Z.pow2_bits_false. lia.
Qed.

Lemma flags_bit e e' i : Z.land e PTE_FLAGS_MASK = Z.land e' PTE_FLAGS_MASK -> Z.testbit PTE_FLAGS_MASK i = true -> Z.testbit e i = Z.testbit e' i.
Proof.
  intros E Hi. apply (f_equal (fun x => Z.testbit x i)) in E. rewrite !Z.land_spec, Hi, !andb_true_r in E. done.
Qed.

(** The entry of the copy differs from the old one in the write permission. *)
Lemma cow_matches f e e' :
  matches f e -> has f VM_WRITE = true -> Z.land e' PTE_FLAGS_MASK = Z.land (pte_mkwrite e) PTE_FLAGS_MASK ->
  matches f e' /\ has e' PTE_UXN = has e PTE_UXN /\ has e' PTE_USER = has e PTE_USER.
Proof.
  intros (_ & A2 & A3) Hw Hf. assert (E1 : has e' PTE_UXN = has e PTE_UXN).
  { unfold PTE_UXN. rewrite !has_bit by lia. rewrite (flags_bit _ _ 54 Hf) by reflexivity. apply mkwrite_bit; lia. }
  assert (E2 : has e' PTE_USER = has e PTE_USER).
  { unfold PTE_USER. rewrite !has_bit by lia. rewrite (flags_bit _ _ 6 Hf) by reflexivity. apply mkwrite_bit; lia. }
  unfold matches. rewrite E1, E2. by splits.
Qed.

Lemma mem_cow k P R mm V t va f e :
  mem_inv k P R mm V t -> uaddr va -> leaf_at t va = Some e -> space_at V va = Some f -> pte_cow_candidate e f = true ->
  do_cow_fault k mm va f = Some (- ENOMEM, k) \/
  exists k' P' t' e', do_cow_fault k mm va f = Some (0, k') /\ mem_inv k' P' R mm V t' /\ objs_kept k k' (vobjs V ∪ R) /\ served k P t k' P' t' /\
    (forall va', leaf_at t' va' = if decide (same_page va va') then Some e' else leaf_at t va') /\
    pte_write e' = true /\ has e' PTE_UXN = has e PTE_UXN /\ has e' PTE_USER = has e PTE_USER /\
    (refcount (pa k')).[pte_pfn k e'] = 1 /\
    forall d, 0 <= d < PAGE_SIZE -> rd k' (base_of k (pte_pfn k e') + d) = rd k (base_of k (pte_pfn k e) + d).
Proof.
  intros HI Hva Hl Hf Hcand. destruct (HI) as [HM HSo Hpg Hb Hpr]. destruct (mem_open _ _ _ _ _ _ HM) as (S & PL & c & HR & Ht & HO & Hlv & Hsz & HS & HPS).
  set (A := P ∪ slab_pages S) in *. assert (Hw : has f VM_WRITE = true) by (unfold pte_cow_candidate in Hcand; by apply andb_true_iff in Hcand as [_ ?]).
  destruct (cow_spec k A mm t va f e HS Hl Hcand) as [[E _]|(k' & A' & e' & E & HS' & H3 & Hwr & Hfl & Hcp & Hr1 & Hk & Hs & Hro & Hcase)]; [by left|right].
  assert (Hc := cow_caches _ _ _ _ _ _ E). set (p := pte_pfn k e) in *. set (p' := pte_pfn k e') in *.
  assert (Hperm := set_leaf_owned t va (Some e') H3). assert (Hu := fun q => uses_set_leaf k t va (Some e') q H3). rewrite Hl in Hu. fold p p' in Hu.
  assert (HpA : A !! p = Some 0) by (apply (sp_leaf _ _ _ _ HS e (leaf_in _ _ _ Hl))).
  assert (Hup : 0 < uses k t p) by (apply uses_pos, (leaf_in _ _ _ Hl)).
  assert (Hcase' : (A' = A /\ p' = p /\ (refcount (pa k)).[p] = 1) \/
    (A !! p' = None /\ A' = <[p' := 0]> A /\ (refcount (pa k')).[p] = (refcount (pa k)).[p] - 1 /\ (refcount (pa k)).[p] <> 1)).
  { case_decide; [left; by destruct Hcase|right]. destruct Hcase as (Hout & EA & Er). splits; try done. destruct (A !! p') as [o|] eqn:Eo; [|done].
    destruct (Hout p' o Eo). apply covers_self. destruct (inv_used_block _ _ _ _ (sp_buddy _ _ _ _ HS) Eo) as ((? & _) & _). lia. }
  clear Hcase.
  destruct (mem_served k P S PL R mm V c t k' A' (set_leaf t va (Some e')) HM HR Ht HO Hlv Hsz HS' Hs Hc) as (P' & HM' & Hok & Hsv & _); try done.
  { fold A. destruct Hcase' as [(-> & _)|(Hn & -> & _)]; [done|]. by apply insert_subseteq. }
  { intros q Hq. rewrite Hperm in Hq. by left. }
  { intros q o Hq. fold A in Hq. rewrite Hu. destruct Hcase' as [(_ & E1 & E2)|(Hn & _ & E1 & _)].
    - rewrite E1 in *. destruct (decide (p = q)) as [<-|Hne]; [lia|]. rewrite Hro; [lia|by apply not_eq_sym..].
    - rewrite (decide_False (P := p' = q)) by (intros <-; congruence). destruct (decide (p = q)) as [<-|Hne]; [lia|].
      rewrite Hro; [lia|by apply not_eq_sym|congruence]. }
  { intros q. rewrite Hu. destruct Hcase' as [(_ & E1 & _)|(Hn & _)]; destruct (decide (p' = q)) as [<-|].
    - rewrite E1. by left.
    - intros Hq. left. case_decide; lia.
    - by right.
    - intros Hq. left. case_decide; lia. }
  { intros q Hq. by rewrite Hperm. }
  { intros q o Hq Hn. destruct Hcase' as [(-> & _)|(_ & -> & _)]; [fold A in Hn; congruence|]. fold A in Hn.
    apply lookup_insert_Some in Hq as [[<- <-]|[_ Hq]]; [|congruence]. split; [done|]. right. rewrite Hr1, Hu, (decide_True (P := p' = p')) by done.
    rewrite (fresh_uses k A mm t p' HS Hn), decide_False by congruence. lia. }
  exists k', P', (set_leaf t va (Some e')), e'. destruct (Hb va e Hva Hl) as (f' & Hf' & Hal). assert (f' = f) as -> by congruence.
  destruct (cow_matches f e e' Hal Hw Hfl) as (Hal' & E1 & E2).
  assert (Hle : forall va', leaf_at (set_leaf t va (Some e')) va' = if decide (same_page va va') then Some e' else leaf_at t va') by (intros; by apply leaf_set_leaf).
  split; [done|]. split; [|by splits]. split; try done; intros va' x Hva' Hx; rewrite Hle in Hx; case_decide as D; [injection Hx as <-|by apply Hb|injection Hx as <-|].
  - exists f. split; [|done]. rewrite <- Hf. symmetry. apply area_page; [done|done|]. by apply same_page_iff.
  - intros _. by rewrite (pte_pfn_same k k').
  - intros Hwx. rewrite (pte_pfn_same k k') by done. assert (H1 := Hpr va' x Hva' Hx Hwx). assert (HxA := proj1 (sp_leaf _ _ _ _ HS x (leaf_in _ _ _ Hx))).
    destruct Hcase' as [(_ & E3 & E4)|(Hn & _ & _ & E4)]; destruct (decide (pte_pfn k x = p)) as [E5|E5]; rewrite ?E5 in *; try done.
    + congruence.
    + rewrite Hro; congruence.
    + rewrite Hro; [done|done|]. intros E6. rewrite E6 in HxA. congruence.
Qed.

(** ** The page fault *)

(** The access that a syndrome reports, as flags of an area permit it and as
    an entry grants it. *)
Definition fetches (esr : Z) : bool := esr_get_ec esr =? ESR_ELx_EC_IABT_LOW.
Definition writes (esr : Z) : bool := negb (fetches esr) && has esr ESR_ELx_WNR.

Definition permits (f esr : Z) : bool :=
  if fetches esr then has f VM_EXEC else if has esr ESR_ELx_WNR then has f VM_WRITE else has f VM_ACCESS.

Definition grants (e esr : Z) : Prop :=
  has e PTE_USER = true /\ (fetches esr = true -> has e PTE_UXN = false) /\ (writes esr = true -> pte_write e = true).

Lemma permits_access f esr : permits f esr = true -> has f VM_ACCESS = true.
Proof.
  assert (H : forall i, 0 <= i < 3 -> Z.testbit f i = true -> has f VM_ACCESS = true).
  { intros i Hi Hb. unfold has. apply negb_true_iff, Z.eqb_neq. intros E. apply (f_equal (fun x => Z.testbit x i)) in E.
    rewrite Z.land_spec, Hb, Z.bits_0 in E. assert (i = 0 \/ i = 1 \/ i = 2) as [->|[->| ->]] by lia; done. }
  unfold permits. repeat case_match; [|intros Hw|done].
  - intros Hx. apply (H 2); [lia|]. rewrite <- Hx. symmetry. apply (has_bit f 2). lia.
  - apply (H 1); [lia|]. rewrite <- Hw. symmetry. apply (has_bit f 1). lia.
Qed.

Lemma fetch_exec f esr : permits f esr = true -> fetches esr = true -> has f VM_EXEC = true.
Proof. unfold permits. intros Hp Hf. by rewrite Hf in Hp. Qed.

Lemma writes_flag f esr : permits f esr = true -> writes esr = true -> has f VM_WRITE = true.
Proof. unfold permits, writes. destruct (fetches esr); [done|]. cbn [negb andb]. intros Hp Hw. by rewrite Hw in Hp. Qed.

Lemma va_mapped_rep k P R mm V t va : mem k P R mm V t -> va_mapped k mm va = bool_decide (is_Some (leaf_at t va)).
Proof.
  intros HM. destruct (mem_open _ _ _ _ _ _ HM) as (S & PL & c & _ & _ & _ & _ & _ & HS & _).
  destruct (l3_slot_rep k mm t va (sp_ram _ _ _ _ HS) (sp_rep _ _ _ _ HS) (sp_mm _ _ _ _ HS) (sp_root _ _ _ _ HS)) as [E Hc].
  unfold va_mapped. rewrite E. destruct (table_at t va) as [c3|] eqn:E3; [|by rewrite table_leaf, E3].
  destruct (Hc c3 eq_refl) as [Hnz ->]. rewrite (proj2 (Z.eqb_neq _ _) Hnz). cbn [negb andb]. destruct (leaf_at t va) as [e|] eqn:El; [|done].
  cbn [default from_option id]. rewrite has_1. by destruct (ptes_ok 3 k t e (sp_rep _ _ _ _ HS) (leaf_in _ _ _ El)) as (_ & -> & _).
Qed.

(** The same page, by its base address. *)
Lemma page_base addr : uaddr addr -> let va := Z.land addr PAGE_MASK in
  uaddr va /\ va / PAGE_SIZE = addr / PAGE_SIZE /\ (forall x, uaddr x -> same_page va x <-> x / PAGE_SIZE = addr / PAGE_SIZE).
Proof.
  intros Ha va. destruct (page_mask_aligned addr) as (Hd & Hle & H0); [unfold uaddr, USER_TOP in *; lia|]. fold va in Hd, Hle, H0.
  assert (Hva : uaddr va) by (unfold uaddr in *; lia). assert (E : va / PAGE_SIZE = addr / PAGE_SIZE) by (by apply in_aligned_page).
  splits; try done. intros x Hx. rewrite same_page_iff by done. rewrite E. split; congruence.
Qed.

Lemma same_leaf t va va' : same_page va va' -> leaf_at t va = leaf_at t va'.
Proof. intros (H1 & H2 & H3). unfold leaf_at. by rewrite H1, H2, H3. Qed.

(** A mapping that stays keeps its byte. *)
Lemma served_byte k P mm t k' P' t' va :
  tables k P mm t -> served k P t k' P' t' -> leaf_at t' va = leaf_at t va -> user_byte k' t' va = user_byte k t va.
Proof.
  intros HT Hs El. unfold user_byte. rewrite El. destruct (leaf_at t va) as [e|] eqn:E; [|done]. cbn. f_equal.
  destruct (tb_leaf _ _ _ _ HT e (leaf_in _ _ _ E)) as [Hp Hno]. assert (Hpool := sv_pool _ _ _ _ _ _ Hs).
  rewrite (pte_pfn_same k k') by done. unfold base_of. rewrite (pfn_to_addr_same _ _ _ Hpool).
  apply (sv_bytes _ _ _ _ _ _ Hs (pte_pfn k e) 0 (pte_pfn k e)); [done|by apply covers_self|done|apply in_base].
Qed.

(** What [do_page_fault] reads of the areas. *)
Lemma fault_area k P R mm V addr :
  mm_rep k P R mm V -> sorted 0 (areas V) ->
  exists vma, find_vma k mm addr = Some vma /\
    match space_at V addr with
    | None => (vma =? 0) || (addr <? rd k (vma + VM_start)) = true
    | Some f => (vma =? 0) || (addr <? rd k (vma + VM_start)) = false /\ rd k (vma + VM_flags) = f
    end.
Proof.
  intros HR HS. rewrite (find_vma_rep k P R mm V addr HR). eexists. split; [done|]. unfold space_at. rewrite (find_above_flags V addr 0 HS).
  destruct (find_above addr V) as [v|] eqn:E; [|done]. cbn [fmap option_fmap option_map default from_option id mbind option_bind].
  destruct (find_above_split _ _ _ E) as (V1 & V2 & -> & _). assert (Hv : v ∈ V1 ++ v :: V2) by (apply elem_of_app; right; left).
  destruct (mr_cells _ _ _ _ _ HR v Hv) as (C1 & _ & C3). assert (Hz := rep_nonzero HR v Hv). rewrite (proj2 (Z.eqb_neq _ _) Hz), C1, C3. cbn [orb].
  destruct (Z.leb_spec (vstart v) addr); [split; [by apply Z.ltb_ge|done]|by apply Z.ltb_lt].
Qed.

Lemma cow_refused k P R mm V t va f e :
  mem k P R mm V t -> leaf_at t va = Some e -> pte_cow_candidate e f = false ->
  do_cow_fault k mm va f = Some (- EFAULT, k) /\ (has f VM_WRITE = true -> pte_write e = true).
Proof.
  intros HM Hl Hc. destruct (mem_open _ _ _ _ _ _ HM) as (S & PL & c & _ & _ & _ & _ & _ & HS & _).
  assert (H3 : exists c3, table_at t va = Some c3) by (rewrite table_leaf in Hl; destruct (table_at t va); [by eexists|done]).
  destruct H3 as [c3 H3]. destruct (leaf_bits _ _ mm t va c3 e HS H3 Hl) as (_ & Hnz & Hrd). split.
  - unfold do_cow_fault. by rewrite (proj2 (Z.eqb_neq _ _) Hnz), Hrd, Hc.
  - intros Hw. destruct (ptes_ok 3 k t e (sp_rep _ _ _ _ HS) (leaf_in _ _ _ Hl)) as (_ & Hb & _).
    unfold pte_cow_candidate, pte_write, pte_present in *. rewrite has_1, Hb, Hw, andb_true_r in *. cbn [andb] in *. by rewrite Hc.
Qed.

(** The fault on a mapped page whose area permits the access. *)
Lemma fault_mapped k P R mm V t addr esr f e :
  mem_inv k P R mm V t -> uaddr addr -> space_at V addr = Some f -> permits f esr = true -> leaf_at t addr = Some e ->
  let va := Z.land addr PAGE_MASK in
  exists r k', (if has esr ESR_ELx_WNR then do_cow_fault k mm va f else Some (- EFAULT, k)) = Some (r, k') /\
    ((r = - EFAULT /\ k' = k /\ grants e esr) \/
     (r = - ENOMEM /\ k' = k) \/
     (r = 0 /\ exists P' t' e', mem_inv k' P' R mm V t' /\ served k P t k' P' t' /\ objs_kept k k' (vobjs V ∪ R) /\
        leaf_at t' addr = Some e' /\ grants e' esr /\ forall x, uaddr x -> user_byte k' t' x = user_byte k t x)).
Proof.
  intros HI Ha Hf Hp Hl va. destruct (page_base addr Ha) as (Hva & Eva & Hsame). fold va in Hva, Eva, Hsame.
  destruct (mi_backed _ _ _ _ _ _ HI addr e Ha Hl) as (f' & Hf' & (M1 & M2 & M3)). assert (f' = f) as -> by congruence.
  assert (Hu : has e PTE_USER = true) by (rewrite M3; by eapply permits_access).
  assert (Hx : fetches esr = true -> has e PTE_UXN = false) by (intros Hfe; by rewrite M2, (fetch_exec f esr)).
  assert (Hlv : leaf_at t va = Some e) by (rewrite <- Hl; apply same_leaf; by apply Hsame).
  assert (Hfv : space_at V va = Some f) by (rewrite <- Hf; by apply area_page; [apply HI|apply HI|]).
  destruct (has esr ESR_ELx_WNR) eqn:Ew.
  2:{ eexists _, _. split; [done|]. left. split; [done|]. split; [done|]. split; [done|]. split; [done|]. unfold writes. by rewrite Ew, andb_false_r. }
  destruct (pte_cow_candidate e f) eqn:Ec.
  - destruct (mem_cow k P R mm V t va f e HI Hva Hlv Hfv Ec) as [->|(k' & P' & t' & e' & -> & HI' & Hok & Hsv & Hle & Hw & E1 & E2 & _ & Hcp)];
      [eexists _, _; split; [done|]; right; by left|]. eexists _, _. split; [done|]. right. right. split; [done|]. exists P', t', e'.
    assert (Hla : leaf_at t' addr = Some e') by (by rewrite Hle, decide_True by (by apply Hsame)). splits; try done.
    + unfold grants. rewrite E1, E2. by splits.
    + intros x Hxu. destruct (decide (same_page va x)) as [D|D]; [|by apply (served_byte k P mm t k' P' t' x); [apply HI|done|rewrite Hle, decide_False]].
      unfold user_byte. rewrite Hle, decide_True by done. rewrite <- (same_leaf t _ _ D), Hlv. cbn. f_equal. assert (Hs := sv_pool _ _ _ _ _ _ Hsv).
      rewrite (pte_pfn_same k k') by done. unfold base_of in *. rewrite (pfn_to_addr_same _ _ _ Hs). apply Hcp. apply Z.mod_pos_bound. by vm_compute.
  - destruct (cow_refused k P R mm V t va f e (mi_mem _ _ _ _ _ _ HI) Hlv Ec) as [-> Hpr]. exists (- EFAULT), k. split; [done|]. left.
    split; [done|]. split; [done|]. split; [done|]. split; [done|]. intros Hwr. apply Hpr. by apply (writes_flag f esr).
Qed.

Lemma served_refl k P t : served k P t k P t.
Proof. split; try done; intros; by left || congruence. Qed.

(** The fault on an unmapped page of an area. *)
Lemma fault_unmapped k P R mm V t addr esr f :
  mem_inv k P R mm V t -> uaddr addr -> space_at V addr = Some f -> permits f esr = true -> leaf_at t addr = None ->
  exists r k' P' t', fault_in k mm (Z.land addr PAGE_MASK) f = Some (r, k') /\ mem_inv k' P' R mm V t' /\ served k P t k' P' t' /\ objs_kept k k' (vobjs V ∪ R) /\
    ((r = - ENOMEM /\ forall x, uaddr x -> user_byte k' t' x = user_byte k t x) \/
     (r = 0 /\ (exists e, leaf_at t' addr = Some e /\ grants e esr) /\
      forall x, uaddr x -> user_byte k' t' x = if decide (x / PAGE_SIZE = addr / PAGE_SIZE) then Some 0 else user_byte k t x)).
Proof.
  intros HI Ha Hf Hp Hl. destruct (page_base addr Ha) as (Hva & Eva & Hsame). set (va := Z.land addr PAGE_MASK) in *.
  assert (Hlv : leaf_at t va = None) by (rewrite <- Hl; apply same_leaf; by apply Hsame).
  assert (Hfv : space_at V va = Some f) by (rewrite <- Hf; by apply area_page; [apply HI|apply HI|]).
  destruct (mem_fault_in k P R mm V t va f HI Hva Hlv Hfv) as (r & k' & P' & t' & E & HI' & Hok & Hsv & Hcase). assert (Hs := sv_pool _ _ _ _ _ _ Hsv).
  exists r, k', P', t'. split; [done|]. split; [done|]. split; [done|]. split; [done|]. destruct Hcase as [[-> Hle]|(-> & p & Hpr & _ & _ & _ & Hle & Hz)].
  - left. split; [done|]. intros x _. apply (served_byte k P mm t k' P' t' x); [apply HI|done|apply Hle].
  - right. split; [done|]. split.
    + exists (leaf_pte k p f). split; [by rewrite Hle, decide_True by (by apply Hsame)|]. destruct (leaf_pte_bits k p f) as (B0 & B1 & B2 & B3).
      unfold grants, PTE_USER, PTE_UXN, pte_write, pte_present. rewrite !has_bit, has_1, has_rdonly, B0, B1, B2, B3 by lia. splits.
      * by apply (permits_access f esr).
      * intros Hfe. by rewrite (fetch_exec f esr).
      * intros Hw. by rewrite (writes_flag f esr).
    + intros x Hx. destruct (decide (x / PAGE_SIZE = addr / PAGE_SIZE)) as [D|D].
      * unfold user_byte. rewrite Hle, decide_True by (by apply Hsame). cbn. f_equal. destruct (mem_open _ _ _ _ _ _ (mi_mem _ _ _ _ _ _ HI)) as (S & PL & c & _ & _ & _ & _ & _ & HS & _).
        rewrite (pte_pfn_same k k') by done. rewrite (proj2 (leaf_pte_spec k p f (sp_ram _ _ _ _ HS) Hpr)).
        unfold base_of in *. rewrite (pfn_to_addr_same _ _ _ Hs). apply Hz. apply Z.mod_pos_bound. by vm_compute.
      * apply (served_byte k P mm t k' P' t' x); [apply HI|done|]. rewrite Hle, decide_False; [done|]. by rewrite Hsame.
Qed.

Lemma area_uaddr V a f : sorted 0 (areas V) -> (forall x, x ∈ areas V -> page_range (a_start x) (a_end x)) -> space_at V a = Some f -> uaddr a.
Proof.
  intros HS Hpg Hf. apply (flags_at_iff 0) in Hf as (x & Hx & Hh & _); [|done]. destruct (Hpg x Hx) as (H1 & H2 & _). unfold holds, uaddr in *. lia.
Qed.

Lemma do_page_fault_spec k P R mm V t addr esr :
  mem_inv k P R mm V t ->
  exists r k', do_page_fault k mm addr esr = Some (r, k') /\
    ((r = - EFAULT /\ k' = k /\
      forall f, space_at V addr = Some f -> permits f esr = true -> exists e, leaf_at t addr = Some e /\ grants e esr) \/
     exists f P' t', space_at V addr = Some f /\ permits f esr = true /\ mem_inv k' P' R mm V t' /\ served k P t k' P' t' /\
       objs_kept k k' (vobjs V ∪ R) /\
       ((r = - ENOMEM /\ forall va, uaddr va -> user_byte k' t' va = user_byte k t va) \/
        (r = 0 /\ (exists e, leaf_at t' addr = Some e /\ grants e esr) /\
         forall va, uaddr va -> user_byte k' t' va =
           if decide (va / PAGE_SIZE = addr / PAGE_SIZE) then Some (default 0 (user_byte k t va)) else user_byte k t va))).
Proof.
  intros HI. destruct (HI) as [HM HS Hpg _ _]. destruct (mem_nonzero k P R mm V t HM) as [Hm _]. unfold do_page_fault. rewrite (proj2 (Z.eqb_neq _ _) Hm).
  destruct (fault_area k P R mm V addr (me_areas _ _ _ _ _ _ HM) HS) as (vma & -> & Hv). cbn [mbind option_bind].
  destruct (space_at V addr) as [f|] eqn:Hf; [|rewrite Hv; exists (- EFAULT), k; split; [done|by left]]. destruct Hv as [-> ->].
  assert (Ha := area_uaddr V addr f HS Hpg Hf). fold (fetches esr).
  assert (Er : (if fetches esr then negb (has f VM_EXEC) else if has esr ESR_ELx_WNR then negb (has f VM_WRITE) else negb (has f VM_ACCESS)) =
    negb (permits f esr)) by (unfold permits; by repeat case_match).
  change (Z.lor (Z.lor VM_READ VM_WRITE) VM_EXEC) with VM_ACCESS. rewrite Er.
  destruct (permits f esr) eqn:Hp; cbn [negb].
  2:{ exists (- EFAULT), k. split; [done|]. left. split; [done|]. split; [done|]. intros f' [= <-]. congruence. }
  rewrite (va_mapped_rep k P R mm V t _ HM). destruct (page_base addr Ha) as (Hva & _ & Hsame). set (va := Z.land addr PAGE_MASK) in *.
  assert (Hlv : leaf_at t va = leaf_at t addr) by (apply same_leaf; by apply Hsame). rewrite Hlv. destruct (leaf_at t addr) as [e|] eqn:Hl.
  - rewrite bool_decide_true by (by eexists). destruct (fault_mapped k P R mm V t addr esr f e HI Ha Hf Hp Hl) as (r & k' & E & Hcase). fold va in E.
    rewrite E. exists r, k'. split; [done|]. destruct Hcase as [(-> & -> & Hg)|[(-> & ->)|(-> & P' & t' & e' & HI' & Hsv & Hok & Hl' & Hg & Hb)]].
    + left. split; [done|]. split; [done|]. intros f' _ _. by exists e.
    + right. exists f, P, t. split; [done|]. split; [done|]. split; [done|]. split; [apply served_refl|]. split; [by split|by left].
    + right. exists f, P', t'. splits; try done. right. split; [done|]. split; [by exists e'|]. intros x Hx. rewrite Hb by done. case_decide as D; [|done].
      unfold user_byte. rewrite <- (same_leaf t va x) by (by apply Hsame). by rewrite Hlv.
  - rewrite bool_decide_false by (by intros [? ?]). destruct (fault_unmapped k P R mm V t addr esr f HI Ha Hf Hp Hl) as (r & k' & P' & t' & E & HI' & Hsv & Hok & Hcase).
    fold va in E. rewrite E. exists r, k'. split; [done|]. right. exists f, P', t'. splits; try done. destruct Hcase as [?|(-> & Hg & Hb)]; [by left|right].
    splits; try done. intros x Hx. rewrite Hb by done. case_decide as D; [|done]. unfold user_byte. rewrite <- (same_leaf t va x) by (by apply Hsame). by rewrite Hlv.
Qed.

(** C15: A page fault refuses exactly the accesses that the area at the address
    does not permit (or that its entry grants already).  Otherwise it makes
    the access possible or reports a lack of memory, and in both cases it
    changes no byte of the process: what was mapped reads as before, and the
    rest of a page that comes in reads as zeros.  Pages shared with other
    processes keep their bytes, and reference counts follow the mappings. *)
Theorem do_page_fault_correct k P R mm V t addr esr :
  mem_inv k P R mm V t ->
  exists r k', do_page_fault k mm addr esr = Some (r, k') /\
    ((r = - EFAULT /\ k' = k /\
      forall f, space_at V addr = Some f -> permits f esr = true -> exists e, leaf_at t addr = Some e /\ grants e esr) \/
     exists f P' t', space_at V addr = Some f /\ permits f esr = true /\ mem_inv k' P' R mm V t' /\ served k P t k' P' t' /\
       objs_kept k k' (vobjs V ∪ R) /\
       ((r = - ENOMEM /\ forall va, uaddr va -> user_byte k' t' va = user_byte k t va) \/
        (r = 0 /\ (exists e, leaf_at t' addr = Some e /\ grants e esr) /\
         forall va, uaddr va -> user_byte k' t' va =
           if decide (va / PAGE_SIZE = addr / PAGE_SIZE) then Some (default 0 (user_byte k t va)) else user_byte k t va))).
Proof. apply do_page_fault_spec. Qed.
