(* ===== verification/Protect.v ===== *)
(** * Changing protections and the break

    [mprotect] changes the flags of the areas of a range and the entries of
    its pages together; [brk] moves the end of the heap.  With [mmap],
    [munmap] and the page fault they are the steps of a process on its
    memory, and [mem_inv] survives them all. *)
From S2P Require Import Prelude PageAlloc Slub Errno AddrSpace Vma PageTable PageTree PageMap Mmap Fault.

(** ** New permissions for an entry *)

Definition reprot (k : slub) (prot e : Z) : Z :=
  let pte := Z.lor (Z.land e PTE_ADDR_MASK) (prot_to_pte prot) in
  if has prot MAP_PROT_WRITE && (1 <? (refcount (pa k)).[pte_pfn k e]) then pte_wrprotect pte else pte.

Lemma reprot_addr k prot e : Z.land (reprot k prot e) PTE_ADDR_MASK = Z.land e PTE_ADDR_MASK.
Proof.
  unfold reprot, pte_wrprotect. assert (E : Z.land (Z.lor (Z.land e PTE_ADDR_MASK) (prot_to_pte prot)) PTE_ADDR_MASK = Z.land e PTE_ADDR_MASK).
  { rewrite addr_mask_lor by apply prot_to_pte_mask. apply addr_mask_idem. }
  case_match; [|exact E]. rewrite addr_mask_lor by reflexivity. exact E.
Qed.

Lemma reprot_bits k prot e : exists w, (w = true -> has prot VM_WRITE = true) /\ perm_bits w (has prot VM_EXEC) (has prot VM_ACCESS) (reprot k prot e).
Proof.
  destruct (prot_to_pte_bits prot) as (B0 & B1 & B2 & B3). unfold reprot, pte_wrprotect. set (pte := Z.lor (Z.land e PTE_ADDR_MASK) (prot_to_pte prot)).
  assert (Hb : forall i, Z.testbit PTE_ADDR_MASK i = false -> Z.testbit pte i = Z.testbit (prot_to_pte prot) i).
  { intros i Hi. unfold pte. by rewrite Z.lor_spec, Z.land_spec, Hi, andb_false_r. }
  unfold perm_bits. case_match.
  - exists false. split; [done|]. rewrite !Z.lor_spec, !Hb, B0, B2, B3 by reflexivity. cbn. by rewrite !orb_false_r, orb_true_r.
  - exists (has prot VM_WRITE). split; [done|]. rewrite !Hb by reflexivity. by rewrite B0, B1, B2, B3.
Qed.

Lemma reprot_write k prot e : pte_write (reprot k prot e) = true -> (refcount (pa k)).[pte_pfn k e] <= 1.
Proof.
  unfold reprot. case_match eqn:E; [intros Hw|intros Hw].
  - exfalso. unfold pte_write in Hw. apply andb_true_iff in Hw as [_ Hw]. apply negb_true_iff in Hw. rewrite has_rdonly in Hw. unfold pte_wrprotect in Hw.
    rewrite Z.lor_spec in Hw. apply orb_false_iff in Hw as [_ Hw]. discriminate Hw.
  - apply andb_false_iff in E as [E|E]; [|by apply Z.ltb_ge]. exfalso. unfold pte_write in Hw. apply andb_true_iff in Hw as [_ Hw].
    apply negb_true_iff in Hw. rewrite has_rdonly, Z.lor_spec, Z.land_spec in Hw. apply orb_false_iff in Hw as [_ Hw].
    destruct (prot_to_pte_bits prot) as (_ & B1 & _). change MAP_PROT_WRITE with VM_WRITE in E. rewrite B1, E in Hw. discriminate Hw.
Qed.

Lemma reprot_ok k prot e : pte_ok k e -> pte_ok k (reprot k prot e) /\ pte_pfn k (reprot k prot e) = pte_pfn k e.
Proof.
  intros ([H1 H1'] & H2 & H3 & H4). assert (Ek : pte_kva (reprot k prot e) = pte_kva e) by (unfold pte_kva; by rewrite reprot_addr).
  assert (Ep : pte_pfn k (reprot k prot e) = pte_pfn k e) by (unfold pte_pfn; by rewrite Ek). split; [|done]. unfold pte_ok. rewrite Ep, Ek.
  split; [|split; [|split; [done|done]]].
  - apply u64_range. assert (E : Z.land (Z.lor (Z.land e PTE_ADDR_MASK) (prot_to_pte prot)) (Z.ones 64) = Z.lor (Z.land e PTE_ADDR_MASK) (prot_to_pte prot)).
    { rewrite Z.land_lor_distr_l, <- Z.land_assoc. f_equal. unfold prot_to_pte.
      by destruct (has prot (Z.lor (Z.lor MAP_PROT_READ MAP_PROT_WRITE) MAP_PROT_EXEC)), (has prot MAP_PROT_WRITE), (has prot MAP_PROT_EXEC). }
    unfold reprot, pte_wrprotect. case_match; [|done]. by rewrite Z.land_lor_distr_l, E.
  - by destruct (reprot_bits k prot e) as (w & _ & -> & _).
Qed.

(** What [change_pte_prot] writes. *)
Lemma chprot_code k A mm t va prot :
  space k A mm t ->
  change_pte_prot k mm va prot =
    match table_at t va, leaf_at t va with
    | Some c3, Some e => wr k (cell_at k (fst c3) (l3_idx va)) (reprot k prot e)
    | _, _ => k
    end.
Proof.
  intros HS. destruct (l3_slot_rep k mm t va (sp_ram _ _ _ _ HS) (sp_rep _ _ _ _ HS) (sp_mm _ _ _ _ HS) (sp_root _ _ _ _ HS)) as [Es Hc].
  unfold change_pte_prot, pte_present, pte_set. rewrite Es. destruct (table_at t va) as [c3|] eqn:H3; [|done].
  destruct (Hc c3 eq_refl) as [Hnz ->]. rewrite (proj2 (Z.eqb_neq _ _) Hnz). destruct (leaf_at t va) as [e|] eqn:Hl; [|done].
  cbn [default from_option id orb]. assert (Hin := leaf_in _ _ _ Hl). assert (Hok := ptes_ok 3 k t e (sp_rep _ _ _ _ HS) Hin).
  destruct (leaf_page k A mm t e HS Hin Hok) as (Hh & Hvp & _). destruct (sp_leaf _ _ _ _ HS e Hin) as (HA & _ & _).
  rewrite Hh. cbn [negb]. fold (pte_kva e). rewrite Hvp, (proj1 (space_count k A mm t _ HS HA)). unfold reprot.
  by destruct (has prot MAP_PROT_WRITE), (1 <? _).
Qed.

(** An entry that keeps its page is replaced. *)
Lemma mem_reprot k P R mm V t va c3 e e' :
  mem k P R mm V t -> table_at t va = Some c3 -> leaf_at t va = Some e -> pte_ok k e' -> pte_pfn k e' = pte_pfn k e ->
  let k' := wr k (cell_at k (fst c3) (l3_idx va)) e' in
  mem k' P R mm V (set_leaf t va (Some e')) /\ released k P t k' P (set_leaf t va (Some e')) /\ objs_kept k k' (vobjs V ∪ R).
Proof.
  intros HM H3 Hl Hok' Epf k'. destruct (mem_open _ _ _ _ _ _ HM) as (S & PL & c & HR & Ht & HO & Hlv & Hsz & HS & HPS). set (A := P ∪ slab_pages S) in *.
  assert (EU := union_minus P (slab_pages S) (sr_disj _ _ _ _ HR)). fold A in EU. destruct (me_tables _ _ _ _ _ _ HM) as [_ _ _ _ Tow Tle _].
  assert (Hu := fun q => uses_set_leaf k t va (Some e') q ltac:(by exists c3)). rewrite Hl, Epf in Hu.
  assert (Hu' : forall q, uses k (set_leaf t va (Some e')) q = uses k t q) by (intros q; rewrite Hu; lia).
  destruct (space_set_leaf k A mm t va (Some e') c3 HS H3) as [HS' Hk].
  { intros x Ex. assert (x = e') as -> by congruence. rewrite Epf. split; [done|]. apply (sp_leaf _ _ _ _ HS), (leaf_in _ _ _ Hl). }
  { intros q. rewrite Hu'. apply (sp_refs _ _ _ _ HS). }
  cbn [default from_option id] in HS', Hk. fold k' in HS', Hk. assert (Hperm := set_leaf_owned t va (Some e') ltac:(by exists c3)).
  destruct (mem_lift k P S PL R mm V c t k' A (set_leaf t va (Some e')) HM HR Ht HO Hlv Hsz HS') as (HM' & Hobj & _); try done.
  { apply map_union_subseteq_r, HR. }
  { intros q Hq. rewrite Hperm in Hq. by apply HPS, Tow. }
  { intros x Hx. assert (Hp := uses_pos k' _ x Hx). change (uses k') with (uses k) in Hp. change (pte_pfn k') with (pte_pfn k) in Hp |- *. rewrite Hu' in Hp.
    destruct (uses_elem k t _ Hp) as (y & Hy & Ey). rewrite <- Ey. by apply HPS, Tle. }
  cbv zeta in HM'. rewrite EU in HM'. split; [done|]. split; [|done]. split; try done.
  - intros q. by rewrite Hu'.
  - intros q _. rewrite Hu'. change (refcount (pa k')) with (refcount (pa k)). lia.
  - intros q o. rewrite Hu'. split; [intros ?; split; [done|by left]|by intros [? _]].
  - intros p o q a Hp Hcv Hq Ha. assert (HpA : A !! p = Some o) by (by apply lookup_union_Some_l). by apply (Hk p o q).
Qed.

(** [change_pte_prot] rewrites the entry of one page. *)
Lemma mem_chprot k P R mm V t va prot :
  mem k P R mm V t ->
  let k' := change_pte_prot k mm va prot in
  exists t', mem k' P R mm V t' /\ released k P t k' P t' /\ objs_kept k k' (vobjs V ∪ R) /\ refcount (pa k') = refcount (pa k) /\
    forall va', leaf_at t' va' = if decide (same_page va va') then reprot k prot <$> leaf_at t va' else leaf_at t va'.
Proof.
  intros HM k'. destruct (mem_open _ _ _ _ _ _ HM) as (S & PL & c & _ & _ & _ & _ & _ & HS & _).
  assert (E := chprot_code k _ mm t va prot HS). fold k' in E. destruct (leaf_at t va) as [e|] eqn:Hl.
  - assert (H3 : exists c3, table_at t va = Some c3) by (rewrite table_leaf in Hl; destruct (table_at t va); [by eexists|done]).
    destruct H3 as [c3 H3]. rewrite H3 in E. destruct (reprot_ok k prot e) as [Hok Epf]; [by apply (ptes_ok 3 k t e (sp_rep _ _ _ _ HS)), (leaf_in _ _ _ Hl)|].
    destruct (mem_reprot k P R mm V t va c3 e _ HM H3 Hl Hok Epf) as (HM' & Hr & Ho). rewrite <- E in HM', Hr, Ho.
    eexists. split; [done|]. split; [done|]. split; [done|]. split; [by rewrite E|]. intros va'. rewrite leaf_set_leaf by (by exists c3).
    case_decide as D; [|done]. by rewrite <- (same_leaf t _ _ D), Hl.
  - assert (E' : k' = k) by (by destruct (table_at t va)). rewrite E'. exists t. split; [done|]. split; [apply released_refl|]. split; [by split|]. split; [done|].
    intros va'. case_decide as D; [|done]. by rewrite <- (same_leaf t _ _ D), Hl.
Qed.

Lemma reprot_same k k' prot e : same_pool (pa k) (pa k') -> refcount (pa k') = refcount (pa k) -> reprot k' prot e = reprot k prot e.
Proof. intros Hs Hr. unfold reprot. by rewrite Hr, (pte_pfn_same k k'). Qed.

Lemma mem_chprot_loop fuel k P R mm V t va end_ prot :
  mem k P R mm V t -> page_range va end_ -> (Z.to_nat ((end_ - va + PAGE_SIZE - 1) / PAGE_SIZE) < fuel)%nat ->
  exists k' t', change_prot_loop fuel k mm va end_ prot = Some k' /\ mem k' P R mm V t' /\ released k P t k' P t' /\
    objs_kept k k' (vobjs V ∪ R) /\ refcount (pa k') = refcount (pa k) /\
    forall va', uaddr va' -> leaf_at t' va' = if decide (va <= va' < end_) then reprot k prot <$> leaf_at t va' else leaf_at t va'.
Proof.
  revert k t va. induction fuel as [|fuel IH]; intros k t va HM (H0 & Htop & Hd1 & Hd2) Hf; [lia|]. cbn [change_prot_loop].
  destruct (Z.ltb_spec va end_) as [Hlt|Hge].
  2:{ exists k, t. split; [done|]. split; [done|]. split; [apply released_refl|]. split; [by split|]. split; [done|]. intros va' _. by rewrite decide_False by lia. }
  destruct (mem_chprot k P R mm V t va prot HM) as (t1 & HM1 & Hr1 & Ho1 & Er1 & Hl1). set (k1 := change_pte_prot k mm va prot) in *.
  assert (Hva : uaddr va) by (unfold uaddr; lia). assert (Hd3 : (PAGE_SIZE | va + PAGE_SIZE)) by (apply Z.divide_add_r; [done|exists 1; lia]).
  rewrite wrapu_id by (unfold uaddr, USER_TOP, PAGE_SIZE in *; lia).
  destruct (IH k1 t1 (va + PAGE_SIZE) HM1) as (k2 & t2 & E2 & HM2 & Hr2 & Ho2 & Er2 & Hl2).
  { unfold page_range, PAGE_SIZE in *. splits; try done; lia. }
  { by apply pages_left. }
  exists k2, t2. split; [done|]. split; [done|]. split; [by eapply released_trans|]. split; [by eapply objs_kept_trans|]. split; [congruence|].
  intros va' Hva'. rewrite Hl2, !Hl1 by done.
  assert (Hle : va + PAGE_SIZE <= end_) by (destruct Hd1 as [x ->], Hd2 as [y ->]; unfold PAGE_SIZE in *; lia).
  assert (Er : reprot k1 prot <$> leaf_at t va' = reprot k prot <$> leaf_at t va').
  { destruct (leaf_at t va'); [|done]. cbn. f_equal. apply reprot_same; [apply (rl_pool _ _ _ _ _ _ Hr1)|done]. }
  destruct (decide (same_page va va')) as [D|D]; rewrite (same_page_iff va va'), in_aligned_page in D by done; unfold PAGE_SIZE in *; repeat case_decide; try done; lia.
Qed.

Lemma mem_chprot_range k P R mm V t s e prot :
  mem k P R mm V t -> page_range s e ->
  exists k' t', change_prot_range k mm s e prot = Some k' /\ mem k' P R mm V t' /\ released k P t k' P t' /\
    objs_kept k k' (vobjs V ∪ R) /\ refcount (pa k') = refcount (pa k) /\
    forall va', uaddr va' -> leaf_at t' va' = if decide (s <= va' < e) then reprot k prot <$> leaf_at t va' else leaf_at t va'.
Proof. intros HM Hr. apply mem_chprot_loop; [done|done|]. unfold pages_fuel. lia. Qed.

(** ** New flags for an area *)

Definition newflags (prot f : Z) : Z := Z.lor (Z.land f (u64 (Z.lnot VM_ACCESS))) prot.

Lemma newflags_has prot f m : Z.land m VM_ACCESS = m -> 0 <= m -> has (newflags prot f) m = has prot m.
Proof.
  intros Hm H0. unfold has, newflags. rewrite Z.land_lor_distr_l, <- Z.land_assoc, <- Hm.
  replace (Z.land (u64 (Z.lnot VM_ACCESS)) (Z.land m VM_ACCESS)) with 0.
  - by rewrite Z.land_0_r, Z.lor_0_l.
  - rewrite (Z.land_comm m), Z.land_assoc. change (Z.land (u64 (Z.lnot VM_ACCESS)) VM_ACCESS) with 0. by rewrite Z.land_0_l.
Qed.

Lemma reprot_matches k prot f e : matches (newflags prot f) (reprot k prot e).
Proof.
  destruct (reprot_bits k prot e) as (w & Hw & Hb). apply (perm_matches _ _ w); rewrite !newflags_has by (reflexivity || by vm_compute); done.
Qed.

Lemma set_flags lo A x B g a :
  sorted lo (A ++ x :: B) ->
  let x' := mkArea (a_start x) (a_end x) g in
  sorted lo (A ++ x' :: B) /\
  flags_at (A ++ x' :: B) a = if decide (holds a x) then Some g else flags_at (A ++ x :: B) a.
Proof.
  intros HS x'. assert (HS' : sorted lo (A ++ x' :: B)) by (rewrite sorted_app in *; exact HS). split; [done|].
  assert (HB : sorted lo (A ++ B)).
  { rewrite sorted_app in *. destruct HS as (H1 & H2 & H3 & H4). split; [done|]. eapply sorted_mono; [|done]. lia. }
  rewrite (insert_flags lo A x' B a HS' HB), (insert_flags lo A x B a HS HB). unfold holds. cbn. by repeat case_decide.
Qed.

(** The areas and tables change, the pages and what they hold do not. *)
Record same_bytes (k : slub) (P R : gmap Z Z) (mm : Z) (t : tree 3) (k' : slub) (t' : tree 3) : Prop := {
  sb_rel : released k P t k' P t';
  sb_kept : kept k k' R [mm + MM_mmap];
  sb_pfn : forall va, uaddr va -> pte_pfn k <$> leaf_at t' va = pte_pfn k <$> leaf_at t va
}.

Lemma same_bytes_trans k P R mm t k1 t1 k2 t2 :
  same_bytes k P R mm t k1 t1 -> same_bytes k1 P R mm t1 k2 t2 -> same_bytes k P R mm t k2 t2.
Proof.
  intros [A1 A2 A3] [B1 B2 B3]. split; [by eapply released_trans|by eapply kept_trans|]. intros va Hva. rewrite <- (A3 va Hva).
  specialize (B3 va Hva). assert (Hp := rl_pool _ _ _ _ _ _ A1).
  destruct (leaf_at t2 va), (leaf_at t1 va); cbn in B3 |- *; try done. by rewrite !(pte_pfn_same k k1) in B3 by done.
Qed.

Lemma frame_same_bytes k k' P R mm t : mm_frame k k' P R mm -> same_bytes k P R mm t k' t.
Proof. intros Hf. split; [by eapply frame_released|by eapply frame_kept|done]. Qed.

(** One turn of the loop. *)
Lemma protect_area k P R mm V1 v V2 t prot :
  mem_inv k P R mm (V1 ++ v :: V2) t ->
  let v' := mkVma (vptr v) (vstart v) (vend v) (newflags prot (vflags v)) in
  let k1 := wr k (vptr v + VM_flags) (newflags prot (vflags v)) in
  exists k' t', change_prot_range k1 mm (vstart v) (vend v) prot = Some k' /\ mem_inv k' P R mm (V1 ++ v' :: V2) t' /\ same_bytes k P R mm t k' t'.
Proof.
  intros [HM HS Hpg Hb Hpr] v' k1. assert (HR := me_areas _ _ _ _ _ _ HM). destruct (rep_elem _ _ _ _ _ _ _ HR) as (Hz & C1 & C2 & C3).
  destruct (rep_set_field k P R mm V1 v V2 v' VM_flags (newflags prot (vflags v)) HR) as [HR1 Hf]; [by vm_compute|done| |].
  { unfold vcells, v'. cbn [vptr vstart vend vflags]. unfold VM_start, VM_end, VM_flags in *. splits; [by rewrite rd_wr_ne by lia|by rewrite rd_wr_ne by lia|by rewrite rd_wr_eq]. }
  fold k1 in HR1, Hf. assert (HM1 := mem_frame k k1 P R mm _ _ t HM HR1 Hf).
  assert (Hv : varea v ∈ areas (V1 ++ v :: V2)) by (rewrite areas_app; apply elem_of_app; right; left).
  destruct (mem_chprot_range k1 P R mm _ t (vstart v) (vend v) prot HM1 (Hpg _ Hv)) as (k' & t' & E & HM' & Hr & Ho & Er & Hl).
  rewrite areas_app in HS. cbn [areas fmap list_fmap] in HS.
  assert (HS' := fun a => set_flags 0 _ _ _ (newflags prot (vflags v)) a HS). cbn in HS'.
  assert (HSa : forall a, space_at (V1 ++ v' :: V2) a = if decide (holds a (varea v)) then Some (newflags prot (vflags v)) else space_at (V1 ++ v :: V2) a).
  { intros a. unfold space_at. rewrite !areas_app. apply HS'. }
  exists k', t'. split; [done|]. split.
  - split; [done|rewrite areas_app; apply (HS' 0)| | |].
    + intros x Hx. rewrite areas_app in Hx. apply elem_of_app in Hx as [Hx|Hx].
      * apply Hpg. rewrite areas_app. apply elem_of_app. by left.
      * apply elem_of_cons in Hx as [->|Hx]; [exact (Hpg _ Hv)|]. apply Hpg. rewrite areas_app. apply elem_of_app. right. by right.
    + intros va e Hva He. rewrite Hl in He by done. rewrite HSa. unfold holds. cbn. case_decide; [|by apply Hb].
      destruct (leaf_at t va) as [x|]; [|done]. injection He as <-. eexists. split; [done|]. apply reprot_matches.
    + intros va e Hva He Hw. rewrite Hl in He by done. assert (HM1t := me_tables _ _ _ _ _ _ HM1). rewrite (pte_pfn_same k1 k') by apply (rl_pool _ _ _ _ _ _ Hr).
      rewrite Er. case_decide; [|by apply (private_frame k k1 P R mm t (me_tables _ _ _ _ _ _ HM) Hf Hpr va)].
      destruct (leaf_at t va) as [x|] eqn:Ex; [|done]. injection He as <-. assert (H1 := reprot_write k1 prot x Hw).
      destruct (mem_open _ _ _ _ _ _ HM1) as (S & PL & c & _ & _ & _ & _ & _ & HSp & _). assert (Hxi := leaf_in _ _ _ Ex).
      rewrite (proj2 (reprot_ok k1 prot x (ptes_ok 3 k1 t x (sp_rep _ _ _ _ HSp) Hxi))).
      assert (H2 := sp_refs _ _ _ _ HSp _ (uses_pos k1 t x Hxi)). assert (H3 := uses_pos k1 t x Hxi). lia.
  - eapply same_bytes_trans; [by eapply frame_same_bytes|]. split; [done|by eapply objs_kept_kept; [apply HR1|done]|]. intros va Hva. rewrite Hl by done.
    case_decide; [|done]. destruct (leaf_at t va) as [x|] eqn:Ex; [|done]. cbn. f_equal. destruct (mem_open _ _ _ _ _ _ HM1) as (S & PL & c & _ & _ & _ & _ & _ & HSp & _).
    apply reprot_ok. by apply (ptes_ok 3 k1 t x (sp_rep _ _ _ _ HSp)), (leaf_in _ _ _ Ex).
Qed.

(** ** The loop over the areas *)

Definition below (e : Z) (g : Z -> Z) (x : area) : area :=
  if a_start x <? e then mkArea (a_start x) (a_end x) (g (a_flags x)) else x.

Lemma below_id lo e g A : sorted lo A -> e <= lo -> below e g <$> A = A.
Proof.
  intros HS Hle. rewrite <- (list_fmap_id A) at 2. apply list_fmap_ext. intros i x Hx. unfold below. apply list_elem_of_lookup_2 in Hx.
  destruct (sorted_elem _ _ _ HS Hx). by rewrite (proj2 (Z.ltb_ge _ _)) by lia.
Qed.

Lemma protect_loop fuel k P R mm V1 V2 t e prot :
  mem_inv k P R mm (V1 ++ V2) t -> (length V2 < fuel)%nat ->
  exists k' V2' t', mprotect_loop fuel k mm (vhead V2) e prot = Some k' /\ mem_inv k' P R mm (V1 ++ V2') t' /\ same_bytes k P R mm t k' t' /\
    areas V2' = below e (newflags prot) <$> areas V2.
Proof.
  revert k V1 V2 t. induction fuel as [|fuel IH]; intros k V1 V2 t HI Hf; [lia|]. cbn [mprotect_loop].
  destruct V2 as [|v V2].
  { exists k, [], t. split; [done|]. split; [done|]. split; [|done]. split; [apply released_refl|apply kept_refl|done]. }
  assert (HR := me_areas _ _ _ _ _ _ (mi_mem _ _ _ _ _ _ HI)). destruct (rep_elem _ _ _ _ _ _ _ HR) as (Hz & C1 & C2 & C3). cbn [vhead].
  rewrite (proj2 (Z.eqb_neq _ _) Hz), C1, C3. cbn [negb andb]. destruct (Z.ltb_spec (vstart v) e) as [Hlt|Hge].
  2:{ exists k, (v :: V2), t. split; [done|]. split; [done|]. split; [split; [apply released_refl|apply kept_refl|done]|].
      symmetry. assert (HS := mi_sorted _ _ _ _ _ _ HI). rewrite areas_app in HS. apply sorted_app in HS as [_ (H1 & H2 & H3)].
      apply (below_id (vstart v)); [|done]. cbn. splits; try done; lia. }
  change (Z.lor (Z.land (vflags v) (u64 (Z.lnot (Z.lor (Z.lor VM_READ VM_WRITE) VM_EXEC)))) prot) with (newflags prot (vflags v)).
  destruct (protect_area k P R mm V1 v V2 t prot HI) as (k1 & t1 & E1 & HI1 & Hb1). set (k0 := wr k _ _) in *. set (v' := mkVma _ _ _ _) in *.
  assert (R1 : rd k0 (vptr v + VM_start) = vstart v) by (unfold k0, VM_start, VM_flags in *; by rewrite rd_wr_ne by lia).
  assert (R2 : rd k0 (vptr v + VM_end) = vend v) by (unfold k0, VM_end, VM_flags in *; by rewrite rd_wr_ne by lia).
  rewrite R1, R2, E1. cbn [mbind option_bind].
  assert (Hn := rep_next _ _ _ _ _ _ _ (me_areas _ _ _ _ _ _ (mi_mem _ _ _ _ _ _ HI1))). cbn [v' vptr] in Hn. rewrite Hn.
  destruct (IH k1 (V1 ++ [v']) V2 t1) as (k' & V2' & t' & E & HI' & Hb' & EV); [by rewrite <- app_assoc|cbn in Hf; lia|].
  exists k', (v' :: V2'), t'. split; [done|]. split; [by rewrite <- app_assoc in HI'|]. split; [by eapply same_bytes_trans|].
  change (areas (v' :: V2')) with (varea v' :: areas V2'). change (areas (v :: V2)) with (varea v :: areas V2). rewrite EV, fmap_cons. f_equal. unfold below. cbn. by rewrite (proj2 (Z.ltb_lt _ _) Hlt).
Qed.

(** ** Splitting at the ends of the range *)

Lemma mem_split k P R mm V t a addr :
  mem_inv k P R mm V t -> (PAGE_SIZE | addr) -> (a = addr \/ a = addr - 1) ->
  exists r k' V', (if negb (default 0 (vptr <$> find_above a V) =? 0) then vma_split k (default 0 (vptr <$> find_above a V)) addr else Some (0, k)) = Some (r, k') /\
    mem_inv k' P R mm V' t /\ same_bytes k P R mm t k' t /\ (forall x, space_at V' x = space_at V x) /\
    (r = - ENOMEM \/ (r = 0 /\ no_straddle addr (areas V') /\ forall m, no_straddle m (areas V) -> no_straddle m (areas V'))).
Proof.
  intros HI Hd Ha. destruct (HI) as [HM HS Hpg Hb Hpr]. assert (Hrefl : same_bytes k P R mm t k t) by (split; [apply released_refl|apply kept_refl|done]).
  destruct (find_above a V) as [v|] eqn:Ef; cbn [fmap option_fmap option_map default from_option id].
  2:{ exists 0, k, V. split; [done|]. split; [done|]. split; [done|]. split; [done|]. right. split; [done|]. split; [|done].
      intros x Hx Hst. apply list_elem_of_fmap in Hx as (v & -> & Hv). assert (Hv' := find_above_none a V Ef v Hv). cbn in Hst. lia. }
  destruct (find_above_split _ _ _ Ef) as (V1 & V2 & -> & Hva & Hbef). assert (HR := me_areas _ _ _ _ _ _ HM).
  destruct (rep_elem _ _ _ _ _ _ _ HR) as (Hz & _). rewrite (proj2 (Z.eqb_neq _ _) Hz). cbn [negb].
  assert (HS0 := HS). rewrite areas_app in HS0. apply sorted_app in HS0 as [HS1 (HS2 & HS3 & HS4)]. cbn in HS2, HS3, HS4.
  assert (Hout : forall x, x ∈ areas V1 \/ x ∈ areas V2 -> ~ a_start x < addr < a_end x).
  { intros x [Hx|Hx].
    - apply list_elem_of_fmap in Hx as (w & -> & Hw). specialize (Hbef w Hw). cbn. lia.
    - destruct (sorted_elem _ _ _ HS4 Hx). lia. }
  destruct (vma_split_rep k P R mm V1 v V2 addr HR) as (r & k' & -> & Hf & [(-> & Hn & ->)|[(-> & Hin & n & HR')|(-> & -> & _)]]).
  - exists 0, k, (V1 ++ v :: V2). split; [done|]. split; [done|]. split; [done|]. split; [done|]. right. split; [done|]. split; [|done].
    intros x Hx. rewrite areas_app in Hx. apply elem_of_app in Hx as [Hx|Hx]; [by apply Hout; left|]. apply elem_of_cons in Hx as [->|Hx]; [done|by apply Hout; right].
  - set (W := V1 ++ _ :: _ :: V2) in *. assert (EW : areas W = areas V1 ++ mkArea (vstart v) addr (vflags v) :: mkArea addr (vend v) (vflags v) :: areas V2) by (by unfold W; rewrite areas_app).
    rewrite areas_app in HS. assert (Hsp : forall x, space_at W x = space_at (V1 ++ v :: V2) x).
    { intros x. unfold space_at. rewrite EW, areas_app. by apply (split_flags 0 (areas V1) (varea v) (areas V2)). }
    assert (Hv : page_range (vstart v) (vend v)) by (apply (Hpg (varea v)); rewrite areas_app; apply elem_of_app; right; left).
    assert (Helem : forall x, x ∈ areas W -> x ∈ areas (V1 ++ v :: V2) \/ x = mkArea (vstart v) addr (vflags v) \/ x = mkArea addr (vend v) (vflags v)).
    { intros x Hx. rewrite EW in Hx. rewrite areas_app. change (areas (v :: V2)) with (varea v :: areas V2). rewrite !elem_of_app, !elem_of_cons in *. tauto. }
    exists 0, k', W. split; [done|]. split; [split|].
    + by apply (mem_frame k k' P R mm (V1 ++ v :: V2)).
    + rewrite EW. by apply (split_sorted 0 (areas V1) (varea v) (areas V2)).
    + intros x Hx. destruct (Helem x Hx) as [Hx'|[->| ->]]; [by apply Hpg| |]; destruct Hv as (L1 & L2 & L3 & L4); unfold page_range; cbn [a_start a_end]; (split; [lia|split; [lia|by split]]).
    + intros va e Hva' He. rewrite Hsp. by apply Hb.
    + by apply (private_frame k k' P R mm); [apply HM| |].
    + split; [by apply frame_same_bytes|]. split; [done|]. right. split; [done|]. split.
      * intros x Hx. rewrite EW in Hx. rewrite elem_of_app, !elem_of_cons in Hx. destruct Hx as [Hx|[->|[->|Hx]]]; cbn; try lia; [by apply Hout; left|by apply Hout; right].
      * intros m Hm x Hx. destruct (Helem x Hx) as [Hx'|[->| ->]]; [by apply Hm| |]; cbn;
          (assert (H0 := Hm (varea v)); cbn in H0; assert (~ vstart v < m < vend v) by (apply H0; rewrite areas_app; apply elem_of_app; right; left); lia).
  - exists (- ENOMEM), k, (V1 ++ v :: V2). split; [done|]. split; [done|]. split; [done|]. split; [done|]. by left.
Qed.

Lemma find_above_suffix a V :
  sorted 0 (areas V) -> exists W1 W2, V = W1 ++ W2 /\ default 0 (vptr <$> find_above a V) = vhead W2 /\
    (forall w, w ∈ W1 -> vend w <= a) /\ forall w, w ∈ W2 -> a < vend w.
Proof.
  intros HS. destruct (find_above a V) as [v|] eqn:Ef.
  - destruct (find_above_split _ _ _ Ef) as (V1 & V2 & -> & Hva & Hbef). exists V1, (v :: V2). splits; try done.
    rewrite areas_app in HS. apply sorted_app in HS as [_ (_ & _ & H)]. intros w [->|Hw]%elem_of_cons; [done|].
    destruct (sorted_elem _ _ _ H (areas_elem _ _ Hw)). cbn in *. lia.
  - exists V, []. rewrite app_nil_r. splits; try done; [by apply find_above_none|]. intros w Hw. by apply not_elem_of_nil in Hw.
Qed.

Lemma below_reflag s e g W1 W2 :
  sorted 0 (areas (W1 ++ W2)) -> (forall w, w ∈ W1 -> vend w <= s) -> (forall w, w ∈ W2 -> s < vend w) -> no_straddle s (areas (W1 ++ W2)) ->
  areas W1 ++ (below e g <$> areas W2) = reflag s e g <$> areas (W1 ++ W2).
Proof.
  intros HS H1 H2 Hn. rewrite areas_app, fmap_app. f_equal.
  - rewrite <- (list_fmap_id (areas W1)) at 1. apply list_fmap_ext. intros i x Hx. apply list_elem_of_lookup_2 in Hx.
    destruct (sorted_elem 0 (areas (W1 ++ W2)) x HS) as [_ Hlt]; [rewrite areas_app; apply elem_of_app; by left|].
    apply list_elem_of_fmap in Hx as (w & -> & Hw). specialize (H1 w Hw). unfold reflag. cbn in *. by rewrite (proj2 (Z.leb_gt _ _)) by lia.
  - apply list_fmap_ext. intros i x Hx. apply list_elem_of_lookup_2 in Hx.
    assert (Hx' : ~ a_start x < s < a_end x) by (apply Hn; rewrite areas_app; apply elem_of_app; by right).
    apply list_elem_of_fmap in Hx as (w & -> & Hw). specialize (H2 w Hw). unfold reflag, below. cbn in *. by rewrite (proj2 (Z.leb_le _ _)) by lia.
Qed.

(** The flags of the areas in the range are set, area by area. *)
Lemma protect_range k P R mm V t s e prot :
  mem_inv k P R mm V t -> no_straddle s (areas V) -> no_straddle e (areas V) ->
  exists k' V' t', (vma ← find_vma k mm s; mprotect_loop (vma_fuel k) k mm vma e prot) = Some k' /\ mem_inv k' P R mm V' t' /\ same_bytes k P R mm t k' t' /\
    forall a, space_at V' a = if decide (s <= a < e) then newflags prot <$> space_at V a else space_at V a.
Proof.
  intros HI Hs He. assert (HS := mi_sorted _ _ _ _ _ _ HI). assert (HR := me_areas _ _ _ _ _ _ (mi_mem _ _ _ _ _ _ HI)).
  rewrite (find_vma_rep k P R mm V s HR). cbn [mbind option_bind]. destruct (find_above_suffix s V HS) as (W1 & W2 & EV & -> & H1 & H2).
  assert (Hlen := rep_length HR). rewrite EV in *.
  destruct (protect_loop (vma_fuel k) k P R mm W1 W2 t e prot HI) as (k' & W2' & t' & E & HI' & Hb & EW); [rewrite length_app in Hlen; lia|].
  exists k', (W1 ++ W2'), t'. split; [done|]. split; [done|]. split; [done|]. intros a. unfold space_at. rewrite areas_app, EW.
  rewrite (below_reflag s e (newflags prot) W1 W2) by done. by apply (reflag_flags 0).
Qed.

Lemma mm_mprotect_spec k P R mm V t s e prot :
  mem_inv k P R mm V t -> page_range s e -> s < e ->
  exists r k' V' t', mm_mprotect k mm s e prot = Some (r, k') /\ mem_inv k' P R mm V' t' /\ same_bytes k P R mm t k' t' /\
    (forall va, uaddr va -> user_byte k' t' va = user_byte k t va) /\
    ((r = - ENOMEM /\ t' = t /\ forall a, space_at V' a = space_at V a) \/
     (r = 0 /\ (forall a, s <= a < e -> is_Some (space_at V a)) /\
      forall a, space_at V' a = if decide (s <= a < e) then newflags (linux_prot_to_map prot) <$> space_at V a else space_at V a)).
Proof.
  intros HI Hr Hse. destruct (HI) as [HM HS _ _ _]. assert (HR := me_areas _ _ _ _ _ _ HM). destruct (mem_nonzero k P R mm V t HM) as [Hm _].
  assert (Hbytes : forall k' V' t', mem_inv k' P R mm V' t' -> same_bytes k P R mm t k' t' -> forall va, uaddr va -> user_byte k' t' va = user_byte k t va).
  { intros k' V' t' HI' Hb va Hva. apply (byte_kept k P mm t k' P t'); [apply HI|apply HI'|apply Hb|by apply Hb]. }
  unfold mm_mprotect. rewrite (proj2 (Z.eqb_neq _ _) Hm), (proj2 (Z.leb_gt _ _) Hse). cbn [orb].
  destruct (mprotect_covered_rep k P R mm V s e HR HS) as (b & -> & Hb). cbn [mbind option_bind]. destruct b; cbn [negb].
  2:{ exists (- ENOMEM), k, V, t. split; [done|]. split; [done|]. split; [split; [apply released_refl|apply kept_refl|done]|]. split; [done|]. by left. }
  assert (Hcov := proj1 Hb eq_refl). clear Hb. rewrite (find_vma_rep k P R mm V s HR). cbn [mbind option_bind]. destruct Hr as (Hs0 & Htop & Hd1 & Hd2).
  destruct (mem_split k P R mm V t s s HI Hd1) as (r1 & k1 & V1 & -> & HI1 & Hb1 & Hsp1 & Hc1); [by left|]. cbn [mbind option_bind].
  destruct Hc1 as [->|(-> & Hn1 & _)].
  { exists (- ENOMEM), k1, V1, t. split; [done|]. split; [done|]. split; [done|]. split; [by apply (Hbytes k1 V1)|]. by left. }
  change (negb (0 =? 0)) with false. cbn iota. rewrite (proj2 (Z.eqb_neq e 0)) by lia. cbn [negb].
  rewrite (find_vma_rep k1 P R mm V1 (e - 1) (me_areas _ _ _ _ _ _ (mi_mem _ _ _ _ _ _ HI1))). cbn [mbind option_bind].
  destruct (mem_split k1 P R mm V1 t (e - 1) e HI1 Hd2) as (r2 & k2 & V2 & -> & HI2 & Hb2 & Hsp2 & Hc2); [by right|]. cbn [mbind option_bind].
  assert (Hb12 := same_bytes_trans _ _ _ _ _ _ _ _ _ Hb1 Hb2). destruct Hc2 as [->|(-> & Hn2 & Hk2)].
  { exists (- ENOMEM), k2, V2, t. split; [done|]. split; [done|]. split; [done|]. split; [by apply (Hbytes k2 V2)|]. left. splits; try done. intros a. by rewrite Hsp2, Hsp1. }
  change (negb (0 =? 0)) with false. cbn iota.
  destruct (protect_range k2 P R mm V2 t s e (linux_prot_to_map prot) HI2 (Hk2 _ Hn1) Hn2) as (k3 & V3 & t3 & E3 & HI3 & Hb3 & Hsp3).
  destruct (find_vma k2 mm s) as [vma|]; [|done]. cbn [mbind option_bind] in E3 |- *. rewrite E3. cbn [mbind option_bind].
  assert (Hb' := same_bytes_trans _ _ _ _ _ _ _ _ _ Hb12 Hb3). exists 0, k3, V3, t3. split; [done|]. split; [done|]. split; [done|]. split; [by apply (Hbytes k3 V3)|].
  right. split; [done|]. split; [done|]. intros a. rewrite Hsp3, Hsp2, Hsp1. done.
Qed.

(** C17: [mprotect] of a range of pages.  It fails with [-ENOMEM] when the range
    is not covered by areas, or when an area cannot be split, and then the
    address space is as before.  Otherwise exactly the range has the new
    protection, as areas and as entries, and no byte, mapping or reference
    count changes. *)
Theorem mm_mprotect_correct k P R mm V t s e prot :
  mem_inv k P R mm V t -> page_range s e -> s < e ->
  exists r k' V' t', mm_mprotect k mm s e prot = Some (r, k') /\ mem_inv k' P R mm V' t' /\ same_bytes k P R mm t k' t' /\
    (forall va, uaddr va -> user_byte k' t' va = user_byte k t va) /\
    ((r = - ENOMEM /\ t' = t /\ forall a, space_at V' a = space_at V a) \/
     (r = 0 /\ (forall a, s <= a < e -> is_Some (space_at V a)) /\
      forall a, space_at V' a = if decide (s <= a < e) then newflags (linux_prot_to_map prot) <$> space_at V a else space_at V a)).
Proof. apply mm_mprotect_spec. Qed.

(** The system call, for every address and length. *)
Lemma ksys_mprotect_spec k P R mm V t addr len prot :
  mem_inv k P R mm V t -> 0 <= addr < 2 ^ 64 -> 0 <= len < 2 ^ 64 ->
  exists r k' V' t', ksys_mprotect k mm addr len prot = Some (r, k') /\ mem_inv k' P R mm V' t' /\ same_bytes k P R mm t k' t'.
Proof.
  intros HI Ha Hl. destruct (mem_nonzero k P R mm V t (mi_mem _ _ _ _ _ _ HI)) as [Hm _]. unfold ksys_mprotect. rewrite (proj2 (Z.eqb_neq _ _) Hm).
  assert (Hid : forall r : Z, exists r' k' V' t', Some (r, k) = Some (r', k') /\ mem_inv k' P R mm V' t' /\ same_bytes k P R mm t k' t').
  { intros r. exists r, k, V, t. split; [done|]. split; [done|]. split; [apply released_refl|apply kept_refl|done]. }
  destruct (has addr (PAGE_SIZE - 1)) eqn:Eal; [done|]. destruct (has prot _); [done|]. destruct (Z.eqb_spec len 0); [done|].
  destruct (Z.ltb_spec (2 ^ 64 - 1 - (PAGE_SIZE - 1)) len) as [|Hle]; [done|]. destruct (page_align_spec len) as [Hd Hr]; [unfold PAGE_SIZE in *; lia|].
  set (nlen := page_align len) in *. destruct (Z.ltb_spec (2 ^ 64 - 1 - nlen) addr) as [|Hw]; [done|]. rewrite wrapu_id by lia.
  assert (Hda : (PAGE_SIZE | addr)).
  { apply Z.mod_divide; [done|]. destruct (decide (addr mod PAGE_SIZE = 0)) as [|D]; [done|]. by rewrite (page_unaligned_bits addr D) in Eal. }
  destruct (decide (addr + nlen <= USER_TOP)) as [D|D].
  - destruct (mm_mprotect_spec k P R mm V t addr (addr + nlen) prot HI) as (r & k' & V' & t' & E & H1 & H2 & _); [|lia|by exists r, k', V', t'].
    unfold page_range. splits; [lia|done|done|by apply Z.divide_add_r].
  - unfold mm_mprotect. rewrite (proj2 (Z.eqb_neq _ _) Hm), (proj2 (Z.leb_gt _ _)) by lia. cbn [orb].
    destruct (mprotect_covered_rep k P R mm V addr (addr + nlen) (me_areas _ _ _ _ _ _ (mi_mem _ _ _ _ _ _ HI)) (mi_sorted _ _ _ _ _ _ HI)) as (b & -> & Hb).
    cbn [mbind option_bind]. destruct b; [|apply Hid]. exfalso. destruct (proj1 Hb eq_refl (addr + nlen - 1) ltac:(lia)) as [f Hf].
    apply (flags_at_iff 0) in Hf as (x & Hx & Hh & _); [|apply HI]. destruct (mi_pages _ _ _ _ _ _ HI x Hx) as (_ & H2 & _). unfold holds in Hh. lia.
Qed.

(** ** The break *)

(** The heap is one area from [start_brk] to the page of the break. *)
Definition heap_ok (k : slub) (mm : Z) (V : list vma) : Prop :=
  let s := rd k (mm + MM_start_brk) in
  let b := rd k (mm + MM_brk) in
  0 <= s /\ (PAGE_SIZE | s) /\ s <= b < USER_TOP /\
  match find_start s V with Some v => vend v = page_align b | None => b = s end.

(** The flags of the heap. *)
Definition heap_flags (s : Z) (V : list vma) : Z :=
  match find_start s V with Some v => vflags v | None => Z.lor MAP_PROT_READ MAP_PROT_WRITE end.

Lemma page_align_mono x y : 0 <= x <= y -> y < USER_TOP -> page_align x <= page_align y.
Proof.
  intros Hxy Hy. destruct (page_align_spec x) as [[m Em] H1]; [unfold USER_TOP, PAGE_SIZE in *; lia|].
  destruct (page_align_spec y) as [[n En] H2]; [unfold USER_TOP, PAGE_SIZE in *; lia|]. rewrite Em, En in *. unfold PAGE_SIZE in *. lia.
Qed.

Lemma page_align_id x : 0 <= x < USER_TOP -> (PAGE_SIZE | x) -> page_align x = x.
Proof.
  intros Hx [m Em]. destruct (page_align_spec x) as [[n En] H2]; [unfold USER_TOP, PAGE_SIZE in *; lia|]. rewrite Em, En in *. unfold PAGE_SIZE in *. lia.
Qed.

Lemma page_align_top x : 0 <= x < USER_TOP -> (PAGE_SIZE | page_align x) /\ x <= page_align x <= USER_TOP.
Proof.
  intros Hx. destruct (page_align_spec x) as [[n En] H2]; [unfold USER_TOP, PAGE_SIZE in *; lia|]. split; [by exists n|]. rewrite En in *.
  unfold PAGE_SIZE in *. change USER_TOP with (2 ^ 27 * 4096) in *. lia.
Qed.

Lemma hole_flags lo A x B a : sorted lo (A ++ x :: B) -> holds a x -> flags_at (A ++ B) a = None.
Proof.
  intros HS Ha. assert (HS' := HS). rewrite sorted_app in HS'. destruct HS' as (H1 & H2 & H3 & H4).
  assert (HB : sorted lo (A ++ B)) by (rewrite sorted_app; split; [done|]; eapply sorted_mono; [|exact H4]; lia).
  apply (flags_at_none lo _ _ HB). intros y [Hy|Hy]%elem_of_app; unfold holds in *.
  - assert (Hle := sorted_elem_end _ _ _ H1 Hy). lia.
  - destruct (sorted_elem _ _ _ H4 Hy). lia.
Qed.

(** The end of an area moves, over a range without areas or pages. *)
Lemma move_end k P R mm V1 v V2 t e :
  mem_inv k P R mm (V1 ++ v :: V2) t -> vstart v < e -> page_range (vstart v) e ->
  (forall w, w ∈ V2 -> e <= vstart w) -> (forall va, uaddr va -> e <= va < vend v -> leaf_at t va = None) ->
  let v' := mkVma (vptr v) (vstart v) e (vflags v) in
  let k' := wr k (vptr v + VM_end) e in
  mem_inv k' P R mm (V1 ++ v' :: V2) t /\ mm_frame k k' P R mm /\
  forall a, space_at (V1 ++ v' :: V2) a =
    if decide (vstart v <= a < e) then Some (vflags v) else if decide (e <= a < vend v) then None else space_at (V1 ++ v :: V2) a.
Proof.
  intros [HM HS Hpg Hb Hpr] Hlt Hr Hafter Hun v' k'. assert (HR := me_areas _ _ _ _ _ _ HM).
  destruct (rep_elem _ _ _ _ _ _ _ HR) as (Hz & C1 & C2 & C3).
  destruct (rep_set_field k P R mm V1 v V2 v' VM_end e HR) as [HR1 Hf]; [by vm_compute|done| |].
  { unfold vcells, v'. cbn [vptr vstart vend vflags]. unfold VM_start, VM_end, VM_flags in *. splits; [by rewrite rd_wr_ne by lia|by rewrite rd_wr_eq|by rewrite rd_wr_ne by lia]. }
  fold k' in HR1, Hf. rewrite areas_app in HS. change (areas (v :: V2)) with (varea v :: areas V2) in HS.
  assert (HS' : sorted 0 (areas V1 ++ varea v' :: areas V2)).
  { rewrite sorted_app in *. destruct HS as (H1 & H2 & H3 & H4). cbn in H2, H3, H4 |- *. splits; try done. destruct V2 as [|w V2]; [done|].
    cbn in H4 |- *. destruct H4 as (_ & H5 & H6). splits; try done. apply Hafter. left. }
  assert (HB : sorted 0 (areas V1 ++ areas V2)).
  { rewrite sorted_app in *. destruct HS as (H1 & H2 & H3 & H4). split; [done|]. eapply sorted_mono; [|exact H4]. cbn in *. lia. }
  assert (Hsp : forall a, space_at (V1 ++ v' :: V2) a =
    if decide (vstart v <= a < e) then Some (vflags v) else if decide (e <= a < vend v) then None else space_at (V1 ++ v :: V2) a).
  { intros a. unfold space_at. rewrite !areas_app. change (areas (v :: V2)) with (varea v :: areas V2). change (areas (v' :: V2)) with (varea v' :: areas V2).
    rewrite (insert_flags 0 _ _ _ a HS' HB), (insert_flags 0 _ _ _ a HS HB). cbn. case_decide as D1; [done|]. case_decide as D2; [|by rewrite decide_False by lia].
    by apply (hole_flags 0 _ (varea v)); [|split; cbn; lia]. }
  split; [|done]. split.
  - by apply (mem_frame k k' P R mm (V1 ++ v :: V2)).
  - by rewrite areas_app.
  - intros x Hx. rewrite areas_app in Hx. apply elem_of_app in Hx as [Hx|Hx].
    + apply Hpg. rewrite areas_app. apply elem_of_app. by left.
    + apply elem_of_cons in Hx as [->|Hx]; [exact Hr|]. apply Hpg. rewrite areas_app. apply elem_of_app. right. by right.
  - intros va x Hva Hx. destruct (Hb va x Hva Hx) as (f & Hf' & Hm). rewrite Hsp. case_decide as D1; [|case_decide as D2; [by rewrite (Hun va Hva D2) in Hx|by exists f]].
    destruct (decide (va < vend v)) as [D2|D2].
    + assert (f = vflags v) as ->; [|by exists (vflags v)]. unfold space_at in Hf'. rewrite areas_app in Hf'. change (areas (v :: V2)) with (varea v :: areas V2) in Hf'.
      rewrite (insert_flags 0 _ _ _ va HS HB) in Hf'. cbn in Hf'. rewrite decide_True in Hf' by lia. congruence.
    + exfalso. assert (Hn : flags_at (areas V1 ++ areas V2) va = None) by (apply (hole_flags 0 _ (varea v') _ va HS'); split; cbn; lia).
      unfold space_at in Hf'. rewrite areas_app in Hf'. change (areas (v :: V2)) with (varea v :: areas V2) in Hf'.
      rewrite (insert_flags 0 _ _ _ va HS HB) in Hf'. cbn in Hf'. rewrite decide_False in Hf' by lia. congruence.
  - by apply (private_frame k k' P R mm); [apply HM| |].
Qed.

Lemma drop_area k P R mm V1 v V2 t :
  mem_inv k P R mm (V1 ++ v :: V2) t -> (forall va, uaddr va -> vstart v <= va < vend v -> leaf_at t va = None) ->
  exists k1 k2, remove_vma k mm (vptr v) = Some (0, k1) /\ kmem_cache_free k1 vma_cache (vptr v) = Some k2 /\
    mem_inv k2 P R mm (V1 ++ V2) t /\ mm_frame k k2 P R mm /\
    forall a, space_at (V1 ++ V2) a = if decide (vstart v <= a < vend v) then None else space_at (V1 ++ v :: V2) a.
Proof.
  intros [HM HS Hpg Hb Hpr] Hun. destruct (discard_rep k P R mm V1 v V2 (me_areas _ _ _ _ _ _ HM)) as (k1 & k2 & E1 & E2 & HR & Hf).
  rewrite areas_app in HS. change (areas (v :: V2)) with (varea v :: areas V2) in HS.
  assert (HB : sorted 0 (areas V1 ++ areas V2)).
  { rewrite sorted_app in *. destruct HS as (H1 & H2 & H3 & H4). split; [done|]. eapply sorted_mono; [|exact H4]. cbn in *. lia. }
  assert (Hsp : forall a, space_at (V1 ++ V2) a = if decide (vstart v <= a < vend v) then None else space_at (V1 ++ v :: V2) a).
  { intros a. unfold space_at. rewrite !areas_app. change (areas (v :: V2)) with (varea v :: areas V2). case_decide as D.
    - by apply (hole_flags 0 _ (varea v)); [|split; cbn; lia].
    - rewrite (insert_flags 0 _ _ _ a HS HB). cbn. by rewrite decide_False by lia. }
  exists k1, k2. split; [done|]. split; [done|]. split; [|done]. split.
  - by apply (mem_frame k k2 P R mm (V1 ++ v :: V2)).
  - by rewrite areas_app.
  - intros x Hx. apply Hpg. rewrite !areas_app in *. apply elem_of_app in Hx as [Hx|Hx]; apply elem_of_app; [by left|right; by right].
  - intros va x Hva Hx. rewrite Hsp. case_decide as D; [by rewrite (Hun va Hva D) in Hx|by apply Hb].
  - by apply (private_frame k k2 P R mm); [apply HM| |].
Qed.

Lemma mem_inv_unmap k P R mm V t s e :
  mem_inv k P R mm V t -> page_range s e ->
  exists k' P' t', unmap_range k mm s e = Some k' /\ mem_inv k' P' R mm V t' /\ released k P t k' P' t' /\ objs_kept k k' (vobjs V ∪ R) /\
    forall va, uaddr va -> leaf_at t' va = if decide (s <= va < e) then None else leaf_at t va.
Proof.
  intros [HM HS Hpg Hb Hpr] Hr. destruct (mem_unmap_range k P R mm V t s e HM Hr) as (k' & P' & t' & E & HM' & Hrl & Ho & Hl).
  exists k', P', t'. split; [done|]. split; [|done]. split; try done.
  - intros va x Hva Hx. rewrite Hl in Hx by done. case_decide; [done|by apply Hb].
  - apply (private_released k P mm t k' P' t'); [apply HM|apply HM'|done|done|]. intros va x Hva Hx. rewrite Hl in Hx by done. by case_decide.
Qed.

(** What [do_brk] promises when it moves the break to [b]. *)
Record brk_moved (k : slub) (P R : gmap Z Z) (mm : Z) (V : list vma) (t : tree 3) (b : Z)
    (k' : slub) (P' : gmap Z Z) (V' : list vma) (t' : tree 3) : Prop := {
  bm_inv : mem_inv k' P' R mm V' t';
  bm_rel : released k P t k' P' t';
  bm_kept : kept k k' R [mm + MM_mmap; mm + MM_brk];
  bm_brk : rd k' (mm + MM_brk) = b;
  bm_heap : heap_ok k' mm V';
  bm_areas : let s := rd k (mm + MM_start_brk) in
    forall a, space_at V' a =
      if decide (s <= a < page_align b) then Some (heap_flags s V)
      else if decide (page_align b <= a < page_align (rd k (mm + MM_brk))) then None else space_at V a;
  bm_bytes : forall va, uaddr va -> user_byte k' t' va =
      if decide (page_align b <= va < page_align (rd k (mm + MM_brk))) then None else user_byte k t va
}.

(** The last step: the break is written. *)
Lemma brk_finish k P R mm V t b k1 P1 V1 t1 :
  mem_inv k P R mm V t -> mem_inv k1 P1 R mm V1 t1 -> released k P t k1 P1 t1 -> kept k k1 R [mm + MM_mmap] ->
  let s := rd k (mm + MM_start_brk) in let b0 := rd k (mm + MM_brk) in
  0 <= s /\ (PAGE_SIZE | s) /\ s <= b < USER_TOP ->
  match find_start s V1 with Some v => vend v = page_align b | None => b = s end ->
  (forall a, space_at V1 a = if decide (s <= a < page_align b) then Some (heap_flags s V)
      else if decide (page_align b <= a < page_align b0) then None else space_at V a) ->
  (forall va, uaddr va -> leaf_at t1 va = if decide (page_align b <= va < page_align b0) then None else leaf_at t va) ->
  brk_moved k P R mm V t b (wr k1 (mm + MM_brk) b) P1 V1 t1.
Proof.
  intros HI HI1 Hr Hk s b0 Hb Hh Hsp Hl. destruct (mem_inv_field k1 P1 R mm V1 t1 MM_brk b HI1) as (HI2 & Hr2 & Hk2); [by vm_compute..|].
  set (k2 := wr k1 (mm + MM_brk) b) in *. assert (Hr' : released k P t k2 P1 t1) by (by eapply released_trans).
  assert (Es : rd k2 (mm + MM_start_brk) = s).
  { unfold k2. rewrite rd_wr_ne by (unfold MM_brk, MM_start_brk; lia). apply (kept_mm k k1 P R mm V t [mm + MM_mmap]); [apply HI|done|by vm_compute|].
    intros Hin%list_elem_of_singleton. unfold MM_start_brk, MM_mmap in Hin. lia. }
  assert (Eb : rd k2 (mm + MM_brk) = b) by apply rd_wr_eq. split; try done.
  - eapply kept_trans; [eapply kept_weaken; [|exact Hk]|eapply kept_weaken; [|exact Hk2]]; intros x ->%list_elem_of_singleton; [left|right; left].
  - unfold heap_ok. rewrite Es, Eb. destruct Hb as (? & ? & ?). split; [done|]. split; [done|]. by split.
  - intros va Hva. specialize (Hl va Hva). fold b0. case_decide; [unfold user_byte; by rewrite Hl|].
    apply (byte_kept k P mm t k2 P1 t1); [apply HI|apply HI2|done|by rewrite Hl].
Qed.

Lemma find_start_mid V1 v V2 v' :
  sorted 0 (areas (V1 ++ v :: V2)) -> vstart v' = vstart v ->
  find_start (vstart v) (V1 ++ v' :: V2) = Some v' /\ find_start (vstart v) (V1 ++ V2) = None.
Proof.
  intros HS Ev. rewrite areas_app in HS. apply sorted_app in HS as [H1 (H2 & H3 & H4)]. cbn in H2, H3, H4.
  assert (Hlt : forall w, w ∈ V1 -> vstart w < vstart v).
  { intros w Hw. assert (Hw' := areas_elem _ _ Hw). assert (He := sorted_elem_end _ _ _ H1 Hw'). destruct (sorted_elem _ _ _ H1 Hw'). cbn in *. lia. }
  assert (Hgt : forall w, w ∈ V2 -> vstart v < vstart w).
  { intros w Hw. destruct (sorted_elem _ _ _ H4 (areas_elem _ _ Hw)). cbn in *. lia. }
  clear H1 H2 H3 H4. induction V1 as [|w V1 IH]; cbn [app find_start].
  - rewrite Ev, Z.eqb_refl. split; [done|]. induction V2 as [|u V2 IH2]; [done|]. cbn. specialize (Hgt u ltac:(left)) as Hu.
    rewrite (proj2 (Z.eqb_neq _ _)) by lia. apply IH2. intros x Hx. apply Hgt. by right.
  - specialize (Hlt w ltac:(left)) as Hw. rewrite (proj2 (Z.eqb_neq _ _)) by lia. apply IH. intros x Hx. apply Hlt. by right.
Qed.

Lemma area_flags V1 v V2 a :
  sorted 0 (areas (V1 ++ v :: V2)) -> vstart v <= a < vend v -> space_at (V1 ++ v :: V2) a = Some (vflags v).
Proof.
  intros HS Ha. apply (flags_at_iff 0); [done|]. exists (varea v). split; [|split; [exact Ha|done]].
  rewrite areas_app. apply elem_of_app. right. left.
Qed.

Lemma mem_record_any k P R mm V t s e f :
  mem_inv k P R mm V t -> page_range s e -> s < e ->
  exists r k', vma_record k mm s e f = Some (r, k') /\
    ((r < 0 /\ mem_inv k' P R mm V t /\ mm_frame k k' P R mm /\ (no_block k 0 \/ exists a, s <= a < e /\ is_Some (space_at V a))) \/
     (r = 0 /\ exists V', mem_inv k' P R mm V' t /\ mm_frame k k' P R mm /\
        (forall a, space_at V' a = if decide (s <= a < e) then Some f else space_at V a) /\
        exists V1 V2 n, V = V1 ++ V2 /\ V' = V1 ++ mkVma n s e f :: V2)).
Proof.
  intros HI Hr Hse. destruct (HI) as [HM HS Hpg Hb Hpr]. destruct (mem_nonzero _ _ _ _ _ _ HM) as [Hm _].
  destruct (vma_record_rep k P R mm V s e f (me_areas _ _ _ _ _ _ HM) HS Hm ltac:(apply Hr))
    as (r & k' & E & Hf & [(-> & _ & V1 & V2 & n & -> & _ & HS')|[(-> & HR' & Hov)|(-> & -> & Hnb)]]).
  - destruct (mem_record k P R mm (V1 ++ V2) t s e f HI Hr Hse) as (r2 & k2 & E2 & Hc).
    { intros a Ha. unfold space_at. rewrite areas_app in *. cbn [areas fmap list_fmap] in HS'. by apply (hole_flags 0 _ (varea (mkVma n s e f))). }
    rewrite E in E2. injection E2 as <- <-. exists 0, k'. split; [done|]. right. destruct Hc as [[? _]|Hc]; [done|exact Hc].
  - exists (- EINVAL), k'. split; [done|]. left. split; [done|]. split; [|split; [done|right; destruct Hov as [?|Hov]; [lia|exact Hov]]].
    split; try done; [by apply (mem_frame k k' P R mm V)|by apply (private_frame k k' P R mm); [apply HM| |]].
  - exists (- ENOMEM), k. split; [done|]. left. split; [done|]. split; [done|]. split; [apply mm_frame_refl|by left].
Qed.

(** Why the break is not moved up: the area or the memory for it is missing, or
    another area is in the way. *)
Definition brk_blocked (k : slub) (mm : Z) (V : list vma) (b : Z) : Prop :=
  no_block k 0 \/ exists a, page_align (rd k (mm + MM_brk)) <= a < page_align b /\ is_Some (space_at V a).

Lemma next_guard k P R mm V1 v V2 e :
  mm_rep k P R mm (V1 ++ v :: V2) -> sorted 0 (areas (V1 ++ v :: V2)) ->
  negb (vhead V2 =? 0) && (rd k (vhead V2 + VM_start) <? e) = false -> forall w, w ∈ V2 -> e <= vstart w.
Proof.
  intros HR HS G w Hw. destruct V2 as [|u V2]; [by apply not_elem_of_nil in Hw|]. rewrite cons_middle, app_assoc in HR.
  destruct (rep_elem _ _ _ _ _ _ _ HR) as (Hz & C1 & _). cbn [vhead] in G. rewrite (proj2 (Z.eqb_neq _ _) Hz), C1 in G. cbn [negb andb] in G.
  apply Z.ltb_ge in G. rewrite areas_app in HS. apply sorted_app in HS as [_ (_ & _ & H)]. cbn in H. destruct H as (_ & H2 & H3).
  apply elem_of_cons in Hw as [->|Hw]; [done|]. destruct (sorted_elem _ _ _ H3 (areas_elem _ _ Hw)). cbn in *. lia.
Qed.

Lemma next_blocks k P R mm V1 v V2 e :
  mm_rep k P R mm (V1 ++ v :: V2) -> sorted 0 (areas (V1 ++ v :: V2)) ->
  negb (vhead V2 =? 0) && (rd k (vhead V2 + VM_start) <? e) = true -> exists a, vend v <= a < e /\ is_Some (space_at (V1 ++ v :: V2) a).
Proof.
  intros HR HS G. destruct V2 as [|u V2]; [done|]. rewrite cons_middle, app_assoc in *.
  destruct (rep_elem _ _ _ _ _ _ _ HR) as (Hz & C1 & _). cbn [vhead] in G. rewrite C1 in G. apply andb_true_iff in G as [_ G%Z.ltb_lt].
  assert (HS' := HS). rewrite areas_app in HS'. apply sorted_app in HS' as [H1 (H2 & H3 & _)]. cbn in H2, H3.
  assert (H4 := sorted_elem_end _ _ (varea v) H1 (areas_elem (V1 ++ [v]) v ltac:(set_solver))). cbn in H4.
  exists (vstart u). split; [lia|]. rewrite (area_flags (V1 ++ [v]) u V2 (vstart u) HS); [done|lia].
Qed.

Lemma brk_raise_spec k P R mm V t b :
  mem_inv k P R mm V t -> heap_ok k mm V -> rd k (mm + MM_brk) < b < USER_TOP ->
  exists r k', brk_raise k mm (default 0 (vptr <$> find_start (rd k (mm + MM_start_brk)) V)) (rd k (mm + MM_brk)) b = Some (r, k') /\
    ((r = s64 (rd k (mm + MM_brk)) /\ mem_inv k' P R mm V t /\ mm_frame k k' P R mm /\ brk_blocked k mm V b) \/
     (r = s64 b /\ exists P' V' t', brk_moved k P R mm V t b k' P' V' t')).
Proof.
  intros HI (Hs0 & Hsd & Hsb & Hh) Hb. set (s := rd k (mm + MM_start_brk)) in *. set (b0 := rd k (mm + MM_brk)) in *.
  destruct (page_align_top b) as [Hd Hle]; [lia|]. assert (Hmono := page_align_mono b0 b ltac:(lia) ltac:(lia)).
  assert (Hr : page_range s (page_align b)) by (split; [done|split; [lia|by split]]). assert (HS := mi_sorted _ _ _ _ _ _ HI).
  destruct (find_start s V) as [v|] eqn:Ef; unfold brk_raise; cbn [fmap option_fmap option_map default from_option id].
  - destruct (find_start_split s V v Ef) as (V1 & V2 & EV & Es). rewrite EV in HI, HS. assert (HR := me_areas _ _ _ _ _ _ (mi_mem _ _ _ _ _ _ HI)).
    destruct (rep_elem _ _ _ _ _ _ _ HR) as (Hz & C1 & C2 & C3). rewrite (proj2 (Z.eqb_neq _ _) Hz), (rep_next _ _ _ _ _ _ _ HR), C2. cbn [negb andb].
    subst V. destruct (negb (vhead V2 =? 0) && (rd k (vhead V2 + VM_start) <? page_align b)) eqn:G.
    { eexists _, _. split; [done|]. left. split; [done|]. split; [done|]. split; [apply mm_frame_refl|]. right. fold b0. rewrite <- Hh.
      exact (next_blocks _ _ _ _ _ _ _ _ HR HS G). }
    assert (Hnext := next_guard _ _ _ _ _ _ _ _ HR HS G). eexists _, _. split; [done|]. right. split; [done|].
    assert (Hsp0 := fun a Ha => area_flags V1 v V2 a HS Ha). rewrite Hh, Es in *.
    destruct (Z.ltb_spec (page_align b0) (page_align b)) as [Hlt|Hge].
    + destruct (move_end k P R mm V1 v V2 t (page_align b) HI) as (HI1 & Hf & Hsp); rewrite ?Es, ?Hh; try done; [lia|intros; lia|].
      rewrite Es, Hh in *. set (v' := mkVma (vptr v) s (page_align b) (vflags v)) in *. exists P, (V1 ++ v' :: V2), t.
      apply brk_finish; fold s; fold b0; try done.
      * by eapply frame_released.
      * by eapply frame_kept.
      * split; [done|split; [done|lia]].
      * assert (Hfs := proj1 (find_start_mid V1 v V2 v' HS ltac:(done))). rewrite Es in Hfs. by rewrite Hfs.
      * intros a. rewrite Hsp. unfold heap_flags. rewrite Ef. case_decide; [done|]. rewrite !decide_False by lia. done.
      * intros va Hva. rewrite decide_False; [done|]. lia.
    + exists P, (V1 ++ v :: V2), t. apply brk_finish; fold s; fold b0; try done.
      * apply released_refl.
      * split; [done|split; [done|lia]].
      * rewrite Ef. lia.
      * intros a. unfold heap_flags. rewrite Ef. case_decide; [apply Hsp0; lia|]. by rewrite decide_False by lia.
      * intros va Hva. rewrite decide_False; [done|]. lia.
  - change (negb (0 =? 0)) with false. cbn [andb]. change (0 =? 0) with true. cbn iota. fold s.
    destruct (mem_record_any k P R mm V t s (page_align b) (Z.lor MAP_PROT_READ MAP_PROT_WRITE) HI Hr ltac:(lia)) as (r & k1 & -> & [(Hr1 & HI1 & Hf & Hbl)|(-> & V' & HI1 & Hf & Hsp & V1 & V2 & n & EV & ->)]);
      cbn [mbind option_bind].
    { rewrite (proj2 (Z.ltb_lt _ _) Hr1). eexists _, _. split; [done|]. left. split; [done|]. split; [done|]. split; [done|].
      unfold brk_blocked. fold b0. rewrite Hh, page_align_id by (done || lia). exact Hbl. }
    change (0 <? 0) with false. cbn iota. eexists _, _. split; [done|]. right. split; [done|]. exists P, (V1 ++ mkVma n s (page_align b) (Z.lor MAP_PROT_READ MAP_PROT_WRITE) :: V2), t.
    apply brk_finish; fold s; fold b0; try done.
    + by eapply frame_released.
    + by eapply frame_kept.
    + split; [done|split; [done|lia]].
    + assert (Hfs := proj1 (find_start_mid V1 _ V2 _ (mi_sorted _ _ _ _ _ _ HI1) eq_refl)). cbn [vstart] in Hfs. by rewrite Hfs.
    + intros a. rewrite Hsp. unfold heap_flags. rewrite Ef. case_decide; [done|]. rewrite decide_False; [done|]. lia.
    + intros va Hva. rewrite decide_False; [done|]. lia.
Qed.

Lemma brk_lower_spec k P R mm V t b :
  mem_inv k P R mm V t -> heap_ok k mm V -> rd k (mm + MM_start_brk) <= b < rd k (mm + MM_brk) ->
  exists k', brk_lower k mm (default 0 (vptr <$> find_start (rd k (mm + MM_start_brk)) V)) (rd k (mm + MM_brk)) b = Some (s64 b, k') /\
    exists P' V' t', brk_moved k P R mm V t b k' P' V' t'.
Proof.
  intros HI (Hs0 & Hsd & Hsb & Hh) Hb. set (s := rd k (mm + MM_start_brk)) in *. set (b0 := rd k (mm + MM_brk)) in *.
  destruct (page_align_top b) as [Hd Hle]; [lia|]. assert (Hmono := page_align_mono b b0 ltac:(lia) ltac:(lia)).
  destruct (page_align_top b0) as [Hd0 Hle0]; [lia|]. assert (HS := mi_sorted _ _ _ _ _ _ HI).
  destruct (find_start s V) as [v|] eqn:Ef; [|lia]. cbn [fmap option_fmap option_map default from_option id]. unfold brk_lower.
  destruct (mem_inv_unmap k P R mm V t (page_align b) (page_align b0) HI) as (k1 & P1 & t1 & -> & HI1 & Hr1 & Ho1 & Hl1); [split; [lia|split; [lia|by split]]|].
  cbn [mbind option_bind]. destruct (find_start_split s V v Ef) as (V1 & V2 & -> & Es).
  assert (HR := me_areas _ _ _ _ _ _ (mi_mem _ _ _ _ _ _ HI1)). destruct (rep_elem _ _ _ _ _ _ _ HR) as (Hz & C1 & C2 & C3).
  assert (Hk1 : kept k k1 R [mm + MM_mmap]) by (by eapply objs_kept_kept; [apply (me_areas _ _ _ _ _ _ (mi_mem _ _ _ _ _ _ HI))|]).
  assert (Hsp0 := fun a Ha => area_flags V1 v V2 a HS Ha). rewrite (proj2 (Z.eqb_neq _ _) Hz), C1. rewrite Hh, Es in *.
  assert (Hafter : forall w, w ∈ V2 -> page_align b0 <= vstart w).
  { intros w Hw. rewrite areas_app in HS. apply sorted_app in HS as [_ (_ & _ & H)]. destruct (sorted_elem _ _ _ H (areas_elem _ _ Hw)). cbn in *. lia. }
  destruct (Z.leb_spec (page_align b) s) as [Hz'|Hnz].
  - assert (b = s) as Ebs by lia. assert (page_align b = s) as Eps by lia.
    destruct (drop_area k1 P1 R mm V1 v V2 t1 HI1) as (k2 & k3 & E2 & E3 & HI3 & Hf3 & Hsp3).
    { intros va Hva Hr. rewrite Es, Hh in Hr. rewrite Hl1, decide_True by (done || lia). done. }
    rewrite E2. cbn [mbind option_bind]. rewrite E3. cbn [mbind option_bind]. eexists. split; [done|]. exists P1, (V1 ++ V2), t1.
    apply brk_finish; fold s; fold b0; try done.
    + eapply released_trans; [done|by eapply frame_released].
    + eapply kept_trans; [done|by eapply frame_kept].
    + split; [done|split; [done|lia]].
    + assert (Hfs := proj2 (find_start_mid V1 v V2 v HS eq_refl)). rewrite Es in Hfs. by rewrite Hfs.
    + intros a. rewrite Hsp3, Es, Hh, Eps. rewrite (decide_False (P := s <= a < s)) by lia. done.
  - destruct (move_end k1 P1 R mm V1 v V2 t1 (page_align b) HI1) as (HI2 & Hf2 & Hsp2); rewrite ?Es, ?Hh; try done.
    { split; [done|split; [lia|by split]]. }
    { intros w Hw. specialize (Hafter w Hw). lia. }
    { intros va Hva Hr. by rewrite Hl1, decide_True by done. }
    rewrite Es, Hh in *. set (v' := mkVma (vptr v) s (page_align b) (vflags v)) in *. eexists. split; [done|]. exists P1, (V1 ++ v' :: V2), t1.
    apply brk_finish; fold s; fold b0; try done.
    + eapply released_trans; [done|by eapply frame_released].
    + eapply kept_trans; [done|by eapply frame_kept].
    + split; [done|split; [done|lia]].
    + assert (Hfs := proj1 (find_start_mid V1 v V2 v' HS ltac:(done))). rewrite Es in Hfs. by rewrite Hfs.
    + intros a. rewrite Hsp2. unfold heap_flags. by rewrite Ef.
Qed.

(** When the call returns the break that there was. *)
Definition brk_refused (k : slub) (mm : Z) (V : list vma) (b : Z) : Prop :=
  b < rd k (mm + MM_start_brk) \/ rd k (mm + MM_stack_top) - USER_STACK_SIZE <= b \/ b = rd k (mm + MM_brk) \/
  (rd k (mm + MM_brk) < b /\ brk_blocked k mm V b).

Lemma do_brk_spec k P R mm V t newbrk :
  mem_inv k P R mm V t -> heap_ok k mm V -> USER_STACK_SIZE < rd k (mm + MM_stack_top) <= USER_TOP -> 0 <= newbrk ->
  exists r k', do_brk k mm newbrk = Some (r, k') /\
    ((r = rd k (mm + MM_brk) /\ brk_refused k mm V newbrk /\ mem_inv k' P R mm V t /\ mm_frame k k' P R mm) \/
     (r = newbrk /\ rd k (mm + MM_start_brk) <= newbrk < rd k (mm + MM_stack_top) - USER_STACK_SIZE /\
      exists P' V' t', brk_moved k P R mm V t newbrk k' P' V' t')).
Proof.
  intros HI Hh Hst H0. destruct (mem_nonzero k P R mm V t (mi_mem _ _ _ _ _ _ HI)) as [Hm Hpgd]. assert (Hh' := Hh). destruct Hh' as (Hs0 & _ & Hsb & _).
  unfold do_brk. rewrite (proj2 (Z.eqb_neq _ _) Hm), (proj2 (Z.eqb_neq _ _) Hpgd), (proj2 (Z.eqb_neq (rd k (mm + MM_stack_top)) 0)) by (unfold USER_STACK_SIZE in *; lia).
  cbn [orb negb]. rewrite wrapu_id by (unfold USER_STACK_SIZE, USER_TOP in *; lia). rewrite (proj2 (Z.eqb_neq (_ - _) 0)) by lia. cbn [negb andb].
  assert (Es : forall x, 0 <= x < USER_TOP -> s64 x = x) by (intros x Hx; apply wraps_id; unfold USER_TOP in *; lia).
  assert (Hold : brk_refused k mm V newbrk -> exists r k', Some (s64 (rd k (mm + MM_brk)), k) = Some (r, k') /\
     ((r = rd k (mm + MM_brk) /\ brk_refused k mm V newbrk /\ mem_inv k' P R mm V t /\ mm_frame k k' P R mm) \/
     (r = newbrk /\ rd k (mm + MM_start_brk) <= newbrk < rd k (mm + MM_stack_top) - USER_STACK_SIZE /\ exists P' V' t', brk_moved k P R mm V t newbrk k' P' V' t'))).
  { intros Hrf. eexists _, _. split; [done|]. left. rewrite Es by lia. split; [done|]. split; [done|]. split; [done|apply mm_frame_refl]. }
  destruct (Z.ltb_spec newbrk (rd k (mm + MM_start_brk))) as [|Hge]; [apply Hold; by left|].
  destruct (Z.leb_spec (rd k (mm + MM_stack_top) - USER_STACK_SIZE) newbrk) as [|Hlt]; [apply Hold; right; by left|].
  cbn [orb]. destruct (Z.eqb_spec newbrk (rd k (mm + MM_brk))) as [|Hne]; [apply Hold; right; right; by left|]. clear Hold.
  rewrite (find_heap_vma_rep k P R mm V (me_areas _ _ _ _ _ _ (mi_mem _ _ _ _ _ _ HI))). cbn [mbind option_bind].
  destruct (Z.ltb_spec (rd k (mm + MM_brk)) newbrk) as [Hup|Hdn].
  - destruct (brk_raise_spec k P R mm V t newbrk HI Hh) as (r & k' & -> & [(-> & HI' & Hf & Hbl)|(-> & Hmv)]); [unfold USER_STACK_SIZE in *; lia| |]; eexists _, _; (split; [done|]).
    + left. rewrite Es by lia. split; [done|]. split; [|done]. by do 3 right.
    + right. rewrite Es by (unfold USER_STACK_SIZE in *; lia). done.
  - destruct (brk_lower_spec k P R mm V t newbrk HI Hh) as (k' & -> & Hmv); [lia|]. eexists _, _. split; [done|]. right. rewrite Es by lia. done.
Qed.

(** C18: [do_brk] of a process that has a stack and whose heap is one area, from
    [start_brk] to the page of the break, as [exec] makes it and [do_brk] keeps
    it: a heap that mprotect or munmap has split is not covered.  The call
    moves the break or leaves everything as it is.  When it returns the new
    break, the heap is again one area, exactly the pages from [start_brk] to
    the break, with the flags it had; pages given up are unmapped and lose
    their reference, and every other area, mapping and byte is as before.  It
    returns the old break only for a break below the start of the heap, one at
    the stack, the old one, or when another area or a lack of memory is in the
    way. *)
Theorem do_brk_correct k P R mm V t newbrk :
  mem_inv k P R mm V t -> heap_ok k mm V -> USER_STACK_SIZE < rd k (mm + MM_stack_top) <= USER_TOP -> 0 <= newbrk ->
  exists r k', do_brk k mm newbrk = Some (r, k') /\
    ((r = rd k (mm + MM_brk) /\ brk_refused k mm V newbrk /\ mem_inv k' P R mm V t /\ mm_frame k k' P R mm) \/
     (r = newbrk /\ rd k (mm + MM_start_brk) <= newbrk < rd k (mm + MM_stack_top) - USER_STACK_SIZE /\
      exists P' V' t', brk_moved k P R mm V t newbrk k' P' V' t')).
Proof. apply do_brk_spec. Qed.
