(* ===== verification/Isolation.v ===== *)
(** * Processes do not interfere

    Two address spaces in one memory may share pages, as after a fork.  What
    one of them does, calls and stores of user code alike, leaves the areas,
    the tables and every byte of the other as they are: shared pages are
    never writable, and they stay in use as long as someone maps them. *)
From S2P Require Import Prelude PageAlloc Slub Errno AddrSpace Vma PageTable PageTree PageMap Mmap Fault Protect.

(** ** What the other process sees of a change *)

Record moved (k : slub) (P : gmap Z Z) (t : tree 3) (k' : slub) (P' : gmap Z Z) (t' : tree 3) : Prop := {
  mv_pool : same_pool (pa k) (pa k');
  mv_ref : forall q o, P !! q = Some o -> P' !! q = Some o -> (refcount (pa k')).[q] - uses k t' q = (refcount (pa k)).[q] - uses k t q;
  mv_stay : forall q o, P !! q = Some o -> uses k t q = 0 \/ uses k t q < (refcount (pa k)).[q] -> P' !! q = Some o;
  mv_owned : forall q, q ∈ owned 3 t' -> q ∈ owned 3 t \/ P !! q = None;
  mv_uses : forall q, 0 < uses k t' q -> 0 < uses k t q \/ P !! q = None;
  mv_bytes : forall p o q a, P !! p = Some o -> P' !! p = Some o -> covers p o q -> q ∉ owned 3 t -> in_page (pa k) q a -> rd k' a = rd k a;
  mv_tables : forall q, q ∈ owned 3 t -> q ∈ owned 3 t';
  mv_new : forall q o, P' !! q = Some o -> P !! q = Some o \/ (P !! q = None /\ o = 0 /\ held_by k t' q (refcount (pa k')).[q])
}.

Lemma uses_nonneg k t q : 0 <= uses k t q.
Proof. unfold uses. lia. Qed.

Lemma released_moved k P t k' P' t' : released k P t k' P' t' -> moved k P t k' P' t'.
Proof.
  intros [A1 A2 A3 A4 A5 A6]. split; try done.
  - intros q o _ Hq. rewrite (A4 q) by eauto. lia.
  - intros q o Hq Hc. apply A5. split; [done|]. specialize (A3 q). assert (H := uses_nonneg k t' q). lia.
  - intros q Hq. left. by rewrite <- A2.
  - intros q Hq. left. specialize (A3 q). lia.
  - intros p o q a _ Hp Hc Hq Ha. by apply (A6 p o q).
  - intros q Hq. by rewrite A2.
  - intros q o Hq. left. by apply A5.
Qed.

Lemma served_moved k P t k' P' t' : served k P t k' P' t' -> moved k P t k' P' t'.
Proof.
  intros [A1 A2 A3 A4 A5 A6 A7 A8]. split; try done.
  - intros q o Hq _. by apply (A3 q o).
  - intros q o Hq _. by apply (lookup_weaken _ _ _ _ Hq).
  - intros p o q a Hp _ Hc Hq Ha. by apply (A4 p o q).
  - intros q o Hq. destruct (P !! q) as [o'|] eqn:E; [left; by rewrite (lookup_weaken _ _ _ _ E A2) in Hq|right].
    destruct (A8 q o Hq E) as [? ?]. by splits.
Qed.

(** ** Two processes *)

(** [R] are the live objects other than the areas of the two. *)
Record pair (k : slub) (P R : gmap Z Z) (mm : Z) (V : list vma) (t : tree 3) (mm' : Z) (V' : list vma) (t' : tree 3) : Prop := {
  pr_a : mem_inv k P (vobjs V' ∪ R) mm V t;
  pr_b : mem_inv k P (vobjs V ∪ R) mm' V' t';
  pr_mm : mm <> mm' /\ is_Some (R !! mm) /\ is_Some (R !! mm');
  pr_tables : forall q, q ∈ owned 3 t -> q ∉ owned 3 t';
  pr_leaves : forall e, e ∈ ptes 3 t -> pte_pfn k e ∉ owned 3 t';
  pr_leaves' : forall e, e ∈ ptes 3 t' -> pte_pfn k e ∉ owned 3 t;
  pr_refs : forall q, 0 < uses k t q + uses k t' q -> uses k t q + uses k t' q <= (refcount (pa k)).[q]
}.

(** Addresses of fields of [mm] only. *)
Definition fields_of (mm : Z) (D : list Z) : Prop := forall a, a ∈ D -> mm <= a < mm + SIZEOF_MM.

(** The areas of the other process, whatever the first one did to its own. *)
Lemma other_areas k P R mm V mm' V' k' P' V1 D :
  mm_rep k P (vobjs V' ∪ R) mm V -> mm_rep k P (vobjs V ∪ R) mm' V' -> mm_rep k' P' (vobjs V' ∪ R) mm V1 ->
  kept k k' (vobjs V' ∪ R) D -> fields_of mm D -> mm <> mm' -> is_Some (R !! mm) -> is_Some (R !! mm') ->
  mm_rep k' P' (vobjs V1 ∪ R) mm' V' /\ forall d, 0 <= d < SIZEOF_MM -> rd k' (mm' + d) = rd k (mm' + d).
Proof.
  intros HA0 HB HA [Hlay Hk] HD Hne [c0 Hc0] [c Hc].
  assert (HBR := mr_disj _ _ _ _ _ HB). apply map_disjoint_union_r in HBR as [_ HBR].
  assert (HA0R := mr_disj _ _ _ _ _ HA0). apply map_disjoint_union_r in HA0R as [_ HA0R].
  assert (HAR := mr_disj _ _ _ _ _ HA). apply map_disjoint_union_r in HAR as [HAB HAR].
  assert (Hsz := rep_vma_size HB). destruct (mr_mm _ _ _ _ _ HB) as (cb & Hcb & Hsb).
  assert (cb = c) as ->.
  { rewrite lookup_union_r in Hcb by (by apply (map_disjoint_Some_r _ _ _ _ HA0R Hc)). congruence. }
  assert (Hin : forall x d, R !! x = Some d -> (vobjs V' ∪ R) !! x = Some d) by (intros x d Hx; by apply lookup_union_Some_r).
  assert (Hown : forall v, v ∈ V' -> (vobjs V' ∪ R) !! vptr v = Some vma_cache) by (intros v Hv; by apply rep_own).
  destruct (mr_mm _ _ _ _ _ HA0) as (ca & Hca & Hsa). assert (ca = c0) as -> by (rewrite (Hin mm c0 Hc0) in Hca; congruence).
  assert (Hkeep : forall x d a, (vobjs V' ∪ R) !! x = Some d -> x <> mm -> x <= a < x + object_size (cache_of k d) -> rd k' a = rd k a).
  { intros x d a Hx Hxm Ha. apply (Hk x d); [done|done|]. intros HaD. apply HD in HaD.
    destruct (objects_disjoint k P _ mm c0 (mr_inv _ _ _ _ _ HA0)) as [Hdis _]; [by apply lookup_union_Some_r; [apply HA0|apply Hin]|].
    specialize (Hdis x d ltac:(by apply lookup_union_Some_r; [apply HA0|]) Hxm). lia. }
  assert (Hv : forall v e, v ∈ V' -> 0 <= e < 32 -> rd k' (vptr v + e) = rd k (vptr v + e)).
  { intros v e Hv He. apply (Hkeep (vptr v) vma_cache); [by apply Hown| |rewrite Hsz; lia]. intros E.
    eapply map_disjoint_spec; [exact HBR| |exact Hc0]. rewrite <- E. apply vobjs_lookup. split; [done|by apply list_elem_of_fmap_2]. }
  assert (Hm : forall e, 0 <= e < SIZEOF_MM -> rd k' (mm' + e) = rd k (mm' + e)).
  { intros e He. apply (Hkeep mm' c); [by apply Hin|by apply not_eq_sym|lia]. }
  split; [|exact Hm]. split.
  - replace (vobjs V' ∪ (vobjs V1 ∪ R)) with (vobjs V1 ∪ (vobjs V' ∪ R)); [apply HA|].
    rewrite !(map_union_assoc). f_equal. apply map_union_comm. done.
  - apply map_disjoint_union_r. split; [by apply map_disjoint_sym|done].
  - rewrite (lay_some _ _ Hlay), (lay_size _ _ Hlay). apply HB.
  - exists c. rewrite (lay_size _ _ Hlay). split; [|done]. by apply lookup_union_Some_r.
  - rewrite Hm by (by vm_compute). apply (@lseg_frame _ vlinks k); [|apply HB].
    intros y (v & -> & Hv')%list_elem_of_fmap. cbn. apply Hv; [done|by vm_compute].
  - intros v Hv'. destruct (mr_cells _ _ _ _ _ HB v Hv') as (C1 & C2 & C3). unfold vcells.
    by rewrite !Hv by (done || by vm_compute).
Qed.

Lemma no_uses k t q : (forall e, e ∈ ptes 3 t -> pte_pfn k e <> q) -> uses k t q = 0.
Proof.
  intros H. destruct (decide (0 < uses k t q)) as [D|D]; [|assert (H0 := uses_nonneg k t q); lia].
  destruct (uses_elem k t q D) as (e & He & E). by destruct (H e He).
Qed.

(** Pages of the other process stay in use, with their bytes. *)
Lemma other_pages k P R mm V t mm' V' t' k' P' t1 :
  pair k P R mm V t mm' V' t' -> moved k P t k' P' t1 ->
  (forall q, q ∈ owned 3 t' -> P' !! q = Some 0 /\ q ∉ owned 3 t) /\
  (forall e, e ∈ ptes 3 t' -> P' !! pte_pfn k e = Some 0 /\ pte_pfn k e ∉ owned 3 t).
Proof.
  intros [HA HB _ Ht Hl Hl' Hr] Hm. destruct (me_tables _ _ _ _ _ _ (mi_mem _ _ _ _ _ _ HB)) as [_ _ _ _ Tow Tle _]. split.
  - intros q Hq. split; [|by intros Hq'; apply (Ht q)]. apply (mv_stay _ _ _ _ _ _ Hm q 0); [by apply Tow|]. left. apply no_uses.
    intros e He E. apply (Hl e He). by rewrite E.
  - intros e He. split; [|by apply Hl']. apply (mv_stay _ _ _ _ _ _ Hm _ 0); [by apply Tle|]. assert (Hu := uses_pos k t' e He).
    assert (Hu0 := uses_nonneg k t (pte_pfn k e)). specialize (Hr (pte_pfn k e)). lia.
Qed.

Lemma other_tables k P R mm V t mm' V' t' k' P' t1 :
  pair k P R mm V t mm' V' t' -> moved k P t k' P' t1 -> rd k' (mm' + MM_pgd) = rd k (mm' + MM_pgd) -> tables k' P' mm' t' /\ private k' t'.
Proof.
  intros Hpr Hm Hcell. destruct (other_pages _ _ _ _ _ _ _ _ _ _ _ _ Hpr Hm) as [Hop Hle]. destruct Hpr as [HA HB _ Ht Hl Hl' Hr].
  destruct (me_tables _ _ _ _ _ _ (mi_mem _ _ _ _ _ _ HB)) as [T1 T2 T3 T4 T5 T6 T7]. assert (Hs := mv_pool _ _ _ _ _ _ Hm).
  assert (Href : forall e, e ∈ ptes 3 t' -> (refcount (pa k')).[pte_pfn k e] = (refcount (pa k)).[pte_pfn k e] - uses k t (pte_pfn k e) + uses k t1 (pte_pfn k e)).
  { intros e He. assert (H := mv_ref _ _ _ _ _ _ Hm _ 0 (proj1 (T6 e He)) (proj1 (Hle e He))). lia. }
  split; [split; try done|].
  - by destruct Hs as (-> & _).
  - rewrite Hcell, T2. symmetry. by apply pfn_to_addr_same.
  - apply (rep_same 3 k); [done| |done]. intros q a Hq Ha. destruct (Hop q Hq) as [HP' Hno].
    apply (mv_bytes _ _ _ _ _ _ Hm q 0 q a); [by apply T5|done|by apply covers_self|done|done].
  - intros q Hq. by apply Hop.
  - intros e He. rewrite (pte_pfn_same k k') by done. split; [by apply Hle|by apply T6].
  - intros q. rewrite (uses_same k k') by done. intros Hq. destruct (uses_elem k t' q Hq) as (e & He & <-). rewrite Href by done.
    specialize (Hr (pte_pfn k e)). assert (H1 := uses_nonneg k t (pte_pfn k e)). assert (H2 := uses_nonneg k t1 (pte_pfn k e)). lia.
  - intros va e Hva He Hw. rewrite (pte_pfn_same k k') by done. assert (Hin := leaf_in _ _ _ He). rewrite Href by done.
    rewrite (mi_private _ _ _ _ _ _ HB va e Hva He Hw). assert (H1 := uses_nonneg k t (pte_pfn k e)). assert (H2 := uses_nonneg k t1 (pte_pfn k e)).
    assert (H3 := uses_pos k t' e Hin). specialize (Hr (pte_pfn k e)). rewrite (mi_private _ _ _ _ _ _ HB va e Hva He Hw) in Hr.
    destruct (decide (0 < uses k t1 (pte_pfn k e))) as [D|D]; [|lia]. destruct (mv_uses _ _ _ _ _ _ Hm _ D) as [?|Hn]; [lia|].
    by rewrite (proj1 (T6 e Hin)) in Hn.
Qed.

Lemma pair_moved k P R mm V t mm' V' t' k' P' V1 t1 D :
  pair k P R mm V t mm' V' t' -> mem_inv k' P' (vobjs V' ∪ R) mm V1 t1 -> moved k P t k' P' t1 ->
  kept k k' (vobjs V' ∪ R) D -> fields_of mm D ->
  pair k' P' R mm V1 t1 mm' V' t' /\ (forall d, 0 <= d < SIZEOF_MM -> rd k' (mm' + d) = rd k (mm' + d)) /\
    forall va, user_byte k' t' va = user_byte k t' va.
Proof.
  intros Hpr HA1 Hm Hk HD. destruct (Hpr) as [HA HB (Hne & Hma & Hmb) Ht Hl Hl' Hr]. assert (Hs := mv_pool _ _ _ _ _ _ Hm).
  destruct (other_areas k P R mm V mm' V' k' P' V1 D (me_areas _ _ _ _ _ _ (mi_mem _ _ _ _ _ _ HA)) (me_areas _ _ _ _ _ _ (mi_mem _ _ _ _ _ _ HB))
    (me_areas _ _ _ _ _ _ (mi_mem _ _ _ _ _ _ HA1)) Hk HD Hne Hma Hmb) as [HRB Hcell].
  destruct (other_tables _ _ _ _ _ _ _ _ _ _ _ _ Hpr Hm (Hcell MM_pgd ltac:(by vm_compute))) as [HTB HpB]. destruct (other_pages _ _ _ _ _ _ _ _ _ _ _ _ Hpr Hm) as [Hop Hle].
  destruct (me_tables _ _ _ _ _ _ (mi_mem _ _ _ _ _ _ HB)) as [_ _ _ _ T5 T6 _].
  assert (Hown : forall q, q ∈ owned 3 t' -> q ∉ owned 3 t1).
  { intros q Hq Hq1. destruct (mv_owned _ _ _ _ _ _ Hm q Hq1) as [Hq0|Hn]; [by apply (Ht q)|]. by rewrite T5 in Hn. }
  split; [split; try done|split; [exact Hcell|]].
  - destruct HB as [_ B2 B3 B4 _]. by split.
  - intros q Hq Hq'. by apply (Hown q).
  - intros e He Hq. rewrite (pte_pfn_same k k') in Hq by done. assert (Hu := uses_pos k' t1 e He).
    rewrite (pte_pfn_same k k'), (uses_same k k') in Hu by done. destruct (mv_uses _ _ _ _ _ _ Hm _ Hu) as [Hu0|Hn].
    + destruct (uses_elem k t _ Hu0) as (e0 & He0 & E0). apply (Hl e0 He0). by rewrite E0.
    + by rewrite T5 in Hn.
  - intros e He Hq. rewrite (pte_pfn_same k k') in Hq by done. destruct (mv_owned _ _ _ _ _ _ Hm _ Hq) as [Hq0|Hn]; [by apply (Hl' e)|].
    by rewrite (proj1 (T6 e He)) in Hn.
  - intros q. rewrite !(uses_same k k') by done. intros Hq. destruct (decide (0 < uses k t' q)) as [D'|D'].
    + destruct (uses_elem k t' q D') as (e & He & E). assert (H := mv_ref _ _ _ _ _ _ Hm _ 0 (proj1 (T6 e He)) (proj1 (Hle e He))).
      rewrite E in H. specialize (Hr q). assert (H1 := uses_nonneg k t q). lia.
    + assert (H2 := uses_nonneg k t' q). assert (H3 := tb_refs _ _ _ _ (me_tables _ _ _ _ _ _ (mi_mem _ _ _ _ _ _ HA1)) q).
      rewrite (uses_same k k') in H3 by done. lia.
  - intros va. unfold user_byte. destruct (leaf_at t' va) as [e|] eqn:E; [|done]. cbn. f_equal. assert (Hin := leaf_in _ _ _ E).
    rewrite (pte_pfn_same k k') by done. unfold base_of. rewrite (pfn_to_addr_same _ _ _ Hs).
    apply (mv_bytes _ _ _ _ _ _ Hm (pte_pfn k e) 0 (pte_pfn k e)); [by apply T6|by apply Hle|by apply covers_self|by apply Hle|apply in_base].
Qed.

Lemma pair_sym k P R mm V t mm' V' t' : pair k P R mm V t mm' V' t' -> pair k P R mm' V' t' mm V t.
Proof.
  intros [A B (C1 & C2 & C3) D E F G]. split; try done.
  - intros q Hq Hq'. by apply (D q).
  - intros q Hq. rewrite (Z.add_comm (uses k t' q)). apply G. lia.
Qed.

(** ** What user code can do *)

(** A store of user code, as the translation tables let it through: the entry
    of the page is present, open to user code and writable.  Otherwise the
    processor faults and nothing is stored. *)
Definition user_store (k : slub) (mm va v : Z) : slub :=
  let slot := l3_slot k mm va in
  if (0 <=? va) && (va <? USER_TOP) && negb (slot =? 0) && pte_write (rd k slot) && has (rd k slot) PTE_USER
  then wr k (phys_to_virt (Z.land (rd k slot) PTE_ADDR_MASK) + va mod PAGE_SIZE) v
  else k.

(** The system calls with any arguments, a fault at any address and with any
    cause, and a store. *)
Inductive event :=
  | Mmap (addr len prot flags fd : Z)
  | Munmap (addr len : Z)
  | Mprotect (addr len prot : Z)
  | Brk (newbrk : Z)
  | Fault (addr esr : Z)
  | Store (va v : Z).

(** Addresses and lengths arrive in 64-bit registers. *)
Definition act (k : slub) (mm : Z) (c : event) : option slub :=
  match c with
  | Mmap addr len prot flags fd => snd <$> ksys_mmap k mm (u64 addr) (u64 len) prot flags fd 0
  | Munmap addr len => snd <$> ksys_munmap k mm (u64 addr) (u64 len)
  | Mprotect addr len prot => snd <$> ksys_mprotect k mm (u64 addr) (u64 len) prot
  | Brk newbrk => snd <$> ksys_brk k mm (u64 newbrk)
  | Fault addr esr => snd <$> do_page_fault k mm addr esr
  | Store va v => Some (user_store k mm va v)
  end.

Definition page_multiple (x : Z) : bool := x mod PAGE_SIZE =? 0.

(** The process has a stack, and its heap is one area, from [start_brk] to the
    page of the break. *)
Definition heap_whole (k : slub) (mm : Z) : bool :=
  let s := rd k (mm + MM_start_brk) in
  let b := rd k (mm + MM_brk) in
  negb (rd k (mm + MM_stack_top) =? 0) && (0 <=? s) && page_multiple s && (s <=? b) && (b <? USER_TOP) &&
  match find_heap_vma k mm with
  | Some v => if v =? 0 then b =? s else rd k (v + VM_end) =? page_align b
  | None => false
  end.

(** The events of which the theorems below speak: all but the calls that leave
    areas that overlap.  These are a munmap or a fixed mmap whose range wraps
    around the end of the 64-bit addresses, and a brk that asks for a change
    when the heap is no longer one area. *)
Definition proper (k : slub) (mm : Z) (c : event) : bool :=
  match c with
  | Mmap addr len _ flags _ => negb (fixed (u64 addr) flags) || (u64 addr + u64 len <=? 2 ^ 64 - PAGE_SIZE)
  | Munmap addr len => u64 addr + u64 len <=? 2 ^ 64 - PAGE_SIZE
  | Brk newbrk => (u64 newbrk <? rd k (mm + MM_start_brk)) || (u64 newbrk =? rd k (mm + MM_brk)) || heap_whole k mm
  | Mprotect _ _ _ | Fault _ _ | Store _ _ => true
  end.

Lemma page_multiple_divide x : page_multiple x = true -> (PAGE_SIZE | x).
Proof. intros H%Z.eqb_eq. by apply Z.mod_divide. Qed.

Lemma heap_whole_ok k P R mm V : mm_rep k P R mm V -> heap_whole k mm = true -> heap_ok k mm V.
Proof.
  intros HR. unfold heap_whole, heap_ok. rewrite (find_heap_vma_rep k P R mm V HR). rewrite !andb_true_iff, !Z.leb_le, Z.ltb_lt.
  intros (((((_ & H1) & H2%page_multiple_divide) & H3) & H4) & H5). splits; try done.
  destruct (find_start (rd k (mm + MM_start_brk)) V) as [v|] eqn:E; cbn [fmap option_fmap option_map default from_option id] in H5; [|by apply Z.eqb_eq].
  assert (Hv : v ∈ V) by (apply find_start_split in E as (V1 & V2 & -> & _); set_solver).
  rewrite (proj2 (Z.eqb_neq _ _) (rep_nonzero HR v Hv)) in H5. apply Z.eqb_eq in H5. destruct (mr_cells _ _ _ _ _ HR v Hv) as (_ & <- & _). done.
Qed.

(** A store into a page of user memory that is not a table. *)
Lemma mem_write k P R mm V t q a v :
  mem_inv k P R mm V t -> P !! q = Some 0 -> q ∉ owned 3 t -> in_page (pa k) q a ->
  mem_inv (wr k a v) P R mm V t /\ forall x c b, (vobjs V ∪ R) !! x = Some c -> x <= b < x + object_size (cache_of k c) -> rd (wr k a v) b = rd k b.
Proof.
  intros [[HR HT] HS Hpg Hb Hpr] Hq Hno Ha. destruct (mr_inv _ _ _ _ _ HR) as (S & PL & Hrep & _ & HO).
  assert (Hpool := inv_pool _ _ (sr_buddy _ _ _ _ Hrep)).
  assert (Hrange : forall x, P !! x = Some 0 -> 0 <= x < pool_pages (pa k)).
  { intros x Hx. destruct (used_page _ _ _ _ _ _ Hrep Hx) as [Hu _]. apply (inv_used_block _ _ _ _ (sr_buddy _ _ _ _ Hrep) Hu). }
  assert (Hcv : covers q 0 q) by (by apply covers_self).
  assert (HI := slub_write_page k P _ q 0 q a v (mr_inv _ _ _ _ _ HR) Hq Hcv Ha).
  assert (Hobj : forall x c b, (vobjs V ∪ R) !! x = Some c -> x <= b < x + object_size (cache_of k c) -> rd (wr k a v) b = rd k b).
  { intros x c b Hx Hbx. apply rd_wr_ne. intros <-. apply HO in Hx. destruct (object_page k P S PL x c a Hrep Hx Hbx) as (p & _ & HP & Ep & _).
    rewrite (addr_pfn _ q) in Ep by auto. congruence. }
  split; [|done]. destruct (mr_mm _ _ _ _ _ HR) as (c & Hc & Hs). split; try done. split.
  - by apply (rep_moved k (wr k a v) P).
  - destruct HT as [T1 T2 T3 T4 T5 T6 T7]. split; try done.
    + rewrite (Hobj mm c); [done|by eapply rep_rest|unfold SIZEOF_MM, MM_pgd in *; lia].
    + apply (rep_same 3 k); [done| |done]. intros q' a' Hq' Ha'. apply rd_wr_ne. intros <-. apply Hno.
      assert (q = q') as ->; [|done]. apply (in_page_unique (pa k) q q' a); auto.
Qed.

Lemma user_store_code k P R mm V t va v :
  mem k P R mm V t ->
  user_store k mm va v =
    match leaf_at t va with
    | Some e => if (0 <=? va) && (va <? USER_TOP) && pte_write e && has e PTE_USER then wr k (base_of k (pte_pfn k e) + va mod PAGE_SIZE) v else k
    | None => k
    end.
Proof.
  intros HM. destruct (mem_open _ _ _ _ _ _ HM) as (S & PL & c & _ & _ & _ & _ & _ & HS & _). unfold user_store.
  destruct (l3_slot_rep k mm t va (sp_ram _ _ _ _ HS) (sp_rep _ _ _ _ HS) (sp_mm _ _ _ _ HS) (sp_root _ _ _ _ HS)) as [E Hc]. rewrite E.
  destruct (table_at t va) as [c3|] eqn:E3; [|rewrite table_leaf, E3; change (0 =? 0) with true; by rewrite andb_false_r].
  destruct (Hc c3 eq_refl) as [Hnz ->]. rewrite (proj2 (Z.eqb_neq _ _) Hnz). cbn [negb]. rewrite andb_true_r.
  destruct (leaf_at t va) as [e|] eqn:El; cbn [default from_option id].
  - fold (pte_kva e). by destruct (ptes_ok 3 k t e (sp_rep _ _ _ _ HS) (leaf_in _ _ _ El)) as (_ & _ & _ & ->).
  - change (pte_write 0) with false. by rewrite andb_false_r.
Qed.

(** A store of one process goes to a page that no other maps. *)
Lemma pair_store k P R mm V t mm' V' t' va v :
  pair k P R mm V t mm' V' t' ->
  let k' := user_store k mm va v in pair k' P R mm V t mm' V' t' /\ kept k k' R [] /\ forall va', user_byte k' t' va' = user_byte k t' va'.
Proof.
  intros Hpr k'. destruct (Hpr) as [HA HB Hmm Ht Hl Hl' Hr]. unfold k'. rewrite (user_store_code k P _ mm V t va v (mi_mem _ _ _ _ _ _ HA)).
  assert (Hid := kept_refl k R []). destruct (leaf_at t va) as [e|] eqn:E; [|done]. destruct (_ && _ && _ && _) eqn:Eg; [|done]. clear Hid.
  apply andb_true_iff in Eg as [[[Hv1%Z.leb_le Hv2%Z.ltb_lt]%andb_true_iff Hw]%andb_true_iff _]. set (q := pte_pfn k e). assert (Hin := leaf_in _ _ _ E).
  destruct (tb_leaf _ _ _ _ (me_tables _ _ _ _ _ _ (mi_mem _ _ _ _ _ _ HA)) e Hin) as [Hq Hno]. assert (Hpg := in_base k q va).
  destruct (mem_write k P _ mm V t q _ v HA Hq Hno Hpg) as [HA' Ho]. destruct (mem_write k P _ mm' V' t' q _ v HB Hq (Hl e Hin) Hpg) as [HB' _].
  split; [by split|]. split.
  { split; [done|]. intros x c a Hx Ha _. apply (Ho x c a); [|done]. eapply rep_rest; [apply HA|].
    apply lookup_union_Some_r; [|done]. assert (Hd := mr_disj _ _ _ _ _ (me_areas _ _ _ _ _ _ (mi_mem _ _ _ _ _ _ HB))). by apply map_disjoint_union_r in Hd as [_ ?]. }
  intros va'. unfold user_byte. destruct (leaf_at t' va') as [e'|] eqn:E'; [|done]. cbn. f_equal. apply rd_wr_ne.
  intros Ea. assert (Hin' := leaf_in _ _ _ E'). assert (Eq : q = pte_pfn k e').
  { destruct (mem_open _ _ _ _ _ _ (mi_mem _ _ _ _ _ _ HA)) as (S & PL & c & Hrep & _). assert (Hpool := inv_pool _ _ (sr_buddy _ _ _ _ Hrep)).
    assert (Hrange : forall x, P !! x = Some 0 -> 0 <= x < pool_pages (pa k)).
    { intros x Hx. destruct (used_page _ _ _ _ _ _ Hrep Hx) as [Hu _]. apply (inv_used_block _ _ _ _ (sr_buddy _ _ _ _ Hrep) Hu). }
    apply (in_page_unique (pa k) _ _ (base_of k q + va mod PAGE_SIZE)); auto; [|rewrite Ea; apply in_base].
    apply Hrange, (tb_leaf _ _ _ _ (me_tables _ _ _ _ _ _ (mi_mem _ _ _ _ _ _ HB)) e' Hin'). }
  assert (H1 := mi_private _ _ _ _ _ _ HA va e ltac:(by split) E Hw). fold q in H1. specialize (Hr q). assert (H2 := uses_pos k t e Hin).
  assert (H3 := uses_pos k t' e' Hin'). fold q in H2. rewrite <- Eq in H3. lia.
Qed.

Lemma objs_kept_other k k' V R D : vobjs V ##ₘ R -> objs_kept k k' (vobjs V ∪ R) -> kept k k' R D.
Proof.
  intros Hd Ho. destruct (objs_kept_sub k k' (vobjs V ∪ R) R (map_union_subseteq_r _ _ Hd) Ho) as [L H]. split; [done|]. intros x c a Hx Ha _. by apply (H x c).
Qed.

Lemma limits_kept k k' P R mm V t D :
  mem k P R mm V t -> kept k k' R D -> mm + MM_mmap_base ∉ D -> mm + MM_stack_top ∉ D -> limits k mm -> limits k' mm.
Proof.
  intros HM Hk H1 H2 [L1 L2]. split.
  - by rewrite (kept_mm k k' P R mm V t D MM_mmap_base).
  - by rewrite (kept_mm k k' P R mm V t D MM_stack_top).
Qed.

(** The fields of [mm] that the calls write. *)
Definition call_cells (mm : Z) : list Z := [mm + MM_mmap; mm + MM_mmap_base; mm + MM_brk].

Lemma call_fields mm : fields_of mm (call_cells mm).
Proof. intros a Ha. unfold call_cells, SIZEOF_MM, MM_mmap, MM_mmap_base, MM_brk in *. set_unfold. lia. Qed.

(** What a call does, as the other process sees it. *)
Definition moves (k : slub) (P R : gmap Z Z) (mm : Z) (t : tree 3) (k' : slub) : Prop :=
  limits k' mm /\ exists P' V' t', mem_inv k' P' R mm V' t' /\ moved k P t k' P' t' /\ kept k k' R (call_cells mm).

Lemma moves_refl k P R mm V t : mem_inv k P R mm V t -> limits k mm -> moves k P R mm t k.
Proof. intros HI Hl. split; [done|]. exists P, V, t. split; [done|]. split; [apply released_moved, released_refl|apply kept_refl]. Qed.

(** A call that does not touch the base. *)
Lemma moves_released k P R mm V t k' P' V' t' D :
  mem_inv k P R mm V t -> limits k mm -> mem_inv k' P' R mm V' t' -> released k P t k' P' t' -> kept k k' R D ->
  D ⊆ [mm + MM_mmap; mm + MM_brk] -> moves k P R mm t k'.
Proof.
  intros HI Hl HI' Hr Hk HD. split.
  - apply (limits_kept k k' P R mm V t D); [apply HI|done| | |done]; intros Hin%HD; unfold MM_mmap_base, MM_mmap, MM_brk, MM_stack_top in *; set_unfold; lia.
  - exists P', V', t'. split; [done|]. split; [by apply released_moved|]. eapply kept_weaken; [|exact Hk]. etrans; [exact HD|]. unfold call_cells. set_solver.
Qed.

Lemma moves_frame k P R mm V t k' : mem_inv k P R mm V t -> limits k mm -> mem_inv k' P R mm V t -> mm_frame k k' P R mm -> moves k P R mm t k'.
Proof.
  intros HI Hl HI' Hf. eapply (moves_released k P R mm V t k' P V t); [done|done|done|by eapply frame_released|by eapply frame_kept|set_solver].
Qed.

Lemma mmap_moves k P R mm V t addr len prot flags fd :
  mem_inv k P R mm V t -> limits k mm -> 0 <= addr < 2 ^ 64 -> 0 <= len < 2 ^ 64 -> (fixed addr flags = true -> addr + len <= 2 ^ 64 - PAGE_SIZE) ->
  exists r k', ksys_mmap k mm addr len prot flags fd 0 = Some (r, k') /\ moves k P R mm t k'.
Proof.
  intros HI Hl Ha Hlen Hw. destruct (mem_nonzero k P R mm V t (mi_mem _ _ _ _ _ _ HI)) as [Hm _]. assert (Hid := moves_refl k P R mm V t HI Hl).
  unfold ksys_mmap. rewrite (proj2 (Z.eqb_neq _ _) Hm). case andb; [by eexists _, _|].
  destruct (do_mmap_spec k P R mm V t addr len prot flags HI Hl Ha Hlen Hw) as (r & k' & -> & H). exists r, k'. split; [done|].
  case_decide; [by destruct H as [_ ->]|]. destruct H as [_ -> _ _|_ _ _ HI' Hf|_ -> _|P' V' t' _ _ _ [C1 C2 C3 _ _]|P' V' t' H1 H2 H3 _ [C1 C2 C3 C4 _ _]]; try done.
  - by eapply moves_frame.
  - eapply (moves_released k P R mm V t _ _ _ _ [mm + MM_mmap]); [done..|set_solver].
  - split; [|exists P', V', t'; split; [done|]; split; [by apply released_moved|]; eapply kept_weaken; [|exact C3]; unfold call_cells; set_solver].
    split; [rewrite C4; destruct Hl as [L1 _]; destruct H2 as (_ & ? & _); lia|].
    rewrite (kept_mm k k' P R mm V t _ MM_stack_top (mi_mem _ _ _ _ _ _ HI) C3); [apply Hl|by vm_compute|].
    unfold MM_mmap_base, MM_mmap, MM_stack_top. set_unfold. lia.
Qed.

Lemma munmap_moves k P R mm V t addr len :
  mem_inv k P R mm V t -> limits k mm -> 0 <= addr -> 0 <= len -> addr + len <= 2 ^ 64 - PAGE_SIZE ->
  exists r k', ksys_munmap k mm addr len = Some (r, k') /\ moves k P R mm t k'.
Proof.
  intros HI Hl Ha Hlen Hw. destruct (mem_nonzero k P R mm V t (mi_mem _ _ _ _ _ _ HI)) as [Hm _]. assert (Hid := moves_refl k P R mm V t HI Hl).
  unfold ksys_munmap. rewrite (proj2 (Z.eqb_neq _ _) Hm). destruct (do_munmap_spec k P R mm V t addr len HI Ha Hlen Hw) as (r & k' & -> & H).
  exists r, k'. split; [done|]. repeat case_decide; [by destruct H as [_ ->]..|]. destruct H as [(_ & -> & _)|(_ & P' & V' & t' & [C1 C2 C3 _ _])]; [done|].
  eapply (moves_released k P R mm V t _ _ _ _ [mm + MM_mmap]); [done..|set_solver].
Qed.

Lemma brk_moves k P R mm V t b :
  mem_inv k P R mm V t -> limits k mm -> 0 <= b -> b < rd k (mm + MM_start_brk) \/ b = rd k (mm + MM_brk) \/ heap_whole k mm = true ->
  exists r k', ksys_brk k mm b = Some (r, k') /\ moves k P R mm t k'.
Proof.
  intros HI Hl Hb Hc. destruct (mem_nonzero k P R mm V t (mi_mem _ _ _ _ _ _ HI)) as [Hm Hpgd]. assert (Hid := moves_refl k P R mm V t HI Hl).
  unfold ksys_brk. rewrite (proj2 (Z.eqb_neq _ _) Hm). destruct Hc as [Hc|[Hc|Hc]].
  - unfold do_brk. rewrite (proj2 (Z.eqb_neq _ _) Hm), (proj2 (Z.eqb_neq _ _) Hpgd), (proj2 (Z.ltb_lt _ _) Hc). by eexists _, _.
  - unfold do_brk. rewrite (proj2 (Z.eqb_neq _ _) Hm), (proj2 (Z.eqb_neq _ _) Hpgd), (proj2 (Z.eqb_eq _ _) Hc). cbn [orb]. case orb; by eexists _, _.
  - assert (Hst : USER_STACK_SIZE < rd k (mm + MM_stack_top) <= USER_TOP).
    { destruct Hl as [_ [E|?]]; [|done]. unfold heap_whole in Hc. by rewrite E in Hc. }
    apply (heap_whole_ok k P R mm V (me_areas _ _ _ _ _ _ (mi_mem _ _ _ _ _ _ HI))) in Hc.
    destruct (do_brk_spec k P R mm V t b HI Hc Hst Hb) as (r & k' & -> & H). exists r, k'. split; [done|].
    destruct H as [(_ & _ & C1 & C2)|(_ & _ & P' & V' & t' & [C1 C2 C3 _ _ _ _])]; [by eapply moves_frame|by eapply moves_released].
Qed.

(** Every call, as the other process sees it. *)
Lemma call_moves k P R mm V t c :
  mem_inv k P R mm V t -> limits k mm -> proper k mm c = true -> (forall va v, c <> Store va v) ->
  exists k', act k mm c = Some k' /\ moves k P R mm t k'.
Proof.
  intros HI Hl Hp Hns. assert (Hid := moves_refl k P R mm V t HI Hl). assert (Hu := fun x => wrapu_range 64 x ltac:(done)).
  destruct c as [addr len prot flags fd|addr len|addr len prot|b|addr esr|va v]; cbn [proper act] in *; [..|by destruct (Hns va v)].
  - destruct (mmap_moves k P R mm V t (u64 addr) (u64 len) prot flags fd HI Hl (Hu _) (Hu _)) as (r & k' & -> & H); [|by exists k'].
    intros E. rewrite E in Hp. by apply Z.leb_le in Hp.
  - apply Z.leb_le in Hp. destruct (munmap_moves k P R mm V t (u64 addr) (u64 len) HI Hl (proj1 (Hu _)) (proj1 (Hu _)) Hp) as (r & k' & -> & H). by exists k'.
  - destruct (ksys_mprotect_spec k P R mm V t (u64 addr) (u64 len) prot HI (Hu _) (Hu _)) as (r & k' & V' & t' & -> & C1 & [C2 C3 _]).
    exists k'. split; [done|]. eapply (moves_released k P R mm V t _ _ _ _ [mm + MM_mmap]); [done..|set_solver].
  - destruct (brk_moves k P R mm V t (u64 b) HI Hl (proj1 (Hu _))) as (r & k' & -> & H); [|by exists k'].
    rewrite !orb_true_iff, Z.ltb_lt, Z.eqb_eq in Hp. tauto.
  - destruct (do_page_fault_spec k P R mm V t addr esr HI) as (r & k' & -> & Hc). exists k'. split; [done|].
    destruct Hc as [(_ & -> & _)|(f & P' & t' & _ & _ & C1 & C2 & C3 & _)]; [done|].
    assert (Hk : forall D, kept k k' R D) by (intros D; apply (objs_kept_other k k' V); [apply (me_areas _ _ _ _ _ _ (mi_mem _ _ _ _ _ _ HI))|done]).
    split; [apply (limits_kept k k' P R mm V t []); [apply HI|apply Hk|apply not_elem_of_nil..|done]|].
    exists P', V, t'. split; [done|]. split; [by apply served_moved|apply Hk].
Qed.

Lemma pair_act k P R mm V t mm' V' t' c :
  pair k P R mm V t mm' V' t' -> limits k mm -> proper k mm c = true ->
  exists k' P' V1 t1, act k mm c = Some k' /\ limits k' mm /\ pair k' P' R mm V1 t1 mm' V' t' /\
    (forall d, 0 <= d < SIZEOF_MM -> rd k' (mm' + d) = rd k (mm' + d)) /\ forall va, user_byte k' t' va = user_byte k t' va.
Proof.
  intros Hpr Hl Hal. assert (Hc : (exists va v, c = Store va v) \/ forall va v, c <> Store va v) by (destruct c; eauto; by right).
  destruct Hc as [(va & v & ->)|Hc].
  - destruct (pair_store k P R mm V t mm' V' t' va v Hpr) as (Hpr' & Hk & Hb). exists (user_store k mm va v), P, V, t. split; [done|].
    assert (HA := pr_a _ _ _ _ _ _ _ _ _ Hpr). assert (HB := pr_b _ _ _ _ _ _ _ _ _ Hpr). destruct (pr_mm _ _ _ _ _ _ _ _ _ Hpr) as (_ & [c Hc] & [c' Hc']).
    assert (Hf : forall x cx, R !! x = Some cx -> SIZEOF_MM <= object_size (cache_of k cx) ->
      forall d, 0 <= d < SIZEOF_MM -> rd (user_store k mm va v) (x + d) = rd k (x + d)).
    { intros x cx Hx Hs d Hd. apply (proj2 Hk x cx); [done|lia|apply not_elem_of_nil]. }
    assert (Hs : SIZEOF_MM <= object_size (cache_of k c)).
    { destruct (mr_mm _ _ _ _ _ (me_areas _ _ _ _ _ _ (mi_mem _ _ _ _ _ _ HA))) as (c0 & Hc0 & Hs0).
      assert (Hd := mr_disj _ _ _ _ _ (me_areas _ _ _ _ _ _ (mi_mem _ _ _ _ _ _ HB))). apply map_disjoint_union_r in Hd as [_ Hd].
      rewrite (lookup_union_Some_r _ _ mm c Hd Hc) in Hc0. by injection Hc0 as <-. }
    assert (Hs' : SIZEOF_MM <= object_size (cache_of k c')).
    { destruct (mr_mm _ _ _ _ _ (me_areas _ _ _ _ _ _ (mi_mem _ _ _ _ _ _ HB))) as (c0 & Hc0 & Hs0).
      assert (Hd := mr_disj _ _ _ _ _ (me_areas _ _ _ _ _ _ (mi_mem _ _ _ _ _ _ HA))). apply map_disjoint_union_r in Hd as [_ Hd].
      rewrite (lookup_union_Some_r _ _ mm' c' Hd Hc') in Hc0. by injection Hc0 as <-. }
    split; [destruct Hl as [L1 L2]; split; by rewrite (Hf mm c Hc Hs)|]. split; [done|]. split; [by apply (Hf mm' c')|done].
  - destruct (call_moves k P _ mm V t c (pr_a _ _ _ _ _ _ _ _ _ Hpr) Hl Hal Hc) as (k' & E & Hl' & P' & V1 & t1 & HI & Hm & Hk).
    exists k', P', V1, t1. split; [done|]. split; [done|]. by apply (pair_moved k P R mm V t mm' V' t' k' P' V1 t1 _ Hpr HI Hm Hk), call_fields.
Qed.

(** Events of two processes in any order, [true] for the first. *)
Fixpoint run (k : slub) (mm mm' : Z) (cs : list (bool * event)) : option slub :=
  match cs with
  | [] => Some k
  | (who, c) :: cs' => k' ← act k (if who : bool then mm else mm') c; run k' mm mm' cs'
  end.

(** Every event of the run is proper when it happens. *)
Fixpoint orderly (k : slub) (mm mm' : Z) (cs : list (bool * event)) : bool :=
  match cs with
  | [] => true
  | (who, c) :: cs' =>
      let m := if who : bool then mm else mm' in
      proper k m c && match act k m c with Some k' => orderly k' mm mm' cs' | None => true end
  end.

(** The first process alone. *)
Definition alone (cs : list event) : list (bool * event) := (fun c => (true, c)) <$> cs.

Lemma limits_other k k' mm : (forall d, 0 <= d < SIZEOF_MM -> rd k' (mm + d) = rd k (mm + d)) -> limits k mm -> limits k' mm.
Proof. intros H [L1 L2]. split; by rewrite H by (by vm_compute). Qed.

(** Calls, faults and stores of two processes in any order: each returns,
    and the areas, the tables and the references of both stay consistent with
    each other and with the allocators.  No page is a table of one and mapped
    by the other, and no shared page is writable. *)
Theorem interleaving_safe k P R mm V t mm' V' t' cs :
  pair k P R mm V t mm' V' t' -> limits k mm -> limits k mm' -> orderly k mm mm' cs = true ->
  exists k' P' V1 t1 V1' t1', run k mm mm' cs = Some k' /\ pair k' P' R mm V1 t1 mm' V1' t1'.
Proof.
  revert k P V t V' t'. induction cs as [|[who c] cs IH]; intros k P V t V' t' Hpr Hl Hl' Ho; [by exists k, P, V, t, V', t'|]. cbn [run orderly] in *.
  apply andb_true_iff in Ho as [Ha Ho]. destruct who.
  - destruct (pair_act _ _ _ _ _ _ _ _ _ c Hpr Hl Ha) as (k1 & P1 & V1 & t1 & E & Hl1 & Hpr1 & Hf & _). rewrite E in *. eapply IH; [done|done| |done]. by eapply limits_other.
  - destruct (pair_act _ _ _ _ _ _ _ _ _ c (pair_sym _ _ _ _ _ _ _ _ _ Hpr) Hl' Ha) as (k1 & P1 & V1 & t1 & E & Hl1 & Hpr1 & Hf & _). rewrite E in *.
    eapply IH; [by apply pair_sym|by eapply limits_other|done|done].
Qed.

Lemma run_isolated k P R mm V t mm' V' t' cs :
  pair k P R mm V t mm' V' t' -> limits k mm -> orderly k mm mm' (alone cs) = true ->
  exists k' P' V1 t1, run k mm mm' (alone cs) = Some k' /\ pair k' P' R mm V1 t1 mm' V' t' /\
    forall va, user_byte k' t' va = user_byte k t' va.
Proof.
  revert k P V t. induction cs as [|c cs IH]; intros k P V t Hpr Hl Ho; [by exists k, P, V, t|]. cbn [run orderly alone fmap list_fmap] in *.
  apply andb_true_iff in Ho as [Ha Ho].
  destruct (pair_act _ _ _ _ _ _ _ _ _ c Hpr Hl Ha) as (k1 & P1 & V1 & t1 & E & Hl1 & Hpr1 & _ & Hb). rewrite E in *. cbn [mbind option_bind].
  destruct (IH k1 P1 V1 t1 Hpr1 Hl1 Ho) as (k' & P' & V2 & t2 & E' & Hpr' & Hb'). exists k', P', V2, t2. split; [done|]. split; [done|].
  intros va. by rewrite Hb', Hb.
Qed.

(** C5: One process leaves the other alone, also where they share pages.  It
    makes any calls of mmap, munmap, mprotect and brk, with any arguments, takes
    faults and stores where its tables let it, in any order; left out are only
    the calls that are not [proper], which corrupt its own list of areas.  Then
    every call returns, the areas and the tables of the other process stay, and
    every address of it reads as before. *)
Theorem process_isolated k P R mm V t mm' V' t' cs :
  pair k P R mm V t mm' V' t' -> limits k mm -> orderly k mm mm' (alone cs) = true ->
  exists k' P' V1 t1, run k mm mm' (alone cs) = Some k' /\ pair k' P' R mm V1 t1 mm' V' t' /\
    forall va, user_byte k' t' va = user_byte k t' va.
Proof. apply run_isolated. Qed.
