(* ===== verification/MmLife.v ===== *)
(** * Address spaces come and go ([kernel/fork.c], [mm/mmap.c])

    A new address space is empty, whatever the object and the page it lies in
    held before; it satisfies the invariant of [Mmap], and everything else in
    memory keeps its bytes.  The concrete address spaces of this development
    are made here, in the small pool of [Slub]. *)
From S2P Require Import Prelude PageAlloc Slub Errno AddrSpace Vma PageTable PageTree PageMap Mmap Fault Protect Isolation.

(** ** The state of the memory after boot *)

Record booted (k : slub) (P O : gmap Z Z) : Prop := {
  bt_inv : slub_inv k P O;
  bt_sized : sized k;
  bt_order : max_order (pa k) < 15;
  bt_vma : is_Some (caches k !! vma_cache) /\ object_size (cache_of k vma_cache) = SIZEOF_VMA;
  bt_base : KERNEL_VIRT_BASE <= mem_start (pa k)
}.

Lemma booted_layout k k' P P' O O' : booted k P O -> same_layout k k' -> slub_inv k' P' O' -> booted k' P' O'.
Proof.
  intros [_ H1 H2 [H3 H4] H5] Hl HI. assert (Hp := lay_pool _ _ Hl). split; try done.
  - by eapply sized_layout.
  - by destruct Hp as (_ & _ & -> & _).
  - split; [by apply (lay_some _ _ Hl)|by rewrite (lay_size _ _ Hl)].
  - by destruct Hp as (-> & _).
Qed.

(** ** Writes to a page and to an object *)

Lemma slub_set_page k P O p m :
  slub_inv k P O -> P !! p = Some 0 -> (forall a, ~ in_page (pa k) p a -> m.[a] = rd k a) ->
  slub_inv (set_pa k (set_mem (pa k) m)) P O.
Proof.
  intros (S & PL & HR & Ht & HO) Hp Hm. destruct (used_page _ _ _ _ _ _ HR Hp) as [Hu _]. assert (Hbi := sr_buddy _ _ _ _ HR).
  assert (Hcv : covers p 0 p) by (by apply covers_self). assert (Hpr := inv_covers_pool _ _ _ _ _ Hbi Hu Hcv).
  assert (Hb : buddy_inv (set_mem (pa k) m) (P ∪ slab_pages S)).
  { apply inv_set_mem; [done|]. intros q Hq Hout. apply Hm. intros Ha. apply (Hout p 0 Hu).
    assert (q = p) as ->; [|done]. apply (in_page_unique (pa k) q p (pfn_to_addr (pa k) q) (inv_pool _ _ Hbi)); try done. apply in_page_base. }
  destruct (rep_set_pa k (set_mem (pa k) m) P P S PL HR ltac:(done) Hb (sr_disj _ _ _ _ HR)) as [HR' Hl]; try done.
  - intros p' si a' Hp' Ha'. apply Hm. intros Ha. eapply (used_page_apart k P S PL p 0 p a' p'); try done. by eapply slab_cell_page.
  - by eapply inv_set_pa.
Qed.

(** Stores to fields of an object. *)
Definition wrs (k : slub) (l : list (Z * Z)) : slub := foldl (fun k '(a, v) => wr k a v) k l.

Lemma wrs_spec k P O x c l :
  slub_inv k P O -> O !! x = Some c -> (forall a, a ∈ l.*1 -> x <= a < x + object_size (cache_of k c)) ->
  slub_inv (wrs k l) P O /\ same_layout k (wrs k l) /\ refcount (pa (wrs k l)) = refcount (pa k) /\
  forall a, ~ (x <= a < x + object_size (cache_of k c)) -> rd (wrs k l) a = rd k a.
Proof.
  revert k. induction l as [|[a v] l IH]; intros k HI Hx Hl; [by split|]. cbn [wrs foldl].
  assert (Ha : x <= a < x + object_size (cache_of k c)) by (apply Hl; by left).
  destruct (IH (wr k a v)) as (H1 & H2 & H3 & H4); [by eapply slub_write_obj|done|intros b Hb; apply Hl; by right|].
  split; [done|]. split; [by etrans; [|exact H2]|]. split; [done|]. intros b Hb. rewrite H4 by done. apply rd_wr_ne. by intros <-.
Qed.

Lemma wrs_frame k P O x c l :
  slub_inv k P (<[x := c]> O) -> O !! x = None -> (forall a, a ∈ l.*1 -> x <= a < x + object_size (cache_of k c)) ->
  slub_frame k (wrs k l) P O.
Proof.
  intros HI Hx Hl. destruct (wrs_spec k P _ x c l HI (lookup_insert_eq _ _ _) Hl) as (_ & H2 & H3 & H4).
  destruct (objects_disjoint k P _ x c HI (lookup_insert_eq _ _ _)) as [D1 D2]. split; [done|by rewrite H3| |].
  - intros p o q a Hp Hc Ha. by apply H4, (D2 p o q).
  - intros y c' a Hy Ha. apply H4. assert (Hne : y <> x) by congruence. specialize (D1 y c'). rewrite lookup_insert_ne in D1 by done.
    specialize (D1 Hy Hne). lia.
Qed.

(** ** A new address space *)

(** The fields that [mm_init] sets. *)
Definition new_fields (mm pgd : Z) : list (Z * Z) :=
  [(mm + MM_pgd, pgd); (mm + MM_mmap, 0); (mm + MM_entry, 0); (mm + MM_stack_top, 0); (mm + MM_start_brk, 0); (mm + MM_brk, 0);
   (mm + MM_mmap_base, USER_MMAP_BASE); (mm + MM_users, 1)].

Record fresh_mm (k : slub) (mm : Z) : Prop := {
  fm_stack : rd k (mm + MM_stack_top) = 0;
  fm_brk : rd k (mm + MM_start_brk) = 0 /\ rd k (mm + MM_brk) = 0;
  fm_base : rd k (mm + MM_mmap_base) = USER_MMAP_BASE;
  fm_users : rd k (mm + MM_users) = 1
}.

Lemma new_fields_in mm pgd a : a ∈ (new_fields mm pgd).*1 -> mm <= a < mm + SIZEOF_MM.
Proof.
  unfold SIZEOF_MM. cbn [new_fields fmap list_fmap fst]. unfold MM_pgd, MM_mmap, MM_entry, MM_stack_top, MM_start_brk, MM_brk, MM_mmap_base, MM_users.
  rewrite !elem_of_cons, elem_of_nil. lia.
Qed.

Lemma new_fields_fresh k mm pgd :
  let k' := wrs k (new_fields mm pgd) in rd k' (mm + MM_pgd) = pgd /\ rd k' (mm + MM_mmap) = 0 /\ fresh_mm k' mm.
Proof.
  cbv zeta. unfold new_fields. cbn [wrs foldl].
  repeat split; unfold MM_pgd, MM_mmap, MM_entry, MM_stack_top, MM_start_brk, MM_brk, MM_mmap_base, MM_users; rewrite !rd_wr_case;
    repeat (case_decide; [done || lia|]); lia.
Qed.

Lemma empty_space_inv k P O mm c p :
  booted k P O -> O !! mm = Some c -> SIZEOF_MM <= object_size (cache_of k c) -> P !! p = Some 0 ->
  (forall a, in_page (pa k) p a -> rd k a = 0) -> rd k (mm + MM_pgd) = base_of k p -> rd k (mm + MM_mmap) = 0 ->
  mem_inv k P O mm [] ((p, ∅) : tree 3).
Proof.
  intros [HI _ _ [Hv Hvs] Hb] Hc Hs Hp Hz Hpgd Hmm. destruct (HI) as (S & PL & HR & _ & _). destruct (used_page _ _ _ _ _ _ HR Hp) as [Hu _].
  assert (Hpr := inv_covers_pool _ _ _ _ _ (sr_buddy _ _ _ _ HR) Hu (covers_self p 0 ltac:(lia))). assert (Ho : owned 3 ((p, ∅) : tree 3) = [p]) by done.
  assert (He : ptes 3 ((p, ∅) : tree 3) = []) by done. split; [split| | | |]; try done.
  - by apply (mm_rep_empty _ _ _ _ c).
  - split; try done.
    + by apply zeroed_rep.
    + rewrite Ho. apply NoDup_singleton.
    + rewrite Ho. by intros q ->%list_elem_of_singleton.
    + rewrite He. intros e Hel. by apply not_elem_of_nil in Hel.
  - intros x Hx. by apply not_elem_of_nil in Hx.
Qed.

(** A fresh page is filled with zeros. *)
Lemma page_zeroed k P O p m :
  slub_inv k (<[p := 0]> P) O -> (forall q, covers p 0 q -> outside P q) ->
  (forall a, m.[a] = if decide (base_of k p <= a < base_of k p + PAGE_SIZE) then 0 else rd k a) ->
  let k' := set_pa k (set_mem (pa k) m) in slub_inv k' (<[p := 0]> P) O /\ slub_frame k k' P O.
Proof.
  intros HI Hout Hm k'. assert (Hcv : covers p 0 p) by (apply covers_self; lia). assert (Hrd : forall a, ~ in_page (pa k) p a -> rd k' a = rd k a).
  { intros a Ha. change (rd k' a) with (m.[a]). by rewrite Hm, decide_False. }
  split; [by apply (slub_set_page k _ O p); [|apply lookup_insert_eq|]|]. split; try done.
  - intros p' o q a Hp Hc Ha. apply Hrd. intros Ha'. destruct HI as (S & PL & HR & _). assert (Hbi := sr_buddy _ _ _ _ HR).
    assert (Hne : p <> p') by (intros ->; apply (Hout p' Hcv p' o Hp); unfold covers in *; lia).
    destruct (used_page _ _ _ _ p 0 HR (lookup_insert_eq _ _ _)) as [Hu _].
    destruct (used_page _ _ _ _ p' o HR ltac:(by rewrite lookup_insert_ne)) as [Hu' _].
    assert (p = q) as ->; [|by apply (Hout q Hcv p' o)]. apply (in_page_unique (pa k) p q a (inv_pool _ _ Hbi)); try done; eapply inv_covers_pool; [exact Hbi|exact Hu|done|exact Hbi|exact Hu'|done].
  - intros x c a Hx Ha. apply Hrd. intros Ha'. destruct (objects_disjoint k _ _ x c HI Hx) as [_ D]. by apply (D p 0 p a (lookup_insert_eq _ _ _) Hcv Ha').
Qed.

Lemma mm_alloc_spec k P O :
  booted k P O ->
  exists mm k', mm_alloc k = Some (mm, k') /\ slub_frame k k' P O /\
    ((mm = 0 /\ booted k' P O) \/
     (mm <> 0 /\ exists p c, O !! mm = None /\ outside P p /\ booted k' (<[p := 0]> P) (<[mm := c]> O) /\
        mem_inv k' (<[p := 0]> P) (<[mm := c]> O) mm [] ((p, ∅) : tree 3) /\ (refcount (pa k')).[p] = 1 /\ fresh_mm k' mm)).
Proof.
  intros Hbt. destruct (Hbt) as [HI Hsz Hmo [Hv Hvs] Hb]. unfold mm_alloc.
  destruct (kmalloc_spec k P O SIZEOF_MM HI Hsz Hmo ltac:(by vm_compute)) as [(o & -> & _)|(mm & k1 & -> & Hm & Hf1 & [(_ & c & Hn & HI1 & Hs)|(Hbad & _)])];
    [| |unfold SIZEOF_MM in *; lia]; cbn [mbind option_bind].
  { exists 0, k. split; [done|]. split; [apply slub_frame_refl|]. by left. }
  rewrite (proj2 (Z.eqb_neq mm 0)) by done. unfold mm_init. assert (Hbt1 := booted_layout _ _ _ _ _ _ Hbt (fr_layout _ _ _ _ Hf1) HI1).
  destruct (slub_alloc_pages k1 P _ 0 HI1) as [E|(p & b & -> & Hp & _ & _ & Hout & HI2 & Hr & Hf2)].
  { destruct HI1 as (S & PL & HR & _). split; [done|]. apply (pool_order _ (inv_pool _ _ (sr_buddy _ _ _ _ HR))). }
  - rewrite E. cbn [mbind option_bind]. change (0 =? 0) with true. cbn iota. replace (set_pa k1 (pa k1)) with k1 by (by destruct k1).
    destruct (proj1 (kfree_spec k1 P _ mm HI1)) as (k2 & -> & HI2 & Hf2); [by rewrite lookup_insert_eq|]. cbn [mbind option_bind].
    rewrite delete_insert_id in HI2, Hf2 by done. exists 0, k2. split; [done|]. split; [by eapply slub_frame_trans|]. left. split; [done|].
    by apply (booted_layout k1 k2 P P _ O Hbt1 (fr_layout _ _ _ _ Hf2)).
  - cbn [mbind option_bind]. assert (Hs1 := lay_pool _ _ (fr_layout _ _ _ _ Hf2)). cbn [pa set_pa] in Hs1.
    set (k2 := set_pa k1 b) in *. assert (Eb : pfn_to_addr (pa k1) p = base_of k2 p) by (symmetry; by apply pfn_to_addr_same).
    assert (Hnz : base_of k2 p <> 0).
    { rewrite <- Eb. destruct HI1 as (S & PL & HR & _). assert (Hpool := inv_pool _ _ (sr_buddy _ _ _ _ HR)). rewrite pfn_to_addr_eq by done.
      destruct (pool_start _ Hpool). unfold PAGE_SIZE. lia. }
    rewrite Eb, (proj2 (Z.eqb_neq _ _) Hnz). destruct (zero_page k2 p) as (m & -> & Hmz). set (k3 := set_pa k2 (set_mem (pa k2) m)).
    change (exists mm' k', Some (mm, wrs k3 (new_fields mm (base_of k2 p))) = Some (mm', k') /\ slub_frame k k' P O /\
      ((mm' = 0 /\ booted k' P O) \/ (mm' <> 0 /\ exists p c, O !! mm' = None /\ outside P p /\ booted k' (<[p := 0]> P) (<[mm' := c]> O) /\
        mem_inv k' (<[p := 0]> P) (<[mm' := c]> O) mm' [] ((p, ∅) : tree 3) /\ (refcount (pa k')).[p] = 1 /\ fresh_mm k' mm'))).
    assert (Hpn : P !! p = None).
    { destruct (P !! p) as [o|] eqn:E; [|done]. destruct (Hout p (covers_self p 0 ltac:(lia)) p o E). apply covers_self.
      destruct HI1 as (S & PL & HR & _). destruct (used_page _ _ _ _ _ _ HR E) as [Hu _]. destruct (inv_used_block _ _ _ _ (sr_buddy _ _ _ _ HR) Hu) as ((? & _) & _). lia. }
    destruct (page_zeroed k2 P (<[mm := c]> O) p m HI2 Hout Hmz) as [HI3 Hf3]. fold k3 in HI3, Hf3. set (l := new_fields mm (base_of k2 p)).
    assert (Hl : forall a, a ∈ l.*1 -> mm <= a < mm + object_size (cache_of k3 c)).
    { intros a Ha. apply new_fields_in in Ha. change (cache_of k3 c) with (cache_of k2 c). rewrite (lay_size _ _ (fr_layout _ _ _ _ Hf2)). lia. }
    destruct (wrs_spec k3 _ _ mm c l HI3 (lookup_insert_eq _ _ _) Hl) as (HI4 & Hl4 & Hr4 & Hm4). destruct (new_fields_fresh k3 mm (base_of k2 p)) as (F1 & F2 & F3).
    fold l in F1, F2, F3. set (k4 := wrs k3 l) in *. assert (Hf4 := wrs_frame k3 _ O mm c l HI3 Hn Hl). fold k4 in Hf4.
    assert (Hsub : O ⊆ <[mm := c]> O) by (by apply insert_subseteq). assert (Hsp : P ⊆ <[p := 0]> P) by (by apply insert_subseteq).
    assert (Hbt4 : booted k4 (<[p := 0]> P) (<[mm := c]> O)).
    { eapply (booted_layout k1 k4); [exact Hbt1| |done]. etrans; [exact (fr_layout _ _ _ _ Hf2)|]. etrans; [exact (fr_layout _ _ _ _ Hf3)|done]. }
    exists mm, k4. split; [done|]. split.
    { apply (slub_frame_trans _ k1); [done|]. apply (slub_frame_trans _ k2); [by apply (slub_frame_sub _ _ P P (<[mm := c]> O))|].
      apply (slub_frame_trans _ k3); [by apply (slub_frame_sub _ _ P P (<[mm := c]> O))|by apply (slub_frame_sub _ _ (<[p := 0]> P) P O)]. }
    right. split; [done|]. exists p, c. split; [done|]. split; [apply Hout, covers_self; lia|]. split; [done|]. split.
    { apply (empty_space_inv k4 _ _ mm c p Hbt4); [apply lookup_insert_eq| |apply lookup_insert_eq| | |done].
      - rewrite (lay_size _ _ Hl4). change (cache_of k3 c) with (cache_of k2 c). by rewrite (lay_size _ _ (fr_layout _ _ _ _ Hf2)).
      - intros a Ha. assert (Ha2 : in_page (pa k2) p a) by (unfold in_page in *; by rewrite (pfn_to_addr_same _ _ p (lay_pool _ _ Hl4)) in Ha).
        rewrite Hm4; [change (rd k3 a) with (m.[a]); by rewrite Hmz, decide_True|].
        destruct (objects_disjoint k3 _ _ mm c HI3 (lookup_insert_eq _ _ _)) as [_ D]. by apply (D p 0 p a (lookup_insert_eq _ _ _) (covers_self p 0 ltac:(lia))).
      - rewrite F1. symmetry. by apply (pfn_to_addr_same _ _ p (lay_pool _ _ Hl4)). }
    split; [|done]. rewrite Hr4. change (refcount (pa k3)) with (refcount b). rewrite Hr. apply arr_get_insert.
Qed.

(** [mm_alloc] makes an empty address space in memory that was free, with
    one user and the break at zero: nothing is mapped in it, whatever the
    memory held before.  All other pages and objects keep their bytes and
    their references, also when the call fails and returns NULL. *)
Theorem mm_alloc_correct k P O :
  booted k P O ->
  exists mm k', mm_alloc k = Some (mm, k') /\ slub_frame k k' P O /\
    ((mm = 0 /\ booted k' P O) \/
     (mm <> 0 /\ exists p c, O !! mm = None /\ outside P p /\ booted k' (<[p := 0]> P) (<[mm := c]> O) /\
        mem_inv k' (<[p := 0]> P) (<[mm := c]> O) mm [] ((p, ∅) : tree 3) /\ (refcount (pa k')).[p] = 1 /\ fresh_mm k' mm)).
Proof. apply mm_alloc_spec. Qed.

(** ** Next to another process *)

(** What a process is made of is kept; it may lose and gain references. *)
Record carried (k : slub) (mm : Z) (V : list vma) (t : tree 3) (k' : slub) (P' : gmap Z Z) : Prop := {
  ca_layout : same_layout k k';
  ca_areas : forall v e, v ∈ V -> 0 <= e < 32 -> rd k' (vptr v + e) = rd k (vptr v + e);
  ca_mm : rd k' (mm + MM_mmap) = rd k (mm + MM_mmap) /\ rd k' (mm + MM_pgd) = rd k (mm + MM_pgd);
  ca_tables : forall q, q ∈ owned 3 t -> P' !! q = Some 0 /\ forall a, in_page (pa k) q a -> rd k' a = rd k a;
  ca_leaves : forall e, e ∈ ptes 3 t -> P' !! pte_pfn k e = Some 0 /\ forall a, in_page (pa k) (pte_pfn k e) a -> rd k' a = rd k a;
  ca_refs : forall q, 0 < uses k t q -> uses k t q <= (refcount (pa k')).[q];
  ca_private : private k' t
}.

Lemma carried_mem k P R mm V t k' P' R' :
  mem_inv k P R mm V t -> carried k mm V t k' P' -> R' !! mm = R !! mm -> vobjs V ##ₘ R' -> slub_inv k' P' (vobjs V ∪ R') ->
  mem_inv k' P' R' mm V t /\ forall va, user_byte k' t va = user_byte k t va.
Proof.
  intros [[HR HT] HS Hpg Hb Hpr] [C1 C2 [C3 C4] C5 C6 C7 C8] Hmm Hd HI. assert (Hs := lay_pool _ _ C1). destruct HT as [T1 T2 T3 T4 T5 T6 T7].
  split; [split; try done|].
  - split; [by apply (rep_cells k k' P P' R)|]. split; try done.
    + by destruct Hs as (-> & _).
    + rewrite C4, T2. symmetry. by apply pfn_to_addr_same.
    + apply (rep_same 3 k); [done| |done]. intros q a Hq Ha. by apply (proj2 (C5 q Hq)).
    + intros q Hq. by apply C5.
    + intros e He. rewrite (pte_pfn_same k k') by done. split; [by apply C6|by apply T6].
    + intros q. rewrite (uses_same k k') by done. apply C7.
  - intros va. unfold user_byte. destruct (leaf_at t va) as [e|] eqn:E; [|done]. cbn. f_equal. rewrite (pte_pfn_same k k') by done.
    unfold base_of. rewrite (pfn_to_addr_same _ _ _ Hs). apply (C6 e (leaf_in _ _ _ E)), in_base.
Qed.

(** What allocates without touching the objects and pages in use keeps a
    process. *)
Lemma mem_beside k P R mm V t k' P' R' :
  mem_inv k P R mm V t -> slub_frame k k' P (vobjs V ∪ R) -> P ⊆ P' -> R ⊆ R' -> vobjs V ##ₘ R' -> slub_inv k' P' (vobjs V ∪ R') ->
  mem_inv k' P' R' mm V t /\ forall va, user_byte k' t va = user_byte k t va.
Proof.
  intros HM [Fl Fr Fp Fo] HP HRR Hd HI. destruct (HM) as [[HR HT] _ _ _ Hpr]. destruct (mr_mm _ _ _ _ _ HR) as (c & Hc & Hsz). destruct HT as [_ _ _ _ T5 T6 T7].
  assert (Hs := lay_pool _ _ Fl).
  assert (Href : forall e, e ∈ ptes 3 t -> (refcount (pa k')).[pte_pfn k e] = (refcount (pa k)).[pte_pfn k e]) by (intros e He; apply Fr; by rewrite (proj1 (T6 e He))).
  apply (carried_mem k P R); [done| |rewrite Hc; by eapply lookup_weaken|done|done]. split; try done.
  - intros v e Hv He. apply (Fo (vptr v) vma_cache); [by eapply rep_own|rewrite (rep_vma_size HR); lia].
  - split; apply (Fo mm c); try (by eapply rep_rest); unfold SIZEOF_MM, MM_pgd, MM_mmap in *; lia.
  - intros q Hq. split; [by apply (lookup_weaken _ _ _ _ (T5 q Hq))|]. intros a Ha. apply (Fp q 0 q a); [by apply T5|by apply covers_self|done].
  - intros e He. destruct (T6 e He) as [HPe _]. split; [by apply (lookup_weaken _ _ _ _ HPe)|]. intros a Ha. by apply (Fp (pte_pfn k e) 0 (pte_pfn k e) a); [|apply covers_self|].
  - intros q Hq. destruct (uses_elem k t q Hq) as (e & He & <-). rewrite Href by done. by apply T7.
  - intros va e Hva He Hw. rewrite (pte_pfn_same k k'), Href by (done || by eapply leaf_in). by apply (Hpr va).
Qed.

(** [exec] replaces an address space by one that [mm_alloc] made; the two do
    not interfere. *)
Lemma mm_alloc_pair k P R mm V t mm' k' p c :
  mem_inv k P R mm V t -> slub_frame k k' P (vobjs V ∪ R) -> outside P p -> (vobjs V ∪ R) !! mm' = None ->
  mem_inv k' (<[p := 0]> P) (<[mm' := c]> (vobjs V ∪ R)) mm' [] ((p, ∅) : tree 3) ->
  pair k' (<[p := 0]> P) (<[mm' := c]> R) mm V t mm' [] (p, ∅) /\ forall va, user_byte k' t va = user_byte k t va.
Proof.
  intros HA Hf Hout Hn HB. assert (Hd := mr_disj _ _ _ _ _ (me_areas _ _ _ _ _ _ (mi_mem _ _ _ _ _ _ HA))). apply lookup_union_None in Hn as [Hn1 Hn2].
  assert (Hpn : P !! p = None).
  { destruct (P !! p) as [o|] eqn:E; [|done]. destruct (Hout p o E). apply covers_self. destruct (mem_open _ _ _ _ _ _ (mi_mem _ _ _ _ _ _ HA)) as (S & PL & c' & Hrep & _).
    destruct (used_page _ _ _ _ _ _ Hrep E) as [Hu _]. destruct (inv_used_block _ _ _ _ (sr_buddy _ _ _ _ Hrep) Hu) as ((? & _) & _). lia. }
  assert (HE : <[mm' := c]> (vobjs V ∪ R) = vobjs V ∪ <[mm' := c]> R) by (by apply insert_union_r).
  assert (HIe : slub_inv k' (<[p := 0]> P) (vobjs V ∪ <[mm' := c]> R)).
  { assert (H := mr_inv _ _ _ _ _ (me_areas _ _ _ _ _ _ (mi_mem _ _ _ _ _ _ HB))). unfold vobjs in H at 1. cbn in H. rewrite map_empty_union in H. by rewrite HE in H. }
  assert (Hd' : vobjs V ##ₘ <[mm' := c]> R) by (by apply map_disjoint_insert_r_2).
  destruct (mem_beside k P R mm V t k' (<[p := 0]> P) (<[mm' := c]> R) HA Hf) as [HA' Hu]; [by apply insert_subseteq|by apply insert_subseteq|done|done|].
  destruct (me_tables _ _ _ _ _ _ (mi_mem _ _ _ _ _ _ HA)) as [_ _ _ _ T5 T6 _]. destruct (mr_mm _ _ _ _ _ (me_areas _ _ _ _ _ _ (mi_mem _ _ _ _ _ _ HA))) as (ca & Hca & _).
  assert (Hs := lay_pool _ _ (fr_layout _ _ _ _ Hf)). assert (Ho : owned 3 ((p, ∅) : tree 3) = [p]) by done. assert (He : ptes 3 ((p, ∅) : tree 3) = []) by done. split; [|done]. split.
  - unfold vobjs at 1. cbn. by rewrite map_empty_union.
  - by rewrite <- HE.
  - split; [congruence|]. rewrite lookup_insert_eq, lookup_insert_ne by congruence. by rewrite Hca.
  - rewrite Ho. intros q Hq ->%list_elem_of_singleton. by rewrite T5 in Hpn.
  - rewrite Ho. intros e Hin Hq%list_elem_of_singleton. rewrite (pte_pfn_same k k') in Hq by done. rewrite <- Hq in Hpn. by rewrite (proj1 (T6 e Hin)) in Hpn.
  - rewrite He. intros e Hin. by apply not_elem_of_nil in Hin.
  - intros q. replace (uses k' (p, ∅) q) with 0 by (unfold uses; by rewrite He). intros Hq.
    assert (H := tb_refs _ _ _ _ (me_tables _ _ _ _ _ _ (mi_mem _ _ _ _ _ _ HA')) q). lia.
Qed.

(** ** Concrete address spaces *)

Lemma booted_init b A :
  buddy_inv b A -> KERNEL_VIRT_BASE <= mem_start b -> max_order b < 15 -> booted (mmap_init (slub_init (mkSlub b ∅))) A ∅.
Proof.
  intros Hb Hs Ho. split; try done.
  - apply mmap_init_inv; [by apply slub_init_inv|by vm_compute].
  - intros size Hz. unfold cache_for_size. cbv zeta.
    repeat (case Z.leb_spec; [intros Hle; splits; [done|eexists; vm_compute; reflexivity|etransitivity; [exact Hle|by vm_compute]]|intros ?]); lia.
Qed.

Lemma kv_booted : booted kv ∅ ∅.
Proof. apply booted_init; [exact pool16_inv|by vm_compute..]. Qed.

(** The code of a result, and the state that it leaves. *)
Definition after (k : slub) (r : option (Z * slub)) : slub := default k (snd <$> r).

Lemma after_eq k r c k' : r = Some (c, k') -> after k r = k'.
Proof. by intros ->. Qed.

Lemma code_eq (r : option (Z * slub)) c k' n : code_of r = n -> r = Some (c, k') -> c = n.
Proof. intros <- ->. done. Qed.

(** An address space, ... *)
Definition mA : Z := code_of (mm_alloc kv).
Definition kA : slub := after kv (mm_alloc kv).

Lemma kA_inv : exists P R t, booted kA P R /\ mem_inv kA P R mA [] t /\ fresh_mm kA mA.
Proof.
  destruct (mm_alloc_spec kv ∅ ∅ kv_booted) as (mm & k' & E & _ & H). assert (Em := code_eq _ _ _ mA eq_refl E). assert (Ek := after_eq kv _ _ _ E).
  destruct H as [[H0 _]|(_ & p & c & _ & _ & Hb & HI & _ & Hf)].
  - exfalso. rewrite H0 in Em. revert Em. vm_compute. discriminate.
  - exists (<[p := 0]> ∅), (<[mm := c]> ∅), (p, ∅). unfold kA. rewrite Ek, <- Em. exact (conj Hb (conj HI Hf)).
Qed.

Lemma mem_booted k P R mm V k' P' R' V' t' D :
  booted k P (vobjs V ∪ R) -> mem_inv k' P' R mm V' t' -> kept k k' R' D -> booted k' P' (vobjs V' ∪ R).
Proof. intros Hb HI [Hl _]. apply (booted_layout k k' _ _ _ _ Hb Hl), (me_areas _ _ _ _ _ _ (mi_mem _ _ _ _ _ _ HI)). Qed.

(** ... with two pages mapped, ... *)
Definition demo_call (k : slub) : option (Z * slub) := do_mmap k mA 0 8192 3 0x22.
Definition kB : slub := after kA (demo_call kA).

Definition demo_area (a : Z) : option Z := if decide (0x2000000 <= a < 0x2002000) then Some 3 else None.

(** The case of a call that its result code picks. *)
Ltac by_code E H n :=
  match type of E with ?r = Some (?c, _) =>
    let Er := fresh in let W := fresh in
    assert (W : code_of r = n) by (vm_compute; reflexivity);
    assert (Er := code_eq _ _ _ n W E); rewrite Er in E, H; clear Er W
  end.

Lemma fresh_limits k mm : fresh_mm k mm -> limits k mm.
Proof. intros [F1 _ F4 _]. split; [rewrite F4; by vm_compute|by left]. Qed.

Lemma demo_area_eq a : (if decide (0x2000000 <= a < 0x2000000 + page_align 8192) then Some 3 else space_at [] a) = demo_area a.
Proof.
  unfold demo_area. change (page_align 8192) with 8192. by replace (0x2000000 + 8192) with 0x2002000 by lia.
Qed.

Lemma kB_inv : exists P R V t, booted kB P (vobjs V ∪ R) /\ mem_inv kB P R mA V t /\ (forall a, space_at V a = demo_area a) /\
  user_byte kB t 0x2000123 = None.
Proof.
  destruct kA_inv as (P & R & t & Hb & HI & Hf).
  destruct (do_mmap_spec kA P R mA [] t 0 8192 3 0x22 HI (fresh_limits kA mA Hf)) as (r & k' & E & H); [by vm_compute..|].
  by_code E H 0x2000000. assert (Ek := after_eq kA _ _ _ E). rewrite decide_False in H by (clear; vm_compute; intuition discriminate).
  destruct H as [H _ _ _|H _ _ _ _|H _ _|P' V' t' H _ _ _|P' V' t' _ _ _ _ [HI' _ Hk _ Hsp Hu]]; [discriminate H..|].
  exists P', R, V', t'. unfold kB, demo_call. rewrite Ek. split; [|split; [exact HI'|split]].
  - refine (mem_booted kA P R mA [] k' P' R V' t' _ _ HI' Hk). unfold vobjs at 1. cbn. rewrite map_empty_union. exact Hb.
  - intros a. rewrite Hsp. apply demo_area_eq.
  - rewrite Hu; [|clear; by vm_compute]. reflexivity.
Qed.

Lemma do_mmap_correct_witness :
  exists P R V t k', do_mmap kA mA 0 8192 3 0x22 = Some (0x2000000, k') /\ mem_inv k' P R mA V t /\ space_at V 0x2001fff = Some 3.
Proof.
  destruct kA_inv as (P & R & t & Hb & HI & Hf).
  destruct (do_mmap_correct kA P R mA [] t 0 8192 3 0x22 HI (fresh_limits kA mA Hf)) as (r & k' & E & H); [by vm_compute..|].
  by_code E H 0x2000000. rewrite decide_False in H by (clear; vm_compute; intuition discriminate).
  destruct H as [H _ _ _|H _ _ _ _|H _ _|P' V' t' H _ _ _|P' V' t' _ _ _ _ [HI' _ _ _ Hsp _]]; [discriminate H..|].
  exists P', R, V', t', k'. refine (conj E (conj HI' _)). rewrite Hsp. apply demo_area_eq.
Defined.

(** ... and the first of them written to. *)
Definition write_esr : Z := ESR_ELx_WNR.
Definition kC : slub := after kB (do_page_fault kB mA 0x2000123 write_esr).

Lemma kC_inv : exists P R V t, booted kC P (vobjs V ∪ R) /\ mem_inv kC P R mA V t /\ (forall a, space_at V a = demo_area a) /\
  user_byte kC t 0x2000123 = Some 0.
Proof.
  destruct kB_inv as (P & R & V & t & Hb & HI & Hsp & H0). destruct (do_page_fault_spec kB P R mA V t 0x2000123 write_esr HI) as (r & k' & E & H).
  by_code E H 0. assert (Ek := after_eq kB _ _ _ E).
  destruct H as [[H _]|(f & P' & t' & _ & _ & HI' & _ & Ho & [[H _]|(_ & _ & Hu)])]; [discriminate H|discriminate H|].
  exists P', R, V, t'. unfold kC. rewrite Ek. split; [|split; [exact HI'|split; [exact Hsp|]]].
  - apply (booted_layout kB k' _ _ _ _ Hb (proj1 Ho)). apply (me_areas _ _ _ _ _ _ (mi_mem _ _ _ _ _ _ HI')).
  - rewrite Hu, H0; [reflexivity|clear; by vm_compute].
Qed.

Lemma mm_alloc_correct_witness :
  exists mm k' P R t, mm_alloc kv = Some (mm, k') /\ mm <> 0 /\ mem_inv k' P R mm [] t.
Proof.
  destruct (mm_alloc_correct kv ∅ ∅ kv_booted) as (mm & k' & E & _ & H).
  destruct H as [[H _]|(Hn & p & c & _ & _ & _ & HI & _)].
  - exfalso. assert (W : code_of (mm_alloc kv) <> 0) by (vm_compute; discriminate). rewrite E in W. exact (W H).
  - exists mm, k', (<[p := 0]> ∅), (<[mm := c]> ∅), (p, ∅). exact (conj E (conj Hn HI)).
Defined.

Lemma do_page_fault_correct_witness :
  exists P R V t k' P' t', mem_inv kB P R mA V t /\ user_byte kB t 0x2000123 = None /\
    do_page_fault kB mA 0x2000123 write_esr = Some (0, k') /\ mem_inv k' P' R mA V t' /\ user_byte k' t' 0x2000123 = Some 0.
Proof.
  destruct kB_inv as (P & R & V & t & Hb & HI & Hsp & H0). destruct (do_page_fault_correct kB P R mA V t 0x2000123 write_esr HI) as (r & k' & E & H).
  by_code E H 0. destruct H as [[H _]|(f & P' & t' & _ & _ & HI' & _ & _ & [[H _]|(_ & _ & Hu)])]; [discriminate H|discriminate H|].
  exists P, R, V, t, k', P', t'. refine (conj HI (conj H0 (conj E (conj HI' _)))). rewrite Hu, H0; [reflexivity|clear; by vm_compute].
Defined.

Lemma do_munmap_correct_witness :
  exists P R V t k' P' V' t', mem_inv kC P R mA V t /\ user_byte kC t 0x2000123 = Some 0 /\ do_munmap kC mA 0x2000000 4096 = Some (0, k') /\
    mem_inv k' P' R mA V' t' /\ user_byte k' t' 0x2000123 = None /\ space_at V' 0x2000fff = None /\ space_at V' 0x2001000 = Some 3.
Proof.
  destruct kC_inv as (P & R & V & t & Hb & HI & Hsp & H0).
  destruct (do_munmap_correct kC P R mA V t 0x2000000 4096 HI) as (r & k' & E & H); [clear; by vm_compute..|].
  by_code E H 0. rewrite !decide_False in H by (clear; vm_compute; intuition discriminate). destruct H as [[H _]|(_ & P' & V' & t' & [HI' _ _ Hs' Hu])]; [discriminate H|].
  exists P, R, V, t, k', P', V', t'. refine (conj HI (conj H0 (conj E (conj HI' (conj _ (conj _ _)))))).
  - rewrite Hu; [reflexivity|clear; by vm_compute].
  - rewrite Hs'. reflexivity.
  - rewrite Hs', Hsp. reflexivity.
Defined.

Lemma mm_mprotect_correct_witness :
  exists P R V t k' V' t', mem_inv kC P R mA V t /\ mm_mprotect kC mA 0x2001000 0x2002000 1 = Some (0, k') /\ mem_inv k' P R mA V' t' /\
    space_at V' 0x2000000 = Some 3 /\ space_at V' 0x2001000 = Some 1 /\ user_byte k' t' 0x2000123 = Some 0.
Proof.
  destruct kC_inv as (P & R & V & t & Hb & HI & Hsp & H0).
  destruct (mm_mprotect_correct kC P R mA V t 0x2001000 0x2002000 1 HI) as (r & k' & V' & t' & E & HI' & _ & Hu & H);
    [clear; split; [by vm_compute|split; [by vm_compute|split; [by exists 0x2001|by exists 0x2002]]]|clear; by vm_compute|].
  by_code E H 0. destruct H as [[H _]|(_ & _ & Hs')]; [discriminate H|]. exists P, R, V, t, k', V', t'.
  refine (conj HI (conj E (conj HI' (conj _ (conj _ _))))).
  - rewrite Hs', Hsp. reflexivity.
  - rewrite Hs', Hsp. reflexivity.
  - rewrite Hu, H0; [reflexivity|clear; by vm_compute].
Defined.

Lemma no_start V s : sorted 0 (areas V) -> space_at V s = None -> find_start s V = None.
Proof.
  intros Hso Hn. destruct (find_start s V) as [v|] eqn:E; [|done]. exfalso. apply find_start_split in E as (V1 & V2 & -> & Ev).
  rewrite (area_flags V1 v V2 s Hso) in Hn; [done|]. rewrite areas_app in Hso. apply sorted_app in Hso as (_ & _ & Hlt & _). cbn in Hlt. lia.
Qed.

(** A process with a stack and an empty heap at [s]. *)
Definition set_heap (k : slub) (mm top s : Z) : slub := wr (wr (wr k (mm + MM_stack_top) top) (mm + MM_start_brk) s) (mm + MM_brk) s.

Lemma set_heap_ok k P R mm V t top s :
  mem_inv k P R mm V t -> (PAGE_SIZE | s) -> 0 <= s < USER_TOP -> space_at V s = None ->
  let k' := set_heap k mm top s in
  mem_inv k' P R mm V t /\ heap_ok k' mm V /\ rd k' (mm + MM_stack_top) = top /\ rd k' (mm + MM_start_brk) = s /\ rd k' (mm + MM_brk) = s /\
  forall va, uaddr va -> user_byte k' t va = user_byte k t va.
Proof.
  intros HI Hd Hs Hn k'. destruct (mem_inv_field k P R mm V t MM_stack_top top HI) as (HI1 & Hr1 & _); [by vm_compute..|]. set (k1 := wr k (mm + MM_stack_top) top) in *.
  destruct (mem_inv_field k1 P R mm V t MM_start_brk s HI1) as (HI2 & Hr2 & _); [by vm_compute..|]. set (k2 := wr k1 (mm + MM_start_brk) s) in *.
  destruct (mem_inv_field k2 P R mm V t MM_brk s HI2) as (HI3 & Hr3 & _); [by vm_compute..|]. fold (set_heap k mm top s) in HI3, Hr3. fold k' in HI3, Hr3.
  assert (Hr := released_trans _ _ _ _ _ _ _ _ _ (released_trans _ _ _ _ _ _ _ _ _ Hr1 Hr2) Hr3).
  assert (E1 : rd k' (mm + MM_brk) = s) by apply rd_wr_eq.
  assert (E2 : rd k' (mm + MM_start_brk) = s) by (unfold k', set_heap; rewrite rd_wr_ne by (unfold MM_brk, MM_start_brk; lia); apply rd_wr_eq).
  assert (E3 : rd k' (mm + MM_stack_top) = top).
  { unfold k', set_heap. do 2 rewrite rd_wr_ne by (unfold MM_brk, MM_start_brk, MM_stack_top; lia). apply rd_wr_eq. }
  split; [done|]. split; [|split; [done|split; [done|split; [done|]]]].
  - unfold heap_ok. rewrite E1, E2. split; [lia|]. split; [done|]. split; [lia|].
    by rewrite (no_start V s (mi_sorted _ _ _ _ _ _ HI) Hn).
  - intros va Hva. apply (byte_kept k P mm t k' P t); [apply HI|apply HI3|done|done].
Qed.

Definition kD : slub := set_heap kC mA USER_STACK_TOP 0x400000.

Lemma do_brk_correct_witness :
  exists P R V t k' P' V' t', mem_inv kD P R mA V t /\ do_brk kD mA 0x401234 = Some (0x401234, k') /\ mem_inv k' P' R mA V' t' /\
    space_at V' 0x401fff = Some 3 /\ space_at V' 0x402000 = None /\ user_byte k' t' 0x2000123 = Some 0.
Proof.
  destruct kC_inv as (P & R & V & t & Hb & HI & Hsp & H0).
  destruct (set_heap_ok kC P R mA V t USER_STACK_TOP 0x400000 HI) as (HD & Hh & E1 & E2 & E3 & Hu);
    [clear; by exists 0x400|clear; by vm_compute|rewrite Hsp; reflexivity|]. fold kD in HD, Hh, E1, E2, E3, Hu.
  destruct (do_brk_correct kD P R mA V t 0x401234 HD Hh) as (r & k' & E & H); [rewrite E1; clear; by vm_compute|clear; by vm_compute|].
  by_code E H 0x401234. destruct H as [[H _]|(_ & _ & P' & V' & t' & [HI' _ _ _ _ Ha Hu'])]; [exfalso; rewrite E3 in H; discriminate H|].
  cbv zeta in Ha. rewrite E2, E3 in Ha. rewrite E3 in Hu'. exists P, R, V, t, k', P', V', t'. refine (conj HD (conj E (conj HI' (conj _ (conj _ _))))).
  - rewrite Ha. unfold heap_flags. rewrite (no_start V 0x400000 (mi_sorted _ _ _ _ _ _ HI)); [reflexivity|]. rewrite Hsp. reflexivity.
  - rewrite Ha, Hsp. reflexivity.
  - rewrite Hu', Hu, H0; [reflexivity|clear; by vm_compute..].
Defined.

(** A second process next to the first. *)
Definition mB : Z := code_of (mm_alloc kC).
Definition kE : slub := after kC (mm_alloc kC).

Lemma kE_pair : exists P R V t t', pair kE P R mB [] t' mA V t /\ limits kE mA /\ limits kE mB /\ user_byte kE t 0x2000123 = Some 0.
Proof.
  assert (HL : limits kE mA /\ limits kE mB).
  { split; (split; [split; [vm_compute; reflexivity|vm_compute; discriminate]|left; vm_compute; reflexivity]). }
  destruct kC_inv as (P & R & V & t & Hb & HI & Hsp & H0). destruct (mm_alloc_spec kC P _ Hb) as (mm & k' & E & Hf & H).
  assert (Em := code_eq _ _ _ mB eq_refl E). assert (Ek := after_eq kC _ _ _ E). unfold kE in *. rewrite Ek in *. rewrite Em in H. clear Em E Ek.
  destruct H as [[H _]|(_ & p & c & Hn & Hout & _ & HB & _)]; [exfalso; revert H; vm_compute; discriminate|].
  destruct (mm_alloc_pair kC P R mA V t mB k' p c HI Hf Hout Hn HB) as [Hpr Hu].
  exists (<[p := 0]> P), (<[mB := c]> R), V, t, (p, ∅). split; [exact (pair_sym _ _ _ _ _ _ _ _ _ Hpr)|]. destruct HL as [L1 L2]. refine (conj L1 (conj L2 _)).
  rewrite Hu. exact H0.
Qed.

Definition demo_events : list event :=
  [Mmap 0 8192 3 0x22 (-1); Fault 0x2000123 write_esr; Store 0x2000123 7; Mprotect 0x2000000 8192 1; Munmap 0x2000000 4096; Munmap 0x2000001 1; Brk 0].

Lemma interleaving_safe_witness :
  let cs := alone demo_events ++ [(false, Store 0x2000123 9)] in
  exists P R V t V' t' k', orderly kE mB mA cs = true /\ run kE mB mA cs = Some k' /\ pair k' P R mB V t mA V' t'.
Proof.
  intros cs. destruct kE_pair as (P & R & V & t & t' & Hpr & L1 & L2 & _). assert (Ho : orderly kE mB mA cs = true) by (vm_compute; reflexivity).
  destruct (interleaving_safe kE P R mB [] t' mA V t cs Hpr L2 L1 Ho) as (k' & P' & V1 & t1 & V2 & t2 & E & Hpr').
  exists P', R, V1, t1, V2, t2, k'. exact (conj Ho (conj E Hpr')).
Defined.

Lemma process_isolated_witness :
  exists k' P R V t V' t', orderly kE mB mA (alone demo_events) = true /\ run kE mB mA (alone demo_events) = Some k' /\ pair k' P R mB V t mA V' t' /\
    user_byte k' t' 0x2000123 = Some 0.
Proof.
  destruct kE_pair as (P & R & V & t & t' & Hpr & L1 & L2 & H0). assert (Ho : orderly kE mB mA (alone demo_events) = true) by (vm_compute; reflexivity).
  destruct (process_isolated kE P R mB [] t' mA V t demo_events Hpr L2 Ho) as (k' & P' & V1 & t1 & E & Hpr' & Hu).
  exists k', P', R, V1, t1, V, t. refine (conj Ho (conj E (conj Hpr' _))). rewrite Hu. exact H0.
Defined.
