(* ===== verification/PageFree.v ===== *)
(** * Releasing page tables ([free_pgtable_level] in [mm/mmap.c])

    A tree of tables is given back: its tables become free, every page it maps
    loses one reference per mapping and becomes free without references, and
    all other memory keeps its bytes. *)
From S2P Require Import Prelude PageAlloc Slub Errno AddrSpace Vma PageTable PageTree PageMap.

(** ** Entries below an index *)

Definition upto {T} (i : Z) (m : gmap Z T) : gmap Z T := filter (fun ic => ic.1 < i) m.

Section Upto.
Context {T : Type}.
Implicit Types (m : gmap Z T).

Lemma upto_lookup i m j : upto i m !! j = if decide (j < i) then m !! j else None.
Proof.
  unfold upto. destruct (m !! j) as [c|] eqn:E.
  - case_decide as D; [by apply map_lookup_filter_Some|apply map_lookup_filter_None; right; intros c' _; by cbn].
  - rewrite (proj2 (map_lookup_filter_None _ _ _)); [by case_decide|by left].
Qed.

Lemma upto_0 m : (forall j, is_Some (m !! j) -> 0 <= j) -> upto 0 m = ∅.
Proof.
  intros H. apply map_eq. intros j. rewrite upto_lookup, lookup_empty. case_decide; [|done].
  destruct (m !! j) eqn:E; [|done]. specialize (H j ltac:(by eexists)). lia.
Qed.

Lemma upto_all n m : (forall j, is_Some (m !! j) -> j < n) -> upto n m = m.
Proof.
  intros H. apply map_eq. intros j. rewrite upto_lookup. case_decide; [done|].
  destruct (m !! j) eqn:E; [|done]. specialize (H j ltac:(by eexists)). lia.
Qed.

Lemma upto_succ_none i m : m !! i = None -> upto (i + 1) m = upto i m.
Proof.
  intros H. apply map_eq. intros j. rewrite !upto_lookup. destruct (decide (j = i)) as [->|]; [by rewrite H; repeat case_decide|].
  repeat case_decide; done || lia.
Qed.

Lemma upto_succ_some i m c : m !! i = Some c -> upto (i + 1) m = <[i := c]> (upto i m).
Proof.
  intros H. apply map_eq. intros j. rewrite upto_lookup. destruct (decide (j = i)) as [->|].
  - rewrite lookup_insert_eq, decide_True by lia. done.
  - rewrite lookup_insert_ne, upto_lookup by done. repeat case_decide; done || lia.
Qed.

Lemma upto_none i m : upto i m !! i = None.
Proof. rewrite upto_lookup, decide_False by lia. done. Qed.

Lemma kids_upto (f : T -> list Z) i m c : m !! i = Some c -> kids f (upto (i + 1) m) ≡ₚ f c ++ kids f (upto i m).
Proof. intros H. rewrite (upto_succ_some i m c H). apply kids_insert, upto_none. Qed.
End Upto.

(** How many of the entries [l] lead to page [q]. *)
Definition cnt (k : slub) (l : list Z) (q : Z) : Z := Z.of_nat (length (filter (fun e => pte_pfn k e = q) l)).

Lemma cnt_app k l l' q : cnt k (l ++ l') q = cnt k l q + cnt k l' q.
Proof. unfold cnt. rewrite filter_app, length_app. lia. Qed.

Lemma cnt_nil k q : cnt k [] q = 0.
Proof. done. Qed.

Lemma cnt_one k e q : cnt k [e] q = if decide (pte_pfn k e = q) then 1 else 0.
Proof. unfold cnt. cbn. case_decide; by rewrite ?filter_cons_True, ?filter_cons_False by done. Qed.

Lemma cnt_perm k l l' q : l ≡ₚ l' -> cnt k l q = cnt k l' q.
Proof. intros H. unfold cnt. by rewrite H. Qed.

Lemma cnt_nonneg k l q : 0 <= cnt k l q.
Proof. unfold cnt. lia. Qed.

Lemma cnt_pos k l q : 0 < cnt k l q -> exists e, e ∈ l /\ pte_pfn k e = q.
Proof.
  unfold cnt. intros H. destruct (filter (fun e => pte_pfn k e = q) l) as [|e l'] eqn:E; [cbn in H; lia|].
  exists e. assert (He : e ∈ filter (fun e => pte_pfn k e = q) l) by (rewrite E; left). apply list_elem_of_filter in He. tauto.
Qed.

Lemma cnt_elem k l e : e ∈ l -> 0 < cnt k l (pte_pfn k e).
Proof.
  intros H. unfold cnt. destruct (filter (fun e0 => pte_pfn k e0 = pte_pfn k e) l) as [|x l'] eqn:E; [|cbn; lia].
  assert (He : e ∈ filter (fun e0 => pte_pfn k e0 = pte_pfn k e) l) by (by apply list_elem_of_filter). rewrite E in He. by apply not_elem_of_nil in He.
Qed.

Lemma cnt_same k k' l q : same_pool (pa k) (pa k') -> cnt k' l q = cnt k l q.
Proof. intros Hs. unfold cnt. do 2 f_equal. apply list_filter_iff. intros e. by rewrite (pte_pfn_same k k'). Qed.

(** ** Pages given back *)

(** The tables [gone] were freed and the entries [refs] dropped. *)
Record dropped (k : slub) (P O : gmap Z Z) (gone refs : list Z) (k' : slub) (P' : gmap Z Z) : Prop := {
  dr_inv : slub_inv k' P' O;
  dr_layout : same_layout k k';
  dr_pages : forall q o, P' !! q = Some o <-> P !! q = Some o /\ (q ∉ gone) /\ (cnt k refs q = 0 \/ cnt k refs q < (refcount (pa k)).[q]);
  dr_ref : forall q, is_Some (P' !! q) -> (refcount (pa k')).[q] = (refcount (pa k)).[q] - cnt k refs q;
  dr_bytes : forall p o q a, P' !! p = Some o -> covers p o q -> in_page (pa k) q a -> rd k' a = rd k a;
  dr_objs : forall x c a, O !! x = Some c -> x <= a < x + object_size (cache_of k c) -> rd k' a = rd k a
}.

Lemma dropped_refl k P O : slub_inv k P O -> dropped k P O [] [] k P.
Proof.
  intros HI. split; try done.
  - intros q o. rewrite cnt_nil. split; [intros H; split; [done|split; [apply not_elem_of_nil|by left]]|tauto].
  - intros q _. rewrite cnt_nil. lia.
Qed.

Lemma dropped_trans k P O g1 r1 k1 P1 g2 r2 k2 P2 :
  dropped k P O g1 r1 k1 P1 -> dropped k1 P1 O g2 r2 k2 P2 -> dropped k P O (g1 ++ g2) (r1 ++ r2) k2 P2.
Proof.
  intros [I1 L1 G1 R1 B1 O1] [I2 L2 G2 R2 B2 O2]. assert (Hs := lay_pool _ _ L1).
  assert (Hc : forall q, cnt k1 r2 q = cnt k r2 q) by (intros q; by apply cnt_same).
  assert (Hsub : forall q o, P2 !! q = Some o -> P1 !! q = Some o) by (intros q o Hq; by apply G2 in Hq as [? _]).
  split; try done.
  - by etrans.
  - intros q o. rewrite G2, not_elem_of_app, cnt_app, Hc. assert (H1 := cnt_nonneg k r1 q). assert (H2 := cnt_nonneg k r2 q). split.
    + intros (HP1 & Hg & Hr). rewrite (R1 q) in Hr by eauto. apply G1 in HP1 as (HP & Hg1 & Hr1). split; [done|]. split; [done|]. lia.
    + intros (HP & [Hg1 Hg2] & Hr). assert (HP1 : P1 !! q = Some o) by (apply G1; split; [done|]; split; [done|]; lia).
      split; [done|]. split; [done|]. rewrite (R1 q) by eauto. lia.
  - intros q [o Hq]. rewrite (R2 q), (R1 q), cnt_app, Hc by eauto. lia.
  - intros p o q a Hp Hcv Ha. rewrite (B2 p o q), (B1 p o q); try done; [by apply Hsub|]. unfold in_page in *. by rewrite (pfn_to_addr_same _ _ _ Hs).
  - intros x c a Hx Ha. rewrite (O2 x c), (O1 x c); try done. by rewrite (lay_size _ _ L1).
Qed.

Lemma dropped_perm k P O g1 r1 g2 r2 k' P' : g1 ≡ₚ g2 -> r1 ≡ₚ r2 -> dropped k P O g1 r1 k' P' -> dropped k P O g2 r2 k' P'.
Proof.
  intros Hg Hr [I L G R B Ob]. split; try done.
  - intros q o. rewrite G, (cnt_perm _ _ _ _ Hr). by rewrite Hg.
  - intros q Hq. rewrite R by done. by rewrite (cnt_perm _ _ _ _ Hr).
Qed.

(** ** One page *)

Lemma slub_ref_pos k P O p o : slub_inv k P O -> P !! p = Some o -> 1 <= (refcount (pa k)).[p] < 2 ^ 31.
Proof.
  intros (S & PL & HR & _) Hp. destruct (used_page _ _ _ _ _ _ HR Hp) as [Hu _]. assert (HI := sr_buddy _ _ _ _ HR).
  destruct (inv_used_block _ _ _ _ HI Hu) as (_ & Hr & _). destruct HI as (L & B & _ & _ & _ & HF). specialize (HF p Hr). rewrite Hu in HF. lia.
Qed.

(** A reference of a page is dropped. *)
Lemma drop_leaf k P O e :
  slub_inv k P O -> P !! pte_pfn k e = Some 0 ->
  exists b P', put_page (pa k) (Some (pte_pfn k e)) = Some b /\ dropped k P O [] [e] (set_pa k b) P'.
Proof.
  intros HI Hp. set (p := pte_pfn k e) in *. destruct (slub_ref_pos k P O p 0 HI Hp) as [Hr _].
  assert (Hc : forall q, cnt k [e] q = if decide (p = q) then 1 else 0) by (intros q; apply cnt_one).
  destruct (decide ((refcount (pa k)).[p] = 1)) as [E1|E1].
  - destruct (slub_put_page_last k P O p HI Hp E1) as (b & E & HI' & [Fl Fr Fp Fo] & Eb). exists b, (delete p P). split; [done|]. split; try done.
    + intros q o. rewrite lookup_delete_Some, Hc. split.
      * intros [Hne Hq]. split; [done|]. split; [apply not_elem_of_nil|]. left. by rewrite decide_False.
      * intros (Hq & _ & Hq'). split; [|done]. intros <-. rewrite decide_True in Hq' by done. lia.
    + intros q [o Hq]. apply lookup_delete_Some in Hq as [Hne Hq]. rewrite Hc, decide_False by done. cbn. rewrite Eb, arr_get_insert_ne by done. lia.
  - destruct (slub_put_page_shared k P O p 0 HI Hp ltac:(lia)) as (b & E & HI' & Hs & Hm & Eb). exists b, P. split; [done|].
    assert (Hrd : forall a, rd (set_pa k b) a = rd k a) by (intros a; change ((mem b).[a] = (mem (pa k)).[a]); by rewrite Hm). split; try done.
    + intros q o. rewrite Hc. split; [|by intros [? _]]. intros Hq. split; [done|]. split; [apply not_elem_of_nil|].
      case_decide as D; [right; rewrite <- D; lia|by left].
    + intros q Hq. rewrite Hc. cbn. rewrite Eb. destruct (decide (p = q)) as [<-|Hne]; [by rewrite arr_get_insert|rewrite arr_get_insert_ne by done; lia].
Qed.

Lemma drop_table k P O p :
  slub_inv k P O -> P !! p = Some 0 -> (refcount (pa k)).[p] = 1 ->
  exists b, free_pages (pa k) (base_of k p) 0 = Some b /\ dropped k P O [p] [] (set_pa k b) (delete p P).
Proof.
  intros HI Hp E1. assert (Hr := slub_page_range k P O p 0 HI Hp). assert (Hpool := slub_inv_pool k P O HI).
  destruct (slub_free_pages k P O p 0 HI Hp E1) as (b & E & HI' & [Fl Fr Fp Fo] & Eb).
  { replace (PAGE_SIZE * 2 ^ 0) with PAGE_SIZE by lia. by apply page_aligned. }
  exists b. split; [done|]. split; try done.
  - intros q o. rewrite lookup_delete_Some, cnt_nil, list_elem_of_singleton. split; [intros [? ?]; split; [done|split; [congruence|by left]]|intros (? & ? & _); by split; [congruence|]].
  - intros q [o Hq]. apply lookup_delete_Some in Hq as [Hne Hq]. rewrite cnt_nil. cbn. rewrite Eb, arr_get_insert_ne by done. lia.
Qed.

Lemma cnt_kids_sub {T} (f : T -> list Z) k (m1 m : gmap Z T) q : m1 ⊆ m -> cnt k (kids f m1) q <= cnt k (kids f m) q.
Proof.
  intros Hs%map_to_list_submseteq. apply submseteq_Permutation in Hs as [l El]. unfold kids.
  rewrite (cnt_perm k (map_to_list m ≫= (fun ic => f (snd ic))) ((map_to_list m1 ++ l) ≫= (fun ic => f (snd ic)))) by (by rewrite El). rewrite bind_app, cnt_app.
  assert (H := cnt_nonneg k (l ≫= (fun ic => f (snd ic))) q). lia.
Qed.

(** ** A tree that can be given back *)

Record whole (d : nat) (k : slub) (P : gmap Z Z) (t : tree d) : Prop := {
  wh_rep : rep d k t;
  wh_nodup : NoDup (owned d t);
  wh_owned : forall q, q ∈ owned d t -> P !! q = Some 0 /\ (refcount (pa k)).[q] = 1;
  wh_leaf : forall e, e ∈ ptes d t -> P !! pte_pfn k e = Some 0 /\ pte_pfn k e ∉ owned d t;
  wh_refs : forall q, 0 < cnt k (ptes d t) q -> cnt k (ptes d t) q <= (refcount (pa k)).[q]
}.

Section Level.
Context (d : nat) (k : slub) (P O : gmap Z Z) (t : tree (S d)).
Hypothesis HW : whole (S d) k P t.

Let m := snd t.

Lemma owned_no_refs q : q ∈ owned (S d) t -> forall l, l ⊆ ptes (S d) t -> cnt k l q = 0.
Proof using HW.
  intros Hq l Hl. destruct (decide (0 < cnt k l q)) as [D|D]; [|assert (H := cnt_nonneg k l q); lia].
  destruct (cnt_pos k l q D) as (e & He & E). destruct (wh_leaf _ _ _ _ HW e (Hl e He)) as [_ Hn]. by rewrite E in Hn.
Qed.

Lemma upto_ptes i : kids (ptes d) (upto i m) ⊆ ptes (S d) t.
Proof using.
  intros e (j & c & Hj & He)%kids_elem. rewrite ptes_kids. apply kids_elem. exists j, c. rewrite upto_lookup in Hj. by case_decide.
Qed.

Lemma kid_apart i c q : m !! i = Some c -> q ∈ owned d c -> (q ∉ kids (owned d) (upto i m)) /\ q <> fst t.
Proof using HW.
  intros Hi Hq. assert (Hnd := wh_nodup _ _ _ _ HW). rewrite owned_kids in Hnd. apply NoDup_cons in Hnd as [Hf Hnd]. split.
  - intros (j & c' & Hj & Hq')%kids_elem. rewrite upto_lookup in Hj. case_decide; [|done].
    fold m in Hnd. rewrite (kids_lookup (owned d) m i c Hi) in Hnd. apply NoDup_app in Hnd as (_ & Hd & _). apply (Hd q Hq), kids_elem.
    exists j, c'. by rewrite lookup_delete_ne by lia.
  - intros ->. apply Hf, kids_elem. by exists i, c.
Qed.

Lemma root_apart i : fst t ∉ kids (owned d) (upto i m).
Proof using HW.
  assert (Hnd := wh_nodup _ _ _ _ HW). rewrite owned_kids in Hnd. apply NoDup_cons in Hnd as [Hf _].
  intros (j & c & Hj & Hq)%kids_elem. rewrite upto_lookup in Hj. case_decide; [|done]. apply Hf, kids_elem. by exists j, c.
Qed.
(** What is left of the tree when the entries below [i] are gone. *)
Section Progress.
Context (i : Z) (k' : slub) (P' : gmap Z Z).
Hypothesis HD : dropped k P O (kids (owned d) (upto i m)) (kids (ptes d) (upto i m)) k' P'.

Lemma table_left q : q ∈ owned (S d) t -> q ∉ kids (owned d) (upto i m) ->
  P' !! q = Some 0 /\ (refcount (pa k')).[q] = 1 /\ forall a, in_table k q a -> rd k' a = rd k a.
Proof using HW HD.
  intros Hq Hn. destruct (wh_owned _ _ _ _ HW q Hq) as [HP H1]. assert (H0 := owned_no_refs q Hq _ (upto_ptes i)).
  assert (HP' : P' !! q = Some 0) by (apply (dr_pages _ _ _ _ _ _ _ HD); split; [done|]; split; [done|by left]).
  split; [done|]. split; [rewrite (dr_ref _ _ _ _ _ _ _ HD), H0 by eauto; lia|].
  intros a Ha. apply (dr_bytes _ _ _ _ _ _ _ HD q 0 q a); [done|apply covers_self; lia|done].
Qed.

Lemma root_cell j : 0 <= j < 512 -> rd k' (cell_at k (fst t) j) = slot_val k (m !! j).
Proof using HW HD.
  intros Hj. destruct (table_left (fst t) (owned_root d t) (root_apart i)) as (_ & _ & Hb). rewrite Hb by (by apply cell_in_table).
  by apply (wh_rep _ _ _ _ HW).
Qed.

Lemma whole_kid c : m !! i = Some c -> whole d k' P' c.
Proof using HW HD.
  intros Hi. assert (Hs := lay_pool _ _ (dr_layout _ _ _ _ _ _ _ HD)). destruct HW as [H1 H2 H3 H4 H5]. rewrite owned_kids, ptes_kids in *. fold m in H2, H3, H4, H5.
  assert (Hown : forall q, q ∈ owned d c -> q ∈ fst t :: kids (owned d) m) by (intros q Hq; right; apply kids_elem; by exists i, c).
  assert (Hpt : forall e, e ∈ ptes d c -> e ∈ kids (ptes d) m) by (intros e He; apply kids_elem; by exists i, c).
  assert (Hcnt : forall q, cnt k (kids (ptes d) (upto i m)) q + cnt k (ptes d c) q <= cnt k (kids (ptes d) m) q).
  { intros q. rewrite Z.add_comm, <- cnt_app, <- (cnt_perm _ _ _ q (kids_upto (ptes d) i m c Hi)). apply cnt_kids_sub.
    apply map_subseteq_spec. intros j x Hj. rewrite upto_lookup in Hj. by case_decide. }
  assert (Hpage : forall e, e ∈ ptes d c -> P' !! pte_pfn k e = Some 0).
  { intros e He. destruct (H4 e (Hpt e He)) as [HP Hno]. apply (dr_pages _ _ _ _ _ _ _ HD). split; [done|]. split.
    - intros Hq. apply Hno. right. apply kids_elem in Hq as (j & x & Hj & Hq). apply kids_elem. exists j, x. rewrite upto_lookup in Hj. by case_decide.
    - right. specialize (Hcnt (pte_pfn k e)). assert (Hp := cnt_elem k _ e He). assert (Hn := cnt_nonneg k (kids (ptes d) (upto i m)) (pte_pfn k e)).
      specialize (H5 (pte_pfn k e)). lia. }
  split.
  - apply (rep_same d k); [done| |by apply (proj2 (proj2 H1) i c Hi)]. intros q a Hq Ha.
    by apply (table_left q (Hown q Hq) (proj1 (kid_apart i c q Hi Hq))).
  - rewrite (kids_lookup (owned d) m i c Hi) in H2. apply NoDup_cons in H2 as [_ H2]. by apply NoDup_app in H2 as [? _].
  - intros q Hq. by destruct (table_left q (Hown q Hq) (proj1 (kid_apart i c q Hi Hq))) as (? & ? & _).
  - intros e He. rewrite (pte_pfn_same k k') by done. split; [by apply Hpage|]. intros Hq. apply (proj2 (H4 e (Hpt e He))), Hown, Hq.
  - intros q. rewrite (cnt_same k k') by done. intros Hq. destruct (cnt_pos k _ q Hq) as (e & He & <-).
    rewrite (dr_ref _ _ _ _ _ _ _ HD) by (rewrite Hpage; eauto). specialize (Hcnt (pte_pfn k e)). specialize (H5 (pte_pfn k e)).
    assert (Hn := cnt_nonneg k (kids (ptes d) (upto i m)) (pte_pfn k e)). lia.
Qed.
End Progress.
End Level.

Lemma for_idx_inv (I : Z -> slub -> Prop) f n i k :
  I i k -> (forall j k, i <= j < i + Z.of_nat n -> I j k -> exists k', f j k = Some k' /\ I (j + 1) k') ->
  exists k', for_idx n i f k = Some k' /\ I (i + Z.of_nat n) k'.
Proof.
  revert i k. induction n as [|n IH]; intros i k HI Hf; [exists k; by rewrite Z.add_0_r|]. cbn [for_idx].
  destruct (Hf i k ltac:(lia) HI) as (k1 & -> & HI1). cbn [mbind option_bind]. destruct (IH (i + 1) k1 HI1) as (k' & E & HI').
  - intros j kj Hj. apply Hf. lia.
  - exists k'. split; [done|]. by replace (i + Z.of_nat (S n)) with (i + 1 + Z.of_nat n) by lia.
Qed.

Lemma entry_present k d (t : tree d) : ram k -> rep d k t -> has (entry k t) 1 = true.
Proof. intros Hr Ht. destruct d; [rewrite has_1; by destruct Ht as (_ & ? & _)|]. by apply table_entry, Ht. Qed.

Lemma slub_ram k P O : slub_inv k P O -> KERNEL_VIRT_BASE <= mem_start (pa k) -> ram k.
Proof. intros HI Hb. split; [by eapply slub_inv_pool|done]. Qed.

(** A tree of tables is given back. *)
Lemma free_level d k P O (t : tree (S d)) :
  slub_inv k P O -> KERNEL_VIRT_BASE <= mem_start (pa k) -> whole (S d) k P t ->
  exists k' P', free_pgtable_level (S d) k (base_of k (fst t)) (3 - Z.of_nat d) = Some k' /\ dropped k P O (owned (S d) t) (ptes (S d) t) k' P'.
Proof.
  revert k P t. induction d as [d IH] using lt_wf_ind; intros k P t HI Hb HW. assert (Hram := slub_ram k P O HI Hb).
  destruct (wh_owned _ _ _ _ HW (fst t) (owned_root d t)) as [HPt _]. assert (Hr := slub_page_range _ _ _ _ _ HI HPt).
  assert (Hnz : base_of k (fst t) <> 0).
  { unfold base_of. destruct Hram as [Hp _]. rewrite pfn_to_addr_eq by done. destruct (pool_start _ Hp). unfold PAGE_SIZE. lia. }
  cbn [free_pgtable_level]. rewrite (proj2 (Z.eqb_neq _ _) Hnz). set (m := snd t).
  assert (Hkeys : forall j, is_Some (m !! j) -> 0 <= j < 512) by (intros j [c Hj]; by apply (proj2 (proj2 (wh_rep _ _ _ _ HW)) j c)).
  match goal with |- context [for_idx 512 0 ?f k] =>
    destruct (for_idx_inv (fun j kj => exists Pj, dropped k P O (kids (owned d) (upto j m)) (kids (ptes d) (upto j m)) kj Pj) f 512 0 k) as (k1 & E & P1 & HD1) end.
  - exists P. rewrite (upto_0 m) by (intros j Hj; by apply Hkeys). rewrite !kids_empty. by apply dropped_refl.
  - intros j kj Hj (Pj & HD). assert (Hs := lay_pool _ _ (dr_layout _ _ _ _ _ _ _ HD)). fold (cell_at k (fst t) j).
    rewrite (root_cell d k P O t HW j kj Pj HD j ltac:(lia)). fold m. destruct (m !! j) as [c|] eqn:Ec; cbn [slot_val].
    2:{ exists kj. split; [done|]. exists Pj. by rewrite (upto_succ_none j m Ec). }
    assert (HWc := whole_kid d k P O t HW j kj Pj HD c Ec). assert (Hrc := proj2 (proj2 (proj2 (wh_rep _ _ _ _ HW)) j c Ec)).
    rewrite (entry_present k d c Hram Hrc). cbn [negb].
    assert (Hgo : forall k' P' g r, dropped kj Pj O g r k' P' -> g ≡ₚ owned d c -> r ≡ₚ ptes d c ->
      exists P'0, dropped k P O (kids (owned d) (upto (j + 1) m)) (kids (ptes d) (upto (j + 1) m)) k' P'0).
    { intros k' P' g r HD' Eg Er. exists P'. eapply dropped_perm; [| |exact (dropped_trans _ _ _ _ _ _ _ _ _ _ _ HD HD')].
      - rewrite (kids_upto (owned d) j m c Ec), Eg. apply Permutation_app_comm.
      - rewrite (kids_upto (ptes d) j m c Ec), Er. apply Permutation_app_comm. }
    destruct d as [|d].
    + change (3 - Z.of_nat 0 <? 3) with false. cbn iota. destruct (wh_leaf _ _ _ _ HWc c ltac:(by left)) as [HPc _].
      destruct Hrc as (_ & _ & Hpr & Hkv). fold (pte_kva (entry k c)). change (entry k c) with c. rewrite Hkv.
      assert (Ev : virt_to_page (pa kj) (base_of k (pte_pfn k c)) = Some (pte_pfn kj c)).
      { rewrite (pte_pfn_same k kj) by done. unfold base_of. rewrite <- (pfn_to_addr_same _ _ (pte_pfn k c) Hs).
        apply virt_to_page_pool; [by eapply pool_ok_same, Hram|]. by destruct Hs as (_ & _ & _ & ->). }
      rewrite Ev. destruct (drop_leaf kj Pj O c (dr_inv _ _ _ _ _ _ _ HD) HPc) as (b & P' & -> & HD'). cbn [mbind option_bind].
      exists (set_pa kj b). split; [done|]. by eapply Hgo.
    + rewrite (proj2 (Z.ltb_lt _ _)) by lia. assert (Hc2 := table_entry k (fst c) Hram (proj1 Hrc)). destruct Hc2 as (_ & _ & Ep & _).
      change (entry k c) with (Z.lor (virt_to_phys (base_of k (fst c))) PTE_TABLE). rewrite Ep.
      assert (Eb : base_of k (fst c) = base_of kj (fst c)) by (symmetry; by apply pfn_to_addr_same). rewrite Eb.
      destruct (IH d ltac:(lia) kj Pj c (dr_inv _ _ _ _ _ _ _ HD)) as (k' & P' & E' & HD'); [by destruct Hs as (-> & _)|done|].
      replace (3 - Z.of_nat (S d) + 1) with (3 - Z.of_nat d) by lia. rewrite E'. exists k'. split; [done|]. by eapply Hgo.
  - change (0 + Z.of_nat 512) with 512 in HD1. rewrite E. cbn [mbind option_bind]. assert (Hs := lay_pool _ _ (dr_layout _ _ _ _ _ _ _ HD1)).
    destruct (table_left d k P O t HW 512 k1 P1 HD1 (fst t) (owned_root d t) (root_apart d k P t HW 512)) as (HP1 & Hr1 & _).
    assert (Eb : base_of k (fst t) = base_of k1 (fst t)) by (symmetry; by apply pfn_to_addr_same). rewrite Eb.
    destruct (drop_table k1 P1 O (fst t) (dr_inv _ _ _ _ _ _ _ HD1) HP1 Hr1) as (b & -> & HD2). cbn [mbind option_bind].
    exists (set_pa k1 b), (delete (fst t) P1). split; [done|]. rewrite (upto_all 512 m) in HD1 by (intros j Hj; by apply Hkeys).
    eapply dropped_perm; [| |exact (dropped_trans _ _ _ _ _ _ _ _ _ _ _ HD1 HD2)].
    + rewrite owned_kids. fold m. rewrite Permutation_app_comm. done.
    + by rewrite app_nil_r, ptes_kids.
Qed.
