(* ===== verification/PageDup.v ===== *)
(** * Duplicating page tables ([dup_pgtable_level] in [mm/mmap.c])

    The copy of a tree of tables has fresh tables and the same leaves.  Leaves
    that were writable lose the permission in both, and every page gains one
    reference per leaf.  A copy that runs out of memory is given back; what it
    had already made read-only stays so. *)
From S2P Require Import Prelude PageAlloc Slub Errno AddrSpace Vma PageTable PageTree PageMap Fault PageFree MmLife.

(** ** Trees of the same shape *)

(** [L] relates the leaves and [F] the tables. *)
Fixpoint trel (L F : Z -> Z -> Prop) (d : nat) : tree d -> tree d -> Prop :=
  match d with
  | O => fun e e' => L e e'
  | S d' => fun t t' => F (fst t) (fst t') /\ forall i, option_Forall2 (trel L F d') (snd t !! i) (snd t' !! i)
  end.

(** A leaf as the two processes share it. *)
Definition share (e : Z) : Z := if pte_write e then pte_wrprotect e else e.

(** Some leaves are shared, all leaves are shared, a copy. *)
Definition like (d : nat) : tree d -> tree d -> Prop := trel (fun e e' => e' = e \/ e' = share e) eq d.
Definition shared (d : nat) : tree d -> tree d -> Prop := trel (fun e e' => e' = share e) eq d.
Definition copyof (d : nat) : tree d -> tree d -> Prop := trel eq (fun _ _ => True) d.

Lemma trel_refl (L F : Z -> Z -> Prop) d (t : tree d) : (forall x, L x x) -> (forall x, F x x) -> trel L F d t t.
Proof.
  intros HL HF. revert t. induction d as [|d IH]; intros t; [apply HL|]. split; [apply HF|]. intros i. destruct (snd t !! i); constructor. apply IH.
Qed.

Lemma trel_mono (L L' F F' : Z -> Z -> Prop) d (t t' : tree d) :
  (forall x y, L x y -> L' x y) -> (forall x y, F x y -> F' x y) -> trel L F d t t' -> trel L' F' d t t'.
Proof.
  intros HL HF. revert t t'. induction d as [|d IH]; intros t t'; [apply HL|]. intros [H1 H2]. split; [by apply HF|].
  intros i. specialize (H2 i). destruct H2; constructor. by apply IH.
Qed.

Lemma shared_like d (t t' : tree d) : shared d t t' -> like d t t'.
Proof. apply trel_mono; [by right|done]. Qed.

Lemma kids_rel {A B T} (f : A -> list T) (g : B -> list T) (S : A -> B -> Prop) (m : gmap Z A) (m' : gmap Z B) :
  (forall i, option_Forall2 S (m !! i) (m' !! i)) -> (forall c c', S c c' -> f c ≡ₚ g c') ->
  (map_to_list m ≫= fun ic => f (snd ic)) ≡ₚ (map_to_list m' ≫= fun ic => g (snd ic)).
Proof.
  intros Hm HS. revert m' Hm. induction m as [|i x m Hi IH] using map_ind; intros m' Hm.
  - assert (m' = ∅) as ->; [|by rewrite !map_to_list_empty]. apply map_eq. intros j. specialize (Hm j). rewrite lookup_empty in *. by inversion Hm.
  - assert (Hx := Hm i). rewrite lookup_insert_eq in Hx. inversion Hx as [? y Hxy Ex Ey|]; subst. symmetry in Ey.
    rewrite (map_to_list_insert m i x Hi). rewrite <- (insert_delete_id m' i y Ey), (map_to_list_insert (delete i m') i y) by apply lookup_delete_eq.
    cbn. rewrite (HS _ _ Hxy), (IH (delete i m')); [done|]. intros j. destruct (decide (j = i)) as [->|Hne].
    + rewrite Hi, lookup_delete_eq. constructor.
    + specialize (Hm j). rewrite lookup_insert_ne in Hm by done. by rewrite lookup_delete_ne by done.
Qed.

Lemma trel_owned L d (t t' : tree d) : trel L eq d t t' -> owned d t' ≡ₚ owned d t.
Proof.
  revert t t'. induction d as [|d IH]; intros t t'; [done|]. intros [H1 H2]. rewrite !owned_kids, H1. constructor. symmetry.
  apply (kids_rel _ _ _ _ _ H2). intros c c' Hc. symmetry. by apply IH.
Qed.

Lemma fmap_kids {T} (g : Z -> Z) (f : T -> list Z) (m : gmap Z T) : g <$> kids f m = map_to_list m ≫= fun ic => g <$> f (snd ic).
Proof. unfold kids. induction (map_to_list m) as [|x l IH]; [done|]. cbn. rewrite fmap_app. by f_equal. Qed.

Definition pfns (d : nat) (k : slub) (t : tree d) : list Z := pte_pfn k <$> ptes d t.

Lemma trel_pfns (L F : Z -> Z -> Prop) d k (t t' : tree d) :
  (forall e e', L e e' -> pte_pfn k e' = pte_pfn k e) -> trel L F d t t' -> pfns d k t' ≡ₚ pfns d k t.
Proof.
  intros HL. revert t t'. induction d as [|d IH]; intros t t'; [intros H; unfold pfns; cbn; by rewrite (HL _ _ H)|]. intros [_ H2].
  unfold pfns in *. rewrite !ptes_kids, !fmap_kids. symmetry. apply (kids_rel (fun c => pte_pfn k <$> ptes d c) (fun c => pte_pfn k <$> ptes d c) _ _ _ H2). intros c c' Hc. symmetry. by apply IH.
Qed.

Lemma cnt_pfns k l l' q : pte_pfn k <$> l ≡ₚ pte_pfn k <$> l' -> cnt k l q = cnt k l' q.
Proof.
  intros H. assert (E : forall l, cnt k l q = Z.of_nat (length (filter (fun p => p = q) (pte_pfn k <$> l)))).
  { intros l0. unfold cnt. induction l0 as [|e l0 IH]; [done|]. rewrite fmap_cons, !filter_cons. case_decide; cbn [length]; lia. }
  rewrite !E. by rewrite H.
Qed.

(** ** Shared leaves *)

Lemma wrprotect_bit e i : 0 <= i -> Z.testbit (pte_wrprotect e) i = Z.testbit e i || (i =? 7).
Proof.
  intros Hi. unfold pte_wrprotect. rewrite Z.lor_spec. f_equal. change PTE_RDONLY with (2 ^ 7). rewrite Z.pow2_bits_eqb by lia. apply Z.eqb_sym.
Qed.

Lemma share_addr e : Z.land (share e) PTE_ADDR_MASK = Z.land e PTE_ADDR_MASK.
Proof. unfold share. case_match; [|done]. unfold pte_wrprotect. by rewrite Z.land_lor_distr_l, Z.lor_0_r. Qed.

Lemma share_pfn k e : pte_pfn k (share e) = pte_pfn k e.
Proof. unfold pte_pfn, pte_kva. by rewrite share_addr. Qed.

Lemma share_bit e i : 0 <= i -> i <> 7 -> Z.testbit (share e) i = Z.testbit e i.
Proof. intros Hi Hn. unfold share. case_match; [|done]. rewrite wrprotect_bit, (proj2 (Z.eqb_neq i 7)) by done. apply orb_false_r. Qed.

Lemma share_write e : pte_write (share e) = false.
Proof.
  unfold share. destruct (pte_write e) eqn:E; [|done]. unfold pte_write. rewrite has_rdonly, wrprotect_bit by lia. by rewrite orb_true_r, andb_false_r.
Qed.

Lemma share_ok k e : pte_ok k e -> pte_ok k (share e).
Proof.
  intros ((H1 & H1') & H2 & H3 & H4). unfold pte_ok. rewrite share_pfn. unfold pte_kva. rewrite share_addr. fold (pte_kva e). split; [|split; [by rewrite share_bit by lia|done]].
  unfold share. case_match; [|done]. unfold pte_wrprotect. split; [apply Z.lor_nonneg; split; [done|by vm_compute]|].
  apply u64_range. rewrite Z.land_lor_distr_l. f_equal. by apply u64_mask.
Qed.

Lemma like_pfn k e e' : e' = e \/ e' = share e -> pte_pfn k e' = pte_pfn k e.
Proof. intros [->| ->]; [done|apply share_pfn]. Qed.

Lemma like_refl d (t : tree d) : like d t t.
Proof. apply trel_refl; [by left|done]. Qed.

Lemma like_cnt d k (t t' : tree d) q : like d t t' -> cnt k (ptes d t') q = cnt k (ptes d t) q.
Proof. intros H. apply cnt_pfns. apply (trel_pfns _ _ d k t t' (like_pfn k) H). Qed.

Lemma like_leaves d k (t t' : tree d) e : like d t t' -> e ∈ ptes d t' -> exists e0, e0 ∈ ptes d t /\ pte_pfn k e = pte_pfn k e0.
Proof.
  intros H He. assert (Hp := cnt_elem k _ e He). rewrite (like_cnt d k t t' _ H) in Hp. destruct (cnt_pos k _ _ Hp) as (e0 & H0 & E). by exists e0.
Qed.

(** ** The state of a copy *)

Record source (d : nat) (k : slub) (P : gmap Z Z) (t : tree d) : Prop := {
  so_rep : rep d k t;
  so_nodup : NoDup (owned d t);
  so_owned : forall q, q ∈ owned d t -> P !! q = Some 0;
  so_leaf : forall e, e ∈ ptes d t -> P !! pte_pfn k e = Some 0 /\ pte_pfn k e ∉ owned d t;
  so_room : forall q, 0 < cnt k (ptes d t) q -> (refcount (pa k)).[q] + cnt k (ptes d t) q < 2 ^ 31
}.

(** The source may have leaves shared, all else that was in use is kept. *)
Record touched (d : nat) (k : slub) (P O : gmap Z Z) (t : tree d) (k' : slub) (P' : gmap Z Z) (t' : tree d) : Prop := {
  tc_inv : slub_inv k' P' O;
  tc_layout : same_layout k k';
  tc_src : rep d k' t';
  tc_like : like d t t';
  tc_bytes : forall p o q a, P !! p = Some o -> covers p o q -> q ∉ owned d t -> in_page (pa k) q a -> rd k' a = rd k a;
  tc_objs : forall x c a, O !! x = Some c -> x <= a < x + object_size (cache_of k c) -> rd k' a = rd k a
}.

(** [c] is a copy, perhaps of a part: its tables are fresh, its leaves count. *)
Record copied (d : nat) (k : slub) (P : gmap Z Z) (t : tree d) (k' : slub) (P' : gmap Z Z) (c : tree d) : Prop := {
  cp_rep : rep d k' c;
  cp_nodup : NoDup (owned d c);
  cp_new : forall q, q ∈ owned d c -> P !! q = None /\ (refcount (pa k')).[q] = 1;
  cp_pages : forall q o, P' !! q = Some o <-> P !! q = Some o \/ (o = 0 /\ q ∈ owned d c);
  cp_ref : forall q, is_Some (P !! q) -> (refcount (pa k')).[q] = (refcount (pa k)).[q] + cnt k (ptes d c) q;
  cp_leaf : forall e, e ∈ ptes d c -> exists e0, e0 ∈ ptes d t /\ pte_pfn k e = pte_pfn k e0
}.

(** An entry of a table was copied: the two cells and what is below them. *)
Record kid_copied (d : nat) (k : slub) (P O : gmap Z Z) (src dst i : Z) (x : tree d) (k' : slub) (P' : gmap Z Z) (x' c : tree d) : Prop := {
  kc_inv : slub_inv k' P' O;
  kc_layout : same_layout k k';
  kc_src : rd k' (cell_at k src i) = entry k x';
  kc_dst : rd k' (cell_at k dst i) = entry k c;
  kc_cells : forall q j, q = src \/ q = dst -> 0 <= j < 512 -> j <> i -> rd k' (cell_at k q j) = rd k (cell_at k q j);
  kc_bytes : forall p o q a, P !! p = Some o -> covers p o q -> q ∉ owned d x -> q <> src -> q <> dst -> in_page (pa k) q a -> rd k' a = rd k a;
  kc_objs : forall y c a, O !! y = Some c -> y <= a < y + object_size (cache_of k c) -> rd k' a = rd k a;
  kc_rep : rep d k' x';
  kc_like : like d x x';
  kc_copy : copied d k P x k' P' c
}.

Lemma block_unique k P O p o q : slub_inv k P O -> P !! p = Some o -> P !! q = Some 0 -> covers p o q -> p = q.
Proof.
  intros (S & PL & HR & _) Hp Hq Hc. destruct (used_page _ _ _ _ _ _ HR Hp) as [Hu _]. destruct (used_page _ _ _ _ _ _ HR Hq) as [Hu' _].
  apply (inv_disjoint _ _ p o q 0 q (sr_buddy _ _ _ _ HR) Hu Hu' Hc). apply covers_self. lia.
Qed.

Section Node.
Context (d : nat) (k : slub) (P O : gmap Z Z) (t : tree (S d)) (k1 : slub) (P1 : gmap Z Z) (t1 c1 : tree (S d)).
Hypothesis HS : source (S d) k P t.
Hypothesis HT : touched (S d) k P O t k1 P1 t1.
Hypothesis HC : copied (S d) k P t k1 P1 c1.

Lemma pages_grow q o : P !! q = Some o -> P1 !! q = Some o.
Proof using HC. intros H. apply (cp_pages _ _ _ _ _ _ _ HC). by left. Qed.

Lemma src_root : fst t1 = fst t.
Proof using HT. symmetry. apply (tc_like _ _ _ _ _ _ _ _ HT). Qed.

Lemma src_page q : q ∈ owned (S d) t1 -> P !! q = Some 0 /\ P1 !! q = Some 0 /\ q ∉ owned (S d) c1.
Proof using HS HT HC.
  intros Hq. rewrite (trel_owned _ _ _ _ (tc_like _ _ _ _ _ _ _ _ HT)) in Hq. assert (HP := so_owned _ _ _ _ HS q Hq).
  split; [done|]. split; [by apply pages_grow|]. intros Hc. by rewrite (proj1 (cp_new _ _ _ _ _ _ _ HC q Hc)) in HP.
Qed.

Lemma dst_page q : q ∈ owned (S d) c1 -> P1 !! q = Some 0 /\ P !! q = None /\ q ∉ owned (S d) t1.
Proof using HS HT HC.
  intros Hq. split; [apply (cp_pages _ _ _ _ _ _ _ HC); by right|]. split; [by apply (cp_new _ _ _ _ _ _ _ HC)|]. intros Hc.
  by apply (proj2 (proj2 (src_page q Hc))).
Qed.

Lemma kid_disjoint (u : tree (S d)) i x : NoDup (owned (S d) u) -> snd u !! i = Some x ->
  (fst u ∉ owned d x) /\ forall j y q, j <> i -> snd u !! j = Some y -> q ∈ owned d y -> (q ∉ owned d x) /\ q <> fst u.
Proof using.
  rewrite owned_kids. intros [Hf Hnd]%NoDup_cons Hx. split; [intros H; apply Hf, kids_elem; by exists i, x|]. intros j y q Hj Hy Hq. split.
  - intros Hqx. rewrite (kids_lookup (owned d) (snd u) i x Hx) in Hnd. apply NoDup_app in Hnd as (_ & Hd & _). apply (Hd q Hqx), kids_elem.
    exists j, y. by rewrite lookup_delete_ne.
  - intros ->. apply Hf, kids_elem. by exists j, y.
Qed.

Lemma src_nodup : NoDup (owned (S d) t1).
Proof using HS HT. rewrite (trel_owned _ _ _ _ (tc_like _ _ _ _ _ _ _ _ HT)). apply HS. Qed.
Section Step.
Context (i : Z) (x : tree d) (k2 : slub) (P2 : gmap Z Z) (x' c : tree d).
Hypothesis Hi : 0 <= i < 512.
Hypothesis Hx : snd t !! i = Some x.
Hypothesis Hx1 : snd t1 !! i = Some x.
Hypothesis Hc1 : snd c1 !! i = None.
Hypothesis HK : kid_copied d k1 P1 O (fst t1) (fst c1) i x k2 P2 x' c.

Let pool12 : same_pool (pa k1) (pa k2) := lay_pool _ _ (kc_layout _ _ _ _ _ _ _ _ _ _ _ _ HK).
Let pool01 : same_pool (pa k) (pa k1) := lay_pool _ _ (tc_layout _ _ _ _ _ _ _ _ HT).

Lemma step_kept q a : P1 !! q = Some 0 -> q ∉ owned d x -> q <> fst t1 -> q <> fst c1 -> in_table k1 q a -> rd k2 a = rd k1 a.
Proof using HK. intros HP H1 H2 H3 Ha. apply (kc_bytes _ _ _ _ _ _ _ _ _ _ _ _ HK q 0 q a); try done. apply covers_self. lia. Qed.

Lemma step_src : rep (S d) k2 (fst t1, <[i := x']> (snd t1)).
Proof using HS HT HC Hi Hx1 HK pool12.
  rewrite <- partial_alter_insert. destruct (kid_disjoint t1 i x src_nodup Hx1) as [_ Hd].
  apply (rep_set_kid d k1 k2 t1 i (Some x')); [done|apply HT|done| | | |].
  - cbn [slot_val]. rewrite (entry_same k1 k2) by done. apply HK.
  - intros y [= <-]. apply HK.
  - intros j Hj Hne. apply (kc_cells _ _ _ _ _ _ _ _ _ _ _ _ HK); [by left|done|done].
  - intros j y q a Hj Hy Hq Ha. destruct (Hd j y q Hj Hy Hq) as [H1 H2]. assert (Hq1 : q ∈ owned (S d) t1) by (rewrite owned_kids; right; by apply (owned_kid d t1 j y)).
    destruct (src_page q Hq1) as (_ & HP & Hno). apply (step_kept q a); try done. intros ->. apply Hno, owned_root.
Qed.

Lemma step_dst : rep (S d) k2 (fst c1, <[i := c]> (snd c1)).
Proof using HS HT HC Hi Hx1 Hc1 HK pool12.
  rewrite <- partial_alter_insert. assert (Hnd := cp_nodup _ _ _ _ _ _ _ HC). rewrite owned_kids in Hnd. apply NoDup_cons in Hnd as [Hf _].
  apply (rep_set_kid d k1 k2 c1 i (Some c)); [done|apply HC|done| | | |].
  - cbn [slot_val]. rewrite (entry_same k1 k2) by done. apply HK.
  - intros y [= <-]. apply (kc_copy _ _ _ _ _ _ _ _ _ _ _ _ HK).
  - intros j Hj Hne. apply (kc_cells _ _ _ _ _ _ _ _ _ _ _ _ HK); [by right|done|done].
  - intros j y q a Hj Hy Hq Ha. assert (Hqk := owned_kid d c1 j y q Hy Hq). destruct (dst_page q ltac:(rewrite owned_kids; by right)) as (HP & _ & Hno).
    apply (step_kept q a); try done.
    + intros Hqx. apply Hno. rewrite owned_kids. right. by apply (owned_kid d t1 i x).
    + intros ->. apply Hno, owned_root.
    + intros ->. done.
Qed.

Lemma step_touched : touched (S d) k P O t k2 P2 (fst t1, <[i := x']> (snd t1)).
Proof using HS HT HC Hi Hx Hx1 HK pool12 pool01.
  split.
  - apply HK.
  - etrans; [apply HT|apply HK].
  - apply step_src.
  - destruct (tc_like _ _ _ _ _ _ _ _ HT) as [E Hl]. split; [done|]. intros j. cbn [snd]. destruct (decide (j = i)) as [->|Hne].
    + rewrite lookup_insert_eq, Hx. constructor. apply HK.
    + rewrite lookup_insert_ne by done. apply Hl.
  - intros p o q a Hp Hcv Hq Ha. assert (HpI := pages_grow p o Hp). rewrite (kc_bytes _ _ _ _ _ _ _ _ _ _ _ _ HK p o q a HpI Hcv).
    + by apply (tc_bytes _ _ _ _ _ _ _ _ HT p o q).
    + intros Hqx. apply Hq. rewrite owned_kids. right. by apply (owned_kid d t i x).
    + intros ->. apply Hq. rewrite src_root. apply owned_root.
    + intros ->. destruct (dst_page (fst c1) (owned_root d c1)) as (HPc & Hn & _).
      rewrite (block_unique _ _ _ _ _ _ (tc_inv _ _ _ _ _ _ _ _ HT) HpI HPc Hcv) in Hp. congruence.
    + unfold in_page in *. by rewrite (pfn_to_addr_same _ _ _ pool01).
  - intros y cy a Hy Ha. rewrite (kc_objs _ _ _ _ _ _ _ _ _ _ _ _ HK y cy); [by apply (tc_objs _ _ _ _ _ _ _ _ HT y cy)|done|].
    by rewrite (lay_size _ _ (tc_layout _ _ _ _ _ _ _ _ HT)).
Qed.

Lemma step_copied : copied (S d) k P t k2 P2 (fst c1, <[i := c]> (snd c1)).
Proof using HS HT HC Hi Hx Hx1 Hc1 HK pool12 pool01.
  assert (Eo : owned (S d) ((fst c1, <[i := c]> (snd c1)) : tree (S d)) ≡ₚ owned d c ++ owned (S d) c1).
  { rewrite !owned_kids. cbn [fst snd]. rewrite (kids_insert (owned d) (snd c1) i c Hc1). apply Permutation_middle. }
  assert (Ep : ptes (S d) ((fst c1, <[i := c]> (snd c1)) : tree (S d)) ≡ₚ ptes d c ++ ptes (S d) c1).
  { rewrite !ptes_kids. cbn [snd]. apply (kids_insert (ptes d) (snd c1) i c Hc1). }
  destruct (kc_copy _ _ _ _ _ _ _ _ _ _ _ _ HK) as [K1 K2 K3 K4 K5 K6]. destruct (HC) as [_ C2 C3 C4 C5 C6].
  assert (HPn : forall q, P1 !! q = None -> P !! q = None) by (intros q Hq; destruct (P !! q) eqn:E; [by rewrite (pages_grow q _ E) in Hq|done]).
  split.
  - apply step_dst.
  - rewrite Eo. apply NoDup_app. split; [done|]. split; [|done]. intros q Hq Hq'. destruct (K3 q Hq) as [Hn _]. by rewrite (proj1 (dst_page q Hq')) in Hn.
  - intros q Hq. rewrite Eo in Hq. apply elem_of_app in Hq as [Hq|Hq].
    + destruct (K3 q Hq) as [Hn Hr]. by split; [apply HPn|].
    + destruct (C3 q Hq) as [Hn Hr]. split; [done|]. rewrite (K5 q), Hr by (by rewrite (proj1 (dst_page q Hq))).
      destruct (decide (0 < cnt k1 (ptes d c) q)) as [D|D]; [|assert (H := cnt_nonneg k1 (ptes d c) q); lia]. exfalso.
      destruct (cnt_pos _ _ _ D) as (e & He & Ee). destruct (K6 e He) as (e0 & He0 & E0). rewrite Ee in E0.
      assert (Hin : e0 ∈ ptes (S d) t) by (rewrite ptes_kids; apply kids_elem; by exists i, x).
      assert (HPe := proj1 (so_leaf _ _ _ _ HS e0 Hin)). rewrite (pte_pfn_same k k1) in E0 by done. rewrite <- E0 in HPe. congruence.
  - intros q o. rewrite K4, C4, Eo, elem_of_app. tauto.
  - intros q Hq. rewrite (cnt_perm _ _ _ q Ep), cnt_app, (K5 q), (C5 q) by (done || (destruct Hq as [o Hq]; rewrite (pages_grow q o Hq); eauto)).
    rewrite (cnt_same k k1) by done. lia.
  - intros e He. rewrite Ep in He. apply elem_of_app in He as [He|He]; [|by apply C6]. destruct (K6 e He) as (e0 & He0 & E0).
    rewrite !(pte_pfn_same k k1) in E0 by done. exists e0. split; [|done]. rewrite ptes_kids. apply kids_elem. by exists i, x.
Qed.
End Step.
End Node.

Lemma cell_page k q q' i : pool_ok (pa k) -> 0 <= q < pool_pages (pa k) -> 0 <= q' < pool_pages (pa k) -> 0 <= i < 512 ->
  in_page (pa k) q (cell_at k q' i) -> q = q'.
Proof. intros Hp Hq Hq' Hi Ha. apply (in_page_unique (pa k) q q' (cell_at k q' i)); try done. by apply cell_in_table. Qed.

Lemma cell_inj k q q' i j : pool_ok (pa k) -> 0 <= q < pool_pages (pa k) -> 0 <= q' < pool_pages (pa k) -> 0 <= i < 512 -> 0 <= j < 512 ->
  cell_at k q i = cell_at k q' j -> q = q' /\ i = j.
Proof.
  intros Hp Hq Hq' Hi Hj E. assert (q = q') as ->; [|unfold cell_at in E; split; [done|lia]].
  apply (cell_page k q q' j); try done. rewrite <- E. by apply cell_in_table.
Qed.

(** A leaf is shared: one more reference, and the entry in both tables. *)
Lemma leaf_copied k P O src dst i (e : tree 0) :
  slub_inv k P O -> P !! src = Some 0 -> P !! dst = Some 0 -> src <> dst -> 0 <= i < 512 -> pte_ok k e ->
  P !! pte_pfn k e = Some 0 -> (refcount (pa k)).[pte_pfn k e] + 1 < 2 ^ 31 ->
  let k' := wr (wr (set_pa k (get_page (pa k) (Some (pte_pfn k e)))) (cell_at k src i) (share e)) (cell_at k dst i) (share e) in
  kid_copied 0 k P O src dst i e k' P (share e) (share e).
Proof.
  intros HI Hs Hd Hne Hi Hok Hp Hr k'. set (p := pte_pfn k e) in *. destruct (slub_get_page k P O p 0 HI Hp ltac:(lia)) as (HI1 & Hsp & Hm & Er).
  set (b := get_page (pa k) (Some p)) in *. assert (Hpool := slub_inv_pool k P O HI). assert (Hcell : forall q, in_page b q (cell_at k q i)).
  { intros q. unfold in_page. rewrite (pfn_to_addr_same _ _ _ Hsp). by apply cell_in_table. }
  assert (HI3 : slub_inv k' P O).
  { apply (slub_write_page _ P O dst 0 dst); [apply (slub_write_page _ P O src 0 src); [done|done|apply covers_self; lia|apply Hcell]|done|apply covers_self; lia|apply Hcell]. }
  assert (Hrange : forall q o, P !! q = Some o -> 0 <= q < pool_pages (pa k)) by (intros q o Hq; by apply (slub_page_range k P O q o)).
  assert (Hrd : forall a, a <> cell_at k src i -> a <> cell_at k dst i -> rd k' a = rd k a).
  { intros a H1 H2. unfold k'. rewrite !rd_wr_ne by (by apply not_eq_sym). change ((mem b).[a] = (mem (pa k)).[a]). by rewrite Hm. }
  assert (Hout : forall q a, 0 <= q < pool_pages (pa k) -> in_page (pa k) q a -> q <> src -> q <> dst -> rd k' a = rd k a).
  { intros q a Hq Ha N1 N2. apply Hrd; intros ->; [apply N1|apply N2]; eapply cell_page; eauto. }
  assert (Hcells : cell_at k src i <> cell_at k dst i).
  { intros E. apply Hne. eapply (cell_inj k src dst i i); eauto. }
  split; try done.
  - unfold k'. rewrite rd_wr_ne by (by apply not_eq_sym). apply rd_wr_eq.
  - unfold k'. apply rd_wr_eq.
  - intros q j Hq Hj Hji. assert (Hqr : 0 <= q < pool_pages (pa k)) by (destruct Hq as [-> | ->]; eauto).
    assert (Hx : forall q', P !! q' = Some 0 -> cell_at k q j <> cell_at k q' i).
    { intros q' Hq' E. apply Hji. eapply (cell_inj k q q' j i); eauto. }
    apply Hrd; by apply Hx.
  - intros p' o q a Hp' Hc _ H1 H2 Ha. apply (Hout q a); try done. destruct HI as (S & PL & HR & _). destruct (used_page _ _ _ _ _ _ HR Hp') as [Hu _].
    by eapply inv_covers_pool; [apply HR| |].
  - intros y c a Hy Ha. destruct (objects_disjoint k P O y c HI Hy) as [_ D]. apply Hrd; intros ->.
    + by apply (D src 0 src (cell_at k src i)); [|apply covers_self; lia|apply cell_in_table|].
    + by apply (D dst 0 dst (cell_at k dst i)); [|apply covers_self; lia|apply cell_in_table|].
  - cbn. apply (pte_ok_same k); [done|]. by apply share_ok.
  - by right.
  - split; try done.
    + cbn. apply (pte_ok_same k); [done|]. by apply share_ok.
    + constructor.
    + intros q Hq. by apply not_elem_of_nil in Hq.
    + intros q o. cbn. split; [by left|]. intros [?|[_ Hq]]; [done|by apply not_elem_of_nil in Hq].
    + intros q _. cbn [ptes]. rewrite cnt_one, share_pfn. change (refcount (pa k')) with (refcount b). rewrite Er. fold p.
      destruct (decide (p = q)) as [<-|]; [by rewrite arr_get_insert|rewrite arr_get_insert_ne by done; lia].
    + intros e' ->%list_elem_of_singleton. exists e. split; [by left|apply share_pfn].
Qed.

Lemma rep_range d k (t : tree d) q : rep d k t -> q ∈ owned d t -> 0 <= q < pool_pages (pa k).
Proof.
  revert t. induction d as [|d IH]; intros t Ht Hq; [by apply not_elem_of_nil in Hq|]. destruct Ht as (H1 & _ & H3).
  rewrite owned_kids in Hq. apply elem_of_cons in Hq as [->|Hq]; [done|]. apply kids_elem in Hq as (i & c & Hc & Hq). by apply (IH c), Hq; apply (H3 i c).
Qed.

(** A table below was copied; its entry goes into the new table. *)
Lemma table_copied d k P O src dst i (x : tree (S d)) km P2 x' c :
  slub_inv k P O -> P !! src = Some 0 -> P !! dst = Some 0 -> src <> dst -> 0 <= i < 512 -> rd k (cell_at k src i) = entry k x ->
  src ∉ owned (S d) x -> dst ∉ owned (S d) x -> touched (S d) k P O x km P2 x' -> copied (S d) k P x km P2 c ->
  let k' := wr km (cell_at k dst i) (entry k c) in kid_copied (S d) k P O src dst i x k' P2 x' c.
Proof.
  intros HI Hs Hd Hne Hi Hcell Hsx Hdx HT HC k'. assert (Hpool := slub_inv_pool k P O HI). assert (Hsp := lay_pool _ _ (tc_layout _ _ _ _ _ _ _ _ HT)).
  assert (Hrange : forall q o, P !! q = Some o -> 0 <= q < pool_pages (pa k)) by (intros q o Hq; by apply (slub_page_range k P O q o)).
  assert (Hpp : pool_pages (pa km) = pool_pages (pa k)) by (by destruct Hsp as (_ & _ & _ & ->)).
  assert (Hd2 : P2 !! dst = Some 0) by (apply (cp_pages _ _ _ _ _ _ _ HC); by left).
  assert (Hwr : forall q a, 0 <= q < pool_pages (pa k) -> in_page (pa k) q a -> q <> dst -> rd k' a = rd km a).
  { intros q a Hq Ha Hn. apply rd_wr_ne. intros <-. apply Hn. eapply cell_page; eauto. }
  assert (Hin : in_page (pa km) dst (cell_at k dst i)) by (unfold in_page; rewrite (pfn_to_addr_same _ _ _ Hsp); by apply cell_in_table).
  assert (Htab : forall q a, q ∈ owned (S d) x' \/ q ∈ owned (S d) c -> in_table km q a -> rd k' a = rd km a).
  { intros q a Hq Ha. assert (Hqr : 0 <= q < pool_pages (pa k)) by (rewrite <- Hpp; destruct Hq; [by eapply rep_range; [apply HT|]|by eapply rep_range; [apply HC|]]). apply (Hwr q a); [done| |].
    - unfold in_table, base_of in Ha. unfold in_page. by rewrite (pfn_to_addr_same _ _ _ Hsp) in Ha.
    - intros ->. destruct Hq as [Hq|Hq]; [apply Hdx; by rewrite <- (trel_owned _ _ _ _ (tc_like _ _ _ _ _ _ _ _ HT))|].
      by rewrite (proj1 (cp_new _ _ _ _ _ _ _ HC dst Hq)) in Hd. }
  split.
  - apply (slub_write_page km P2 O dst 0 dst); [apply HT|done|apply covers_self; lia|done].
  - etrans; [apply HT|done].
  - rewrite (Hwr src) by (eauto using cell_in_table || by apply cell_in_table). rewrite (tc_bytes _ _ _ _ _ _ _ _ HT src 0 src); [|done|apply covers_self; lia|done|by apply cell_in_table].
    rewrite Hcell. destruct (tc_like _ _ _ _ _ _ _ _ HT) as [E _]. cbn. by rewrite E.
  - apply rd_wr_eq.
  - intros q j Hq Hj Hji. unfold k'. rewrite rd_wr_ne.
    2:{ intros E. apply Hji. symmetry. eapply (cell_inj k dst q i j); eauto. destruct Hq as [-> | ->]; eauto. }
    apply (tc_bytes _ _ _ _ _ _ _ _ HT q 0 q); [by destruct Hq as [-> | ->]|apply covers_self; lia|by destruct Hq as [-> | ->]|by apply cell_in_table].
  - intros p o q a Hp Hc Hq H1 H2 Ha. assert (Hqr : 0 <= q < pool_pages (pa k)).
    { destruct HI as (S & PL & HR & _). destruct (used_page _ _ _ _ _ _ HR Hp) as [Hu _]. by eapply inv_covers_pool; [apply HR| |]. }
    rewrite (Hwr q) by done. by apply (tc_bytes _ _ _ _ _ _ _ _ HT p o q).
  - intros y cy a Hy Ha. unfold k'. rewrite rd_wr_ne; [by apply (tc_objs _ _ _ _ _ _ _ _ HT y cy)|]. intros <-.
    destruct (objects_disjoint k P O y cy HI Hy) as [_ D]. by apply (D dst 0 dst (cell_at k dst i)); [|apply covers_self; lia|apply cell_in_table|].
  - apply (rep_same (S d) km); [done| |apply HT]. intros q a Hq Ha. apply (Htab q a); [by left|done].
  - apply HT.
  - destruct HC as [C1 C2 C3 C4 C5 C6]. split; try done. apply (rep_same (S d) km); [done| |done]. intros q a Hq Ha. apply (Htab q a); [by right|done].
Qed.

(** ** The loop over the entries *)

Lemma of2_none {A B} (R : A -> B -> Prop) o o' : o = None -> o' = None -> option_Forall2 R o o'.
Proof. intros -> ->. constructor. Qed.

Lemma of2_some {A B} (R : A -> B -> Prop) o o' x y : o = Some x -> o' = Some y -> R x y -> option_Forall2 R o o'.
Proof. intros -> ->. by constructor. Qed.

Lemma of2_inv {A B} (R : A -> B -> Prop) o o' :
  option_Forall2 R o o' -> (o = None /\ o' = None) \/ exists x y, o = Some x /\ o' = Some y /\ R x y.
Proof. intros [x y H|]; [right; by exists x, y|by left]. Qed.

Record progress (d : nat) (i : Z) (t t1 c1 : tree (S d)) : Prop := {
  pg_done : forall j, j < i -> option_Forall2 (shared d) (snd t !! j) (snd t1 !! j);
  pg_todo : forall j, i <= j -> snd t1 !! j = snd t !! j;
  pg_copy : forall j, option_Forall2 (copyof d) (upto i (snd t1) !! j) (snd c1 !! j)
}.

Lemma progress_0 d (t : tree (S d)) p : (forall j, is_Some (snd t !! j) -> 0 <= j < 512) -> progress d 0 t t ((p, ∅) : tree (S d)).
Proof.
  intros Hk. split; [|done|].
  - intros j Hj. assert (E : snd t !! j = None) by (apply eq_None_not_Some; intros H; specialize (Hk j H); lia). by apply of2_none.
  - intros j. apply of2_none; [|apply lookup_empty]. rewrite (upto_0 (snd t)) by (intros x Hx; by apply Hk). apply lookup_empty.
Qed.

Lemma progress_skip d i (t t1 c1 : tree (S d)) : progress d i t t1 c1 -> snd t !! i = None -> progress d (i + 1) t t1 c1.
Proof.
  intros [H1 H2 H3] Hn. assert (Hn1 : snd t1 !! i = None) by (by rewrite H2). split.
  - intros j Hj. destruct (decide (j = i)) as [->|]; [by apply of2_none|apply H1; lia].
  - intros j Hj. apply H2. lia.
  - intros j. rewrite (upto_succ_none i (snd t1) Hn1). apply H3.
Qed.

Lemma progress_step d i (t t1 c1 : tree (S d)) x x' c :
  progress d i t t1 c1 -> snd t !! i = Some x -> shared d x x' -> copyof d x' c ->
  progress d (i + 1) t (fst t1, <[i := x']> (snd t1)) (fst c1, <[i := c]> (snd c1)).
Proof.
  intros [H1 H2 H3] Hx Hsh Hcp. split; cbn [fst snd].
  - intros j Hj. destruct (decide (j = i)) as [->|]; [by apply (of2_some _ _ _ x x'); [|apply lookup_insert_eq|]|rewrite lookup_insert_ne by done; apply H1; lia].
  - intros j Hj. rewrite lookup_insert_ne by lia. apply H2. lia.
  - intros j. rewrite (upto_succ_some i _ x') by apply lookup_insert_eq. destruct (decide (j = i)) as [->|]; [by apply (of2_some _ _ _ x' c); [apply lookup_insert_eq..|]|].
    rewrite !lookup_insert_ne by done. specialize (H3 j). rewrite upto_lookup in H3 |- *. by rewrite lookup_insert_ne by done.
Qed.

Lemma progress_none d i (t t1 c1 : tree (S d)) : progress d i t t1 c1 -> snd c1 !! i = None.
Proof. intros [_ _ H3]. destruct (of2_inv _ _ _ (H3 i)) as [[_ ?]|(x & y & E & _)]; [done|]. by rewrite upto_none in E. Qed.

Lemma progress_end d (t t1 c1 : tree (S d)) :
  progress d 512 t t1 c1 -> fst t1 = fst t -> (forall j, is_Some (snd t !! j) -> 0 <= j < 512) -> shared (S d) t t1 /\ copyof (S d) t1 c1.
Proof.
  intros [H1 H2 H3] Ef Hk. assert (H1' : forall j, option_Forall2 (shared d) (snd t !! j) (snd t1 !! j)).
  { intros j. destruct (decide (j < 512)); [by apply H1|]. assert (E : snd t !! j = None) by (apply eq_None_not_Some; intros H; specialize (Hk j H); lia).
    apply of2_none; [done|]. by rewrite H2 by lia. }
  split; [by split|]. split; [done|]. intros j. specialize (H3 j). rewrite (upto_all 512) in H3; [done|]. intros i [y Hy].
  destruct (of2_inv _ _ _ (H1' i)) as [[_ E]|(x & z & E & _)]; [discriminate (eq_trans (eq_sym E) Hy)|]. specialize (Hk i ltac:(by eexists)). lia.
Qed.

Lemma shared_pfns d k (t t' : tree d) : shared d t t' -> pfns d k t' ≡ₚ pfns d k t.
Proof. apply trel_pfns. intros e e' ->. apply share_pfn. Qed.

Lemma copyof_pfns d k (t t' : tree d) : copyof d t t' -> pfns d k t' ≡ₚ pfns d k t.
Proof. apply trel_pfns. by intros e e' ->. Qed.

(** The leaves copied so far. *)
Lemma progress_cnt d i k (t t1 c1 : tree (S d)) q :
  progress d i t t1 c1 -> cnt k (ptes (S d) c1) q = cnt k (kids (ptes d) (upto i (snd t))) q.
Proof.
  intros [H1 _ H3]. apply cnt_pfns. rewrite ptes_kids, !fmap_kids. symmetry.
  transitivity (map_to_list (upto i (snd t1)) ≫= fun ic => pte_pfn k <$> ptes d (snd ic)).
  - apply (kids_rel (fun c => pte_pfn k <$> ptes d c) (fun c => pte_pfn k <$> ptes d c) (shared d)).
    + intros j. rewrite !upto_lookup. case_decide; [by apply H1|by apply of2_none].
    + intros c c' Hc. symmetry. by apply shared_pfns.
  - apply (kids_rel (fun c => pte_pfn k <$> ptes d c) (fun c => pte_pfn k <$> ptes d c) (copyof d)); [done|].
    intros c c' Hc. symmetry. by apply copyof_pfns.
Qed.

Lemma source_kid d k P O (t : tree (S d)) k1 P1 t1 c1 i x :
  source (S d) k P t -> touched (S d) k P O t k1 P1 t1 -> copied (S d) k P t k1 P1 c1 -> progress d i t t1 c1 -> snd t !! i = Some x ->
  source d k1 P1 x.
Proof.
  intros HS HT HC HP Hx. assert (Hs := lay_pool _ _ (tc_layout _ _ _ _ _ _ _ _ HT)). assert (Hx1 : snd t1 !! i = Some x) by (by rewrite (pg_todo _ _ _ _ _ HP)).
  assert (Hin : forall e, e ∈ ptes d x -> e ∈ ptes (S d) t) by (intros e He; rewrite ptes_kids; apply kids_elem; by exists i, x).
  assert (Hio : forall q, q ∈ owned d x -> q ∈ owned (S d) t) by (intros q Hq; rewrite owned_kids; right; by apply (owned_kid d t i x)). split.
  - by apply (proj2 (proj2 (tc_src _ _ _ _ _ _ _ _ HT)) i x).
  - assert (Hnd := so_nodup _ _ _ _ HS). rewrite owned_kids in Hnd. apply NoDup_cons in Hnd as [_ Hnd].
    rewrite (kids_lookup (owned d) _ i x Hx) in Hnd. by apply NoDup_app in Hnd as [? _].
  - intros q Hq. apply (pages_grow d k P t k1 P1 c1 HC). by apply HS, Hio.
  - intros e He. rewrite (pte_pfn_same k k1) by done. destruct (so_leaf _ _ _ _ HS e (Hin e He)) as [HPe Hno].
    split; [by apply (pages_grow d k P t k1 P1 c1 HC)|]. intros Hq. by apply Hno, Hio.
  - intros q. rewrite (cnt_same k k1) by done. intros Hq. destruct (cnt_pos _ _ _ Hq) as (e & He & <-).
    rewrite (cp_ref _ _ _ _ _ _ _ HC) by (rewrite (proj1 (so_leaf _ _ _ _ HS e (Hin e He))); eauto).
    rewrite (progress_cnt d i k t t1 c1 _ HP). assert (Hle : cnt k (kids (ptes d) (upto (i + 1) (snd t))) (pte_pfn k e) <= cnt k (ptes (S d) t) (pte_pfn k e)).
    { rewrite ptes_kids. apply cnt_kids_sub, map_subseteq_spec. intros j y Hj. rewrite upto_lookup in Hj. by case_decide. }
    rewrite (cnt_perm _ _ _ _ (kids_upto (ptes d) i (snd t) x Hx)), cnt_app in Hle. assert (Hr := so_room _ _ _ _ HS (pte_pfn k e)).
    assert (H0 := cnt_nonneg k (kids (ptes d) (upto i (snd t))) (pte_pfn k e)).
    match goal with |- _ + ?a + ?b < _ => assert (Hab : b + a <= cnt k (ptes (S d) t) (pte_pfn k e)) by exact Hle; assert (0 <= a) by exact H0; assert (0 < b) by exact Hq end. lia.
Qed.

(** ** Running out of memory *)

(** A table below could not be copied. *)
Lemma kid_failed d k P O (t : tree (S (S d))) k1 P1 t1 c1 i (x : tree (S d)) km x' :
  source (S (S d)) k P t -> touched (S (S d)) k P O t k1 P1 t1 -> copied (S (S d)) k P t k1 P1 c1 -> 0 <= i < 512 ->
  snd t !! i = Some x -> snd t1 !! i = Some x -> touched (S d) k1 P1 O x km P1 x' ->
  (forall q, is_Some (P1 !! q) -> (refcount (pa km)).[q] = (refcount (pa k1)).[q]) ->
  touched (S (S d)) k P O t km P1 (fst t1, <[i := x']> (snd t1)) /\ copied (S (S d)) k P t km P1 c1.
Proof.
  intros HS HT HC Hi Hx Hx1 HX Href. assert (Hp1 := lay_pool _ _ (tc_layout _ _ _ _ _ _ _ _ HT)). assert (Hp2 := lay_pool _ _ (tc_layout _ _ _ _ _ _ _ _ HX)).
  destruct (kid_disjoint (S d) t1 i x (src_nodup (S d) k P O t k1 P1 t1 HS HT) Hx1) as [Hroot Hdis].
  assert (Hkeep : forall q a, P1 !! q = Some 0 -> q ∉ owned (S d) x -> in_table k1 q a -> rd km a = rd k1 a).
  { intros q a HPq Hq Ha. apply (tc_bytes _ _ _ _ _ _ _ _ HX q 0 q a); try done. apply covers_self. lia. }
  assert (Hsrc := src_page (S d) k P O t k1 P1 t1 c1 HS HT HC). assert (Hdst := dst_page (S d) k P O t k1 P1 t1 c1 HS HT HC). split; [split|].
  - apply HX.
  - etrans; [apply HT|apply HX].
  - rewrite <- partial_alter_insert. apply (rep_set_kid (S d) k1 km t1 i (Some x')); [done|apply HT|done| | | |].
    + destruct (Hsrc (fst t1) (owned_root _ t1)) as (_ & HPr & _). rewrite (Hkeep (fst t1)) by (done || by apply cell_in_table).
      destruct (tc_src _ _ _ _ _ _ _ _ HT) as (_ & Hcell & _). unfold cell_at. rewrite (Hcell i Hi), (slot_val_kid k1 (S d) t1 i x Hx1).
      cbn [slot_val]. rewrite (entry_same k1 km) by done. destruct (tc_like _ _ _ _ _ _ _ _ HX) as [E _]. cbn [entry]. by rewrite E.
    + intros y [= <-]. apply HX.
    + intros j Hj Hne. destruct (Hsrc (fst t1) (owned_root _ t1)) as (_ & HPr & _). apply (Hkeep (fst t1)); [done|done|by apply cell_in_table].
    + intros j y q a Hj Hy Hq Ha. destruct (Hdis j y q Hj Hy Hq) as [Hqx _]. destruct (Hsrc q) as (_ & HPq & _); [|by apply (Hkeep q)].
      rewrite owned_kids. right. by apply (owned_kid (S d) t1 j y).
  - destruct (tc_like _ _ _ _ _ _ _ _ HT) as [E Hl]. split; [done|]. intros j. cbn [snd]. destruct (decide (j = i)) as [->|Hne].
    + apply (of2_some _ _ _ x x'); [done|apply lookup_insert_eq|apply HX].
    + rewrite lookup_insert_ne by done. apply Hl.
  - intros p o q a Hp Hc Hq Ha. assert (Hp' := pages_grow (S d) k P t k1 P1 c1 HC p o Hp). rewrite (tc_bytes _ _ _ _ _ _ _ _ HX p o q a Hp' Hc).
    + by apply (tc_bytes _ _ _ _ _ _ _ _ HT p o q).
    + intros Hqx. apply Hq. rewrite owned_kids. right. by apply (owned_kid (S d) t i x).
    + unfold in_page in *. by rewrite (pfn_to_addr_same _ _ _ Hp1).
  - intros y c a Hy Ha. rewrite (tc_objs _ _ _ _ _ _ _ _ HX y c); [by apply (tc_objs _ _ _ _ _ _ _ _ HT y c)|done|].
    by rewrite (lay_size _ _ (tc_layout _ _ _ _ _ _ _ _ HT)).
  - destruct (HC) as [C1 C2 C3 C4 C5 C6]. split; try done.
    + apply (rep_same (S (S d)) k1); [done| |done]. intros q a Hq Ha. destruct (Hdst q Hq) as (HPq & _ & Hno). apply (Hkeep q a); [done| |done].
      intros Hqx. apply Hno. rewrite owned_kids. right. by apply (owned_kid (S d) t1 i x).
    + intros q Hq. split; [by apply C3|]. rewrite Href by (by rewrite (proj1 (Hdst q Hq))). by apply C3.
    + intros q [o Hq]. rewrite Href by (rewrite (pages_grow (S d) k P t k1 P1 c1 HC q o Hq); eauto). apply C5. eauto.
Qed.

(** The copy can be given back, and then the pages are as before. *)
Lemma copy_whole d k P O (t : tree (S d)) k1 P1 t1 c1 :
  slub_inv k P O -> source (S d) k P t -> touched (S d) k P O t k1 P1 t1 -> copied (S d) k P t k1 P1 c1 -> whole (S d) k1 P1 c1.
Proof.
  intros HI HS HT HC. assert (Hp1 := lay_pool _ _ (tc_layout _ _ _ _ _ _ _ _ HT)). destruct (HC) as [C1 C2 C3 C4 C5 C6].
  assert (Hlf : forall e, e ∈ ptes (S d) c1 -> P !! pte_pfn k e = Some 0).
  { intros e He. destruct (C6 e He) as (e0 & He0 & ->). by apply (so_leaf _ _ _ _ HS). }
  split; try done.
  - intros q Hq. split; [apply C4; by right|by apply C3].
  - intros e He. rewrite (pte_pfn_same k k1) by done. split; [apply C4; left; by apply Hlf|]. intros Hq. destruct (C3 _ Hq) as [Hn _]. by rewrite Hlf in Hn.
  - intros q. rewrite (cnt_same k k1) by done. intros Hq. destruct (cnt_pos _ _ _ Hq) as (e & He & <-). rewrite C5 by (rewrite Hlf; eauto).
    destruct (slub_ref_pos k P O (pte_pfn k e) 0 HI (Hlf e He)). lia.
Qed.

Lemma copy_undone d k P O (t : tree (S d)) k1 P1 t1 c1 k2 P2 :
  slub_inv k P O -> source (S d) k P t -> touched (S d) k P O t k1 P1 t1 -> copied (S d) k P t k1 P1 c1 ->
  dropped k1 P1 O (owned (S d) c1) (ptes (S d) c1) k2 P2 ->
  touched (S d) k P O t k2 P t1 /\ forall q, is_Some (P !! q) -> (refcount (pa k2)).[q] = (refcount (pa k)).[q].
Proof.
  intros HI HS HT HC HD. assert (Hp1 := lay_pool _ _ (tc_layout _ _ _ _ _ _ _ _ HT)). destruct (HC) as [C1 C2 C3 C4 C5 C6].
  assert (Hin : forall q o, P !! q = Some o -> P2 !! q = Some o).
  { intros q o Hq. apply (dr_pages _ _ _ _ _ _ _ HD). split; [apply C4; by left|]. split; [intros Hc; destruct (C3 q Hc); congruence|].
    rewrite (cnt_same k k1), C5 by (done || eauto). destruct (slub_ref_pos k P O q o HI Hq). lia. }
  assert (E : P2 = P).
  { apply map_eq. intros q. destruct (P !! q) as [o|] eqn:Eq; [by apply Hin|]. destruct (P2 !! q) as [o|] eqn:E2; [|done].
    apply (dr_pages _ _ _ _ _ _ _ HD) in E2 as (E2 & Hn & _). apply C4 in E2 as [?|[_ ?]]; [congruence|done]. }
  subst P2. split.
  - split.
    + apply HD.
    + etrans; [apply HT|apply HD].
    + apply (rep_same (S d) k1); [apply (lay_pool _ _ (dr_layout _ _ _ _ _ _ _ HD))| |apply HT]. intros q a Hq Ha.
      apply (dr_bytes _ _ _ _ _ _ _ HD q 0 q a); [|apply covers_self; lia|done]. apply HS. by rewrite <- (trel_owned _ _ _ _ (tc_like _ _ _ _ _ _ _ _ HT)).
    + apply HT.
    + intros p o q a Hp Hc Hq Ha. rewrite (dr_bytes _ _ _ _ _ _ _ HD p o q a); [by apply (tc_bytes _ _ _ _ _ _ _ _ HT p o q)|done|done|].
      unfold in_page in *. by rewrite (pfn_to_addr_same _ _ _ Hp1).
    + intros y c a Hy Ha. rewrite (dr_objs _ _ _ _ _ _ _ HD y c); [by apply (tc_objs _ _ _ _ _ _ _ _ HT y c)|done|].
      by rewrite (lay_size _ _ (tc_layout _ _ _ _ _ _ _ _ HT)).
  - intros q Hq. rewrite (dr_ref _ _ _ _ _ _ _ HD), (cnt_same k k1), C5 by done. lia.
Qed.

(** ** The copy *)

(** An empty table. *)
Lemma copy_start d k P O (t : tree (S d)) :
  slub_inv k P O -> KERNEL_VIRT_BASE <= mem_start (pa k) -> source (S d) k P t ->
  alloc_pages (pa k) 0 = Some (0, pa k) \/
  exists p b, alloc_pages (pa k) 0 = Some (base_of k p, b) /\ base_of k p <> 0 /\
    let k0 := page_zero (set_pa k b) (base_of k p) in
    touched (S d) k P O t k0 (<[p := 0]> P) t /\ copied (S d) k P t k0 (<[p := 0]> P) ((p, ∅) : tree (S d)).
Proof.
  intros HI Hb HS. assert (Hpool := slub_inv_pool k P O HI).
  destruct (slub_alloc_pages k P O 0 HI) as [E|(p & b & E & Hp & _ & _ & Hout & HI1 & Hr & Hf1)]; [split; [done|apply (pool_order _ Hpool)]|by left|right].
  exists p, b. split; [done|]. split.
  { unfold base_of. rewrite pfn_to_addr_eq by done. destruct (pool_start _ Hpool). unfold PAGE_SIZE. lia. }
  assert (Hs := lay_pool _ _ (fr_layout _ _ _ _ Hf1)). set (k1 := set_pa k b) in *. assert (Eb : base_of k p = base_of k1 p) by (symmetry; by apply pfn_to_addr_same).
  assert (Hpn : P !! p = None).
  { destruct (P !! p) as [o|] eqn:Eo; [|done]. destruct (Hout p (covers_self p 0 ltac:(lia)) p o Eo). apply covers_self. by apply (slub_order_max k P O p). }
  rewrite Eb. destruct (zero_page k1 p) as (m & -> & Hm). destruct (page_zeroed k1 P O p m HI1 Hout Hm) as [HI2 Hf2]. set (k0 := set_pa k1 (set_mem (pa k1) m)) in *.
  assert (Hf := slub_frame_trans _ _ _ _ _ Hf1 Hf2). assert (Hs0 := lay_pool _ _ (fr_layout _ _ _ _ Hf)). cbv zeta. split; split; try done.
  - apply (rep_same (S d) k); [done| |apply HS]. intros q a Hq Ha. apply (fr_page _ _ _ _ Hf q 0 q a); [by apply HS|apply covers_self; lia|done].
  - apply like_refl.
  - intros q o q' a Hq Hc _ Ha. by apply (fr_page _ _ _ _ Hf q o q').
  - apply Hf.
  - apply zeroed_rep; [by destruct Hs0 as (_ & _ & _ & ->)|]. intros a Ha. change (rd k0 a) with (m.[a]). rewrite Hm, decide_True; [done|exact Ha].
  - apply NoDup_singleton.
  - intros q ->%list_elem_of_singleton. split; [done|]. change (refcount (pa k0)) with (refcount b). rewrite Hr. apply arr_get_insert.
  - intros q o. change (owned (S d) ((p, ∅) : tree (S d))) with [p]. rewrite list_elem_of_singleton. destruct (decide (q = p)) as [->|Hne].
    + rewrite lookup_insert_eq, Hpn. naive_solver.
    + rewrite lookup_insert_ne by done. naive_solver.
  - intros q Hq. rewrite (fr_ref _ _ _ _ Hf q Hq). change (ptes (S d) ((p, ∅) : tree (S d))) with (@nil Z). rewrite cnt_nil. lia.
  - intros e He. by apply not_elem_of_nil in He.
Qed.

Lemma for_until_inv (I : Z -> slub -> Prop) (F : slub -> Prop) f n i k :
  I i k ->
  (forall j k, i <= j < i + Z.of_nat n -> I j k -> (exists k', f j k = Some (true, k') /\ I (j + 1) k') \/ (exists k', f j k = Some (false, k') /\ F k')) ->
  (exists k', for_idx_until n i f k = Some (true, k') /\ I (i + Z.of_nat n) k') \/ (exists k', for_idx_until n i f k = Some (false, k') /\ F k').
Proof.
  revert i k. induction n as [|n IH]; intros i k HI Hf; [left; exists k; by rewrite Z.add_0_r|]. cbn [for_idx_until].
  destruct (Hf i k ltac:(lia) HI) as [(k1 & -> & HI1)|(k1 & -> & HF)]; cbn [mbind option_bind]; [|right; by exists k1].
  replace (i + Z.of_nat (S n)) with (i + 1 + Z.of_nat n) by lia. apply (IH (i + 1) k1 HI1). intros j kj Hj. apply Hf. lia.
Qed.

Lemma entry_flags k q : ram k -> 0 <= q < pool_pages (pa k) -> Z.land (Z.lor (virt_to_phys (base_of k q)) PTE_TABLE) PTE_FLAGS_MASK = PTE_TABLE.
Proof.
  intros [Hp Hb] Hq. destruct (pool_phys _ _ Hp Hb Hq) as (_ & _ & Hr & _ & E5). fold (base_of k q) in *. rewrite Z.land_lor_distr_l. rewrite <- E5.
  rewrite <- Z.land_assoc. by rewrite Z.land_0_r.
Qed.

(** What the loop has done below [i]. *)
Definition half_done (d : nat) (k : slub) (P O : gmap Z Z) (t : tree (S d)) (p i : Z) (kj : slub) : Prop :=
  exists P1 t1 c1, touched (S d) k P O t kj P1 t1 /\ copied (S d) k P t kj P1 c1 /\ progress d i t t1 c1 /\ fst c1 = p.

(** The copy failed. *)
Definition undone (d : nat) (k : slub) (P O : gmap Z Z) (t : tree d) (k' : slub) : Prop :=
  exists t', touched d k P O t k' P t' /\ forall q, is_Some (P !! q) -> (refcount (pa k')).[q] = (refcount (pa k)).[q].

(** The copy is complete. *)
Definition duplicated (d : nat) (k : slub) (P O : gmap Z Z) (t : tree d) (k' : slub) (c : tree d) : Prop :=
  exists P' t', touched d k P O t k' P' t' /\ copied d k P t k' P' c /\ shared d t t' /\ copyof d t' c.

Section Loop.
Context (d : nat) (k : slub) (P O : gmap Z Z) (t : tree (S d)) (p : Z).
Hypothesis HI : slub_inv k P O.
Hypothesis Hb : KERNEL_VIRT_BASE <= mem_start (pa k).
Hypothesis HS : source (S d) k P t.

Lemma step_done i kj P1 t1 c1 x k2 P2 x' c :
  touched (S d) k P O t kj P1 t1 -> copied (S d) k P t kj P1 c1 -> progress d i t t1 c1 -> fst c1 = p -> snd t !! i = Some x -> 0 <= i < 512 ->
  kid_copied d kj P1 O (fst t1) (fst c1) i x k2 P2 x' c -> shared d x x' -> copyof d x' c -> half_done d k P O t p (i + 1) k2.
Proof using HS.
  intros HT HC HP Ep Hx Hi HK Hsh Hcp. assert (Hx1 : snd t1 !! i = Some x) by (by rewrite (pg_todo _ _ _ _ _ HP)). assert (Hc1 := progress_none _ _ _ _ _ HP).
  exists P2, (fst t1, <[i := x']> (snd t1)), (fst c1, <[i := c]> (snd c1)). split; [by eapply step_touched|]. split; [by eapply step_copied|].
  split; [by apply (progress_step d i t t1 c1 x)|done].
Qed.

Lemma tables_in_use kj P1 t1 c1 : touched (S d) k P O t kj P1 t1 -> copied (S d) k P t kj P1 c1 ->
  P1 !! fst t1 = Some 0 /\ P1 !! fst c1 = Some 0 /\ fst t1 <> fst c1.
Proof using HS.
  intros HT HC. destruct (src_page d k P O t kj P1 t1 c1 HS HT HC (fst t1) (owned_root d t1)) as (_ & H1 & H2).
  destruct (dst_page d k P O t kj P1 t1 c1 HS HT HC (fst c1) (owned_root d c1)) as (H3 & _). split; [done|]. split; [done|]. intros E. apply H2. rewrite E. apply owned_root.
Qed.

Lemma undo kj P1 t1 c1 level :
  touched (S d) k P O t kj P1 t1 -> copied (S d) k P t kj P1 c1 -> fst c1 = p -> level = 3 - Z.of_nat d ->
  exists k', free_pgtable_level (S d) kj (base_of k p) level = Some k' /\ undone (S d) k P O t k'.
Proof using HI Hb HS.
  intros HT HC <- ->. assert (Hs := lay_pool _ _ (tc_layout _ _ _ _ _ _ _ _ HT)).
  destruct (free_level d kj P1 O c1 (tc_inv _ _ _ _ _ _ _ _ HT)) as (k' & P' & E & HD); [by destruct Hs as (-> & _)|by eapply copy_whole|].
  replace (base_of k (fst c1)) with (base_of kj (fst c1)) by (by apply pfn_to_addr_same). exists k'. split; [done|]. exists t1. by eapply copy_undone.
Qed.
End Loop.

Lemma dup_level d k P O (t : tree (S d)) :
  slub_inv k P O -> KERNEL_VIRT_BASE <= mem_start (pa k) -> source (S d) k P t ->
  exists r k', dup_pgtable_level (S d) k (base_of k (fst t)) (3 - Z.of_nat d) = Some (r, k') /\
    ((r = 0 /\ undone (S d) k P O t k') \/ (r <> 0 /\ exists c, r = base_of k (fst c) /\ duplicated (S d) k P O t k' c)).
Proof.
  revert k P t. induction d as [d IH] using lt_wf_ind; intros k P t HI Hb HS. assert (Hram := slub_ram k P O HI Hb).
  assert (Hkeys : forall j, is_Some (snd t !! j) -> 0 <= j < 512) by (intros j [c Hj]; by apply (proj2 (proj2 (so_rep _ _ _ _ HS)) j c)).
  cbn [dup_pgtable_level]. destruct (copy_start d k P O t HI Hb HS) as [->|(p & b & -> & Hp0 & HT0 & HC0)]; cbn [mbind option_bind].
  { change (0 =? 0) with true. cbn iota. exists 0, (set_pa k (pa k)). split; [done|]. left. split; [done|]. replace (set_pa k (pa k)) with k by (by destruct k).
    exists t. split; [|done]. split; try done; [apply HS|apply like_refl]. }
  rewrite (proj2 (Z.eqb_neq _ _) Hp0). set (k0 := page_zero (set_pa k b) (base_of k p)) in *.
  match goal with |- context [for_idx_until 512 0 ?f k0] =>
    destruct (for_until_inv (half_done d k P O t p) (undone (S d) k P O t) f 512 0 k0) as [(k' & -> & P1 & t1 & c1 & HT & HC & HP & Ep)|(k' & -> & Hu)] end.
  - exists (<[p := 0]> P), t, (p, ∅). split; [done|]. split; [done|]. split; [by apply progress_0|done].
  - intros i kj Hi (P1 & t1 & c1 & HT & HC & HP & Ep). assert (Hs := lay_pool _ _ (tc_layout _ _ _ _ _ _ _ _ HT)).
    assert (Ef := src_root d k P O t kj P1 t1 HT). destruct (tables_in_use d k P O t HS kj P1 t1 c1 HT HC) as (HP1 & HP2 & Hne).
    assert (Ecell : forall q j, base_of k q + 8 * j = cell_at kj q j) by (intros q j; unfold cell_at, base_of; by rewrite (pfn_to_addr_same _ _ _ Hs)).
    rewrite !Ecell. assert (Hent : rd kj (cell_at kj (fst t) i) = slot_val kj (snd t !! i)).
    { rewrite <- Ef. etransitivity; [apply (tc_src _ _ _ _ _ _ _ _ HT); lia|]. exact (f_equal (slot_val kj) (pg_todo _ _ _ _ _ HP i ltac:(lia))). }
    rewrite Hent. destruct (snd t !! i) as [x|] eqn:Hx; cbn [slot_val].
    2:{ left. exists kj. split; [done|]. exists P1, t1, c1. split; [done|]. split; [done|]. split; [by apply progress_skip|done]. }
    assert (HSx := source_kid d k P O t kj P1 t1 c1 i x HS HT HC HP Hx). assert (HIj := tc_inv _ _ _ _ _ _ _ _ HT).
    assert (Hbj : KERNEL_VIRT_BASE <= mem_start (pa kj)) by (by destruct Hs as (-> & _)).
    rewrite (entry_present kj d x (slub_ram kj P1 O HIj Hbj) (so_rep _ _ _ _ HSx)). cbn [negb].
    destruct d as [|d].
    + change (3 - Z.of_nat 0 <? 3) with false. cbn iota. left. assert (Hok := so_rep _ _ _ _ HSx). destruct (so_leaf _ _ _ _ HSx x ltac:(by left)) as [HPx _].
      change (entry kj x) with x. fold (pte_kva x). assert (Ev : virt_to_page (pa kj) (pte_kva x) = Some (pte_pfn kj x)).
      { destruct Hok as (_ & _ & Hpr & ->). apply virt_to_page_pool; [by eapply slub_inv_pool|done]. }
      rewrite Ev. fold (share x). unfold pte_set. eexists. split; [done|]. rewrite <- Ef, <- Ep.
      apply (step_done 0 k P O t (fst c1) HS i kj P1 t1 c1 x _ P1 (share x) (share x) HT HC HP eq_refl Hx); [lia| |done|done].
      apply leaf_copied; [done|done|done|done|lia|done|done|].
      assert (Hroom := so_room _ _ _ _ HSx (pte_pfn kj x)). cbn [ptes] in Hroom. rewrite cnt_one, decide_True in Hroom by done. lia.
    + rewrite (proj2 (Z.ltb_lt _ _)) by lia. destruct (table_entry kj (fst x) (slub_ram kj P1 O HIj Hbj) (proj1 (so_rep _ _ _ _ HSx))) as (_ & _ & Eph & _).
      change (entry kj x) with (Z.lor (virt_to_phys (base_of kj (fst x))) PTE_TABLE). rewrite Eph.
      replace (3 - Z.of_nat (S d) + 1) with (3 - Z.of_nat d) by lia.
      destruct (IH d ltac:(lia) kj P1 x HIj Hbj HSx) as (r & km & -> & Hcase). cbn [mbind option_bind].
      assert (Hx1 : snd t1 !! i = Some x) by exact (eq_trans (pg_todo _ _ _ _ _ HP i ltac:(lia)) Hx).
      destruct Hcase as [(-> & x' & HX & Href)|(Hr & c & -> & P2 & x' & HX & HCx & Hsh & Hcp)].
      * change (0 =? 0) with true. cbn iota. right. destruct (kid_failed d k P O t kj P1 t1 c1 i x km x' HS HT HC ltac:(lia) Hx Hx1 HX Href) as [HT' HC'].
        destruct (undo (S d) k P O t p HI Hb HS km P1 _ c1 (3 - Z.of_nat (S d)) HT' HC' Ep eq_refl) as (k' & E & Hu).
        rewrite E. exists k'. by split.
      * rewrite (proj2 (Z.eqb_neq _ _) Hr). left. rewrite (entry_flags kj (fst x) (slub_ram kj P1 O HIj Hbj) (proj1 (so_rep _ _ _ _ HSx))). unfold pte_set.
        eexists. split; [done|]. rewrite <- Ep. destruct (kid_disjoint (S d) t1 i x (src_nodup (S d) k P O t kj P1 t1 HS HT) Hx1) as [Hr1 _].
        apply (step_done (S d) k P O t (fst c1) HS i kj P1 t1 c1 x _ P2 x' c HT HC HP eq_refl Hx); [lia| |done|done].
        apply table_copied; [done|done|done|done|lia| |done| |done|done].
        -- rewrite Ef. exact Hent.
        -- intros Hq. apply (proj2 (proj2 (dst_page (S d) k P O t kj P1 t1 c1 HS HT HC (fst c1) (owned_root _ c1)))). rewrite owned_kids. right. by apply (owned_kid (S d) t1 i x).
  - cbn [mbind option_bind]. exists (base_of k p), k'. split; [done|]. right. split; [done|]. exists c1. split; [by rewrite Ep|]. exists P1, t1.
    split; [done|]. split; [done|]. apply progress_end; [done|by eapply src_root|done].
  - cbn [mbind option_bind]. exists 0, k'. split; [done|]. by left.
Qed.
