(* ===== verification/Fork.v ===== *)
(** * Fork ([dup_mm] in [kernel/fork.c])

    The copy of an address space has the same areas and reads the same at every
    address; the pages are shared, read-only in both.  From then on the two
    are the [pair] of [Isolation], so neither sees what the other does. *)
From S2P Require Import Prelude PageAlloc Slub Errno AddrSpace Vma PageTable PageTree PageMap Mmap Fault Protect Isolation MmLife PageFree PageDup.

(** ** Leaves that are shared *)

Lemma of2_bind {A A' B B'} (R : A -> A' -> Prop) (S : B -> B' -> Prop) o o' (f : A -> option B) (g : A' -> option B') :
  option_Forall2 R o o' -> (forall x y, R x y -> option_Forall2 S (f x) (g y)) -> option_Forall2 S (o ≫= f) (o' ≫= g).
Proof. intros [x y H|] Hf; [by apply Hf|constructor]. Qed.

Lemma trel_leaf_at (L F : Z -> Z -> Prop) (t t' : tree 3) va : trel L F 3 t t' -> option_Forall2 L (leaf_at t va) (leaf_at t' va).
Proof.
  intros [_ H1]. unfold leaf_at. apply (of2_bind _ _ _ _ _ _ (H1 (l1_idx va))). intros c c' [_ H2].
  apply (of2_bind _ _ _ _ _ _ (H2 (l2_idx va))). intros d d' [_ H3]. apply H3.
Qed.

Lemma share_has e m j : m = Z.shiftl 1 j -> 0 <= j -> j <> 7 -> has (share e) m = has e m.
Proof. intros -> H1 H2. rewrite !has_bit by done. by apply share_bit. Qed.

Lemma share_matches f e e' : matches f e -> e' = e \/ e' = share e -> matches f e'.
Proof.
  intros (M1 & M2 & M3) [->| ->]; [done|]. split; [by rewrite share_write|].
  rewrite (share_has e PTE_UXN 54), (share_has e PTE_USER 6); done.
Qed.

Lemma copyof_leaf_at (t t' : tree 3) va : copyof 3 t t' -> leaf_at t' va = leaf_at t va.
Proof. intros H. destruct (of2_inv _ _ _ (trel_leaf_at _ _ t t' va H)) as [[E E']|(x & y & E & E' & ->)]; by rewrite E, E'. Qed.

Lemma shared_readonly (t t' : tree 3) va e : shared 3 t t' -> leaf_at t' va = Some e -> pte_write e = false.
Proof.
  intros H He. destruct (of2_inv _ _ _ (trel_leaf_at _ _ t t' va H)) as [[E E']|(x & y & E & E' & ->)]; [congruence|].
  rewrite E' in He. injection He as <-. apply share_write.
Qed.

Lemma uses_cnt k t q : uses k t q = cnt k (ptes 3 t) q.
Proof. done. Qed.

Lemma like_byte k k' (t t' : tree 3) va :
  like 3 t t' -> same_pool (pa k) (pa k') ->
  (forall e, e ∈ ptes 3 t -> forall a, in_page (pa k) (pte_pfn k e) a -> rd k' a = rd k a) -> user_byte k' t' va = user_byte k t va.
Proof.
  intros Hl Hs Hb. unfold user_byte. destruct (of2_inv _ _ _ (trel_leaf_at _ _ t t' va Hl)) as [[E E']|(x & y & E & E' & Hy)]; rewrite E, E'; [done|].
  cbn. f_equal. rewrite (pte_pfn_same k k'), (like_pfn k x y Hy) by done. unfold base_of. rewrite (pfn_to_addr_same _ _ _ Hs).
  apply (Hb x (leaf_in _ _ _ E)), in_base.
Qed.

(** ** The parent *)

(** Enough room in the counters of the pages for one more mapping each. *)
Definition room (k : slub) (t : tree 3) : Prop := forall q, 0 < uses k t q -> (refcount (pa k)).[q] + uses k t q < 2 ^ 31.

Lemma mem_source k P R mm V t : mem_inv k P R mm V t -> room k t -> source 3 k P t.
Proof. intros HI Hr. destruct (me_tables _ _ _ _ _ _ (mi_mem _ _ _ _ _ _ HI)) as [_ _ T3 T4 T5 T6 _]. by split. Qed.

Lemma touched_mem k P R mm V t k' P' t' :
  mem_inv k P R mm V t -> touched 3 k P (vobjs V ∪ R) t k' P' t' -> P ⊆ P' ->
  (forall q, 0 < uses k t q -> uses k t q <= (refcount (pa k')).[q]) -> private k' t' ->
  mem_inv k' P' R mm V t' /\ forall va, user_byte k' t' va = user_byte k t va.
Proof.
  intros [[HR HT] HS Hpg Hb Hpr] [C1 C2 C3 C4 C5 C6] HP Href Hpr'. assert (Hs := lay_pool _ _ C2). destruct (mr_mm _ _ _ _ _ HR) as (c & Hc & Hsz).
  destruct HT as [T1 T2 T3 T4 T5 T6 T7]. assert (Hown := trel_owned _ _ _ _ C4).
  assert (Hu : forall q, uses k t' q = uses k t q) by (intros q; rewrite !uses_cnt; by apply like_cnt). split; [split; try done; [split|]|].
  - by apply (rep_moved k k' P).
  - split.
    + by destruct Hs as (-> & _).
    + rewrite (C6 mm c); [|by eapply rep_rest|unfold SIZEOF_MM, MM_pgd in *; lia]. destruct C4 as [<- _]. rewrite T2. symmetry. by apply pfn_to_addr_same.
    + done.
    + by rewrite Hown.
    + intros q Hq. rewrite Hown in Hq. by apply (lookup_weaken _ _ _ _ (T5 q Hq)).
    + intros e He. rewrite (pte_pfn_same k k'), Hown by done. destruct (like_leaves 3 k t t' e C4 He) as (e0 & He0 & ->). destruct (T6 e0 He0) as [HPe Hno].
      split; [|done]. by apply (lookup_weaken _ _ _ _ HPe).
    + intros q. rewrite (uses_same k k'), Hu by done. apply Href.
  - intros va e' Hva He'. destruct (of2_inv _ _ _ (trel_leaf_at _ _ t t' va C4)) as [[E E']|(x & y & E & E' & Hy)]; [congruence|].
    rewrite E' in He'. injection He' as <-. destruct (Hb va x Hva E) as (f & Hf & Hm). exists f. split; [done|]. by apply (share_matches f x).
  - intros va. apply (like_byte k k' t t' va C4 Hs). intros e He a Ha. destruct (T6 e He) as [HPe Hno]. by apply (C5 _ 0 _ a HPe (covers_self _ 0 ltac:(lia)) Hno Ha).
Qed.

(** Writes to an object of someone else. *)
Lemma mem_write_obj k P R mm V t y c a v :
  mem_inv k P R mm V t -> R !! y = Some c -> y <> mm -> y <= a < y + object_size (cache_of k c) ->
  mem_inv (wr k a v) P R mm V t /\ (forall va, user_byte (wr k a v) t va = user_byte k t va) /\ slub_frame k (wr k a v) P ∅.
Proof.
  intros HM Hy Hne Ha. destruct (HM) as [[HR HT] _ _ _ Hpr]. destruct (mr_mm _ _ _ _ _ HR) as (cm & Hcm & Hsz). destruct HT as [_ _ _ _ T5 T6 T7].
  assert (HO : (vobjs V ∪ R) !! y = Some c) by (by eapply rep_rest). assert (HI := mr_inv _ _ _ _ _ HR).
  destruct (objects_disjoint k P _ y c HI HO) as [D1 D2].
  assert (Hobj : forall x cx b, (vobjs V ∪ R) !! x = Some cx -> x <> y -> x <= b < x + object_size (cache_of k cx) -> rd (wr k a v) b = rd k b).
  { intros x cx b Hx Hxy Hb. apply rd_wr_ne. intros <-. specialize (D1 x cx Hx Hxy). lia. }
  assert (Hpage : forall p o q b, P !! p = Some o -> covers p o q -> in_page (pa k) q b -> rd (wr k a v) b = rd k b).
  { intros p o q b Hp Hc Hb. apply rd_wr_ne. intros <-. by apply (D2 p o q a). }
  assert (Hv0 : forall v0, v0 ∈ V -> vptr v0 <> y) by (intros v0 Hv0 E; apply (rep_rest_not HR y c Hy); rewrite <- E; by apply list_elem_of_fmap_2).
  destruct (carried_mem k P R mm V t (wr k a v) P R HM) as [H1 H2].
  - split; try done.
    + intros v0 e Hv He. apply (Hobj (vptr v0) vma_cache); [by eapply rep_own|by apply Hv0|rewrite (rep_vma_size HR); lia].
    + split; apply (Hobj mm cm); try (by eapply rep_rest); try (by apply not_eq_sym); unfold SIZEOF_MM, MM_pgd, MM_mmap in *; lia.
    + intros q Hq. split; [by apply T5|]. intros b Hb. apply (Hpage q 0 q); [by apply T5|apply covers_self; lia|done].
    + intros e He. split; [by apply T6|]. intros b Hb. apply (Hpage (pte_pfn k e) 0 (pte_pfn k e)); [by apply T6|apply covers_self; lia|done].
  - done.
  - apply HR.
  - by eapply slub_write_obj.
  - split; [done|]. split; [done|]. split; try done.
Qed.

(** ** The child *)

Section Child.
Context (k : slub) (P R : gmap Z Z) (mm : Z) (V : list vma) (t : tree 3) (k3 : slub) (P' : gmap Z Z) (t' c : tree 3).
Hypothesis HT : touched 3 k P (vobjs V ∪ R) t k3 P' t'.
Hypothesis HC : copied 3 k P t k3 P' c.
Hypothesis Hsh : shared 3 t t'.
Hypothesis Hcp : copyof 3 t' c.
Hypothesis HS : source 3 k P t.
Hypothesis Hrefs : forall q, 0 < uses k t q -> uses k t q <= (refcount (pa k)).[q].

Let like_t : like 3 t t' := tc_like _ _ _ _ _ _ _ _ HT.
Let pool3 : same_pool (pa k) (pa k3) := lay_pool _ _ (tc_layout _ _ _ _ _ _ _ _ HT).

Lemma dup_uses q : uses k c q = uses k t q.
Proof using Hcp like_t.
  rewrite !uses_cnt, <- (like_cnt 3 k t t' q like_t). apply cnt_pfns, copyof_pfns, Hcp.
Qed.

Lemma dup_leaf e : e ∈ ptes 3 c -> P !! pte_pfn k e = Some 0 /\ P' !! pte_pfn k e = Some 0 /\ (pte_pfn k e ∉ owned 3 c) /\ pte_pfn k e ∉ owned 3 t.
Proof using HC HS.
  intros He. destruct (cp_leaf _ _ _ _ _ _ _ HC e He) as (e0 & He0 & ->). destruct (so_leaf _ _ _ _ HS e0 He0) as [HP Hno].
  split; [done|]. split; [apply (cp_pages _ _ _ _ _ _ _ HC); by left|]. split; [|done]. intros Hq. by rewrite (proj1 (cp_new _ _ _ _ _ _ _ HC _ Hq)) in HP.
Qed.

Lemma dup_ref q : 0 < uses k t q -> (refcount (pa k3)).[q] = (refcount (pa k)).[q] + uses k t q.
Proof using HC Hcp HS like_t.
  intros Hq. destruct (uses_elem k t q Hq) as (e & He & <-). rewrite (cp_ref _ _ _ _ _ _ _ HC) by (rewrite (proj1 (so_leaf _ _ _ _ HS e He)); eauto).
  by rewrite <- uses_cnt, dup_uses.
Qed.

(** The two address spaces are a [pair] from now on. *)
Lemma fork_pair k6 mm' W cm :
  slub_frame k3 k6 P' ∅ -> mem_inv k6 P' (vobjs W ∪ R) mm V t' -> R !! mm' = Some cm -> SIZEOF_MM <= object_size (cache_of k6 cm) -> mm <> mm' ->
  is_Some (R !! mm) -> vobjs W ##ₘ R -> areas W = areas V -> chain k6 (rd k6 (mm' + MM_mmap)) W -> rd k6 (mm' + MM_pgd) = base_of k6 (fst c) ->
  pair k6 P' R mm V t' mm' W c.
Proof using HT HC Hsh Hcp HS Hrefs like_t pool3.
  intros [Fl Fr Fp _] HA Hcm Hsz Hne Hmm HdW HaW [Hl1 Hl2] Hpgd. destruct (HA) as [[HR HTA] HSo Hpg Hbk _]. assert (Hs6 := lay_pool _ _ Fl).
  assert (Hs : same_pool (pa k) (pa k6)) by (by etrans). assert (Hown := trel_owned _ _ _ _ like_t).
  assert (Hd := mr_disj _ _ _ _ _ HR). apply map_disjoint_union_r in Hd as [HVW HVR].
  assert (Hpages : forall q, q ∈ owned 3 c -> P' !! q = Some 0) by (intros q Hq; apply (cp_pages _ _ _ _ _ _ _ HC); by right).
  assert (Hfresh : forall q, q ∈ owned 3 c -> P !! q = None) by (intros q Hq; by apply (cp_new _ _ _ _ _ _ _ HC)).
  assert (Href : forall q, 0 < uses k t q -> (refcount (pa k6)).[q] = (refcount (pa k)).[q] + uses k t q).
  { intros q Hq. destruct (uses_elem k t q Hq) as (e & He & E). rewrite (Fr q); [by apply dup_ref|]. exists 0. apply (cp_pages _ _ _ _ _ _ _ HC). left.
    rewrite <- E. by apply (so_leaf _ _ _ _ HS). }
  assert (Hu' : forall q, uses k t' q = uses k t q) by (intros q; rewrite !uses_cnt; by apply like_cnt).
  split.
  - done.
  - split; [split; split| | | |].
    + rewrite map_union_assoc, (map_union_comm (vobjs W) (vobjs V)), <- map_union_assoc by (by apply map_disjoint_sym). apply HR.
    + apply map_disjoint_union_r. split; [by apply map_disjoint_sym|done].
    + apply HR.
    + exists cm. split; [|done]. by apply lookup_union_Some_r.
    + done.
    + done.
    + by apply (tb_base _ _ _ _ HTA).
    + done.
    + apply (rep_same 3 k3); [done| |apply HC]. intros q a Hq Ha. apply (Fp q 0 q a); [by apply Hpages|apply covers_self; lia|done].
    + apply HC.
    + done.
    + intros e He. rewrite (pte_pfn_same k k6) by done. by destruct (dup_leaf e He) as (_ & ? & ? & _).
    + intros q. rewrite (uses_same k k6), dup_uses by done. intros Hq. rewrite Href by done. specialize (Hrefs q Hq). lia.
    + by rewrite HaW.
    + by rewrite HaW.
    + intros va e Hva He. rewrite (copyof_leaf_at t' c va Hcp) in He. unfold space_at. rewrite HaW. by apply Hbk.
    + intros va e Hva He. rewrite (copyof_leaf_at t' c va Hcp) in He. by rewrite (shared_readonly t t' va e Hsh He).
  - split; [done|]. split; [done|by eexists].
  - intros q Hq Hq'. rewrite Hown in Hq. assert (Hn := Hfresh q Hq'). by rewrite (so_owned _ _ _ _ HS q Hq) in Hn.
  - intros e He Hq. rewrite (pte_pfn_same k k6) in Hq by done. destruct (like_leaves 3 k t t' e like_t He) as (e0 & He0 & E). rewrite E in Hq.
    assert (Hn := Hfresh _ Hq). by rewrite (proj1 (so_leaf _ _ _ _ HS e0 He0)) in Hn.
  - intros e He Hq. rewrite (pte_pfn_same k k6), Hown in Hq by done. by destruct (dup_leaf e He) as (_ & _ & _ & ?).
  - intros q. rewrite !(uses_same k k6), dup_uses, Hu' by done. intros Hq. assert (Hq' : 0 < uses k t q) by lia. rewrite Href by done. specialize (Hrefs q Hq'). lia.
Qed.
End Child.

(** ** The object of the child *)

(** The fields of [mm] that [dup_mm] copies. *)
Definition fork_fields : list Z := [MM_entry; MM_stack_top; MM_start_brk; MM_brk; MM_mmap_base].

Definition copies (k : slub) (mm' mm : Z) (fs : list Z) : slub := foldl (fun k f => wr k (mm' + f) (rd k (mm + f))) k fs.

Definition fields_copied (k : slub) (mm : Z) (k' : slub) (mm' : Z) : Prop := forall f, f ∈ fork_fields -> rd k' (mm' + f) = rd k (mm + f).

Lemma copies_rd fs k mm' mm :
  (forall f g, f ∈ fs -> 0 <= g < SIZEOF_MM -> mm' + f <> mm + g) -> (forall f, f ∈ fs -> 0 <= f < SIZEOF_MM) -> NoDup fs ->
  (forall a, (forall f, f ∈ fs -> a <> mm' + f) -> rd (copies k mm' mm fs) a = rd k a) /\
  forall f, f ∈ fs -> rd (copies k mm' mm fs) (mm' + f) = rd k (mm + f).
Proof.
  revert k. induction fs as [|f fs IH]; intros k Hap Hr Hnd; [by split; [|intros f Hf; apply not_elem_of_nil in Hf]|]. apply NoDup_cons in Hnd as [Hf Hnd].
  cbn [copies foldl]. destruct (IH (wr k (mm' + f) (rd k (mm + f)))) as [H1 H2]; [intros g h Hg; apply Hap; by right|intros g Hg; apply Hr; by right|done|]. split.
  - intros a Ha. unfold copies in H1. rewrite H1 by (intros g Hg; apply Ha; by right). apply rd_wr_ne, not_eq_sym, Ha. by left.
  - intros g [->|Hg]%elem_of_cons.
    + unfold copies in H1. rewrite H1; [apply rd_wr_eq|]. intros h Hh E. assert (f = h) as -> by lia. done.
    + unfold copies in H2. rewrite H2 by done. apply rd_wr_ne. apply Hap; [by left|]. apply Hr. by right.
Qed.

Lemma slub_frame_empty k k' P O : slub_frame k k' P O -> slub_frame k k' P ∅.
Proof. intros H. apply (slub_frame_sub k k' P P O ∅); [done|apply map_empty_subseteq|done]. Qed.

Lemma copies_mem fs k P R mm V t mm' c :
  mem_inv k P R mm V t -> R !! mm' = Some c -> mm' <> mm -> SIZEOF_MM <= object_size (cache_of k c) -> (forall f, f ∈ fs -> 0 <= f < SIZEOF_MM) ->
  let k' := copies k mm' mm fs in
  mem_inv k' P R mm V t /\ (forall va, user_byte k' t va = user_byte k t va) /\ slub_frame k k' P ∅.
Proof.
  revert k. induction fs as [|f fs IH]; intros k HM Hy Hne Hsz Hr; [by split; [|split; [|apply slub_frame_refl]]|].
  cbn [copies foldl]. assert (Hf : 0 <= f < SIZEOF_MM) by (apply Hr; by left).
  destruct (mem_write_obj k P R mm V t mm' c (mm' + f) (rd k (mm + f)) HM Hy Hne ltac:(lia)) as (H1 & H2 & H3).
  destruct (IH (wr k (mm' + f) (rd k (mm + f))) H1 Hy Hne Hsz) as (G1 & G2 & G3); [intros g Hg; apply Hr; by right|].
  split; [done|]. split; [intros va; unfold copies in G2; by rewrite G2, H2|]. by eapply slub_frame_trans.
Qed.

(** [mm'] and its fields, before the tables. *)
Definition fork_object (k : slub) (mm' mm : Z) : slub := wr (copies k mm' mm fork_fields) (mm' + MM_users) 1.

Lemma fork_fields_in f : f ∈ fork_fields -> 0 <= f < SIZEOF_MM /\ f <> MM_mmap /\ f <> MM_pgd /\ f <> MM_users.
Proof.
  unfold fork_fields. rewrite !elem_of_cons, elem_of_nil. unfold MM_entry, MM_stack_top, MM_start_brk, MM_brk, MM_mmap_base, MM_mmap, MM_pgd, MM_users, SIZEOF_MM. lia.
Qed.

Lemma objects_apart k P R mm V t mm' c f g :
  mem_inv k P R mm V t -> R !! mm' = Some c -> mm' <> mm -> SIZEOF_MM <= object_size (cache_of k c) ->
  0 <= f < SIZEOF_MM -> 0 <= g < SIZEOF_MM -> mm' + f <> mm + g.
Proof.
  intros HM Hy Hne Hsz Hf Hg. assert (HR := me_areas _ _ _ _ _ _ (mi_mem _ _ _ _ _ _ HM)). destruct (mr_mm _ _ _ _ _ HR) as (cm & Hcm & Hs).
  destruct (objects_disjoint k P _ mm' c (mr_inv _ _ _ _ _ HR)) as [D _]; [by eapply rep_rest|].
  specialize (D mm cm ltac:(by eapply rep_rest) ltac:(by apply not_eq_sym)). lia.
Qed.

Lemma fork_object_mem k P R mm V t mm' c :
  mem_inv k P R mm V t -> R !! mm' = Some c -> mm' <> mm -> SIZEOF_MM <= object_size (cache_of k c) ->
  let k' := fork_object k mm' mm in
  mem_inv k' P R mm V t /\ (forall va, user_byte k' t va = user_byte k t va) /\ slub_frame k k' P ∅ /\ fields_copied k mm k' mm' /\ rd k' (mm' + MM_users) = 1 /\
  forall g, 0 <= g < SIZEOF_MM -> rd k' (mm + g) = rd k (mm + g).
Proof.
  intros HM Hy Hne Hsz k'. destruct (copies_mem fork_fields k P R mm V t mm' c HM Hy Hne Hsz) as (H1 & H2 & H3); [intros f Hf; by apply fork_fields_in|].
  assert (Hap : forall f g, 0 <= f < SIZEOF_MM -> 0 <= g < SIZEOF_MM -> mm' + f <> mm + g) by (intros f g; by apply (objects_apart k P R mm V t mm' c)).
  destruct (copies_rd fork_fields k mm' mm) as [H4 H5]; [intros f g Hf; apply Hap; by apply fork_fields_in|intros f Hf; by apply fork_fields_in|apply (bool_decide_unpack _); by vm_compute|].
  assert (Hsz' : SIZEOF_MM <= object_size (cache_of (copies k mm' mm fork_fields) c)) by (by rewrite (lay_size _ _ (fr_layout _ _ _ _ H3))).
  destruct (mem_write_obj _ P R mm V t mm' c (mm' + MM_users) 1 H1 Hy Hne) as (G1 & G2 & G3); [unfold MM_users, SIZEOF_MM in *; lia|].
  split; [done|]. split; [intros va; unfold k', fork_object; by rewrite G2, H2|]. split; [by eapply slub_frame_trans|].
  split; [|split; [apply rd_wr_eq|]].
  - intros f Hf. unfold k', fork_object. destruct (fork_fields_in f Hf) as (_ & _ & _ & Hn). rewrite rd_wr_ne by lia. by apply H5.
  - intros g Hg. unfold k', fork_object. rewrite rd_wr_ne by (apply Hap; [by vm_compute|done]). apply H4. intros f Hf. apply not_eq_sym, Hap; [by apply fork_fields_in|done].
Qed.

(** ** Giving up *)

(** The object of the child is freed. *)
(** Every page of [P] has the references it had. *)
Definition same_refs (k k' : slub) (P : gmap Z Z) : Prop := forall q, is_Some (P !! q) -> (refcount (pa k')).[q] = (refcount (pa k)).[q].

Lemma same_refs_trans k1 k2 k3 P : same_refs k1 k2 P -> same_refs k2 k3 P -> same_refs k1 k3 P.
Proof. intros H1 H2 q Hq. by rewrite H2, H1. Qed.

Lemma frame_refs k k' P O : slub_frame k k' P O -> same_refs k k' P.
Proof. intros [_ Fr _ _] q. apply Fr. Qed.

Lemma mem_kfree k P R mm V t mm' c :
  mem_inv k P (<[mm' := c]> R) mm V t -> R !! mm' = None -> mm' <> mm ->
  exists k', kfree k mm' = Some k' /\ mem_inv k' P R mm V t /\ (forall va, user_byte k' t va = user_byte k t va) /\ same_refs k k' P.
Proof.
  intros HM Hn Hne. destruct (HM) as [[HR HT] _ _ _ Hpr]. destruct (mr_mm _ _ _ _ _ HR) as (cm & Hcm & Hsz). rewrite lookup_insert_ne in Hcm by done.
  assert (Hd := mr_disj _ _ _ _ _ HR). assert (Hnv : vobjs V !! mm' = None) by (by apply (map_disjoint_Some_r _ _ _ _ Hd (lookup_insert_eq R mm' c))).
  assert (HO : delete mm' (vobjs V ∪ <[mm' := c]> R) = vobjs V ∪ R) by (by rewrite delete_union, (delete_id (vobjs V)), delete_insert_id by done).
  destruct (proj1 (kfree_spec k P _ mm' (mr_inv _ _ _ _ _ HR))) as (k' & E & HI & [Fl Fr Fp Fo]); [by rewrite (lookup_union_r _ _ _ Hnv), lookup_insert_eq|].
  rewrite HO in HI, Fo. destruct HT as [_ _ _ _ T5 T6 T7]. assert (Hs := lay_pool _ _ Fl). assert (HdR : vobjs V ##ₘ R) by (by apply map_disjoint_insert_r in Hd as [_ ?]).
  exists k'. split; [done|]. destruct (carried_mem k P _ mm V t k' P R HM) as [H1 H2]; [|by rewrite lookup_insert_ne|done|done|by split; [|split]].
  assert (Href : forall e, e ∈ ptes 3 t -> (refcount (pa k')).[pte_pfn k e] = (refcount (pa k)).[pte_pfn k e]) by (intros e He; apply Fr; by rewrite (proj1 (T6 e He))).
  split; try done.
  - intros v e Hv He. apply (Fo (vptr v) vma_cache); [|rewrite (rep_vma_size HR); lia]. apply lookup_union_Some_l, vobjs_lookup. split; [done|by apply list_elem_of_fmap_2].
  - split; apply (Fo mm cm); try (by apply lookup_union_Some_r); unfold SIZEOF_MM, MM_pgd, MM_mmap in *; lia.
  - intros q Hq. split; [by apply T5|]. intros a Ha. apply (Fp q 0 q a); [by apply T5|apply covers_self; lia|done].
  - intros e He. split; [by apply T6|]. intros a Ha. apply (Fp (pte_pfn k e) 0 (pte_pfn k e) a); [by apply T6|apply covers_self; lia|done].
  - intros q Hq. destruct (uses_elem k t q Hq) as (e & He & <-). rewrite Href by done. by apply T7.
  - intros va e Hva He Hw. rewrite (pte_pfn_same k k'), Href by (done || by eapply leaf_in). by apply (Hpr va).
Qed.

(** The tables were not copied; some leaves may be read-only now. *)
Lemma undone_mem k P R mm V t k' :
  mem_inv k P R mm V t -> undone 3 k P (vobjs V ∪ R) t k' ->
  exists t', mem_inv k' P R mm V t' /\ (forall va, user_byte k' t' va = user_byte k t va) /\ same_refs k k' P.
Proof.
  intros HM (t' & HT & Href). assert (HT0 := me_tables _ _ _ _ _ _ (mi_mem _ _ _ _ _ _ HM)). assert (Hs := lay_pool _ _ (tc_layout _ _ _ _ _ _ _ _ HT)).
  exists t'. rewrite (and_assoc (mem_inv _ _ _ _ _ _)). split; [|exact Href]. apply (touched_mem k P R mm V t k' P t' HM HT); [done| |].
  - intros q Hq. destruct (uses_elem k t q Hq) as (e & He & <-). rewrite Href by (by rewrite (proj1 (tb_leaf _ _ _ _ HT0 e He))). by apply (tb_refs _ _ _ _ HT0).
  - intros va e' Hva He' Hw. destruct (of2_inv _ _ _ (trel_leaf_at _ _ t t' va (tc_like _ _ _ _ _ _ _ _ HT))) as [[E E']|(x & y & E & E' & Hy)]; [congruence|].
    rewrite E' in He'. injection He' as <-. destruct Hy as [->| ->]; [|by rewrite share_write in Hw]. rewrite (pte_pfn_same k k') by done.
    rewrite Href by (by rewrite (proj1 (tb_leaf _ _ _ _ HT0 x (leaf_in _ _ _ E)))). by apply (mi_private _ _ _ _ _ _ HM va).
Qed.

(** The copy of the tables is given back. *)
Lemma copy_freed k P R mm V t k3 P' t' c k6 :
  slub_inv k P (vobjs V ∪ R) -> KERNEL_VIRT_BASE <= mem_start (pa k) ->
  touched 3 k P (vobjs V ∪ R) t k3 P' t' -> copied 3 k P t k3 P' c -> shared 3 t t' -> copyof 3 t' c -> source 3 k P t ->
  (forall q, 0 < uses k t q -> uses k t q <= (refcount (pa k)).[q]) -> slub_frame k3 k6 P' ∅ -> mem_inv k6 P' R mm V t' ->
  exists k7, free_user_page_tables k6 (base_of k6 (fst c)) = Some k7 /\ mem_inv k7 P R mm V t' /\
    (forall va, user_byte k7 t' va = user_byte k6 t' va) /\ same_refs k k7 P.
Proof.
  intros HI Hb HT HC Hsh Hcp HS Hrefs [Fl Fr Fp _] HM. assert (Hs3 := lay_pool _ _ (tc_layout _ _ _ _ _ _ _ _ HT)). assert (Hs6 := lay_pool _ _ Fl).
  assert (Hs : same_pool (pa k) (pa k6)) by (by etrans). destruct (HC) as [C1 C2 C3 C4 C5 C6]. assert (Hlf := dup_leaf k P t k3 P' c HC HS).
  assert (Hown := trel_owned _ _ _ _ (tc_like _ _ _ _ _ _ _ _ HT)).
  assert (Hin : forall q, q ∈ owned 3 c -> P' !! q = Some 0) by (intros q Hq; apply C4; by right).
  assert (Href6 : forall q, is_Some (P !! q) -> (refcount (pa k6)).[q] = (refcount (pa k)).[q] + cnt k (ptes 3 c) q).
  { intros q [o Hq]. rewrite (Fr q) by (exists o; apply C4; by left). apply C5. eauto. }
  assert (HW : whole 3 k6 P' c).
  { split; [|done| | |].
    - apply (rep_same 3 k3); [done| |done]. intros q a Hq Ha. apply (Fp q 0 q a); [by apply Hin|apply covers_self; lia|done].
    - intros q Hq. split; [by apply Hin|]. rewrite (Fr q) by (by rewrite Hin). by apply C3.
    - intros e He. rewrite (pte_pfn_same k k6) by done. by destruct (Hlf e He) as (_ & ? & ? & _).
    - intros q. rewrite (cnt_same k k6) by done. intros Hq. destruct (cnt_pos _ _ _ Hq) as (e & He & <-). destruct (Hlf e He) as (HPe & _).
      rewrite Href6 by (by rewrite HPe). destruct (slub_ref_pos k P _ _ _ HI HPe). lia. }
  assert (HR := me_areas _ _ _ _ _ _ (mi_mem _ _ _ _ _ _ HM)).
  destruct (free_level 2 k6 P' (vobjs V ∪ R) c (mr_inv _ _ _ _ _ HR)) as (k7 & P7 & E & HD); [by destruct Hs as (-> & _)|done|].
  assert (Hlay := dr_layout _ _ _ _ _ _ _ HD). assert (Hs7 := lay_pool _ _ Hlay).
  assert (EP : P7 = P).
  { apply map_eq. intros q. destruct (P !! q) as [o|] eqn:Eq.
    - apply (dr_pages _ _ _ _ _ _ _ HD). split; [apply C4; by left|]. split; [intros Hc; destruct (C3 q Hc); congruence|].
      rewrite (cnt_same k k6), Href6 by (done || eauto). destruct (slub_ref_pos k P _ q o HI Eq). lia.
    - destruct (P7 !! q) as [o|] eqn:E2; [|done]. apply (dr_pages _ _ _ _ _ _ _ HD) in E2 as (E2 & Hn & _). apply C4 in E2 as [?|[_ ?]]; [congruence|done]. }
  subst P7. exists k7. split; [exact E|]. destruct (mr_mm _ _ _ _ _ HR) as (cm & Hcm & Hsz).
  assert (Hpg : forall q a, P !! q = Some 0 -> in_page (pa k6) q a -> rd k7 a = rd k6 a).
  { intros q a Hq Ha. apply (dr_bytes _ _ _ _ _ _ _ HD q 0 q a); [done|apply covers_self; lia|done]. }
  destruct (carried_mem k6 P' R mm V t' k7 P R HM) as [H1 H2]; [|done|apply HR|apply HD|split; [done|]; split; [done|]; intros q Hq;
    rewrite (dr_ref _ _ _ _ _ _ _ HD q Hq), Href6, (cnt_same k k6) by done; lia]. split; try done.
  - intros v e Hv He. apply (dr_objs _ _ _ _ _ _ _ HD (vptr v) vma_cache); [by eapply rep_own|rewrite (rep_vma_size HR); lia].
  - split; apply (dr_objs _ _ _ _ _ _ _ HD mm cm); try (by eapply rep_rest); unfold SIZEOF_MM, MM_pgd, MM_mmap in *; lia.
  - intros q Hq. rewrite Hown in Hq. split; [by apply HS|]. intros a. apply Hpg. by apply HS.
  - intros e He. rewrite (pte_pfn_same k k6) by done. destruct (like_leaves 3 k t t' e (tc_like _ _ _ _ _ _ _ _ HT) He) as (e0 & He0 & ->).
    destruct (so_leaf _ _ _ _ HS e0 He0) as [HPe _]. split; [done|]. intros a. by apply Hpg.
  - intros q. rewrite (uses_same k k6) by done. rewrite !uses_cnt, (like_cnt 3 k t t' q (tc_like _ _ _ _ _ _ _ _ HT)), <- uses_cnt. intros Hq.
    destruct (uses_elem k t q Hq) as (e & He & <-). destruct (so_leaf _ _ _ _ HS e He) as [HPe _].
    rewrite (dr_ref _ _ _ _ _ _ _ HD) by eauto. rewrite Href6, (cnt_same k k6) by (done || eauto). specialize (Hrefs _ Hq). lia.
  - intros va e Hva He Hw. by rewrite (shared_readonly t t' va e Hsh He) in Hw.
Qed.

(** ** The call *)

Lemma mem_areas k P R mm V t k' R' :
  mem_inv k P R mm V t -> mm_frame k k' P R mm -> mm_rep k' P R' mm V -> mem_inv k' P R' mm V t /\ forall va, user_byte k' t va = user_byte k t va.
Proof.
  intros [[HR HT] HS Hpg Hb Hpr] Hf HR'. destruct (mr_mm _ _ _ _ _ HR) as (c & Hc & Hs). assert (HT' := tables_frame k k' P R mm t c HT Hf Hc Hs).
  split; [split; try done; by apply (private_frame k k' P R mm)|]. intros va. apply (byte_kept k P mm t k' P t); try done. by apply (frame_released k k' P R mm).
Qed.

Lemma mm_slub_frame k k' P R mm : mm_frame k k' P R mm -> slub_frame k k' P ∅.
Proof. intros [F1 F2 F3 _]. split; try done. Qed.

(** The object for the child, and the parent next to it. *)
Lemma fork_alloc k P R mm V t :
  mem_inv k P R mm V t -> booted k P (vobjs V ∪ R) ->
  kmalloc k SIZEOF_MM = Some (0, k) \/
  exists mm' k1 c, kmalloc k SIZEOF_MM = Some (mm', k1) /\ mm' <> 0 /\ mm' <> mm /\ (vobjs V ∪ R) !! mm' = None /\
    slub_frame k k1 P (vobjs V ∪ R) /\ mem_inv k1 P (<[mm' := c]> R) mm V t /\ (forall va, user_byte k1 t va = user_byte k t va) /\
    SIZEOF_MM <= object_size (cache_of k1 c).
Proof.
  intros HM Hbt. destruct (Hbt) as [HI Hsz Hmo _ _]. assert (HR := me_areas _ _ _ _ _ _ (mi_mem _ _ _ _ _ _ HM)).
  destruct (kmalloc_spec k P _ SIZEOF_MM HI Hsz Hmo ltac:(by vm_compute)) as [(o & E & _)|(mm' & k1 & E & Hm & Hf & [(_ & c & Hn & HI1 & Hs)|(Hbad & _)])];
    [by left| |unfold SIZEOF_MM in *; lia]. right. destruct (mr_mm _ _ _ _ _ HR) as (cm & Hcm & _). assert (Hn' := Hn). apply lookup_union_None in Hn' as [Hn1 Hn2].
  exists mm', k1, c. split; [done|]. split; [done|]. split; [congruence|]. split; [done|]. split; [done|].
  destruct (mem_beside k P R mm V t k1 P (<[mm' := c]> R) HM Hf) as [H1 H2]; [done|by apply insert_subseteq|by apply map_disjoint_insert_r_2; [|apply HR]| |by split; [|split]].
  by rewrite <- insert_union_r by done.
Qed.

(** The last part of [dup_mm], with the tables copied. *)
Definition dup_areas (k : slub) (mm oldmm : Z) : option (Z * slub) :=
  '(mmap, k) ← dup_vma_list k (rd k (oldmm + MM_mmap));
  let k := wr k (mm + MM_mmap) mmap in
  if negb (rd k (oldmm + MM_mmap) =? 0) && (mmap =? 0) then
    k ← free_user_page_tables k (rd k (mm + MM_pgd));
    k ← kfree k mm; Some (0, k)
  else Some (mm, k).

(** The pages after a fork: the tables of the child are new, and it holds one
    more reference for each of its mappings. *)
Record counted (k : slub) (P : gmap Z Z) (k' : slub) (P' : gmap Z Z) (t : tree 3) : Prop := {
  cn_layout : same_layout k k';
  cn_pages : forall q o, P' !! q = Some o <-> P !! q = Some o \/ (o = 0 /\ q ∈ owned 3 t);
  cn_new : forall q, q ∈ owned 3 t -> P !! q = None /\ (refcount (pa k')).[q] = 1;
  cn_ref : forall q, is_Some (P !! q) -> (refcount (pa k')).[q] = (refcount (pa k)).[q] + uses k t q
}.

(** What [dup_mm] promises. *)
Definition fork_ok (k : slub) (P R : gmap Z Z) (mm : Z) (V : list vma) (t : tree 3) (r : Z) (k' : slub) : Prop :=
  (r = 0 /\ exists t', mem_inv k' P R mm V t' /\ same_refs k k' P /\ forall va, user_byte k' t' va = user_byte k t va) \/
  (r <> 0 /\ exists P' c V' t' t'', pair k' P' (<[r := c]> R) mm V t' r V' t'' /\ areas V' = areas V /\ (fields_copied k mm k' r /\ fields_copied k mm k' mm) /\
     rd k' (r + MM_users) = 1 /\ (vobjs V ∪ R) !! r = None /\ counted k P k' P' t'' /\ forall va, user_byte k' t' va = user_byte k t va /\ user_byte k' t'' va = user_byte k t va).

Section Finish.
Context (k : slub) (P R : gmap Z Z) (mm : Z) (V : list vma) (t : tree 3) (mm' cm : Z) (k3 : slub) (P' : gmap Z Z) (t' c : tree 3).
Abbreviation R2 := (<[mm' := cm]> R).
Hypothesis HM : mem_inv k P R2 mm V t.
Hypothesis Hm' : mm' <> 0.
Hypothesis Hne : mm' <> mm.
Hypothesis Hn : R !! mm' = None.
Hypothesis Hsz : SIZEOF_MM <= object_size (cache_of k cm).
Hypothesis HS : source 3 k P t.
Hypothesis HT : touched 3 k P (vobjs V ∪ R2) t k3 P' t'.
Hypothesis HC : copied 3 k P t k3 P' c.
Hypothesis Hsh : shared 3 t t'.
Hypothesis Hcp : copyof 3 t' c.
Hypothesis Hfields : fields_copied k mm k mm' /\ rd k (mm' + MM_users) = 1.

Let HT0 : tables k P mm t := me_tables _ _ _ _ _ _ (mi_mem _ _ _ _ _ _ HM).
Let Hrefs : forall q, 0 < uses k t q -> uses k t q <= (refcount (pa k)).[q] := tb_refs _ _ _ _ HT0.
Let Hmm' : R2 !! mm' = Some cm := lookup_insert_eq R mm' cm.

Lemma dup_parent : mem_inv k3 P' R2 mm V t' /\ forall va, user_byte k3 t' va = user_byte k t va.
Proof using HM HS HT HC Hsh Hcp Hrefs.
  apply (touched_mem k P R2 mm V t k3 P' t' HM HT).
  - apply map_subseteq_spec. intros q o Hq. apply (cp_pages _ _ _ _ _ _ _ HC). by left.
  - intros q Hq. rewrite (dup_ref k P R2 V t k3 P' t' c HT HC Hcp HS q Hq). specialize (Hrefs q Hq). destruct (uses_elem k t q Hq) as (e & He & E).
    destruct (slub_ref_pos k P _ q 0 (mr_inv _ _ _ _ _ (me_areas _ _ _ _ _ _ (mi_mem _ _ _ _ _ _ HM)))); [rewrite <- E; by apply (so_leaf _ _ _ _ HS)|]. lia.
  - intros va e Hva He Hw. by rewrite (shared_readonly t t' va e Hsh He) in Hw.
Qed.

(** The child gets its tables. *)
Let k4 : slub := wr k3 (mm' + MM_pgd) (base_of k (fst c)).

Lemma size_at k' : same_layout k k' -> SIZEOF_MM <= object_size (cache_of k' cm).
Proof using Hsz. intros Hl. by rewrite (lay_size _ _ Hl). Qed.

Lemma with_tables : mem_inv k4 P' R2 mm V t' /\ (forall va, user_byte k4 t' va = user_byte k t va) /\ slub_frame k3 k4 P' ∅.
Proof using HM Hne Hsz HS HT HC Hsh Hcp Hrefs Hmm'.
  destruct dup_parent as [H1 H2]. assert (Hs3 := size_at k3 (tc_layout _ _ _ _ _ _ _ _ HT)).
  destruct (mem_write_obj k3 P' R2 mm V t' mm' cm (mm' + MM_pgd) (base_of k (fst c)) H1 Hmm' Hne) as (G1 & G2 & G3); [unfold MM_pgd, SIZEOF_MM in *; lia|].
  split; [done|]. split; [|done]. intros va. unfold k4. by rewrite G2, H2.
Qed.

(** The areas are copied next. *)
Section Areas.
Context (k5 : slub) (h : Z) (W : list vma).
Hypothesis Hf5 : mm_frame k4 k5 P' R2 mm.
Hypothesis HR5 : mm_rep k5 P' (vobjs W ∪ R2) mm V.
Hypothesis Hd5 : vobjs W ##ₘ R2.

Let k6 : slub := wr k5 (mm' + MM_mmap) h.

Lemma layout5 : same_layout k k5.
Proof using HT Hf5. etrans; [apply HT|]. etrans; [|exact (mf_layout _ _ _ _ _ Hf5)]. by split. Qed.

Lemma in5 : (vobjs W ∪ R2) !! mm' = Some cm.
Proof using Hd5 Hmm'. by apply lookup_union_Some_r. Qed.

Lemma child_cell f : 0 <= f < SIZEOF_MM -> f <> MM_mmap -> rd k6 (mm' + f) = rd k4 (mm' + f).
Proof using HM Hne Hsz HS HT HC Hsh Hcp Hrefs Hmm' Hf5.
  intros Hf Hfm. unfold k6. rewrite rd_wr_ne by lia. destruct with_tables as (HM4 & _ & Hf4).
  assert (Hs4 : SIZEOF_MM <= object_size (cache_of k4 cm)) by (apply (size_at k4); etrans; [apply HT|apply Hf4]).
  apply (mf_obj _ _ _ _ _ Hf5 mm' cm); [done|lia|]. apply (objects_apart k4 P' R2 mm V t' mm' cm); try done; by vm_compute.
Qed.

Lemma with_areas : mem_inv k6 P' (vobjs W ∪ R2) mm V t' /\ (forall va, user_byte k6 t' va = user_byte k t va) /\ slub_frame k3 k6 P' ∅.
Proof using HM Hne Hsz HS HT HC Hsh Hcp Hrefs Hmm' Hf5 HR5 Hd5.
  destruct with_tables as (HM4 & Hu4 & Hf4). destruct (mem_areas k4 P' R2 mm V t' k5 (vobjs W ∪ R2) HM4 Hf5 HR5) as [HM5 Hu5]. assert (Hs5 := size_at k5 layout5).
  destruct (mem_write_obj k5 P' _ mm V t' mm' cm (mm' + MM_mmap) h HM5 in5 Hne) as (G1 & G2 & G3); [unfold MM_mmap, SIZEOF_MM in *; lia|].
  split; [done|]. split; [intros va; unfold k6; by rewrite G2, Hu5, Hu4|]. eapply slub_frame_trans; [exact Hf4|]. eapply slub_frame_trans; [by eapply mm_slub_frame|done].
Qed.

Lemma child_pgd : rd k6 (mm' + MM_pgd) = base_of k6 (fst c).
Proof using HM Hne Hsz HS HT HC Hsh Hcp Hrefs Hmm' Hf5.
  rewrite child_cell by (by vm_compute). unfold k4. rewrite rd_wr_eq. symmetry. apply (pfn_to_addr_same (pa k) (pa k6)). exact (lay_pool _ _ layout5).
Qed.

Lemma child_fields : fields_copied k mm k6 mm' /\ rd k6 (mm' + MM_users) = 1.
Proof using HM Hne Hsz HS HT HC Hsh Hcp Hrefs Hmm' Hf5 Hfields.
  assert (Hk : forall f, 0 <= f < SIZEOF_MM -> f <> MM_mmap -> f <> MM_pgd -> rd k6 (mm' + f) = rd k (mm' + f)).
  { intros f Hf H1 H2. rewrite child_cell by done. unfold k4. rewrite rd_wr_ne by lia. apply (tc_objs _ _ _ _ _ _ _ _ HT mm' cm); [|lia].
    apply lookup_union_Some_r; [apply (me_areas _ _ _ _ _ _ (mi_mem _ _ _ _ _ _ HM))|done]. }
  split; [|rewrite Hk by (by vm_compute); apply Hfields]. intros f Hf. destruct (fork_fields_in f Hf) as (H1 & H2 & H3 & _). rewrite Hk by done. by apply Hfields.
Qed.

Lemma parent_fields : fields_copied k mm k6 mm.
Proof using HM Hne Hsz HS HT HC Hsh Hcp Hrefs Hmm' Hf5.
  intros f Hf. destruct (fork_fields_in f Hf) as (Hr & Hfn & _). destruct with_tables as (HM4 & _ & Hf4).
  destruct (mr_mm _ _ _ _ _ (me_areas _ _ _ _ _ _ (mi_mem _ _ _ _ _ _ HM))) as (c0 & Hc0 & Hs0).
  assert (Hap : forall g, 0 <= g < SIZEOF_MM -> mm' + g <> mm + f) by (intros g Hg; by apply (objects_apart k P R2 mm V t mm' cm)).
  assert (Hl4 : same_layout k k4) by (etrans; [apply HT|apply Hf4]).
  unfold k6. rewrite rd_wr_ne by (apply Hap; by vm_compute). rewrite (mf_obj _ _ _ _ _ Hf5 mm c0 (mm + f) Hc0) by (rewrite ?(lay_size _ _ Hl4); lia).
  unfold k4. rewrite rd_wr_ne by (apply Hap; by vm_compute). apply (tc_objs _ _ _ _ _ _ _ _ HT mm c0); [by eapply rep_rest; [apply HM|]|lia].
Qed.

Lemma fork_success : areas W = areas V -> chain k5 h W -> fork_ok k P R mm V t mm' k6.
Proof using All.
  intros HaW Hch. destruct with_areas as (HM6 & Hu6 & Hf6). right. split; [done|]. exists P', cm, W, t', c. split; [|split; [done|split; [split; [apply child_fields|apply parent_fields]|split; [apply child_fields|split; [|split]]]]].
  - apply (fork_pair k P R2 mm V t k3 P' t' c HT HC Hsh Hcp HS Hrefs k6 mm' W cm); try done.
    + change (SIZEOF_MM <= object_size (cache_of k5 cm)). by apply size_at, layout5.
    + rewrite lookup_insert_ne by done. destruct (mr_mm _ _ _ _ _ (me_areas _ _ _ _ _ _ (mi_mem _ _ _ _ _ _ HM))) as (c0 & Hc0 & _).
      rewrite lookup_insert_ne in Hc0 by done. by rewrite Hc0.
    + unfold k6. rewrite rd_wr_eq. apply (chain_frame k5); [|done]. intros w d Hw Hd. apply rd_wr_ne.
      assert (HO : (vobjs V ∪ (vobjs W ∪ R2)) !! mm' = Some cm) by (apply lookup_union_Some_r; [apply HR5|apply in5]).
      assert (Hw' : (vobjs V ∪ (vobjs W ∪ R2)) !! vptr w = Some vma_cache).
      { apply lookup_union_Some_r; [apply HR5|]. apply lookup_union_Some_l, vobjs_lookup. split; [done|by apply list_elem_of_fmap_2]. }
      destruct (objects_disjoint k5 P' _ mm' cm (mr_inv _ _ _ _ _ HR5) HO) as [D _]. assert (Hs5 := size_at k5 layout5).
      assert (Hwm : vptr w <> mm'). { intros E. eapply map_disjoint_spec; [exact Hd5| |exact Hmm']. rewrite <- E. apply vobjs_lookup. split; [done|by apply list_elem_of_fmap_2]. }
      specialize (D (vptr w) vma_cache Hw' Hwm). rewrite (rep_vma_size HR5) in D. unfold MM_mmap, SIZEOF_MM in *. lia.
    + apply child_pgd.
  - apply lookup_union_None. split; [|done]. apply (map_disjoint_Some_r _ _ _ _ (mr_disj _ _ _ _ _ (me_areas _ _ _ _ _ _ (mi_mem _ _ _ _ _ _ HM))) Hmm').
  - destruct HC as [C1 C2 C3 C4 C5 C6]. split; [etrans; [apply HT|apply Hf6]|done| |].
    + intros q Hq. rewrite (fr_ref _ _ _ _ Hf6 q); [by apply C3|]. exists 0. apply C4. by right.
    + intros q [o Hq]. rewrite (fr_ref _ _ _ _ Hf6 q) by (exists o; apply C4; by left). apply C5. eauto.
  - intros va. split; [apply Hu6|]. rewrite <- (Hu6 va). unfold user_byte. by rewrite (copyof_leaf_at t' c va Hcp).
Qed.
End Areas.

Lemma fork_finish : exists r k', dup_areas k4 mm' mm = Some (r, k') /\ fork_ok k P R mm V t r k'.
Proof using All.
  destruct with_tables as (HM4 & Hu4 & Hf4). assert (HR4 := me_areas _ _ _ _ _ _ (mi_mem _ _ _ _ _ _ HM4)). unfold dup_areas.
  destruct (dup_vma_list_rep k4 P' R2 mm V HR4) as (h & k5 & -> & Hf5 & Hcase). cbn [mbind option_bind]. set (k6 := wr k5 (mm' + MM_mmap) h).
  destruct Hcase as [(W & HaW & [HR5 Hch Hd5 _])|(-> & HR5 & _)].
  - destruct (with_areas k5 h W Hf5 HR5 Hd5) as (HM6 & _). fold k6 in HM6. rewrite (rep_head _ _ _ _ _ (me_areas _ _ _ _ _ _ (mi_mem _ _ _ _ _ _ HM6))).
    assert (Eg : negb (vhead V =? 0) && (h =? 0) = false).
    { rewrite (chain_head _ _ _ Hch). destruct V as [|v V0]; [done|]. destruct W as [|w W0]; [done|]. cbn [vhead].
      destruct (slub_live k5 P' _ (vptr w) vma_cache (mr_inv _ _ _ _ _ HR5)) as (Hz & _).
      { apply lookup_union_Some_r; [apply HR5|]. apply lookup_union_Some_l, vobjs_lookup. split; [done|]. left. }
      rewrite (proj2 (Z.eqb_neq (vptr w) 0)) by done. apply andb_false_r. }
    rewrite Eg. exists mm', k6. split; [done|]. by apply (fork_success k5 h W).
  - assert (HR5' : mm_rep k5 P' (vobjs [] ∪ R2) mm V) by (unfold vobjs at 1; cbn; by rewrite map_empty_union).
    assert (Hd5 : vobjs [] ##ₘ R2) by apply map_disjoint_empty_l. destruct (with_areas k5 0 [] Hf5 HR5' Hd5) as (HM6 & Hu6 & Hf6). fold k6 in HM6, Hu6, Hf6.
    unfold vobjs in HM6 at 1. cbn in HM6. rewrite map_empty_union in HM6. rewrite (rep_head _ _ _ _ _ (me_areas _ _ _ _ _ _ (mi_mem _ _ _ _ _ _ HM6))).
    change (0 =? 0) with true. rewrite andb_true_r. destruct (Z.eqb_spec (vhead V) 0) as [Hz|Hz]; cbn [negb].
    + exists mm', k6. split; [done|]. apply (fork_success k5 0 []); [done..| |by split; [|intros w Hw; apply not_elem_of_nil in Hw]].
      destruct V as [|v V0]; [done|]. exfalso. apply (rep_nonzero HR5 v); [left|done].
    + replace (rd k6 (mm' + MM_pgd)) with (base_of k6 (fst c)) by (symmetry; by apply (child_pgd k5 0)).
      destruct (copy_freed k P R2 mm V t k3 P' t' c k6 (mr_inv _ _ _ _ _ (me_areas _ _ _ _ _ _ (mi_mem _ _ _ _ _ _ HM))) (tb_base _ _ _ _ HT0) HT HC Hsh Hcp HS Hrefs Hf6 HM6)
        as (k7 & -> & HM7 & Hu7 & Hr7). cbn [mbind option_bind].
      destruct (mem_kfree k7 P R mm V t' mm' cm HM7 Hn Hne) as (k8 & -> & HM8 & Hu8 & Hr8). cbn [mbind option_bind].
      exists 0, k8. split; [done|]. left. split; [done|]. exists t'. split; [done|]. split; [by eapply same_refs_trans|]. intros va. by rewrite Hu8, Hu7, Hu6.
Qed.
End Finish.

Lemma room_frame k k' P R mm V t : mem_inv k P R mm V t -> slub_frame k k' P ∅ -> room k t -> room k' t.
Proof.
  intros HM [Fl Fr _ _] Hr q. rewrite (uses_same k k') by apply (lay_pool _ _ Fl). intros Hq. destruct (uses_elem k t q Hq) as (e & He & E).
  rewrite (Fr q); [by apply Hr|]. exists 0. rewrite <- E. by apply (tb_leaf _ _ _ _ (me_tables _ _ _ _ _ _ (mi_mem _ _ _ _ _ _ HM))).
Qed.

Lemma counted_frame k k2 P k' P' t : slub_frame k k2 P ∅ -> counted k2 P k' P' t -> counted k P k' P' t.
Proof.
  intros [Fl Fr _ _] [N1 N2 N3 N4]. split; [by etrans|done|done|]. intros q Hq. rewrite (N4 q Hq), (Fr q Hq). f_equal. apply uses_same, (lay_pool _ _ Fl).
Qed.

Lemma dup_mm_spec k P R mm V t :
  mem_inv k P R mm V t -> booted k P (vobjs V ∪ R) -> room k t -> exists r k', dup_mm k mm = Some (r, k') /\ fork_ok k P R mm V t r k'.
Proof.
  intros HM Hbt Hroom. destruct (mem_nonzero k P R mm V t (mi_mem _ _ _ _ _ _ HM)) as [Hm Hpgd]. unfold dup_mm.
  rewrite (proj2 (Z.eqb_neq _ _) Hm), (proj2 (Z.eqb_neq _ _) Hpgd). cbn [orb].
  destruct (fork_alloc k P R mm V t HM Hbt) as [->|(mm' & k1 & c & -> & Hm' & Hne & Hn & Hf1 & HM1 & Hu1 & Hs1)]; cbn [mbind option_bind].
  { exists 0, k. split; [done|]. left. split; [done|]. exists t. split; [done|]. split; [|done]. by intros q. }
  rewrite (proj2 (Z.eqb_neq _ _) Hm'). set (R2 := <[mm' := c]> R) in *. assert (Hr2 : R2 !! mm' = Some c) by apply lookup_insert_eq.
  destruct (fork_object_mem k1 P R2 mm V t mm' c HM1 Hr2 Hne Hs1) as (HM2 & Hu2 & Hf2 & Hfc & Hus & Hpar).
  change (wr _ (mm' + MM_users) 1) with (fork_object k1 mm' mm). set (k2 := fork_object k1 mm' mm) in *.
  assert (Hf12 := slub_frame_trans _ _ _ _ _ (slub_frame_empty _ _ _ _ Hf1) Hf2). assert (HT2 := me_tables _ _ _ _ _ _ (mi_mem _ _ _ _ _ _ HM2)).
  assert (HS : source 3 k2 P t) by (apply (mem_source k2 P R2 mm V t HM2); by apply (room_frame k k2 P R mm V)).
  rewrite (tb_root _ _ _ _ HT2). change (dup_pgtable k2 (base_of k2 (fst t)) 1) with (dup_pgtable_level 3 k2 (base_of k2 (fst t)) (3 - Z.of_nat 2)).
  destruct (dup_level 2 k2 P (vobjs V ∪ R2) t (mr_inv _ _ _ _ _ (me_areas _ _ _ _ _ _ (mi_mem _ _ _ _ _ _ HM2))) (tb_base _ _ _ _ HT2) HS) as (r & k3 & -> & Hcase).
  cbn [mbind option_bind]. apply lookup_union_None in Hn as [_ Hn]. destruct Hcase as [(-> & Hund)|(Hr & ct & -> & P' & t' & HT & HC & Hsh & Hcp)].
  - change (0 =? 0) with true. cbn iota. destruct (undone_mem k2 P R2 mm V t k3 HM2 Hund) as (t' & HM3 & Hu3 & Hr3).
    assert (Hs3 : SIZEOF_MM <= object_size (cache_of k3 c)).
    { destruct Hund as (t0 & [_ Hl _ _ _ _] & _). by rewrite (lay_size _ _ Hl), (lay_size _ _ (fr_layout _ _ _ _ Hf2)). }
    destruct (mem_write_obj k3 P R2 mm V t' mm' c (mm' + MM_pgd) 0 HM3 Hr2 Hne) as (HM4 & Hu4 & Hf4); [unfold MM_pgd, SIZEOF_MM in *; lia|].
    destruct (mem_kfree _ P R mm V t' mm' c HM4 Hn Hne) as (k5 & -> & HM5 & Hu5 & Hr5). cbn [mbind option_bind].
    exists 0, k5. split; [done|]. left. split; [done|]. exists t'. split; [done|].
    split; [by eapply same_refs_trans, same_refs_trans, same_refs_trans; [eapply frame_refs, Hf12|exact Hr3|eapply frame_refs, Hf4|]|]. intros va. by rewrite Hu5, Hu4, Hu3, Hu2, Hu1.
  - rewrite (proj2 (Z.eqb_neq _ _) Hr). fold (dup_areas (wr k3 (mm' + MM_pgd) (base_of k2 (fst ct))) mm' mm).
    assert (Hsz2 : SIZEOF_MM <= object_size (cache_of k2 c)) by (by rewrite (lay_size _ _ (fr_layout _ _ _ _ Hf2))).
    destruct (fork_finish k2 P R mm V t mm' c k3 P' t' ct HM2 Hm' Hne Hn Hsz2 HS HT HC Hsh Hcp) as (r & k' & E & Hok).
    { split; [|done]. intros f Hf. rewrite (Hfc f Hf), Hpar; [done|]. by apply fork_fields_in. }
    exists r, k'. split; [exact E|]. destruct Hok as [(-> & t0 & H1 & H3 & H2)|(Hr' & P0 & c0 & V0 & t0 & t1 & H1 & H2 & [H3 H3'] & H4 & H7 & H6 & H5)]; [left|right]; (split; [done|]).
    + exists t0. split; [done|]. split; [eapply same_refs_trans; [eapply frame_refs, Hf12|done]|]. intros va. by rewrite H2, Hu2, Hu1.
    + exists P0, c0, V0, t0, t1. split; [done|]. split; [done|]. split; [|split; [done|split; [done|split; [by eapply counted_frame|intros va; by rewrite <- Hu1, <- Hu2]]]].
      assert (Hk1 : forall f, 0 <= f < SIZEOF_MM -> rd k1 (mm + f) = rd k (mm + f)).
      { intros f Hf. destruct (mr_mm _ _ _ _ _ (me_areas _ _ _ _ _ _ (mi_mem _ _ _ _ _ _ HM))) as (cm & Hcm & Hsm).
        apply (fr_obj _ _ _ _ Hf1 mm cm); [by eapply rep_rest; [apply HM|]|lia]. }
      split; intros f Hf; destruct (fork_fields_in f Hf) as (Hfr & _); by rewrite ?(H3 f Hf), ?(H3' f Hf), Hpar, Hk1 by done.
Qed.

(** C2: [dup_mm] copies an address space, as long as no reference count would
    overflow.  The child has the same areas and the same break, stack and entry
    fields; its tables are new pages with one reference, every page it maps has
    one reference more per mapping, no page that both map is writable, and both
    read at every address what the parent read before.  When memory runs out
    the call returns NULL and has given back all it took: exactly the pages and
    the objects of before are in use, every page with the references it had,
    and the parent has its areas and reads the same bytes. *)
Theorem dup_mm_correct k P R mm V t :
  mem_inv k P R mm V t -> booted k P (vobjs V ∪ R) -> room k t ->
  exists r k', dup_mm k mm = Some (r, k') /\
    ((r = 0 /\ exists t', mem_inv k' P R mm V t' /\ same_refs k k' P /\ forall va, user_byte k' t' va = user_byte k t va) \/
     (r <> 0 /\ exists P' c V' t' t'', pair k' P' (<[r := c]> R) mm V t' r V' t'' /\ areas V' = areas V /\ (fields_copied k mm k' r /\ fields_copied k mm k' mm) /\
        rd k' (r + MM_users) = 1 /\ (vobjs V ∪ R) !! r = None /\ counted k P k' P' t'' /\ forall va, user_byte k' t' va = user_byte k t va /\ user_byte k' t'' va = user_byte k t va)).
Proof. apply dup_mm_spec. Qed.

Lemma fork_limits k mm k' mm' : fields_copied k mm k' mm' -> limits k mm -> limits k' mm'.
Proof. intros Hf [L1 L2]. unfold fields_copied, fork_fields in Hf. split; by rewrite Hf by set_solver. Qed.

(** C1: Nothing that a child does after a fork is visible to its parent, and
    nothing that the parent does is visible to the child.  One of them makes any
    calls of mmap, munmap, mprotect and brk with any arguments, takes faults and
    stores, in any order; left out are only the calls that are not [proper],
    which corrupt the list of areas of the caller.  Then all its calls return,
    and the other one has the areas and reads at every address the byte that the
    parent had before the fork. *)
Theorem fork_isolated k P R mm V t cs :
  mem_inv k P R mm V t -> booted k P (vobjs V ∪ R) -> room k t -> limits k mm ->
  exists r k', dup_mm k mm = Some (r, k') /\
    (r <> 0 ->
     (orderly k' r mm (alone cs) = true ->
      exists k1 P1 R1 t1, run k' r mm (alone cs) = Some k1 /\ mem_inv k1 P1 R1 mm V t1 /\
        forall va, user_byte k1 t1 va = user_byte k t va) /\
     (orderly k' mm r (alone cs) = true ->
      exists k2 P2 R2 V2 t2, run k' mm r (alone cs) = Some k2 /\ mem_inv k2 P2 R2 r V2 t2 /\ areas V2 = areas V /\
        forall va, user_byte k2 t2 va = user_byte k t va)).
Proof.
  intros HM Hbt Hroom Hl. destruct (dup_mm_spec k P R mm V t HM Hbt Hroom) as (r & k' & E & Hok). exists r, k'. split; [done|]. intros Hr.
  destruct Hok as [[? _]|(_ & P' & c & V' & t' & t'' & Hpr & Ha & [Hfc Hfp] & _ & _ & _ & Hb)]; [done|]. split; intros Ho.
  - destruct (run_isolated k' P' _ r V' t'' mm V t' cs (pair_sym _ _ _ _ _ _ _ _ _ Hpr) (fork_limits _ _ _ _ Hfc Hl) Ho) as (k1 & P1 & V1 & t1 & E1 & Hpr1 & Hu).
    exists k1, P1, (vobjs V1 ∪ <[r := c]> R), t'. split; [done|]. split; [apply Hpr1|]. intros va. rewrite Hu. apply Hb.
  - destruct (run_isolated k' P' _ mm V t' r V' t'' cs Hpr (fork_limits _ _ _ _ Hfp Hl) Ho) as (k2 & P2 & V2 & t2 & E2 & Hpr2 & Hu).
    exists k2, P2, (vobjs V2 ∪ <[r := c]> R), V', t''. split; [done|]. split; [apply Hpr2|]. split; [done|]. intros va. rewrite Hu. apply Hb.
Qed.

(** ** A fork *)

Lemma kC_room P R V t : mem_inv kC P R mA V t -> room kC t.
Proof.
  intros HM q Hq. assert (Hr := tb_refs _ _ _ _ (me_tables _ _ _ _ _ _ (mi_mem _ _ _ _ _ _ HM)) q Hq).
  assert (Hle : (refcount (pa kC)).[q] <= 100); [|lia]. clear.
  assert (H : bool_decide (map_Forall (fun _ v => v <= 100) (refcount (pa kC))) = true) by (vm_compute; reflexivity).
  apply bool_decide_eq_true in H. unfold arr_get. destruct (refcount (pa kC) !! q) as [v|] eqn:E; [exact (H q v E)|]. discriminate.
Qed.

Lemma dup_mm_correct_witness :
  exists P R V t r k' P' c V' t' t'', mem_inv kC P R mA V t /\ dup_mm kC mA = Some (r, k') /\ pair k' P' (<[r := c]> R) mA V t' r V' t'' /\
    user_byte k' t'' 0x2000123 = Some 0.
Proof.
  destruct kC_inv as (P & R & V & t & Hb & HI & Hsp & H0). destruct (dup_mm_correct kC P R mA V t HI Hb (kC_room P R V t HI)) as (r & k' & E & H).
  destruct H as [[H _]|(_ & P' & c & V' & t' & t'' & Hpr & _ & _ & _ & _ & _ & Hu)].
  - exfalso. assert (W : code_of (dup_mm kC mA) <> 0) by (vm_compute; discriminate). rewrite E in W. exact (W H).
  - exists P, R, V, t, r, k', P', c, V', t', t''. refine (conj HI (conj E (conj Hpr _))). rewrite (proj2 (Hu _)). exact H0.
Defined.

Lemma kC_limits : limits kC mA.
Proof. split; [split; [vm_compute; reflexivity|vm_compute; discriminate]|left; vm_compute; reflexivity]. Qed.

(** The child of the example, and what it does. *)
Definition mC : Z := code_of (dup_mm kC mA).
Definition kF : slub := after kC (dup_mm kC mA).
Definition child_events : list event := [Fault 0x2000123 write_esr; Store 0x2000123 7; Mmap 0 4096 3 0x22 (-1); Munmap 0x2001000 4096].

Lemma kF_eq r k' : dup_mm kC mA = Some (r, k') -> r = mC /\ k' = kF.
Proof. intros E. split; [exact (code_eq _ _ _ mC eq_refl E)|symmetry; exact (after_eq kC _ _ _ E)]. Qed.

Lemma fork_isolated_witness :
  exists k1 P1 R1 V t1, dup_mm kC mA = Some (mC, kF) /\ mC <> 0 /\ orderly kF mC mA (alone child_events) = true /\
    run kF mC mA (alone child_events) = Some k1 /\ mem_inv k1 P1 R1 mA V t1 /\ user_byte k1 t1 0x2000123 = Some 0.
Proof.
  destruct kC_inv as (P & R & V & t & Hb & HI & Hsp & H0).
  destruct (fork_isolated kC P R mA V t child_events HI Hb (kC_room P R V t HI) kC_limits) as (r & k' & E & H).
  destruct (kF_eq r k' E) as [Er Ek]. rewrite Er, Ek in E, H.
  assert (Hr : mC <> 0) by (vm_compute; discriminate). assert (Ho : orderly kF mC mA (alone child_events) = true) by (vm_compute; reflexivity).
  destruct (proj1 (H Hr) Ho) as (k1 & P1 & R1 & t1 & E1 & HM1 & Hu). exists k1, P1, R1, V, t1.
  refine (conj E (conj Hr (conj Ho (conj E1 (conj HM1 _))))). rewrite Hu. exact H0.
Defined.
