(* ===== verification/MmExit.v ===== *)
(** * The end of an address space ([mm_put] in [mm/mmap.c])

    The last user of an address space gives back all of it: the tables, the
    areas, the structure itself and one reference for every mapping.  A process
    that was created, did whatever it liked and ended leaves the memory of
    everyone else as it was, and not a page of its own behind. *)
From S2P Require Import Prelude PageAlloc Slub Errno AddrSpace Vma PageTable PageTree PageMap Mmap Fault Protect Isolation MmLife PageFree PageDup Fork.

(** The tables have no reference but the one that [alloc_pages] gave. *)
Definition single (k : slub) (t : tree 3) : Prop := forall q, q ∈ owned 3 t -> (refcount (pa k)).[q] = 1.

(** A store to a field of [mm]. *)
Lemma write_field k P O mm c a v :
  slub_inv k P O -> O !! mm = Some c -> mm <= a < mm + object_size (cache_of k c) ->
  slub_inv (wr k a v) P O /\ slub_frame k (wr k a v) P (delete mm O).
Proof.
  intros HI Hc Ha. destruct (objects_disjoint k P O mm c HI Hc) as [D1 D2]. split; [by eapply slub_write_obj|]. split; try done.
  - intros p o q b Hp Hcv Hb. apply rd_wr_ne. intros <-. by apply (D2 p o q a).
  - intros x cx b Hx Hb. apply lookup_delete_Some in Hx as [Hne Hx]. apply rd_wr_ne. intros <-. specialize (D1 x cx Hx ltac:(congruence)). lia.
Qed.

Lemma rep_write_field k P R mm c V d v :
  mm_rep k P R mm V -> R !! mm = Some c -> 0 <= d < SIZEOF_MM -> d <> MM_mmap ->
  mm_rep (wr k (mm + d) v) P R mm V /\ slub_frame k (wr k (mm + d) v) P (delete mm (vobjs V ∪ R)).
Proof.
  intros HR Hc Hd Hne. destruct (mr_mm _ _ _ _ _ HR) as (c' & Hc' & Hs). assert (c' = c) as -> by congruence.
  destruct (write_field k P _ mm c (mm + d) v (mr_inv _ _ _ _ _ HR)) as [HI HF]; [by eapply rep_rest|lia|]. split; [|done].
  apply (rep_cells k _ P P R); [done|done|done|apply HR|done| |].
  - intros x e Hx He. apply (fr_obj _ _ _ _ HF (vptr x) vma_cache); [|rewrite (rep_vma_size HR); lia]. apply lookup_delete_Some.
    split; [|by eapply rep_own]. intros E. apply (rep_rest_not HR mm c Hc). rewrite E. by apply list_elem_of_fmap_2.
  - apply rd_wr_ne. lia.
Qed.

(** The tables of a process as a tree that can be given back. *)
Lemma whole_tables k P mm t : tables k P mm t -> single k t -> whole 3 k P t.
Proof. intros [T1 T2 T3 T4 T5 T6 T7] Hs. split; try done. intros q Hq. split; [by apply T5|by apply Hs]. Qed.

Lemma rest_object k P R mm V x c : mm_rep k P R mm V -> delete mm R !! x = Some c -> delete mm (vobjs V ∪ R) !! x = Some c.
Proof. intros HR Hx. apply lookup_delete_Some in Hx as [Hne Hx]. apply lookup_delete_Some. split; [done|]. by eapply rep_rest. Qed.

(** The end of the last user: everything is given back. *)
Lemma mm_put_last k P R mm c V t :
  mem_inv k P R mm V t -> R !! mm = Some c -> single k t -> rd k (mm + MM_users) = 1 ->
  exists k' P', mm_put k mm = Some k' /\ dropped k P (delete mm R) (owned 3 t) (ptes 3 t) k' P'.
Proof.
  intros [[HR HT] _ _ _ _] Hc Hsg Hus. assert (HI := mr_inv _ _ _ _ _ HR). assert (Hb := tb_base _ _ _ _ HT).
  destruct (slub_live k P _ mm c HI ltac:(by eapply rep_rest)) as (Hnz & _). unfold mm_put. rewrite (proj2 (Z.eqb_neq mm 0)), Hus by done.
  destruct (rep_write_field k P R mm c V MM_users (s32 (1 - 1)) HR Hc) as [HR1 HF1]; [done..|]. set (k1 := wr k (mm + MM_users) _) in *.
  assert (E1 : rd k1 (mm + MM_users) = 0) by apply rd_wr_eq. rewrite E1. change (0 <? 0) with false. cbn iota.
  assert (Ep : rd k1 (mm + MM_pgd) = base_of k1 (fst t)) by (unfold k1; rewrite rd_wr_ne by (unfold MM_pgd, MM_users; lia); apply HT).
  assert (HW : whole 3 k1 P t).
  { destruct (whole_tables k P mm t HT Hsg) as [W1 W2 W3 W4 W5]. split; try done. apply (rep_same 3 k); [done| |done].
    intros q a Hq Ha. apply (fr_page _ _ _ _ HF1 q 0 q a); [by apply W3|apply covers_self; lia|done]. }
  destruct (free_level 2 k1 P _ t (mr_inv _ _ _ _ _ HR1) Hb HW) as (k2 & P2 & E2 & HD). change (3 - Z.of_nat 2) with 1 in E2.
  destruct (wh_owned _ _ _ _ HW (fst t) (owned_root 2 t)) as [HPt _].
  assert (Hpz : base_of k1 (fst t) <> 0) by (apply pfn_to_addr_nonzero; [exact (slub_inv_pool k1 P _ (mr_inv _ _ _ _ _ HR1))|exact (slub_page_range k1 P _ _ _ (mr_inv _ _ _ _ _ HR1) HPt)]).
  rewrite Ep, (proj2 (Z.eqb_neq _ _) Hpz). cbn [negb]. unfold free_user_page_tables. rewrite E2. cbn [mbind option_bind].
  assert (HR2 : mm_rep k2 P2 R mm V).
  { destruct (mr_mm _ _ _ _ _ HR1) as (c' & Hc' & Hs'). apply (rep_cells k1 _ P P2 R); [done|apply HD|done|apply HR1|apply HD| |].
    - intros x e Hx He. apply (dr_objs _ _ _ _ _ _ _ HD (vptr x) vma_cache); [by eapply rep_own|rewrite (rep_vma_size HR1); lia].
    - apply (dr_objs _ _ _ _ _ _ _ HD mm c'); [by eapply rep_rest|unfold SIZEOF_MM, MM_mmap in *; lia]. }
  destruct (rep_write_field k2 P2 R mm c V MM_pgd 0 HR2 Hc) as [HR3 HF3]; [done..|]. set (k3 := wr k2 (mm + MM_pgd) 0) in *.
  destruct (free_all_vmas_rep k3 P2 R mm V HR3 Hnz) as (k4 & -> & HR4 & HF4). cbn [mbind option_bind]. assert (HI4 := mr_inv _ _ _ _ _ HR4).
  change (vobjs []) with (∅ : gmap Z Z) in HI4. rewrite (left_id_L ∅ (∪)) in HI4.
  destruct (proj1 (kfree_spec k4 P2 R mm HI4)) as (k' & E5 & HI5 & HF5); [by eexists|]. exists k', P2. split; [done|].
  assert (Hl : same_layout k k2) by (etrans; [exact (fr_layout _ _ _ _ HF1)|apply HD]).
  assert (L3 : same_layout k k3) by (etrans; [exact Hl|apply HF3]). assert (L4 : same_layout k k4) by (etrans; [exact L3|apply HF4]).
  assert (Hpl : forall kk q a, same_layout k kk -> in_page (pa k) q a -> in_page (pa kk) q a).
  { intros kk q a Hlk. unfold in_page. by rewrite (pfn_to_addr_same _ _ q (lay_pool _ _ Hlk)). }
  split; [done|by etrans; [exact L4|apply HF5]|exact (dr_pages _ _ _ _ _ _ _ HD)| | |].
  - intros q Hq. rewrite (fr_ref _ _ _ _ HF5 q Hq), (mf_ref _ _ _ _ _ HF4 q Hq). exact (dr_ref _ _ _ _ _ _ _ HD q Hq).
  - intros p o q a Hp Hcv Ha. rewrite (fr_page _ _ _ _ HF5 p o q a Hp Hcv (Hpl k4 q a L4 Ha)), (mf_page _ _ _ _ _ HF4 p o q a Hp Hcv (Hpl k3 q a L3 Ha)).
    rewrite (fr_page _ _ _ _ HF3 p o q a Hp Hcv (Hpl k2 q a Hl Ha)), (dr_bytes _ _ _ _ _ _ _ HD p o q a Hp Hcv Ha).
    apply (fr_page _ _ _ _ HF1 p o q a); [by apply (dr_pages _ _ _ _ _ _ _ HD) in Hp as [? _]|done|done].
  - intros x cx a Hx Ha. assert (Hx' := Hx). apply lookup_delete_Some in Hx' as [Hne HxR].
    assert (Hout : a <> mm + MM_mmap).
    { intros ->. destruct (mr_mm _ _ _ _ _ HR) as (c' & Hc' & Hs'). assert (c' = c) as -> by congruence.
      destruct (objects_disjoint k P _ mm c HI ltac:(by eapply rep_rest)) as [D1 _]. specialize (D1 x cx ltac:(by eapply rep_rest) ltac:(congruence)).
      unfold SIZEOF_MM, MM_mmap in *. lia. }
    rewrite (fr_obj _ _ _ _ HF5 x cx a Hx) by (by rewrite (lay_size _ _ L4)). rewrite (mf_obj _ _ _ _ _ HF4 x cx a HxR) by (by rewrite ?(lay_size _ _ L3)).
    assert (Hx0 := rest_object k P R mm V x cx HR Hx). rewrite (fr_obj _ _ _ _ HF3 x cx a Hx0) by (by rewrite (lay_size _ _ Hl)).
    rewrite (dr_objs _ _ _ _ _ _ _ HD x cx a) by (done || by eapply rep_rest). by apply (fr_obj _ _ _ _ HF1 x cx a).
Qed.

(** ** What a process owes *)

(** Since the state [k0], in which the pages [P0] and the objects [O0] were in
    use with [r0] references, the process has left their bytes alone and holds
    its own references to them; every other page in use is its own. *)
Record accounts (k0 : slub) (P0 O0 : gmap Z Z) (r0 : Z -> Z) (k : slub) (P : gmap Z Z) (t : tree 3) : Prop := {
  ac_layout : same_layout k0 k;
  ac_rest : forall q o, P0 !! q = Some o -> P !! q = Some o /\ (q ∉ owned 3 t) /\ (uses k t q = 0 \/ uses k t q < (refcount (pa k)).[q]) /\
    (refcount (pa k)).[q] - uses k t q = r0 q;
  ac_new : forall q o, P !! q = Some o -> P0 !! q = None -> o = 0 /\ held_by k t q (refcount (pa k)).[q];
  ac_bytes : forall p o q a, P0 !! p = Some o -> covers p o q -> in_page (pa k0) q a -> rd k a = rd k0 a;
  ac_objs : forall x c a, O0 !! x = Some c -> x <= a < x + object_size (cache_of k0 c) -> rd k a = rd k0 a
}.

Lemma held_by_same k k' t q n : same_pool (pa k) (pa k') -> held_by k' t q n <-> held_by k t q n.
Proof. intros Hs. unfold held_by. by rewrite (uses_same k k'). Qed.

Lemma blocks_apart k P O p o q q' o' : slub_inv k P O -> P !! p = Some o -> P !! q' = Some o' -> covers p o q -> covers q' o' q -> p = q'.
Proof.
  intros (S & PL & HR & _) Hp Hq Hc Hc'. destruct (used_page _ _ _ _ _ _ HR Hp) as [Hu _]. destruct (used_page _ _ _ _ _ _ HR Hq) as [Hu' _].
  by apply (inv_disjoint _ _ p o q' o' q (sr_buddy _ _ _ _ HR)).
Qed.

Lemma accounts_moved k0 P0 O0 r0 k P R mm V t k' P' V' t' D :
  accounts k0 P0 O0 r0 k P t -> mem_inv k P R mm V t -> mem_inv k' P' R mm V' t' -> moved k P t k' P' t' -> kept k k' R D -> fields_of mm D ->
  O0 ⊆ R -> O0 !! mm = None -> accounts k0 P0 O0 r0 k' P' t'.
Proof.
  intros [C1 C2 C3 C4 C5] HM HM' [M1 M2 M3 M4 M5 M6 M7 M8] [Hl Hk] HD HO Hmm. assert (Hu : forall q, uses k' t' q = uses k t' q) by (intros; by apply uses_same).
  assert (HR := me_areas _ _ _ _ _ _ (mi_mem _ _ _ _ _ _ HM)). destruct (me_tables _ _ _ _ _ _ (mi_mem _ _ _ _ _ _ HM)) as [_ _ _ _ T5 T6 _].
  assert (HI' := mr_inv _ _ _ _ _ (me_areas _ _ _ _ _ _ (mi_mem _ _ _ _ _ _ HM'))). assert (Hpg : forall q a, in_page (pa k0) q a -> in_page (pa k) q a).
  { intros q a. unfold in_page. by rewrite (pfn_to_addr_same _ _ q (lay_pool _ _ C1)). }
  split.
  - by etrans.
  - intros q o Hq. destruct (C2 q o Hq) as (E1 & E2 & E3 & E4). assert (E5 := M3 q o E1 E3). rewrite Hu. assert (E6 := M2 q o E1 E5). splits; [done| | |lia].
    + intros Hq'. destruct (M4 q Hq') as [?|?]; [done|congruence].
    + assert (H0 := uses_nonneg k t' q). destruct E3 as [E3|E3]; [|lia]. left. destruct (decide (0 < uses k t' q)) as [D'|D']; [|lia].
      destruct (M5 q D') as [?|?]; [lia|congruence].
  - intros q o Hq Hn. rewrite (held_by_same k k') by done. destruct (M8 q o Hq) as [HP|(_ & Ho & Hh)]; [|done]. destruct (C3 q o HP Hn) as [-> Hh]. split; [done|].
    assert (E6 := M2 q 0 HP Hq). assert (Hp := slub_ref_pos k' P' _ q 0 HI' Hq). assert (H0 := uses_nonneg k t' q). destruct Hh as [[H1 H2]|[H1 H2]].
    + left. split; [by apply M7|]. assert (E7 : uses k t q = 0) by (apply no_uses; intros e He E; apply (T6 e He); by rewrite E).
      destruct (decide (0 < uses k t' q)) as [D'|D']; [|lia]. destruct (M5 q D'); [lia|congruence].
    + right. lia.
  - intros p o q a Hp Hc Ha. rewrite <- (C4 p o q a Hp Hc Ha). destruct (C2 p o Hp) as (E1 & _ & E3 & _). apply (M6 p o q a E1 (M3 p o E1 E3) Hc); [|by apply Hpg].
    intros Hq. assert (Hq0 := T5 q Hq). assert (p = q) as -> by (apply (blocks_apart k P _ p o q q 0 (mr_inv _ _ _ _ _ HR)); [done..|apply covers_self; lia]).
    by destruct (C2 q o Hp) as (_ & ? & _).
  - intros x c a Hx Ha. rewrite <- (C5 x c a Hx Ha). assert (HxR := lookup_weaken _ _ _ _ Hx HO). apply (Hk x c a HxR); [by rewrite (lay_size _ _ C1)|].
    intros HaD. apply HD in HaD. destruct (mr_mm _ _ _ _ _ HR) as (c' & Hc' & Hs').
    destruct (objects_disjoint k P _ mm c' (mr_inv _ _ _ _ _ HR) ltac:(by eapply rep_rest)) as [D1 _].
    specialize (D1 x c ltac:(by eapply rep_rest) ltac:(congruence)). assert (Es := lay_size _ _ C1 c). lia.
Qed.

(** A store goes to a page of its own. *)
Lemma accounts_store k0 P0 O0 r0 k P R mm V t va v :
  accounts k0 P0 O0 r0 k P t -> mem_inv k P R mm V t -> O0 ⊆ R ->
  let k' := user_store k mm va v in accounts k0 P0 O0 r0 k' P t /\ mem_inv k' P R mm V t /\ kept k k' R [].
Proof.
  intros HA HM HO k'. assert (HA' := HA). destruct HA' as [C1 C2 C3 C4 C5]. unfold k'. rewrite (user_store_code k P R mm V t va v (mi_mem _ _ _ _ _ _ HM)).
  destruct (leaf_at t va) as [e|] eqn:E; [|by splits; try done; apply kept_refl]. destruct (_ && _ && _ && _) eqn:Eg; [|by splits; try done; apply kept_refl].
  apply andb_true_iff in Eg as [[[Hv1%Z.leb_le Hv2%Z.ltb_lt]%andb_true_iff Hw]%andb_true_iff _]. set (p := pte_pfn k e). assert (Hin := leaf_in _ _ _ E).
  destruct (tb_leaf _ _ _ _ (me_tables _ _ _ _ _ _ (mi_mem _ _ _ _ _ _ HM)) e Hin) as [Hq Hno]. fold p in Hq, Hno. assert (Hpg := in_base k p va).
  assert (HR := me_areas _ _ _ _ _ _ (mi_mem _ _ _ _ _ _ HM)). assert (HI := mr_inv _ _ _ _ _ HR).
  destruct (mem_write k P R mm V t p (base_of k p + va mod PAGE_SIZE) v HM Hq Hno Hpg) as [HM' Hobj]. set (a0 := _ + _) in *.
  assert (H1 := mi_private _ _ _ _ _ _ HM va e ltac:(by split) E Hw). fold p in H1. assert (H2 := uses_pos k t e Hin). fold p in H2.
  assert (Hno0 : P0 !! p = None).
  { destruct (P0 !! p) as [o|] eqn:Eo; [|done]. destruct (C2 p o Eo) as (_ & _ & E3 & _). lia. }
  assert (Hobj0 : forall x c a, R !! x = Some c -> x <= a < x + object_size (cache_of k c) -> rd (wr k a0 v) a = rd k a).
  { intros x c a Hx Ha. apply (Hobj x c a); [by eapply rep_rest|done]. }
  split; [|split; [done|split; [done|intros x c a Hx Ha _; by apply (Hobj0 x c)]]]. split; try done; [by etrans|..].
  - intros p' o q a Hp Hc Ha. rewrite <- (C4 p' o q a Hp Hc Ha). apply rd_wr_ne. intros <-. destruct (C2 p' o Hp) as (E1 & _).
    assert (Ha1 : in_page (pa k) q a0) by (unfold in_page in *; by rewrite (pfn_to_addr_same _ _ q (lay_pool _ _ C1))).
    destruct HI as (S & PL & Hrep & _). assert (Hbi := sr_buddy _ _ _ _ Hrep). destruct (used_page _ _ _ _ _ _ Hrep E1) as [Hu _].
    destruct (used_page _ _ _ _ _ _ Hrep Hq) as [Hu' _]. assert (Hc' : covers p 0 p) by (apply covers_self; lia).
    assert (q = p) as -> by (apply (in_page_unique (pa k) q p a0 (inv_pool _ _ Hbi)); [exact (inv_covers_pool _ _ _ _ _ Hbi Hu Hc)|exact (inv_covers_pool _ _ _ _ _ Hbi Hu' Hc')|done|done]).
    assert (p' = p) as -> by (by apply (inv_disjoint _ _ p' o p 0 p Hbi)). congruence.
  - intros x c a Hx Ha. rewrite <- (C5 x c a Hx Ha). apply (Hobj0 x c); [by eapply lookup_weaken|by rewrite (lay_size _ _ C1)].
Qed.

(** Whatever the process does. *)
Lemma accounts_run k0 P0 O0 r0 k P R mm V t (cs : list event) :
  accounts k0 P0 O0 r0 k P t -> mem_inv k P R mm V t -> O0 ⊆ R -> O0 !! mm = None -> rd k (mm + MM_users) = 1 ->
  limits k mm -> orderly k mm mm (alone cs) = true ->
  exists k' P' V' t', run k mm mm (alone cs) = Some k' /\ mem_inv k' P' R mm V' t' /\ accounts k0 P0 O0 r0 k' P' t' /\ rd k' (mm + MM_users) = 1.
Proof.
  intros HA HM HO Hn. revert k P V t HA HM. induction cs as [|c cs IH]; intros k P V t HA HM Hu Hl Ho; [by exists k, P, V, t|]. cbn [run orderly alone fmap list_fmap] in *.
  apply andb_true_iff in Ho as [Hal Ho].
  assert (Hc : (exists va v, c = Store va v) \/ forall va v, c <> Store va v) by (destruct c; eauto; by right).
  assert (Hfield : forall k' D, kept k k' R D -> mm + MM_users ∉ D -> rd k' (mm + MM_users) = 1).
  { intros k' D [_ Hk] HD. destruct (mr_mm _ _ _ _ _ (me_areas _ _ _ _ _ _ (mi_mem _ _ _ _ _ _ HM))) as (cm & Hcm & Hsz).
    rewrite <- Hu. apply (Hk mm cm); [done|unfold SIZEOF_MM, MM_users in *; lia|done]. }
  destruct Hc as [(va & v & ->)|Hc].
  - destruct (accounts_store _ _ _ _ _ _ _ _ _ _ va v HA HM HO) as (HA' & HM' & Hk). cbn [act mbind option_bind] in *.
    apply (IH _ P V t HA' HM'); [apply (Hfield _ _ Hk), not_elem_of_nil| |done].
    apply (limits_kept k _ P R mm V t []); [apply HM|done|apply not_elem_of_nil..|done].
  - destruct (call_moves k P R mm V t c HM Hl Hal Hc) as (k' & E & Hl' & P' & V1 & t1 & HM' & Hm & Hk). rewrite E in *. cbn [mbind option_bind].
    assert (HA' := accounts_moved _ _ _ _ _ _ _ _ _ _ _ _ _ _ _ HA HM HM' Hm Hk (call_fields mm) HO Hn). apply (IH k' P' V1 t1 HA' HM'); [|done|done].
    apply (Hfield _ _ Hk). unfold call_cells. rewrite !not_elem_of_cons. unfold MM_users, MM_mmap, MM_mmap_base, MM_brk. splits; try lia. apply not_elem_of_nil.
Qed.

(** The end of the process: only what was there before is left. *)
Lemma accounts_end k0 P0 O0 r0 k P mm c V t :
  accounts k0 P0 O0 r0 k P t -> mem_inv k P (<[mm := c]> O0) mm V t -> O0 !! mm = None -> rd k (mm + MM_users) = 1 ->
  exists k', mm_put k mm = Some k' /\ slub_inv k' P0 O0 /\ same_layout k0 k' /\ (forall q, is_Some (P0 !! q) -> (refcount (pa k')).[q] = r0 q) /\
    (forall p o q a, P0 !! p = Some o -> covers p o q -> in_page (pa k0) q a -> rd k' a = rd k0 a) /\
    forall x cx a, O0 !! x = Some cx -> x <= a < x + object_size (cache_of k0 cx) -> rd k' a = rd k0 a.
Proof.
  intros [C1 C2 C3 C4 C5] HM Hn Hu. destruct (me_tables _ _ _ _ _ _ (mi_mem _ _ _ _ _ _ HM)) as [_ _ _ _ T5 T6 _].
  assert (Hsg : single k t).
  { intros q Hq. destruct (P0 !! q) as [o|] eqn:Eq; [by destruct (C2 q o Eq) as (_ & ? & _)|].
    destruct (C3 q 0 (T5 q Hq) Eq) as [_ [[_ ?]|[Hus _]]]; [done|]. destruct (uses_elem k t q Hus) as (e & He & E). destruct (T6 e He) as [_ Hne]. by rewrite E in Hne. }
  destruct (mm_put_last k P _ mm c V t HM (lookup_insert_eq _ _ _) Hsg Hu) as (k' & P' & E & [D1 D2 D3 D4 D5 D6]). rewrite delete_insert_id in D1, D6 by done.
  assert (P' = P0) as ->.
  { apply map_eq. intros q. destruct (P0 !! q) as [o|] eqn:Eq.
    - apply D3. destruct (C2 q o Eq) as (? & ? & ? & _). by splits.
    - destruct (P' !! q) as [o|] eqn:E2; [|done]. apply D3 in E2 as (E2 & Hg & Hc). rewrite <- !uses_cnt in Hc. destruct (C3 q o E2 Eq) as [_ [[? _]|[? ?]]]; [done|lia]. }
  exists k'. split; [done|]. split; [done|]. split; [by etrans|]. splits.
  - intros q Hq. rewrite (D4 q Hq). destruct Hq as [o Hq]. destruct (C2 q o Hq) as (_ & _ & _ & <-). by rewrite uses_cnt.
  - intros p o q a Hp Hc Ha. rewrite (D5 p o q a), (C4 p o q a); try done. unfold in_page in *. by rewrite (pfn_to_addr_same _ _ q (lay_pool _ _ C1)).
  - intros x cx a Hx Ha. rewrite (D6 x cx a), (C5 x cx a); try done. by rewrite (lay_size _ _ C1).
Qed.


(** The calls, faults and stores of one process, and that they are [proper]. *)
Definition run_alone (k : slub) (mm : Z) (cs : list event) : option slub := run k mm mm (alone cs).
Definition orderly_alone (k : slub) (mm : Z) (cs : list event) : bool := orderly k mm mm (alone cs).



(** ** A child that ends *)

Lemma accounts_fork k P O k' P' O' t :
  slub_inv k P O -> slub_inv k' P' O' -> counted k P k' P' t -> accounts k' P O (fun q => (refcount (pa k)).[q]) k' P' t.
Proof.
  intros HI HI' [N1 N2 N3 N4]. assert (Hu : forall q, uses k' t q = uses k t q) by (intros q; apply uses_same, (lay_pool _ _ N1)). split; try done.
  - intros q o Hq. assert (Hp := slub_ref_pos k P O q o HI Hq). rewrite Hu, (N4 q) by eauto. splits; [apply N2; by left| |lia|lia].
    intros Hin. destruct (N3 q Hin). congruence.
  - intros q o Hq Hn. apply N2 in Hq as [?|[-> Hq]]; [congruence|]. split; [done|]. left. split; [done|]. by apply N3.
Qed.

(** The parent, when the child is gone. *)
Lemma parent_after k P R mm V t' mm' V' t'' c k1 P' k3 :
  slub_inv k P (vobjs V ∪ R) -> pair k1 P' (<[mm' := c]> R) mm V t' mm' V' t'' -> counted k P k1 P' t'' -> R !! mm' = None ->
  slub_inv k3 P (vobjs V ∪ R) -> same_layout k1 k3 -> (forall q, is_Some (P !! q) -> (refcount (pa k3)).[q] = (refcount (pa k)).[q]) ->
  (forall p o q a, P !! p = Some o -> covers p o q -> in_page (pa k1) q a -> rd k3 a = rd k1 a) ->
  (forall x cx a, (vobjs V ∪ R) !! x = Some cx -> x <= a < x + object_size (cache_of k1 cx) -> rd k3 a = rd k1 a) ->
  exists R', mem_inv k1 P' R' mm V t' /\ mem_inv k3 P R mm V t' /\ forall va, user_byte k3 t' va = user_byte k1 t' va.
Proof.
  intros HI [HA HB (Hne & [cm Hcm] & _) Ht Hl Hl' Hr] [N1 N2 N3 N4] Hn HI3 Hlay Href Hpg Hobj. exists (vobjs V' ∪ <[mm' := c]> R). split; [done|].
  destruct (HA) as [[HR HT] _ _ _ Hpr]. destruct HT as [_ _ _ _ T5 T6 T7]. assert (Hs := lay_pool _ _ Hlay). rewrite lookup_insert_ne in Hcm by done.
  assert (HdR := mr_disj _ _ _ _ _ HR). apply map_disjoint_union_r in HdR as [_ HdR]. apply map_disjoint_insert_r in HdR as [_ HdR].
  assert (Hdm := mr_disj _ _ _ _ _ (me_areas _ _ _ _ _ _ (mi_mem _ _ _ _ _ _ HB))). apply map_disjoint_union_r in Hdm as [_ HdB].
  assert (Hmm : (vobjs V' ∪ <[mm' := c]> R) !! mm = Some cm).
  { apply lookup_union_Some_r; [done|]. by rewrite lookup_insert_ne. }
  assert (HP : forall q, P' !! q = Some 0 -> q ∉ owned 3 t'' -> P !! q = Some 0) by (intros q Hq Hno; apply N2 in Hq as [?|[_ ?]]; done).
  assert (Hleaf : forall e, e ∈ ptes 3 t' -> P !! pte_pfn k1 e = Some 0) by (intros e He; apply HP; [by apply T6|by apply Hl]).
  assert (Hu : forall q, uses k1 t'' q = uses k t'' q) by (intros q; apply uses_same, (lay_pool _ _ N1)). assert (Hu0 := uses_nonneg k1 t'').
  destruct (mr_mm _ _ _ _ _ HR) as (cm' & Hcm' & Hsz). assert (cm' = cm) as -> by congruence.
  apply (carried_mem k1 P' _ mm V t' k3 P R HA); [|by rewrite Hmm|done|done]. split; try done.
  - intros v e Hv He. apply (Hobj (vptr v) vma_cache); [|rewrite (rep_vma_size HR); lia]. apply lookup_union_Some_l, vobjs_lookup. split; [done|by apply list_elem_of_fmap_2].
  - split; apply (Hobj mm cm); try (by apply lookup_union_Some_r); unfold SIZEOF_MM, MM_pgd, MM_mmap in *; lia.
  - intros q Hq. assert (HPq : P !! q = Some 0) by (apply HP; [by apply T5|by apply Ht]). split; [done|]. intros a Ha. by apply (Hpg q 0 q a); [|apply covers_self|].
  - intros e He. split; [by apply Hleaf|]. intros a Ha. by apply (Hpg (pte_pfn k1 e) 0 (pte_pfn k1 e) a); [apply Hleaf|apply covers_self|].
  - intros q Hq. destruct (uses_elem k1 t' q Hq) as (e & He & <-). assert (H1 := Hleaf e He). rewrite Href by eauto. specialize (Hr (pte_pfn k1 e)).
    rewrite (N4 (pte_pfn k1 e)), Hu in Hr by eauto. specialize (Hu0 (pte_pfn k1 e)). rewrite Hu in Hu0. lia.
  - intros va e Hva He Hw. rewrite (pte_pfn_same k1 k3) by done. assert (H1 := Hleaf e (leaf_in _ _ _ He)). rewrite Href by eauto.
    assert (H2 := Hpr va e Hva He Hw). rewrite (N4 (pte_pfn k1 e)) in H2 by eauto. assert (H3 := slub_ref_pos k P _ _ 0 HI H1).
    specialize (Hu0 (pte_pfn k1 e)). rewrite Hu in Hu0. lia.
Qed.

(** C7: A child leaves no trace in its parent.  After a fork the child makes any
    [proper] calls, takes faults and stores; the calls return, and when its
    address space is dropped exactly the pages of before
    the fork are in use, each with the references it had, and the parent has
    its areas and reads every byte as before the fork. *)
Theorem fork_exit_restores k P R mm V t cs :
  mem_inv k P R mm V t -> booted k P (vobjs V ∪ R) -> room k t -> limits k mm ->
  exists r k1, dup_mm k mm = Some (r, k1) /\
    (r <> 0 -> orderly_alone k1 r cs = true ->
     exists k2 k3 t', run_alone k1 r cs = Some k2 /\ mm_put k2 r = Some k3 /\ mem_inv k3 P R mm V t' /\
       (forall q, is_Some (P !! q) -> (refcount (pa k3)).[q] = (refcount (pa k)).[q]) /\ forall va, user_byte k3 t' va = user_byte k t va).
Proof.
  intros HM Hbt Hroom Hlm. destruct (dup_mm_spec k P R mm V t HM Hbt Hroom) as (r & k1 & E & Hok). exists r, k1. split; [done|]. intros Hr Ho.
  destruct Hok as [[? _]|(_ & P' & c & V' & t' & t'' & Hpr & _ & [Hfc _] & Hus & Hn & Hcn & Hb)]; [done|]. assert (HB := pr_b _ _ _ _ _ _ _ _ _ Hpr).
  assert (HI' := mr_inv _ _ _ _ _ (me_areas _ _ _ _ _ _ (mi_mem _ _ _ _ _ _ HB))).
  assert (ER : vobjs V ∪ <[r := c]> R = <[r := c]> (vobjs V ∪ R)) by (apply lookup_union_None in Hn as [? _]; by rewrite insert_union_r).
  rewrite ER in HB. assert (HA := accounts_fork k P _ k1 P' _ t'' (bt_inv _ _ _ Hbt) HI' Hcn).
  destruct (accounts_run _ _ _ _ _ _ _ r V' t'' cs HA HB (insert_subseteq _ _ _ Hn) Hn Hus (fork_limits _ _ _ _ Hfc Hlm) Ho) as (k2 & P2 & V2 & t2 & E2 & HM2 & HA2 & Hu2).
  destruct (accounts_end _ _ _ _ _ _ r c V2 t2 HA2 HM2 Hn Hu2) as (k3 & E3 & HI & Hl & Hrf & Hbt3 & Hob).
  destruct (parent_after k P R mm V t' r V' t'' c k1 P' k3 (bt_inv _ _ _ Hbt) Hpr Hcn) as (R' & _ & HM3 & Hu3); try done; [by apply lookup_union_None in Hn as [_ ?]|].
  exists k2, k3, t'. split; [exact E2|]. splits; try done. intros va. rewrite Hu3. apply Hb.
Qed.

Lemma fork_exit_restores_witness :
  exists P R V t k2 k3 t', mem_inv kC P R mA V t /\ dup_mm kC mA = Some (mC, kF) /\ mC <> 0 /\ orderly_alone kF mC child_events = true /\
    run_alone kF mC child_events = Some k2 /\ mm_put k2 mC = Some k3 /\ mem_inv k3 P R mA V t' /\ user_byte k3 t' 0x2000123 = Some 0.
Proof.
  destruct kC_inv as (P & R & V & t & Hb & HI & Hsp & H0).
  destruct (fork_exit_restores kC P R mA V t child_events HI Hb (kC_room P R V t HI) kC_limits) as (r & k1 & E & H).
  destruct (kF_eq r k1 E) as [Er Ek]. rewrite Er, Ek in E, H.
  assert (Hr : mC <> 0) by (vm_compute; discriminate). assert (Ho : orderly_alone kF mC child_events = true) by (vm_compute; reflexivity).
  destruct (H Hr Ho) as (k2 & k3 & t' & E2 & E3 & HM & _ & Hu). exists P, R, V, t, k2, k3, t'.
  refine (conj HI (conj E (conj Hr (conj Ho (conj E2 (conj E3 (conj HM _))))))). rewrite Hu. exact H0.
Defined.
