(* ===== verification/KString.v ===== *)
(** * Strings in memory

    [lib/string.c], [lib/memset.c] and [lib/strnlen_user.c] on a memory of
    bytes.  [cstr m s l] says that the NUL-terminated string at [s] has the
    characters [l]. *)
From S2P Require Import Prelude Errno.

(** Character codes and string literals. *)
Definition ch (c : Ascii.ascii) : Z := Z.of_N (Ascii.N_of_ascii c).
Arguments ch c%_char_scope.

Definition str (s : string) : list Z := ch <$> String.list_ascii_of_string s.

(** ** Operations *)

Fixpoint memset (n : nat) (m : gmap Z Z) (s c : Z) : gmap Z Z :=
  match n with
  | O => m
  | S n' => memset n' (<[s := u8 c]> m) (s + 1) c
  end.

Fixpoint strlen_loop (fuel : nat) (m : gmap Z Z) (s sc : Z) : option Z :=
  match fuel with
  | O => None
  | S fuel' => if m.[sc] =? 0 then Some (sc - s) else strlen_loop fuel' m s (sc + 1)
  end.

Definition strlen (fuel : nat) (m : gmap Z Z) (s : Z) : option Z := strlen_loop fuel m s s.

Fixpoint strcmp (fuel : nat) (m : gmap Z Z) (cs ct : Z) : option Z :=
  match fuel with
  | O => None
  | S fuel' =>
      let c1 := m.[cs] in
      let c2 := m.[ct] in
      if negb (c1 =? c2) then Some (if c1 <? c2 then -1 else 1)
      else if c1 =? 0 then Some 0
      else strcmp fuel' m (cs + 1) (ct + 1)
  end.

(** The loop of [strscpy], [n] iterations before the last byte. *)
Fixpoint strscpy_loop (n : nat) (m : gmap Z Z) (dest src i : Z) : Z * gmap Z Z :=
  match n with
  | O => (- E2BIG, <[dest + i := 0]> m)
  | S n' =>
      let m := <[dest + i := m.[src + i]]> m in
      if m.[src + i] =? 0 then (i, m) else strscpy_loop n' m dest src (i + 1)
  end.

Definition strscpy (m : gmap Z Z) (dest src count : Z) : Z * gmap Z Z :=
  if count =? 0 then (- E2BIG, m) else strscpy_loop (Z.to_nat (count - 1)) m dest src 0.

Fixpoint copy_from_user (n : nat) (m : gmap Z Z) (dst src : Z) : gmap Z Z :=
  match n with
  | O => m
  | S n' => copy_from_user n' (<[dst := m.[src]]> m) (dst + 1) (src + 1)
  end.

Fixpoint strncpy_loop (n : nat) (m : gmap Z Z) (dest src i : Z) : Z * gmap Z Z :=
  match n with
  | O => (i, m)
  | S n' =>
      let c := m.[src + i] in
      let m := <[dest + i := c]> m in
      if c =? 0 then (i, m) else strncpy_loop n' m dest src (i + 1)
  end.

Definition strncpy_from_user (m : gmap Z Z) (dest src count : Z) : Z * gmap Z Z :=
  if count <=? 0 then (0, m)
  else if (dest =? 0) || (src =? 0) then (- EFAULT, m)
  else strncpy_loop (Z.to_nat count) m dest src 0.

(** ** Strings and byte sequences *)

Fixpoint bytes_at (m : gmap Z Z) (s : Z) (l : list Z) : Prop :=
  match l with
  | [] => True
  | x :: l' => m.[s] = x /\ bytes_at m (s + 1) l'
  end.

Definition char (x : Z) : Prop := 0 < x < 256.

Definition cstr (m : gmap Z Z) (s : Z) (l : list Z) : Prop :=
  bytes_at m s l /\ m.[s + Z.of_nat (length l)] = 0 /\ Forall char l.

Lemma bytes_at_lookup m s l :
  bytes_at m s l <-> forall i x, l !! i = Some x -> m.[s + Z.of_nat i] = x.
Proof.
  revert s. induction l as [|y l IH]; intros s; cbn [bytes_at].
  { split; [|done]. intros _ i x. by rewrite lookup_nil. }
  rewrite IH. split.
  - intros [H0 H] [|i] x Hi; cbn in Hi.
    + injection Hi as <-. by rewrite Z.add_0_r.
    + rewrite <- (H i x Hi). f_equal. lia.
  - intros H. split; [rewrite <- (H O y eq_refl); f_equal; lia|]. intros i x Hi.
    rewrite <- (H (S i) x Hi). f_equal. lia.
Qed.

Lemma bytes_at_frame m m' s l :
  (forall a, s <= a < s + Z.of_nat (length l) -> m'.[a] = m.[a]) -> bytes_at m s l -> bytes_at m' s l.
Proof.
  intros Hf. rewrite !bytes_at_lookup. intros H i x Hi. assert (Hlt := lookup_lt_Some _ _ _ Hi).
  rewrite Hf by lia. by apply H.
Qed.

Lemma bytes_at_app m s l1 l2 :
  bytes_at m s (l1 ++ l2) <-> bytes_at m s l1 /\ bytes_at m (s + Z.of_nat (length l1)) l2.
Proof.
  revert s. induction l1 as [|x l1 IH]; intros s; cbn [bytes_at app length].
  { rewrite Z.add_0_r. naive_solver. }
  rewrite IH. replace (s + Z.of_nat (S (length l1))) with (s + 1 + Z.of_nat (length l1)) by lia. naive_solver.
Qed.

Lemma cstr_cons m s x l : cstr m s (x :: l) <-> char x /\ m.[s] = x /\ cstr m (s + 1) l.
Proof.
  unfold cstr. cbn [bytes_at length]. rewrite Forall_cons.
  replace (s + Z.of_nat (S (length l))) with (s + 1 + Z.of_nat (length l)) by lia. naive_solver.
Qed.

Lemma cstr_nil m s : cstr m s [] <-> m.[s] = 0.
Proof. unfold cstr. cbn. rewrite Z.add_0_r. naive_solver. Qed.

Lemma cstr_frame m m' s l :
  (forall a, s <= a <= s + Z.of_nat (length l) -> m'.[a] = m.[a]) -> cstr m s l -> cstr m' s l.
Proof.
  intros Hf (H1 & H2 & H3). split; [|split; [|done]].
  - eapply bytes_at_frame; [|done]. intros a Ha. apply Hf. lia.
  - rewrite Hf by lia. done.
Qed.

(** The character at a position of a string, the terminator included. *)
Lemma cstr_at m s l i :
  cstr m s l -> (i <= length l)%nat -> m.[s + Z.of_nat i] = default 0 (l !! i).
Proof.
  intros (H1 & H2 & _) Hi. destruct (l !! i) as [x|] eqn:E.
  - by apply (proj1 (bytes_at_lookup m s l) H1).
  - apply lookup_ge_None in E. by replace i with (length l) by lia.
Qed.

(** ** Correctness *)

Lemma memset_fill n m s c : memset n m s c = arr_fill n m s (u8 c).
Proof. revert m s. induction n as [|n IH]; intros m s; cbn; [done|]. by rewrite IH. Qed.

Lemma strlen_spec fuel m s l : cstr m s l -> (length l < fuel)%nat -> strlen fuel m s = Some (Z.of_nat (length l)).
Proof.
  intros Hc Hf. unfold strlen.
  enough (H : forall d sc, cstr m sc d -> (length d < fuel)%nat ->
            strlen_loop fuel m s sc = Some (sc - s + Z.of_nat (length d))).
  { rewrite (H l s Hc Hf). f_equal. lia. }
  clear l Hc Hf. induction fuel as [|fuel IH]; intros d sc Hc Hf; [lia|]. cbn [strlen_loop].
  destruct d as [|x d].
  - apply cstr_nil in Hc. rewrite Hc. cbn. f_equal. lia.
  - apply cstr_cons in Hc as ([Hx _] & -> & Hc). zdec. cbn in Hf. rewrite (IH d) by (done || lia).
    f_equal. cbn [length]. lia.
Qed.

(** Lexicographic order of strings. *)
Definition before (a b : list Z) : Prop :=
  exists p, (exists y b', a = p /\ b = p ++ y :: b') \/
            (exists x y a' b', a = p ++ x :: a' /\ b = p ++ y :: b' /\ x < y).

Lemma before_cons x a b : before a b -> before (x :: a) (x :: b).
Proof.
  intros [p [(y & b' & -> & ->)|(z & y & a' & b' & -> & -> & Hlt)]]; exists (x :: p).
  - left. by exists y, b'.
  - right. by exists z, y, a', b'.
Qed.

(** [strcmp] decides equality and lexicographic order of strings of bytes. *)
Theorem strcmp_correct fuel m s t a b :
  cstr m s a -> cstr m t b -> (length a < fuel)%nat ->
  exists r, strcmp fuel m s t = Some r /\
    ((r = 0 /\ a = b) \/ (r = -1 /\ before a b) \/ (r = 1 /\ before b a)).
Proof.
  revert s t a b. induction fuel as [|fuel IH]; intros s t a b Ha Hb Hf; [lia|]. cbn [strcmp].
  destruct a as [|x a], b as [|y b].
  - apply cstr_nil in Ha, Hb. rewrite Ha, Hb. exists 0. auto.
  - apply cstr_nil in Ha. apply cstr_cons in Hb as ([Hy _] & -> & _). rewrite Ha. zdec. exists (-1).
    split; [done|]. right. left. split; [done|]. exists []. left. by exists y, b.
  - apply cstr_nil in Hb. apply cstr_cons in Ha as ([Hx _] & -> & _). rewrite Hb. zdec. exists 1.
    split; [done|]. right. right. split; [done|]. exists []. left. by exists x, a.
  - apply cstr_cons in Ha as ([Hx _] & -> & Ha), Hb as ([Hy _] & -> & Hb).
    destruct (Z.eqb_spec x y) as [->|Hxy]; cbn [negb].
    + zdec. cbn in Hf. destruct (IH _ _ _ _ Ha Hb ltac:(lia)) as (r & E & Hr). exists r. split; [done|].
      destruct Hr as [[-> ->]|[[-> H]|[-> H]]]; eauto using before_cons.
    + destruct (Z.ltb_spec x y); eexists; (split; [done|]); right.
      * left. split; [done|]. exists []. right. by exists x, y, a, b.
      * right. split; [done|]. exists []. right. exists y, x, b, a. splits; try done. lia.
Qed.

Lemma take_snoc {A} (l : list A) i x : l !! i = Some x -> take (S i) l = take i l ++ [x].
Proof. apply take_S_r. Qed.

(** The loops of [strscpy] and [strncpy_from_user] have copied [i] characters. *)
Record copying (m m' : gmap Z Z) (dest src : Z) (l : list Z) (i : nat) : Prop := {
  cp_src : cstr m' src l;
  cp_le : (i <= length l)%nat;
  cp_done : bytes_at m' dest (take i l);
  cp_frame : forall a, ~ (dest <= a < dest + Z.of_nat i) -> m'.[a] = m.[a]
}.

Definition apart (a n b k : Z) : Prop := a + n <= b \/ b + k <= a.

Lemma copying_step m m' dest src l i count :
  copying m m' dest src l i -> apart dest count src (Z.of_nat (length l) + 1) -> Z.of_nat i < count ->
  let c := default 0 (l !! i) in
  let m'' := <[dest + Z.of_nat i := m'.[src + Z.of_nat i]]> m' in
  m'.[src + Z.of_nat i] = c /\ m''.[src + Z.of_nat i] = c /\ cstr m'' src l /\
  bytes_at m'' dest (take i l ++ [c]) /\
  (forall a, ~ (dest <= a < dest + Z.of_nat i + 1) -> m''.[a] = m.[a]).
Proof.
  intros [H1 H2 H3 H4] Hap Hi c m''. unfold apart in Hap.
  assert (Ec := cstr_at _ _ _ _ H1 H2). fold c in Ec.
  assert (Hsrc : forall a, src <= a <= src + Z.of_nat (length l) -> m''.[a] = m'.[a]).
  { intros a Ha. apply arr_get_insert_ne. lia. }
  splits; [done|by rewrite Hsrc by lia|by apply (cstr_frame m')| |].
  - rewrite bytes_at_app. rewrite length_take_le by done. split.
    + apply (bytes_at_frame m'); [|done]. rewrite length_take_le by done. intros a Ha.
      apply arr_get_insert_ne. lia.
    + split; [|done]. unfold m''. by rewrite arr_get_insert.
  - intros a Ha. unfold m''. rewrite arr_get_insert_ne by lia. apply H4. lia.
Qed.

Lemma copying_next m m' dest src l i count :
  copying m m' dest src l i -> apart dest count src (Z.of_nat (length l) + 1) -> Z.of_nat i < count ->
  m'.[src + Z.of_nat i] <> 0 ->
  copying m (<[dest + Z.of_nat i := m'.[src + Z.of_nat i]]> m') dest src l (S i).
Proof.
  intros Hc Hap Hi Hnz. destruct (copying_step _ _ _ _ _ _ _ Hc Hap Hi) as (Ec & _ & H1 & H2 & H3).
  destruct (l !! i) as [x|] eqn:E; cbn in Ec; [|done].
  split; [done|by apply lookup_lt_Some in E|by rewrite (take_snoc _ _ _ E)|].
  intros a Ha. apply H3. lia.
Qed.

(** [strscpy] copies the string, or as much of it as fits, terminates the
    copy and touches nothing else.  It reports the length copied, but E2BIG
    already for a string of [count - 1] characters, which it copied whole. *)
Theorem strscpy_correct m dest src count l :
  cstr m src l -> 0 < count -> apart dest count src (Z.of_nat (length l) + 1) ->
  let w := take (Z.to_nat (count - 1)) l in
  exists r m', strscpy m dest src count = (r, m') /\ cstr m' dest w /\
    r = (if decide (Z.of_nat (length l) < count - 1) then Z.of_nat (length l) else - E2BIG) /\
    (forall a, ~ (dest <= a < dest + count) -> m'.[a] = m.[a]).
Proof.
  intros Hl Hc Hap w. unfold strscpy. zdec.
  enough (H : forall n m' i, copying m m' dest src l i -> (n + i = Z.to_nat (count - 1))%nat ->
    exists r m2, strscpy_loop n m' dest src (Z.of_nat i) = (r, m2) /\ cstr m2 dest w /\
      r = (if decide (Z.of_nat (length l) < count - 1) then Z.of_nat (length l) else - E2BIG) /\
      (forall a, ~ (dest <= a < dest + count) -> m2.[a] = m.[a])).
  { apply (H _ m O); [|lia]. split; [done|lia|done|done]. }
  assert (Hchars := proj2 (proj2 Hl)).
  induction n as [|n IH]; intros m' i Hi Hn; cbn [strscpy_loop].
  - destruct Hi as [H1 H2 H3 H4]. exists (- E2BIG), (<[dest + Z.of_nat i := 0]> m'). splits; [done| | |].
    + unfold w. replace (Z.to_nat (count - 1)) with i by lia. split; [|split; [|by apply Forall_take]].
      * apply (bytes_at_frame m'); [|done]. rewrite length_take_le by done. intros a Ha.
        apply arr_get_insert_ne. lia.
      * rewrite length_take_le by done. apply arr_get_insert.
    + rewrite decide_False by lia. done.
    + intros a Ha. rewrite arr_get_insert_ne by lia. apply H4. lia.
  - destruct (copying_step _ _ _ _ _ _ _ Hi Hap ltac:(lia)) as (Ec & Ec' & H1 & H2 & H3). rewrite Ec'.
    destruct (Z.eqb_spec (default 0 (l !! i)) 0) as [E0|E0].
    + assert (El : i = length l).
      { destruct (l !! i) as [x|] eqn:E; cbn in E0.
        - rewrite Forall_lookup in Hchars. destruct (Hchars _ _ E). lia.
        - apply lookup_ge_None in E. pose proof (cp_le _ _ _ _ _ _ Hi). lia. }
      exists (Z.of_nat i). eexists. splits; [done| | |].
      * unfold w. rewrite take_ge by lia. apply bytes_at_app in H2 as [H2 H2'].
        rewrite take_ge in H2, H2' by lia. split; [done|]. split; [|done].
        destruct H2' as [H2' _]. by rewrite H2', E0.
      * rewrite decide_True by lia. lia.
      * intros a Ha. apply H3. lia.
    + replace (Z.of_nat i + 1) with (Z.of_nat (S i)) by lia. apply IH; [|lia].
      apply (copying_next _ _ _ _ _ _ count); try done; [lia|]. by rewrite Ec.
Qed.

(** [strncpy_from_user] copies at most [count] characters; the copy is
    terminated only when the string is shorter than that. *)
Lemma strncpy_from_user_spec m dest src count l :
  cstr m src l -> 0 < count -> dest <> 0 -> src <> 0 -> apart dest count src (Z.of_nat (length l) + 1) ->
  exists m', strncpy_from_user m dest src count = (Z.min count (Z.of_nat (length l)), m') /\
    (if decide (Z.of_nat (length l) < count) then cstr m' dest l
     else bytes_at m' dest (take (Z.to_nat count) l)) /\
    (forall a, ~ (dest <= a < dest + count) -> m'.[a] = m.[a]).
Proof.
  intros Hl Hc Hd Hs Hap. unfold strncpy_from_user. zdec.
  enough (H : forall n m' i, copying m m' dest src l i -> (n + i = Z.to_nat count)%nat ->
    exists m2, strncpy_loop n m' dest src (Z.of_nat i) = (Z.min count (Z.of_nat (length l)), m2) /\
      (if decide (Z.of_nat (length l) < count) then cstr m2 dest l
       else bytes_at m2 dest (take (Z.to_nat count) l)) /\
      (forall a, ~ (dest <= a < dest + count) -> m2.[a] = m.[a])).
  { apply (H _ m O); [|lia]. split; [done|lia|done|done]. }
  assert (Hchars := proj2 (proj2 Hl)).
  induction n as [|n IH]; intros m' i Hi Hn; cbn [strncpy_loop].
  - destruct Hi as [H1 H2 H3 H4]. exists m'. splits.
    + f_equal. lia.
    + rewrite decide_False by lia. by replace (Z.to_nat count) with i by lia.
    + intros a Ha. apply H4. lia.
  - destruct (copying_step _ _ _ _ _ _ _ Hi Hap ltac:(lia)) as (Ec & Ec' & H1 & H2 & H3). rewrite Ec in *.
    destruct (Z.eqb_spec (default 0 (l !! i)) 0) as [E0|E0].
    + assert (El : i = length l).
      { destruct (l !! i) as [x|] eqn:E; cbn in E0.
        - rewrite Forall_lookup in Hchars. destruct (Hchars _ _ E). lia.
        - apply lookup_ge_None in E. pose proof (cp_le _ _ _ _ _ _ Hi). lia. }
      eexists. splits; [f_equal; lia| |intros a Ha; apply H3; lia].
      rewrite decide_True by lia. apply bytes_at_app in H2 as [H2 [H2' _]].
      rewrite take_ge in H2, H2' by lia. split; [done|]. split; [|done]. by rewrite H2', E0.
    + replace (Z.of_nat i + 1) with (Z.of_nat (S i)) by lia. apply IH; [|lia].
      rewrite <- Ec. apply (copying_next _ _ _ _ _ _ count); try done; [lia|]. by rewrite Ec.
Qed.

(** ** Examples *)

Fixpoint store (m : gmap Z Z) (s : Z) (l : list Z) : gmap Z Z :=
  match l with
  | [] => <[s := 0]> m
  | x :: l' => store (<[s := x]> m) (s + 1) l'
  end.

Lemma store_out m s l a : ~ (s <= a <= s + Z.of_nat (length l)) -> (store m s l).[a] = m.[a].
Proof.
  revert m s. induction l as [|x l IH]; intros m s Ha; cbn [store length] in *.
  - apply arr_get_insert_ne. lia.
  - rewrite IH by lia. apply arr_get_insert_ne. lia.
Qed.

Lemma store_cstr m s l : Forall char l -> cstr (store m s l) s l.
Proof.
  revert m s. induction l as [|x l IH]; intros m s Hl; cbn [store].
  - apply cstr_nil, arr_get_insert.
  - apply Forall_cons in Hl as [Hx Hl]. apply cstr_cons. splits; [apply Hx..| |by apply IH].
    rewrite store_out by lia. apply arr_get_insert.
Qed.

(** A word truncated to a buffer of four bytes. *)
Lemma strscpy_correct_witness :
  exists r m', strscpy (store ∅ 100 (str "hello")) 200 100 4 = (r, m') /\ cstr m' 200 (str "hel") /\ r = - E2BIG.
Proof.
  destruct (strscpy_correct (store ∅ 100 (str "hello")) 200 100 4 (str "hello")) as (r & m' & E & H & Hr & _).
  - apply store_cstr. repeat constructor.
  - lia.
  - right. cbn. lia.
  - exists r, m'. split; [exact E|]. split; [exact H|exact Hr].
Defined.

Lemma strcmp_correct_witness :
  let m := store (store ∅ 100 (str "bin")) 200 (str "boot") in
  exists r, strcmp 10 m 100 200 = Some r /\
    ((r = 0 /\ str "bin" = str "boot") \/ (r = -1 /\ before (str "bin") (str "boot")) \/
     (r = 1 /\ before (str "boot") (str "bin"))).
Proof.
  intros m. apply (strcmp_correct 10 m 100 200 (str "bin") (str "boot")).
  - eapply cstr_frame; [|apply (store_cstr ∅); repeat constructor]. intros a Ha. apply store_out. cbn in *. lia.
  - apply store_cstr. repeat constructor.
  - cbn. lia.
Defined.
