(* ===== verification/Printf.v ===== *)
(** * Formatted output ([lib/vsnprintf.c])

    [vsnprintf] writes into a bounded buffer; [render] is the text it is
    meant to produce. *)
From Stdlib Require Import Ascii.
From S2P Require Import Prelude Errno KString.

(** ** Operations *)

(** The state of the output: memory and the write position. *)
Definition emit_char (m : gmap Z Z) (p end_ c : Z) : gmap Z Z * Z :=
  (if p <? end_ then <[p := c]> m else m, u64 (p + 1)).

(** The characters of a literal of the code. *)
Fixpoint emit_lit (m : gmap Z Z) (p end_ : Z) (l : list Z) : gmap Z Z * Z :=
  match l with
  | [] => (m, p)
  | c :: l' => let '(m, p) := emit_char m p end_ c in emit_lit m p end_ l'
  end.

Fixpoint emit_str_loop (fuel : nat) (m : gmap Z Z) (p end_ s : Z) : option (gmap Z Z * Z) :=
  match fuel with
  | O => None
  | S fuel' =>
      if m.[s] =? 0 then Some (m, p)
      else
        let '(m, p) := emit_char m p end_ m.[s] in
        emit_str_loop fuel' m p end_ (s + 1)
  end.

Definition emit_str (fuel : nat) (m : gmap Z Z) (p end_ s : Z) : option (gmap Z Z * Z) :=
  if s =? 0 then Some (emit_lit m p end_ (str "(null)")) else emit_str_loop fuel m p end_ s.

Definition digits (upper : bool) : list Z :=
  if upper then str "0123456789ABCDEF" else str "0123456789abcdef".

(** [char tmp[2 * sizeof(unsigned long)]] *)
Definition TMP_SIZE : Z := 16.

(** The loop that fills [tmp]; [None] when it would write past its end. *)
Fixpoint ulong_digits (fuel : nat) (v base : Z) (upper : bool) (i : Z) (tmp : gmap Z Z)
  : option (Z * gmap Z Z) :=
  if v =? 0 then Some (i, tmp)
  else if TMP_SIZE <=? i then None
  else match fuel with
    | O => None
    | S fuel' =>
        ulong_digits fuel' (v / base) base upper (i + 1)
          (<[i := nth (Z.to_nat (v mod base)) (digits upper) 0]> tmp)
    end.

(** [while (i > 0) p = emit_char(p, end, tmp[--i]);] *)
Fixpoint emit_tmp (i : nat) (m : gmap Z Z) (p end_ : Z) (tmp : gmap Z Z) : gmap Z Z * Z :=
  match i with
  | O => (m, p)
  | S i' =>
      let '(m, p) := emit_char m p end_ tmp.[Z.of_nat i'] in
      emit_tmp i' m p end_ tmp
  end.

Definition emit_ulong (m : gmap Z Z) (p end_ v base : Z) (upper : bool) : option (gmap Z Z * Z) :=
  if v =? 0 then Some (emit_char m p end_ (ch "0"))
  else
    '(i, tmp) ← ulong_digits (Z.to_nat TMP_SIZE) v base upper 0 ∅;
    Some (emit_tmp (Z.to_nat i) m p end_ tmp).

Definition emit_long (m : gmap Z Z) (p end_ v : Z) : option (gmap Z Z * Z) :=
  if v <? 0 then
    let '(m, p) := emit_char m p end_ (ch "-") in
    emit_ulong m p end_ (u64 (- v)) 10 false
  else emit_ulong m p end_ v 10 false.

(** The next variable argument; a call without enough of them is undefined. *)
Definition va_arg (ap : list Z) : option (Z * list Z) :=
  match ap with [] => None | v :: ap' => Some (v, ap') end.

Fixpoint format_loop (fuel : nat) (n : nat) (m : gmap Z Z) (p end_ fmt : Z) (ap : list Z)
  : option (gmap Z Z * Z) :=
  match fuel with
  | O => None
  | S fuel' =>
      let c := m.[fmt] in
      if c =? 0 then Some (m, p)
      else if negb (c =? ch "%") then
        let '(m, p) := emit_char m p end_ c in
        format_loop fuel' n m p end_ (fmt + 1) ap
      else
        let fmt := fmt + 1 in
        let c := m.[fmt] in
        if c =? ch "%" then
          let '(m, p) := emit_char m p end_ (ch "%") in
          format_loop fuel' n m p end_ (fmt + 1) ap
        else if c =? ch "s" then
          '(v, ap) ← va_arg ap;
          '(m, p) ← emit_str n m p end_ v;
          format_loop fuel' n m p end_ (fmt + 1) ap
        else if c =? ch "c" then
          '(v, ap) ← va_arg ap;
          let '(m, p) := emit_char m p end_ (u8 v) in
          format_loop fuel' n m p end_ (fmt + 1) ap
        else if (c =? ch "d") || (c =? ch "i") then
          '(v, ap) ← va_arg ap;
          '(m, p) ← emit_long m p end_ (s32 v);
          format_loop fuel' n m p end_ (fmt + 1) ap
        else if c =? ch "u" then
          '(v, ap) ← va_arg ap;
          '(m, p) ← emit_ulong m p end_ (u32 v) 10 false;
          format_loop fuel' n m p end_ (fmt + 1) ap
        else if c =? ch "x" then
          '(v, ap) ← va_arg ap;
          '(m, p) ← emit_ulong m p end_ (u32 v) 16 false;
          format_loop fuel' n m p end_ (fmt + 1) ap
        else if c =? ch "l" then
          let fmt := fmt + 1 in
          let c := m.[fmt] in
          if c =? ch "x" then
            '(v, ap) ← va_arg ap;
            '(m, p) ← emit_ulong m p end_ (u64 v) 16 false;
            format_loop fuel' n m p end_ (fmt + 1) ap
          else if c =? ch "u" then
            '(v, ap) ← va_arg ap;
            '(m, p) ← emit_ulong m p end_ (u64 v) 10 false;
            format_loop fuel' n m p end_ (fmt + 1) ap
          else if c =? ch "d" then
            '(v, ap) ← va_arg ap;
            '(m, p) ← emit_long m p end_ (s64 v);
            format_loop fuel' n m p end_ (fmt + 1) ap
          else
            let '(m, p) := emit_char m p end_ (ch "%") in
            let '(m, p) := emit_char m p end_ (ch "l") in
            let c := m.[fmt] in
            if c =? 0 then format_loop fuel' n m p end_ fmt ap
            else
              let '(m, p) := emit_char m p end_ c in
              format_loop fuel' n m p end_ (fmt + 1) ap
        else if c =? ch "p" then
          '(v, ap) ← va_arg ap;
          let '(m, p) := emit_char m p end_ (ch "0") in
          let '(m, p) := emit_char m p end_ (ch "x") in
          '(m, p) ← (if u64 v =? 0 then Some (emit_lit m p end_ (str "0"))
                     else emit_ulong m p end_ (u64 v) 16 false);
          format_loop fuel' n m p end_ (fmt + 1) ap
        else
          let '(m, p) := emit_char m p end_ (ch "%") in
          let c := m.[fmt] in
          if c =? 0 then format_loop fuel' n m p end_ fmt ap
          else
            let '(m, p) := emit_char m p end_ c in
            format_loop fuel' n m p end_ (fmt + 1) ap
  end.

(** [fuel] bounds the characters of the format, [n] those of each string
    argument. *)
Definition vsnprintf (fuel n : nat) (m : gmap Z Z) (buf size fmt : Z) (ap : list Z)
  : option (Z * gmap Z Z) :=
  if fmt =? 0 then Some (0, if 0 <? size then <[buf := 0]> m else m)
  else
    let end_ := if size =? 0 then buf else u64 (buf + size) in
    '(m, p) ← format_loop fuel n m buf end_ fmt ap;
    let m :=
      if 0 <? size then
        if size <=? u64 (p - buf) then <[u64 (buf + size - 1) := 0]> m else <[p := 0]> m
      else m in
    Some (s32 (p - buf), m).

(** ** The text *)

Inductive arg := AInt (z : Z) | AStr (l : list Z) | ANull.

(** Digits of [v > 0], most significant first. *)
Fixpoint numeral (fuel : nat) (v base : Z) : list Z :=
  match fuel with
  | O => []
  | S fuel' =>
      if v =? 0 then []
      else numeral fuel' (v / base) base ++ [nth (Z.to_nat (v mod base)) (digits false) 0]
  end.

Definition unum (v base : Z) : list Z := if v =? 0 then [ch "0"] else numeral 64 v base.
Definition snum (v : Z) : list Z := if v <? 0 then ch "-" :: unum (- v) 10 else unum v 10.

(** [tmp] has room for the number. *)
Definition fits (v base : Z) : bool := v <? base ^ TMP_SIZE.

Definition take_int (args : list arg) : option (Z * list arg) :=
  match args with AInt z :: args' => Some (z, args') | _ => None end.

Definition take_str (args : list arg) : option (list Z * list arg) :=
  match args with
  | AStr l :: args' => Some (l, args')
  | ANull :: args' => Some (str "(null)", args')
  | _ => None
  end.

(** What a conversion prints, and the arguments left; [None] when the
    argument is missing or of the wrong kind. *)
Definition convert (c : Z) (args : list arg) : option (list Z * list arg) :=
  if c =? ch "s" then take_str args
  else if c =? ch "c" then '(z, args) ← take_int args; Some ([u8 z], args)
  else if (c =? ch "d") || (c =? ch "i") then '(z, args) ← take_int args; Some (snum (s32 z), args)
  else if c =? ch "u" then '(z, args) ← take_int args; Some (unum (u32 z) 10, args)
  else if c =? ch "x" then '(z, args) ← take_int args; Some (unum (u32 z) 16, args)
  else if c =? ch "p" then '(z, args) ← take_int args; Some (str "0x" ++ unum (u64 z) 16, args)
  else Some ([ch "%"; c], args).

(** Also whether the number is too long for [tmp]. *)
Definition convert_long (c : Z) (args : list arg) : option (list Z * bool * list arg) :=
  if c =? ch "x" then '(z, args) ← take_int args; Some (unum (u64 z) 16, false, args)
  else if c =? ch "u" then '(z, args) ← take_int args; Some (unum (u64 z) 10, negb (fits (u64 z) 10), args)
  else if c =? ch "d" then '(z, args) ← take_int args; Some (snum (s64 z), negb (fits (Z.abs (s64 z)) 10), args)
  else Some ([ch "%"; ch "l"; c], false, args).

(** The text, and whether a number in it is too long for [tmp]: a decimal of
    17 digits or more, which only [%lu] and [%ld] can print. *)
Fixpoint render (fmt : list Z) (args : list arg) : option (list Z * bool) :=
  match fmt with
  | [] => Some ([], false)
  | c :: f =>
      if negb (c =? ch "%") then '(r, long) ← render f args; Some (c :: r, long)
      else match f with
        | [] => Some ([ch "%"], false)
        | d :: f' =>
            if d =? ch "%" then '(r, long) ← render f' args; Some (ch "%" :: r, long)
            else if d =? ch "l" then
              match f' with
              | [] => Some ([ch "%"; ch "l"], false)
              | e :: f'' => '(o, l, args) ← convert_long e args; '(r, long) ← render f'' args; Some (o ++ r, l || long)
              end
            else '(o, args) ← convert d args; '(r, long) ← render f' args; Some (o ++ r, long)
        end
  end.

(** ** Correctness *)

Lemma emit_char_at m p e c a :
  (fst (emit_char m p e c)).[a] = if decide (a = p /\ p < e) then c else m.[a].
Proof.
  unfold emit_char. cbn [fst]. case Z.ltb_spec; intros H; [|by rewrite decide_False by lia].
  rewrite arr_get_insert_case. repeat case_decide; try done; lia.
Qed.

Section Output.
Context (m0 : gmap Z Z) (buf size : Z).

(** The write position behind [o] is an address. *)
Definition room (o : list Z) : Prop := 0 <= buf /\ buf + Z.of_nat (length o) < 2 ^ 64.

Lemma room_app o l : room (o ++ l) -> room o.
Proof. unfold room. rewrite length_app. lia. Qed.

Lemma room_cut o o' r : room (o ++ o' ++ r) -> room (o ++ o').
Proof. rewrite app_assoc. apply room_app. Qed.

Lemma room_step o c l : room (o ++ c :: l) -> room (o ++ [c]) /\ room ((o ++ [c]) ++ l).
Proof. unfold room. rewrite !length_app. cbn [length]. lia. Qed.

(** The output so far is [o]: what fits in the buffer is there, and the
    memory outside the buffer is as it was. *)
Definition wrote (o : list Z) (st : gmap Z Z * Z) : Prop :=
  snd st = buf + Z.of_nat (length o) /\
  forall a, (fst st).[a] =
    default m0.[a] (if decide (buf <= a < buf + size) then o !! Z.to_nat (a - buf) else None).

(** A string outside the buffer. *)
Definition readable (s : Z) (l : list Z) : Prop :=
  cstr m0 s l /\ apart buf size s (Z.of_nat (length l) + 1).

Definition arg_at (n : nat) (v : Z) (a : arg) : Prop :=
  match a with
  | AInt z => v = z
  | AStr l => v <> 0 /\ readable v l /\ (length l < n)%nat
  | ANull => v = 0
  end.

Lemma wrote_outside o st a : wrote o st -> ~ (buf <= a < buf + size) -> (fst st).[a] = m0.[a].
Proof. intros [_ H] Ha. by rewrite H, decide_False. Qed.

Lemma readable_at o st s x l : wrote o st -> readable s (x :: l) -> (fst st).[s] = x /\ char x /\ readable (s + 1) l.
Proof.
  intros Hw [Hc Hap]. apply cstr_cons in Hc as (Hx & Es & Hc). unfold apart in Hap. cbn [length] in Hap.
  splits; [|done|split; [done|unfold apart; lia]].
  rewrite (wrote_outside o) by (done || lia). done.
Qed.

Lemma readable_end o st s : wrote o st -> readable s [] -> (fst st).[s] = 0.
Proof.
  intros Hw [Hc Hap]. apply cstr_nil in Hc. unfold apart in Hap. cbn in Hap.
  rewrite (wrote_outside o); [done|done|lia].
Qed.

Lemma emit_char_wrote o m p c : room (o ++ [c]) -> wrote o (m, p) -> wrote (o ++ [c]) (emit_char m p (buf + size) c).
Proof.
  intros [Hb Hr] [Hp Hm]. rewrite length_app in Hr. cbn [fst snd length] in Hr, Hp, Hm.
  split; [cbn; rewrite length_app, wrapu_id by lia; cbn; lia|].
  intros a. rewrite emit_char_at, Hm, Hp. destruct (decide (buf <= a < buf + size)) as [Ha|Ha].
  - case_decide as D.
    + replace (Z.to_nat (a - buf)) with (length o) by lia. by rewrite list_lookup_middle.
    + destruct (decide (a < buf + Z.of_nat (length o))).
      * by rewrite lookup_app_l by lia.
      * rewrite !lookup_ge_None_2; [done|rewrite length_app; cbn|]; lia.
  - by rewrite decide_False by lia.
Qed.

Lemma emit_lit_wrote o m p l : room (o ++ l) -> wrote o (m, p) -> wrote (o ++ l) (emit_lit m p (buf + size) l).
Proof.
  revert o m p. induction l as [|c l IH]; intros o m p Hr Hw; cbn [emit_lit]; [by rewrite app_nil_r|].
  destruct (room_step _ _ _ Hr) as [Hr1 Hr2].
  assert (H := emit_char_wrote o m p c Hr1 Hw). destruct (emit_char m p (buf + size) c) as [m' p'].
  apply IH in H; [|done]. by rewrite <- app_assoc in H.
Qed.

Lemma emit_str_wrote fuel o m p s l :
  room (o ++ l) -> wrote o (m, p) -> readable s l -> (length l < fuel)%nat ->
  exists st, emit_str_loop fuel m p (buf + size) s = Some st /\ wrote (o ++ l) st.
Proof.
  revert o m p s l. induction fuel as [|fuel IH]; intros o m p s l Hroom Hw Hr Hf; [lia|]. cbn [emit_str_loop].
  destruct l as [|c l].
  - rewrite (readable_end o (m, p) s Hw Hr : m.[s] = 0). cbn. eexists. split; [done|]. by rewrite app_nil_r.
  - destruct (readable_at o (m, p) s c l Hw Hr) as (Ec & [Hc _] & Hr'). cbn [fst] in Ec. rewrite Ec. zdec.
    destruct (room_step _ _ _ Hroom) as [Hr1 Hr2]. assert (H := emit_char_wrote o m p c Hr1 Hw).
    destruct (emit_char m p (buf + size) c) as [m' p'].
    destruct (IH _ _ _ _ _ Hr2 H Hr') as (st & E & Hst); [cbn in Hf; lia|].
    exists st. split; [done|]. by rewrite <- app_assoc in Hst.
Qed.

Lemma emit_tmp_wrote o m p tmp l :
  room (o ++ l) -> wrote o (m, p) -> (forall j x, l !! j = Some x -> tmp.[Z.of_nat (length l) - 1 - Z.of_nat j] = x) ->
  wrote (o ++ l) (emit_tmp (length l) m p (buf + size) tmp).
Proof.
  revert o m p. induction l as [|c l IH]; intros o m p Hr Hw Ht; cbn [emit_tmp length]; [by rewrite app_nil_r|].
  destruct (room_step _ _ _ Hr) as [Hr1 Hr2].
  assert (Ec : tmp.[Z.of_nat (length l)] = c).
  { rewrite <- (Ht O c eq_refl). f_equal. cbn [length]. lia. }
  rewrite Ec. assert (H := emit_char_wrote o m p c Hr1 Hw). destruct (emit_char m p (buf + size) c) as [m' p'].
  apply IH in H; [by rewrite <- app_assoc in H|done|]. intros j x Hj. rewrite <- (Ht (S j) x Hj). f_equal.
  cbn [length]. lia.
Qed.
End Output.

Lemma numeral_pos F v base : 0 < v -> (0 < F)%nat -> numeral F v base <> [].
Proof. intros Hv HF. destruct F; [lia|]. cbn [numeral]. zdec. by destruct (numeral F _ _). Qed.

Lemma ulong_digits_spec fuel F v base i tmp :
  2 <= base -> 0 <= i -> Z.of_nat fuel = TMP_SIZE - i -> 0 <= v < base ^ (TMP_SIZE - i) -> 0 <= v < 2 ^ Z.of_nat F ->
  let l := numeral F v base in
  exists tmp', ulong_digits fuel v base false i tmp = Some (i + Z.of_nat (length l), tmp') /\
    (forall j, 0 <= j < i -> tmp'.[j] = tmp.[j]) /\
    (forall j x, l !! j = Some x -> tmp'.[i + (Z.of_nat (length l) - 1 - Z.of_nat j)] = x).
Proof.
  revert F v i tmp. induction fuel as [|fuel IH]; intros F v i tmp Hb Hi Hf Hv HF l.
  - assert (v = 0) as ->. { replace (TMP_SIZE - i) with 0 in Hv by lia. cbn in Hv. lia. }
    unfold l. assert (E : numeral F 0 base = []) by (by destruct F). rewrite E. cbn.
    exists tmp. splits; [f_equal; f_equal; lia|done|]. intros j x. by rewrite lookup_nil.
  - cbn [ulong_digits]. destruct (Z.eqb_spec v 0) as [->|Hv0].
    { unfold l. assert (E : numeral F 0 base = []) by (by destruct F). rewrite E. cbn.
      exists tmp. splits; [f_equal; f_equal; lia|done|]. intros j x. by rewrite lookup_nil. }
    zdec. destruct F as [|F]; [cbn in HF; lia|].
    assert (Hdiv : 0 <= v / base < base ^ (TMP_SIZE - (i + 1))).
    { split; [apply Z.div_pos; lia|]. apply Z.div_lt_upper_bound; [lia|].
      rewrite <- Z.pow_succ_r by lia. replace (Z.succ _) with (TMP_SIZE - i) by lia. lia. }
    assert (HdF : 0 <= v / base < 2 ^ Z.of_nat F).
    { split; [lia|]. apply Z.div_lt_upper_bound; [lia|].
      replace (Z.of_nat (S F)) with (Z.succ (Z.of_nat F)) in HF by lia. rewrite Z.pow_succ_r in HF by lia. nia. }
    set (d := nth (Z.to_nat (v mod base)) (digits false) 0).
    destruct (IH F (v / base) (i + 1) (<[i := d]> tmp) Hb ltac:(lia) ltac:(lia) Hdiv HdF)
      as (tmp' & E & H1 & H2). cbv zeta in *.
    assert (El : l = numeral F (v / base) base ++ [d]) by (unfold l; cbn [numeral]; zdec; done).
    rewrite El, length_app. cbn [length]. exists tmp'. splits.
    + rewrite E. f_equal. f_equal. lia.
    + intros j Hj. rewrite H1 by lia. apply arr_get_insert_ne. lia.
    + intros j x Hj. apply lookup_app_Some in Hj as [Hj|[Hlen Hj]].
      * rewrite <- (H2 j x Hj). f_equal. lia.
      * apply list_lookup_singleton_Some in Hj as [Hj <-].
        replace (i + _) with i by lia. rewrite H1 by lia. apply arr_get_insert.
Qed.

Lemma ulong_digits_overrun fuel v base i tmp :
  2 <= base -> 0 <= i -> base ^ (TMP_SIZE - i) <= v -> i <= TMP_SIZE -> ulong_digits fuel v base false i tmp = None.
Proof.
  revert v i tmp. induction fuel as [|fuel IH]; intros v i tmp Hb Hi Hv Hle; cbn [ulong_digits].
  - assert (0 < base ^ (TMP_SIZE - i)) by (apply Z.pow_pos_nonneg; lia). zdec. by case Z.leb_spec.
  - assert (0 < base ^ (TMP_SIZE - i)) by (apply Z.pow_pos_nonneg; lia). zdec.
    case Z.leb_spec; intros Hi16; [done|]. apply IH; try lia. apply Z.div_le_lower_bound; [lia|].
    rewrite <- Z.pow_succ_r by lia. replace (Z.succ _) with (TMP_SIZE - i) by lia. done.
Qed.

Lemma emit_ulong_none m p end_ v base : 2 <= base -> base ^ TMP_SIZE <= v -> emit_ulong m p end_ v base false = None.
Proof.
  intros Hb Hv. assert (0 < base ^ TMP_SIZE) by (apply Z.pow_pos_nonneg; unfold TMP_SIZE; lia).
  unfold emit_ulong. zdec. rewrite ulong_digits_overrun; [done|lia|lia|by rewrite Z.sub_0_r|done].
Qed.

Lemma emit_ulong_wrote m0 buf size o m p v base :
  room buf (o ++ unum v base) -> wrote m0 buf size o (m, p) -> 0 <= v < 2 ^ 64 -> 2 <= base -> v < base ^ TMP_SIZE ->
  exists st, emit_ulong m p (buf + size) v base false = Some st /\ wrote m0 buf size (o ++ unum v base) st.
Proof.
  intros Hroom Hw Hv Hb Hf. unfold emit_ulong, unum in *. destruct (Z.eqb_spec v 0) as [->|Hv0].
  { eexists. split; [done|]. by apply emit_char_wrote. }
  destruct (ulong_digits_spec (Z.to_nat TMP_SIZE) 64 v base 0 ∅ Hb ltac:(lia) ltac:(done) ltac:(rewrite Z.sub_0_r; lia)
    ltac:(lia)) as (tmp & E & _ & Ht). cbv zeta in *. rewrite E. cbn [mbind option_bind].
  rewrite Z.add_0_l, Nat2Z.id. eexists. split; [done|]. apply emit_tmp_wrote; [done..|].
  intros j x Hj. by rewrite <- (Ht j x Hj), Z.add_0_l.
Qed.

(** The output ends as [o], or past the end of [tmp]. *)
Definition ends (m0 : gmap Z Z) (buf size : Z) (o : list Z) (long : bool) (r : option (gmap Z Z * Z)) : Prop :=
  if long then r = None else exists st, r = Some st /\ wrote m0 buf size o st.

Lemma emit_ulong_ends m0 buf size o m p v base :
  room buf (o ++ unum v base) -> wrote m0 buf size o (m, p) -> 0 <= v < 2 ^ 64 -> 2 <= base ->
  ends m0 buf size (o ++ unum v base) (negb (fits v base)) (emit_ulong m p (buf + size) v base false).
Proof.
  intros Hroom Hw Hv Hb. unfold fits. case Z.ltb_spec; intros Hf; cbn [negb ends].
  - by apply emit_ulong_wrote.
  - by apply emit_ulong_none.
Qed.

Lemma emit_long_ends m0 buf size o m p v :
  room buf (o ++ snum v) -> wrote m0 buf size o (m, p) -> - 2 ^ 63 <= v < 2 ^ 63 ->
  ends m0 buf size (o ++ snum v) (negb (fits (Z.abs v) 10)) (emit_long m p (buf + size) v).
Proof.
  intros Hroom Hw Hv. unfold emit_long, snum in *. destruct (Z.ltb_spec v 0) as [Hn|Hn].
  - destruct (room_step _ _ _ _ Hroom) as [Hr1 Hr2]. assert (H := emit_char_wrote _ _ _ _ _ _ _ Hr1 Hw).
    destruct (emit_char m p (buf + size) (ch "-")) as [m' p']. rewrite wrapu_id, Z.abs_neq by lia.
    assert (HU := emit_ulong_ends _ _ size _ _ _ (- v) 10 Hr2 H ltac:(lia) ltac:(lia)). by rewrite <- app_assoc in HU.
  - rewrite Z.abs_eq by done. apply emit_ulong_ends; try done; lia.
Qed.

Lemma fits_small v base : 0 <= v -> v < 2 ^ 32 /\ base = 10 \/ v < 2 ^ 64 /\ base = 16 -> fits v base = true.
Proof. intros Hv H. apply Z.ltb_lt. unfold TMP_SIZE. destruct H as [[? ->]|[? ->]]; lia. Qed.

Lemma take_int_at m0 buf size n ap args z args' :
  Forall2 (arg_at m0 buf size n) ap args -> take_int args = Some (z, args') ->
  exists ap', va_arg ap = Some (z, ap') /\ Forall2 (arg_at m0 buf size n) ap' args'.
Proof.
  intros HA Ht. destruct HA as [|v [w| |] ap args Hv HA]; try done.
  cbn in Ht. injection Ht as -> ->. cbn in Hv. subst v. by exists ap.
Qed.

Lemma emit_str_arg m0 buf size n o m p ap args l args' :
  room buf (o ++ l) -> wrote m0 buf size o (m, p) -> Forall2 (arg_at m0 buf size n) ap args -> take_str args = Some (l, args') ->
  exists v ap' st, va_arg ap = Some (v, ap') /\ Forall2 (arg_at m0 buf size n) ap' args' /\
    emit_str n m p (buf + size) v = Some st /\ wrote m0 buf size (o ++ l) st.
Proof.
  intros Hroom Hw HA Ht. destruct HA as [|v [w|l'|] ap args Hv HA]; try done; injection Ht as <- <-; cbn in Hv.
  - destruct Hv as (Hv & Hr & Hl). destruct (emit_str_wrote _ _ _ n o m p v l' Hroom Hw Hr Hl) as (st & E & Hst).
    exists v, ap, st. splits; try done. unfold emit_str. by zdec.
  - subst v. exists 0, ap. eexists. splits; try done. by apply emit_lit_wrote.
Qed.

(** Tests between characters of the code. *)
Ltac chars :=
  repeat match goal with
  | |- context [ch ?a =? ch ?b] => let r := eval vm_compute in (ch a =? ch b) in change (ch a =? ch b) with r
  | |- context [0 =? ch ?b] => change (0 =? ch b) with false
  | |- context [ch ?b =? 0] => change (ch b =? 0) with false
  end; cbn [negb orb].

Section Format.
Context (m0 : gmap Z Z) (buf size : Z) (n : nat).
Abbreviation wrote := (wrote m0 buf size).
Abbreviation ends := (ends m0 buf size).
Abbreviation room := (room buf).
Abbreviation args_at := (Forall2 (arg_at m0 buf size n)).

(** One conversion, and the output of the rest of the format. *)
Definition renders (fuel : nat) : Prop :=
  forall o m p fmt f ap args out long, wrote o (m, p) -> readable m0 buf size fmt f -> args_at ap args ->
    (length f < fuel)%nat -> render f args = Some (out, long) -> room (o ++ out) ->
    ends (o ++ out) long (format_loop fuel n m p (buf + size) fmt ap).

Lemma renders_after fuel o o' st fmt f ap args r long :
  renders fuel -> wrote (o ++ o') st -> readable m0 buf size fmt f -> args_at ap args ->
  (length f < fuel)%nat -> render f args = Some (r, long) -> room (o ++ o' ++ r) ->
  ends (o ++ o' ++ r) long (let '(m, p) := st in format_loop fuel n m p (buf + size) fmt ap).
Proof. rewrite app_assoc. intros IH Hw Hr HA Hf E Hroom. destruct st as [m p]. by apply (IH _ _ _ _ f _ args). Qed.

(** The conversions that print a number. *)
Lemma number_step fuel o m p fmt f ap args z args' r long (emit : gmap Z Z -> Z -> Z -> option (gmap Z Z * Z)) txt bad :
  renders fuel -> readable m0 buf size fmt f -> args_at ap args -> (length f < fuel)%nat ->
  take_int args = Some (z, args') -> render f args' = Some (r, long) -> room (o ++ txt ++ r) ->
  (room (o ++ txt) -> ends (o ++ txt) bad (emit m p z)) ->
  ends (o ++ txt ++ r) (bad || long)
    ('(v, ap) ← va_arg ap; '(m, p) ← emit m p v; format_loop fuel n m p (buf + size) fmt ap).
Proof.
  intros IH Hr HA Hf Et Er Hroom Hemit.
  assert (Hr1 := room_cut _ _ _ _ Hroom).
  destruct (take_int_at _ _ _ _ _ _ _ _ HA Et) as (ap' & -> & HA'). cbn [mbind option_bind].
  specialize (Hemit Hr1). destruct bad; cbn [orb]; [by rewrite Hemit|].
  destruct Hemit as (st & -> & Hst). cbn [mbind option_bind]. by apply (renders_after fuel _ _ _ _ f _ args').
Qed.

Lemma emit2_wrote o m p a b : room (o ++ [a; b]) -> wrote o (m, p) ->
  wrote (o ++ [a; b]) (let '(m, p) := emit_char m p (buf + size) a in emit_char m p (buf + size) b).
Proof.
  intros Hroom Hw. destruct (room_step _ _ _ _ Hroom) as [Hr1 Hr2].
  assert (H := emit_char_wrote _ _ _ _ _ _ a Hr1 Hw). destruct (emit_char m p (buf + size) a) as [m1 p1].
  apply (emit_char_wrote _ _ _ _ _ _ b Hr2) in H. by rewrite <- app_assoc in H.
Qed.

(** The parts of the text, from the text. *)
Ltac rendered :=
  intros Hren Hroom;
  repeat match type of Hren with
  | context [take_int ?a] =>
      let z := fresh "z" in let b := fresh "args'" in
      destruct (take_int a) as [[z b]|] eqn:Et; [|done]; cbn [mbind option_bind] in Hren
  | context [render ?f ?a] =>
      let r := fresh "r" in let g := fresh "lg" in
      destruct (render f a) as [[r g]|] eqn:Er; [|done]; cbn [mbind option_bind] in Hren
  end;
  injection Hren as <- <-.

Lemma int_step fuel o m p fmt f ap args out long :
  renders fuel -> wrote o (m, p) -> readable m0 buf size fmt f -> args_at ap args -> (length f < fuel)%nat ->
  ('(o', args') ← ('(z, args) ← take_int args; Some (snum (s32 z), args));
   '(r, long) ← render f args'; Some (o' ++ r, long)) = Some (out, long) -> room (o ++ out) ->
  ends (o ++ out) long ('(v, ap) ← va_arg ap; '(m, p) ← emit_long m p (buf + size) (s32 v);
     format_loop fuel n m p (buf + size) fmt ap).
Proof.
  intros IH Hw Hr HA Hf. rendered.
  apply (number_step fuel o m p fmt f ap args z args' r lg (fun m p v => emit_long m p (buf + size) (s32 v))
    (snum (s32 z)) false); try done.
  intros Hr1. assert (Hz := wraps_range 32 z ltac:(lia)).
  assert (HE := emit_long_ends m0 buf size o m p (s32 z) Hr1 Hw ltac:(lia)). by rewrite fits_small in HE by lia.
Qed.

Lemma uint_step fuel o m p fmt f ap args out long w base :
  renders fuel -> wrote o (m, p) -> readable m0 buf size fmt f -> args_at ap args -> (length f < fuel)%nat ->
  (w = 32 /\ base = 10 \/ (w = 32 \/ w = 64) /\ base = 16) ->
  ('(o', args') ← ('(z, args) ← take_int args; Some (unum (wrapu w z) base, args));
   '(r, long) ← render f args'; Some (o' ++ r, long)) = Some (out, long) -> room (o ++ out) ->
  ends (o ++ out) long ('(v, ap) ← va_arg ap; '(m, p) ← emit_ulong m p (buf + size) (wrapu w v) base false;
     format_loop fuel n m p (buf + size) fmt ap).
Proof.
  intros IH Hw Hr HA Hf Hwb. rendered.
  apply (number_step fuel o m p fmt f ap args z args' r lg (fun m p v => emit_ulong m p (buf + size) (wrapu w v) base false)
    (unum (wrapu w z) base) false); try done.
  intros Hr1. assert (Hz := wrapu_range w z ltac:(lia)).
  assert (wrapu w z < 2 ^ 32 /\ base = 10 \/ wrapu w z < 2 ^ 64 /\ base = 16).
  { destruct Hwb as [[-> ->]|[[-> | ->] ->]]; lia. }
  assert (HE := emit_ulong_ends m0 buf size o m p (wrapu w z) base Hr1 Hw ltac:(lia) ltac:(lia)).
  by rewrite fits_small in HE by lia.
Qed.

Lemma long_step fuel o m p fmt d f ap args out long :
  renders fuel -> wrote o (m, p) -> readable m0 buf size (fmt + 1) f -> m.[fmt] = d -> char d ->
  ~ (buf <= fmt < buf + size) -> args_at ap args -> (length f < fuel)%nat ->
  ('(o', l, args') ← convert_long d args; '(r, long) ← render f args'; Some (o' ++ r, l || long)) = Some (out, long) ->
  room (o ++ out) ->
  ends (o ++ out) long (if d =? ch "x" then
            '(v, ap) ← va_arg ap;
            '(m, p) ← emit_ulong m p (buf + size) (u64 v) 16 false;
            format_loop fuel n m p (buf + size) (fmt + 1) ap
          else if d =? ch "u" then
            '(v, ap) ← va_arg ap;
            '(m, p) ← emit_ulong m p (buf + size) (u64 v) 10 false;
            format_loop fuel n m p (buf + size) (fmt + 1) ap
          else if d =? ch "d" then
            '(v, ap) ← va_arg ap;
            '(m, p) ← emit_long m p (buf + size) (s64 v);
            format_loop fuel n m p (buf + size) (fmt + 1) ap
          else
            let '(m, p) := emit_char m p (buf + size) (ch "%") in
            let '(m, p) := emit_char m p (buf + size) (ch "l") in
            let c := m.[fmt] in
            if c =? 0 then format_loop fuel n m p (buf + size) fmt ap
            else
              let '(m, p) := emit_char m p (buf + size) c in
              format_loop fuel n m p (buf + size) (fmt + 1) ap).
Proof.
  intros IH Hw Hr Ed [Hd _] Hfmt HA Hf. unfold convert_long.
  destruct (d =? ch "x").
  { rendered. apply (uint_step fuel o m p (fmt + 1) f ap args _ _ 64 16); try done; [by auto|].
    rewrite Et. cbn [mbind option_bind]. rewrite Er. done. }
  destruct (d =? ch "u").
  { rendered. apply (number_step fuel o m p (fmt + 1) f ap args z args' r lg
      (fun m p v => emit_ulong m p (buf + size) (u64 v) 10 false)); try done.
    intros Hr1. apply emit_ulong_ends; [done..|by apply wrapu_range|done]. }
  destruct (d =? ch "d").
  { rendered. apply (number_step fuel o m p (fmt + 1) f ap args z args' r lg
      (fun m p v => emit_long m p (buf + size) (s64 v))); try done.
    intros Hr1. apply emit_long_ends; [done..|]. assert (Hz' := wraps_range 64 z ltac:(lia)). lia. }
  cbn [mbind option_bind]. rendered. cbn [orb].
  assert (Hr3 : room ((o ++ [ch "%"; ch "l"]) ++ [d])).
  { rewrite <- app_assoc. exact (room_cut _ o [ch "%"; ch "l"; d] r Hroom). }
  assert (H := emit2_wrote o m p (ch "%") (ch "l") (room_app _ _ _ Hr3) Hw).
  destruct (emit_char m p (buf + size) (ch "%")) as [m1 p1].
  destruct (emit_char m1 p1 (buf + size) (ch "l")) as [m2 p2]. cbv zeta.
  assert (E2 : m2.[fmt] = d).
  { rewrite <- Ed. rewrite (wrote_outside m0 buf size _ (m, p) fmt Hw Hfmt : m.[fmt] = _).
    apply (wrote_outside m0 buf size _ (m2, p2) fmt H Hfmt). }
  rewrite E2. zdec. apply (emit_char_wrote _ _ _ _ _ _ d Hr3) in H. rewrite <- app_assoc in H.
  by apply (renders_after fuel o [ch "%"; ch "l"; d] _ (fmt + 1) f ap args).
Qed.

Lemma readable_outside fmt d f : readable m0 buf size fmt (d :: f) -> ~ (buf <= fmt < buf + size).
Proof. intros [_ Hap]. unfold apart in Hap. cbn [length] in Hap. lia. Qed.

(** The end of the format after an incomplete conversion. *)
Lemma renders_end fuel o st fmt ap :
  wrote o st -> readable m0 buf size fmt [] ->
  ends o false (let '(m, p) := st in format_loop (S fuel) n m p (buf + size) fmt ap).
Proof.
  intros Hw Hr. destruct st as [m p]. cbn [format_loop].
  rewrite (readable_end _ _ _ _ (m, p) fmt Hw Hr : m.[fmt] = 0). cbn. by exists (m, p).
Qed.

(** [%p] and the conversions the code does not know. *)
Lemma pointer_step fuel o m p fmt f ap args out long :
  renders fuel -> wrote o (m, p) -> readable m0 buf size fmt f -> args_at ap args -> (length f < fuel)%nat ->
  ('(o', args') ← ('(z, args) ← take_int args; Some (str "0x" ++ unum (u64 z) 16, args));
   '(r, long) ← render f args'; Some (o' ++ r, long)) = Some (out, long) -> room (o ++ out) ->
  ends (o ++ out) long ('(v, ap) ← va_arg ap;
     '(m, p) ← (let '(m, p) := emit_char m p (buf + size) (ch "0") in
      let '(m, p) := emit_char m p (buf + size) (ch "x") in
      if u64 v =? 0 then Some (emit_lit m p (buf + size) (str "0"))
      else emit_ulong m p (buf + size) (u64 v) 16 false);
     format_loop fuel n m p (buf + size) fmt ap).
Proof.
  intros IH Hw Hr HA Hf. rendered.
  apply (number_step fuel o m p fmt f ap args z args' r lg (fun m p v =>
      let '(m, p) := emit_char m p (buf + size) (ch "0") in
      let '(m, p) := emit_char m p (buf + size) (ch "x") in
      if u64 v =? 0 then Some (emit_lit m p (buf + size) (str "0"))
      else emit_ulong m p (buf + size) (u64 v) 16 false) (str "0x" ++ unum (u64 z) 16) false); try done.
  intros Hr1. assert (Hz := wrapu_range 64 z ltac:(lia)). rewrite app_assoc in *.
  assert (H := emit2_wrote o m p (ch "0") (ch "x") (room_app _ _ _ Hr1) Hw).
  destruct (emit_char m p (buf + size) (ch "0")) as [m1 p1].
  destruct (emit_char m1 p1 (buf + size) (ch "x")) as [m2 p2].
  destruct (u64 z =? 0) eqn:Ez.
  - eexists. split; [done|]. unfold unum in *. rewrite Ez in *. by apply (emit_lit_wrote _ _ _ (o ++ str "0x")).
  - assert (HE := emit_ulong_ends m0 buf size (o ++ str "0x") m2 p2 (u64 z) 16 Hr1 H ltac:(lia) ltac:(lia)).
    by rewrite fits_small in HE by lia.
Qed.

Lemma unknown_step fuel o m p fmt d f ap args r long :
  renders fuel -> wrote o (m, p) -> readable m0 buf size fmt (d :: f) -> args_at ap args -> (length f < fuel)%nat ->
  render f args = Some (r, long) -> room (o ++ [ch "%"; d] ++ r) ->
  ends (o ++ [ch "%"; d] ++ r) long
    (let '(m, p) := emit_char m p (buf + size) (ch "%") in
     let c := m.[fmt] in
     if c =? 0 then format_loop fuel n m p (buf + size) fmt ap
     else
       let '(m, p) := emit_char m p (buf + size) c in
       format_loop fuel n m p (buf + size) (fmt + 1) ap).
Proof.
  intros IH Hw Hr HA Hf Er Hroom. assert (Hr2 := room_cut _ _ _ _ Hroom).
  destruct (room_step _ _ _ _ Hr2) as [Hr1 Hr3].
  assert (H := emit_char_wrote _ _ _ _ _ _ _ Hr1 Hw). destruct (emit_char m p (buf + size) (ch "%")) as [m1 p1].
  destruct (readable_at _ _ _ _ (m1, p1) _ d f H Hr) as (Ed & [Hd _] & Hr'). cbn [fst] in Ed. cbv zeta. rewrite Ed. zdec.
  apply (emit_char_wrote _ _ _ _ _ _ d Hr3) in H. rewrite <- app_assoc in H.
  by apply (renders_after fuel o [ch "%"; d] _ (fmt + 1) f ap args).
Qed.

(** A format that ends inside a conversion. *)
Lemma cut_step fuel o m p fmt ap :
  wrote o (m, p) -> readable m0 buf size fmt [] -> room (o ++ [ch "%"]) ->
  ends (o ++ [ch "%"]) false
    (let '(m, p) := emit_char m p (buf + size) (ch "%") in
     let c := m.[fmt] in
     if c =? 0 then format_loop (S fuel) n m p (buf + size) fmt ap
     else
       let '(m, p) := emit_char m p (buf + size) c in
       format_loop (S fuel) n m p (buf + size) (fmt + 1) ap).
Proof.
  intros Hw Hr Hroom. assert (H := emit_char_wrote _ _ _ _ _ _ _ Hroom Hw).
  destruct (emit_char m p (buf + size) (ch "%")) as [m1 p1]. cbv zeta.
  rewrite (readable_end _ _ _ _ (m1, p1) _ H Hr : m1.[fmt] = 0). by apply (renders_end fuel _ (m1, p1)).
Qed.

Lemma cut_long_step fuel o m p fmt ap :
  wrote o (m, p) -> readable m0 buf size fmt [] -> room (o ++ [ch "%"; ch "l"]) ->
  ends (o ++ [ch "%"; ch "l"]) false
    (let '(m, p) := emit_char m p (buf + size) (ch "%") in
     let '(m, p) := emit_char m p (buf + size) (ch "l") in
     let c := m.[fmt] in
     if c =? 0 then format_loop (S fuel) n m p (buf + size) fmt ap
     else
       let '(m, p) := emit_char m p (buf + size) c in
       format_loop (S fuel) n m p (buf + size) (fmt + 1) ap).
Proof.
  intros Hw Hr Hroom. assert (H := emit2_wrote o m p (ch "%") (ch "l") Hroom Hw).
  destruct (emit_char m p (buf + size) (ch "%")) as [m1 p1].
  destruct (emit_char m1 p1 (buf + size) (ch "l")) as [m2 p2]. cbv zeta.
  rewrite (readable_end _ _ _ _ (m2, p2) _ H Hr : m2.[fmt] = 0). by apply (renders_end fuel _ (m2, p2)).
Qed.

Lemma format_loop_spec fuel : renders fuel.
Proof.
  induction fuel as [|fuel IH]; intros o m p fmt f ap args out long Hw Hr HA Hf; [lia|].
  destruct f as [|c f].
  { intros [= <- <-] _. rewrite app_nil_r. by apply (renders_end fuel o (m, p)). }
  destruct (readable_at _ _ _ _ (m, p) fmt c f Hw Hr) as (Ec & [Hc _] & Hr1). cbn [fst] in Ec.
  cbn [length] in Hf. cbn [format_loop render]. rewrite Ec. replace (c =? 0) with false by (by zdec).
  destruct (c =? ch "%"); cbn [negb].
  2:{ rendered. apply (renders_after fuel o [c] _ (fmt + 1) f ap args); try done; [|lia].
      by apply emit_char_wrote; [apply (room_cut _ o [c] r)|]. }
  destruct f as [|d f].
  { cbv zeta. rewrite (readable_end _ _ _ _ (m, p) _ Hw Hr1 : m.[fmt + 1] = 0). chars. intros [= <- <-] Hroom.
    destruct fuel as [|fuel]; [cbn in Hf; lia|]. by apply cut_step. }
  cbn [length] in Hf. assert (Hout := readable_outside _ _ _ Hr1).
  destruct (readable_at _ _ _ _ (m, p) _ d f Hw Hr1) as (Ed & Hd & Hr2). cbn [fst] in Ed. cbv zeta. rewrite Ed.
  destruct (Z.eqb_spec d (ch "%")) as [->|_].
  { rendered. apply (renders_after fuel o [ch "%"] _ _ f ap args); try done; [|lia].
    by apply emit_char_wrote; [apply (room_cut _ o [ch "%"] r)|]. }
  unfold convert.
  destruct (Z.eqb_spec d (ch "s")) as [->|_]; chars.
  { destruct (take_str args) as [[l args']|] eqn:Es; [|done]. cbn [mbind option_bind]. rendered.
    destruct (emit_str_arg _ _ _ _ _ _ _ _ _ _ _ (room_cut _ _ _ _ Hroom) Hw HA Es) as (v & ap' & st & -> & HA' & E & Hst).
    cbn [mbind option_bind]. rewrite E. cbn [mbind option_bind].
    apply (renders_after fuel o l st _ f ap' args'); try done. lia. }
  destruct (Z.eqb_spec d (ch "c")) as [->|_]; chars.
  { rendered. apply (number_step fuel o m p _ f ap args z args' r lg (fun m p v => Some (emit_char m p (buf + size) (u8 v)))
      [u8 z] false); try done; [lia|].
    intros Hr3. eexists. split; [done|]. by apply emit_char_wrote. }
  destruct (Z.eqb_spec d (ch "d")) as [->|_]; chars; [apply int_step; try done; lia|].
  destruct (Z.eqb_spec d (ch "i")) as [->|_]; chars; [apply int_step; try done; lia|].
  destruct (Z.eqb_spec d (ch "u")) as [->|_]; chars; [apply uint_step; try done; [lia|auto]|].
  destruct (Z.eqb_spec d (ch "x")) as [->|_]; chars; [apply uint_step; try done; [lia|auto]|].
  destruct (Z.eqb_spec d (ch "l")) as [->|_]; chars.
  { destruct f as [|e f].
    - rewrite (readable_end _ _ _ _ (m, p) _ Hw Hr2 : m.[fmt + 1 + 1] = 0). chars. intros [= <- <-] Hroom.
      destruct fuel as [|fuel]; [cbn in Hf; lia|]. by apply cut_long_step.
    - assert (Hout2 := readable_outside _ _ _ Hr2). cbn [length] in Hf.
      destruct (readable_at _ _ _ _ (m, p) _ e f Hw Hr2) as (Ee & He & Hr3). cbn [fst] in Ee. rewrite Ee.
      apply long_step; try done. lia. }
  destruct (Z.eqb_spec d (ch "p")) as [->|_]; chars; [apply pointer_step; try done; lia|].
  cbn [mbind option_bind]. rendered. apply (unknown_step fuel o m p _ d f ap args r lg); try done. lia.
Qed.
End Format.

(** C33: [vsnprintf] is the text of [render] cut to the buffer, for a buffer
    and a text inside the address space: it returns the length of the whole
    text, a buffer of any size above 0 holds what fits of it and the
    terminator, and no byte outside the buffer is written.  A text with a
    decimal of 17 digits or more, which [%lu] and [%ld] can ask for, is the
    exception: the code writes past the end of [tmp]. *)
Theorem vsnprintf_correct fuel n m buf size fmt f ap args out long :
  cstr m fmt f -> fmt <> 0 -> 0 <= buf -> 0 <= size -> buf + size < 2 ^ 64 -> apart buf size fmt (Z.of_nat (length f) + 1) ->
  Forall2 (arg_at m buf size n) ap args -> (length f < fuel)%nat ->
  render f args = Some (out, long) -> Z.of_nat (length out) < 2 ^ 31 -> buf + Z.of_nat (length out) < 2 ^ 64 ->
  if long then vsnprintf fuel n m buf size fmt ap = None
  else exists m', vsnprintf fuel n m buf size fmt ap = Some (Z.of_nat (length out), m') /\
    (0 < size -> bytes_at m' buf (take (Z.to_nat (size - 1)) out ++ [0])) /\
    forall a, ~ (buf <= a < buf + size) -> m'.[a] = m.[a].
Proof.
  intros Hc Hfmt Hb Hs Hend Hap HA Hf Hr Hlen Htop. unfold vsnprintf. replace (fmt =? 0) with false by (by zdec).
  replace (if size =? 0 then buf else u64 (buf + size)) with (buf + size)
    by (rewrite wrapu_id by lia; case Z.eqb_spec; lia).
  assert (Hw0 : wrote m buf size [] (m, buf)).
  { split; [cbn; lia|]. intros a. cbn. case_decide; [|done]. by rewrite lookup_nil. }
  assert (HE := format_loop_spec m buf size n fuel [] m buf fmt f ap args out long Hw0 (conj Hc Hap) HA Hf Hr (conj Hb Htop)).
  cbn [app] in HE.
  destruct long; [by rewrite HE|]. destruct HE as ([m1 p] & E & Hp & Hm).
  rewrite E. cbn [mbind option_bind fst snd] in *.
  replace (p - buf) with (Z.of_nat (length out)) by lia. rewrite wraps_id, wrapu_id by lia.
  destruct (Z.ltb_spec 0 size) as [Hs0|Hs0].
  2:{ exists m1. split; [done|]. split; [lia|]. intros a Ha. by rewrite Hm, decide_False. }
  set (k := Z.min (size - 1) (Z.of_nat (length out))).
  exists (<[buf + k := 0]> m1). split.
  { unfold k. case Z.leb_spec; intros Hle; do 3 f_equal; rewrite ?wrapu_id; lia. }
  split; [intros _|intros a Ha; rewrite arr_get_insert_ne by (unfold k; lia); by rewrite Hm, decide_False].
  assert (Hk : length (take (Z.to_nat (size - 1)) out) = Z.to_nat k).
  { rewrite length_take. unfold k. lia. }
  apply bytes_at_app. split.
  - apply bytes_at_lookup. intros i x Hi. assert (Hlt := lookup_lt_Some _ _ _ Hi). rewrite Hk in Hlt.
    apply lookup_take_Some in Hi as [Hi _]. rewrite arr_get_insert_ne by lia.
    rewrite Hm, decide_True by (unfold k in *; lia). replace (Z.to_nat (buf + Z.of_nat i - buf)) with i by lia.
    by rewrite Hi.
  - split; [|done]. rewrite Hk, Z2Nat.id by (unfold k; lia). apply arr_get_insert.
Qed.

(** ** Reading numbers back *)

Definition digit_value (c : Z) : Z :=
  if c <? ch "a" then c - ch "0" else c - ch "a" + 10.

Definition parse (base : Z) (l : list Z) : Z := fold_left (fun acc c => acc * base + digit_value c) l 0.

Lemma digit_value_nth d : 0 <= d < 16 -> digit_value (nth (Z.to_nat d) (digits false) 0) = d.
Proof.
  intros Hd. assert (H : forall i, (i < 16)%nat -> digit_value (nth i (digits false) 0) = Z.of_nat i).
  { intros i Hi. do 16 (destruct i as [|i]; [done|]). lia. }
  rewrite H; lia.
Qed.

Lemma numeral_parse F v base : 2 <= base <= 16 -> 0 <= v < 2 ^ Z.of_nat F -> parse base (numeral F v base) = v.
Proof.
  revert v. induction F as [|F IH]; intros v Hb Hv; cbn [numeral]; [cbn in Hv; cbn; lia|].
  destruct (Z.eqb_spec v 0) as [->|Hv0]; [done|]. unfold parse in *. rewrite fold_left_app. cbn [fold_left].
  assert (Hm := Z.mod_pos_bound v base ltac:(lia)). rewrite digit_value_nth by lia. rewrite IH; [|done|].
  - pose proof (Z.div_mod v base ltac:(lia)). lia.
  - split; [apply Z.div_pos; lia|]. apply Z.div_lt_upper_bound; [lia|].
    replace (Z.of_nat (S F)) with (Z.succ (Z.of_nat F)) in Hv by lia. rewrite Z.pow_succ_r in Hv by lia. nia.
Qed.

Lemma unum_parse v base : 2 <= base <= 16 -> 0 <= v < 2 ^ 64 -> parse base (unum v base) = v.
Proof. intros Hb Hv. unfold unum. case Z.eqb_spec; [intros ->; vm_compute; reflexivity|intros _]. by apply numeral_parse. Qed.

Lemma numeral_length F v base j :
  2 <= base -> 0 <= v < base ^ Z.of_nat j -> (length (numeral F v base) <= j)%nat.
Proof.
  intros Hb. revert v j. induction F as [|F IH]; intros v j Hv; cbn [numeral]; [cbn; lia|].
  case Z.eqb_spec; intros Hv0; [cbn; lia|]. rewrite length_app. cbn [length].
  destruct j as [|j]; [cbn in Hv; lia|]. enough (length (numeral F (v / base) base) <= j)%nat by lia.
  apply IH. split; [apply Z.div_pos; lia|]. apply Z.div_lt_upper_bound; [lia|].
  rewrite <- Z.pow_succ_r by lia. replace (Z.succ (Z.of_nat j)) with (Z.of_nat (S j)) by lia. lia.
Qed.

Lemma unum_length v base : 2 <= base <= 16 -> 0 <= v < 2 ^ 64 -> v < base ^ TMP_SIZE -> (length (unum v base) <= 16)%nat.
Proof.
  intros Hb Hv Hf. unfold unum. case Z.eqb_spec; intros; [cbn; lia|]. apply numeral_length; [lia|].
  change (Z.of_nat 16) with TMP_SIZE. lia.
Qed.

(** printing a number and reading the digits back gives the number, in
    both bases, whenever the digits fit in the temporary buffer. *)
Theorem emit_ulong_roundtrip m p size v base :
  base = 10 \/ base = 16 -> 0 <= v < 2 ^ 64 -> v < base ^ TMP_SIZE -> 20 <= size -> 0 <= p < 2 ^ 64 - size ->
  exists m' l, emit_ulong m p (p + size) v base false = Some (m', p + Z.of_nat (length l)) /\
    bytes_at m' p l /\ parse base l = v.
Proof.
  intros Hb Hv Hf Hs Hp. assert (Hb' : 2 <= base <= 16) by lia. assert (Hlen := unum_length v base Hb' Hv Hf).
  destruct (emit_ulong_wrote m p size [] m p v base) as ([m' q] & E & Hq & Hm); try lia.
  { unfold room. cbn [app]. lia. }
  { split; [cbn; lia|]. intros a. cbn. case_decide; [|done]. by rewrite lookup_nil. }
  cbn [app fst snd] in *. subst q. exists m', (unum v base). split; [done|]. split; [|by apply unum_parse].
  apply bytes_at_lookup. intros i x Hi. assert (Hlt := lookup_lt_Some _ _ _ Hi).
  rewrite Hm, decide_True by lia. replace (Z.to_nat (p + Z.of_nat i - p)) with i by lia. by rewrite Hi.
Qed.

(** [emit_ulong] writes past the end of [tmp] for every decimal number of
    seventeen digits or more, which [%lu] and [%ld] accept. *)
Theorem emit_ulong_overrun m p end_ v : 10 ^ 16 <= v < 2 ^ 64 -> emit_ulong m p end_ v 10 false = None.
Proof. intros Hv. apply emit_ulong_none; unfold TMP_SIZE; lia. Qed.

(** ** Examples *)

Definition fmt_mem : gmap Z Z := store (store ∅ 100 (str "pid %d: %s %lu")) 200 (str "init").

Lemma fmt_mem_format : cstr fmt_mem 100 (str "pid %d: %s %lu").
Proof. eapply cstr_frame; [|apply (store_cstr ∅); repeat constructor]. intros a Ha. apply store_out. cbn in *. lia. Qed.

Lemma fmt_mem_args size v : 0 <= size <= 64 ->
  Forall2 (arg_at fmt_mem 300 size 20) [-7; 200; v] [AInt (-7); AStr (str "init"); AInt v].
Proof.
  intros Hs. apply Forall2_cons_2; [done|]. apply Forall2_cons_2; [|apply Forall2_cons_2; [done|apply Forall2_nil_2]].
  split; [done|]. split; [split; [apply store_cstr; repeat constructor|right; cbn; lia]|cbn; lia].
Qed.

(** A text that fits, one that is cut, and one with a number too long. *)
Lemma vsnprintf_correct_witness :
  (exists m', vsnprintf 20 20 fmt_mem 300 64 100 [-7; 200; 255] = Some (16, m') /\
    bytes_at m' 300 (str "pid -7: init 255" ++ [0])) /\
  (exists m', vsnprintf 20 20 fmt_mem 300 8 100 [-7; 200; 255] = Some (16, m') /\
    bytes_at m' 300 (str "pid -7:" ++ [0])) /\
  vsnprintf 20 20 fmt_mem 300 64 100 [-7; 200; 10 ^ 17] = None.
Proof.
  assert (H := fun (size v : Z) out long (Hs : 0 <= size <= 64) => vsnprintf_correct 20 20 fmt_mem 300 size 100 _ _ _ out long
    fmt_mem_format ltac:(done) ltac:(lia) (proj1 Hs) ltac:(lia) ltac:(right; cbn; lia) (fmt_mem_args size v Hs) ltac:(cbn; lia)).
  split; [|split].
  - destruct (H 64 255 (str "pid -7: init 255") false) as (m' & E & Hm & _);
      [lia|vm_compute; reflexivity|cbn; lia|cbn; lia|].
    exists m'. split; [exact E|]. apply Hm. lia.
  - destruct (H 8 255 (str "pid -7: init 255") false) as (m' & E & Hm & _);
      [lia|vm_compute; reflexivity|cbn; lia|cbn; lia|].
    exists m'. split; [exact E|]. apply Hm. lia.
  - apply (H 64 (10 ^ 17) (str "pid -7: init 100000000000000000") true);
      [lia|vm_compute; reflexivity|cbn; lia|cbn; lia].
Defined.

Lemma emit_ulong_roundtrip_witness :
  exists m' l, emit_ulong ∅ 100 (100 + 32) 4096 10 false = Some (m', 100 + Z.of_nat (length l)) /\
    bytes_at m' 100 l /\ parse 10 l = 4096.
Proof. apply (emit_ulong_roundtrip ∅ 100 32 4096 10); [by left|lia|vm_compute; reflexivity|lia|lia]. Defined.

Lemma emit_ulong_overrun_witness : emit_ulong ∅ 100 132 (2 ^ 64 - 1) 10 false = None.
Proof. apply emit_ulong_overrun. lia. Defined.
