(* ===== verification/ListHead.v ===== *)
(** * Circular doubly linked lists ([include/linux/list.h])

    The kernel embeds a [list_head] in the objects it queues.  A node is a
    name for the address of such a field ([A], with decidable equality); the
    memory holds the two pointers of every node.  [ring m h l] says that the
    list with head [h] holds the nodes [l] in order. *)
From S2P Require Import Prelude.

Record lists (A : Type) := mkLists { nx : A -> A; pv : A -> A }.
Arguments mkLists {A}.
Arguments nx {A}.
Arguments pv {A}.

Section ListHead.
Context {A : Type} `{EqDecision A}.
Implicit Types (m : lists A) (n h : A) (l : list A).

Definition set_next m n x : lists A := mkLists (<[n := x]> (nx m)) (pv m).
Definition set_prev m n x : lists A := mkLists (nx m) (<[n := x]> (pv m)).

Definition INIT_LIST_HEAD m n : lists A := set_prev (set_next m n n) n n.

Definition __list_add m new prev next : lists A :=
  let m := set_prev m next new in
  let m := set_next m new next in
  let m := set_prev m new prev in
  set_next m prev new.

Definition list_add m new head : lists A := __list_add m new head (nx m head).
Definition list_add_tail m new head : lists A := __list_add m new (pv m head) head.

Definition __list_del m prev next : lists A := set_next (set_prev m next prev) prev next.

Definition list_del_init m entry : lists A :=
  INIT_LIST_HEAD (__list_del m (pv m entry) (nx m entry)) entry.

Definition list_empty m head : bool := bool_decide (nx m head = head).
Definition list_is_linked m entry : bool := negb (bool_decide (nx m entry = entry)).

(** ** Rings *)

(** From [x] through [l] to [h]. *)
Fixpoint links m x l h : Prop :=
  match l with
  | [] => nx m x = h /\ pv m h = x
  | y :: l' => nx m x = y /\ pv m y = x /\ links m y l' h
  end.

Definition ring m h l : Prop := NoDup (h :: l) /\ links m h l h.

Lemma links_app m x l1 y l2 h : links m x (l1 ++ y :: l2) h <-> links m x l1 y /\ links m y l2 h.
Proof.
  revert x. induction l1 as [|z l1 IH]; intros x; cbn; [naive_solver|]. rewrite IH. naive_solver.
Qed.

Lemma links_frame m m' x l h :
  (forall y, y ∈ x :: l -> nx m' y = nx m y) -> (forall y, y ∈ h :: l -> pv m' y = pv m y) ->
  links m x l h -> links m' x l h.
Proof.
  revert x. induction l as [|y l IH]; intros x Hn Hp; cbn.
  - intros [E1 E2]. rewrite Hn, Hp by apply list_elem_of_here. done.
  - intros (E1 & E2 & Hl). rewrite (Hn x), (Hp y) by (rewrite !elem_of_cons; auto). splits; try done.
    apply IH; [|intros z Hz; apply Hp; rewrite !elem_of_cons in *; tauto|done].
    intros z Hz. apply Hn. rewrite !elem_of_cons in *. tauto.
Qed.

Lemma ring_frame m m' h l :
  (forall y, y ∈ h :: l -> nx m' y = nx m y /\ pv m' y = pv m y) -> ring m h l -> ring m' h l.
Proof.
  intros Hf [Hnd Hl]. split; [done|]. eapply links_frame; [..|exact Hl]; intros y Hy; by apply Hf.
Qed.

Lemma ring_single m n : ring m n [] <-> nx m n = n /\ pv m n = n.
Proof. split; [by intros [_ H]|]. intros H. split; [apply NoDup_singleton|done]. Qed.

Lemma ring_init m n : ring (INIT_LIST_HEAD m n) n [].
Proof. apply ring_single. cbn. by rewrite !fn_lookup_insert. Qed.

Lemma links_last m x l h : links m x l h -> pv m h = default x (last l).
Proof.
  revert x. induction l as [|y l IH]; intros x Hl; cbn in Hl; [tauto|].
  destruct Hl as (_ & _ & Hl). rewrite (IH _ Hl), last_cons. by destruct (last l).
Qed.

(** The neighbours of a node. *)
Lemma ring_split m h l1 n l2 :
  ring m h (l1 ++ n :: l2) ->
  nx m n = default h (head l2) /\ pv m n = default h (last l1).
Proof.
  intros [_ Hl]. apply links_app in Hl as [H1 H2]. split.
  - destruct l2; cbn in *; tauto.
  - by apply links_last.
Qed.

Lemma ring_head m h l : ring m h l -> nx m h = default h (head l) /\ pv m h = default h (last l).
Proof.
  intros [_ Hl]. split; [by destruct l; cbn in *; tauto|]. by apply links_last.
Qed.

Lemma ring_empty m h l : ring m h l -> list_empty m h = bool_decide (l = []).
Proof.
  intros Hr. unfold list_empty. rewrite (proj1 (ring_head _ _ _ Hr)). destruct Hr as [Hnd _].
  apply bool_decide_ext. destruct l as [|x l]; cbn; [done|]. apply NoDup_cons in Hnd as [Hn _].
  split; [|done]. intros ->. set_solver.
Qed.

Lemma ring_linked m h l n : ring m h l -> n ∈ l -> list_is_linked m n = true.
Proof.
  intros Hr Hn. apply list_elem_of_split in Hn as (l1 & l2 & ->).
  unfold list_is_linked. rewrite (proj1 (ring_split _ _ _ _ _ Hr)). destruct Hr as [Hnd _].
  rewrite bool_decide_false; [done|]. intros E. apply NoDup_cons in Hnd as [Hh Hnd].
  apply NoDup_app in Hnd as (_ & _ & Hnd). apply NoDup_cons in Hnd as [Hn _].
  destruct l2 as [|y l2]; cbn in E; subst; set_solver.
Qed.

(** The last link of a chain is redirected. *)
Lemma links_retarget m m' x l q n :
  NoDup (x :: l) -> let p := default x (last l) in
  (forall y, y ∈ x :: l -> y <> p -> nx m' y = nx m y) -> (forall y, y ∈ l -> pv m' y = pv m y) ->
  nx m' p = n -> pv m' n = p -> links m x l q -> links m' x l n.
Proof.
  revert x. induction l as [|y l IH]; intros x Hnd p Hn Hp En Ep; [done|]. cbn [links].
  intros (E1 & E2 & Hl). assert (Hpl : p = default y (last l)).
  { unfold p. rewrite last_cons. by destruct (last l). }
  apply NoDup_cons in Hnd as [Hx Hnd]. splits.
  - rewrite Hn; [done|apply list_elem_of_here|]. intros E. apply Hx. rewrite E, Hpl.
    destruct (last l) as [z|] eqn:El; [|apply list_elem_of_here]. apply last_Some in El as [l' ->].
    cbn. rewrite elem_of_cons, elem_of_app, elem_of_cons. tauto.
  - rewrite Hp; [done|apply list_elem_of_here].
  - apply IH; try done; first [rewrite <- Hpl|idtac]; try done.
    + intros z Hz. apply Hn. by apply list_elem_of_further.
    + intros z Hz. apply Hp. by apply list_elem_of_further.
Qed.

Definition rest_links m l h : Prop := match l with [] => True | z :: l' => links m z l' h end.

Lemma links_restart m m' y l h :
  (forall z, z ∈ l -> nx m' z = nx m z) -> (forall z, z ∈ h :: tail l -> l <> [] -> pv m' z = pv m z) ->
  nx m' y = default h (head l) -> pv m' (default h (head l)) = y -> rest_links m l h -> links m' y l h.
Proof.
  destruct l as [|z l]; intros Hn Hp En Ep; cbn in *; [done|]. intros Hl. splits; try done.
  eapply links_frame; [..|exact Hl]; [done|]. intros w Hw. by apply Hp.
Qed.

Lemma last_elem (x : A) l : default x (last l) ∈ x :: l.
Proof.
  destruct (last l) as [z|] eqn:El; [|apply list_elem_of_here]. apply last_Some in El as [l' ->]. cbn.
  rewrite elem_of_cons, elem_of_app, elem_of_cons. tauto.
Qed.

Lemma head_elem (x : A) l : default x (head l) ∈ x :: l.
Proof. destruct l; cbn; rewrite !elem_of_cons; tauto. Qed.

(** A ring cut at a point. *)
Lemma links_cut m h l1 l2 : links m h (l1 ++ l2) h ->
  links m h l1 (default h (head l2)) /\ rest_links m l2 h.
Proof.
  destruct l2 as [|y l2]; [by rewrite app_nil_r|]. by rewrite links_app.
Qed.

Lemma links_join m h l1 l2 : l2 <> [] ->
  links m h l1 (default h (head l2)) -> rest_links m l2 h -> links m h (l1 ++ l2) h.
Proof. destruct l2 as [|y l2]; [done|]. rewrite links_app. by split. Qed.

Lemma ring_alone m n : ring m n [] -> list_is_linked m n = false.
Proof. intros [E _]%ring_single. unfold list_is_linked. by rewrite E, bool_decide_true. Qed.

(** ** Insertion and removal *)

(** Nothing outside the nodes [l] changed. *)
Definition same_outside m m' l : Prop := forall y, y ∉ l -> nx m' y = nx m y /\ pv m' y = pv m y.

Lemma same_outside_trans m1 m2 m3 l : same_outside m1 m2 l -> same_outside m2 m3 l -> same_outside m1 m3 l.
Proof. intros H1 H2 y Hy. destruct (H1 y Hy) as [<- <-]. by apply H2. Qed.

Lemma ring_outside m m' h l l' :
  same_outside m m' l' -> (forall y, y ∈ h :: l -> y ∉ l') -> ring m h l -> ring m' h l.
Proof. intros Ho Hd. apply ring_frame. intros y Hy. by apply Ho, Hd. Qed.

Lemma ring_add m h l1 l2 n :
  ring m h (l1 ++ l2) -> n ∉ h :: l1 ++ l2 ->
  let m' := __list_add m n (default h (last l1)) (default h (head l2)) in
  ring m' h (l1 ++ n :: l2) /\ same_outside m m' (n :: h :: l1 ++ l2).
Proof.
  intros [Hnd Hl] Hn. set (p := default h (last l1)). set (q := default h (head l2)).
  assert (Hp : p ∈ h :: l1) by apply last_elem. assert (Hq : q ∈ h :: l2) by apply head_elem.
  intros m'. destruct (links_cut _ _ _ _ Hl) as [H1 H2]. rewrite app_comm_cons in Hnd, Hn.
  apply NoDup_app in Hnd as (Hnd1 & Hd & Hnd2).
  assert (Hh : h ∉ l2) by (apply Hd, list_elem_of_here).
  rewrite not_elem_of_app, not_elem_of_cons in Hn. destruct Hn as [[Hnh Hn1] Hn2].
  assert (Hpn : p <> n) by (intros ->; rewrite elem_of_cons in Hp; tauto).
  assert (Hqn : q <> n) by (intros ->; rewrite elem_of_cons in Hq; tauto).
  assert (Enx : forall y, y <> p -> y <> n -> nx m' y = nx m y).
  { intros y ? ?. cbn. by rewrite !fn_lookup_insert_ne. }
  assert (Epv : forall y, y <> q -> y <> n -> pv m' y = pv m y).
  { intros y ? ?. cbn. by rewrite !fn_lookup_insert_ne. }
  splits; [split| ].
  - rewrite app_comm_cons. apply NoDup_app. splits; [done| |apply NoDup_cons; done].
    intros y Hy. rewrite not_elem_of_cons. split; [|by apply Hd].
    intros ->. rewrite elem_of_cons in Hy. tauto.
  - apply links_app. split.
    + apply (links_retarget m m' h l1 q n Hnd1); fold p; try done.
      * intros y Hy Hyp. apply Enx; [done|]. intros ->. rewrite elem_of_cons in Hy. tauto.
      * intros y Hy. apply Epv; [|by intros ->]. intros ->. apply NoDup_cons in Hnd1 as [Hh1 _].
        rewrite elem_of_cons in Hq. destruct Hq as [E|Hq]; [by rewrite E in Hy|].
        apply (Hd q); [by apply list_elem_of_further|done].
      * cbn. by rewrite fn_lookup_insert.
      * cbn. by rewrite fn_lookup_insert.
    + apply (links_restart m m' n l2 h); fold q; try done.
      * intros z Hz. apply Enx; [|by intros ->]. intros ->. by apply (Hd p).
      * intros z Hz Hne. destruct l2 as [|y l2]; [done|]. cbn in Hz, q. apply NoDup_cons in Hnd2 as [Hy _].
        rewrite elem_of_cons in Hz. rewrite not_elem_of_cons in Hh, Hn2. subst q. apply Epv.
        -- intros ->. destruct Hz as [->|Hz]; tauto.
        -- intros ->. destruct Hz as [->|Hz]; tauto.
      * cbn. by rewrite fn_lookup_insert_ne, fn_lookup_insert.
      * cbn. by rewrite fn_lookup_insert_ne, fn_lookup_insert.
  - intros y Hy. rewrite !not_elem_of_cons, not_elem_of_app in Hy. rewrite !elem_of_cons in Hp, Hq.
    split; [apply Enx|apply Epv]; try tauto; intros ->; tauto.
Qed.

Lemma ring_list_add m h l n :
  ring m h l -> n ∉ h :: l ->
  ring (list_add m n h) h (n :: l) /\ same_outside m (list_add m n h) (n :: h :: l).
Proof.
  intros Hr Hn. unfold list_add. rewrite (proj1 (ring_head _ _ _ Hr)). by apply (ring_add m h [] l n).
Qed.

Lemma ring_add_tail m h l n :
  ring m h l -> n ∉ h :: l ->
  ring (list_add_tail m n h) h (l ++ [n]) /\ same_outside m (list_add_tail m n h) (n :: h :: l).
Proof.
  intros Hr Hn. unfold list_add_tail. rewrite (proj2 (ring_head _ _ _ Hr)).
  rewrite <- (app_nil_r l) in Hr, Hn. apply (ring_add m h l [] n) in Hr; [|done]. by rewrite app_nil_r in Hr.
Qed.

Lemma ring_del m h l1 n l2 :
  ring m h (l1 ++ n :: l2) ->
  let m' := list_del_init m n in
  ring m' h (l1 ++ l2) /\ ring m' n [] /\ same_outside m m' (n :: h :: l1 ++ l2).
Proof.
  intros Hr m'. destruct (ring_split _ _ _ _ _ Hr) as [Eq Ep]. destruct Hr as [Hnd Hl].
  set (p := default h (last l1)) in *. set (q := default h (head l2)) in *.
  assert (Hp : p ∈ h :: l1) by apply last_elem. assert (Hq : q ∈ h :: l2) by apply head_elem.
  apply links_app in Hl as [H1 H2]. rewrite app_comm_cons in Hnd.
  apply NoDup_app in Hnd as (Hnd1 & Hd & Hnd2). apply NoDup_cons in Hnd2 as [Hn2 Hnd2].
  assert (Hd' : forall y, y ∈ h :: l1 -> y <> n /\ y ∉ l2).
  { intros y Hy. apply Hd in Hy. by rewrite not_elem_of_cons in Hy. }
  destruct (Hd' h (list_elem_of_here _ _)) as [Hhn Hh2]. destruct (Hd' p Hp) as [Hpn Hp2].
  assert (Hqn : q <> n) by (intros ->; rewrite elem_of_cons in Hq; destruct Hq; congruence).
  assert (Enx : forall y, y <> p -> y <> n -> nx m' y = nx m y).
  { intros y ? ?. unfold m', list_del_init. rewrite Ep, Eq. cbn. by rewrite !fn_lookup_insert_ne. }
  assert (Epv : forall y, y <> q -> y <> n -> pv m' y = pv m y).
  { intros y ? ?. unfold m', list_del_init. rewrite Ep, Eq. cbn. by rewrite !fn_lookup_insert_ne. }
  assert (Enp : nx m' p = q).
  { unfold m', list_del_init. rewrite Ep, Eq. cbn. by rewrite fn_lookup_insert_ne, fn_lookup_insert. }
  assert (Epq : pv m' q = p).
  { unfold m', list_del_init. rewrite Ep, Eq. cbn. by rewrite fn_lookup_insert_ne, fn_lookup_insert. }
  assert (H1' : links m' h l1 q).
  { apply (links_retarget m m' h l1 n q Hnd1); fold p; try done.
    - intros y Hy Hyp. apply Enx; [done|]. by apply Hd'.
    - intros y Hy. destruct (Hd' y ltac:(by apply list_elem_of_further)) as [Hy1 Hy2]. apply Epv; [|done].
      intros ->. apply NoDup_cons in Hnd1 as [Hh1 _]. rewrite elem_of_cons in Hq.
      destruct Hq as [E|Hq]; [by rewrite E in Hy|done]. }
  splits; [split| |].
  - rewrite app_comm_cons. apply NoDup_app. splits; try done. intros y Hy. by apply Hd'.
  - destruct l2 as [|y l2]; [by rewrite app_nil_r|]. apply links_app. cbn in q. split; [done|].
    cbn in H2. destruct H2 as (_ & _ & H2). apply NoDup_cons in Hnd2 as [Hy2 _].
    rewrite not_elem_of_cons in Hn2, Hh2. apply (links_frame m); [..|done]; intros z Hz.
    + apply Enx; [|intros ->; rewrite elem_of_cons in Hz; tauto]. by intros ->.
    + apply Epv; intros ->; rewrite elem_of_cons in Hz; subst q; [|destruct Hz as [->|]; tauto].
      destruct Hz as [->|]; tauto.
  - apply ring_init.
  - intros y Hy. rewrite !not_elem_of_cons, not_elem_of_app in Hy. rewrite !elem_of_cons in Hp, Hq.
    split; [apply Enx|apply Epv]; try tauto; intros ->; tauto.
Qed.
End ListHead.
