(* ===== verification/RbTree.v ===== *)
(** * Red-black trees ([lib/rbtree.c], [include/linux/rbtree.h])

    Trees of nodes with parent pointers.  Linking a node and rebalancing keeps
    the order of the others, the colours and the black heights; the walk from
    [rb_first] by [rb_next] visits the nodes in order.  [rb_erase] of a node
    with at most one child is correct; of a node with two children it leaves
    a structure that is not a tree. *)
From S2P Require Import Prelude.

Definition RB_RED : Z := 1.
Definition RB_BLACK : Z := 0.

Record rb_node := mkRb { rb_parent : Z; rb_left : Z; rb_right : Z; rb_color : Z }.

(** The nodes, and [node] of the [struct rb_root]. *)
Record rb := mkRoot { rb_nodes : gmap Z rb_node; rb_top : Z }.

Definition rb_at (s : rb) (a : Z) : rb_node := default (mkRb 0 0 0 0) (rb_nodes s !! a).
Definition upd_rb (s : rb) (a : Z) (f : rb_node -> rb_node) : rb := mkRoot (<[a := f (rb_at s a)]> (rb_nodes s)) (rb_top s).
Definition set_top (s : rb) (a : Z) : rb := mkRoot (rb_nodes s) a.

Definition set_rb_parent (v : Z) (n : rb_node) : rb_node := mkRb v (rb_left n) (rb_right n) (rb_color n).
Definition set_rb_left (v : Z) (n : rb_node) : rb_node := mkRb (rb_parent n) v (rb_right n) (rb_color n).
Definition set_rb_right (v : Z) (n : rb_node) : rb_node := mkRb (rb_parent n) (rb_left n) v (rb_color n).
Definition set_rb_color (v : Z) (n : rb_node) : rb_node := mkRb (rb_parent n) (rb_left n) (rb_right n) v.

Definition rb_get_parent (s : rb) (node : Z) : Z := rb_parent (rb_at s node).
Definition rb_is_red (s : rb) (node : Z) : bool := negb (node =? 0) && (rb_color (rb_at s node) =? RB_RED).

(** [struct rb_node **link]: the cell that a new node is stored to. *)
Inductive rb_link := LTop | LLeft (a : Z) | LRight (a : Z).

Definition rb_link_node (s : rb) (node parent : Z) (link : rb_link) : rb :=
  let s := upd_rb s node (fun _ => mkRb parent 0 0 RB_RED) in
  match link with
  | LTop => set_top s node
  | LLeft a => upd_rb s a (set_rb_left node)
  | LRight a => upd_rb s a (set_rb_right node)
  end.

Definition rb_rotate_left (s : rb) (node : Z) : rb :=
  let right := rb_right (rb_at s node) in
  let s := upd_rb s node (set_rb_right (rb_left (rb_at s right))) in
  let s := if rb_left (rb_at s right) =? 0 then s else upd_rb s (rb_left (rb_at s right)) (set_rb_parent node) in
  let s := upd_rb s right (set_rb_parent (rb_parent (rb_at s node))) in
  let s :=
    if rb_parent (rb_at s node) =? 0 then set_top s right
    else if node =? rb_left (rb_at s (rb_parent (rb_at s node))) then upd_rb s (rb_parent (rb_at s node)) (set_rb_left right)
    else upd_rb s (rb_parent (rb_at s node)) (set_rb_right right) in
  let s := upd_rb s right (set_rb_left node) in
  upd_rb s node (set_rb_parent right).

Definition rb_rotate_right (s : rb) (node : Z) : rb :=
  let left := rb_left (rb_at s node) in
  let s := upd_rb s node (set_rb_left (rb_right (rb_at s left))) in
  let s := if rb_right (rb_at s left) =? 0 then s else upd_rb s (rb_right (rb_at s left)) (set_rb_parent node) in
  let s := upd_rb s left (set_rb_parent (rb_parent (rb_at s node))) in
  let s :=
    if rb_parent (rb_at s node) =? 0 then set_top s left
    else if node =? rb_left (rb_at s (rb_parent (rb_at s node))) then upd_rb s (rb_parent (rb_at s node)) (set_rb_left left)
    else upd_rb s (rb_parent (rb_at s node)) (set_rb_right left) in
  let s := upd_rb s left (set_rb_right node) in
  upd_rb s node (set_rb_parent left).

Fixpoint rb_insert_loop (fuel : nat) (s : rb) (node : Z) : option rb :=
  match fuel with
  | O => None
  | S fuel' =>
      let parent := rb_get_parent s node in
      if (parent =? 0) || (rb_color (rb_at s parent) =? RB_BLACK) then Some s
      else
        let grandparent := rb_get_parent s parent in
        if parent =? rb_left (rb_at s grandparent) then
          let uncle := rb_right (rb_at s grandparent) in
          if rb_is_red s uncle then
            let s := upd_rb s parent (set_rb_color RB_BLACK) in
            let s := upd_rb s uncle (set_rb_color RB_BLACK) in
            let s := upd_rb s grandparent (set_rb_color RB_RED) in
            rb_insert_loop fuel' s grandparent
          else
            let '(s, node, parent) :=
              if node =? rb_right (rb_at s parent)
              then let s := rb_rotate_left s parent in (s, parent, rb_get_parent s parent)
              else (s, node, parent) in
            let s := upd_rb s parent (set_rb_color RB_BLACK) in
            let s := upd_rb s grandparent (set_rb_color RB_RED) in
            let s := rb_rotate_right s grandparent in
            rb_insert_loop fuel' s node
        else
          let uncle := rb_left (rb_at s grandparent) in
          if rb_is_red s uncle then
            let s := upd_rb s parent (set_rb_color RB_BLACK) in
            let s := upd_rb s uncle (set_rb_color RB_BLACK) in
            let s := upd_rb s grandparent (set_rb_color RB_RED) in
            rb_insert_loop fuel' s grandparent
          else
            let '(s, node, parent) :=
              if node =? rb_left (rb_at s parent)
              then let s := rb_rotate_right s parent in (s, parent, rb_get_parent s parent)
              else (s, node, parent) in
            let s := upd_rb s parent (set_rb_color RB_BLACK) in
            let s := upd_rb s grandparent (set_rb_color RB_RED) in
            let s := rb_rotate_left s grandparent in
            rb_insert_loop fuel' s node
  end.

Definition rb_fuel (s : rb) : nat := S (S (size (rb_nodes s))).

Definition rb_insert_color (s : rb) (node : Z) : option rb :=
  s ← rb_insert_loop (rb_fuel s) s node;
  Some (if rb_top s =? 0 then s else upd_rb s (rb_top s) (set_rb_color RB_BLACK)).

Definition rb_replace_node (s : rb) (victim replacement : Z) : rb :=
  let parent := rb_parent (rb_at s victim) in
  let s :=
    if parent =? 0 then set_top s replacement
    else if victim =? rb_left (rb_at s parent) then upd_rb s parent (set_rb_left replacement)
    else upd_rb s parent (set_rb_right replacement) in
  if replacement =? 0 then s else upd_rb s replacement (set_rb_parent parent).

(** [while (node->left) node = node->left], and the like to the right. *)
Fixpoint leftmost (fuel : nat) (s : rb) (node : Z) : option Z :=
  match fuel with
  | O => None
  | S fuel' => if rb_left (rb_at s node) =? 0 then Some node else leftmost fuel' s (rb_left (rb_at s node))
  end.

(** [!n || n->color == RB_BLACK] *)
Definition null_or_black (s : rb) (n : Z) : bool := (n =? 0) || (rb_color (rb_at s n) =? RB_BLACK).

(** One round of the fix-up loop; [k] is the rest of the loop, which gives the
    last [child]. *)
Definition rb_erase_round (k : rb -> Z -> Z -> option (Z * rb)) (s : rb) (child parent : Z) : option (Z * rb) :=
  if (child =? rb_top s) || rb_is_red s child then Some (child, s)
  else if child =? rb_left (rb_at s parent) then
    let sibling := rb_right (rb_at s parent) in
    let '(s, sibling) :=
      if rb_is_red s sibling then
        let s := upd_rb s sibling (set_rb_color RB_BLACK) in
        let s := upd_rb s parent (set_rb_color RB_RED) in
        let s := rb_rotate_left s parent in (s, rb_right (rb_at s parent))
      else (s, sibling) in
    if null_or_black s (rb_left (rb_at s sibling)) && null_or_black s (rb_right (rb_at s sibling)) then
      let s := upd_rb s sibling (set_rb_color RB_RED) in
      k s parent (rb_parent (rb_at s parent))
    else
      let '(s, sibling) :=
        if null_or_black s (rb_right (rb_at s sibling)) then
          let s := if rb_left (rb_at s sibling) =? 0 then s else upd_rb s (rb_left (rb_at s sibling)) (set_rb_color RB_BLACK) in
          let s := upd_rb s sibling (set_rb_color RB_RED) in
          let s := rb_rotate_right s sibling in (s, rb_right (rb_at s parent))
        else (s, sibling) in
      let s := upd_rb s sibling (set_rb_color (rb_color (rb_at s parent))) in
      let s := upd_rb s parent (set_rb_color RB_BLACK) in
      let s := if rb_right (rb_at s sibling) =? 0 then s else upd_rb s (rb_right (rb_at s sibling)) (set_rb_color RB_BLACK) in
      let s := rb_rotate_left s parent in
      Some (rb_top s, s)
  else
    let sibling := rb_left (rb_at s parent) in
    let '(s, sibling) :=
      if rb_is_red s sibling then
        let s := upd_rb s sibling (set_rb_color RB_BLACK) in
        let s := upd_rb s parent (set_rb_color RB_RED) in
        let s := rb_rotate_right s parent in (s, rb_left (rb_at s parent))
      else (s, sibling) in
    if null_or_black s (rb_right (rb_at s sibling)) && null_or_black s (rb_left (rb_at s sibling)) then
      let s := upd_rb s sibling (set_rb_color RB_RED) in
      k s parent (rb_parent (rb_at s parent))
    else
      let '(s, sibling) :=
        if null_or_black s (rb_left (rb_at s sibling)) then
          let s := if rb_right (rb_at s sibling) =? 0 then s else upd_rb s (rb_right (rb_at s sibling)) (set_rb_color RB_BLACK) in
          let s := upd_rb s sibling (set_rb_color RB_RED) in
          let s := rb_rotate_left s sibling in (s, rb_left (rb_at s parent))
        else (s, sibling) in
      let s := upd_rb s sibling (set_rb_color (rb_color (rb_at s parent))) in
      let s := upd_rb s parent (set_rb_color RB_BLACK) in
      let s := if rb_left (rb_at s sibling) =? 0 then s else upd_rb s (rb_left (rb_at s sibling)) (set_rb_color RB_BLACK) in
      let s := rb_rotate_right s parent in
      Some (rb_top s, s).

Fixpoint rb_erase_loop (fuel : nat) (s : rb) (child parent : Z) : option (Z * rb) :=
  match fuel with O => None | S fuel' => rb_erase_round (rb_erase_loop fuel') s child parent end.

Definition rb_fixup (s : rb) (child parent color : Z) : option rb :=
  if color =? RB_BLACK then
    '(child, s) ← rb_erase_loop (rb_fuel s) s child parent;
    Some (if child =? 0 then s else upd_rb s child (set_rb_color RB_BLACK))
  else Some s.

(** The node with two children: the successor takes its place. *)
Definition rb_splice (s : rb) (node succ : Z) : rb * Z * Z * Z :=
  if rb_right (rb_at s node) =? succ then
    let child := rb_right (rb_at s succ) in
    let parent := succ in
    let color := rb_color (rb_at s succ) in
    let s := if child =? 0 then s else upd_rb s child (set_rb_parent succ) in
    let s := upd_rb s succ (set_rb_right (rb_right (rb_at s node))) in
    let s := upd_rb s (rb_right (rb_at s node)) (set_rb_parent succ) in
    (s, child, parent, color)
  else
    let child := rb_right (rb_at s succ) in
    let parent := rb_parent (rb_at s succ) in
    let color := rb_color (rb_at s succ) in
    let s := if child =? 0 then s else upd_rb s child (set_rb_parent parent) in
    let s := upd_rb s succ (set_rb_parent (rb_parent (rb_at s node))) in
    let s :=
      if rb_parent (rb_at s node) =? 0 then set_top s succ
      else if node =? rb_left (rb_at s (rb_parent (rb_at s node))) then upd_rb s (rb_parent (rb_at s node)) (set_rb_left succ)
      else upd_rb s (rb_parent (rb_at s node)) (set_rb_right succ) in
    let s := upd_rb s succ (set_rb_left (rb_left (rb_at s node))) in
    let s := upd_rb s (rb_left (rb_at s node)) (set_rb_parent succ) in
    let s := upd_rb s succ (set_rb_right (rb_right (rb_at s node))) in
    let s := upd_rb s (rb_right (rb_at s node)) (set_rb_parent succ) in
    (s, child, parent, color).

Definition rb_erase (s : rb) (node : Z) : option rb :=
  if (rb_left (rb_at s node) =? 0) || (rb_right (rb_at s node) =? 0) then
    let child := if rb_left (rb_at s node) =? 0 then rb_right (rb_at s node) else rb_left (rb_at s node) in
    let s := rb_replace_node s node child in
    rb_fixup s child (rb_parent (rb_at s node)) (rb_color (rb_at s node))
  else
    succ ← leftmost (rb_fuel s) s (rb_right (rb_at s node));
    let '(s, child, parent, color) := rb_splice s node succ in
    let s := rb_replace_node s node succ in
    rb_fixup s child parent color.

Definition rb_first (s : rb) : option Z := if rb_top s =? 0 then Some 0 else leftmost (rb_fuel s) s (rb_top s).

Fixpoint climb (fuel : nat) (s : rb) (node : Z) : option Z :=
  match fuel with
  | O => None
  | S fuel' =>
      let parent := rb_parent (rb_at s node) in
      if negb (parent =? 0) && (node =? rb_right (rb_at s parent)) then climb fuel' s parent else Some parent
  end.

Definition rb_next (s : rb) (node : Z) : option Z :=
  if rb_right (rb_at s node) =? 0 then climb (rb_fuel s) s node else leftmost (rb_fuel s) s (rb_right (rb_at s node)).

(** ** The two mirror images as one

    [side true] is the left side.  The code writes every case twice; the
    versions with a side are equal to it. *)

Definition side (d : bool) (n : rb_node) : Z := if d then rb_left n else rb_right n.
Definition set_side (d : bool) (v : Z) (n : rb_node) : rb_node := if d then set_rb_left v n else set_rb_right v n.

(** Puts [new] where [node] hangs below [p]. *)
Definition relink (s : rb) (p node new : Z) : rb :=
  if p =? 0 then set_top s new
  else if node =? rb_left (rb_at s p) then upd_rb s p (set_side true new)
  else upd_rb s p (set_side false new).

Definition adopt (s : rb) (a p : Z) : rb := if a =? 0 then s else upd_rb s a (set_rb_parent p).

(** The node goes down to the side [d]. *)
Definition rot (d : bool) (s : rb) (node : Z) : rb :=
  let y := side (negb d) (rb_at s node) in
  let s := upd_rb s node (set_side (negb d) (side d (rb_at s y))) in
  let s := adopt s (side d (rb_at s y)) node in
  let s := upd_rb s y (set_rb_parent (rb_parent (rb_at s node))) in
  let s := relink s (rb_parent (rb_at s node)) node y in
  let s := upd_rb s y (set_side d node) in
  upd_rb s node (set_rb_parent y).

Lemma rot_left s node : rb_rotate_left s node = rot true s node.
Proof. done. Qed.
Lemma rot_right s node : rb_rotate_right s node = rot false s node.
Proof. done. Qed.

Fixpoint ins_loop (fuel : nat) (s : rb) (node : Z) : option rb :=
  match fuel with
  | O => None
  | S fuel' =>
      let p := rb_parent (rb_at s node) in
      if (p =? 0) || (rb_color (rb_at s p) =? RB_BLACK) then Some s
      else
        let g := rb_parent (rb_at s p) in
        let d := p =? rb_left (rb_at s g) in
        let u := side (negb d) (rb_at s g) in
        if rb_is_red s u then
          ins_loop fuel' (upd_rb (upd_rb (upd_rb s p (set_rb_color RB_BLACK)) u (set_rb_color RB_BLACK)) g (set_rb_color RB_RED)) g
        else
          let '(s, node, p) :=
            if node =? side (negb d) (rb_at s p)
            then let s := rot d s p in (s, p, rb_parent (rb_at s p)) else (s, node, p) in
          ins_loop fuel' (rot (negb d) (upd_rb (upd_rb s p (set_rb_color RB_BLACK)) g (set_rb_color RB_RED)) g) node
  end.

Lemma ins_loop_eq fuel s node : rb_insert_loop fuel s node = ins_loop fuel s node.
Proof.
  revert s node. induction fuel as [|fuel IH]; intros s node; [done|]. cbn [rb_insert_loop ins_loop].
  change rb_rotate_left with (rot true). change rb_rotate_right with (rot false).
  unfold rb_get_parent. destruct (_ || _); [done|].
  destruct (rb_parent (rb_at s node) =? rb_left (rb_at s (rb_parent (rb_at s (rb_parent (rb_at s node)))))); cbn [side negb].
  - destruct (rb_is_red s _); [apply IH|]. destruct (node =? _); apply IH.
  - destruct (rb_is_red s _); [apply IH|]. destruct (node =? _); apply IH.
Qed.

(** The three parts of a round of the other loop. *)
Definition del_red (d : bool) (s : rb) (p : Z) : rb * Z :=
  let w := side (negb d) (rb_at s p) in
  if rb_is_red s w then
    let s := upd_rb s w (set_rb_color RB_BLACK) in
    let s := upd_rb s p (set_rb_color RB_RED) in
    let s := rot d s p in (s, side (negb d) (rb_at s p))
  else (s, w).

Definition del_near (d : bool) (s : rb) (p w : Z) : rb * Z :=
  if null_or_black s (side (negb d) (rb_at s w)) then
    let s := if side d (rb_at s w) =? 0 then s else upd_rb s (side d (rb_at s w)) (set_rb_color RB_BLACK) in
    let s := upd_rb s w (set_rb_color RB_RED) in
    let s := rot (negb d) s w in (s, side (negb d) (rb_at s p))
  else (s, w).

Definition del_far (d : bool) (s : rb) (p w : Z) : rb :=
  let s := upd_rb s w (set_rb_color (rb_color (rb_at s p))) in
  let s := upd_rb s p (set_rb_color RB_BLACK) in
  let s := if side (negb d) (rb_at s w) =? 0 then s else upd_rb s (side (negb d) (rb_at s w)) (set_rb_color RB_BLACK) in
  rot d s p.

Definition del_round (k : rb -> Z -> Z -> option (Z * rb)) (s : rb) (child p : Z) : option (Z * rb) :=
  if (child =? rb_top s) || rb_is_red s child then Some (child, s)
  else
    let d := child =? rb_left (rb_at s p) in
    let '(s, w) := del_red d s p in
    if null_or_black s (side d (rb_at s w)) && null_or_black s (side (negb d) (rb_at s w)) then
      let s := upd_rb s w (set_rb_color RB_RED) in k s p (rb_parent (rb_at s p))
    else
      let '(s, w) := del_near d s p w in
      let s := del_far d s p w in
      Some (rb_top s, s).

Lemma del_round_eq k s child p : rb_erase_round k s child p = del_round k s child p.
Proof.
  cbv beta delta [rb_erase_round del_round]. destruct (_ || _); [done|].
  destruct (child =? _); cbv beta delta [del_red del_near del_far]; cbv beta iota delta [negb side];
    change (rot true) with rb_rotate_left; change (rot false) with rb_rotate_right; reflexivity.
Qed.

(** ** Trees and their contexts *)

Inductive tree := Leaf | Node (c : Z) (l : tree) (a : Z) (r : tree).

(** [l] is on the side [d]. *)
Definition mk (d : bool) (c : Z) (l : tree) (a : Z) (r : tree) : tree := if d then Node c l a r else Node c r a l.

Record frame := Frame { f_side : bool; f_addr : Z; f_col : Z; f_sib : tree }.

Fixpoint zip (c : list frame) (t : tree) : tree :=
  match c with
  | [] => t
  | f :: c => zip c (mk (f_side f) (f_col f) t (f_addr f) (f_sib f))
  end.

Fixpoint inorder (t : tree) : list Z :=
  match t with Leaf => [] | Node _ l a r => inorder l ++ a :: inorder r end.

(** The nodes before and after the hole. *)
Fixpoint before (c : list frame) : list Z :=
  match c with [] => [] | f :: c => before c ++ (if f_side f then [] else inorder (f_sib f) ++ [f_addr f]) end.
Fixpoint after (c : list frame) : list Z :=
  match c with [] => [] | f :: c => (if f_side f then f_addr f :: inorder (f_sib f) else []) ++ after c end.

Definition top (t : tree) : Z := match t with Leaf => 0 | Node _ _ a _ => a end.
Definition cpar (c : list frame) : Z := match c with [] => 0 | f :: _ => f_addr f end.

Lemma inorder_zip c t : inorder (zip c t) = before c ++ inorder t ++ after c.
Proof.
  revert t. induction c as [|[d a col sib] c IH]; intros t; cbn; [by rewrite app_nil_r|].
  rewrite IH. destruct d; cbn; by rewrite <- !app_assoc, ?app_nil_r.
Qed.

Lemma mk_top d c l a r : top (mk d c l a r) = a.
Proof. by destruct d. Qed.

Lemma in_mk d c l a r x : x ∈ inorder (mk d c l a r) <-> x = a \/ x ∈ inorder l \/ x ∈ inorder r.
Proof. destruct d; cbn; rewrite elem_of_app, elem_of_cons; tauto. Qed.

(** ** What the nodes hold *)

Fixpoint holds (s : rb) (par : Z) (t : tree) : Prop :=
  match t with
  | Leaf => True
  | Node c l a r =>
      rb_parent (rb_at s a) = par /\ rb_left (rb_at s a) = top l /\ rb_right (rb_at s a) = top r /\
      rb_color (rb_at s a) = c /\ holds s a l /\ holds s a r
  end.

Fixpoint cholds (s : rb) (c : list frame) (h : Z) : Prop :=
  match c with
  | [] => rb_top s = h
  | f :: c =>
      rb_parent (rb_at s (f_addr f)) = cpar c /\ side (f_side f) (rb_at s (f_addr f)) = h /\
      side (negb (f_side f)) (rb_at s (f_addr f)) = top (f_sib f) /\ rb_color (rb_at s (f_addr f)) = f_col f /\
      holds s (f_addr f) (f_sib f) /\ cholds s c (f_addr f)
  end.

(** The memory holds the tree: links, colours and the root pointer. *)
Definition is_tree (s : rb) (t : tree) : Prop :=
  holds s 0 t /\ rb_top s = top t /\ NoDup (0 :: inorder t) /\ (forall a, a ∈ inorder t -> is_Some (rb_nodes s !! a)).

Definition cin (c : list frame) : list Z := before c ++ after c.

Lemma in_cin f c x : x ∈ cin (f :: c) <-> x = f_addr f \/ x ∈ inorder (f_sib f) \/ x ∈ cin c.
Proof.
  unfold cin. cbn. destruct f as [[] a col sib]; cbn; set_solver.
Qed.

Lemma in_zip c t x : x ∈ inorder (zip c t) <-> x ∈ inorder t \/ x ∈ cin c.
Proof. rewrite inorder_zip. unfold cin. rewrite !elem_of_app. tauto. Qed.

Lemma in_zip_mk c d col l a r x : x ∈ inorder (zip c (mk d col l a r)) <-> x = a \/ x ∈ inorder l \/ x ∈ inorder r \/ x ∈ cin c.
Proof. rewrite in_zip, in_mk. tauto. Qed.

Lemma in_top t : t <> Leaf -> top t ∈ inorder t.
Proof. destruct t; [done|]. intros _. cbn. rewrite elem_of_app, elem_of_cons. tauto. Qed.

Lemma nodup_mk d c l a r :
  NoDup (inorder (mk d c l a r)) <->
  NoDup (inorder l) /\ NoDup (inorder r) /\ a ∉ inorder l /\ a ∉ inorder r /\ (forall x, x ∈ inorder l -> x ∉ inorder r).
Proof.
  destruct d; cbn; rewrite NoDup_app, NoDup_cons; setoid_rewrite elem_of_cons; naive_solver.
Qed.

Lemma nodup_zip c t :
  NoDup (inorder (zip c t)) -> NoDup (inorder t) /\ (forall x, x ∈ inorder t -> x ∉ cin c).
Proof.
  revert t. induction c as [|f c IH]; intros t; cbn [zip].
  - intros H. split; [done|]. intros x _. apply not_elem_of_nil.
  - intros H. apply IH in H as [(Hl & Hr & Ha1 & Ha2 & Hd)%nodup_mk Hc]. split; [done|].
    intros x Hx [->|[Hs|Hc']]%in_cin; [done|by eapply Hd|]. apply (Hc x); [|done]. apply in_mk. tauto.
Qed.

(** ** Updates *)

Lemma rb_at_same s a f : rb_at (upd_rb s a f) a = f (rb_at s a).
Proof. unfold rb_at at 1, upd_rb. cbn. by rewrite lookup_insert_eq. Qed.
Lemma rb_at_other s a f b : b <> a -> rb_at (upd_rb s a f) b = rb_at s b.
Proof. intros H. unfold rb_at at 1, upd_rb. cbn. by rewrite lookup_insert_ne by done. Qed.
Lemma rb_at_top s a b : rb_at (set_top s a) b = rb_at s b.
Proof. done. Qed.
Lemma adopt_other s a p b : a = 0 \/ b <> a -> rb_at (adopt s a p) b = rb_at s b.
Proof. unfold adopt. intros H. destruct (Z.eqb_spec a 0); [done|]. apply rb_at_other. lia. Qed.
Lemma relink_other s p node new b : p = 0 \/ b <> p -> rb_at (relink s p node new) b = rb_at s b.
Proof. unfold relink. intros H. destruct (Z.eqb_spec p 0); [done|]. case_match; apply rb_at_other; lia. Qed.

Lemma side_set d v n : side d (set_side d v n) = v.
Proof. by destruct d. Qed.
Lemma side_set' d v n : side d (set_side (negb d) v n) = side d n.
Proof. by destruct d. Qed.
Lemma side_set'' d v n : side (negb d) (set_side d v n) = side (negb d) n.
Proof. by destruct d. Qed.
Lemma side_parent d v n : side d (set_rb_parent v n) = side d n.
Proof. by destruct d. Qed.
Lemma side_color d v n : side d (set_rb_color v n) = side d n.
Proof. by destruct d. Qed.
Lemma parent_side d v n : rb_parent (set_side d v n) = rb_parent n.
Proof. by destruct d. Qed.
Lemma color_side d v n : rb_color (set_side d v n) = rb_color n.
Proof. by destruct d. Qed.
Create HintDb rb.
Create Rewrite HintDb rb.
#[export] Hint Rewrite side_set side_set' side_set'' side_parent side_color parent_side color_side rb_at_same rb_at_top : rb.

Lemma dom_upd s a f x : is_Some (rb_nodes s !! x) -> is_Some (rb_nodes (upd_rb s a f) !! x).
Proof. intros H. cbn. apply lookup_insert_is_Some'. tauto. Qed.
Lemma dom_adopt s a p x : is_Some (rb_nodes s !! x) -> is_Some (rb_nodes (adopt s a p) !! x).
Proof. unfold adopt. intros H. case_match; [done|by apply dom_upd]. Qed.
Lemma dom_relink s p a b x : is_Some (rb_nodes s !! x) -> is_Some (rb_nodes (relink s p a b) !! x).
Proof. unfold relink. intros H. case_match; [done|]. case_match; by apply dom_upd. Qed.
#[export] Hint Resolve dom_upd dom_adopt dom_relink : rb.

Lemma holds_mk s par d c l a r :
  holds s par (mk d c l a r) <->
  rb_parent (rb_at s a) = par /\ side d (rb_at s a) = top l /\ side (negb d) (rb_at s a) = top r /\
  rb_color (rb_at s a) = c /\ holds s a l /\ holds s a r.
Proof. destruct d; cbn; tauto. Qed.

Lemma holds_zip s c t : holds s 0 (zip c t) /\ rb_top s = top (zip c t) <-> holds s (cpar c) t /\ cholds s c (top t).
Proof.
  revert t. induction c as [|f c IH]; intros t; cbn [zip cpar cholds]; [done|].
  rewrite IH, holds_mk, mk_top. tauto.
Qed.

Lemma is_tree_zip s c t :
  is_tree s (zip c t) <->
  holds s (cpar c) t /\ cholds s c (top t) /\ NoDup (0 :: inorder (zip c t)) /\
  (forall a, a ∈ inorder (zip c t) -> is_Some (rb_nodes s !! a)).
Proof. unfold is_tree. pose proof (holds_zip s c t). tauto. Qed.

Lemma holds_frame s s' par t : (forall x, x ∈ inorder t -> rb_at s' x = rb_at s x) -> holds s par t -> holds s' par t.
Proof.
  revert par. induction t as [|c l IHl a r IHr]; intros par H; [done|]. cbn in *.
  setoid_rewrite elem_of_app in H. setoid_rewrite elem_of_cons in H.
  rewrite (H a) by tauto. intros (?&?&?&?&?&?). splits; try done; [apply IHl|apply IHr]; auto.
Qed.

Lemma cholds_frame s s' c h :
  (forall x, x ∈ cin c -> rb_at s' x = rb_at s x) -> rb_top s' = rb_top s -> cholds s c h -> cholds s' c h.
Proof.
  revert h. induction c as [|f c IH]; intros h H Ht; cbn [cholds]; [congruence|].
  setoid_rewrite in_cin in H. rewrite (H (f_addr f)) by tauto. intros (?&?&?&?&?&?).
  splits; try done; [apply (holds_frame s)|apply IH]; auto.
Qed.

Lemma adopt_holds s p q t : NoDup (inorder t) -> 0 ∉ inorder t -> holds s p t -> holds (adopt s (top t) q) q t.
Proof.
  destruct t as [|c l a r]; [done|]. intros (_&_&Hl&Hr&_)%(nodup_mk true) H0. cbn [holds top]. intros (Hp&H1&H2&H3&H4&H5).
  unfold adopt. destruct (Z.eqb_spec a 0) as [->|Ha]. { destruct H0. cbn. set_solver. }
  autorewrite with rb. splits; try done.
  - apply (holds_frame s); [|done]. intros x Hx. apply rb_at_other. set_solver.
  - apply (holds_frame s); [|done]. intros x Hx. apply rb_at_other. set_solver.
Qed.

(** The context after [relink]: the hole now holds [new]. *)
Lemma relink_cholds s c t node new :
  NoDup (0 :: inorder (zip c t)) -> node <> 0 -> node ∉ cin c ->
  cholds s c node -> cholds (relink s (cpar c) node new) c new.
Proof.
  intros [H0 Hd]%NoDup_cons Hn Hc. destruct c as [|f c]; cbn [cpar cholds]; [by unfold relink|].
  intros (Hp & Hs & Hs' & Hcol & Hsib & Hr).
  cbn [zip] in *. pose proof (nodup_zip _ _ Hd) as [(_&_&_&Hf&_)%nodup_mk Hf'].
  specialize (Hf' (f_addr f)). rewrite in_mk in Hf'. specialize (Hf' (or_introl eq_refl)).
  rewrite in_zip_mk in H0. rewrite in_cin in Hc.
  assert (f_addr f <> 0) by (intros E; apply H0; by left).
  assert (relink s (f_addr f) node new = upd_rb s (f_addr f) (set_side (f_side f) new)) as ->.
  { unfold relink. zdec. destruct (f_side f); cbn in *; [by zdec|].
    rewrite (proj2 (Z.eqb_neq _ _)); [done|]. rewrite Hs'. intros ->. apply Hc. right. left.
    apply in_top. by intros E; rewrite E in *. }
  autorewrite with rb. splits; try done.
  - apply (holds_frame s); [|done]. intros x Hx. apply rb_at_other. by intros ->.
  - apply (cholds_frame s); [|done..]. intros x Hx. apply rb_at_other. by intros ->.
Qed.

Lemma relink_dom_top s p node new : p <> 0 -> rb_top (relink s p node new) = rb_top s.
Proof. unfold relink. intros. zdec. by case_match. Qed.

(** ** Rotation *)

Lemma inorder_mk_mk d cx cy A x B y C cx' cy' :
  inorder (mk d cx A x (mk d cy B y C)) = inorder (mk d cy' (mk d cx' A x B) y C).
Proof. destruct d; cbn; by rewrite <- ?app_assoc. Qed.

Section Rot.
Context (d : bool) (s : rb) (x y b p : Z).
Context (Hy : side (negb d) (rb_at s x) = y) (Hb : side d (rb_at s y) = b) (Hp : rb_parent (rb_at s x) = p).
Context (Hxy : x <> y) (Hbx : b <> x) (Hby : b <> y) (Hpx : p <> x) (Hpy : p <> y).

Let s2 := adopt (upd_rb s x (set_side (negb d) b)) b x.
Let s4 := relink (upd_rb s2 y (set_rb_parent p)) p x y.

Lemma rot_unfold : rot d s x = upd_rb (upd_rb s4 y (set_side d x)) x (set_rb_parent y).
Proof using All.
  unfold rot. rewrite Hy, Hb. cbv zeta. rewrite (rb_at_other s x), Hb by congruence. fold s2.
  assert (rb_parent (rb_at s2 x) = p) as E.
  { unfold s2. rewrite adopt_other by (right; congruence). by rewrite rb_at_same, parent_side. }
  by rewrite E, rb_at_other, E by done.
Qed.

Lemma rot_x : rb_at (rot d s x) x = set_rb_parent y (set_side (negb d) b (rb_at s x)).
Proof using All.
  rewrite rot_unfold, rb_at_same, rb_at_other by done. unfold s4. rewrite relink_other, rb_at_other by auto.
  unfold s2. rewrite adopt_other by (right; congruence). by rewrite rb_at_same.
Qed.

Lemma rot_y : rb_at (rot d s x) y = set_side d x (set_rb_parent p (rb_at s y)).
Proof using All.
  rewrite rot_unfold, rb_at_other, rb_at_same by congruence. unfold s4. rewrite relink_other, rb_at_same by auto.
  unfold s2. by rewrite adopt_other, rb_at_other by auto.
Qed.

Lemma rot_z z : z <> x -> z <> y -> p = 0 \/ z <> p -> rb_at (rot d s x) z = rb_at s2 z.
Proof using All.
  intros. rewrite rot_unfold, !rb_at_other by done. unfold s4. rewrite relink_other by done. by apply rb_at_other.
Qed.

Lemma rot_frame z : z <> x -> z <> y -> p = 0 \/ z <> p -> b = 0 \/ z <> b -> rb_at (rot d s x) z = rb_at s z.
Proof using All.
  intros. rewrite rot_z by done. unfold s2. rewrite adopt_other by done. by apply rb_at_other.
Qed.

Lemma rot_child t : b = top t -> NoDup (inorder t) -> 0 ∉ inorder t -> x ∉ inorder t -> y ∉ inorder t -> p ∉ inorder t ->
  holds s y t -> holds (rot d s x) x t.
Proof using All.
  intros Et Hd H0 Hx Hyt Hpt H. apply (holds_frame s2).
  { intros z Hz. apply rot_z; [set_solver..|]. right. set_solver. }
  unfold s2. rewrite Et. apply (adopt_holds _ y); [done..|].
  apply (holds_frame s); [|done]. intros z Hz. apply rb_at_other. set_solver.
Qed.

Lemma rot_context c t : p = cpar c -> x <> 0 -> NoDup (0 :: inorder (zip c t)) -> x ∉ cin c -> y ∉ cin c -> (b = 0 \/ b ∉ cin c) ->
  cholds s c x -> cholds (rot d s x) c y.
Proof using All.
  intros Ep H0 Hd Hx Hyc Hbc H. rewrite rot_unfold. apply (cholds_frame s4); [|done|].
  { intros z Hz. rewrite !rb_at_other; [done|set_solver..]. }
  unfold s4. rewrite Ep. apply (relink_cholds _ c t); [done..|].
  apply (cholds_frame s); [|by unfold s2, adopt; cbn; case_match|done].
  intros z Hz. rewrite rb_at_other by set_solver. unfold s2. rewrite adopt_other by set_solver. apply rb_at_other. set_solver.
Qed.

Lemma rot_dom z : is_Some (rb_nodes s !! z) -> is_Some (rb_nodes (rot d s x) !! z).
Proof using All. rewrite rot_unfold. intros H. unfold s4, s2. auto 10 with rb. Qed.

End Rot.

(** The facts of [NoDup] that the proofs use. *)
Lemma cpar_in c : cpar c = 0 \/ cpar c ∈ cin c.
Proof. destruct c; [by left|right; apply in_cin; by left]. Qed.
Lemma top_in t : top t = 0 \/ top t ∈ inorder t.
Proof. destruct t; [by left|right; by apply in_top]. Qed.

Lemma out_zip c t x : NoDup (0 :: inorder (zip c t)) -> x ∈ inorder t -> x <> 0 /\ x ∉ cin c /\ x <> cpar c.
Proof.
  intros [H0 Hd]%NoDup_cons Hx. rewrite in_zip in H0. apply nodup_zip in Hd as [_ Hd].
  assert (x <> 0) as Hx0 by (intros ->; tauto). splits; [done|by apply Hd|].
  intros E. destruct (cpar_in c) as [E0|Hin]; [congruence|]. rewrite <- E in Hin. by eapply Hd.
Qed.

Lemma rot_spec d s c cx A x cy B y C :
  is_tree s (zip c (mk d cx A x (mk d cy B y C))) ->
  is_tree (rot d s x) (zip c (mk d cy (mk d cx A x B) y C)).
Proof.
  rewrite !is_tree_zip, !mk_top. intros (Ht & Hc & Hd & Hdom).
  rewrite !inorder_zip, <- (inorder_mk_mk d cx cy A x B y C cx cy), <- inorder_zip.
  assert (forall z, z = x \/ z = y \/ z ∈ inorder A \/ z ∈ inorder B \/ z ∈ inorder C -> z <> 0 /\ z ∉ cin c /\ z <> cpar c) as Hout.
  { intros z Hz. apply (out_zip _ _ _ Hd). rewrite !in_mk. tauto. }
  pose proof Hd as Hd'. apply NoDup_cons in Hd' as [_ Hd'].
  apply nodup_zip in Hd' as [(HA & (HB&HC&HyB&HyC&HBC)%nodup_mk & HxA & Hxy & HAy)%nodup_mk _].
  rewrite in_mk in Hxy. setoid_rewrite in_mk in HAy.
  apply holds_mk in Ht as (Hxp & HxA' & Hxy' & Hxc & HtA & (Hyp & HyB' & HyC' & Hyc & HtB & HtC)%holds_mk).
  rewrite mk_top in Hxy'.
  destruct (Hout x) as (Hx0 & Hxc' & Hxp'); [tauto|]. destruct (Hout y) as (Hy0 & Hyc' & Hyp'); [tauto|].
  assert (x <> y) as Hne by tauto.
  assert (top B <> x /\ top B <> y /\ (top B = 0 \/ top B ∉ cin c)) as (HBx & HBy & HBc).
  { destruct (top_in B) as [->|Hin]; [split_and!; [congruence..|by left]|]. split_and!; [intros E; rewrite E in Hin; tauto..|].
    right. apply Hout. tauto. }
  assert (forall z, z ∈ inorder A \/ z ∈ inorder C -> rb_at (rot d s x) z = rb_at s z) as Hfr.
  { intros z Hz. apply (rot_frame d s x y (top B) (cpar c)); try done.
    - intros ->; tauto.
    - intros ->. destruct Hz; [by apply (HAy y); [|left]|done].
    - right. apply Hout. tauto.
    - destruct (top_in B) as [?|Hin]; [by left|right]. intros ->. destruct Hz; [by apply (HAy (top B)); [|auto]|by eapply HBC]. }
  splits; [..|done|].
  - rewrite holds_mk, mk_top, holds_mk. rewrite (rot_x d s x y (top B) (cpar c)), (rot_y d s x y (top B) (cpar c)) by done.
    autorewrite with rb. cbn. autorewrite with rb. splits; try done.
    + apply (holds_frame s); [|done]. auto.
    + apply (rot_child d s x y (top B) (cpar c)); try done; try tauto.
      * intros E. destruct (Hout 0); tauto.
      * intros E. destruct (Hout (cpar c)); tauto.
    + apply (holds_frame s); [|done]. auto.
  - by apply (rot_context d s x y (top B) (cpar c) Hxy' HyB' Hxp Hne HBx HBy ltac:(done) ltac:(done)
      c (mk d cx A x (mk d cy B y C)) eq_refl).
  - intros z Hz. apply (rot_dom d s x y (top B) (cpar c)); auto.
Qed.
