(* ===== verification/RbBalance.v ===== *)
(** * Insertion into and removal from red-black trees ([lib/rbtree.c])

    The colours and the black heights, the loops of [rb_insert_color] and
    [rb_erase], and the walk in order. *)
From S2P Require Import Prelude RbTree.

Lemma mk_flip d c l a r : mk (negb d) c l a r = mk d c r a l.
Proof. by destruct d. Qed.

(** What the memory holds at a node of the tree. *)
Lemma node_at s c d col l a r :
  is_tree s (zip c (mk d col l a r)) ->
  a <> 0 /\ rb_parent (rb_at s a) = cpar c /\ side d (rb_at s a) = top l /\ side (negb d) (rb_at s a) = top r /\ rb_color (rb_at s a) = col.
Proof.
  intros (Hh & _ & Hd & _)%is_tree_zip. apply holds_mk in Hh as (?&?&?&?&_). splits; try done.
  apply (out_zip _ _ a Hd). apply in_mk. by left.
Qed.

Lemma recolor s c d col col' l a r :
  is_tree s (zip c (mk d col l a r)) -> is_tree (upd_rb s a (set_rb_color col')) (zip c (mk d col' l a r)).
Proof.
  rewrite !is_tree_zip, !mk_top. intros (Hh & Hc & Hd & Hdom).
  assert (inorder (zip c (mk d col' l a r)) = inorder (zip c (mk d col l a r))) as -> by (rewrite !inorder_zip; by destruct d).
  destruct (out_zip _ _ a Hd) as (_ & Hac & _); [apply in_mk; by left|].
  pose proof Hd as [_ [(_&_&Hl&Hr&_)%nodup_mk _]%nodup_zip]%NoDup_cons.
  apply holds_mk in Hh as (?&?&?&?&?&?). splits; [..|done|auto with rb].
  - apply holds_mk. rewrite rb_at_same, !side_color. cbn. splits; try done.
    + apply (holds_frame s); [|done]. intros x Hx. apply rb_at_other. by intros ->.
    + apply (holds_frame s); [|done]. intros x Hx. apply rb_at_other. by intros ->.
  - apply (cholds_frame s); [|done..]. intros x Hx. apply rb_at_other. by intros ->.
Qed.

Lemma is_tree_parts s c t : is_tree s (zip c t) -> holds s (cpar c) t /\ NoDup (inorder t) /\ 0 ∉ inorder t.
Proof.
  intros (Hh & _ & Hd & _)%is_tree_zip. splits; [done|by apply NoDup_cons in Hd as [_ [? _]%nodup_zip]|].
  intros H0. by destruct (out_zip _ _ 0 Hd).
Qed.

Lemma is_tree_top0 s c t : is_tree s (zip c t) -> top t = 0 -> t = Leaf.
Proof.
  intros (_&_&H0)%is_tree_parts E. destruct t as [|cc l a r]; [done|]. cbn in E. subst. destruct H0. by apply (in_top (Node cc l 0 r)).
Qed.

(** ** Colours and black heights *)

Definition red (t : tree) : bool := match t with Leaf => false | Node c _ _ _ => c =? RB_RED end.

(** [n] black nodes on every path, and no red node with a red child. *)
Fixpoint bal (t : tree) (n : nat) : Prop :=
  match t with
  | Leaf => n = O
  | Node c l _ r =>
      (c = RB_RED /\ red l = false /\ red r = false /\ bal l n /\ bal r n) \/
      (c = RB_BLACK /\ exists m, n = S m /\ bal l m /\ bal r m)
  end.

Definition red_black (t : tree) : Prop := red t = false /\ exists n, bal t n.

(** The context of a tree of black height [n]; nothing is said of its colour. *)
Fixpoint cbal (c : list frame) (n : nat) : Prop :=
  match c with
  | [] => True
  | f :: c =>
      bal (f_sib f) n /\
      ((f_col f = RB_RED /\ red (f_sib f) = false /\ (exists g c', c = g :: c' /\ f_col g = RB_BLACK) /\ cbal c n) \/
       (f_col f = RB_BLACK /\ cbal c (S n)))
  end.

Definition black_above (c : list frame) : Prop := exists g c', c = g :: c' /\ f_col g = RB_BLACK.

Lemma bal_mk d c l a r n :
  bal (mk d c l a r) n <->
  (c = RB_RED /\ red l = false /\ red r = false /\ bal l n /\ bal r n) \/
  (c = RB_BLACK /\ exists m, n = S m /\ bal l m /\ bal r m).
Proof. destruct d; cbn; [done|]. naive_solver. Qed.

Lemma red_mk d c l a r : red (mk d c l a r) = (c =? RB_RED).
Proof. by destruct d. Qed.

Lemma bal_zip c t n : cbal c n -> bal t n -> (red t = true -> black_above c) -> red_black (zip c t).
Proof.
  revert t n. induction c as [|f c IH]; intros t n; cbn [zip cbal].
  - intros _ Hb Hr. split; [|by exists n]. destruct (red t); [|done]. by destruct Hr as (?&?&?&_).
  - intros [Hs [(Hc & Hr & Hg & Hcb)|[Hc Hcb]]] Hb Ht.
    + apply (IH _ n); [done| |done]. apply bal_mk. left. splits; try done.
      destruct (red t); [|done]. destruct Ht as (?&?&[= <- <-]&?); [done|]. rewrite Hc in *. done.
    + apply (IH _ (S n)); [done| |]. { apply bal_mk. right. eauto. }
      by rewrite red_mk, Hc.
Qed.

Lemma zip_bal c t : red_black (zip c t) -> exists n, cbal c n /\ bal t n /\ (red t = true -> black_above c).
Proof.
  revert t. induction c as [|f c IH]; intros t; cbn [zip cbal].
  - intros [Hr [n Hn]]. exists n. splits; try done. congruence.
  - intros (n & Hc & Hb & Ha)%IH. rewrite red_mk in Ha. apply bal_mk in Hb as [(E & Hl & Hr & Hbl & Hbr)|(E & m & -> & Hbl & Hbr)].
    + exists n. splits; [done| |done|congruence]. left. splits; try done. apply Ha. by rewrite E.
    + exists m. splits; [done| |done|]. { right. done. } intros _. by exists f, c.
Qed.

Definition blacken (t : tree) : tree := match t with Leaf => Leaf | Node _ l a r => Node RB_BLACK l a r end.

Lemma blacken_id t n : red t = false -> bal t n -> blacken t = t.
Proof. destruct t; [done|]. cbn. intros H [(->&_)|(->&_)]; done. Qed.

Lemma inorder_blacken t : inorder (blacken t) = inorder t.
Proof. by destruct t. Qed.

Lemma is_red_spec s p t : holds s p t -> 0 ∉ inorder t -> rb_is_red s (top t) = red t.
Proof.
  destruct t as [|c l a r]; [done|]. cbn. intros (_&_&_&Hc&_) H0. unfold rb_is_red. rewrite Hc.
  rewrite (proj2 (Z.eqb_neq a 0)); [done|]. intros ->. apply H0. set_solver.
Qed.

(** ** Insertion *)

(** The side of a node below its parent, as the code tests it. *)
Lemma side_test s c d col t a sib x :
  is_tree s (zip c (mk d col t a sib)) -> t <> Leaf -> x = top t -> (x =? rb_left (rb_at s a)) = d.
Proof.
  intros H Ht ->. pose proof (node_at _ _ _ _ _ _ _ H) as (_ & _ & Hs & Hs' & _).
  pose proof (is_tree_parts _ _ _ H) as (_ & (_&_&_&_&Hd)%nodup_mk & H0). rewrite in_mk in H0.
  destruct d; cbn in *; [by rewrite Hs, Z.eqb_refl|]. apply Z.eqb_neq. rewrite Hs'. intros E.
  apply in_top in Ht. destruct (top_in sib) as [E'|Hin]; [rewrite E, E' in Ht; tauto|]. rewrite <- E in Hin. by eapply Hd.
Qed.

Lemma other_test s c d col t a sib x :
  is_tree s (zip c (mk d col t a sib)) -> t <> Leaf -> x = top t -> (x =? side (negb d) (rb_at s a)) = false.
Proof.
  intros H Ht ->. pose proof (node_at _ _ _ _ _ _ _ H) as (_ & _ & Hs & Hs' & _).
  pose proof (is_tree_parts _ _ _ H) as (_ & (_&_&_&_&Hd)%nodup_mk & H0). rewrite in_mk in H0.
  apply Z.eqb_neq. rewrite Hs'. intros E.
  apply in_top in Ht. destruct (top_in sib) as [E'|Hin]; [rewrite E, E' in Ht; tauto|]. rewrite <- E in Hin. by eapply Hd.
Qed.

Lemma mk_node d c l a r : mk d c l a r <> Leaf.
Proof. by destruct d. Qed.

(** Parent and uncle red: the colours move up. *)
Lemma ins_recolor s c d e X p S g ul u ur :
  is_tree s (zip c (mk d RB_BLACK (mk e RB_RED X p S) g (Node RB_RED ul u ur))) ->
  is_tree (upd_rb (upd_rb (upd_rb s p (set_rb_color RB_BLACK)) u (set_rb_color RB_BLACK)) g (set_rb_color RB_RED))
    (zip c (mk d RB_RED (mk e RB_BLACK X p S) g (Node RB_BLACK ul u ur))).
Proof.
  intros H. apply (recolor _ c d RB_BLACK).
  assert (forall t1 t2, mk d RB_BLACK t1 g t2 = mk (negb d) RB_BLACK t2 g t1) as E by (by destruct d).
  rewrite E. apply (recolor _ (Frame (negb d) g RB_BLACK (mk e RB_BLACK X p S) :: c) true RB_RED RB_BLACK ul u ur).
  cbn. rewrite <- E. apply (recolor _ (Frame d g RB_BLACK (Node RB_RED ul u ur) :: c) e RB_RED RB_BLACK X p S). done.
Qed.

(** The node on the inner side: it changes places with its parent. *)
Lemma ins_inner s c d l x r p S g U :
  is_tree s (zip c (mk d RB_BLACK (mk (negb d) RB_RED (mk d RB_RED l x r) p S) g U)) ->
  is_tree (rot d s p) (zip c (mk d RB_BLACK (mk d RB_RED (mk d RB_RED S p l) x r) g U)).
Proof.
  rewrite mk_flip. intros H.
  apply (rot_spec d s (Frame d g RB_BLACK U :: c) RB_RED S p RB_RED l x r). done.
Qed.

(** The node on the outer side: its parent takes the place of the grandparent. *)
Lemma ins_outer s c d X p S g U :
  is_tree s (zip c (mk d RB_BLACK (mk d RB_RED X p S) g U)) ->
  is_tree (rot (negb d) (upd_rb (upd_rb s p (set_rb_color RB_BLACK)) g (set_rb_color RB_RED)) g)
    (zip c (mk d RB_BLACK X p (mk d RB_RED S g U))).
Proof.
  intros H. rewrite <- (mk_flip d RB_BLACK), <- (mk_flip d RB_RED). apply rot_spec. rewrite !mk_flip.
  apply (recolor _ c d RB_BLACK). apply (recolor _ (Frame d g RB_BLACK U :: c) d RB_RED RB_BLACK X p S). done.
Qed.

Lemma ins_done fuel s c col l x r :
  is_tree s (zip c (Node col l x r)) -> c = [] \/ black_above c -> ins_loop (S fuel) s x = Some s.
Proof.
  intros H Hc. cbn. pose proof (node_at s c true col l x r H) as (_ & Hp & _). rewrite Hp.
  destruct Hc as [->|([d a cc sib] & c' & -> & E)]; [done|]. cbn in *.
  pose proof (node_at _ _ _ _ _ _ _ H) as (_ & _ & _ & _ & ->). rewrite E. by rewrite orb_true_r.
Qed.

(** The result of the loop: the order is kept, and the tree is red-black once
    its root is black. *)
Definition ins_result (t : tree) (r : option rb) : Prop :=
  exists s' t', r = Some s' /\ is_tree s' t' /\ inorder t' = inorder t /\ exists n, bal (blacken t') n.

Lemma red_black_result t t' s' : is_tree s' t' -> red_black t' -> inorder t' = inorder t -> ins_result t (Some s').
Proof. intros H [Hr [n Hb]] E. exists s', t'. splits; try done. exists n. by rewrite (blacken_id t' n). Qed.

Lemma inorder_zip_eq c t t' : inorder t = inorder t' -> inorder (zip c t) = inorder (zip c t').
Proof. rewrite !inorder_zip. by intros ->. Qed.

Lemma node_as_mk d c l a r : Node c l a r = mk d c (if d then l else r) a (if d then r else l).
Proof. by destruct d. Qed.

Lemma mk_as_node d c l a r : mk d c l a r = Node c (if d then l else r) a (if d then r else l).
Proof. by destruct d. Qed.

Lemma turn_inorder d l x r p S g U :
  inorder (mk d RB_BLACK (mk d RB_RED (mk d RB_RED S p l) x r) g U) =
  inorder (mk d RB_BLACK (mk (negb d) RB_RED (mk d RB_RED l x r) p S) g U).
Proof. destruct d; cbn; by repeat (rewrite <- app_assoc; cbn). Qed.

(** The first rotation, if any: afterwards the red pair is on the outer side. *)
Lemma ins_turn s c d e l x r p S g U n :
  is_tree s (zip c (mk d RB_BLACK (mk e RB_RED (Node RB_RED l x r) p S) g U)) ->
  red S = false -> red l = false -> red r = false -> bal l n -> bal r n -> bal S n ->
  exists node s1 l' r' p' S',
    (if x =? side (negb d) (rb_at s p) then (rot d s p, p, rb_parent (rb_at (rot d s p) p)) else (s, x, p)) = (s1, node, p') /\
    is_tree s1 (zip c (mk d RB_BLACK (mk d RB_RED (mk d RB_RED l' node r') p' S') g U)) /\
    red l' = false /\ red r' = false /\ red S' = false /\ bal l' n /\ bal r' n /\ bal S' n /\
    inorder (mk d RB_BLACK (mk d RB_RED (mk d RB_RED l' node r') p' S') g U) =
    inorder (mk d RB_BLACK (mk e RB_RED (Node RB_RED l x r) p S) g U).
Proof.
  rewrite (node_as_mk d RB_RED l x r). intros H HS Hl Hr Bl Br BS.
  set (l1 := if d then l else r) in *. set (r1 := if d then r else l) in *.
  assert (red l1 = false /\ red r1 = false /\ bal l1 n /\ bal r1 n) as (?&?&?&?) by (unfold l1, r1; by destruct d).
  destruct (bool_decide_reflect (e = d)) as [->|He].
  - rewrite (other_test s (Frame d g RB_BLACK U :: c) d RB_RED _ p S x H (mk_node _ _ _ _ _)) by (by rewrite mk_top).
    exists x, s, l1, r1, p, S. by splits.
  - assert (e = negb d) as -> by (destruct e, d; done).
    pose proof (node_at s (Frame d g RB_BLACK U :: c) (negb d) RB_RED _ p S H) as (_ & _ & E & _). rewrite E, mk_top, Z.eqb_refl.
    pose proof (ins_inner _ _ _ _ _ _ _ _ _ _ H) as Hi.
    pose proof (node_at (rot d s p) (Frame d x RB_RED r1 :: Frame d g RB_BLACK U :: c) d RB_RED S p l1 Hi) as (_ & Hpp & _). cbn in Hpp.
    rewrite Hpp. exists p, (rot d s p), S, l1, x, r1. splits; try done. apply turn_inorder.
Qed.

Lemma uncle_red s c d t g U : is_tree s (zip c (mk d RB_BLACK t g U)) -> rb_is_red s (side (negb d) (rb_at s g)) = red U.
Proof.
  intros H. pose proof (node_at _ _ _ _ _ _ _ H) as (_ & _ & _ & -> & _).
  pose proof (is_tree_parts s (Frame (negb d) g RB_BLACK t :: c) U) as HU. cbn in HU. rewrite mk_flip in HU.
  destruct (HU H) as (Hh & _ & H0). by apply (is_red_spec _ g).
Qed.

Lemma ins_last fuel s c d X p S g U n :
  is_tree s (zip c (mk d RB_BLACK (mk d RB_RED X p S) g U)) -> red X = true ->
  red S = false -> red U = false -> bal X n -> bal S n -> bal U n -> cbal c (Datatypes.S n) ->
  ins_result (zip c (mk d RB_BLACK (mk d RB_RED X p S) g U))
    (ins_loop (Datatypes.S fuel) (rot (negb d) (upd_rb (upd_rb s p (set_rb_color RB_BLACK)) g (set_rb_color RB_RED)) g) (top X)).
Proof.
  intros H RX RS RU BX BS BU Bc. apply ins_outer in H as H1. destruct X as [|cx l x r]; [done|].
  cbn [top]. rewrite (ins_done _ _ (Frame d p RB_BLACK (mk d RB_RED S g U) :: c) cx l x r); [|done|right; by eexists _, _].
  eapply red_black_result; [done| |].
  - apply (bal_zip _ _ (Datatypes.S n)); [done| |by rewrite red_mk]. apply bal_mk. right. split; [done|].
    exists n. splits; try done. apply bal_mk. by left.
  - apply inorder_zip_eq. destruct d; cbn; by repeat (rewrite <- app_assoc; cbn).
Qed.

Lemma ins_loop_spec fuel c s l x r n :
  is_tree s (zip c (Node RB_RED l x r)) -> red l = false -> red r = false -> bal l n -> bal r n -> cbal c n ->
  (length c < fuel)%nat -> ins_result (zip c (Node RB_RED l x r)) (ins_loop fuel s x).
Proof.
  revert c s l x r n. induction fuel as [fuel IH] using lt_wf_ind. intros c s l x r n H Hl Hr Bl Br Bc Hf.
  destruct fuel as [|fuel]; [lia|].
  assert (bal (Node RB_RED l x r) n) as BX by (left; by splits).
  destruct c as [|[e p pc S] c].
  { rewrite (ins_done _ _ [] RB_RED l x r) by (done || by left). exists s, (Node RB_RED l x r). splits; try done.
    exists (Datatypes.S n). right. split; [done|]. by exists n. }
  pose proof Bc as Bc'. cbn [cbal f_col f_sib] in Bc'. destruct Bc' as [BS [(-> & RS & (g & c' & -> & Eg) & Bc')|[-> Bc']]]; last first.
  { assert (black_above (Frame e p RB_BLACK S :: c)) as Hb by by eexists _, _.
    rewrite (ins_done _ _ _ _ _ _ _ H) by by right. eapply red_black_result; [done| |done]. by apply (bal_zip _ _ n). }
  destruct g as [d g gc U]. cbn [f_col] in Eg. subst gc. cbn [cbal f_sib f_col] in Bc'. destruct Bc' as [BU [[? _]|[_ Bc']]]; [done|].
  pose proof (node_at s (Frame e p RB_RED S :: Frame d g RB_BLACK U :: c') true RB_RED l x r H) as (Hx0 & Hxp & _).
  pose proof (node_at s (Frame d g RB_BLACK U :: c') e RB_RED _ p S H) as (Hp0 & Hpg & _ & _ & Hpc). cbn [zip cpar f_addr f_side f_col f_sib] in *.
  cbn [ins_loop]. rewrite Hxp, Hpc. zdec. change (RB_RED =? RB_BLACK) with false. cbn [orb]. rewrite Hpg.
  rewrite (side_test _ _ _ _ _ _ _ p H (mk_node _ _ _ _ _)) by (by rewrite mk_top).
  rewrite (uncle_red _ _ _ _ _ _ H). destruct (red U) eqn:RU.
  - destruct U as [|cu ul u ur]; [done|]. cbn in RU. apply Z.eqb_eq in RU as ->.
    pose proof (node_at _ _ _ _ _ _ _ H) as (_ & _ & _ & Eu & _). rewrite Eu. cbn [top]. pose proof (ins_recolor _ _ _ _ _ _ _ _ _ _ _ H) as H1.
    destruct BU as [(_ & RUl & RUr & BUl & BUr)|[? _]]; [|done].
    rewrite mk_as_node in H1.
    destruct (IH fuel ltac:(lia) c' _ _ _ _ (Datatypes.S n) H1) as (s2 & t2 & E2 & H2 & Ei2 & B2).
    { by destruct d; rewrite ?red_mk. } { by destruct d; rewrite ?red_mk. }
    { destruct d; [apply bal_mk|cbn]; right; (split; [done|]); exists n; by splits. }
    { destruct d; [cbn|apply bal_mk]; right; (split; [done|]); exists n; by splits. }
    { done. } { cbn in Hf. lia. }
    exists s2, t2. splits; try done. rewrite Ei2, <- mk_as_node. apply inorder_zip_eq. by destruct d, e.
  - destruct (ins_turn _ _ _ _ _ _ _ _ _ _ _ n H) as (node & s1 & l' & r' & p' & S' & -> & H1 & Hl' & Hr' & HS' & Bl' & Br' & BS' & Eio); [done..|].
    destruct fuel as [|fuel]; [cbn in Hf; lia|].
    destruct (ins_last fuel s1 c' d (mk d RB_RED l' node r') p' S' g U n) as (s2 & t2 & E2 & H2 & Ei2 & B2); try done.
    { by rewrite red_mk. } { apply bal_mk. left. by splits. }
    rewrite mk_top in E2. exists s2, t2. splits; try done. rewrite Ei2. by apply inorder_zip_eq.
Qed.

(** The cell below the context, where the caller's search ended. *)
Definition clink (c : list frame) : rb_link :=
  match c with [] => LTop | f :: _ => if f_side f then LLeft (f_addr f) else LRight (f_addr f) end.

Lemma rb_link_spec s c node :
  is_tree s (zip c Leaf) -> node <> 0 -> node ∉ inorder (zip c Leaf) ->
  is_tree (rb_link_node s node (cpar c) (clink c)) (zip c (Node RB_RED Leaf node Leaf)).
Proof.
  rewrite !is_tree_zip, in_zip. intros (_ & Hc & Hd & Hdom) Hn Hin.
  set (s1 := upd_rb s node (fun _ => mkRb (cpar c) 0 0 RB_RED)).
  assert (node <> cpar c) as Hnp by (destruct (cpar_in c) as [->|?]; [done|]; intros ->; tauto).
  assert (cholds s1 c 0) as Hc1.
  { apply (cholds_frame s); [|done..]. intros x Hx. apply rb_at_other. intros ->. tauto. }
  assert (rb_at (rb_link_node s node (cpar c) (clink c)) node = mkRb (cpar c) 0 0 RB_RED) as Enode.
  { unfold rb_link_node, clink. fold s1. destruct c as [|f c]; [|destruct (f_side f)];
      rewrite ?rb_at_other by done; apply rb_at_same. }
  splits.
  - cbn. by rewrite Enode.
  - unfold rb_link_node, clink. fold s1. destruct c as [|f c]; [done|]. cbn [cholds top] in *.
    assert (f_addr f ∉ inorder (f_sib f) /\ f_addr f ∉ cin c) as [Hf1 Hf2].
    { cbn [zip] in Hd. pose proof Hd as [_ [(_&_&_&?&_)%nodup_mk Hf]%nodup_zip]%NoDup_cons. split; [done|]. apply Hf, in_mk. by left. }
    destruct Hc1 as (H1 & H2 & H3 & H4 & H5 & H6).
    assert (forall u, holds (upd_rb s1 (f_addr f) u) (f_addr f) (f_sib f) /\ cholds (upd_rb s1 (f_addr f) u) c (f_addr f)) as Hfr.
    { intros u. split; [apply (holds_frame s1)|apply (cholds_frame s1)]; try done; intros x Hx; apply rb_at_other; by intros ->. }
    destruct (f_side f); cbn [side negb] in *; rewrite !rb_at_same; destruct (Hfr (set_rb_left node)), (Hfr (set_rb_right node)); by splits.
  - rewrite inorder_zip in Hd |- *. cbn in *. apply NoDup_cons in Hd as [H0 Hd]. unfold cin in Hin. rewrite elem_of_app in Hin.
    apply NoDup_cons. split; [set_solver|]. apply NoDup_app in Hd as (?&?&?). apply NoDup_app. splits; [done| |apply NoDup_cons; set_solver].
    set_solver.
  - intros a Ha. assert (is_Some (rb_nodes s1 !! a)) as Ha'.
    { cbn. apply lookup_insert_is_Some'. rewrite in_zip in Ha. cbn in Ha. destruct Ha as [Ha|Ha].
      - apply list_elem_of_singleton in Ha as ->. by left.
      - right. apply Hdom, in_zip. by right. }
    unfold rb_link_node, clink. fold s1. destruct c as [|f c]; [done|]. destruct (f_side f); auto with rb.
Qed.

Lemma depth_zip c t : (length c <= length (inorder (zip c t)))%nat.
Proof.
  rewrite inorder_zip, !length_app. enough (length c <= length (before c) + length (after c))%nat by lia.
  induction c as [|f c IH]; [done|]. cbn. destruct (f_side f); rewrite ?app_nil_r, !length_app; cbn; lia.
Qed.

Lemma fuel_size s t : is_tree s t -> (S (length (inorder t)) < rb_fuel s)%nat.
Proof.
  intros (_ & _ & [_ Hd]%NoDup_cons & Hdom). unfold rb_fuel.
  assert (length (inorder t) <= size (rb_nodes s))%nat; [|lia].
  rewrite <- size_dom, <- (size_list_to_set (C := gset Z)) by done. apply subseteq_size.
  intros a Ha. apply elem_of_dom, Hdom. by apply elem_of_list_to_set in Ha.
Qed.

Lemma fuel_enough s c t : is_tree s (zip c t) -> (S (length c) < rb_fuel s)%nat.
Proof. intros H%fuel_size. pose proof (depth_zip c t). lia. Qed.

Lemma rb_insert_spec s c node :
  is_tree s (zip c Leaf) -> red_black (zip c Leaf) -> node <> 0 -> node ∉ inorder (zip c Leaf) ->
  exists s' t', rb_insert_color (rb_link_node s node (cpar c) (clink c)) node = Some s' /\
    is_tree s' t' /\ red_black t' /\ inorder t' = before c ++ node :: after c.
Proof.
  intros H Hrb Hn Hin. apply (rb_link_spec s c node) in H as H1; [|done..].
  apply zip_bal in Hrb as (n & Bc & -> & _).
  destruct (ins_loop_spec (rb_fuel (rb_link_node s node (cpar c) (clink c))) _ _ _ _ _ O H1) as (s2 & t2 & E2 & H2 & Ei2 & n2 & B2); try done.
  { apply fuel_enough in H1. lia. }
  unfold rb_insert_color. rewrite ins_loop_eq, E2. cbn. pose proof H2 as (Hh & Ht & Hd2 & Hdom2).
  destruct t2 as [|cc l a r]. { rewrite Ei2 in *. rewrite inorder_zip in Ei2. cbn in Ei2. by destruct (before c). }
  rewrite Ht. cbn [top]. rewrite (proj2 (Z.eqb_neq a 0)); last first.
  { intros ->. apply NoDup_cons in Hd2 as [Hd2 _]. apply Hd2. by apply (in_top (Node cc l 0 r)). }
  eexists _, (Node RB_BLACK l a r). split; [done|]. splits.
  - apply (recolor s2 [] true cc RB_BLACK l a r H2).
  - split; [done|]. by exists n2.
  - cbn in *. rewrite Ei2, inorder_zip. done.
Qed.

(** ** Removal *)

(** The same tree seen from the other child. *)
Lemma zip_other d p pc W c t : zip (Frame d p pc W :: c) t = zip (Frame (negb d) p pc t :: c) W.
Proof. cbn. by rewrite mk_flip. Qed.

Lemma blacken_mk d c l a r : blacken (mk d c l a r) = mk d RB_BLACK l a r.
Proof. by destruct d. Qed.

Lemma recolor_top s c t :
  is_tree s (zip c t) -> is_tree (if top t =? 0 then s else upd_rb s (top t) (set_rb_color RB_BLACK)) (zip c (blacken t)).
Proof.
  intros H. destruct (Z.eqb_spec (top t) 0) as [E|E].
  - pose proof (is_tree_top0 _ _ _ H E) as ->. done.
  - destruct t as [|cc l a r]; [done|]. by apply (recolor s c true cc).
Qed.

Lemma null_or_black_spec s c t n : is_tree s (zip c t) -> bal t n -> null_or_black s (top t) = negb (red t).
Proof.
  intros (Hh & _ & H0)%is_tree_parts Hb. destruct t as [|cc l a r]; [done|]. cbn in *. unfold null_or_black.
  destruct Hh as (_&_&_&Hc&_). rewrite Hc, (proj2 (Z.eqb_neq a 0)) by (intros ->; apply H0; by apply (in_top (Node cc l 0 r))).
  destruct Hb as [(->&_)|(->&_)]; done.
Qed.

Lemma bal_S_mk W n d : bal W (S n) -> red W = false -> exists N w F, W = mk d RB_BLACK N w F /\ bal N n /\ bal F n.
Proof.
  destruct W as [|cw l w r]; [done|]. rewrite (node_as_mk d). rewrite bal_mk, red_mk.
  intros [(->&_)|(->&m&[= <-]&Hl&Hr)]; [done|]. intros _.
  by eexists _, w, _.
Qed.

(** The side of the child, as the code tests it: its sibling is not a leaf. *)
Lemma del_side s c d col t a sib :
  is_tree s (zip c (mk d col t a sib)) -> sib <> Leaf -> (top t =? rb_left (rb_at s a)) = d.
Proof.
  intros H Hs. destruct t as [|ct tl ta tr]; [|by apply (side_test _ _ _ _ _ _ _ _ H)].
  pose proof (node_at _ _ _ _ _ _ _ H) as (_ & _ & H1 & H2 & _). destruct d; cbn [side negb mk top] in *; [by rewrite H1|].
  rewrite H2. apply Z.eqb_neq. intros E. apply Hs. apply (is_tree_top0 s (Frame true a col Leaf :: c)); [|done]. done.
Qed.

(** After the first part of a round the sibling is black. *)
Lemma del_red_spec s d p pc W c t n :
  is_tree s (zip (Frame d p pc W :: c) t) -> cbal (Frame d p pc W :: c) (S n) ->
  exists s1 pc1 N w F c1,
    del_red d s p = (s1, w) /\ is_tree s1 (zip (Frame d p pc1 (mk d RB_BLACK N w F) :: c1) t) /\
    cbal (Frame d p pc1 (mk d RB_BLACK N w F) :: c1) (S n) /\ bal N n /\ bal F n /\ (pc1 = RB_RED \/ c1 = c /\ pc1 = RB_BLACK) /\
    inorder (zip (Frame d p pc1 (mk d RB_BLACK N w F) :: c1) t) = inorder (zip (Frame d p pc W :: c) t).
Proof.
  intros H Hb. pose proof (node_at _ _ _ _ _ _ _ H) as (_ & _ & _ & Hw & _). cbn [f_side f_addr f_col f_sib] in *.
  unfold del_red. rewrite Hw. rewrite zip_other in H. pose proof (is_tree_parts _ _ _ H) as (Hh & _ & H0).
  rewrite (is_red_spec _ _ _ Hh H0). rewrite <- zip_other in H. pose proof Hb as Hb'. cbn [cbal f_sib f_col] in Hb. destruct Hb as [BW Hb].
  destruct (red W) eqn:RW.
  - destruct Hb as [(_&?&_)|[-> Bc]]; [congruence|]. destruct W as [|cw wl w wr]; [done|]. cbn in RW. apply Z.eqb_eq in RW as ->.
    rewrite (node_as_mk d) in *. set (N := if d then wl else wr) in *. set (F := if d then wr else wl) in *.
    apply bal_mk in BW as [(_ & RN & RF & BN & BF)|[? _]]; [|done]. rewrite mk_top. cbv zeta.
    assert (is_tree (upd_rb (upd_rb s w (set_rb_color RB_BLACK)) p (set_rb_color RB_RED)) (zip c (mk d RB_RED t p (mk d RB_BLACK N w F)))) as H1.
    { apply (recolor _ c d RB_BLACK). rewrite zip_other in H. rewrite <- (mk_flip d RB_BLACK (mk d RB_BLACK N w F) p t).
      apply (recolor s (Frame (negb d) p RB_BLACK t :: c) d RB_RED). exact H. }
    apply rot_spec in H1. destruct (bal_S_mk N n d BN RN) as (NN & nn & NF & -> & BNN & BNF).
    pose proof (node_at _ (Frame d w RB_BLACK F :: c) _ _ _ _ _ H1) as (_ & _ & _ & -> & _). rewrite mk_top.
    eexists _, RB_RED, NN, nn, NF, (Frame d w RB_BLACK F :: c). splits; try done. { cbn. splits; [done|]. left. splits; try done; [by eexists _, _|]. by right. } { by left. }
    cbn [zip f_side f_addr f_col f_sib]. apply inorder_zip_eq. symmetry. apply inorder_mk_mk.
  - destruct (bal_S_mk W n d BW RW) as (N & w & F & -> & BN & BF). rewrite mk_top.
    exists s, pc, N, w, F, c. splits; try done. destruct Hb as [(->&_)|[-> _]]; auto.
Qed.

(** After the second part the far nephew is red. *)
Lemma del_near_spec s d p pc N w F c t n :
  is_tree s (zip (Frame d p pc (mk d RB_BLACK N w F) :: c) t) -> bal N n -> bal F n -> negb (red N) && negb (red F) = false ->
  exists s1 N' w' F', del_near d s p w = (s1, w') /\ is_tree s1 (zip (Frame d p pc (mk d RB_BLACK N' w' F') :: c) t) /\
    bal N' n /\ bal F' n /\ red F' = true /\ inorder (mk d RB_BLACK N' w' F') = inorder (mk d RB_BLACK N w F).
Proof.
  intros H BN BF Hr. rewrite zip_other in H. set (cw := Frame (negb d) p pc t :: c) in *.
  pose proof (node_at _ _ _ _ _ _ _ H) as (_ & _ & EN & EF & _). unfold del_near. rewrite EN, EF.
  rewrite (null_or_black_spec s (Frame (negb d) w RB_BLACK N :: cw) F n); [|by rewrite <- zip_other|done].
  destruct (red F) eqn:RF; cbn [negb].
  - exists s, N, w, F. splits; try done. by rewrite zip_other.
  - rewrite andb_true_r in Hr. apply negb_false_iff in Hr. destruct N as [|cN nl m nr]; [done|]. cbn in Hr. apply Z.eqb_eq in Hr as ->.
    pose proof (recolor_top s (Frame d w RB_BLACK F :: cw) _ H) as H1. rewrite (node_as_mk d) in *.
    set (N1 := if d then nl else nr) in *. set (N2 := if d then nr else nl) in *. rewrite blacken_mk in H1. cbn [zip f_side f_addr f_col f_sib] in H1.
    apply bal_mk in BN as [(_ & R1 & R2 & B1 & B2)|[? _]]; [|done].
    apply (recolor _ cw d _ RB_RED) in H1. rewrite <- (mk_flip d RB_RED F w), <- (mk_flip d RB_BLACK N2 m N1) in H1.
    apply rot_spec in H1. rewrite !mk_flip in H1. set (s1 := rot (negb d) _ w) in *.
    unfold cw in H1. rewrite <- zip_other in H1.
    pose proof (node_at _ _ _ _ _ _ _ H1) as (_ & _ & _ & E & _). cbn [f_side f_addr f_sib] in E.
    exists s1, N1, m, (mk d RB_RED N2 w F). cbv zeta. rewrite E, mk_top. splits; try done.
    + apply bal_mk. left. by splits.
    + by rewrite red_mk.
    + destruct d; cbn; by repeat (rewrite <- app_assoc; cbn).
Qed.

Lemma del_far_spec s d p pc N w F c t :
  is_tree s (zip (Frame d p pc (mk d RB_BLACK N w F) :: c) t) ->
  is_tree (del_far d s p w) (zip c (mk d pc (mk d RB_BLACK t p N) w (blacken F))).
Proof.
  intros H. pose proof (node_at _ _ _ _ _ _ _ H) as (_ & _ & _ & _ & Ep). cbn [f_addr f_col] in Ep.
  unfold del_far. rewrite Ep. apply rot_spec. rewrite zip_other in H.
  apply (recolor _ _ d RB_BLACK pc) in H. rewrite <- zip_other in H. cbn [zip f_side f_addr f_col f_sib] in H.
  apply (recolor _ _ d pc RB_BLACK) in H.
  change (is_tree (upd_rb (upd_rb s w (set_rb_color pc)) p (set_rb_color RB_BLACK)) (zip (Frame d p RB_BLACK (mk d pc N w F) :: c) t)) in H.
  rewrite zip_other in H. pose proof (node_at _ _ _ _ _ _ _ H) as (_ & _ & _ & EF & _). cbv zeta. rewrite EF.
  rewrite <- (mk_flip d pc) in H.
  apply (recolor_top _ (Frame (negb d) w pc N :: Frame (negb d) p RB_BLACK t :: c) F) in H.
  rewrite zip_other in H. cbn [zip f_side f_addr f_col f_sib] in H. rewrite negb_involutive, mk_flip in H. done.
Qed.

(** The last [child], once it is black. *)
Definition del_result (t : tree) (r : option (Z * rb)) : Prop :=
  exists child s' c' t', r = Some (child, s') /\ is_tree s' (zip c' t') /\ child = top t' /\
    red_black (zip c' (blacken t')) /\ inorder (zip c' t') = inorder t.

Lemma bal_blacken t n : bal t n -> bal (blacken t) (if red t then S n else n).
Proof. destruct t as [|c l a r]; [done|]. cbn. intros [(->&?&?&?&?)|(->&?)]; cbn; right; eauto. Qed.

Lemma red_blacken t : red (blacken t) = false.
Proof. by destruct t. Qed.

Lemma del_stop fuel s c t : is_tree s (zip c t) -> red t = true -> red_black (zip c (blacken t)) ->
  del_result (zip c t) (rb_erase_loop (S fuel) s (top t) (cpar c)).
Proof.
  intros H Hr Hb. pose proof (is_tree_parts _ _ _ H) as (Hh & _ & H0). cbn [rb_erase_loop]. rewrite del_round_eq. unfold del_round.
  rewrite (is_red_spec _ _ _ Hh H0), Hr, orb_true_r. exists (top t), s, c, t. by splits.
Qed.

Lemma top_zip f c t : top (zip (f :: c) t) ∈ cin (f :: c).
Proof.
  revert f t. induction c as [|g c IH]; intros f t; apply in_cin; [left; apply mk_top|]. right. right. apply (IH g).
Qed.

Lemma not_top s f c t : is_tree s (zip (f :: c) t) -> top t <> rb_top s.
Proof.
  intros (_ & Ht & Hd & _) E. rewrite Ht in E. pose proof (top_zip f c t) as Hin. rewrite <- E in Hin.
  destruct t as [|cc l a r].
  - apply NoDup_cons in Hd as [H0 _]. apply H0, in_zip. by right.
  - by destruct (out_zip _ _ a Hd) as (_ & ? & _); [apply (in_top (Node cc l a r))|].
Qed.

Lemma del_result_eq t t' r : inorder t = inorder t' -> del_result t r -> del_result t' r.
Proof. unfold del_result. by intros ->. Qed.

(** A red nephew: the loop ends with one or two rotations. *)
Lemma del_rest s d p pc N w F c t n :
  is_tree s (zip (Frame d p pc (mk d RB_BLACK N w F) :: c) t) -> cbal (Frame d p pc (mk d RB_BLACK N w F) :: c) (S n) ->
  bal t n -> bal N n -> bal F n -> negb (red N) && negb (red F) = false ->
  del_result (zip (Frame d p pc (mk d RB_BLACK N w F) :: c) t)
    (let '(s, w) := del_near d s p w in let s := del_far d s p w in Some (rb_top s, s)).
Proof.
  intros H Bc Bt BN BF Hr.
  destruct (del_near_spec _ _ _ _ _ _ _ _ _ _ H BN BF Hr) as (s1 & N' & w' & F' & -> & H1 & BN' & BF' & RF' & Eio).
  apply del_far_spec in H1. set (s2 := del_far d s1 p w') in *. set (t2 := zip c _) in H1.
  assert (red_black t2) as [R2 [n2 B2]].
  { apply bal_blacken in BF'. rewrite RF' in BF'. cbn [cbal f_sib f_col] in Bc.
    assert (bal (mk d RB_BLACK t p N') (S n)) by (apply bal_mk; right; eauto).
    destruct Bc as [_ [(-> & _ & Hg & Bc)|[-> Bc]]].
    - apply (bal_zip _ _ (S n)); [done| |done]. apply bal_mk. left. splits; try done; [by rewrite red_mk|apply red_blacken].
    - apply (bal_zip _ _ (S (S n))); [done| |by rewrite red_mk]. apply bal_mk. right. eauto. }
  exists (rb_top s2), s2, [], t2. pose proof H1 as (_ & Et & _). splits; try done.
  - cbn [zip]. split; [apply red_blacken|]. apply bal_blacken in B2. eauto.
  - cbn [zip f_side f_addr f_col f_sib]. apply inorder_zip_eq. clear -Eio.
    destruct d; cbn in *; rewrite inorder_blacken; [by rewrite <- app_assoc, <- Eio|]. rewrite <- Eio. by repeat (rewrite <- app_assoc; cbn).
Qed.

Lemma del_loop_spec fuel s c t n :
  is_tree s (zip c t) -> bal t n -> cbal c (S n) -> (length c < fuel)%nat ->
  del_result (zip c t) (rb_erase_loop fuel s (top t) (cpar c)).
Proof.
  revert s c t n. induction fuel as [|fuel IH]; intros s c t n H Bt Bc Hf; [lia|].
  destruct (red t) eqn:Rt.
  { apply del_stop; [done..|]. apply bal_blacken in Bt. rewrite Rt in Bt. apply (bal_zip _ _ (S n)); [done..|]. by rewrite red_blacken. }
  destruct c as [|[d p pc W] c].
  { cbn [rb_erase_loop]. rewrite del_round_eq. unfold del_round. destruct H as (Hh & Ht & Hd) eqn:EH. rewrite Ht. cbn [zip]. rewrite Z.eqb_refl.
    exists (top t), s, [], t. splits; try done. split; [apply red_blacken|]. apply bal_blacken in Bt. by eexists. }
  cbn [rb_erase_loop]. rewrite del_round_eq. unfold del_round.
  pose proof (is_tree_parts _ _ _ H) as (Hh & _ & H0). rewrite (is_red_spec _ _ _ Hh H0), Rt.
  rewrite (proj2 (Z.eqb_neq _ _) (not_top _ _ _ _ H)). cbn [orb cpar f_addr].
  rewrite (del_side s c d pc t p W H) by (intros ->; by destruct Bc).
  destruct (del_red_spec _ _ _ _ _ _ _ _ H Bc) as (s1 & pc1 & N & w & F & c1 & -> & H1 & Bc1 & BN & BF & Hpc & Eio).
  apply (del_result_eq _ _ _ Eio). clear Eio Bc H Hh.
  pose proof H1 as Hw. rewrite zip_other in Hw. pose proof (node_at _ _ _ _ _ _ _ Hw) as (_ & _ & EN & EF & _). rewrite EN, EF.
  rewrite (null_or_black_spec s1 (Frame d w RB_BLACK F :: Frame (negb d) p pc1 t :: c1) N n Hw BN).
  rewrite (null_or_black_spec s1 (Frame (negb d) w RB_BLACK N :: Frame (negb d) p pc1 t :: c1) F n) by (done || by rewrite <- zip_other).
  destruct (negb (red N) && negb (red F)) eqn:Hr; [|by apply (del_rest _ _ _ _ _ _ _ _ _ n)].
  apply andb_true_iff in Hr as [RN%negb_true_iff RF%negb_true_iff].
  apply (recolor _ _ _ _ RB_RED) in Hw. rewrite <- zip_other in Hw. cbv zeta. set (s2 := upd_rb s1 w _) in *.
  pose proof (node_at _ _ _ _ _ _ _ Hw) as (_ & Ep & _). cbn [zip f_side f_addr f_col f_sib] in Hw, Ep |- *. rewrite Ep.
  assert (bal (mk d RB_RED N w F) n) as BW by (apply bal_mk; left; by splits).
  set (t1 := mk d pc1 t p (mk d RB_RED N w F)) in *. assert (top t1 = p) as Et by apply mk_top.
  apply (del_result_eq (zip c1 t1)). { apply inorder_zip_eq. by destruct d. }
  rewrite <- Et.
  cbn [cbal f_sib f_col] in Bc1. destruct Bc1 as [_ [(-> & _ & _ & Bc1)|[-> Bc1]]].
  - destruct fuel as [|fuel]; [cbn in Hf; lia|]. apply del_stop; [done|by unfold t1; rewrite red_mk|].
    apply (bal_zip _ _ (S n)); [done| |by rewrite red_blacken]. unfold t1. rewrite blacken_mk. apply bal_mk. right. eauto.
  - destruct Hpc as [?|[-> _]]; [done|]. apply (IH _ _ _ (S n)); [done| |done|cbn in Hf; lia]. apply bal_mk. right. eauto.
Qed.

Lemma replace_eq s victim new : rb_replace_node s victim new = adopt (relink s (rb_parent (rb_at s victim)) victim new) new (rb_parent (rb_at s victim)).
Proof. done. Qed.

(** The child takes the place of the node. *)
Lemma replace_spec s c col l a r t :
  is_tree s (zip c (Node col l a r)) -> t = l /\ r = Leaf \/ t = r /\ l = Leaf ->
  is_tree (rb_replace_node s a (top t)) (zip c t) /\ rb_at (rb_replace_node s a (top t)) a = rb_at s a.
Proof.
  intros H Ht. pose proof (node_at s c true col l a r H) as (Ha0 & Hp & _). rewrite replace_eq, Hp.
  apply is_tree_zip in H as (Hh & Hc & Hd & Hdom). cbn [top] in Hc.
  destruct (out_zip c _ a Hd) as (_ & Hac & Hap); [by apply (in_top (Node col l a r))|].
  assert (forall x, x ∈ inorder t -> x <> 0 /\ x ∉ cin c /\ x <> cpar c) as Hout.
  { intros x Hx. apply (out_zip c _ x Hd). apply (in_mk true). destruct Ht as [[-> _]|[-> _]]; tauto. }
  pose proof Hd as [Hz [(HNl & HNr & Hal & Har & _)%(nodup_mk true) _]%nodup_zip]%NoDup_cons.
  assert (NoDup (inorder t) /\ a ∉ inorder t /\ holds s a t) as (HNt & Hat & Hht).
  { cbn in Hh. destruct Hh as (_&_&_&_&?&?). by destruct Ht as [[-> _]|[-> _]]. }
  assert (inorder (zip c (Node col l a r)) = before c ++ inorder l ++ a :: inorder r ++ after c) as Eio.
  { rewrite inorder_zip. cbn. by rewrite <- app_assoc. }
  assert (inorder (zip c t) = before c ++ inorder l ++ inorder r ++ after c) as Eio'.
  { rewrite inorder_zip. destruct Ht as [[-> ->]|[-> ->]]; done. }
  set (s1 := relink s (cpar c) a (top t)).
  assert (cholds s1 c (top t)) as Hc1 by (by apply (relink_cholds s c (Node col l a r))).
  split; [|rewrite adopt_other; [apply relink_other; by right|]].
  - apply is_tree_zip. splits.
    + apply (adopt_holds _ a); [done| |]. { intros Hx. by destruct (Hout 0 Hx). }
      apply (holds_frame s); [|done]. intros x Hx. apply relink_other. right. by apply Hout.
    + apply (cholds_frame s1); [|by unfold adopt; case_match|done]. intros x Hx. apply adopt_other.
      destruct (top_in t) as [?|Hin]; [by left|right]. intros ->. by destruct (Hout _ Hin) as (_ & ? & _).
    + rewrite Eio'. rewrite Eio in Hd. eapply sublist_NoDup; [exact Hd|]. apply sublist_skip, sublist_app; [done|]. apply sublist_app; [done|]. by apply sublist_cons.
    + intros x Hx. apply dom_adopt, dom_relink, Hdom. rewrite Eio' in Hx. rewrite Eio. set_solver.
  - destruct (top_in t) as [?|Hin]; [by left|right]. by intros ->.
Qed.

Lemma rb_erase_spec s c col l a r :
  is_tree s (zip c (Node col l a r)) -> red_black (zip c (Node col l a r)) -> l = Leaf \/ r = Leaf ->
  exists s' t', rb_erase s a = Some s' /\ is_tree s' t' /\ red_black t' /\ inorder t' = before c ++ (inorder l ++ inorder r) ++ after c.
Proof.
  intros H Hrb Hlr. pose proof (node_at s c true col l a r H) as (Ha0 & Hp & El & Er & Ec). cbn [side negb] in El, Er.
  assert (exists t, (t = l /\ r = Leaf \/ t = r /\ l = Leaf) /\ inorder t = inorder l ++ inorder r /\
    (if top l =? 0 then top r else top l) = top t) as (t & Ht & Eio & Etop).
  { destruct l as [|cl ll la lr]; [exists r; eauto|]. destruct Hlr as [?| ->]; [done|]. exists (Node cl ll la lr). splits; [auto|by rewrite app_nil_r|].
    cbn [top]. rewrite (proj2 (Z.eqb_neq la 0)); [done|]. intros ->. pose proof (is_tree_parts s (Frame true a col Leaf :: c) _ H) as (_&_&H0).
    apply H0. by apply (in_top (Node cl ll 0 lr)). }
  destruct (replace_spec _ _ _ _ _ _ _ H Ht) as [H1 E1].
  assert (rb_erase s a = rb_fixup (rb_replace_node s a (top t)) (top t) (cpar c) col) as ->.
  { unfold rb_erase. rewrite El, Er, Etop. rewrite E1, Hp, Ec. destruct Hlr as [->| ->]; [done|]. cbn [top]. by rewrite Z.eqb_refl, orb_true_r. }
  set (s1 := rb_replace_node s a (top t)) in *. rewrite <- Eio, <- inorder_zip.
  apply zip_bal in Hrb as (n & Bc & Bn & _). unfold rb_fixup. destruct Bn as [(-> & Rl & Rr & Bl & Br)|(-> & m & -> & Bl & Br)].
  - exists s1, (zip c t). splits; try done. apply (bal_zip _ _ n); [done|by destruct Ht as [[-> _]|[-> _]]|].
    destruct Ht as [[-> _]|[-> _]]; congruence.
  - change (RB_BLACK =? RB_BLACK) with true. cbn iota.
    destruct (del_loop_spec (rb_fuel s1) s1 c t m H1) as (ch & s2 & c2 & t2 & -> & H2 & -> & Hrb2 & Eio2); [by destruct Ht as [[-> _]|[-> _]]|done| |].
    { apply fuel_enough in H1. lia. }
    cbn. eexists _, (zip c2 (blacken t2)). split; [done|]. splits; [by apply recolor_top|done|]. rewrite <- Eio2. apply inorder_zip_eq, inorder_blacken.
Qed.

(** ** The walk in order *)

(** [for (node = rb_first(root); node; node = rb_next(node))] *)
Fixpoint rb_walk (fuel : nat) (s : rb) (node : Z) : option (list Z) :=
  match fuel with
  | O => None
  | S fuel' =>
      if node =? 0 then Some []
      else next ← rb_next s node; rest ← rb_walk fuel' s next; Some (node :: rest)
  end.

Lemma leftmost_spec fuel s c t :
  is_tree s (zip c t) -> t <> Leaf -> (length (inorder t) <= fuel)%nat -> leftmost fuel s (top t) = head (inorder t).
Proof.
  revert c t. induction fuel as [|fuel IH]; intros c t H Ht Hf; destruct t as [|col l a r]; try done.
  { cbn in Hf. rewrite length_app in Hf. cbn in Hf. lia. }
  pose proof (node_at s c true col l a r H) as (_ & _ & El & _). cbn [side] in El. cbn [leftmost top]. rewrite El.
  destruct (Z.eqb_spec (top l) 0) as [E|E].
  - by rewrite (is_tree_top0 s (Frame true a col r :: c) l H E).
  - destruct l as [|cl ll la lr]; [done|]. rewrite (IH (Frame true a col r :: c) (Node cl ll la lr) H); [|done|].
    + cbn. by destruct (inorder ll).
    + cbn in Hf |- *. repeat (rewrite length_app in *; cbn in * ). lia.
Qed.

Lemma climb_spec fuel s c t :
  is_tree s (zip c t) -> t <> Leaf -> (length c < fuel)%nat -> climb fuel s (top t) = Some (hd 0 (after c)).
Proof.
  revert c t. induction fuel as [|fuel IH]; intros c t H Ht Hf; [lia|]. destruct t as [|col l x r]; [done|].
  pose proof (node_at s c true col l x r H) as (_ & Ep & _). cbn [climb top]. rewrite Ep.
  destruct c as [|[d p pc W] c]; [done|].
  pose proof (node_at s c d pc _ p W H) as (Hp0 & _ & Es & _). cbn [cpar f_addr]. zdec.
  destruct d; cbn [side] in Es; cbn [after f_side f_addr f_sib app hd].
  - pose proof (other_test s c true pc (Node col l x r) p W x H) as E. cbn [side negb] in E. by rewrite E.
  - rewrite Es. cbn [top]. rewrite Z.eqb_refl. pose proof (IH c (mk false pc (Node col l x r) p W) H) as IH'.
    rewrite mk_top in IH'. apply IH'; [done|cbn in Hf; lia].
Qed.

Lemma size_enough s t : is_tree s t -> (length (inorder t) <= rb_fuel s)%nat.
Proof. intros H%fuel_size. lia. Qed.

Lemma length_zip c t : (length (inorder t) <= length (inorder (zip c t)))%nat.
Proof. rewrite inorder_zip, !length_app. lia. Qed.

Lemma rb_next_spec s c col l a r :
  is_tree s (zip c (Node col l a r)) -> rb_next s a = Some (hd 0 (inorder r ++ after c)).
Proof.
  intros H. pose proof (node_at s c true col l a r H) as (_ & _ & _ & Er & _). cbn [side negb] in Er. unfold rb_next. rewrite Er.
  pose proof (is_tree_top0 s (Frame false a col l :: c) r H) as Hr0. destruct (Z.eqb_spec (top r) 0) as [E|E].
  - rewrite (Hr0 E). cbn [inorder app]. apply (climb_spec _ s c (Node col l a r) H); [done|]. apply fuel_enough in H. lia.
  - assert (r <> Leaf) as Hr by (by intros ->). rewrite (leftmost_spec _ s (Frame false a col l :: c) r H Hr).
    + apply in_top in Hr. by destruct (inorder r); [apply elem_of_nil in Hr|].
    + pose proof (size_enough _ _ H). pose proof (length_zip (Frame false a col l :: c) r). cbn [zip f_side f_addr f_col f_sib mk] in *. lia.
Qed.

Lemma rb_first_spec s t : is_tree s t -> rb_first s = Some (hd 0 (inorder t)).
Proof.
  intros H. pose proof H as (_ & Et & _). unfold rb_first. rewrite Et. destruct (Z.eqb_spec (top t) 0) as [E|E].
  - by rewrite (is_tree_top0 s [] t H E).
  - assert (t <> Leaf) as Ht by (by intros ->). rewrite (leftmost_spec _ s [] t H Ht) by by apply size_enough.
    apply in_top in Ht. by destruct (inorder t); [apply elem_of_nil in Ht|].
Qed.

(** Every node of the tree has a context. *)
Lemma find_node t a l1 l2 : inorder t = l1 ++ a :: l2 ->
  exists c col l r, t = zip c (Node col l a r) /\ l1 = before c ++ inorder l /\ l2 = inorder r ++ after c.
Proof.
  revert l1 l2. enough (forall c t l1 l2, inorder t = l1 ++ a :: l2 ->
    exists c' col l r, zip c t = zip c' (Node col l a r) /\ before c ++ l1 = before c' ++ inorder l /\ l2 ++ after c = inorder r ++ after c') as Hg.
  { intros l1 l2 E. destruct (Hg [] t l1 l2 E) as (c' & col & l & r & ? & ? & ?). rewrite app_nil_r in *. by exists c', col, l, r. }
  clear t. intros c t. revert c. induction t as [|col l IHl b r IHr]; intros c l1 l2 E; cbn in E; [by destruct l1|].
  apply app_eq_inv in E as [(k & Ek & E)|(k & -> & E)].
  - destruct k as [|x k]; cbn in E.
    + injection E as -> ->. exists c, col, l, r. rewrite app_nil_r in Ek. by rewrite Ek.
    + injection E as <- ->. destruct (IHl (Frame true b col r :: c) l1 k Ek) as (c' & col' & l' & r' & Ez & E1 & E2).
      exists c', col', l', r'. splits; [done| |]; cbn in E1, E2; [by rewrite app_nil_r in E1|]. by rewrite <- app_assoc.
  - destruct k as [|x k]; cbn in E.
    + injection E as <- <-. exists c, col, l, r. by rewrite app_nil_r.
    + injection E as <- E. destruct (IHr (Frame false b col l :: c) k l2 E) as (c' & col' & l' & r' & Ez & E1 & E2).
      exists c', col', l', r'. splits; [done| |done]. cbn in E1. rewrite <- E1, <- !app_assoc. done.
Qed.

Lemma rb_walk_from fuel s t l1 l2 : is_tree s t -> inorder t = l1 ++ l2 -> (length l2 < fuel)%nat -> rb_walk fuel s (hd 0 l2) = Some l2.
Proof.
  intros H. revert fuel l1. induction l2 as [|a l2 IH]; intros [|fuel] l1 E Hf; try (cbn in Hf; lia); [done|].
  destruct (find_node t a l1 l2 E) as (c & col & l & r & -> & E1 & E2).
  pose proof (node_at s c true col l a r H) as (Ha0 & _). cbn [rb_walk hd].
  zdec. rewrite (rb_next_spec _ _ _ _ _ _ H), <- E2. cbn [mbind option_bind].
  rewrite (IH fuel (l1 ++ [a])); [done|by rewrite <- app_assoc|cbn in Hf; lia].
Qed.

(** The whole walk. *)
Definition rb_inorder (s : rb) : option (list Z) := node ← rb_first s; rb_walk (rb_fuel s) s node.

Lemma rb_inorder_spec s t : is_tree s t -> rb_inorder s = Some (inorder t).
Proof.
  intros H. unfold rb_inorder. rewrite (rb_first_spec _ _ H). cbn [mbind option_bind]. apply (rb_walk_from _ s t [] (inorder t) H); [done|].
  pose proof (fuel_size _ _ H). lia.
Qed.

(** ** A node with two children *)

Lemma child_parent s t x d : is_tree s t -> x ∈ inorder t -> side d (rb_at s x) <> 0 -> rb_parent (rb_at s (side d (rb_at s x))) = x.
Proof.
  intros H (l1 & l2 & E)%list_elem_of_split. destruct (find_node _ _ _ _ E) as (c & col & l & r & -> & _ & _).
  rewrite (node_as_mk d) in H. pose proof (node_at _ _ _ _ _ _ _ H) as (_ & _ & Es & _). rewrite Es.
  pose proof (is_tree_parts _ _ _ H) as (Hh & _ & _). apply holds_mk in Hh as (_ & _ & _ & _ & Hl & _).
  destruct (if d then l else r); [by intros []|]. intros _. apply Hl.
Qed.

Lemma left_adopt s a p x : rb_left (rb_at (adopt s a p) x) = rb_left (rb_at s x).
Proof.
  unfold adopt. case_match; [done|]. destruct (decide (x = a)) as [->|?]; [by rewrite rb_at_same|by rewrite rb_at_other].
Qed.
Lemma right_adopt s a p x : rb_right (rb_at (adopt s a p) x) = rb_right (rb_at s x).
Proof.
  unfold adopt. case_match; [done|]. destruct (decide (x = a)) as [->|?]; [by rewrite rb_at_same|by rewrite rb_at_other].
Qed.
Lemma adopt_same s a p : a <> 0 -> rb_at (adopt s a p) a = set_rb_parent p (rb_at s a).
Proof. intros H. unfold adopt. zdec. apply rb_at_same. Qed.
Lemma upd_adopt s a p : a <> 0 -> upd_rb s a (set_rb_parent p) = adopt s a p.
Proof. intros H. unfold adopt. by zdec. Qed.

Lemma before_left cs : Forall (fun f => f_side f = true) cs -> before cs = [].
Proof. induction 1 as [|f cs Hf _ IH]; [done|]. cbn. by rewrite Hf, IH. Qed.

Lemma zip_app c1 c2 t : zip (c1 ++ c2) t = zip c2 (zip c1 t).
Proof. revert t. induction c1 as [|f c1 IH]; intros t; [done|]. cbn. apply IH. Qed.

Lemma left_parent s a p x : rb_left (rb_at (upd_rb s a (set_rb_parent p)) x) = rb_left (rb_at s x).
Proof. destruct (decide (x = a)) as [->|?]; [by rewrite rb_at_same|by rewrite rb_at_other]. Qed.

Section TwoChildren.
Context (s : rb) (c : list frame) (col : Z) (l : tree) (a : Z) (cs : list frame) (b : Z) (rr : tree).
Let r := zip cs (Node RB_RED Leaf b rr).
Context (H : is_tree s (zip c (Node col l a r))) (Hl : l <> Leaf) (Hcs : Forall (fun f => f_side f = true) cs).

Lemma succ_in : b ∈ inorder r.
Proof. unfold r. rewrite in_zip. left. cbn. by left. Qed.

Lemma succ_out : b <> 0 /\ b <> a /\ b <> cpar c /\ a <> 0 /\ a <> cpar c.
Proof using H.
  pose proof succ_in as Hb. pose proof H as (_&_&Hd&_)%is_tree_zip.
  destruct (out_zip _ _ b Hd) as (? & _ & ?); [apply (in_mk true); tauto|].
  destruct (out_zip _ _ a Hd) as (? & _ & ?); [apply (in_mk true); tauto|].
  pose proof (is_tree_parts _ _ _ H) as (_ & (_&_&_&Har&_)%(nodup_mk true) & _). splits; try done. by intros ->.
Qed.

Lemma succ_found : leftmost (rb_fuel s) s (rb_right (rb_at s a)) = Some b.
Proof using H Hcs.
  pose proof (node_at s c true col l a r H) as (_&_&_&Er&_). cbn [side negb] in Er. rewrite Er.
  rewrite (leftmost_spec _ s (Frame false a col l :: c) r H).
  - unfold r. rewrite inorder_zip, before_left by done. done.
  - intros E. pose proof succ_in as Hb. by rewrite E in Hb; apply elem_of_nil in Hb.
  - pose proof (size_enough _ _ H). pose proof (length_zip (Frame false a col l :: c) r). cbn [zip f_side f_addr f_col f_sib mk] in *. lia.
Qed.

Lemma two_children : rb_left (rb_at s a) <> 0 /\ rb_right (rb_at s a) <> 0 /\ rb_color (rb_at s b) = RB_RED /\ rb_parent (rb_at s a) = cpar c /\ top rr <> a /\ top rr <> b.
Proof using H Hl.
  pose proof (node_at s c true col l a r H) as (_&Ep&El&Er&_). cbn [side negb] in El, Er.
  assert (r <> Leaf) as Hr. { intros E. pose proof succ_in as Hb. by rewrite E in Hb; apply elem_of_nil in Hb. }
  assert (is_tree s (zip (cs ++ Frame false a col l :: c) (Node RB_RED Leaf b rr))) as Hb by (rewrite zip_app; exact H).
  pose proof (node_at s _ true _ _ _ _ Hb) as (Hb0&_&_&_&Ec).
  splits; try done.
  - rewrite El. intros E. apply Hl. by apply (is_tree_top0 s (Frame true a col r :: c)).
  - rewrite Er. intros E. apply Hr. by apply (is_tree_top0 s (Frame false a col l :: c)).
  - destruct (top_in rr) as [->|Hin]; [destruct succ_out as (_&_&_&?&_); congruence|]. intros E. rewrite E in Hin.
    pose proof (is_tree_parts _ _ _ H) as (_ & (_&_&_&Har&_)%(nodup_mk true) & _). apply Har. unfold r. rewrite in_zip. left. cbn. by right.
  - destruct (top_in rr) as [->|Hin]; [by intros <-|]. intros E. rewrite E in Hin.
    pose proof (is_tree_parts _ _ _ Hb) as (_ & (_&_&_&Hbr&_)%(nodup_mk true) & _). done.
Qed.

Lemma erase_eq : rb_erase s a = let '(s', child, parent, color) := rb_splice s a b in rb_fixup (rb_replace_node s' a b) child parent color.
Proof using H Hl Hcs.
  destruct two_children as (El & Er & _). unfold rb_erase. zdec. rewrite succ_found. done.
Qed.

(** The right child was the successor: it becomes its own right child. *)
Lemma splice_near : cs = [] -> exists s', rb_erase s a = Some s' /\ rb_right (rb_at s' b) = b /\ rb_parent (rb_at s' b) = cpar c.
Proof using H Hl Hcs.
  intros Ecs. destruct succ_out as (Hb0 & Hba & Hbp & Ha0 & Hap). destruct two_children as (_ & _ & Ec & Ep & Hra & Hrb).
  pose proof (node_at s c true col l a r H) as (_&_&_&Er&_). unfold r in Er. rewrite Ecs in Er. cbn in Er.
  pose proof H as Hb. unfold r in Hb. rewrite Ecs in Hb. pose proof (node_at s (Frame false a col l :: c) true RB_RED Leaf b rr Hb) as (_&_&_&Err&_).
  cbn [side negb] in Err.
  rewrite erase_eq. unfold rb_splice. rewrite Er, Z.eqb_refl, Err, Ec. fold (adopt s (top rr) b). set (s1 := adopt s (top rr) b).
  assert (rb_at s1 a = rb_at s a) as Ea1 by (apply adopt_other; right; congruence). cbv zeta. rewrite Ea1, Er.
  set (s2 := upd_rb s1 b (set_rb_right b)). assert (rb_at s2 a = rb_at s a) as Ea2 by (unfold s2; by rewrite rb_at_other).
  rewrite Ea2, Er. set (s3 := upd_rb s2 b (set_rb_parent b)). eexists. split; [done|].
  assert (rb_at s3 a = rb_at s a) as Ea3 by (unfold s3; by rewrite rb_at_other). rewrite replace_eq, Ea3, Ep, adopt_same by done. cbn.
  rewrite relink_other by auto. split; [|done]. unfold s3, s2. rewrite !rb_at_same. done.
Qed.

(** Otherwise the successor stays the left child of its old parent as well. *)
Lemma splice_far f cs' : cs = f :: cs' ->
  exists s', rb_erase s a = Some s' /\ rb_left (rb_at s' (f_addr f)) = b /\ rb_parent (rb_at s' b) = cpar c /\ f_addr f <> cpar c.
Proof using H Hl Hcs.
  intros Ecs. destruct succ_out as (Hb0 & Hba & Hbp & Ha0 & Hap). destruct two_children as (Hla & Hra0 & Ec & Ep & Hra & Hrb).
  pose proof (node_at s c true col l a r H) as (_&_&El&Er&_). cbn [side negb] in El, Er.
  assert (is_tree s (zip (cs ++ Frame false a col l :: c) (Node RB_RED Leaf b rr))) as Hb by (rewrite zip_app; exact H).
  rewrite Ecs in Hb. pose proof (node_at _ _ _ _ _ _ _ Hb) as (Hf0 & _ & Hf & _). pose proof Hcs as Hs. rewrite Ecs in Hs. apply Forall_cons in Hs as [Hs _].
  rewrite Hs in Hf. cbn [side top] in Hf. set (p := f_addr f) in *.
  assert (p ∈ inorder r) as Hpr by (unfold r; rewrite Ecs, in_zip; right; apply in_cin; by left).
  assert (p <> cpar c) as Hpc. { pose proof H as (_&_&Hd&_)%is_tree_zip. apply (out_zip _ _ p Hd). apply (in_mk true). tauto. }
  assert (p <> b) as Hpb. { pose proof Hb as (_&_&Hd&_)%is_tree_zip. intros E. destruct (out_zip _ _ b Hd) as (_&_&Hx); [by left|]. by apply Hx. }
  assert (rb_right (rb_at s a) <> b) as Hrb'.
  { rewrite Er. unfold r. rewrite Ecs. intros E. pose proof (top_zip f cs' (Node RB_RED Leaf b rr)) as Hin. rewrite E in Hin.
    pose proof (is_tree_parts s (Frame false a col l :: c) r H) as (_ & [_ Hd]%nodup_zip & _). apply (Hd b); [by left|]. by rewrite Ecs. }
  assert (rb_left (rb_at s a) <> a /\ rb_right (rb_at s a) <> a) as [Hla' Hra'].
  { pose proof (is_tree_parts _ _ _ H) as (_ & (_&_&Hal&Har&_)%(nodup_mk true) & _). rewrite El, Er. split.
    - destruct (top_in l) as [E|Hin]; [congruence|]. intros E. by rewrite E in Hin.
    - destruct (top_in r) as [E|Hin]; [congruence|]. intros E. by rewrite E in Hin. }
  pose proof (node_at _ _ true _ _ _ _ Hb) as (_ & _ & _ & Err & _). cbn [side negb] in Err.
  rewrite erase_eq. unfold rb_splice. rewrite (proj2 (Z.eqb_neq _ _) Hrb'), Ec, Err. cbv zeta.
  set (s1 := if top rr =? 0 then s else _). assert (s1 = adopt s (top rr) (rb_parent (rb_at s b))) as E1 by done.
  assert (rb_at s1 a = rb_at s a) as Ea1 by (rewrite E1; apply adopt_other; right; congruence). rewrite Ea1, Ep.
  set (s2 := upd_rb s1 b _). assert (rb_at s2 a = rb_at s a) as Ea2 by (unfold s2; by rewrite rb_at_other). rewrite Ea2, Ep.
  set (s3 := if cpar c =? 0 then _ else _). assert (s3 = relink s2 (cpar c) a b) as E3 by done.
  assert (rb_at s3 a = rb_at s a) as Ea3 by (rewrite E3; rewrite relink_other; auto). rewrite Ea3.
  set (s4 := upd_rb s3 b _). assert (rb_at s4 a = rb_at s a) as Ea4 by (unfold s4; by rewrite rb_at_other). rewrite Ea4.
  set (s5 := upd_rb s4 (rb_left (rb_at s a)) _). assert (rb_at s5 a = rb_at s a) as Ea5 by (unfold s5; by rewrite rb_at_other). rewrite Ea5.
  set (s6 := upd_rb s5 b _). assert (rb_at s6 a = rb_at s a) as Ea6 by (unfold s6; by rewrite rb_at_other). rewrite Ea6.
  set (s7 := upd_rb s6 (rb_right (rb_at s a)) _). assert (rb_at s7 a = rb_at s a) as Ea7 by (unfold s7; by rewrite rb_at_other).
  eexists. split; [done|]. rewrite replace_eq, Ea7, Ep, left_adopt, adopt_same, relink_other by auto. splits; try done.
  unfold s7. rewrite left_parent. unfold s6. rewrite rb_at_other by done. unfold s5. rewrite left_parent. unfold s4. rewrite rb_at_other by done.
  rewrite E3, relink_other by auto. unfold s2. rewrite rb_at_other, E1, left_adopt by done. done.
Qed.
End TwoChildren.

(** A red successor of a node with two children: the result is no tree of the
    remaining nodes. *)
Lemma rb_erase_two s c col l a cs b rr :
  is_tree s (zip c (Node col l a (zip cs (Node RB_RED Leaf b rr)))) -> l <> Leaf -> Forall (fun f => f_side f = true) cs ->
  exists s', rb_erase s a = Some s' /\
    forall t', (forall x, x ∈ inorder t' <-> x ∈ inorder (zip c (Node col l a (zip cs (Node RB_RED Leaf b rr)))) /\ x <> a) -> ~ is_tree s' t'.
Proof.
  intros H Hl Hcs. destruct (succ_out _ _ _ _ _ _ _ _ H) as (Hb0 & Hba & Hbp & Ha0 & Hap). pose proof (succ_in cs b rr) as Hbr.
  set (r := zip cs _) in *. destruct cs as [|f cs'] eqn:Ecs.
  - destruct (splice_near _ _ _ _ _ _ _ _ H Hl Hcs eq_refl) as (s' & -> & Er & Ep). exists s'. split; [done|]. intros t' Ht H'.
    pose proof (child_parent _ _ b false H') as Hc. cbn [side] in Hc. rewrite Er, Ep in Hc. apply Hbp. symmetry. apply Hc; [|done].
    apply Ht. split; [|done]. apply (in_zip_mk c true). tauto.
  - destruct (splice_far _ _ _ _ _ _ _ _ H Hl Hcs f cs' eq_refl) as (s' & -> & El & Ep & Hf). exists s'. split; [done|]. intros t' Ht H'.
    pose proof (child_parent _ _ (f_addr f) true H') as Hc. cbn [side] in Hc. rewrite El, Ep in Hc. apply Hf. symmetry. apply Hc; [|done].
    assert (f_addr f ∈ inorder r) as Hfr by (unfold r; rewrite in_zip; right; apply in_cin; by left).
    apply Ht. split; [apply (in_zip_mk c true); tauto|]. intros E. rewrite E in Hfr.
    pose proof (is_tree_parts _ _ _ H) as (_ & (_&_&_&Har&_)%(nodup_mk true) & _). done.
Qed.

(** ** The properties *)

(** C12: a new node that is linked where a search ended and then rebalanced
    gives a red-black tree (black root, no red node with a red child, as many
    black nodes on every path) with the node in its place of the order: the
    loop ends, and the walk from [rb_first] by [rb_next] lists the nodes
    before, the new node and the nodes after, each once. *)
Theorem rb_insert_correct s t c node :
  is_tree s t -> red_black t -> t = zip c Leaf -> node <> 0 -> node ∉ inorder t ->
  inorder t = before c ++ after c /\
  exists s' t', rb_insert_color (rb_link_node s node (cpar c) (clink c)) node = Some s' /\
    is_tree s' t' /\ red_black t' /\ inorder t' = before c ++ node :: after c /\
    rb_inorder s' = Some (before c ++ node :: after c).
Proof.
  intros H Hrb -> Hn Hin. split; [by rewrite inorder_zip|].
  destruct (rb_insert_spec s c node H Hrb Hn Hin) as (s' & t' & E & H' & Hrb' & Eio).
  exists s', t'. splits; try done. by rewrite (rb_inorder_spec _ _ H'), Eio.
Qed.

(** C35: [rb_erase] of a node with at most one child ends and gives a
    red-black tree of the other nodes in their order. *)
Theorem rb_erase_correct s t c col l a r :
  is_tree s t -> red_black t -> t = zip c (Node col l a r) -> l = Leaf \/ r = Leaf ->
  inorder t = (before c ++ inorder l) ++ a :: inorder r ++ after c /\
  exists s' t', rb_erase s a = Some s' /\ is_tree s' t' /\ red_black t' /\
    inorder t' = (before c ++ inorder l) ++ inorder r ++ after c /\ rb_inorder s' = Some (inorder t').
Proof.
  intros H Hrb -> Hlr. split. { rewrite inorder_zip. cbn. by rewrite <- !app_assoc. }
  destruct (rb_erase_spec s c col l a r H Hrb Hlr) as (s' & t' & E & H' & Hrb' & Eio).
  exists s', t'. splits; try done; [by rewrite Eio, <- !app_assoc|by apply rb_inorder_spec].
Qed.

(** C36: [rb_erase] of a node with two children whose successor is red leaves
    no tree of the remaining nodes: a successor that is the right child
    becomes its own right child, any other one stays the left child of its
    old parent as well. *)
Theorem rb_erase_breaks s c col l a cs b rr :
  is_tree s (zip c (Node col l a (zip cs (Node RB_RED Leaf b rr)))) -> l <> Leaf -> Forall (fun f => f_side f = true) cs ->
  exists s', rb_erase s a = Some s' /\
    forall t', (forall x, x ∈ inorder t' <-> x ∈ inorder (zip c (Node col l a (zip cs (Node RB_RED Leaf b rr)))) /\ x <> a) -> ~ is_tree s' t'.
Proof. apply rb_erase_two. Qed.

(** ** Witnesses *)

Definition two_nodes : rb := mkRoot (list_to_map [(100, mkRb 0 0 200 RB_BLACK); (200, mkRb 100 0 0 RB_RED)]) 100.
Definition three_nodes : rb :=
  mkRoot (list_to_map [(100, mkRb 200 0 0 RB_RED); (200, mkRb 0 100 300 RB_BLACK); (300, mkRb 200 0 0 RB_RED)]) 200.

Lemma two_nodes_tree : is_tree two_nodes (Node RB_BLACK Leaf 100 (Node RB_RED Leaf 200 Leaf)).
Proof.
  unfold is_tree. splits; try done.
  - apply (bool_decide_unpack (NoDup [0; 100; 200])). by vm_compute.
  - intros a Ha. cbn in Ha. rewrite !elem_of_cons, elem_of_nil in Ha. destruct Ha as [->|[->|[]]]; by eexists.
Qed.

Lemma three_nodes_tree : is_tree three_nodes (Node RB_BLACK (Node RB_RED Leaf 100 Leaf) 200 (Node RB_RED Leaf 300 Leaf)).
Proof.
  unfold is_tree. splits; try done.
  - apply (bool_decide_unpack (NoDup [0; 100; 200; 300])). by vm_compute.
  - intros a Ha. cbn in Ha. rewrite !elem_of_cons, elem_of_nil in Ha. destruct Ha as [->|[->|[->|[]]]]; by eexists.
Qed.

Lemma two_nodes_black : red_black (Node RB_BLACK Leaf 100 (Node RB_RED Leaf 200 Leaf)).
Proof. split; [done|]. exists 1%nat. right. split; [done|]. exists O. splits; try done. left. by splits. Qed.

(** The third node in order: a rotation at the root. *)
Lemma rb_insert_correct_witness :
  exists s' t', rb_insert_color (rb_link_node two_nodes 300 200 (LRight 200)) 300 = Some s' /\ is_tree s' t' /\ red_black t' /\
    inorder t' = [100; 200; 300] /\ rb_inorder s' = Some [100; 200; 300].
Proof.
  apply (rb_insert_correct two_nodes _ [Frame false 200 RB_RED Leaf; Frame false 100 RB_BLACK Leaf] 300 two_nodes_tree two_nodes_black eq_refl); [done|].
  apply (bool_decide_unpack (300 ∉ [100; 200])). by vm_compute.
Defined.

Lemma rb_erase_correct_witness :
  exists s' t', rb_erase two_nodes 100 = Some s' /\ is_tree s' t' /\ red_black t' /\ inorder t' = [200] /\ rb_inorder s' = Some (inorder t').
Proof.
  apply (rb_erase_correct two_nodes _ [] RB_BLACK Leaf 100 (Node RB_RED Leaf 200 Leaf) two_nodes_tree two_nodes_black eq_refl). by left.
Defined.

Lemma rb_erase_breaks_witness :
  exists s', rb_erase three_nodes 200 = Some s' /\
    forall t', (forall x, x ∈ inorder t' <-> x ∈ [100; 200; 300] /\ x <> 200) -> ~ is_tree s' t'.
Proof.
  apply (rb_erase_breaks three_nodes [] RB_BLACK (Node RB_RED Leaf 100 Leaf) 200 [] 300 Leaf three_nodes_tree); [done|constructor].
Defined.
