(* ===== verification/Task.v ===== *)
(** * Tasks and processors

    [struct task_struct] and [struct rq] of [include/linux/sched.h],
    [struct cpu] of [include/asm/smp.h], [struct sigaction] of
    [include/asm/signal.h], and the state of the scheduler that
    [kernel/sched], [kernel/signal.c], [kernel/exit.c] and [kernel/pid.c]
    work on.  A task is named by the address of its structure; its two list
    nodes live in [nodes]. *)
From S2P Require Import Prelude ListHead.

(** Functional update of one field: the record written out, with one of its
    projections replaced. *)
Ltac setter e p x :=
  match eval pattern p in e with
  | ?g _ => let r := eval cbv beta in (g x) in exact r
  end.

Inductive task_state :=
  TASK_RUNNING | TASK_IDLE | TASK_SLEEPING | TASK_STOPPED | TASK_ZOMBIE | TASK_DEAD.

#[export] Instance task_state_eq_dec : EqDecision task_state.
Proof. solve_decision. Defined.

Inductive child_event := CHILD_EVENT_NONE | CHILD_EVENT_STOPPED | CHILD_EVENT_CONTINUED.

#[export] Instance child_event_eq_dec : EqDecision child_event.
Proof. solve_decision. Defined.

Definition NR_CPUS : Z := 4.
Definition NR_OPEN : Z := 32.
Definition SCHED_TIME_SLICE : Z := 10.
Definition INIT_STACK_SIZE : Z := 8192.

(** Addresses are integers, [0] is NULL; handlers [0] and [1] are [SIG_DFL]
    and [SIG_IGN]. *)
Record sigaction := mkSigaction {
  sa_handler : Z;
  sa_flags : Z;
  sa_restorer : Z;
  sa_mask : Z
}.

Definition sigaction0 : sigaction := mkSigaction 0 0 0 0.

Record task := mkTask {
  t_pid : Z;
  t_tgid : Z;
  t_state : task_state;
  t_ctx_x19 : Z;
  t_ctx_x20 : Z;
  t_ctx_pc : Z;
  t_ctx_sp : Z;
  t_thread_fn : Z;
  t_thread_arg : Z;
  t_stack : Z;
  t_mm : Z;
  t_files : gmap Z Z;
  t_close_on_exec : Z;
  t_cpu : Z;
  t_parent : Z;
  t_time_slice : Z;
  t_need_resched : Z;
  t_is_user : Z;
  t_user_sp : Z;
  t_tpidr_el0 : Z;
  t_regs : Z;
  t_exit_code : Z;
  t_exit_signal : Z;
  t_stop_signal : Z;
  t_wait_event : child_event;
  t_pgid : Z;
  t_sid : Z;
  t_daif : Z;
  t_cwd : Z;
  t_pending : Z;
  t_blocked : Z;
  t_saved_blocked : Z;
  t_restore_sigmask : Z;
  t_in_syscall : Z;
  t_orig_x0 : Z;
  t_actions : gmap Z sigaction;
  t_clear_child_tid : Z;
  t_wake_jiffies : Z;
  t_comm : list Z;
  t_cmdline : list Z
}.

Abbreviation task_eta t := (mkTask
  (t_pid t) (t_tgid t) (t_state t) (t_ctx_x19 t) (t_ctx_x20 t) (t_ctx_pc t) (t_ctx_sp t)
  (t_thread_fn t) (t_thread_arg t) (t_stack t) (t_mm t) (t_files t) (t_close_on_exec t)
  (t_cpu t) (t_parent t) (t_time_slice t) (t_need_resched t) (t_is_user t) (t_user_sp t)
  (t_tpidr_el0 t) (t_regs t) (t_exit_code t) (t_exit_signal t) (t_stop_signal t)
  (t_wait_event t) (t_pgid t) (t_sid t) (t_daif t) (t_cwd t) (t_pending t) (t_blocked t)
  (t_saved_blocked t) (t_restore_sigmask t) (t_in_syscall t) (t_orig_x0 t) (t_actions t)
  (t_clear_child_tid t) (t_wake_jiffies t) (t_comm t) (t_cmdline t)) (only parsing).

Definition set_t_pid (x : Z) (t : task) : task := ltac:(setter (task_eta t) (t_pid t) x).
Definition set_t_tgid (x : Z) (t : task) : task := ltac:(setter (task_eta t) (t_tgid t) x).
Definition set_t_state (x : task_state) (t : task) : task := ltac:(setter (task_eta t) (t_state t) x).
Definition set_t_ctx_x19 (x : Z) (t : task) : task := ltac:(setter (task_eta t) (t_ctx_x19 t) x).
Definition set_t_ctx_x20 (x : Z) (t : task) : task := ltac:(setter (task_eta t) (t_ctx_x20 t) x).
Definition set_t_ctx_pc (x : Z) (t : task) : task := ltac:(setter (task_eta t) (t_ctx_pc t) x).
Definition set_t_ctx_sp (x : Z) (t : task) : task := ltac:(setter (task_eta t) (t_ctx_sp t) x).
Definition set_t_thread_fn (x : Z) (t : task) : task := ltac:(setter (task_eta t) (t_thread_fn t) x).
Definition set_t_thread_arg (x : Z) (t : task) : task := ltac:(setter (task_eta t) (t_thread_arg t) x).
Definition set_t_stack (x : Z) (t : task) : task := ltac:(setter (task_eta t) (t_stack t) x).
Definition set_t_mm (x : Z) (t : task) : task := ltac:(setter (task_eta t) (t_mm t) x).
Definition set_t_files (x : gmap Z Z) (t : task) : task := ltac:(setter (task_eta t) (t_files t) x).
Definition set_t_close_on_exec (x : Z) (t : task) : task := ltac:(setter (task_eta t) (t_close_on_exec t) x).
Definition set_t_cpu (x : Z) (t : task) : task := ltac:(setter (task_eta t) (t_cpu t) x).
Definition set_t_parent (x : Z) (t : task) : task := ltac:(setter (task_eta t) (t_parent t) x).
Definition set_t_time_slice (x : Z) (t : task) : task := ltac:(setter (task_eta t) (t_time_slice t) x).
Definition set_t_need_resched (x : Z) (t : task) : task := ltac:(setter (task_eta t) (t_need_resched t) x).
Definition set_t_is_user (x : Z) (t : task) : task := ltac:(setter (task_eta t) (t_is_user t) x).
Definition set_t_user_sp (x : Z) (t : task) : task := ltac:(setter (task_eta t) (t_user_sp t) x).
Definition set_t_tpidr_el0 (x : Z) (t : task) : task := ltac:(setter (task_eta t) (t_tpidr_el0 t) x).
Definition set_t_regs (x : Z) (t : task) : task := ltac:(setter (task_eta t) (t_regs t) x).
Definition set_t_exit_code (x : Z) (t : task) : task := ltac:(setter (task_eta t) (t_exit_code t) x).
Definition set_t_exit_signal (x : Z) (t : task) : task := ltac:(setter (task_eta t) (t_exit_signal t) x).
Definition set_t_stop_signal (x : Z) (t : task) : task := ltac:(setter (task_eta t) (t_stop_signal t) x).
Definition set_t_wait_event (x : child_event) (t : task) : task := ltac:(setter (task_eta t) (t_wait_event t) x).
Definition set_t_pgid (x : Z) (t : task) : task := ltac:(setter (task_eta t) (t_pgid t) x).
Definition set_t_sid (x : Z) (t : task) : task := ltac:(setter (task_eta t) (t_sid t) x).
Definition set_t_daif (x : Z) (t : task) : task := ltac:(setter (task_eta t) (t_daif t) x).
Definition set_t_cwd (x : Z) (t : task) : task := ltac:(setter (task_eta t) (t_cwd t) x).
Definition set_t_pending (x : Z) (t : task) : task := ltac:(setter (task_eta t) (t_pending t) x).
Definition set_t_blocked (x : Z) (t : task) : task := ltac:(setter (task_eta t) (t_blocked t) x).
Definition set_t_saved_blocked (x : Z) (t : task) : task := ltac:(setter (task_eta t) (t_saved_blocked t) x).
Definition set_t_restore_sigmask (x : Z) (t : task) : task := ltac:(setter (task_eta t) (t_restore_sigmask t) x).
Definition set_t_in_syscall (x : Z) (t : task) : task := ltac:(setter (task_eta t) (t_in_syscall t) x).
Definition set_t_orig_x0 (x : Z) (t : task) : task := ltac:(setter (task_eta t) (t_orig_x0 t) x).
Definition set_t_actions (x : gmap Z sigaction) (t : task) : task := ltac:(setter (task_eta t) (t_actions t) x).
Definition set_t_clear_child_tid (x : Z) (t : task) : task := ltac:(setter (task_eta t) (t_clear_child_tid t) x).
Definition set_t_wake_jiffies (x : Z) (t : task) : task := ltac:(setter (task_eta t) (t_wake_jiffies t) x).
Definition set_t_comm (x : list Z) (t : task) : task := ltac:(setter (task_eta t) (t_comm t) x).
Definition set_t_cmdline (x : list Z) (t : task) : task := ltac:(setter (task_eta t) (t_cmdline t) x).

(** The addresses of the list heads: the nodes of a task, the queue of a
    processor and the list of all tasks. *)
Inductive node := NRun (t : Z) | NTask (t : Z) | NRq (c : Z) | NAll.

#[export] Instance node_eq_dec : EqDecision node.
Proof. solve_decision. Defined.

#[export] Instance NRun_inj : Inj (=) (=) NRun.
Proof. by intros x y [= ->]. Qed.

#[export] Instance NTask_inj : Inj (=) (=) NTask.
Proof. by intros x y [= ->]. Qed.

(** A processor: its run queue (the list head is the node [NRq]), and the
    registers that the scheduler switches.  [c_ipi] is the reschedule
    interrupt pending at its interrupt controller; [c_ttbr0] is the base of the
    tables that translate user addresses, 0 for none. *)
Record cpu := mkCpu {
  c_idle : Z;
  c_curr : Z;
  c_nr_running : Z;
  c_ipi : bool;
  c_sp_el0 : Z;
  c_tpidr_el0 : Z;
  c_daif : Z;
  c_ttbr0 : Z
}.

Abbreviation cpu_eta c := (mkCpu
  (c_idle c) (c_curr c) (c_nr_running c) (c_ipi c) (c_sp_el0 c) (c_tpidr_el0 c) (c_daif
  c) (c_ttbr0 c)) (only parsing).

Definition set_c_idle (x : Z) (c : cpu) : cpu := ltac:(setter (cpu_eta c) (c_idle c) x).
Definition set_c_curr (x : Z) (c : cpu) : cpu := ltac:(setter (cpu_eta c) (c_curr c) x).
Definition set_c_nr_running (x : Z) (c : cpu) : cpu := ltac:(setter (cpu_eta c) (c_nr_running c) x).
Definition set_c_ipi (x : bool) (c : cpu) : cpu := ltac:(setter (cpu_eta c) (c_ipi c) x).
Definition set_c_sp_el0 (x : Z) (c : cpu) : cpu := ltac:(setter (cpu_eta c) (c_sp_el0 c) x).
Definition set_c_tpidr_el0 (x : Z) (c : cpu) : cpu := ltac:(setter (cpu_eta c) (c_tpidr_el0 c) x).
Definition set_c_daif (x : Z) (c : cpu) : cpu := ltac:(setter (cpu_eta c) (c_daif c) x).
Definition set_c_ttbr0 (x : Z) (c : cpu) : cpu := ltac:(setter (cpu_eta c) (c_ttbr0 c) x).

(** [pgds] has, for each address space that a task refers to, the physical
    address of its [pgd], 0 for NULL. *)
Record sched := mkSched {
  tasks : gmap Z task;
  nodes : lists node;
  cpus : gmap Z cpu;
  this_cpu : Z;
  next_pid : Z;
  jiffies : Z;
  pgds : gmap Z Z
}.

Abbreviation sched_eta s := (mkSched
  (tasks s) (nodes s) (cpus s) (this_cpu s) (next_pid s) (jiffies s) (pgds s)) (only parsing).

Definition set_tasks (x : gmap Z task) (s : sched) : sched := ltac:(setter (sched_eta s) (tasks s) x).
Definition set_nodes (x : lists node) (s : sched) : sched := ltac:(setter (sched_eta s) (nodes s) x).
Definition set_cpus (x : gmap Z cpu) (s : sched) : sched := ltac:(setter (sched_eta s) (cpus s) x).
Definition set_this_cpu (x : Z) (s : sched) : sched := ltac:(setter (sched_eta s) (this_cpu s) x).
Definition set_next_pid (x : Z) (s : sched) : sched := ltac:(setter (sched_eta s) (next_pid s) x).
Definition set_jiffies (x : Z) (s : sched) : sched := ltac:(setter (sched_eta s) (jiffies s) x).

(** A structure that was zeroed. *)
Definition task0 : task :=
  mkTask 0 0 TASK_RUNNING 0 0 0 0 0 0 0 0 ∅ 0 0 0 0 0 0 0 0 0 0 0 0 CHILD_EVENT_NONE 0 0 0 0 0 0 0 0 0 0
    ∅ 0 0 [] [].

Definition cpu0 : cpu := mkCpu 0 0 0 false 0 0 0 0.

(** Reading and writing through a pointer to a task, and [cpu_data[c]]. *)
Definition task_at (s : sched) (t : Z) : task := default task0 (tasks s !! t).
Definition upd_task (s : sched) (t : Z) (f : task -> task) : sched :=
  set_tasks (<[t := f (task_at s t)]> (tasks s)) s.

Definition cpu_at (s : sched) (c : Z) : cpu := default cpu0 (cpus s !! c).
Definition upd_cpu (s : sched) (c : Z) (f : cpu -> cpu) : sched :=
  set_cpus (<[c := f (cpu_at s c)]> (cpus s)) s.

Lemma task_at_upd s t f : task_at (upd_task s t f) t = f (task_at s t).
Proof. unfold task_at at 1. cbn. by rewrite lookup_insert_eq. Qed.

Lemma task_at_upd_ne s t f u : t <> u -> task_at (upd_task s t f) u = task_at s u.
Proof. intros. unfold task_at. cbn. by rewrite lookup_insert_ne. Qed.

Lemma cpu_at_upd s c f : cpu_at (upd_cpu s c f) c = f (cpu_at s c).
Proof. unfold cpu_at at 1. cbn. by rewrite lookup_insert_eq. Qed.

Lemma cpu_at_upd_ne s c f d : c <> d -> cpu_at (upd_cpu s c f) d = cpu_at s d.
Proof. intros. unfold cpu_at. cbn. by rewrite lookup_insert_ne. Qed.

(** Walks of lists end within this many steps. *)
Definition walk_fuel (s : sched) : nat := S (S (size (tasks s))).
