(* ===== verification/Sched.v ===== *)
(** * The scheduler ([kernel/sched/core.c], [kernel/sched/idle.c])

    Round-robin queues, one per processor, and migration between them.  The
    invariant [sched_inv s Q T] names the contents of every run queue ([Q])
    and of the list of all tasks ([T]). *)
From S2P Require Import Prelude Errno ListHead Task.

(** ** Operations *)

(** [idle_tasks[cpu]]: static storage, outside the pool. *)
Definition idle_tasks (c : Z) : Z := 1 + c.

Definition get_current (s : sched) : Z := c_curr (cpu_at s (this_cpu s)).
Definition set_current (s : sched) (t : Z) : sched := upd_cpu s (this_cpu s) (set_c_curr t).
Definition idle_task (s : sched) : Z := c_idle (cpu_at s (this_cpu s)).

Definition set_need_resched (s : sched) : sched :=
  let t := get_current s in if t =? 0 then s else upd_task s t (set_t_need_resched 1).
Definition clear_need_resched (s : sched) : sched :=
  let t := get_current s in if t =? 0 then s else upd_task s t (set_t_need_resched 0).
Definition need_resched (s : sched) : bool :=
  let t := get_current s in negb (t =? 0) && negb (t_need_resched (task_at s t) =? 0).

Definition rq_init (s : sched) (c : Z) : sched :=
  upd_cpu (set_nodes (INIT_LIST_HEAD (nodes s) (NRq c)) s) c (set_c_nr_running 0).

Definition sched_init_idle (s : sched) (c : Z) : sched :=
  let i := idle_tasks c in
  let s := upd_task s i (fun t => set_t_cpu c (set_t_daif 0x3c0 t)) in
  let s := set_nodes (INIT_LIST_HEAD (nodes s) (NRun i)) s in
  upd_cpu s c (fun x => set_c_curr i (set_c_idle i x)).

(** [cpu_init] and [smp_init] of [kernel/smp.c]. *)
Definition cpu_init (s : sched) (c : Z) : sched :=
  let s := upd_task s (idle_tasks c) (fun t => set_t_state TASK_IDLE (set_t_pid 0 t)) in
  sched_init_idle (rq_init s c) c.

Definition smp_init (s : sched) : sched := foldl cpu_init s (seqZ 0 NR_CPUS).

Definition task_attach (s : sched) (t : Z) : sched :=
  if list_is_linked (nodes s) (NTask t) then s
  else set_nodes (list_add_tail (nodes s) (NTask t) NAll) s.

Definition task_detach (s : sched) (t : Z) : sched :=
  if list_is_linked (nodes s) (NTask t) then set_nodes (list_del_init (nodes s) (NTask t)) s else s.

Definition enqueue_task_locked (s : sched) (t c : Z) : sched :=
  if t =? 0 then s
  else if list_is_linked (nodes s) (NRun t) then s
  else
    let s := upd_task s t (fun x => set_t_cpu c (set_t_time_slice SCHED_TIME_SLICE (set_t_state TASK_RUNNING x))) in
    let s := set_nodes (list_add_tail (nodes s) (NRun t) (NRq c)) s in
    upd_cpu s c (fun x => set_c_nr_running (u32 (c_nr_running x + 1)) x).

Definition enqueue_task_cpu (s : sched) (t c : Z) : sched :=
  if t =? 0 then s else if NR_CPUS <=? c then s else enqueue_task_locked s t c.

Definition enqueue_task (s : sched) (t : Z) : sched :=
  if t =? 0 then s
  else
    let s := if NR_CPUS <=? t_cpu (task_at s t) then upd_task s t (set_t_cpu (this_cpu s)) else s in
    enqueue_task_cpu s t (t_cpu (task_at s t)).

(** [if (rq->nr_running) rq->nr_running--;] *)
Definition rq_dec (s : sched) (c : Z) : sched :=
  if c_nr_running (cpu_at s c) =? 0 then s
  else upd_cpu s c (fun x => set_c_nr_running (c_nr_running x - 1) x).

Definition dequeue_task_locked (s : sched) (c t : Z) : sched :=
  if (t =? 0) || negb (list_is_linked (nodes s) (NRun t)) then s
  else rq_dec (set_nodes (list_del_init (nodes s) (NRun t)) s) c.

Definition dequeue_task (s : sched) (t : Z) : sched :=
  if t =? 0 then s
  else
    let c := t_cpu (task_at s t) in
    if NR_CPUS <=? c then s else dequeue_task_locked s c t.

Definition sched_block (s : sched) (st : task_state) : sched :=
  let t := get_current s in dequeue_task (upd_task s t (set_t_state st)) t.

(** The doorbell to another processor. *)
Definition send_reschedule_ipi (s : sched) (c : Z) : sched :=
  if NR_CPUS <=? c then s else upd_cpu s c (set_c_ipi true).

Definition resched_cpu (s : sched) (c : Z) : sched :=
  if NR_CPUS <=? c then s
  else if c =? this_cpu s then set_need_resched s
  else send_reschedule_ipi s c.

Definition wake_up_process (s : sched) (t : Z) : sched :=
  if t =? 0 then s
  else if bool_decide (t_state (task_at s t) = TASK_RUNNING) && list_is_linked (nodes s) (NRun t) then s
  else
    let s := enqueue_task s t in
    resched_cpu s (t_cpu (task_at s t)).

Definition migrate_task (s : sched) (t new_cpu : Z) : Z * sched :=
  if t =? 0 then (- EINVAL, s)
  else if NR_CPUS <=? new_cpu then (- EINVAL, s)
  else
    let old_cpu := t_cpu (task_at s t) in
    if NR_CPUS <=? old_cpu then (- EINVAL, s)
    else if old_cpu =? new_cpu then (0, s)
    else if negb (bool_decide (t_state (task_at s t) = TASK_RUNNING)) ||
            negb (list_is_linked (nodes s) (NRun t)) ||
            negb (t_cpu (task_at s t) =? old_cpu) ||
            (t =? c_curr (cpu_at s old_cpu))
    then (- EINVAL, s)
    else
      let s := set_nodes (list_del_init (nodes s) (NRun t)) s in
      let s := rq_dec s old_cpu in
      let s := upd_task s t (set_t_cpu new_cpu) in
      let s := set_nodes (list_add_tail (nodes s) (NRun t) (NRq new_cpu)) s in
      let s := upd_cpu s new_cpu (fun x => set_c_nr_running (u32 (c_nr_running x + 1)) x) in
      (0, resched_cpu s new_cpu).

(** [find_busiest_cpu]: the processor and its load so far. *)
Definition busier (s : sched) (this : Z) (acc : Z * Z) (c : Z) : Z * Z :=
  if c =? this then acc
  else
    let load := c_nr_running (cpu_at s c) in
    if snd acc <? load then (c, load) else acc.

Definition find_busiest_cpu (s : sched) (this : Z) : Z :=
  let busiest := fst (foldl (busier s this) (this, u32 (c_nr_running (cpu_at s this) + 1)) (seqZ 0 NR_CPUS)) in
  if busiest =? this then -1 else busiest.

(** [list_entry(pos, struct task_struct, run_list)]. *)
Definition run_entry (n : node) : Z := match n with NRun t => t | _ => 0 end.

Fixpoint migratable_loop (fuel : nat) (s : sched) (head pos : node) (exclude : Z) : option Z :=
  match fuel with
  | O => None
  | S fuel' =>
      if bool_decide (pos = head) then Some 0
      else
        let t := run_entry pos in
        if t =? exclude then migratable_loop fuel' s head (pv (nodes s) pos) exclude
        else if t_pid (task_at s t) =? 0 then migratable_loop fuel' s head (pv (nodes s) pos) exclude
        else Some t
  end.

Definition pick_migratable_task (s : sched) (c exclude : Z) : option Z :=
  if c_nr_running (cpu_at s c) <=? 1 then Some 0
  else migratable_loop (walk_fuel s) s (NRq c) (pv (nodes s) (NRq c)) exclude.

Definition try_pull_task (s : sched) (this : Z) : option (Z * sched) :=
  if NR_CPUS <=? this then Some (0, s)
  else
    let busiest := find_busiest_cpu s this in
    if busiest <? 0 then Some (0, s)
    else
      t ← pick_migratable_task s busiest (c_curr (cpu_at s busiest));
      if t =? 0 then Some (0, s)
      else
        let '(r, s) := migrate_task s t this in
        Some (if r =? 0 then 1 else 0, s).

Definition pick_next_task (s : sched) (c prev : Z) : Z :=
  let head := NRq c in
  let idle := idle_task s in
  if list_empty (nodes s) head then idle
  else
    let pos :=
      if negb (prev =? 0) && negb (prev =? idle) && list_is_linked (nodes s) (NRun prev)
      then nx (nodes s) (NRun prev) else nx (nodes s) head in
    let pos := if bool_decide (pos = head) then nx (nodes s) head else pos in
    run_entry pos.

(** [mm_install] of [mm/mmap.c]. *)
Definition mm_install (s : sched) (mm : Z) : sched :=
  if (mm =? 0) || ((pgds s).[mm] =? 0) then s
  else upd_cpu s (this_cpu s) (set_c_ttbr0 (pgds s).[mm]).

(** [context_switch]: the registers of the processor go to [prev] and come
    from [next]; [switch_to] then continues [next] where it left off. *)
Definition context_switch (s : sched) (prev next : Z) : sched :=
  let c := this_cpu s in
  let s :=
    if t_is_user (task_at s prev) =? 0 then s
    else upd_task s prev (fun t => set_t_tpidr_el0 (c_tpidr_el0 (cpu_at s c)) (set_t_user_sp (c_sp_el0 (cpu_at s c)) t)) in
  let s := upd_task s prev (set_t_daif (c_daif (cpu_at s c))) in
  let s := upd_task s next (fun t => set_t_need_resched 0 (set_t_time_slice SCHED_TIME_SLICE t)) in
  let s := set_current s next in
  let n := task_at s next in
  let s := upd_cpu s c (set_c_daif (t_daif n)) in
  if negb (t_is_user n =? 0) && negb (t_mm n =? 0) then
    upd_cpu (mm_install s (t_mm n)) c (fun x => set_c_tpidr_el0 (t_tpidr_el0 n) (set_c_sp_el0 (t_user_sp n) x))
  else upd_cpu s c (set_c_ttbr0 0).

Definition schedule (s : sched) : option sched :=
  let c := this_cpu s in
  let prev := get_current s in
  let idle := idle_task s in
  let s := clear_need_resched s in
  let next := pick_next_task s c prev in
  let was_empty := list_empty (nodes s) (NRq c) in
  '(next, s) ←
    (if (next =? idle) && was_empty then
       '(pulled, s) ← try_pull_task s c;
       Some (if pulled =? 0 then next else pick_next_task s c prev, s)
     else Some (next, s));
  if next =? prev then Some s
  else if negb (next =? idle) && (t_stack (task_at s next) =? 0) then Some s
  else Some (context_switch s prev next).

(** [cpu_idle] before its loop, and one turn of the loop. *)
Definition cpu_idle_enter (s : sched) : sched :=
  let idle := idle_task s in
  let s := set_current s idle in
  let s := upd_task s idle (set_t_state TASK_IDLE) in
  upd_task s idle (set_t_daif (c_daif (cpu_at s (this_cpu s)))).

Definition cpu_idle_turn (s : sched) : option sched := schedule s.

(** The handler of the doorbell ([handle_reschedule_ipi] of [kernel/irq.c]). *)
Definition handle_reschedule_ipi (s : sched) : sched := set_need_resched s.

(** [irq_exit]: the interrupted context decides, [el0] tells whether it was
    user code. *)
Definition irq_exit (s : sched) (el0 : bool) : option sched :=
  if need_resched s && el0 then schedule s else Some s.

(** ** The invariant *)

Definition is_cpu (c : Z) : Prop := 0 <= c < NR_CPUS.

Record sched_inv (s : sched) (Q : Z -> list Z) (T : list Z) : Prop := {
  si_this : is_cpu (this_cpu s);
  si_rq : forall c, is_cpu c -> ring (nodes s) (NRq c) (NRun <$> Q c);
  si_all : ring (nodes s) NAll (NTask <$> T);
  si_nr : forall c, is_cpu c -> c_nr_running (cpu_at s c) = Z.of_nat (length (Q c));
  si_queued : forall c t, is_cpu c -> t ∈ Q c ->
    t <> 0 /\ is_Some (tasks s !! t) /\ t_cpu (task_at s t) = c /\ t_state (task_at s t) = TASK_RUNNING;
  si_out : forall t, is_Some (tasks s !! t) -> (forall c, is_cpu c -> t ∉ Q c) -> ring (nodes s) (NRun t) [];
  si_attached : forall t, t ∈ T -> is_Some (tasks s !! t);
  si_detached : forall t, is_Some (tasks s !! t) -> t ∉ T -> ring (nodes s) (NTask t) [];
  si_idle : forall c, is_cpu c -> c_idle (cpu_at s c) = idle_tasks c /\ is_Some (tasks s !! idle_tasks c) /\
    forall d, is_cpu d -> idle_tasks c ∉ Q d;
  si_idle_cpu : forall c, is_cpu c -> t_cpu (task_at s (idle_tasks c)) = c;
  si_curr : forall c, is_cpu c -> c_curr (cpu_at s c) <> 0 /\ is_Some (tasks s !! c_curr (cpu_at s c)) /\
    t_cpu (task_at s (c_curr (cpu_at s c))) = c;
  si_cpu : forall t, is_Some (tasks s !! t) -> 0 <= t_cpu (task_at s t);
  si_size : Z.of_nat (size (tasks s)) < 2 ^ 32 - 1
}.

Section Invariant.
Context (s : sched) (Q : Z -> list Z) (T : list Z) (HI : sched_inv s Q T).

Lemma inv_nodup c : is_cpu c -> NoDup (Q c).
Proof.
  intros Hc. destruct (si_rq _ _ _ HI c Hc) as [Hn _]. apply NoDup_cons in Hn as [_ Hn].
  by apply NoDup_fmap in Hn; [|apply _].
Qed.

Lemma inv_one_queue c d t : is_cpu c -> is_cpu d -> t ∈ Q c -> t ∈ Q d -> c = d.
Proof.
  intros Hc Hd H1 H2. destruct (si_queued _ _ _ HI c t Hc H1) as (_ & _ & E & _).
  destruct (si_queued _ _ _ HI d t Hd H2) as (_ & _ & E' & _). congruence.
Qed.

Lemma inv_queue_size c : is_cpu c -> (length (Q c) <= size (tasks s))%nat.
Proof.
  intros Hc. rewrite <- size_dom. rewrite <- (size_list_to_set (C := gset Z)) by (by apply inv_nodup).
  apply subseteq_size. intros t Ht%elem_of_list_to_set. apply elem_of_dom. by apply (si_queued _ _ _ HI c t).
Qed.

(** Queued is linked. *)
Lemma inv_linked t :
  is_Some (tasks s !! t) ->
  (list_is_linked (nodes s) (NRun t) = true /\ exists c, is_cpu c /\ t ∈ Q c) \/
  (list_is_linked (nodes s) (NRun t) = false /\ forall c, is_cpu c -> t ∉ Q c).
Proof.
  intros Ht. destruct (decide (Exists (fun c => t ∈ Q c) (seqZ 0 NR_CPUS))) as [H|H].
  - left. apply Exists_exists in H as (c & Hc & H). apply elem_of_seqZ in Hc.
    assert (is_cpu c) by (unfold is_cpu; lia). split; [|by exists c].
    apply (ring_linked (nodes s) (NRq c) (NRun <$> Q c)); [by apply HI|by apply list_elem_of_fmap_2].
  - right. assert (Hn : forall c, is_cpu c -> t ∉ Q c).
    { intros c Hc Hin. apply H, Exists_exists. exists c. split; [|done]. apply elem_of_seqZ. unfold is_cpu in Hc. lia. }
    split; [|done]. apply ring_alone. by apply HI.
Qed.

Lemma inv_task_fields t f :
  is_Some (tasks s !! t) -> t_cpu (f (task_at s t)) = t_cpu (task_at s t) ->
  t_state (f (task_at s t)) = t_state (task_at s t) \/ (forall c, is_cpu c -> t ∉ Q c) ->
  sched_inv (upd_task s t f) Q T.
Proof.
  intros Ht Ec Est. destruct HI.
  assert (Hsome : forall u, is_Some (tasks (upd_task s t f) !! u) <-> is_Some (tasks s !! u)).
  { intros u. cbn. rewrite lookup_insert_is_Some'. naive_solver. }
  assert (Hcpu : forall u, t_cpu (task_at (upd_task s t f) u) = t_cpu (task_at s u)).
  { intros u. destruct (decide (t = u)) as [<-|]; [by rewrite task_at_upd|by rewrite task_at_upd_ne]. }
  split; try done.
  - intros c u Hc Hu. rewrite Hsome, Hcpu. destruct (si_queued0 c u Hc Hu) as (? & ? & ? & ?). splits; try done.
    destruct (decide (t = u)) as [<-|]; [rewrite task_at_upd|by rewrite task_at_upd_ne].
    destruct Est as [->|Hn]; [done|]. by destruct (Hn c Hc).
  - intros u Hu. apply si_out0. by apply Hsome.
  - intros u Hu. by apply Hsome, si_attached0.
  - intros u Hu. apply si_detached0. by apply Hsome.
  - intros c Hc. destruct (si_idle0 c Hc) as (? & ? & ?). splits; try done. by apply Hsome.
  - intros c Hc. rewrite Hcpu. by apply si_idle_cpu0.
  - intros c Hc. destruct (si_curr0 c Hc) as (? & ? & ?). splits; try done; [by apply Hsome|by rewrite Hcpu].
  - intros u Hu. rewrite Hcpu. apply si_cpu0. by apply Hsome.
  - cbn. rewrite map_size_insert_Some by done. done.
Qed.

Lemma inv_cpu_fields c f :
  c_nr_running (f (cpu_at s c)) = c_nr_running (cpu_at s c) -> c_idle (f (cpu_at s c)) = c_idle (cpu_at s c) ->
  c_curr (f (cpu_at s c)) = c_curr (cpu_at s c) -> sched_inv (upd_cpu s c f) Q T.
Proof.
  intros E1 E2 E3. destruct HI.
  assert (H : forall d, c_nr_running (cpu_at (upd_cpu s c f) d) = c_nr_running (cpu_at s d) /\
    c_idle (cpu_at (upd_cpu s c f) d) = c_idle (cpu_at s d) /\ c_curr (cpu_at (upd_cpu s c f) d) = c_curr (cpu_at s d)).
  { intros d. destruct (decide (c = d)) as [<-|]; [by rewrite cpu_at_upd|by rewrite cpu_at_upd_ne]. }
  split; try done.
  - intros d Hd. destruct (H d) as (-> & _). by apply si_nr0.
  - intros d Hd. destruct (H d) as (_ & -> & _). by apply si_idle0.
  - intros d Hd. destruct (H d) as (_ & _ & ->). by apply si_curr0.
Qed.
End Invariant.

(** ** Queue operations *)

Lemma queue_insert_ne (Q : Z -> list Z) c d l : c <> d -> (<[c := l]> Q) d = Q d.
Proof. apply fn_lookup_insert_ne. Qed.

Definition without (t : Z) (l : list Z) : list Z := filter (fun x : Z => x <> t) l.

Lemma without_elem t u l : u ∈ without t l <-> u <> t /\ u ∈ l.
Proof. unfold without. by rewrite list_elem_of_filter. Qed.

Lemma without_split t l1 l2 : t ∉ l1 -> t ∉ l2 -> without t (l1 ++ t :: l2) = l1 ++ l2.
Proof.
  intros H1 H2. unfold without. rewrite filter_app, filter_cons_False by naive_solver.
  assert (Hf : forall l : list Z, t ∉ l -> filter (fun x : Z => x <> t) l = l).
  { intros l Hl. induction l as [|x l IH]; [done|]. apply not_elem_of_cons in Hl as [Hx Hl].
    rewrite filter_cons_True by done. f_equal. by apply IH. }
  by rewrite !Hf.
Qed.

Lemma run_nodes_apart (l l' : list Z) c c' :
  c <> c' -> (forall t, t ∈ l -> t ∉ l') ->
  forall y, y ∈ NRq c :: (NRun <$> l) -> y ∉ NRq c' :: (NRun <$> l').
Proof.
  intros Hc Hd y Hy. rewrite elem_of_cons, list_elem_of_fmap in *.
  destruct Hy as [->|(t & -> & Ht)]; intros [E|(u & E & Hu)]; try discriminate; [congruence|].
  injection E as <-. by apply (Hd t).
Qed.

Lemma task_nodes_apart (l l' : list Z) c :
  forall y, y ∈ NAll :: (NTask <$> l) -> y ∉ NRq c :: (NRun <$> l').
Proof.
  intros y Hy. rewrite elem_of_cons, list_elem_of_fmap in *.
  by destruct Hy as [->|(t & -> & Ht)]; intros [E|(u & E & Hu)].
Qed.

(** One task [t] moves between queues: [s'] differs from [s] in its
    fields, in the run-queue nodes and in the counters. *)
Record relinked (s s' : sched) (Q Q' : Z -> list Z) (t : Z) : Prop := {
  rl_this : this_cpu s' = this_cpu s;
  rl_some : forall u, is_Some (tasks s' !! u) <-> is_Some (tasks s !! u);
  rl_size : size (tasks s') = size (tasks s);
  rl_task : forall u, t <> u -> task_at s' u = task_at s u;
  rl_cpus : forall d, c_curr (cpu_at s' d) = c_curr (cpu_at s d) /\ c_idle (cpu_at s' d) = c_idle (cpu_at s d);
  rl_nr : forall d, is_cpu d -> c_nr_running (cpu_at s' d) = Z.of_nat (length (Q' d));
  rl_all : forall y, (y = NAll \/ exists u, y = NTask u) ->
    nx (nodes s') y = nx (nodes s) y /\ pv (nodes s') y = pv (nodes s) y;
  rl_ring : forall d, is_cpu d -> ring (nodes s') (NRq d) (NRun <$> Q' d);
  rl_alone : forall u, is_Some (tasks s !! u) -> (forall d, is_cpu d -> u ∉ Q' d) -> ring (nodes s') (NRun u) [];
  rl_queue : forall d u, is_cpu d -> t <> u -> (u ∈ Q' d <-> u ∈ Q d);
  rl_in : forall d, is_cpu d -> t ∈ Q' d ->
    t <> 0 /\ is_Some (tasks s !! t) /\ t_cpu (task_at s' t) = d /\ t_state (task_at s' t) = TASK_RUNNING;
  rl_idle : forall c, is_cpu c -> t <> idle_tasks c;
  rl_curr : forall d, is_cpu d -> c_curr (cpu_at s d) = t -> t_cpu (task_at s' t) = d;
  rl_cpu : 0 <= t_cpu (task_at s' t)
}.

Lemma relinked_inv s s' Q Q' T t : sched_inv s Q T -> relinked s s' Q Q' t -> sched_inv s' Q' T.
Proof.
  intros [] []. split; try done.
  - by rewrite rl_this0.
  - apply (ring_frame (nodes s)); [|done]. intros y Hy. apply rl_all0.
    rewrite elem_of_cons, list_elem_of_fmap in Hy. destruct Hy as [->|(u & -> & _)]; eauto.
  - intros d u Hd Hu. rewrite rl_some0. destruct (decide (t = u)) as [<-|Hne]; [by apply rl_in0|].
    rewrite rl_task0 by done. apply si_queued0; [done|]. by apply rl_queue0.
  - intros u Hu. apply rl_alone0. by apply rl_some0.
  - intros u Hu. by apply rl_some0, si_attached0.
  - intros u Hu HT. apply (ring_frame (nodes s)); [|apply si_detached0; [by apply rl_some0|done]].
    intros y ->%list_elem_of_singleton. apply rl_all0. eauto.
  - intros d Hd. destruct (rl_cpus0 d) as [_ ->]. destruct (si_idle0 d Hd) as (H1 & H2 & H3).
    splits; [done|by apply rl_some0|]. intros e He. rewrite rl_queue0 by auto. by apply H3.
  - intros d Hd. rewrite rl_task0 by auto. by apply si_idle_cpu0.
  - intros d Hd. destruct (rl_cpus0 d) as [-> _]. destruct (si_curr0 d Hd) as (H1 & H2 & H3).
    splits; [done|by apply rl_some0|]. destruct (decide (t = c_curr (cpu_at s d))) as [E|Hne].
    + rewrite <- E. by apply rl_curr0.
    + by rewrite rl_task0.
  - intros u Hu. destruct (decide (t = u)) as [<-|]; [done|].
    rewrite rl_task0 by done. apply si_cpu0. by apply rl_some0.
  - by rewrite rl_size0.
Qed.

(** The rings after [t] was appended to the queue of [c], or taken off it. *)
Lemma push_rings s Q T t c :
  sched_inv s Q T -> is_cpu c -> (forall d, is_cpu d -> t ∉ Q d) ->
  let m' := list_add_tail (nodes s) (NRun t) (NRq c) in
  (forall d, is_cpu d -> ring m' (NRq d) (NRun <$> (<[c := Q c ++ [t]]> Q) d)) /\
  (forall y, (y = NAll \/ exists u, y = NTask u) -> nx m' y = nx (nodes s) y /\ pv m' y = pv (nodes s) y) /\
  (forall u, t <> u -> (forall d, is_cpu d -> u ∉ Q d) -> ring (nodes s) (NRun u) [] -> ring m' (NRun u) []).
Proof.
  intros HI Hc Hout m'.
  destruct (ring_add_tail (nodes s) (NRq c) (NRun <$> Q c) (NRun t)) as [Hr Ho].
  { by apply HI. }
  { rewrite not_elem_of_cons, list_elem_of_fmap. split; [done|]. intros (u & [= <-] & Hu). by apply (Hout c). }
  fold m' in Hr, Ho.
  assert (Ho' : forall y, y <> NRun t -> y ∉ NRq c :: (NRun <$> Q c) -> nx m' y = nx (nodes s) y /\ pv m' y = pv (nodes s) y).
  { intros y H1 H2. apply Ho. rewrite not_elem_of_cons. done. }
  splits.
  - intros d Hd. destruct (decide (c = d)) as [<-|Hcd].
    + rewrite fn_lookup_insert. by rewrite fmap_app.
    + rewrite queue_insert_ne by done. apply (ring_frame (nodes s)); [|by apply HI]. intros y Hy. apply Ho'.
      * intros ->. rewrite elem_of_cons, list_elem_of_fmap in Hy. destruct Hy as [|(u & [= <-] & Hu)]; [done|].
        by apply (Hout d).
      * eapply run_nodes_apart; [|..|exact Hy]; [congruence|]. intros u Hu Hu'. apply Hcd.
        by apply (inv_one_queue s Q T HI c d u).
  - intros y Hy. apply Ho'; [by destruct Hy as [->|[u ->]]|].
    rewrite not_elem_of_cons, list_elem_of_fmap. destruct Hy as [->|[u ->]]; split; try done; by intros (w & ? & _).
  - intros u Htu Hn. apply ring_frame. intros y ->%list_elem_of_singleton. apply Ho'; [congruence|].
    rewrite not_elem_of_cons, list_elem_of_fmap. split; [done|]. intros (w & [= <-] & Hw). by apply (Hn c).
Qed.

Lemma pop_rings s Q T t c :
  sched_inv s Q T -> is_cpu c -> t ∈ Q c ->
  let m' := list_del_init (nodes s) (NRun t) in
  (forall d, is_cpu d -> ring m' (NRq d) (NRun <$> (<[c := without t (Q c)]> Q) d)) /\
  length (Q c) = S (length (without t (Q c))) /\
  (forall y, (y = NAll \/ exists u, y = NTask u) -> nx m' y = nx (nodes s) y /\ pv m' y = pv (nodes s) y) /\
  ring m' (NRun t) [] /\
  (forall u, t <> u -> (forall d, is_cpu d -> u ∉ Q d) -> ring (nodes s) (NRun u) [] -> ring m' (NRun u) []).
Proof.
  intros HI Hc Ht m'. assert (Hnd := inv_nodup s Q T HI c Hc).
  apply list_elem_of_split in Ht as (l1 & l2 & El). assert (Hr := si_rq _ _ _ HI c Hc).
  rewrite El, fmap_app, fmap_cons in Hr. destruct (ring_del _ _ _ _ _ Hr) as (H1 & H2 & Ho). fold m' in H1, H2, Ho.
  rewrite El in Hnd. apply NoDup_app in Hnd as (_ & Hd1 & Hnd). apply NoDup_cons in Hnd as [Hd2 _].
  assert (Hl1 : t ∉ l1) by (intros Hin; apply (Hd1 t Hin), list_elem_of_here).
  assert (Ew : without t (Q c) = l1 ++ l2) by (rewrite El; by apply without_split).
  assert (Ho' : forall y, y ∉ NRq c :: (NRun <$> Q c) -> nx m' y = nx (nodes s) y /\ pv m' y = pv (nodes s) y).
  { intros y Hy. apply Ho. intros Hy'. apply Hy. revert Hy'. rewrite El, fmap_app, fmap_cons.
    rewrite !elem_of_cons, !elem_of_app, !elem_of_cons. tauto. }
  splits.
  - intros d Hd. destruct (decide (c = d)) as [<-|Hcd].
    + rewrite fn_lookup_insert, Ew, fmap_app. done.
    + rewrite queue_insert_ne by done. apply (ring_frame (nodes s)); [|by apply HI]. intros y Hy. apply Ho'.
      eapply run_nodes_apart; [|..|exact Hy]; [congruence|]. intros u Hu Hu'. apply Hcd.
      by apply (inv_one_queue s Q T HI c d u).
  - rewrite Ew, El, !length_app. cbn. lia.
  - intros y Hy. apply Ho'. rewrite not_elem_of_cons, list_elem_of_fmap.
    destruct Hy as [->|[u ->]]; split; try done; by intros (w & ? & _).
  - done.
  - intros u Htu Hn. apply ring_frame. intros y ->%list_elem_of_singleton. apply Ho'.
    rewrite not_elem_of_cons, list_elem_of_fmap. split; [done|]. intros (w & [= <-] & Hw). by apply (Hn c).
Qed.

Section QueueOps.
Context (s : sched) (Q : Z -> list Z) (T : list Z) (HI : sched_inv s Q T).

(** [t] is appended to the queue of [c], its other fields set by [f]. *)
Lemma push_inv t c f :
  is_Some (tasks s !! t) -> t <> 0 -> is_cpu c -> (forall d, is_cpu d -> t ∉ Q d) ->
  (forall d, is_cpu d -> t <> idle_tasks d) -> (forall d, is_cpu d -> c_curr (cpu_at s d) = t -> d = c) ->
  t_cpu (f (task_at s t)) = c -> t_state (f (task_at s t)) = TASK_RUNNING ->
  sched_inv (upd_cpu (set_nodes (list_add_tail (nodes s) (NRun t) (NRq c)) (upd_task s t f)) c
    (fun x => set_c_nr_running (u32 (c_nr_running x + 1)) x)) (<[c := Q c ++ [t]]> Q) T.
Proof.
  intros Ht Ht0 Hc Hout Hidle Hcurr Ef Est. set (s3 := upd_cpu _ c _).
  assert (Hlen := inv_queue_size s Q T HI c Hc).
  destruct (push_rings s Q T t c HI Hc Hout) as (H1 & H2 & H3).
  assert (Heq : task_at s3 t = f (task_at s t)) by apply task_at_upd.
  apply (relinked_inv s s3 Q _ T t HI). split; try done.
  - intros u. cbn. rewrite lookup_insert_is_Some'. naive_solver.
  - cbn. by rewrite map_size_insert_Some.
  - intros u Hu. by apply task_at_upd_ne.
  - intros d. destruct (decide (c = d)) as [<-|]; unfold s3; [by rewrite cpu_at_upd|by rewrite cpu_at_upd_ne].
  - intros d Hd. destruct (decide (c = d)) as [<-|Hcd]; unfold s3.
    + rewrite cpu_at_upd, fn_lookup_insert, length_app. cbn. change (cpu_at _ c) with (cpu_at s c).
      assert (Hsz := si_size _ _ _ HI). rewrite (si_nr _ _ _ HI) by done. rewrite wrapu_id; lia.
    + rewrite cpu_at_upd_ne, queue_insert_ne by done. by apply HI.
  - intros u Hu Hn. assert (Htu : t <> u).
    { intros ->. apply (Hn c Hc). rewrite fn_lookup_insert. apply elem_of_app. right. by apply list_elem_of_singleton. }
    assert (Hn' : forall d, is_cpu d -> u ∉ Q d).
    { intros d Hd Hin. apply (Hn d Hd). destruct (decide (c = d)) as [<-|Hcd]; [|by rewrite queue_insert_ne].
      rewrite fn_lookup_insert. apply elem_of_app. by left. }
    apply H3; [done|done|]. by apply HI.
  - intros d u Hd Hu. destruct (decide (c = d)) as [<-|Hcd]; [|by rewrite queue_insert_ne].
    rewrite fn_lookup_insert, elem_of_app, list_elem_of_singleton. naive_solver.
  - intros d Hd Hin. rewrite Heq. splits; try done. destruct (decide (c = d)) as [<-|Hcd]; [done|].
    rewrite queue_insert_ne in Hin by done. by destruct (Hout d Hd).
  - intros d Hd E'. rewrite Heq, Ef. symmetry. by apply Hcurr.
  - rewrite Heq, Ef. unfold is_cpu in Hc. lia.
Qed.

Lemma enqueue_locked_inv t c :
  is_Some (tasks s !! t) -> t <> 0 -> is_cpu c -> (forall d, is_cpu d -> t ∉ Q d) ->
  (forall d, is_cpu d -> t <> idle_tasks d) -> (forall d, is_cpu d -> c_curr (cpu_at s d) = t -> d = c) ->
  sched_inv (enqueue_task_locked s t c) (<[c := Q c ++ [t]]> Q) T /\
  t_cpu (task_at (enqueue_task_locked s t c) t) = c.
Proof.
  intros Ht Ht0 Hc Hout Hidle Hcurr. unfold enqueue_task_locked. zdec.
  destruct (inv_linked s Q T HI t Ht) as [[_ (d & Hd & Hin)]|[E _]]; [by destruct (Hout d Hd)|]. rewrite E.
  split; [by apply push_inv|]. unfold task_at at 1. cbn. by rewrite lookup_insert_eq.
Qed.

Lemma dequeue_task_inv t c :
  is_cpu c -> t ∈ Q c -> sched_inv (dequeue_task s t) (<[c := without t (Q c)]> Q) T.
Proof.
  intros Hc Ht. destruct (si_queued _ _ _ HI c t Hc Ht) as (Ht0 & Hsome & Ec & Est).
  unfold dequeue_task. rewrite Ec. unfold is_cpu in Hc. zdec. unfold dequeue_task_locked.
  rewrite (ring_linked (nodes s) (NRq c) (NRun <$> Q c)); [|by apply HI|by apply list_elem_of_fmap_2]. zdec.
  destruct (pop_rings s Q T t c HI Hc Ht) as (H1 & Hlen & H2 & H3 & H4).
  set (s1 := set_nodes _ s). set (s' := rq_dec s1 c).
  assert (Hnr : forall d, c_nr_running (cpu_at s' d) = c_nr_running (cpu_at s d) - (if decide (c = d) then 1 else 0)).
  { intros d. unfold s', rq_dec. change (cpu_at s1 c) with (cpu_at s c). rewrite (si_nr _ _ _ HI) by done. zdec.
    case_decide as E; [subst d; by rewrite cpu_at_upd|]. rewrite cpu_at_upd_ne by done. change (cpu_at s1 d) with (cpu_at s d). lia. }
  assert (Ho : forall d, c_curr (cpu_at s' d) = c_curr (cpu_at s d) /\ c_idle (cpu_at s' d) = c_idle (cpu_at s d)).
  { intros d. unfold s', rq_dec. case_match; [done|].
    destruct (decide (c = d)) as [<-|]; [by rewrite cpu_at_upd|by rewrite cpu_at_upd_ne]. }
  assert (Et : tasks s' = tasks s) by (unfold s', rq_dec; by case_match).
  assert (En : nodes s' = nodes s1) by (unfold s', rq_dec; by case_match).
  assert (Ew : this_cpu s' = this_cpu s) by (unfold s', rq_dec; by case_match).
  assert (Ea : forall u, task_at s' u = task_at s u) by (intros u; unfold task_at; by rewrite Et).
  apply (relinked_inv s s' Q _ T t HI). split; try done; rewrite ?Et, ?En; try done.
  - intros d Hd. rewrite Hnr. destruct (decide (c = d)) as [<-|Hcd].
    + rewrite fn_lookup_insert, (si_nr _ _ _ HI) by done. lia.
    + rewrite queue_insert_ne, (si_nr _ _ _ HI) by done. lia.
  - intros u Hu Hn. destruct (decide (t = u)) as [<-|Hne]; [done|].
    assert (Hn' : forall d, is_cpu d -> u ∉ Q d).
    { intros d Hd Hin. apply (Hn d Hd). destruct (decide (c = d)) as [<-|Hcd]; [|by rewrite queue_insert_ne].
      rewrite fn_lookup_insert. by apply without_elem. }
    apply H4; [done|done|]. by apply HI.
  - intros d u Hd Hu. destruct (decide (c = d)) as [<-|Hcd]; [|by rewrite queue_insert_ne].
    rewrite fn_lookup_insert, without_elem. naive_solver.
  - intros d Hd Hin. exfalso. destruct (decide (c = d)) as [<-|Hcd].
    + rewrite fn_lookup_insert, without_elem in Hin. tauto.
    + rewrite queue_insert_ne in Hin by done. apply Hcd. by apply (inv_one_queue s Q T HI c d t).
  - intros d Hd ->. destruct (si_idle _ _ _ HI d Hd) as (_ & _ & Hn). by destruct (Hn c Hc).
  - intros d Hd E. rewrite Ea. rewrite <- E. by apply (si_curr _ _ _ HI d Hd).
  - rewrite Ea. by apply HI.
Qed.

Lemma dequeue_task_out t : is_Some (tasks s !! t) -> (forall c, is_cpu c -> t ∉ Q c) -> dequeue_task s t = s.
Proof.
  intros Ht Hn. unfold dequeue_task, dequeue_task_locked.
  destruct (inv_linked s Q T HI t Ht) as [[_ (d & Hd & Hin)]|[-> _]]; [by destruct (Hn d Hd)|].
  rewrite orb_true_r. by repeat case_match.
Qed.
End QueueOps.

Lemma dequeue_upd s t f :
  (forall x, t_cpu (f x) = t_cpu x) -> dequeue_task (upd_task s t f) t = upd_task (dequeue_task s t) t f.
Proof.
  intros Hf. unfold dequeue_task. case_match; [done|]. rewrite task_at_upd, Hf. case_match; [done|].
  unfold dequeue_task_locked. cbn [nodes upd_task set_tasks]. case_match; [done|].
  unfold rq_dec. cbn. change (cpu_at _ _) with (cpu_at s (t_cpu (task_at s t))) at 1.
  change (c_nr_running (cpu_at _ _)) with (c_nr_running (cpu_at s (t_cpu (task_at s t)))) at 2.
  by case_match.
Qed.

(** [t] is taken off whatever queue it is on. *)
Definition off (t : Z) (Q : Z -> list Z) : Z -> list Z := fun c => without t (Q c).

Lemma without_id t l : t ∉ l -> without t l = l.
Proof.
  intros Hl. unfold without. induction l as [|x l IH]; [done|]. apply not_elem_of_cons in Hl as [Hx Hl].
  rewrite filter_cons_True by done. f_equal. by apply IH.
Qed.

Lemma sched_inv_ext s Q Q' T : (forall c, is_cpu c -> Q' c = Q c) -> sched_inv s Q T -> sched_inv s Q' T.
Proof.
  intros E []. split; try done.
  - intros c Hc. rewrite E by done. by apply si_rq0.
  - intros c Hc. rewrite E by done. by apply si_nr0.
  - intros c t Hc. rewrite E by done. by apply si_queued0.
  - intros t Ht Hn. apply si_out0; [done|]. intros c Hc. rewrite <- E by done. by apply Hn.
  - intros c Hc. destruct (si_idle0 c Hc) as (H1 & H2 & H3). splits; try done. intros d Hd. rewrite E by done. by apply H3.
Qed.

Lemma dequeue_off s Q T t : sched_inv s Q T -> is_Some (tasks s !! t) -> sched_inv (dequeue_task s t) (off t Q) T.
Proof.
  intros HI Ht. destruct (inv_linked s Q T HI t Ht) as [[_ (c & Hc & Hin)]|[_ Hn]].
  - eapply sched_inv_ext; [|by apply (dequeue_task_inv s Q T HI t c)]. intros d Hd. unfold off.
    destruct (decide (c = d)) as [<-|Hcd]; [by rewrite fn_lookup_insert|]. rewrite queue_insert_ne by done.
    apply without_id. intros Hin'. apply Hcd. by apply (inv_one_queue s Q T HI c d t).
  - rewrite (dequeue_task_out s Q T HI t Ht Hn). eapply sched_inv_ext; [|exact HI]. intros d Hd. unfold off.
    apply without_id. by apply Hn.
Qed.

Lemma dequeue_tasks s t : tasks (dequeue_task s t) = tasks s.
Proof. unfold dequeue_task, dequeue_task_locked, rq_dec. by repeat case_match. Qed.

(** Blocking the current task. *)
Lemma sched_block_inv s Q T st :
  sched_inv s Q T -> sched_inv (sched_block s st) (off (get_current s) Q) T.
Proof.
  intros HI. destruct (si_curr _ _ _ HI _ (si_this _ _ _ HI)) as (Hc0 & Hc1 & Hc2).
  fold (get_current s) in Hc0, Hc1, Hc2. unfold sched_block. rewrite dequeue_upd by done.
  apply (inv_task_fields _ _ _ (dequeue_off s Q T (get_current s) HI Hc1)).
  - by rewrite dequeue_tasks.
  - done.
  - right. intros c Hc. unfold off. rewrite without_elem. tauto.
Qed.

(** [enqueue_task] on a task that is not an idle task: nothing for a queued
    task, else the end of the queue of its processor. *)
Lemma enqueue_task_inv s Q T t :
  sched_inv s Q T -> is_Some (tasks s !! t) -> t <> 0 -> (forall d, is_cpu d -> t <> idle_tasks d) ->
  (enqueue_task s t = s /\ exists c, is_cpu c /\ t ∈ Q c) \/
  (exists c, is_cpu c /\ (forall d, is_cpu d -> t ∉ Q d) /\ sched_inv (enqueue_task s t) (<[c := Q c ++ [t]]> Q) T /\
     t_cpu (task_at (enqueue_task s t) t) = c).
Proof.
  intros HI Ht Ht0 Hidle. unfold enqueue_task. zdec. assert (Hcpu := si_cpu _ _ _ HI t Ht).
  destruct (inv_linked s Q T HI t Ht) as [[El (c & Hc & Hin)]|[El Hn]].
  - left. split; [|by exists c]. destruct (si_queued _ _ _ HI c t Hc Hin) as (_ & _ & Ec & _).
    rewrite Ec. unfold is_cpu in Hc. zdec. rewrite Ec. unfold enqueue_task_cpu, enqueue_task_locked. zdec. by rewrite El.
  - right. case Z.leb_spec; intros Hc.
    + set (s1 := upd_task s t (set_t_cpu (this_cpu s))).
      assert (E1 : t_cpu (task_at s1 t) = this_cpu s) by (unfold s1; by rewrite task_at_upd).
      assert (Hthis := si_this _ _ _ HI). rewrite E1. unfold enqueue_task_cpu. unfold is_cpu in Hthis. zdec.
      assert (Hnc : forall d, is_cpu d -> c_curr (cpu_at s d) <> t).
      { intros d Hd E. destruct (si_curr _ _ _ HI d Hd) as (_ & _ & E'). rewrite E in E'. unfold is_cpu in Hd. lia. }
      assert (HI1 : sched_inv s1 Q T).
      { apply (relinked_inv s s1 Q Q T t HI). split; try done; try apply HI; try by intros; apply HI.
        - intros u. cbn. rewrite lookup_insert_is_Some'. naive_solver.
        - cbn. by rewrite map_size_insert_Some.
        - intros u Hu. by apply task_at_upd_ne.
        - intros d Hd Hin. by destruct (Hn d Hd).
        - intros d Hd E. by destruct (Hnc d Hd).
        - rewrite E1. lia. }
      exists (this_cpu s). destruct (enqueue_locked_inv s1 Q T HI1 t (this_cpu s)) as [H1 H2]; try done.
      * cbn. rewrite lookup_insert_eq. by eexists.
      * intros d Hd E. by destruct (Hnc d Hd).
    + set (c := t_cpu (task_at s t)) in *. assert (Hc' : is_cpu c) by (split; lia).
      unfold enqueue_task_cpu. zdec. exists c. destruct (enqueue_locked_inv s Q T HI t c) as [H1 H2]; try done.
      intros d Hd E. destruct (si_curr _ _ _ HI d Hd) as (_ & _ & E'). rewrite E in E'. by rewrite <- E'.
Qed.

Lemma set_need_resched_inv s Q T : sched_inv s Q T -> sched_inv (set_need_resched s) Q T.
Proof.
  intros HI. unfold set_need_resched. case_match; [done|].
  destruct (si_curr _ _ _ HI _ (si_this _ _ _ HI)) as (_ & Hs & _). apply inv_task_fields; auto.
Qed.

Lemma clear_need_resched_inv s Q T : sched_inv s Q T -> sched_inv (clear_need_resched s) Q T.
Proof.
  intros HI. unfold clear_need_resched. case_match; [done|].
  destruct (si_curr _ _ _ HI _ (si_this _ _ _ HI)) as (_ & Hs & _). apply inv_task_fields; auto.
Qed.

Lemma resched_cpu_inv s Q T c : sched_inv s Q T -> sched_inv (resched_cpu s c) Q T.
Proof.
  intros HI. unfold resched_cpu, send_reschedule_ipi. case_match; [done|]. case_match; [by apply set_need_resched_inv|].
  by apply inv_cpu_fields.
Qed.

(** Where a task is queued afterwards. *)
Lemma wake_up_process_inv s Q T t :
  sched_inv s Q T -> is_Some (tasks s !! t) -> t <> 0 -> (forall d, is_cpu d -> t <> idle_tasks d) ->
  exists Q', sched_inv (wake_up_process s t) Q' T /\ (exists c, is_cpu c /\ t ∈ Q' c) /\
    forall c u, is_cpu c -> u <> t -> (u ∈ Q' c <-> u ∈ Q c).
Proof.
  intros HI Ht Ht0 Hidle. unfold wake_up_process. zdec.
  case_match eqn:Eq.
  - apply andb_true_iff in Eq as [_ El]. exists Q. splits; [done| |done].
    destruct (inv_linked s Q T HI t Ht) as [[_ H]|[E _]]; [done|congruence].
  - destruct (enqueue_task_inv s Q T t HI Ht Ht0 Hidle) as [[-> Hin]|(c & Hc & Hn & HI' & _)].
    + exists Q. splits; [by apply resched_cpu_inv|done|done].
    + eexists. splits; [by apply resched_cpu_inv|..].
      * exists c. split; [done|]. rewrite fn_lookup_insert. apply elem_of_app. right. by apply list_elem_of_singleton.
      * intros d u Hd Hu. destruct (decide (c = d)) as [<-|Hcd]; [|by rewrite queue_insert_ne].
        rewrite fn_lookup_insert, elem_of_app, list_elem_of_singleton. naive_solver.
Qed.

(** ** Migration *)

Definition moved (t old new : Z) (Q : Z -> list Z) : Z -> list Z :=
  <[new := Q new ++ [t]]> (<[old := without t (Q old)]> Q).

Lemma migrate_task_inv s Q T t new :
  sched_inv s Q T -> is_Some (tasks s !! t) -> t <> 0 -> is_cpu new ->
  let old := t_cpu (task_at s t) in
  exists r s', migrate_task s t new = (r, s') /\
    ((r = 0 /\ s' = s /\ old = new) \/
     (r = - EINVAL /\ s' = s /\ (NR_CPUS <= old \/ t ∉ Q old \/ t = c_curr (cpu_at s old))) \/
     (r = 0 /\ old <> new /\ is_cpu old /\ t ∈ Q old /\ t <> c_curr (cpu_at s old) /\
        sched_inv s' (moved t old new Q) T)).
Proof.
  intros HI Ht Ht0 Hnew old. unfold migrate_task. zdec. fold old. assert (Hold := si_cpu _ _ _ HI t Ht). fold old in Hold.
  unfold is_cpu in Hnew. zdec. case Z.leb_spec; intros Hle; [eexists _, _; split; [done|]; right; left; auto|].
  destruct (Z.eqb_spec old new) as [Hne|Hne]; [eexists _, _; split; [done|]; left; auto|].
  assert (Hoc : is_cpu old) by (split; lia).
  destruct (negb (bool_decide (t_state (task_at s t) = TASK_RUNNING)) || negb (list_is_linked (nodes s) (NRun t)) ||
            false || (t =? c_curr (cpu_at s old))) eqn:Eg.
  - eexists _, _. split; [done|]. right. left. splits; try done. right.
    destruct (decide (t ∈ Q old)) as [Hin|]; [right|by left].
    destruct (si_queued _ _ _ HI old t Hoc Hin) as (_ & _ & _ & Est).
    rewrite (ring_linked (nodes s) (NRq old) (NRun <$> Q old)) in Eg;
      [|by apply HI|by apply list_elem_of_fmap_2]. rewrite bool_decide_true in Eg by done. by apply Z.eqb_eq.
  - rewrite !orb_false_iff, !negb_false_iff in Eg. destruct Eg as [[[Est Elk] _] Ecur%Z.eqb_neq].
    apply bool_decide_eq_true in Est.
    destruct (inv_linked s Q T HI t Ht) as [[_ (c & Hc & Hin)]|[E _]]; [|congruence].
    destruct (si_queued _ _ _ HI c t Hc Hin) as (_ & _ & Ec & _). change (old = c) in Ec. subst c.
    eexists _, _. split; [done|]. right. right. splits; try done. apply resched_cpu_inv.
    assert (HI1 := dequeue_task_inv s Q T HI t old Hoc Hin).
    assert (Ed : dequeue_task s t = rq_dec (set_nodes (list_del_init (nodes s) (NRun t)) s) old).
    { unfold dequeue_task, dequeue_task_locked. fold old. zdec. by rewrite Elk. }
    rewrite Ed in HI1. set (s1 := rq_dec _ old) in *.
    assert (Et : tasks s1 = tasks s) by (unfold s1, rq_dec; by case_match).
    assert (Ea : task_at s1 t = task_at s t) by (unfold task_at; by rewrite Et).
    assert (Ecc : forall d, c_curr (cpu_at s1 d) = c_curr (cpu_at s d)).
    { intros d. unfold s1, rq_dec. case_match; [done|].
      destruct (decide (old = d)) as [<-|]; [by rewrite cpu_at_upd|by rewrite cpu_at_upd_ne]. }
    assert (Hout : forall d, is_cpu d -> t ∉ (<[old := without t (Q old)]> Q) d).
    { intros d Hd Hin'. destruct (decide (old = d)) as [<-|Hcd].
      - rewrite fn_lookup_insert, without_elem in Hin'. tauto.
      - rewrite queue_insert_ne in Hin' by done. apply Hcd. by apply (inv_one_queue s Q T HI old d t). }
    pose proof (push_inv s1 _ T HI1 t new (set_t_cpu new)) as HP.
    rewrite queue_insert_ne in HP by done. apply HP; try done.
    + by rewrite Et.
    + intros d Hd ->. destruct (si_idle _ _ _ HI d Hd) as (_ & _ & Hn). by destruct (Hn old Hoc).
    + intros d Hd E. rewrite Ecc in E. destruct (si_curr _ _ _ HI d Hd) as (_ & _ & E').
      rewrite E in E'. change (old = d) in E'. subst d. congruence.
    + by rewrite Ea.
Qed.

(** ** Choosing the next task *)

Lemma pick_idle s Q T prev :
  sched_inv s Q T -> Q (this_cpu s) = [] -> pick_next_task s (this_cpu s) prev = idle_tasks (this_cpu s).
Proof.
  intros HI EQ. assert (Hc := si_this _ _ _ HI). unfold pick_next_task.
  rewrite (ring_empty _ _ _ (si_rq _ _ _ HI _ Hc)), EQ. cbn. by destruct (si_idle _ _ _ HI _ Hc) as (? & _).
Qed.

(** The task after [prev] in the queue, round and round; the first one when
    [prev] is not queued. *)
Lemma pick_next_spec s Q T :
  sched_inv s Q T -> let c := this_cpu s in let prev := get_current s in Q c <> [] ->
  let next := pick_next_task s c prev in
  (forall i, Q c !! i = Some prev -> Q c !! ((i + 1) mod length (Q c))%nat = Some next) /\
  (prev ∉ Q c -> Q c !! O = Some next).
Proof.
  intros HI c prev Hne next. assert (Hc := si_this _ _ _ HI). fold c in Hc.
  assert (Hr := si_rq _ _ _ HI c Hc). destruct (si_curr _ _ _ HI c Hc) as (Hp0 & Hps & Hpc). change (c_curr (cpu_at s c)) with prev in Hp0, Hps, Hpc.
  destruct (si_idle _ _ _ HI c Hc) as (Ei & _ & Hi). unfold next, pick_next_task.
  rewrite (ring_empty _ _ _ Hr), bool_decide_false by (intros E; by apply fmap_nil_inv in E).
  change (idle_task s) with (c_idle (cpu_at s c)). rewrite Ei. split.
  - intros i Hin. assert (Hel : prev ∈ Q c) by (by apply list_elem_of_lookup_2 in Hin).
    rewrite (ring_linked _ _ _ (NRun prev) Hr) by (by apply list_elem_of_fmap_2).
    assert (Hpi : prev <> idle_tasks c) by (intros E; apply (Hi c Hc); by rewrite <- E). zdec.
    assert (El : Q c = take i (Q c) ++ prev :: drop (S i) (Q c)) by (symmetry; by apply take_drop_middle).
    assert (Hi' := lookup_lt_Some _ _ _ Hin). rewrite El, fmap_app, fmap_cons in Hr.
    destruct (ring_split _ _ _ _ _ Hr) as [-> _]. rewrite <- fmap_cons, <- fmap_app, <- El in Hr.
    destruct (decide (S i = length (Q c))) as [Elen|Hlt].
    + rewrite drop_ge by lia. cbn [fmap list_fmap head hd_error from_option]. rewrite bool_decide_true by done.
      rewrite (proj1 (ring_head _ _ _ Hr)). replace (i + 1)%nat with (length (Q c)) by lia.
      rewrite Nat.Div0.mod_same. by destruct (Q c).
    + assert (Hlt' : (S i < length (Q c))%nat) by lia. destruct (lookup_lt_is_Some_2 _ _ Hlt') as [y Hy].
      rewrite (drop_S _ _ _ Hy). cbn [fmap list_fmap head hd_error from_option]. rewrite bool_decide_false by done. cbn.
      rewrite Nat.mod_small by lia. by replace (i + 1)%nat with (S i) by lia.
  - intros Hn. assert (Hlk : list_is_linked (nodes s) (NRun prev) = false).
    { destruct (inv_linked s Q T HI prev Hps) as [[_ (d & Hd & Hin)]|[E _]]; [|done].
      destruct (si_queued _ _ _ HI d prev Hd Hin) as (_ & _ & E & _). rewrite Hpc in E. by subst d. }
    rewrite Hlk, !andb_false_r. rewrite (proj1 (ring_head _ _ _ Hr)). destruct (Q c) as [|x l]; [done|].
    cbn [fmap list_fmap head hd_error from_option]. by rewrite bool_decide_false.
Qed.

Lemma set_current_inv s Q T t :
  sched_inv s Q T -> t <> 0 -> is_Some (tasks s !! t) -> t_cpu (task_at s t) = this_cpu s ->
  sched_inv (set_current s t) Q T /\ get_current (set_current s t) = t.
Proof.
  intros HI H0 Hs Hc. assert (Eg : get_current (set_current s t) = t).
  { unfold get_current, set_current. cbn. by rewrite cpu_at_upd. }
  split; [|done].
  assert (H : forall d, c_nr_running (cpu_at (set_current s t) d) = c_nr_running (cpu_at s d) /\
     c_idle (cpu_at (set_current s t) d) = c_idle (cpu_at s d)).
  { intros d. unfold set_current. destruct (decide (this_cpu s = d)) as [<-|]; [by rewrite cpu_at_upd|by rewrite cpu_at_upd_ne]. }
  destruct HI. split; try done.
  - intros d Hd. destruct (H d) as [-> _]. by apply si_nr0.
  - intros d Hd. destruct (H d) as [_ ->]. by apply si_idle0.
  - intros d Hd. destruct (decide (this_cpu s = d)) as [<-|Hne].
    + unfold get_current in Eg. cbn in Eg. rewrite Eg. done.
    + unfold set_current. rewrite cpu_at_upd_ne by done. by apply si_curr0.
Qed.

(** Fields that scheduling leaves alone. *)
Definition same_identity (s s' : sched) : Prop :=
  this_cpu s' = this_cpu s /\ (forall u, is_Some (tasks s' !! u) <-> is_Some (tasks s !! u)) /\
  forall u, t_stack (task_at s' u) = t_stack (task_at s u) /\ t_pid (task_at s' u) = t_pid (task_at s u) /\
    t_cpu (task_at s' u) = t_cpu (task_at s u) /\ t_state (task_at s' u) = t_state (task_at s u).

Lemma same_identity_refl s : same_identity s s.
Proof. by splits. Qed.

Lemma same_identity_trans s1 s2 s3 : same_identity s1 s2 -> same_identity s2 s3 -> same_identity s1 s3.
Proof.
  intros (E1 & H1 & F1) (E2 & H2 & F2). unfold same_identity. splits; [congruence|by intros u; rewrite H2|].
  intros u. destruct (F1 u) as (<- & <- & <- & <-). apply F2.
Qed.

Lemma upd_task_identity s t f :
  is_Some (tasks s !! t) ->
  (forall x, t_stack (f x) = t_stack x /\ t_pid (f x) = t_pid x /\ t_cpu (f x) = t_cpu x /\ t_state (f x) = t_state x) ->
  same_identity s (upd_task s t f).
Proof.
  intros Ht Hf. unfold same_identity. splits; [done|intros u; cbn; rewrite lookup_insert_is_Some'; naive_solver|].
  intros u. destruct (decide (t = u)) as [<-|]; [rewrite task_at_upd; apply Hf|by rewrite task_at_upd_ne].
Qed.

Lemma upd_cpu_identity s c f : same_identity s (upd_cpu s c f).
Proof. by splits. Qed.

Lemma context_switch_spec s Q T next :
  sched_inv s Q T -> next <> 0 -> is_Some (tasks s !! next) -> t_cpu (task_at s next) = this_cpu s ->
  let s' := context_switch s (get_current s) next in
  sched_inv s' Q T /\ get_current s' = next /\ same_identity s s'.
Proof.
  intros HI H0 Hs Hc s'. destruct (si_curr _ _ _ HI _ (si_this _ _ _ HI)) as (_ & Hps & _).
  fold (get_current s) in Hps. set (prev := get_current s) in *.
  unfold context_switch in s'. set (c := this_cpu s) in *.
  set (s1 := if t_is_user (task_at s prev) =? 0 then s else _) in s'.
  assert (H1 : sched_inv s1 Q T /\ same_identity s s1).
  { unfold s1. case_match; [by split; [|apply same_identity_refl]|].
    split; [by apply inv_task_fields; auto|by apply upd_task_identity]. }
  destruct H1 as [HI1 I1].
  assert (Hps1 : is_Some (tasks s1 !! prev)) by (by apply I1).
  set (s2 := upd_task s1 prev _) in s'.
  assert (HI2 : sched_inv s2 Q T) by (by apply inv_task_fields; auto).
  assert (I2 : same_identity s s2) by (eapply same_identity_trans; [exact I1|by apply upd_task_identity]).
  assert (Hn2 : is_Some (tasks s2 !! next)) by (by apply I2).
  set (s3 := upd_task s2 next _) in s'.
  assert (HI3 : sched_inv s3 Q T) by (by apply inv_task_fields; auto).
  assert (I3 : same_identity s s3) by (eapply same_identity_trans; [exact I2|by apply upd_task_identity]).
  assert (Ec3 : t_cpu (task_at s3 next) = this_cpu s3).
  { destruct I3 as (E & _ & F). destruct (F next) as (_ & _ & -> & _). by rewrite E. }
  destruct (set_current_inv s3 Q T next HI3 H0 ltac:(by apply I3) Ec3) as [HI4 Eg4].
  set (s4 := set_current s3 next) in *. cbv zeta in s'.
  assert (I4 : same_identity s s4) by (eapply same_identity_trans; [exact I3|apply upd_cpu_identity]).
  assert (E4 : this_cpu s4 = c) by apply I4.
  assert (Hgen : forall s5, sched_inv s5 Q T -> same_identity s s5 -> get_current s5 = next -> forall f,
    (forall x, c_nr_running (f x) = c_nr_running x /\ c_idle (f x) = c_idle x /\ c_curr (f x) = c_curr x) ->
    sched_inv (upd_cpu s5 c f) Q T /\ get_current (upd_cpu s5 c f) = next /\ same_identity s (upd_cpu s5 c f)).
  { intros s5 HI5 I5 E5 f Hf. destruct (Hf (cpu_at s5 c)) as (F1 & F2 & F3). splits.
    - by apply inv_cpu_fields.
    - rewrite <- E5. unfold get_current. cbn. assert (this_cpu s5 = c) as -> by apply I5. by rewrite cpu_at_upd.
    - eapply same_identity_trans; [exact I5|apply upd_cpu_identity]. }
  destruct (Hgen s4 HI4 I4 Eg4 (set_c_daif (t_daif (task_at s4 next))) ltac:(done)) as (HI5 & Eg5 & I5).
  unfold s'. case_match; [|by apply Hgen]. set (s5 := upd_cpu s4 c _) in *. unfold mm_install. destruct (_ || _); [by apply Hgen|].
  replace (this_cpu s5) with c by (symmetry; apply I5). edestruct (Hgen s5 HI5 I5 Eg5) as (HI6 & Eg6 & I6); [|by apply Hgen]. done.
Qed.

Lemma clear_need_resched_spec s Q T :
  sched_inv s Q T -> let s1 := clear_need_resched s in
  sched_inv s1 Q T /\ same_identity s s1 /\ get_current s1 = get_current s /\ nodes s1 = nodes s /\ idle_task s1 = idle_task s.
Proof.
  intros HI s1. split; [by apply clear_need_resched_inv|]. unfold s1, clear_need_resched.
  destruct (si_curr _ _ _ HI _ (si_this _ _ _ HI)) as (_ & Hs & _). fold (get_current s) in Hs.
  case_match; [by splits|]. splits; try done. by apply upd_task_identity.
Qed.

(** The switch at the end of [schedule]. *)
Definition finish_schedule (s : sched) (prev idle next : Z) : sched :=
  if next =? prev then s
  else if negb (next =? idle) && (t_stack (task_at s next) =? 0) then s
  else context_switch s prev next.

Lemma finish_schedule_spec s Q T next :
  sched_inv s Q T -> (next = idle_task s \/ next ∈ Q (this_cpu s)) ->
  let s' := finish_schedule s (get_current s) (idle_task s) next in
  sched_inv s' Q T /\ same_identity s s' /\
  (t_stack (task_at s next) <> 0 \/ next = idle_task s -> get_current s' = next).
Proof.
  intros HI Hn. assert (Hc := si_this _ _ _ HI). destruct (si_idle _ _ _ HI _ Hc) as (Ei & Hi & _).
  assert (Hok : next <> 0 /\ is_Some (tasks s !! next) /\
    (next <> get_current s -> t_cpu (task_at s next) = this_cpu s \/ next = idle_task s)).
  { destruct Hn as [->|Hn].
    - unfold idle_task. rewrite Ei. splits; [unfold idle_tasks, is_cpu in *; lia|done|by right].
    - destruct (si_queued _ _ _ HI _ _ Hc Hn) as (? & ? & ? & _). splits; try done. by left. }
  destruct Hok as (H0 & Hs & Hcpu). unfold finish_schedule. destruct (Z.eqb_spec next (get_current s)) as [E|Hne].
  { splits; [done|apply same_identity_refl|done]. }
  destruct (negb (next =? idle_task s) && (t_stack (task_at s next) =? 0)) eqn:Eb.
  { apply andb_true_iff in Eb as [Eb1%negb_true_iff%Z.eqb_neq Eb2%Z.eqb_eq].
    splits; [done|apply same_identity_refl|]. intros [|]; congruence. }
  assert (Ecpu : t_cpu (task_at s next) = this_cpu s).
  { destruct (Hcpu Hne) as [|E]; [done|]. rewrite E. unfold idle_task. rewrite Ei. by apply (si_idle_cpu _ _ _ HI). }
  destruct (context_switch_spec s Q T next HI H0 Hs Ecpu) as (H1 & H2 & H3). by splits.
Qed.

Lemma schedule_eq s :
  schedule s =
    let c := this_cpu s in let prev := get_current s in let idle := idle_task s in
    let s := clear_need_resched s in
    let next := pick_next_task s c prev in
    '(next, s) ← (if (next =? idle) && list_empty (nodes s) (NRq c) then
       '(pulled, s) ← try_pull_task s c; Some (if pulled =? 0 then next else pick_next_task s c prev, s)
     else Some (next, s));
    Some (finish_schedule s prev idle next).
Proof.
  unfold schedule, finish_schedule. cbv zeta. match goal with |- mbind _ ?x = _ => destruct x as [[next s']|] end; [|done].
  cbn [mbind option_bind]. by repeat case_match.
Qed.

Lemma schedule_busy s Q T :
  sched_inv s Q T -> let c := this_cpu s in Q c <> [] -> (forall t, t ∈ Q c -> t_stack (task_at s t) <> 0) ->
  exists s', schedule s = Some s' /\ sched_inv s' Q T /\ same_identity s s' /\
    (forall i, Q c !! i = Some (get_current s) -> Q c !! ((i + 1) mod length (Q c))%nat = Some (get_current s')) /\
    (get_current s ∉ Q c -> Q c !! O = Some (get_current s')).
Proof.
  intros HI c Hne Hst. destruct (clear_need_resched_spec s Q T HI) as (HI1 & I1 & Eg & En & Eid).
  rewrite schedule_eq. cbv zeta. set (s1 := clear_need_resched s) in *.
  assert (Ec : this_cpu s1 = c) by apply I1.
  assert (Hr := si_rq _ _ _ HI c (si_this _ _ _ HI)).
  rewrite En, (ring_empty _ _ _ Hr), bool_decide_false by (intros E; by apply fmap_nil_inv in E).
  rewrite andb_false_r. cbn [mbind option_bind].
  destruct (pick_next_spec s1 Q T HI1) as [P1 P2]; [by rewrite Ec|]. rewrite Ec, Eg in P1, P2.
  change (this_cpu s) with c. set (next := pick_next_task s1 c (get_current s)) in *.
  assert (Hin : next ∈ Q c).
  { destruct (decide (get_current s ∈ Q c)) as [Hin|Hn].
    - apply list_elem_of_lookup in Hin as [i Hi]. eapply list_elem_of_lookup_2, (P1 i Hi).
    - eapply list_elem_of_lookup_2, (P2 Hn). }
  destruct (finish_schedule_spec s1 Q T next HI1) as (HI2 & I2 & Eg2); [right; by rewrite Ec|].
  rewrite Eg, Eid in HI2, I2, Eg2. eexists. split; [done|].
  assert (Enx : get_current (finish_schedule s1 (get_current s) (idle_task s) next) = next).
  { apply Eg2. left. destruct I1 as (_ & _ & F). destruct (F next) as (-> & _). by apply Hst. }
  rewrite Enx. splits; try done. by eapply same_identity_trans.
Qed.

(** ** Fairness *)

(** [schedule] called [n] times on this processor (once per expired slice). *)
Fixpoint schedules (n : nat) (s : sched) : option sched :=
  match n with
  | O => Some s
  | S n' => s' ← schedule s; schedules n' s'
  end.

Lemma schedules_rotate k s Q T i :
  sched_inv s Q T -> let c := this_cpu s in
  (forall t, t ∈ Q c -> t_stack (task_at s t) <> 0) -> Q c !! i = Some (get_current s) ->
  exists s', schedules k s = Some s' /\ sched_inv s' Q T /\
    Q c !! ((i + k) mod length (Q c))%nat = Some (get_current s').
Proof.
  revert s i. induction k as [|k IH]; intros s i HI c Hst Hi; cbn [schedules].
  - exists s. splits; try done. rewrite Nat.add_0_r, Nat.mod_small; [done|]. by apply lookup_lt_Some in Hi.
  - assert (Hne : Q c <> []) by (intros E; by rewrite E in Hi).
    destruct (schedule_busy s Q T HI Hne Hst) as (s1 & E1 & HI1 & I1 & H1 & _). rewrite E1. cbn [mbind option_bind].
    assert (Ec : this_cpu s1 = c) by apply I1. specialize (H1 i Hi).
    destruct (IH s1 ((i + 1) mod length (Q c))%nat HI1) as (s' & E' & HI' & H').
    + rewrite Ec. intros t Ht. destruct I1 as (_ & _ & F). destruct (F t) as (-> & _). by apply Hst.
    + rewrite Ec. exact H1.
    + rewrite Ec in H'. exists s'. splits; try done. rewrite <- H'. f_equal.
      rewrite Nat.Div0.add_mod_idemp_l. f_equal. lia.
Qed.

(** C24: the scheduler is fair: on a processor with [n] runnable tasks, each
    of them runs within the next [n] calls of [schedule], whatever ran
    before. *)
Theorem schedule_fair s Q T t :
  sched_inv s Q T -> let c := this_cpu s in
  (forall u, u ∈ Q c -> t_stack (task_at s u) <> 0) -> t ∈ Q c ->
  exists k s', (1 <= k <= length (Q c))%nat /\ schedules k s = Some s' /\ sched_inv s' Q T /\ get_current s' = t.
Proof.
  intros HI c Hst Ht. assert (Hne : Q c <> []) by (intros E; by rewrite E in Ht; apply not_elem_of_nil in Ht).
  set (n := length (Q c)). assert (Hn : (0 < n)%nat) by (unfold n; destruct (Q c); cbn; [done|lia]).
  apply list_elem_of_lookup in Ht as [j Hj]. assert (Hjn := lookup_lt_Some _ _ _ Hj). fold n in Hjn.
  destruct (schedule_busy s Q T HI Hne Hst) as (s1 & E1 & HI1 & I1 & H1 & H2).
  assert (Ec : this_cpu s1 = c) by apply I1.
  assert (Hst1 : forall u, u ∈ Q (this_cpu s1) -> t_stack (task_at s1 u) <> 0).
  { rewrite Ec. intros u Hu. destruct I1 as (_ & _ & F). destruct (F u) as (-> & _). by apply Hst. }
  assert (Hpos : exists i, Q c !! i = Some (get_current s1)).
  { destruct (decide (get_current s ∈ Q c)) as [Hin|Hin]; [|eauto].
    apply list_elem_of_lookup in Hin as [i Hi]. exists ((i + 1) mod n)%nat. by apply H1. }
  destruct Hpos as [i Hi]. assert (Hin := lookup_lt_Some _ _ _ Hi). fold n in Hin.
  (* [k] further calls reach position [j] *)
  set (k := ((j + n - i) mod n)%nat).
  assert (Hk : (k < n)%nat) by (apply Nat.mod_upper_bound; lia).
  destruct (schedules_rotate k s1 Q T i HI1 Hst1) as (s' & E' & HI' & H'); [by rewrite Ec|].
  rewrite Ec in H'. fold n in H'. exists (S k), s'. splits; [lia|lia|by cbn [schedules]; rewrite E1|done|].
  assert (Ej : ((i + k) mod n = j)%nat).
  { unfold k. rewrite Nat.Div0.add_mod_idemp_r. replace (i + (j + n - i))%nat with (j + 1 * n)%nat by lia.
    rewrite Nat.Div0.mod_add. by apply Nat.mod_small. }
  rewrite Ej, Hj in H'. congruence.
Qed.

(** ** Load balancing *)

Lemma busier_fold s this L b0 l0 :
  let r := foldl (busier s this) (b0, l0) L in
  l0 <= snd r /\ (forall c, c ∈ L -> c <> this -> c_nr_running (cpu_at s c) <= snd r) /\
  (r = (b0, l0) \/ (fst r ∈ L /\ fst r <> this /\ snd r = c_nr_running (cpu_at s (fst r)) /\ l0 < snd r)).
Proof.
  revert b0 l0. induction L as [|c L IH]; intros b0 l0; cbn [foldl].
  { splits; [cbn; lia| |by left]. intros c Hc. by apply not_elem_of_nil in Hc. }
  set (acc := busier s this (b0, l0) c).
  assert (Hacc : (acc = (b0, l0) /\ (c <> this -> c_nr_running (cpu_at s c) <= l0)) \/
                 (acc = (c, c_nr_running (cpu_at s c)) /\ c <> this /\ l0 < c_nr_running (cpu_at s c))).
  { unfold acc, busier. destruct (Z.eqb_spec c this); [left; split; [done|lia]|]. cbn [snd].
    case Z.ltb_spec; intros; [by right|left; split; [done|lia]]. }
  destruct Hacc as [[-> Hc]|(-> & Hct & Hlt)].
  - destruct (IH b0 l0) as (H1 & H2 & H3). splits; [done| |].
    + intros d [->|Hd]%elem_of_cons Hne; [specialize (Hc Hne); lia|by apply H2].
    + destruct H3 as [?|(? & ? & ? & ?)]; [by left|right]. splits; try done. by apply list_elem_of_further.
  - destruct (IH c (c_nr_running (cpu_at s c))) as (H1 & H2 & H3). splits; [lia| |].
    + intros d [->|Hd]%elem_of_cons Hne; [lia|by apply H2].
    + right. destruct H3 as [->|(? & ? & ? & ?)]; cbn [fst snd].
      * splits; try done. apply list_elem_of_here.
      * splits; try done; [by apply list_elem_of_further|lia].
Qed.

Lemma find_busiest_spec s Q T this :
  sched_inv s Q T -> is_cpu this ->
  let b := find_busiest_cpu s this in
  (b = -1 /\ forall c, is_cpu c -> c <> this -> (length (Q c) <= S (length (Q this)))%nat) \/
  (is_cpu b /\ b <> this /\ (S (length (Q this)) < length (Q b))%nat /\
     forall c, is_cpu c -> c <> this -> (length (Q c) <= length (Q b))%nat).
Proof.
  intros HI Ht b. unfold b, find_busiest_cpu. rewrite (si_nr _ _ _ HI this Ht).
  assert (Hlen := inv_queue_size s Q T HI this Ht). assert (Hsz := si_size _ _ _ HI). rewrite wrapu_id by lia.
  destruct (busier_fold s this (seqZ 0 NR_CPUS) this (Z.of_nat (length (Q this)) + 1)) as (H1 & H2 & H3).
  assert (Hall : forall c, is_cpu c -> c ∈ seqZ 0 NR_CPUS) by (intros c Hc; apply elem_of_seqZ; unfold is_cpu in Hc; lia).
  set (r := foldl _ _ _) in *. destruct H3 as [->|(Hin & Hne & El & Hlt)]; cbn [fst snd] in *.
  - left. rewrite Z.eqb_refl. split; [done|]. intros c Hc Hct. specialize (H2 c (Hall c Hc) Hct).
    rewrite (si_nr _ _ _ HI c Hc) in H2. lia.
  - right. zdec. apply elem_of_seqZ in Hin. assert (Hb : is_cpu (fst r)) by (unfold is_cpu; lia).
    rewrite (si_nr _ _ _ HI _ Hb) in El. splits; try done; [lia|]. intros c Hc Hct.
    specialize (H2 c (Hall c Hc) Hct). rewrite (si_nr _ _ _ HI c Hc) in H2. lia.
Qed.

Lemma migratable_spec fuel s Q T c x l1 l2 :
  sched_inv s Q T -> is_cpu c -> Q c = l1 ++ l2 -> (length l1 < fuel)%nat ->
  exists t, migratable_loop fuel s (NRq c) (default (NRq c) (last (NRun <$> l1))) x = Some t /\
    ((t = 0 /\ forall u, u ∈ l1 -> u = x \/ t_pid (task_at s u) = 0) \/
     (t ∈ l1 /\ t <> x /\ t_pid (task_at s t) <> 0)).
Proof.
  intros HI Hc. revert l1 l2. induction fuel as [|fuel IH]; intros l1 l2 El Hf; [lia|]. cbn [migratable_loop].
  destruct l1 as [|t l1 _] using rev_ind.
  { cbn. rewrite bool_decide_true by done. exists 0. split; [done|]. left. split; [done|].
    intros u Hu. by apply not_elem_of_nil in Hu. }
  rewrite fmap_app, last_app. cbn. rewrite bool_decide_false by done. rewrite length_app in Hf. cbn in Hf.
  assert (Hr := si_rq _ _ _ HI c Hc). rewrite El, <- app_assoc, fmap_app in Hr. cbn in Hr.
  rewrite (proj2 (ring_split _ _ _ _ _ Hr)).
  destruct (IH l1 (t :: l2)) as (u & Eu & Hu); [by rewrite El, <- app_assoc|lia|].
  assert (Hskip : t = x \/ t_pid (task_at s t) = 0 -> exists t', Some u = Some t' /\
    ((t' = 0 /\ forall w, w ∈ l1 ++ [t] -> w = x \/ t_pid (task_at s w) = 0) \/
     (t' ∈ l1 ++ [t] /\ t' <> x /\ t_pid (task_at s t') <> 0))).
  { intros Hs. exists u. split; [done|]. destruct Hu as [[-> Hu]|(H1 & H2 & H3)]; [left|right].
    - split; [done|]. intros w [Hw|Hw%list_elem_of_singleton]%elem_of_app; [by apply Hu|by subst w].
    - splits; try done. apply elem_of_app. by left. }
  destruct (Z.eqb_spec t x) as [E|Hx]; [rewrite Eu; by apply Hskip; left|].
  destruct (Z.eqb_spec (t_pid (task_at s t)) 0) as [E|Hp]; [rewrite Eu; by apply Hskip; right|].
  exists t. split; [done|]. right. splits; try done. apply elem_of_app. right. by apply list_elem_of_singleton.
Qed.

Lemma try_pull_spec s Q T :
  sched_inv s Q T -> let this := this_cpu s in
  exists r s', try_pull_task s this = Some (r, s') /\
    ((r = 0 /\ s' = s /\
        ((forall c, is_cpu c -> c <> this -> (length (Q c) <= S (length (Q this)))%nat) \/
         exists b, is_cpu b /\ forall u, u ∈ Q b -> u = c_curr (cpu_at s b) \/ t_pid (task_at s u) = 0)) \/
     (r = 1 /\ exists b t, is_cpu b /\ b <> this /\ (S (length (Q this)) < length (Q b))%nat /\
        (forall c, is_cpu c -> c <> this -> (length (Q c) <= length (Q b))%nat) /\
        t ∈ Q b /\ t <> c_curr (cpu_at s b) /\ sched_inv s' (moved t b this Q) T)).
Proof.
  intros HI this. assert (Ht := si_this _ _ _ HI). fold this in Ht. unfold try_pull_task.
  unfold is_cpu in Ht. zdec. destruct (find_busiest_spec s Q T this HI Ht) as [[-> Hle]|(Hb & Hne & Hlt & Hmax)].
  { eexists _, _. split; [done|]. left. auto. }
  set (b := find_busiest_cpu s this) in *. unfold is_cpu in Hb. zdec.
  unfold pick_migratable_task. rewrite (si_nr _ _ _ HI b Hb). zdec.
  assert (Hlen := inv_queue_size s Q T HI b Hb). assert (Hr := si_rq _ _ _ HI b Hb).
  destruct (migratable_spec (walk_fuel s) s Q T b (c_curr (cpu_at s b)) (Q b) [] HI Hb) as (t & Et & H).
  { by rewrite app_nil_r. } { unfold walk_fuel. lia. }
  rewrite (proj2 (ring_head _ _ _ Hr)), Et. cbn [mbind option_bind]. destruct H as [[-> Hall]|(Hin & Hx & Hp)].
  - cbn. eexists _, _. split; [done|]. left. splits; try done. right. by exists b.
  - destruct (si_queued _ _ _ HI b t Hb Hin) as (Ht0 & Hts & Etc & _). zdec.
    destruct (migrate_task_inv s Q T t this HI Hts Ht0 Ht) as (r & s' & -> & Hr'). rewrite Etc in Hr'.
    destruct Hr' as [(_ & _ & E)|[(_ & _ & [Hge|[Hn|E]])|(-> & _ & _ & _ & _ & HI')]]; try done.
    + unfold is_cpu in Hb. lia.
    + eexists _, _. split; [done|]. right. split; [done|]. exists b, t. by splits.
Qed.

(** an idle processor pulls one task from a processor with the longest
    queue, and only when that queue is longer than its own by more than one;
    it never takes the task that runs there. *)
Theorem try_pull_task_correct s Q T :
  sched_inv s Q T -> let this := this_cpu s in
  exists r s', try_pull_task s this = Some (r, s') /\
    ((r = 0 /\ s' = s /\
        ((forall c, is_cpu c -> c <> this -> (length (Q c) <= S (length (Q this)))%nat) \/
         exists b, is_cpu b /\ forall u, u ∈ Q b -> u = c_curr (cpu_at s b) \/ t_pid (task_at s u) = 0)) \/
     (r = 1 /\ exists b t, is_cpu b /\ b <> this /\ (S (length (Q this)) < length (Q b))%nat /\
        (forall c, is_cpu c -> c <> this -> (length (Q c) <= length (Q b))%nat) /\
        t ∈ Q b /\ t <> c_curr (cpu_at s b) /\ sched_inv s' (moved t b this Q) T)).
Proof. apply try_pull_spec. Qed.

(** ** All tasks *)

Lemma attach_rings s Q T m' T' :
  sched_inv s Q T -> ring m' NAll (NTask <$> T') -> (forall t, t ∈ T' -> is_Some (tasks s !! t)) ->
  (forall y, (exists c, y = NRq c) \/ (exists u, y = NRun u) -> nx m' y = nx (nodes s) y /\ pv m' y = pv (nodes s) y) ->
  (forall t, is_Some (tasks s !! t) -> t ∉ T' -> ring m' (NTask t) []) ->
  sched_inv (set_nodes m' s) Q T'.
Proof.
  intros [] Hr HT Hrun Hd. split; try done.
  - intros c Hc. apply (ring_frame (nodes s)); [|by apply si_rq0]. intros y Hy. apply Hrun.
    rewrite elem_of_cons, list_elem_of_fmap in Hy. destruct Hy as [->|(u & -> & _)]; eauto.
  - intros t Ht Hn. apply (ring_frame (nodes s)); [|by apply si_out0]. intros y ->%list_elem_of_singleton.
    apply Hrun. eauto.
Qed.

Lemma task_attach_inv s Q T t :
  sched_inv s Q T -> is_Some (tasks s !! t) ->
  sched_inv (task_attach s t) Q (if decide (t ∈ T) then T else T ++ [t]).
Proof.
  intros HI Ht. unfold task_attach. assert (Hr := si_all _ _ _ HI). case_decide as Hin.
  { by rewrite (ring_linked _ _ _ (NTask t) Hr) by (by apply list_elem_of_fmap_2). }
  rewrite (ring_alone _ _ (si_detached _ _ _ HI t Ht Hin)).
  destruct (ring_add_tail _ _ _ (NTask t) Hr) as [Hr' Ho].
  { rewrite not_elem_of_cons, list_elem_of_fmap. split; [done|]. by intros (u & [= <-] & Hu). }
  apply (attach_rings s Q T); [done|by rewrite fmap_app| | |].
  - intros u [Hu|Hu%list_elem_of_singleton]%elem_of_app; [by apply HI|by subst u].
  - intros y Hy. apply Ho. rewrite !not_elem_of_cons, list_elem_of_fmap.
    destruct Hy as [[c ->]|[u ->]]; splits; try done; by intros (w & ? & _).
  - intros u Hu Hn. rewrite not_elem_of_app, list_elem_of_singleton in Hn. destruct Hn as [Hn Hne].
    apply (ring_frame (nodes s)); [|by apply HI]. intros y ->%list_elem_of_singleton. apply Ho.
    rewrite !not_elem_of_cons, list_elem_of_fmap. splits; [congruence|done|]. by intros (w & [= <-] & Hw).
Qed.

Lemma task_detach_inv s Q T t :
  sched_inv s Q T -> is_Some (tasks s !! t) -> sched_inv (task_detach s t) Q (without t T).
Proof.
  intros HI Ht. unfold task_detach. assert (Hr := si_all _ _ _ HI).
  assert (Hnd : NoDup T).
  { destruct Hr as [Hn _]. apply NoDup_cons in Hn as [_ Hn]. by apply NoDup_fmap in Hn; [|apply _]. }
  destruct (decide (t ∈ T)) as [Hin|Hin].
  2:{ rewrite (ring_alone _ _ (si_detached _ _ _ HI t Ht Hin)). by rewrite without_id. }
  rewrite (ring_linked _ _ _ (NTask t) Hr) by (by apply list_elem_of_fmap_2).
  apply list_elem_of_split in Hin as (l1 & l2 & ->). rewrite fmap_app, fmap_cons in Hr.
  destruct (ring_del _ _ _ _ _ Hr) as (H1 & H2 & Ho).
  apply NoDup_app in Hnd as (_ & Hd1 & Hnd). apply NoDup_cons in Hnd as [Hd2 _].
  rewrite without_split; [|intros Hin; apply (Hd1 t Hin), list_elem_of_here|done].
  apply (attach_rings s Q (l1 ++ t :: l2)); [done|by rewrite fmap_app| | |].
  - intros u Hu. apply HI. rewrite elem_of_app, elem_of_cons. apply elem_of_app in Hu. tauto.
  - intros y Hy. apply Ho. rewrite !not_elem_of_cons, not_elem_of_app, !list_elem_of_fmap.
    destruct Hy as [[c ->]|[u ->]]; splits; try done; by intros (w & ? & _).
  - intros u Hu Hn. destruct (decide (u = t)) as [->|Hne]; [done|]. rewrite not_elem_of_app in Hn.
    apply (ring_frame (nodes s)).
    + intros y ->%list_elem_of_singleton. apply Ho. rewrite !not_elem_of_cons, not_elem_of_app, !list_elem_of_fmap.
      splits; [congruence|done|..]; intros (w & [= <-] & Hw); tauto.
    + apply HI; [done|]. rewrite not_elem_of_app, not_elem_of_cons. tauto.
Qed.

(** A new structure with its list heads initialised, and a freed one. *)
Definition add_task (s : sched) (t : Z) (x : task) : sched :=
  set_nodes (INIT_LIST_HEAD (INIT_LIST_HEAD (nodes s) (NRun t)) (NTask t)) (set_tasks (<[t := x]> (tasks s)) s).

Definition del_task (s : sched) (t : Z) : sched := set_tasks (delete t (tasks s)) s.

Lemma init_other {A} `{EqDecision A} (m : lists A) n y : y <> n ->
  nx (INIT_LIST_HEAD m n) y = nx m y /\ pv (INIT_LIST_HEAD m n) y = pv m y.
Proof. intros Hy. cbn. by rewrite !fn_lookup_insert_ne. Qed.

Lemma add_task_inv s Q T t x :
  sched_inv s Q T -> tasks s !! t = None -> 0 <= t_cpu x -> Z.of_nat (size (tasks s)) < 2 ^ 32 - 2 ->
  sched_inv (add_task s t x) Q T.
Proof.
  intros HI Hn Hx Hsz. set (s' := add_task s t x).
  assert (Hold : forall u, is_Some (tasks s !! u) -> u <> t /\ task_at s' u = task_at s u /\ is_Some (tasks s' !! u)).
  { intros u Hu. assert (t <> u) by (intros ->; rewrite Hn in Hu; by destruct Hu). split; [done|].
    unfold task_at, s'. cbn. by rewrite lookup_insert_ne. }
  assert (Hnode : forall y, y <> NRun t -> y <> NTask t -> nx (nodes s') y = nx (nodes s) y /\ pv (nodes s') y = pv (nodes s) y).
  { intros y H1 H2. unfold s'. cbn [nodes add_task set_nodes set_tasks].
    destruct (init_other (INIT_LIST_HEAD (nodes s) (NRun t)) (NTask t) y H2) as [-> ->]. by apply init_other. }
  assert (Hq : forall c u, is_cpu c -> u ∈ Q c -> u <> t).
  { intros c u Hc Hu. apply Hold. by apply (si_queued _ _ _ HI c u). }
  assert (HTt : forall u, u ∈ T -> u <> t) by (intros u Hu; apply Hold; by apply HI).
  destruct HI. split; try done.
  - intros c Hc. apply (ring_frame (nodes s)); [|by apply si_rq0]. intros y Hy. apply Hnode.
    + intros ->. rewrite elem_of_cons, list_elem_of_fmap in Hy. destruct Hy as [|(u & [= <-] & Hu)]; [done|]. by apply (Hq c t).
    + intros ->. rewrite elem_of_cons, list_elem_of_fmap in Hy. by destruct Hy as [|(u & ? & Hu)].
  - apply (ring_frame (nodes s)); [|done]. intros y Hy. apply Hnode.
    + intros ->. rewrite elem_of_cons, list_elem_of_fmap in Hy. by destruct Hy as [|(u & ? & Hu)].
    + intros ->. rewrite elem_of_cons, list_elem_of_fmap in Hy. destruct Hy as [|(u & [= <-] & Hu)]; [done|]. by apply (HTt t).
  - intros c u Hc Hu. destruct (si_queued0 c u Hc Hu) as (? & Hs & ? & ?). destruct (Hold u Hs) as (_ & -> & ?). done.
  - intros u Hu Hout. destruct (decide (u = t)) as [->|Hne].
    + apply ring_single. unfold s'. cbn [nodes add_task set_nodes set_tasks].
      destruct (init_other (INIT_LIST_HEAD (nodes s) (NRun t)) (NTask t) (NRun t) ltac:(done)) as [-> ->].
      cbn. by rewrite !fn_lookup_insert.
    + apply (ring_frame (nodes s)).
      * intros y ->%list_elem_of_singleton. apply Hnode; [congruence|done].
      * apply si_out0; [|done]. cbn in Hu. by rewrite lookup_insert_ne in Hu.
  - intros u Hu. by apply Hold, si_attached0.
  - intros u Hu HT. destruct (decide (u = t)) as [->|Hne]; [apply ring_init|].
    apply (ring_frame (nodes s)).
    + intros y ->%list_elem_of_singleton. apply Hnode; [done|congruence].
    + apply si_detached0; [|done]. cbn in Hu. by rewrite lookup_insert_ne in Hu.
  - intros c Hc. destruct (si_idle0 c Hc) as (? & Hs & ?). destruct (Hold _ Hs) as (_ & _ & ?). done.
  - intros c Hc. destruct (si_idle0 c Hc) as (? & Hs & ?). destruct (Hold _ Hs) as (_ & -> & _). by apply si_idle_cpu0.
  - intros c Hc. destruct (si_curr0 c Hc) as (? & Hs & ?). destruct (Hold _ Hs) as (_ & E & ?).
    change (c_curr (cpu_at s' c)) with (c_curr (cpu_at s c)). by rewrite E.
  - intros u Hu. destruct (decide (u = t)) as [->|Hne].
    + unfold task_at, s'. cbn. by rewrite lookup_insert_eq.
    + cbn in Hu. rewrite lookup_insert_ne in Hu by done. destruct (Hold u Hu) as (_ & -> & _). by apply si_cpu0.
  - unfold s'. cbn. rewrite map_size_insert_None by done. lia.
Qed.

Lemma del_task_inv s Q T t :
  sched_inv s Q T -> (forall c, is_cpu c -> (t ∉ Q c) /\ t <> idle_tasks c /\ t <> c_curr (cpu_at s c)) -> t ∉ T ->
  sched_inv (del_task s t) Q T.
Proof.
  intros [] Hq HT. assert (Hsome : forall u, is_Some (tasks (del_task s t) !! u) <-> u <> t /\ is_Some (tasks s !! u)).
  { intros u. cbn. rewrite lookup_delete_is_Some. naive_solver. }
  assert (Hat : forall u, u <> t -> task_at (del_task s t) u = task_at s u).
  { intros u Hu. unfold task_at. cbn. by rewrite lookup_delete_ne. }
  split; try done.
  - intros c u Hc Hu. destruct (si_queued0 c u Hc Hu) as (? & ? & ? & ?).
    assert (u <> t) by (intros ->; by destruct (Hq c Hc)). rewrite Hsome, Hat by done. done.
  - intros u Hu. apply si_out0. by apply Hsome.
  - intros u Hu. apply Hsome. split; [by intros ->|by apply si_attached0].
  - intros u Hu. apply si_detached0. by apply Hsome.
  - intros c Hc. destruct (si_idle0 c Hc) as (? & ? & ?). splits; try done. apply Hsome. split; [|done].
    intros E. destruct (Hq c Hc) as (_ & ? & ?). congruence.
  - intros c Hc. rewrite Hat; [by apply si_idle_cpu0|]. intros E. destruct (Hq c Hc) as (_ & ? & ?). congruence.
  - intros c Hc. destruct (si_curr0 c Hc) as (? & ? & ?). change (cpu_at (del_task s t) c) with (cpu_at s c).
    assert (c_curr (cpu_at s c) <> t) by (intros E; destruct (Hq c Hc) as (_ & _ & ?); congruence). rewrite Hsome, Hat by done. done.
  - intros u Hu. apply Hsome in Hu as [Hne Hu]. rewrite Hat by done. by apply si_cpu0.
  - cbn. assert (size (delete t (tasks s)) <= size (tasks s))%nat; [|lia].
    rewrite <- !size_dom, dom_delete. apply subseteq_size. set_solver.
Qed.

(** ** Every operation keeps the queues consistent *)

(** What the processors run does not change. *)
Definition same_cpus (s s' : sched) : Prop :=
  this_cpu s' = this_cpu s /\
  forall d, c_curr (cpu_at s' d) = c_curr (cpu_at s d) /\ c_idle (cpu_at s' d) = c_idle (cpu_at s d).

Lemma same_cpus_trans s1 s2 s3 : same_cpus s1 s2 -> same_cpus s2 s3 -> same_cpus s1 s3.
Proof.
  intros [E1 H1] [E2 H2]. split; [congruence|]. intros d. destruct (H1 d) as [<- <-]. apply H2.
Qed.

Lemma same_cpus_upd s c f :
  (forall x, c_curr (f x) = c_curr x /\ c_idle (f x) = c_idle x) -> same_cpus s (upd_cpu s c f).
Proof.
  intros Hf. split; [done|]. intros d.
  destruct (decide (c = d)) as [<-|]; [rewrite cpu_at_upd; apply Hf|by rewrite cpu_at_upd_ne].
Qed.

Lemma rq_dec_cpus s c : same_cpus s (rq_dec s c).
Proof. unfold rq_dec. case_match; [done|]. by apply same_cpus_upd. Qed.

Lemma resched_cpus s c : same_cpus s (resched_cpu s c).
Proof.
  unfold resched_cpu, send_reschedule_ipi, set_need_resched.
  repeat case_match; try done. by apply same_cpus_upd.
Qed.

Lemma migrate_cpus s t new : same_cpus s (snd (migrate_task s t new)).
Proof.
  unfold migrate_task. do 5 (case_match; [done|]). cbn [snd].
  eapply same_cpus_trans; [|apply resched_cpus]. eapply same_cpus_trans; [|by apply same_cpus_upd].
  exact (rq_dec_cpus (set_nodes (list_del_init (nodes s) (NRun t)) s) (t_cpu (task_at s t))).
Qed.

Lemma pull_cpus s this r s' : try_pull_task s this = Some (r, s') -> same_cpus s s'.
Proof.
  unfold try_pull_task. case_match; [by intros [= _ <-]|]. case_match; [by intros [= _ <-]|].
  destruct (pick_migratable_task _ _ _) as [t|]; [|done]. cbn [mbind option_bind]. case_match; [by intros [= _ <-]|].
  assert (Hmc := migrate_cpus s t this). destruct (migrate_task s t this) as [r' s1]. by intros [= _ <-].
Qed.

Lemma moved_queued t b c Q u :
  is_cpu b -> is_cpu c -> b <> c -> t ∈ Q b ->
  ((exists d, is_cpu d /\ u ∈ Q d) <-> (exists d, is_cpu d /\ u ∈ moved t b c Q d)).
Proof.
  intros Hb Hc Hbc Ht. unfold moved. split; intros (d & Hd & Hu).
  - destruct (decide (u = t)) as [->|Hne].
    + exists c. split; [done|]. rewrite fn_lookup_insert. apply elem_of_app. right. by apply list_elem_of_singleton.
    + exists d. split; [done|]. destruct (decide (c = d)) as [<-|Hcd]; [rewrite fn_lookup_insert; apply elem_of_app; by left|].
      rewrite queue_insert_ne by done. destruct (decide (b = d)) as [<-|Hbd].
      * rewrite fn_lookup_insert. by apply without_elem.
      * by rewrite queue_insert_ne.
  - destruct (decide (c = d)) as [<-|Hcd].
    + rewrite fn_lookup_insert in Hu. apply elem_of_app in Hu as [Hu|Hu%list_elem_of_singleton]; [by exists c|].
      subst u. by exists b.
    + rewrite queue_insert_ne in Hu by done. destruct (decide (b = d)) as [<-|Hbd].
      * rewrite fn_lookup_insert, without_elem in Hu. exists b. tauto.
      * rewrite queue_insert_ne in Hu by done. by exists d.
Qed.

Lemma pick_queued s Q T :
  sched_inv s Q T -> let c := this_cpu s in
  pick_next_task s c (get_current s) = idle_task s \/ pick_next_task s c (get_current s) ∈ Q c.
Proof.
  intros HI c. destruct (decide (Q c = [])) as [E0|Hne].
  - left. unfold c. rewrite (pick_idle s Q T) by done. unfold idle_task.
    by destruct (si_idle _ _ _ HI _ (si_this _ _ _ HI)) as (-> & _).
  - right. destruct (pick_next_spec s Q T HI Hne) as [P1 P2].
    destruct (decide (get_current s ∈ Q c)) as [Hin|Hn].
    + apply list_elem_of_lookup in Hin as [i Hi]. eapply list_elem_of_lookup_2, (P1 i Hi).
    + eapply list_elem_of_lookup_2, (P2 Hn).
Qed.

Lemma schedule_inv s Q T :
  sched_inv s Q T -> exists s' Q', schedule s = Some s' /\ sched_inv s' Q' T /\
    forall t, (exists c, is_cpu c /\ t ∈ Q c) <-> (exists c, is_cpu c /\ t ∈ Q' c).
Proof.
  intros HI. destruct (clear_need_resched_spec s Q T HI) as (HI1 & I1 & Eg & En & Eid).
  rewrite schedule_eq. cbv zeta. set (s1 := clear_need_resched s) in *.
  assert (Ec : this_cpu s1 = this_cpu s) by apply I1. rewrite <- Ec, <- Eg, <- Eid.
  assert (Hfin : forall s2 Q2 next, sched_inv s2 Q2 T -> same_cpus s1 s2 -> (next = idle_task s2 \/ next ∈ Q2 (this_cpu s2)) ->
    sched_inv (finish_schedule s2 (get_current s1) (idle_task s1) next) Q2 T).
  { intros s2 Q2 next H2 [E2 F2] Hn. destruct (finish_schedule_spec s2 Q2 T next H2 Hn) as (H & _).
    unfold get_current, idle_task in *. rewrite E2 in H. by destruct (F2 (this_cpu s1)) as [<- <-]. }
  case_match eqn:Eb.
  2:{ cbn [mbind option_bind]. eexists _, Q. split; [done|]. split; [|done].
      apply Hfin; try done. by apply (pick_queued s1 Q T). }
  destruct (try_pull_spec s1 Q T HI1) as (r & s2 & Ep & Hr2). rewrite Ep. cbn [mbind option_bind].
  destruct Hr2 as [(-> & -> & _)|(-> & b & t & Hb & Hbc & _ & _ & Htb & _ & HI2)]; cbn [Z.eqb].
  - eexists _, Q. split; [done|]. split; [|done]. apply Hfin; try done. by apply (pick_queued s1 Q T).
  - assert (Hs2 := pull_cpus _ _ _ _ Ep). eexists _, _. split; [done|]. split.
    + apply Hfin; [exact HI2|done|]. assert (P := pick_queued s2 _ T HI2). destruct Hs2 as [E2 F2].
      unfold get_current in *. rewrite E2 in P |- *. by destruct (F2 (this_cpu s1)) as [<- _].
    + intros u. apply moved_queued; try done. apply HI1.
Qed.

(** A step of the system: an operation of some processor. *)
Inductive sched_step (s : sched) : sched -> Prop :=
  | step_cpu c : is_cpu c -> sched_step s (set_this_cpu c s)
  | step_new t x : tasks s !! t = None -> 0 <= t_cpu x -> Z.of_nat (size (tasks s)) < 2 ^ 32 - 2 ->
      sched_step s (add_task s t x)
  | step_attach t : is_Some (tasks s !! t) -> sched_step s (task_attach s t)
  | step_wake t : is_Some (tasks s !! t) -> t <> 0 -> (forall c, is_cpu c -> t <> idle_tasks c) ->
      sched_step s (wake_up_process s t)
  | step_block st : sched_step s (sched_block s st)
  | step_dequeue t : is_Some (tasks s !! t) -> sched_step s (dequeue_task s t)
  | step_migrate t c : is_Some (tasks s !! t) -> t <> 0 -> is_cpu c -> sched_step s (snd (migrate_task s t c))
  | step_schedule s' : schedule s = Some s' -> sched_step s s'
  | step_free t : is_Some (tasks s !! t) ->
      (forall c, is_cpu c -> t <> idle_tasks c /\ t <> c_curr (cpu_at s c)) ->
      sched_step s (del_task (task_detach (dequeue_task s t) t) t).

Lemma set_this_cpu_inv s Q T c : is_cpu c -> sched_inv s Q T -> sched_inv (set_this_cpu c s) Q T.
Proof. intros Hc []. by split. Qed.

Lemma dequeue_cpus s t : same_cpus s (dequeue_task s t).
Proof.
  unfold dequeue_task, dequeue_task_locked. repeat case_match; try done.
  exact (rq_dec_cpus (set_nodes (list_del_init (nodes s) (NRun t)) s) _).
Qed.

Lemma sched_step_inv s s' : sched_step s s' -> (exists Q T, sched_inv s Q T) -> exists Q T, sched_inv s' Q T.
Proof.
  intros Hst (Q & T & HI). destruct Hst as [c Hc|t x Hn Hx Hsz|t Ht|t Ht Ht0 Hi|st|t Ht|t c Ht Ht0 Hc|s' E|t Ht Hok].
  - eauto using set_this_cpu_inv.
  - eauto using add_task_inv.
  - eauto using task_attach_inv.
  - destruct (wake_up_process_inv s Q T t HI Ht Ht0 Hi) as (Q' & H & _). eauto.
  - eauto using sched_block_inv.
  - eauto using dequeue_off.
  - destruct (migrate_task_inv s Q T t c HI Ht Ht0 Hc) as (r & s' & -> & [(_ & -> & _)|[(_ & -> & _)|H]]); eauto.
    destruct H as (_ & _ & _ & _ & _ & H). eauto.
  - destruct (schedule_inv s Q T HI) as (s1 & Q' & E' & H & _). rewrite E in E'. injection E' as ->. eauto.
  - assert (H1 := dequeue_off s Q T t HI Ht).
    assert (Ht1 : is_Some (tasks (dequeue_task s t) !! t)) by (by rewrite dequeue_tasks).
    assert (H2 := task_detach_inv _ _ _ t H1 Ht1). exists (off t Q), (without t T). apply del_task_inv; [done| |].
    + intros c Hc. destruct (Hok c Hc) as [Hok1 Hok2]. splits; try done.
      * unfold off. rewrite without_elem. tauto.
      * assert (E : c_curr (cpu_at (task_detach (dequeue_task s t) t) c) = c_curr (cpu_at s c)); [|by rewrite E].
        destruct (dequeue_cpus s t) as [_ F]. destruct (F c) as [<- _]. unfold task_detach. by case_match.
    + rewrite without_elem. tauto.
Qed.

(** The state before [smp_init]: the head of the list of all tasks is
    statically initialised. *)
Definition sched0 : sched := mkSched ∅ (mkLists id id) ∅ 0 1 0 ∅.

Lemma cpu_init_nodes s c :
  (forall n, nx (nodes s) n = n /\ pv (nodes s) n = n) ->
  forall n, nx (nodes (cpu_init s c)) n = n /\ pv (nodes (cpu_init s c)) n = n.
Proof.
  intros H n. destruct (H n) as [H1 H2]. cbn. split.
  - destruct (decide (NRun (idle_tasks c) = n)) as [<-|]; [by rewrite fn_lookup_insert|rewrite fn_lookup_insert_ne by done].
    destruct (decide (NRq c = n)) as [<-|]; [by rewrite fn_lookup_insert|by rewrite fn_lookup_insert_ne].
  - destruct (decide (NRun (idle_tasks c) = n)) as [<-|]; [by rewrite fn_lookup_insert|rewrite fn_lookup_insert_ne by done].
    destruct (decide (NRq c = n)) as [<-|]; [by rewrite fn_lookup_insert|by rewrite fn_lookup_insert_ne].
Qed.

Lemma smp_init_inv : sched_inv (smp_init sched0) (fun _ => []) [].
Proof.
  assert (Hn : forall n, nx (nodes (smp_init sched0)) n = n /\ pv (nodes (smp_init sched0)) n = n).
  { unfold smp_init. assert (H0 : forall n, nx (nodes sched0) n = n /\ pv (nodes sched0) n = n) by done.
    revert H0. generalize sched0. induction (seqZ 0 NR_CPUS) as [|c L IH]; intros s H0; [done|]. cbn [foldl].
    apply IH. by apply cpu_init_nodes. }
  assert (Hcases : forall c, is_cpu c -> c = 0 \/ c = 1 \/ c = 2 \/ c = 3) by (unfold is_cpu, NR_CPUS; lia).
  assert (Htasks : forall t, is_Some (tasks (smp_init sched0) !! t) -> t = 1 \/ t = 2 \/ t = 3 \/ t = 4).
  { intros t. rewrite <- (elem_of_dom (D := gset Z)).
    assert (E : dom (tasks (smp_init sched0)) =@{gset Z} {[1; 2; 3; 4]}) by (vm_compute; reflexivity).
    rewrite E, !elem_of_union, !elem_of_singleton. tauto. }
  split.
  - by vm_compute.
  - intros c _. by apply ring_single.
  - by apply ring_single.
  - intros c [->|[->|[->| ->]]]%Hcases; by vm_compute.
  - intros c t _ Ht. by apply not_elem_of_nil in Ht.
  - intros t _ _. by apply ring_single.
  - intros t Ht. by apply not_elem_of_nil in Ht.
  - intros t _ _. by apply ring_single.
  - intros c [->|[->|[->| ->]]]%Hcases; (split; [by vm_compute|split; [vm_compute; by eexists|]]); intros d _;
      apply not_elem_of_nil.
  - intros c [->|[->|[->| ->]]]%Hcases; by vm_compute.
  - intros c [->|[->|[->| ->]]]%Hcases; (split; [by vm_compute|split; [vm_compute; by eexists|by vm_compute]]).
  - intros t [->|[->|[->| ->]]]%Htasks; by vm_compute.
  - by vm_compute.
Qed.

(** C23: in every state that the operations of any number of processors reach
    from boot, the run queues are consistent: each queue is a well-formed
    ring of runnable tasks of its processor, counted by [nr_running], and
    every other task is unlinked. *)
Theorem run_queues_consistent s : rtc sched_step (smp_init sched0) s -> exists Q T, sched_inv s Q T.
Proof.
  intros H. assert (H0 : exists Q T, sched_inv (smp_init sched0) Q T) by eauto using smp_init_inv.
  revert H0. induction H as [|s1 s2 s3 Hst _ IH]; [done|]. intros H0. apply IH. by eapply sched_step_inv.
Qed.

(** ** Examples *)

(** A new task made runnable, and two of them on processor 0. *)
Definition new_task (t : Z) (s : sched) : sched :=
  wake_up_process (task_attach (add_task s t (set_t_stack 4096 (set_t_pid t task0))) t) t.

Lemma new_task_steps t s :
  100 <= t -> tasks s !! t = None -> Z.of_nat (size (tasks s)) < 2 ^ 32 - 2 -> rtc sched_step s (new_task t s).
Proof.
  intros Ht Hn Hs. set (s1 := add_task s t (set_t_stack 4096 (set_t_pid t task0))).
  assert (H1 : is_Some (tasks s1 !! t)) by (unfold s1; cbn; rewrite lookup_insert_eq; by eexists).
  apply (rtc_l _ _ s1); [by apply step_new|].
  apply (rtc_l _ _ (task_attach s1 t)); [by apply step_attach|]. apply rtc_once. apply step_wake.
  - unfold task_attach. by case_match.
  - lia.
  - intros c Hc. unfold idle_tasks, is_cpu, NR_CPUS in *. lia.
Qed.

Definition one_task : sched := new_task 100 (smp_init sched0).
Definition two_tasks : sched := new_task 200 one_task.

Lemma two_tasks_reachable : rtc sched_step (smp_init sched0) two_tasks.
Proof.
  transitivity one_task; apply new_task_steps; by vm_compute.
Qed.

Lemma run_queues_consistent_witness : exists Q T, sched_inv two_tasks Q T.
Proof. apply run_queues_consistent. apply two_tasks_reachable. Defined.

(** The queue of a processor, read off the list. *)
Fixpoint walk (n : nat) (s : sched) (c : Z) (pos : node) : list Z :=
  match n with
  | O => []
  | S n' => if bool_decide (pos = NRq c) then [] else run_entry pos :: walk n' s c (nx (nodes s) pos)
  end.

Definition queue (s : sched) (c : Z) : list Z := walk (walk_fuel s) s c (nx (nodes s) (NRq c)).

Lemma walk_links n s c x l :
  (length l < n)%nat -> links (nodes s) x (NRun <$> l) (NRq c) -> walk n s c (nx (nodes s) x) = l.
Proof.
  revert x l. induction n as [|n IH]; intros x l Hn Hl; [lia|]. cbn [walk]. destruct l as [|t l]; cbn in Hl.
  - destruct Hl as [-> _]. by rewrite bool_decide_true.
  - destruct Hl as (-> & _ & Hl). rewrite bool_decide_false by done. cbn in *. f_equal. apply IH; [lia|done].
Qed.

Lemma queue_inv s Q T c : sched_inv s Q T -> is_cpu c -> queue s c = Q c.
Proof.
  intros HI Hc. destruct (si_rq _ _ _ HI c Hc) as [_ Hl]. apply (walk_links _ s c (NRq c)); [|done].
  assert (Hlen := inv_queue_size s Q T HI c Hc). unfold walk_fuel. lia.
Qed.

Lemma two_tasks_inv : exists Q T, sched_inv two_tasks Q T /\ Q 0 = [100; 200] /\ Q 1 = [].
Proof.
  assert (H0 : exists Q T, sched_inv (smp_init sched0) Q T) by eauto using smp_init_inv.
  assert (H : exists Q T, sched_inv two_tasks Q T).
  { assert (Hr := two_tasks_reachable). revert H0. induction Hr as [|s1 s2 s3 Hst _ IH]; [done|].
    intros H0. apply IH. by eapply sched_step_inv. }
  destruct H as (Q & T & HI). exists Q, T. split; [exact HI|].
  rewrite <- (queue_inv two_tasks Q T 0 HI), <- (queue_inv two_tasks Q T 1 HI) by (by vm_compute).
  split; vm_compute; reflexivity.
Qed.

Lemma schedule_fair_witness :
  exists k s', (1 <= k <= 2)%nat /\ schedules k two_tasks = Some s' /\ get_current s' = 200.
Proof.
  destruct two_tasks_inv as (Q & T & HI & E0 & _).
  destruct (schedule_fair two_tasks Q T 200 HI) as (k & s' & Hk & E & _ & Hg).
  - change (this_cpu two_tasks) with 0. rewrite E0. intros u [->|[->|Hu]%elem_of_cons]%elem_of_cons.
    + vm_compute. discriminate.
    + vm_compute. discriminate.
    + destruct (not_elem_of_nil u Hu).
  - change (this_cpu two_tasks) with 0. rewrite E0. apply list_elem_of_further, list_elem_of_here.
  - change (this_cpu two_tasks) with 0 in Hk. rewrite E0 in Hk. exact (ex_intro _ k (ex_intro _ s' (conj Hk (conj E Hg)))).
Defined.

(** Processor 1 pulls one of the two tasks of processor 0. *)
Lemma try_pull_task_correct_witness :
  exists r s', try_pull_task (set_this_cpu 1 two_tasks) 1 = Some (r, s') /\ r = 1 /\
    exists Q T, sched_inv s' Q T /\ length (Q 1) = 1%nat.
Proof.
  destruct two_tasks_inv as (Q & T & HI & E0 & E1).
  assert (HI' : sched_inv (set_this_cpu 1 two_tasks) Q T) by (apply set_this_cpu_inv; [by vm_compute|exact HI]).
  destruct (try_pull_task_correct _ Q T HI') as (r & s' & E & H). exists r, s'. split; [exact E|].
  assert (Er : fst <$> try_pull_task (set_this_cpu 1 two_tasks) 1 = Some 1) by (vm_compute; reflexivity).
  change (this_cpu (set_this_cpu 1 two_tasks)) with 1 in E, H. rewrite E in Er. cbn in Er. injection Er as ->.
  split; [reflexivity|]. destruct H as [(H & _)|(_ & b & t & _ & _ & _ & _ & _ & _ & HI2)]; [discriminate H|].
  exists (moved t b 1 Q), T. split; [exact HI2|]. unfold moved. by rewrite fn_lookup_insert, E1.
Defined.

Lemma enqueue_cpus s t : same_cpus s (enqueue_task s t).
Proof.
  unfold enqueue_task, enqueue_task_cpu, enqueue_task_locked. destruct (t =? 0); [done|].
  destruct (NR_CPUS <=? t_cpu (task_at s t)); repeat case_match; try done;
    (eapply same_cpus_trans; [|by apply same_cpus_upd]); done.
Qed.

Lemma wake_cpus s t : same_cpus s (wake_up_process s t).
Proof.
  unfold wake_up_process. repeat case_match; try done.
  eapply same_cpus_trans; [apply enqueue_cpus|apply resched_cpus].
Qed.

(** ** What scheduling leaves alone

    Queueing and waking change four fields of a task; [core] erases them. *)
Definition core (x : task) : task :=
  set_t_cpu 0 (set_t_time_slice 0 (set_t_state TASK_RUNNING (set_t_need_resched 0 x))).

Definition stays (s s' : sched) : Prop :=
  (forall u, is_Some (tasks s' !! u) <-> is_Some (tasks s !! u)) /\
  forall u, core (task_at s' u) = core (task_at s u).

#[export] Instance stays_preorder : PreOrder stays.
Proof.
  split; [by split|]. intros s1 s2 s3 [H1 E1] [H2 E2]. split; intros u; [by rewrite H2|by rewrite E2].
Qed.

Lemma upd_is_some s t f u : is_Some (tasks s !! t) -> is_Some (tasks (upd_task s t f) !! u) <-> is_Some (tasks s !! u).
Proof. intros Ht. cbn. rewrite lookup_insert_is_Some'. naive_solver. Qed.

Lemma stays_upd s t f :
  is_Some (tasks s !! t) -> (forall x, core (f x) = core x) -> stays s (upd_task s t f).
Proof.
  intros Ht Hf. split; intros u; [by apply upd_is_some|].
  destruct (decide (t = u)) as [<-|]; [by rewrite task_at_upd|by rewrite task_at_upd_ne].
Qed.

Lemma stays_same_tasks s s' : tasks s' = tasks s -> stays s s'.
Proof. intros E. unfold stays, task_at. by rewrite E. Qed.

Lemma enqueue_task_stays s t : is_Some (tasks s !! t) -> stays s (enqueue_task s t).
Proof.
  intros Ht. unfold enqueue_task. destruct (t =? 0) eqn:E0; [done|].
  set (s1 := if _ <=? _ then _ else _). assert (H1 : stays s s1).
  { unfold s1. case_match; [by apply stays_upd|done]. }
  etransitivity; [exact H1|]. unfold enqueue_task_cpu, enqueue_task_locked. rewrite E0.
  case_match; [done|]. case_match; [done|]. etransitivity; [apply (stays_upd s1 t)|by apply stays_same_tasks].
  - by apply H1.
  - done.
Qed.

Lemma resched_cpu_stays s c : is_Some (tasks s !! get_current s) -> stays s (resched_cpu s c).
Proof.
  intros Hc. unfold resched_cpu, set_need_resched, send_reschedule_ipi. repeat case_match; try done.
  by apply stays_upd.
Qed.

Lemma wake_up_process_stays s Q T t :
  sched_inv s Q T -> is_Some (tasks s !! t) -> t <> 0 -> (forall d, is_cpu d -> t <> idle_tasks d) ->
  stays s (wake_up_process s t).
Proof.
  intros HI Ht Ht0 Hid. unfold wake_up_process. case_match; [done|]. case_match; [done|].
  etransitivity; [by apply enqueue_task_stays|]. apply resched_cpu_stays.
  destruct (enqueue_task_inv s Q T t HI Ht Ht0 Hid) as [[-> _]|(c & _ & _ & HI' & _)].
  - apply (si_curr _ _ _ HI _ (si_this _ _ _ HI)).
  - apply (si_curr _ _ _ HI' _ (si_this _ _ _ HI')).
Qed.

Lemma wake_up_process_state s t u : t <> u -> t_state (task_at (wake_up_process s t) u) = t_state (task_at s u).
Proof.
  intros Hu. unfold wake_up_process. case_match; [done|]. case_match; [done|].
  assert (E : forall s c, t_state (task_at (resched_cpu s c) u) = t_state (task_at s u)).
  { intros s' c. unfold resched_cpu, set_need_resched, send_reschedule_ipi. repeat case_match; try done.
    destruct (decide (get_current s' = u)) as [<-|]; [by rewrite task_at_upd|by rewrite task_at_upd_ne]. }
  rewrite E. unfold enqueue_task. destruct (t =? 0) eqn:E0; [done|].
  set (s1 := if _ <=? _ then _ else _).
  assert (E1 : task_at s1 u = task_at s u) by (unfold s1; destruct (NR_CPUS <=? t_cpu (task_at s t)); [by apply task_at_upd_ne|done]).
  clearbody s1. unfold enqueue_task_cpu, enqueue_task_locked. rewrite E0. repeat case_match; try by rewrite E1.
  transitivity (t_state (task_at s1 u)); [|by rewrite E1]. f_equal. by apply (task_at_upd_ne s1).
Qed.

(** The two tasks after a first [schedule]: one of them runs. *)
Definition running : sched := default two_tasks (schedule two_tasks).

Lemma default_some {A} (r : option A) (d : A) : bool_decide (is_Some r) = true -> r = Some (default d r).
Proof. rewrite bool_decide_eq_true. by intros [x ->]. Qed.

Lemma running_inv : exists Q T, sched_inv running Q T /\ Q 0 = queue running 0.
Proof.
  destruct two_tasks_inv as (Q & T & HI & _).
  destruct (sched_step_inv two_tasks running) as (Q' & T' & HI').
  - apply step_schedule. exact (default_some (schedule two_tasks) two_tasks ltac:(vm_compute; reflexivity)).
  - by exists Q, T.
  - exists Q', T'. split; [exact HI'|]. symmetry. apply (queue_inv running Q' T' 0 HI'). by vm_compute.
Qed.

(** [schedule] forgets no task and changes no task's state. *)
Definition keeps (s s' : sched) : Prop :=
  forall u, (is_Some (tasks s !! u) -> is_Some (tasks s' !! u)) /\ t_state (task_at s' u) = t_state (task_at s u).

#[export] Instance keeps_preorder : PreOrder keeps.
Proof.
  split; [by intros s u|]. intros s1 s2 s3 H1 H2 u. destruct (H1 u) as [A1 B1], (H2 u) as [A2 B2].
  split; [auto|congruence].
Qed.

Lemma keeps_upd s t f : (forall x, t_state (f x) = t_state x) -> keeps s (upd_task s t f).
Proof.
  intros Hf u. split; [cbn; rewrite lookup_insert_is_Some'; auto|].
  destruct (decide (t = u)) as [<-|]; [by rewrite task_at_upd|by rewrite task_at_upd_ne].
Qed.

Lemma keeps_same_tasks s s' : tasks s' = tasks s -> keeps s s'.
Proof. intros E u. unfold task_at. by rewrite E. Qed.

Lemma keeps_grows s s' u : keeps s s' -> is_Some (tasks s !! u) -> is_Some (tasks s' !! u).
Proof. intros H. apply H. Qed.

Lemma migrate_keeps s t c : keeps s (snd (migrate_task s t c)).
Proof.
  unfold migrate_task. repeat case_match; try done. cbn [snd].
  set (s1 := rq_dec _ _). assert (E1 : tasks s1 = tasks s) by (unfold s1, rq_dec; by case_match).
  transitivity s1; [by apply keeps_same_tasks|]. set (s2 := upd_cpu _ c _).
  transitivity s2; [etransitivity; [apply (keeps_upd s1 t (set_t_cpu c)); done|by apply keeps_same_tasks]|].
  unfold resched_cpu, set_need_resched, send_reschedule_ipi. repeat case_match; try done. by apply keeps_upd.
Qed.

Lemma pull_keeps s this r s' : try_pull_task s this = Some (r, s') -> keeps s s'.
Proof.
  unfold try_pull_task. case_match; [by intros [= <- <-]|]. case_match; [by intros [= <- <-]|].
  destruct (pick_migratable_task s _ _) as [t|]; [|done]. cbn [mbind option_bind]. case_match; [by intros [= <- <-]|].
  destruct (migrate_task s t this) as [r' s1] eqn:E. intros [= <- <-].
  assert (Hk := migrate_keeps s t this). by rewrite E in Hk.
Qed.

Lemma context_switch_keeps s prev next : keeps s (context_switch s prev next).
Proof.
  unfold context_switch. set (s1 := if _ =? 0 then _ else _).
  assert (H1 : keeps s s1) by (unfold s1; case_match; [done|by apply keeps_upd]). clearbody s1.
  set (s2 := upd_task s1 prev _). assert (H2 : keeps s1 s2) by (by apply keeps_upd). clearbody s2.
  set (s3 := upd_task s2 next _). assert (H3 : keeps s2 s3) by (by apply keeps_upd). clearbody s3.
  transitivity s1; [done|]. transitivity s2; [done|]. transitivity s3; [done|].
  unfold mm_install. repeat case_match; by apply keeps_same_tasks.
Qed.

Lemma schedule_keeps s s' : schedule s = Some s' -> keeps s s'.
Proof.
  unfold schedule. set (s1 := clear_need_resched s).
  assert (H1 : keeps s s1) by (unfold s1, clear_need_resched; case_match; [done|by apply keeps_upd]). clearbody s1.
  destruct (if _ && _ then _ else _) as [[next s2]|] eqn:E; [|done]. cbn [mbind option_bind].
  assert (H2 : keeps s1 s2).
  { destruct (_ && _) in E; [|by injection E as <- <-].
    destruct (try_pull_task s1 _) as [[p s3]|] eqn:E3; [|done]. injection E as <- <-. by eapply pull_keeps. }
  intros Hs. transitivity s1; [done|]. transitivity s2; [done|].
  destruct (next =? _); [by injection Hs as <-|]. destruct (negb _ && _); injection Hs as <-; [done|].
  apply context_switch_keeps.
Qed.
