(* ===== verification/Signal.v ===== *)
(** * Signals ([kernel/signal.c], [include/linux/signal.h])

    Queueing, selection and delivery of signals, the frame that a handler
    returns through, and the system calls on masks and actions.  The parts
    that only touch tasks work on the scheduler state; delivery also uses
    the kernel's memory (to look at the stack area) and user memory. *)
From S2P Require Import Prelude Errno ListHead Task Sched PageAlloc Slub AddrSpace Vma PageTable.

(** ** Numbers and masks *)

Definition _NSIG : Z := 64.
Definition NSIG : Z := _NSIG.
Definition SIGKILL : Z := 9.
Abbreviation SIGUSR1 := 10 (only parsing).
Abbreviation SIGSEGV := 11 (only parsing).
Abbreviation SIGUSR2 := 12 (only parsing).
Abbreviation SIGTERM := 15 (only parsing).
Definition SIGCHLD : Z := 17.
Definition SIGCONT : Z := 18.
Definition SIGSTOP : Z := 19.
Definition SIGTSTP : Z := 20.
Abbreviation SIGTTIN := 21 (only parsing).
Abbreviation SIGTTOU := 22 (only parsing).
Abbreviation SIGURG := 23 (only parsing).
Abbreviation SIGWINCH := 28 (only parsing).

Definition SIG_DFL : Z := 0.
Definition SIG_IGN : Z := 1.
Abbreviation SIG_BLOCK := 0 (only parsing).
Abbreviation SIG_UNBLOCK := 1 (only parsing).
Abbreviation SIG_SETMASK := 2 (only parsing).
Abbreviation SA_RESTART := 0x10000000 (only parsing).
Abbreviation SA_NODEFER := 0x40000000 (only parsing).
Abbreviation SA_RESETHAND := 0x80000000 (only parsing).

Definition SIG_BIT (sig : Z) : Z := Z.shiftl 1 (sig - 1).
Definition SIG_UNBLOCKABLE : Z := Z.lor (SIG_BIT SIGKILL) (SIG_BIT SIGSTOP).
Definition SIG_STOP_MASK : Z :=
  Z.lor (Z.lor (SIG_BIT SIGSTOP) (SIG_BIT SIGTSTP)) (Z.lor (SIG_BIT SIGTTIN) (SIG_BIT SIGTTOU)).

Definition signal_valid (sig : Z) : bool := (0 <=? sig) && (sig <? NSIG).
Definition sig_kernel_stop (sig : Z) : bool :=
  (sig =? SIGSTOP) || (sig =? SIGTSTP) || (sig =? SIGTTIN) || (sig =? SIGTTOU).

(** ** Walking the list of tasks *)

Definition task_entry (n : node) : Z := match n with NTask t => t | _ => 0 end.

(** The first task of [for_each_task] that satisfies [p], 0 if none. *)
Fixpoint find_task (fuel : nat) (s : sched) (pos : node) (p : Z -> task -> bool) : option Z :=
  match fuel with
  | O => None
  | S fuel' =>
      if bool_decide (pos = NAll) then Some 0
      else
        let t := task_entry pos in
        if p t (task_at s t) then Some t else find_task fuel' s (nx (nodes s) pos) p
  end.

(** [for_each_task] with a body that may change the state. *)
Fixpoint each_task {R} (fuel : nat) (s : sched) (r : R) (pos : node) (f : sched -> R -> Z -> option (sched * R))
  : option (sched * R) :=
  match fuel with
  | O => None
  | S fuel' =>
      if bool_decide (pos = NAll) then Some (s, r)
      else
        '(s, r) ← f s r (task_entry pos);
        each_task fuel' s r (nx (nodes s) pos) f
  end.

Definition first_task (s : sched) : node := nx (nodes s) NAll.

Definition find_task_by_pid (s : sched) (pid : Z) : option Z :=
  if pid <=? 0 then Some 0
  else find_task (walk_fuel s) s (first_task s) (fun _ t =>
    (t_pid t =? pid) && negb (t_is_user t =? 0) && negb (bool_decide (t_state t = TASK_DEAD))).

(** ** Queueing *)

(** [x & ~m] *)
Definition clear (x m : Z) : Z := Z.ldiff x m.

Definition signal_pending (s : sched) (t : Z) : bool :=
  if t =? 0 then false
  else
    let blocked := clear (t_blocked (task_at s t)) SIG_UNBLOCKABLE in
    let ready := clear (t_pending (task_at s t)) blocked in
    negb (ready =? 0).

(** The effect on the mask of pending signals. *)
Definition queue_mask (pending sig : Z) : Z :=
  let pending := Z.lor pending (SIG_BIT sig) in
  if sig =? SIGCONT then clear pending SIG_STOP_MASK
  else if sig_kernel_stop sig then clear pending (SIG_BIT SIGCONT)
  else pending.

(** [signal_queue], and [notify_parent] of [kernel/exit.c] which it calls when
    it continues a stopped task; [fuel] bounds the chain of parents. *)
Fixpoint signal_queue (fuel : nat) (s : sched) (t sig : Z) : option sched :=
  match fuel with
  | O => None
  | S fuel' =>
      if (t =? 0) || negb (signal_valid sig) || (sig =? 0) then Some s
      else
        let s := upd_task s t (fun x => set_t_pending (queue_mask (t_pending x) sig) x) in
        let st := t_state (task_at s t) in
        if bool_decide (st = TASK_STOPPED) && (sig =? SIGCONT) then
          let s := upd_task s t (fun x => set_t_wait_event CHILD_EVENT_CONTINUED (set_t_state TASK_RUNNING x)) in
          s ← (let parent := t_parent (task_at s t) in
               if parent =? 0 then Some s
               else
                 let sig := if t_exit_signal (task_at s t) =? 0 then SIGCHLD else t_exit_signal (task_at s t) in
                 s ← signal_queue fuel' s parent sig;
                 Some (if bool_decide (t_state (task_at s parent) = TASK_SLEEPING)
                       then wake_up_process s parent else s));
          Some (wake_up_process s t)
        else if bool_decide (st = TASK_SLEEPING) && signal_pending s t then Some (wake_up_process s t)
        else if bool_decide (st = TASK_STOPPED) && (sig =? SIGKILL) then Some (wake_up_process s t)
        else Some s
  end.

Definition signal_send (s : sched) (t sig : Z) : option sched := signal_queue (walk_fuel s) s t sig.

(** [notify_parent] as [do_exit] and [do_signal_stop] call it. *)
Definition notify_parent (s : sched) (child : Z) : option sched :=
  if child =? 0 then Some s
  else
    let parent := t_parent (task_at s child) in
    if parent =? 0 then Some s
    else
      let sig := if t_exit_signal (task_at s child) =? 0 then SIGCHLD else t_exit_signal (task_at s child) in
      s ← signal_send s parent sig;
      Some (if bool_decide (t_state (task_at s parent) = TASK_SLEEPING) then wake_up_process s parent else s).

Definition signal_one_process (s : sched) (pid sig : Z) : option (Z * sched) :=
  t ← find_task_by_pid s pid;
  if t =? 0 then Some (- ESRCH, s)
  else if sig =? 0 then Some (0, s)
  else s ← signal_send s t sig; Some (0, s).

(** The body of the loops over tasks: signal every task that [p] selects. *)
Definition send_if (p : Z -> task -> bool) (sig : Z) (s : sched) (found : bool) (t : Z) : option (sched * bool) :=
  if p t (task_at s t) then
    if sig =? 0 then Some (s, true) else s ← signal_send s t sig; Some (s, true)
  else Some (s, found).

Definition signal_all (s : sched) (p : Z -> task -> bool) (sig : Z) : option (Z * sched) :=
  '(s, found) ← each_task (walk_fuel s) s false (first_task s) (send_if p sig);
  Some (if found : bool then 0 else - ESRCH, s).

Definition signal_process_group (s : sched) (pgid sig : Z) : option (Z * sched) :=
  if pgid <=? 0 then Some (- ESRCH, s)
  else signal_all s (fun _ t => negb (t_is_user t =? 0) && negb (bool_decide (t_state t = TASK_ZOMBIE)) &&
    negb (bool_decide (t_state t = TASK_DEAD)) && (t_pgid t =? pgid)) sig.

Definition ksys_kill (s : sched) (pid sig : Z) : option (Z * sched) :=
  if negb (signal_valid sig) then Some (- EINVAL, s)
  else if 0 <? pid then signal_one_process s (s32 pid) sig
  else if pid =? 0 then
    if get_current s =? 0 then Some (- ESRCH, s)
    else signal_process_group s (t_pgid (task_at s (get_current s))) sig
  else if pid <? -1 then signal_process_group s (s32 (- pid)) sig
  else signal_all s (fun u t => negb (t_is_user t =? 0) && negb (u =? get_current s) &&
    negb (bool_decide (t_state t = TASK_DEAD))) sig.

(** ** Selection *)

Fixpoint lowest_signal (n : nat) (ready sig : Z) : Z :=
  match n with
  | O => 0
  | S n' => if has ready (SIG_BIT sig) then sig else lowest_signal n' ready (sig + 1)
  end.

Definition next_pending_signal (pending blocked : Z) : Z :=
  let ready := clear pending (clear blocked SIG_UNBLOCKABLE) in
  if has ready (SIG_BIT SIGKILL) then SIGKILL
  else if has ready (SIG_BIT SIGSTOP) then SIGSTOP
  else lowest_signal 63 ready 1.

(** ** Delivery *)

(** Delivery needs the kernel's memory and the memory of the current user
    address space, one word per cell. *)
Record sys := mkSys { sys_s : sched; sys_k : slub; sys_u : gmap Z Z }.

Definition with_s (y : sys) (s : sched) : sys := mkSys s (sys_k y) (sys_u y).

(** [struct pt_regs] as its 33 words: [x0] .. [x30], [elr_el1], [spsr_el1]. *)
Definition PT_WORDS : nat := 33.
Definition R_x0 : Z := 0.
Definition R_x30 : Z := 30.
Definition R_elr : Z := 31.

Fixpoint copy_words (n : nat) (i : Z) (dst src : gmap Z Z) : gmap Z Z :=
  match n with
  | O => dst
  | S n' => copy_words n' (i + 1) (<[i := src.[i]]> dst) src
  end.

Definition copy_pt_regs (dst src : gmap Z Z) : gmap Z Z := copy_words PT_WORDS 0 dst src.

(** [struct signal_frame]: the registers, the stack pointer, the mask. *)
Record signal_frame := mkFrame { f_regs : gmap Z Z; f_user_sp : Z; f_blocked : Z }.
Definition SIZEOF_FRAME : Z := 280.

(** [copy_to_user] and [copy_from_user] of a frame, word by word. *)
Fixpoint store_words (n : nat) (i : Z) (u : gmap Z Z) (a : Z) (src : gmap Z Z) : gmap Z Z :=
  match n with
  | O => u
  | S n' => store_words n' (i + 1) (<[a + 8 * i := src.[i]]> u) a src
  end.

Fixpoint load_words (n : nat) (i : Z) (u : gmap Z Z) (a : Z) (dst : gmap Z Z) : gmap Z Z :=
  match n with
  | O => dst
  | S n' => load_words n' (i + 1) u a (<[i := u.[a + 8 * i]]> dst)
  end.

Definition put_frame (u : gmap Z Z) (a : Z) (f : signal_frame) : gmap Z Z :=
  let u := store_words PT_WORDS 0 u a (f_regs f) in
  let u := <[a + 264 := f_user_sp f]> u in
  <[a + 272 := f_blocked f]> u.

Definition get_frame (u : gmap Z Z) (a : Z) : signal_frame :=
  mkFrame (load_words PT_WORDS 0 u a ∅) u.[a + 264] u.[a + 272].

Definition read_user_sp (s : sched) : Z := c_sp_el0 (cpu_at s (this_cpu s)).

Definition write_user_sp (s : sched) (sp : Z) : sched :=
  let s := upd_cpu s (this_cpu s) (set_c_sp_el0 sp) in
  if get_current s =? 0 then s else upd_task s (get_current s) (set_t_user_sp sp).

Definition signal_frame_ok (y : sys) (sp : Z) : option bool :=
  let s := sys_s y in let k := sys_k y in
  if (sp =? 0) || negb (Z.land sp 15 =? 0) then Some false
  else if 2 ^ 64 - 1 - SIZEOF_FRAME <? sp then Some false
  else if get_current s =? 0 then Some false
  else
    let mm := t_mm (task_at s (get_current s)) in
    if mm =? 0 then Some false
    else
      let frame_end := sp + SIZEOF_FRAME in
      vma ← find_vma k mm sp;
      if negb (vma =? 0) && (rd k (vma + VM_start) <=? sp) && (frame_end <=? rd k (vma + VM_end)) &&
         has (rd k (vma + VM_flags)) MAP_PROT_WRITE
      then Some true
      else
        let top := rd k (mm + MM_stack_top) in
        if negb (top =? 0) then
          let bot := u64 (top - USER_STACK_SIZE) in
          Some ((bot <=? sp) && (frame_end <=? top))
        else Some false.

Definition setup_signal_frame (y : sys) (regs : gmap Z Z) (sig handler restorer old_blocked : Z)
  : option (Z * sys * gmap Z Z) :=
  if restorer =? 0 then Some (- EINVAL, y, regs)
  else
    let sp := read_user_sp (sys_s y) in
    if (sp <? SIZEOF_FRAME) || negb (Z.land sp 15 =? 0) then Some (- EFAULT, y, regs)
    else
      let frame := mkFrame (copy_pt_regs ∅ regs) sp old_blocked in
      let sp := sp - SIZEOF_FRAME in
      let sp := Z.land sp (u64 (Z.lnot 15)) in
      ok ← signal_frame_ok y sp;
      if negb ok then Some (- EFAULT, y, regs)
      else
        let y := mkSys (write_user_sp (sys_s y) sp) (sys_k y) (put_frame (sys_u y) sp frame) in
        Some (0, y, <[R_elr := handler]> (<[R_x30 := restorer]> (<[R_x0 := sig]> regs))).

(** What delivery leads to: return to user code, exit of the task, shutdown
    of the system, or the task stopped until it is continued. *)
Inductive sig_result :=
  | SigDone (y : sys) (regs : gmap Z Z)
  | SigExit (code : Z) (y : sys)
  | SigShutdown (sig : Z) (y : sys)
  | SigStopped (y : sys).

Definition apply_syscall_restart (s : sched) (regs : gmap Z Z) (restart : bool) : gmap Z Z :=
  let t := get_current s in
  if (t =? 0) || (t_in_syscall (task_at s t) =? 0) then regs
  else if negb (regs.[R_x0] =? u64 (- ERESTARTSYS)) then regs
  else if restart then <[R_elr := u64 (regs.[R_elr] - 4)]> (<[R_x0 := t_orig_x0 (task_at s t)]> regs)
  else <[R_x0 := u64 (- EINTR)]> regs.

Definition syscall_exit_restart (s : sched) (regs : gmap Z Z) : gmap Z Z := apply_syscall_restart s regs true.

Definition handle_signal (y : sys) (regs : gmap Z Z) (sig : Z) (ka : sigaction) : option sig_result :=
  if (sa_handler ka =? SIG_DFL) || (sa_handler ka =? SIG_IGN) then Some (SigDone y regs)
  else
    let s := sys_s y in
    let cur := get_current s in
    let t := task_at s cur in
    let old_blocked := if t_restore_sigmask t =? 0 then t_blocked t else t_saved_blocked t in
    let s := if t_restore_sigmask t =? 0 then s else upd_task s cur (set_t_restore_sigmask 0) in
    let new_blocked := Z.lor (t_blocked t) (sa_mask ka) in
    let new_blocked := if has (sa_flags ka) SA_NODEFER then new_blocked else Z.lor new_blocked (SIG_BIT sig) in
    let new_blocked := clear new_blocked SIG_UNBLOCKABLE in
    '(r, y, regs) ← setup_signal_frame (with_s y s) regs sig (sa_handler ka) (sa_restorer ka) old_blocked;
    if r <? 0 then Some (SigExit SIGSEGV y)
    else Some (SigDone (with_s y (upd_task (sys_s y) cur (set_t_blocked new_blocked))) regs).

(** [do_signal_stop] up to [schedule], and after it. *)
Definition do_signal_stop (s : sched) (sig : Z) : option sched :=
  let t := get_current s in
  let s := upd_task s t (fun x => set_t_wait_event CHILD_EVENT_STOPPED (set_t_stop_signal sig x)) in
  s ← notify_parent s t;
  schedule (sched_block s TASK_STOPPED).

Definition do_signal_resume (s : sched) (t : Z) : sched :=
  if list_is_linked (nodes s) (NRun t) then upd_task s t (set_t_state TASK_RUNNING) else enqueue_task s t.

Fixpoint do_signal_loop (fuel : nat) (y : sys) (regs : gmap Z Z) : option sig_result :=
  match fuel with
  | O => None
  | S fuel' =>
      let s := sys_s y in
      let cur := get_current s in
      let t := task_at s cur in
      let sig := next_pending_signal (t_pending t) (t_blocked t) in
      if sig =? 0 then Some (SigDone y regs)
      else
        let s := upd_task s cur (fun x => set_t_pending (clear (t_pending x) (SIG_BIT sig)) x) in
        let y := with_s y s in
        if sig =? SIGKILL then Some (SigExit SIGKILL y)
        else if sig =? SIGSTOP then s ← do_signal_stop s SIGSTOP; Some (SigStopped (with_s y s))
        else
          let ka := default sigaction0 (t_actions t !! sig) in
          let handler := sa_handler ka in
          if handler =? SIG_IGN then do_signal_loop fuel' y regs
          else if handler =? SIG_DFL then
            if sig_kernel_stop sig then s ← do_signal_stop s sig; Some (SigStopped (with_s y s))
            else if (t_pid t =? 1) && ((sig =? SIGUSR1) || (sig =? SIGUSR2) || (sig =? SIGTERM)) then
              Some (SigShutdown sig y)
            else if (sig =? SIGCHLD) || (sig =? SIGCONT) || (sig =? SIGURG) || (sig =? SIGWINCH) then
              do_signal_loop fuel' y regs
            else Some (SigExit (Z.land sig 0x7f) y)
          else
            let s :=
              if has (sa_flags ka) SA_RESETHAND then
                upd_task s cur (fun x => set_t_actions
                  (<[sig := mkSigaction SIG_DFL (sa_flags ka) (sa_restorer ka) (sa_mask ka)]> (t_actions x)) x)
              else s in
            let regs := apply_syscall_restart s regs (has (sa_flags ka) SA_RESTART) in
            handle_signal (with_s y s) regs sig ka
  end.

(** A task has at most 63 pending signals; each turn delivers one. *)
Definition do_signal (y : sys) (regs : gmap Z Z) : option sig_result :=
  let cur := get_current (sys_s y) in
  if (cur =? 0) || (t_is_user (task_at (sys_s y) cur) =? 0) then Some (SigDone y regs)
  else do_signal_loop 64 y regs.

Definition ksys_rt_sigreturn (y : sys) (regs : gmap Z Z) : option (Z * sys * gmap Z Z) :=
  let sp := read_user_sp (sys_s y) in
  ok ← signal_frame_ok y sp;
  if negb ok then Some (- EFAULT, y, regs)
  else
    let frame := get_frame (sys_u y) sp in
    let regs := copy_pt_regs regs (f_regs frame) in
    let s := write_user_sp (sys_s y) (f_user_sp frame) in
    let s := if get_current s =? 0 then s
             else upd_task s (get_current s) (set_t_blocked (clear (f_blocked frame) SIG_UNBLOCKABLE)) in
    Some (0, with_s y s, regs).

(** ** Masks and actions *)

Definition is_user_task (s : sched) : bool :=
  negb (get_current s =? 0) && negb (t_is_user (task_at s (get_current s)) =? 0).

Definition SIZEOF_SIGSET : Z := 8.

(** User structures are passed by value here: [None] is a null pointer. *)
Definition ksys_rt_sigaction (s : sched) (sig : Z) (act : option sigaction) (sigsetsize : Z)
  : Z * option sigaction * sched :=
  if negb (is_user_task s) then (- EINVAL, None, s)
  else if negb (sigsetsize =? SIZEOF_SIGSET) then (- EINVAL, None, s)
  else if (sig <=? 0) || (NSIG <=? sig) then (- EINVAL, None, s)
  else if (sig =? SIGKILL) || (sig =? SIGSTOP) then (- EINVAL, None, s)
  else
    let cur := get_current s in
    let old := default sigaction0 (t_actions (task_at s cur) !! sig) in
    match act with
    | None => (0, Some old, s)
    | Some a =>
        let a := mkSigaction (sa_handler a) (sa_flags a) (sa_restorer a) (clear (sa_mask a) SIG_UNBLOCKABLE) in
        (0, Some old, upd_task s cur (fun x => set_t_actions (<[sig := a]> (t_actions x)) x))
    end.

Definition ksys_rt_sigprocmask (s : sched) (how : Z) (set : option Z) (sigsetsize : Z) : Z * Z * sched :=
  if negb (is_user_task s) then (- EINVAL, 0, s)
  else if negb (sigsetsize =? SIZEOF_SIGSET) then (- EINVAL, 0, s)
  else
    let cur := get_current s in
    let old := t_blocked (task_at s cur) in
    match set with
    | None => (0, old, s)
    | Some new =>
        let new := clear new SIG_UNBLOCKABLE in
        if how =? SIG_BLOCK then (0, old, upd_task s cur (set_t_blocked (Z.lor old new)))
        else if how =? SIG_UNBLOCK then (0, old, upd_task s cur (set_t_blocked (clear old new)))
        else if how =? SIG_SETMASK then (0, old, upd_task s cur (set_t_blocked new))
        else (- EINVAL, 0, s)
    end.

Definition ksys_rt_sigpending (s : sched) (set_null : bool) (sigsetsize : Z) : Z * Z :=
  if negb (is_user_task s) then (- EINVAL, 0)
  else if negb (sigsetsize =? SIZEOF_SIGSET) then (- EINVAL, 0)
  else if set_null then (- EFAULT, 0)
  else (0, Z.land (t_pending (task_at s (get_current s))) (t_blocked (task_at s (get_current s)))).

(** [rt_sigsuspend] up to its loop, and a turn of the loop: return, or block
    and switch away. *)
Definition sigsuspend_enter (s : sched) (set : option Z) (sigsetsize : Z) : Z * sched :=
  if negb (is_user_task s) then (- EINVAL, s)
  else if negb (sigsetsize =? SIZEOF_SIGSET) then (- EINVAL, s)
  else match set with
    | None => (- EFAULT, s)
    | Some new =>
        (0, upd_task s (get_current s) (fun x =>
          set_t_blocked (clear new SIG_UNBLOCKABLE) (set_t_restore_sigmask 1 (set_t_saved_blocked (t_blocked x) x))))
    end.

Inductive turn (A : Type) := Return (r : Z) (a : A) | Asleep (a : A).
Arguments Return {A}.
Arguments Asleep {A}.

Definition sigsuspend_turn (s : sched) : option (turn sched) :=
  if signal_pending s (get_current s) then Some (Return (- EINTR) s)
  else s ← schedule (sched_block s TASK_SLEEPING); Some (Asleep s).

(** After [schedule] returned to the task [t]. *)
Definition requeue (s : sched) (t : Z) : sched :=
  if list_is_linked (nodes s) (NRun t) then s else enqueue_task s t.

(** The end of [syscall_handler] ([kernel/sys.c]): the mask of
    [rt_sigsuspend] is undone unless a handler frame holds it. *)
Definition restore_mask (s : sched) : sched :=
  let t := get_current s in
  if (t =? 0) || (t_restore_sigmask (task_at s t) =? 0) then s
  else upd_task s t (fun x => set_t_restore_sigmask 0 (set_t_blocked (clear (t_saved_blocked x) SIG_UNBLOCKABLE) x)).

(** ** Masks *)

Lemma has_sig x sig : 1 <= sig -> has x (SIG_BIT sig) = Z.testbit x (sig - 1).
Proof. intros Hs. apply has_bit. lia. Qed.

Lemma bit_sig sig i : 1 <= sig -> 0 <= i -> Z.testbit (SIG_BIT sig) i = (i =? sig - 1).
Proof.
  intros Hs Hi. unfold SIG_BIT. rewrite Z.shiftl_1_l. destruct (Z.eqb_spec i (sig - 1)) as [->|Hne].
  - apply Z.pow2_bits_true. lia.
  - apply Z.pow2_bits_false. lia.
Qed.

Lemma clear_bit x m i : Z.testbit (clear x m) i = Z.testbit x i && negb (Z.testbit m i).
Proof. apply Z.ldiff_spec. Qed.

Lemma unblockable_bit i : 0 <= i -> Z.testbit SIG_UNBLOCKABLE i = (i =? 8) || (i =? 18).
Proof. intros Hi. unfold SIG_UNBLOCKABLE. rewrite Z.lor_spec, !bit_sig by (by vm_compute || done). done. Qed.

Lemma clear_nonneg x m : 0 <= x -> 0 <= clear x m.
Proof. intros Hx. apply Z.ldiff_nonneg. by left. Qed.

(** The signals that may be delivered. *)
Definition ready_mask (pending blocked : Z) : Z := clear pending (clear blocked SIG_UNBLOCKABLE).

Lemma ready_bit pending blocked i : 0 <= i ->
  Z.testbit (ready_mask pending blocked) i =
    Z.testbit pending i && (negb (Z.testbit blocked i) || (i =? 8) || (i =? 18)).
Proof.
  intros Hi. unfold ready_mask. rewrite !clear_bit, unblockable_bit by done.
  destruct (Z.testbit pending i), (Z.testbit blocked i), (i =? 8), (i =? 18); done.
Qed.

Lemma high_bits x n i : 0 <= x < 2 ^ n -> n <= i -> Z.testbit x i = false.
Proof.
  intros Hx Hi. destruct (decide (x = 0)) as [->|Hne]; [apply Z.bits_0|].
  apply Z.bits_above_log2; [lia|]. assert (Z.log2 x < n) by (apply Z.log2_lt_pow2; lia). lia.
Qed.

Lemma lowest_spec n ready sig : 1 <= sig ->
  let r := lowest_signal n ready sig in
  (r = 0 /\ forall j, sig <= j < sig + Z.of_nat n -> Z.testbit ready (j - 1) = false) \/
  (sig <= r < sig + Z.of_nat n /\ Z.testbit ready (r - 1) = true /\
     forall j, sig <= j < r -> Z.testbit ready (j - 1) = false).
Proof.
  revert sig. induction n as [|n IH]; intros sig Hs; cbn [lowest_signal]; [left; split; [done|lia]|].
  rewrite has_sig by done. destruct (Z.testbit ready (sig - 1)) eqn:E.
  - right. splits; try done; lia.
  - destruct (IH (sig + 1) ltac:(lia)) as [[-> H]|(H1 & H2 & H3)].
    + left. split; [done|]. intros j Hj. destruct (decide (j = sig)) as [->|]; [done|]. apply H. lia.
    + right. splits; try lia; [done|]. intros j Hj. destruct (decide (j = sig)) as [->|]; [done|]. apply H3. lia.
Qed.

Lemma next_pending_spec pending blocked :
  0 <= pending < 2 ^ 63 ->
  let sig := next_pending_signal pending blocked in
  (sig = 0 /\ ready_mask pending blocked = 0) \/
  (1 <= sig < NSIG /\ Z.testbit (ready_mask pending blocked) (sig - 1) = true /\
   (Z.testbit pending (SIGKILL - 1) = true -> sig = SIGKILL) /\
   (sig <> SIGKILL -> sig <> SIGSTOP ->
      forall j, 1 <= j < sig -> Z.testbit (ready_mask pending blocked) (j - 1) = false)).
Proof.
  intros Hp sig. unfold sig, next_pending_signal. fold (ready_mask pending blocked). set (ready := ready_mask _ _).
  rewrite !has_sig by (by vm_compute).
  destruct (Z.testbit ready (SIGKILL - 1)) eqn:EK; [right; by splits|].
  assert (HK : Z.testbit pending (SIGKILL - 1) = false).
  { unfold ready in EK. rewrite ready_bit in EK by (by vm_compute).
    change (SIGKILL - 1 =? 8) with true in EK. by rewrite orb_true_r, andb_true_r in EK. }
  rewrite HK. destruct (Z.testbit ready (SIGSTOP - 1)) eqn:ES; [right; by splits|].
  destruct (lowest_spec 63 ready 1 ltac:(lia)) as [[-> H]|(H1 & H2 & H3)].
  - left. split; [done|]. apply Z.bits_inj'. intros i Hi. rewrite Z.bits_0.
    destruct (decide (i < 63)) as [Hlt|Hge].
    + replace i with (i + 1 - 1) by lia. apply H. lia.
    + unfold ready. rewrite ready_bit by done. rewrite (high_bits pending 63) by lia. done.
  - right. unfold NSIG, _NSIG. splits; try done; lia.
Qed.

(** a signal is chosen exactly when one is deliverable; it is pending and
    not blocked, except that SIGKILL and SIGSTOP cannot be blocked; SIGKILL
    comes first. *)
Theorem next_pending_signal_correct pending blocked :
  0 <= pending < 2 ^ 63 ->
  let sig := next_pending_signal pending blocked in
  (sig = 0 <-> forall j, 1 <= j < NSIG -> Z.testbit pending (j - 1) = true ->
      Z.testbit blocked (j - 1) = true /\ j <> SIGKILL /\ j <> SIGSTOP) /\
  (sig <> 0 -> 1 <= sig < NSIG /\ Z.testbit pending (sig - 1) = true /\
      (Z.testbit blocked (sig - 1) = false \/ sig = SIGKILL \/ sig = SIGSTOP)) /\
  (Z.testbit pending (SIGKILL - 1) = true -> sig = SIGKILL).
Proof.
  intros Hp sig. destruct (next_pending_spec pending blocked Hp) as [[E Hr]|(Hs & Hb & HK & _)];
    [fold sig in E|fold sig in Hs, Hb, HK].
  - assert (Hall : forall j, 1 <= j < NSIG -> Z.testbit pending (j - 1) = true ->
      Z.testbit blocked (j - 1) = true /\ j <> SIGKILL /\ j <> SIGSTOP).
    { intros j Hj Hpj. apply (f_equal (fun x => Z.testbit x (j - 1))) in Hr.
      rewrite ready_bit, Z.bits_0, Hpj in Hr by lia. cbn in Hr.
      rewrite !orb_false_iff, negb_false_iff, !Z.eqb_neq in Hr. unfold SIGKILL, SIGSTOP. splits; [tauto|lia..]. }
    splits; [done| |].
    + done.
    + intros H. destruct (Hall SIGKILL) as (_ & ? & _); try done.
  - rewrite ready_bit in Hb by lia. apply andb_true_iff in Hb as [Hb1 Hb2]. splits.
    + split; [lia|]. intros Hall. destruct (Hall sig Hs Hb1) as (H1 & H2 & H3). rewrite H1 in Hb2. cbn in Hb2.
      unfold SIGKILL, SIGSTOP in *. rewrite orb_true_iff, !Z.eqb_eq in Hb2. lia.
    + intros _. split; [done|]. split; [done|]. rewrite !orb_true_iff, negb_true_iff, !Z.eqb_eq in Hb2.
      unfold SIGKILL, SIGSTOP. destruct Hb2 as [[Hb2|Hb2]|Hb2]; auto with lia.
    + done.
Qed.

(** ** The signal frame *)

Lemma copy_words_get n i dst src j :
  (copy_words n i dst src).[j] = if decide (i <= j < i + Z.of_nat n) then src.[j] else dst.[j].
Proof.
  revert i dst. induction n as [|n IH]; intros i dst; cbn [copy_words]; [by rewrite decide_False by lia|].
  rewrite IH, arr_get_insert_case. repeat case_decide; subst; try done; lia.
Qed.

Lemma load_words_get n i u a dst j :
  (load_words n i u a dst).[j] = if decide (i <= j < i + Z.of_nat n) then u.[a + 8 * j] else dst.[j].
Proof.
  revert i dst. induction n as [|n IH]; intros i dst; cbn [load_words]; [by rewrite decide_False by lia|].
  rewrite IH, arr_get_insert_case. repeat case_decide; subst; try done; lia.
Qed.

Lemma store_words_out n i u a src b :
  (forall j, i <= j < i + Z.of_nat n -> b <> a + 8 * j) -> (store_words n i u a src).[b] = u.[b].
Proof.
  revert i u. induction n as [|n IH]; intros i u Hb; cbn [store_words]; [done|].
  rewrite IH by (intros j Hj; apply Hb; lia). apply arr_get_insert_ne. specialize (Hb i). lia.
Qed.

Lemma store_words_get n i u a src j :
  i <= j < i + Z.of_nat n -> (store_words n i u a src).[a + 8 * j] = src.[j].
Proof.
  revert i u. induction n as [|n IH]; intros i u Hj; cbn [store_words]; [lia|].
  destruct (decide (j = i)) as [->|Hne]; [|apply IH; lia].
  rewrite store_words_out by (intros; lia). apply arr_get_insert.
Qed.

Lemma frame_roundtrip u u' a f :
  (forall b, a <= b < a + SIZEOF_FRAME -> u'.[b] = (put_frame u a f).[b]) ->
  f_user_sp (get_frame u' a) = f_user_sp f /\ f_blocked (get_frame u' a) = f_blocked f /\
  forall i, 0 <= i < 33 -> (f_regs (get_frame u' a)).[i] = (f_regs f).[i].
Proof.
  unfold SIZEOF_FRAME. intros Hu. unfold get_frame. cbn [f_user_sp f_blocked f_regs]. unfold put_frame in Hu. splits.
  - rewrite Hu by lia. rewrite arr_get_insert_ne by lia. apply arr_get_insert.
  - rewrite Hu by lia. apply arr_get_insert.
  - intros i Hi. rewrite load_words_get. rewrite decide_True by (change (Z.of_nat PT_WORDS) with 33; lia). rewrite Hu by lia.
    rewrite !arr_get_insert_ne by lia. apply store_words_get. change (Z.of_nat PT_WORDS) with 33. lia.
Qed.

(** [signal_frame_ok] depends on the current task's address space only. *)
Lemma frame_ok_same y y' sp :
  sys_k y' = sys_k y -> get_current (sys_s y') = get_current (sys_s y) ->
  t_mm (task_at (sys_s y') (get_current (sys_s y))) = t_mm (task_at (sys_s y) (get_current (sys_s y))) ->
  signal_frame_ok y' sp = signal_frame_ok y sp.
Proof. intros E1 E2 E3. unfold signal_frame_ok. by rewrite E1, E2, E3. Qed.

Lemma write_user_sp_spec s sp :
  let s' := write_user_sp s sp in
  get_current s' = get_current s /\ this_cpu s' = this_cpu s /\ read_user_sp s' = sp /\
  (forall u, t_mm (task_at s' u) = t_mm (task_at s u)).
Proof.
  assert (Eg : get_current (upd_cpu s (this_cpu s) (set_c_sp_el0 sp)) = get_current s).
  { unfold get_current. cbn. by rewrite cpu_at_upd. }
  assert (Er : read_user_sp (upd_cpu s (this_cpu s) (set_c_sp_el0 sp)) = sp).
  { unfold read_user_sp. cbn. by rewrite cpu_at_upd. }
  unfold write_user_sp. rewrite Eg. case_match; splits; try done.
  intros u. destruct (decide (get_current s = u)) as [<-|]; [by rewrite task_at_upd|by rewrite task_at_upd_ne].
Qed.

(** C25: returning from a handler undoes its delivery: from the frame that
    [setup_signal_frame] pushed, [rt_sigreturn] restores every register, the
    stack pointer and the signal mask, whatever the handler did to the
    registers and to the memory outside the frame. *)
Theorem signal_frame_roundtrip y regs sig handler restorer blocked y' regs' u' regs1 :
  setup_signal_frame y regs sig handler restorer blocked = Some (0, y', regs') ->
  (forall a, read_user_sp (sys_s y') <= a < read_user_sp (sys_s y') + SIZEOF_FRAME -> u'.[a] = (sys_u y').[a]) ->
  get_current (sys_s y) <> 0 ->
  regs'.[R_elr] = handler /\ regs'.[R_x0] = sig /\ regs'.[R_x30] = restorer /\
  exists y2 regs2, ksys_rt_sigreturn (mkSys (sys_s y') (sys_k y') u') regs1 = Some (0, y2, regs2) /\
    (forall i, 0 <= i < 33 -> regs2.[i] = regs.[i]) /\
    read_user_sp (sys_s y2) = read_user_sp (sys_s y) /\
    t_blocked (task_at (sys_s y2) (get_current (sys_s y))) = clear blocked SIG_UNBLOCKABLE.
Proof.
  intros Hs Hu Hcur. unfold setup_signal_frame in Hs.
  destruct (restorer =? 0); [by injection Hs|]. destruct (_ || _) eqn:Esp; [by injection Hs|].
  set (sp0 := read_user_sp (sys_s y)) in *. set (sp := Z.land (sp0 - SIZEOF_FRAME) (u64 (Z.lnot 15))) in *.
  destruct (signal_frame_ok y sp) as [[|]|] eqn:Eok; cbn [mbind option_bind negb] in Hs; [|by injection Hs|done].
  injection Hs as <- <-. cbn [sys_s sys_k sys_u] in *.
  destruct (write_user_sp_spec (sys_s y) sp) as (Eg & Et & Er & Emm). set (s1 := write_user_sp (sys_s y) sp) in *.
  rewrite Er in Hu. splits; [by rewrite arr_get_insert|by rewrite 2!arr_get_insert_ne, arr_get_insert
    |by rewrite arr_get_insert_ne, arr_get_insert|].
  unfold ksys_rt_sigreturn. cbn [sys_s sys_k sys_u]. rewrite Er.
  assert (Hok : signal_frame_ok (mkSys s1 (sys_k y) u') sp = Some true).
  { rewrite <- Eok. apply frame_ok_same; [done|done|]. apply Emm. }
  rewrite Hok. cbn [mbind option_bind negb]. eexists _, _. split; [done|].
  destruct (frame_roundtrip _ u' sp _ Hu) as (F1 & F2 & F3). cbn [f_user_sp f_blocked f_regs] in F1, F2, F3.
  rewrite F1, F2. destruct (write_user_sp_spec s1 sp0) as (Eg2 & _ & Er2 & _).
  set (s2 := write_user_sp s1 sp0) in *. cbn [sys_s with_s]. rewrite Eg2, Eg. zdec. splits.
  - intros i Hi. unfold copy_pt_regs. rewrite copy_words_get, decide_True by (change (Z.of_nat PT_WORDS) with 33; lia).
    rewrite F3 by done. unfold copy_pt_regs. by rewrite copy_words_get, decide_True by (change (Z.of_nat PT_WORDS) with 33; lia).
  - done.
  - by rewrite task_at_upd.
Qed.

(** ** Sending *)

(** Parents are tasks; nobody is the child of an idle task. *)
Definition family (s : sched) : Prop :=
  forall t, is_Some (tasks s !! t) -> t_parent (task_at s t) = 0 \/
    (is_Some (tasks s !! t_parent (task_at s t)) /\ forall d, is_cpu d -> t_parent (task_at s t) <> idle_tasks d).

(** The continue signal and the stop signals cancel each other. *)
Definition exclusive (pending : Z) : bool := negb (has pending (SIG_BIT SIGCONT) && has pending SIG_STOP_MASK).

Definition queued (Q : Z -> list Z) (t : Z) : Prop := exists c, is_cpu c /\ t ∈ Q c.

Definition stopped (s : sched) : nat := size (filter (fun p => t_state p.2 = TASK_STOPPED) (tasks s)).

(** [core] without what sending changes. *)
Definition sig_core (x : task) : task := set_t_pending 0 (set_t_wait_event CHILD_EVENT_NONE (core x)).

Record sent (s s' : sched) (Q Q' : Z -> list Z) : Prop := {
  sn_some : forall u, is_Some (tasks s' !! u) <-> is_Some (tasks s !! u);
  sn_core : forall u, sig_core (task_at s' u) = sig_core (task_at s u);
  sn_queued : forall u, queued Q u -> queued Q' u;
  sn_exclusive : (forall u, exclusive (t_pending (task_at s u)) = true) ->
    forall u, exclusive (t_pending (task_at s' u)) = true
}.

Lemma sent_refl s Q : sent s s Q Q.
Proof. by split. Qed.

Lemma sent_trans s1 s2 s3 Q1 Q2 Q3 : sent s1 s2 Q1 Q2 -> sent s2 s3 Q2 Q3 -> sent s1 s3 Q1 Q3.
Proof.
  intros [] []. split; auto.
  - intros u. by rewrite sn_some1.
  - intros u. by rewrite sn_core1.
Qed.

Lemma sent_parent s s' Q Q' u : sent s s' Q Q' -> t_parent (task_at s' u) = t_parent (task_at s u).
Proof. intros H. exact (f_equal t_parent (sn_core _ _ _ _ H u)). Qed.

Lemma sent_family s s' Q Q' : sent s s' Q Q' -> family s -> family s'.
Proof.
  intros H HF t Ht. rewrite (sent_parent _ _ _ _ _ H), (sn_some _ _ _ _ H). apply HF. by apply (sn_some _ _ _ _ H).
Qed.

Lemma wake_sent s Q T t :
  sched_inv s Q T -> is_Some (tasks s !! t) -> t <> 0 -> (forall d, is_cpu d -> t <> idle_tasks d) ->
  exists Q', sched_inv (wake_up_process s t) Q' T /\ sent s (wake_up_process s t) Q Q' /\ queued Q' t.
Proof.
  intros HI Ht Ht0 Hid. destruct (wake_up_process_inv s Q T t HI Ht Ht0 Hid) as (Q' & HI' & Hq & Ho).
  destruct (wake_up_process_stays s Q T t HI Ht Ht0 Hid) as [H1 H2]. exists Q'. splits; [done|..|done].
  assert (E : forall u, t_pending (task_at (wake_up_process s t) u) = t_pending (task_at s u)).
  { intros u. exact (f_equal t_pending (H2 u)). }
  split; [done|..].
  - intros u. exact (f_equal (fun x => set_t_pending 0 (set_t_wait_event CHILD_EVENT_NONE x)) (H2 u)).
  - intros u (c & Hc & Hu). destruct (decide (u = t)) as [->|Hne]; [done|]. exists c. by rewrite Ho.
  - intros HE u. by rewrite E.
Qed.

Lemma queue_mask_exclusive p sig : exclusive p = true -> exclusive (queue_mask p sig) = true.
Proof.
  unfold exclusive, queue_mask, has. rewrite !negb_true_iff, !andb_false_iff, !negb_false_iff, !Z.eqb_eq. intros H.
  destruct (Z.eqb_spec sig SIGCONT) as [->|Hc].
  { right. unfold clear. apply Z.bits_inj'. intros i Hi. rewrite Z.land_spec, Z.ldiff_spec, Z.bits_0.
    by destruct (Z.testbit _ _), (Z.testbit SIG_STOP_MASK i). }
  destruct (sig_kernel_stop sig) eqn:Es.
  { left. unfold clear. apply Z.bits_inj'. intros i Hi. rewrite Z.land_spec, Z.ldiff_spec, Z.bits_0.
    by destruct (Z.testbit _ _), (Z.testbit (SIG_BIT SIGCONT) i). }
  unfold sig_kernel_stop in Es. rewrite !orb_false_iff, !Z.eqb_neq in Es.
  assert (Hb : forall j, 1 <= j -> j <> sig -> Z.land (SIG_BIT sig) (SIG_BIT j) = 0).
  { intros j Hj Hne. destruct (decide (1 <= sig)) as [Hs|Hs].
    - apply Z.bits_inj'. intros i Hi. rewrite Z.land_spec, !bit_sig, Z.bits_0 by done.
      rewrite andb_false_iff, !Z.eqb_neq. lia.
    - unfold SIG_BIT. by rewrite (Z.shiftl_1_l (sig - 1)), Z.pow_neg_r by lia. }
  rewrite !Z.land_lor_distr_l. destruct H as [H|H]; [left|right]; rewrite H.
  - rewrite Hb; [done|by vm_compute|done].
  - unfold SIG_STOP_MASK. rewrite !Z.land_lor_distr_r, !Hb by (first [lia|by vm_compute]). done.
Qed.

Lemma queue_bit_sent s Q T t sig :
  sched_inv s Q T -> is_Some (tasks s !! t) ->
  let s' := upd_task s t (fun x => set_t_pending (queue_mask (t_pending x) sig) x) in
  sched_inv s' Q T /\ sent s s' Q Q.
Proof.
  intros HI Ht s'. split; [apply (inv_task_fields s Q T HI); auto|]. split; [| |done|].
  - intros u. by apply upd_is_some.
  - intros u. unfold s'. destruct (decide (t = u)) as [<-|]; [by rewrite task_at_upd|by rewrite task_at_upd_ne].
  - intros HE u. unfold s'. destruct (decide (t = u)) as [<-|]; [rewrite task_at_upd|by rewrite task_at_upd_ne].
    apply queue_mask_exclusive, HE.
Qed.

Lemma stopped_same s t f :
  is_Some (tasks s !! t) -> (forall x, t_state (f x) = t_state x) -> stopped (upd_task s t f) = stopped s.
Proof.
  intros [x Ht] Hf. unfold stopped, upd_task, task_at. cbn. rewrite Ht. cbn.
  destruct (decide (t_state x = TASK_STOPPED)) as [Hs|Hs].
  - rewrite map_filter_insert_True by (cbn; by rewrite Hf). apply map_size_insert_Some.
    exists x. by apply map_lookup_filter_Some.
  - rewrite map_filter_insert_False by (cbn; by rewrite Hf). rewrite map_filter_delete.
    f_equal. apply delete_id. apply map_lookup_filter_None. right. intros y Hy. cbn. congruence.
Qed.

Lemma stopped_less s t f :
  is_Some (tasks s !! t) -> t_state (task_at s t) = TASK_STOPPED -> t_state (f (task_at s t)) <> TASK_STOPPED ->
  S (stopped (upd_task s t f)) = stopped s.
Proof.
  intros [x Ht]. unfold stopped, upd_task, task_at. cbn. rewrite Ht. cbn. intros Hs Hf.
  rewrite map_filter_insert_False by done. rewrite map_filter_delete, map_size_delete_Some.
  - enough (size (filter (fun p => t_state p.2 = TASK_STOPPED) (tasks s)) <> 0%nat) by lia.
    intros E. apply map_size_empty_inv in E. apply (f_equal (lookup t)) in E. rewrite lookup_empty in E.
    apply map_lookup_filter_None in E as [E|E]; [congruence|]. by apply (E x).
  - exists x. by apply map_lookup_filter_Some.
Qed.

Lemma stopped_bound s : (stopped s <= size (tasks s))%nat.
Proof. unfold stopped. rewrite <- !size_dom. apply subseteq_size, dom_filter_subseteq. Qed.

(** Who is woken. *)
Definition wakes (s : sched) (t sig : Z) : bool :=
  let s' := upd_task s t (fun x => set_t_pending (queue_mask (t_pending x) sig) x) in
  match t_state (task_at s t) with
  | TASK_STOPPED => (sig =? SIGCONT) || (sig =? SIGKILL)
  | TASK_SLEEPING => signal_pending s' t
  | _ => false
  end.

Definition queue_spec (T : list Z) (fuel : nat) : Prop :=
  forall s Q t sig, sched_inv s Q T -> family s -> is_Some (tasks s !! t) -> t <> 0 ->
    (forall d, is_cpu d -> t <> idle_tasks d) -> (stopped s < fuel)%nat ->
    exists s' Q', signal_queue fuel s t sig = Some s' /\ sched_inv s' Q' T /\ sent s s' Q Q' /\
      (1 <= sig < NSIG -> wakes s t sig = true -> queued Q' t) /\
      (1 <= sig < NSIG -> t_state (task_at s t) <> TASK_STOPPED \/ sig <> SIGCONT ->
         t_pending (task_at s' t) = queue_mask (t_pending (task_at s t)) sig).

(** Continuing a stopped task, given the specification for the recursive
    call. *)
Lemma continue_spec T fuel :
  queue_spec T fuel ->
  forall s Q t, sched_inv s Q T -> family s -> is_Some (tasks s !! t) -> t <> 0 ->
    (forall d, is_cpu d -> t <> idle_tasks d) -> t_state (task_at s t) = TASK_STOPPED -> (stopped s < S fuel)%nat ->
  exists s' Q',
    (let s := upd_task s t (fun x => set_t_wait_event CHILD_EVENT_CONTINUED (set_t_state TASK_RUNNING x)) in
     s ← (let parent := t_parent (task_at s t) in
          if parent =? 0 then Some s
          else
            let sig := if t_exit_signal (task_at s t) =? 0 then SIGCHLD else t_exit_signal (task_at s t) in
            s ← signal_queue fuel s parent sig;
            Some (if bool_decide (t_state (task_at s parent) = TASK_SLEEPING)
                  then wake_up_process s parent else s));
     Some (wake_up_process s t)) = Some s' /\
    sched_inv s' Q' T /\ sent s s' Q Q' /\ queued Q' t.
Proof.
  intros IH s Q t HI HF Ht Ht0 Hid Est Hfuel. cbv zeta.
  assert (Hoff : forall c, is_cpu c -> t ∉ Q c).
  { intros c Hc Hin. destruct (si_queued _ _ _ HI c t Hc Hin) as (_ & _ & _ & E). congruence. }
  set (f := fun x => set_t_wait_event CHILD_EVENT_CONTINUED (set_t_state TASK_RUNNING x)).
  set (s1 := upd_task s t f). assert (HI1 : sched_inv s1 Q T) by (apply (inv_task_fields s Q T HI); auto).
  assert (Hs1 : sent s s1 Q Q).
  { split; [by intros; apply upd_is_some| |done|]; [intros u|intros HE u]; unfold s1;
      (destruct (decide (t = u)) as [<-|]; [rewrite task_at_upd|by rewrite task_at_upd_ne]); [done|apply HE]. }
  assert (Hst : (stopped s1 < fuel)%nat).
  { enough (S (stopped s1) = stopped s) by lia. by apply stopped_less. }
  assert (HF1 : family s1) by (by apply (sent_family s s1 Q Q)).
  assert (Ht1 : is_Some (tasks s1 !! t)) by (by apply (sn_some _ _ _ _ Hs1)).
  assert (Hfin : forall s2 Q2, sched_inv s2 Q2 T -> sent s s2 Q Q2 ->
    exists s' Q', Some (wake_up_process s2 t) = Some s' /\ sched_inv s' Q' T /\ sent s s' Q Q' /\ queued Q' t).
  { intros s2 Q2 HI2 Hs2. destruct (wake_sent s2 Q2 T t HI2) as (Q' & H1 & H2 & H3); try done.
    { by apply (sn_some _ _ _ _ Hs2). }
    exists (wake_up_process s2 t), Q'. splits; try done. by eapply sent_trans. }
  destruct (Z.eqb_spec (t_parent (task_at s1 t)) 0) as [E0|Hp0]; cbn [mbind option_bind]; [by apply (Hfin s1 Q)|].
  destruct (HF1 t Ht1) as [?|[Hp Hpid]]; [done|]. set (p := t_parent (task_at s1 t)) in *.
  set (sig := if t_exit_signal _ =? 0 then _ else _).
  destruct (IH s1 Q p sig HI1 HF1 Hp Hp0 Hpid Hst) as (s2 & Q2 & E & HI2 & Hs2 & _). rewrite E. cbn [mbind option_bind].
  assert (Hs12 : sent s s2 Q Q2) by (by eapply sent_trans).
  case_bool_decide; [|by apply (Hfin s2 Q2)].
  destruct (wake_sent s2 Q2 T p HI2) as (Q3 & HI3 & Hs3 & _); try done.
  { by apply (sn_some _ _ _ _ Hs2). }
  apply (Hfin _ Q3); [done|]. by eapply sent_trans.
Qed.

Lemma signal_queue_spec T fuel : queue_spec T fuel.
Proof.
  induction fuel as [|fuel IH]; intros s Q t sig HI HF Ht Ht0 Hid Hfuel; [lia|]. cbn [signal_queue]. zdec. cbn [orb].
  destruct (negb (signal_valid sig) || (sig =? 0)) eqn:Ev.
  { exists s, Q. splits; try done; intros Hs; exfalso; unfold signal_valid in Ev; revert Ev;
      rewrite orb_true_iff, negb_true_iff, andb_false_iff, Z.leb_gt, Z.ltb_ge, Z.eqb_eq; lia. }
  destruct (queue_bit_sent s Q T t sig HI Ht) as [HI1 Hs1]. unfold wakes.
  set (s1 := upd_task s t _) in *. cbv zeta. assert (Et : t_state (task_at s1 t) = t_state (task_at s t)).
  { unfold s1. by rewrite task_at_upd. }
  assert (Ep : t_pending (task_at s1 t) = queue_mask (t_pending (task_at s t)) sig).
  { unfold s1. by rewrite task_at_upd. }
  assert (Ht1 : is_Some (tasks s1 !! t)) by (by apply (sn_some _ _ _ _ Hs1)).
  assert (Hwake : exists s' Q', Some (wake_up_process s1 t) = Some s' /\ sched_inv s' Q' T /\ sent s s' Q Q' /\
    queued Q' t /\ t_pending (task_at s' t) = queue_mask (t_pending (task_at s t)) sig).
  { destruct (wake_sent s1 Q T t HI1 Ht1 Ht0 Hid) as (Q' & HI' & Hs' & Hq). exists (wake_up_process s1 t), Q'.
    splits; [done|done|by eapply sent_trans|done|]. rewrite <- Ep.
    exact (f_equal t_pending (proj2 (wake_up_process_stays s1 Q T t HI1 Ht1 Ht0 Hid) t)). }
  rewrite Et. destruct (t_state (task_at s t)) eqn:Est; rewrite ?bool_decide_false by done; cbn [andb];
    try (exists s1, Q; splits; done).
  - rewrite bool_decide_true by done. cbn [andb]. destruct (signal_pending s1 t); [|exists s1, Q; splits; done].
    destruct Hwake as (s' & Q' & ? & ? & ? & ? & ?). exists s', Q'. by splits.
  - rewrite bool_decide_true by done. cbn [andb]. destruct (Z.eqb_spec sig SIGCONT) as [->|Hc].
    2:{ destruct (Z.eqb_spec sig SIGKILL) as [->|Hk]; [|exists s1, Q; splits; done].
        destruct Hwake as (s' & Q' & ? & ? & ? & ? & ?). exists s', Q'. by splits. }
    destruct (continue_spec T fuel IH s1 Q t HI1) as (s' & Q' & E & HI' & Hs' & Hq); try done.
    { by apply (sent_family s s1 Q Q). }
    { unfold s1. by rewrite stopped_same. }
    exists s', Q'. splits; [exact E|done|by eapply sent_trans|done|]. intros _ [?|?]; done.
Qed.

(** sending a signal ends, however long the chain of parents that it
    notifies (each step continues one stopped task), and leaves consistent run
    queues: the target has the signal pending, SIGCONT and the stop signals are
    never both pending for any task, no queued task is lost, and the target is
    made runnable when the signal continues or kills it while it is stopped or
    is deliverable while it sleeps. *)
Theorem signal_send_correct s Q T t sig :
  sched_inv s Q T -> family s -> is_Some (tasks s !! t) -> t <> 0 -> (forall d, is_cpu d -> t <> idle_tasks d) ->
  1 <= sig < NSIG ->
  exists s' Q', signal_send s t sig = Some s' /\ sched_inv s' Q' T /\ family s' /\
    ((forall u, exclusive (t_pending (task_at s u)) = true) -> forall u, exclusive (t_pending (task_at s' u)) = true) /\
    (forall u, queued Q u -> queued Q' u) /\
    (wakes s t sig = true -> queued Q' t) /\
    (t_state (task_at s t) <> TASK_STOPPED \/ sig <> SIGCONT ->
       t_pending (task_at s' t) = queue_mask (t_pending (task_at s t)) sig).
Proof.
  intros HI HF Ht Ht0 Hid Hs.
  destruct (signal_queue_spec T (walk_fuel s) s Q t sig HI HF Ht Ht0 Hid) as (s' & Q' & E & HI' & Hse & Hw & Hp).
  { unfold walk_fuel. assert (H := stopped_bound s). lia. }
  exists s', Q'. splits; auto; try apply Hse. by apply (sent_family s s' Q Q').
Qed.

Lemma setup_signal_frame_eq y regs sig handler restorer blocked :
  let sp0 := read_user_sp (sys_s y) in let sp := Z.land (sp0 - SIZEOF_FRAME) (u64 (Z.lnot 15)) in
  (restorer =? 0) = false -> (sp0 <? SIZEOF_FRAME) || negb (Z.land sp0 15 =? 0) = false ->
  signal_frame_ok y sp = Some true ->
  exists y' regs', setup_signal_frame y regs sig handler restorer blocked = Some (0, y', regs').
Proof.
  intros sp0 sp Hr Hsp Hok. unfold setup_signal_frame. fold sp0. rewrite Hr, Hsp. fold sp. rewrite Hok.
  eexists _, _. reflexivity.
Qed.

(** ** Examples *)

(** A task with an address space that has a stack. *)
Definition user_sys : sys :=
  let s := two_tasks in
  let s := upd_task s (get_current s) (set_t_mm mm0) in
  mkSys (upd_cpu s (this_cpu s) (set_c_sp_el0 0x403ff00)) (wr km (mm0 + MM_stack_top) USER_STACK_TOP) ∅.

Lemma signal_frame_roundtrip_witness :
  exists y' regs' y2 regs2, setup_signal_frame user_sys (<[R_x0 := 7]> ∅) SIGTSTP 0x1000 0x2000 0 = Some (0, y', regs') /\
    regs'.[R_x0] = SIGTSTP /\ ksys_rt_sigreturn y' regs' = Some (0, y2, regs2) /\ regs2.[R_x0] = 7.
Proof.
  destruct (setup_signal_frame_eq user_sys (<[R_x0 := 7]> ∅) SIGTSTP 0x1000 0x2000 0
    eq_refl ltac:(vm_compute; reflexivity) ltac:(vm_compute; reflexivity)) as (y' & regs' & E).
  destruct (signal_frame_roundtrip user_sys _ _ _ _ _ y' regs' (sys_u y') regs' E (fun a _ => eq_refl)
    ltac:(vm_compute; discriminate)) as (_ & E0 & _ & y2 & regs2 & E2 & Hr & _).
  exists y', regs', y2, regs2. split; [exact E|]. split; [exact E0|]. split; [by destruct y'|].
  rewrite (Hr R_x0 ltac:(unfold R_x0; lia)). reflexivity.
Defined.

Lemma next_pending_signal_correct_witness :
  next_pending_signal (SIG_BIT SIGTSTP) (SIG_BIT SIGTSTP) = 0 /\
  forall j, 1 <= j < NSIG -> Z.testbit (SIG_BIT SIGTSTP) (j - 1) = true ->
    Z.testbit (SIG_BIT SIGTSTP) (j - 1) = true /\ j <> SIGKILL /\ j <> SIGSTOP.
Proof.
  split; [vm_compute; reflexivity|].
  apply (next_pending_signal_correct (SIG_BIT SIGTSTP) (SIG_BIT SIGTSTP) ltac:(vm_compute; split; [discriminate|reflexivity])).
  vm_compute. reflexivity.
Defined.

Lemma family_roots s : map_Forall (fun _ x => t_parent x = 0) (tasks s) -> family s.
Proof. intros H t [x Ht]. left. unfold task_at. rewrite Ht. by apply (H t). Qed.

Lemma signal_send_correct_witness :
  exists s' Q', signal_send two_tasks 200 SIGTSTP = Some s' /\ queued Q' 200 /\
    t_pending (task_at s' 200) = SIG_BIT SIGTSTP.
Proof.
  destruct two_tasks_inv as (Q & T & HI & E0 & _).
  destruct (signal_send_correct two_tasks Q T 200 SIGTSTP HI
    (family_roots two_tasks ltac:(apply (bool_decide_eq_true_1 (map_Forall _ _)); vm_compute; reflexivity))
    ltac:(eexists; vm_compute; reflexivity) ltac:(discriminate)
    ltac:(intros d Hd; unfold is_cpu, NR_CPUS, idle_tasks in *; lia) ltac:(vm_compute; split; [discriminate|reflexivity]))
    as (s' & Q' & E & _ & _ & _ & Hq & _ & Hp).
  exists s', Q'. split; [exact E|]. split.
  - apply Hq. exists 0. split; [unfold is_cpu, NR_CPUS; lia|]. rewrite E0. apply list_elem_of_further, list_elem_of_here.
  - rewrite Hp by (right; discriminate). vm_compute. reflexivity.
Defined.
