(* ===== verification/Kill.v ===== *)
(** * Signals to processes and groups ([kernel/signal.c], [ksys_kill])

    The walks over the list of tasks, and who receives a signal sent by
    [kill] for every value of its first argument. *)
From S2P Require Import Prelude Errno ListHead Task Sched Signal.

(** ** Walks over the list of tasks *)

Lemma ring_step s T l1 t l2 :
  ring (nodes s) NAll (NTask <$> T) -> T = l1 ++ t :: l2 -> nx (nodes s) (NTask t) = default NAll (NTask <$> head l2).
Proof.
  intros [_ Hl] ->. rewrite fmap_app, fmap_cons in Hl. apply links_app in Hl as [_ Hl]. destruct l2 as [|u l2]; apply Hl.
Qed.

Lemma first_task_eq s T : ring (nodes s) NAll (NTask <$> T) -> first_task s = default NAll (NTask <$> head T).
Proof. intros H%ring_head. unfold first_task. rewrite (proj1 H). by destruct T. Qed.

(** [for_each_task] with a body that keeps the list: an invariant of the tasks
    visited so far holds of all tasks in the end. *)
Lemma each_task_walk {R} (P : list Z -> sched -> R -> Prop) T (f : sched -> R -> Z -> option (sched * R)) :
  (forall l1 t l2 s r, T = l1 ++ t :: l2 -> P l1 s r -> exists s' r', f s r t = Some (s', r') /\ P (l1 ++ [t]) s' r') ->
  (forall l s r, P l s r -> ring (nodes s) NAll (NTask <$> T)) ->
  forall fuel s r, P [] s r -> (length T < fuel)%nat ->
  exists s' r', each_task fuel s r (first_task s) f = Some (s', r') /\ P T s' r'.
Proof.
  intros Hf Hring. enough (forall l2 l1 fuel s r, T = l1 ++ l2 -> P l1 s r -> (length l2 < fuel)%nat ->
    exists s' r', each_task fuel s r (default NAll (NTask <$> head l2)) f = Some (s', r') /\ P T s' r') as Hw.
  { intros fuel s r HP Hfuel. rewrite (first_task_eq s T) by by eapply Hring. by apply (Hw T []). }
  induction l2 as [|t l2 IH]; intros l1 fuel s r E HP Hfuel; (destruct fuel as [|fuel]; [cbn in Hfuel; lia|]).
  - rewrite app_nil_r in E. subst. by exists s, r.
  - change (default NAll (NTask <$> head (t :: l2))) with (NTask t). cbn [each_task task_entry]. rewrite bool_decide_false by done.
    destruct (Hf l1 t l2 s r E HP) as (s1 & r1 & -> & HP1). cbn [mbind option_bind].
    rewrite (ring_step s1 T l1 t l2 (Hring _ _ _ HP1) E). apply (IH (l1 ++ [t])); [by rewrite <- app_assoc|done|cbn in Hfuel; lia].
Qed.

Lemma find_task_walk s T p :
  ring (nodes s) NAll (NTask <$> T) -> forall fuel, (length T < fuel)%nat ->
  find_task fuel s (first_task s) p = Some (default 0 (head (filter (fun t => p t (task_at s t) = true) T))).
Proof.
  intros HR. rewrite (first_task_eq s T HR). enough (forall l2 l1 fuel, T = l1 ++ l2 -> (length l2 < fuel)%nat ->
    find_task fuel s (default NAll (NTask <$> head l2)) p = Some (default 0 (head (filter (fun t => p t (task_at s t) = true) l2)))) as Hw.
  { intros fuel Hf. by apply (Hw T []). }
  induction l2 as [|t l2 IH]; intros l1 fuel E Hf; (destruct fuel as [|fuel]; [cbn in Hf; lia|]); [done|].
  change (default NAll (NTask <$> head (t :: l2))) with (NTask t). cbn [find_task task_entry]. rewrite bool_decide_false by done.
  rewrite filter_cons. destruct (p t (task_at s t)) eqn:Ep; [by rewrite decide_True|]. rewrite decide_False by done.
  rewrite (ring_step s T l1 t l2 HR E). apply (IH (l1 ++ [t])); [by rewrite <- app_assoc|cbn in Hf; lia].
Qed.

Lemma inv_all_size s Q T : sched_inv s Q T -> NoDup T /\ (length T < walk_fuel s)%nat.
Proof.
  intros HI. assert (NoDup T) as Hn.
  { destruct (si_all _ _ _ HI) as [[_ Hn]%NoDup_cons _]. by apply NoDup_fmap in Hn; [|apply _]. }
  split; [done|]. unfold walk_fuel. assert (length T <= size (tasks s))%nat; [|lia].
  rewrite <- size_dom, <- (size_list_to_set (C := gset Z)) by done. apply subseteq_size.
  intros t Ht. apply elem_of_dom, (si_attached _ _ _ HI). by apply elem_of_list_to_set in Ht.
Qed.

(** ** Sending to several tasks *)

(** [u] is told that a child of it goes on: the child is stopped and SIGCONT is
    sent to it. *)
Definition notified (s : sched) (l : list Z) (sig u : Z) : Prop :=
  sig = SIGCONT /\ u <> 0 /\ Exists (fun t => t_state (task_at s t) = TASK_STOPPED /\ t_parent (task_at s t) = u) l.

#[export] Instance notified_dec s l sig u : Decision (notified s l sig u).
Proof. unfold notified. apply _. Defined.

(** Children report to their parents with SIGCHLD. *)
Definition reports_child (s : sched) : Prop := forall t, t_exit_signal (task_at s t) = 0 \/ t_exit_signal (task_at s t) = SIGCHLD.

(** The pending signals of [u] when [sig] was sent to the tasks of [l]. *)
Definition pending_after (s : sched) (l : list Z) (sig u : Z) : Z :=
  let p := if decide (u ∈ l) then queue_mask (t_pending (task_at s u)) sig else t_pending (task_at s u) in
  if decide (notified s l sig u) then Z.lor p (SIG_BIT SIGCHLD) else p.

(** What sending [sig] to the tasks of [l] does, compared with the start. *)
Record delivered (s0 s : sched) (Q0 Q : Z -> list Z) (T l : list Z) (sig : Z) : Prop := {
  dl_inv : sched_inv s Q T;
  dl_sent : sent s0 s Q0 Q;
  dl_pending : forall u, t_pending (task_at s u) = pending_after s0 l sig u;
  dl_state : forall u, u ∉ l \/ wakes s0 u sig = false -> t_state (task_at s u) = t_state (task_at s0 u) \/
    (notified s0 l sig u /\ t_state (task_at s0 u) = TASK_SLEEPING);
  dl_woken : forall u, u ∈ l -> wakes s0 u sig = true -> queued Q u;
  dl_parents : forall u, notified s0 l sig u -> t_state (task_at s0 u) = TASK_SLEEPING -> queued Q u
}.

(** A task that signals may be sent to. *)
Definition target_ok (s : sched) (t : Z) : Prop :=
  is_Some (tasks s !! t) /\ t <> 0 /\ forall d, is_cpu d -> t <> idle_tasks d.

Lemma not_notified s l sig u : sig <> SIGCONT -> ~ notified s l sig u.
Proof. by intros H [? _]. Qed.

Lemma notified_nil s sig u : ~ notified s [] sig u.
Proof. by intros (_ & _ & H%Exists_nil). Qed.

Lemma notified_one s t sig u :
  notified s [t] sig u <-> sig = SIGCONT /\ u <> 0 /\ t_state (task_at s t) = TASK_STOPPED /\ t_parent (task_at s t) = u.
Proof. unfold notified. rewrite Exists_cons, Exists_nil. tauto. Qed.

Lemma pending_plain s l sig u : ~ notified s l sig u ->
  pending_after s l sig u = if decide (u ∈ l) then queue_mask (t_pending (task_at s u)) sig else t_pending (task_at s u).
Proof. intros H. unfold pending_after. by rewrite decide_False. Qed.

Lemma delivered_nil s Q T sig : sched_inv s Q T -> delivered s s Q Q T [] sig.
Proof.
  intros HI. split; [done|apply sent_refl|..].
  - intros u. rewrite pending_plain by apply notified_nil. by rewrite decide_False by apply not_elem_of_nil.
  - by left.
  - by intros u Hu%elem_of_nil.
  - by intros u Hu%notified_nil.
Qed.

Lemma queued_running s Q T u : sched_inv s Q T -> queued Q u -> t_state (task_at s u) = TASK_RUNNING.
Proof. intros HI (c & Hc & Hu). by destruct (si_queued _ _ _ HI c u Hc Hu) as (_ & _ & _ & ?). Qed.

(** The signal is made pending, and the task perhaps woken. *)
Lemma pend_wake s Q T t sig (w : bool) :
  sched_inv s Q T -> target_ok s t ->
  let s1 := upd_task s t (fun x => set_t_pending (queue_mask (t_pending x) sig) x) in
  let s' := if w then wake_up_process s1 t else s1 in
  exists Q', sched_inv s' Q' T /\ sent s s' Q Q' /\
    (forall u, t_pending (task_at s' u) = if decide (u = t) then queue_mask (t_pending (task_at s u)) sig else t_pending (task_at s u)) /\
    (forall u, u <> t \/ w = false -> t_state (task_at s' u) = t_state (task_at s u)) /\ (w = true -> queued Q' t).
Proof.
  intros HI (Ht & Ht0 & Hid) s1 s'. destruct (queue_bit_sent s Q T t sig HI Ht) as [HI1 Hs1]. fold s1 in HI1, Hs1.
  assert (Ep : forall u, t_pending (task_at s1 u) = if decide (u = t) then queue_mask (t_pending (task_at s u)) sig else t_pending (task_at s u)).
  { intros u. unfold s1. case_decide; [subst u; by rewrite task_at_upd|by rewrite task_at_upd_ne]. }
  assert (Et : forall u, t_state (task_at s1 u) = t_state (task_at s u)).
  { intros u. unfold s1. destruct (decide (u = t)) as [->|]; [by rewrite task_at_upd|by rewrite task_at_upd_ne]. }
  assert (Ht1 : is_Some (tasks s1 !! t)) by (by apply (sn_some _ _ _ _ Hs1)). unfold s'. clearbody s1. destruct w.
  - destruct (wake_sent s1 Q T t HI1 Ht1 Ht0 Hid) as (Q' & HI' & Hs' & Hq). exists Q'. split; [done|]. split; [by eapply sent_trans|]. split; [|split; [|done]].
    + intros u. rewrite <- Ep. exact (f_equal t_pending (proj2 (wake_up_process_stays s1 Q T t HI1 Ht1 Ht0 Hid) u)).
    + intros u [Hu|?]; [|done]. rewrite wake_up_process_state by done. apply Et.
  - exists Q. split; [done|]. split; [done|]. split; [exact Ep|]. by split; [intros u _|].
Qed.

Lemma signal_queue_plain fuel s t sig :
  t <> 0 -> 1 <= sig < NSIG -> sig <> SIGCONT \/ t_state (task_at s t) <> TASK_STOPPED ->
  let s1 := upd_task s t (fun x => set_t_pending (queue_mask (t_pending x) sig) x) in
  signal_queue (S fuel) s t sig = Some (if wakes s t sig then wake_up_process s1 t else s1).
Proof.
  intros Ht Hs Hc s1. cbn [signal_queue]. zdec. replace (signal_valid sig) with true by (symmetry; unfold signal_valid; lia).
  cbn [negb orb]. fold s1. unfold wakes. fold s1.
  replace (t_state (task_at s1 t)) with (t_state (task_at s t)) by (unfold s1; by rewrite task_at_upd).
  destruct (t_state (task_at s t)) eqn:Est; rewrite ?(bool_decide_false (_ = TASK_STOPPED)), ?(bool_decide_false (_ = TASK_SLEEPING)) by done; cbn [andb]; try done.
  - rewrite bool_decide_true by done. by destruct (signal_pending s1 t).
  - rewrite !bool_decide_true by done. cbn [andb]. destruct (Z.eqb_spec sig SIGCONT) as [->|]; [tauto|]. by destruct (sig =? SIGKILL).
Qed.

Lemma send_plain s Q T t sig :
  sched_inv s Q T -> target_ok s t -> 1 <= sig < NSIG -> sig <> SIGCONT \/ t_state (task_at s t) <> TASK_STOPPED ->
  exists s' Q', signal_send s t sig = Some s' /\ delivered s s' Q Q' T [t] sig.
Proof.
  intros HI Ht Hs Hc. unfold signal_send, walk_fuel. rewrite signal_queue_plain by (done || apply Ht). cbv zeta.
  destruct (pend_wake s Q T t sig (wakes s t sig) HI Ht) as (Q' & HI' & Hs' & Hp & Hst & Hq). cbv zeta in *.
  assert (Hn : forall u, ~ notified s [t] sig u) by (intros u (? & _ & ? & _)%notified_one; destruct Hc; done).
  eexists _, Q'. split; [done|]. split; try done.
  - intros u. rewrite Hp, pending_plain by done. by apply decide_ext; rewrite list_elem_of_singleton.
  - intros u Hu. left. apply Hst. rewrite list_elem_of_singleton in Hu. destruct (decide (u = t)) as [->|]; tauto.
  - by intros u ->%list_elem_of_singleton.
  - by intros u Hu%Hn.
Qed.

(** The parent of a task hears of it. *)
Lemma notify_spec fuel s Q T t :
  sched_inv s Q T -> family s -> reports_child s -> is_Some (tasks s !! t) ->
  let p := t_parent (task_at s t) in
  exists s' Q',
    (if p =? 0 then Some s
     else
       let sig := if t_exit_signal (task_at s t) =? 0 then SIGCHLD else t_exit_signal (task_at s t) in
       s ← signal_queue (S fuel) s p sig;
       Some (if bool_decide (t_state (task_at s p) = TASK_SLEEPING) then wake_up_process s p else s)) = Some s' /\
    sched_inv s' Q' T /\ sent s s' Q Q' /\
    (forall u, t_pending (task_at s' u) =
       if decide (u = p /\ p <> 0) then Z.lor (t_pending (task_at s u)) (SIG_BIT SIGCHLD) else t_pending (task_at s u)) /\
    (forall u, t_state (task_at s' u) = t_state (task_at s u) \/ (u = p /\ p <> 0 /\ t_state (task_at s u) = TASK_SLEEPING)) /\
    (p <> 0 -> t_state (task_at s p) = TASK_SLEEPING -> queued Q' p).
Proof.
  intros HI HF HC Ht p. destruct (Z.eqb_spec p 0) as [E0|Hp0].
  { exists s, Q. split; [done|]. split; [done|]. split; [apply sent_refl|]. split; [|split; [by left|done]]. intros u. by rewrite decide_False by tauto. }
  destruct (HF t Ht) as [?|[Hps Hpid]]; [done|]. fold p in Hps, Hpid. assert (Hp : target_ok s p) by done. cbv zeta.
  replace (if t_exit_signal (task_at s t) =? 0 then SIGCHLD else t_exit_signal (task_at s t)) with SIGCHLD by (by destruct (HC t) as [-> | ->]).
  rewrite signal_queue_plain by (try done; by left). cbn [mbind option_bind]. set (s1 := upd_task s p _).
  set (w := bool_decide (t_state (task_at s p) = TASK_SLEEPING)).
  destruct (pend_wake s Q T p SIGCHLD w HI Hp) as (Q' & HI' & Hs' & Hpe & Hst & Hq). fold s1 in HI', Hs', Hpe, Hst.
  assert (E : (if bool_decide (t_state (task_at (if wakes s p SIGCHLD then wake_up_process s1 p else s1) p) = TASK_SLEEPING)
               then wake_up_process (if wakes s p SIGCHLD then wake_up_process s1 p else s1) p
               else if wakes s p SIGCHLD then wake_up_process s1 p else s1) = if w then wake_up_process s1 p else s1).
  { assert (E1 : t_state (task_at s1 p) = t_state (task_at s p)) by (unfold s1; by rewrite task_at_upd).
    destruct (wakes s p SIGCHLD) eqn:Ew.
    - assert (Ew' : w = true) by (revert Ew; unfold w, wakes; by destruct (t_state (task_at s p))). rewrite Ew' in *.
      rewrite bool_decide_false; [done|]. by rewrite (queued_running _ Q' T p HI' (Hq eq_refl)).
    - by rewrite E1. }
  rewrite E. eexists _, Q'. split; [done|]. split; [done|]. split; [done|]. split; [|split].
  - intros u. rewrite Hpe. apply decide_ext. tauto.
  - intros u. destruct (decide (u = p)) as [->|]; [|left; apply Hst; by left]. destruct (decide (t_state (task_at s p) = TASK_SLEEPING)); [by right|]. left. apply Hst. right. by apply bool_decide_false.
  - intros _ Hsl. apply Hq. unfold w. by apply bool_decide_true.
Qed.

(** SIGCONT to a stopped task. *)
Lemma send_continue s Q T t :
  sched_inv s Q T -> family s -> reports_child s -> target_ok s t -> t_state (task_at s t) = TASK_STOPPED ->
  exists s' Q', signal_send s t SIGCONT = Some s' /\ delivered s s' Q Q' T [t] SIGCONT.
Proof.
  intros HI HF HC (Ht & Ht0 & Hid) Hst. unfold signal_send, walk_fuel. remember (S (size (tasks s))) as n eqn:En. cbn [signal_queue]. zdec.
  change (negb (signal_valid SIGCONT)) with false. change (SIGCONT =? 0) with false. cbn [orb].
  destruct (queue_bit_sent s Q T t SIGCONT HI Ht) as [HI1 Hs1]. set (s1 := upd_task s t _) in *. cbv zeta.
  replace (t_state (task_at s1 t)) with TASK_STOPPED by (unfold s1; by rewrite task_at_upd). rewrite bool_decide_true by done. change (SIGCONT =? SIGCONT) with true. cbn [andb].
  set (s2 := upd_task s1 t _).
  assert (Hoff : forall c, is_cpu c -> t ∉ Q c). { intros c Hc Hin. destruct (si_queued _ _ _ HI c t Hc Hin) as (_ & _ & _ & E). congruence. }
  assert (Ht1 : is_Some (tasks s1 !! t)) by (by apply (sn_some _ _ _ _ Hs1)).
  assert (HI2 : sched_inv s2 Q T) by (apply (inv_task_fields s1 Q T HI1); auto).
  assert (E2 : forall u, u <> t -> task_at s2 u = task_at s u) by (intros u Hu; unfold s2, s1; by rewrite !task_at_upd_ne).
  assert (E2t : t_pending (task_at s2 t) = queue_mask (t_pending (task_at s t)) SIGCONT /\ t_parent (task_at s2 t) = t_parent (task_at s t) /\
    t_exit_signal (task_at s2 t) = t_exit_signal (task_at s t) /\ t_state (task_at s2 t) = TASK_RUNNING) by (unfold s2, s1; by rewrite !task_at_upd).
  assert (Hs2 : sent s s2 Q Q).
  { eapply sent_trans; [exact Hs1|]. split; [by intros; apply upd_is_some| |done|]; [intros u|intros HE u]; unfold s2;
      (destruct (decide (t = u)) as [<-|]; [rewrite task_at_upd|by rewrite task_at_upd_ne]); [done|apply HE]. }
  clearbody s2. clear s1 HI1 Hs1 Ht1. assert (HF2 := sent_family _ _ _ _ Hs2 HF). assert (Ht2 : is_Some (tasks s2 !! t)) by (by apply (sn_some _ _ _ _ Hs2)).
  assert (HC2 : reports_child s2).
  { intros u. destruct (decide (u = t)) as [->|Hu]; [rewrite (proj1 (proj2 (proj2 E2t)))|rewrite E2 by done]; apply HC. }
  destruct (notify_spec (size (tasks s)) s2 Q T t HI2 HF2 HC2 Ht2) as (s3 & Q3 & E3 & HI3 & Hs3 & Hp3 & Hst3 & Hq3). rewrite En.
  assert (Ht3 : is_Some (tasks s3 !! t)) by (by apply (sn_some _ _ _ _ Hs3)).
  destruct (wake_sent s3 Q3 T t HI3 Ht3 Ht0 Hid) as (Q' & HI' & Hs' & Hq). exists (wake_up_process s3 t), Q'. split.
  { cbv zeta in E3. rewrite E3. done. }
  assert (Epar := proj1 (proj2 E2t)). set (p := t_parent (task_at s2 t)) in *.
  assert (Hn : forall u, notified s [t] SIGCONT u <-> u = p /\ p <> 0) by (intros u; rewrite notified_one, <- Epar; intuition congruence).
  split; [done|by eapply sent_trans, sent_trans|..].
  - intros u. transitivity (t_pending (task_at s3 u)); [exact (f_equal t_pending (proj2 (wake_up_process_stays s3 Q3 T t HI3 Ht3 Ht0 Hid) u))|].
    rewrite Hp3. unfold pending_after. assert (Eu : t_pending (task_at s2 u) = if decide (u ∈ [t]) then queue_mask (t_pending (task_at s u)) SIGCONT else t_pending (task_at s u)).
    { destruct (decide (u = t)) as [->|Hu]; [rewrite decide_True by (by left); apply E2t|]. by rewrite decide_False, E2 by (by rewrite ?list_elem_of_singleton). }
    rewrite Eu. apply decide_ext. symmetry. apply Hn.
  - intros u Hu'. assert (Hu : u <> t).
    { rewrite list_elem_of_singleton in Hu'. intros ->. destruct Hu' as [?|Hw]; [done|]. unfold wakes in Hw. by rewrite Hst in Hw. }
    rewrite wake_up_process_state by done. rewrite Hn, <- (E2 u Hu).
    destruct (Hst3 u) as [?|(? & ? & ?)]; [by left|by right].
  - by intros u ->%list_elem_of_singleton _.
  - intros u Hu Hsl. apply (sn_queued _ _ _ _ Hs'). apply Hn in Hu as [-> Hp0]. apply Hq3; [done|].
    destruct (decide (p = t)) as [Ep|Hpt]; [exfalso; rewrite Ep in Hsl; congruence|]. by rewrite E2.
Qed.

Lemma send_one s Q T t sig :
  sched_inv s Q T -> family s -> (sig = SIGCONT -> reports_child s) -> target_ok s t -> 1 <= sig < NSIG ->
  exists s' Q', signal_send s t sig = Some s' /\ delivered s s' Q Q' T [t] sig.
Proof.
  intros HI HF HC Ht Hs. destruct (decide (sig = SIGCONT)) as [->|Hc]; [|apply send_plain; try done; by left].
  destruct (decide (t_state (task_at s t) = TASK_STOPPED)) as [E|E]; [apply send_continue; auto|apply send_plain; try done; by right].
Qed.

Lemma in_snoc (l : list Z) t u : u ∈ l ++ [t] <-> u ∈ l \/ u = t.
Proof. by rewrite elem_of_app, list_elem_of_singleton. Qed.

Lemma notified_snoc s l t sig u : notified s (l ++ [t]) sig u <-> notified s l sig u \/ notified s [t] sig u.
Proof. unfold notified. rewrite Exists_app. tauto. Qed.

Lemma wakes_same s0 s t sig :
  t_state (task_at s t) = t_state (task_at s0 t) ->
  (t_state (task_at s0 t) = TASK_SLEEPING -> t_pending (task_at s t) = t_pending (task_at s0 t)) ->
  t_blocked (task_at s t) = t_blocked (task_at s0 t) -> wakes s t sig = wakes s0 t sig.
Proof.
  intros E1 E2 E3. unfold wakes. rewrite E1. case_match; try done. unfold signal_pending. rewrite !task_at_upd. cbn. by rewrite E2, E3.
Qed.

Lemma queue_mask_child p : queue_mask (Z.lor p (SIG_BIT SIGCHLD)) SIGCONT = Z.lor (queue_mask p SIGCONT) (SIG_BIT SIGCHLD).
Proof.
  unfold queue_mask, clear. change (SIGCONT =? SIGCONT) with true. cbn iota.
  rewrite !Z.ldiff_land, <- Z.lor_assoc, (Z.lor_comm (SIG_BIT SIGCHLD)), Z.lor_assoc, Z.land_lor_distr_l. by f_equal.
Qed.

Section Compose.
Context (s0 s s' : sched) (Q0 Q Q' : Z -> list Z) (T l : list Z) (t sig : Z).
Context (HD : delivered s0 s Q0 Q T l sig) (HD' : delivered s s' Q Q' T [t] sig) (Ht : t ∉ l).

Lemma told_runs u : notified s0 l sig u -> t_state (task_at s0 u) = TASK_SLEEPING -> t_state (task_at s u) = TASK_RUNNING.
Proof using HD. intros Hn Hs. eapply queued_running; [apply HD|]. by apply (dl_parents _ _ _ _ _ _ _ HD). Qed.

Lemma target_state : t_state (task_at s t) = t_state (task_at s0 t) \/
  (notified s0 l sig t /\ t_state (task_at s0 t) = TASK_SLEEPING /\ t_state (task_at s t) = TASK_RUNNING).
Proof using HD Ht.
  destruct (dl_state _ _ _ _ _ _ _ HD t) as [?|[? ?]]; [by left|by left|]. right. split; [done|]. split; [done|]. by apply told_runs.
Qed.

Lemma told_later u : notified s [t] sig u <-> notified s0 [t] sig u.
Proof using HD Ht.
  rewrite !notified_one, (sent_parent _ _ _ _ t (dl_sent _ _ _ _ _ _ _ HD)).
  destruct target_state as [->|(_ & -> & ->)]; [done|]. intuition congruence.
Qed.

Lemma target_wakes : wakes s t sig = wakes s0 t sig \/ (notified s0 l sig t /\ t_state (task_at s0 t) = TASK_SLEEPING).
Proof using HD Ht.
  destruct target_state as [E|(? & ? & _)]; [|by right]. destruct (decide (notified s0 l sig t /\ t_state (task_at s0 t) = TASK_SLEEPING)) as [?|Hn]; [by right|].
  left. apply wakes_same; [done| |exact (f_equal t_blocked (sn_core _ _ _ _ (dl_sent _ _ _ _ _ _ _ HD) t))].
  intros Hs. rewrite (dl_pending _ _ _ _ _ _ _ HD), pending_plain by tauto. by rewrite decide_False.
Qed.

Lemma pending_snoc u : pending_after s [t] sig u = pending_after s0 (l ++ [t]) sig u.
Proof using HD Ht.
  unfold pending_after at 1. rewrite (dl_pending _ _ _ _ _ _ _ HD u). unfold pending_after.
  assert (H1 := told_later u). assert (H2 := notified_snoc s0 l t sig u). assert (H3 := in_snoc l t u). assert (H4 := list_elem_of_singleton u t).
  assert (Hc : notified s0 l sig u -> sig = SIGCONT) by (by intros []).
  assert (Hl : forall x c, Z.lor (Z.lor x c) c = Z.lor x c) by (intros; by rewrite <- Z.lor_assoc, Z.lor_diag).
  destruct (decide (notified s0 (l ++ [t]) sig u)) as [N|N], (decide (notified s [t] sig u)) as [N2|N2],
    (decide (notified s0 l sig u)) as [N1|N1]; try tauto;
  destruct (decide (u ∈ l ++ [t])) as [I|I], (decide (u ∈ l)) as [I1|I1], (decide (u ∈ [t])) as [I2|I2]; try tauto;
  try (apply H4 in I2; subst u; done); try (rewrite (Hc N1), queue_mask_child); by rewrite ?Hl.
Qed.

Lemma delivered_snoc : delivered s0 s' Q0 Q' T (l ++ [t]) sig.
Proof using All.
  assert (Hs' := dl_sent _ _ _ _ _ _ _ HD'). split; [apply HD'|eapply sent_trans; [apply HD|done]|..].
  - intros u. rewrite (dl_pending _ _ _ _ _ _ _ HD' u). apply pending_snoc.
  - intros u Hu. rewrite notified_snoc, <- (told_later u). rewrite in_snoc in Hu.
    assert (H1 : t_state (task_at s u) = t_state (task_at s0 u) \/ (notified s0 l sig u /\ t_state (task_at s0 u) = TASK_SLEEPING)).
    { destruct (decide (u = t)) as [->|]; [destruct target_state; tauto|]. apply (dl_state _ _ _ _ _ _ _ HD). tauto. }
    destruct H1 as [E|[? ?]]; [rewrite <- E|tauto].
    assert (H2 : (u ∉ [t] \/ wakes s u sig = false) \/ (notified s0 l sig u /\ t_state (task_at s0 u) = TASK_SLEEPING)).
    { rewrite list_elem_of_singleton. destruct (decide (u = t)) as [->|]; [|tauto]. destruct target_wakes as [->|]; tauto. }
    destruct H2 as [H2|[? ?]]; [|rewrite E; tauto]. destruct (dl_state _ _ _ _ _ _ _ HD' u H2); tauto.
  - intros u [Hu|Hu]%in_snoc Hw; [by apply (sn_queued _ _ _ _ Hs'), (dl_woken _ _ _ _ _ _ _ HD)|]. subst u.
    destruct target_wakes as [E|[? ?]]; [|by apply (sn_queued _ _ _ _ Hs'), (dl_parents _ _ _ _ _ _ _ HD)].
    apply (dl_woken _ _ _ _ _ _ _ HD'); [by left|congruence].
  - intros u Hn Hs. destruct (decide (notified s0 l sig u)); [by apply (sn_queued _ _ _ _ Hs'), (dl_parents _ _ _ _ _ _ _ HD)|].
    apply notified_snoc in Hn as [?|Hn]; [done|]. destruct (decide (u ∈ l /\ wakes s0 u sig = true)) as [[? ?]|Hu].
    { by apply (sn_queued _ _ _ _ Hs'), (dl_woken _ _ _ _ _ _ _ HD). }
    apply (dl_parents _ _ _ _ _ _ _ HD'); [by apply told_later|]. destruct (dl_state _ _ _ _ _ _ _ HD u) as [->|[? _]]; [|done|done].
    destruct (decide (u ∈ l)); [|by left]. right. apply not_true_is_false. tauto.
Qed.
End Compose.

Lemma sent_reports s s' Q Q' : sent s s' Q Q' -> reports_child s -> reports_child s'.
Proof. intros Hs HC u. rewrite (f_equal t_exit_signal (sn_core _ _ _ _ Hs u) : t_exit_signal (task_at s' u) = t_exit_signal (task_at s u)). apply HC. Qed.

Lemma delivered_send s0 Q0 T l sig s Q t :
  delivered s0 s Q0 Q T l sig -> family s0 -> (sig = SIGCONT -> reports_child s0) -> target_ok s0 t -> t ∉ l -> 1 <= sig < NSIG ->
  exists s' Q', signal_send s t sig = Some s' /\ delivered s0 s' Q0 Q' T (l ++ [t]) sig.
Proof.
  intros HD HF HC Ht Hl Hsig. assert (Hs := dl_sent _ _ _ _ _ _ _ HD).
  destruct (send_one s Q T t sig) as (s' & Q' & E & HD'); [apply HD|by eapply sent_family|intros Hc; eapply sent_reports; eauto| |done|].
  { destruct Ht as (? & ? & ?). split; [by apply (sn_some _ _ _ _ Hs)|done]. }
  exists s', Q'. split; [done|]. by eapply delivered_snoc.
Qed.

(** The tasks that [p] selects. *)
Definition chosen (s : sched) (p : Z -> task -> bool) (T : list Z) : list Z := filter (fun t => p t (task_at s t) = true) T.

Lemma chosen_snoc s p l t : chosen s p (l ++ [t]) = chosen s p l ++ (if p t (task_at s t) then [t] else []).
Proof.
  unfold chosen. rewrite filter_app. f_equal. rewrite filter_cons, filter_nil. destruct (p t (task_at s t)) eqn:E.
  - by rewrite decide_True.
  - by rewrite decide_False.
Qed.

(** The selection looks at nothing that sending to others changes. *)
Definition steady_choice (p : Z -> task -> bool) : Prop :=
  forall u x y, sig_core x = sig_core y -> t_state x = t_state y \/ (t_state y = TASK_SLEEPING /\ t_state x = TASK_RUNNING) -> p u x = p u y.

(** The outcome of sending to all tasks that [p] selects. *)
Definition sent_to (s : sched) (Q : Z -> list Z) (T l : list Z) (sig : Z) (res : option (Z * sched)) : Prop :=
  exists (s' : sched) (Q' : Z -> list Z), res = Some (if bool_decide (l = []) then - ESRCH else 0, s') /\
    (if decide (sig = 0) then s' = s else delivered s s' Q Q' T l sig).

Lemma signal_all_spec s Q T p sig :
  sched_inv s Q T -> family s -> steady_choice p -> (forall t, t ∈ T -> p t (task_at s t) = true -> target_ok s t) ->
  0 <= sig < NSIG -> (sig = SIGCONT -> reports_child s) -> sent_to s Q T (chosen s p T) sig (signal_all s p sig).
Proof.
  intros HI HF Hp Hok Hsig Hc. destruct (inv_all_size s Q T HI) as [Hnd Hfuel].
  set (P := fun (l : list Z) (s' : sched) (found : bool) => found = negb (bool_decide (chosen s p l = [])) /\
    if decide (sig = 0) then s' = s else exists Q', delivered s s' Q Q' T (chosen s p l) sig).
  destruct (each_task_walk P T (send_if p sig)) with (fuel := walk_fuel s) (s := s) (r := false) as (s' & found & E & Ef & HP); [..|done|].
  - intros l1 t l2 s1 r ET [Er HP]. unfold P. rewrite chosen_snoc. unfold send_if.
    assert (Hchoice : p t (task_at s1 t) = p t (task_at s t) /\ t ∉ chosen s p l1).
    { assert (t ∉ chosen s p l1) as Hn.
      { intros [_ Hin]%list_elem_of_filter. rewrite ET in Hnd. apply NoDup_app in Hnd as (_ & Hx & _). apply (Hx t Hin). by left. }
      split; [|done]. destruct (decide (sig = 0)); [by subst|]. destruct HP as [Q1 HD]. apply Hp; [apply (sn_core _ _ _ _ (dl_sent _ _ _ _ _ _ _ HD))|].
      destruct (target_state _ _ _ _ _ _ _ _ HD Hn) as [?|(_ & ? & ?)]; [by left|by right]. }
    destruct Hchoice as [-> Hn]. destruct (p t (task_at s t)) eqn:Ep; [|exists s1, r; by rewrite app_nil_r].
    destruct (Z.eqb_spec sig 0) as [E0|E0].
    + exists s1, true. split; [done|]. rewrite decide_True in HP |- * by done. split; [|done]. by destruct (chosen s p l1).
    + rewrite decide_False in HP by done. destruct HP as [Q1 HD].
      destruct (delivered_send _ _ _ _ _ _ _ t HD HF Hc) as (s2 & Q2 & -> & HD2); [apply Hok; [|done]|done|lia|].
      { rewrite ET. apply elem_of_app. right. by left. }
      exists s2, true. split; [done|]. rewrite decide_False by done. split; [by destruct (chosen s p l1)|by exists Q2].
  - intros l s1 r [_ HP]. destruct (decide (sig = 0)); [subst; apply HI|]. destruct HP as [Q1 HD]. apply (dl_inv _ _ _ _ _ _ _ HD).
  - split; [done|]. case_decide; [done|]. exists Q. by apply delivered_nil.
  - unfold signal_all. rewrite E. cbn [mbind option_bind]. rewrite Ef. destruct (decide (sig = 0)) as [E0|E0].
    + exists s', Q. rewrite decide_True by done. split; [|done]. by case_bool_decide.
    + destruct HP as [Q' HD]. exists s', Q'. rewrite decide_False by done. split; [|done]. by case_bool_decide.
Qed.

(** ** The targets of [kill] *)

Definition in_group (pgid : Z) (_ : Z) (t : task) : bool :=
  negb (t_is_user t =? 0) && negb (bool_decide (t_state t = TASK_ZOMBIE)) && negb (bool_decide (t_state t = TASK_DEAD)) && (t_pgid t =? pgid).
Definition has_pid (pid : Z) (_ : Z) (t : task) : bool :=
  (t_pid t =? pid) && negb (t_is_user t =? 0) && negb (bool_decide (t_state t = TASK_DEAD)).
Definition other_user (me u : Z) (t : task) : bool :=
  negb (t_is_user t =? 0) && negb (u =? me) && negb (bool_decide (t_state t = TASK_DEAD)).

Definition group (s : sched) (pgid : Z) (T : list Z) : list Z := if pgid <=? 0 then [] else chosen s (in_group pgid) T.

Definition process (s : sched) (pid : Z) (T : list Z) : list Z := if pid <=? 0 then [] else take 1 (chosen s (has_pid pid) T).

(** The first process with that number, a group, or everybody else; the
    numbers are cut to 32 bits. *)
Definition kill_targets (s : sched) (pid : Z) (T : list Z) : list Z :=
  if 0 <? pid then process s (s32 pid) T
  else if pid =? 0 then group s (t_pgid (task_at s (get_current s))) T
  else if pid <? -1 then group s (s32 (- pid)) T
  else chosen s (other_user (get_current s)) T.

(** User tasks are no idle tasks. *)
Definition users_ok (s : sched) (T : list Z) : Prop := forall t, t ∈ T -> t_is_user (task_at s t) <> 0 -> target_ok s t.

Lemma steady_in_group pgid : steady_choice (in_group pgid).
Proof.
  intros u x y Hc Hs. unfold in_group. destruct Hs as [->|[-> ->]];
  by rewrite (f_equal t_is_user Hc : t_is_user x = t_is_user y), (f_equal t_pgid Hc : t_pgid x = t_pgid y).
Qed.

Lemma steady_other_user me : steady_choice (other_user me).
Proof. intros u x y Hc Hs. unfold other_user. destruct Hs as [->|[-> ->]]; by rewrite (f_equal t_is_user Hc : t_is_user x = t_is_user y). Qed.

Lemma is_user_true x : negb (t_is_user x =? 0) = true -> t_is_user x <> 0.
Proof. by rewrite negb_true_iff, Z.eqb_neq. Qed.

Section Targets.
Context (s : sched) (Q : Z -> list Z) (T : list Z) (sig : Z).
Context (HI : sched_inv s Q T) (HF : family s) (HU : users_ok s T) (Hsig : 0 <= sig < NSIG) (Hc : sig = SIGCONT -> reports_child s).

Lemma signal_group_spec pgid : sent_to s Q T (group s pgid T) sig (signal_process_group s pgid sig).
Proof using All.
  unfold signal_process_group, group. case_match; [|].
  - exists s, Q. split; [done|]. case_decide; [done|]. by apply delivered_nil.
  - apply signal_all_spec; try done; [apply steady_in_group|]. intros t Ht Hp. apply (HU t Ht), is_user_true. unfold in_group in Hp.
    by destruct (negb (t_is_user _ =? 0)).
Qed.

Lemma signal_one_spec pid : sent_to s Q T (process s pid T) sig (signal_one_process s pid sig).
Proof using All.
  unfold signal_one_process, find_task_by_pid, process. destruct (Z.leb_spec pid 0).
  { exists s, Q. split; [done|]. case_decide; [done|]. by apply delivered_nil. }
  destruct (inv_all_size s Q T HI) as [Hnd Hfuel].
  rewrite (find_task_walk s T (has_pid pid) (si_all _ _ _ HI) _ Hfuel : find_task _ _ _ (fun _ t => _) = _). cbn [mbind option_bind].
  change (filter _ T) with (chosen s (has_pid pid) T). destruct (chosen s (has_pid pid) T) as [|t l] eqn:El.
  - exists s, Q. split; [done|]. case_decide; [done|]. by apply delivered_nil.
  - assert (t ∈ chosen s (has_pid pid) T) as [Hp Ht]%list_elem_of_filter by (rewrite El; by left).
    assert (target_ok s t) as Hok. { apply (HU t Ht), is_user_true. unfold has_pid in Hp. by destruct (negb (t_is_user _ =? 0)), (t_pid _ =? _). }
    pose proof Hok as (_ & Ht0 & _). change (default 0 (head (t :: l))) with t. change (take 1 (t :: l)) with [t]. rewrite (proj2 (Z.eqb_neq t 0) Ht0).
    destruct (Z.eqb_spec sig 0) as [E0|E0].
    + exists s, Q. split; [done|]. by rewrite decide_True.
    + destruct (delivered_send s Q T [] sig s Q t (delivered_nil s Q T sig HI) HF Hc Hok (not_elem_of_nil _)) as (s' & Q' & E & HD); [lia|].
      rewrite E. exists s', Q'. split; [done|]. by rewrite decide_False.
Qed.
End Targets.

(** C10: [kill] reaches exactly its targets.  For every first argument (a
    process, the caller's group, a group, everybody else, each number cut to
    32 bits as the code does) and every signal the call ends, the run queues
    stay consistent and nobody queued is lost; the result is 0 when there is
    a target and -ESRCH otherwise; every target has the signal pending and is
    made runnable when the signal is to wake it.  SIGCONT to a stopped child
    also makes SIGCHLD pending at its parent, and a parent that sleeps is
    woken.  Nobody else's pending signals or state change, nor does the state
    of a target that the signal does not wake.  Signal 0 changes nothing, and
    an invalid number gives -EINVAL.  The lists of tasks are assumed sound
    ([sched_inv]), parents live ([family]), user tasks no idle tasks, and, for
    SIGCONT, exit signals SIGCHLD or unset, as [fork] leaves them. *)
Theorem ksys_kill_correct s Q T pid sig :
  sched_inv s Q T -> family s -> users_ok s T -> (sig = SIGCONT -> reports_child s) ->
  if signal_valid sig then sent_to s Q T (kill_targets s pid T) sig (ksys_kill s pid sig)
  else ksys_kill s pid sig = Some (- EINVAL, s).
Proof.
  intros HI HF HU Hc. unfold ksys_kill, kill_targets. destruct (signal_valid sig) eqn:Ev; [|done]. cbn [negb].
  assert (0 <= sig < NSIG) by (unfold signal_valid in Ev; lia).
  destruct (Z.ltb_spec 0 pid). { by apply signal_one_spec. }
  destruct (Z.eqb_spec pid 0).
  { destruct (si_curr _ _ _ HI (this_cpu s) (si_this _ _ _ HI)) as [Hcur _].
    rewrite (proj2 (Z.eqb_neq (get_current s) 0) Hcur). by apply signal_group_spec. }
  destruct (Z.ltb_spec pid (-1)). { by apply signal_group_spec. }
  apply signal_all_spec; try done; [apply steady_other_user|]. intros t Ht Hp. apply (HU t Ht), is_user_true.
  by destruct (negb (t_is_user _ =? 0)).
Qed.

(** ** Example *)

(** Two user tasks of the group 7. *)
Definition job : sched :=
  upd_task (upd_task two_tasks 100 (fun x => set_t_is_user 1 (set_t_pgid 7 x))) 200 (fun x => set_t_is_user 1 (set_t_pgid 7 x)).

Lemma make_user s Q T t pgid :
  sched_inv s Q T -> is_Some (tasks s !! t) -> sched_inv (upd_task s t (fun x => set_t_is_user 1 (set_t_pgid pgid x))) Q T.
Proof. intros HI Ht. apply inv_task_fields; auto. Qed.

Lemma make_child s Q T t p pgid :
  sched_inv s Q T -> is_Some (tasks s !! t) -> sched_inv (upd_task s t (fun x => set_t_parent p (set_t_is_user 1 (set_t_pgid pgid x)))) Q T.
Proof. intros HI Ht. apply inv_task_fields; auto. Qed.

Lemma job_inv : exists Q T, sched_inv job Q T.
Proof.
  destruct two_tasks_inv as (Q & T & HI & _). exists Q, T. unfold job.
  apply (make_user _ Q T 200 7); [apply (make_user _ Q T 100 7 HI)|].
  - eexists. vm_compute. reflexivity.
  - eexists. vm_compute. reflexivity.
Qed.

Lemma user_task s (P : Z -> Prop) t :
  map_Forall (fun i x => t_is_user x = 0 \/ P i) (tasks s) -> t_is_user (task_at s t) <> 0 -> P t.
Proof.
  unfold task_at. intros H Hu. destruct (tasks s !! t) as [x|] eqn:E; [|done]. by destruct (H t x E).
Qed.

Lemma two_users s T :
  map_Forall (fun i x => t_is_user x = 0 \/ i = 100 \/ i = 200) (tasks s) -> is_Some (tasks s !! 100) -> is_Some (tasks s !! 200) -> users_ok s T.
Proof.
  intros H H1 H2 t _ Hu. assert (t = 100 \/ t = 200) as Ht by exact (user_task s _ t H Hu).
  split; [by destruct Ht as [-> | ->]|]. split; [lia|]. intros d Hd. unfold is_cpu, NR_CPUS, idle_tasks in *. lia.
Qed.

Ltac two_users := apply two_users; [apply (bool_decide_eq_true_1 (map_Forall _ _))|eexists|eexists]; vm_compute; reflexivity.

Lemma job_users T : users_ok job T.
Proof. two_users. Qed.

Lemma job_family : family job.
Proof. apply family_roots, (bool_decide_eq_true_1 (map_Forall _ _)). vm_compute. reflexivity. Qed.

(** One of the tasks has stopped, and the other is its parent. *)
Definition paused : sched :=
  upd_task (upd_task (default running (schedule (sched_block running TASK_STOPPED))) 100
    (fun x => set_t_parent 200 (set_t_is_user 1 (set_t_pgid 7 x)))) 200 (fun x => set_t_is_user 1 (set_t_pgid 7 x)).

Lemma paused_inv : exists Q T, sched_inv paused Q T.
Proof.
  destruct running_inv as (Q & T & HI & _).
  destruct (sched_step_inv running (sched_block running TASK_STOPPED)) as (Q1 & T1 & HI1); [apply step_block|exact (ex_intro _ Q (ex_intro _ T HI))|].
  destruct (sched_step_inv (sched_block running TASK_STOPPED) (default running (schedule (sched_block running TASK_STOPPED)))) as (Q2 & T2 & HI2).
  - apply step_schedule. exact (default_some (schedule (sched_block running TASK_STOPPED)) running ltac:(vm_compute; reflexivity)).
  - exact (ex_intro _ Q1 (ex_intro _ T1 HI1)).
  - exists Q2, T2. unfold paused. apply (make_user _ Q2 T2 200 7); [apply (make_child _ Q2 T2 100 200 7 HI2)|]; eexists; vm_compute; reflexivity.
Qed.

Lemma paused_users T : users_ok paused T.
Proof. two_users. Qed.

Lemma paused_family : family paused.
Proof.
  assert (H : map_Forall (fun _ x => t_parent x = 0 \/ t_parent x = 200) (tasks paused)).
  { apply (bool_decide_eq_true_1 (map_Forall _ _)). vm_compute. reflexivity. }
  assert (H2 : is_Some (tasks paused !! 200)) by (eexists; vm_compute; reflexivity).
  revert H H2. generalize paused. clear. intros s H H2 t [x Ht]. unfold task_at. rewrite Ht. cbn. destruct (H t x Ht) as [-> | ->]; [by left|].
  right. split; [done|]. intros d Hd. unfold is_cpu, NR_CPUS, idle_tasks in *. lia.
Qed.

Lemma paused_reports : reports_child paused.
Proof.
  assert (H : map_Forall (fun _ x => t_exit_signal x = 0) (tasks paused)).
  { apply (bool_decide_eq_true_1 (map_Forall _ _)). vm_compute. reflexivity. }
  revert H. generalize paused. clear. intros s H t. left. unfold task_at. destruct (tasks s !! t) as [x|] eqn:E; [exact (H t x E)|done].
Qed.

(** The terminal stop signal to the group; and SIGCONT to a group in which a
    task has stopped, whose parent then also has SIGCHLD. *)
Lemma ksys_kill_correct_witness :
  (exists Q T, sent_to job Q T (kill_targets job (-7) T) SIGTSTP (ksys_kill job (-7) SIGTSTP) /\
    (fst <$> ksys_kill job (-7) SIGTSTP) = Some 0) /\
  (exists Q T, sent_to paused Q T (kill_targets paused (-7) T) SIGCONT (ksys_kill paused (-7) SIGCONT) /\
    t_state (task_at paused 100) = TASK_STOPPED /\
    ((fun r => (fst r, t_state (task_at (snd r) 100), t_pending (task_at (snd r) 100), t_pending (task_at (snd r) 200))) <$> ksys_kill paused (-7) SIGCONT) =
      Some (0, TASK_RUNNING, SIG_BIT SIGCONT, Z.lor (SIG_BIT SIGCONT) (SIG_BIT SIGCHLD))).
Proof.
  split.
  - destruct job_inv as (Q & T & HI). exists Q, T. split; [|vm_compute; reflexivity].
    exact (ksys_kill_correct job Q T (-7) SIGTSTP HI job_family (job_users T) ltac:(discriminate)).
  - destruct paused_inv as (Q & T & HI). exists Q, T. split; [|split; vm_compute; reflexivity].
    exact (ksys_kill_correct paused Q T (-7) SIGCONT HI paused_family (paused_users T) (fun _ => paused_reports)).
Defined.
