(* ===== verification/Heap.v ===== *)
(** * The interface of the object allocator

    What the clients of [kmalloc] and [kfree] rely on: a heap is a finite map
    from the addresses of live blocks to their sizes; blocks never overlap.
    The class states the contract; the instance discharges it from [Slub],
    where a block is an object of a cache or, above 2048 bytes, a run of
    pages behind a header. *)
From S2P Require Import Prelude PageAlloc Slub.

Class HeapSpec (heap : slub -> gmap Z Z -> Prop) : Prop := {
  heap_malloc m H size :
    heap m H -> 0 <= size <= 2 ^ 63 ->
    kmalloc m size = Some (0, m) \/
    exists x m', kmalloc m size = Some (x, m') /\ x <> 0 /\ H !! x = None /\ heap m' (<[x := size]> H);
  heap_free m H x : heap m H -> is_Some (H !! x) -> exists m', kfree m x = Some m' /\ heap m' (delete x H);
  heap_apart m H x s y r a :
    heap m H -> H !! x = Some s -> H !! y = Some r -> x <> y -> x <= a < x + s -> ~ y <= a < y + r;
  heap_block m H x s : heap m H -> H !! x = Some s -> 4096 <= x /\ 0 <= s < 2 ^ 63
}.

(** The block at [x] in the caches: an object, or a run of pages. *)
Definition heap_block_at (m : slub) (P L O : gmap Z Z) (x s : Z) : Prop :=
  0 <= s /\
  ((exists c, O !! x = Some c /\ s <= object_size (cache_of m c)) \/
   (exists p o, L !! p = Some o /\ large_block m (P ∪ L) x p o /\ (refcount (pa m)).[p] = 1 /\
      x + s <= base_of m p + PAGE_SIZE * 2 ^ o)).

(** [P]: blocks of pages of other clients; [L]: pages of large blocks. *)
Record slub_heap_rep (P L O : gmap Z Z) (m : slub) (H : gmap Z Z) : Prop := {
  sh_disj : P ##ₘ L;
  sh_inv : slub_inv m (P ∪ L) O;
  sh_sized : sized m;
  sh_order : max_order (pa m) < 15;
  sh_align : (PAGE_SIZE * 2 ^ max_order (pa m) | mem_start (pa m));
  sh_blocks : forall x s, H !! x = Some s -> heap_block_at m P L O x s
}.

Definition slub_heap (P : gmap Z Z) (m : slub) (H : gmap Z Z) : Prop := exists L O, slub_heap_rep P L O m H.

Section Slub.
Context (P : gmap Z Z).

Lemma union_r (L : gmap Z Z) p o : P ##ₘ L -> L !! p = Some o -> (P ∪ L) !! p = Some o.
Proof. intros Hd Hl. rewrite lookup_union_r; [done|]. by eapply map_disjoint_Some_r. Qed.

(** A block survives operations that frame it. *)
Lemma block_frame m m' L L' O O' x s :
  P ##ₘ L -> slub_inv m (P ∪ L) O -> slub_frame m m' (P ∪ L') O' ->
  (forall c, O !! x = Some c -> O' !! x = Some c) ->
  (forall p o, L !! p = Some o -> x = base_of m p + SIZEOF_SLAB -> L' !! p = Some o) -> P ##ₘ L' ->
  heap_block_at m P L O x s -> forall O2 L2,
  (forall c, O !! x = Some c -> O2 !! x = Some c) ->
  (forall p o, L !! p = Some o -> x = base_of m p + SIZEOF_SLAB -> L2 !! p = Some o) -> P ##ₘ L2 ->
  heap_block_at m' P L2 O2 x s.
Proof.
  intros Hd HI Hf HO HL Hd' (Hs & Hb) O2 L2 HO2 HL2 Hd2. split; [done|]. assert (Hlay := fr_layout _ _ _ _ Hf).
  destruct Hb as [(c & Hc & Hsz)|(p & o & Hp & (Hp' & Ex & Hm & Hca & Hob) & Hrc & Hfit)]; [left|right].
  - exists c. split; [by apply HO2|]. by rewrite (lay_size _ _ Hlay).
  - exists p, o. assert (Hpl := HL p o Hp Ex). assert (Hpl2 := HL2 p o Hp Ex).
    assert (Eb := base_of_layout _ _ p Hlay). assert (Ho := slub_order_max _ _ _ _ _ HI Hp').
    assert (Hpg : forall a, base_of m p <= a < base_of m p + PAGE_SIZE -> rd m' a = rd m a).
    { intros a Ha. eapply (fr_page _ _ _ _ Hf p o p); [by apply union_r|by apply covers_self; lia|exact Ha]. }
    splits; [done| | |by rewrite Eb].
    + unfold large_block. rewrite Eb. unfold SL_magic, SL_cache, SL_objects, PAGE_SIZE in *.
      splits; [by apply union_r|done|..]; rewrite Hpg by lia; done.
    + rewrite (fr_ref _ _ _ _ Hf); [done|]. exists o. by apply union_r.
Qed.
End Slub.

Section Contract.
Context (P : gmap Z Z).

(** The bytes of a block lie in its object or in its pages. *)
Lemma large_pages m L O x p o s a :
  slub_inv m (P ∪ L) O -> large_block m (P ∪ L) x p o -> x + s <= base_of m p + PAGE_SIZE * 2 ^ o -> x <= a < x + s ->
  exists q, covers p o q /\ in_page (pa m) q a.
Proof.
  intros HI (Hp & -> & _) Hfit Ha. assert (Hpool := slub_inv_pool _ _ _ HI).
  assert (Hr := slub_page_range _ _ _ _ _ HI Hp). assert (Ho := slub_order_max _ _ _ _ _ HI Hp).
  destruct HI as (S & PL & HR & _). assert (Hcov : forall q, covers p o q -> 0 <= q < pool_pages (pa m)).
  { intros q Hq. eapply inv_covers_pool; [apply (sr_buddy _ _ _ _ HR)| |exact Hq]. by apply lookup_union_Some_l. }
  unfold base_of in *. rewrite pfn_to_addr_eq in * by done. set (d := a - (mem_start (pa m) + p * PAGE_SIZE)).
  assert (Hd : 0 <= d < PAGE_SIZE * 2 ^ o) by (unfold d, SIZEOF_SLAB in *; lia).
  exists (p + d / PAGE_SIZE). assert (Hq : 0 <= d / PAGE_SIZE < 2 ^ o).
  { split; [apply Z.div_pos; unfold PAGE_SIZE; lia|]. apply Z.div_lt_upper_bound; [by vm_compute|]. lia. }
  split; [unfold covers; lia|]. unfold in_page. rewrite pfn_to_addr_eq by (try done; apply Hcov; unfold covers; lia).
  assert (Hm := Z.div_mod d PAGE_SIZE ltac:(by vm_compute)). assert (Hb := Z.mod_pos_bound d PAGE_SIZE ltac:(by vm_compute)).
  unfold d in *. lia.
Qed.

Lemma page_unique m q q' a : pool_ok (pa m) -> 0 <= q < pool_pages (pa m) -> 0 <= q' < pool_pages (pa m) ->
  in_page (pa m) q a -> in_page (pa m) q' a -> q = q'.
Proof.
  intros Hp Hq Hq'. unfold in_page. rewrite !pfn_to_addr_eq by done. unfold PAGE_SIZE. lia.
Qed.

Lemma heap_ranges L O m H x s y r a :
  slub_heap_rep P L O m H -> H !! x = Some s -> H !! y = Some r -> x <> y -> x <= a < x + s -> ~ y <= a < y + r.
Proof.
  intros HR Hx Hy Hne Ha Ha'. assert (HI := sh_inv _ _ _ _ _ HR). assert (Hpool := slub_inv_pool _ _ _ HI).
  destruct (sh_blocks _ _ _ _ _ HR x s Hx) as [_ [(c & Hc & Hsz)|(p & o & Hp & Hl & Hrc & Hfit)]],
    (sh_blocks _ _ _ _ _ HR y r Hy) as [_ [(c' & Hc' & Hsz')|(p' & o' & Hp' & Hl' & Hrc' & Hfit')]].
  - destruct (objects_disjoint m _ O x c HI Hc) as [Hd _]. specialize (Hd y c' Hc' ltac:(done)). lia.
  - destruct (large_pages m L O y p' o' r a HI Hl' Hfit' Ha') as (q & Hq & Hin).
    destruct (objects_disjoint m _ O x c HI Hc) as [_ Hd]. apply (Hd p' o' q a); [apply Hl'|done|done|lia].
  - destruct (large_pages m L O x p o s a HI Hl Hfit Ha) as (q & Hq & Hin).
    destruct (objects_disjoint m _ O y c' HI Hc') as [_ Hd]. apply (Hd p o q a); [apply Hl|done|done|lia].
  - destruct (large_pages m L O x p o s a HI Hl Hfit Ha) as (q & Hq & Hin).
    destruct (large_pages m L O y p' o' r a HI Hl' Hfit' Ha') as (q' & Hq' & Hin').
    assert (Hpp : p <> p') by (intros <-; destruct Hl as (_ & -> & _), Hl' as (_ & -> & _); done).
    destruct HI as (S & PL & HRs & _). assert (HB := sr_buddy _ _ _ _ HRs).
    assert (H1 : (P ∪ L ∪ slab_pages S) !! p = Some o) by (apply lookup_union_Some_l, Hl).
    assert (H2 : (P ∪ L ∪ slab_pages S) !! p' = Some o') by (apply lookup_union_Some_l, Hl').
    assert (q = q') as <-.
    { apply (page_unique m q q' a Hpool); [| |done|done];
        [by apply (inv_covers_pool _ _ p o q HB)|by apply (inv_covers_pool _ _ p' o' q' HB)]. }
    by apply Hpp, (inv_disjoint _ _ p o p' o' q HB).
Qed.

(** The pool starts above the first page. *)
Lemma pool_above m H L O : slub_heap_rep P L O m H -> 4096 <= mem_start (pa m).
Proof.
  intros HR. destruct (pool_start _ (slub_inv_pool _ _ _ (sh_inv _ _ _ _ _ HR))) as [Hpos _].
  assert (Hd := Z.divide_pos_le _ _ Hpos (sh_align _ _ _ _ _ HR)).
  assert (Hm := pool_order _ (slub_inv_pool _ _ _ (sh_inv _ _ _ _ _ HR))).
  assert (Hp : 2 ^ 0 <= 2 ^ max_order (pa m)) by (apply Z.pow_le_mono_r; lia). unfold PAGE_SIZE in Hd. lia.
Qed.

Lemma object_small m U O x c : slub_inv m U O -> O !! x = Some c -> object_size (cache_of m c) <= PAGE_SIZE.
Proof.
  intros (S & PL & HR & Ht & HO) (p & si & Hp & <- & Hx & Hf)%HO.
  destruct (cache_layout _ (sl_size _ _ _ (sr_slab _ _ _ _ HR _ _ Hp))) as (Hoff & ? & ? & ?). unfold SIZEOF_SLAB in Hoff. nia.
Qed.

Lemma heap_block_pos L O m H x s : slub_heap_rep P L O m H -> H !! x = Some s -> 4096 <= x /\ 0 <= s < 2 ^ 63.
Proof.
  intros HR Hx. assert (HI := sh_inv _ _ _ _ _ HR). assert (Hab := pool_above _ _ _ _ HR).
  destruct (sh_blocks _ _ _ _ _ HR x s Hx) as [Hs [(c & Hc & Hsz)|(p & o & _ & (Hp & -> & _) & _ & Hfit)]].
  - destruct (slub_obj_range _ _ _ _ _ HI Hc) as [Hm _]. assert (Hc8 := object_small _ _ _ _ _ HI Hc). unfold PAGE_SIZE in *. lia.
  - assert (Ho := slub_order_max _ _ _ _ _ HI Hp). assert (Hmo := sh_order _ _ _ _ _ HR). assert (2 ^ o <= 2 ^ 15) by (apply Z.pow_le_mono_r; lia).
    split; [|unfold PAGE_SIZE, SIZEOF_SLAB in *; lia]. assert (Hr := slub_page_range _ _ _ _ _ HI Hp). unfold base_of.
    rewrite pfn_to_addr_eq by (try done; by apply (slub_inv_pool _ _ _ HI)). unfold SIZEOF_SLAB, PAGE_SIZE. lia.
Qed.

Lemma slub_heap_malloc m H size :
  slub_heap P m H -> 0 <= size <= 2 ^ 63 ->
  kmalloc m size = Some (0, m) \/
  exists x m', kmalloc m size = Some (x, m') /\ x <> 0 /\ H !! x = None /\ slub_heap P m' (<[x := size]> H).
Proof.
  intros (L & O & HR) Hs. destruct HR as [Hd HI Hsz Hmo Hal HB].
  destruct (kmalloc_spec m (P ∪ L) O size HI Hsz Hmo) as [(o & E & _)|(x & m' & E & Hx & Hf & Hcase)].
  { unfold SIZEOF_SLAB. lia. }
  { by left. }
  right. exists x, m'. assert (Hlay := fr_layout _ _ _ _ Hf). assert (Hpool := lay_pool _ _ Hlay).
  assert (Hmo' : max_order (pa m') < 15) by (by destruct Hpool as (_ & _ & -> & _)).
  assert (Hal' : (PAGE_SIZE * 2 ^ max_order (pa m') | mem_start (pa m'))) by (by destruct Hpool as (-> & _ & -> & _)).
  assert (Hsz' := sized_layout _ _ Hlay Hsz).
  destruct Hcase as [(Hle & c & Hn & HI' & Hfit)|(Hgt & p & o & Hout & HI' & HL & Hfit & Hrc)].
  - assert (Hnone : H !! x = None).
    { apply eq_None_not_Some. intros [s Hx']. destruct (HB x s Hx') as [_ [(c' & Hc' & _)|(p & o & Hp & (Hp' & Ex & _) & _)]].
      - congruence.
      - destruct (objects_disjoint m' _ _ x c HI' (lookup_insert_eq _ _ _)) as [_ Hdis].
        assert (Ho := slub_order_max _ _ _ _ _ HI Hp').
        apply (Hdis p o p x Hp'); [apply covers_self; lia| |].
        + unfold in_page. fold (base_of m' p). rewrite (base_of_layout _ _ p Hlay), Ex. unfold SIZEOF_SLAB, PAGE_SIZE. lia.
        + assert (Hc8 := slub_object_size _ _ _ _ _ HI' (lookup_insert_eq _ _ _)). lia. }
    splits; [done|done|done|]. exists L, (<[x := c]> O). split; try done.
    intros y s [[<- <-]|[Hne Hy]]%lookup_insert_Some.
    + split; [lia|]. left. exists c. split; [apply lookup_insert_eq|done].
    + apply (block_frame P m m' L L O O y s Hd HI Hf (fun c h => h) (fun p o h _ => h) Hd (HB y s Hy)); try done.
      intros d Hd'. by rewrite lookup_insert_ne.
  - assert (Ho : 0 <= o) by (eapply (slub_order m' (<[p := o]> (P ∪ L)) O p); [done|apply lookup_insert_eq]).
    assert (Hnp : (P ∪ L) !! p = None).
    { apply eq_None_not_Some. intros [o' Hp']. apply (Hout p (covers_self p o Ho) p o' Hp').
      apply covers_self. exact (slub_order _ _ _ _ _ HI Hp'). }
    apply lookup_union_None in Hnp as [HnP HnL].
    assert (Hd' : P ##ₘ <[p := o]> L) by (by apply map_disjoint_insert_r).
    assert (EU : <[p := o]> (P ∪ L) = P ∪ <[p := o]> L) by (by rewrite insert_union_r).
    rewrite EU in HI', HL. assert (Ex := proj1 (proj2 HL)).
    assert (Hnone : H !! x = None).
    { apply eq_None_not_Some. intros [s Hx']. destruct (HB x s Hx') as [_ [(c' & Hc' & _)|(p' & o' & Hp' & (Hp2 & Ex' & _) & _)]].
      - destruct (objects_disjoint m' _ _ x c' HI' Hc') as [_ Hdis].
        apply (Hdis p o p x (proj1 HL)); [by apply covers_self| |].
        + unfold in_page. fold (base_of m' p). rewrite Ex. unfold SIZEOF_SLAB, PAGE_SIZE. lia.
        + assert (Hc8 := slub_object_size _ _ _ _ _ HI' Hc'). lia.
      - assert (p' = p) as ->.
        { assert (Hr1 := slub_page_range _ _ _ _ _ HI Hp2). assert (Hr2 := slub_page_range _ _ _ _ _ HI' (proj1 HL)).
          rewrite (base_of_layout _ _ p Hlay) in Ex. destruct Hpool as (_ & _ & _ & Epp). rewrite Epp in Hr2.
          unfold base_of in *. rewrite pfn_to_addr_eq in Ex, Ex' by (try done; by apply slub_inv_pool in HI).
          unfold PAGE_SIZE in *. lia. }
        congruence. }
    splits; [done|done|done|]. exists (<[p := o]> L), O. split; try done.
    intros y s [[<- <-]|[Hne Hy]]%lookup_insert_Some.
    + split; [lia|]. right. exists p, o. split; [apply lookup_insert_eq|]. by splits.
    + apply (block_frame P m m' L L O O y s Hd HI Hf (fun c h => h) (fun p o h _ => h) Hd (HB y s Hy)); try done.
      intros q oq Hq _. rewrite lookup_insert_ne; [done|]. intros <-. congruence.
Qed.

Lemma slub_heap_free m H x :
  slub_heap P m H -> is_Some (H !! x) -> exists m', kfree m x = Some m' /\ slub_heap P m' (delete x H).
Proof.
  intros (L & O & HR) [s Hx]. destruct HR as [Hd HI Hsz Hmo Hal HB].
  assert (Hfin : forall m' L' O', kfree m x = Some m' -> P ##ₘ L' -> slub_inv m' (P ∪ L') O' -> slub_frame m m' (P ∪ L') O' ->
    (forall y c, y <> x -> O !! y = Some c -> O' !! y = Some c) ->
    (forall y q oq, y <> x -> L !! q = Some oq -> y = base_of m q + SIZEOF_SLAB -> L' !! q = Some oq) ->
    exists m', kfree m x = Some m' /\ slub_heap P m' (delete x H)).
  { intros m' L' O' E Hd' HI' Hf HO HL. assert (Hlay := fr_layout _ _ _ _ Hf). assert (Hpool := lay_pool _ _ Hlay).
    exists m'. split; [done|]. exists L', O'. split; try done.
    - by apply (sized_layout _ _ Hlay).
    - by destruct Hpool as (_ & _ & -> & _).
    - by destruct Hpool as (-> & _ & -> & _).
    - intros y r [Hne Hy]%lookup_delete_Some.
      eapply (block_frame P m m' L L' O O'); try done; eauto. }
  destruct (HB x s Hx) as [Hs [(c & Hc & _)|(p & o & Hp & HL & Hrc & _)]].
  - destruct (kfree_spec m _ O x HI) as [Hk _]. destruct (Hk ltac:(by exists c)) as (m' & E & HI' & Hf).
    apply (Hfin m' L (delete x O)); try done. intros y c' Hne Hy. by rewrite lookup_delete_ne.
  - destruct (kfree_spec m _ O x HI) as [_ Hk]. assert (Hr := slub_page_range _ _ _ _ _ HI (proj1 HL)).
    assert (Hpool := slub_inv_pool _ _ _ HI). assert (Ho := slub_order_max _ _ _ _ _ HI (proj1 HL)).
    destruct (Hk p o HL Hrc) as (m' & E & HI' & Hf).
    { by apply (slub_page_aligned m _ O p o HI (proj1 HL)). }
    assert (EU : delete p (P ∪ L) = P ∪ delete p L).
    { rewrite delete_union. f_equal. apply delete_id. by eapply map_disjoint_Some_r. }
    rewrite EU in HI', Hf. apply (Hfin m' (delete p L) O); try done.
    + by apply map_disjoint_delete_r.
    + intros y q oq Hne Hq Ey. rewrite lookup_delete_ne; [done|]. intros <-. destruct HL as (_ & Ex & _). congruence.
Qed.


#[export] Instance slub_heap_spec : HeapSpec (slub_heap P).
Proof.
  split.
  - intros m H size. apply slub_heap_malloc.
  - intros m H x. apply slub_heap_free.
  - intros m H x s y r a (L & O & HR). by apply (heap_ranges L O m H).
  - intros m H x s (L & O & HR). by apply (heap_block_pos L O m H).
Qed.

(** The heap after boot is empty. *)
Lemma slub_heap_empty m :
  slub_inv m P ∅ -> sized m -> max_order (pa m) < 15 -> (PAGE_SIZE * 2 ^ max_order (pa m) | mem_start (pa m)) ->
  slub_heap P m ∅.
Proof.
  intros HI Hs Hm Ha. exists ∅, ∅. split; try done.
  - apply map_disjoint_empty_r.
  - by rewrite map_union_empty.
Qed.
End Contract.
