(* ===== verification/Wait.v ===== *)
(** * Wait queues ([kernel/sched/wait.c])

    A wait queue is a singly linked list of entries; an entry lives on the
    stack of the task that waits and names that task.  [wait_event] checks its
    condition, enters the queue, sleeps, and checks again. *)
From S2P Require Import Prelude Errno ListHead Task Sched Signal.

(** [w_head]: [head] of each [struct wait_queue_head]; [w_task] and [w_next]:
    the fields of each [struct wait_queue_entry]. *)
Record waits := mkWaits {
  w_s : sched;
  w_head : gmap Z Z;
  w_task : gmap Z Z;
  w_next : gmap Z Z
}.

Abbreviation waits_eta w := (mkWaits (w_s w) (w_head w) (w_task w) (w_next w)) (only parsing).

Definition set_w_s (x : sched) (w : waits) : waits := ltac:(setter (waits_eta w) (w_s w) x).
Definition set_w_head (x : gmap Z Z) (w : waits) : waits := ltac:(setter (waits_eta w) (w_head w) x).
Definition set_w_task (x : gmap Z Z) (w : waits) : waits := ltac:(setter (waits_eta w) (w_task w) x).
Definition set_w_next (x : gmap Z Z) (w : waits) : waits := ltac:(setter (waits_eta w) (w_next w) x).

(** The links of the queue [q]. *)
Definition wlinks (q : Z) : SList waits := {|
  sget w c := match c with CHead => (w_head w).[q] | CNext x => (w_next w).[x] end;
  sset w c v := match c with
    | CHead => set_w_head (<[q := v]> (w_head w)) w
    | CNext x => set_w_next (<[x := v]> (w_next w)) w
    end
|}.

(** Entries are distinct keys of [w_task], which bounds every walk. *)
Definition wait_fuel (w : waits) : nat := S (size (w_task w)).

Fixpoint contains_loop (fuel : nat) (w : waits) (walk entry : Z) : option bool :=
  match fuel with
  | O => None
  | S fuel' =>
      if walk =? 0 then Some false
      else if walk =? entry then Some true
      else contains_loop fuel' w (w_next w).[walk] entry
  end.

Definition waitqueue_contains (w : waits) (q entry : Z) : option bool :=
  contains_loop (wait_fuel w) w (w_head w).[q] entry.

Definition init_waitqueue_head (w : waits) (q : Z) : waits := set_w_head (<[q := 0]> (w_head w)) w.

(** [DECLARE_WAITQUEUE(entry, task)] *)
Definition declare_waitqueue (w : waits) (entry t : Z) : waits :=
  set_w_next (<[entry := 0]> (w_next w)) (set_w_task (<[entry := t]> (w_task w)) w).

Definition add_wait_queue (w : waits) (q entry : Z) : waits := @slist_push _ (wlinks q) w entry.

Definition remove_wait_queue (w : waits) (q entry : Z) : option waits :=
  '(w, found) ← @slist_unlink _ (wlinks q) (wait_fuel w) w entry CHead;
  Some (if found : bool then set_w_next (<[entry := 0]> (w_next w)) w else w).

Definition prepare_to_wait (w : waits) (q entry : Z) : option waits :=
  let w := if (w_task w).[entry] =? 0
           then set_w_task (<[entry := get_current (w_s w)]> (w_task w)) w else w in
  present ← waitqueue_contains w q entry;
  let w := if present : bool then w else @slist_push _ (wlinks q) w entry in
  let s := w_s w in
  let cur := get_current s in
  Some (set_w_s (dequeue_task (upd_task s cur (set_t_state TASK_SLEEPING)) cur) w).

Definition finish_wait (w : waits) (q entry : Z) : option waits :=
  w ← remove_wait_queue w q entry;
  let s := w_s w in
  let cur := get_current s in
  Some (set_w_s (if negb (list_is_linked (nodes s) (NRun cur)) then enqueue_task s cur
                 else upd_task s cur (set_t_state TASK_RUNNING)) w).

Fixpoint wake_up_loop (fuel : nat) (w : waits) (entry : Z) : option waits :=
  match fuel with
  | O => None
  | S fuel' =>
      if entry =? 0 then Some w
      else
        let t := (w_task w).[entry] in
        let w := if negb (t =? 0) && bool_decide (t_state (task_at (w_s w) t) = TASK_SLEEPING)
                 then set_w_s (wake_up_process (w_s w) t) w else w in
        wake_up_loop fuel' w (w_next w).[entry]
  end.

Definition wake_up (w : waits) (q : Z) : option waits := wake_up_loop (wait_fuel w) w (w_head w).[q].

(** A turn of the loops of [wait_event] and [wait_event_interruptible]:
    return, or switch away after [prepare_to_wait]; [condition] is what
    [condition()] returned. *)
Definition wait_event_turn (w : waits) (q entry : Z) (condition : bool) : option (turn waits) :=
  if condition then Some (Return 0 w)
  else
    w ← prepare_to_wait w q entry;
    s ← schedule (w_s w);
    Some (Asleep (set_w_s s w)).

Definition wait_event_interruptible_turn (w : waits) (q entry : Z) (condition : bool) : option (turn waits) :=
  if condition then Some (Return 0 w)
  else if signal_pending (w_s w) (get_current (w_s w)) then Some (Return (- ERESTARTSYS) w)
  else
    w ← prepare_to_wait w q entry;
    s ← schedule (w_s w);
    Some (Asleep (set_w_s s w)).

(** After [schedule] returned: [None] in the first component is another turn. *)
Definition wait_event_resume (w : waits) (q entry : Z) : option waits := finish_wait w q entry.

Definition wait_event_interruptible_resume (w : waits) (q entry : Z) : option (option Z * waits) :=
  w ← finish_wait w q entry;
  Some (if signal_pending (w_s w) (get_current (w_s w)) then (Some (- ERESTARTSYS), w) else (None, w)).

(** ** Waking *)

(** [l] is the queue [q], from its head. *)
Definition wqueue (w : waits) (q : Z) (l : list Z) : Prop := @slist _ (wlinks q) w l.

(** The task of an entry may be woken. *)
Definition wakeable (s : sched) (t : Z) : Prop :=
  t = 0 \/ (is_Some (tasks s !! t) /\ forall d, is_cpu d -> t <> idle_tasks d).

Record waits_inv (w : waits) (Q : Z -> list Z) (T : list Z) (L : Z -> list Z) : Prop := {
  wi_sched : sched_inv (w_s w) Q T;
  wi_queue : forall q, wqueue w q (L q);
  wi_apart : forall q q' e, e ∈ L q -> e ∈ L q' -> q = q';
  wi_entry : forall q e, e ∈ L q -> is_Some (w_task w !! e) /\ wakeable (w_s w) (w_task w).[e]
}.

#[export] Instance wlinks_laws q : @SListLaws waits (wlinks q).
Proof.
  split. intros h c c' v. destruct c, c'; cbn; try rewrite decide_False by done; try done.
  - rewrite decide_True by done. apply arr_get_insert.
  - rewrite arr_get_insert_case. repeat case_decide; congruence.
Qed.

Lemma waits_fuel w Q T L q : waits_inv w Q T L -> (length (L q) < wait_fuel w)%nat.
Proof.
  intros HI. unfold wait_fuel. rewrite <- size_dom.
  rewrite <- (size_list_to_set (C := gset Z)) by (eapply lseg_NoDup, (wi_queue _ _ _ _ HI q)).
  apply Nat.lt_succ_r, subseteq_size. intros e He%elem_of_list_to_set. apply elem_of_dom. by apply (wi_entry _ _ _ _ HI q).
Qed.

Lemma wakeable_mono s s' t :
  (forall u, is_Some (tasks s !! u) -> is_Some (tasks s' !! u)) -> wakeable s t -> wakeable s' t.
Proof. intros H [->|[Ht Hi]]; [by left|]. right. split; [by apply H|done]. Qed.

Lemma stays_grows s s' u : stays s s' -> is_Some (tasks s !! u) -> is_Some (tasks s' !! u).
Proof. intros [H _]. apply H. Qed.

Definition same_links (w w' : waits) : Prop := w_head w' = w_head w /\ w_task w' = w_task w /\ w_next w' = w_next w.

(** The loop wakes the sleeping tasks of the entries [l]. *)
Lemma wake_up_loop_spec q l : forall fuel w Q T p,
  sched_inv (w_s w) Q T -> @lseg _ (wlinks q) w p l -> (forall e, e ∈ l -> wakeable (w_s w) (w_task w).[e]) ->
  (length l < fuel)%nat ->
  exists w' Q', wake_up_loop fuel w p = Some w' /\ same_links w w' /\ sched_inv (w_s w') Q' T /\ stays (w_s w) (w_s w') /\
    (forall u, queued Q u -> queued Q' u) /\
    (forall u, t_state (task_at (w_s w) u) = TASK_SLEEPING -> t_state (task_at (w_s w') u) = TASK_SLEEPING \/ queued Q' u) /\
    forall e, e ∈ l -> (w_task w).[e] <> 0 -> t_state (task_at (w_s w) (w_task w).[e]) = TASK_SLEEPING ->
      queued Q' (w_task w).[e].
Proof.
  induction l as [|e l IH]; intros fuel w Q T p HI Hl Hok Hf; (destruct fuel as [|fuel]; [cbn in Hf; lia|]);
    cbn [wake_up_loop]; cbn [lseg] in Hl.
  { subst p. exists w, Q. splits; try done; auto. intros e He. by apply not_elem_of_nil in He. }
  destruct Hl as (-> & He0 & Hl). zdec. set (t := (w_task w).[e]).
  set (w1 := if negb (t =? 0) && _ then set_w_s _ w else w).
  assert (H1 : exists Q1, same_links w w1 /\ sched_inv (w_s w1) Q1 T /\ stays (w_s w) (w_s w1) /\
    (forall u, queued Q u -> queued Q1 u) /\
    (forall u, t_state (task_at (w_s w) u) = TASK_SLEEPING -> t_state (task_at (w_s w1) u) = TASK_SLEEPING \/ queued Q1 u) /\
    (t <> 0 -> t_state (task_at (w_s w) t) = TASK_SLEEPING -> queued Q1 t)).
  { unfold w1. destruct (Z.eqb_spec t 0) as [Et|Et]; cbn [negb andb]; [exists Q; splits; auto; done|].
    case_bool_decide as Est; [|exists Q; splits; auto; done].
    destruct (Hok e ltac:(apply list_elem_of_here)) as [?|[Ht Hid]]; [done|].
    destruct (wake_up_process_inv (w_s w) Q T t HI Ht Et Hid) as (Q1 & HI1 & Hq & Ho).
    exists Q1. splits; try done.
    - by apply (wake_up_process_stays (w_s w) Q T).
    - intros u (c & Hc & Hu). destruct (decide (u = t)) as [->|Hne]; [done|]. exists c. by rewrite Ho.
    - intros u Hu. destruct (decide (t = u)) as [<-|Hne]; [by right|left]. cbn. by rewrite wake_up_process_state. }
  destruct H1 as (Q1 & (E1 & E2 & E3) & HI1 & Hst1 & Hq1 & Hs1 & Ht1). clearbody w1.
  destruct (IH fuel w1 Q1 T (w_next w1).[e] HI1) as (w' & Q' & E & (F1 & F2 & F3) & HI' & Hst & Hq & Hs & Hw).
  { rewrite E3. eapply (lseg_frame (T := waits)); [|exact Hl]. intros x _. cbn. by rewrite E3. }
  { intros x Hx. rewrite E2. apply (wakeable_mono (w_s w)); [by intros u; apply stays_grows|]. apply Hok. by apply list_elem_of_further. }
  { cbn in Hf. lia. }
  exists w', Q'. splits; [done|unfold same_links; splits; congruence|done|by etransitivity|auto|..].
  - intros u Hu. destruct (Hs1 u Hu) as [Hu'|Hu']; [by apply Hs|right; by apply Hq].
  - rewrite E2 in Hw. intros x [->|Hx]%elem_of_cons H0 Hx'; [by apply Hq, Ht1|].
    destruct (Hs1 _ Hx') as [Hu|Hu]; [by apply Hw|by apply Hq].
Qed.

Lemma waits_inv_sched w w' Q Q' T L :
  waits_inv w Q T L -> same_links w w' ->
  (forall u, is_Some (tasks (w_s w) !! u) -> is_Some (tasks (w_s w') !! u)) -> sched_inv (w_s w') Q' T ->
  waits_inv w' Q' T L.
Proof.
  intros HI (E1 & E2 & E3) Hgr HI'. split; [done|..|apply HI|].
  - intros q. eapply (slist_frame (T := waits)); [..|apply (wi_queue _ _ _ _ HI q)]; cbn; intros; congruence.
  - intros q e He. rewrite E2. destruct (wi_entry _ _ _ _ HI q e He) as [? ?]. split; [done|]. by eapply wakeable_mono.
Qed.

Lemma wake_up_spec w Q T L q :
  waits_inv w Q T L ->
  exists w' Q', wake_up w q = Some w' /\ waits_inv w' Q' T L /\ stays (w_s w) (w_s w') /\ w_task w' = w_task w /\
    (forall u, queued Q u -> queued Q' u) /\
    (forall u, t_state (task_at (w_s w) u) = TASK_SLEEPING -> t_state (task_at (w_s w') u) = TASK_SLEEPING \/ queued Q' u) /\
    forall e, e ∈ L q -> (w_task w).[e] <> 0 -> t_state (task_at (w_s w) (w_task w).[e]) = TASK_SLEEPING ->
      queued Q' (w_task w).[e].
Proof.
  intros HI. destruct (wake_up_loop_spec q (L q) (wait_fuel w) w Q T (w_head w).[q])
    as (w' & Q' & E & Hl & HI' & Hst & Hq & Hs & Hw).
  - apply HI.
  - apply (wi_queue _ _ _ _ HI).
  - intros e He. by apply (wi_entry _ _ _ _ HI q).
  - by apply (waits_fuel w Q T).
  - exists w', Q'. splits; [done|eapply waits_inv_sched; try done; by intros u; apply stays_grows|done|apply Hl|done..].
Qed.

(** [wake_up] reaches every waiter: it walks the queue to its end, leaves
    the queue as it is, and makes every task that sleeps on it runnable; the
    run queues stay consistent and nothing leaves them. *)
Theorem wake_up_correct w Q T L q :
  waits_inv w Q T L ->
  exists w' Q', wake_up w q = Some w' /\ waits_inv w' Q' T L /\ stays (w_s w) (w_s w') /\
    (forall u, queued Q u -> queued Q' u) /\
    forall e, e ∈ L q -> (w_task w).[e] <> 0 -> t_state (task_at (w_s w) (w_task w).[e]) = TASK_SLEEPING ->
      queued Q' (w_task w).[e].
Proof.
  intros HI. destruct (wake_up_spec w Q T L q HI) as (w' & Q' & E & HI' & Hst & _ & Hq & _ & Hw).
  exists w', Q'. by splits.
Qed.

(** ** Entering and leaving a queue *)

Lemma contains_loop_spec q l : forall fuel w p e,
  @lseg _ (wlinks q) w p l -> (length l < fuel)%nat -> contains_loop fuel w p e = Some (bool_decide (e ∈ l)).
Proof.
  induction l as [|x l IH]; intros fuel w p e Hl Hf; (destruct fuel as [|fuel]; [cbn in Hf; lia|]);
    cbn [contains_loop]; cbn [lseg] in Hl.
  { subst p. cbn. by rewrite bool_decide_false by apply not_elem_of_nil. }
  destruct Hl as (-> & Hx & Hl). zdec. destruct (Z.eqb_spec x e) as [->|Hne].
  - by rewrite bool_decide_true by apply list_elem_of_here.
  - rewrite (IH fuel w (w_next w).[x] e Hl) by (cbn in Hf; lia). f_equal. apply bool_decide_ext. rewrite elem_of_cons. naive_solver.
Qed.

(** Linking an entry that is in no queue. *)
Lemma push_waits_inv w Q T L q e :
  waits_inv w Q T L -> e <> 0 -> (forall q', e ∉ L q') -> is_Some (w_task w !! e) -> wakeable (w_s w) (w_task w).[e] ->
  waits_inv (@slist_push _ (wlinks q) w e) Q T (<[q := e :: L q]> L).
Proof.
  intros HI He Hn Hs Hw. assert (Hin : forall q' x, x ∈ (<[q := e :: L q]> L) q' <-> x ∈ L q' \/ (q' = q /\ x = e)).
  { intros q' x. destruct (decide (q = q')) as [<-|Hq].
    - rewrite fn_lookup_insert, elem_of_cons. naive_solver.
    - rewrite fn_lookup_insert_ne by done. naive_solver. }
  split.
  - apply HI.
  - intros q'. destruct (decide (q = q')) as [<-|Hq].
    + rewrite fn_lookup_insert. apply (slist_push_spec (T := waits)); [done|apply Hn|apply HI].
    + rewrite fn_lookup_insert_ne by done.
      eapply (slist_frame (T := waits)); [..|apply (wi_queue _ _ _ _ HI q')]; cbn.
      * intros x Hx. apply arr_get_insert_ne. intros ->. by apply (Hn q').
      * by apply arr_get_insert_ne.
  - intros q1 q2 x. rewrite !Hin. intros [H1|[-> ->]] [H2|[-> H2]].
    + by apply (wi_apart _ _ _ _ HI q1 q2 x).
    + subst x. by apply Hn in H1.
    + by apply Hn in H2.
    + done.
  - intros q' x [Hx|[-> ->]]%Hin; [|done]. by apply (wi_entry _ _ _ _ HI q').
Qed.

(** The entry [e] of the current task [t], which may sleep. *)
Record entry_of (w : waits) (e t : Z) : Prop := {
  eo_nonzero : e <> 0;
  eo_task : w_task w !! e = Some t;
  eo_current : get_current (w_s w) = t;
  eo_idle : forall d, is_cpu d -> t <> idle_tasks d
}.

Lemma entry_get w e t : entry_of w e t -> (w_task w).[e] = t.
Proof. intros H. unfold arr_get. by rewrite (eo_task _ _ _ H). Qed.

Lemma current_some w Q T L : waits_inv w Q T L ->
  get_current (w_s w) <> 0 /\ is_Some (tasks (w_s w) !! get_current (w_s w)).
Proof. intros HI. destruct (si_curr _ _ _ (wi_sched _ _ _ _ HI) _ (si_this _ _ _ (wi_sched _ _ _ _ HI))) as (? & ? & _). done. Qed.

Lemma block_stays s Q T st : sched_inv s Q T -> stays s (sched_block s st).
Proof.
  intros HI. unfold sched_block. destruct (si_curr _ _ _ HI _ (si_this _ _ _ HI)) as (_ & Hs & _).
  etransitivity; [apply (stays_upd s (get_current s) (set_t_state st)); done|].
  apply stays_same_tasks. apply dequeue_tasks.
Qed.

Lemma block_state s st : t_state (task_at (sched_block s st) (get_current s)) = st.
Proof. unfold sched_block, task_at. rewrite dequeue_tasks. cbn. by rewrite lookup_insert_eq. Qed.

Lemma block_current s st : get_current (sched_block s st) = get_current s /\ this_cpu (sched_block s st) = this_cpu s.
Proof.
  unfold sched_block. destruct (dequeue_cpus (upd_task s (get_current s) (set_t_state st)) (get_current s)) as [E1 E2].
  split; [|done]. unfold get_current at 1. rewrite E1. apply E2.
Qed.

Lemma prepare_spec w Q T L q e t :
  waits_inv w Q T L -> entry_of w e t -> (forall q', e ∉ L q') ->
  exists w', prepare_to_wait w q e = Some w' /\ waits_inv w' (off t Q) T (<[q := e :: L q]> L) /\ entry_of w' e t /\
    t_state (task_at (w_s w') t) = TASK_SLEEPING /\ this_cpu (w_s w') = this_cpu (w_s w).
Proof.
  intros HI He Hn. destruct (current_some w Q T L HI) as [Hc0 Hcs]. rewrite (eo_current _ _ _ He) in Hc0, Hcs.
  unfold prepare_to_wait. rewrite (entry_get w e t He). zdec. unfold waitqueue_contains.
  rewrite (contains_loop_spec q (L q)); [|apply (wi_queue _ _ _ _ HI)|by apply (waits_fuel w Q T)].
  cbn [mbind option_bind]. rewrite bool_decide_false by done.
  assert (HI1 : waits_inv (@slist_push _ (wlinks q) w e) Q T (<[q := e :: L q]> L)).
  { apply push_waits_inv; try done; [apply He|by exists t; apply He|]. rewrite (entry_get w e t He). right. split; [done|apply He]. }
  change (w_s (@slist_push _ (wlinks q) w e)) with (w_s w). fold (sched_block (w_s w) TASK_SLEEPING).
  assert (Et := eo_current _ _ _ He). eexists. splits; [done|..].
  - eapply waits_inv_sched; [exact HI1|done|by intros u; eapply stays_grows, block_stays, HI|]. rewrite <- Et. by apply sched_block_inv, HI.
  - split; [apply He..| |apply He]. cbn. by rewrite (proj1 (block_current _ _)).
  - cbn. rewrite <- Et. apply block_state.
  - cbn. apply block_current.
Qed.

(** Waiting without the entry on the queue. *)
Lemma remove_spec w Q T L q e :
  waits_inv w Q T L -> e ∈ L q ->
  exists w', remove_wait_queue w q e = Some w' /\ waits_inv w' Q T (<[q := without e (L q)]> L) /\
    w_s w' = w_s w /\ w_task w' = w_task w.
Proof.
  intros HI He. assert (Hnd := lseg_NoDup (T := waits) _ _ _ (wi_queue _ _ _ _ HI q)).
  apply list_elem_of_split in He as (l1 & l2 & El). rewrite El in Hnd.
  assert (Hl := wi_queue _ _ _ _ HI q). unfold wqueue in Hl. rewrite El in Hl.
  assert (Hw : without e (L q) = l1 ++ l2).
  { rewrite El. apply NoDup_app in Hnd as (_ & Hd & Hnd). apply NoDup_cons in Hnd as [Hd2 _].
    apply without_split; [|done]. intros H1. apply (Hd e H1), list_elem_of_here. }
  assert (Hfu := waits_fuel w Q T L q HI). rewrite El, length_app in Hfu. cbn in Hfu.
  destruct (slist_unlink_present (T := waits) (wait_fuel w) w e l1 l2 Hl ltac:(lia)) as (c & Hc & Eu & Hu).
  unfold remove_wait_queue. rewrite Eu. cbn [mbind option_bind]. set (w1 := sset w c _) in *.
  assert (Es : w_s w1 = w_s w /\ w_task w1 = w_task w) by (unfold w1; destruct c; done).
  set (w2 := set_w_next _ w1). assert (Es2 : w_s w2 = w_s w /\ w_task w2 = w_task w) by exact Es.
  assert (Hnx : forall x, x <> e -> (w_next w2).[x] = (w_next w1).[x]) by (intros x Hx; by apply arr_get_insert_ne).
  assert (Hhd : w_head w2 = w_head w1) by done. clearbody w2.
  exists w2. splits; [done| |apply Es2..]. rewrite Hw.
  assert (Hin : forall q' x, x ∈ (<[q := l1 ++ l2]> L) q' -> x ∈ L q' /\ x <> e).
  { intros q' x. destruct (decide (q = q')) as [<-|Hq].
    - rewrite fn_lookup_insert, El. intros Hx. split.
      { rewrite elem_of_app, elem_of_cons. apply elem_of_app in Hx. tauto. }
      intros ->. apply NoDup_app in Hnd as (_ & Hd & Hnd).
      apply NoDup_cons in Hnd as [Hd2 _]. apply elem_of_app in Hx as [Hx|Hx]; [|done].
      apply (Hd e Hx), list_elem_of_here.
    - rewrite fn_lookup_insert_ne by done. intros Hx. split; [done|]. intros ->. apply Hq.
      apply (wi_apart _ _ _ _ HI q q' e); [|done]. rewrite El. apply elem_of_app. right. apply list_elem_of_here. }
  split.
  - rewrite (proj1 Es2). apply HI.
  - intros q'. destruct (decide (q = q')) as [<-|Hq].
    + rewrite fn_lookup_insert. eapply (slist_frame (T := waits)); [..|exact Hu]; cbn [sget wlinks]; [|by rewrite Hhd].
      intros x Hx. apply Hnx. intros ->. apply (Hin q e); [|done]. by rewrite fn_lookup_insert.
    + assert (Hq' := Hin q'). rewrite fn_lookup_insert_ne in Hq' |- * by done.
      eapply (slist_frame (T := waits)); [..|apply (wi_queue _ _ _ _ HI q')]; cbn [sget wlinks].
      * intros x Hx. rewrite Hnx by (intros ->; by destruct (Hq' e Hx)).
        unfold w1. destruct Hc as [->|(y & Hy & ->)]; cbn; [done|]. apply arr_get_insert_ne. intros <-. apply Hq.
        apply (wi_apart _ _ _ _ HI q q' y); [|done]. rewrite El. apply elem_of_app. by left.
      * rewrite Hhd. unfold w1. destruct Hc as [->|(y & Hy & ->)]; cbn; [|done]. by apply arr_get_insert_ne.
  - intros q1 q2 x [H1 _]%Hin [H2 _]%Hin. by apply (wi_apart _ _ _ _ HI q1 q2 x).
  - intros q' x [Hx _]%Hin. rewrite (proj1 Es2), (proj2 Es2). by apply (wi_entry _ _ _ _ HI q').
Qed.

Lemma enqueue_current s t : get_current (enqueue_task s t) = get_current s /\ this_cpu (enqueue_task s t) = this_cpu s.
Proof. destruct (enqueue_cpus s t) as [E1 E2]. split; [|done]. unfold get_current at 1. rewrite E1. apply E2. Qed.

Lemma finish_spec w Q T L q e t :
  waits_inv w Q T L -> entry_of w e t -> e ∈ L q ->
  exists w' Q', finish_wait w q e = Some w' /\ waits_inv w' Q' T (<[q := without e (L q)]> L) /\ entry_of w' e t /\
    queued Q' t /\ this_cpu (w_s w') = this_cpu (w_s w).
Proof.
  intros HI He Hin. destruct (remove_spec w Q T L q e HI Hin) as (w1 & E & HI1 & Es & Et).
  unfold finish_wait. rewrite E. cbn [mbind option_bind]. rewrite Es, (eo_current _ _ _ He).
  destruct (current_some w Q T L HI) as [Hc0 Hcs]. rewrite (eo_current _ _ _ He) in Hc0, Hcs.
  assert (HS := wi_sched _ _ _ _ HI). assert (Hid := eo_idle _ _ _ He).
  assert (Hfin : forall s' Q', sched_inv s' Q' T -> stays (w_s w) s' -> queued Q' t ->
    get_current s' = get_current (w_s w) -> this_cpu s' = this_cpu (w_s w) ->
    exists w' Q'', Some (set_w_s s' w1) = Some w' /\ waits_inv w' Q'' T (<[q := without e (L q)]> L) /\ entry_of w' e t /\
      queued Q'' t /\ this_cpu (w_s w') = this_cpu (w_s w)).
  { intros s' Q' HI' Hst Hq Hcur Hth. exists (set_w_s s' w1), Q'. splits; try done.
    - eapply waits_inv_sched; [exact HI1|done| |done]. rewrite Es. by intros u; apply stays_grows.
    - split; cbn; [apply He|by rewrite Et; apply He|by rewrite Hcur; apply He|done]. }
  destruct (inv_linked (w_s w) Q T HS t Hcs) as [[El Hq]|[El Hn]]; rewrite El; cbn [negb].
  - apply (Hfin _ Q).
    + apply (inv_task_fields _ _ _ HS); [done..|]. left. destruct Hq as (c & Hc & Hq).
      symmetry. by apply (si_queued _ _ _ HS c t).
    + by apply stays_upd.
    + done.
    + done.
    + done.
  - destruct (enqueue_task_inv (w_s w) Q T t HS Hcs Hc0 Hid) as [[_ (c & Hc & Hq)]|(c & Hc & _ & HI' & _)].
    { by destruct (Hn c Hc). }
    eapply Hfin; [exact HI'|by apply enqueue_task_stays| |apply enqueue_current..].
    exists c. split; [done|]. rewrite fn_lookup_insert. apply elem_of_app. right. by apply list_elem_of_singleton.
Qed.

(** ** The wait protocol

    The task [t] in [wait_event] with its entry [e] on the queue [q], and
    everybody else.  The task is at its check, between a check that failed and
    [prepare_to_wait], between that and [schedule], in [schedule] (asleep, or
    woken and waiting for the processor), or done.  [ws_irqs] says whether the
    interrupts of its processor are on: [wait_event] turns them off before the
    check and on again behind [prepare_to_wait].  This keeps others away on a
    machine with one processor, but not those on other processors:
    [prepare_to_wait] takes the lock of the queue only after the check. *)
Inductive wait_pc := Checking | Preparing | Switching | Sleeping | Finished.

Record wait_state := mkWait { ws_w : waits; ws_condition : bool; ws_pc : wait_pc; ws_irqs : bool }.

(** [f] executed by the processor [c]. *)
Definition on_cpu (c : Z) (w : waits) (f : waits -> option waits) : option waits :=
  w' ← f (set_w_s (set_this_cpu c (w_s w)) w);
  Some (set_w_s (set_this_cpu (this_cpu (w_s w)) (w_s w')) w').

(** The statements of [wait_event], executed by [t] when it has the processor;
    and what others do: make the condition true and call [wake_up], make it
    false, or switch tasks (a tick, or a task that sleeps or yields). *)
Inductive wait_step (smp : bool) (q e t : Z) : wait_state -> wait_state -> Prop :=
  | wait_true w irqs :
      get_current (w_s w) = t -> wait_step smp q e t (mkWait w true Checking irqs) (mkWait w true Finished true)
  | wait_false w irqs :
      get_current (w_s w) = t -> wait_step smp q e t (mkWait w false Checking irqs) (mkWait w false Preparing false)
  | wait_prepare w w' b irqs :
      get_current (w_s w) = t -> prepare_to_wait w q e = Some w' ->
      wait_step smp q e t (mkWait w b Preparing irqs) (mkWait w' b Switching true)
  | wait_switch w s b irqs :
      get_current (w_s w) = t -> schedule (w_s w) = Some s ->
      wait_step smp q e t (mkWait w b Switching irqs) (mkWait (set_w_s s w) b Sleeping irqs)
  | wait_resume w w' b irqs :
      get_current (w_s w) = t -> wait_event_resume w q e = Some w' ->
      wait_step smp q e t (mkWait w b Sleeping irqs) (mkWait w' b Checking irqs)
  | others_set c w w' b pc irqs :
      is_cpu c -> (smp = true /\ c <> this_cpu (w_s w)) \/ (c = this_cpu (w_s w) /\ irqs = true) ->
      on_cpu c w (fun w => wake_up w q) = Some w' ->
      wait_step smp q e t (mkWait w b pc irqs) (mkWait w' true pc irqs)
  | others_clear w b pc irqs :
      smp = true \/ irqs = true -> wait_step smp q e t (mkWait w b pc irqs) (mkWait w false pc irqs)
  | others_switch w s b pc :
      schedule (w_s w) = Some s -> wait_step smp q e t (mkWait w b pc true) (mkWait (set_w_s s w) b pc true).

(** The task has entered the queue and not left it. *)
Definition waiting_pc (pc : wait_pc) : bool := match pc with Switching | Sleeping => true | _ => false end.

(** The task [t] waits although its condition holds, and is not runnable:
    nobody will wake it again for it. *)
Definition lost (t : Z) (st : wait_state) : Prop :=
  waiting_pc (ws_pc st) = true /\ ws_condition st = true /\ list_is_linked (nodes (w_s (ws_w st))) (NRun t) = false.

(** The entry [e] of the task [t], which may sleep. *)
Record waits_for (w : waits) (e t : Z) : Prop := {
  wf_nonzero : e <> 0;
  wf_task : w_task w !! e = Some t;
  wf_some : t <> 0 /\ is_Some (tasks (w_s w) !! t);
  wf_idle : forall d, is_cpu d -> t <> idle_tasks d
}.

(** The waiter [t]: its entry is in the queue exactly from [prepare_to_wait] to
    [finish_wait]. *)
Record waiter (smp : bool) (q e t : Z) (st : wait_state) (Q : Z -> list Z) (T : list Z) (L : Z -> list Z) : Prop := {
  wr_inv : waits_inv (ws_w st) Q T L;
  wr_entry : waits_for (ws_w st) e t;
  wr_asleep : waiting_pc (ws_pc st) = true -> e ∈ L q /\ (t_state (task_at (w_s (ws_w st)) t) = TASK_SLEEPING \/ queued Q t);
  wr_awake : waiting_pc (ws_pc st) = false -> (forall q', e ∉ L q') /\ queued Q t;
  wr_irqs : ws_pc st = Preparing -> ws_irqs st = false;
  wr_single : smp = false -> (ws_pc st = Preparing -> ws_condition st = false) /\
    (waiting_pc (ws_pc st) = true -> ws_condition st = true -> queued Q t)
}.

Lemma entry_current w e t : waits_for w e t -> get_current (w_s w) = t -> entry_of w e t.
Proof. intros [H1 H2 _ H3] E. by split. Qed.

Lemma entry_waits w Q T L e t : waits_inv w Q T L -> entry_of w e t -> waits_for w e t.
Proof. intros HI [H1 H2 E H3]. split; [done|done| |done]. rewrite <- E. by apply (current_some w Q T L). Qed.

Lemma wake_up_cpus w q w' : wake_up w q = Some w' -> same_cpus (w_s w) (w_s w').
Proof.
  unfold wake_up. generalize (w_head w).[q] as p, (wait_fuel w) as fuel. intros p fuel.
  revert w p. induction fuel as [|fuel IH]; intros w p E; cbn in E; [done|].
  destruct (p =? 0); [by injection E as <-|]. apply IH in E. eapply same_cpus_trans; [|exact E].
  destruct (negb _ && _); [|done]. apply wake_cpus.
Qed.

Lemma on_cpu_wake w Q T L q c e t :
  waits_inv w Q T L -> is_cpu c -> waits_for w e t ->
  exists w' Q', on_cpu c w (fun w => wake_up w q) = Some w' /\ waits_inv w' Q' T L /\ waits_for w' e t /\
    get_current (w_s w') = get_current (w_s w) /\ this_cpu (w_s w') = this_cpu (w_s w) /\ (queued Q t -> queued Q' t) /\
    (t_state (task_at (w_s w) t) = TASK_SLEEPING -> t_state (task_at (w_s w') t) = TASK_SLEEPING \/ queued Q' t) /\
    (e ∈ L q -> t_state (task_at (w_s w) t) = TASK_SLEEPING -> queued Q' t).
Proof.
  intros HI Hc He. set (w0 := set_w_s (set_this_cpu c (w_s w)) w).
  assert (HI0 : waits_inv w0 Q T L).
  { eapply waits_inv_sched; [exact HI|done|done|]. apply set_this_cpu_inv; [done|apply HI]. }
  destruct (wake_up_spec w0 Q T L q HI0) as (w1 & Q' & E & HI1 & Hst & Et & Hq & Hs & Hw).
  destruct (wf_some _ _ _ He) as [Ht0 Hts]. destruct (wake_up_cpus w0 q w1 E) as [E1 E2].
  unfold on_cpu. fold w0. rewrite E. cbn [mbind option_bind]. eexists _, Q'. split; [done|]. splits.
  - eapply waits_inv_sched; [exact HI1|done|done|]. apply set_this_cpu_inv; [apply (wi_sched _ _ _ _ HI)|apply HI1].
  - split; [apply He|cbn; rewrite Et; apply He| |apply He]. split; [done|]. cbn. by apply (stays_grows (w_s w0)).
  - unfold get_current. cbn. apply E2.
  - done.
  - apply Hq.
  - apply Hs.
  - intros Hin Hsl. change (w_task w0) with (w_task w) in Hw. specialize (Hw e Hin).
    assert (Eg : (w_task w).[e] = t) by (unfold arr_get; by rewrite (wf_task _ _ _ He)). rewrite Eg in Hw. by apply Hw.
Qed.

(** A switch of tasks leaves the waits and who is runnable alone. *)
Lemma switch_spec w Q T L e t :
  waits_inv w Q T L -> waits_for w e t ->
  exists s Q', schedule (w_s w) = Some s /\ waits_inv (set_w_s s w) Q' T L /\ waits_for (set_w_s s w) e t /\
    (queued Q t <-> queued Q' t) /\ t_state (task_at s t) = t_state (task_at (w_s w) t).
Proof.
  intros HI He. destruct (schedule_inv (w_s w) Q T (wi_sched _ _ _ _ HI)) as (s & Q' & E & HI' & Hq). exists s, Q'.
  assert (Hk := schedule_keeps _ _ E). split; [done|]. split; [|split; [|split; [apply Hq|apply Hk]]].
  - eapply waits_inv_sched; [exact HI|done| |exact HI']. intros u. apply Hk.
  - destruct He as [H1 H2 [H3 H4] H5]. split; [done|done|split; [done|by apply Hk]|done].
Qed.

Lemma linked_queued w Q T L e t :
  waits_inv w Q T L -> waits_for w e t -> (list_is_linked (nodes (w_s w)) (NRun t) = true <-> queued Q t).
Proof.
  intros HI He. destruct (inv_linked _ Q T (wi_sched _ _ _ _ HI) t (proj2 (wf_some _ _ _ He))) as [[El Hq]|[El Hn]]; rewrite El.
  - split; [intros _|done]. exact Hq.
  - split; [done|]. intros (c & Hc & Hin). by destruct (Hn c Hc).
Qed.

Lemma wait_step_waiter smp q e t st st' Q T L :
  waiter smp q e t st Q T L -> wait_step smp q e t st st' -> exists Q' L', waiter smp q e t st' Q' T L'.
Proof.
  intros [HI He Has Haw Hir Hsi] Hst.
  destruct Hst as [w irqs Hc|w irqs Hc|w w' b irqs Hc E|w s b irqs Hc E|w w' b irqs Hc E|c w w' b pc irqs Hc Hg E|w b pc irqs Hg|w s b pc E];
    cbn [ws_w ws_pc ws_condition ws_irqs waiting_pc] in *.
  - exists Q, L. split; cbn; try done; intros _; by apply Haw.
  - exists Q, L. split; cbn; try done; intros _; by apply Haw.
  - destruct (Haw eq_refl) as [Hn Hq].
    destruct (prepare_spec w Q T L q e t HI (entry_current _ _ _ He Hc) Hn) as (w1 & E1 & HI1 & He1 & Hs1 & _).
    rewrite E in E1. injection E1 as <-. exists (off t Q), (<[q := e :: L q]> L). split; cbn; try done; [by eapply entry_waits|..].
    + intros _. rewrite fn_lookup_insert. split; [apply list_elem_of_here|by left].
    + intros H0. destruct (Hsi H0) as [Hb _]. split; [done|]. intros _ Hb'. rewrite Hb in Hb' by done. done.
  - destruct (switch_spec w Q T L e t HI He) as (s1 & Q' & E1 & HI' & He' & Hq & Hs). rewrite E in E1. injection E1 as <-.
    exists Q', L. split; cbn; try done; [intros _; rewrite Hs, <- Hq; by apply Has|]. intros H0. rewrite <- Hq. by split; [|apply Hsi].
  - destruct (Has eq_refl) as [Hin _].
    destruct (finish_spec w Q T L q e t HI (entry_current _ _ _ He Hc) Hin) as (w1 & Q1 & E1 & HI1 & He1 & Hq1 & _).
    unfold wait_event_resume in E. rewrite E in E1. injection E1 as <-. exists Q1, (<[q := without e (L q)]> L). split; cbn; try done; [by eapply entry_waits|].
    intros _. split; [|done]. intros q'. destruct (decide (q = q')) as [<-|Hq].
    + rewrite fn_lookup_insert, without_elem. naive_solver.
    + rewrite fn_lookup_insert_ne by done. intros Hin'. by apply Hq, (wi_apart _ _ _ _ HI q q' e).
  - destruct (on_cpu_wake w Q T L q c e t HI Hc He) as (w1 & Q1 & E1 & HI1 & He1 & _ & _ & Hq1 & Hs1 & Hw1).
    rewrite E in E1. injection E1 as <-. exists Q1, L. split; cbn; try done.
    + intros Hpc. destruct (Has Hpc) as [Hin [Hs|Hq]]; split; auto.
    + intros Hpc. destruct (Haw Hpc) as [Hn Hq]. auto.
    + intros H0. split; [intros Hpc; rewrite (Hir Hpc) in Hg; destruct Hg as [[-> _]|[_ ?]]; done|].
      intros Hpc _. destruct (Has Hpc) as [Hin [Hs|Hq]]; auto.
  - exists Q, L. by split.
  - destruct (switch_spec w Q T L e t HI He) as (s1 & Q' & E1 & HI' & He' & Hq & Hs). rewrite E in E1. injection E1 as <-.
    exists Q', L. split; cbn; try done; [intros Hpc; rewrite Hs, <- Hq; by apply Has|intros Hpc; rewrite <- Hq; by apply Haw|].
    intros H0. rewrite <- Hq. by apply Hsi.
Qed.

Lemma wait_steps_waiter smp q e t st st' Q T L :
  waiter smp q e t st Q T L -> rtc (wait_step smp q e t) st st' -> exists Q' L', waiter smp q e t st' Q' T L'.
Proof.
  intros HW Hr. revert Q L HW. induction Hr as [|st1 st2 st3 Hs _ IH]; intros Q L HW; [eauto|].
  destruct (wait_step_waiter _ _ _ _ _ _ _ _ _ HW Hs) as (Q' & L' & HW'). eauto.
Qed.

(** A turn of [wait_event] without anybody else is steps of the protocol. *)
Definition turn_state (b : bool) (r : turn waits) : wait_state :=
  match r with Return _ w => mkWait w b Finished true | Asleep w => mkWait w b Sleeping true end.

Lemma turn_steps smp q e t w b Q T L :
  waiter smp q e t (mkWait w b Checking true) Q T L -> get_current (w_s w) = t ->
  exists r, wait_event_turn w q e b = Some r /\ rtc (wait_step smp q e t) (mkWait w b Checking true) (turn_state b r).
Proof.
  intros HW Hc. destruct (wr_awake _ _ _ _ _ _ _ _ HW eq_refl) as [Hn _]. assert (HI := wr_inv _ _ _ _ _ _ _ _ HW). unfold wait_event_turn.
  destruct b; [exists (Return 0 w); split; [done|]; apply rtc_once; by apply wait_true|].
  destruct (prepare_spec w Q T L q e t HI (entry_current _ _ _ (wr_entry _ _ _ _ _ _ _ _ HW) Hc) Hn) as (w1 & E1 & HI1 & He1 & _).
  destruct (switch_spec w1 _ T _ e t HI1 (entry_waits _ _ _ _ _ _ HI1 He1)) as (s & Q3 & E3 & _).
  exists (Asleep (set_w_s s w1)). split; [rewrite E1; cbn [mbind option_bind]; by rewrite E3|].
  eapply rtc_l; [by apply wait_false|]. eapply rtc_l; [by apply wait_prepare|]. apply rtc_once. apply wait_switch; [apply He1|exact E3].
Qed.

(** C31: on one processor [wait_event] never loses a wake-up.  The turn of
    [wait_event] is a run of the protocol; and whatever the others do between
    its statements and however often the condition changes, at every moment,
    task switches included, a waiter that is in the queue while its condition
    holds is runnable. *)
Theorem wait_event_no_lost_wakeup q e t w b Q T L :
  waiter false q e t (mkWait w b Checking true) Q T L ->
  (get_current (w_s w) = t ->
    exists r, wait_event_turn w q e b = Some r /\ rtc (wait_step false q e t) (mkWait w b Checking true) (turn_state b r)) /\
  forall st, rtc (wait_step false q e t) (mkWait w b Checking true) st -> ~ lost t st.
Proof.
  intros HW. split; [by apply (turn_steps false q e t w b Q T L)|]. intros st Hr (Hpc & Hb & Hl).
  destruct (wait_steps_waiter _ _ _ _ _ _ _ _ _ HW Hr) as (Q' & L' & HW').
  assert (Hq := proj2 (wr_single _ _ _ _ _ _ _ _ HW' eq_refl) Hpc Hb).
  apply (linked_queued _ _ _ _ _ _ (wr_inv _ _ _ _ _ _ _ _ HW') (wr_entry _ _ _ _ _ _ _ _ HW')) in Hq. congruence.
Qed.

(** C39: with a second processor it does lose wake-ups: from any state in which
    the waiter is about to check a false condition, a waker on another
    processor that sets the condition and calls [wake_up] between the check
    and [prepare_to_wait] leaves the waiter asleep although its condition
    holds. *)
Theorem wait_event_lost_wakeup_smp q e t w Q T L c :
  waiter true q e t (mkWait w false Checking true) Q T L -> get_current (w_s w) = t -> is_cpu c -> c <> this_cpu (w_s w) ->
  exists st, rtc (wait_step true q e t) (mkWait w false Checking true) st /\ ws_pc st = Sleeping /\ lost t st.
Proof.
  intros HW Hcur Hc Hne. destruct (wr_awake _ _ _ _ _ _ _ _ HW eq_refl) as [Hn Hq].
  destruct (on_cpu_wake w Q T L q c e t (wr_inv _ _ _ _ _ _ _ _ HW) Hc (wr_entry _ _ _ _ _ _ _ _ HW))
    as (w1 & Q1 & E1 & HI1 & He1 & Ec1 & _).
  assert (He1' : entry_of w1 e t) by (apply entry_current; [done|congruence]).
  destruct (prepare_spec w1 Q1 T L q e t HI1 He1' Hn) as (w2 & E2 & HI2 & He2 & Hs2 & _).
  destruct (switch_spec w2 _ T _ e t HI2 (entry_waits _ _ _ _ _ _ HI2 He2)) as (s & Q3 & E3 & HI3 & He3 & Hq3 & _).
  exists (mkWait (set_w_s s w2) true Sleeping true). split; [|split; [done|split; [done|split; [done|]]]].
  - eapply rtc_l; [by apply wait_false|]. eapply rtc_l; [apply (others_set _ _ _ _ c); [done|by left|exact E1]|].
    eapply rtc_l; [apply wait_prepare; [apply He1'|exact E2]|]. apply rtc_once. apply wait_switch; [apply He2|exact E3].
  - apply not_true_is_false. intros (d & Hd & Hin)%(linked_queued _ _ _ _ _ _ HI3 He3)%Hq3. unfold off in Hin. rewrite without_elem in Hin. naive_solver.
Qed.

(** ** Examples *)

(** The running task with an entry for an empty queue. *)
Definition waiting : waits := declare_waitqueue (mkWaits running ∅ ∅ ∅) 4096 (get_current running).

Lemma waiting_inv : exists Q T, waits_inv waiting Q T (fun _ => []) /\ Q 0 = queue running 0.
Proof.
  destruct running_inv as (Q & T & HI & E). exists Q, T. split; [|exact E]. split.
  - exact HI.
  - intros q. reflexivity.
  - intros q q' x Hx. destruct (not_elem_of_nil _ Hx).
  - intros q x Hx. destruct (not_elem_of_nil _ Hx).
Qed.

Lemma waiting_entry : entry_of waiting 4096 (get_current running).
Proof.
  split; [lia|apply lookup_insert_eq|reflexivity|].
  assert (E : get_current running = 100) by (vm_compute; reflexivity). rewrite E.
  intros d Hd. unfold is_cpu, NR_CPUS, idle_tasks in *. lia.
Qed.

Lemma waiting_waiter smp : exists Q T,
  waiter smp 8 4096 (get_current running) (mkWait waiting false Checking true) Q T (fun _ => []).
Proof.
  destruct waiting_inv as (Q & T & HI & E). exists Q, T. split; cbn [ws_w ws_pc ws_condition waiting_pc].
  - exact HI.
  - exact (entry_waits _ _ _ _ _ _ HI waiting_entry).
  - discriminate.
  - intros _. split; [intros q' Hq'; apply (not_elem_of_nil _ Hq')|]. exists 0.
    split; [unfold is_cpu, NR_CPUS; lia|]. rewrite E.
    apply (bool_decide_eq_true_1 (get_current running ∈ queue running 0)). vm_compute. reflexivity.
  - discriminate.
  - intros _. split; discriminate.
Qed.

Lemma wake_up_correct_witness : exists w', wake_up waiting 8 = Some w'.
Proof.
  destruct waiting_inv as (Q & T & HI & _). destruct (wake_up_correct waiting Q T _ 8 HI) as (w' & Q' & E & _).
  exists w'. exact E.
Defined.

Definition runs_next (r : option (turn waits)) : Z := match r with Some (Asleep w) => get_current (w_s w) | _ => 0 end.

Lemma runs_next_spec r : runs_next r <> 0 -> exists w, r = Some (Asleep w) /\ get_current (w_s w) = runs_next r.
Proof. destruct r as [[|w]|]; [done| |done]. intros _. by exists w. Qed.

(** The waiter goes to sleep, another task makes the condition true and wakes
    the queue: the waiter is still in the queue, and runnable. *)
Lemma wait_event_no_lost_wakeup_witness :
  exists st, rtc (wait_step false 8 4096 (get_current running)) (mkWait waiting false Checking true) st /\
    ws_pc st = Sleeping /\ ws_condition st = true /\ get_current (w_s (ws_w st)) = 200 /\ ~ lost (get_current running) st.
Proof.
  destruct (waiting_waiter false) as (Q & T & HW). destruct (wait_event_no_lost_wakeup 8 4096 _ waiting false Q T _ HW) as [Ht Hl].
  destruct (Ht (eo_current _ _ _ waiting_entry)) as (r & E & Hr). assert (En : runs_next (wait_event_turn waiting 8 4096 false) = 200) by (vm_compute; reflexivity).
  destruct (runs_next_spec (wait_event_turn waiting 8 4096 false)) as (w1 & E1 & Ec); [rewrite En; discriminate|]. rewrite En in Ec. clear En.
  rewrite E in E1. injection E1 as ->. destruct (wait_steps_waiter _ _ _ _ _ _ _ _ _ HW Hr) as (Q1 & L1 & HW1).
  assert (Hc := si_this _ _ _ (wi_sched _ _ _ _ (wr_inv _ _ _ _ _ _ _ _ HW1))).
  destruct (on_cpu_wake _ _ _ _ 8 _ _ _ (wr_inv _ _ _ _ _ _ _ _ HW1) Hc (wr_entry _ _ _ _ _ _ _ _ HW1)) as (w2 & Q2 & E2 & _ & _ & Ec2 & _).
  assert (Hs : rtc (wait_step false 8 4096 (get_current running)) (mkWait waiting false Checking true) (mkWait w2 true Sleeping true)).
  { eapply rtc_r; [exact Hr|]. exact (others_set false 8 4096 _ _ w1 w2 false Sleeping true Hc (or_intror (conj eq_refl eq_refl)) E2). }
  exists (mkWait w2 true Sleeping true). split; [exact Hs|]. split; [reflexivity|]. split; [reflexivity|]. split; [|exact (Hl _ Hs)].
  exact (eq_trans Ec2 Ec).
Defined.

Lemma wait_event_lost_wakeup_smp_witness :
  exists st, rtc (wait_step true 8 4096 (get_current running)) (mkWait waiting false Checking true) st /\
    ws_pc st = Sleeping /\ lost (get_current running) st.
Proof.
  destruct (waiting_waiter true) as (Q & T & HW).
  apply (wait_event_lost_wakeup_smp 8 4096 _ waiting Q T _ 1 HW); [exact (eo_current _ _ _ waiting_entry)|unfold is_cpu, NR_CPUS; lia|].
  assert (E : this_cpu (w_s waiting) = 0) by (vm_compute; reflexivity). rewrite E. lia.
Defined.
