(* ===== verification/Kernel.v ===== *)
(** * The state of the kernel above the scheduler

    Files, pipes, inodes, directory entries and the terminal, as the structures
    of [include/linux/fs.h], [include/linux/dcache.h], [fs/ramfs.c],
    [fs/pipe.c] and [include/linux/tty.h] have them.  A structure that
    [kmalloc] returned is found under its address in the map of its type;
    [kmalloc] and [kfree] act on the caches of [Slub] at the same time.  A name
    or path in a [char] array is the list of its characters before the
    terminator. *)
From S2P Require Import Prelude PageAlloc Slub ListHead Task Sched Signal Wait.

(** Flags of [include/linux/fs.h]. *)
Definition PATH_MAX : Z := 256.
Definition S_IFMT : Z := 61440.
Definition S_IFIFO : Z := 4096.
Definition S_IFCHR : Z := 8192.
Definition S_IFDIR : Z := 16384.
Definition S_IFLNK : Z := 40960.
Definition S_IFREG : Z := 32768.
Definition I_PERSISTENT : Z := 1.
Definition O_RDONLY : Z := 0.
Definition O_WRONLY : Z := 1.
Definition O_ACCMODE : Z := 3.
Abbreviation O_APPEND := 1024 (only parsing).
Definition O_NONBLOCK : Z := 2048.
Abbreviation O_ASYNC := 8192 (only parsing).
Definition O_CLOEXEC : Z := 524288.
Definition F_DUPFD : Z := 0.
Definition F_GETFD : Z := 1.
Definition F_SETFD : Z := 2.
Definition F_GETFL : Z := 3.
Definition F_SETFL : Z := 4.
Definition F_DUPFD_CLOEXEC : Z := 0x406.
Definition FD_CLOEXEC : Z := 1.

(** [struct file_ops]: the tables of operations that exist. *)
Inductive file_ops :=
  | FOP_NULL | ramfs_file_ops | ramfs_dir_ops | pipe_read_ops | pipe_write_ops | tty_fops | serial_fops | devnull_fops
  | proc_file_ops | proc_root_ops | proc_pid_dir_ops.

#[export] Instance file_ops_eq_dec : EqDecision file_ops.
Proof. solve_decision. Defined.

Record file := mkFile {
  f_refcount : Z;
  f_inode : Z;
  f_op : file_ops;
  f_private : Z;
  f_pos : Z;
  f_flags : Z;
  f_mode : Z
}.

(** [struct pipe]; its wait queues are at fixed offsets of its address. *)
Record pipe := mkPipe {
  p_head : Z;
  p_tail : Z;
  p_len : Z;
  p_readers : Z;
  p_writers : Z;
  p_buf : gmap Z Z
}.

(** [struct inode] with the fields of the [struct ramfs_inode] that embeds it
    at offset 0.  [i_op] and [i_free] tell whether the pointers are those of
    ramfs or NULL. *)
Record inode := mkInode {
  i_ino : Z;
  i_size : Z;
  i_type : Z;
  i_mode : Z;
  i_rdev : Z;
  i_op : bool;
  i_fop : file_ops;
  i_private : Z;
  i_nlink : Z;
  i_count : Z;
  i_flags : Z;
  i_free : bool;
  ri_parent : Z;
  ri_children : Z;
  ri_data : Z;
  ri_capacity : Z
}.

(** [struct ramfs_dentry] and [struct dentry]. *)
Record ramfs_dentry := mkRdent { rd_name : list Z; rd_inode : Z; rd_next : Z }.
Record dentry := mkDent { d_name : list Z; d_inode : Z; d_parent : Z; d_child : Z; d_next : Z }.

(** [struct user_termios] (the flag words; the rest is copied unchanged) and
    [struct tty]. *)
Record termios := mkTermios { c_iflag : Z; c_oflag : Z; c_cflag : Z; c_lflag : Z; c_rest : list Z }.

Record tty := mkTty {
  rx_buf : gmap Z Z;
  rx_head : Z;
  rx_tail : Z;
  session_id : Z;
  foreground_pgid : Z;
  tty_echo : bool;
  tty_canonical : bool;
  tty_isig : bool;
  tty_termios : termios
}.

(** [k_b]: the bytes of blocks of file data; [k_u]: the bytes of the current
    user address space; [k_uart]: what was sent to the UART. *)
Record kernel := mkKernel {
  k_w : waits;
  k_k : slub;
  k_u : gmap Z Z;
  k_b : gmap Z Z;
  k_files : gmap Z file;
  k_pipes : gmap Z pipe;
  k_inodes : gmap Z inode;
  k_rdents : gmap Z ramfs_dentry;
  k_dents : gmap Z dentry;
  k_next_ino : Z;
  k_tty : tty;
  k_uart : list Z
}.

Abbreviation file_eta x := (mkFile (f_refcount x) (f_inode x) (f_op x) (f_private x) (f_pos x) (f_flags x)
  (f_mode x)) (only parsing).

Definition set_f_refcount (v : Z) (x : file) : file := ltac:(setter (file_eta x) (f_refcount x) v).
Definition set_f_inode (v : Z) (x : file) : file := ltac:(setter (file_eta x) (f_inode x) v).
Definition set_f_op (v : file_ops) (x : file) : file := ltac:(setter (file_eta x) (f_op x) v).
Definition set_f_private (v : Z) (x : file) : file := ltac:(setter (file_eta x) (f_private x) v).
Definition set_f_pos (v : Z) (x : file) : file := ltac:(setter (file_eta x) (f_pos x) v).
Definition set_f_flags (v : Z) (x : file) : file := ltac:(setter (file_eta x) (f_flags x) v).
Definition set_f_mode (v : Z) (x : file) : file := ltac:(setter (file_eta x) (f_mode x) v).

Abbreviation pipe_eta x := (mkPipe (p_head x) (p_tail x) (p_len x) (p_readers x) (p_writers x) (p_buf x))
  (only parsing).

Definition set_p_head (v : Z) (x : pipe) : pipe := ltac:(setter (pipe_eta x) (p_head x) v).
Definition set_p_tail (v : Z) (x : pipe) : pipe := ltac:(setter (pipe_eta x) (p_tail x) v).
Definition set_p_len (v : Z) (x : pipe) : pipe := ltac:(setter (pipe_eta x) (p_len x) v).
Definition set_p_readers (v : Z) (x : pipe) : pipe := ltac:(setter (pipe_eta x) (p_readers x) v).
Definition set_p_writers (v : Z) (x : pipe) : pipe := ltac:(setter (pipe_eta x) (p_writers x) v).
Definition set_p_buf (v : gmap Z Z) (x : pipe) : pipe := ltac:(setter (pipe_eta x) (p_buf x) v).

Abbreviation inode_eta x := (mkInode (i_ino x) (i_size x) (i_type x) (i_mode x) (i_rdev x) (i_op x) (i_fop x)
  (i_private x) (i_nlink x) (i_count x) (i_flags x) (i_free x) (ri_parent x) (ri_children x) (ri_data x)
  (ri_capacity x)) (only parsing).

Definition set_i_ino (v : Z) (x : inode) : inode := ltac:(setter (inode_eta x) (i_ino x) v).
Definition set_i_size (v : Z) (x : inode) : inode := ltac:(setter (inode_eta x) (i_size x) v).
Definition set_i_type (v : Z) (x : inode) : inode := ltac:(setter (inode_eta x) (i_type x) v).
Definition set_i_mode (v : Z) (x : inode) : inode := ltac:(setter (inode_eta x) (i_mode x) v).
Definition set_i_rdev (v : Z) (x : inode) : inode := ltac:(setter (inode_eta x) (i_rdev x) v).
Definition set_i_op (v : bool) (x : inode) : inode := ltac:(setter (inode_eta x) (i_op x) v).
Definition set_i_fop (v : file_ops) (x : inode) : inode := ltac:(setter (inode_eta x) (i_fop x) v).
Definition set_i_private (v : Z) (x : inode) : inode := ltac:(setter (inode_eta x) (i_private x) v).
Definition set_i_nlink (v : Z) (x : inode) : inode := ltac:(setter (inode_eta x) (i_nlink x) v).
Definition set_i_count (v : Z) (x : inode) : inode := ltac:(setter (inode_eta x) (i_count x) v).
Definition set_i_flags (v : Z) (x : inode) : inode := ltac:(setter (inode_eta x) (i_flags x) v).
Definition set_i_free (v : bool) (x : inode) : inode := ltac:(setter (inode_eta x) (i_free x) v).
Definition set_ri_parent (v : Z) (x : inode) : inode := ltac:(setter (inode_eta x) (ri_parent x) v).
Definition set_ri_children (v : Z) (x : inode) : inode := ltac:(setter (inode_eta x) (ri_children x) v).
Definition set_ri_data (v : Z) (x : inode) : inode := ltac:(setter (inode_eta x) (ri_data x) v).
Definition set_ri_capacity (v : Z) (x : inode) : inode := ltac:(setter (inode_eta x) (ri_capacity x) v).

Abbreviation ramfs_dentry_eta x := (mkRdent (rd_name x) (rd_inode x) (rd_next x)) (only parsing).

Definition set_rd_name (v : list Z) (x : ramfs_dentry) : ramfs_dentry := ltac:(setter (ramfs_dentry_eta x)
  (rd_name x) v).
Definition set_rd_inode (v : Z) (x : ramfs_dentry) : ramfs_dentry := ltac:(setter (ramfs_dentry_eta x)
  (rd_inode x) v).
Definition set_rd_next (v : Z) (x : ramfs_dentry) : ramfs_dentry := ltac:(setter (ramfs_dentry_eta x) (rd_next x) v).

Abbreviation dentry_eta x := (mkDent (d_name x) (d_inode x) (d_parent x) (d_child x) (d_next x)) (only parsing).

Definition set_d_name (v : list Z) (x : dentry) : dentry := ltac:(setter (dentry_eta x) (d_name x) v).
Definition set_d_inode (v : Z) (x : dentry) : dentry := ltac:(setter (dentry_eta x) (d_inode x) v).
Definition set_d_parent (v : Z) (x : dentry) : dentry := ltac:(setter (dentry_eta x) (d_parent x) v).
Definition set_d_child (v : Z) (x : dentry) : dentry := ltac:(setter (dentry_eta x) (d_child x) v).
Definition set_d_next (v : Z) (x : dentry) : dentry := ltac:(setter (dentry_eta x) (d_next x) v).

Abbreviation tty_eta x := (mkTty (rx_buf x) (rx_head x) (rx_tail x) (session_id x) (foreground_pgid x)
  (tty_echo x) (tty_canonical x) (tty_isig x) (tty_termios x)) (only parsing).

Definition set_rx_buf (v : gmap Z Z) (x : tty) : tty := ltac:(setter (tty_eta x) (rx_buf x) v).
Definition set_rx_head (v : Z) (x : tty) : tty := ltac:(setter (tty_eta x) (rx_head x) v).
Definition set_rx_tail (v : Z) (x : tty) : tty := ltac:(setter (tty_eta x) (rx_tail x) v).
Definition set_session_id (v : Z) (x : tty) : tty := ltac:(setter (tty_eta x) (session_id x) v).
Definition set_foreground_pgid (v : Z) (x : tty) : tty := ltac:(setter (tty_eta x) (foreground_pgid x) v).
Definition set_tty_echo (v : bool) (x : tty) : tty := ltac:(setter (tty_eta x) (tty_echo x) v).
Definition set_tty_canonical (v : bool) (x : tty) : tty := ltac:(setter (tty_eta x) (tty_canonical x) v).
Definition set_tty_isig (v : bool) (x : tty) : tty := ltac:(setter (tty_eta x) (tty_isig x) v).
Definition set_tty_termios (v : termios) (x : tty) : tty := ltac:(setter (tty_eta x) (tty_termios x) v).

Abbreviation kernel_eta x := (mkKernel (k_w x) (k_k x) (k_u x) (k_b x) (k_files x) (k_pipes x) (k_inodes x)
  (k_rdents x) (k_dents x) (k_next_ino x) (k_tty x) (k_uart x)) (only parsing).

Definition set_k_w (v : waits) (x : kernel) : kernel := ltac:(setter (kernel_eta x) (k_w x) v).
Definition set_k_k (v : slub) (x : kernel) : kernel := ltac:(setter (kernel_eta x) (k_k x) v).
Definition set_k_u (v : gmap Z Z) (x : kernel) : kernel := ltac:(setter (kernel_eta x) (k_u x) v).
Definition set_k_b (v : gmap Z Z) (x : kernel) : kernel := ltac:(setter (kernel_eta x) (k_b x) v).
Definition set_k_files (v : gmap Z file) (x : kernel) : kernel := ltac:(setter (kernel_eta x) (k_files x) v).
Definition set_k_pipes (v : gmap Z pipe) (x : kernel) : kernel := ltac:(setter (kernel_eta x) (k_pipes x) v).
Definition set_k_inodes (v : gmap Z inode) (x : kernel) : kernel := ltac:(setter (kernel_eta x) (k_inodes x) v).
Definition set_k_rdents (v : gmap Z ramfs_dentry) (x : kernel) : kernel := ltac:(setter (kernel_eta x)
  (k_rdents x) v).
Definition set_k_dents (v : gmap Z dentry) (x : kernel) : kernel := ltac:(setter (kernel_eta x) (k_dents x) v).
Definition set_k_next_ino (v : Z) (x : kernel) : kernel := ltac:(setter (kernel_eta x) (k_next_ino x) v).
Definition set_k_tty (v : tty) (x : kernel) : kernel := ltac:(setter (kernel_eta x) (k_tty x) v).
Definition set_k_uart (v : list Z) (x : kernel) : kernel := ltac:(setter (kernel_eta x) (k_uart x) v).

(** Reading and writing through pointers; what was never written is zero. *)
Definition file0 : file := mkFile 0 0 FOP_NULL 0 0 0 0.
Definition pipe0 : pipe := mkPipe 0 0 0 0 0 ∅.
Definition inode0 : inode := mkInode 0 0 0 0 0 false FOP_NULL 0 0 0 0 false 0 0 0 0.
Definition rdent0 : ramfs_dentry := mkRdent [] 0 0.
Definition dentry0 : dentry := mkDent [] 0 0 0 0.

Definition file_at (k : kernel) (f : Z) : file := default file0 (k_files k !! f).
Definition upd_file (k : kernel) (f : Z) (g : file -> file) : kernel :=
  set_k_files (<[f := g (file_at k f)]> (k_files k)) k.
Definition pipe_at (k : kernel) (p : Z) : pipe := default pipe0 (k_pipes k !! p).
Definition upd_pipe (k : kernel) (p : Z) (g : pipe -> pipe) : kernel :=
  set_k_pipes (<[p := g (pipe_at k p)]> (k_pipes k)) k.
Definition inode_at (k : kernel) (i : Z) : inode := default inode0 (k_inodes k !! i).
Definition upd_inode (k : kernel) (i : Z) (g : inode -> inode) : kernel :=
  set_k_inodes (<[i := g (inode_at k i)]> (k_inodes k)) k.
Definition rdent_at (k : kernel) (d : Z) : ramfs_dentry := default rdent0 (k_rdents k !! d).
Definition upd_rdent (k : kernel) (d : Z) (g : ramfs_dentry -> ramfs_dentry) : kernel :=
  set_k_rdents (<[d := g (rdent_at k d)]> (k_rdents k)) k.
Definition dent_at (k : kernel) (d : Z) : dentry := default dentry0 (k_dents k !! d).
Definition upd_dent (k : kernel) (d : Z) (g : dentry -> dentry) : kernel :=
  set_k_dents (<[d := g (dent_at k d)]> (k_dents k)) k.

Definition k_s (k : kernel) : sched := w_s (k_w k).
Definition set_k_s (s : sched) (k : kernel) : kernel := set_k_w (set_w_s s (k_w k)) k.

(** [current] *)
Definition current (k : kernel) : Z := get_current (k_s k).
Definition current_task (k : kernel) : task := task_at (k_s k) (current k).

(** [kmalloc] and [kfree] on the caches. *)
Definition k_malloc (k : kernel) (size : Z) : option (Z * kernel) :=
  '(p, m) ← kmalloc (k_k k) size; Some (p, set_k_k m k).
Definition k_free (k : kernel) (p : Z) : option kernel := m ← kfree (k_k k) p; Some (set_k_k m k).

(** [wake_up] on the wait queues. *)
Definition k_wake_up (k : kernel) (q : Z) : option kernel := w ← wake_up (k_w k) q; Some (set_k_w w k).
