(* ===== verification/Pipe.v ===== *)
(** * Pipes ([fs/pipe.c])

    A ring of 1024 bytes with a queue of waiting readers and one of waiting
    writers.  [pipe_read] and [pipe_write] either return or go to sleep on
    their queue ([Asleep]); after the wake-up they start over.  The
    specification is a bounded queue of bytes: [pipe_rep p l] says that the
    ring holds [l]. *)
From S2P Require Import Prelude Errno PageAlloc Slub ListHead Task Sched Signal Wait Kernel.

Definition PIPE_SIZE : Z := 1024.
Definition SIZEOF_PIPE : Z := 1080.

(** Offsets of the wait queues in [struct pipe]. *)
Definition read_wait (p : Z) : Z := p + 24.
Definition write_wait (p : Z) : Z := p + 40.

(** [pipe_wait] with its entry at [e], up to [schedule] and after it. *)
Definition pipe_wait (k : kernel) (q e : Z) : option kernel :=
  let w := declare_waitqueue (k_w k) e (current k) in
  w ← prepare_to_wait w q e;
  s ← schedule (w_s w);
  Some (set_k_w (set_w_s s w) k).

Definition pipe_wait_resume (k : kernel) (q e : Z) : option kernel :=
  w ← finish_wait (k_w k) q e; Some (set_k_w w k).

Definition ring_next (i : Z) : Z := let i := u32 (i + 1) in if i =? PIPE_SIZE then 0 else i.

Fixpoint copy_out (n : nat) (p : pipe) : list Z * pipe :=
  match n with
  | O => ([], p)
  | S n' =>
      let c := (p_buf p).[p_tail p] in
      let '(l, p) := copy_out n' (set_p_tail (ring_next (p_tail p)) p) in
      (c :: l, p)
  end.

Fixpoint copy_in (bs : list Z) (p : pipe) : pipe :=
  match bs with
  | [] => p
  | b :: bs' =>
      let p := set_p_buf (<[p_head p := b]> (p_buf p)) p in
      copy_in bs' (set_p_head (ring_next (p_head p)) p)
  end.

(** The result of a read is the bytes stored into the buffer; [null] says that
    the buffer is NULL. *)
Definition pipe_read (k : kernel) (f : Z) (null : bool) (count e : Z) : option (turn (list Z * kernel)) :=
  let ptr := f_private (file_at k f) in
  if (ptr =? 0) || null then Some (Return (- EINVAL) ([], k))
  else
    let p := pipe_at k ptr in
    if p_len p =? 0 then
      if p_writers p =? 0 then Some (Return 0 ([], k))
      else if has (f_flags (file_at k f)) O_NONBLOCK then Some (Return (- EAGAIN) ([], k))
      else if signal_pending (k_s k) (current k) then Some (Return (- ERESTARTSYS) ([], k))
      else k ← pipe_wait k (read_wait ptr) e; Some (Asleep ([], k))
    else
      let n := if p_len p <? count then p_len p else count in
      let '(bs, p) := copy_out (Z.to_nat n) p in
      let k := upd_pipe k ptr (fun _ => set_p_len (u32 (p_len p - u32 n)) p) in
      k ← k_wake_up k (write_wait ptr);
      Some (Return (s64 n) (bs, k)).

(** After [pipe_wait]: [-ERESTARTSYS], or another turn ([None]). *)
Definition pipe_read_resume (k : kernel) (f e : Z) : option (option Z * kernel) :=
  k ← pipe_wait_resume k (read_wait (f_private (file_at k f))) e;
  Some (if signal_pending (k_s k) (current k) then Some (- ERESTARTSYS) else None, k).

Definition pipe_write (k : kernel) (f : Z) (null : bool) (buf : list Z) (e : Z) : option (turn kernel) :=
  let count := Z.of_nat (length buf) in
  let ptr := f_private (file_at k f) in
  if (ptr =? 0) || null then Some (Return (- EINVAL) k)
  else
    let p := pipe_at k ptr in
    if p_readers p =? 0 then Some (Return (- EPIPE) k)
    else if p_len p =? PIPE_SIZE then
      if has (f_flags (file_at k f)) O_NONBLOCK then Some (Return (- EAGAIN) k)
      else if signal_pending (k_s k) (current k) then Some (Return (- ERESTARTSYS) k)
      else k ← pipe_wait k (write_wait ptr) e; Some (Asleep k)
    else
      let n := if PIPE_SIZE - p_len p <? count then PIPE_SIZE - p_len p else count in
      let p := copy_in (take (Z.to_nat n) buf) p in
      let k := upd_pipe k ptr (fun _ => set_p_len (u32 (p_len p + u32 n)) p) in
      k ← k_wake_up k (read_wait ptr);
      Some (Return (s64 n) k).

Definition pipe_write_resume (k : kernel) (f e : Z) : option (option Z * kernel) :=
  k ← pipe_wait_resume k (write_wait (f_private (file_at k f))) e;
  Some (if signal_pending (k_s k) (current k) then Some (- ERESTARTSYS) else None, k).

Definition pipe_release (k : kernel) (f : Z) : option kernel :=
  let ptr := f_private (file_at k f) in
  if ptr =? 0 then Some k
  else
    let k :=
      if Z.land (f_flags (file_at k f)) O_ACCMODE =? O_RDONLY
      then if 0 <? p_readers (pipe_at k ptr) then upd_pipe k ptr (fun p => set_p_readers (p_readers p - 1) p) else k
      else if 0 <? p_writers (pipe_at k ptr) then upd_pipe k ptr (fun p => set_p_writers (p_writers p - 1) p) else k in
    k ← (if p_readers (pipe_at k ptr) =? 0 then k_wake_up k (write_wait ptr) else Some k);
    k ← (if p_writers (pipe_at k ptr) =? 0 then k_wake_up k (read_wait ptr) else Some k);
    if (p_readers (pipe_at k ptr) =? 0) && (p_writers (pipe_at k ptr) =? 0)
    then k ← k_free k ptr; Some (set_k_pipes (delete ptr (k_pipes k)) k)
    else Some k.

(** ** The ring *)

(** The ring from [p_tail] to [p_head] holds [l]. *)
Record ring_holds (p : pipe) (l : list Z) : Prop := {
  rh_tail : 0 <= p_tail p < PIPE_SIZE;
  rh_fits : Z.of_nat (length l) <= PIPE_SIZE;
  rh_head : p_head p = (p_tail p + Z.of_nat (length l)) mod PIPE_SIZE;
  rh_buf : forall i b, l !! i = Some b -> (p_buf p).[(p_tail p + Z.of_nat i) mod PIPE_SIZE] = b
}.

Definition pipe_rep (p : pipe) (l : list Z) : Prop := ring_holds p l /\ p_len p = Z.of_nat (length l).

Lemma pipe_mod_bound i : 0 <= i mod PIPE_SIZE < PIPE_SIZE.
Proof. apply Z.mod_pos_bound. by vm_compute. Qed.

Lemma ring_next_mod i : 0 <= i < PIPE_SIZE -> ring_next i = (i + 1) mod PIPE_SIZE.
Proof.
  unfold ring_next, PIPE_SIZE. intros Hi. rewrite wrapu_id by lia. destruct (Z.eqb_spec (i + 1) 1024) as [E|E].
  - by rewrite E.
  - rewrite Z.mod_small; lia.
Qed.

Lemma mod_shift i j : ((i + 1) mod PIPE_SIZE + j) mod PIPE_SIZE = (i + (j + 1)) mod PIPE_SIZE.
Proof. rewrite Zplus_mod_idemp_l. f_equal. lia. Qed.

(** Positions of the ring are distinct. *)
Lemma mod_apart t i j : 0 <= i < j -> j < PIPE_SIZE -> (t + i) mod PIPE_SIZE <> (t + j) mod PIPE_SIZE.
Proof.
  intros Hi Hj E. assert (H : (j - i) mod PIPE_SIZE = 0).
  { replace (j - i) with ((t + j) - (t + i)) by lia. rewrite Zminus_mod, E, Z.sub_diag. done. }
  rewrite Z.mod_small in H by lia. lia.
Qed.

Lemma copy_out_ring n : forall p l,
  ring_holds p l -> (n <= length l)%nat ->
  exists t, copy_out n p = (take n l, set_p_tail t p) /\ ring_holds (set_p_tail t p) (drop n l).
Proof.
  induction n as [|n IH]; intros p l HR Hn.
  { exists (p_tail p). rewrite take_0, drop_0. by destruct p. }
  destruct l as [|b l]; cbn in Hn; [lia|]. cbn [copy_out take drop].
  assert (Hb : (p_buf p).[p_tail p] = b).
  { rewrite <- (rh_buf _ _ HR 0%nat b eq_refl). f_equal. rewrite Z.add_0_r. symmetry. apply Z.mod_small, HR. }
  destruct (IH (set_p_tail (ring_next (p_tail p)) p) l) as (t & E & HR'); [|lia|].
  { destruct HR as [Ht Hf Hh Hbuf]. cbn in Hf, Hh. split; cbn; rewrite ?(ring_next_mod _ Ht).
    - apply pipe_mod_bound.
    - lia.
    - rewrite mod_shift, Hh. f_equal. lia.
    - intros i c Hc. rewrite mod_shift. rewrite <- (Hbuf (S i) c Hc). do 2 f_equal. lia. }
  exists t. rewrite E, Hb. by split.
Qed.

Lemma copy_in_ring bs : forall p l,
  ring_holds p l -> Z.of_nat (length l + length bs) <= PIPE_SIZE ->
  ring_holds (copy_in bs p) (l ++ bs) /\ p_len (copy_in bs p) = p_len p /\
  p_readers (copy_in bs p) = p_readers p /\ p_writers (copy_in bs p) = p_writers p.
Proof.
  induction bs as [|b bs IH]; intros p l HR Hf; cbn [copy_in]; [by rewrite app_nil_r|].
  replace (l ++ b :: bs) with ((l ++ [b]) ++ bs) by (by rewrite <- app_assoc). cbn [length] in Hf.
  apply (IH (set_p_head (ring_next (p_head p)) (set_p_buf (<[p_head p := b]> (p_buf p)) p))).
  2:{ rewrite length_app. cbn. lia. }
  destruct HR as [Ht Hl Hh Hbuf]. split; cbn [p_tail p_head p_buf set_p_head set_p_buf].
  - done.
  - rewrite length_app. cbn. lia.
  - rewrite length_app, Hh, ring_next_mod by apply pipe_mod_bound. rewrite Zplus_mod_idemp_l. f_equal. cbn. lia.
  - intros i c Hc. destruct (decide (i = length l)) as [->|Hi].
    + rewrite list_lookup_middle in Hc by done. injection Hc as <-. rewrite Hh. apply arr_get_insert.
    + apply lookup_app_Some in Hc as [Hc|[Hge Hc]].
      * rewrite arr_get_insert_ne; [by apply Hbuf|]. apply lookup_lt_Some in Hc. rewrite Hh.
        apply not_eq_sym, mod_apart; lia.
      * apply list_lookup_singleton_Some in Hc as [Hi' _]. lia.
Qed.

(** ** The pipe as a bounded queue *)

Lemma pipe_at_upd k p g : pipe_at (upd_pipe k p g) p = g (pipe_at k p).
Proof. unfold pipe_at at 1. cbn. by rewrite lookup_insert_eq. Qed.

Lemma pipe_at_upd_ne k p g q : p <> q -> pipe_at (upd_pipe k p g) q = pipe_at k q.
Proof. intros. unfold pipe_at. cbn. by rewrite lookup_insert_ne. Qed.

(** What a transfer on the pipe [ptr] leaves alone. *)
Record pipe_frame (k k' : kernel) (ptr : Z) : Prop := {
  pf_files : k_files k' = k_files k;
  pf_mem : k_k k' = k_k k;
  pf_pipes : forall q, q <> ptr -> pipe_at k' q = pipe_at k q;
  pf_ends : p_readers (pipe_at k' ptr) = p_readers (pipe_at k ptr) /\ p_writers (pipe_at k' ptr) = p_writers (pipe_at k ptr);
  pf_stays : stays (k_s k) (k_s k')
}.

Lemma k_wake_up_spec k Q T L q :
  waits_inv (k_w k) Q T L ->
  exists w' Q', k_wake_up k q = Some (set_k_w w' k) /\ waits_inv w' Q' T L /\ stays (k_s k) (w_s w') /\
    (forall u, queued Q u -> queued Q' u) /\
    forall e, e ∈ L q -> (w_task (k_w k)).[e] <> 0 ->
      t_state (task_at (k_s k) (w_task (k_w k)).[e]) = TASK_SLEEPING -> queued Q' (w_task (k_w k)).[e].
Proof.
  intros HI. destruct (wake_up_spec (k_w k) Q T L q HI) as (w' & Q' & E & HI' & Hst & _ & Hq & _ & Hw).
  exists w', Q'. unfold k_wake_up. rewrite E. by splits.
Qed.

(** The sleepers of the queue [q] are made runnable. *)
Definition woken (k : kernel) (L Q' : Z -> list Z) (q : Z) : Prop :=
  forall e, e ∈ L q -> (w_task (k_w k)).[e] <> 0 ->
    t_state (task_at (k_s k) (w_task (k_w k)).[e]) = TASK_SLEEPING -> queued Q' (w_task (k_w k)).[e].

Section Transfer.
Context (k : kernel) (Q : Z -> list Z) (T : list Z) (L : Z -> list Z) (f e : Z) (l : list Z).
Context (HI : waits_inv (k_w k) Q T L) (Hp0 : f_private (file_at k f) <> 0).
Context (HR : pipe_rep (pipe_at k (f_private (file_at k f))) l).

Lemma pipe_read_data count :
  l <> [] -> 0 <= count ->
  exists k' Q', pipe_read k f false count e =
      Some (Return (Z.of_nat (length (take (Z.to_nat count) l))) (take (Z.to_nat count) l, k')) /\
    pipe_rep (pipe_at k' (f_private (file_at k f))) (drop (Z.to_nat count) l) /\
    pipe_frame k k' (f_private (file_at k f)) /\ waits_inv (k_w k') Q' T L /\
    woken k L Q' (write_wait (f_private (file_at k f))).
Proof.
  intros Hl Hc. set (ptr := f_private (file_at k f)) in *. destruct HR as [Hrh Hlen].
  assert (Hpos : 0 < Z.of_nat (length l)) by (destruct l; [done|cbn; lia]). assert (Hfit := rh_fits _ _ Hrh).
  unfold pipe_read. fold ptr. zdec. cbn [orb]. rewrite Hlen. zdec.
  set (n := if _ <? count then _ else count).
  assert (Hn : n = Z.min count (Z.of_nat (length l))) by (unfold n; case Z.ltb_spec; lia). clearbody n.
  destruct (copy_out_ring (Z.to_nat n) (pipe_at k ptr) l Hrh ltac:(lia)) as (t & E & Hrh'). rewrite E.
  set (p' := set_p_len _ _). set (k1 := upd_pipe k ptr (fun _ => p')).
  assert (HI1 : waits_inv (k_w k1) Q T L) by exact HI.
  destruct (k_wake_up_spec k1 Q T L (write_wait ptr) HI1) as (w' & Q' & Ew & HI' & Hst & Hq & Hw).
  rewrite Ew. cbn [mbind option_bind].
  assert (Et : take (Z.to_nat n) l = take (Z.to_nat count) l /\ drop (Z.to_nat n) l = drop (Z.to_nat count) l).
  { rewrite Hn. destruct (decide (count <= Z.of_nat (length l))) as [Hle|Hgt]; [by rewrite Z.min_l by done|].
    rewrite Z.min_r by lia. rewrite Nat2Z.id. rewrite !take_ge, !drop_ge by lia. done. }
  exists (set_k_w w' k1), Q'. splits.
  - rewrite (proj1 Et). do 2 f_equal. rewrite length_take. rewrite wraps_id; unfold PIPE_SIZE in *; lia.
  - change (pipe_at (set_k_w w' k1) ptr) with (pipe_at k1 ptr). unfold k1. rewrite pipe_at_upd, <- (proj2 Et). split.
    + destruct Hrh'. by split.
    + unfold p'. cbn. rewrite Hlen, length_drop. unfold PIPE_SIZE in *. rewrite (wrapu_id 32 n), wrapu_id; lia.
  - split; try done.
    + intros q Hq'. change (pipe_at (set_k_w w' k1) q) with (pipe_at k1 q). by apply pipe_at_upd_ne.
    + change (pipe_at (set_k_w w' k1) ptr) with (pipe_at k1 ptr). unfold k1. by rewrite pipe_at_upd.
  - exact HI'.
  - exact Hw.
Qed.

Lemma pipe_write_room buf :
  p_readers (pipe_at k (f_private (file_at k f))) <> 0 -> Z.of_nat (length l) < PIPE_SIZE ->
  Z.of_nat (length buf) < 2 ^ 63 ->
  let n := Nat.min (length buf) (Z.to_nat PIPE_SIZE - length l) in
  exists k' Q', pipe_write k f false buf e = Some (Return (Z.of_nat n) k') /\
    pipe_rep (pipe_at k' (f_private (file_at k f))) (l ++ take n buf) /\
    pipe_frame k k' (f_private (file_at k f)) /\ waits_inv (k_w k') Q' T L /\
    woken k L Q' (read_wait (f_private (file_at k f))).
Proof.
  intros Hrd Hl Hbuf. set (ptr := f_private (file_at k f)) in *. destruct HR as [Hrh Hlen]. cbv zeta.
  unfold pipe_write. fold ptr. zdec. cbn [orb]. rewrite Hlen. zdec.
  set (n := if _ <? Z.of_nat (length buf) then _ else _).
  assert (Hn : Z.to_nat n = Nat.min (length buf) (Z.to_nat PIPE_SIZE - length l) /\ 0 <= n <= PIPE_SIZE - Z.of_nat (length l)).
  { unfold n. case Z.ltb_spec; lia. }
  destruct Hn as [Hn Hnb]. rewrite <- Hn. clearbody n.
  destruct (copy_in_ring (take (Z.to_nat n) buf) (pipe_at k ptr) l Hrh) as (Hrh' & El & Er & Ewr).
  { rewrite length_take. unfold PIPE_SIZE in *. lia. }
  set (p' := set_p_len _ _). set (k1 := upd_pipe k ptr (fun _ => p')).
  assert (HI1 : waits_inv (k_w k1) Q T L) by exact HI.
  destruct (k_wake_up_spec k1 Q T L (read_wait ptr) HI1) as (w' & Q' & Ew & HI' & Hst & Hq & Hw).
  rewrite Ew. cbn [mbind option_bind]. exists (set_k_w w' k1), Q'. splits.
  - do 2 f_equal. rewrite wraps_id; unfold PIPE_SIZE in *; lia.
  - change (pipe_at (set_k_w w' k1) ptr) with (pipe_at k1 ptr). unfold k1. rewrite pipe_at_upd. split.
    + destruct Hrh'. by split.
    + unfold p'. cbn. rewrite El, Hlen, length_app, length_take. unfold PIPE_SIZE in *.
      rewrite (wrapu_id 32 n), wrapu_id; lia.
  - split; try done.
    + intros q Hq'. change (pipe_at (set_k_w w' k1) q) with (pipe_at k1 q). by apply pipe_at_upd_ne.
    + change (pipe_at (set_k_w w' k1) ptr) with (pipe_at k1 ptr). unfold k1. rewrite pipe_at_upd. by split.
  - exact HI'.
  - exact Hw.
Qed.
End Transfer.

(** ** Sleeping on a pipe *)

Lemma declare_inv w Q T L e t :
  waits_inv w Q T L -> (forall q, e ∉ L q) -> waits_inv (declare_waitqueue w e t) Q T L.
Proof.
  intros HI Hn. split; [apply HI|..|apply HI|].
  - intros q. eapply (slist_frame (T := waits)); [..|apply (wi_queue _ _ _ _ HI q)]; cbn; [|done].
    intros x Hx. apply arr_get_insert_ne. intros <-. by apply (Hn q).
  - intros q x Hx. assert (x <> e) by (intros ->; by apply (Hn q)). cbn.
    rewrite lookup_insert_ne, arr_get_insert_ne by done. by apply (wi_entry _ _ _ _ HI q).
Qed.

(** The task [t] sleeps with its entry [e] on the queue [q]. *)
Record asleep_on (w : waits) (Q T L : _) (q e t : Z) : Prop := {
  as_inv : waits_inv w Q T L;
  as_entry : e ∈ L q /\ w_task w !! e = Some t;
  as_state : t_state (task_at (w_s w) t) = TASK_SLEEPING;
  as_off : ~ queued Q t
}.

Lemma pipe_wait_spec k Q T L q e :
  waits_inv (k_w k) Q T L -> e <> 0 -> (forall q, e ∉ L q) -> (forall d, is_cpu d -> current k <> idle_tasks d) ->
  exists w' Q', pipe_wait k q e = Some (set_k_w w' k) /\ asleep_on w' Q' T (<[q := e :: L q]> L) q e (current k).
Proof.
  intros HI He Hn Hid. unfold pipe_wait. set (w0 := declare_waitqueue (k_w k) e (current k)).
  assert (HI0 : waits_inv w0 Q T L) by (by apply declare_inv).
  assert (He0 : entry_of w0 e (current k)) by (split; [done|apply lookup_insert_eq|done|done]).
  destruct (prepare_spec w0 Q T L q e (current k) HI0 He0 Hn) as (w1 & E1 & HI1 & He1 & Hs1 & _).
  rewrite E1. cbn [mbind option_bind].
  destruct (schedule_inv _ _ _ (wi_sched _ _ _ _ HI1)) as (s2 & Q2 & E2 & HI2 & Hq2). rewrite E2. cbn [mbind option_bind].
  assert (Hk := schedule_keeps _ _ E2). exists (set_w_s s2 w1), Q2. split; [done|]. split.
  - eapply waits_inv_sched; [exact HI1|done|by intros u; apply Hk|done].
  - rewrite fn_lookup_insert. split; [apply list_elem_of_here|apply He1].
  - cbn. by rewrite (proj2 (Hk _)).
  - intros (c & Hc & Hin). destruct (proj2 (Hq2 (current k))) as (d & Hd & Hin'); [by exists c|].
    unfold off in Hin'. rewrite without_elem in Hin'. by destruct Hin'.
Qed.

(** ** The specification *)

(** What a read of [count] bytes does to a pipe that holds [l]: its result, the
    bytes, and what is left; [None] when it must wait. *)
Definition spec_read (l : list Z) (writers : Z) (nonblock pending : bool) (count : Z) : option (Z * list Z * list Z) :=
  match l with
  | [] =>
      if writers =? 0 then Some (0, [], [])
      else if nonblock then Some (- EAGAIN, [], [])
      else if pending then Some (- ERESTARTSYS, [], [])
      else None
  | _ => let n := Z.to_nat count in Some (Z.of_nat (length (take n l)), take n l, drop n l)
  end.

Definition spec_write (l : list Z) (readers : Z) (nonblock pending : bool) (bs : list Z) : option (Z * list Z) :=
  if readers =? 0 then Some (- EPIPE, l)
  else if Z.of_nat (length l) =? PIPE_SIZE then
    if nonblock then Some (- EAGAIN, l) else if pending then Some (- ERESTARTSYS, l) else None
  else
    let n := Nat.min (length bs) (Z.to_nat PIPE_SIZE - length l) in Some (Z.of_nat n, l ++ take n bs).

(** The call may block: an entry that is in no queue, of a task that is not
    an idle task. *)
Definition may_block (k : kernel) (L : Z -> list Z) (e : Z) : Prop :=
  e <> 0 /\ (forall q, e ∉ L q) /\ forall d, is_cpu d -> current k <> idle_tasks d.

Definition nonblocking (k : kernel) (f : Z) : bool := has (f_flags (file_at k f)) O_NONBLOCK.
Definition interrupted (k : kernel) : bool := signal_pending (k_s k) (current k).

(** C29: [pipe_read] implements a read from a bounded queue of bytes on every
    branch: it returns what the specification returns, removes exactly the
    bytes it returns, touches no other pipe or file, and wakes the writers
    when it made room; when the specification waits, the caller sleeps on the
    readers' queue of the pipe and the pipe is unchanged.  A NULL buffer is
    refused with -EINVAL. *)
Theorem pipe_read_refines k Q T L f (null : bool) count e l :
  let ptr := f_private (file_at k f) in
  waits_inv (k_w k) Q T L -> may_block k L e -> ptr <> 0 -> pipe_rep (pipe_at k ptr) l -> 0 <= count ->
  if null then pipe_read k f null count e = Some (Return (- EINVAL) ([], k)) else
  match spec_read l (p_writers (pipe_at k ptr)) (nonblocking k f) (interrupted k) count with
  | Some (r, bs, l') =>
      exists k' Q', pipe_read k f null count e = Some (Return r (bs, k')) /\ pipe_rep (pipe_at k' ptr) l' /\
        pipe_frame k k' ptr /\ waits_inv (k_w k') Q' T L /\ (l <> [] -> woken k L Q' (write_wait ptr))
  | None =>
      exists w' Q', pipe_read k f null count e = Some (Asleep ([], set_k_w w' k)) /\
        asleep_on w' Q' T (<[read_wait ptr := e :: L (read_wait ptr)]> L) (read_wait ptr) e (current k)
  end.
Proof.
  intros ptr HI (He & Hn & Hid) Hp HR Hc. destruct null; [unfold pipe_read; by rewrite orb_true_r|]. destruct (decide (l = [])) as [->|Hl].
  - assert (El : p_len (pipe_at k ptr) = 0) by apply HR. unfold pipe_read, spec_read. fold ptr. zdec. cbn [orb]. fold (nonblocking k f) (interrupted k).
    destruct (p_writers (pipe_at k ptr) =? 0); [exists k, Q; by splits|].
    destruct (nonblocking k f); [exists k, Q; by splits|]. destruct (interrupted k); [exists k, Q; by splits|].
    destruct (pipe_wait_spec k Q T L (read_wait ptr) e HI He Hn Hid) as (w' & Q' & E & Has).
    rewrite E. cbn [mbind option_bind]. by exists w', Q'.
  - destruct (pipe_read_data k Q T L f e l HI Hp HR count Hl Hc) as (k' & Q' & E & HR' & Hf & HI' & Hw).
    destruct l as [|b l]; [done|]. cbn [spec_read]. exists k', Q'. by splits.
Qed.

(** C30: [pipe_write] implements a write to the bounded queue likewise: it
    appends the longest prefix that fits and wakes the readers, fails with
    -EPIPE without readers, and on a full pipe answers -EAGAIN to a
    non-blocking writer and -ERESTARTSYS to an interrupted one, or sleeps on
    the writers' queue; a NULL buffer is refused with -EINVAL. *)
Theorem pipe_write_refines k Q T L f (null : bool) bs e l :
  let ptr := f_private (file_at k f) in
  waits_inv (k_w k) Q T L -> may_block k L e -> ptr <> 0 -> pipe_rep (pipe_at k ptr) l ->
  Z.of_nat (length bs) < 2 ^ 63 ->
  if null then pipe_write k f null bs e = Some (Return (- EINVAL) k) else
  match spec_write l (p_readers (pipe_at k ptr)) (nonblocking k f) (interrupted k) bs with
  | Some (r, l') =>
      exists k' Q', pipe_write k f null bs e = Some (Return r k') /\ pipe_rep (pipe_at k' ptr) l' /\
        pipe_frame k k' ptr /\ waits_inv (k_w k') Q' T L /\ (0 <= r -> woken k L Q' (read_wait ptr))
  | None =>
      exists w' Q', pipe_write k f null bs e = Some (Asleep (set_k_w w' k)) /\
        asleep_on w' Q' T (<[write_wait ptr := e :: L (write_wait ptr)]> L) (write_wait ptr) e (current k)
  end.
Proof.
  intros ptr HI (He & Hn & Hid) Hp HR Hb. destruct null; [unfold pipe_write; by rewrite orb_true_r|]. unfold spec_write.
  destruct (Z.eqb_spec (p_readers (pipe_at k ptr)) 0) as [Er|Er].
  { exists k, Q. unfold pipe_write. fold ptr. zdec. cbn [orb]. by splits. }
  destruct (Z.eqb_spec (Z.of_nat (length l)) PIPE_SIZE) as [El|El].
  - assert (El' : p_len (pipe_at k ptr) = PIPE_SIZE) by (rewrite <- El; apply HR).
    unfold pipe_write. fold ptr. zdec. cbn [orb]. fold (nonblocking k f) (interrupted k).
    destruct (nonblocking k f); [exists k, Q; by splits|]. destruct (interrupted k); [exists k, Q; by splits|].
    destruct (pipe_wait_spec k Q T L (write_wait ptr) e HI He Hn Hid) as (w' & Q' & E & Has).
    rewrite E. cbn [mbind option_bind]. by exists w', Q'.
  - assert (Hfit := rh_fits _ _ (proj1 HR)).
    destruct (pipe_write_room k Q T L f e l HI Hp HR bs Er ltac:(lia) Hb) as (k' & Q' & E & HR' & Hf & HI' & Hw).
    exists k', Q'. by splits.
Qed.

(** ** Streams *)

(** A read or write of the pipe [ptr] that returned: the bytes it accepted and
    the bytes it delivered. *)
Inductive pipe_io (ptr : Z) (k : kernel) : list Z -> list Z -> kernel -> Prop :=
  | io_read f null count e r bs k' :
      f_private (file_at k f) = ptr -> 0 <= count -> pipe_read k f null count e = Some (Return r (bs, k')) ->
      pipe_io ptr k [] bs k'
  | io_write f null buf e r k' :
      f_private (file_at k f) = ptr -> Z.of_nat (length buf) < 2 ^ 63 -> pipe_write k f null buf e = Some (Return r k') ->
      pipe_io ptr k (take (Z.to_nat r) buf) [] k'.

Inductive pipe_ios (ptr : Z) : kernel -> list Z -> list Z -> kernel -> Prop :=
  | ios_nil k : pipe_ios ptr k [] [] k
  | ios_cons k k1 k2 w1 r1 w2 r2 :
      pipe_io ptr k w1 r1 k1 -> pipe_ios ptr k1 w2 r2 k2 -> pipe_ios ptr k (w1 ++ w2) (r1 ++ r2) k2.

Lemma pipe_io_fifo ptr k Q T L l w r k' :
  waits_inv (k_w k) Q T L -> ptr <> 0 -> pipe_rep (pipe_at k ptr) l -> pipe_io ptr k w r k' ->
  exists Q' l', waits_inv (k_w k') Q' T L /\ pipe_rep (pipe_at k' ptr) l' /\ l ++ w = r ++ l'.
Proof.
  intros HI Hp HR Hio. destruct Hio as [f null count e r bs k' Ep Hc E|f null buf e r k' Ep Hb E]; subst ptr.
  - rewrite app_nil_r. destruct null.
    { unfold pipe_read in E. rewrite orb_true_r in E. injection E as _ <- <-. by exists Q, l. }
    destruct (decide (l = [])) as [->|Hl].
    + assert (El : p_len (pipe_at k (f_private (file_at k f))) = 0) by apply HR.
      assert (H : k' = k /\ bs = []).
      { unfold pipe_read in E. revert E. zdec. cbn [orb]. repeat (case_match; [by intros [= _ <- <-]|]).
        destruct (pipe_wait k _ _); by intros [=]. }
      destruct H as [-> ->]. by exists Q, [].
    + destruct (pipe_read_data k Q T L f e l HI Hp HR count Hl Hc) as (k1 & Q' & E1 & HR' & _ & HI' & _).
      rewrite E in E1. injection E1 as _ -> ->. exists Q', (drop (Z.to_nat count) l). splits; [done..|].
      by rewrite take_drop.
  - destruct null.
    { unfold pipe_write in E. rewrite orb_true_r in E. injection E as <- <-. exists Q, l. by rewrite app_nil_r. }
    destruct (decide (p_readers (pipe_at k (f_private (file_at k f))) = 0 \/ Z.of_nat (length l) = PIPE_SIZE)) as [Hno|Hyes].
    + assert (El : p_len (pipe_at k (f_private (file_at k f))) = Z.of_nat (length l)) by apply HR.
      assert (H : k' = k /\ r <= 0).
      { unfold pipe_write in E. revert E. zdec. cbn [orb].
        destruct Hno as [Hno|Hno]; zdec; [by intros [= <- <-]|].
        repeat (case_match; [by intros [= <- <-]|]). destruct (pipe_wait k _ _); by intros [=]. }
      destruct H as [-> Hr]. exists Q, l. replace (Z.to_nat r) with 0%nat by lia. by rewrite app_nil_r.
    + assert (Hfit := rh_fits _ _ (proj1 HR)).
      destruct (pipe_write_room k Q T L f e l HI Hp HR buf) as (k1 & Q' & E1 & HR' & _ & HI' & _); [tauto|lia|done|].
      rewrite E in E1. injection E1 as -> ->. rewrite Nat2Z.id. by eexists Q', _.
Qed.

(** a pipe is a byte stream: over any sequence of reads and writes by any
    tasks, the bytes read followed by the bytes still in the pipe are the bytes
    it held followed by the bytes written, in order; nothing is lost,
    duplicated or reordered. *)
Theorem pipe_stream_fifo ptr k Q T L l w r k' :
  waits_inv (k_w k) Q T L -> ptr <> 0 -> pipe_rep (pipe_at k ptr) l -> pipe_ios ptr k w r k' ->
  exists l', pipe_rep (pipe_at k' ptr) l' /\ l ++ w = r ++ l' /\ Z.of_nat (length l') <= PIPE_SIZE.
Proof.
  intros HI Hp HR Hios. revert Q l HI HR. induction Hios as [k|k k1 k2 w1 r1 w2 r2 Hio _ IH]; intros Q l HI HR.
  - exists l. rewrite app_nil_r. splits; [done|done|]. apply (rh_fits _ _ (proj1 HR)).
  - destruct (pipe_io_fifo ptr k Q T L l w1 r1 k1 HI Hp HR Hio) as (Q1 & l1 & HI1 & HR1 & E1).
    destruct (IH Q1 l1 HI1 HR1) as (l' & HR' & E' & Hl'). exists l'. splits; [done| |done].
    rewrite app_assoc, E1, <- app_assoc, E', app_assoc. done.
Qed.

(** ** Examples *)

Definition pipe_kernel : kernel :=
  mkKernel (mkWaits running ∅ ∅ ∅) k16 ∅ ∅
    {[ 600 := mkFile 1 0 pipe_read_ops 4000 0 0 0; 700 := mkFile 1 0 pipe_write_ops 4000 0 1 0 ]}
    {[ 4000 := mkPipe 0 0 0 1 1 ∅ ]} ∅ ∅ ∅ 1 (mkTty ∅ 0 0 0 0 false false false (mkTermios 0 0 0 0 [])) [].

Lemma pipe_kernel_inv : exists Q T, waits_inv (k_w pipe_kernel) Q T (fun _ => []).
Proof.
  destruct running_inv as (Q & T & HI & _). exists Q, T. split.
  - exact HI.
  - intros q. reflexivity.
  - intros q q' x Hx. destruct (not_elem_of_nil _ Hx).
  - intros q x Hx. destruct (not_elem_of_nil _ Hx).
Qed.

Lemma pipe_kernel_block : may_block pipe_kernel (fun _ => []) 8192.
Proof.
  split; [lia|]. split; [intros q Hq; destruct (not_elem_of_nil _ Hq)|].
  assert (E : current pipe_kernel = 100) by (vm_compute; reflexivity). rewrite E.
  intros d Hd. unfold is_cpu, NR_CPUS, idle_tasks in *. lia.
Qed.

Lemma pipe_kernel_rep : pipe_rep (pipe_at pipe_kernel 4000) [].
Proof.
  split; [|vm_compute; reflexivity]. split.
  - vm_compute. split; [discriminate|reflexivity].
  - vm_compute. discriminate.
  - vm_compute. reflexivity.
  - intros i b Hb. discriminate Hb.
Qed.

Lemma pipe_ends : f_private (file_at pipe_kernel 600) = 4000 /\ f_private (file_at pipe_kernel 700) = 4000.
Proof. split; vm_compute; reflexivity. Qed.

Lemma pipe_kernel_file f :
  f_private (file_at pipe_kernel f) = 4000 ->
  pipe_rep (pipe_at pipe_kernel (f_private (file_at pipe_kernel f))) [] /\ f_private (file_at pipe_kernel f) <> 0.
Proof. intros ->. split; [exact pipe_kernel_rep|discriminate]. Qed.

Lemma pipe_read_refines_witness :
  exists w', pipe_read pipe_kernel 600 false 10 8192 = Some (Asleep ([], set_k_w w' pipe_kernel)).
Proof.
  destruct pipe_kernel_inv as (Q & T & HI). destruct (pipe_kernel_file 600 (proj1 pipe_ends)) as [HR Hp].
  pose proof (pipe_read_refines pipe_kernel Q T _ 600 false 10 8192 [] HI pipe_kernel_block Hp HR ltac:(lia)) as H.
  assert (Es : spec_read [] (p_writers (pipe_at pipe_kernel (f_private (file_at pipe_kernel 600))))
    (nonblocking pipe_kernel 600) (interrupted pipe_kernel) 10 = None) by (vm_compute; reflexivity).
  cbv zeta in H. rewrite Es in H. destruct H as (w' & Q' & E & _). exists w'. exact E.
Defined.

Lemma pipe_write_refines_witness :
  exists k', pipe_write pipe_kernel 700 false [1; 2] 8192 = Some (Return 2 k') /\ pipe_rep (pipe_at k' 4000) [1; 2].
Proof.
  destruct pipe_kernel_inv as (Q & T & HI). destruct (pipe_kernel_file 700 (proj2 pipe_ends)) as [HR Hp].
  pose proof (pipe_write_refines pipe_kernel Q T _ 700 false [1; 2] 8192 [] HI pipe_kernel_block Hp HR ltac:(cbn; lia)) as H.
  assert (Es : spec_write [] (p_readers (pipe_at pipe_kernel (f_private (file_at pipe_kernel 700))))
    (nonblocking pipe_kernel 700) (interrupted pipe_kernel) [1; 2] = Some (2, [1; 2])) by (vm_compute; reflexivity).
  cbv zeta in H. rewrite Es in H. destruct H as (k' & Q' & E & HR' & _). exists k'. split; [exact E|].
  rewrite (proj2 pipe_ends) in HR'. exact HR'.
Defined.

Lemma pipe_stream_fifo_witness :
  exists k' l', pipe_ios 4000 pipe_kernel [1; 2] [] k' /\ pipe_rep (pipe_at k' 4000) l' /\ [1; 2] = l'.
Proof.
  destruct pipe_kernel_inv as (Q & T & HI). destruct (pipe_kernel_file 700 (proj2 pipe_ends)) as [HR0 Hp].
  destruct (pipe_write_room pipe_kernel Q T _ 700 8192 [] HI Hp HR0 [1; 2]
    ltac:(vm_compute; discriminate) ltac:(vm_compute; reflexivity) ltac:(cbn; lia)) as (k' & Q' & E & _).
  assert (Hios : pipe_ios 4000 pipe_kernel [1; 2] [] k').
  { exact (ios_cons 4000 pipe_kernel k' k' [1; 2] [] [] []
      (io_write 4000 pipe_kernel 700 false [1; 2] 8192 2 k' (proj2 pipe_ends) ltac:(cbn; lia) E) (ios_nil 4000 k')). }
  destruct (pipe_stream_fifo 4000 pipe_kernel Q T _ [] [1; 2] [] k' HI ltac:(discriminate) pipe_kernel_rep Hios)
    as (l' & HR & El & _).
  exists k', l'. split; [exact Hios|]. split; [exact HR|exact El].
Defined.
