(* ===== verification/Path.v ===== *)
(** * Path names ([fs/namei.c], [fs/ramfs.c])

    The functions on path strings.  A string in a [char] array is the list of
    its characters; an array of [PATH_MAX] bytes holds at most 255 of them and
    the terminator, which the code checks or truncates to as written here.
    The specification splits a path into components and resolves [.] and [..]
    on the list of components. *)
From S2P Require Import Prelude Errno PageAlloc Slub ListHead Task Sched Signal Wait Kernel.

Definition slash : Z := 47.
Definition dot : Z := 46.
Definition DNAME_INLINE_LEN : Z := 256.
Definition RAMFS_NAME_MAX : Z := 255.

Definition slen (s : list Z) : Z := Z.of_nat (length s).

(** [str_copy(dst, src, max)] for [max > 0]: what [dst] holds. *)
Definition str_copy (src : list Z) (max : Z) : list Z := take (Z.to_nat (max - 1)) src.

(** [while ( *p == '/') p++] *)
Fixpoint skip_slash (p : list Z) : list Z :=
  match p with
  | c :: p' => if c =? slash then skip_slash p' else p
  | [] => []
  end.

(** The characters up to the next slash, and the rest. *)
Fixpoint span_name (p : list Z) : list Z * list Z :=
  match p with
  | c :: p' => if c =? slash then ([], p) else let '(n, r) := span_name p' in (c :: n, r)
  | [] => ([], [])
  end.

Definition is_dot (name : list Z) : bool := bool_decide (name = [dot]).
Definition is_dotdot (name : list Z) : bool := bool_decide (name = [dot; dot]).
Definition is_dotname (name : list Z) : bool := is_dot name || is_dotdot name.

(** Popping a component off the stack: back to the last slash, and over it. *)
Fixpoint pop_name (rstack : list Z) : list Z :=
  match rstack with
  | c :: r => if c =? slash then r else pop_name r
  | [] => []
  end.

Definition pop_component (stack : list Z) : list Z := reverse (pop_name (reverse stack)).

Definition push_component (stack comp : list Z) : list Z :=
  let stack := if bool_decide (stack = []) || negb (bool_decide (last stack = Some slash)) then stack ++ [slash] else stack in
  stack ++ comp.

Fixpoint path_resolve_loop (fuel : nat) (stack p : list Z) : option (Z * list Z) :=
  match fuel with
  | O => None
  | S fuel' =>
      if bool_decide (p = []) then Some (0, stack)
      else
        let p := skip_slash p in
        if bool_decide (p = []) then Some (0, stack)
        else
          let '(comp, p) := span_name p in
          if PATH_MAX <=? slen comp then Some (- ENAMETOOLONG, stack)
          else if is_dot comp then path_resolve_loop fuel' stack p
          else if is_dotdot comp then path_resolve_loop fuel' (pop_component stack) p
          else if PATH_MAX <=? slen stack + 1 + slen comp then Some (- ENAMETOOLONG, stack)
          else path_resolve_loop fuel' (push_component stack comp) p
  end.

(** [path_resolve(base, path, out)]: the error and [out]. *)
Definition path_resolve (base path : list Z) : option (Z * list Z) :=
  match path with
  | [] => Some (- ENOENT, [])
  | c :: _ =>
      if negb (c =? slash) && negb (bool_decide (head base = Some slash)) then Some (- EINVAL, [])
      else
        let stack := if c =? slash then [] else str_copy base PATH_MAX in
        '(err, stack) ← path_resolve_loop (S (length path)) stack path;
        if negb (err =? 0) then Some (err, [])
        else Some (0, if bool_decide (stack = []) then [slash] else str_copy stack PATH_MAX)
  end.

(** Trailing slashes beyond the first character are dropped. *)
Fixpoint trim_slash (rpath : list Z) : list Z :=
  match rpath with
  | c :: ((_ :: _) as r) => if c =? slash then trim_slash r else rpath
  | _ => rpath
  end.

(** The index of the last slash. *)
Fixpoint last_slash (i : nat) (path : list Z) (found : option nat) : option nat :=
  match path with
  | [] => found
  | c :: path' => last_slash (S i) path' (if c =? slash then Some i else found)
  end.

(** [path_parent_name(path, parent, name)]: the error, [parent] and [name]. *)
Definition path_parent_name (path : list Z) : Z * list Z * list Z :=
  if negb (bool_decide (head path = Some slash)) then (- EINVAL, [], [])
  else
    let path := reverse (trim_slash (reverse path)) in
    if slen path <=? 1 then (- ENOENT, [], [])
    else match last_slash 0 path None with
      | None => (- EINVAL, [], [])
      | Some i =>
          if (negb (bool_decide (i = 0%nat))) && (PATH_MAX <=? Z.of_nat i) then (- ENAMETOOLONG, [], [])
          else
            let parent := if bool_decide (i = 0%nat) then [slash] else take i path in
            let name := take (Z.to_nat (DNAME_INLINE_LEN - 1)) (drop (S i) path) in
            if bool_decide (name = []) then (- ENOENT, parent, []) else (0, parent, name)
      end.

(** ** Components *)

(** The components of a path: the maximal runs without a slash. *)
Fixpoint components (p : list Z) : list (list Z) :=
  match p with
  | [] => []
  | c :: p' =>
      if c =? slash then components p'
      else match p' with
        | d :: _ => if d =? slash then [c] :: components p'
                    else match components p' with n :: ns => (c :: n) :: ns | [] => [[c]] end
        | [] => [[c]]
        end
  end.

(** One component on a list of components. *)
Definition resolve1 (cs : list (list Z)) (c : list Z) : list (list Z) :=
  if is_dot c then cs else if is_dotdot c then removelast cs else cs ++ [c].

Definition resolve (cs : list (list Z)) (p : list Z) : list (list Z) := foldl resolve1 cs (components p).

Definition render (cs : list (list Z)) : list Z := concat (cons slash <$> cs).

(** The absolute path of a list of components. *)
Definition path_of (cs : list (list Z)) : list Z := if bool_decide (cs = []) then [slash] else render cs.

Definition name_ok (c : list Z) : Prop := c <> [] /\ slash ∉ c.
Definition canonical (cs : list (list Z)) : Prop := Forall (fun c => name_ok c /\ is_dotname c = false) cs.

Lemma components_skip p : components (skip_slash p) = components p.
Proof. induction p as [|c p IH]; [done|]. cbn [skip_slash components]. destruct (c =? slash) eqn:E; [done|]. cbn. by rewrite E. Qed.

Lemma skip_slash_head p c p' : skip_slash p = c :: p' -> (c =? slash) = false.
Proof. induction p as [|d p IH]; [done|]. cbn. destruct (d =? slash) eqn:E; [done|]. by intros [= <- _]. Qed.

Lemma skip_slash_length p : (length (skip_slash p) <= length p)%nat.
Proof. induction p as [|c p IH]; [done|]. cbn. case_match; cbn; lia. Qed.

Lemma skip_slash_nil p : skip_slash p = [] -> components p = [].
Proof. intros E. by rewrite <- components_skip, E. Qed.

Lemma components_span p c : (c =? slash) = false ->
  let '(n, r) := span_name (c :: p) in
  components (c :: p) = n :: components r /\ name_ok n /\ (length r < length (c :: p))%nat /\ c :: p = n ++ r.
Proof.
  revert c. induction p as [|d p IH]; intros c Hc; cbn [span_name]; rewrite Hc.
  { cbn. rewrite Hc. splits; [done| |lia|done]. split; [done|]. rewrite list_elem_of_singleton. by apply Z.eqb_neq in Hc. }
  apply Z.eqb_neq in Hc as Hc'. destruct (d =? slash) eqn:Ed.
  - cbn [components]. rewrite Hc, Ed. splits; [done| |cbn; lia|done].
    split; [done|]. rewrite list_elem_of_singleton. done.
  - specialize (IH d Ed). cbn [span_name] in IH. rewrite Ed in IH. destruct (span_name p) as [n r].
    destruct IH as (E & [Hn1 Hn2] & Hl & Ea).
    splits; [|split; [done|rewrite not_elem_of_cons; done]|cbn in *; lia|by rewrite Ea].
    cbn [components] in *. rewrite Hc, Ed. rewrite Ed in E. by rewrite E.
Qed.

Lemma render_app cs1 cs2 : render (cs1 ++ cs2) = render cs1 ++ render cs2.
Proof. unfold render. by rewrite fmap_app, concat_app. Qed.

Lemma render_single c : render [c] = slash :: c.
Proof. unfold render. cbn. by rewrite app_nil_r. Qed.

Lemma pop_name_skip n r : slash ∉ n -> pop_name (n ++ slash :: r) = r.
Proof.
  induction n as [|c n IH]; cbn [app pop_name]; intros Hn.
  - by rewrite Z.eqb_refl.
  - apply not_elem_of_cons in Hn as [Hc Hn]. rewrite (proj2 (Z.eqb_neq _ _)) by congruence. by apply IH.
Qed.

(** ** The stack of [path_resolve] *)

(** The stack for a list of components; the empty list is [""], or ["/"] when
    the stack was copied from the base directory ["/"]. *)
Definition stack_of (root : bool) (cs : list (list Z)) : list Z :=
  if root && bool_decide (cs = []) then [slash] else render cs.

Lemma pop_render cs : Forall name_ok cs -> pop_component (render cs) = render (removelast cs).
Proof.
  destruct cs as [|c cs _] using rev_ind; [done|]. intros Hok. apply Forall_app in Hok as [_ Hok].
  rewrite Forall_singleton in Hok. rewrite removelast_last, render_app, render_single. unfold pop_component.
  rewrite reverse_app, reverse_cons, <- app_assoc. cbn [app]. rewrite pop_name_skip; [apply reverse_involutive|].
  rewrite elem_of_reverse. apply Hok.
Qed.

Lemma pop_stack b cs : Forall name_ok cs -> pop_component (stack_of b cs) = stack_of false (removelast cs).
Proof.
  intros Hok. unfold stack_of. destruct (b && bool_decide (cs = [])) eqn:E; [|by apply pop_render].
  apply andb_true_iff in E as [_ E%bool_decide_eq_true]. by subst cs.
Qed.

Lemma stack_length b cs : slen (render cs) <= slen (stack_of b cs).
Proof. unfold stack_of. destruct b, cs; done. Qed.

Lemma pop_length cs : slen (render (removelast cs)) <= slen (render cs).
Proof.
  destruct cs as [|c cs _] using rev_ind; [done|]. rewrite removelast_last, render_app. unfold slen. rewrite length_app. lia.
Qed.

Lemma stack_snoc b cs c : stack_of b (cs ++ [c]) = render cs ++ slash :: c.
Proof.
  unfold stack_of. rewrite bool_decide_false by (by destruct cs). by rewrite andb_false_r, render_app, render_single.
Qed.

Lemma last_render cs c : name_ok c -> last (render (cs ++ [c])) <> Some slash.
Proof.
  intros [Hne Hns]. rewrite render_app, render_single. destruct c as [|x c _] using rev_ind; [done|].
  rewrite app_comm_cons, app_assoc, last_snoc. intros [= ->]. apply Hns. apply elem_of_app. right. apply list_elem_of_here.
Qed.

Lemma push_stack b cs c : Forall name_ok cs -> push_component (stack_of b cs) c = stack_of b (cs ++ [c]).
Proof.
  intros Hok. rewrite stack_snoc. unfold push_component, stack_of. destruct cs as [|d cs _] using rev_ind.
  - destruct b; cbn; [|done]. by rewrite bool_decide_true.
  - rewrite (bool_decide_false (cs ++ [d] = [])) by (by destruct cs). rewrite andb_false_r.
    apply Forall_app in Hok as [_ Hd]. rewrite Forall_singleton in Hd. rewrite (bool_decide_false (last _ = _)) by (by apply last_render).
    cbn [negb]. rewrite orb_true_r. by rewrite <- app_assoc.
Qed.

Lemma removelast_ok (P : list Z -> Prop) cs : Forall P cs -> Forall P (removelast cs).
Proof.
  destruct cs as [|c cs _] using rev_ind; [done|]. rewrite removelast_last. by intros [? _]%Forall_app.
Qed.

(** A component that does not fit, on the way from [cs] through [p]. *)
Definition overlong (b : bool) (cs : list (list Z)) (p : list Z) : Prop :=
  exists pre c suf b', components p = pre ++ c :: suf /\ (b' = true -> b = true) /\
    (PATH_MAX <= slen c \/ (is_dotname c = false /\ PATH_MAX <= slen (stack_of b' (foldl resolve1 cs pre)) + 1 + slen c)).

Lemma path_resolve_loop_spec fuel : forall b cs p,
  (length p < fuel)%nat -> Forall name_ok cs -> slen (stack_of b cs) < PATH_MAX ->
  (exists b', (b' = true -> b = true) /\ path_resolve_loop fuel (stack_of b cs) p = Some (0, stack_of b' (resolve cs p)) /\
     slen (stack_of b' (resolve cs p)) < PATH_MAX) \/
  (exists stk, path_resolve_loop fuel (stack_of b cs) p = Some (- ENAMETOOLONG, stk) /\ overlong b cs p).
Proof.
  induction fuel as [|fuel IH]; intros b cs p Hf Hok Hs; [lia|]. cbn [path_resolve_loop].
  destruct (decide (skip_slash p = [])) as [Es|Es].
  { left. exists b. unfold resolve. rewrite (skip_slash_nil p Es), Es. rewrite (bool_decide_true ([] = [])) by done.
    split; [done|]. split; [by case_bool_decide|done]. }
  rewrite (bool_decide_false (p = [])) by (by intros ->). rewrite bool_decide_false by done.
  destruct (skip_slash p) as [|c q] eqn:Eq; [done|]. assert (Hc := skip_slash_head p c q Eq).
  assert (Hlen := skip_slash_length p). rewrite Eq in Hlen.
  assert (Hsp := components_span q c Hc). destruct (span_name (c :: q)) as [n r].
  destruct Hsp as (Ecomp & Hn & Hr & _). rewrite <- Eq, components_skip in Ecomp.
  assert (Hover : forall b' cs', (b' = true -> b = true) -> cs' = resolve1 cs n -> overlong b' cs' r -> overlong b cs p).
  { intros b' cs' Hb -> (pre & x & suf & b2 & E & Hb2 & H). exists (n :: pre), x, suf, b2. rewrite Ecomp, E.
    splits; [done|auto|exact H]. }
  assert (Hres : forall cs', cs' = resolve1 cs n -> resolve cs p = resolve cs' r).
  { intros cs' ->. unfold resolve. by rewrite Ecomp. }
  assert (Hstep : forall b' cs', (b' = true -> b = true) -> cs' = resolve1 cs n -> Forall name_ok cs' ->
    slen (stack_of b' cs') < PATH_MAX ->
    (exists b2, (b2 = true -> b = true) /\ path_resolve_loop fuel (stack_of b' cs') r = Some (0, stack_of b2 (resolve cs p)) /\
       slen (stack_of b2 (resolve cs p)) < PATH_MAX) \/
    (exists stk, path_resolve_loop fuel (stack_of b' cs') r = Some (- ENAMETOOLONG, stk) /\ overlong b cs p)).
  { intros b' cs' Hb Ecs Hok' Hs'. destruct (IH b' cs' r) as [(b2 & Hb2 & E & Hl)|(stk & E & Ho)]; [cbn in *; lia|done|done|..].
    - left. exists b2. rewrite (Hres cs' Ecs). auto.
    - right. exists stk. split; [done|]. by apply (Hover b' cs'). }
  destruct (Z.leb_spec PATH_MAX (slen n)) as [Hbig|Hbig].
  { right. eexists. split; [done|]. exists [], n, (components r), b. splits; [done|done|by left]. }
  unfold resolve1 in Hstep. destruct (is_dot n) eqn:Ed; [by apply (Hstep b)|].
  destruct (is_dotdot n) eqn:Edd.
  { rewrite (pop_stack b cs Hok). apply Hstep; [done|done|by apply removelast_ok|].
    assert (H1 := stack_length b cs). assert (H2 := pop_length cs). cbn. lia. }
  destruct (Z.leb_spec PATH_MAX (slen (stack_of b cs) + 1 + slen n)) as [Hbig2|Hbig2].
  { right. eexists. split; [done|]. exists [], n, (components r), b. splits; [done|done|right]. split; [|done].
    unfold is_dotname. by rewrite Ed, Edd. }
  rewrite push_stack by done. apply Hstep; [done|done|by apply Forall_app_2; [|apply Forall_singleton]|].
  assert (H1 := stack_length b cs). rewrite stack_snoc. unfold slen in *. rewrite length_app. cbn [length]. lia.
Qed.

(** ** [path_resolve] *)

(** A component that does not fit into [PATH_MAX] bytes on the way. *)
Definition too_long (B : list (list Z)) (path : list Z) : Prop :=
  exists b cs, overlong b cs path /\ ((head path = Some slash /\ b = false /\ cs = []) \/ (head path <> Some slash /\ cs = B)).

Lemma components_ok p : Forall name_ok (components p).
Proof.
  remember (length p) as n eqn:En. assert (Hn : (length p <= n)%nat) by lia. clear En. revert p Hn.
  induction n as [|n IH]; intros p Hn; [by destruct p; [|cbn in Hn; lia]|].
  rewrite <- components_skip. assert (Hl := skip_slash_length p).
  destruct (skip_slash p) as [|c q] eqn:Eq; [done|]. assert (Hc := skip_slash_head p c q Eq).
  assert (Hsp := components_span q c Hc). destruct (span_name (c :: q)) as [m r].
  destruct Hsp as (-> & Hm & Hr & _). constructor; [done|]. apply IH. cbn in *. lia.
Qed.

Lemma resolve1_canonical cs c : name_ok c -> canonical cs -> canonical (resolve1 cs c).
Proof.
  intros Hc Hcs. unfold resolve1. destruct (is_dot c) eqn:E1; [done|]. destruct (is_dotdot c) eqn:E2.
  - unfold canonical in *. destruct cs as [|d cs _] using rev_ind; [done|]. rewrite removelast_last.
    by apply Forall_app in Hcs as [? _].
  - apply Forall_app_2; [done|]. apply Forall_singleton. unfold is_dotname. by rewrite E1, E2.
Qed.

Lemma resolve_canonical cs p : canonical cs -> canonical (resolve cs p).
Proof.
  intros Hcs. unfold resolve. assert (H := components_ok p). revert cs Hcs.
  induction (components p) as [|c l IH]; intros cs Hcs; [done|]. apply Forall_cons in H as [Hc H]. cbn.
  apply IH; [done|]. by apply resolve1_canonical.
Qed.

Lemma canonical_ok cs : canonical cs -> Forall name_ok cs.
Proof. intros H. eapply Forall_impl; [exact H|]. by intros c []. Qed.

Lemma path_of_stack b cs : (if bool_decide (stack_of b cs = []) then [slash] else stack_of b cs) = path_of cs.
Proof.
  unfold stack_of, path_of. destruct cs as [|c cs]; [by destruct b|]. rewrite andb_false_r.
  rewrite !bool_decide_false by done. done.
Qed.

Lemma path_of_base B : exists b, path_of B = stack_of b B.
Proof. exists true. unfold path_of, stack_of. done. Qed.

(** C32: [path_resolve] computes the absolute path of the resolved components:
    against a base directory [path_of B] it gives exactly the components of
    the path with [.] and [..] resolved (never above the root), and fails only
    with -ENAMETOOLONG, when a component does not fit.  The result is again
    an absolute path without empty, [.] or [..] components. *)
Theorem path_resolve_correct B path :
  canonical B -> slen (path_of B) < PATH_MAX -> path <> [] ->
  let R := resolve (if bool_decide (head path = Some slash) then [] else B) path in
  canonical R /\
  (path_resolve (path_of B) path = Some (0, path_of R) \/
   (path_resolve (path_of B) path = Some (- ENAMETOOLONG, []) /\ too_long B path)).
Proof.
  intros HB Hlen Hne. destruct path as [|c path]; [done|]. cbv zeta.
  split; [apply resolve_canonical; case_bool_decide; [constructor|done]|]. unfold path_resolve.
  assert (Hhd : head (path_of B) = Some slash) by (unfold path_of; by destruct B).
  rewrite (bool_decide_true (head (path_of B) = Some slash)) by done. rewrite andb_false_r.
  set (cs := if bool_decide (head (c :: path) = Some slash) then [] else B).
  assert (Hcs : exists b, (if c =? slash then [] else str_copy (path_of B) PATH_MAX) = stack_of b cs /\
    slen (stack_of b cs) < PATH_MAX /\ Forall name_ok cs /\
    ((c = slash /\ b = false /\ cs = []) \/ (c <> slash /\ cs = B))).
  { unfold cs. cbn [head]. destruct (Z.eqb_spec c slash) as [->|Hc].
    - rewrite bool_decide_true by done. exists false. splits; [done|done|done|by left].
    - rewrite bool_decide_false by congruence. destruct (path_of_base B) as [b Eb]. exists b. rewrite <- Eb.
      splits; [|done|by apply canonical_ok|by right]. unfold str_copy. apply take_ge.
      unfold slen, PATH_MAX in *. lia. }
  destruct Hcs as (b & -> & Hs & Hok & Hcase).
  destruct (path_resolve_loop_spec (S (length (c :: path))) b cs (c :: path) ltac:(lia) Hok Hs)
    as [(b' & _ & E & Hl)|(stk & E & Ho)]; rewrite E; cbn [mbind option_bind].
  - left. cbn [Z.eqb negb]. do 2 f_equal. rewrite <- (path_of_stack b'). case_bool_decide; [done|].
    unfold str_copy. apply take_ge. unfold slen, PATH_MAX in *. lia.
  - right. split; [done|]. exists b, cs. split; [done|]. cbn [head]. destruct Hcase as [(-> & -> & ->)|[Hc ->]]; [by left|].
    right. split; [congruence|done].
Qed.

(** ** [path_parent_name] *)

Lemma last_slash_none n c found : slash ∉ c -> last_slash n c found = found.
Proof.
  revert n. induction c as [|x c IH]; intros n Hc; [done|]. apply not_elem_of_cons in Hc as [Hx Hc]. cbn.
  rewrite (proj2 (Z.eqb_neq _ _)) by congruence. by apply IH.
Qed.

Lemma last_slash_snoc a c : forall n found, slash ∉ c -> last_slash n (a ++ slash :: c) found = Some (n + length a)%nat.
Proof.
  induction a as [|x a IH]; intros n found Hc; cbn.
  - rewrite last_slash_none by done. f_equal. lia.
  - rewrite IH by done. f_equal. lia.
Qed.

Lemma trim_id p x : x <> slash -> trim_slash (x :: p) = x :: p.
Proof. intros Hx. cbn. destruct p; [done|]. by rewrite (proj2 (Z.eqb_neq _ _)). Qed.

Lemma parent_name_spec cs c :
  name_ok c -> slen (render (cs ++ [c])) < PATH_MAX ->
  path_parent_name (path_of (cs ++ [c])) = (0, path_of cs, c).
Proof.
  intros [Hne Hns] Hlen. unfold path_of. rewrite (bool_decide_false (cs ++ [c] = [])) by (by destruct cs).
  rewrite render_app, render_single in *. unfold path_parent_name.
  rewrite (bool_decide_true (head _ = _)) by (by destruct cs). cbn [negb].
  assert (Etrim : reverse (trim_slash (reverse (render cs ++ slash :: c))) = render cs ++ slash :: c).
  { destruct c as [|x c _] using rev_ind; [done|]. rewrite app_comm_cons, app_assoc, reverse_snoc.
    rewrite trim_id; [by rewrite reverse_cons, reverse_involutive|]. intros ->. apply Hns. apply elem_of_app. right.
    apply list_elem_of_here. }
  rewrite Etrim. assert (Hl : slen (render cs ++ slash :: c) = slen (render cs) + 1 + slen c).
  { unfold slen. rewrite length_app. cbn [length]. lia. }
  assert (Hc : 1 <= slen c) by (unfold slen; destruct c; [done|cbn [length]; lia]).
  assert (Hr : 0 <= slen (render cs)) by (unfold slen; lia). rewrite Hl in Hlen |- *. zdec.
  rewrite last_slash_snoc by done. cbn [plus]. rewrite drop_app, (drop_ge (render cs)) by lia.
  replace (S (length (render cs)) - length (render cs))%nat with 1%nat by lia. cbn [drop app].
  rewrite (take_ge c) by (unfold slen, PATH_MAX, DNAME_INLINE_LEN in *; lia). rewrite (bool_decide_false (c = [])) by done.
  replace (PATH_MAX <=? Z.of_nat (length (render cs))) with false by (symmetry; apply Z.leb_gt; unfold slen in *; lia).
  rewrite andb_false_r. rewrite take_app_length. destruct cs as [|d cs]; [done|].
  by rewrite !bool_decide_false by done.
Qed.

Lemma components_cons x p :
  components (x :: p) =
    if x =? slash then components p
    else match p with
      | d :: _ => if d =? slash then [x] :: components p
                  else match components p with n :: ns => (x :: n) :: ns | [] => [[x]] end
      | [] => [[x]]
      end.
Proof. by destruct p. Qed.

Lemma components_name n : forall r,
  name_ok n -> r = [] \/ head r = Some slash -> components (n ++ r) = n :: components r.
Proof.
  induction n as [|x n IH]; intros r [Hne Hns] Hr; [done|]. apply not_elem_of_cons in Hns as [Hx Hns].
  cbn [app]. rewrite components_cons, (proj2 (Z.eqb_neq x slash)) by congruence. destruct n as [|y n].
  - destruct Hr as [->|Hr]; [done|]. destruct r as [|d r]; [done|]. injection Hr as ->. cbn [app]. by rewrite Z.eqb_refl.
  - cbn [app]. assert (Hy := Hns). apply not_elem_of_cons in Hy as [Hy _].
    rewrite (proj2 (Z.eqb_neq y slash)) by congruence. 
    assert (E := IH r ltac:(by split) Hr). cbn [app] in E. by rewrite E.
Qed.

Lemma components_render cs : Forall name_ok cs -> components (render cs) = cs.
Proof.
  induction cs as [|c cs IH]; intros Hok; [done|]. apply Forall_cons in Hok as [Hc Hok].
  change (render (c :: cs)) with (slash :: (c ++ render cs)). rewrite components_cons, Z.eqb_refl.
  rewrite components_name; [by rewrite IH|done|]. destruct cs; [by left|by right].
Qed.

Lemma components_path cs : Forall name_ok cs -> components (path_of cs) = cs.
Proof. intros Hok. unfold path_of. destruct cs as [|c cs]; [done|]. by apply components_render. Qed.

Lemma resolve_canonical_id cs ds : canonical ds -> foldl resolve1 cs ds = cs ++ ds.
Proof.
  revert cs. induction ds as [|d ds IH]; intros cs Hds; [by rewrite app_nil_r|].
  apply Forall_cons in Hds as [[_ Hd] Hds]. cbn. unfold is_dotname in Hd. apply orb_false_iff in Hd as [H1 H2].
  unfold resolve1 at 2. rewrite H1, H2, IH by done. by rewrite <- app_assoc.
Qed.

(** [path_parent_name] splits the absolute path of a directory entry into
    the path of its directory and its name, and resolving the name against
    the directory gives the path back. *)
Theorem path_parent_roundtrip cs c :
  canonical (cs ++ [c]) -> slen (path_of (cs ++ [c])) + 1 < PATH_MAX ->
  path_parent_name (path_of (cs ++ [c])) = (0, path_of cs, c) /\
  path_resolve (path_of cs) c = Some (0, path_of (cs ++ [c])).
Proof.
  intros Hcan Hlen. assert (Hc := Hcan). apply Forall_app in Hc as [Hcs Hc]. rewrite Forall_singleton in Hc.
  destruct Hc as [Hok Hdot]. assert (Epath : path_of (cs ++ [c]) = render (cs ++ [c])).
  { unfold path_of. by rewrite bool_decide_false by (by destruct cs). }
  rewrite Epath in *. split.
  { rewrite <- Epath. apply parent_name_spec; [done|lia]. }
  assert (Hl : slen (render (cs ++ [c])) = slen (render cs) + 1 + slen c).
  { rewrite render_app, render_single. unfold slen. rewrite length_app. cbn [length]. lia. }
  assert (Hpo : slen (path_of cs) <= slen (render cs) + 1).
  { unfold path_of, slen. case_bool_decide; cbn; lia. }
  assert (Hc1 : 1 <= slen c) by (unfold slen; destruct Hok as [Hne _]; destruct c; [done|cbn [length]; lia]).
  destruct (path_resolve_loop_spec (S (length c)) true cs c) as [(b & _ & E & Hs)|(stk & E & Ho)].
  { lia. }
  { by apply canonical_ok. }
  { change (stack_of true cs) with (path_of cs). lia. }
  - assert (Ec : components c = [c]) by (rewrite <- (app_nil_r c) at 1; by apply components_name; [|left]).
    assert (Er : resolve cs c = cs ++ [c]).
    { unfold resolve. rewrite Ec. apply (resolve_canonical_id cs [c]). apply Forall_singleton. by split. }
    unfold path_resolve. destruct Hok as [Hne Hns]. destruct c as [|x c]; [done|].
    rewrite (bool_decide_true (head (path_of cs) = Some slash)) by (unfold path_of; by destruct cs). rewrite andb_false_r.
    apply not_elem_of_cons in Hns as [Hx _]. rewrite (proj2 (Z.eqb_neq x slash)) by congruence.
    assert (Ecopy : str_copy (path_of cs) PATH_MAX = stack_of true cs).
    { change (stack_of true cs) with (path_of cs). unfold str_copy. apply take_ge. unfold slen, PATH_MAX in *. lia. }
    rewrite Ecopy, E. cbn [mbind option_bind Z.eqb negb]. rewrite Er in *. do 2 f_equal. rewrite stack_snoc in *.
    rewrite bool_decide_false by (by destruct (render cs)). rewrite render_app, render_single.
    unfold str_copy. apply take_ge. unfold slen, PATH_MAX in *. lia.
  - exfalso. destruct Ho as (pre & d & suf & b & Ed & _ & H).
    assert (Ec : components c = [c]) by (rewrite <- (app_nil_r c) at 1; by apply components_name; [|left]).
    rewrite Ec in Ed. destruct pre as [|? [|]]; try done. injection Ed as <- _. cbn [foldl] in H.
    assert (Hst : slen (stack_of b cs) <= slen (render cs) + 1).
    { unfold stack_of, slen. case_match; cbn; lia. }
    assert (Hnn : 0 <= slen (render cs)) by (unfold slen; lia). destruct H as [H|[_ H]]; lia.
Qed.

(** ** Examples *)

Lemma path_resolve_correct_witness :
  path_resolve [47; 97] [46; 46; 47; 98; 47; 46] = Some (0, [47; 98]) /\
  canonical (resolve [[97]] [46; 46; 47; 98; 47; 46]).
Proof.
  assert (HB : canonical [[97]]).
  { apply Forall_singleton. split; [split; [discriminate|]|reflexivity]. rewrite list_elem_of_singleton. discriminate. }
  destruct (path_resolve_correct [[97]] [46; 46; 47; 98; 47; 46] HB ltac:(vm_compute; reflexivity) ltac:(discriminate))
    as [HC [E|[E _]]].
  - split; [exact E|exact HC].
  - vm_compute in E. discriminate E.
Defined.

Lemma path_parent_roundtrip_witness :
  path_parent_name [47; 97; 47; 98] = (0, [47; 97], [98]) /\ path_resolve [47; 97] [98] = Some (0, [47; 97; 47; 98]).
Proof.
  apply (path_parent_roundtrip [[97]] [98]); [|vm_compute; reflexivity].
  apply Forall_app_2; apply Forall_singleton; (split; [split; [discriminate|]|reflexivity]);
    rewrite list_elem_of_singleton; discriminate.
Defined.

