(* ===== verification/Ramfs.v ===== *)
(** * The in-memory file system ([fs/ramfs.c], [fs/inode.c])

    Inodes and directory entries are objects of [kmalloc]; a directory keeps
    its entries in a singly linked list, a regular file its bytes in one block
    that doubles when it must grow.  [dir_rep] and [file_rep] say what a
    directory and a file hold. *)
From S2P Require Import Prelude Errno PageAlloc Slub Heap ListHead Task Sched Signal Wait Kernel Path.

(** The static [root_inode]; it is no object of the caches. *)
Definition root_inode : Z := 8.
Definition SIZEOF_RAMFS_INODE : Z := 112.
Definition SIZEOF_RAMFS_DENTRY : Z := 272.

Abbreviation DT_UNKNOWN := 0 (only parsing).
Abbreviation DT_FIFO := 1 (only parsing).
Abbreviation DT_CHR := 2 (only parsing).
Abbreviation DT_DIR := 4 (only parsing).
Abbreviation DT_REG := 8 (only parsing).
Abbreviation DT_LNK := 10 (only parsing).

Definition itype (k : kernel) (i : Z) : Z := i_type (inode_at k i).
Definition inode_is_dir (k : kernel) (i : Z) : bool := negb (i =? 0) && (itype k i =? S_IFDIR).
Definition inode_is_reg (k : kernel) (i : Z) : bool := negb (i =? 0) && (itype k i =? S_IFREG).
Definition inode_is_lnk (k : kernel) (i : Z) : bool := negb (i =? 0) && (itype k i =? S_IFLNK).
Definition inode_is_chr (k : kernel) (i : Z) : bool := negb (i =? 0) && (itype k i =? S_IFCHR).

(** Entries are distinct keys of [k_rdents]. *)
Definition dents_fuel (k : kernel) : nat := S (size (k_rdents k)).
Definition tree_fuel (k : kernel) : nat := S (S (2 * (size (k_inodes k) + size (k_rdents k)))).

(** ** Bytes *)

(** [ramfs_memcpy] of bytes to [dst], and the bytes at [src]. *)
Fixpoint put_bytes (m : gmap Z Z) (dst : Z) (bs : list Z) : gmap Z Z :=
  match bs with
  | [] => m
  | b :: bs' => put_bytes (<[dst := b]> m) (dst + 1) bs'
  end.

Fixpoint get_bytes (m : gmap Z Z) (src : Z) (n : nat) : list Z :=
  match n with
  | O => []
  | S n' => m.[src] :: get_bytes m (src + 1) n'
  end.

Definition ramfs_memcpy (k : kernel) (dst src n : Z) : kernel :=
  set_k_b (put_bytes (k_b k) dst (get_bytes (k_b k) src (Z.to_nat n))) k.

(** ** Inodes *)

Definition ramfs_default_perm (type : Z) : Z :=
  if (type =? S_IFDIR) || (type =? S_IFREG) then 493
  else if type =? S_IFLNK then 511
  else if type =? S_IFCHR then 438
  else 420.

Definition ramfs_apply_mode (k : kernel) (i mode : Z) : kernel :=
  upd_inode k i (fun x => set_i_mode (Z.lor (wrapu 16 (i_type x)) (Z.land mode 511)) x).

Definition ramfs_inode_init (k : kernel) (ri type : Z) : kernel :=
  let k := upd_inode k ri (fun _ =>
    mkInode (k_next_ino k) 0 type (Z.lor (wrapu 16 type) (ramfs_default_perm type)) 0
      (type =? S_IFDIR)
      (if type =? S_IFREG then ramfs_file_ops else if type =? S_IFDIR then ramfs_dir_ops else FOP_NULL)
      0 (if type =? S_IFDIR then 2 else 1) 0 I_PERSISTENT true 0 0 0 0) in
  set_k_next_ino (u64 (k_next_ino k + 1)) k.

Definition ramfs_alloc_inode (k : kernel) (type : Z) : option (Z * kernel) :=
  '(ri, k) ← k_malloc k SIZEOF_RAMFS_INODE;
  if ri =? 0 then Some (0, k) else Some (ri, ramfs_inode_init k ri type).

Definition free_dentry (k : kernel) (d : Z) : option kernel :=
  k ← k_free k d; Some (set_k_rdents (delete d (k_rdents k)) k).

Definition free_inode_struct (k : kernel) (ri : Z) : option kernel :=
  k ← k_free k ri; Some (set_k_inodes (delete ri (k_inodes k)) k).

(** [ramfs_free_inode] and its loop over the children. *)
Fixpoint ramfs_free_inode (fuel : nat) (k : kernel) (ri : Z) : option kernel :=
  match fuel with
  | O => None
  | S fuel' =>
      if ri =? 0 then Some k
      else
        k ← (if itype k ri =? S_IFDIR then ramfs_free_children fuel' k (ri_children (inode_at k ri)) else Some k);
        k ← (if ri_data (inode_at k ri) =? 0 then Some k else k_free k (ri_data (inode_at k ri)));
        if ri =? root_inode then Some k else free_inode_struct k ri
  end
with ramfs_free_children (fuel : nat) (k : kernel) (d : Z) : option kernel :=
  match fuel with
  | O => None
  | S fuel' =>
      if d =? 0 then Some k
      else
        let next := rd_next (rdent_at k d) in
        k ← ramfs_free_inode fuel' k (rd_inode (rdent_at k d));
        k ← free_dentry k d;
        ramfs_free_children fuel' k next
  end.

(** [fs/inode.c] *)
Definition iget (k : kernel) (i : Z) : kernel :=
  if i =? 0 then k else upd_inode k i (fun x => set_i_count (u32 (i_count x + 1)) x).

Definition inode_maybe_evict (k : kernel) (i : Z) : option kernel :=
  if (i =? 0) || negb (i_count (inode_at k i) =? 0) then Some k
  else if has (i_flags (inode_at k i)) I_PERSISTENT && negb (i_nlink (inode_at k i) =? 0) then Some k
  else if i_free (inode_at k i) then ramfs_free_inode (tree_fuel k) k i
  else Some k.

Definition drop_nlink (k : kernel) (i : Z) : option kernel :=
  if i =? 0 then Some k
  else
    let k := if i_nlink (inode_at k i) =? 0 then k else upd_inode k i (fun x => set_i_nlink (i_nlink x - 1) x) in
    inode_maybe_evict k i.

Definition clear_nlink (k : kernel) (i : Z) : option kernel :=
  if i =? 0 then Some k else inode_maybe_evict (upd_inode k i (set_i_nlink 0)) i.

Definition iput (k : kernel) (i : Z) : option kernel :=
  if (i =? 0) || (i_count (inode_at k i) =? 0) then Some k
  else inode_maybe_evict (upd_inode k i (fun x => set_i_count (i_count x - 1) x)) i.

(** ** Directories *)

Fixpoint find_child_loop (fuel : nat) (k : kernel) (d : Z) (name : list Z) : option Z :=
  match fuel with
  | O => None
  | S fuel' =>
      if d =? 0 then Some 0
      else if bool_decide (rd_name (rdent_at k d) = name) then Some d
      else find_child_loop fuel' k (rd_next (rdent_at k d)) name
  end.

Definition ramfs_find_child (k : kernel) (dir : Z) (name : list Z) : option Z :=
  if (dir =? 0) || negb (itype k dir =? S_IFDIR) then Some 0
  else find_child_loop (dents_fuel k) k (ri_children (inode_at k dir)) name.

(** [ramfs_set_name], also written out in [ramfs_add_child]. *)
Definition ramfs_set_name (name : list Z) : list Z := take (Z.to_nat RAMFS_NAME_MAX) name.

Definition ramfs_add_child (k : kernel) (dir : Z) (name : list Z) (ri : Z) : option (Z * kernel) :=
  if (dir =? 0) || negb (itype k dir =? S_IFDIR) then Some (- ENOTDIR, k)
  else
    e ← ramfs_find_child k dir name;
    if negb (e =? 0) then Some (- EEXIST, k)
    else
      '(d, k) ← k_malloc k SIZEOF_RAMFS_DENTRY;
      if d =? 0 then Some (- ENOMEM, k)
      else
        let k := if itype k ri =? S_IFDIR then upd_inode k ri (set_ri_parent dir) else k in
        let k := upd_rdent k d (fun _ => mkRdent (ramfs_set_name name) ri (ri_children (inode_at k dir))) in
        Some (0, upd_inode k dir (set_ri_children d)).

(** The links of the children of [dir], as a list reached through link cells. *)
Definition clinks (dir : Z) : SList kernel := {|
  sget k c := match c with CHead => ri_children (inode_at k dir) | CNext d => rd_next (rdent_at k d) end;
  sset k c v := match c with
    | CHead => upd_inode k dir (set_ri_children v)
    | CNext d => upd_rdent k d (set_rd_next v)
    end
|}.

(** The walk of [ramfs_remove_child]: the result is the inode, 0 if absent. *)
Fixpoint remove_child_loop (fuel : nat) (k : kernel) (dir : Z) (name : list Z) (prev : cell) : option (Z * Z * kernel) :=
  match fuel with
  | O => None
  | S fuel' =>
      let d := @sget _ (clinks dir) k prev in
      if d =? 0 then Some (- ENOENT, 0, k)
      else if bool_decide (rd_name (rdent_at k d) = name) then
        let ri := rd_inode (rdent_at k d) in
        let k := @sset _ (clinks dir) k prev (rd_next (rdent_at k d)) in
        k ← free_dentry k d;
        Some (0, ri, k)
      else remove_child_loop fuel' k dir name (CNext d)
  end.

Definition ramfs_remove_child (k : kernel) (dir : Z) (name : list Z) : option (Z * Z * kernel) :=
  if (dir =? 0) || negb (itype k dir =? S_IFDIR) then Some (- ENOTDIR, 0, k)
  else remove_child_loop (dents_fuel k) k dir name CHead.

(** ** Inode operations

    A [struct dentry] argument is its name; the second result is what the
    operation stores in [dentry->inode]. *)

Definition ramfs_inode_mkdir (k : kernel) (dir : Z) (name : list Z) (mode : Z) : option (Z * Z * kernel) :=
  if (dir =? 0) || bool_decide (name = []) then Some (- EINVAL, 0, k)
  else if negb (inode_is_dir k dir) then Some (- ENOTDIR, 0, k)
  else
    e ← ramfs_find_child k dir name;
    if negb (e =? 0) then Some (- EEXIST, 0, k)
    else
      '(ri, k) ← ramfs_alloc_inode k S_IFDIR;
      if ri =? 0 then Some (- ENOMEM, 0, k)
      else
        let k := ramfs_apply_mode k ri mode in
        '(err, k) ← ramfs_add_child k dir name ri;
        if negb (err =? 0) then k ← free_inode_struct k ri; Some (err, 0, k)
        else Some (0, ri, k).

Definition ramfs_inode_mknod (k : kernel) (dir : Z) (name : list Z) (mode rdev : Z) : option (Z * Z * kernel) :=
  if (dir =? 0) || bool_decide (name = []) then Some (- EINVAL, 0, k)
  else if negb (inode_is_dir k dir) then Some (- ENOTDIR, 0, k)
  else if negb (Z.land mode S_IFMT =? S_IFCHR) then Some (- EPERM, 0, k)
  else
    e ← ramfs_find_child k dir name;
    if negb (e =? 0) then Some (- EEXIST, 0, k)
    else
      '(ri, k) ← ramfs_alloc_inode k S_IFCHR;
      if ri =? 0 then Some (- ENOMEM, 0, k)
      else
        let k := ramfs_apply_mode k ri mode in
        let k := upd_inode k ri (set_i_rdev rdev) in
        '(err, k) ← ramfs_add_child k dir name ri;
        if negb (err =? 0) then k ← free_inode_struct k ri; Some (err, 0, k)
        else Some (0, ri, k).

(** An operation that fails puts the entry back; the result of doing so is
    ignored. *)
Definition put_back (k : kernel) (dir : Z) (name : list Z) (ri err : Z) : option (Z * kernel) :=
  '(_, k) ← ramfs_add_child k dir name ri; Some (err, k).

Definition ramfs_inode_unlink (k : kernel) (dir : Z) (name : list Z) : option (Z * kernel) :=
  if (dir =? 0) || bool_decide (name = []) then Some (- EINVAL, k)
  else if negb (inode_is_dir k dir) then Some (- ENOTDIR, k)
  else
    '(err, ri, k) ← ramfs_remove_child k dir name;
    if negb (err =? 0) then Some (err, k)
    else if itype k ri =? S_IFDIR then put_back k dir name ri (- EISDIR)
    else k ← drop_nlink k ri; Some (0, k).

Definition ramfs_inode_link (k : kernel) (old dir : Z) (name : list Z) : option (Z * kernel) :=
  if (old =? 0) || (dir =? 0) || bool_decide (name = []) then Some (- EINVAL, k)
  else if negb (inode_is_dir k dir) then Some (- ENOTDIR, k)
  else if inode_is_dir k old then Some (- EPERM, k)
  else
    e ← ramfs_find_child k dir name;
    if negb (e =? 0) then Some (- EEXIST, k)
    else
      '(err, k) ← ramfs_add_child k dir name old;
      if negb (err =? 0) then Some (err, k)
      else Some (0, upd_inode k old (fun x => set_i_nlink (u32 (i_nlink x + 1)) x)).

Definition ramfs_inode_symlink (k : kernel) (dir : Z) (name target : list Z) : option (Z * Z * kernel) :=
  if (dir =? 0) || bool_decide (name = []) then Some (- EINVAL, 0, k)
  else if negb (inode_is_dir k dir) then Some (- ENOTDIR, 0, k)
  else if PATH_MAX <=? slen target then Some (- ENAMETOOLONG, 0, k)
  else
    e ← ramfs_find_child k dir name;
    if negb (e =? 0) then Some (- EEXIST, 0, k)
    else
      '(ri, k) ← ramfs_alloc_inode k S_IFLNK;
      if ri =? 0 then Some (- ENOMEM, 0, k)
      else
        '(ok, k) ←
          (if slen target =? 0 then Some (true, k)
           else
             '(data, k) ← k_malloc k (slen target + 1);
             if data =? 0 then k ← free_inode_struct k ri; Some (false, k)
             else
               let k := set_k_b (put_bytes (k_b k) data (target ++ [0])) k in
               Some (true, upd_inode k ri (fun x => set_i_size (slen target) (set_ri_capacity (slen target + 1) (set_ri_data data x)))));
        if negb ok then Some (- ENOMEM, 0, k)
        else
          '(err, k) ← ramfs_add_child k dir name ri;
          if negb (err =? 0) then
            k ← (if ri_data (inode_at k ri) =? 0 then Some k else k_free k (ri_data (inode_at k ri)));
            k ← free_inode_struct k ri;
            Some (err, 0, k)
          else Some (0, ri, k).

Definition ramfs_inode_rmdir (k : kernel) (dir : Z) (name : list Z) : option (Z * kernel) :=
  if (dir =? 0) || bool_decide (name = []) then Some (- EINVAL, k)
  else if negb (inode_is_dir k dir) then Some (- ENOTDIR, k)
  else
    '(err, ri, k) ← ramfs_remove_child k dir name;
    if negb (err =? 0) then Some (err, k)
    else if negb (itype k ri =? S_IFDIR) then put_back k dir name ri (- ENOTDIR)
    else if negb (ri_children (inode_at k ri) =? 0) then put_back k dir name ri (- ENOTEMPTY)
    else k ← clear_nlink k ri; Some (0, k).

(** Whether [src] is [p] or one of its ancestors. *)
Fixpoint ancestor (fuel : nat) (k : kernel) (p src : Z) : option bool :=
  match fuel with
  | O => None
  | S fuel' =>
      if p =? 0 then Some false
      else if p =? src then Some true
      else ancestor fuel' k (ri_parent (inode_at k p)) src
  end.

(** Removing what the new name referred to. *)
Definition rename_target (k : kernel) (src dst new_dir : Z) (new_name : list Z) : option (Z * kernel) :=
  if dst =? 0 then Some (0, k)
  else
    let early :=
      if itype k src =? S_IFDIR then
        if negb (itype k dst =? S_IFDIR) then - ENOTDIR
        else if negb (ri_children (inode_at k dst) =? 0) then - ENOTEMPTY else 0
      else if itype k dst =? S_IFDIR then - EISDIR else 0 in
    if negb (early =? 0) then Some (early, k)
    else
      '(err, dst, k) ← ramfs_remove_child k new_dir new_name;
      if negb (err =? 0) then Some (err, k)
      else k ← (if itype k dst =? S_IFDIR then clear_nlink k dst else drop_nlink k dst); Some (0, k).

Definition ramfs_inode_rename (k : kernel) (old_dir : Z) (old_name : list Z) (new_dir : Z) (new_name : list Z)
  : option (Z * kernel) :=
  if (old_dir =? 0) || (new_dir =? 0) then Some (- EINVAL, k)
  else if negb (inode_is_dir k old_dir) || negb (inode_is_dir k new_dir) then Some (- ENOTDIR, k)
  else if bool_decide (old_name = []) || bool_decide (new_name = []) then Some (- ENOENT, k)
  else if is_dotname old_name || is_dotname new_name then Some (- EBUSY, k)
  else
    src_de ← ramfs_find_child k old_dir old_name;
    if src_de =? 0 then Some (- ENOENT, k)
    else
      let src := rd_inode (rdent_at k src_de) in
      dst_de ← ramfs_find_child k new_dir new_name;
      let dst := if dst_de =? 0 then 0 else rd_inode (rdent_at k dst_de) in
      if dst =? src then Some (0, k)
      else
        up ← (if itype k src =? S_IFDIR then ancestor (tree_fuel k) k new_dir src else Some false);
        if up : bool then Some (- EINVAL, k)
        else
          '(err, k) ← rename_target k src dst new_dir new_name;
          if negb (err =? 0) then Some (err, k)
          else if old_dir =? new_dir then
            Some (0, upd_rdent k src_de (set_rd_name (ramfs_set_name new_name)))
          else
            '(err, src, k) ← ramfs_remove_child k old_dir old_name;
            if negb (err =? 0) then Some (err, k)
            else
              '(err, k) ← ramfs_add_child k new_dir new_name src;
              if negb (err =? 0) then put_back k old_dir old_name src err
              else Some (0, k).

(** ** The dispatch of [fs/namei.c] *)

Definition vfs_mkdir (k : kernel) (dir : Z) (name : list Z) (mode : Z) : option (Z * Z * kernel) :=
  if dir =? 0 then Some (- EINVAL, 0, k)
  else if negb (inode_is_dir k dir) then Some (- ENOTDIR, 0, k)
  else if negb (i_op (inode_at k dir)) then Some (- EPERM, 0, k)
  else ramfs_inode_mkdir k dir name mode.

Definition vfs_mknod (k : kernel) (dir : Z) (name : list Z) (mode rdev : Z) : option (Z * Z * kernel) :=
  if dir =? 0 then Some (- EINVAL, 0, k)
  else if negb (inode_is_dir k dir) then Some (- ENOTDIR, 0, k)
  else if negb (i_op (inode_at k dir)) then Some (- EPERM, 0, k)
  else if negb (Z.land mode S_IFMT =? S_IFCHR) then Some (- EINVAL, 0, k)
  else ramfs_inode_mknod k dir name mode rdev.

(** [dinode] is [dentry->inode]. *)
Definition vfs_unlink (k : kernel) (dir dinode : Z) (name : list Z) : option (Z * kernel) :=
  if dir =? 0 then Some (- EINVAL, k)
  else if negb (inode_is_dir k dir) then Some (- ENOTDIR, k)
  else if negb (i_op (inode_at k dir)) then Some (- EPERM, k)
  else if inode_is_dir k dinode then Some (- EISDIR, k)
  else ramfs_inode_unlink k dir name.

Definition vfs_rmdir (k : kernel) (dir dinode : Z) (name : list Z) : option (Z * kernel) :=
  if dir =? 0 then Some (- EINVAL, k)
  else if negb (inode_is_dir k dir) then Some (- ENOTDIR, k)
  else if negb (i_op (inode_at k dir)) then Some (- EPERM, k)
  else if negb (dinode =? 0) && negb (inode_is_dir k dinode) then Some (- ENOTDIR, k)
  else ramfs_inode_rmdir k dir name.

Definition vfs_link (k : kernel) (old dir : Z) (name : list Z) : option (Z * kernel) :=
  if (old =? 0) || (dir =? 0) then Some (- EINVAL, k)
  else if negb (inode_is_dir k dir) then Some (- ENOTDIR, k)
  else if negb (i_op (inode_at k dir)) then Some (- EPERM, k)
  else if inode_is_dir k old then Some (- EPERM, k)
  else ramfs_inode_link k old dir name.

Definition vfs_symlink (k : kernel) (target : list Z) (dir : Z) (name : list Z) : option (Z * Z * kernel) :=
  if dir =? 0 then Some (- EINVAL, 0, k)
  else if negb (inode_is_dir k dir) then Some (- ENOTDIR, 0, k)
  else if negb (i_op (inode_at k dir)) then Some (- EPERM, 0, k)
  else ramfs_inode_symlink k dir name target.

Definition vfs_rename (k : kernel) (old_dir : Z) (old_name : list Z) (new_dir : Z) (new_name : list Z)
  : option (Z * kernel) :=
  if (old_dir =? 0) || (new_dir =? 0) then Some (- EINVAL, k)
  else if negb (inode_is_dir k old_dir) || negb (inode_is_dir k new_dir) then Some (- ENOTDIR, k)
  else if negb (i_op (inode_at k old_dir)) then Some (- EPERM, k)
  else if negb (Bool.eqb (i_op (inode_at k old_dir)) (i_op (inode_at k new_dir))) then Some (- EXDEV, k)
  else ramfs_inode_rename k old_dir old_name new_dir new_name.

(** ** Lookup *)

(** The characters up to a slash, at most [RAMFS_NAME_MAX]. *)
Definition span_max (p : list Z) : list Z * list Z :=
  let '(n, _) := span_name p in
  let n := take (Z.to_nat RAMFS_NAME_MAX) n in
  (n, drop (length n) p).

Fixpoint lookup_at_loop (fuel : nat) (k : kernel) (dir : Z) (path : list Z) : option Z :=
  match fuel with
  | O => None
  | S fuel' =>
      let '(name, path) := span_max path in
      if bool_decide (name = []) then Some 0
      else
        let path := skip_slash path in
        if is_dot name then
          if bool_decide (path = []) then Some dir else lookup_at_loop fuel' k dir path
        else if is_dotdot name then
          let dir := if ri_parent (inode_at k dir) =? 0 then dir else ri_parent (inode_at k dir) in
          if bool_decide (path = []) then Some dir else lookup_at_loop fuel' k dir path
        else
          d ← ramfs_find_child k dir name;
          if d =? 0 then Some 0
          else if bool_decide (path = []) then Some (rd_inode (rdent_at k d))
          else if negb (itype k (rd_inode (rdent_at k d)) =? S_IFDIR) then Some 0
          else lookup_at_loop fuel' k (rd_inode (rdent_at k d)) path
  end.

Definition ramfs_lookup_at (k : kernel) (dir : Z) (path : list Z) : option Z :=
  let path := skip_slash path in
  if bool_decide (path = []) then Some dir else lookup_at_loop (S (length path)) k dir path.

(** The loop of [ramfs_lookup_parent]: the directory reached and [last]. *)
Fixpoint lookup_parent_loop (fuel : nat) (k : kernel) (dir : Z) (p : list Z) (last : option (list Z))
  : option (Z * option (list Z)) :=
  match fuel with
  | O => None
  | S fuel' =>
      if bool_decide (p = []) then Some (dir, last)
      else
        let p := skip_slash p in
        if bool_decide (p = []) then Some (dir, last)
        else
          let '(comp, rest) := span_name p in
          if bool_decide (rest = []) then Some (dir, Some p)
          else
            let component := take (Z.to_nat RAMFS_NAME_MAX) comp in
            if is_dot component then lookup_parent_loop fuel' k dir rest (Some p)
            else if is_dotdot component then
              let dir := if ri_parent (inode_at k dir) =? 0 then dir else ri_parent (inode_at k dir) in
              lookup_parent_loop fuel' k dir rest (Some p)
            else
              d ← ramfs_find_child k dir component;
              if (d =? 0) || negb (itype k (rd_inode (rdent_at k d)) =? S_IFDIR) then Some (0, None)
              else lookup_parent_loop fuel' k (rd_inode (rdent_at k d)) rest (Some p)
  end.

(** [ramfs_lookup_parent(path, name_out)]: 0 for NULL, and the name. *)
Definition ramfs_lookup_parent (k : kernel) (path : list Z) : option (Z * list Z) :=
  let p := skip_slash path in
  if bool_decide (p = []) then Some (0, [])
  else
    '(dir, last) ← lookup_parent_loop (S (length p)) k root_inode p None;
    match last with
    | None => Some (0, [])
    | Some l =>
        let name := fst (span_name l) in
        if bool_decide (name = []) || (RAMFS_NAME_MAX <? slen name) then Some (0, []) else Some (dir, name)
    end.

Definition ramfs_init (k : kernel) : kernel := ramfs_inode_init (set_k_next_ino 1 k) root_inode S_IFDIR.

Definition absolute (path : list Z) : bool := bool_decide (head path = Some slash).

Definition ramfs_lookup (k : kernel) (path : list Z) : option Z :=
  if negb (absolute path) then Some 0 else ramfs_lookup_at k root_inode path.

Definition ramfs_lookup_child (k : kernel) (dir : Z) (name : list Z) : option Z :=
  if negb (inode_is_dir k dir) || bool_decide (name = []) then Some 0
  else d ← ramfs_find_child k dir name; Some (if d =? 0 then 0 else rd_inode (rdent_at k d)).

(** [ramfs_name_in_parent]: [None] inside is NULL. *)
Fixpoint name_in_parent_loop (fuel : nat) (k : kernel) (d child : Z) : option (option (list Z)) :=
  match fuel with
  | O => None
  | S fuel' =>
      if d =? 0 then Some None
      else if rd_inode (rdent_at k d) =? child then Some (Some (rd_name (rdent_at k d)))
      else name_in_parent_loop fuel' k (rd_next (rdent_at k d)) child
  end.

(** [chain] of [ramfs_inode_path], from the inode up to below the root; the
    flag tells that the root was reached, [None] that it is longer than 64. *)
Fixpoint path_chain (n : nat) (k : kernel) (p : Z) : option (list Z * bool) :=
  if p =? 0 then Some ([], false)
  else if p =? root_inode then Some ([], true)
  else match n with
    | O => None
    | S n' => '(l, hit) ← path_chain n' k (ri_parent (inode_at k p)); Some (p :: l, hit)
    end.

(** The loop that writes the names, root first. *)
Fixpoint path_names (k : kernel) (chain : list Z) (size : Z) (buf : list Z) : option (Z * list Z) :=
  match chain with
  | [] => Some (0, buf)
  | i :: chain' =>
      let parent := if ri_parent (inode_at k i) =? 0 then root_inode else ri_parent (inode_at k i) in
      name ← name_in_parent_loop (dents_fuel k) k (ri_children (inode_at k parent)) i;
      match name with
      | None => Some (- ENOENT, buf)
      | Some name =>
          if (1 <? slen buf) && (size <=? slen buf + 1) then Some (- ENAMETOOLONG, buf)
          else
            let buf := if 1 <? slen buf then buf ++ [slash] else buf in
            if size <=? slen buf + slen name then Some (- ENAMETOOLONG, buf)
            else path_names k chain' size (buf ++ name)
      end
  end.

Definition ramfs_inode_path (k : kernel) (i size : Z) : option (Z * list Z) :=
  if (i =? 0) || (size <? 2) then Some (- EINVAL, [])
  else if negb (inode_is_dir k i) then Some (- ENOTDIR, [])
  else if i =? root_inode then Some (0, [slash])
  else match path_chain 64 k i with
    | None => Some (- ENAMETOOLONG, [])
    | Some (chain, hit) =>
        if negb hit then Some (- ENOTDIR, []) else path_names k (reverse chain) size [slash]
    end.

(** ** Operations on paths (used by the kernel itself) *)

Definition ramfs_mkdir (k : kernel) (path : list Z) : option (Z * kernel) :=
  if negb (absolute path) then Some (- EINVAL, k)
  else
    '(parent, name) ← ramfs_lookup_parent k path;
    if parent =? 0 then Some (- ENOENT, k)
    else '(err, _, k) ← vfs_mkdir k parent (take (Z.to_nat (DNAME_INLINE_LEN - 1)) name) 493; Some (err, k).

Definition ramfs_create (k : kernel) (path : list Z) (mode : Z) : option (Z * kernel) :=
  if negb (absolute path) then Some (- EINVAL, k)
  else
    '(parent, name) ← ramfs_lookup_parent k path;
    if parent =? 0 then Some (- ENOENT, k)
    else
      e ← ramfs_find_child k parent name;
      if negb (e =? 0) then Some (- EEXIST, k)
      else
        '(ri, k) ← ramfs_alloc_inode k S_IFREG;
        if ri =? 0 then Some (- ENOMEM, k)
        else
          let k := ramfs_apply_mode k ri mode in
          '(err, k) ← ramfs_add_child k parent name ri;
          if negb (err =? 0) then k ← free_inode_struct k ri; Some (err, k)
          else Some (0, k).

Definition ramfs_mknod (k : kernel) (path : list Z) (mode rdev : Z) : option (Z * kernel) :=
  if negb (absolute path) then Some (- EINVAL, k)
  else
    '(parent, name) ← ramfs_lookup_parent k path;
    if parent =? 0 then Some (- ENOENT, k)
    else '(err, _, k) ← vfs_mknod k parent (take (Z.to_nat (DNAME_INLINE_LEN - 1)) name) mode rdev; Some (err, k).

Definition ramfs_symlink (k : kernel) (path target : list Z) : option (Z * kernel) :=
  if negb (absolute path) then Some (- EINVAL, k)
  else
    '(parent, name) ← ramfs_lookup_parent k path;
    if parent =? 0 then Some (- ENOENT, k)
    else
      e ← ramfs_find_child k parent name;
      if negb (e =? 0) then Some (- EEXIST, k)
      else '(err, _, k) ← vfs_symlink k target parent (take (Z.to_nat (DNAME_INLINE_LEN - 1)) name); Some (err, k).

Definition ramfs_unlink (k : kernel) (path : list Z) : option (Z * kernel) :=
  if negb (absolute path) then Some (- EINVAL, k)
  else
    '(parent, name) ← ramfs_lookup_parent k path;
    if parent =? 0 then Some (- ENOENT, k)
    else vfs_unlink k parent 0 (take (Z.to_nat (DNAME_INLINE_LEN - 1)) name).

Definition ramfs_rmdir (k : kernel) (path : list Z) : option (Z * kernel) :=
  if negb (absolute path) then Some (- EINVAL, k)
  else
    '(parent, name) ← ramfs_lookup_parent k path;
    if parent =? 0 then Some (- ENOENT, k)
    else
      child ← ramfs_find_child k parent name;
      if child =? 0 then Some (- ENOENT, k)
      else vfs_rmdir k parent (rd_inode (rdent_at k child)) (take (Z.to_nat (DNAME_INLINE_LEN - 1)) name).

(** ** File contents *)

(** [while (new_cap < need) new_cap <<= 1], on 64 bits. *)
Fixpoint grow_capacity (fuel : nat) (new_cap need : Z) : option Z :=
  match fuel with
  | O => None
  | S fuel' => if new_cap <? need then grow_capacity fuel' (u64 (Z.shiftl new_cap 1)) need else Some new_cap
  end.

Definition ramfs_ensure_capacity (fuel : nat) (k : kernel) (ri need : Z) : option (Z * kernel) :=
  if negb (itype k ri =? S_IFREG) then Some (- EISDIR, k)
  else
    let x := inode_at k ri in
    if need <=? ri_capacity x then Some (0, k)
    else
      new_cap ← grow_capacity fuel (if ri_capacity x =? 0 then PAGE_SIZE else ri_capacity x) need;
      '(new_data, k) ← k_malloc k new_cap;
      if new_data =? 0 then Some (- ENOMEM, k)
      else
        let k := if negb (ri_data x =? 0) && negb (i_size x =? 0) then ramfs_memcpy k new_data (ri_data x) (i_size x) else k in
        k ← (if ri_data x =? 0 then Some k else k_free k (ri_data x));
        Some (0, upd_inode k ri (fun x => set_ri_capacity new_cap (set_ri_data new_data x))).

(** [ramfs_read]: the result and the bytes copied to the buffer. *)
Definition ramfs_read (k : kernel) (i len offset : Z) : Z * list Z :=
  if i =? 0 then (- EINVAL, [])
  else
    let x := inode_at k i in
    if negb (i_type x =? S_IFREG) then (- EISDIR, [])
    else if i_size x <=? offset then (0, [])
    else
      let avail := i_size x - offset in
      let len := if avail <? len then avail else len in
      (s64 len, if ri_data x =? 0 then [] else get_bytes (k_b k) (ri_data x + offset) (Z.to_nat len)).

(** The doubling loop ends within 64 turns if it ends at all. *)
Definition ramfs_write (k : kernel) (i : Z) (buf : list Z) (offset : Z) : option (Z * kernel) :=
  let len := slen buf in
  if i =? 0 then Some (- EINVAL, k)
  else if negb (itype k i =? S_IFREG) then Some (- EISDIR, k)
  else
    let end_ := u64 (offset + len) in
    if end_ <? offset then Some (- EINVAL, k)
    else
      '(err, k) ← ramfs_ensure_capacity 64 k i end_;
      if negb (err =? 0) then Some (err, k)
      else
        let k := set_k_b (put_bytes (k_b k) (ri_data (inode_at k i) + offset) buf) k in
        let k := if i_size (inode_at k i) <? end_ then upd_inode k i (set_i_size end_) else k in
        Some (s64 len, k).

Definition ramfs_truncate (k : kernel) (i size : Z) : Z * kernel :=
  if i =? 0 then (- EINVAL, k)
  else if negb (itype k i =? S_IFREG) then (- EISDIR, k)
  else if ri_capacity (inode_at k i) <? size then (- EINVAL, k)
  else (0, upd_inode k i (set_i_size size)).

Definition ramfs_readlink (k : kernel) (i bufsiz : Z) : Z * list Z :=
  if i =? 0 then (- EFAULT, [])
  else if bufsiz =? 0 then (- EINVAL, [])
  else
    let x := inode_at k i in
    if negb (i_type x =? S_IFLNK) then (- EINVAL, [])
    else
      let len := if bufsiz <? i_size x then bufsiz else i_size x in
      (s64 len, if ri_data x =? 0 then [] else get_bytes (k_b k) (ri_data x) (Z.to_nat len)).

(** [ramfs_file_read] and [ramfs_file_write] at the position [pos]: the last
    result is the new position. *)
Definition ramfs_file_read (k : kernel) (f count pos : Z) : Z * list Z * Z :=
  if (f =? 0) || (f_inode (file_at k f) =? 0) then (- EINVAL, [], pos)
  else
    let '(n, bs) := ramfs_read k (f_inode (file_at k f)) count (u64 pos) in
    (n, bs, if 0 <? n then s64 (pos + n) else pos).

Definition ramfs_file_write (k : kernel) (f : Z) (buf : list Z) (pos : Z) : option (Z * Z * kernel) :=
  if (f =? 0) || (f_inode (file_at k f) =? 0) then Some (- EINVAL, pos, k)
  else
    '(n, k) ← ramfs_write k (f_inode (file_at k f)) buf (u64 pos);
    Some (n, if 0 <? n then s64 (pos + n) else pos, k).

(** ** Reading a directory *)

Definition ramfs_dtype (type : Z) : Z :=
  if type =? S_IFREG then DT_REG
  else if type =? S_IFDIR then DT_DIR
  else if type =? S_IFCHR then DT_CHR
  else if type =? S_IFIFO then DT_FIFO
  else if type =? S_IFLNK then DT_LNK
  else DT_UNKNOWN.

(** The bytes of a value, least significant first. *)
Fixpoint le_bytes (n : nat) (v : Z) : list Z :=
  match n with
  | O => []
  | S n' => u8 v :: le_bytes n' (Z.shiftr v 8)
  end.

(** A [struct linux_dirent64] with its name, padded to [reclen]. *)
Definition dirent (k : kernel) (d pos reclen : Z) : list Z :=
  let ri := rd_inode (rdent_at k d) in
  let l := le_bytes 8 (i_ino (inode_at k ri)) ++ le_bytes 8 (pos + 1) ++ le_bytes 2 reclen ++
           [ramfs_dtype (itype k ri)] ++ rd_name (rdent_at k d) in
  l ++ replicate (Z.to_nat reclen - length l) 0.

Definition DIRENT_NAME : Z := 19.
Definition SIZEOF_DIRENT_BUF : Z := 24 + RAMFS_NAME_MAX + 8.

Definition dirent_reclen (k : kernel) (d : Z) : Z :=
  Z.land (DIRENT_NAME + slen (rd_name (rdent_at k d)) + 1 + 7) (Z.lnot 7).

(** The loop of [ramfs_dir_readdir]: the result, the bytes written to user
    memory and the new position. *)
Fixpoint readdir_loop (fuel : nat) (k : kernel) (d pos index count : Z) (out : list Z) (fpos : Z)
  : option (Z * list Z * Z) :=
  match fuel with
  | O => None
  | S fuel' =>
      if d =? 0 then Some (slen out, out, fpos)
      else if pos <? index then readdir_loop fuel' k (rd_next (rdent_at k d)) (pos + 1) index count out fpos
      else
        let reclen := dirent_reclen k d in
        if SIZEOF_DIRENT_BUF <? reclen then Some (- EINVAL, out, fpos)
        else if count <? slen out + reclen then Some (if slen out =? 0 then - EINVAL else slen out, out, fpos)
        else readdir_loop fuel' k (rd_next (rdent_at k d)) (pos + 1) index count (out ++ dirent k d pos reclen) (pos + 1)
  end.

Definition ramfs_dir_readdir (k : kernel) (f dirp count : Z) : option (Z * kernel) :=
  let i := f_inode (file_at k f) in
  if (f =? 0) || negb (inode_is_dir k i) then Some (- ENOTDIR, k)
  else if dirp =? 0 then Some (- EFAULT, k)
  else if count =? 0 then Some (0, k)
  else
    '(r, out, fpos) ← readdir_loop (dents_fuel k) k (ri_children (inode_at k i)) 0 (f_pos (file_at k f)) count []
      (f_pos (file_at k f));
    Some (r, set_k_u (put_bytes (k_u k) dirp out) (upd_file k f (set_f_pos fpos))).

(** ** Lookup after update *)

Lemma inode_at_upd k i g j : inode_at (upd_inode k i g) j = if decide (i = j) then g (inode_at k i) else inode_at k j.
Proof. unfold inode_at, upd_inode. cbn. destruct (decide (i = j)) as [<-|Hne]; [by rewrite lookup_insert_eq|by rewrite lookup_insert_ne]. Qed.

Lemma inode_at_rdent k d g i : inode_at (upd_rdent k d g) i = inode_at k i.
Proof. done. Qed.

Lemma rdent_at_upd k d g e : rdent_at (upd_rdent k d g) e = if decide (d = e) then g (rdent_at k d) else rdent_at k e.
Proof. unfold rdent_at, upd_rdent. cbn. destruct (decide (d = e)) as [<-|Hne]; [by rewrite lookup_insert_eq|by rewrite lookup_insert_ne]. Qed.
