(* ===== verification/FileTable.v ===== *)
(** * Descriptors ([fs/open.c])

    The descriptor table of a task, the counted [struct file]s that its slots
    point to, and the calls that copy, move and drop descriptors; with them
    [copy_task_files] of [kernel/fork.c] and [exit_files] of [kernel/exit.c].
    A file has as many references as there are slots that hold it, over the
    tables of all tasks; it ends with the last one.

    What ends with a file (an end of a pipe, a reference of an inode) is
    behind an interface, the class [FileEnds]; [OpenFiles] discharges it. *)
From S2P Require Import Prelude Errno PageAlloc Slub ListHead Task Sched Signal Wait Kernel Pipe Path Ramfs.

(** The console, [struct file uart_file] of [drivers/tty/serial.c]: the one
    file that is not an object of the heap. *)
Definition uart_file : Z := 16.
Definition SIZEOF_FILE : Z := 48.

(** [task->files[fd]] and [task->close_on_exec]. *)
Definition upd_k_task (k : kernel) (t : Z) (f : task -> task) : kernel := set_k_s (upd_task (k_s k) t f) k.
Definition task_file (k : kernel) (t fd : Z) : Z := (t_files (task_at (k_s k) t)).[fd].
Definition set_task_file (k : kernel) (t fd f : Z) : kernel := upd_k_task k t (fun x => set_t_files (<[fd := f]> (t_files x)) x).
Definition cloexec (k : kernel) (t fd : Z) : bool := has (t_close_on_exec (task_at (k_s k) t)) (Z.shiftl 1 fd).
Definition set_cloexec (on : bool) (k : kernel) (t fd : Z) : kernel :=
  upd_k_task k t (fun x => set_t_close_on_exec
    (if on then Z.lor (t_close_on_exec x) (Z.shiftl 1 fd) else Z.land (t_close_on_exec x) (u64 (Z.lnot (Z.shiftl 1 fd)))) x).

Definition get_file (k : kernel) (f : Z) : kernel :=
  if f =? 0 then k else upd_file k f (fun x => set_f_refcount (s32 (f_refcount x + 1)) x).

(** [file->f_op->release(file)], where the table has one that does anything:
    [proc_release] does nothing. *)
Definition file_release (k : kernel) (f : Z) : option kernel :=
  match f_op (file_at k f) with
  | pipe_read_ops | pipe_write_ops => pipe_release k f
  | _ => Some k
  end.

(** The end of a file, the second part of [fput]. *)
Definition file_end (k : kernel) (f : Z) : option kernel :=
  k ← file_release k f;
  k ← iput k (f_inode (file_at k f));
  let k := upd_file k f (set_f_inode 0) in
  if f =? uart_file then Some k
  else k ← k_free k f; Some (set_k_files (delete f (k_files k)) k).

Definition fput (k : kernel) (f : Z) : option kernel :=
  if f =? 0 then Some k
  else
    let k := upd_file k f (fun x => set_f_refcount (s32 (f_refcount x - 1)) x) in
    if 0 <? f_refcount (file_at k f) then Some k else file_end k f.

Definition alloc_file (k : kernel) : option (Z * kernel) :=
  '(f, k) ← k_malloc k SIZEOF_FILE;
  if f =? 0 then Some (0, k) else Some (f, set_k_files (<[f := mkFile 1 0 FOP_NULL 0 0 0 0]> (k_files k)) k).

(** The first free slot from [fd] on. *)
Fixpoint install_from (n : nat) (k : kernel) (t f fd : Z) : Z * kernel :=
  match n with
  | O => (- EMFILE, k)
  | S n' =>
      if task_file k t fd =? 0 then (fd, set_cloexec false (set_task_file k t fd f) t fd)
      else install_from n' k t f (fd + 1)
  end.

Definition install_fd (k : kernel) (t f : Z) : Z * kernel := install_from (Z.to_nat NR_OPEN) k t f 0.

Definition install_fd_flags (k : kernel) (t f flags : Z) : Z * kernel :=
  let '(fd, k) := install_fd k t f in
  if fd <? 0 then (fd, k) else (fd, if has flags O_CLOEXEC then set_cloexec true k t fd else k).

Definition install_fd_min (k : kernel) (t f minfd : Z) : Z * kernel :=
  if NR_OPEN <=? minfd then (- EINVAL, k) else install_from (Z.to_nat (NR_OPEN - minfd)) k t f minfd.

(** The loops over the slots [fd], [fd + 1], ... *)
Fixpoint close_cloexec_from (n : nat) (k : kernel) (t fd : Z) : option kernel :=
  match n with
  | O => Some k
  | S n' =>
      if cloexec k t fd then
        let f := task_file k t fd in
        k ← (if f =? 0 then Some k else k ← fput k f; Some (set_task_file k t fd 0));
        close_cloexec_from n' (set_cloexec false k t fd) t (fd + 1)
      else close_cloexec_from n' k t (fd + 1)
  end.

Definition close_on_exec_fds (k : kernel) (t : Z) : option kernel :=
  if t =? 0 then Some k else close_cloexec_from (Z.to_nat NR_OPEN) k t 0.

Fixpoint exit_files_from (n : nat) (k : kernel) (t fd : Z) : option kernel :=
  match n with
  | O => Some k
  | S n' =>
      let f := task_file k t fd in
      k ← (if f =? 0 then Some k else k ← fput k f; Some (set_task_file k t fd 0));
      exit_files_from n' k t (fd + 1)
  end.

Definition exit_files (k : kernel) (t : Z) : option kernel := exit_files_from (Z.to_nat NR_OPEN) k t 0.

Fixpoint copy_files_from (n : nat) (k : kernel) (child parent fd : Z) : kernel :=
  match n with
  | O => k
  | S n' =>
      let k := set_task_file k child fd (task_file k parent fd) in
      copy_files_from n' (get_file k (task_file k child fd)) child parent (fd + 1)
  end.

Definition copy_task_files (k : kernel) (child parent : Z) : kernel :=
  let k := upd_k_task k child (set_t_close_on_exec (t_close_on_exec (task_at (k_s k) parent))) in
  copy_files_from (Z.to_nat NR_OPEN) k child parent 0.

Definition close_fd (k : kernel) (t fd : Z) : option (Z * kernel) :=
  if NR_OPEN <=? fd then Some (- EBADF, k)
  else
    let f := task_file k t fd in
    if f =? 0 then Some (- EBADF, k)
    else k ← fput (set_task_file k t fd 0) f; Some (0, k).

Definition ksys_close (k : kernel) (fd : Z) : option (Z * kernel) :=
  if current k =? 0 then Some (- EBADF, k) else close_fd k (current k) fd.

(** A new reference to [f] goes to the slot that [install] finds. *)
Definition install_copy (install : kernel -> Z * kernel) (k : kernel) (f : Z) : option (Z * kernel) :=
  let '(fd, k) := install (get_file k f) in
  if fd <? 0 then k ← fput k f; Some (fd, k) else Some (fd, k).

Definition ksys_dup (k : kernel) (oldfd : Z) : option (Z * kernel) :=
  if (current k =? 0) || (NR_OPEN <=? oldfd) then Some (- EBADF, k)
  else
    let f := task_file k (current k) oldfd in
    if f =? 0 then Some (- EBADF, k) else install_copy (fun k' => install_fd k' (current k) f) k f.

Definition ksys_dup3 (k : kernel) (oldfd newfd flags : Z) : option (Z * kernel) :=
  if has flags (u32 (Z.lnot O_CLOEXEC)) then Some (- EINVAL, k)
  else if oldfd =? newfd then Some (- EINVAL, k)
  else if (current k =? 0) || (NR_OPEN <=? oldfd) || (NR_OPEN <=? newfd) then Some (- EBADF, k)
  else
    let t := current k in
    let f := task_file k t oldfd in
    if f =? 0 then Some (- EBADF, k)
    else
      let k := get_file k f in
      let old_new := task_file k t newfd in
      let k := set_task_file k t newfd f in
      k ← (if old_new =? 0 then Some k else fput k old_new);
      Some (newfd, set_cloexec (has flags O_CLOEXEC) k t newfd).

Definition ksys_dup2 (k : kernel) (oldfd newfd : Z) : option (Z * kernel) :=
  if oldfd =? newfd then
    if (current k =? 0) || (NR_OPEN <=? oldfd) || (task_file k (current k) oldfd =? 0) then Some (- EBADF, k)
    else Some (newfd, k)
  else ksys_dup3 k oldfd newfd 0.

Definition O_SETTABLE : Z := Z.lor (Z.lor O_APPEND O_NONBLOCK) O_ASYNC.

Definition ksys_fcntl (k : kernel) (fd cmd arg : Z) : option (Z * kernel) :=
  if (current k =? 0) || (NR_OPEN <=? fd) then Some (- EBADF, k)
  else
    let t := current k in
    let f := task_file k t fd in
    if f =? 0 then Some (- EBADF, k)
    else if (cmd =? F_DUPFD) || (cmd =? F_DUPFD_CLOEXEC) then
      let minfd := u32 arg in
      if (s32 minfd <? 0) || (NR_OPEN <=? minfd) then Some (- EINVAL, k)
      else
        '(newfd, k) ← install_copy (fun k' => install_fd_min k' t f minfd) k f;
        if newfd <? 0 then Some (newfd, k) else Some (newfd, set_cloexec (cmd =? F_DUPFD_CLOEXEC) k t newfd)
    else if cmd =? F_GETFD then Some (if cloexec k t fd then FD_CLOEXEC else 0, k)
    else if cmd =? F_SETFD then
      if has arg (u64 (Z.lnot FD_CLOEXEC)) then Some (- EINVAL, k) else Some (0, set_cloexec (has arg FD_CLOEXEC) k t fd)
    else if cmd =? F_GETFL then Some (f_flags (file_at k f), k)
    else if cmd =? F_SETFL then
      Some (0, upd_file k f (fun x => set_f_flags (Z.lor (Z.land (f_flags x) (Z.lnot O_SETTABLE)) (s32 (Z.land arg O_SETTABLE))) x))
    else Some (- EINVAL, k).

(** ** Counting slots *)

(** The tables of all tasks. *)
Definition tables (k : kernel) : gmap Z (gmap Z Z) := t_files <$> tasks (k_s k).

(** How many slots of a table, of all tables, hold [f]. *)
Definition fds (m : gmap Z Z) (f : Z) : Z := Z.of_nat (length (filter (fun fd => m.[fd] = f) (seqZ 0 NR_OPEN))).
Definition slots (M : gmap Z (gmap Z Z)) (f : Z) : Z := msum (fun m => fds m f) M.

Definition is_fd (fd : Z) : Prop := 0 <= fd < NR_OPEN.

Lemma filter_slot (m : gmap Z Z) (fd g f : Z) (l : list Z) :
  NoDup l ->
  Z.of_nat (length (filter (fun i => (<[fd := g]> m).[i] = f) l)) =
  Z.of_nat (length (filter (fun i => m.[i] = f) l)) + (if decide (fd ∈ l) then one (g = f) - one (m.[fd] = f) else 0).
Proof.
  induction l as [|i l IH]; intros Hnd; [by rewrite decide_False by apply not_elem_of_nil|]. apply NoDup_cons in Hnd as [Hi Hnd].
  specialize (IH Hnd). rewrite !filter_cons. destruct (decide (fd = i)) as [->|Hne].
  - rewrite arr_get_insert. rewrite decide_False in IH by done. rewrite (decide_True (P := i ∈ i :: l)) by apply list_elem_of_here.
    unfold one in *. repeat case_decide; cbn [length]; lia.
  - rewrite arr_get_insert_ne by done. assert (Hiff : fd ∈ i :: l <-> fd ∈ l) by (rewrite elem_of_cons; naive_solver).
    rewrite (decide_ext _ _ _ _ Hiff). destruct (decide (m.[i] = f)); cbn [length]; lia.
Qed.

Lemma fds_set m fd g f : is_fd fd -> fds (<[fd := g]> m) f = fds m f - one (m.[fd] = f) + one (g = f).
Proof.
  intros Hfd. unfold fds. rewrite filter_slot by apply NoDup_seqZ. rewrite decide_True; [lia|]. apply elem_of_seqZ. unfold is_fd in Hfd. lia.
Qed.

Lemma fds_range m f : 0 <= fds m f <= NR_OPEN.
Proof.
  unfold fds. assert (H := length_filter (fun fd => m.[fd] = f) (seqZ 0 NR_OPEN)). rewrite length_seqZ in H. unfold NR_OPEN in *. lia.
Qed.

Lemma fds_pos m fd f : is_fd fd -> m.[fd] = f -> 0 < fds m f.
Proof.
  intros Hfd Hf. unfold fds. assert (Hin : fd ∈ filter (fun i => m.[i] = f) (seqZ 0 NR_OPEN)).
  { apply list_elem_of_filter. split; [done|]. apply elem_of_seqZ. unfold is_fd in Hfd. lia. }
  destruct (filter _ _); [by apply not_elem_of_nil in Hin|cbn; lia].
Qed.

Lemma slots_set M t m fd g f : M !! t = Some m -> is_fd fd -> slots (<[t := <[fd := g]> m]> M) f = slots M f - one (m.[fd] = f) + one (g = f).
Proof. intros Ht Hfd. unfold slots. rewrite (msum_update _ M t m) by done. rewrite fds_set by done. lia. Qed.

Lemma slots_range M f : 0 <= slots M f <= NR_OPEN * Z.of_nat (size M).
Proof. apply msum_bound. intros t m _. apply fds_range. Qed.

Lemma slots_pos M t m fd f : M !! t = Some m -> is_fd fd -> m.[fd] = f -> 0 < slots M f.
Proof.
  intros Ht Hfd Hf. assert (H1 := fds_pos m fd f Hfd Hf). assert (H2 := msum_elem (fun m => fds m f) M t m). unfold slots.
  specialize (H2 ltac:(intros; apply fds_range) Ht). cbn in H2. lia.
Qed.

(** ** References and slots *)

(** What the end of a file looks at: all but the references, the tables and
    the flags that a program may change. *)
Definition unfiled (x : task) : task := set_t_files ∅ (set_t_close_on_exec 0 x).
Definition file_key (x : file) : file := set_f_refcount 0 (set_f_pos 0 (set_f_flags (Z.land (f_flags x) O_ACCMODE) x)).
Definition bare (k : kernel) : kernel :=
  set_k_s (set_tasks (unfiled <$> tasks (k_s k)) (k_s k)) (set_k_files (file_key <$> k_files k) k).

(** The promise of the parts below: in a state [G] a file can be ended.  The
    tables and the other files stay as they are. *)
Class FileEnds (G : kernel -> Prop) : Prop := {
  ends_current k : G k -> current k <> 0 /\ is_Some (tasks (k_s k) !! current k);
  ends_frame k k' : bare k = bare k' -> G k -> G k';
  ends_close k f x :
    G k -> k_files k !! f = Some x ->
    exists k', file_end k f = Some k' /\ G k' /\ stays (k_s k) (k_s k') /\
      k_files k' = (if decide (f = uart_file) then <[f := set_f_inode 0 x]> (k_files k) else delete f (k_files k))
}.

Definition refcount_of (k : kernel) (f : Z) : Z := from_option f_refcount 0 (k_files k !! f).

(** Every file has a reference for each slot that holds it; [X] are the
    references that a call in progress holds. *)
Record table_inv (k : kernel) (X : Z -> Z) : Prop := {
  ti_count : forall f, f <> 0 -> refcount_of k f = slots (tables k) f + X f;
  ti_live : forall f x, k_files k !! f = Some x -> f <> 0 /\ (f = uart_file \/ 0 < f_refcount x);
  ti_room : NR_OPEN * Z.of_nat (size (tables k)) + 1 < 2 ^ 31
}.

Lemma table_inv_ext k X X' : (forall f, f <> 0 -> X f = X' f) -> table_inv k X -> table_inv k X'.
Proof. intros HX [H1 H2 H3]. split; try done. intros f Hf. rewrite <- HX by done. by apply H1. Qed.

Lemma stays_tables k k' : stays (k_s k) (k_s k') -> tables k' = tables k.
Proof.
  intros [Hd Hc]. apply map_eq. intros t. unfold tables. rewrite !lookup_fmap. specialize (Hd t). specialize (Hc t). unfold task_at in Hc.
  destruct (tasks (k_s k) !! t) as [x|], (tasks (k_s k') !! t) as [x'|]; cbn in *.
  - f_equal. exact (f_equal t_files Hc).
  - by destruct (proj2 Hd ltac:(eauto)).
  - by destruct (proj1 Hd ltac:(eauto)).
  - done.
Qed.

Lemma task_table k t : is_Some (tasks (k_s k) !! t) -> tables k !! t = Some (t_files (task_at (k_s k) t)).
Proof. intros [x Hx]. unfold tables, task_at. by rewrite lookup_fmap, Hx. Qed.

Lemma upd_k_task_tables k t g m : tables k !! t = Some m -> tables (upd_k_task k t g) = <[t := t_files (g (task_at (k_s k) t))]> (tables k).
Proof. intros _. unfold tables, upd_k_task. cbn. by rewrite fmap_insert. Qed.

Lemma set_task_file_tables k t fd f m : tables k !! t = Some m -> tables (set_task_file k t fd f) = <[t := <[fd := f]> m]> (tables k).
Proof.
  intros Hm. unfold set_task_file. rewrite (upd_k_task_tables k t _ m Hm). cbn. f_equal. f_equal. unfold tables in Hm. rewrite lookup_fmap in Hm. unfold task_at.
  destruct (tasks (k_s k) !! t) as [x|] eqn:E; [|done]. cbn in *. congruence.
Qed.

Lemma set_cloexec_tables b k t fd m : tables k !! t = Some m -> tables (set_cloexec b k t fd) = tables k.
Proof.
  intros Hm. unfold set_cloexec. rewrite (upd_k_task_tables k t _ m Hm). cbn. unfold task_at. unfold tables in *. rewrite lookup_fmap in Hm.
  destruct (tasks (k_s k) !! t) as [x|] eqn:E; [|done]. cbn in *. apply insert_id. by rewrite lookup_fmap, E.
Qed.

Lemma bare_task k t g : is_Some (tasks (k_s k) !! t) -> (forall x, unfiled (g x) = unfiled x) -> bare (upd_k_task k t g) = bare k.
Proof.
  intros [x Hx] Hg. unfold bare, upd_k_task, upd_task. unfold task_at. rewrite Hx. cbn. rewrite fmap_insert, Hg.
  rewrite (insert_id (unfiled <$> tasks (k_s k)) t (unfiled x)); [done|]. by rewrite lookup_fmap, Hx.
Qed.

Lemma bare_file k f g : is_Some (k_files k !! f) -> (forall x, file_key (g x) = file_key x) -> bare (upd_file k f g) = bare k.
Proof.
  intros [x Hx] Hg. unfold bare, upd_file, file_at. rewrite Hx. cbn. rewrite fmap_insert, Hg.
  rewrite (insert_id (file_key <$> k_files k) f (file_key x)); [done|]. by rewrite lookup_fmap, Hx.
Qed.

(** ** What a task sees *)

Definition has_task (k : kernel) (t : Z) : Prop := is_Some (tasks (k_s k) !! t).

(** A descriptor: the file and whether it is closed on exec. *)
Definition desc (k : kernel) (t fd : Z) : option (Z * bool) :=
  if task_file k t fd =? 0 then None else Some (task_file k t fd, cloexec k t fd).

Definition put (V : Z -> Z -> option (Z * bool)) (t fd : Z) (d : option (Z * bool)) : Z -> Z -> option (Z * bool) :=
  fun u i => if decide (u = t /\ i = fd) then d else V u i.

Definition flags_kept (k k' : kernel) : Prop :=
  forall g x', k_files k' !! g = Some x' -> exists x, k_files k !! g = Some x /\ f_flags x' = f_flags x.

(** The descriptors of [k'] are [V]; tasks and the flags of files stay. *)
Record change (k k' : kernel) (V : Z -> Z -> option (Z * bool)) : Prop := {
  ch_tasks : forall t, has_task k' t <-> has_task k t;
  ch_desc : forall t i, is_fd i -> desc k' t i = V t i;
  ch_flags : flags_kept k k'
}.

Lemma change_refl k : change k k (desc k).
Proof. split; try done. intros g x Hx. by exists x. Qed.

Lemma change_trans k k1 k2 V1 V2 V :
  change k k1 V1 -> change k1 k2 V2 -> (forall t i, is_fd i -> V2 t i = V t i) -> change k k2 V.
Proof.
  intros [H1 _ F1] [H2 D2 F2] HV. split.
  - intros t. by rewrite H2.
  - intros t i Hi. rewrite D2 by done. by apply HV.
  - intros g x' Hx'. destruct (F2 g x' Hx') as (x1 & Hx1 & ->). by apply F1.
Qed.

Lemma cloexec_bit k t fd : 0 <= fd -> cloexec k t fd = Z.testbit (t_close_on_exec (task_at (k_s k) t)) fd.
Proof. intros Hfd. unfold cloexec. rewrite <- has_bit by done. by rewrite Z.shiftl_mul_pow2, Z.mul_1_l by done. Qed.

Lemma has_task_upd k t g u : has_task k t -> has_task (upd_k_task k t g) u <-> has_task k u.
Proof. intros Ht. unfold has_task, upd_k_task. cbn. rewrite lookup_insert_is_Some. destruct (decide (t = u)) as [<-|]; tauto. Qed.

Lemma task_at_k k t g u : task_at (k_s (upd_k_task k t g)) u = if decide (t = u) then g (task_at (k_s k) t) else task_at (k_s k) u.
Proof. unfold upd_k_task. cbn. case_decide; [subst; apply task_at_upd|by apply task_at_upd_ne]. Qed.

Lemma change_slot k t fd f : has_task k t -> is_fd fd ->
  change k (set_task_file k t fd f) (put (desc k) t fd (if f =? 0 then None else Some (f, cloexec k t fd))).
Proof.
  intros Ht Hfd. split; [intros u; by apply has_task_upd| |intros g x Hx; by exists x]. intros u i Hi. unfold put, desc, task_file, cloexec, set_task_file.
  rewrite !task_at_k. destruct (decide (t = u)) as [<-|Hne]; cbn.
  - rewrite arr_get_insert_case. destruct (decide (fd = i)) as [<-|]; [by rewrite decide_True by done|by rewrite decide_False by (intros [? ?]; congruence)].
  - by rewrite decide_False by (intros [? ?]; congruence).
Qed.

Lemma change_cloexec b k t fd : has_task k t -> is_fd fd ->
  change k (set_cloexec b k t fd) (put (desc k) t fd ((fun x => (fst x, b)) <$> desc k t fd)).
Proof.
  intros Ht Hfd. split; [intros u; by apply has_task_upd| |intros g x Hx; by exists x]. intros u i Hi. unfold put, desc.
  rewrite !cloexec_bit by (unfold is_fd in *; lia). unfold task_file, set_cloexec. rewrite !task_at_k. destruct (decide (t = u)) as [<-|Hne]; cbn.
  2:{ by rewrite decide_False by (intros [? ?]; congruence). }
  unfold is_fd, NR_OPEN in *. assert (Eb : forall c, Z.testbit (if b then Z.lor c (Z.shiftl 1 fd) else Z.land c (u64 (Z.lnot (Z.shiftl 1 fd)))) i =
    if decide (i = fd) then b else Z.testbit c i).
  { intros c. destruct b; [rewrite Z.lor_spec|rewrite Z.land_spec; unfold wrapu; rewrite Z.mod_pow2_bits_low, Z.lnot_spec by lia].
    all: rewrite Z.shiftl_1_l; case_decide as D; [subst; rewrite Z.pow2_bits_true by lia|rewrite Z.pow2_bits_false by lia].
    all: by rewrite ?orb_true_r, ?orb_false_r, ?andb_true_r, ?andb_false_r. }
  rewrite Eb. destruct (decide (i = fd)) as [->|]; [rewrite (decide_True (P := t = t /\ fd = fd)) by done|by rewrite decide_False by (intros [? ?]; congruence)]. by destruct (_ =? 0).
Qed.

Lemma change_stays k k' : stays (k_s k) (k_s k') -> flags_kept k k' -> change k k' (desc k).
Proof.
  intros [Hd Hc] HF. split; [exact Hd| |done]. intros t i _. unfold desc, task_file, cloexec. specialize (Hc t).
  by rewrite (f_equal t_files Hc : t_files (task_at (k_s k') t) = _), (f_equal t_close_on_exec Hc : t_close_on_exec (task_at (k_s k') t) = _).
Qed.

Lemma desc_none k t fd : desc k t fd = None <-> task_file k t fd = 0.
Proof. unfold desc. destruct (Z.eqb_spec (task_file k t fd) 0); split; congruence. Qed.

Lemma desc_some k t fd f b : desc k t fd = Some (f, b) <-> f <> 0 /\ task_file k t fd = f /\ cloexec k t fd = b.
Proof. unfold desc. destruct (Z.eqb_spec (task_file k t fd) 0); split; [congruence|intros (? & <- & _); done|intros [= <- <-]; done|by intros (_ & <- & <-)]. Qed.

Section Counting.
Context (G : kernel -> Prop) `{HG : FileEnds G}.
Implicit Types (k : kernel) (X : Z -> Z).

Definition plus (X : Z -> Z) (f : Z) : Z -> Z := fun g => X g + one (f = g).
Definition minus (X : Z -> Z) (f : Z) : Z -> Z := fun g => X g - one (f = g).

(** The state of a call: [X] are references that it holds. *)
Definition counted k X : Prop := G k /\ table_inv k X.

Lemma set_slot k X t fd f :
  counted k X -> has_task k t -> is_fd fd ->
  counted (set_task_file k t fd f) (minus (plus X (task_file k t fd)) f) /\
  change k (set_task_file k t fd f) (put (desc k) t fd (if f =? 0 then None else Some (f, cloexec k t fd))).
Proof using HG.
  intros [HGk [H1 H2 H3]] Hs Hfd. split; [|by apply change_slot]. assert (Hm := task_table k t Hs).
  assert (Ht := set_task_file_tables k t fd f _ Hm). split.
  - apply (ends_frame k); [|done]. symmetry. by apply bare_task.
  - split; [|done|].
    + intros g Hg. change (refcount_of (set_task_file k t fd f) g) with (refcount_of k g). rewrite Ht, (slots_set _ t _) by done. rewrite (H1 g Hg).
      unfold plus, minus, task_file. lia.
    + rewrite Ht. rewrite map_size_insert_Some by eauto. done.
Qed.

Lemma set_cloexec_counted b k X t fd :
  counted k X -> has_task k t -> is_fd fd ->
  counted (set_cloexec b k t fd) X /\ change k (set_cloexec b k t fd) (put (desc k) t fd ((fun x => (fst x, b)) <$> desc k t fd)).
Proof using HG.
  intros [HGk [H1 H2 H3]] Hs Hfd. split; [|by apply change_cloexec]. assert (Ht := set_cloexec_tables b k t fd _ (task_table k t Hs)). split.
  - apply (ends_frame k); [|done]. symmetry. by apply bare_task.
  - split; rewrite ?Ht; done.
Qed.

Lemma counted_count k X f x : counted k X -> k_files k !! f = Some x -> f_refcount x = slots (tables k) f + X f.
Proof using. intros [_ [H1 H2 _]] Hx. destruct (H2 f x Hx) as [Hf _]. specialize (H1 f Hf). unfold refcount_of in H1. by rewrite Hx in H1. Qed.

Lemma counted_live k X f : counted k X -> f <> 0 -> 0 < slots (tables k) f + X f -> is_Some (k_files k !! f).
Proof using. intros [_ [H1 _ _]] Hf Hp. specialize (H1 f Hf). unfold refcount_of in H1. destruct (k_files k !! f); [eauto|cbn in H1; lia]. Qed.

Lemma slot_live k t fd : has_task k t -> is_fd fd -> task_file k t fd <> 0 -> 0 < slots (tables k) (task_file k t fd).
Proof using. intros Ht Hfd _. exact (slots_pos (tables k) t _ fd _ (task_table k t Ht) Hfd eq_refl). Qed.

Lemma refcount_update k X f x n k1 :
  table_inv k X -> k_files k !! f = Some x -> k_files k1 = <[f := set_f_refcount n x]> (k_files k) -> tables k1 = tables k ->
  f = uart_file \/ 0 < n -> table_inv k1 (fun g => X g + if decide (f = g) then n - f_refcount x else 0).
Proof using.
  intros [H1 H2 H3] Hx Ek Et Hn. destruct (H2 f x Hx) as [Hf _]. split; [| |by rewrite Et].
  - intros g Hg. unfold refcount_of. rewrite Ek, Et. specialize (H1 g Hg). unfold refcount_of in H1. destruct (decide (f = g)) as [<-|Hne].
    + rewrite lookup_insert_eq. rewrite Hx in H1. cbn in *. lia.
    + rewrite lookup_insert_ne by done. lia.
  - intros g y. rewrite Ek. destruct (decide (f = g)) as [<-|Hne].
    + rewrite lookup_insert_eq. by intros [= <-].
    + rewrite lookup_insert_ne by done. apply H2.
Qed.

Lemma get_file_counted k X f :
  counted k X -> f <> 0 -> 0 < slots (tables k) f + X f -> X f <= 0 -> counted (get_file k f) (plus X f) /\ change k (get_file k f) (desc k) /\ tables (get_file k f) = tables k.
Proof using HG.
  intros HC Hf Hp HX. destruct (counted_live k X f HC Hf Hp) as [x Hx]. assert (Hc := counted_count k X f x HC Hx). destruct HC as [HGk HT].
  unfold get_file. rewrite (proj2 (Z.eqb_neq _ _) Hf). split; [|split; [|done]].
  2:{ apply change_stays; [done|]. intros g z. cbn. unfold file_at. rewrite Hx. cbn. intros [[<- <-]|[_ Hz]]%lookup_insert_Some; eauto. }
  assert (Hr := slots_range (tables k) f). assert (Hrm := ti_room _ _ HT).
  assert (Es : s32 (f_refcount x + 1) = f_refcount x + 1) by (apply wraps_id; lia). split.
  - apply (ends_frame k); [|done]. symmetry. apply bare_file; [by eexists|done].
  - eapply table_inv_ext; [|apply (refcount_update k X f x (f_refcount x + 1) _ HT Hx); [|done|right; lia]].
    + intros g _. unfold plus, one. case_decide; lia.
    + unfold upd_file, file_at. rewrite Hx. cbn. by rewrite Es.
Qed.

(** A reference is dropped; with the last one the file ends. *)
Lemma fput_counted k X f :
  counted k X -> f <> 0 -> 0 < slots (tables k) f + X f -> X f <= 1 ->
  exists k', fput k f = Some k' /\ counted k' (minus X f) /\ change k k' (desc k) /\ tables k' = tables k.
Proof using HG.
  intros HC Hf Hp HX. destruct (counted_live k X f HC Hf Hp) as [x Hx]. assert (Hc := counted_count k X f x HC Hx). destruct HC as [HGk HT].
  unfold fput. rewrite (proj2 (Z.eqb_neq _ _) Hf). assert (Hr := slots_range (tables k) f). assert (Hrm := ti_room _ _ HT). set (k1 := upd_file k f _).
  assert (Es : s32 (f_refcount x - 1) = f_refcount x - 1) by (apply wraps_id; lia).
  assert (Ek : k_files k1 = <[f := set_f_refcount (f_refcount x - 1) x]> (k_files k)) by (unfold k1, upd_file, file_at; rewrite Hx; cbn; by rewrite Es).
  assert (HG1 : G k1) by (apply (ends_frame k); [symmetry; apply bare_file; [by eexists|done]|done]).
  assert (Er : f_refcount (file_at k1 f) = f_refcount x - 1) by (unfold file_at; by rewrite Ek, lookup_insert_eq). rewrite Er.
  assert (Hm : forall g, X g + (if decide (f = g) then f_refcount x - 1 - f_refcount x else 0) = minus X f g).
  { intros g. unfold minus, one. case_decide; lia. }
  destruct (Z.ltb_spec 0 (f_refcount x - 1)) as [Hl|Hl].
  - exists k1. split; [done|]. split; [|split; [|done]].
    2:{ apply change_stays; [done|]. intros g z. rewrite Ek. intros [[<- <-]|[_ Hz]]%lookup_insert_Some; eauto. }
    split; [done|].
    eapply table_inv_ext; [intros g _; apply Hm|]. apply (refcount_update k X f x _ k1 HT Hx Ek); [done|by right].
  - destruct (ends_close k1 f (set_f_refcount (f_refcount x - 1) x) HG1) as (k' & E & HG' & Hst & Ef); [by rewrite Ek, lookup_insert_eq|].
    assert (Ht : tables k' = tables k) by exact (stays_tables k1 k' Hst). assert (E1 : f_refcount x = 1) by lia.
    exists k'. split; [done|]. split; [split; [done|]|split; [|exact Ht]].
    2:{ apply change_stays; [exact Hst|]. intros g z. rewrite Ef, Ek. case_decide.
        - rewrite insert_insert_eq. intros [[<- <-]|[_ Hz]]%lookup_insert_Some; eauto.
        - rewrite delete_insert_eq. intros [_ Hz]%lookup_delete_Some. eauto. }
    destruct HT as [H1 H2 H3]. split; [| |by rewrite Ht].
    + intros g Hg. rewrite Ht, <- (Hm g). unfold refcount_of. rewrite Ef. specialize (H1 g Hg). unfold refcount_of in H1. destruct (decide (f = g)) as [<-|Hne].
      * rewrite Hx in H1. cbn in H1. case_decide; [rewrite lookup_insert_eq; cbn; lia|rewrite lookup_delete_eq; cbn; lia].
      * case_decide; [rewrite lookup_insert_ne by done|rewrite lookup_delete_ne by done]; rewrite Ek, lookup_insert_ne by done; lia.
    + intros g y. rewrite Ef, Ek. case_decide as D.
      * rewrite insert_insert_eq. destruct (decide (f = g)) as [<-|Hne]; [intros _; split; [done|by left]|]. rewrite lookup_insert_ne by done. apply H2.
      * rewrite delete_insert_eq. intros [_ Hy]%lookup_delete_Some. by apply H2 in Hy.
Qed.

(** Between calls no reference is held outside the tables. *)
Definition nothing (f : Z) : Z := 0.
Definition steady k : Prop := counted k nothing.

Lemma counted_ext k X X' : (forall f, f <> 0 -> X f = X' f) -> counted k X -> counted k X'.
Proof using. intros HX [HGk HT]. split; [done|]. by eapply table_inv_ext. Qed.

(** Removing the reference of nothing, adding and removing the same one. *)
Ltac refs := let g := fresh "g" in let Hg := fresh "Hg" in
  intros g Hg; unfold minus, plus, nothing, one; repeat (case_decide; try congruence); lia.

(** A slot that holds a file is found live. *)
Lemma held_file k X t fd f b : counted k X -> has_task k t -> is_fd fd -> desc k t fd = Some (f, b) ->
  f <> 0 /\ task_file k t fd = f /\ 0 < slots (tables k) f.
Proof using. intros _ Ht Hfd (Hf & E & _)%desc_some. splits; [done..|]. subst f. by apply slot_live. Qed.

Lemma put_same V t fd u i : put V t fd (V t fd) u i = V u i.
Proof using. unfold put. case_decide as E; [by destruct E as [-> ->]|done]. Qed.

Lemma put_put V t fd d d' u i : put (put V t fd d) t fd d' u i = put V t fd d' u i.
Proof using. unfold put. by case_decide. Qed.

Lemma put_at V t fd d : put V t fd d t fd = d.
Proof using. unfold put. by rewrite decide_True. Qed.

Lemma put_ext V V' t fd d d' u i : V u i = V' u i -> d = d' -> put V t fd d u i = put V' t fd d' u i.
Proof using. intros E ->. unfold put. by rewrite E. Qed.

(** The search for a free slot. *)
Lemma install_spec n : forall k X t f fd,
  counted k X -> has_task k t -> 0 <= fd -> fd + Z.of_nat n = NR_OPEN -> f <> 0 ->
  (install_from n k t f fd = (- EMFILE, k) /\ forall i, fd <= i < NR_OPEN -> desc k t i <> None) \/
  exists fd' k', install_from n k t f fd = (fd', k') /\ fd <= fd' < NR_OPEN /\ desc k t fd' = None /\ (forall i, fd <= i < fd' -> desc k t i <> None) /\
    counted k' (minus X f) /\ change k k' (put (desc k) t fd' (Some (f, false))).
Proof using HG.
  induction n as [|n IH]; intros k X t f fd HC Ht Hfd Hn Hf; cbn [install_from].
  - left. split; [done|]. intros i Hi. lia.
  - destruct (Z.eqb_spec (task_file k t fd) 0) as [E|E].
    + right. assert (Hr : is_fd fd) by (unfold is_fd; lia). destruct (set_slot k X t fd f HC Ht Hr) as [HC1 Hc1]. rewrite (proj2 (Z.eqb_neq _ _) Hf) in Hc1.
      assert (Ht1 := proj2 (ch_tasks _ _ _ Hc1 t) Ht). destruct (set_cloexec_counted false _ _ t fd HC1 Ht1 Hr) as [HC2 Hc2].
      eexists fd, _. split; [done|]. split; [lia|]. split; [by apply desc_none|]. split; [intros i Hi; lia|]. split.
      * eapply counted_ext; [|exact HC2]. rewrite E. refs.
      * eapply change_trans; [exact Hc1|exact Hc2|]. intros u i Hi. rewrite (ch_desc _ _ _ Hc1 t fd Hr), put_at. cbn.
        rewrite <- (put_put (desc k) t fd (Some (f, cloexec k t fd))). apply put_ext; [by apply Hc1|done].
    + assert (Hd : desc k t fd <> None) by (by rewrite desc_none).
      destruct (IH k X t f (fd + 1) HC Ht ltac:(lia) ltac:(lia) Hf) as [[E1 Hall]|(fd' & k' & E1 & Hr & Hz & Hall & HC' & Hc)].
      * left. split; [done|]. intros i Hi. destruct (decide (i = fd)) as [->|]; [done|]. apply Hall. lia.
      * right. exists fd', k'. splits; try done; [lia..|]. intros i Hi. destruct (decide (i = fd)) as [->|]; [done|]. apply Hall. lia.
Qed.

(** A copy of a file at the first free slot from [lo] on. *)
Lemma install_copy_spec k t f lo n :
  steady k -> has_task k t -> f <> 0 -> 0 < slots (tables k) f -> 0 <= lo -> lo + Z.of_nat n = NR_OPEN ->
  exists r k', install_copy (fun k' => install_from n k' t f lo) k f = Some (r, k') /\ steady k' /\
    ((r = - EMFILE /\ change k k' (desc k) /\ forall i, lo <= i < NR_OPEN -> desc k t i <> None) \/
     (lo <= r < NR_OPEN /\ desc k t r = None /\ (forall i, lo <= i < r -> desc k t i <> None) /\ change k k' (put (desc k) t r (Some (f, false))))).
Proof using HG.
  intros HS Ht Hf Hp Hlo Hn. unfold install_copy.
  destruct (get_file_counted k nothing f HS Hf) as (HC1 & Hc1 & Et1); [unfold nothing; lia|done|]. assert (Ht1 := proj2 (ch_tasks _ _ _ Hc1 t) Ht).
  assert (Hd : forall i, desc (get_file k f) t i = desc k t i) by (intros i; unfold get_file; by destruct (f =? 0)).
  destruct (install_spec n _ _ t f lo HC1 Ht1 Hlo Hn Hf) as [[-> Hall]|(fd' & k' & -> & Hr & Hz & Hall & HC' & Hc')].
  - change (- EMFILE <? 0) with true. cbn iota. destruct (fput_counted _ _ f HC1 Hf) as (k' & -> & HC' & Hc' & _).
    { rewrite Et1. unfold plus, nothing, one in *. rewrite decide_True by done. lia. }
    { unfold plus, nothing. apply one_range. }
    cbn [mbind option_bind]. exists (- EMFILE), k'. split; [done|]. split; [|left; split; [done|split]].
    + eapply counted_ext; [|exact HC']. refs.
    + eapply change_trans; [exact Hc1|exact Hc'|]. apply Hc1.
    + intros i Hi. rewrite <- Hd. by apply Hall.
  - rewrite (proj2 (Z.ltb_ge _ _)) by lia. exists fd', k'. split; [done|]. split; [|right].
    + eapply counted_ext; [|exact HC']. refs.
    + split; [done|]. split; [by rewrite <- Hd|]. split; [intros i Hi; rewrite <- Hd; by apply Hall|]. eapply change_trans; [exact Hc1|exact Hc'|].
      intros u i Hi. apply put_ext; [by apply Hc1|done].
Qed.

Lemma close_fd_spec k t fd :
  steady k -> has_task k t -> 0 <= fd ->
  exists r k', close_fd k t fd = Some (r, k') /\ steady k' /\
    if decide (fd < NR_OPEN /\ desc k t fd <> None) then r = 0 /\ change k k' (put (desc k) t fd None) else r = - EBADF /\ k' = k.
Proof using HG.
  intros HS Ht Hfd. unfold close_fd. destruct (Z.leb_spec NR_OPEN fd) as [Hl|Hl]; [exists (- EBADF), k; rewrite decide_False by lia; by splits|].
  destruct (Z.eqb_spec (task_file k t fd) 0) as [E|E].
  { exists (- EBADF), k. rewrite decide_False by (intros [_ H]; by apply H, desc_none). by splits. }
  assert (Hr : is_fd fd) by (unfold is_fd; lia). destruct (set_slot k nothing t fd 0 HS Ht Hr) as [HC1 Hc1].
  set (f := task_file k t fd) in *. assert (Hp : 0 < slots (tables k) f) by (by apply slot_live).
  destruct (fput_counted _ _ f HC1 E) as (k' & -> & HC' & Hc' & _).
  { rewrite (set_task_file_tables k t fd 0 _ (task_table k t Ht)), (slots_set _ t _) by (done || by apply task_table). fold (task_file k t fd) f.
    unfold minus, plus, nothing in *. assert (H1 := one_range (0 = f)). lia. }
  { unfold minus, plus, nothing. assert (H1 := one_range (f = f)). assert (H2 := one_range (0 = f)). lia. }
  cbn [mbind option_bind]. exists 0, k'. rewrite decide_True by (split; [done|by rewrite desc_none]). split; [done|]. split; [|split; [done|]].
  - eapply counted_ext; [|exact HC']. refs.
  - eapply change_trans; [exact Hc1|exact Hc'|]. apply Hc1.
Qed.

(** A slot is dropped the other way round: the reference first. *)
Lemma drop_slot k t fd :
  steady k -> has_task k t -> is_fd fd ->
  exists k', (if task_file k t fd =? 0 then Some k else k1 ← fput k (task_file k t fd); Some (set_task_file k1 t fd 0)) = Some k' /\ steady k' /\
    change k k' (put (desc k) t fd None).
Proof using HG.
  intros HS Ht Hfd. destruct (Z.eqb_spec (task_file k t fd) 0) as [E|E].
  { exists k. split; [done|]. split; [done|]. eapply change_trans; [apply change_refl|apply change_refl|]. intros u i Hi.
    rewrite <- (put_same (desc k) t fd u i) at 1. apply put_ext; [done|]. by apply desc_none. }
  set (f := task_file k t fd) in *. assert (Hp : 0 < slots (tables k) f) by (by apply slot_live).
  destruct (fput_counted k nothing f HS E) as (k1 & -> & HC1 & Hc1 & Et1); [unfold nothing; lia|done|]. cbn [mbind option_bind].
  assert (Ht1 := proj2 (ch_tasks _ _ _ Hc1 t) Ht). assert (Ef : task_file k1 t fd = f).
  { assert (H1 := ch_desc _ _ _ Hc1 t fd Hfd). rewrite (proj2 (desc_some k t fd f _)) in H1 by done. by apply desc_some in H1 as (_ & ? & _). }
  destruct (set_slot k1 _ t fd 0 HC1 Ht1 Hfd) as [HC2 Hc2]. eexists. split; [done|]. split.
  - eapply counted_ext; [|exact HC2]. rewrite Ef. refs.
  - eapply change_trans; [exact Hc1|exact Hc2|]. intros u i Hi. apply put_ext; [by apply Hc1|done].
Qed.

(** [exit_files] *)
Lemma exit_from_spec n : forall k t fd,
  steady k -> has_task k t -> 0 <= fd -> fd + Z.of_nat n = NR_OPEN ->
  exists k', exit_files_from n k t fd = Some k' /\ steady k' /\ change k k' (fun u i => if decide (u = t /\ fd <= i) then None else desc k u i).
Proof using HG.
  induction n as [|n IH]; intros k t fd HS Ht Hfd Hn; cbn [exit_files_from].
  - exists k. split; [done|]. split; [done|]. eapply change_trans; [apply change_refl|apply change_refl|]. intros u i Hi.
    rewrite decide_False; [done|]. unfold is_fd in Hi. lia.
  - assert (Hr : is_fd fd) by (unfold is_fd; lia). destruct (drop_slot k t fd HS Ht Hr) as (k1 & -> & HS1 & Hc1). cbn [mbind option_bind].
    destruct (IH k1 t (fd + 1) HS1) as (k' & -> & HS' & Hc'); [by apply Hc1|lia..|].
    exists k'. split; [done|]. split; [done|]. eapply change_trans; [exact Hc1|exact Hc'|]. intros u i Hi. cbn. rewrite (ch_desc _ _ _ Hc1 u i Hi).
    unfold put. repeat case_decide; try done; exfalso; lia.
Qed.

Lemma exit_files_spec k t :
  steady k -> has_task k t ->
  exists k', exit_files k t = Some k' /\ steady k' /\ change k k' (fun u i => if decide (u = t) then None else desc k u i).
Proof using HG.
  intros HS Ht. destruct (exit_from_spec (Z.to_nat NR_OPEN) k t 0 HS Ht) as (k' & E & HS' & Hc); [lia|done|]. exists k'. split; [exact E|]. split; [done|].
  eapply change_trans; [apply change_refl|exact Hc|]. intros u i [Hi _]. cbn. repeat case_decide; try done; exfalso; lia.
Qed.

(** [close_on_exec_fds] *)
Definition kept_on_exec (d : option (Z * bool)) : option (Z * bool) := if d is Some (_, true) then None else d.

Lemma close_cloexec_spec n : forall k t fd,
  steady k -> has_task k t -> 0 <= fd -> fd + Z.of_nat n = NR_OPEN ->
  exists k', close_cloexec_from n k t fd = Some k' /\ steady k' /\
    change k k' (fun u i => if decide (u = t /\ fd <= i) then kept_on_exec (desc k u i) else desc k u i).
Proof using HG.
  induction n as [|n IH]; intros k t fd HS Ht Hfd Hn; cbn [close_cloexec_from].
  - exists k. split; [done|]. split; [done|]. eapply change_trans; [apply change_refl|apply change_refl|]. intros u i Hi.
    rewrite decide_False; [done|]. unfold is_fd in Hi. lia.
  - assert (Hr : is_fd fd) by (unfold is_fd; lia).
    assert (Hstep : exists k1, (if cloexec k t fd then
        k1 ← (if task_file k t fd =? 0 then Some k else k1 ← fput k (task_file k t fd); Some (set_task_file k1 t fd 0));
        close_cloexec_from n (set_cloexec false k1 t fd) t (fd + 1) else close_cloexec_from n k t (fd + 1)) = close_cloexec_from n k1 t (fd + 1) /\
      steady k1 /\ change k k1 (put (desc k) t fd (kept_on_exec (desc k t fd)))).
    { destruct (cloexec k t fd) eqn:Eb.
      - destruct (drop_slot k t fd HS Ht Hr) as (k1 & -> & HS1 & Hc1). cbn [mbind option_bind].
        destruct (set_cloexec_counted false k1 _ t fd HS1) as [HS2 Hc2]; [by apply Hc1|done|]. eexists. split; [done|]. split; [exact HS2|].
        eapply change_trans; [exact Hc1|exact Hc2|]. intros u i Hi. rewrite (ch_desc _ _ _ Hc1 t fd Hr), put_at. cbn.
        rewrite <- (put_put (desc k) t fd None). apply put_ext; [by apply Hc1|]. unfold desc. rewrite Eb. by destruct (_ =? 0).
      - exists k. split; [done|]. split; [done|]. eapply change_trans; [apply change_refl|apply change_refl|]. intros u i Hi.
        rewrite <- (put_same (desc k) t fd u i) at 1. apply put_ext; [done|]. unfold desc. rewrite Eb. by destruct (_ =? 0). }
    destruct Hstep as (k1 & -> & HS1 & Hc1). destruct (IH k1 t (fd + 1) HS1) as (k' & -> & HS' & Hc'); [by apply Hc1|lia..|].
    exists k'. split; [done|]. split; [done|]. eapply change_trans; [exact Hc1|exact Hc'|]. intros u i Hi. cbn. rewrite (ch_desc _ _ _ Hc1 u i Hi).
    unfold put. destruct (decide (u = t /\ i = fd)) as [[-> ->]|Hne]; [rewrite decide_False, decide_True by lia; done|].
    repeat case_decide; try done; exfalso; lia.
Qed.

Lemma close_on_exec_spec k t :
  steady k -> has_task k t -> t <> 0 ->
  exists k', close_on_exec_fds k t = Some k' /\ steady k' /\ change k k' (fun u i => if decide (u = t) then kept_on_exec (desc k u i) else desc k u i).
Proof using HG.
  intros HS Ht H0. unfold close_on_exec_fds. rewrite (proj2 (Z.eqb_neq _ _) H0).
  destruct (close_cloexec_spec (Z.to_nat NR_OPEN) k t 0 HS Ht) as (k' & E & HS' & Hc); [lia|done|]. exists k'. split; [exact E|]. split; [done|].
  eapply change_trans; [apply change_refl|exact Hc|]. intros u i [Hi _]. cbn. repeat case_decide; try done; exfalso; lia.
Qed.

(** [copy_task_files] into an empty table *)
Lemma cloexec_slot k t fd f u i : cloexec (set_task_file k t fd f) u i = cloexec k u i.
Proof using. unfold cloexec, set_task_file. rewrite task_at_k. by case_decide; subst. Qed.

Lemma get_file_s k f : k_s (get_file k f) = k_s k.
Proof using. unfold get_file. by case_match. Qed.

Lemma copy_step k child parent fd :
  steady k -> has_task k child -> has_task k parent -> is_fd fd -> task_file k child fd = 0 -> cloexec k child fd = cloexec k parent fd ->
  let k1 := set_task_file k child fd (task_file k parent fd) in
  steady (get_file k1 (task_file k1 child fd)) /\ change k (get_file k1 (task_file k1 child fd)) (put (desc k) child fd (desc k parent fd)).
Proof using HG.
  intros HS Hc Hp Hr Hz Hb. set (f := task_file k parent fd). cbn zeta. set (k1 := set_task_file k child fd f).
  destruct (set_slot k nothing child fd f HS Hc Hr) as [HC1 Hc1]. fold k1 in HC1, Hc1. rewrite Hz in HC1.
  assert (Ef : task_file k1 child fd = f).
  { unfold k1, task_file, set_task_file. rewrite task_at_k, decide_True by done. cbn. apply arr_get_insert. }
  rewrite Ef. assert (Hput : forall u i, is_fd i -> desc k1 u i = put (desc k) child fd (desc k parent fd) u i).
  { intros u i Hi. rewrite (ch_desc _ _ _ Hc1 u i Hi). apply put_ext; [done|]. unfold desc. fold f. by rewrite Hb. }
  destruct (decide (f = 0)) as [E0|E0].
  - rewrite E0 in *. unfold get_file. change (0 =? 0) with true. cbn iota. split.
    + eapply counted_ext; [|exact HC1]. refs.
    + eapply change_trans; [exact Hc1|apply change_refl|exact Hput].
  - assert (Hpos : 0 < slots (tables k) f) by (by apply slot_live).
    destruct (get_file_counted k1 _ f HC1 E0) as (HC2 & Hc2 & _).
    + unfold k1. rewrite (set_task_file_tables k child fd f _ (task_table k child Hc)), (slots_set _ child _) by (done || by apply task_table).
      fold (task_file k child fd). rewrite Hz. unfold minus, plus, nothing. lia.
    + unfold minus, plus, nothing, one. rewrite (decide_True (P := f = f)) by done. case_decide; lia.
    + split; [eapply counted_ext; [|exact HC2]; refs|]. eapply change_trans; [exact Hc1|exact Hc2|exact Hput].
Qed.

Lemma copy_from_spec n : forall k child parent fd,
  steady k -> child <> parent -> has_task k child -> has_task k parent -> 0 <= fd -> fd + Z.of_nat n = NR_OPEN ->
  (forall i, fd <= i < NR_OPEN -> task_file k child i = 0 /\ cloexec k child i = cloexec k parent i) ->
  steady (copy_files_from n k child parent fd) /\
  change k (copy_files_from n k child parent fd) (fun u i => if decide (u = child /\ fd <= i) then desc k parent i else desc k u i).
Proof using HG.
  induction n as [|n IH]; intros k child parent fd HS Hne Hc Hp Hfd Hn Hz; cbn [copy_files_from].
  - split; [done|]. eapply change_trans; [apply change_refl|apply change_refl|]. intros u i Hi. rewrite decide_False; [done|]. unfold is_fd in Hi. lia.
  - assert (Hr : is_fd fd) by (unfold is_fd; lia). destruct (Hz fd ltac:(unfold is_fd in Hr; lia)) as [Hz0 Hb0].
    destruct (copy_step k child parent fd HS Hc Hp Hr Hz0 Hb0) as [HS1 Hc1]. cbn zeta in HS1, Hc1. set (k1 := get_file _ _) in *.
    assert (Hcl : forall u i, cloexec k1 u i = cloexec k u i).
    { intros u i. unfold k1. unfold cloexec at 1. rewrite get_file_s. apply (cloexec_slot k child fd _ u i). }
    destruct (IH k1 child parent (fd + 1) HS1 Hne) as [HS' Hc']; [by apply Hc1..|lia|lia| |].
    + intros i Hi. rewrite !Hcl. split; [|apply Hz; lia]. apply desc_none. rewrite (ch_desc _ _ _ Hc1) by (unfold is_fd; lia).
      unfold put. rewrite decide_False by lia. apply desc_none, Hz. lia.
    + split; [exact HS'|]. eapply change_trans; [exact Hc1|exact Hc'|]. intros u i Hi. cbn. rewrite !(ch_desc _ _ _ Hc1 _ i Hi). unfold put.
      destruct (decide (u = child /\ i = fd)) as [[-> ->]|Hn1].
      * rewrite decide_False, decide_True by lia. done.
      * rewrite (decide_False (P := parent = child /\ i = fd)) by (intros [? _]; congruence). repeat case_decide; try done; exfalso; lia.
Qed.

Lemma copy_files_spec k child parent :
  steady k -> child <> parent -> has_task k child -> has_task k parent -> (forall i, is_fd i -> desc k child i = None) ->
  steady (copy_task_files k child parent) /\
  change k (copy_task_files k child parent) (fun u i => if decide (u = child) then desc k parent i else desc k u i).
Proof using HG.
  intros HS Hne Hc Hp Hz. unfold copy_task_files. set (k1 := upd_k_task k child _).
  assert (Hf : forall u i, task_file k1 u i = task_file k u i) by (intros u i; unfold task_file, k1; rewrite task_at_k; by case_decide; subst).
  assert (Hb : forall u i, cloexec k1 u i = cloexec k (if decide (u = child) then parent else u) i).
  { intros u i. unfold cloexec, k1. rewrite task_at_k. repeat case_decide; congruence || done. }
  assert (Ht : tables k1 = tables k) by (unfold k1; rewrite (upd_k_task_tables k child _ _ (task_table k child Hc)); by apply insert_id, task_table).
  assert (HS1 : steady k1).
  { destruct HS as [HGk [H1 H2 H3]]. split; [|split; rewrite ?Ht; done]. apply (ends_frame k); [|done]. symmetry. by apply bare_task. }
  assert (Hc1 : change k k1 (desc k)).
  { split; [intros u; by apply has_task_upd| |intros g x Hx; by exists x]. intros u i Hi. unfold desc. rewrite Hf, Hb. destruct (decide (u = child)) as [->|]; [|done].
    apply Hz, desc_none in Hi. by rewrite Hi. }
  destruct (copy_from_spec (Z.to_nat NR_OPEN) k1 child parent 0 HS1 Hne) as [HS2 Hc2]; [by apply Hc1..|done|done| |].
  { intros i Hi. rewrite Hf, !Hb, decide_True by done. rewrite decide_False by congruence. split; [|done]. by apply desc_none, Hz. }
  split; [exact HS2|]. eapply change_trans; [exact Hc1|exact Hc2|]. intros u i Hi. cbn. rewrite !(ch_desc _ _ _ Hc1 _ i Hi).
  destruct Hi as [Hi _]. repeat case_decide; try done; exfalso; lia.
Qed.

(** [dup3] *)
Lemma dup3_spec k t oldfd newfd b f b0 :
  steady k -> has_task k t -> is_fd oldfd -> is_fd newfd -> oldfd <> newfd -> desc k t oldfd = Some (f, b0) ->
  exists k', (let k1 := get_file k f in let old_new := task_file k1 t newfd in let k2 := set_task_file k1 t newfd f in
      k3 ← (if old_new =? 0 then Some k2 else fput k2 old_new); Some (newfd, set_cloexec b k3 t newfd)) = Some (newfd, k') /\
    steady k' /\ change k k' (put (desc k) t newfd (Some (f, b))).
Proof using HG.
  intros HS Ht Hr1 Hr2 Hne Hd. destruct (held_file k _ t oldfd f b0 HS Ht Hr1 Hd) as (Hf & Ef & Hp).
  destruct (get_file_counted k nothing f HS Hf) as (HC1 & Hc1 & Et1); [unfold nothing; lia|done|]. cbv zeta. set (k1 := get_file k f) in *.
  assert (Ht1 := proj2 (ch_tasks _ _ _ Hc1 t) Ht). destruct (set_slot k1 _ t newfd f HC1 Ht1 Hr2) as [HC2 Hc2]. set (k2 := set_task_file k1 t newfd f) in *.
  rewrite (proj2 (Z.eqb_neq _ _) Hf) in Hc2. set (g := task_file k1 t newfd) in *.
  assert (H3 : exists k3, (if g =? 0 then Some k2 else fput k2 g) = Some k3 /\ steady k3 /\ change k2 k3 (desc k2)).
  { destruct (Z.eqb_spec g 0) as [E2|E2].
    - exists k2. split; [done|]. split; [|apply change_refl]. eapply counted_ext; [|exact HC2]. rewrite E2. refs.
    - destruct (fput_counted k2 _ g HC2 E2) as (k3 & E3 & HC3 & Hc3 & _).
      + assert (H0 := slots_range (tables k2) g). unfold minus, plus, nothing, one. rewrite (decide_True (P := g = g)) by done. lia.
      + unfold minus, plus, nothing, one. rewrite (decide_True (P := g = g)) by done. lia.
      + exists k3. split; [done|]. split; [|done]. eapply counted_ext; [|exact HC3]. refs. }
  destruct H3 as (k3 & -> & HS3 & Hc3). cbn [mbind option_bind].
  assert (Ht3 : has_task k3 t) by (by apply (ch_tasks _ _ _ Hc3), (ch_tasks _ _ _ Hc2)).
  destruct (set_cloexec_counted b k3 _ t newfd HS3 Ht3 Hr2) as [HS4 Hc4]. eexists. split; [done|]. split; [exact HS4|].
  eapply change_trans; [|exact Hc4|].
  - eapply change_trans; [|exact Hc3|]; [eapply change_trans; [exact Hc1|exact Hc2|done]|done].
  - intros u i Hi. rewrite (ch_desc _ _ _ Hc3 t newfd Hr2), (ch_desc _ _ _ Hc2 t newfd Hr2), put_at. cbn.
    rewrite <- (put_put (desc k) t newfd (Some (f, cloexec k1 t newfd))). apply put_ext; [|done].
    rewrite (ch_desc _ _ _ Hc3 u i Hi), (ch_desc _ _ _ Hc2 u i Hi). apply put_ext; [by apply Hc1|done].
Qed.
End Counting.
