(* ===== verification/FileData.v ===== *)
(** * The contents of ramfs files

    [fs/ramfs.c] keeps the bytes of a regular file in one block of [kmalloc]
    that doubles when it must grow.  Reading and writing refine operations on
    byte sequences, for every file of the file system at once. *)
From S2P Require Import Prelude Errno PageAlloc Slub Heap Sched Wait Kernel Path Ramfs.

(** ** Bytes and capacities *)

Lemma get_bytes_length m a n : length (get_bytes m a n) = n.
Proof. revert a. induction n as [|n IH]; intros a; cbn; [done|]. by rewrite IH. Qed.

Lemma get_bytes_lookup m a n j : (j < n)%nat -> get_bytes m a n !! j = Some m.[a + Z.of_nat j].
Proof.
  revert a j. induction n as [|n IH]; intros a j Hj; [lia|]. destruct j as [|j]; cbn [get_bytes lookup list_lookup].
  - do 2 f_equal. lia.
  - rewrite IH by lia. do 2 f_equal. lia.
Qed.

Lemma get_bytes_ext m m' a a' n :
  (forall j, 0 <= j < Z.of_nat n -> m'.[a' + j] = m.[a + j]) -> get_bytes m' a' n = get_bytes m a n.
Proof.
  intros Hj. apply list_eq_same_length with (n := n); [apply get_bytes_length..|].
  intros i x y Hi. rewrite !get_bytes_lookup by done. intros [= <-] [= <-]. apply Hj. lia.
Qed.

Lemma get_bytes_app m a n1 n2 : get_bytes m a (n1 + n2) = get_bytes m a n1 ++ get_bytes m (a + Z.of_nat n1) n2.
Proof.
  revert a. induction n1 as [|n1 IH]; intros a; cbn [Nat.add get_bytes app]; [f_equal; lia|].
  rewrite IH. do 3 f_equal. lia.
Qed.

Lemma put_bytes_out m a bs b : ~ a <= b < a + slen bs -> (put_bytes m a bs).[b] = m.[b].
Proof.
  revert m a. induction bs as [|x bs IH]; intros m a Hb; cbn [put_bytes]; [done|]. unfold slen in *. cbn [length] in Hb.
  rewrite IH by lia. apply arr_get_insert_ne. lia.
Qed.

Lemma put_bytes_in m a bs j x : bs !! j = Some x -> (put_bytes m a bs).[a + Z.of_nat j] = x.
Proof.
  revert m a j. induction bs as [|y bs IH]; intros m a j Hj; [done|]. cbn [put_bytes]. destruct j as [|j].
  - cbn in Hj. injection Hj as ->. rewrite put_bytes_out by lia. rewrite Z.add_0_r. apply arr_get_insert.
  - cbn in Hj. rewrite <- (IH (<[a := y]> m) (a + 1) j Hj). f_equal. lia.
Qed.

Lemma get_put m a bs : get_bytes (put_bytes m a bs) a (length bs) = bs.
Proof.
  apply list_eq_same_length with (n := length bs); [done|apply get_bytes_length|].
  intros i x y Hi. rewrite get_bytes_lookup by done. intros [= <-] Hy. by apply put_bytes_in.
Qed.

(** Doubling from a power of two reaches every size up to [2 ^ 63] ... *)
Lemma grow_capacity_spec n : forall a need fuel,
  0 <= a <= 63 -> need <= 2 ^ 63 -> 63 - a = Z.of_nat n -> (n < fuel)%nat ->
  exists b, a <= b <= 63 /\ grow_capacity fuel (2 ^ a) need = Some (2 ^ b) /\ need <= 2 ^ b /\
    forall c, a <= c < b -> 2 ^ c < need.
Proof.
  induction n as [|n IH]; intros a need fuel Ha Hneed Hn Hf; (destruct fuel as [|fuel]; [lia|]); cbn [grow_capacity].
  - exists a. assert (a = 63) by lia. subst a. rewrite (proj2 (Z.ltb_ge _ _)) by lia. splits; try done; lia.
  - destruct (Z.ltb_spec (2 ^ a) need) as [Hlt|Hge]; [|exists a; splits; try done; lia].
    assert (Hsh : u64 (Z.shiftl (2 ^ a) 1) = 2 ^ (a + 1)).
    { rewrite Z.shiftl_mul_pow2, <- Z.pow_add_r by lia. apply wrapu_id. split; [lia|]. apply Z.pow_lt_mono_r; lia. }
    rewrite Hsh. destruct (IH (a + 1) need fuel) as (b & Hb & E & Hge & Hmin); try lia.
    exists b. splits; try done; try lia. intros c Hc. destruct (decide (c = a)) as [->|]; [done|]. apply Hmin. lia.
Qed.

(** ... and never ends above it: the shift runs into 0. *)
Lemma grow_capacity_zero fuel need : 0 < need -> grow_capacity fuel 0 need = None.
Proof.
  intros Hn. induction fuel as [|fuel IH]; [done|]. cbn [grow_capacity]. rewrite (proj2 (Z.ltb_lt _ _)) by done. exact IH.
Qed.

Lemma grow_capacity_hangs fuel : forall a need, 0 <= a <= 63 -> 2 ^ 63 < need -> grow_capacity fuel (2 ^ a) need = None.
Proof.
  induction fuel as [|fuel IH]; intros a need Ha Hn; [done|]. cbn [grow_capacity].
  assert (Hle : 2 ^ a <= 2 ^ 63) by (apply Z.pow_le_mono_r; lia). rewrite (proj2 (Z.ltb_lt _ _)) by lia.
  rewrite Z.shiftl_mul_pow2, <- Z.pow_add_r by lia. destruct (decide (a = 63)) as [->|Hne].
  - change (u64 (2 ^ (63 + 1))) with 0. apply grow_capacity_zero. lia.
  - rewrite wrapu_id; [apply IH; lia|]. split; [lia|]. apply Z.pow_lt_mono_r; lia.
Qed.

Lemma take_get_bytes m a n k : take k (get_bytes m a n) = get_bytes m a (Nat.min k n).
Proof.
  destruct (decide (k <= n)%nat) as [Hk|Hk].
  - replace n with (k + (n - k))%nat at 1 by lia. rewrite Nat.min_l by done.
    rewrite get_bytes_app, take_app_le, take_ge; rewrite ?get_bytes_length; lia || done.
  - rewrite take_ge by (rewrite get_bytes_length; lia). f_equal. lia.
Qed.

Lemma drop_get_bytes m a n k : drop k (get_bytes m a n) = get_bytes m (a + Z.of_nat k) (n - k).
Proof.
  destruct (decide (k <= n)%nat) as [Hk|Hk].
  - replace n with (k + (n - k))%nat at 1 by lia. rewrite get_bytes_app, drop_app_ge, get_bytes_length by (rewrite get_bytes_length; lia).
    by rewrite Nat.sub_diag.
  - rewrite drop_ge by (rewrite get_bytes_length; lia). by replace (n - k)%nat with 0%nat by lia.
Qed.

(** ** Files as byte sequences *)

(** The inode [i] is a regular file that holds [c]. *)
Record file_rep (k : kernel) (H : gmap Z Z) (i : Z) (c : list Z) : Prop := {
  fl_inode : i <> 0;
  fl_type : i_type (inode_at k i) = S_IFREG;
  fl_size : i_size (inode_at k i) = slen c;
  fl_data : let x := inode_at k i in
    (ri_data x = 0 /\ ri_capacity x = 0 /\ c = []) \/
    (ri_data x <> 0 /\ H !! ri_data x = Some (ri_capacity x) /\ (exists a, 12 <= a <= 62 /\ ri_capacity x = 2 ^ a) /\
     slen c <= ri_capacity x /\ get_bytes (k_b k) (ri_data x) (length c) = c)
}.

(** Two files have no block in common. *)
Definition share_none (k : kernel) (i j : Z) : Prop :=
  ri_data (inode_at k i) = ri_data (inode_at k j) -> ri_data (inode_at k i) = 0.

(** The regular files [F] of the file system. *)
Definition files_rep (k : kernel) (H : gmap Z Z) (F : gmap Z (list Z)) : Prop :=
  map_Forall (file_rep k H) F /\ (forall i j, i <> j -> is_Some (F !! i) -> is_Some (F !! j) -> share_none k i j).

(** Live blocks other than [d] keep their bytes. *)
Definition blocks_frame (k : kernel) (H : gmap Z Z) (k' : kernel) (H' : gmap Z Z) (d : Z) : Prop :=
  forall x s, H !! x = Some s -> x <> d -> H' !! x = Some s /\ forall a, x <= a < x + s -> (k_b k').[a] = (k_b k).[a].

(** The kernel changed in its heap, its bytes and the inode [i] only. *)
Definition only_inode (i : Z) (k k' : kernel) : Prop :=
  k' = set_k_k (k_k k') (set_k_b (k_b k') (set_k_inodes (<[i := inode_at k' i]> (k_inodes k)) k)).

(** [c] with [buf] written at [off]; [hole] fills what lies past its end. *)
Definition splice (c hole : list Z) (off : nat) (buf : list Z) : list Z :=
  take off (c ++ hole) ++ buf ++ drop (off + length buf) c.

Lemma only_inode_ne i j k k' : only_inode i k k' -> j <> i -> inode_at k' j = inode_at k j.
Proof. intros -> Hne. unfold inode_at. cbn. by rewrite lookup_insert_ne. Qed.

Lemma inode_id k i : is_Some (k_inodes k !! i) -> <[i := inode_at k i]> (k_inodes k) = k_inodes k.
Proof. intros [x Hx]. apply insert_id. unfold inode_at. by rewrite Hx. Qed.

Lemma only_inode_refl i k : is_Some (k_inodes k !! i) -> only_inode i k k.
Proof. intros Hi. unfold only_inode. rewrite inode_id by done. by destruct k. Qed.

Lemma file_present k H i c : file_rep k H i c -> is_Some (k_inodes k !! i).
Proof.
  intros HF. assert (Ht := fl_type _ _ _ _ HF). unfold inode_at in Ht. destruct (k_inodes k !! i) eqn:E; [by exists i0|].
  by vm_compute in Ht.
Qed.

Lemma file_rep_frame k H k' H' d j c :
  blocks_frame k H k' H' d -> inode_at k' j = inode_at k j -> (ri_data (inode_at k j) = d -> d = 0) ->
  file_rep k H j c -> file_rep k' H' j c.
Proof.
  intros Hf Ej Hd HF. destruct HF as [Hj Ht Hs Hdat]. split; [done|by rewrite Ej|by rewrite Ej|].
  rewrite Ej. cbn zeta in *. destruct Hdat as [Hz|(Hnz & Hl & Ha & Hle & Hb)]; [by left|right].
  destruct (Hf _ _ Hl ltac:(by intros E; apply Hnz; rewrite E; apply Hd)) as [Hl' Hb'].
  splits; try done. rewrite <- Hb at 2. apply get_bytes_ext. intros a Ha'. apply Hb'. unfold slen in *. lia.
Qed.

Lemma grow_hangs k H i c fuel need : file_rep k H i c -> 2 ^ 63 < need -> ramfs_ensure_capacity fuel k i need = None.
Proof.
  intros HF Hneed. assert (Ht := fl_type _ _ _ _ HF). unfold ramfs_ensure_capacity, itype. rewrite Ht, Z.eqb_refl. cbn [negb].
  assert (Hg : exists a, 0 <= a <= 62 /\ (if ri_capacity (inode_at k i) =? 0 then PAGE_SIZE else ri_capacity (inode_at k i)) = 2 ^ a).
  { destruct (fl_data _ _ _ _ HF) as [(_ & -> & _)|(_ & _ & (a & Ha & ->) & _)]; [by exists 12|]. exists a. split; [lia|].
    rewrite (proj2 (Z.eqb_neq _ _)); [done|]. lia. }
  assert (Hcap : ri_capacity (inode_at k i) < need).
  { destruct (fl_data _ _ _ _ HF) as [(_ & -> & _)|(_ & _ & (a & Ha & ->) & _)]; [lia|].
    assert (2 ^ a < 2 ^ 63) by (apply Z.pow_lt_mono_r; lia). lia. }
  rewrite (proj2 (Z.leb_gt _ _)) by done. destruct Hg as (a & Ha & ->). by rewrite grow_capacity_hangs by lia.
Qed.

Section Files.
Context {heap : slub -> gmap Z Z -> Prop} `{!HeapSpec heap}.

(** A file's block moved to a larger one. *)
Lemma moved_rep k H i c m1 m2 d n :
  file_rep k H i c -> heap (k_k k) H -> d <> 0 -> H !! d = None -> heap m1 (<[d := 2 ^ n]> H) -> 12 <= n <= 62 ->
  slen c <= 2 ^ n ->
  let x := inode_at k i in
  let H' := delete (ri_data x) (<[d := 2 ^ n]> H) in
  let b := if negb (ri_data x =? 0) && negb (i_size x =? 0)
           then put_bytes (k_b k) d (get_bytes (k_b k) (ri_data x) (Z.to_nat (i_size x))) else k_b k in
  let k' := upd_inode (set_k_k m2 (set_k_b b k)) i (fun y => set_ri_capacity (2 ^ n) (set_ri_data d y)) in
  file_rep k' H' i c /\ blocks_frame k H k' H' (ri_data x) /\ (forall a, slen c <= a -> (k_b k').[d + a] = (k_b k).[d + a]).
Proof.
  intros HF HH Hd Hn Hm1 Hrng Hle x H' b k'. destruct HF as [Hi Ht Hs Hdat]. fold x in Ht, Hs, Hdat. cbn zeta in Hdat.
  assert (Hdx : ri_data x <> d).
  { destruct Hdat as [(-> & _)|(_ & Hl & _)]; [done|]. intros E. rewrite E in Hl. congruence. }
  assert (Eb : b = put_bytes (k_b k) d c).
  { unfold b. destruct Hdat as [(-> & _ & ->)|(Hnz & _ & _ & _ & Hb)]; [done|].
    rewrite Hs. unfold slen in *. rewrite (proj2 (Z.eqb_neq _ _) Hnz). rewrite Nat2Z.id, Hb. clear. destruct c; reflexivity. }
  assert (Hout : forall a, ~ d <= a < d + slen c -> b.[a] = (k_b k).[a]).
  { intros a Ha. rewrite Eb. by apply put_bytes_out. }
  splits.
  - split; [done|..]; unfold k'; rewrite inode_at_upd, decide_True by done; cbn; [done..|]. right.
    splits; [done| |by exists n|done|].
    + unfold H'. rewrite lookup_delete_ne by done. apply lookup_insert_eq.
    + rewrite Eb. apply get_put.
  - intros y s Hy Hne. assert (Hyd : y <> d) by congruence. split.
    + unfold H'. by rewrite lookup_delete_ne, lookup_insert_ne by done.
    + intros a Ha. change ((k_b k').[a]) with (b.[a]). apply Hout.
      assert (Hap := heap_apart m1 _ y s d (2 ^ n) a Hm1). rewrite lookup_insert_ne, lookup_insert_eq in Hap by done.
      specialize (Hap Hy eq_refl Hyd Ha). lia.
  - intros a Ha. change ((k_b k').[d + a]) with (b.[d + a]). apply Hout. lia.
Qed.

(** [ramfs_ensure_capacity] fails without effect, or leaves room. *)
Lemma ensure_spec k H i c need :
  heap (k_k k) H -> file_rep k H i c -> 0 <= need <= 2 ^ 63 ->
  ramfs_ensure_capacity 64 k i need = Some (- ENOMEM, k) \/
  exists k' H', ramfs_ensure_capacity 64 k i need = Some (0, k') /\ heap (k_k k') H' /\ file_rep k' H' i c /\
    need <= ri_capacity (inode_at k' i) /\ blocks_frame k H k' H' (ri_data (inode_at k i)) /\ only_inode i k k' /\
    (ri_data (inode_at k' i) <> ri_data (inode_at k i) -> H !! ri_data (inode_at k' i) = None) /\
    (forall a, slen c <= a -> (k_b k').[ri_data (inode_at k' i) + a] = (k_b k).[ri_data (inode_at k' i) + a]).
Proof.
  intros HH HF Hneed. assert (HF' := HF). destruct HF' as [Hi Ht Hs Hdat]. unfold ramfs_ensure_capacity, itype.
  rewrite Ht, Z.eqb_refl. cbn [negb]. destruct (Z.leb_spec need (ri_capacity (inode_at k i))) as [Hle|Hgt].
  { right. exists k, H. splits; try done. apply only_inode_refl. by eapply file_present. }
  assert (Hg : exists a, 12 <= a <= 62 /\ (if ri_capacity (inode_at k i) =? 0 then PAGE_SIZE else ri_capacity (inode_at k i)) = 2 ^ a).
  { destruct Hdat as [(_ & -> & _)|(_ & _ & (a & Ha & ->) & _)]; [by exists 12|]. exists a. split; [done|].
    rewrite (proj2 (Z.eqb_neq _ _)); [done|]. lia. }
  destruct Hg as (a & Ha & ->).
  destruct (grow_capacity_spec (Z.to_nat (63 - a)) a need 64) as (n & Hn & -> & Hge & Hmin); try lia.
  cbn [mbind option_bind]. unfold k_malloc.
  assert (Hpn : 0 <= 2 ^ n <= 2 ^ 63) by (split; [lia|]; apply Z.pow_le_mono_r; lia).
  destruct (heap_malloc (k_k k) H (2 ^ n) HH Hpn) as [->|(d & m1 & -> & Hd & Hnone & Hm1)]; cbn [mbind option_bind].
  { left. rewrite Z.eqb_refl. by destruct k. }
  rewrite (proj2 (Z.eqb_neq _ _) Hd). right.
  assert (Hn62 : n <= 62).
  { destruct (decide (n = 63)) as [->|]; [|lia]. destruct (heap_block _ _ _ _ Hm1 (lookup_insert_eq _ _ _)). lia. }
  assert (Hle : slen c <= 2 ^ n). { destruct Hdat as [(_ & _ & ->)|(_ & _ & _ & Hc & _)]; unfold slen in *; cbn [length]; lia. }
  set (k1 := if negb (ri_data (inode_at k i) =? 0) && _ then _ else _).
  assert (Hfree : exists m2, (if ri_data (inode_at k i) =? 0 then Some k1 else k_free k1 (ri_data (inode_at k i))) = Some (set_k_k m2 k1) /\
    heap m2 (delete (ri_data (inode_at k i)) (<[d := 2 ^ n]> H))).
  { destruct Hdat as [(-> & _ & _)|(Hnz & Hl & _)].
    - exists m1. rewrite Z.eqb_refl. split; [unfold k1; destruct (negb _ && negb _); reflexivity|]. rewrite delete_id; [done|].
      apply eq_None_not_Some. intros [s Hs0]. destruct (heap_block _ _ _ _ Hm1 Hs0). lia.
    - rewrite (proj2 (Z.eqb_neq _ _) Hnz). unfold k_free.
      assert (Ek1 : k_k k1 = m1) by (unfold k1; by case_match). rewrite Ek1.
      destruct (heap_free m1 _ (ri_data (inode_at k i)) Hm1) as (m2 & -> & Hm2).
      { destruct (decide (ri_data (inode_at k i) = d)) as [->|Hne]; [rewrite lookup_insert_eq|rewrite lookup_insert_ne by done]; by eexists. }
      by exists m2. }
  destruct Hfree as (m2 & -> & Hm2). cbn [mbind option_bind].
  destruct (moved_rep k H i c m1 m2 d n HF HH Hd Hnone Hm1 ltac:(lia) Hle) as (Hrep & Hbf & Hhole).
  eexists _, _. split; [done|]. cbn zeta in Hrep, Hbf, Hhole.
  assert (Ek : set_k_k m2 k1 = set_k_k m2 (set_k_b (if negb (ri_data (inode_at k i) =? 0) && negb (i_size (inode_at k i) =? 0)
    then put_bytes (k_b k) d (get_bytes (k_b k) (ri_data (inode_at k i)) (Z.to_nat (i_size (inode_at k i)))) else k_b k) k)).
  { unfold k1. case_match; [done|]. by destruct k. }
  rewrite Ek. splits; [exact Hm2|exact Hrep| |exact Hbf| |..]; rewrite ?inode_at_upd, ?decide_True by done; try done.
  unfold only_inode. cbn. rewrite inode_at_upd, decide_True by done. done.
Qed.

Lemma splice_length c hole off buf :
  length hole = (off - length c)%nat -> length (splice c hole off buf) = Nat.max (length c) (off + length buf).
Proof. intros Hh. unfold splice. rewrite !length_app, length_take, length_app, length_drop. lia. Qed.

(** The bytes after the copy are the spliced sequence. *)
Lemma put_splice m d c off buf :
  get_bytes m d (length c) = c ->
  let c' := splice c (get_bytes m (d + slen c) (off - length c)) off buf in
  get_bytes (put_bytes m (d + Z.of_nat off) buf) d (length c') = c'.
Proof.
  intros Hc c'. unfold c'. rewrite splice_length by apply get_bytes_length.
  replace (Nat.max (length c) (off + length buf)) with (off + (length buf + (length c - (off + length buf))))%nat by lia.
  rewrite !get_bytes_app, get_put. unfold splice. f_equal; [|f_equal].
  - rewrite <- Hc at 1. unfold slen. rewrite <- get_bytes_app, take_get_bytes, Nat.min_l by lia. apply get_bytes_ext.
    intros j Hj. apply put_bytes_out. lia.
  - rewrite <- Hc at 2. rewrite drop_get_bytes. rewrite Nat2Z.inj_add, Z.add_assoc. apply get_bytes_ext.
    intros j Hj. apply put_bytes_out. unfold slen. lia.
Qed.

Definition after_copy (k : kernel) (i : Z) (buf : list Z) (offset : Z) : kernel :=
  let k := set_k_b (put_bytes (k_b k) (ri_data (inode_at k i) + offset) buf) k in
  if i_size (inode_at k i) <? offset + slen buf then upd_inode k i (set_i_size (offset + slen buf)) else k.

Lemma after_copy_spec k H i c buf offset :
  heap (k_k k) H -> file_rep k H i c -> 0 <= offset -> offset + slen buf <= ri_capacity (inode_at k i) ->
  let d := ri_data (inode_at k i) in
  let k' := after_copy k i buf offset in
  file_rep k' H i (splice c (get_bytes (k_b k) (d + slen c) (Z.to_nat offset - length c)) (Z.to_nat offset) buf) /\
  blocks_frame k H k' H d /\ only_inode i k k' /\ k_k k' = k_k k /\ ri_data (inode_at k' i) = d.
Proof.
  intros HH HF Hoff Hcap d k'. assert (HF' := HF). destruct HF' as [Hi Ht Hs Hdat]. cbn zeta in Hdat. fold d in Hdat.
  set (c' := splice _ _ _ _). assert (Hlen : slen c' = Z.max (slen c) (offset + slen buf)).
  { unfold slen, c'. rewrite splice_length by apply get_bytes_length. lia. }
  assert (Ein : inode_at k' i = set_i_size (slen c') (inode_at k i)).
  { unfold k', after_copy. change (inode_at (set_k_b _ k) i) with (inode_at k i). rewrite Hs.
    destruct (Z.ltb_spec (slen c) (offset + slen buf)).
    - rewrite inode_at_upd, decide_True by done. change (inode_at (set_k_b _ k) i) with (inode_at k i). f_equal. lia.
    - change (inode_at (set_k_b _ k) i) with (inode_at k i). replace (slen c') with (i_size (inode_at k i)) by lia.
      by destruct (inode_at k i). }
  assert (Eb : k_b k' = put_bytes (k_b k) (d + offset) buf) by (unfold k', after_copy; by case_match).
  splits.
  - split; rewrite ?Ein; cbn; [done..|]. destruct Hdat as [(E0 & Hc0 & ->)|(Hnz & Hl & Ha & Hle & Hb)]; [left|right].
    + splits; [done|done|]. rewrite Hc0 in Hcap. apply nil_length_inv. unfold slen in *. cbn in Hlen. lia.
    + splits; try done; [lia|]. rewrite Eb. replace offset with (Z.of_nat (Z.to_nat offset)) at 1 by lia. by apply put_splice.
  - intros x s Hx Hne. split; [done|]. intros a Ha. rewrite Eb. apply put_bytes_out. intros Ha'.
    destruct Hdat as [(E0 & Hc0 & ->)|(Hnz & Hl & _)]; [unfold slen in *; lia|].
    apply (heap_apart _ _ x s d (ri_capacity (inode_at k i)) a HH Hx Hl Hne Ha). lia.
  - unfold only_inode. rewrite Ein, Eb. unfold k', after_copy. change (inode_at (set_k_b _ k) i) with (inode_at k i).
    rewrite Hs. destruct (Z.ltb_spec (slen c) (offset + slen buf)).
    + replace (slen c') with (offset + slen buf) by lia. done.
    + replace (slen c') with (i_size (inode_at k i)) by lia. cbn.
      replace (set_i_size (i_size (inode_at k i)) (inode_at k i)) with (inode_at k i) by (by destruct (inode_at k i)).
      by rewrite (inode_id k i (file_present _ _ _ _ HF)).
  - unfold k', after_copy. by case_match.
  - by rewrite Ein.
Qed.

Lemma only_inode_trans i k1 k2 k3 : only_inode i k1 k2 -> only_inode i k2 k3 -> only_inode i k1 k3.
Proof. intros E1 E2. unfold only_inode. etransitivity; [exact E2|]. rewrite E1. cbn. by rewrite insert_insert_eq. Qed.

Lemma blocks_frame_trans k H k1 H1 k2 H2 d d1 :
  blocks_frame k H k1 H1 d -> blocks_frame k1 H1 k2 H2 d1 -> (d1 <> d -> H !! d1 = None) -> blocks_frame k H k2 H2 d.
Proof.
  intros Hf Hf1 Hd x s Hx Hne. destruct (Hf x s Hx Hne) as [Hx1 Hb1].
  destruct (Hf1 x s Hx1) as [Hx2 Hb2]; [intros ->; rewrite Hd in Hx by done; done|].
  split; [done|]. intros a Ha. by rewrite Hb2, Hb1.
Qed.

(** One file changes, the others stay. *)
Lemma files_step k H k' H' F i c c' :
  files_rep k H F -> F !! i = Some c -> file_rep k' H' i c' -> only_inode i k k' ->
  blocks_frame k H k' H' (ri_data (inode_at k i)) ->
  (ri_data (inode_at k' i) <> ri_data (inode_at k i) -> H !! ri_data (inode_at k' i) = None) ->
  files_rep k' H' (<[i := c']> F).
Proof.
  intros [HF Hsh] Hi Hc' Ho Hfr Hnew.
  assert (Hdiff : forall j cj, j <> i -> F !! j = Some cj -> ri_data (inode_at k' i) = ri_data (inode_at k j) -> ri_data (inode_at k j) = 0).
  { intros j cj Hne Hj E. destruct (decide (ri_data (inode_at k j) = 0)) as [|Hnz]; [done|]. exfalso.
    destruct (fl_data _ _ _ _ (HF j cj Hj)) as [[? _]|(_ & Hl & _)]; [done|].
    destruct (decide (ri_data (inode_at k' i) = ri_data (inode_at k i))) as [E'|Hne'].
    - apply Hnz. rewrite <- E, E'. apply (Hsh i j); [done|by exists c|by exists cj|congruence].
    - specialize (Hnew Hne'). rewrite E in Hnew. congruence. }
  split.
  - intros j cj [[<- <-]|[Hne Hj]]%lookup_insert_Some; [done|].
    apply (file_rep_frame k H k' H' _ j cj Hfr); [by apply (only_inode_ne i)| |by apply HF].
    intros E. apply (Hsh i j); [done|by exists c|by exists cj|done].
  - intros j l Hne Hj Hl. unfold share_none. destruct (decide (j = i)) as [->|Hji]; [|destruct (decide (l = i)) as [->|Hli]].
    + rewrite lookup_insert_ne in Hl by done. destruct Hl as [cl Hl]. rewrite (only_inode_ne i l k k') by done.
      intros E. rewrite E. by apply (Hdiff l cl).
    + rewrite lookup_insert_ne in Hj by done. destruct Hj as [cj Hj]. rewrite (only_inode_ne i j k k') by done.
      intros E. by apply (Hdiff j cj).
    + rewrite lookup_insert_ne in Hj by done. rewrite lookup_insert_ne in Hl by done.
      rewrite (only_inode_ne i j k k'), (only_inode_ne i l k k') by done. by apply Hsh.
Qed.

(** [ramfs_write] on all files. *)
Lemma write_spec k H F i c buf offset :
  heap (k_k k) H -> files_rep k H F -> F !! i = Some c -> 0 <= offset -> slen buf < 2 ^ 63 -> offset + slen buf <= 2 ^ 63 ->
  ramfs_write k i buf offset = Some (- ENOMEM, k) \/
  exists k' H', ramfs_write k i buf offset = Some (slen buf, k') /\ heap (k_k k') H' /\ only_inode i k k' /\
    files_rep k' H' (<[i := splice c (get_bytes (k_b k) (ri_data (inode_at k' i) + slen c) (Z.to_nat offset - length c))
                              (Z.to_nat offset) buf]> F).
Proof.
  intros HH HFs Hi Hoff Hlen Hend. assert (HFi := proj1 HFs i c Hi). assert (Hnz := fl_inode _ _ _ _ HFi). assert (Ht := fl_type _ _ _ _ HFi).
  unfold ramfs_write, itype. rewrite (proj2 (Z.eqb_neq _ _) Hnz), Ht, Z.eqb_refl. cbn [negb].
  assert (Hsl : 0 <= slen buf) by (unfold slen; lia).
  assert (Eu : u64 (offset + slen buf) = offset + slen buf) by (apply wrapu_id; lia).
  assert (Es : s64 (slen buf) = slen buf) by (apply wraps_id; lia).
  rewrite Eu, Es, (proj2 (Z.ltb_ge _ _)) by lia.
  destruct (ensure_spec k H i c (offset + slen buf) HH HFi ltac:(lia))
    as [->|(k1 & H1 & -> & HH1 & HF1 & Hcap & Hfr1 & Ho1 & Hnew & Hhole)]; cbn [mbind option_bind]; [by left|].
  right. change (negb (0 =? 0)) with false. cbn [negb]. fold (after_copy k1 i buf offset).
  destruct (after_copy_spec k1 H1 i c buf offset HH1 HF1 Hoff Hcap) as (HF2 & Hfr2 & Ho2 & Ek & Ed).
  exists (after_copy k1 i buf offset), H1. assert (Ho := only_inode_trans _ _ _ _ Ho1 Ho2).
  assert (Eh : get_bytes (k_b k1) (ri_data (inode_at k1 i) + slen c) (Z.to_nat offset - length c) =
    get_bytes (k_b k) (ri_data (inode_at k1 i) + slen c) (Z.to_nat offset - length c)).
  { apply get_bytes_ext. intros j Hj. rewrite <- Z.add_assoc. apply Hhole. lia. }
  rewrite Eh in HF2. splits; [done|by rewrite Ek|done|]. rewrite Ed.
  apply (files_step k H _ H1 F i c); try done; [|by rewrite Ed].
  by apply (blocks_frame_trans _ _ _ _ _ _ _ _ Hfr1 Hfr2).
Qed.

Lemma read_spec k H i c len offset :
  file_rep k H i c -> 0 <= len < 2 ^ 63 -> 0 <= offset -> slen c < 2 ^ 63 ->
  let r := take (Z.to_nat len) (drop (Z.to_nat offset) c) in ramfs_read k i len offset = (slen r, r).
Proof.
  intros [Hnz Ht Hs Hdat] Hlen Hoff Hc r. unfold ramfs_read. rewrite (proj2 (Z.eqb_neq _ _) Hnz), Ht, Z.eqb_refl. cbn [negb].
  assert (Hr : slen r = Z.min len (Z.max 0 (slen c - offset))) by (unfold r, slen in *; rewrite length_take, length_drop; lia).
  rewrite Hs. destruct (Z.leb_spec (slen c) offset) as [Hle|Hgt].
  { assert (r = []) as -> by (apply nil_length_inv; unfold slen in *; lia). done. }
  set (n := if slen c - offset <? len then slen c - offset else len).
  assert (En : n = slen r) by (unfold n; destruct (Z.ltb_spec (slen c - offset) len); lia). rewrite En, wraps_id by lia. f_equal.
  destruct Hdat as [(-> & _ & ->)|(Hnz' & _ & _ & _ & Hb)]; [unfold slen in *; cbn in *; lia|].
  rewrite (proj2 (Z.eqb_neq _ _) Hnz'). unfold r at 2. rewrite <- Hb at 1. rewrite drop_get_bytes.
  rewrite take_get_bytes, Z2Nat.id by lia. f_equal. unfold slen in *. lia.
Qed.

Lemma file_small k H i c : file_rep k H i c -> slen c < 2 ^ 63.
Proof.
  intros HF. destruct (fl_data _ _ _ _ HF) as [(_ & _ & ->)|(_ & _ & (a & Ha & E) & Hle & _)]; [unfold slen; cbn; lia|].
  rewrite E in Hle. assert (2 ^ a < 2 ^ 63) by (apply Z.pow_lt_mono_r; lia). lia.
Qed.

Lemma splice_read c hole off buf :
  length hole = (off - length c)%nat -> take (length buf) (drop off (splice c hole off buf)) = buf.
Proof.
  intros Hh. unfold splice. rewrite drop_app_ge, length_take, length_app by (rewrite length_take, length_app; lia).
  replace (off - off `min` (length c + length hole))%nat with 0%nat by lia. rewrite drop_0.
  rewrite take_app_le, take_ge by lia. done.
Qed.

(** C26: [ramfs_write] refines writing a byte sequence into one of the files
    of the file system, for every offset of the 64 bits and every buffer.  It
    fails with [-ENOMEM] and changes nothing, or returns the length, and the
    file holds the old bytes with the new ones at the offset; every other file
    and everything outside the heap stays.  The bytes between the old end and
    the offset are whatever memory the block held: the code does not clear
    them.  An end that wraps is refused with [-EINVAL]; an end beyond [2 ^ 63]
    that does not wrap is never reached, the doubling loop does not end
    whatever the number of its turns. *)
Theorem ramfs_write_refines k H F i c buf offset :
  heap (k_k k) H -> files_rep k H F -> F !! i = Some c -> 0 <= offset < 2 ^ 64 -> slen buf < 2 ^ 63 ->
  let end_ := offset + slen buf in
  if 2 ^ 64 <=? end_ then ramfs_write k i buf offset = Some (- EINVAL, k)
  else if 2 ^ 63 <? end_ then ramfs_write k i buf offset = None /\ forall fuel, ramfs_ensure_capacity fuel k i end_ = None
  else
    ramfs_write k i buf offset = Some (- ENOMEM, k) \/
    exists k' H', ramfs_write k i buf offset = Some (slen buf, k') /\ heap (k_k k') H' /\ only_inode i k k' /\
      let hole := get_bytes (k_b k) (ri_data (inode_at k' i) + slen c) (Z.to_nat offset - length c) in
      files_rep k' H' (<[i := splice c hole (Z.to_nat offset) buf]> F).
Proof.
  intros HH HF Hi Hoff Hlen end_. assert (HFi := proj1 HF i c Hi). assert (Hnz := fl_inode _ _ _ _ HFi). assert (Ht := fl_type _ _ _ _ HFi).
  assert (Hsl : 0 <= slen buf) by (unfold slen; lia).
  destruct (Z.leb_spec (2 ^ 64) end_) as [Hw|Hw]; [|destruct (Z.ltb_spec (2 ^ 63) end_) as [Hh|Hh]].
  - unfold ramfs_write, itype. rewrite (proj2 (Z.eqb_neq _ _) Hnz), Ht, Z.eqb_refl. cbn [negb]. fold end_.
    assert (E : u64 end_ = end_ - 2 ^ 64) by (unfold u64, wrapu; symmetry; apply Z.mod_unique with 1; lia).
    by rewrite E, (proj2 (Z.ltb_lt _ _)) by lia.
  - assert (Hg := fun fuel => grow_hangs k H i c fuel end_ HFi Hh). split; [|done].
    unfold ramfs_write, itype. rewrite (proj2 (Z.eqb_neq _ _) Hnz), Ht, Z.eqb_refl. cbn [negb]. fold end_.
    rewrite (wrapu_id 64) by lia. by rewrite (proj2 (Z.ltb_ge _ _)), Hg by lia.
  - exact (write_spec k H F i c buf offset HH HF Hi (proj1 Hoff) Hlen Hh).
Qed.

(** bytes written are the bytes read back, and no other file reads
    differently after the write. *)
Theorem ramfs_write_read_roundtrip k H F i c buf offset n k' :
  heap (k_k k) H -> files_rep k H F -> F !! i = Some c -> 0 <= offset -> offset + slen buf <= 2 ^ 62 ->
  ramfs_write k i buf offset = Some (n, k') -> 0 <= n ->
  ramfs_read k' i (slen buf) offset = (slen buf, buf) /\
  forall j len off, j <> i -> is_Some (F !! j) -> 0 <= len < 2 ^ 63 -> 0 <= off ->
    ramfs_read k' j len off = ramfs_read k j len off.
Proof.
  intros HH HF Hi Hoff Hend E Hn. destruct (write_spec k H F i c buf offset HH HF Hi Hoff ltac:(lia) ltac:(lia)) as [E'|(k2 & H2 & E' & _ & _ & HF2)].
  { rewrite E in E'. injection E' as -> ->. by vm_compute in Hn. }
  rewrite E in E'. injection E' as -> ->. destruct HF2 as [HF2 _]. assert (Hsl : 0 <= slen buf) by (unfold slen; lia). split.
  - assert (HFi := HF2 i _ (lookup_insert_eq _ _ _)). assert (Hsm := file_small _ _ _ _ HFi).
    rewrite (read_spec _ _ _ _ (slen buf) offset HFi) by (try done; lia). unfold slen at 2 4. rewrite Nat2Z.id.
    by rewrite splice_read by apply get_bytes_length.
  - intros j len off Hne [cj Hj] Hlen Hoff'. assert (HFj := proj1 HF j cj Hj).
    assert (HFj2 := HF2 j cj ltac:(by rewrite lookup_insert_ne)). assert (Hsm := file_small _ _ _ _ HFj).
    by rewrite (read_spec _ _ _ _ len off HFj), (read_spec _ _ _ _ len off HFj2).
Qed.
End Files.


(** ** Examples *)

(** One empty file. *)
Definition file_kernel : kernel :=
  mkKernel (mkWaits running ∅ ∅ ∅) k16 ∅ ∅ ∅ ∅
    {[ 900 := mkInode 7 0 S_IFREG 33261 0 false ramfs_file_ops 0 1 1 I_PERSISTENT true 0 0 0 0 ]}
    ∅ ∅ 8 (mkTty ∅ 0 0 0 0 false false false (mkTermios 0 0 0 0 [])) [].

Lemma file_kernel_heap : slub_heap ∅ (k_k file_kernel) ∅.
Proof.
  destruct k16_inv as [HI Hs]. apply slub_heap_empty; [exact HI|exact Hs|vm_compute; reflexivity|].
  apply Z.mod_divide; [vm_compute; discriminate|vm_compute; reflexivity].
Qed.

Lemma file_kernel_file : file_rep file_kernel ∅ 900 [].
Proof.
  assert (E : inode_at file_kernel 900 = mkInode 7 0 S_IFREG 33261 0 false ramfs_file_ops 0 1 1 I_PERSISTENT true 0 0 0 0)
    by reflexivity.
  split; rewrite ?E; try reflexivity; [discriminate|]. left. cbn. split; [reflexivity|split; reflexivity].
Qed.

Lemma file_kernel_files : files_rep file_kernel ∅ {[ 900 := [] ]}.
Proof.
  split.
  - apply map_Forall_singleton, file_kernel_file.
  - intros i j Hne Hi Hj. apply lookup_singleton_is_Some in Hi, Hj. congruence.
Qed.

Definition write_result (k : kernel) (i : Z) (buf : list Z) (offset : Z) : Z :=
  match ramfs_write k i buf offset with Some (n, _) => n | None => -1 end.

Lemma write_result_ok : write_result file_kernel 900 [1; 2; 3] 5 = 3.
Proof. vm_compute. reflexivity. Qed.

Lemma ramfs_write_refines_witness :
  exists k' H' hole, ramfs_write file_kernel 900 [1; 2; 3] 5 = Some (3, k') /\
    files_rep k' H' {[ 900 := splice [] hole 5 [1; 2; 3] ]}.
Proof.
  destruct (ramfs_write_refines file_kernel ∅ {[ 900 := [] ]} 900 [] [1; 2; 3] 5 file_kernel_heap file_kernel_files
    (lookup_singleton_eq _ _) ltac:(lia) ltac:(vm_compute; reflexivity)) as [E|(k' & H' & E & _ & _ & HF)].
  - pose proof write_result_ok as W. unfold write_result in W. rewrite E in W. discriminate W.
  - cbv zeta in HF. rewrite insert_singleton_eq in HF. eexists k', H', _. split; [exact E|]. exact HF.
Defined.

Lemma write_result_some : exists k', ramfs_write file_kernel 900 [1; 2; 3] 5 = Some (3, k').
Proof.
  pose proof write_result_ok as W. unfold write_result in W.
  destruct (ramfs_write file_kernel 900 [1; 2; 3] 5) as [[n k']|]; [|discriminate W]. exists k'. by rewrite W.
Qed.

Lemma ramfs_write_read_roundtrip_witness :
  exists k', ramfs_write file_kernel 900 [1; 2; 3] 5 = Some (3, k') /\ ramfs_read k' 900 3 5 = (3, [1; 2; 3]).
Proof.
  destruct write_result_some as [k' E]. exists k'. split; [exact E|].
  exact (proj1 (ramfs_write_read_roundtrip file_kernel ∅ {[ 900 := [] ]} 900 [] [1; 2; 3] 5 3 k' file_kernel_heap
    file_kernel_files (lookup_singleton_eq _ _) ltac:(lia) ltac:(vm_compute; discriminate) E ltac:(lia))).
Defined.

