(* ===== verification/Directory.v ===== *)
(** * Directories of ramfs

    A directory of [fs/ramfs.c] is a list of entries linked through the
    entries themselves.  [tree k H D] says which entries each directory
    holds; finding, adding and removing entries refine lookup, insertion and
    deletion in a finite map from names to inodes, and a path walk refines
    the walk in those maps. *)
From S2P Require Import Prelude Errno PageAlloc Slub Heap Sched Wait Kernel Path Ramfs.

#[local] Instance clinks_laws dir : @SListLaws kernel (clinks dir).
Proof.
  split. intros k c c' v. destruct c as [|x], c' as [|y]; cbn; unfold inode_at, rdent_at; cbn.
  - rewrite decide_True by done. by rewrite lookup_insert_eq.
  - rewrite decide_False by done. done.
  - rewrite decide_False by done. done.
  - destruct (decide (x = y)) as [->|Hne].
    + rewrite lookup_insert_eq. by rewrite decide_True.
    + rewrite lookup_insert_ne by done. rewrite decide_False by congruence. done.
Qed.

(** The entries [ds] of a directory, as a list and as a finite map. *)
Definition entry_name (k : kernel) (d : Z) : list Z := rd_name (rdent_at k d).
Definition entry (k : kernel) (d : Z) : list Z * Z := (entry_name k d, rd_inode (rdent_at k d)).
Definition dir_map (k : kernel) (ds : list Z) : gmap (list Z) Z := list_to_map (entry k <$> ds).

Record dir_rep (k : kernel) (H : gmap Z Z) (i : Z) (ds : list Z) : Prop := {
  dr_inode : i <> 0;
  dr_type : i_type (inode_at k i) = S_IFDIR;
  dr_chain : slist (H := clinks i) k ds;
  dr_names : NoDup (entry_name k <$> ds);
  dr_blocks : forall d, d ∈ ds -> H !! d = Some SIZEOF_RAMFS_DENTRY /\ is_Some (k_rdents k !! d)
}.

(** All directories: no entry is in two of them. *)
Record tree (k : kernel) (H : gmap Z Z) (D : gmap Z (list Z)) : Prop := {
  tr_dirs : map_Forall (dir_rep k H) D;
  tr_disj : forall i j ds es d, D !! i = Some ds -> D !! j = Some es -> d ∈ ds -> d ∈ es -> i = j
}.

(** What the file system says: a map from names to inodes per directory. *)
Definition dirs (k : kernel) (D : gmap Z (list Z)) : gmap Z (gmap (list Z) Z) := dir_map k <$> D.

(** ** Entries *)

Lemma entries_fuel k H i ds : dir_rep k H i ds -> (length ds < dents_fuel k)%nat.
Proof.
  intros HR. assert (Hnd := lseg_NoDup (H := clinks i) _ _ _ (dr_chain _ _ _ _ HR)). unfold dents_fuel.
  rewrite <- size_dom, <- (size_list_to_set (C := gset Z) ds Hnd).
  apply Nat.lt_succ_r, subseteq_size. intros d Hd. apply elem_of_list_to_set in Hd.
  apply elem_of_dom. by apply (dr_blocks _ _ _ _ HR).
Qed.

Lemma dir_map_cons k d ds : dir_map k (d :: ds) = <[entry_name k d := rd_inode (rdent_at k d)]> (dir_map k ds).
Proof. done. Qed.

Lemma dir_map_Some k ds name x :
  NoDup (entry_name k <$> ds) ->
  dir_map k ds !! name = Some x <-> exists d, d ∈ ds /\ entry_name k d = name /\ rd_inode (rdent_at k d) = x.
Proof.
  intros Hnd. unfold dir_map. rewrite <- elem_of_list_to_map.
  - rewrite list_elem_of_fmap. split.
    + intros (d & [= -> ->] & Hd). by exists d.
    + intros (d & Hd & <- & <-). by exists d.
  - rewrite <- list_fmap_compose. exact Hnd.
Qed.

Lemma dir_map_None k ds name : dir_map k ds !! name = None <-> name ∉ entry_name k <$> ds.
Proof. unfold dir_map. rewrite <- not_elem_of_list_to_map. by rewrite <- list_fmap_compose. Qed.

Lemma dir_map_ext k k' ds : (forall d, d ∈ ds -> entry k' d = entry k d) -> dir_map k' ds = dir_map k ds.
Proof. intros He. unfold dir_map. f_equal. apply list_fmap_ext. intros i d Hd. apply He. by eapply list_elem_of_lookup_2. Qed.

Lemma names_ext k k' (ds : list Z) : (forall d, d ∈ ds -> entry_name k' d = entry_name k d) -> entry_name k' <$> ds = entry_name k <$> ds.
Proof. intros He. apply list_fmap_ext. intros i d Hd. apply He. by eapply list_elem_of_lookup_2. Qed.

Lemma dir_map_remove k l1 d l2 :
  NoDup (entry_name k <$> l1 ++ d :: l2) -> dir_map k (l1 ++ l2) = delete (entry_name k d) (dir_map k (l1 ++ d :: l2)).
Proof.
  intros Hnd. assert (Hp : l1 ++ d :: l2 ≡ₚ d :: l1 ++ l2) by (by rewrite Permutation_middle).
  assert (Hnd' : NoDup (entry_name k <$> d :: l1 ++ l2)) by (by rewrite <- Hp). cbn in Hnd'. apply NoDup_cons in Hnd' as [Hn _].
  assert (E : dir_map k (l1 ++ d :: l2) = dir_map k (d :: l1 ++ l2)).
  { unfold dir_map. apply list_to_map_proper; [|by rewrite Hp]. by rewrite <- list_fmap_compose. }
  rewrite E, dir_map_cons, delete_insert_id; [done|]. by apply dir_map_None.
Qed.

Lemma elem_mid (l1 : list Z) d l2 : d ∈ l1 ++ d :: l2.
Proof. apply elem_of_app. right. left. Qed.

Lemma elem_rest (l1 : list Z) d l2 e : e ∈ l1 ++ l2 -> e ∈ l1 ++ d :: l2.
Proof. rewrite !elem_of_app, elem_of_cons. tauto. Qed.

Lemma NoDup_mid (l1 : list Z) d l2 e : NoDup (l1 ++ d :: l2) -> e ∈ l1 ++ l2 -> e <> d.
Proof.
  intros (_ & Hd1 & Hd2)%NoDup_app Hin ->. apply NoDup_cons in Hd2 as [Hd2 _].
  apply elem_of_app in Hin as [Hin|Hin]; [apply (Hd1 d Hin); left|done].
Qed.

(** [find_child_loop] is a search by name. *)
Lemma find_loop_spec dir k name ds : forall fuel d, lseg (H := clinks dir) k d ds -> (length ds < fuel)%nat ->
  (exists x, find_child_loop fuel k d name = Some x /\ x ∈ ds /\ entry_name k x = name) \/
  (find_child_loop fuel k d name = Some 0 /\ name ∉ entry_name k <$> ds).
Proof.
  induction ds as [|x ds IH]; intros fuel d Hl Hf; (destruct fuel as [|fuel]; [cbn in Hf; lia|]); cbn [find_child_loop].
  - cbn in Hl. subst d. right. split; [done|apply not_elem_of_nil].
  - destruct Hl as (-> & Hx & Hl). rewrite (proj2 (Z.eqb_neq _ _) Hx). case_bool_decide as Hn.
    + left. exists x. splits; [done|left|done].
    + destruct (IH fuel _ Hl ltac:(cbn in Hf; lia)) as [(y & E & Hy & Hyn)|[E Hnot]].
      * left. exists y. splits; [done|by right|done].
      * right. split; [done|]. cbn. apply not_elem_of_cons. split; [|done]. intros ->. by apply Hn.
Qed.

Lemma find_child_spec k H dir ds name :
  dir_rep k H dir ds ->
  (exists d, ramfs_find_child k dir name = Some d /\ d <> 0 /\ d ∈ ds /\ entry_name k d = name /\
     dir_map k ds !! name = Some (rd_inode (rdent_at k d))) \/
  (ramfs_find_child k dir name = Some 0 /\ dir_map k ds !! name = None).
Proof.
  intros HR. assert (Hf := entries_fuel _ _ _ _ HR). destruct HR as [Hi Ht Hc Hnd _]. unfold ramfs_find_child, itype.
  rewrite (proj2 (Z.eqb_neq _ _) Hi), Ht, Z.eqb_refl. cbn [orb negb].
  destruct (find_loop_spec dir k name ds _ _ Hc Hf) as [(d & E & Hd & Hn)|[E Hn]].
  - left. exists d. splits; try done.
    + by eapply (lseg_nonzero (H := clinks dir)).
    + apply dir_map_Some; [done|]. by exists d.
  - right. split; [done|]. by apply dir_map_None.
Qed.

(** ** Frames *)

(** The entries of a directory are untouched. *)
Lemma dir_rep_frame k H k' H' i ds :
  i_type (inode_at k' i) = i_type (inode_at k i) -> ri_children (inode_at k' i) = ri_children (inode_at k i) ->
  (forall d, d ∈ ds -> k_rdents k' !! d = k_rdents k !! d) -> (forall d, d ∈ ds -> H' !! d = H !! d) ->
  dir_rep k H i ds -> dir_rep k' H' i ds.
Proof.
  intros Et Ec Er EH [Hi Ht Hc Hn Hb].
  assert (Ed : forall d, d ∈ ds -> rdent_at k' d = rdent_at k d) by (intros d Hd; unfold rdent_at; by rewrite Er).
  split; [done|by rewrite Et| | |].
  - revert Hc. apply slist_frame; [|exact Ec]. intros d Hd. cbn. by rewrite Ed.
  - rewrite (names_ext k k'); [done|]. intros d Hd. unfold entry_name. by rewrite Ed.
  - intros d Hd. rewrite EH, Er by done. by apply Hb.
Qed.

(** What a change of directory [dir] leaves alone: the entries in none of its
    lists, the other inodes, and the inode of [dir] but for its list. *)
Record dir_frame (dir : Z) (ds ds' : list Z) (k k' : kernel) (H H' : gmap Z Z) : Prop := {
  df_rdents : forall d, d ∉ ds -> d ∉ ds' -> k_rdents k' !! d = k_rdents k !! d;
  df_heap : forall d, d ∉ ds -> d ∉ ds' -> H' !! d = H !! d;
  df_fresh : forall d, d ∈ ds' -> d ∉ ds -> H !! d = None;
  df_children : forall i, i <> dir -> ri_children (inode_at k' i) = ri_children (inode_at k i);
  df_type : forall i, i_type (inode_at k' i) = i_type (inode_at k i)
}.

Lemma tree_step k H k' H' D dir ds ds' :
  tree k H D -> D !! dir = Some ds -> dir_frame dir ds ds' k k' H H' -> dir_rep k' H' dir ds' ->
  tree k' H' (<[dir := ds']> D) /\ dirs k' (<[dir := ds']> D) = <[dir := dir_map k' ds']> (dirs k D).
Proof.
  intros [HD Hdisj] Hdir [Er EH Hfr Ec Et] HR.
  assert (Hout : forall i es d, i <> dir -> D !! i = Some es -> d ∈ es -> (d ∉ ds) /\ (d ∉ ds')).
  { intros i es d Hne Hi Hd. assert (Hnot : d ∉ ds) by (intros Hd'; by apply Hne, (Hdisj i dir es ds d)).
    split; [done|]. intros Hd'. specialize (Hfr d Hd' Hnot). destruct (dr_blocks _ _ _ _ (HD i es Hi) d Hd). congruence. }
  split; [split|].
  - intros i es [[<- <-]|[Hne Hi]]%lookup_insert_Some; [done|].
    apply (dir_rep_frame k H); [apply Et|by apply Ec| | |by apply HD];
      intros d Hd; destruct (Hout i es d ltac:(done) Hi Hd); first [by apply Er|by apply EH].
  - intros i j es fs d [[<- <-]|[Hi Hei]]%lookup_insert_Some [[<- <-]|[Hj Hej]]%lookup_insert_Some Hd Hd'; try done.
    + by destruct (Hout j fs d) as [_ ?].
    + by destruct (Hout i es d) as [_ ?].
    + by apply (Hdisj i j es fs d).
  - unfold dirs. rewrite fmap_insert. apply map_eq. intros i. destruct (decide (dir = i)) as [<-|Hne].
    + by rewrite !lookup_insert_eq.
    + rewrite !lookup_insert_ne, !lookup_fmap by done. destruct (D !! i) as [es|] eqn:Hi; [|done]. cbn. f_equal.
      apply dir_map_ext. intros d Hd. destruct (Hout i es d ltac:(done) Hi Hd).
      unfold entry, entry_name, rdent_at. by rewrite Er.
Qed.

(** Nothing but the heap, inodes and entries changes; and an inode apart from
    the list of its entries. *)
Definition only_names (k k' : kernel) : Prop := k' = set_k_k (k_k k') (set_k_inodes (k_inodes k') (set_k_rdents (k_rdents k') k)).
Definition but_children (x : inode) : inode := set_ri_children 0 x.

Lemma only_names_trans k1 k2 k3 : only_names k1 k2 -> only_names k2 k3 -> only_names k1 k3.
Proof. unfold only_names. intros E1 E2. rewrite E2, E1. done. Qed.

Lemma only_names_upd k i g : only_names k (upd_inode k i g).
Proof. by destruct k. Qed.

Section Tree.
Context {heap : slub -> gmap Z Z -> Prop} `{!HeapSpec heap}.

(** The state in which [d] names [ri] in [dir]. *)
Definition linked (k : kernel) (m : slub) (dir : Z) (name : list Z) (ri d : Z) : kernel :=
  let k := set_k_k m k in
  let k := if itype k ri =? S_IFDIR then upd_inode k ri (set_ri_parent dir) else k in
  let k := upd_rdent k d (fun _ => mkRdent (ramfs_set_name name) ri (ri_children (inode_at k dir))) in
  upd_inode k dir (set_ri_children d).

Lemma linked_inode k m dir name ri d i :
  inode_at (linked k m dir name ri d) i =
  (if decide (i = dir) then set_ri_children d else id)
    ((if decide (i = ri /\ itype k ri = S_IFDIR) then set_ri_parent dir else id) (inode_at k i)).
Proof.
  unfold linked. rewrite inode_at_upd, !inode_at_rdent. change (itype (set_k_k m k) ri) with (itype k ri).
  destruct (Z.eqb_spec (itype k ri) S_IFDIR) as [Ht|Ht]; rewrite ?inode_at_upd;
    repeat case_decide; subst; cbn; try done; naive_solver.
Qed.

Lemma linked_rdents k m dir name ri d :
  k_rdents (linked k m dir name ri d) = <[d := mkRdent (ramfs_set_name name) ri (ri_children (inode_at k dir))]> (k_rdents k).
Proof.
  unfold linked. change (itype (set_k_k m k) ri) with (itype k ri). destruct (itype k ri =? S_IFDIR); [|done].
  unfold upd_rdent, upd_inode. cbn. do 2 f_equal. unfold inode_at. cbn. destruct (decide (ri = dir)) as [->|Hne].
  - by rewrite lookup_insert_eq.
  - by rewrite lookup_insert_ne.
Qed.

(** ** Adding and removing *)

Lemma add_child_spec k H D dir ds name ri :
  heap (k_k k) H -> tree k H D -> D !! dir = Some ds -> slen name <= RAMFS_NAME_MAX ->
  match dir_map k ds !! name with
  | Some _ => ramfs_add_child k dir name ri = Some (- EEXIST, k)
  | None =>
      ramfs_add_child k dir name ri = Some (- ENOMEM, k) \/
      exists d m, ramfs_add_child k dir name ri = Some (0, linked k m dir name ri d) /\ d <> 0 /\ H !! d = None /\
        heap m (<[d := SIZEOF_RAMFS_DENTRY]> H) /\
        tree (linked k m dir name ri d) (<[d := SIZEOF_RAMFS_DENTRY]> H) (<[dir := d :: ds]> D) /\
        dirs (linked k m dir name ri d) (<[dir := d :: ds]> D) = <[dir := <[name := ri]> (dir_map k ds)]> (dirs k D)
  end.
Proof.
  intros HH HT Hdir Hname. assert (HR := tr_dirs _ _ _ HT dir ds Hdir). destruct (HR) as [Hi Ht Hc Hnd Hb].
  unfold ramfs_add_child, itype. rewrite (proj2 (Z.eqb_neq _ _) Hi), Ht, Z.eqb_refl. cbn [orb negb].
  destruct (find_child_spec k H dir ds name HR) as [(e & -> & He & _ & _ & ->)|[-> Hnone]]; cbn [mbind option_bind].
  { by rewrite (proj2 (Z.eqb_neq _ _) He). }
  rewrite Hnone. change (negb (0 =? 0)) with false. cbn [negb]. unfold k_malloc.
  destruct (heap_malloc (k_k k) H SIZEOF_RAMFS_DENTRY HH) as [->|(d & m & -> & Hd & Hfree & Hm)];
    [unfold SIZEOF_RAMFS_DENTRY; lia|left|right]; cbn [mbind option_bind].
  { rewrite Z.eqb_refl. by destruct k. }
  rewrite (proj2 (Z.eqb_neq _ _) Hd). exists d, m. split; [done|].
  assert (Hdn : d ∉ ds) by (intros Hin; destruct (Hb d Hin); congruence).
  assert (Erd : forall e, e ∈ ds -> rdent_at (linked k m dir name ri d) e = rdent_at k e).
  { intros e He. unfold rdent_at. rewrite linked_rdents, lookup_insert_ne by congruence. done. }
  assert (Ed : rdent_at (linked k m dir name ri d) d = mkRdent (ramfs_set_name name) ri (ri_children (inode_at k dir))).
  { unfold rdent_at. by rewrite linked_rdents, lookup_insert_eq. }
  assert (Ename : ramfs_set_name name = name).
  { unfold ramfs_set_name. apply take_ge. unfold slen in Hname. lia. }
  assert (Emap : dir_map (linked k m dir name ri d) (d :: ds) = <[name := ri]> (dir_map k ds)).
  { rewrite dir_map_cons. unfold entry_name. rewrite Ed. cbn. rewrite Ename. f_equal. apply dir_map_ext. intros e He.
    unfold entry, entry_name. by rewrite Erd. }
  rewrite <- Emap. do 3 (split; [done|]). apply (tree_step k H _ _ D dir ds); [done..| |].
  - split.
    + intros e _ He. rewrite linked_rdents, lookup_insert_ne; [done|]. set_solver.
    + intros e _ He. rewrite lookup_insert_ne; [done|]. set_solver.
    + intros e He Hn. set_solver.
    + intros i Hne. rewrite linked_inode, decide_False by done. cbn. by case_decide.
    + intros i. rewrite linked_inode. by repeat case_decide.
  - split.
    + done.
    + rewrite linked_inode. by repeat case_decide.
    + unfold slist. cbn. rewrite linked_inode, decide_True by done. cbn. splits; [done|done|]. rewrite Ed. cbn.
      eapply (lseg_frame (H := clinks dir)); [|exact Hc]. intros e He. cbn. by rewrite Erd.
    + cbn. apply NoDup_cons. split.
      * unfold entry_name at 1. rewrite Ed. cbn. rewrite Ename. apply dir_map_None in Hnone.
        rewrite (names_ext k); [done|]. intros e He. unfold entry_name. by rewrite Erd.
      * rewrite (names_ext k); [done|]. intros e He. unfold entry_name. by rewrite Erd.
    + intros e He. rewrite linked_rdents. apply elem_of_cons in He as [->|He].
      * rewrite !lookup_insert_eq. split; [done|by eexists].
      * rewrite !lookup_insert_ne by congruence. by apply Hb.
Qed.

(** The state in which the entry [d] behind [l1] is gone. *)
Definition cut (k : kernel) (dir : Z) (l1 : list Z) (d : Z) : kernel :=
  @sset _ (clinks dir) k (default CHead (CNext <$> last l1)) (rd_next (rdent_at k d)).
Definition unlinked (k : kernel) (m : slub) (dir : Z) (l1 : list Z) (d : Z) : kernel :=
  set_k_rdents (delete d (k_rdents (cut k dir l1 d))) (set_k_k m (cut k dir l1 d)).

Lemma cut_k k dir l1 d : k_k (cut k dir l1 d) = k_k k.
Proof. unfold cut. by destruct (last l1). Qed.

Lemma cut_inode k dir l1 d i :
  exists v, inode_at (cut k dir l1 d) i = if decide (i = dir) then set_ri_children v (inode_at k i) else inode_at k i.
Proof.
  unfold cut. destruct (last l1) as [y|]; cbn.
  - exists (ri_children (inode_at k i)). rewrite inode_at_rdent. case_decide; [|done]. by destruct (inode_at k i).
  - eexists. rewrite inode_at_upd. repeat case_decide; subst; done.
Qed.

Lemma cut_rdents k dir l1 d e :
  is_Some (k_rdents k !! e) ->
  (e ∉ l1 -> k_rdents (cut k dir l1 d) !! e = k_rdents k !! e) /\
  is_Some (k_rdents (cut k dir l1 d) !! e) /\ entry (cut k dir l1 d) e = entry k e.
Proof.
  intros He. unfold cut. destruct (last l1) as [y|] eqn:El; cbn; [|done].
  apply last_Some_elem_of in El. unfold entry, entry_name. rewrite rdent_at_upd. destruct (decide (y = e)) as [->|Hne].
  - rewrite lookup_insert_eq. by splits.
  - rewrite lookup_insert_ne by done. by splits.
Qed.

Lemma unlinked_rdents k m dir l1 d e :
  is_Some (k_rdents k !! e) -> e <> d ->
  (e ∉ l1 -> k_rdents (unlinked k m dir l1 d) !! e = k_rdents k !! e) /\
  is_Some (k_rdents (unlinked k m dir l1 d) !! e) /\ entry (unlinked k m dir l1 d) e = entry k e.
Proof.
  intros He Hne. destruct (cut_rdents k dir l1 d e He) as (E & Hs & <-). unfold entry, entry_name, rdent_at, unlinked. cbn.
  by rewrite lookup_delete_ne.
Qed.

Lemma unlinked_inode k m dir l1 d i :
  exists v, inode_at (unlinked k m dir l1 d) i = if decide (i = dir) then set_ri_children v (inode_at k i) else inode_at k i.
Proof. exact (cut_inode k dir l1 d i). Qed.

(** The directory after the removal. *)
Lemma unlinked_rep k H m dir l1 d l2 :
  dir_rep k H dir (l1 ++ d :: l2) -> dir_rep (unlinked k m dir l1 d) (delete d H) dir (l1 ++ l2).
Proof.
  intros [Hi Ht Hc Hnd Hb]. assert (Hdn := lseg_NoDup (H := clinks dir) _ _ _ Hc).
  assert (Hout : forall e, e ∈ l1 ++ l2 -> e <> d /\ e ∈ l1 ++ d :: l2).
  { intros e He. split; [by eapply NoDup_mid|by apply elem_rest]. }
  assert (He : forall e, e ∈ l1 ++ l2 -> is_Some (k_rdents (unlinked k m dir l1 d) !! e) /\ entry (unlinked k m dir l1 d) e = entry k e).
  { intros e Hin. destruct (Hout e Hin) as [Hne Hin']. apply unlinked_rdents; [|done]. by apply Hb. }
  split; [done|..].
  - destruct (unlinked_inode k m dir l1 d dir) as [v ->]. by rewrite decide_True.
  - assert (Hl := lseg_unlink (H := clinks dir) k CHead d l1 l2 Hc ltac:(done)). cbn zeta in Hl. fold (cut k dir l1 d) in Hl.
    unfold slist. change (sget (unlinked k m dir l1 d) CHead) with (@sget _ (clinks dir) (cut k dir l1 d) CHead).
    revert Hl. apply lseg_frame. intros e Hin. cbn. unfold rdent_at, unlinked. cbn.
    rewrite lookup_delete_ne; [done|]. intros <-. by destruct (Hout d Hin).
  - assert (E : entry_name (unlinked k m dir l1 d) <$> l1 ++ l2 = entry_name k <$> l1 ++ l2).
    { apply names_ext. intros e Hin. exact (f_equal fst (proj2 (He e Hin))). }
    rewrite E. apply (sublist_NoDup _ _ Hnd). apply fmap_sublist. apply sublist_app; [done|]. by apply sublist_cons.
  - intros e Hin. destruct (Hout e Hin) as [Hne Hin']. rewrite lookup_delete_ne by done. split; [by apply Hb|by apply He].
Qed.

Lemma remove_loop_spec k dir name d ds2 : entry_name k d = name -> forall fuel l1 c,
  lseg (H := clinks dir) k (@sget _ (clinks dir) k c) (l1 ++ d :: ds2) -> name ∉ entry_name k <$> l1 -> (length l1 < fuel)%nat ->
  remove_child_loop fuel k dir name c =
    (k' ← free_dentry (@sset _ (clinks dir) k (default c (CNext <$> last l1)) (rd_next (rdent_at k d))) d;
     Some (0, rd_inode (rdent_at k d), k')).
Proof.
  intros Hname. induction fuel as [|fuel IH]; intros l1 c Hl Hn Hf; [lia|]. cbn [remove_child_loop].
  destruct l1 as [|y l1]; cbn [app] in Hl; destruct Hl as (E & Hy & Hl); rewrite E, (proj2 (Z.eqb_neq _ _) Hy).
  - by rewrite bool_decide_true.
  - cbn in Hn. apply not_elem_of_cons in Hn as [Hyn Hn]. rewrite bool_decide_false by (intros Hy'; by apply Hyn).
    rewrite (IH l1 (CNext y) Hl Hn) by (cbn in Hf; lia). by rewrite (last_cell_cons c y).
Qed.

Lemma remove_loop_absent k dir name : forall fuel l c,
  lseg (H := clinks dir) k (@sget _ (clinks dir) k c) l -> name ∉ entry_name k <$> l -> (length l < fuel)%nat ->
  remove_child_loop fuel k dir name c = Some (- ENOENT, 0, k).
Proof.
  induction fuel as [|fuel IH]; intros l c Hl Hn Hf; [lia|]. cbn [remove_child_loop].
  destruct l as [|y l]; cbn [lseg] in Hl; [by rewrite Hl|]. destruct Hl as (E & Hy & Hl). rewrite E, (proj2 (Z.eqb_neq _ _) Hy).
  cbn in Hn. apply not_elem_of_cons in Hn as [Hyn Hn]. rewrite bool_decide_false by (intros Hy'; by apply Hyn).
  apply (IH l (CNext y) Hl Hn). cbn in Hf. lia.
Qed.

Lemma remove_child_spec k H D dir ds name :
  heap (k_k k) H -> tree k H D -> D !! dir = Some ds ->
  match dir_map k ds !! name with
  | None => ramfs_remove_child k dir name = Some (- ENOENT, 0, k)
  | Some ri =>
      exists l1 d l2 m, ds = l1 ++ d :: l2 /\ entry k d = (name, ri) /\
        ramfs_remove_child k dir name = Some (0, ri, unlinked k m dir l1 d) /\ heap m (delete d H) /\
        tree (unlinked k m dir l1 d) (delete d H) (<[dir := l1 ++ l2]> D) /\
        dirs (unlinked k m dir l1 d) (<[dir := l1 ++ l2]> D) = <[dir := delete name (dir_map k ds)]> (dirs k D)
  end.
Proof.
  intros HH HT Hdir. assert (HR := tr_dirs _ _ _ HT dir ds Hdir). assert (Hf := entries_fuel _ _ _ _ HR).
  destruct (HR) as [Hi Ht Hc Hnd Hb].
  unfold ramfs_remove_child, itype. rewrite (proj2 (Z.eqb_neq _ _) Hi), Ht, Z.eqb_refl. cbn [orb negb].
  destruct (dir_map k ds !! name) as [ri|] eqn:Em.
  2:{ apply dir_map_None in Em. by apply (remove_loop_absent k dir name _ ds CHead Hc). }
  apply dir_map_Some in Em as (d & Hd & Hname & Hri); [|done]. apply list_elem_of_split in Hd as (l1 & l2 & ->).
  assert (Hnd' := Hnd). rewrite fmap_app, fmap_cons in Hnd'. apply NoDup_app in Hnd' as (_ & Hn1 & Hn2).
  assert (Hn : name ∉ entry_name k <$> l1) by (intros Hin; apply (Hn1 name Hin); rewrite Hname; left).
  assert (Hdn : NoDup (l1 ++ d :: l2)) by exact (lseg_NoDup (H := clinks dir) _ _ _ Hc).
  rewrite length_app in Hf. rewrite (remove_loop_spec k dir name d l2 Hname _ l1 CHead Hc Hn) by lia.
  fold (cut k dir l1 d). unfold free_dentry, k_free. rewrite cut_k.
  destruct (heap_free (k_k k) H d HH) as (m & -> & Hm); [rewrite (proj1 (Hb d ltac:(set_solver))); by eexists|].
  cbn [mbind option_bind]. exists l1, d, l2, m. rewrite Hri. split; [done|]. split; [unfold entry; by rewrite Hname, Hri|].
  split; [done|]. split; [done|]. assert (HR' := unlinked_rep k H m dir l1 d l2 HR).
  assert (Emap : dir_map (unlinked k m dir l1 d) (l1 ++ l2) = delete name (dir_map k (l1 ++ d :: l2))).
  { rewrite <- Hname, <- dir_map_remove by done. apply dir_map_ext. intros e He.
    apply unlinked_rdents; [by apply Hb, elem_rest|by eapply NoDup_mid]. }
  rewrite <- Emap. apply (tree_step k H _ _ D dir (l1 ++ d :: l2)); [done|done| |done]. split.
  - intros e He _. unfold unlinked. cbn. rewrite lookup_delete_ne by set_solver. unfold cut.
    destruct (last l1) as [y|] eqn:El; cbn; [|done]. rewrite lookup_insert_ne; [done|]. apply last_Some_elem_of in El. set_solver.
  - intros e He _. rewrite lookup_delete_ne by set_solver. done.
  - intros e He Hn'. set_solver.
  - intros i Hne. destruct (unlinked_inode k m dir l1 d i) as [v ->]. by rewrite decide_False.
  - intros i. destruct (unlinked_inode k m dir l1 d i) as [v ->]. by case_decide.
Qed.

(** ** Path walks *)

(** The parent of a directory; the root is its own. *)
Definition parent_of (k : kernel) (dir : Z) : Z := if ri_parent (inode_at k dir) =? 0 then dir else ri_parent (inode_at k dir).

(** The walk of a list of components in the maps of the directories. *)
Fixpoint walk (k : kernel) (A : gmap Z (gmap (list Z) Z)) (dir : Z) (cs : list (list Z)) : option Z :=
  match cs with
  | [] => Some dir
  | c :: cs' =>
      if is_dot c then walk k A dir cs'
      else if is_dotdot c then walk k A (parent_of k dir) cs'
      else
        m ← A !! dir;
        x ← m !! c;
        match cs' with
        | [] => Some x
        | _ => if itype k x =? S_IFDIR then walk k A x cs' else None
        end
  end.

(** Every directory that an entry or a parent link names is in the tree. *)
Record closed (k : kernel) (D : gmap Z (list Z)) : Prop := {
  cl_entry : forall i ds d, D !! i = Some ds -> d ∈ ds -> itype k (rd_inode (rdent_at k d)) = S_IFDIR -> is_Some (D !! rd_inode (rdent_at k d));
  cl_parent : forall i, is_Some (D !! i) -> is_Some (D !! parent_of k i)
}.

Lemma dirs_lookup k D i ds : D !! i = Some ds -> dirs k D !! i = Some (dir_map k ds).
Proof. intros Hi. unfold dirs. by rewrite lookup_fmap, Hi. Qed.

Lemma span_max_eq p n r : span_name p = (n, r) -> p = n ++ r -> slen n <= RAMFS_NAME_MAX -> span_max p = (n, r).
Proof.
  intros E Ep Hn. unfold span_max. rewrite E, take_ge by (unfold slen in Hn; lia). f_equal. rewrite Ep. by rewrite drop_app_length.
Qed.

Lemma lookup_loop_spec k H D : tree k H D -> closed k D -> forall fuel dir c p,
  is_Some (D !! dir) -> (c =? slash) = false -> (length (c :: p) < fuel)%nat ->
  Forall (fun n => slen n <= RAMFS_NAME_MAX) (components (c :: p)) ->
  lookup_at_loop fuel k dir (c :: p) = Some (default 0 (walk k (dirs k D) dir (components (c :: p)))).
Proof.
  intros HT HC. induction fuel as [|fuel IH]; intros dir c p Hdir Hc Hf Hlen; [lia|].
  assert (Hsp := components_span p c Hc). destruct (span_name (c :: p)) as [n r] eqn:Es.
  destruct Hsp as (Ecomp & Hn & Hr & Ep). rewrite Ecomp in *. apply Forall_cons in Hlen as [Hln Hlen].
  cbn [lookup_at_loop]. rewrite (span_max_eq _ n r Es Ep Hln), bool_decide_false by (destruct Hn; done).
  assert (Hnext : forall dir', is_Some (D !! dir') ->
    (if bool_decide (skip_slash r = []) then Some dir' else lookup_at_loop fuel k dir' (skip_slash r)) =
    Some (default 0 (walk k (dirs k D) dir' (components r)))).
  { intros dir' Hdir'. assert (Hl := skip_slash_length r). rewrite <- (components_skip r) in *.
    destruct (skip_slash r) as [|c' q] eqn:Eq; [done|]. rewrite bool_decide_false by done.
    apply IH; [done|by eapply skip_slash_head|lia|done]. }
  cbn [walk]. destruct (is_dot n); [by apply Hnext|].
  destruct (is_dotdot n); [apply (Hnext (parent_of k dir)), (cl_parent _ _ HC), Hdir|].
  destruct Hdir as [ds Hds]. rewrite (dirs_lookup k D dir ds Hds). cbn [mbind option_bind].
  destruct (find_child_spec k H dir ds n (tr_dirs _ _ _ HT dir ds Hds)) as [(d & -> & Hd & Hin & _ & ->)|[-> ->]];
    cbn [mbind option_bind]; [|done].
  rewrite (proj2 (Z.eqb_neq _ _) Hd). assert (Ht := cl_entry _ _ HC dir ds d Hds Hin).
  destruct (decide (skip_slash r = [])) as [Er|Er].
  - rewrite bool_decide_true by done. by rewrite (skip_slash_nil r Er).
  - rewrite bool_decide_false by done. destruct (skip_slash r) as [|c' q] eqn:Eq; [done|].
    assert (Hne : exists a b, components r = a :: b).
    { rewrite <- components_skip, Eq. assert (H2 := components_span q c' (skip_slash_head r c' q Eq)).
      destruct (span_name (c' :: q)). destruct H2 as [-> _]. eauto. }
    destruct Hne as (a & b & Eab). rewrite Eab. destruct (Z.eqb_spec (itype k (rd_inode (rdent_at k d))) S_IFDIR) as [Hty|Hty]; [|done].
    cbn [negb]. rewrite <- Eab, <- (Hnext _ (Ht Hty)). by rewrite bool_decide_false by done.
Qed.

Lemma lookup_at_spec k H D dir path :
  tree k H D -> closed k D -> is_Some (D !! dir) -> Forall (fun n => slen n <= RAMFS_NAME_MAX) (components path) ->
  ramfs_lookup_at k dir path = Some (default 0 (walk k (dirs k D) dir (components path))).
Proof.
  intros HT HC Hdir Hlen. unfold ramfs_lookup_at. rewrite <- (components_skip path) in *.
  destruct (skip_slash path) as [|c p] eqn:E; [done|]. rewrite bool_decide_false by done.
  apply (lookup_loop_spec k H D HT HC); [done|by eapply skip_slash_head|lia|done].
Qed.

(** ** Links

    The inodes are the root and those of [I]; every inode of [I] is an object
    of the heap, every entry names one of them, and the link count of an inode
    that is no directory is the number of entries that name it. *)

Definition all_entries (D : gmap Z (list Z)) : list Z := concat (snd <$> map_to_list D).
Definition refs (k : kernel) (D : gmap Z (list Z)) (i : Z) : Z := slen (filter (fun d => rd_inode (rdent_at k d) = i) (all_entries D)).

Record fs_inv (k : kernel) (H : gmap Z Z) (D : gmap Z (list Z)) (I : gset Z) : Prop := {
  fi_tree : tree k H D;
  fi_live : forall i, i ∈ I -> H !! i = Some SIZEOF_RAMFS_INODE /\ i <> root_inode /\ is_Some (k_inodes k !! i) /\
              i_free (inode_at k i) = true /\ has (i_flags (inode_at k i)) I_PERSISTENT = true;
  fi_whole : forall i, is_Some (k_inodes k !! i) -> i = root_inode \/ i ∈ I;
  fi_named : forall dir ds d, D !! dir = Some ds -> d ∈ ds -> rd_inode (rdent_at k d) ∈ I;
  fi_dirs : forall dir, is_Some (D !! dir) -> dir = root_inode \/ dir ∈ I;
  fi_nlink : forall i, i ∈ I -> itype k i <> S_IFDIR -> i_nlink (inode_at k i) = refs k D i;
  fi_data : forall i, i ∈ I -> ri_data (inode_at k i) <> 0 ->
              H !! ri_data (inode_at k i) = Some (ri_capacity (inode_at k i)) /\ (ri_data (inode_at k i) ∉ I) /\
              (ri_data (inode_at k i) ∉ all_entries D);
  fi_own : forall i j, i ∈ I -> j ∈ I -> ri_data (inode_at k i) = ri_data (inode_at k j) -> ri_data (inode_at k i) <> 0 -> i = j
}.

Lemma elem_of_all_entries D d : d ∈ all_entries D <-> exists dir ds, D !! dir = Some ds /\ d ∈ ds.
Proof.
  unfold all_entries. rewrite list_elem_of_In, in_concat. setoid_rewrite <- list_elem_of_In. split.
  - intros (ds & Hds & Hd). apply list_elem_of_fmap in Hds as ([dir es] & -> & Hin). apply elem_of_map_to_list in Hin. eauto.
  - intros (dir & ds & Hin & Hd). exists ds. split; [|done]. apply list_elem_of_fmap. exists (dir, ds). split; [done|].
    by apply elem_of_map_to_list.
Qed.

Lemma all_entries_insert D dir ds : all_entries (<[dir := ds]> D) ≡ₚ ds ++ all_entries (delete dir D).
Proof.
  unfold all_entries. rewrite <- insert_delete_eq. rewrite map_to_list_insert by apply lookup_delete_eq. done.
Qed.

Lemma all_entries_lookup D dir ds : D !! dir = Some ds -> all_entries D ≡ₚ ds ++ all_entries (delete dir D).
Proof. intros Hd. rewrite <- (insert_id D dir ds Hd) at 1. apply all_entries_insert. Qed.

Lemma refs_ext k k' (l : list Z) i :
  (forall d, d ∈ l -> rd_inode (rdent_at k' d) = rd_inode (rdent_at k d)) ->
  filter (fun d => rd_inode (rdent_at k' d) = i) l = filter (fun d => rd_inode (rdent_at k d) = i) l.
Proof.
  induction l as [|d l IH]; intros He; [done|]. rewrite !filter_cons, IH by (intros e Hin; apply He; by right).
  rewrite (He d ltac:(left)). done.
Qed.

Lemma refs_pos k D i d : d ∈ all_entries D -> rd_inode (rdent_at k d) = i -> 0 < refs k D i.
Proof.
  intros Hd Hi. assert (Hin : d ∈ filter (fun d => rd_inode (rdent_at k d) = i) (all_entries D)) by (by apply list_elem_of_filter).
  unfold refs, slen. destruct (filter _ _); [by apply not_elem_of_nil in Hin|cbn; lia].
Qed.

(** One entry more, one entry less. *)
Lemma refs_cons k k' D dir ds d i :
  D !! dir = Some ds -> (forall e, e ∈ all_entries D -> rd_inode (rdent_at k' e) = rd_inode (rdent_at k e)) ->
  refs k' (<[dir := d :: ds]> D) i = refs k D i + (if decide (rd_inode (rdent_at k' d) = i) then 1 else 0).
Proof.
  intros Hd He. unfold refs, slen. rewrite all_entries_insert. cbn [app]. rewrite filter_cons.
  rewrite <- (refs_ext k k' (all_entries D) i He). rewrite (all_entries_lookup D dir ds Hd).
  case_decide; cbn [length]; lia.
Qed.

Lemma refs_remove k k' D dir l1 d l2 i :
  D !! dir = Some (l1 ++ d :: l2) ->
  (forall e, e ∈ l1 ++ l2 ++ all_entries (delete dir D) -> rd_inode (rdent_at k' e) = rd_inode (rdent_at k e)) ->
  refs k' (<[dir := l1 ++ l2]> D) i = refs k D i - (if decide (rd_inode (rdent_at k d) = i) then 1 else 0).
Proof.
  intros Hd He. unfold refs, slen. rewrite all_entries_insert, <- app_assoc, (refs_ext k k' _ i He).
  rewrite (all_entries_lookup D dir _ Hd), <- app_assoc, <- app_comm_cons, <- Permutation_middle, filter_cons.
  case_decide; cbn [length]; lia.
Qed.

(** Directories depend on types, lists of entries and blocks only. *)
Lemma tree_frame k H k' H' D :
  k_rdents k' = k_rdents k ->
  (forall i, is_Some (D !! i) -> i_type (inode_at k' i) = i_type (inode_at k i) /\ ri_children (inode_at k' i) = ri_children (inode_at k i)) ->
  (forall d, d ∈ all_entries D -> H' !! d = H !! d) -> tree k H D -> tree k' H' D.
Proof.
  intros Er Ei EH [HD Hdisj]. split; [|done]. intros i ds Hi. destruct (Ei i ltac:(by exists ds)) as [Et Ec].
  apply (dir_rep_frame k H); [done|done| | |by apply HD]; intros d Hd; [by rewrite Er|].
  apply EH, elem_of_all_entries. eauto.
Qed.

Lemma rdents_frame k k' : k_rdents k' = k_rdents k -> (forall D, dirs k' D = dirs k D) /\ (forall D i, refs k' D i = refs k D i).
Proof.
  intros Er. assert (E : forall d, rdent_at k' d = rdent_at k d) by (intros d; unfold rdent_at; by rewrite Er). split.
  - intros D. unfold dirs. apply map_fmap_ext. intros i ds _. apply dir_map_ext. intros d _. unfold entry, entry_name. by rewrite E.
  - intros D i. unfold refs. f_equal. apply refs_ext. intros d _. by rewrite E.
Qed.

(** An entry of a tree is in one place. *)
Lemma tree_entry_once k H D dir l1 d l2 e :
  tree k H D -> D !! dir = Some (l1 ++ d :: l2) -> e ∈ l1 ++ l2 ++ all_entries (delete dir D) ->
  e <> d /\ is_Some (k_rdents k !! e).
Proof.
  intros HT Hd He. assert (HR := tr_dirs _ _ _ HT _ _ Hd). assert (Hdn := lseg_NoDup (H := clinks dir) _ _ _ (dr_chain _ _ _ _ HR)).
  rewrite app_assoc, elem_of_app, elem_of_all_entries in He. destruct He as [He|(j & es & Hj & He)].
  - split; [by eapply NoDup_mid|]. by apply (dr_blocks _ _ _ _ HR), elem_rest.
  - apply lookup_delete_Some in Hj as [Hne Hj]. split.
    + intros ->. apply Hne. eapply (tr_disj _ _ _ HT); [exact Hd|exact Hj|apply elem_mid|done].
    + by apply (dr_blocks _ _ _ _ (tr_dirs _ _ _ HT _ _ Hj)).
Qed.

Lemma upd_nlink k i v j :
  let x := inode_at (upd_inode k i (set_i_nlink v)) j in
  i_type x = i_type (inode_at k j) /\ ri_children x = ri_children (inode_at k j) /\ ri_data x = ri_data (inode_at k j) /\
  ri_capacity x = ri_capacity (inode_at k j) /\ i_free x = i_free (inode_at k j) /\ i_flags x = i_flags (inode_at k j) /\
  i_count x = i_count (inode_at k j) /\ i_nlink x = (if decide (i = j) then v else i_nlink (inode_at k j)).
Proof. rewrite inode_at_upd. case_decide; subst; done. Qed.

(** Removing an entry and its link keeps the invariant. *)
Lemma fs_inv_unlink k H D I m dir l1 d l2 v :
  fs_inv k H D I -> D !! dir = Some (l1 ++ d :: l2) -> tree (unlinked k m dir l1 d) (delete d H) (<[dir := l1 ++ l2]> D) ->
  let ri := rd_inode (rdent_at k d) in
  (itype k ri <> S_IFDIR -> v = i_nlink (inode_at k ri) - 1) ->
  fs_inv (upd_inode (unlinked k m dir l1 d) ri (set_i_nlink v)) (delete d H) (<[dir := l1 ++ l2]> D) I.
Proof.
  intros HI Hd HT' ri Hv. destruct HI as [HT Hlive Hwhole Hnamed Hdirs Hnl Hdata Hown].
  set (k1 := unlinked k m dir l1 d) in *. set (k2 := upd_inode k1 ri (set_i_nlink v)).
  assert (Hb := dr_blocks _ _ _ _ (tr_dirs _ _ _ HT _ _ Hd) d (elem_mid l1 d l2)).
  assert (Hent : forall e, e ∈ l1 ++ l2 ++ all_entries (delete dir D) -> rdent_at k2 e = rdent_at k1 e /\ entry k1 e = entry k e).
  { intros e He. split; [done|]. destruct (tree_entry_once _ _ _ _ _ _ _ _ HT Hd He). by apply unlinked_rdents. }
  assert (Hino : forall i, exists w, inode_at k1 i = set_ri_children w (inode_at k i)).
  { intros i. destruct (unlinked_inode k m dir l1 d i) as [w Hw]. unfold k1. rewrite Hw. case_decide; [by eexists|].
    exists (ri_children (inode_at k i)). by destruct (inode_at k i). }
  assert (Hf : forall i, ri_data (inode_at k2 i) = ri_data (inode_at k i) /\ ri_capacity (inode_at k2 i) = ri_capacity (inode_at k i) /\
    i_free (inode_at k2 i) = i_free (inode_at k i) /\ i_flags (inode_at k2 i) = i_flags (inode_at k i) /\
    i_type (inode_at k2 i) = i_type (inode_at k i) /\
    i_nlink (inode_at k2 i) = (if decide (ri = i) then v else i_nlink (inode_at k i))).
  { intros i. destruct (upd_nlink k1 ri v i) as (E1 & _ & E3 & E4 & E5 & E6 & _ & E8). cbn zeta in *. fold k2 in E1, E3, E4, E5, E6, E8.
    destruct (Hino i) as [w Hw]. rewrite E1, E3, E4, E5, E6, E8, Hw. done. }
  assert (Hall : forall e, e ∈ all_entries (<[dir := l1 ++ l2]> D) -> e ∈ l1 ++ l2 ++ all_entries (delete dir D)).
  { intros e. rewrite all_entries_insert, <- app_assoc. done. }
  assert (Hall' : forall e, e ∈ all_entries (<[dir := l1 ++ l2]> D) -> e ∈ all_entries D).
  { intros e He. apply Hall in He. rewrite (all_entries_lookup D dir _ Hd). revert He. rewrite !elem_of_app, elem_of_cons. tauto. }
  split.
  - revert HT'. apply tree_frame; [done| |done]. intros i _. destruct (upd_nlink k1 ri v i) as (E1 & E2 & _). done.
  - intros i Hi. destruct (Hlive i Hi) as (Hh & Hr & Hp & Hfr & Hfl). destruct (Hf i) as (_ & _ & -> & -> & _).
    splits; [|done| |done|done].
    + rewrite lookup_delete_ne; [done|]. intros <-. destruct Hb as [Hb _]. rewrite Hh in Hb. discriminate Hb.
    + unfold k2, upd_inode. cbn. destruct (decide (ri = i)) as [->|Hne]; [rewrite lookup_insert_eq; by eexists|].
      rewrite lookup_insert_ne by done. unfold k1, unlinked, cut. cbn. destruct (last l1) as [y|]; cbn; [done|].
      destruct (decide (dir = i)) as [->|]; [rewrite lookup_insert_eq; by eexists|by rewrite lookup_insert_ne].
  - intros i. unfold k2, upd_inode. cbn. destruct (decide (ri = i)) as [<-|Hne].
    { intros _. right. eapply (Hnamed dir); [exact Hd|apply elem_mid]. }
    rewrite lookup_insert_ne by done. unfold k1, unlinked, cut. cbn. destruct (last l1) as [y|]; cbn; [apply Hwhole|].
    destruct (decide (dir = i)) as [<-|]; [intros _; by apply Hdirs|rewrite lookup_insert_ne by done; apply Hwhole].
  - intros j es e Hj He. assert (Hin : e ∈ all_entries (<[dir := l1 ++ l2]> D)) by (apply elem_of_all_entries; eauto).
    destruct (Hent e (Hall e Hin)) as [-> Ee]. apply (f_equal snd) in Ee. cbn in Ee. rewrite Ee.
    apply Hall', elem_of_all_entries in Hin as (j' & es' & Hj' & He'). by eapply Hnamed.
  - intros j Hj. apply Hdirs. destruct (decide (dir = j)) as [<-|]; [by eexists|by rewrite lookup_insert_ne in Hj].
  - intros i Hi Ht. unfold itype in *. destruct (Hf i) as (_ & _ & _ & _ & Eti & Eni). rewrite Eti in Ht. rewrite Eni.
    rewrite (refs_remove k k2 D dir l1 d l2 i Hd).
    2:{ intros e He. destruct (Hent e He) as [-> Ee]. exact (f_equal snd Ee). }
    fold ri. destruct (decide (ri = i)) as [<-|Hne]; [rewrite Hv, Hnl by done; lia|rewrite Hnl by done; lia].
  - intros i Hi. destruct (Hf i) as (-> & -> & _). intros Hnz. destruct (Hdata i Hi Hnz) as (Hh & Hn & He). splits; [|done|].
    + rewrite lookup_delete_ne; [done|]. intros E. apply He. rewrite <- E, (all_entries_lookup D dir _ Hd), elem_of_app. left. apply elem_mid.
    + intros Hin. by apply He, Hall'.
  - intros i j Hi Hj. destruct (Hf i) as (-> & _), (Hf j) as (-> & _). by apply Hown.
Qed.

(** The state in which the inode [i] and its data are gone. *)
Definition freed (k : kernel) (m : slub) (i : Z) : kernel := set_k_inodes (delete i (k_inodes k)) (set_k_k m k).

Lemma fs_inv_freed k H D I m i :
  heap (k_k k) H -> fs_inv k H D I -> i ∈ I -> itype k i <> S_IFDIR -> refs k D i = 0 ->
  fs_inv (freed k m i) (delete i (delete (ri_data (inode_at k i)) H)) D (I ∖ {[ i ]}).
Proof.
  intros HH [HT Hlive Hwhole Hnamed Hdirs Hnl Hdata Hown] Hi Hty Hrefs.
  assert (Hin : forall j, j <> i -> inode_at (freed k m i) j = inode_at k j).
  { intros j Hne. unfold inode_at, freed. cbn. by rewrite lookup_delete_ne. }
  assert (Hdir : forall j, is_Some (D !! j) -> j <> i).
  { intros j [ds Hj] ->. by apply Hty, (dr_type _ _ _ _ (tr_dirs _ _ _ HT _ _ Hj)). }
  assert (Hblk : forall x, H !! x = Some SIZEOF_RAMFS_DENTRY -> x <> i).
  { intros x Hx ->. destruct (Hlive i Hi) as [Hh _]. rewrite Hh in Hx. discriminate Hx. }
  assert (Hent : forall d, d ∈ all_entries D -> H !! d = Some SIZEOF_RAMFS_DENTRY /\ d <> ri_data (inode_at k i)).
  { intros d Hd. assert (Hd' := Hd). apply elem_of_all_entries in Hd as (j & es & Hj & Hd).
    destruct (dr_blocks _ _ _ _ (tr_dirs _ _ _ HT _ _ Hj) d Hd) as [Hh _]. split; [done|]. intros ->.
    destruct (decide (ri_data (inode_at k i) = 0)) as [E|Hnz].
    - rewrite E in Hd. by apply (lseg_nonzero (H := clinks j) _ _ _ _ (dr_chain _ _ _ _ (tr_dirs _ _ _ HT _ _ Hj)) Hd).
    - by destruct (Hdata i Hi Hnz) as (_ & _ & Hn). }
  assert (Hown' : forall j, j ∈ I -> j <> i -> ri_data (inode_at k j) <> 0 -> ri_data (inode_at k j) <> ri_data (inode_at k i)).
  { intros j Hj Hne Hnz E. by apply Hne, Hown. }
  destruct (rdents_frame k (freed k m i) eq_refl) as [_ Erefs].
  split.
  - revert HT. apply tree_frame; [done| |].
    + intros j Hj. by rewrite (Hin j (Hdir j Hj)).
    + intros d Hd. destruct (Hent d Hd) as [Hh Hne]. rewrite !lookup_delete_ne; [done|done|]. apply not_eq_sym. by apply Hblk.
  - intros j [Hj Hne%not_elem_of_singleton]%elem_of_difference. rewrite (Hin j Hne).
    destruct (Hlive j Hj) as (Hh & Hr & Hp & Hfr & Hfl). splits; try done.
    + rewrite !lookup_delete_ne; [done| |done]. intros E. destruct (decide (ri_data (inode_at k i) = 0)) as [E0|Hnz].
      * destruct (heap_block _ _ _ _ HH Hh). lia.
      * destruct (Hdata i Hi Hnz) as (_ & Hn & _). apply Hn. by rewrite E.
    + unfold freed. cbn. by rewrite lookup_delete_ne.
  - intros j [x Hx]. unfold freed in Hx. cbn in Hx. apply lookup_delete_Some in Hx as [Hne Hx].
    destruct (Hwhole j ltac:(by exists x)); [by left|right; set_solver].
  - intros j ds d Hj Hd. apply elem_of_difference. split; [by apply (Hnamed j ds d)|]. apply not_elem_of_singleton. intros E.
    assert (0 < refs k D i); [|lia]. apply (refs_pos k D i d); [|exact E]. apply elem_of_all_entries. eauto.
  - intros j Hj. destruct (Hdirs j Hj) as [|Hj']; [by left|right]. apply elem_of_difference. split; [done|].
    by apply not_elem_of_singleton, Hdir.
  - intros j [Hj Hne%not_elem_of_singleton]%elem_of_difference. unfold itype. rewrite (Hin j Hne), Erefs. by apply Hnl.
  - intros j [Hj Hne%not_elem_of_singleton]%elem_of_difference. rewrite (Hin j Hne). intros Hnz.
    destruct (Hdata j Hj Hnz) as (Hh & Hn & He). splits; [|set_solver|done].
    rewrite !lookup_delete_ne; [done|by apply not_eq_sym, Hown'|]. intros E. apply Hn. by rewrite <- E.
  - intros j l [Hj Hnj%not_elem_of_singleton]%elem_of_difference [Hl Hnl'%not_elem_of_singleton]%elem_of_difference.
    rewrite (Hin j Hnj), (Hin l Hnl'). by apply Hown.
Qed.

(** Counts of open files and blocks of others do not matter. *)
Lemma fs_inv_frame k k' H H' D I :
  fs_inv k H D I -> k_rdents k' = k_rdents k ->
  (forall i, set_i_count 0 (inode_at k' i) = set_i_count 0 (inode_at k i)) ->
  (forall i, is_Some (k_inodes k' !! i) <-> is_Some (k_inodes k !! i)) ->
  (forall x, x ∈ I \/ x ∈ all_entries D \/ (x <> 0 /\ exists i, i ∈ I /\ ri_data (inode_at k i) = x) -> H' !! x = H !! x) ->
  fs_inv k' H' D I.
Proof.
  intros [HT Hlive Hwhole Hnamed Hdirs Hnl Hdata Hown] Er Ei Hp EH. destruct (rdents_frame k k' Er) as [_ Erefs].
  assert (Hi : forall i, i_type (inode_at k' i) = i_type (inode_at k i) /\ ri_children (inode_at k' i) = ri_children (inode_at k i) /\
    i_free (inode_at k' i) = i_free (inode_at k i) /\ i_flags (inode_at k' i) = i_flags (inode_at k i) /\
    i_nlink (inode_at k' i) = i_nlink (inode_at k i) /\ ri_data (inode_at k' i) = ri_data (inode_at k i) /\
    ri_capacity (inode_at k' i) = ri_capacity (inode_at k i)).
  { intros i. specialize (Ei i). destruct (inode_at k' i), (inode_at k i). cbn in *. by injection Ei as -> -> -> -> -> -> -> -> -> -> -> -> -> -> ->. }
  assert (Hd : forall d, rdent_at k' d = rdent_at k d) by (intros d; unfold rdent_at; by rewrite Er).
  split.
  - revert HT. apply tree_frame; [done| |].
    + intros i _. by destruct (Hi i) as (-> & -> & _).
    + intros d Hin. apply EH. by right; left.
  - intros i Hin. destruct (Hi i) as (_ & _ & -> & -> & _). rewrite EH by (by left). destruct (Hlive i Hin) as (? & ? & ? & ? & ?). splits; try done. by apply Hp.
  - intros i Hin. by apply Hwhole, Hp.
  - intros dir ds d. rewrite Hd. apply Hnamed.
  - done.
  - intros i Hin. unfold itype. destruct (Hi i) as (-> & _ & _ & _ & -> & _). rewrite Erefs. by apply Hnl.
  - intros i Hin. destruct (Hi i) as (_ & _ & _ & _ & _ & -> & ->). intros Hnz. rewrite EH by (right; right; eauto). by apply Hdata.
  - intros i j H1 H2. destruct (Hi i) as (_ & _ & _ & _ & _ & -> & _), (Hi j) as (_ & _ & _ & _ & _ & -> & _). by apply Hown.
Qed.

(** [inode_maybe_evict]: the inode is freed when neither a link nor an open
    file is left. *)
Lemma evict_spec k H D I i :
  heap (k_k k) H -> fs_inv k H D I -> i ∈ I -> itype k i <> S_IFDIR ->
  exists k' H', inode_maybe_evict k i = Some k' /\ heap (k_k k') H' /\ k_rdents k' = k_rdents k /\
    fs_inv k' H' D (if decide (refs k D i = 0 /\ i_count (inode_at k i) = 0) then I ∖ {[ i ]} else I) /\
    if decide (refs k D i = 0 /\ i_count (inode_at k i) = 0)
    then exists m, k' = freed k m i /\ H' = delete i (delete (ri_data (inode_at k i)) H)
    else k' = k /\ H' = H.
Proof.
  intros HH HI Hi Hty. destruct (fi_live _ _ _ _ HI i Hi) as (Hh & Hr & Hp & Hfr & Hfl). destruct (heap_block _ _ _ _ HH Hh) as [Hpos _].
  assert (Hn := fi_nlink _ _ _ _ HI i Hi Hty). unfold inode_maybe_evict. rewrite (proj2 (Z.eqb_neq i 0)) by lia. rewrite Hn, Hfl, Hfr. cbn [orb andb].
  destruct (Z.eqb_spec (i_count (inode_at k i)) 0) as [Ec|Ec]; cbn [negb].
  2:{ exists k, H. by rewrite !decide_False by tauto. }
  destruct (Z.eqb_spec (refs k D i) 0) as [Er|Er]; cbn [negb].
  2:{ exists k, H. by rewrite !decide_False by tauto. }
  unfold tree_fuel. cbn [ramfs_free_inode]. rewrite (proj2 (Z.eqb_neq i 0)) by lia.
  rewrite (proj2 (Z.eqb_neq _ _) Hty). cbn [mbind option_bind].
  assert (Hd : exists m, (if ri_data (inode_at k i) =? 0 then Some k else k_free k (ri_data (inode_at k i))) = Some (set_k_k m k) /\
    heap m (delete (ri_data (inode_at k i)) H)).
  { destruct (Z.eqb_spec (ri_data (inode_at k i)) 0) as [E0|Hnz].
    - exists (k_k k). split; [by destruct k|]. rewrite E0, delete_id; [done|]. apply eq_None_not_Some. intros [s Hs].
      destruct (heap_block _ _ _ _ HH Hs). lia.
    - unfold k_free. destruct (fi_data _ _ _ _ HI i Hi Hnz) as (Hx & _).
      destruct (heap_free (k_k k) H (ri_data (inode_at k i)) HH) as (m & -> & Hm); [by eexists|]. by exists m. }
  destruct Hd as (m & -> & Hm). cbn [mbind option_bind]. rewrite (proj2 (Z.eqb_neq _ _) Hr). unfold free_inode_struct, k_free.
  assert (Hlive : is_Some (delete (ri_data (inode_at k i)) H !! i)).
  { rewrite lookup_delete_ne; [by eexists|]. intros E. destruct (decide (ri_data (inode_at k i) = 0)) as [E0|Hnz]; [lia|].
    destruct (fi_data _ _ _ _ HI i Hi Hnz) as (_ & Hni & _). apply Hni. by rewrite E. }
  change (k_k (set_k_k m k)) with m. destruct (heap_free m _ i Hm Hlive) as (m' & -> & Hm'). cbn [mbind option_bind].
  eexists _, _. rewrite !decide_True by done. split; [done|]. split; [exact Hm'|]. split; [done|].
  split; [exact (fs_inv_freed k H D I m' i HH HI Hi Hty Er)|]. by exists m'.
Qed.

(** Fields that the invariant reads, but for the link count. *)
Definition inode_key (x : inode) : Z * Z * Z * bool * Z :=
  (i_type x, ri_data x, ri_capacity x, i_free x, i_flags x).

(** Adding an entry for [ri] and a link to it keeps the invariant. *)
Lemma fs_inv_link k H D I k' dir ds d ri :
  fs_inv k H D I -> D !! dir = Some ds -> H !! d = None ->
  tree k' (<[d := SIZEOF_RAMFS_DENTRY]> H) (<[dir := d :: ds]> D) ->
  rd_inode (rdent_at k' d) = ri -> ri ∈ I -> (forall e, e ∈ all_entries D -> rdent_at k' e = rdent_at k e) ->
  (forall i, inode_key (inode_at k' i) = inode_key (inode_at k i)) ->
  (forall i, i ∈ I -> itype k i <> S_IFDIR -> i_nlink (inode_at k' i) = i_nlink (inode_at k i) + (if decide (ri = i) then 1 else 0)) ->
  (forall i, is_Some (k_inodes k' !! i) <-> is_Some (k_inodes k !! i)) ->
  fs_inv k' (<[d := SIZEOF_RAMFS_DENTRY]> H) (<[dir := d :: ds]> D) I.
Proof.
  intros [HT Hlive Hwhole Hnamed Hdirs Hnl Hdata Hown] Hd Hnone HT' Hri HriI Hent Hkey Hn' Hdom.
  assert (Hf : forall i, i_type (inode_at k' i) = i_type (inode_at k i) /\ ri_data (inode_at k' i) = ri_data (inode_at k i) /\
    ri_capacity (inode_at k' i) = ri_capacity (inode_at k i) /\ i_free (inode_at k' i) = i_free (inode_at k i) /\
    i_flags (inode_at k' i) = i_flags (inode_at k i)).
  { intros i. specialize (Hkey i). unfold inode_key in Hkey. by simplify_eq. }
  assert (Hall : forall e, e ∈ all_entries (<[dir := d :: ds]> D) <-> e = d \/ e ∈ all_entries D).
  { intros e. rewrite all_entries_insert, (all_entries_lookup D dir ds Hd). cbn [app]. by rewrite elem_of_cons. }
  split.
  - done.
  - intros i Hi. destruct (Hlive i Hi) as (Hh & Hr & Hp & Hfr & Hfl). destruct (Hf i) as (_ & _ & _ & -> & ->).
    splits; try done; [|by apply Hdom]. rewrite lookup_insert_ne; [done|]. congruence.
  - intros i Hi. by apply Hwhole, Hdom.
  - intros j es e Hj He. assert (Hin : e ∈ all_entries (<[dir := d :: ds]> D)) by (apply elem_of_all_entries; eauto).
    apply Hall in Hin as [->|Hin]; [by rewrite Hri|]. rewrite Hent by done.
    apply elem_of_all_entries in Hin as (j' & es' & Hj' & He'). by eapply Hnamed.
  - intros j Hj. apply Hdirs. destruct (decide (dir = j)) as [<-|]; [by eexists|by rewrite lookup_insert_ne in Hj].
  - intros i Hi. unfold itype. rewrite (proj1 (Hf i)). intros Ht. rewrite Hn' by done.
    rewrite (refs_cons k k' D dir ds d i Hd) by (intros e He; by rewrite Hent). rewrite Hri, Hnl by done. done.
  - intros i Hi. destruct (Hf i) as (_ & -> & -> & _). intros Hnz. destruct (Hdata i Hi Hnz) as (Hh & Hni & He).
    splits; [rewrite lookup_insert_ne; [done|congruence]|done|]. intros [E|Hin]%Hall; [congruence|done].
  - intros i j Hi Hj. destruct (Hf i) as (_ & -> & _), (Hf j) as (_ & -> & _). by apply Hown.
Qed.

Lemma dir_present k i : itype k i = S_IFDIR -> is_Some (k_inodes k !! i).
Proof. unfold itype, inode_at. destruct (k_inodes k !! i); [by eexists|]. intros E. by vm_compute in E. Qed.

Lemma upd_dom k i g j : is_Some (k_inodes k !! i) -> is_Some (k_inodes (upd_inode k i g) !! j) <-> is_Some (k_inodes k !! j).
Proof.
  intros Hi. unfold upd_inode. cbn. destruct (decide (i = j)) as [->|Hne]; [|by rewrite lookup_insert_ne].
  rewrite lookup_insert_eq. split; [done|by eexists].
Qed.

(** The last name of an inode that no file has open. *)
Definition last_use (k : kernel) (D : gmap Z (list Z)) (ri : Z) : Prop := refs k D ri = 1 /\ i_count (inode_at k ri) = 0.

#[export] Instance last_use_dec k D ri : Decision (last_use k D ri).
Proof. unfold last_use. apply _. Defined.

(** What removing the name [name] of [ri] from [dir] does: an entry and, at
    the last use, the inode and its data leave the heap; otherwise the inode
    has a link less.  No other inode changes but for the list of [dir]. *)
Record unlinks (k : kernel) (H : gmap Z Z) (D : gmap Z (list Z)) (I : gset Z) (dir : Z) (ds : list Z) (name : list Z) (ri : Z)
    (k' : kernel) (H' : gmap Z Z) (D' : gmap Z (list Z)) : Prop := {
  ul_heap : heap (k_k k') H';
  ul_inv : fs_inv k' H' D' (if decide (last_use k D ri) then I ∖ {[ ri ]} else I);
  ul_dirs : dirs k' D' = <[dir := delete name (dir_map k ds)]> (dirs k D);
  ul_rest : exists d, d ∈ ds /\
    H' = (if decide (last_use k D ri) then delete ri (delete (ri_data (inode_at k ri)) (delete d H)) else delete d H) /\
    k_inodes k' !! ri = (if decide (last_use k D ri) then None else Some (set_i_nlink (i_nlink (inode_at k ri) - 1) (inode_at k ri))) /\
    (forall i, i <> ri -> but_children <$> (k_inodes k' !! i) = but_children <$> (k_inodes k !! i)) /\ only_names k k'
}.

Lemma unlinked_lookup k m dir l1 d i :
  itype k dir = S_IFDIR -> but_children <$> (k_inodes (unlinked k m dir l1 d) !! i) = but_children <$> (k_inodes k !! i).
Proof.
  intros [x Hx]%dir_present. unfold unlinked, cut. cbn. destruct (last l1); cbn; [done|].
  destruct (decide (dir = i)) as [<-|Hne]; [|by rewrite lookup_insert_ne]. rewrite lookup_insert_eq, Hx. unfold inode_at. by rewrite Hx.
Qed.

Lemma unlinked_names k m dir l1 d : only_names k (unlinked k m dir l1 d).
Proof. unfold unlinked, cut. by destruct (last l1), k. Qed.

Lemma unlinked_outcome k (H : gmap Z Z) D m dir l1 d ri k' (H' : gmap Z Z) :
  ri <> dir -> itype k dir = S_IFDIR ->
  let k2 := upd_inode (unlinked k m dir l1 d) ri (set_i_nlink (i_nlink (inode_at k ri) - 1)) in
  (if decide (last_use k D ri)
   then exists m', k' = freed k2 m' ri /\ H' = delete ri (delete (ri_data (inode_at k2 ri)) (delete d H)) else k' = k2 /\ H' = delete d H) ->
  H' = (if decide (last_use k D ri) then delete ri (delete (ri_data (inode_at k ri)) (delete d H)) else delete d H) /\
  k_inodes k' !! ri = (if decide (last_use k D ri) then None else Some (set_i_nlink (i_nlink (inode_at k ri) - 1) (inode_at k ri))) /\
  (forall i, i <> ri -> but_children <$> (k_inodes k' !! i) = but_children <$> (k_inodes k !! i)) /\ only_names k k'.
Proof.
  intros Hne Ht k2 Hgone. assert (Eri : inode_at (unlinked k m dir l1 d) ri = inode_at k ri).
  { destruct (unlinked_inode k m dir l1 d ri) as [v ->]. by rewrite decide_False. }
  assert (Hn2 : only_names k k2) by (apply (only_names_trans k (unlinked k m dir l1 d)); [apply unlinked_names|apply only_names_upd]).
  assert (Hi2 : forall i, i <> ri -> but_children <$> (k_inodes k2 !! i) = but_children <$> (k_inodes k !! i)).
  { intros i Hi. unfold k2, upd_inode. cbn. rewrite lookup_insert_ne by done. exact (unlinked_lookup k m dir l1 d i Ht). }
  case_decide.
  - destruct Hgone as (m' & -> & ->). split; [|split; [|split]].
    + unfold k2. by rewrite inode_at_upd, decide_True, Eri by done.
    + unfold freed. cbn. apply lookup_delete_eq.
    + intros i Hi. unfold freed. cbn. rewrite lookup_delete_ne by done. by apply Hi2.
    + eapply only_names_trans; [exact Hn2|]. by destruct k2.
  - destruct Hgone as [-> ->]. split; [done|]. split; [|by split]. unfold k2, upd_inode. cbn. by rewrite lookup_insert_eq, Eri.
Qed.

Lemma unlink_spec k H D I dir ds name ri :
  heap (k_k k) H -> fs_inv k H D I -> D !! dir = Some ds -> dir_map k ds !! name = Some ri -> name <> [] ->
  itype k ri <> S_IFDIR ->
  exists k' H' D', ramfs_inode_unlink k dir name = Some (0, k') /\ unlinks k H D I dir ds name ri k' H' D'.
Proof.
  intros HH HI Hdir Hm Hname Hty. assert (HT := fi_tree _ _ _ _ HI). assert (HR := tr_dirs _ _ _ HT dir ds Hdir).
  assert (Hrem := remove_child_spec k H D dir ds name HH HT Hdir). rewrite Hm in Hrem.
  destruct Hrem as (l1 & d & l2 & m & -> & Ee & Erem & Hheap & HT' & Edirs).
  unfold entry in Ee. injection Ee as En Eri.
  assert (HriI : ri ∈ I) by (rewrite <- Eri; eapply (fi_named _ _ _ _ HI); [exact Hdir|apply elem_mid]).
  unfold ramfs_inode_unlink, inode_is_dir, itype. rewrite (dr_type _ _ _ _ HR), (proj2 (Z.eqb_neq _ _) (dr_inode _ _ _ _ HR)).
  rewrite bool_decide_false by done. cbn [orb negb andb]. rewrite Z.eqb_refl, Erem. cbn [negb mbind option_bind].
  change (negb (0 =? 0)) with false. cbn iota. fold (itype (unlinked k m dir l1 d) ri).
  assert (Ety : itype (unlinked k m dir l1 d) ri = itype k ri).
  { unfold itype. destruct (unlinked_inode k m dir l1 d ri) as [v ->]. by case_decide. }
  rewrite Ety, (proj2 (Z.eqb_neq _ _) Hty). unfold drop_nlink.
  assert (Hl := fi_live _ _ _ _ HI ri HriI). destruct Hl as (Hh & _). destruct (heap_block _ _ _ _ HH Hh) as [Hpos _].
  rewrite (proj2 (Z.eqb_neq ri 0)) by lia.
  assert (Enl : i_nlink (inode_at (unlinked k m dir l1 d) ri) = i_nlink (inode_at k ri)).
  { destruct (unlinked_inode k m dir l1 d ri) as [v ->]. by case_decide. }
  assert (Hrefs : 0 < refs k D ri).
  { apply (refs_pos k D ri d); [|done]. apply elem_of_all_entries. eexists _, _. split; [exact Hdir|apply elem_mid]. }
  assert (Hnl := fi_nlink _ _ _ _ HI ri HriI Hty). rewrite Enl, Hnl, (proj2 (Z.eqb_neq (refs k D ri) 0)) by lia.
  assert (HI2 := fs_inv_unlink k H D I m dir l1 d l2 (i_nlink (inode_at k ri) - 1) HI Hdir HT'). cbn zeta in HI2.
  rewrite Eri in HI2. specialize (HI2 (fun _ => eq_refl)).
  assert (Ek2 : upd_inode (unlinked k m dir l1 d) ri (fun x => set_i_nlink (i_nlink x - 1) x) =
    upd_inode (unlinked k m dir l1 d) ri (set_i_nlink (i_nlink (inode_at k ri) - 1))).
  { unfold upd_inode. by rewrite Enl. }
  rewrite Ek2. set (k2 := upd_inode _ _ _) in *.
  destruct (upd_nlink (unlinked k m dir l1 d) ri (i_nlink (inode_at k ri) - 1) ri) as (E1 & _ & _ & _ & _ & _ & E7 & E8). cbn zeta in *.
  fold k2 in E1, E7, E8. rewrite decide_True in E8 by done.
  assert (Hty2 : itype k2 ri <> S_IFDIR) by (unfold itype in *; by rewrite E1, Ety).
  assert (Er2 : refs k2 (<[dir := l1 ++ l2]> D) ri = refs k D ri - 1) by (rewrite <- (fi_nlink _ _ _ _ HI2 ri HriI Hty2), E8, Hnl; done).
  assert (Ec2 : i_count (inode_at k2 ri) = i_count (inode_at k ri)).
  { rewrite E7. destruct (unlinked_inode k m dir l1 d ri) as [v ->]. by case_decide. }
  destruct (evict_spec k2 (delete d H) (<[dir := l1 ++ l2]> D) I ri Hheap HI2 HriI Hty2) as (k' & H' & -> & Hh' & Erd & HI' & Hgone).
  cbn [mbind option_bind]. exists k', H', (<[dir := l1 ++ l2]> D). split; [done|].
  assert (Hdec : forall A (x y : A), (if decide (refs k2 (<[dir := l1 ++ l2]> D) ri = 0 /\ i_count (inode_at k2 ri) = 0) then x else y) =
    if decide (last_use k D ri) then x else y).
  { intros A x y. rewrite Er2, Ec2. apply decide_ext. unfold last_use. lia. }
  rewrite Hdec in HI', Hgone. assert (Hne : ri <> dir) by (intros ->; apply Hty; exact (dr_type _ _ _ _ HR)).
  split; [done|done|destruct (rdents_frame (unlinked k m dir l1 d) k' Erd) as [-> _]; exact Edirs|].
  exists d. split; [apply elem_mid|]. exact (unlinked_outcome k H D m dir l1 d ri k' H' Hne (dr_type _ _ _ _ HR) Hgone).
Qed.

Lemma linked_rdent k H D m dir ds name ri d :
  tree k H D -> D !! dir = Some ds -> H !! d = None ->
  rd_inode (rdent_at (linked k m dir name ri d) d) = ri /\
  forall e, e ∈ all_entries D -> rdent_at (linked k m dir name ri d) e = rdent_at k e.
Proof.
  intros HT Hdir Hnone. unfold rdent_at. rewrite linked_rdents. split; [by rewrite lookup_insert_eq|].
  intros e (j & es & Hj & He)%elem_of_all_entries. rewrite lookup_insert_ne; [done|]. intros <-.
  destruct (dr_blocks _ _ _ _ (tr_dirs _ _ _ HT _ _ Hj) d He). congruence.
Qed.

Lemma linked_k k m dir name ri d : k_k (linked k m dir name ri d) = m.
Proof. unfold linked. by case_match. Qed.

Lemma linked_key k m dir name ri d i :
  inode_key (inode_at (linked k m dir name ri d) i) = inode_key (inode_at k i) /\
  i_nlink (inode_at (linked k m dir name ri d) i) = i_nlink (inode_at k i).
Proof. rewrite linked_inode. split; by repeat case_decide. Qed.

Lemma linked_dom k m dir name ri d i :
  itype k dir = S_IFDIR -> is_Some (k_inodes (linked k m dir name ri d) !! i) <-> is_Some (k_inodes k !! i).
Proof.
  intros Hdir%dir_present. unfold linked. destruct (Z.eqb_spec (itype (set_k_k m k) ri) S_IFDIR) as [E|_].
  - apply dir_present in E. etransitivity; [apply upd_dom; by apply (upd_dom (set_k_k m k))|]. by apply (upd_dom (set_k_k m k)).
  - by etransitivity; [by apply upd_dom|].
Qed.

Lemma unlinked_dom k m dir l1 d i :
  itype k dir = S_IFDIR -> is_Some (k_inodes (unlinked k m dir l1 d) !! i) <-> is_Some (k_inodes k !! i).
Proof.
  intros Hdir%dir_present. unfold unlinked, cut. cbn. destruct (last l1); cbn; [done|]. by apply (upd_dom k dir).
Qed.

Lemma link_spec k H D I old dir ds name :
  heap (k_k k) H -> fs_inv k H D I -> D !! dir = Some ds -> old ∈ I -> itype k old <> S_IFDIR ->
  name <> [] -> slen name <= RAMFS_NAME_MAX -> refs k D old < 2 ^ 32 - 1 ->
  match dir_map k ds !! name with
  | Some _ => ramfs_inode_link k old dir name = Some (- EEXIST, k)
  | None =>
      ramfs_inode_link k old dir name = Some (- ENOMEM, k) \/
      exists k' H' D', ramfs_inode_link k old dir name = Some (0, k') /\ heap (k_k k') H' /\ fs_inv k' H' D' I /\
        dirs k' D' = <[dir := <[name := old]> (dir_map k ds)]> (dirs k D)
  end.
Proof.
  intros HH HI Hdir Hold Hty Hname Hlen Hmax. assert (HT := fi_tree _ _ _ _ HI). assert (HR := tr_dirs _ _ _ HT dir ds Hdir).
  destruct (fi_live _ _ _ _ HI old Hold) as (Hh & _). destruct (heap_block _ _ _ _ HH Hh) as [Hpos _].
  assert (Etd : itype k dir = S_IFDIR) by exact (dr_type _ _ _ _ HR).
  unfold ramfs_inode_link, inode_is_dir. rewrite Etd, (proj2 (Z.eqb_neq _ _) (dr_inode _ _ _ _ HR)).
  rewrite (proj2 (Z.eqb_neq old 0)), bool_decide_false by (done || lia). rewrite Z.eqb_refl, (proj2 (Z.eqb_neq _ _) Hty). cbn [orb negb andb].
  assert (Hadd := add_child_spec k H D dir ds name old HH HT Hdir Hlen).
  destruct (find_child_spec k H dir ds name HR) as [(e & -> & He & _ & _ & ->)|[-> Hnone]]; cbn [mbind option_bind].
  { by rewrite (proj2 (Z.eqb_neq _ _) He). }
  rewrite Hnone in Hadd |- *. change (negb (0 =? 0)) with false. cbn iota.
  destruct Hadd as [->|(d & m & -> & Hd & Hfree & Hm & HT' & Edirs)]; cbn [mbind option_bind]; [by left|right].
  change (negb (0 =? 0)) with false. cbn iota. assert (Hnl := fi_nlink _ _ _ _ HI old Hold Hty).
  assert (Hpr : 0 <= refs k D old) by (unfold refs, slen; lia). destruct (linked_key k m dir name old d old) as (_ & En).
  set (k1 := linked k m dir name old d) in *. set (k2 := upd_inode k1 old _).
  assert (Ek2 : k2 = upd_inode k1 old (set_i_nlink (i_nlink (inode_at k old) + 1))).
  { unfold k2, upd_inode. rewrite En, wrapu_id by lia. done. }
  exists k2, (<[d := SIZEOF_RAMFS_DENTRY]> H), (<[dir := d :: ds]> D). split; [done|]. split; [by rewrite (linked_k k m dir name old d : k_k k2 = m)|]. destruct (rdents_frame k1 k2 eq_refl) as [Ed2 _]. split.
  - destruct (linked_rdent k H D m dir ds name old d HT Hdir Hfree) as [Er1 Er2].
    apply (fs_inv_link k H D I k2 dir ds d old); try done.
    + revert HT'. apply tree_frame; [done| |done]. intros i _. rewrite Ek2. by destruct (upd_nlink k1 old (i_nlink (inode_at k old) + 1) i) as (E1 & E2 & _).
    + intros i. rewrite Ek2. destruct (upd_nlink k1 old (i_nlink (inode_at k old) + 1) i) as (E1 & E2 & E3 & E4 & E5 & E6 & _).
      destruct (linked_key k m dir name old d i) as (<- & _). fold k1. unfold inode_key. cbn zeta in *. by rewrite E1, E3, E4, E5, E6.
    + intros i Hi _. rewrite Ek2. destruct (upd_nlink k1 old (i_nlink (inode_at k old) + 1) i) as (_ & _ & _ & _ & _ & _ & _ & ->).
      destruct (linked_key k m dir name old d i) as (_ & Eni). fold k1 in Eni. case_decide; subst; lia.
    + intros i. unfold k2. rewrite upd_dom; [by apply linked_dom|]. apply linked_dom; [done|]. by apply (fi_live _ _ _ _ HI old Hold).
  - rewrite Ed2. exact Edirs.
Qed.

(** ** The hierarchy

    A directory is below what its parents lead to. *)

Definition up (k : kernel) (i : Z) : Z := ri_parent (inode_at k i).
Definition below (k : kernel) (src i : Z) : Prop := exists n, Nat.iter n (up k) i = src.

(** Directories have one name, their parent is where the name is, and parents
    lead to the root and end there. *)
Record hierarchy (k : kernel) (D : gmap Z (list Z)) : Prop := {
  hi_parent : forall dir ds d, D !! dir = Some ds -> d ∈ ds -> itype k (rd_inode (rdent_at k d)) = S_IFDIR -> up k (rd_inode (rdent_at k d)) = dir;
  hi_once : forall i, itype k i = S_IFDIR -> refs k D i <= 1;
  hi_root : forall i, is_Some (D !! i) -> below k 0 i
}.

Lemma iter_shift {A} (g : A -> A) n x : Nat.iter (S n) g x = Nat.iter n g (g x).
Proof. induction n as [|n IH]; [done|]. exact (f_equal g IH). Qed.

Lemma iter_plus {A} (g : A -> A) n m x : Nat.iter (n + m) g x = Nat.iter n g (Nat.iter m g x).
Proof. induction n as [|n IH]; [done|]. exact (f_equal g IH). Qed.

Lemma iter_fix {A} (g : A -> A) n x : g x = x -> Nat.iter n g x = x.
Proof. intros E. induction n as [|n IH]; [done|]. change (g (Nat.iter n g x) = x). by rewrite IH. Qed.

Lemma below_refl k i : below k i i.
Proof. by exists 0%nat. Qed.

Lemma below_up k src i : below k src (up k i) -> below k src i.
Proof. intros [n Hn]. exists (S n). by rewrite iter_shift. Qed.

Lemma below_step k src i : below k src i -> i <> src -> below k src (up k i).
Proof. intros [[|n] Hn] Hne; [done|]. exists n. by rewrite <- iter_shift. Qed.

(** Parents that lead to the root do so without a repetition. *)
Lemma below_least k i : below k 0 i -> exists n, Nat.iter n (up k) i = 0 /\ forall j, (j < n)%nat -> Nat.iter j (up k) i <> 0.
Proof.
  intros [n Hn]. revert Hn. induction n as [n IH] using lt_wf_ind. intros Hn.
  destruct (decide (Exists (fun j => Nat.iter j (up k) i = 0) (seq 0 n))) as [(j & Hj & E)%Exists_exists|Ha].
  - apply elem_of_seq in Hj. apply (IH j); [lia|done].
  - exists n. split; [done|]. intros j Hj E. apply Ha, Exists_exists. exists j. split; [|done]. apply elem_of_seq. lia.
Qed.

Lemma below_short k i : below k 0 i -> exists n, (n <= S (size (k_inodes k)))%nat /\ Nat.iter n (up k) i = 0.
Proof.
  intros (n & Hn & Hmin)%below_least. exists n. split; [|done]. destruct n as [|n]; [lia|]. apply le_n_S.
  assert (Hnd : NoDup ((fun j => Nat.iter j (up k) i) <$> seq 0 n)).
  { apply NoDup_fmap_2_strong; [|apply NoDup_seq]. intros a b Ha Hb E. apply elem_of_seq in Ha, Hb.
    destruct (decide (a = b)) as [|Hab]; [done|]. exfalso.
    assert (Hrep : forall a b, (a < b)%nat -> (b < n)%nat -> Nat.iter a (up k) i <> Nat.iter b (up k) i).
    { clear a b Ha Hb E Hab. intros a b Hab Hb E. apply (Hmin (S n - b + a)%nat); [lia|].
      rewrite iter_plus, E, <- iter_plus. by replace (S n - b + b)%nat with (S n) by lia. }
    destruct (Nat.lt_ge_cases a b); [apply (Hrep a b); [lia|lia|done]|apply (Hrep b a); [lia|lia|done]]. }
  assert (El : length ((fun j => Nat.iter j (up k) i) <$> seq 0 n) = n) by (by rewrite length_fmap, length_seq). rewrite <- El.
  rewrite <- size_dom, <- (size_list_to_set (C := gset Z) _ Hnd). apply subseteq_size. intros x Hx.
  apply elem_of_list_to_set, list_elem_of_fmap in Hx as (j & -> & Hj%elem_of_seq). apply elem_of_dom.
  assert (Hu : up k (Nat.iter j (up k) i) <> 0) by (apply (Hmin (S j)); lia). revert Hu. unfold up at 1, inode_at.
  destruct (k_inodes k !! Nat.iter j (up k) i); [by eexists|done].
Qed.

(** The walk of [ancestor] ends, and answers whether [p] is below [src]. *)
Lemma ancestor_spec k src n : forall fuel p, up k 0 = 0 -> src <> 0 -> Nat.iter n (up k) p = 0 -> (n < fuel)%nat ->
  exists b, ancestor fuel k p src = Some b /\ (b = true <-> below k src p).
Proof.
  induction n as [|n IH]; intros fuel p H0 Hs Hn Hf; (destruct fuel as [|fuel]; [lia|]); cbn [ancestor].
  all: assert (Hz : ~ below k src 0) by (intros [m Hm]; apply Hs; rewrite <- Hm; by apply iter_fix).
  - cbn in Hn. subst p. exists false. split; [done|]. by split.
  - destruct (Z.eqb_spec p 0) as [->|Hp]; [exists false; split; [done|]; by split|].
    destruct (Z.eqb_spec p src) as [->|Hne]; [exists true; split; [done|]; split; [by intros _; apply below_refl|done]|].
    rewrite iter_shift in Hn. destruct (IH fuel (up k p) H0 Hs Hn ltac:(lia)) as (b & E & Hb). exists b. split; [exact E|].
    rewrite Hb. split; [apply below_up|]. intros H. by apply below_step.
Qed.

Lemma ancestor_answers k D nd src :
  hierarchy k D -> is_Some (D !! nd) -> k_inodes k !! 0 = None -> src <> 0 ->
  exists b, ancestor (tree_fuel k) k nd src = Some b /\ (b = true <-> below k src nd).
Proof.
  intros HI Hnd H0 Hs. destruct (below_short k nd (hi_root _ _ HI nd Hnd)) as (n & Hle & Hn).
  apply (ancestor_spec k src n); [unfold up, inode_at; by rewrite H0|done|done|]. unfold tree_fuel. lia.
Qed.

(** Another parent for [src], which the new parent is not below. *)
Lemma below_moved k k' src nd :
  up k' 0 = 0 -> (forall i, up k' i = if decide (i = src) then nd else up k i) -> ~ below k src nd -> below k 0 nd ->
  forall i, below k 0 i -> below k' 0 i.
Proof.
  intros H0 Hu Hn Hnd.
  assert (Hb : forall n i, Nat.iter n (up k) i = 0 -> ~ below k src i -> below k' 0 i).
  { induction n as [|n IH]; intros i Hi Hni; [cbn in Hi; subst i; apply below_refl|]. rewrite iter_shift in Hi.
    apply below_up. rewrite Hu, decide_False by (intros ->; apply Hni, below_refl). apply IH; [done|]. intros H. by apply Hni, below_up. }
  assert (Hnd' : below k' 0 nd) by (destruct Hnd as [n Hnd]; by apply (Hb n)).
  intros i [n Hi]. revert i Hi. induction n as [|n IH]; intros i Hi; [cbn in Hi; subst i; apply below_refl|]. rewrite iter_shift in Hi.
  apply below_up. rewrite Hu. case_decide; [done|]. by apply IH.
Qed.

Lemma below_same k k' : (forall i, up k' i = up k i) -> forall i, below k 0 i -> below k' 0 i.
Proof.
  intros Hu i [n Hi]. revert i Hi. induction n as [|n IH]; intros i Hi; [cbn in Hi; subst i; apply below_refl|].
  rewrite iter_shift in Hi. apply below_up. rewrite Hu. by apply IH.
Qed.

(** ** Renaming *)

(** The entry [d] under a new name. *)
Lemma renamed_spec k H D I dir l1 d l2 name :
  fs_inv k H D I -> D !! dir = Some (l1 ++ d :: l2) -> dir_map k (l1 ++ d :: l2) !! name = None ->
  let k' := upd_rdent k d (set_rd_name name) in
  fs_inv k' H D I /\
  dirs k' D = <[dir := <[name := rd_inode (rdent_at k d)]> (delete (entry_name k d) (dir_map k (l1 ++ d :: l2)))]> (dirs k D).
Proof.
  intros HI Hd Hnone k'. destruct (HI) as [HT Hlive Hwhole Hnamed Hdirs Hnl Hdata Hown].
  assert (HR := tr_dirs _ _ _ HT _ _ Hd). destruct (HR) as [Hi Ht Hc Hnd Hb].
  assert (He : forall e, e <> d -> rdent_at k' e = rdent_at k e) by (intros e Hne; unfold k'; by rewrite rdent_at_upd, decide_False).
  assert (Hed : rdent_at k' d = set_rd_name name (rdent_at k d)) by (unfold k'; by rewrite rdent_at_upd, decide_True).
  assert (Hri : forall e, rd_inode (rdent_at k' e) = rd_inode (rdent_at k e)).
  { intros e. destruct (decide (e = d)) as [->|]; [by rewrite Hed|by rewrite He]. }
  assert (Hnx : forall e, rd_next (rdent_at k' e) = rd_next (rdent_at k e)).
  { intros e. destruct (decide (e = d)) as [->|]; [by rewrite Hed|by rewrite He]. }
  assert (Hdn := lseg_NoDup (H := clinks dir) _ _ _ Hc).
  assert (Hrest := fun e => NoDup_mid l1 d l2 e Hdn).
  assert (Hp : l1 ++ d :: l2 ≡ₚ d :: l1 ++ l2) by (by rewrite Permutation_middle).
  assert (Hnd' : NoDup (entry_name k' <$> l1 ++ d :: l2)).
  { rewrite Hp in Hnd |- *. cbn in Hnd |- *. apply NoDup_cons in Hnd as [_ Hnd]. apply dir_map_None in Hnone. rewrite Hp in Hnone. cbn in Hnone.
    apply not_elem_of_cons in Hnone as [_ Hnone].
    rewrite (names_ext k k' (l1 ++ l2)) by (intros e Hin; unfold entry_name; by rewrite He by (by apply Hrest)).
    apply NoDup_cons. unfold entry_name at 1. by rewrite Hed. }
  assert (Hframe : dir_frame dir (l1 ++ d :: l2) (l1 ++ d :: l2) k k' H H).
  { split; try done. intros e Hin _. unfold k', upd_rdent. cbn. rewrite lookup_insert_ne; [done|]. intros <-. apply Hin, elem_mid. }
  assert (HR' : dir_rep k' H dir (l1 ++ d :: l2)).
  { split; try done.
    - revert Hc. apply slist_frame; [|done]. intros e _. exact (Hnx e).
    - intros e Hin. destruct (Hb e Hin) as [Hh Hs]. split; [done|]. unfold k', upd_rdent. cbn.
      destruct (decide (d = e)) as [->|]; [rewrite lookup_insert_eq; by eexists|by rewrite lookup_insert_ne]. }
  destruct (tree_step k H k' H D dir _ _ HT Hd Hframe HR') as [HT' Ed]. rewrite insert_id in HT', Ed by done. split.
  - split; try done.
    + intros j es e Hj Hin. rewrite Hri. by apply (Hnamed j es e).
    + intros i Hin Hty. change (i_nlink (inode_at k' i)) with (i_nlink (inode_at k i)). rewrite Hnl by done.
      unfold refs. f_equal. symmetry. apply refs_ext. intros e _. apply Hri.
  - rewrite Ed. f_equal. assert (Em : forall k0, NoDup (entry_name k0 <$> l1 ++ d :: l2) ->
      dir_map k0 (l1 ++ d :: l2) = <[entry_name k0 d := rd_inode (rdent_at k0 d)]> (dir_map k0 (l1 ++ l2))).
    { intros k0 Hk0. rewrite <- dir_map_cons. unfold dir_map. apply list_to_map_proper; [|by rewrite Hp].
      by rewrite <- list_fmap_compose. }
    rewrite (Em k' Hnd'), <- dir_map_remove by done. unfold entry_name. rewrite Hed. cbn. f_equal. apply dir_map_ext.
    intros e Hin. unfold entry, entry_name. by rewrite He by (by apply Hrest).
Qed.

(** A name moved from one directory to another, on the maps. *)
Definition move (A : gmap Z (gmap (list Z) Z)) (od : Z) (on : list Z) (nd : Z) (nn : list Z) (src : Z) : gmap Z (gmap (list Z) Z) :=
  let A := alter (delete on) od A in alter (insert nn src) nd A.

(** The entry moves: unlinked here, linked there, the count unchanged. *)
Lemma fs_inv_moved k H D I m dir l1 d l2 m' nd nds name d' :
  fs_inv k H D I -> D !! dir = Some (l1 ++ d :: l2) -> <[dir := l1 ++ l2]> D !! nd = Some nds ->
  let ri := rd_inode (rdent_at k d) in
  let k1 := unlinked k m dir l1 d in
  let D1 := <[dir := l1 ++ l2]> D in
  tree k1 (delete d H) D1 -> delete d H !! d' = None ->
  tree (linked k1 m' nd name ri d') (<[d' := SIZEOF_RAMFS_DENTRY]> (delete d H)) (<[nd := d' :: nds]> D1) ->
  fs_inv (linked k1 m' nd name ri d') (<[d' := SIZEOF_RAMFS_DENTRY]> (delete d H)) (<[nd := d' :: nds]> D1) I.
Proof.
  intros HI Hd Hnd1 ri k1 D1 HT1 Hfree HT2.
  assert (HriI : ri ∈ I) by (eapply (fi_named _ _ _ _ HI); [exact Hd|apply elem_mid]).
  assert (HI1 := fs_inv_unlink k H D I m dir l1 d l2 (i_nlink (inode_at k ri) - 1) HI Hd HT1). cbn zeta in HI1. fold ri k1 D1 in HI1.
  specialize (HI1 (fun _ => eq_refl)). set (k1' := upd_inode k1 ri (set_i_nlink (i_nlink (inode_at k ri) - 1))) in *.
  destruct (linked_rdent k1 (delete d H) D1 m' nd nds name ri d' HT1 Hnd1 Hfree) as [Er1 Er2].
  apply (fs_inv_link k1' (delete d H) D1 I _ nd nds d' ri); try done.
  - intros i. destruct (linked_key k1 m' nd name ri d' i) as (-> & _). unfold k1'. rewrite inode_at_upd. by case_decide; subst.
  - intros i Hi Hty. destruct (linked_key k1 m' nd name ri d' i) as (_ & ->). unfold k1'. rewrite inode_at_upd.
    destruct (unlinked_inode k m dir l1 d i) as [v Hv]. fold k1 in Hv.
    destruct (decide (ri = i)) as [<-|]; [|lia]. cbn. rewrite Hv. case_decide; cbn; lia.
  - intros i. rewrite linked_dom by exact (dr_type _ _ _ _ (tr_dirs _ _ _ HT1 nd _ Hnd1)). symmetry. apply upd_dom. apply unlinked_dom.
    + exact (dr_type _ _ _ _ (tr_dirs _ _ _ (fi_tree _ _ _ _ HI) dir _ Hd)).
    + by apply (fi_live _ _ _ _ HI ri HriI).
Qed.

(** What the rename does to the inodes: a directory gets a new parent. *)
Definition moved_inode (k : kernel) (src nd i : Z) : inode :=
  if decide (i = src /\ itype k src = S_IFDIR) then set_ri_parent nd (inode_at k i) else inode_at k i.

(** How a rename of [src] that is not refused ends: the name is moved; or there
    is no memory for the entry in another directory, and the old name is put
    back; or, when there is none for that either, the name is lost. *)
Inductive rename_ends (k : kernel) (D : gmap Z (list Z)) (I : gset Z) (od : Z) (on : list Z) (nd : Z) (nn : list Z) (src : Z) : Z -> kernel -> Prop :=
  | rename_done k' H' D' :
      heap (k_k k') H' -> fs_inv k' H' D' I -> hierarchy k' D' -> dirs k' D' = move (dirs k D) od on nd nn src ->
      (forall i, but_children (inode_at k' i) = but_children (moved_inode k src nd i)) -> only_names k k' ->
      rename_ends k D I od on nd nn src 0 k'
  | rename_back k' H' D' :
      od <> nd -> heap (k_k k') H' -> fs_inv k' H' D' I -> hierarchy k' D' -> dirs k' D' = dirs k D ->
      (forall i, but_children (inode_at k' i) = but_children (inode_at k i)) -> only_names k k' ->
      rename_ends k D I od on nd nn src (- ENOMEM) k'
  | rename_lost k' H' D' :
      od <> nd -> heap (k_k k') H' -> tree k' H' D' -> dirs k' D' = alter (delete on) od (dirs k D) ->
      (forall i, but_children (inode_at k' i) = but_children (inode_at k i)) -> only_names k k' ->
      rename_ends k D I od on nd nn src (- ENOMEM) k'.

Lemma linked_names k m dir name ri d : only_names k (linked k m dir name ri d).
Proof. unfold linked. by case_match; destruct k. Qed.

Lemma hierarchy_same k k' D :
  (forall i, itype k' i = itype k i) -> (forall i, up k' i = up k i) -> (forall e, rd_inode (rdent_at k' e) = rd_inode (rdent_at k e)) ->
  hierarchy k D -> hierarchy k' D.
Proof.
  intros Ht Hu He [Hp Ho Hr]. split.
  - intros dir ds d Hd Hin. rewrite He, Ht, Hu. by apply (Hp dir ds).
  - intros i. rewrite Ht. intros Hi. unfold refs. rewrite (refs_ext k k') by (intros; apply He). by apply Ho.
  - intros i Hi. apply (below_same k k' Hu), Hr, Hi.
Qed.

Section Move.
Context (k k2 : kernel) (D : gmap Z (list Z)) (dir : Z) (l1 : list Z) (d : Z) (l2 : list Z) (nd : Z) (nds : list Z) (d' : Z).
Let src := rd_inode (rdent_at k d).
Let D1 := <[dir := l1 ++ l2]> D.
Let D2 := <[nd := d' :: nds]> D1.
Context (Hd : D !! dir = Some (l1 ++ d :: l2)) (Hnd : D1 !! nd = Some nds).
Context (Hent : forall e, e ∈ all_entries D1 -> rd_inode (rdent_at k2 e) = rd_inode (rdent_at k e)) (Hnew : rd_inode (rdent_at k2 d') = src).

Lemma refs_cut i : refs k2 D1 i = refs k D i - (if decide (src = i) then 1 else 0).
Proof using Hd Hent.
  apply (refs_remove k k2 D dir l1 d l2 i Hd). intros e He. apply Hent. unfold D1. rewrite all_entries_insert, <- app_assoc. done.
Qed.

Lemma refs_moved i : refs k2 D2 i = refs k D i.
Proof using Hd Hnd Hent Hnew. unfold D2. rewrite (refs_cons k2 k2 D1 nd nds d' i Hnd) by done. rewrite refs_cut, Hnew. lia. Qed.

Lemma hierarchy_moved :
  hierarchy k D -> (forall i, itype k2 i = itype k i) ->
  (forall i, up k2 i = if decide (i = src /\ itype k src = S_IFDIR) then nd else up k i) ->
  (forall i, is_Some (D !! i) -> below k2 0 i) -> hierarchy k2 D2.
Proof using Hd Hnd Hent Hnew.
  intros [Hp Ho _] Ht Hu Hr. split.
  - assert (Hold : forall j es e, D1 !! j = Some es -> e ∈ es -> itype k2 (rd_inode (rdent_at k2 e)) = S_IFDIR -> up k2 (rd_inode (rdent_at k2 e)) = j).
    { intros j es e Hj He. assert (Hin : e ∈ all_entries D1) by (apply elem_of_all_entries; eauto). rewrite (Hent e Hin), Ht, Hu. intros Hty.
      rewrite decide_False.
      - unfold D1 in Hj. apply lookup_insert_Some in Hj as [[<- <-]|[_ Hj]]; [apply (Hp dir _ e Hd); [by apply elem_rest|done]|by apply (Hp j es)].
      - intros [E _]. assert (Hpos := refs_pos k2 D1 src e Hin ltac:(by rewrite Hent)). rewrite refs_cut, decide_True in Hpos by done.
        rewrite E in Hty. specialize (Ho src Hty). lia. }
    intros j es e Hj He. unfold D2 in Hj. apply lookup_insert_Some in Hj as [[<- <-]|[_ Hj]]; [|by apply (Hold j es)].
    apply elem_of_cons in He as [->|He]; [|by apply (Hold nd nds)]. rewrite Hnew, Ht, Hu. intros Hty. by rewrite decide_True.
  - intros i. rewrite Ht, refs_moved. apply Ho.
  - intros i Hi. apply Hr. unfold D2, D1 in Hi. rewrite !lookup_insert_is_Some in Hi. destruct Hi as [<-|[_ [<-|[_ Hi]]]]; [|by exists (l1 ++ d :: l2)|done].
    unfold D1 in Hnd. apply lookup_insert_Some in Hnd as [[<- _]|[_ ?]]; by eexists.
Qed.
End Move.

Lemma unlinked_but k m dir l1 d i : but_children (inode_at (unlinked k m dir l1 d) i) = but_children (inode_at k i).
Proof. destruct (unlinked_inode k m dir l1 d i) as [v ->]. by case_decide. Qed.

Lemma moved_but k m dir l1 d m' nd name d' src i :
  but_children (inode_at (linked (unlinked k m dir l1 d) m' nd name src d') i) = but_children (moved_inode k src nd i).
Proof.
  assert (Et : itype (unlinked k m dir l1 d) src = itype k src) by exact (f_equal i_type (unlinked_but k m dir l1 d src)).
  rewrite linked_inode, Et. unfold moved_inode. assert (E := unlinked_but k m dir l1 d i).
  assert (Ec : forall v x, but_children (set_ri_children v x) = but_children x) by done.
  assert (Ep : forall x, but_children (set_ri_parent nd x) = set_ri_parent nd (but_children x)) by done.
  destruct (decide (i = nd)), (decide (i = src /\ itype k src = S_IFDIR)); unfold id; by rewrite ?Ec, ?Ep, E.
Qed.

Lemma up_moved k k2 src nd :
  (forall i, but_children (inode_at k2 i) = but_children (moved_inode k src nd i)) ->
  forall i, up k2 i = if decide (i = src /\ itype k src = S_IFDIR) then nd else up k i.
Proof.
  intros Hb i. rewrite (f_equal ri_parent (Hb i) : up k2 i = ri_parent (moved_inode k src nd i)). unfold moved_inode. by case_decide.
Qed.

(** The move, given that the hierarchy still ends at the root. *)
Lemma moved_spec k H D I m dir l1 d l2 m' nd nds name d' :
  fs_inv k H D I -> hierarchy k D -> D !! dir = Some (l1 ++ d :: l2) -> <[dir := l1 ++ l2]> D !! nd = Some nds ->
  let src := rd_inode (rdent_at k d) in
  let k1 := unlinked k m dir l1 d in
  let D1 := <[dir := l1 ++ l2]> D in
  let k2 := linked k1 m' nd name src d' in
  tree k1 (delete d H) D1 -> delete d H !! d' = None ->
  tree k2 (<[d' := SIZEOF_RAMFS_DENTRY]> (delete d H)) (<[nd := d' :: nds]> D1) ->
  (forall i, is_Some (D !! i) -> below k2 0 i) ->
  fs_inv k2 (<[d' := SIZEOF_RAMFS_DENTRY]> (delete d H)) (<[nd := d' :: nds]> D1) I /\ hierarchy k2 (<[nd := d' :: nds]> D1) /\
  (forall i, but_children (inode_at k2 i) = but_children (moved_inode k src nd i)) /\ only_names k k2.
Proof.
  intros HI HH Hd Hnd src k1 D1 k2 HT1 Hfree HT2 Hbelow. split; [by apply (fs_inv_moved k H D I m dir l1 d l2 m' nd nds name d')|].
  assert (Hb := moved_but k m dir l1 d m' nd name d' src). fold k1 k2 in Hb. split; [|split; [done|]].
  2:{ apply (only_names_trans k k1); [apply unlinked_names|apply linked_names]. }
  assert (HT := fi_tree _ _ _ _ HI). destruct (linked_rdent k1 (delete d H) D1 m' nd nds name src d' HT1 Hnd Hfree) as [Er1 Er2].
  apply (hierarchy_moved k k2 D dir l1 d l2 nd nds d'); try done.
  - intros e He. assert (He2 := He). unfold D1 in He. rewrite all_entries_insert, <- app_assoc in He.
    destruct (tree_entry_once _ _ _ _ _ _ _ _ HT Hd He) as [Hne Hs]. unfold k2. rewrite Er2 by done.
    destruct (unlinked_rdents k m dir l1 d e Hs Hne) as (_ & _ & E). exact (f_equal snd E).
  - intros i. rewrite (f_equal i_type (Hb i) : itype k2 i = i_type (moved_inode k src nd i)). unfold moved_inode. by case_decide.
  - exact (up_moved k k2 src nd Hb).
Qed.

(** No inode is at 0. *)
Lemma no_inode_zero k H D I : heap (k_k k) H -> fs_inv k H D I -> k_inodes k !! 0 = None.
Proof.
  intros HH HI. apply eq_None_not_Some. intros [?|Hin]%(fi_whole _ _ _ _ HI); [done|].
  destruct (heap_block _ _ _ _ HH (proj1 (fi_live _ _ _ _ HI 0 Hin))). lia.
Qed.

Lemma moved_same k src nd i : up k src = nd \/ itype k src <> S_IFDIR -> moved_inode k src nd i = inode_at k i.
Proof.
  unfold moved_inode. case_decide as E; [|done]. destruct E as [-> Ht]. intros [<-|?]; [|done]. unfold up. by destruct (inode_at k src).
Qed.

(** The end of a rename within a directory, and to another one. *)
Lemma rename_same k H D I od ods nn src sd :
  heap (k_k k) H -> fs_inv k H D I -> hierarchy k D -> D !! od = Some ods -> sd ∈ ods -> rd_inode (rdent_at k sd) = src ->
  dir_map k ods !! nn = None -> slen nn <= RAMFS_NAME_MAX ->
  rename_ends k D I od (entry_name k sd) od nn src 0 (upd_rdent k sd (set_rd_name (ramfs_set_name nn))).
Proof.
  intros HH HI Hh Hod Hin Esrc Hnone Hlen. assert (Hpar := hi_parent _ _ Hh od ods sd Hod Hin). rewrite Esrc in Hpar.
  assert (Eset : ramfs_set_name nn = nn) by (unfold ramfs_set_name; apply take_ge; unfold slen in Hlen; lia). rewrite Eset.
  apply list_elem_of_split in Hin as (l1 & l2 & ->). destruct (renamed_spec k H D I od l1 sd l2 nn HI Hod Hnone) as [HI' Ed].
  apply (rename_done _ _ _ _ _ _ _ _ _ H D); [done|done| | | |by destruct k].
  - apply (hierarchy_same k); [done|done| |done]. intros e. rewrite rdent_at_upd. case_decide; [by subst|done].
  - rewrite Ed, Esrc. unfold move. apply map_eq. intros i. destruct (decide (od = i)) as [<-|]; [|by rewrite lookup_insert_ne, !lookup_alter_ne].
    by rewrite lookup_insert_eq, !lookup_alter_eq, (dirs_lookup k D od _ Hod).
  - intros i. rewrite moved_same; [done|]. destruct (decide (itype k src = S_IFDIR)); [left; by apply Hpar|by right].
Qed.

Section Cross.
Context (k : kernel) (H : gmap Z Z) (D : gmap Z (list Z)) (I : gset Z) (m : slub) (od : Z) (l1 : list Z) (d : Z) (l2 : list Z).
Let src := rd_inode (rdent_at k d).
Let on := entry_name k d.
Let k1 := unlinked k m od l1 d.
Let D1 := <[od := l1 ++ l2]> D.
Context (HH : heap (k_k k) H) (HI : fs_inv k H D I) (Hh : hierarchy k D) (Hod : D !! od = Some (l1 ++ d :: l2)).
Context (HT1 : tree k1 (delete d H) D1) (Ed1 : dirs k1 D1 = <[od := delete on (dir_map k (l1 ++ d :: l2))]> (dirs k D)).

Lemma moved_done nd nds nn m' d' :
  od <> nd -> D !! nd = Some nds -> ~ (itype k src = S_IFDIR /\ below k src nd) ->
  let k2 := linked k1 m' nd nn src d' in
  let H2 := <[d' := SIZEOF_RAMFS_DENTRY]> (delete d H) in
  let D2 := <[nd := d' :: nds]> D1 in
  delete d H !! d' = None -> heap m' H2 -> tree k2 H2 D2 -> dirs k2 D2 = <[nd := <[nn := src]> (dir_map k nds)]> (dirs k1 D1) ->
  rename_ends k D I od on nd nn src 0 k2.
Proof using HeapSpec0 HH HI Hh Hod HT1 Ed1.
  intros Hne Hnd Hbel k2 H2 D2 Hfree Hm' HT2 Ed2. assert (Hb := moved_but k m od l1 d m' nd nn d' src). fold k1 k2 in Hb.
  assert (Hu := up_moved k k2 src nd Hb). assert (H0 := no_inode_zero _ _ _ _ HH HI).
  assert (Hnd1 : D1 !! nd = Some nds) by (unfold D1; by rewrite lookup_insert_ne).
  destruct (moved_spec k H D I m od l1 d l2 m' nd nds nn d' HI Hh Hod Hnd1 HT1 Hfree HT2) as (HI2 & Hh2 & _ & Hon).
  { intros i Hi. apply (hi_root _ _ Hh) in Hi. destruct (decide (itype k src = S_IFDIR)) as [Ht|Ht].
    - assert (Hs0 : src <> 0) by (intros E; rewrite E in Ht; unfold itype, inode_at in Ht; rewrite H0 in Ht; by vm_compute in Ht).
      apply (below_moved k k2 src nd); [| |tauto|apply (hi_root _ _ Hh); by eexists|done].
      + rewrite Hu, decide_False by (intros [? _]; done). unfold up, inode_at. by rewrite H0.
      + intros j. rewrite Hu. by apply decide_ext; tauto.
    - apply (below_same k); [|done]. intros j. etransitivity; [apply Hu|]. by rewrite decide_False by tauto. }
  apply (rename_done _ _ _ _ _ _ _ _ _ H2 D2); [unfold k2; by rewrite linked_k|done|done| |done|done].
  rewrite Ed2, Ed1. unfold move. apply map_eq. intros i. destruct (decide (nd = i)) as [<-|Hni].
  - by rewrite lookup_insert_eq, lookup_alter_eq, lookup_alter_ne, (dirs_lookup k D nd nds Hnd).
  - rewrite lookup_insert_ne, lookup_alter_ne by done. destruct (decide (od = i)) as [<-|Hoi].
    + by rewrite lookup_insert_eq, lookup_alter_eq, (dirs_lookup k D od _ Hod).
    + by rewrite lookup_insert_ne, lookup_alter_ne.
Qed.

Lemma moved_back nd nn m' d' :
  od <> nd -> dir_map k (l1 ++ d :: l2) !! on = Some src -> dir_map k1 (l1 ++ l2) = delete on (dir_map k (l1 ++ d :: l2)) ->
  let k2 := linked k1 m' od on src d' in
  let H2 := <[d' := SIZEOF_RAMFS_DENTRY]> (delete d H) in
  let D2 := <[od := d' :: l1 ++ l2]> D1 in
  delete d H !! d' = None -> heap m' H2 -> tree k2 H2 D2 -> dirs k2 D2 = <[od := <[on := src]> (dir_map k1 (l1 ++ l2))]> (dirs k1 D1) ->
  rename_ends k D I od on nd nn src (- ENOMEM) k2.
Proof using HI Hh Hod HT1 Ed1.
  intros Hne Hon Em k2 H2 D2 Hfree Hm' HT2 Ed2. assert (Hb := moved_but k m od l1 d m' od on d' src). fold k1 k2 in Hb.
  assert (Hpar : up k src = od \/ itype k src <> S_IFDIR).
  { destruct (decide (itype k src = S_IFDIR)); [left|by right]. by apply (hi_parent _ _ Hh od _ d Hod (elem_mid l1 d l2)). }
  assert (Hb' : forall i, but_children (inode_at k2 i) = but_children (inode_at k i)).
  { intros i. rewrite Hb. by rewrite moved_same. }
  destruct (moved_spec k H D I m od l1 d l2 m' od _ on d' HI Hh Hod (lookup_insert_eq _ _ _) HT1 Hfree HT2) as (HI2 & Hh2 & _ & Hn).
  { intros i Hi. apply (below_same k); [|by apply (hi_root _ _ Hh)]. intros j. exact (f_equal ri_parent (Hb' j)). }
  apply (rename_back _ _ _ _ _ _ _ _ _ H2 D2 Hne); [unfold k2; by rewrite linked_k|done|done| |done|done].
  rewrite Ed2, Em, Ed1, insert_delete_id, insert_insert_eq by done. apply insert_id. by apply dirs_lookup.
Qed.

Lemma moved_lost nd nn : od <> nd -> heap m (delete d H) -> rename_ends k D I od on nd nn src (- ENOMEM) k1.
Proof using Hod HT1 Ed1.
  intros Hne Hm. apply (rename_lost _ _ _ _ _ _ _ _ _ (delete d H) D1); try done; [|intros i; apply unlinked_but|apply unlinked_names].
  rewrite Ed1. apply map_eq. intros i. destruct (decide (od = i)) as [<-|]; [|by rewrite lookup_insert_ne, lookup_alter_ne].
  by rewrite lookup_insert_eq, lookup_alter_eq, (dirs_lookup k D od _ Hod).
Qed.
End Cross.

Lemma rename_cross k H D I od ods on nd nds nn src :
  heap (k_k k) H -> fs_inv k H D I -> hierarchy k D -> D !! od = Some ods -> D !! nd = Some nds -> od <> nd ->
  dir_map k ods !! on = Some src -> dir_map k nds !! nn = None -> slen on <= RAMFS_NAME_MAX -> slen nn <= RAMFS_NAME_MAX ->
  ~ (itype k src = S_IFDIR /\ below k src nd) ->
  exists err k', ('(err, src, k) ← ramfs_remove_child k od on;
    if negb (err =? 0) then Some (err, k)
    else '(err, k) ← ramfs_add_child k nd nn src; if negb (err =? 0) then put_back k od on src err else Some (0, k)) = Some (err, k') /\
    rename_ends k D I od on nd nn src err k'.
Proof.
  intros HH HI Hh Hod Hnd Hne Hm Hnone Hlon Hlen Hbel. assert (HT := fi_tree _ _ _ _ HI).
  assert (Hrem := remove_child_spec k H D od ods on HH HT Hod). rewrite Hm in Hrem.
  destruct Hrem as (l1 & d & l2 & m & -> & Ee & -> & Hheap & HT1 & Ed1). unfold entry in Ee. injection Ee as En Eri.
  cbn [mbind option_bind]. change (negb (0 =? 0)) with false. cbn iota. subst on src.
  set (src := rd_inode (rdent_at k d)) in *. set (k1 := unlinked k m od l1 d) in *. set (D1 := <[od := l1 ++ l2]> D) in *.
  assert (Hnd1 : D1 !! nd = Some nds) by (unfold D1; by rewrite lookup_insert_ne). assert (Hod1 : D1 !! od = Some (l1 ++ l2)) by apply lookup_insert_eq.
  assert (E1 := f_equal (lookup nd) Ed1). assert (E2 := f_equal (lookup od) Ed1).
  rewrite lookup_insert_ne, (dirs_lookup k1 D1 nd nds Hnd1), (dirs_lookup k D nd nds Hnd) in E1 by done. injection E1 as E1.
  rewrite lookup_insert_eq, (dirs_lookup k1 D1 od _ Hod1) in E2. injection E2 as E2.
  assert (Hadd := add_child_spec k1 (delete d H) D1 nd nds nn src Hheap HT1 Hnd1 Hlen). rewrite E1, Hnone in Hadd.
  destruct Hadd as [->|(d' & m' & -> & _ & Hfree & Hm' & HT2 & Ed2)]; cbn [mbind option_bind].
  - unfold put_back. assert (Hback := add_child_spec k1 (delete d H) D1 od _ (entry_name k d) src Hheap HT1 Hod1 Hlon).
    rewrite E2, lookup_delete_eq, <- E2 in Hback.
    destruct Hback as [->|(d' & m' & -> & _ & Hfree & Hm' & HT2 & Ed2)]; cbn [mbind option_bind]; (eexists _, _; split; [done|]).
    + by apply (moved_lost k H D I m od l1 d l2).
    + by apply (moved_back k H D I m od l1 d l2).
  - eexists _, _. split; [done|]. by apply (moved_done k H D I m od l1 d l2 HH HI Hh Hod HT1 Ed1 nd nds).
Qed.

(** [ramfs_inode_rename] to a free name. *)
Definition rename_outcome (k : kernel) (D : gmap Z (list Z)) (I : gset Z) (od : Z) (ods : list Z) (on : list Z) (nd : Z) (nn : list Z)
    (res : option (Z * kernel)) : Prop :=
  if bool_decide (on = []) || bool_decide (nn = []) then res = Some (- ENOENT, k)
  else if is_dotname on || is_dotname nn then res = Some (- EBUSY, k)
  else match dir_map k ods !! on with
  | None => res = Some (- ENOENT, k)
  | Some src =>
      (itype k src = S_IFDIR /\ below k src nd -> res = Some (- EINVAL, k)) /\
      (~ (itype k src = S_IFDIR /\ below k src nd) -> exists err k', res = Some (err, k') /\ rename_ends k D I od on nd nn src err k')
  end.

Lemma rename_spec k H D I od ods on nd nds nn :
  heap (k_k k) H -> fs_inv k H D I -> hierarchy k D -> D !! od = Some ods -> D !! nd = Some nds -> dir_map k nds !! nn = None ->
  slen on <= RAMFS_NAME_MAX -> slen nn <= RAMFS_NAME_MAX -> rename_outcome k D I od ods on nd nn (ramfs_inode_rename k od on nd nn).
Proof.
  intros HH HI Hh Hod Hnd Hnone Hlon Hlen. assert (HT := fi_tree _ _ _ _ HI).
  assert (HRo := tr_dirs _ _ _ HT od ods Hod). assert (HRn := tr_dirs _ _ _ HT nd nds Hnd).
  assert (Eto : itype k od = S_IFDIR) by exact (dr_type _ _ _ _ HRo). assert (Etn : itype k nd = S_IFDIR) by exact (dr_type _ _ _ _ HRn).
  unfold rename_outcome, ramfs_inode_rename, inode_is_dir. rewrite Eto, Etn, (proj2 (Z.eqb_neq _ _) (dr_inode _ _ _ _ HRo)), (proj2 (Z.eqb_neq _ _) (dr_inode _ _ _ _ HRn)).
  rewrite Z.eqb_refl. cbn [orb andb negb]. destruct (bool_decide (on = []) || bool_decide (nn = [])); [done|].
  destruct (is_dotname on || is_dotname nn); [done|].
  destruct (find_child_spec k H od ods on HRo) as [(sd & -> & Hsd & Hin & Hname & ->)|[-> ->]]; [|done].
  cbn [mbind option_bind]. rewrite (proj2 (Z.eqb_neq _ _) Hsd). set (src := rd_inode (rdent_at k sd)).
  destruct (find_child_spec k H nd nds nn HRn) as [(e & _ & _ & _ & _ & E)|[-> _]]; [congruence|]. cbn [mbind option_bind].
  assert (HsI : src ∈ I) by exact (fi_named _ _ _ _ HI od ods sd Hod Hin).
  destruct (heap_block _ _ _ _ HH (proj1 (fi_live _ _ _ _ HI src HsI))) as [Hpos _].
  change (0 =? 0) with true. cbn iota. rewrite (proj2 (Z.eqb_neq 0 src)) by lia.
  assert (Hup : exists b, (if itype k src =? S_IFDIR then ancestor (tree_fuel k) k nd src else Some false) = Some b /\
    (b = true <-> itype k src = S_IFDIR /\ below k src nd)).
  { destruct (Z.eqb_spec (itype k src) S_IFDIR) as [Et|Et]; [|exists false; split; [done|]; split; [done|tauto]].
    destruct (ancestor_answers k D nd src Hh ltac:(by eexists) (no_inode_zero _ _ _ _ HH HI) ltac:(lia)) as (b & -> & Hb). exists b. split; [done|]. tauto. }
  destruct Hup as (b & -> & Hb). cbn [mbind option_bind]. destruct b; [by split; [|intros []; apply Hb]|].
  split; [by intros Hx%Hb|]. intros Hbel. cbn [rename_target Z.eqb negb]. unfold rename_target. cbn [Z.eqb mbind option_bind negb].
  destruct (Z.eqb_spec od nd) as [<-|Hne].
  - assert (nds = ods) as -> by congruence. eexists _, _. split; [done|]. rewrite <- Hname. by apply (rename_same k H D I od ods nn src sd).
  - apply (rename_cross k H D I od ods on nd nds nn src); try done. apply dir_map_Some; [apply (dr_names _ _ _ _ HRo)|by exists sd].
Qed.

(** ** Creating *)

Lemma refs_none k D i : (forall d, d ∈ all_entries D -> rd_inode (rdent_at k d) <> i) -> refs k D i = 0.
Proof.
  intros Hn. unfold refs. destruct (filter _ _) as [|d l] eqn:E; [done|]. exfalso.
  assert (Hd : d ∈ filter (fun d => rd_inode (rdent_at k d) = i) (all_entries D)) by (rewrite E; left).
  apply list_elem_of_filter in Hd as [Hi Hd]. by apply (Hn d).
Qed.

(** A fresh inode without links. *)
Lemma fs_inv_alloc k H D I m k1 ri x :
  fs_inv k H D I -> H !! ri = None -> heap m (<[ri := SIZEOF_RAMFS_INODE]> H) ->
  k_rdents k1 = k_rdents k -> k_inodes k1 = <[ri := x]> (k_inodes k) ->
  i_nlink x = 0 -> ri_data x = 0 -> i_free x = true -> has (i_flags x) I_PERSISTENT = true ->
  fs_inv k1 (<[ri := SIZEOF_RAMFS_INODE]> H) D ({[ ri ]} ∪ I) /\ dirs k1 D = dirs k D.
Proof.
  intros [HT Hlive Hwhole Hnamed Hdirs Hnl Hdata Hown] Hnone Hm Erd Ein Hx0 Hxd Hxf Hxp.
  assert (Hroot : ri <> root_inode).
  { destruct (heap_block _ _ _ _ Hm (lookup_insert_eq _ _ _)). unfold root_inode. lia. }
  assert (HriI : ri ∉ I) by (intros Hi; destruct (Hlive ri Hi); congruence).
  assert (Eri : inode_at k1 ri = x) by (unfold inode_at; by rewrite Ein, lookup_insert_eq).
  assert (Ene : forall i, i <> ri -> inode_at k1 i = inode_at k i) by (intros i Hne; unfold inode_at; by rewrite Ein, lookup_insert_ne).
  assert (EI : forall i, i ∈ I -> inode_at k1 i = inode_at k i) by (intros i Hi; apply Ene; congruence).
  assert (Erdent : forall e, rdent_at k1 e = rdent_at k e) by (intros e; unfold rdent_at; by rewrite Erd).
  assert (Hent : forall d, d ∈ all_entries D -> d <> ri).
  { intros d (j & es & Hj & Hd)%elem_of_all_entries ->. destruct (dr_blocks _ _ _ _ (tr_dirs _ _ _ HT _ _ Hj) ri Hd). congruence. }
  destruct (rdents_frame k k1 Erd) as [Ed Erefs]. split; [split|apply Ed].
  - revert HT. apply tree_frame; [done| |].
    + intros i Hi. rewrite Ene; [done|]. intros ->. by destruct (Hdirs ri Hi).
    + intros d Hd. rewrite lookup_insert_ne; [done|]. apply not_eq_sym. by apply Hent.
  - intros i [->%elem_of_singleton|Hi]%elem_of_union.
    + rewrite lookup_insert_eq, Ein, lookup_insert_eq, Eri. splits; try done.
    + destruct (Hlive i Hi) as (Hh & Hr & Hp & Hfr & Hfl). rewrite EI, lookup_insert_ne, Ein, lookup_insert_ne by congruence. done.
  - intros i. rewrite Ein. destruct (decide (i = ri)) as [->|Hne]; [intros _; right; set_solver|].
    rewrite lookup_insert_ne by done. intros Hi. destruct (Hwhole i Hi); [by left|right; set_solver].
  - intros j es e Hj He. rewrite Erdent. apply elem_of_union. right. by apply (Hnamed j es e).
  - intros j Hj. destruct (Hdirs j Hj) as [|Hi]; [by left|right; by apply elem_of_union_r].
  - intros i [->%elem_of_singleton|Hi]%elem_of_union.
    + intros _. rewrite Eri, Hx0, Erefs. rewrite refs_none; [done|].
      intros d (j & es & Hj & Hd)%elem_of_all_entries E. apply HriI. rewrite <- E. by apply (Hnamed j es d).
    + unfold itype. rewrite EI by done. rewrite Erefs. by apply Hnl.
  - intros i [->%elem_of_singleton|Hi]%elem_of_union; [by rewrite Eri, Hxd|]. rewrite EI by done. intros Hnz.
    destruct (Hdata i Hi Hnz) as (Hh & Hni & He). splits; [rewrite lookup_insert_ne by congruence; done| |done].
    rewrite elem_of_union, elem_of_singleton. intros [E|]; [congruence|done].
  - intros i j [->%elem_of_singleton|Hi]%elem_of_union [->%elem_of_singleton|Hj]%elem_of_union; rewrite ?Eri, ?Hxd, ?EI by done.
    + done.
    + intros _ Hz. by destruct Hz.
    + intros E Hz. by destruct Hz.
    + by apply Hown.
Qed.

(** The states of [ramfs_inode_mknod]: the inode, and what it becomes. *)
Lemma mknod_spec k H D I dir ds name mode rdev :
  heap (k_k k) H -> fs_inv k H D I -> D !! dir = Some ds -> name <> [] -> slen name <= RAMFS_NAME_MAX ->
  Z.land mode S_IFMT = S_IFCHR ->
  match dir_map k ds !! name with
  | Some _ => ramfs_inode_mknod k dir name mode rdev = Some (- EEXIST, 0, k)
  | None =>
      (exists k', ramfs_inode_mknod k dir name mode rdev = Some (- ENOMEM, 0, k') /\ dirs k' D = dirs k D) \/
      exists ri k' H' D', ramfs_inode_mknod k dir name mode rdev = Some (0, ri, k') /\ heap (k_k k') H' /\
        ri ∉ I /\ fs_inv k' H' D' ({[ ri ]} ∪ I) /\ dirs k' D' = <[dir := <[name := ri]> (dir_map k ds)]> (dirs k D) /\
        itype k' ri = S_IFCHR /\ i_rdev (inode_at k' ri) = rdev /\ i_nlink (inode_at k' ri) = 1 /\
        i_count (inode_at k' ri) = 0 /\ forall i, i <> ri -> but_children (inode_at k' i) = but_children (inode_at k i)
  end.
Proof.
  intros HH HI Hdir Hname Hlen Hmode. assert (HT := fi_tree _ _ _ _ HI). assert (HR := tr_dirs _ _ _ HT dir ds Hdir).
  assert (Etd : itype k dir = S_IFDIR) by exact (dr_type _ _ _ _ HR).
  unfold ramfs_inode_mknod, inode_is_dir. rewrite Etd, (proj2 (Z.eqb_neq _ _) (dr_inode _ _ _ _ HR)), Hmode, bool_decide_false by done.
  rewrite !Z.eqb_refl. cbn [orb andb negb].
  destruct (find_child_spec k H dir ds name HR) as [(e & -> & He & _ & _ & ->)|[-> Hnone]]; cbn [mbind option_bind].
  { by rewrite (proj2 (Z.eqb_neq _ _) He). }
  rewrite Hnone. change (negb (0 =? 0)) with false. cbn iota. unfold ramfs_alloc_inode, k_malloc.
  destruct (heap_malloc (k_k k) H SIZEOF_RAMFS_INODE HH) as [->|(ri & m & -> & Hri & Hfree & Hm)];
    [unfold SIZEOF_RAMFS_INODE; lia|left; by exists k; destruct k|]; cbn [mbind option_bind].
  rewrite !(proj2 (Z.eqb_neq _ _) Hri). cbn [mbind option_bind]. rewrite (proj2 (Z.eqb_neq _ _) Hri).
  set (k1 := upd_inode (ramfs_apply_mode _ _ _) _ _).
  assert (Ex : exists x, k_inodes k1 = <[ri := x]> (k_inodes k) /\ i_type x = S_IFCHR /\ i_rdev x = rdev /\ i_nlink x = 1 /\ i_count x = 0 /\
    ri_data x = 0 /\ i_free x = true /\ has (i_flags x) I_PERSISTENT = true).
  { eexists. split; [unfold k1, ramfs_apply_mode, ramfs_inode_init, upd_inode; cbn; by rewrite !insert_insert_eq|].
    unfold ramfs_apply_mode, ramfs_inode_init, upd_inode, inode_at. cbn. rewrite !lookup_insert_eq. cbn. done. }
  assert (Ekk : k_k k1 = m) by done. assert (Erd : k_rdents k1 = k_rdents k) by done. clearbody k1.
  destruct Ex as (x & Ein & Hxt & Hxr & Hxn & Hxc & Hxd & Hxf & Hxp). set (g := upd_inode k1 ri (set_i_nlink 0)).
  assert (Ex1 : inode_at k1 ri = x) by (unfold inode_at; by rewrite Ein, lookup_insert_eq).
  destruct (fs_inv_alloc k H D I m g ri (set_i_nlink 0 x) HI Hfree Hm) as [HIg Edg]; try done.
  { unfold g, upd_inode. cbn. by rewrite Ein, Ex1, insert_insert_eq. }
  assert (Hg : forall i, inode_key (inode_at k1 i) = inode_key (inode_at g i) /\ ri_children (inode_at k1 i) = ri_children (inode_at g i) /\
    i_nlink (inode_at k1 i) = i_nlink (inode_at g i) + (if decide (ri = i) then 1 else 0)).
  { intros i. unfold g. rewrite inode_at_upd. destruct (decide (ri = i)) as [<-|]; [rewrite Ex1, Hxn|split; [done|split; [done|lia]]]. done. }
  assert (HT1 : tree k1 (<[ri := SIZEOF_RAMFS_INODE]> H) D).
  { assert (HTg := fi_tree _ _ _ _ HIg). revert HTg. apply tree_frame; [done| |done]. intros i _. destruct (Hg i) as (E & -> & _).
    unfold inode_key in E. split; [congruence|done]. }
  assert (Ed1 : dirs k1 D = dirs k D) by (by destruct (rdents_frame g k1 eq_refl) as [-> _]).
  assert (Emap : dir_map k1 ds = dir_map k ds).
  { apply (f_equal (lookup dir)) in Ed1. rewrite !(dirs_lookup _ D dir ds Hdir) in Ed1. congruence. }
  assert (Hadd := add_child_spec k1 _ D dir ds name ri ltac:(by rewrite Ekk) HT1 Hdir Hlen). rewrite Emap, Hnone in Hadd.
  destruct Hadd as [->|(d & m' & -> & Hd & Hfree' & Hm' & HT' & Edirs)]; cbn [mbind option_bind].
  - left. unfold free_inode_struct, k_free. destruct (heap_free m _ ri Hm) as (m' & Ef & _); [rewrite lookup_insert_eq; by eexists|].
    rewrite Ekk, Ef. cbn. eexists. split; [done|].
    destruct (rdents_frame k1 (set_k_inodes (delete ri (k_inodes k1)) (set_k_k m' k1)) eq_refl) as [-> _]. done.
  - right. exists ri, (linked k1 m' dir name ri d), (<[d := SIZEOF_RAMFS_DENTRY]> (<[ri := SIZEOF_RAMFS_INODE]> H)), (<[dir := d :: ds]> D).
    assert (Hlk := fun i => linked_key k1 m' dir name ri d i). rewrite linked_k, <- Ed1. splits; try done.
    + intros Hi. destruct (fi_live _ _ _ _ HI ri Hi). congruence.
    + destruct (linked_rdent k1 _ D m' dir ds name ri d HT1 Hdir Hfree') as [Er1 Er2].
      apply (fs_inv_link g _ D _ _ dir ds d ri HIg Hdir Hfree' HT' Er1); [by apply elem_of_union_l, elem_of_singleton|exact Er2|..].
      * intros i. destruct (Hlk i) as (-> & _), (Hg i) as (-> & _). done.
      * intros i _ _. destruct (Hlk i) as (_ & ->), (Hg i) as (_ & _ & ->). done.
      * intros i. rewrite linked_dom; [symmetry; apply upd_dom; rewrite Ein, lookup_insert_eq; by eexists|].
        exact (dr_type _ _ _ _ (tr_dirs _ _ _ HT1 dir ds Hdir)).
    + destruct (Hlk ri) as (E & _). unfold inode_key, itype in *. rewrite Ex1, Hxt in E. congruence.
    + rewrite linked_inode, Ex1. by repeat case_decide.
    + destruct (Hlk ri) as (_ & ->). by rewrite Ex1.
    + rewrite linked_inode, Ex1. by repeat case_decide.
    + intros i Hne. assert (Ei : inode_at k1 i = inode_at k i) by (unfold inode_at; by rewrite Ein, lookup_insert_ne).
      rewrite linked_inode, Ei, (decide_False (P := i = ri /\ _)) by tauto. by case_decide.
Qed.

(** ** The operations of the file system *)

Lemma dir_is_dir k H i ds : dir_rep k H i ds -> inode_is_dir k i = true.
Proof. intros HR. unfold inode_is_dir, itype. by rewrite (dr_type _ _ _ _ HR), (proj2 (Z.eqb_neq _ _) (dr_inode _ _ _ _ HR)). Qed.

(** looking up a path is the walk of its components in the maps of the
    directories: [.] stays, [..] goes to the parent, a name is looked up, and
    a component that is missing or below a file ends the walk with NULL. *)
Theorem ramfs_lookup_correct k H D dir path :
  tree k H D -> closed k D -> is_Some (D !! dir) -> Forall (fun n => slen n <= RAMFS_NAME_MAX) (components path) ->
  ramfs_lookup_at k dir path = Some (default 0 (walk k (dirs k D) dir (components path))).
Proof. apply lookup_at_spec. Qed.

(** [vfs_link] gives an inode one more name.  It answers [-EEXIST] when
    the name is taken and [-ENOMEM] without effect; otherwise the map of the
    directory gains the name, all other directories stay, and link counts
    are again the numbers of names. *)
Theorem vfs_link_correct k H D I old dir ds name :
  heap (k_k k) H -> fs_inv k H D I -> D !! dir = Some ds -> i_op (inode_at k dir) = true ->
  old ∈ I -> itype k old <> S_IFDIR -> name <> [] -> slen name <= RAMFS_NAME_MAX -> refs k D old < 2 ^ 32 - 1 ->
  match dir_map k ds !! name with
  | Some _ => vfs_link k old dir name = Some (- EEXIST, k)
  | None =>
      vfs_link k old dir name = Some (- ENOMEM, k) \/
      exists k' H' D', vfs_link k old dir name = Some (0, k') /\ heap (k_k k') H' /\ fs_inv k' H' D' I /\
        dirs k' D' = <[dir := <[name := old]> (dir_map k ds)]> (dirs k D)
  end.
Proof.
  intros HH HI Hdir Hop Hold Hty Hname Hlen Hmax. assert (HR := tr_dirs _ _ _ (fi_tree _ _ _ _ HI) dir ds Hdir).
  destruct (heap_block _ _ _ _ HH (proj1 (fi_live _ _ _ _ HI old Hold))) as [Hpos _].
  assert (E : vfs_link k old dir name = ramfs_inode_link k old dir name).
  { unfold vfs_link. rewrite (dir_is_dir _ _ _ _ HR), (proj2 (Z.eqb_neq _ _) (dr_inode _ _ _ _ HR)), Hop.
    unfold inode_is_dir. by rewrite (proj2 (Z.eqb_neq old 0)), (proj2 (Z.eqb_neq _ _) Hty) by lia. }
  rewrite E. exact (link_spec k H D I old dir ds name HH HI Hdir Hold Hty Hname Hlen Hmax).
Qed.

(** C27: [vfs_unlink] removes one name of an inode that is no directory.  The
    name leaves its directory and its entry the heap.  When it was the last
    name and no file has the inode open, the inode is gone and its block and
    its data are freed; otherwise it stays as it was with one link less.  No
    other inode changes but for the list of the directory, and nothing else
    of the kernel does; no entry is left that names a freed inode. *)
Theorem vfs_unlink_correct k H D I dir ds name ri :
  heap (k_k k) H -> fs_inv k H D I -> D !! dir = Some ds -> i_op (inode_at k dir) = true ->
  dir_map k ds !! name = Some ri -> name <> [] -> itype k ri <> S_IFDIR ->
  exists k' H' D', vfs_unlink k dir ri name = Some (0, k') /\ unlinks k H D I dir ds name ri k' H' D'.
Proof.
  intros HH HI Hdir Hop Hm Hname Hty. assert (HR := tr_dirs _ _ _ (fi_tree _ _ _ _ HI) dir ds Hdir).
  assert (E : vfs_unlink k dir ri name = ramfs_inode_unlink k dir name).
  { unfold vfs_unlink. rewrite (dir_is_dir _ _ _ _ HR), (proj2 (Z.eqb_neq _ _) (dr_inode _ _ _ _ HR)), Hop.
    unfold inode_is_dir. by rewrite (proj2 (Z.eqb_neq _ _) Hty), andb_false_r. }
  rewrite E. exact (unlink_spec k H D I dir ds name ri HH HI Hdir Hm Hname Hty).
Qed.

(** C28: [vfs_rename] to a free name moves the entry, and keeps the file
    system a tree.  An empty or missing name gives [-ENOENT], a dot name
    [-EBUSY], moving a directory into itself or below itself [-EINVAL], all
    without effect; the walk that finds this out ends.  Otherwise the old name
    is gone, the new one names the same inode, link counts still agree,
    directories have one name and a parent where it is, and parents lead to
    the root; no other name changes, of the inodes only the parent of a moved
    directory (and the lists of entries), and nothing else of the kernel.  The
    only other answer is [-ENOMEM], for a move to another directory: then the
    old name is back as it was, or, if the allocator refuses that entry too,
    it is lost and no other name is. *)
Theorem vfs_rename_correct k H D I od ods on nd nds nn :
  heap (k_k k) H -> fs_inv k H D I -> hierarchy k D -> D !! od = Some ods -> D !! nd = Some nds ->
  i_op (inode_at k od) = true -> i_op (inode_at k nd) = true -> dir_map k nds !! nn = None ->
  slen on <= RAMFS_NAME_MAX -> slen nn <= RAMFS_NAME_MAX -> rename_outcome k D I od ods on nd nn (vfs_rename k od on nd nn).
Proof.
  intros HH HI Hh Hod Hnd Hoo Hon Hnone H1 H2.
  assert (HRo := tr_dirs _ _ _ (fi_tree _ _ _ _ HI) od ods Hod). assert (HRn := tr_dirs _ _ _ (fi_tree _ _ _ _ HI) nd nds Hnd).
  assert (E : vfs_rename k od on nd nn = ramfs_inode_rename k od on nd nn).
  { unfold vfs_rename. rewrite (dir_is_dir _ _ _ _ HRo), (dir_is_dir _ _ _ _ HRn), Hoo, Hon.
    by rewrite (proj2 (Z.eqb_neq _ _) (dr_inode _ _ _ _ HRo)), (proj2 (Z.eqb_neq _ _) (dr_inode _ _ _ _ HRn)). }
  rewrite E. by apply (rename_spec k H D I od ods on nd nds nn).
Qed.
End Tree.

(** ** Examples *)

Definition bare_kernel (m : slub) (i : gmap Z inode) (r : gmap Z ramfs_dentry) : kernel :=
  mkKernel (mkWaits running ∅ ∅ ∅) m ∅ ∅ ∅ ∅ i r ∅ 8 (mkTty ∅ 0 0 0 0 false false false (mkTermios 0 0 0 0 [])) [].

(** The root holds the directory [a], which holds the file [f]. *)
Definition dir_inode (parent children : Z) : inode :=
  mkInode 1 0 S_IFDIR 16877 0 true ramfs_dir_ops 0 2 0 I_PERSISTENT true parent children 0 0.
Definition nested : kernel :=
  bare_kernel k16
    {[ 8 := dir_inode 0 500; 600 := dir_inode 8 520;
       700 := mkInode 2 0 S_IFREG 33261 0 false ramfs_file_ops 0 1 0 I_PERSISTENT true 0 0 0 0 ]}
    {[ 500 := mkRdent [97] 600 0; 520 := mkRdent [102] 700 0 ]}.
Definition nested_dirs : gmap Z (list Z) := {[ 8 := [500]; 600 := [520] ]}.
Definition nested_heap : gmap Z Z := {[ 500 := SIZEOF_RAMFS_DENTRY; 520 := SIZEOF_RAMFS_DENTRY ]}.

Lemma nested_lookup i ds : nested_dirs !! i = Some ds -> (i = 8 /\ ds = [500]) \/ (i = 600 /\ ds = [520]).
Proof.
  unfold nested_dirs. intros [[<- <-]|[_ [<- <-]%lookup_singleton_Some]]%lookup_insert_Some; [by left|by right].
Qed.

Lemma nested_tree : tree nested nested_heap nested_dirs.
Proof.
  split.
  - intros i ds [[-> ->]|[-> ->]]%nested_lookup; (split; [discriminate|reflexivity| |apply NoDup_singleton|]).
    + cbn. split; [reflexivity|]. split; [discriminate|reflexivity].
    + intros d ->%list_elem_of_singleton. split; [reflexivity|by eexists].
    + cbn. split; [reflexivity|]. split; [discriminate|reflexivity].
    + intros d ->%list_elem_of_singleton. split; [reflexivity|by eexists].
  - intros i j ds es d [[-> ->]|[-> ->]]%nested_lookup [[-> ->]|[-> ->]]%nested_lookup Hd Hd'; try reflexivity;
      apply list_elem_of_singleton in Hd, Hd'; congruence.
Qed.

Lemma nested_closed : closed nested nested_dirs.
Proof.
  split.
  - intros i ds d [[-> ->]|[-> ->]]%nested_lookup ->%list_elem_of_singleton Ht; [by eexists|discriminate Ht].
  - intros i [ds [[-> ->]|[-> ->]]%nested_lookup]; by eexists.
Qed.

Lemma ramfs_lookup_correct_witness : ramfs_lookup nested [47; 97; 47; 46; 47; 102] = Some 700.
Proof.
  assert (E := ramfs_lookup_correct nested nested_heap nested_dirs 8 [47; 97; 47; 46; 47; 102] nested_tree nested_closed
    ltac:(by eexists) ltac:(repeat constructor; discriminate)).
  exact E.
Defined.

(** The root after a device [a] was made. *)
Definition root_kernel : kernel := ramfs_init (bare_kernel k16 ∅ ∅).

Lemma root_heap : slub_heap ∅ (k_k root_kernel) ∅.
Proof.
  destruct k16_inv as [HI Hs]. apply slub_heap_empty; [exact HI|exact Hs|vm_compute; reflexivity|].
  apply Z.mod_divide; [vm_compute; discriminate|vm_compute; reflexivity].
Qed.

Lemma root_inv : fs_inv root_kernel ∅ {[ 8 := [] ]} ∅.
Proof.
  split; try (intros i Hi; destruct (not_elem_of_empty (C := gset Z) _ Hi)).
  - split.
    + intros i ds [<- <-]%lookup_singleton_Some. split; [discriminate|reflexivity|reflexivity|apply NoDup_nil_2|].
      intros d Hd. destruct (not_elem_of_nil _ Hd).
    + intros i j ds es d [<- <-]%lookup_singleton_Some [<- <-]%lookup_singleton_Some. reflexivity.
  - intros i Hi. left. assert (E : k_inodes root_kernel = {[ 8 := inode_at root_kernel 8 ]}) by (vm_compute; reflexivity).
    rewrite E in Hi. by apply lookup_singleton_is_Some in Hi.
  - intros i ds d [<- <-]%lookup_singleton_Some Hd. destruct (not_elem_of_nil _ Hd).
  - intros i [ds [<- _]%lookup_singleton_Some]. by left.
  - intros i j Hi. destruct (not_elem_of_empty (C := gset Z) _ Hi).
Qed.

Definition made_code : Z := match ramfs_inode_mknod root_kernel 8 [97] S_IFCHR 259 with Some (e, _, _) => e | None => 1 end.
Lemma made_ok : made_code = 0.
Proof. vm_compute. reflexivity. Qed.

(** A file system with one name. *)
Record one_name (k : kernel) (H : gmap Z Z) (D : gmap Z (list Z)) (ds : list Z) (ri : Z) : Prop := {
  on_heap : slub_heap ∅ (k_k k) H;
  on_inv : fs_inv k H D {[ ri ]};
  on_dir : D !! 8 = Some ds;
  on_map : dir_map k ds = {[ [97] := ri ]};
  on_op : i_op (inode_at k 8) = true;
  on_type : itype k ri = S_IFCHR;
  on_nlink : i_nlink (inode_at k ri) = 1;
  on_count : i_count (inode_at k ri) = 0;
  on_top : up k 8 = 0;
  on_only : forall i, is_Some (D !! i) -> i = 8
}.

Lemma made : exists k H D ds ri, one_name k H D ds ri.
Proof.
  assert (Hmk := mknod_spec root_kernel ∅ {[ 8 := [] ]} ∅ 8 [] [97] S_IFCHR 259 root_heap root_inv (lookup_singleton_eq _ _)
    ltac:(discriminate) ltac:(vm_compute; discriminate) eq_refl).
  change (dir_map root_kernel [] !! [97]) with (None : option Z) in Hmk. cbv beta iota in Hmk.
  assert (W := made_ok). unfold made_code in W.
  destruct Hmk as [(k' & E & _)|(ri & k' & H' & D' & E & Hh & Hri & HI & Ed & Ht & _ & Hn & Hc & Hop)]; rewrite E in W; [discriminate W|].
  assert (Hin : is_Some (D' !! 8)).
  { apply (f_equal (lookup 8)) in Ed. rewrite lookup_insert_eq in Ed. unfold dirs in Ed. rewrite lookup_fmap in Ed.
    destruct (D' !! 8) as [ds|]; [by eexists|discriminate Ed]. }
  destruct Hin as [ds Hds]. exists k', H', D', ds, ri. rewrite union_empty_r_L in HI.
  assert (H8 : 8 <> ri) by (intros <-; destruct (fi_live _ _ _ _ HI 8 ltac:(by apply elem_of_singleton)) as (_ & Hr & _); by apply Hr).
  split; try assumption.
  - apply (f_equal (lookup 8)) in Ed. rewrite lookup_insert_eq, (dirs_lookup k' D' 8 ds Hds) in Ed. injection Ed as ->. reflexivity.
  - rewrite (f_equal i_op (Hop 8 H8) : i_op (inode_at k' 8) = i_op (inode_at root_kernel 8)). reflexivity.
  - rewrite (f_equal ri_parent (Hop 8 H8) : up k' 8 = up root_kernel 8). reflexivity.
  - intros i Hi. assert (Hi' : is_Some (dirs k' D' !! i)) by (unfold dirs; by rewrite lookup_fmap, fmap_is_Some). rewrite Ed in Hi'.
    apply lookup_insert_is_Some in Hi' as [<-|[_ Hi']]; [reflexivity|]. unfold dirs in Hi'. rewrite lookup_fmap, fmap_is_Some in Hi'.
    by apply lookup_singleton_is_Some in Hi'.
Qed.

Lemma one_name_facts k H D ds ri :
  one_name k H D ds ri -> itype k ri <> S_IFDIR /\ refs k D ri = 1 /\ dir_map k ds !! [97] = Some ri /\ dir_map k ds !! [98] = None.
Proof.
  intros [Hh HI Hd Hm Ho Ht Hn _ _ _]. assert (Hty : itype k ri <> S_IFDIR) by (rewrite Ht; discriminate).
  splits; [done| | |].
  - by rewrite <- (fi_nlink _ _ _ _ HI ri ltac:(by apply elem_of_singleton) Hty).
  - by rewrite Hm, lookup_singleton_eq.
  - by rewrite Hm, lookup_singleton_ne.
Qed.

Lemma vfs_link_correct_witness :
  exists k H D ds ri, one_name k H D ds ri /\
    (vfs_link k ri 8 [98] = Some (- ENOMEM, k) \/
     exists k' H' D', vfs_link k ri 8 [98] = Some (0, k') /\ fs_inv k' H' D' {[ ri ]} /\
       dirs k' D' = <[8 := {[ [98] := ri; [97] := ri ]}]> (dirs k D)).
Proof.
  destruct made as (k & H & D & ds & ri & HM). exists k, H, D, ds, ri. split; [exact HM|].
  destruct (one_name_facts _ _ _ _ _ HM) as (Hty & Hr & _ & Hb). destruct HM as [Hh HI Hd Hm Ho Ht Hn _ _ _].
  assert (W := vfs_link_correct k H D {[ ri ]} ri 8 ds [98] Hh HI Hd Ho ltac:(by apply elem_of_singleton) Hty ltac:(discriminate)
    ltac:(vm_compute; discriminate) ltac:(rewrite Hr; vm_compute; reflexivity)).
  rewrite Hb in W. rewrite Hm in W. destruct W as [E|(k' & H' & D' & E & _ & HI' & Ed)]; [left; exact E|right].
  exists k', H', D'. split; [exact E|]. split; [exact HI'|exact Ed].
Defined.

Lemma one_name_last k H D ds ri : one_name k H D ds ri -> last_use k D ri.
Proof. intros HM. split; [by apply (one_name_facts _ _ _ _ _ HM)|apply (on_count _ _ _ _ _ HM)]. Qed.

Lemma one_name_hierarchy k H D ds ri : one_name k H D ds ri -> hierarchy k D.
Proof.
  intros HM. assert (HI := on_inv _ _ _ _ _ HM). assert (Hri : forall e, e ∈ all_entries D -> itype k (rd_inode (rdent_at k e)) <> S_IFDIR).
  { intros e (j & es & Hj & He)%elem_of_all_entries. assert (Hin := fi_named _ _ _ _ HI j es e Hj He). apply elem_of_singleton in Hin.
    rewrite Hin, (on_type _ _ _ _ _ HM). discriminate. }
  split.
  - intros j es e Hj He Ht. destruct (Hri e); [apply elem_of_all_entries; eauto|done].
  - intros i Hi. rewrite refs_none; [lia|]. intros e He E. apply (Hri e He). by rewrite E.
  - intros i Hi. rewrite (on_only _ _ _ _ _ HM i Hi). exists 1%nat. exact (on_top _ _ _ _ _ HM).
Qed.

(** The device loses its only name and is gone. *)
Lemma vfs_unlink_correct_witness :
  exists k H D ds ri k' H' D', one_name k H D ds ri /\ vfs_unlink k 8 ri [97] = Some (0, k') /\
    unlinks (heap := slub_heap ∅) k H D {[ ri ]} 8 ds [97] ri k' H' D' /\ k_inodes k' !! ri = None /\ H' !! ri = None.
Proof.
  destruct made as (k & H & D & ds & ri & HM).
  destruct (one_name_facts _ _ _ _ _ HM) as (Hty & _ & Ha & _). assert (HM' := HM). destruct HM' as [Hh HI Hd Hm Ho Ht Hn _ _ _].
  destruct (vfs_unlink_correct k H D {[ ri ]} 8 ds [97] ri Hh HI Hd Ho Ha ltac:(discriminate) Hty) as (k' & H' & D' & E & HU).
  exists k, H, D, ds, ri, k', H', D'. split; [exact HM|]. split; [exact E|]. split; [exact HU|].
  destruct (ul_rest _ _ _ _ _ _ _ _ _ _ _ HU) as (d & _ & EH & EI & _).
  rewrite decide_True in EH by exact (one_name_last _ _ _ _ _ HM). rewrite decide_True in EI by exact (one_name_last _ _ _ _ _ HM). split; [exact EI|]. rewrite EH. apply lookup_delete_eq.
Defined.

(** The device gets another name in its directory, and cannot take a dot name. *)
Lemma vfs_rename_correct_witness :
  exists k H D ds ri k', one_name k H D ds ri /\ vfs_rename k 8 [97] 8 [98] = Some (0, k') /\
    rename_ends (heap := slub_heap ∅) k D {[ ri ]} 8 [97] 8 [98] ri 0 k' /\ vfs_rename k 8 [97] 8 [46] = Some (- EBUSY, k).
Proof.
  destruct made as (k & H & D & ds & ri & HM).
  destruct (one_name_facts _ _ _ _ _ HM) as (Hty & _ & Ha & Hb). assert (Hh := one_name_hierarchy _ _ _ _ _ HM).
  assert (W1 := vfs_rename_correct k H D {[ ri ]} 8 ds [97] 8 ds [98] (on_heap _ _ _ _ _ HM) (on_inv _ _ _ _ _ HM) Hh (on_dir _ _ _ _ _ HM)
    (on_dir _ _ _ _ _ HM) (on_op _ _ _ _ _ HM) (on_op _ _ _ _ _ HM) Hb ltac:(vm_compute; discriminate) ltac:(vm_compute; discriminate)).
  assert (Hdot : dir_map k ds !! [46] = None) by (rewrite (on_map _ _ _ _ _ HM); by apply lookup_singleton_ne).
  assert (W2 := vfs_rename_correct k H D {[ ri ]} 8 ds [97] 8 ds [46] (on_heap _ _ _ _ _ HM) (on_inv _ _ _ _ _ HM) Hh (on_dir _ _ _ _ _ HM)
    (on_dir _ _ _ _ _ HM) (on_op _ _ _ _ _ HM) (on_op _ _ _ _ _ HM) Hdot ltac:(vm_compute; discriminate) ltac:(vm_compute; discriminate)).
  unfold rename_outcome in W1. rewrite Ha in W1. destruct (proj2 W1 ltac:(tauto)) as (err & k' & E & He).
  assert (Ee : err = 0) by (destruct He as [|? ? ? Hne|? ? ? Hne]; [reflexivity|destruct (Hne eq_refl)|destruct (Hne eq_refl)]). subst err.
  exists k, H, D, ds, ri, k'. split; [exact HM|]. split; [exact E|]. split; [exact He|exact W2].
Defined.
