(* ===== verification/OpenFiles.v ===== *)
(** * What an open file holds

    The state in which files can end ([FileEnds] of [FileTable]): every inode
    is counted once for each file that has it open, every end of a pipe once
    for each file that is such an end, and files, pipes, inodes and their data
    are different blocks of the heap.  Ending a file wakes the other end of
    its pipe and frees the pipe with the last end; it frees an inode that has
    lost its last name. *)
From S2P Require Import Prelude Errno PageAlloc Slub Heap ListHead Task Sched Signal Wait Kernel Pipe Path Ramfs FileTable Directory.

(** How many files have the inode [i] open; how many are an end of the pipe
    [p] for reading ([r]) or for writing. *)
Definition opens (M : gmap Z file) (i : Z) : Z := msum (fun x => one (f_inode x = i)) M.
Definition is_pipe (x : file) : bool := match f_op x with pipe_read_ops | pipe_write_ops => true | _ => false end.
Definition reader (x : file) : bool := Z.land (f_flags x) O_ACCMODE =? O_RDONLY.
Definition is_end (r : bool) (p : Z) (x : file) : Prop := is_pipe x = true /\ f_private x = p /\ reader x = r.
Definition ends (r : bool) (M : gmap Z file) (p : Z) : Z := msum (fun x => one (is_end r p x)) M.

Lemma one_yes (b : Prop) `{Decision b} : b -> one b = 1.
Proof. intros Hb. unfold one. by rewrite decide_True. Qed.
Lemma one_no (b : Prop) `{Decision b} : ~ b -> one b = 0.
Proof. intros Hb. unfold one. by rewrite decide_False. Qed.

(** The invariant of the scheduler reads only the processor and the state of
    a task. *)
Lemma sched_inv_same s s' Q T :
  nodes s' = nodes s -> cpus s' = cpus s -> this_cpu s' = this_cpu s ->
  (forall t, (fun x => (t_cpu x, t_state x)) <$> tasks s' !! t = (fun x => (t_cpu x, t_state x)) <$> tasks s !! t) -> sched_inv s Q T -> sched_inv s' Q T.
Proof.
  intros En Ec Et Ef.
  assert (Hd : forall t, is_Some (tasks s' !! t) <-> is_Some (tasks s !! t)).
  { intros t. specialize (Ef t). destruct (tasks s !! t), (tasks s' !! t); cbn in Ef; try discriminate Ef; [by split; eauto|done]. }
  assert (Ha : forall t, t_cpu (task_at s' t) = t_cpu (task_at s t) /\ t_state (task_at s' t) = t_state (task_at s t)).
  { intros t. specialize (Ef t). unfold task_at. destruct (tasks s !! t), (tasks s' !! t); cbn in *; try discriminate Ef; [by injection Ef as -> ->|done]. }
  assert (Hsz : size (tasks s') = size (tasks s)).
  { rewrite <- !(size_dom (D := gset Z)). f_equal. apply set_eq. intros t. rewrite !elem_of_dom. apply Hd. }
  assert (Hcp : forall c, cpu_at s' c = cpu_at s c) by (intros c; unfold cpu_at; by rewrite Ec).
  intros [H1 H2 H3 H4 H5 H6 H7 H8 H9 H10 H11 H12 H13]. split; rewrite ?En, ?Et in *; try done.
  - intros c Hc. rewrite Hcp. by apply H4.
  - intros c t Hc Ht. destruct (Ha t) as [-> ->]. rewrite Hd. by apply H5.
  - intros t Ht. apply H6. by apply Hd.
  - intros t Ht. by apply Hd, H7.
  - intros t Ht. apply H8. by apply Hd.
  - intros c Hc. rewrite Hcp, Hd. by apply H9.
  - intros c Hc. destruct (Ha (idle_tasks c)) as [-> _]. by apply H10.
  - intros c Hc. rewrite !Hcp, Hd. destruct (Ha (c_curr (cpu_at s c))) as [-> _]. by apply H11.
  - intros t Ht. destruct (Ha t) as [-> _]. by apply H12, Hd.
  - by rewrite Hsz.
Qed.

Section Ends.
Context {heap : slub -> gmap Z Z -> Prop} `{HH : !HeapSpec heap}.
Implicit Types (O : gset Z) (k : kernel) (F M N : gmap Z file).

Definition data_block k (I : gset Z) (x : Z) : Prop := exists i, i ∈ I /\ ri_data (inode_at k i) = x.

(** The blocks of the file system: inodes, directory entries, data. *)
Definition fs_block k (D : gmap Z (list Z)) (I : gset Z) (x : Z) : Prop := x ∈ I \/ x ∈ all_entries D \/ data_block k I x.

(** An inode that a file may have open: a file of the file system, or a
    directory that was not removed. *)
Definition open_on k (I : gset Z) (i : Z) : Prop :=
  i = 0 \/ (i ∈ I /\ itype k i <> S_IFDIR) \/
  (is_Some (k_inodes k !! i) /\ itype k i = S_IFDIR /\ i_nlink (inode_at k i) <> 0 /\ has (i_flags (inode_at k i)) I_PERSISTENT = true).

(** [F]: the blocks of files; [M]: the files that hold their inode; [N]: the
    files that hold their end of a pipe.  Between calls, all three are the
    files that exist.  [O]: the blocks of the heap that belong to other parts;
    there is no block that belongs to nobody. *)
Record ends_inv (O : gset Z) k F M N (H : gmap Z Z) (D : gmap Z (list Z)) (I : gset Z) (Q : Z -> list Z) (T : list Z) (L : Z -> list Z) : Prop := {
  oi_waits : waits_inv (k_w k) Q T L;
  oi_heap : heap (k_k k) H;
  oi_fs : fs_inv k H D I;
  oi_block : forall f x, F !! f = Some x -> f = uart_file \/ (H !! f = Some SIZEOF_FILE /\ ~ data_block k I f);
  oi_uart : forall x, N !! uart_file = Some x -> is_pipe x = false;
  oi_inode : forall f x, M !! f = Some x -> open_on k I (f_inode x);
  oi_count : forall i, i <> 0 -> is_Some (k_inodes k !! i) -> i_count (inode_at k i) = opens M i;
  oi_end : forall f x, N !! f = Some x -> is_pipe x = true -> is_Some (k_pipes k !! f_private x);
  oi_pipe : forall p y, k_pipes k !! p = Some y ->
    H !! p = Some SIZEOF_PIPE /\ ~ data_block k I p /\ p_readers y = ends true N p /\ p_writers y = ends false N p /\ 0 < p_readers y + p_writers y;
  oi_all : forall x, is_Some (H !! x) -> x ∈ O \/ is_Some (F !! x) \/ is_Some (k_pipes k !! x) \/ fs_block k D I x
}.

#[global] Arguments oi_waits {O k F M N H D I Q T L}.
#[global] Arguments oi_heap {O k F M N H D I Q T L}.
#[global] Arguments oi_fs {O k F M N H D I Q T L}.
#[global] Arguments oi_block {O k F M N H D I Q T L}.
#[global] Arguments oi_uart {O k F M N H D I Q T L}.
#[global] Arguments oi_inode {O k F M N H D I Q T L}.
#[global] Arguments oi_count {O k F M N H D I Q T L}.
#[global] Arguments oi_end {O k F M N H D I Q T L}.
#[global] Arguments oi_pipe {O k F M N H D I Q T L}.
#[global] Arguments oi_all {O k F M N H D I Q T L}.

Lemma ends_delete r N f x p : N !! f = Some x -> ends r (delete f N) p = ends r N p - one (is_end r p x).
Proof. intros Hx. unfold ends. rewrite (msum_delete _ N f x Hx). lia. Qed.

Lemma not_end r p x : is_pipe x = false -> one (is_end r p x) = 0.
Proof using. intros Hp. apply one_no. intros [E _]. congruence. Qed.

Lemma opens_delete M f x i : M !! f = Some x -> opens (delete f M) i = opens M i - one (f_inode x = i).
Proof. intros Hx. unfold opens. rewrite (msum_delete _ M f x Hx). lia. Qed.

Lemma ends_range r N p : 0 <= ends r N p.
Proof. unfold ends. apply (msum_bound _ N 1). intros. apply one_range. Qed.

Lemma wake_if k Q T L (b : bool) q :
  waits_inv (k_w k) Q T L ->
  exists w' Q', (if b then k_wake_up k q else Some k) = Some (set_k_w w' k) /\ waits_inv w' Q' T L /\ stays (k_s k) (w_s w').
Proof using.
  intros HI. destruct b.
  - destruct (k_wake_up_spec k Q T L q HI) as (w' & Q' & E & HI' & Hst & _). by exists w', Q'.
  - exists (k_w k), Q. split; [by destruct k|]. by split.
Qed.

(** The pipe [p] becomes [y]; the files [N'] are the ends that remain. *)
Lemma ends_inv_pipe O k F M N H D I Q T L p y N' w Q' k' :
  ends_inv O k F M N H D I Q T L -> is_Some (k_pipes k !! p) -> k' = set_k_w w (set_k_pipes (<[p := y]> (k_pipes k)) k) ->
  waits_inv w Q' T L -> p_readers y = ends true N' p -> p_writers y = ends false N' p -> 0 < p_readers y + p_writers y ->
  (forall r q, q <> p -> ends r N' q = ends r N q) -> N' ⊆ N ->
  ends_inv O k' F M N' H D I Q' T L.
Proof using.
  intros [Hw Hh Hfs Hb Hu Hi Hc He Hpi Ho] [y0 Hy0] -> Hw' Er Ew Hpos Hq Hsub. split; try done.
  - eapply fs_inv_frame; [exact Hfs|done..].
  - intros x Hx. apply Hu. by eapply lookup_weaken.
  - intros f x Hx Hp. cbn. destruct (decide (p = f_private x)) as [<-|Hne]; [rewrite lookup_insert_eq; by eexists|].
    rewrite lookup_insert_ne by done. apply (He f x); [by eapply lookup_weaken|done].
  - intros q z. cbn. destruct (decide (p = q)) as [<-|Hne].
    + rewrite lookup_insert_eq. intros [= <-]. destruct (Hpi p y0 Hy0) as (? & ? & _). done.
    + rewrite lookup_insert_ne by done. intros Hz. rewrite !Hq by done. by apply Hpi.
  - intros x Hx. destruct (Ho x Hx) as [?|[?|[?|?]]]; [by left|by right; left|right; right; left|by right; right; right].
    cbn. rewrite lookup_insert_is_Some'. by right.
Qed.

(** The pipe [p], with no end left, is freed. *)
Lemma ends_inv_gone O k F M N H D I Q T L p N' w Q' m k' :
  ends_inv O k F M N H D I Q T L -> is_Some (k_pipes k !! p) -> k' = set_k_pipes (delete p (k_pipes k)) (set_k_k m (set_k_w w k)) ->
  waits_inv w Q' T L -> heap m (delete p H) -> ends true N' p = 0 -> ends false N' p = 0 ->
  (forall r q, q <> p -> ends r N' q = ends r N q) -> N' ⊆ N ->
  ends_inv O k' F M N' (delete p H) D I Q' T L.
Proof using.
  intros [Hw Hh Hfs Hb Hu Hi Hc He Hpi Ho] [y0 Hy0] -> Hw' Hm Er Ew Hq Hsub. destruct (Hpi p y0 Hy0) as (Hsz & Hnd & _). split; try done.
  - eapply fs_inv_frame; [exact Hfs|done|done| |].
    + done.
    + intros z Hz. apply lookup_delete_ne. intros <-. destruct Hz as [Hz|[Hz|[_ Hz]]].
      * destruct (fi_live _ _ _ _ Hfs p Hz) as [E _]. rewrite Hsz in E. discriminate E.
      * apply elem_of_all_entries in Hz as (j & es & Hj & Hz). destruct (dr_blocks _ _ _ _ (tr_dirs _ _ _ (fi_tree _ _ _ _ Hfs) _ _ Hj) p Hz) as [E _].
        rewrite Hsz in E. discriminate E.
      * done.
  - intros f x Hx. destruct (Hb f x Hx) as [?|[E ?]]; [by left|right]. split; [|done]. rewrite lookup_delete_ne; [done|]. intros <-.
    rewrite Hsz in E. discriminate E.
  - intros x Hx. apply Hu. by eapply lookup_weaken.
  - intros f x Hx Hp. cbn. rewrite lookup_delete_ne; [apply (He f x); [by eapply lookup_weaken|done]|]. intros E.
    assert (H0 : one (is_end (reader x) p x) <= ends (reader x) N' p).
    { unfold ends. apply (msum_elem (fun z => one (is_end (reader x) p z)) N' f x); [intros; apply one_range|done]. }
    unfold one in H0. rewrite decide_True in H0 by done. destruct (reader x); lia.
  - intros q z Hz. cbn in Hz. apply lookup_delete_Some in Hz as [Hne Hz]. rewrite !Hq, lookup_delete_ne by done. by apply Hpi.
  - intros x [Hne Hx]%lookup_delete_is_Some. destruct (Ho x Hx) as [?|[?|[?|?]]]; [by left|by right; left|right; right; left|by right; right; right].
    cbn. by rewrite lookup_delete_ne by done.
Qed.

(** Closing an end of a pipe. *)
Lemma pipe_release_inv O k F M N H D I Q T L f x :
  ends_inv O k F M N H D I Q T L -> file_at k f = x -> N !! f = Some x -> is_pipe x = true ->
  exists k' H' Q', pipe_release k f = Some k' /\ ends_inv O k' F M (delete f N) H' D I Q' T L /\ stays (k_s k) (k_s k') /\
    k_files k' = k_files k /\ k_inodes k' = k_inodes k.
Proof using HH.
  intros HI Hf Hx Hp. destruct (oi_end HI f x Hx Hp) as [y Hy].
  destruct (oi_pipe HI _ _ Hy) as (Hsz & Hnd & Er & Ew & _). set (p := f_private x) in *.
  assert (Hh := oi_heap HI). destruct (heap_block _ _ _ _ Hh Hsz) as [Hp0 _].
  assert (Hpos : 0 < ends (reader x) N p).
  { assert (H0 : one (is_end (reader x) p x) <= ends (reader x) N p).
    { unfold ends. apply (msum_elem (fun z => one (is_end (reader x) p z)) N f x); [intros; apply one_range|done]. }
    unfold one in H0. rewrite decide_True in H0 by done. lia. }
  unfold pipe_release. rewrite Hf. fold p (reader x). rewrite (proj2 (Z.eqb_neq p 0)) by lia.
  assert (Ey : pipe_at k p = y) by (unfold pipe_at; by rewrite Hy). rewrite Ey.
  set (y1 := if reader x then set_p_readers (p_readers y - 1) y else set_p_writers (p_writers y - 1) y).
  set (k1 := if reader x then _ else _). assert (E1 : k1 = set_k_pipes (<[p := y1]> (k_pipes k)) k).
  { unfold k1, y1, upd_pipe. rewrite Ey, Er, Ew. destruct (reader x); rewrite (proj2 (Z.ltb_lt _ _) Hpos); by rewrite ?Er, ?Ew. }
  assert (H1 : p_readers y1 = ends true (delete f N) p /\ p_writers y1 = ends false (delete f N) p).
  { rewrite !(ends_delete _ N f x) by done. unfold one, is_end, y1.
    destruct (reader x); cbn; repeat case_decide; try (exfalso; tauto); try (destruct_and!; discriminate); lia. }
  assert (Hoth : forall r q, q <> p -> ends r (delete f N) q = ends r N q).
  { intros r q Hne. rewrite (ends_delete r N f x) by done. unfold one. rewrite decide_False; [lia|]. intros (_ & E & _). by apply Hne. }
  assert (Hsub : delete f N ⊆ N) by apply delete_subseteq. clearbody k1 y1. subst k1. destruct H1 as [Er1 Ew1].
  assert (Hw := oi_waits HI). set (k1 := set_k_pipes _ k).
  assert (Ep : forall w, pipe_at (set_k_w w k1) p = y1) by (intros w; unfold pipe_at, k1; cbn; by rewrite lookup_insert_eq).
  assert (Ep1 : pipe_at k1 p = y1) by (unfold pipe_at, k1; cbn; by rewrite lookup_insert_eq). rewrite Ep1.
  destruct (wake_if k1 Q T L (p_readers y1 =? 0) (write_wait p) Hw) as (w2 & Q2 & -> & Hw2 & Hst2). cbn [mbind option_bind]. rewrite Ep.
  destruct (wake_if (set_k_w w2 k1) Q2 T L (p_writers y1 =? 0) (read_wait p) Hw2) as (w3 & Q3 & -> & Hw3 & Hst3). cbn [mbind option_bind].
  change (set_k_w w3 (set_k_w w2 k1)) with (set_k_w w3 k1). rewrite Ep. assert (Hst : stays (k_s k) (w_s w3)) by (etransitivity; [exact Hst2|exact Hst3]).
  assert (H0 := ends_range true (delete f N) p). assert (H0' := ends_range false (delete f N) p).
  destruct (Z.eqb_spec (p_readers y1) 0) as [Ez1|Ez1]; destruct (Z.eqb_spec (p_writers y1) 0) as [Ez2|Ez2]; cbn [andb].
  2,3,4: (eexists _, H, Q3; split; [reflexivity|]; split; [|by split]; eapply (ends_inv_pipe O k F M N H D I Q T L p y1); try done; lia).
  unfold k_free. change (k_k (set_k_w w3 k1)) with (k_k k). destruct (heap_free (k_k k) H p Hh) as (m & -> & Hm); [by eexists|].
  cbn [mbind option_bind]. eexists _, (delete p H), Q3. split; [reflexivity|]. split; [|by split].
  eapply (ends_inv_gone O k F M N H D I Q T L p); try done; [|lia|lia].
  unfold k1. cbn. by rewrite delete_insert_eq.
Qed.

Lemma inode_count_at k i n j :
  set_i_count 0 (inode_at (upd_inode k i (set_i_count n)) j) = set_i_count 0 (inode_at k j) /\
  i_count (inode_at (upd_inode k i (set_i_count n)) j) = if decide (i = j) then n else i_count (inode_at k j).
Proof using.
  unfold upd_inode. assert (E : forall y, inode_at (set_k_inodes (<[i := y]> (k_inodes k)) k) j = if decide (i = j) then y else inode_at k j).
  { intros y. unfold inode_at. cbn. destruct (decide (i = j)) as [<-|Hne]; [by rewrite lookup_insert_eq|by rewrite lookup_insert_ne]. }
  rewrite E. destruct (decide (i = j)) as [<-|Hne]; done.
Qed.

(** The file [f] no longer holds its inode. *)
Lemma ends_inv_count O k F M N H D I Q T L f x :
  ends_inv O k F M N H D I Q T L -> M !! f = Some x -> f_inode x <> 0 ->
  ends_inv O (upd_inode k (f_inode x) (set_i_count (opens M (f_inode x) - 1))) F (delete f M) N H D I Q T L.
Proof using.
  intros [Hw Hh Hfs Hb Hu Hi Hc He Hpi Ho] Hx Hnz. set (i := f_inode x) in *. set (k1 := upd_inode _ _ _).
  assert (Ek : forall j, set_i_count 0 (inode_at k1 j) = set_i_count 0 (inode_at k j)) by (intros j; apply inode_count_at).
  assert (Ed : forall j, ri_data (inode_at k1 j) = ri_data (inode_at k j)) by (intros j; exact (f_equal ri_data (Ek j))).
  assert (Hsome : forall j, is_Some (k_inodes k1 !! j) <-> j = i \/ is_Some (k_inodes k !! j)).
  { intros j. unfold k1, upd_inode. cbn. rewrite lookup_insert_is_Some. split; [intros [->|[_ ?]]; tauto|]. intros [->|Hj]; [by left|].
    destruct (decide (i = j)); tauto. }
  assert (His : is_Some (k_inodes k !! i)).
  { destruct (Hi f x Hx) as [?|[[Hin _]|[? _]]]; [done| |done]. by apply (fi_live _ _ _ _ Hfs i Hin). }
  assert (Hdb : forall z, data_block k1 I z -> data_block k I z) by (intros z (j & Hj & Ez); exists j; by rewrite <- Ed).
  split; try done.
  - eapply fs_inv_frame; [exact Hfs|done|exact Ek| |done]. intros j. rewrite Hsome. split; [by intros [->|]|tauto].
  - intros g z Hz. destruct (Hb g z Hz) as [?|[? Hn]]; [by left|right]. split; [done|]. intros Hd. by apply Hn, Hdb.
  - intros g z [_ Hz]%lookup_delete_Some. unfold open_on, itype. rewrite !Hsome. specialize (Ek (f_inode z)).
    rewrite (f_equal i_type Ek : i_type (inode_at k1 _) = _), (f_equal i_nlink Ek : i_nlink (inode_at k1 _) = _), (f_equal i_flags Ek : i_flags (inode_at k1 _) = _).
    destruct (Hi g z Hz) as [?|[?|(? & ?)]]; tauto.
  - intros j Hj Hjs. rewrite (opens_delete M f x) by done. fold i. unfold k1. rewrite (proj2 (inode_count_at k i _ j)). unfold one.
    destruct (decide (i = j)) as [<-|Hne]; [done|]. rewrite Hc; [lia|done|]. apply Hsome in Hjs as [->|?]; done.
  - intros p y Hy. destruct (Hpi p y Hy) as (? & Hn & ?). split; [done|]. split; [|done]. intros Hd. by apply Hn, Hdb.
  - intros z Hz. destruct (Ho z Hz) as [?|[?|[?|[?|[?|(j & Hj & Ez)]]]]]; [by left|by right; left|by right; right; left|by right; right; right; left|by right; right; right; right; left|].
    right; right; right; right; right. exists j. by rewrite Ed.
Qed.

(** An inode that no file has open is freed. *)
Lemma ends_inv_freed O k F M N H D I Q T L i m :
  ends_inv O k F M N H D I Q T L -> i ∈ I -> opens M i = 0 ->
  heap m (delete i (delete (ri_data (inode_at k i)) H)) -> fs_inv (freed k m i) (delete i (delete (ri_data (inode_at k i)) H)) D (I ∖ {[ i ]}) ->
  ends_inv O (freed k m i) F M N (delete i (delete (ri_data (inode_at k i)) H)) D (I ∖ {[ i ]}) Q T L.
Proof using.
  intros [Hw Hh Hfs Hb Hu Hi Hc He Hpi Ho] Hin Hop Hm Hfs'.
  assert (Hat : forall j, j <> i -> inode_at (freed k m i) j = inode_at k j).
  { intros j Hne. unfold inode_at, freed. cbn. by rewrite lookup_delete_ne. }
  assert (Hdb : forall z, data_block (freed k m i) (I ∖ {[ i ]}) z -> data_block k I z).
  { intros z (j & [Hj Hne%not_elem_of_singleton]%elem_of_difference & Ez). exists j. by rewrite <- (Hat j Hne). }
  destruct (fi_live _ _ _ _ Hfs i Hin) as (Hsz & Hr & _).
  assert (Hkeep : forall z s, H !! z = Some s -> s <> SIZEOF_RAMFS_INODE -> ~ data_block k I z -> delete i (delete (ri_data (inode_at k i)) H) !! z = Some s).
  { intros z s Hz Hs Hn. rewrite !lookup_delete_ne; [done| |].
    - intros <-. apply Hn. by exists i.
    - intros <-. rewrite Hsz in Hz. by injection Hz. }
  split; try done.
  - intros f x Hx. destruct (Hb f x Hx) as [?|[? Hn]]; [by left|right]. split; [by apply Hkeep|]. intros Hd. by apply Hn, Hdb.
  - intros f x Hx. assert (Hne : f_inode x <> i).
    { intros E. assert (H0 : one (f_inode x = i) <= opens M i).
      { unfold opens. apply (msum_elem (fun z => one (f_inode z = i)) M f x); [intros; apply one_range|done]. }
      unfold one in H0. rewrite decide_True in H0 by done. lia. }
    unfold open_on, itype. rewrite (Hat _ Hne). destruct (Hi f x Hx) as [?|[[Hj ?]|[? ?]]]; [by left|right; left|right; right].
    + split; [|done]. apply elem_of_difference. split; [done|]. by apply not_elem_of_singleton.
    + split; [|done]. unfold freed. cbn. by rewrite lookup_delete_ne by done.
  - intros j Hj Hjs. unfold freed in Hjs. cbn in Hjs. apply lookup_delete_is_Some in Hjs as [Hne Hjs]. rewrite Hat by done. by apply Hc.
  - intros p y Hy. destruct (Hpi p y Hy) as (? & Hn & ?). split; [by apply Hkeep|]. split; [|done]. intros Hd. by apply Hn, Hdb.
  - intros z [Hni [Hnd Hz]%lookup_delete_is_Some]%lookup_delete_is_Some.
    destruct (Ho z Hz) as [?|[?|[?|[?|[?|(j & Hj & Ez)]]]]]; [by left|by right; left|by right; right; left| |by right; right; right; right; left|].
    + right; right; right; left. apply elem_of_difference. split; [done|]. by apply not_elem_of_singleton, not_eq_sym.
    + right; right; right; right; right. assert (Hne : j <> i) by congruence. exists j. rewrite (Hat j Hne). split; [|done].
      apply elem_of_difference. split; [done|]. by apply not_elem_of_singleton.
Qed.

Lemma iput_inv O k F M N H D I Q T L f x :
  ends_inv O k F M N H D I Q T L -> M !! f = Some x ->
  exists k' H' I', iput k (f_inode x) = Some k' /\ ends_inv O k' F (delete f M) N H' D I' Q T L /\ k_w k' = k_w k /\ k_files k' = k_files k /\
    (forall i, i ∈ I -> f_inode x <> i -> i ∈ I').
Proof using HH.
  intros HI Hx. unfold iput. destruct (Z.eqb_spec (f_inode x) 0) as [E0|Hnz].
  { cbn [orb]. exists k, H, I. split; [done|]. split; [|done]. destruct HI as [Hw Hh Hfs Hb Hu Hi Hc He Hpi Ho]. split; try done.
    - intros g z [_ Hz]%lookup_delete_Some. by apply (Hi g).
    - intros i Hi0 His. rewrite (opens_delete M f x), Hc by done. unfold one. rewrite decide_False; [lia|congruence]. }
  assert (HI1 := ends_inv_count _ _ _ _ _ _ _ _ _ _ _ f x HI Hx Hnz). set (i := f_inode x) in *.
  destruct HI as [Hw Hh Hfs Hb Hu Hi Hc He Hpi Ho]. assert (Hon := Hi f x Hx). fold i in Hon.
  assert (His : is_Some (k_inodes k !! i)).
  { destruct Hon as [?|[[Hin _]|[? _]]]; [done| |done]. by apply (fi_live _ _ _ _ Hfs i Hin). }
  assert (Hpos : 0 < opens M i).
  { assert (H0 : one (f_inode x = i) <= opens M i).
    { unfold opens. apply (msum_elem (fun z => one (f_inode z = i)) M f x); [intros; apply one_range|done]. }
    unfold one in H0. rewrite decide_True in H0 by done. lia. }
  rewrite (Hc i Hnz His). rewrite (proj2 (Z.eqb_neq (opens M i) 0)) by lia. cbn [orb].
  assert (Ek : upd_inode k i (fun x => set_i_count (i_count x - 1) x) = upd_inode k i (set_i_count (opens M i - 1))).
  { unfold upd_inode. by rewrite (Hc i Hnz His). }
  rewrite Ek. set (k1 := upd_inode k i _) in *. destruct (inode_count_at k i (opens M i - 1) i) as [Eki Ecn]. fold k1 in Eki, Ecn.
  rewrite decide_True in Ecn by done. destruct Hon as [?|[[Hin Hty]|(_ & Hty & Hnl & Hfl)]]; [done| |].
  - assert (Hty1 : itype k1 i <> S_IFDIR) by (unfold itype; by rewrite (f_equal i_type Eki : i_type (inode_at k1 i) = _)).
    destruct (evict_spec k1 H D I i (oi_heap HI1) (oi_fs HI1) Hin Hty1) as (k' & H' & E & Hh' & _ & Hfs' & Hc').
    rewrite E. destruct (decide (refs k1 D i = 0 /\ i_count (inode_at k1 i) = 0)) as [[_ Hz]|Hn].
    + destruct Hc' as (m & -> & ->). eexists _, _, _. split; [done|]. split; [|split; [done|split; [done|]]].
      * apply (ends_inv_freed O k1); try done. rewrite (opens_delete M f x) by done. fold i. unfold one. rewrite decide_True by done. lia.
      * intros j Hj Hne. apply elem_of_difference. split; [done|]. by apply not_elem_of_singleton, not_eq_sym.
    + destruct Hc' as [-> ->]. by exists k1, H, I.
  - exists k1, H, I. split; [|done]. unfold inode_maybe_evict. rewrite (f_equal i_flags Eki : i_flags (inode_at k1 i) = _), (f_equal i_nlink Eki : i_nlink (inode_at k1 i) = _).
    cbn. rewrite Hfl, (proj2 (Z.eqb_neq _ _) Hnl), (proj2 (Z.eqb_neq _ _) Hnz). by case_match.
Qed.

(** [f_op->release] *)
Lemma file_release_inv O k F M N H D I Q T L f x :
  ends_inv O k F M N H D I Q T L -> file_at k f = x -> N !! f = Some x ->
  exists k' H' Q', file_release k f = Some k' /\ ends_inv O k' F M (delete f N) H' D I Q' T L /\ stays (k_s k) (k_s k') /\
    k_files k' = k_files k /\ k_inodes k' = k_inodes k.
Proof using HH.
  intros HI Hf Hx. destruct (is_pipe x) eqn:Ep.
  - destruct (pipe_release_inv O k F M N H D I Q T L f x HI Hf Hx Ep) as (k' & H' & Q' & E & HR). exists k', H', Q'. split; [|done].
    unfold file_release. rewrite Hf. unfold is_pipe in Ep. by destruct (f_op x).
  - exists k, H, Q. split; [unfold file_release; rewrite Hf; unfold is_pipe in Ep; by destruct (f_op x)|]. split; [|by splits].
    destruct HI as [Hw Hh Hfs Hb Hu Hi Hc He Hpi Ho]. split; try done.
    + intros z [_ Hz]%lookup_delete_Some. by apply Hu.
    + intros g z [_ Hz]%lookup_delete_Some. by apply (He g).
    + intros p y Hy. rewrite !(ends_delete _ N f x) by done. rewrite !not_end, !Z.sub_0_r by done. by apply Hpi.
Qed.

Lemma ends_inv_files O k X F M N H D I Q T L : ends_inv O k F M N H D I Q T L -> ends_inv O (set_k_files X k) F M N H D I Q T L.
Proof using.
  intros [Hw Hh Hfs Hb Hu Hi Hc He Hpi Ho]. split; try done. eapply fs_inv_frame; [exact Hfs|done..].
Qed.

(** The block of a file is freed. *)
Lemma file_free_inv O k F M N H D I Q T L f x :
  ends_inv O k F M N H D I Q T L -> F !! f = Some x -> f <> uart_file ->
  exists m, k_free k f = Some (set_k_k m k) /\ ends_inv O (set_k_k m k) (delete f F) M N (delete f H) D I Q T L.
Proof using HH.
  intros [Hw Hh Hfs Hb Hu Hi Hc He Hpi Ho] Hx Hne. destruct (Hb f x Hx) as [?|[Hsz Hnd]]; [done|].
  unfold k_free. destruct (heap_free (k_k k) H f Hh) as (m & -> & Hm); [by eexists|]. exists m. split; [done|]. split; try done.
  - eapply fs_inv_frame; [exact Hfs|done|done| |].
    + done.
    + intros z Hz. apply lookup_delete_ne. intros <-. destruct Hz as [Hz|[Hz|[_ Hz]]].
      * destruct (fi_live _ _ _ _ Hfs f Hz) as [E _]. rewrite Hsz in E. discriminate E.
      * apply elem_of_all_entries in Hz as (j & es & Hj & Hz). destruct (dr_blocks _ _ _ _ (tr_dirs _ _ _ (fi_tree _ _ _ _ Hfs) _ _ Hj) f Hz) as [E _].
        rewrite Hsz in E. discriminate E.
      * done.
  - intros g z [Hg Hz]%lookup_delete_Some. rewrite lookup_delete_ne by done. by apply (Hb g z).
  - intros p y Hy. destruct (Hpi p y Hy) as (E & ?). split; [|done]. rewrite lookup_delete_ne; [done|]. intros <-. rewrite Hsz in E. discriminate E.
  - intros z [Hz0 Hz]%lookup_delete_is_Some. destruct (Ho z Hz) as [?|[?|[?|?]]]; [by left|right; left|by right; right; left|by right; right; right].
    by rewrite lookup_delete_ne by done.
Qed.

(** Between calls. *)
Definition files_ok O k : Prop := exists H D I Q T L, ends_inv O k (k_files k) (k_files k) (k_files k) H D I Q T L.

(** A file without an inode that is no end of a pipe. *)
Lemma ends_inv_insert O k F M N H D I Q T L f x :
  ends_inv O k F M N H D I Q T L -> M !! f = None -> N !! f = None -> f = uart_file \/ (H !! f = Some SIZEOF_FILE /\ ~ data_block k I f) ->
  is_pipe x = false -> f_inode x = 0 -> ends_inv (O ∖ {[ f ]}) k (<[f := x]> F) (<[f := x]> M) (<[f := x]> N) H D I Q T L.
Proof using.
  intros [Hw Hh Hfs Hb Hu Hi Hc He Hpi Ho] EM EN Hf Hp Hi0. split; try done.
  - intros g z [[<- <-]|[_ Hz]]%lookup_insert_Some; [done|by apply (Hb g z)].
  - intros z [[_ <-]|[_ Hz]]%lookup_insert_Some; [done|by apply Hu].
  - intros g z [[<- <-]|[_ Hz]]%lookup_insert_Some; [by left|by apply (Hi g z)].
  - intros i Hnz His. unfold opens. rewrite msum_insert by done. rewrite Hc by done. unfold one at 1. rewrite decide_False by congruence. done.
  - intros g z [[<- <-]|[_ Hz]]%lookup_insert_Some; [congruence|by apply (He g z)].
  - intros p y Hy. unfold ends. rewrite !msum_insert, !not_end by done. by apply Hpi.
  - intros z Hz. destruct (decide (f = z)) as [<-|Hne]; [right; left; rewrite lookup_insert_eq; by eexists|].
    destruct (Ho z Hz) as [?|[?|[?|?]]]; [left|right; left|by right; right; left|by right; right; right]; [|by rewrite lookup_insert_ne by done].
    apply elem_of_difference. split; [done|]. by apply not_elem_of_singleton, not_eq_sym.
Qed.

(** A block of memory more. *)
Lemma ends_inv_grow O k F M N H D I Q T L m p s :
  ends_inv O k F M N H D I Q T L -> H !! p = None -> heap m (<[p := s]> H) ->
  ends_inv ({[ p ]} ∪ O) (set_k_k m k) F M N (<[p := s]> H) D I Q T L /\ ~ data_block k I p.
Proof using HH.
  intros [Hw Hh Hfs Hb Hu Hi Hc He Hpi Ho] Hp Hm. assert (Hne : forall x, is_Some (H !! x) -> <[p := s]> H !! x = H !! x).
  { intros x Hx. rewrite lookup_insert_ne; [done|]. intros ->. rewrite Hp in Hx. by destruct Hx. }
  destruct (heap_block m (<[p := s]> H) p s Hm (lookup_insert_eq _ _ _)) as [Hp0 _].
  assert (Hd : forall x, (x <> 0 /\ exists i, i ∈ I /\ ri_data (inode_at k i) = x) -> is_Some (H !! x)).
  { intros x (Hx & i & Hin & <-). destruct (fi_data _ _ _ _ Hfs i Hin Hx) as [-> _]. by eexists. }
  split.
  2:{ intros (i & Hin & E). assert (Hs : is_Some (H !! p)); [apply Hd; split; [lia|eauto]|]. rewrite Hp in Hs. by destruct Hs. }
  split; try done.
  - eapply fs_inv_frame; [exact Hfs|done|done|done|]. intros x [Hx|[Hx|Hx]]; apply Hne.
    + destruct (fi_live _ _ _ _ Hfs x Hx) as [-> _]. by eexists.
    + apply elem_of_all_entries in Hx as (j & es & Hj & Hx). destruct (dr_blocks _ _ _ _ (tr_dirs _ _ _ (fi_tree _ _ _ _ Hfs) _ _ Hj) x Hx) as [-> _]. by eexists.
    + by apply Hd.
  - intros f x Hx. destruct (Hb f x Hx) as [?|[E ?]]; [by left|right]. rewrite Hne by (by eexists). done.
  - intros q y Hy. destruct (Hpi q y Hy) as (E & ?). rewrite Hne by (by eexists). done.
  - intros z. rewrite lookup_insert_is_Some'. intros [<-|Hz]; [left; by apply elem_of_union_l, elem_of_singleton|].
    destruct (Ho z Hz) as [?|?]; [left; by apply elem_of_union_r|by right].
Qed.

Lemma ends_inv_weaken O O' k F F' M N H D I Q T L :
  ends_inv O k F M N H D I Q T L -> F' ⊆ F -> (forall x, is_Some (H !! x) -> x ∈ O \/ is_Some (F !! x) -> x ∈ O' \/ is_Some (F' !! x)) ->
  ends_inv O' k F' M N H D I Q T L.
Proof using.
  intros [Hw Hh Hfs Hb Hu Hi Hc He Hpi Ho] Hsub HO. split; try done.
  - intros f x Hx. apply (Hb f x). by eapply lookup_weaken.
  - intros z Hz. specialize (HO z Hz). destruct (Ho z Hz) as [?|[?|?]]; tauto.
Qed.

Lemma file_end_ok O k f x :
  files_ok O k -> k_files k !! f = Some x ->
  exists k', file_end k f = Some k' /\ files_ok O k' /\ stays (k_s k) (k_s k') /\
    k_files k' = (if decide (f = uart_file) then <[f := set_f_inode 0 x]> (k_files k) else delete f (k_files k)).
Proof using HH.
  intros (H & D & I & Q & T & L & HI) Hx. assert (Hf : file_at k f = x) by (unfold file_at; by rewrite Hx). unfold file_end.
  destruct (file_release_inv _ _ _ _ _ _ _ _ _ _ _ f x HI Hf Hx) as (k1 & H1 & Q1 & -> & HI1 & Hst1 & Ef1 & _). cbn [mbind option_bind].
  assert (Hf1 : file_at k1 f = x) by (unfold file_at; by rewrite Ef1, Hx). rewrite Hf1.
  destruct (iput_inv _ _ _ _ _ _ _ _ _ _ _ f x HI1 Hx) as (k2 & H2 & I2 & -> & HI2 & Ew2 & Ef2 & _). cbn [mbind option_bind].
  assert (Ef : k_files (upd_file k2 f (set_f_inode 0)) = <[f := set_f_inode 0 x]> (k_files k)).
  { unfold upd_file, file_at. cbn. by rewrite Ef2, Ef1, Hx. }
  assert (Hst : stays (k_s k) (k_s k2)) by (unfold k_s at 2; by rewrite Ew2).
  assert (HI3 : ends_inv O (upd_file k2 f (set_f_inode 0)) (k_files k) (delete f (k_files k)) (delete f (k_files k)) H2 D I2 Q1 T L)
    by (by apply ends_inv_files).
  destruct (Z.eqb_spec f uart_file) as [->|Hne].
  - eexists. split; [done|]. rewrite decide_True by done. split; [|by split]. exists H2, D, I2, Q1, T, L. rewrite Ef.
    rewrite <- (insert_delete_eq (k_files k)). assert (HI4 : ends_inv (O ∪ {[ uart_file ]}) (upd_file k2 uart_file (set_f_inode 0)) (delete uart_file (k_files k)) (delete uart_file (k_files k)) (delete uart_file (k_files k)) H2 D I2 Q1 T L).
    { eapply ends_inv_weaken; [exact HI3|apply delete_subseteq|]. intros z _ [?|?]; [left; by apply elem_of_union_l|].
      destruct (decide (uart_file = z)) as [<-|]; [left; by apply elem_of_union_r, elem_of_singleton|right; by rewrite lookup_delete_ne]. }
    assert (HI5 : ends_inv ((O ∪ {[ uart_file ]}) ∖ {[ uart_file ]}) (upd_file k2 uart_file (set_f_inode 0)) (<[uart_file := set_f_inode 0 x]> (delete uart_file (k_files k)))
      (<[uart_file := set_f_inode 0 x]> (delete uart_file (k_files k))) (<[uart_file := set_f_inode 0 x]> (delete uart_file (k_files k))) H2 D I2 Q1 T L).
    { apply ends_inv_insert; try (apply lookup_delete_eq); [exact HI4|by left|exact (oi_uart HI x Hx)|done]. }
    eapply ends_inv_weaken; [exact HI5|done|]. intros z _ [Hz|?]; [left|by right]. apply elem_of_difference in Hz as [[?| ?]%elem_of_union ?]; done.
  - destruct (file_free_inv _ _ _ _ _ _ _ _ _ _ _ f x HI3 Hx Hne) as (m & -> & HI4). cbn [mbind option_bind]. eexists. split; [done|]. rewrite decide_False by done.
    assert (Efd : k_files (set_k_files (delete f (k_files (set_k_k m (upd_file k2 f (set_f_inode 0))))) (set_k_k m (upd_file k2 f (set_f_inode 0)))) = delete f (k_files k)).
    { cbn [k_files set_k_files set_k_k]. change (k_files (set_k_k m (upd_file k2 f (set_f_inode 0)))) with (k_files (upd_file k2 f (set_f_inode 0))). by rewrite Ef, delete_insert_eq. }
    split; [|split; [exact Hst|exact Efd]]. exists (delete f H2), D, I2, Q1, T, L. rewrite Efd. by apply ends_inv_files.
Qed.

(** What the invariant does not look at. *)
Lemma sched_inv_unfiled s s' Q T :
  set_tasks (unfiled <$> tasks s) s = set_tasks (unfiled <$> tasks s') s' -> sched_inv s Q T -> sched_inv s' Q T.
Proof using.
  intros E. assert (Ef : unfiled <$> tasks s = unfiled <$> tasks s') by exact (f_equal tasks E). apply sched_inv_same.
  - exact (eq_sym (f_equal nodes E)).
  - exact (eq_sym (f_equal cpus E)).
  - exact (eq_sym (f_equal this_cpu E)).
  - intros t. apply (f_equal (fun m => m !! t)) in Ef. rewrite !lookup_fmap in Ef. destruct (tasks s !! t) as [x|], (tasks s' !! t) as [x'|]; cbn in Ef; try discriminate Ef; [|done].
    apply (inj Some) in Ef. cbn. f_equal. exact (eq_sym (f_equal (fun x => (t_cpu x, t_state x)) Ef)).
Qed.

Lemma key_fields x : f_inode (file_key x) = f_inode x /\ is_pipe (file_key x) = is_pipe x /\ f_private (file_key x) = f_private x /\ reader (file_key x) = reader x.
Proof using. splits; try done. unfold reader. cbn. rewrite <- Z.land_assoc. done. Qed.

Lemma opens_key M i : opens (file_key <$> M) i = opens M i.
Proof using. unfold opens. apply msum_fmap. Qed.

Lemma ends_key r M p : ends r (file_key <$> M) p = ends r M p.
Proof using.
  unfold ends. rewrite msum_fmap. apply msum_ext. intros f x _. unfold one, is_end. destruct (key_fields x) as (_ & E1 & E2 & E3).
  repeat case_decide; try done; exfalso; by rewrite E1, E2, E3 in *.
Qed.

Lemma files_ok_frame O k k' : bare k = bare k' -> files_ok O k -> files_ok O k'.
Proof using.
  intros E (H & D & I & Q & T & L & [Hw Hh Hfs Hb Hu Hi Hc He Hpi Ho]). exists H, D, I, Q, T, L.
  assert (Ef : file_key <$> k_files k = file_key <$> k_files k') by exact (f_equal k_files E).
  assert (Hl : forall f x', k_files k' !! f = Some x' -> exists x, k_files k !! f = Some x /\ file_key x = file_key x').
  { intros f x' Hx'. apply (f_equal (fun m => m !! f)) in Ef. rewrite !lookup_fmap, Hx' in Ef. destruct (k_files k !! f) as [x|]; [|discriminate Ef]. exists x. split; [done|]. exact (inj Some _ _ Ef). }
  assert (Ei : k_inodes k' = k_inodes k) by (symmetry; exact (f_equal k_inodes E)).
  assert (Ep : k_pipes k' = k_pipes k) by (symmetry; exact (f_equal k_pipes E)).
  assert (Er : k_rdents k' = k_rdents k) by (symmetry; exact (f_equal k_rdents E)).
  assert (Ek : k_k k' = k_k k) by (symmetry; exact (f_equal k_k E)).
  assert (Hat : forall i, inode_at k' i = inode_at k i) by (intros i; unfold inode_at; by rewrite Ei).
  assert (Hdb : forall z, data_block k' I z <-> data_block k I z) by (intros z; unfold data_block; by setoid_rewrite Hat).
  split.
  - assert (Es : set_tasks (unfiled <$> tasks (k_s k)) (k_s k) = set_tasks (unfiled <$> tasks (k_s k')) (k_s k')) by exact (f_equal k_s E).
    eapply waits_inv_sched; [exact Hw| | |].
    + split; [exact (eq_sym (f_equal (fun z => w_head (k_w z)) E))|]. split; [exact (eq_sym (f_equal (fun z => w_task (k_w z)) E))|exact (eq_sym (f_equal (fun z => w_next (k_w z)) E))].
    + intros u. apply (f_equal (fun z => tasks z !! u)) in Es. cbn in Es. rewrite !lookup_fmap in Es. fold (k_s k) (k_s k').
      destruct (tasks (k_s k) !! u), (tasks (k_s k') !! u); cbn in Es; try discriminate Es; intros [? ?]; eauto.
    + apply (sched_inv_unfiled (k_s k)); [exact Es|apply Hw].
  - by rewrite Ek.
  - eapply fs_inv_frame; [exact Hfs|done|by intros i; rewrite Hat| |done]. intros i. by rewrite Ei.
  - intros f x' Hx'. destruct (Hl f x' Hx') as (x & Hx & _). rewrite Hdb. by apply (Hb f x).
  - intros x' Hx'. destruct (Hl _ x' Hx') as (x & Hx & Ex). rewrite <- (proj1 (proj2 (key_fields x'))), <- Ex. exact (Hu x Hx).
  - intros f x' Hx'. destruct (Hl f x' Hx') as (x & Hx & Ex). rewrite <- (proj1 (key_fields x')), <- Ex. unfold open_on, itype. rewrite !Hat, Ei. exact (Hi f x Hx).
  - intros i. rewrite Hat, Ei, <- (opens_key (k_files k')), <- Ef, opens_key. apply Hc.
  - intros f x' Hx'. destruct (Hl f x' Hx') as (x & Hx & Ex). destruct (key_fields x') as (_ & <- & <- & _). rewrite <- Ex, Ep. exact (He f x Hx).
  - intros p y. rewrite Ep, Hdb, <- !(ends_key _ (k_files k')), <- Ef, !ends_key. apply Hpi.
  - intros x Hx. unfold fs_block. rewrite Hdb, Ep. destruct (Ho x Hx) as [?|[[z Hz]|?]]; [by left|right; left|by right; right].
    apply (f_equal (fun m => m !! x)) in Ef. rewrite !lookup_fmap, Hz in Ef. destruct (k_files k' !! x); [by eexists|discriminate Ef].
Qed.

#[export] Instance files_ok_ends O : FileEnds (files_ok O).
Proof using HH.
  split.
  - intros k (H & D & I & Q & T & L & HI). exact (current_some _ _ _ _ (oi_waits HI)).
  - exact (files_ok_frame O).
  - exact (file_end_ok O).
Qed.
End Ends.
