(* ===== verification/PipeCreate.v ===== *)
(** * Creating pipes ([ksys_pipe2] of [fs/pipe.c])

    A pipe, a file for each of its ends and a descriptor for each of the
    files; a call that fails on the way gives back what it took. *)
From S2P Require Import Prelude Errno PageAlloc Slub Heap ListHead Task Sched Signal Wait Kernel Pipe Path Ramfs FileTable Directory OpenFiles.

(** [copy_to_user] of [mm/uaccess.c]; it never fails. *)
Definition copy_to_user (k : kernel) (dst : Z) (src : list Z) : Z * kernel := (0, set_k_u (put_bytes (k_u k) dst src) k).

(** The fields of the new pipe; what its buffer holds does not matter. *)
Definition init_pipe (k : kernel) (p : Z) : kernel :=
  let k := set_k_pipes (<[p := mkPipe 0 0 0 1 1 ∅]> (k_pipes k)) k in
  set_k_w (init_waitqueue_head (init_waitqueue_head (k_w k) (read_wait p)) (write_wait p)) k.

Definition free_pipe (k : kernel) (p : Z) : option kernel := k ← k_free k p; Some (set_k_pipes (delete p (k_pipes k)) k).

Definition init_end (k : kernel) (f : Z) (op : file_ops) (p flags : Z) : kernel :=
  upd_file k f (fun x => set_f_flags flags (set_f_private p (set_f_op op x))).

Definition ksys_pipe2 (k : kernel) (fildes flags : Z) : option (Z * kernel) :=
  let t := current k in
  if (t =? 0) || (t_is_user (task_at (k_s k) t) =? 0) then Some (- EINVAL, k)
  else if fildes =? 0 then Some (- EFAULT, k)
  else if has flags (u32 (Z.lnot (Z.lor O_CLOEXEC O_NONBLOCK))) then Some (- EINVAL, k)
  else
    '(p, k) ← k_malloc k SIZEOF_PIPE;
    if p =? 0 then Some (- ENOMEM, k)
    else
      let k := init_pipe k p in
      '(rfile, k) ← alloc_file k;
      if rfile =? 0 then k ← free_pipe k p; Some (- ENOMEM, k)
      else
        '(wfile, k) ← alloc_file k;
        if wfile =? 0 then
          let k := upd_file k rfile (fun x => set_f_private 0 (set_f_op FOP_NULL x)) in
          k ← fput k rfile;
          k ← free_pipe k p;
          Some (- ENOMEM, k)
        else
          let k := init_end k rfile pipe_read_ops p (Z.lor O_RDONLY (Z.land flags O_NONBLOCK)) in
          let k := init_end k wfile pipe_write_ops p (Z.lor O_WRONLY (Z.land flags O_NONBLOCK)) in
          let '(fd0, k) := install_fd k t rfile in
          if fd0 <? 0 then k ← fput k rfile; k ← fput k wfile; Some (fd0, k)
          else
            let '(fd1, k) := install_fd k t wfile in
            if fd1 <? 0 then
              let k := set_task_file k t fd0 0 in
              k ← fput k rfile; k ← fput k wfile; Some (fd1, k)
            else
              let k := if has flags O_CLOEXEC then set_cloexec true (set_cloexec true k t fd0) t fd1 else k in
              let '(err, k) := copy_to_user k fildes (le_bytes 4 fd0 ++ le_bytes 4 fd1) in
              if negb (err =? 0) then
                let k := set_task_file (set_task_file k t fd0 0) t fd1 0 in
                let k := set_cloexec false (set_cloexec false k t fd0) t fd1 in
                k ← fput k rfile; k ← fput k wfile; Some (- EFAULT, k)
              else Some (0, k).

Section Create.
Context {heap : slub -> gmap Z Z -> Prop} `{HH : !HeapSpec heap}.
Implicit Types (O : gset Z).

Definition whole O k H D I Q T L : Prop := ends_inv (heap := heap) O k (k_files k) (k_files k) (k_files k) H D I Q T L.

Definition new_file : file := mkFile 1 0 FOP_NULL 0 0 0 0.

(** A new file. *)
Lemma alloc_file_spec O k H D I Q T L :
  whole O k H D I Q T L ->
  alloc_file k = Some (0, k) \/
  exists f m, let k' := set_k_files (<[f := new_file]> (k_files k)) (set_k_k m k) in
    alloc_file k = Some (f, k') /\ f <> 0 /\ f <> uart_file /\ H !! f = None /\ k_files k !! f = None /\ whole O k' (<[f := SIZEOF_FILE]> H) D I Q T L.
Proof using HH.
  intros HI. unfold alloc_file, k_malloc. destruct (heap_malloc (k_k k) H SIZEOF_FILE (oi_heap HI) ltac:(done)) as [E|(f & m & E & H0 & Hf & Hm)]; rewrite E; cbn [mbind option_bind].
  - left. by destruct k.
  - right. exists f, m. cbn zeta. rewrite (proj2 (Z.eqb_neq _ _) H0). split; [done|]. split; [done|].
    destruct (heap_block m _ f _ Hm (lookup_insert_eq _ _ _)) as [Hf0 _]. assert (Hu : f <> uart_file) by (unfold uart_file; lia). split; [done|]. split; [done|].
    assert (Hfr : k_files k !! f = None).
    { destruct (k_files k !! f) as [x|] eqn:Ex; [|done]. destruct (oi_block HI f x Ex) as [?|[Hs _]]; [done|]. by rewrite Hf in Hs. }
    split; [done|]. destruct (ends_inv_grow _ _ _ _ _ _ _ _ _ _ _ m f SIZEOF_FILE HI Hf Hm) as [HI1 Hnd]. apply ends_inv_files. cbn [k_files set_k_files set_k_k].
    eapply ends_inv_weaken; [apply ends_inv_insert; [exact HI1|done|done| |done|done]|done|].
    + right. split; [apply lookup_insert_eq|exact Hnd].
    + intros z _ [[[?%elem_of_singleton|?]%elem_of_union Hn%not_elem_of_singleton]%elem_of_difference|?]; [done|by left|by right].
Qed.

Lemma init_waitqueue_inv w Q T L q : waits_inv w Q T L -> waits_inv (init_waitqueue_head w q) Q T (<[q := []]> L).
Proof using.
  intros [Hs Hq Ha He]. split; [done| | |].
  - intros q'. destruct (decide (q = q')) as [<-|Hne].
    + rewrite fn_lookup_insert. unfold wqueue, slist, init_waitqueue_head. cbn. apply arr_get_insert.
    + rewrite fn_lookup_insert_ne by done. apply (slist_frame (T := waits) (H := wlinks q') w); [done| |apply Hq]. cbn. by rewrite arr_get_insert_ne by done.
  - intros q1 q2 e. destruct (decide (q = q1)) as [<-|]; [rewrite fn_lookup_insert; by intros ?%not_elem_of_nil|].
    rewrite fn_lookup_insert_ne by done. destruct (decide (q = q2)) as [<-|]; [rewrite fn_lookup_insert; by intros _ ?%not_elem_of_nil|].
    rewrite fn_lookup_insert_ne by done. apply Ha.
  - intros q' e. destruct (decide (q = q')) as [<-|]; [rewrite fn_lookup_insert; by intros ?%not_elem_of_nil|]. rewrite fn_lookup_insert_ne by done. apply He.
Qed.

Lemma ends_set r N f x y p : N !! f = Some x -> ends r (<[f := y]> N) p = ends r N p - one (is_end r p x) + one (is_end r p y).
Proof using. intros Hx. unfold ends. by rewrite (msum_update _ N f x y Hx). Qed.

(** The pipe comes to life with its two ends. *)
Lemma pipe_birth O k H D I Q T L p r w fr fw :
  whole O k H D I Q T L -> H !! p = Some SIZEOF_PIPE -> ~ data_block k I p -> k_pipes k !! p = None ->
  k_files k !! r = Some new_file -> k_files k !! w = Some new_file -> r <> w -> r <> uart_file -> w <> uart_file ->
  Z.land fr O_ACCMODE = O_RDONLY -> Z.land fw O_ACCMODE <> O_RDONLY ->
  let k' := init_end (init_end (init_pipe k p) r pipe_read_ops p fr) w pipe_write_ops p fw in
  exists L', whole (O ∖ {[ p ]}) k' H D I Q T L'.
Proof using HH.
  intros [Hw Hh Hfs Hb Hu Hi Hc He Hpi Ho] Hp Hnd Hnp Hr Hwf Hne Hru Hwu Hfr Hfw k'.
  set (xr := mkFile 1 0 pipe_read_ops p 0 fr 0). set (xw := mkFile 1 0 pipe_write_ops p 0 fw 0).
  assert (Ef : k_files k' = <[w := xw]> (<[r := xr]> (k_files k))).
  { unfold k', init_end, upd_file, file_at, init_pipe. cbn. rewrite Hr. cbn. rewrite lookup_insert_ne, Hwf by done. done. }
  assert (Hold : forall z, z <> p -> forall b, ends b (k_files k') z = ends b (k_files k) z).
  { intros z Hz b. rewrite Ef, (ends_set b _ w new_file) by (by rewrite lookup_insert_ne). rewrite (ends_set b _ r new_file) by done.
    rewrite !(not_end b z new_file) by done. rewrite (one_no (is_end b z xr)), (one_no (is_end b z xw)); [lia|intros (_ & E & _); by apply Hz..]. }
  assert (Hz0 : forall b, ends b (k_files k) p = 0).
  { intros b. unfold ends. apply msum_zero. intros f x Hx. unfold one. apply decide_False. intros (Hpx & Epx & _).
    destruct (He f x Hx Hpx) as [y Hy]. rewrite Epx, Hnp in Hy. discriminate Hy. }
  assert (Hsum : forall b, ends b (k_files k') p = one (is_end b p xr) + one (is_end b p xw)).
  { intros b. rewrite Ef, (ends_set b _ w new_file) by (by rewrite lookup_insert_ne). rewrite (ends_set b _ r new_file), Hz0, (not_end b p new_file) by done. lia. }
  assert (Exr : reader xr = true) by (unfold reader, xr; cbn; by rewrite Hfr).
  assert (Exw : reader xw = false) by (unfold reader, xw; cbn; by apply Z.eqb_neq).
  assert (Hnew : ends true (k_files k') p = 1 /\ ends false (k_files k') p = 1).
  { rewrite !Hsum. rewrite (one_yes (is_end true p xr)), (one_no (is_end true p xw)), (one_no (is_end false p xr)), (one_yes (is_end false p xw)); [done|by splits| | |by splits].
    - intros (_ & _ & E). rewrite Exr in E. discriminate E.
    - intros (_ & _ & E). rewrite Exw in E. discriminate E. }
  assert (Hex : forall f x, k_files k' !! f = Some x -> exists x0, k_files k !! f = Some x0 /\ f_inode x = f_inode x0 /\
    (x = x0 \/ (f <> uart_file /\ f_private x = p))).
  { intros f x. rewrite Ef. intros [[<- <-]|[_ [[<- <-]|[_ Hx]]%lookup_insert_Some]]%lookup_insert_Some; eexists; (split; [done|]); (split; [done|]); tauto. }
  exists (<[write_wait p := []]> (<[read_wait p := []]> L)). split.
  - exact (init_waitqueue_inv _ _ _ _ _ (init_waitqueue_inv _ _ _ _ _ Hw)).
  - exact Hh.
  - eapply fs_inv_frame; [exact Hfs|done..].
  - intros f x Hx. destruct (Hex f x Hx) as (x0 & Hx0 & _). by apply (Hb f x0).
  - intros x Hx. destruct (Hex _ x Hx) as (x0 & Hx0 & _ & [->|[? _]]); [by apply Hu|done].
  - intros f x Hx. destruct (Hex f x Hx) as (x0 & Hx0 & -> & _). by apply (Hi f x0).
  - intros i Hi0 His. rewrite Ef. unfold opens. rewrite (msum_update _ _ w new_file xw) by (by rewrite lookup_insert_ne). rewrite (msum_update _ _ r new_file xr) by done.
    cbn. fold (opens (k_files k) i). rewrite <- (Hc i Hi0 His). change (inode_at k' i) with (inode_at k i). lia.
  - intros f x Hx Hpx. change (k_pipes k') with (<[p := mkPipe 0 0 0 1 1 ∅]> (k_pipes k)). rewrite lookup_insert_is_Some'.
    destruct (Hex f x Hx) as (x0 & Hx0 & _ & [->|[_ ->]]); [right; by apply (He f x0)|by left].
  - intros q y. change (k_pipes k') with (<[p := mkPipe 0 0 0 1 1 ∅]> (k_pipes k)). intros [[<- <-]|[Hqp Hy]]%lookup_insert_Some.
    + destruct Hnew as [-> ->]. done.
    + rewrite !Hold by done. by apply Hpi.
  - intros z Hz. change (k_pipes k') with (<[p := mkPipe 0 0 0 1 1 ∅]> (k_pipes k)). rewrite lookup_insert_is_Some'.
    destruct (decide (p = z)) as [->|Hpz]; [right; right; left; by left|]. destruct (Ho z Hz) as [?|[?|[?|?]]].
    + left. apply elem_of_difference. split; [done|]. by apply not_elem_of_singleton, not_eq_sym.
    + right; left. rewrite Ef, !lookup_insert_is_Some'. by right; right.
    + right; right; left. by right.
    + by right; right; right.
Qed.

Lemma table_inv_alloc k X f m :
  table_inv k X -> k_files k !! f = None -> f <> 0 -> 0 <= X f ->
  table_inv (set_k_files (<[f := new_file]> (k_files k)) (set_k_k m k)) (plus X f).
Proof using.
  intros [H1 H2 H3] Hf H0 HX. set (k' := set_k_files _ _). assert (Et : tables k' = tables k) by done. split; [| |done].
  - intros g Hg. rewrite Et. specialize (H1 g Hg). unfold refcount_of, k' in *. cbn. unfold plus. destruct (decide (f = g)) as [<-|Hne].
    + rewrite lookup_insert_eq. rewrite Hf in H1. cbn in *. rewrite one_yes by done. assert (Hr := slots_range (tables k) f). lia.
    + rewrite lookup_insert_ne, one_no by done. lia.
  - intros g x. cbn. intros [[<- <-]|[_ Hx]]%lookup_insert_Some; [split; [done|by right]|by apply (H2 g x)].
Qed.

Lemma table_inv_same k k' X :
  table_inv k X -> tables k' = tables k -> (forall f, f_refcount <$> k_files k' !! f = f_refcount <$> k_files k !! f) -> table_inv k' X.
Proof using.
  intros [H1 H2 H3] Et Ef. split; rewrite ?Et; [| |done].
  - intros f Hf. rewrite <- (H1 f Hf). specialize (Ef f). unfold refcount_of. destruct (k_files k' !! f), (k_files k !! f); cbn in *; congruence.
  - intros f x Hx. specialize (Ef f). rewrite Hx in Ef. destruct (k_files k !! f) as [y|] eqn:Ey; [|discriminate Ef]. injection Ef as ->. by apply (H2 f y).
Qed.

Lemma alloc_init k p : alloc_file (init_pipe k p) = x ← alloc_file k; Some (fst x, init_pipe (snd x) p).
Proof using.
  unfold alloc_file, k_malloc. change (k_k (init_pipe k p)) with (k_k k). destruct (kmalloc (k_k k) SIZEOF_FILE) as [[f m]|]; [|done].
  cbn [mbind option_bind]. by destruct (f =? 0).
Qed.

(** Memory and wait queues change, but nothing that belongs to a file. *)
Lemma ends_inv_swap O k F M N H D I Q T L m w Q' L' :
  ends_inv (heap := heap) O k F M N H D I Q T L -> heap m H -> waits_inv w Q' T L' -> ends_inv (heap := heap) O (set_k_w w (set_k_k m k)) F M N H D I Q' T L'.
Proof using.
  intros [Hw Hh Hfs Hb Hu Hi Hc He Hpi Ho] Hm Hw'. split; try done. eapply fs_inv_frame; [exact Hfs|done..].
Qed.

Lemma ends_inv_user O k F M N H D I Q T L u : ends_inv (heap := heap) O k F M N H D I Q T L -> ends_inv (heap := heap) O (set_k_u u k) F M N H D I Q T L.
Proof using.
  intros [Hw Hh Hfs Hb Hu Hi Hc He Hpi Ho]. split; try done. eapply fs_inv_frame; [exact Hfs|done..].
Qed.

(** The last reference of a file that holds nothing. *)
Lemma fput_plain k f x m :
  k_files k !! f = Some x -> f_refcount x = 1 -> f_op x = FOP_NULL -> f_inode x = 0 -> f <> 0 -> f <> uart_file -> kfree (k_k k) f = Some m ->
  fput k f = Some (set_k_files (delete f (k_files k)) (set_k_k m k)).
Proof using.
  intros Hx Hr Hop Hi H0 Hu Hm. unfold fput. rewrite (proj2 (Z.eqb_neq _ _) H0). set (k1 := upd_file k f _).
  assert (Ef : file_at k1 f = set_f_refcount 0 x) by (unfold k1, upd_file, file_at; cbn; rewrite Hx, lookup_insert_eq; cbn; by rewrite Hr).
  rewrite Ef. cbn [f_refcount set_f_refcount]. change (0 <? 0) with false. cbn iota. unfold file_end, file_release. rewrite Ef. cbn [f_op set_f_refcount]. rewrite Hop. cbn [mbind option_bind].
  rewrite Ef. cbn [f_inode set_f_refcount]. rewrite Hi. unfold iput. cbn [mbind option_bind orb Z.eqb]. rewrite (proj2 (Z.eqb_neq _ _) Hu).
  unfold k_free. change (k_k (upd_file k1 f (set_f_inode 0))) with (k_k k). rewrite Hm. cbn [mbind option_bind]. f_equal. unfold k1, upd_file. cbn.
  by rewrite insert_insert_eq, delete_insert_eq.
Qed.

Lemma install_only n : forall k t f fd r k', install_from n k t f fd = (r, k') -> exists s, k' = set_k_s s k.
Proof using.
  induction n as [|n IH]; intros k t f fd r k'; cbn [install_from].
  - intros [= _ <-]. exists (k_s k). unfold set_k_s, k_s. destruct k as [w ? ? ? ? ? ? ? ? ? ? ?]. by destruct w.
  - case_match; [|apply IH]. intros [= _ <-]. by eexists.
Qed.

Context (O : gset Z).
Abbreviation G := (files_ok (heap := heap) O).

(** A failed call leaves the files and the pipes as they were. *)
Lemma steady_swap k m w H D I Q T L Q' L' X :
  whole O k H D I Q T L -> table_inv k X -> heap m H -> waits_inv w Q' T L' -> w_s w = k_s k -> counted G (set_k_w w (set_k_k m k)) X.
Proof using.
  intros HI HT Hm Hw Hs. split; [exists H, D, I, Q', T, L'; by apply (ends_inv_swap O k _ _ _ H D I Q T L)|].
  apply (table_inv_same k); [done| |done]. unfold tables, k_s. cbn. by rewrite Hs.
Qed.

Definition same k k' : Prop := k_s k' = k_s k /\ k_files k' = k_files k /\ k_pipes k' = k_pipes k /\ k_u k' = k_u k.

Lemma init_waits k p Q T L : waits_inv (k_w k) Q T L -> exists L', waits_inv (k_w (init_pipe k p)) Q T L'.
Proof using. intros Hw. eexists. exact (init_waitqueue_inv _ _ _ _ _ (init_waitqueue_inv _ _ _ _ _ Hw)). Qed.

(** The call gives up before there is a file. *)
Lemma give_up_pipe k m p H D I Q T L :
  whole O k H D I Q T L -> table_inv k nothing -> H !! p = None -> heap m (<[p := SIZEOF_PIPE]> H) -> k_pipes k !! p = None ->
  exists k', free_pipe (init_pipe (set_k_k m k) p) p = Some k' /\ steady G k' /\ same k k'.
Proof using HH.
  intros HI HT Hp Hm Hnp. unfold free_pipe, k_free. change (k_k (init_pipe (set_k_k m k) p)) with m.
  destruct (heap_free m _ p Hm) as (m' & -> & Hm'); [rewrite lookup_insert_eq; by eexists|]. rewrite delete_insert_id in Hm' by done. cbn [mbind option_bind].
  destruct (init_waits k p Q T L (oi_waits HI)) as [L' Hw]. assert (HS := steady_swap k m' _ H D I Q T L Q L' nothing HI HT Hm' Hw eq_refl).
  eexists. split; [done|]. assert (Ek : set_k_pipes (delete p (k_pipes (set_k_k m' (init_pipe (set_k_k m k) p)))) (set_k_k m' (init_pipe (set_k_k m k) p)) =
    set_k_w (k_w (init_pipe k p)) (set_k_k m' k)).
  { transitivity (set_k_pipes (delete p (<[p := mkPipe 0 0 0 1 1 ∅]> (k_pipes k))) (set_k_w (k_w (init_pipe k p)) (set_k_k m' k))); [reflexivity|].
    rewrite delete_insert_id by done. reflexivity. }
  rewrite Ek. split; [exact HS|]. by splits.
Qed.

(** The call gives up with one file made. *)
Lemma give_up_file k m m2 p r H D I Q T L :
  whole O k H D I Q T L -> table_inv k nothing -> H !! p = None -> k_pipes k !! p = None -> k_files k !! r = None -> r <> 0 -> r <> uart_file ->
  <[p := SIZEOF_PIPE]> H !! r = None -> heap m2 (<[r := SIZEOF_FILE]> (<[p := SIZEOF_PIPE]> H)) ->
  let kB := set_k_files (<[r := new_file]> (k_files k)) (set_k_k m2 (set_k_k m k)) in
  exists k1 k', fput (upd_file (init_pipe kB p) r (fun x => set_f_private 0 (set_f_op FOP_NULL x))) r = Some k1 /\
    free_pipe k1 p = Some k' /\ steady G k' /\ same k k'.
Proof using HH.
  intros HI HT Hp Hnp Hfr H0 Hu Hr Hm kB. destruct (heap_free m2 _ r Hm) as (m3 & E3 & Hm3); [rewrite lookup_insert_eq; by eexists|].
  rewrite delete_insert_id in Hm3 by done. destruct (heap_free m3 _ p Hm3) as (m4 & E4 & Hm4); [rewrite lookup_insert_eq; by eexists|].
  rewrite delete_insert_id in Hm4 by done. set (k2 := upd_file (init_pipe kB p) r _).
  assert (Ef : k_files k2 = <[r := new_file]> (k_files k)).
  { unfold k2, upd_file, file_at, init_pipe, kB. cbn. rewrite lookup_insert_eq. cbn. by rewrite insert_insert_eq. }
  assert (E1 : fput k2 r = Some (set_k_files (delete r (k_files k2)) (set_k_k m3 k2))).
  { refine (fput_plain k2 r new_file m3 _ eq_refl eq_refl eq_refl H0 Hu E3). by rewrite Ef, lookup_insert_eq. }
  destruct (init_waits k p Q T L (oi_waits HI)) as [L' Hw]. assert (HS := steady_swap k m4 _ H D I Q T L Q L' nothing HI HT Hm4 Hw eq_refl).
  rewrite Ef, delete_insert_id in E1 by done. eexists _, _. split; [exact E1|]. split.
  { unfold free_pipe, k_free. change (k_k (set_k_files (k_files k) (set_k_k m3 k2))) with m3. rewrite E4. cbn [mbind option_bind]. reflexivity. }
  match goal with |- steady _ ?x /\ _ => assert (Ek : x = set_k_w (k_w (init_pipe k p)) (set_k_k m4 k)) end.
  { transitivity (set_k_pipes (delete p (<[p := mkPipe 0 0 0 1 1 ∅]> (k_pipes k))) (set_k_w (k_w (init_pipe k p)) (set_k_k m4 k))); [reflexivity|].
    rewrite delete_insert_id by done. reflexivity. }
  rewrite Ek. split; [exact HS|]. by splits.
Qed.

Definition both (r w : Z) : Z -> Z := plus (plus nothing r) w.

Lemma both_at r w : r <> w -> both r w r = 1 /\ both r w w = 1.
Proof using. intros Hne. unfold both, plus, nothing. rewrite (one_yes (r = r)), (one_yes (w = w)), (one_no (r = w)), (one_no (w = r)) by congruence. done. Qed.

(** Both references are dropped. *)
Lemma drop_both k r w :
  counted G k (both r w) -> r <> w -> r <> 0 -> w <> 0 ->
  exists k1 k2, fput k r = Some k1 /\ fput k1 w = Some k2 /\ steady G k2 /\ change k k2 (desc k).
Proof using HH.
  intros HC Hne Hr0 Hw0. destruct (both_at r w Hne) as [Er Ew]. assert (H1 := slots_range (tables k) r). assert (H2 := slots_range (tables k) w).
  destruct (fput_counted G k _ r HC Hr0) as (k1 & E1 & HC1 & Hc1 & Et1); [lia|lia|].
  assert (Ew1 : minus (both r w) r w = 1) by (unfold minus; rewrite Ew, one_no by done; done).
  destruct (fput_counted G k1 _ w HC1 Hw0) as (k2 & E2 & HC2 & Hc2 & _); [rewrite Et1; lia|lia|].
  exists k1, k2. split; [done|]. split; [done|]. split; [|eapply change_trans; [exact Hc1|exact Hc2|apply Hc1]].
  eapply counted_ext; [|exact HC2]. intros g _. unfold minus, both, plus, nothing. lia.
Qed.

(** Both files get a descriptor, or none. *)
Lemma install_both k t r w :
  counted G k (both r w) -> has_task k t -> r <> w -> r <> 0 -> w <> 0 ->
  (exists k1 k2, install_fd k t r = (- EMFILE, k) /\ fput k r = Some k1 /\ fput k1 w = Some k2 /\ steady G k2 /\ change k k2 (desc k)) \/
  exists fd0 k1, install_fd k t r = (fd0, k1) /\ is_fd fd0 /\ desc k t fd0 = None /\ (forall i, 0 <= i < fd0 -> desc k t i <> None) /\
   ((exists k2 k3, install_fd k1 t w = (- EMFILE, k1) /\ fput (set_task_file k1 t fd0 0) r = Some k2 /\ fput k2 w = Some k3 /\ steady G k3 /\ change k k3 (desc k)) \/
    exists fd1 k2 s, install_fd k1 t w = (fd1, k2) /\ fd0 < fd1 < NR_OPEN /\ desc k t fd1 = None /\ (forall i, fd0 < i < fd1 -> desc k t i <> None) /\
      steady G k2 /\ change k k2 (put (put (desc k) t fd0 (Some (r, false))) t fd1 (Some (w, false))) /\ k2 = set_k_s s k).
Proof using HH.
  intros HC Ht Hne Hr0 Hw0. unfold install_fd.
  destruct (install_spec G (Z.to_nat NR_OPEN) k _ t r 0 HC Ht) as [[E _]|(fd0 & k1 & E & Hr & Hz & Hall & HC1 & Hc1)]; [done|done|done| |].
  { left. destruct (drop_both k r w HC Hne Hr0 Hw0) as (k1 & k2 & ?). exists k1, k2. by split. }
  right. exists fd0, k1. split; [done|]. split; [done|]. split; [done|]. split; [done|].
  assert (Ht1 := proj2 (ch_tasks _ _ _ Hc1 t) Ht). assert (Hd0 : desc k1 t fd0 = Some (r, false)) by (rewrite (ch_desc _ _ _ Hc1) by done; apply put_at).
  assert (Hd : forall i, is_fd i -> i <> fd0 -> desc k1 t i = desc k t i).
  { intros i Hi Hne'. rewrite (ch_desc _ _ _ Hc1) by done. unfold put. by rewrite decide_False by tauto. }
  destruct (install_spec G (Z.to_nat NR_OPEN) k1 _ t w 0 HC1 Ht1) as [[E1 _]|(fd1 & k2 & E1 & Hr1 & Hz1 & Hall1 & HC2 & Hc2)]; [done|done|done| |].
  - left. destruct (set_slot G k1 _ t fd0 0 HC1 Ht1 Hr) as [HC2 Hc2]. set (k2 := set_task_file k1 t fd0 0) in *.
    assert (Ef : task_file k1 t fd0 = r) by (by apply desc_some in Hd0 as (_ & ? & _)). rewrite Ef in HC2.
    destruct (drop_both k2 r w) as (k3 & k4 & E3 & E4 & HS & Hc4); [|done..|].
    { eapply counted_ext; [|exact HC2]. intros g Hg. unfold minus, plus. rewrite (one_no (0 = g)) by congruence. lia. }
    exists k3, k4. split; [done|]. split; [done|]. split; [done|]. split; [done|]. eapply change_trans; [exact Hc1| |].
    + eapply change_trans; [exact Hc2|exact Hc4|apply Hc2].
    + intros u i Hi. cbn. unfold put. case_decide as Dc; [destruct Dc as [-> ->]; by rewrite Hz|]. rewrite (ch_desc _ _ _ Hc1) by done. unfold put. by rewrite decide_False.
  - right. assert (H10 : fd1 <> fd0) by (intros ->; rewrite Hd0 in Hz1; discriminate Hz1). rewrite Hd in Hz1 by done.
    assert (Hlt : fd0 < fd1).
    { destruct (decide (fd0 < fd1)) as [|Hge]; [done|exfalso]. apply (Hall fd1); [lia|done]. }
    destruct (install_only _ _ _ _ _ _ _ E) as [s1 ->]. destruct (install_only _ _ _ _ _ _ _ E1) as [s2 Es2].
    exists fd1, k2, s2. split; [done|]. split; [lia|]. split; [done|]. split.
    { intros i Hi. rewrite <- Hd by (unfold is_fd, NR_OPEN in *; lia). apply Hall1. unfold is_fd in Hr. lia. }
    split; [|split; [|by rewrite Es2]].
    + eapply counted_ext; [|exact HC2]. intros g _. unfold minus, both, plus, nothing. lia.
    + eapply change_trans; [exact Hc1|exact Hc2|]. intros u i Hi. apply put_ext; [by apply Hc1|done].
Qed.

Lemma end_flags a flags : 0 <= a < 4 -> Z.land (Z.lor a (Z.land flags O_NONBLOCK)) O_ACCMODE = a.
Proof using.
  intros Ha. rewrite Z.land_lor_distr_l, <- Z.land_assoc. change (Z.land O_NONBLOCK O_ACCMODE) with 0. rewrite Z.land_0_r, Z.lor_0_r.
  change O_ACCMODE with (Z.ones 2). rewrite Z.land_ones by lia. apply Z.mod_small. lia.
Qed.

(** The new pipe and its ends, as the caller of [pipe2] finds them. *)
Record piped (k k' : kernel) (fildes flags fd0 fd1 p r w : Z) : Prop := {
  pd_fd0 : is_fd fd0 /\ desc k (current k) fd0 = None /\ forall i, 0 <= i < fd0 -> desc k (current k) i <> None;
  pd_fd1 : fd0 < fd1 < NR_OPEN /\ desc k (current k) fd1 = None /\ forall i, fd0 < i < fd1 -> desc k (current k) i <> None;
  pd_new : k_pipes k !! p = None /\ k_files k !! r = None /\ k_files k !! w = None /\ r <> w;
  pd_pipe : k_pipes k' = <[p := mkPipe 0 0 0 1 1 ∅]> (k_pipes k);
  pd_files : k_files k' = <[w := mkFile 1 0 pipe_write_ops p 0 (Z.lor O_WRONLY (Z.land flags O_NONBLOCK)) 0]>
    (<[r := mkFile 1 0 pipe_read_ops p 0 (Z.lor O_RDONLY (Z.land flags O_NONBLOCK)) 0]> (k_files k));
  pd_desc : forall u i, is_fd i -> desc k' u i = put (put (desc k) (current k) fd0 (Some (r, has flags O_CLOEXEC))) (current k) fd1 (Some (w, has flags O_CLOEXEC)) u i;
  pd_user : k_u k' = put_bytes (k_u k) fildes (le_bytes 4 fd0 ++ le_bytes 4 fd1)
}.

(** The descriptors are marked and handed out. *)
Lemma pipe2_finish k t r w fd0 fd1 b fildes bs :
  steady G k -> has_task k t -> is_fd fd0 -> is_fd fd1 -> fd0 <> fd1 -> desc k t fd0 = Some (r, false) -> desc k t fd1 = Some (w, false) ->
  let k1 := if (b : bool) then set_cloexec true (set_cloexec true k t fd0) t fd1 else k in
  let k2 := snd (copy_to_user k1 fildes bs) in
  steady G k2 /\ (forall u i, is_fd i -> desc k2 u i = put (put (desc k) t fd0 (Some (r, b))) t fd1 (Some (w, b)) u i) /\
  k_files k2 = k_files k /\ k_pipes k2 = k_pipes k /\ k_u k2 = put_bytes (k_u k) fildes bs /\ forall u, has_task k2 u <-> has_task k u.
Proof using HH.
  intros HS Ht H0 H1 Hne E0 E1 k1 k2.
  assert (Hk : steady G k1 /\ (forall u i, is_fd i -> desc k1 u i = put (put (desc k) t fd0 (Some (r, b))) t fd1 (Some (w, b)) u i) /\
    k_files k1 = k_files k /\ k_pipes k1 = k_pipes k /\ k_u k1 = k_u k /\ forall u, has_task k1 u <-> has_task k u).
  { unfold k1. destruct b.
    - destruct (set_cloexec_counted G true k _ t fd0 HS Ht H0) as [HS1 Hc1]. assert (Ht1 := proj2 (ch_tasks _ _ _ Hc1 t) Ht).
      destruct (set_cloexec_counted G true _ _ t fd1 HS1 Ht1 H1) as [HS2 Hc2]. split; [exact HS2|].
      split; [|split; [done|split; [done|split; [done|intros u; by rewrite (ch_tasks _ _ _ Hc2 u), (ch_tasks _ _ _ Hc1 u)]]]]. intros u i Hi.
      rewrite (ch_desc _ _ _ Hc2 u i Hi). apply put_ext; [rewrite (ch_desc _ _ _ Hc1 u i Hi); apply put_ext; [done|by rewrite E0]|].
      rewrite (ch_desc _ _ _ Hc1 t fd1 H1). unfold put. rewrite decide_False, E1 by (intros [_ ?]; congruence). done.
    - split; [done|]. split; [|done]. intros u i Hi. rewrite <- (put_same (desc k) t fd1 u i) at 1. apply put_ext; [|done].
      rewrite <- (put_same (desc k) t fd0 u i) at 1. by apply put_ext. }
  destruct Hk as ((HG1 & HT1) & Hd & Ef & Ep & Eu & Htk). split; [|split; [exact Hd|split; [exact Ef|split; [exact Ep|split; [|exact Htk]]]]].
  - split; [|exact (table_inv_same k1 k2 _ HT1 eq_refl (fun _ => eq_refl))]. destruct HG1 as (H & D & I & Q & T & L & HI). exists H, D, I, Q, T, L. by apply ends_inv_user.
  - unfold k2. cbn. by rewrite Eu.
Qed.

Lemma pipe2_born k H D I Q T L p r w m m2 m3 flags :
  table_inv k nothing -> H !! p = None -> k_pipes k !! p = None -> ~ data_block k I p -> r <> 0 -> r <> uart_file -> w <> 0 -> w <> uart_file ->
  let kB := set_k_files (<[r := new_file]> (k_files k)) (set_k_k m2 (set_k_k m k)) in
  let kC := set_k_files (<[w := new_file]> (k_files kB)) (set_k_k m3 kB) in
  <[p := SIZEOF_PIPE]> H !! r = None -> <[r := SIZEOF_FILE]> (<[p := SIZEOF_PIPE]> H) !! w = None -> k_files k !! r = None -> k_files kB !! w = None ->
  whole ({[ p ]} ∪ O) kC (<[w := SIZEOF_FILE]> (<[r := SIZEOF_FILE]> (<[p := SIZEOF_PIPE]> H))) D I Q T L ->
  let fr := Z.lor O_RDONLY (Z.land flags O_NONBLOCK) in let fw := Z.lor O_WRONLY (Z.land flags O_NONBLOCK) in
  let kD := init_end (init_end (init_pipe kC p) r pipe_read_ops p fr) w pipe_write_ops p fw in
  counted G kD (both r w) /\ k_files kD = <[w := mkFile 1 0 pipe_write_ops p 0 fw 0]> (<[r := mkFile 1 0 pipe_read_ops p 0 fr 0]> (k_files k)) /\
  k_pipes kD = <[p := mkPipe 0 0 0 1 1 ∅]> (k_pipes k) /\ r <> w /\ k_files k !! w = None.
Proof using HH.
  intros HT Hp Hnp Hnd Hr0 Hru Hw0 Hwu kB kC HrH HwH Hrf Hwf HIC fr fw kD.
  assert (Hrp : r <> p) by (intros ->; by rewrite lookup_insert_eq in HrH). assert (Hrw : r <> w) by (intros ->; by rewrite lookup_insert_eq in HwH).
  assert (Hwp : w <> p) by (intros ->; rewrite lookup_insert_ne, lookup_insert_eq in HwH by done; discriminate HwH).
  assert (Hwf' : k_files k !! w = None) by (by rewrite <- (lookup_insert_ne (k_files k) r w new_file Hrw)).
  assert (Ecr : k_files kC !! r = Some new_file) by (unfold kC, kB; cbn [k_files set_k_files]; by rewrite lookup_insert_ne, lookup_insert_eq by done).
  assert (EfD : k_files kD = <[w := mkFile 1 0 pipe_write_ops p 0 fw 0]> (<[r := mkFile 1 0 pipe_read_ops p 0 fr 0]> (k_files k))).
  { assert (E1 : k_files kD = <[w := mkFile 1 0 pipe_write_ops p 0 fw 0]> (<[r := mkFile 1 0 pipe_read_ops p 0 fr 0]> (k_files kC))).
    { unfold kD, init_end, upd_file, file_at. change (k_files (init_pipe kC p)) with (k_files kC). rewrite Ecr. cbn [default from_option k_files set_k_files].
      rewrite (lookup_insert_ne _ r w), (lookup_insert_eq _ w new_file : k_files kC !! w = _) by done. done. }
    rewrite E1. unfold kC, kB. cbn [k_files set_k_files set_k_k]. rewrite (insert_insert_ne _ r w) by done. rewrite insert_insert_eq.
    by rewrite insert_insert_eq. }
  assert (HTA : table_inv (set_k_k m k) nothing) by exact (table_inv_same k (set_k_k m k) nothing HT eq_refl (fun _ => eq_refl)).
  assert (HTC : table_inv kC (both r w)).
  { apply (table_inv_alloc kB (plus nothing r) w m3); [exact (table_inv_alloc (set_k_k m k) nothing r m2 HTA Hrf Hr0 (Z.le_refl 0))|done|done|]. unfold plus, nothing. rewrite one_no by done. lia. }
  destruct (pipe_birth _ kC _ _ _ _ _ _ p r w fr fw HIC) as [L' HID]; try done.
  { by rewrite lookup_insert_ne, lookup_insert_ne, lookup_insert_eq by done. } { apply lookup_insert_eq. }
  { by apply end_flags. } { unfold fw. by rewrite end_flags by done. }
  split; [|by splits]. split.
  - eexists _, _, _, _, _, _. eapply ends_inv_weaken; [exact HID|done|]. intros z _ [[[?|?]%elem_of_union Hn]%elem_of_difference|?]; [done|by left|by right].
  - apply (table_inv_same kC); [done|done|]. intros g. rewrite EfD. destruct (decide (g = w)) as [->|]; [unfold kC; cbn [k_files set_k_files]; by rewrite !lookup_insert_eq|].
    rewrite lookup_insert_ne by done. destruct (decide (g = r)) as [->|]; [by rewrite lookup_insert_eq, Ecr|]. unfold kC, kB. cbn [k_files set_k_files set_k_k].
    by rewrite !lookup_insert_ne by done.
Qed.

Lemma pipe2_spec k fildes flags :
  steady G k -> t_is_user (task_at (k_s k) (current k)) <> 0 -> fildes <> 0 -> has flags (u32 (Z.lnot (Z.lor O_CLOEXEC O_NONBLOCK))) = false ->
  exists r k', ksys_pipe2 k fildes flags = Some (r, k') /\ steady G k' /\
    (((r = - ENOMEM \/ r = - EMFILE) /\ forall u i, is_fd i -> desc k' u i = desc k u i) \/
     (r = 0 /\ exists fd0 fd1 p rf wf, piped k k' fildes flags fd0 fd1 p rf wf)) /\
    forall t, has_task k' t <-> has_task k t.
Proof using HH.
  intros HS Hus Hfi Hfl. destruct (ends_current k (proj1 HS)) as [Hc0 Hc]. destruct HS as [(H & D & I & Q & T & L & HI) HT].
  unfold ksys_pipe2. rewrite (proj2 (Z.eqb_neq _ _) Hc0), (proj2 (Z.eqb_neq _ _) Hus), (proj2 (Z.eqb_neq _ _) Hfi), Hfl. cbn [orb].
  assert (Hfail : forall k', steady G k' -> same k k' -> exists r k2, Some (- ENOMEM, k') = Some (r, k2) /\ steady G k2 /\
    (((r = - ENOMEM \/ r = - EMFILE) /\ forall u i, is_fd i -> desc k2 u i = desc k u i) \/ (r = 0 /\ exists fd0 fd1 p rf wf, piped k k2 fildes flags fd0 fd1 p rf wf)) /\
    forall t, has_task k2 t <-> has_task k t).
  { intros k' HS' (Es & _). exists (- ENOMEM), k'. split; [done|]. split; [done|]. split; [left; split; [by left|]|]; [intros u i Hi; unfold desc, task_file, cloexec; by rewrite Es|].
    intros u. unfold has_task. by rewrite Es. }
  unfold k_malloc. destruct (heap_malloc (k_k k) H SIZEOF_PIPE (oi_heap HI) ltac:(done)) as [E|(p & m & E & Hp0 & Hp & Hm)]; rewrite E; cbn [mbind option_bind].
  { change (0 =? 0) with true. cbn iota. assert (Ek : set_k_k (k_k k) k = k) by (by destruct k). rewrite Ek.
    apply Hfail; [|by splits]. split; [by exists H, D, I, Q, T, L|done]. }
  rewrite (proj2 (Z.eqb_neq _ _) Hp0). destruct (ends_inv_grow _ _ _ _ _ _ _ _ _ _ _ m p SIZEOF_PIPE HI Hp Hm) as [HIA Hnd].
  assert (Hnp : k_pipes k !! p = None).
  { destruct (k_pipes k !! p) as [y|] eqn:Ey; [|done]. destruct (oi_pipe HI p y Ey) as [E' _]. by rewrite Hp in E'. }
  set (kA := set_k_k m k) in *. destruct (alloc_file_spec _ kA _ _ _ _ _ _ HIA) as [ErA|(r & m2 & ErA & Hr0 & Hru & HrH & Hrf & HIB)].
  { rewrite alloc_init, ErA. cbn [mbind option_bind fst snd]. change (0 =? 0) with true. cbn iota.
    destruct (give_up_pipe k m p H D I Q T L HI HT Hp Hm Hnp) as (k' & Ek & HS' & Hsm). fold kA in Ek. rewrite Ek. cbn [mbind option_bind]. by apply Hfail. }
  rewrite alloc_init, ErA. cbn [mbind option_bind fst snd]. rewrite (proj2 (Z.eqb_neq _ _) Hr0). set (kB := set_k_files _ (set_k_k m2 kA)) in *.
  destruct (alloc_file_spec _ kB _ _ _ _ _ _ HIB) as [EwB|(w & m3 & EwB & Hw0 & Hwu & HwH & Hwf & HIC)].
  { rewrite alloc_init, EwB. cbn [mbind option_bind fst snd]. change (0 =? 0) with true. cbn iota.
    destruct (give_up_file k m m2 p r H D I Q T L HI HT Hp Hnp Hrf Hr0 Hru HrH (oi_heap HIB)) as (k1 & k' & E1 & E2 & HS' & Hsm). cbn zeta in E1. fold kA in E1.
    change (set_k_files (<[r := new_file]> (k_files k)) (set_k_k m2 kA)) with kB in E1.
    rewrite E1. cbn [mbind option_bind]. rewrite E2. cbn [mbind option_bind]. by apply Hfail. }
  rewrite alloc_init, EwB. cbn [mbind option_bind fst snd]. rewrite (proj2 (Z.eqb_neq _ _) Hw0). set (kC := set_k_files _ (set_k_k m3 kB)) in *.
  destruct (pipe2_born k H D I Q T L p r w m m2 m3 flags HT Hp Hnp Hnd Hr0 Hru Hw0 Hwu HrH HwH Hrf Hwf HIC) as (HCD & EfD & EpD & Hrw & Hwf'). cbn zeta in *.
  set (kD := init_end _ w _ _ _) in *. destruct (install_both kD (current k) r w HCD Hc Hrw Hr0 Hw0) as [(k1 & k2 & -> & E1 & E2 & HS' & Hc')|HS1].
  { change (- EMFILE <? 0) with true. cbn iota. rewrite E1. cbn [mbind option_bind]. rewrite E2. cbn [mbind option_bind]. exists (- EMFILE), k2. split; [done|]. split; [done|].
    split; [|exact (ch_tasks _ _ _ Hc')]. left. split; [by right|]. intros u i Hi. exact (ch_desc _ _ _ Hc' u i Hi). }
  destruct HS1 as (fd0 & k1 & -> & H0 & Hz0 & Hall0 & [(k2 & k3 & -> & E1 & E2 & HS' & Hc')|(fd1 & k2 & s & -> & H1 & Hz1 & Hall1 & HS' & Hc' & Es)]).
  { rewrite (proj2 (Z.ltb_ge fd0 0)) by apply H0. change (- EMFILE <? 0) with true. cbn iota. rewrite E1. cbn [mbind option_bind]. rewrite E2. cbn [mbind option_bind].
    exists (- EMFILE), k3. split; [done|]. split; [done|]. split; [|exact (ch_tasks _ _ _ Hc')]. left. split; [by right|]. intros u i Hi. exact (ch_desc _ _ _ Hc' u i Hi). }
  assert (Hr1 : is_fd fd1) by (unfold is_fd in *; lia). rewrite (proj2 (Z.ltb_ge fd0 0)), (proj2 (Z.ltb_ge fd1 0)) by (unfold is_fd in *; lia).
  destruct (pipe2_finish k2 (current k) r w fd0 fd1 (has flags O_CLOEXEC) fildes (le_bytes 4 fd0 ++ le_bytes 4 fd1) HS') as (HSf & Hdf & Eff & Epf & Euf & Htf).
  { by apply Hc'. } { done. } { done. } { lia. }
  { rewrite (ch_desc _ _ _ Hc') by done. unfold put. rewrite decide_False by lia. by rewrite decide_True. }
  { rewrite (ch_desc _ _ _ Hc') by done. apply put_at. }
  cbn zeta in *. unfold copy_to_user in *. cbn [snd] in *. change (negb (0 =? 0)) with false. cbn iota. eexists 0, _. split; [reflexivity|]. split; [exact HSf|].
  split; [right; split; [done|]|intros u; rewrite (Htf u); exact (ch_tasks _ _ _ Hc' u)].
  exists fd0, fd1, p, r, w. split; [done|done|done|by rewrite Epf, Es|by rewrite Eff, Es| |by rewrite Euf, Es].
  intros u i Hi. rewrite Hdf by done. rewrite <- (put_put (put (desc k) _ _ _) _ _ (Some (w, false))). apply put_ext; [|done]. unfold put at 1. rewrite (ch_desc _ _ _ Hc' u i Hi).
  unfold put. repeat case_decide; try done; exfalso; lia.
Qed.

(** Whatever the arguments, the call returns and keeps the invariant. *)
Lemma pipe2_any k fildes flags :
  steady G k -> exists r k', ksys_pipe2 k fildes flags = Some (r, k') /\ steady G k' /\ forall t, has_task k' t <-> has_task k t.
Proof using HH.
  intros HS. destruct (decide (t_is_user (task_at (k_s k) (current k)) = 0)) as [E|Hus].
  { unfold ksys_pipe2. rewrite E. change (0 =? 0) with true. rewrite orb_true_r. by exists (- EINVAL), k. }
  destruct (decide (fildes = 0)) as [->|Hfi].
  { unfold ksys_pipe2. case_match; [by exists (- EINVAL), k|]. change (0 =? 0) with true. cbn iota. by exists (- EFAULT), k. }
  destruct (has flags (u32 (Z.lnot (Z.lor O_CLOEXEC O_NONBLOCK)))) eqn:Efl.
  { unfold ksys_pipe2. rewrite Efl. repeat (case_match; [by eexists _, k|]). by exists (- EINVAL), k. }
  destruct (pipe2_spec k fildes flags HS Hus Hfi Efl) as (r & k' & E & HS' & _ & Ht). by exists r, k'.
Qed.
(** C9: a call of [pipe2] with arguments it accepts makes an empty pipe with one
    end for reading and one for writing, puts them at the two lowest free
    descriptors and writes these to the caller's memory; or it reports that
    memory or descriptors have run out, and then nothing is left of it: every
    file, pipe and block of memory is accounted for. *)
Theorem pipe2_correct k fildes flags :
  steady G k -> t_is_user (task_at (k_s k) (current k)) <> 0 -> fildes <> 0 -> has flags (u32 (Z.lnot (Z.lor O_CLOEXEC O_NONBLOCK))) = false ->
  exists r k', ksys_pipe2 k fildes flags = Some (r, k') /\ steady G k' /\
    (((r = - ENOMEM \/ r = - EMFILE) /\ forall u i, is_fd i -> desc k' u i = desc k u i) \/
     (r = 0 /\ exists fd0 fd1 p rf wf, piped k k' fildes flags fd0 fd1 p rf wf)).
Proof using HH. intros HS Hu Hf Hfl. destruct (pipe2_spec k fildes flags HS Hu Hf Hfl) as (r & k' & ? & ? & ? & _). by exists r, k'. Qed.

End Create.
