(* ===== verification/Descriptors.v ===== *)
(** * Calls on descriptors

    [close], [dup], [dup2], [dup3] and [fcntl] refine a table that maps
    descriptors to files, with a flag each, and files to their status flags.
    The flags in the structure of a task that belong to no open descriptor
    play no part in it. *)
From S2P Require Import Prelude Errno PageAlloc Slub Heap ListHead Task Sched Signal Wait Kernel Pipe Path Ramfs FileTable Directory OpenFiles PipeCreate.

(** ** The specification *)

Definition fdtable := Z -> option (Z * bool).

Inductive fd_call :=
  | Close (fd : Z) | Dup (oldfd : Z) | Dup2 (oldfd newfd : Z) | Dup3 (oldfd newfd flags : Z) | Fcntl (fd cmd arg : Z).

Definition set_fd (V : fdtable) (fd : Z) (d : option (Z * bool)) : fdtable := fun i => if decide (i = fd) then d else V i.

(** The lowest free descriptor from [lo] on. *)
Definition lowest (V : fdtable) (lo : Z) : option Z := head (filter (fun i => V i = None) (seqZ lo (NR_OPEN - lo))).

Definition held (V : fdtable) (fd : Z) : option (Z * bool) := if fd <? NR_OPEN then V fd else None.

Definition copy_to_lowest (V : fdtable) (f lo : Z) (b : bool) : Z * fdtable :=
  match lowest V lo with None => (- EMFILE, V) | Some n => (n, set_fd V n (Some (f, b))) end.

Definition fcntl_spec (V : fdtable) (S : Z -> Z) (fd f : Z) (b : bool) (cmd arg : Z) : Z * fdtable * (Z -> Z) :=
  if decide (cmd = F_DUPFD \/ cmd = F_DUPFD_CLOEXEC) then
    if u32 arg <? NR_OPEN then (copy_to_lowest V f (u32 arg) (bool_decide (cmd = F_DUPFD_CLOEXEC)), S) else (- EINVAL, V, S)
  else if decide (cmd = F_GETFD) then (if b then FD_CLOEXEC else 0, V, S)
  else if decide (cmd = F_SETFD) then
    if decide (arg = 0 \/ arg = FD_CLOEXEC) then (0, set_fd V fd (Some (f, bool_decide (arg = FD_CLOEXEC))), S) else (- EINVAL, V, S)
  else if decide (cmd = F_GETFL) then (S f, V, S)
  else if decide (cmd = F_SETFL) then (0, V, fun g => if decide (g = f) then Z.lor (Z.ldiff (S f) O_SETTABLE) (Z.land arg O_SETTABLE) else S g)
  else (- EINVAL, V, S).

(** [V]: the descriptors of the caller; [S]: the status flags of files. *)
Definition fd_spec (V : fdtable) (S : Z -> Z) (c : fd_call) : Z * fdtable * (Z -> Z) :=
  match c with
  | Close fd => (match held V fd with None => (- EBADF, V) | Some _ => (0, set_fd V fd None) end, S)
  | Dup fd => (match held V fd with None => (- EBADF, V) | Some (f, _) => copy_to_lowest V f 0 false end, S)
  | Dup2 o n =>
      (match held V o with
       | None => (- EBADF, V)
       | Some (f, _) => if decide (o = n) then (n, V) else if n <? NR_OPEN then (n, set_fd V n (Some (f, false))) else (- EBADF, V)
       end, S)
  | Dup3 o n flags =>
      (if decide ((flags <> 0 /\ flags <> O_CLOEXEC) \/ o = n) then (- EINVAL, V)
       else match held V o with
            | None => (- EBADF, V)
            | Some (f, _) => if n <? NR_OPEN then (n, set_fd V n (Some (f, bool_decide (flags = O_CLOEXEC)))) else (- EBADF, V)
            end, S)
  | Fcntl fd cmd arg => match held V fd with None => (- EBADF, V, S) | Some (f, b) => fcntl_spec V S fd f b cmd arg end
  end.

(** ** The calls *)

Definition fd_do (k : kernel) (c : fd_call) : option (Z * kernel) :=
  match c with
  | Close fd => ksys_close k fd
  | Dup fd => ksys_dup k fd
  | Dup2 o n => ksys_dup2 k o n
  | Dup3 o n flags => ksys_dup3 k o n flags
  | Fcntl fd cmd arg => ksys_fcntl k fd cmd arg
  end.

(** The arguments have the types of C. *)
Definition fd_typed (c : fd_call) : Prop :=
  match c with
  | Close fd | Dup fd => 0 <= fd
  | Dup2 o n => 0 <= o /\ 0 <= n
  | Dup3 o n flags => 0 <= o /\ 0 <= n /\ - 2 ^ 31 <= flags < 2 ^ 31
  | Fcntl fd cmd arg => 0 <= fd /\ 0 <= arg < 2 ^ 64
  end.

Lemma lowest_none V lo : (forall i, lo <= i < NR_OPEN -> V i <> None) -> lowest V lo = None.
Proof.
  intros Hall. unfold lowest. assert (E : filter (fun i => V i = None) (seqZ lo (NR_OPEN - lo)) = []); [|by rewrite E].
  apply elem_of_nil_inv. intros i [Hi Hin%elem_of_seqZ]%list_elem_of_filter. apply (Hall i); [lia|done].
Qed.

Lemma lowest_some V lo r : lo <= r < NR_OPEN -> V r = None -> (forall i, lo <= i < r -> V i <> None) -> lowest V lo = Some r.
Proof.
  intros Hr Hz Hall. unfold lowest. replace (NR_OPEN - lo) with ((r - lo) + (NR_OPEN - r)) by lia. rewrite seqZ_app by lia. rewrite filter_app.
  assert (E : filter (fun i => V i = None) (seqZ lo (r - lo)) = []).
  { apply elem_of_nil_inv. intros i [Hi Hin%elem_of_seqZ]%list_elem_of_filter. apply (Hall i); [lia|done]. }
  rewrite E. replace (lo + (r - lo)) with r by lia. rewrite seqZ_cons by lia. by rewrite app_nil_l, filter_cons, decide_True.
Qed.

Lemma dup3_flags flags : - 2 ^ 31 <= flags < 2 ^ 31 -> has flags (u32 (Z.lnot O_CLOEXEC)) = bool_decide (flags <> 0 /\ flags <> O_CLOEXEC).
Proof.
  intros Hf. unfold has. destruct (Z.eqb_spec (Z.land flags (u32 (Z.lnot O_CLOEXEC))) 0) as [E|E]; cbn [negb].
  2:{ symmetry. apply bool_decide_eq_true. split; intros ->; by apply E. }
  symmetry. apply bool_decide_eq_false. intros [H0 H1].
  assert (Hb : forall i, 0 <= i < 32 -> i <> 19 -> Z.testbit flags i = false).
  { intros i Hi Hne. apply (f_equal (fun z => Z.testbit z i)) in E. rewrite Z.land_spec, Z.bits_0 in E. unfold wrapu in E.
    rewrite Z.mod_pow2_bits_low, Z.lnot_spec in E by lia. change O_CLOEXEC with (2 ^ 19) in E. rewrite Z.pow2_bits_false in E by lia.
    by rewrite andb_true_r in E. }
  assert (Hpos : 0 <= flags).
  { destruct (decide (0 <= flags)) as [|Hn]; [done|exfalso]. assert (Hb31 := Hb 31 ltac:(lia) ltac:(lia)).
    rewrite Z.testbit_false in Hb31 by lia. assert (flags / 2 ^ 31 = -1) by (symmetry; apply (Z.div_unique _ _ _ (flags + 2 ^ 31)); lia).
    rewrite H in Hb31. discriminate Hb31. }
  assert (Hall : flags = if Z.testbit flags 19 then 2 ^ 19 else 0).
  { apply Z.bits_inj'. intros i Hi. destruct (decide (i = 19)) as [->|Hne].
    - by destruct (Z.testbit flags 19) eqn:E19.
    - transitivity false; [|destruct (Z.testbit flags 19); by rewrite ?Z.pow2_bits_false, ?Z.bits_0 by lia].
      destruct (decide (i < 32)); [by apply Hb|]. apply Z.bits_above_log2; [done|]. destruct (decide (flags = 0)) as [->|]; [cbn; lia|].
      apply Z.log2_lt_pow2; [lia|]. apply (Z.lt_le_trans _ (2 ^ 31)); [lia|]. apply Z.pow_le_mono_r; lia. }
  destruct (Z.testbit flags 19); [by apply H1|by apply H0].
Qed.

Lemma setfd_flags arg : 0 <= arg < 2 ^ 64 -> has arg (u64 (Z.lnot FD_CLOEXEC)) = bool_decide (~ (arg = 0 \/ arg = FD_CLOEXEC)).
Proof.
  intros Ha. assert (E : Z.land arg (u64 (Z.lnot FD_CLOEXEC)) = 2 * (arg / 2)).
  { apply Z.bits_inj'. intros i Hi. rewrite Z.land_spec, (Z.mul_comm 2). change 2 with (2 ^ 1) at 1 2. rewrite <- Z.shiftr_div_pow2, <- Z.shiftl_mul_pow2, Z.shiftl_spec by lia.
    destruct (decide (i = 0)) as [->|]; [by rewrite andb_false_r|]. rewrite Z.shiftr_spec, Z.sub_add by lia.
    destruct (decide (i < 64)).
    - unfold wrapu. rewrite Z.mod_pow2_bits_low, Z.lnot_spec by lia. change FD_CLOEXEC with (2 ^ 0). rewrite Z.pow2_bits_false by lia. apply andb_true_r.
    - rewrite (Z.bits_above_log2 arg i); [done|lia|]. destruct (decide (arg = 0)) as [->|]; [cbn; lia|].
      apply Z.log2_lt_pow2; [lia|]. apply (Z.lt_le_trans _ (2 ^ 64)); [lia|]. apply Z.pow_le_mono_r; lia. }
  unfold has. rewrite E. unfold FD_CLOEXEC. destruct (Z.eqb_spec (2 * (arg / 2)) 0) as [E0|E0]; cbn [negb].
  - symmetry. apply bool_decide_eq_false. intros Hn. apply Hn. assert (H1 := Z.div_mod arg 2). assert (H2 := Z.mod_pos_bound arg 2). lia.
  - symmetry. apply bool_decide_eq_true. intros [->| ->]; by apply E0.
Qed.

Definition status (k : kernel) (f : Z) : Z := f_flags (file_at k f).

Section Refine.
Context (G : kernel -> Prop) `{HG : FileEnds G}.

(** The call returns what the specification says and changes the table of the
    caller and the status flags accordingly, and no other table. *)
Definition refines (k : kernel) (res : option (Z * kernel)) (spec : Z * fdtable * (Z -> Z)) : Prop :=
  exists k', res = Some (spec.1.1, k') /\ steady G k' /\ (forall t, has_task k' t <-> has_task k t) /\
    (forall i, is_fd i -> desc k' (current k) i = spec.1.2 i) /\
    (forall t i, t <> current k -> is_fd i -> desc k' t i = desc k t i) /\
    forall f x, k_files k' !! f = Some x -> f_flags x = spec.2 f.

Lemma flags_status k k' f x : flags_kept k k' -> k_files k' !! f = Some x -> f_flags x = status k f.
Proof using. intros HF Hx. destruct (HF f x Hx) as (x0 & Hx0 & ->). unfold status, file_at. by rewrite Hx0. Qed.

Lemma refines_same k k' r : steady G k' -> change k k' (desc k) -> refines k (Some (r, k')) (r, desc k (current k), status k).
Proof using.
  intros HS [H1 H2 H3]. exists k'. split; [done|]. split; [done|]. split; [done|]. split; [intros i Hi; by apply H2|].
  split; [intros t i _ Hi; by apply H2|]. intros f x Hx. by apply (flags_status k k').
Qed.

Lemma refines_err k r : steady G k -> refines k (Some (r, k)) (r, desc k (current k), status k).
Proof using. intros HS. apply refines_same; [done|apply change_refl]. Qed.

Lemma refines_put k k' r fd d :
  steady G k' -> change k k' (put (desc k) (current k) fd d) -> refines k (Some (r, k')) (r, set_fd (desc k (current k)) fd d, status k).
Proof using.
  intros HS [H1 H2 H3]. exists k'. split; [done|]. split; [done|]. split; [done|]. split; [|split].
  - intros i Hi. rewrite H2 by done. unfold put, set_fd. cbn. repeat case_decide; try done; exfalso; tauto.
  - intros t i Hne Hi. rewrite H2 by done. unfold put. by rewrite decide_False by tauto.
  - intros f x Hx. by apply (flags_status k k').
Qed.

(** The guards of every call, against [held]. *)
Lemma held_cases k fd :
  steady G k -> 0 <= fd ->
  (held (desc k (current k)) fd = None /\ ((NR_OPEN <=? fd) = true \/ task_file k (current k) fd = 0)) \/
  exists f b, held (desc k (current k)) fd = Some (f, b) /\ is_fd fd /\ (NR_OPEN <=? fd) = false /\ task_file k (current k) fd = f /\ f <> 0 /\
    desc k (current k) fd = Some (f, b) /\ cloexec k (current k) fd = b /\ 0 < slots (tables k) f.
Proof using HG.
  intros HS Hfd. assert (Hc := proj2 (ends_current k (proj1 HS))). unfold held. destruct (Z.ltb_spec fd NR_OPEN) as [Hl|Hl].
  - destruct (desc k (current k) fd) as [[f b]|] eqn:E.
    + right. exists f, b. assert (Hr : is_fd fd) by done. destruct (held_file G k _ _ fd f b HS Hc Hr E) as (H1 & H2 & H3).
      apply desc_some in E as (_ & _ & H4). splits; try done. by apply Z.leb_gt.
    + left. split; [done|]. right. by apply desc_none.
  - left. split; [done|]. left. by apply Z.leb_le.
Qed.

Lemma copy_refines k f lo n b fin :
  steady G k -> f <> 0 -> 0 < slots (tables k) f -> 0 <= lo -> lo + Z.of_nat n = NR_OPEN ->
  (forall k' r, steady G k' -> is_fd r -> change k k' (put (desc k) (current k) r (Some (f, false))) ->
     exists k2, fin r k' = Some (r, k2) /\ steady G k2 /\ change k k2 (put (desc k) (current k) r (Some (f, b)))) ->
  refines k ('(r, k') ← (install_copy (fun k' => install_from n k' (current k) f lo) k f); if r <? 0 then Some (r, k') else fin r k')
    (copy_to_lowest (desc k (current k)) f lo b, status k).
Proof using HG.
  intros HS Hf Hp Hlo Hn Hfin. assert (Hc := proj2 (ends_current k (proj1 HS))). unfold copy_to_lowest.
  destruct (install_copy_spec G k (current k) f lo n HS Hc Hf Hp Hlo Hn) as (r & k' & -> & HS' & [(-> & Hch & Hall)|(Hr & Hz & Hall & Hch)]); cbn [mbind option_bind].
  - rewrite (lowest_none _ lo Hall). change (- EMFILE <? 0) with true. cbn iota. by apply refines_same.
  - rewrite (lowest_some _ lo r Hr Hz Hall). rewrite (proj2 (Z.ltb_ge r 0)) by lia. destruct (Hfin k' r HS') as (k2 & -> & HS2 & Hch2); [unfold is_fd; lia|done|].
    by apply refines_put.
Qed.

Lemma dup3_refines k o n flags f b0 b :
  steady G k -> is_fd o -> 0 <= n -> o <> n -> held (desc k (current k)) o = Some (f, b0) -> has flags (u32 (Z.lnot O_CLOEXEC)) = false ->
  has flags O_CLOEXEC = b ->
  refines k (ksys_dup3 k o n flags)
    (if n <? NR_OPEN then (n, set_fd (desc k (current k)) n (Some (f, b)), status k) else (- EBADF, desc k (current k), status k)).
Proof using HG.
  intros HS Ho Hn Hne Hh Hfl Hb. destruct (ends_current k (proj1 HS)) as [Hc0 Hc]. unfold ksys_dup3. rewrite Hfl, (proj2 (Z.eqb_neq o n) Hne), (proj2 (Z.eqb_neq _ _) Hc0).
  destruct (held_cases k o HS) as [[E _]|(f' & b' & E & _ & Hl & Ef & Hf & Hd & _)]; [by destruct Ho|congruence|]. rewrite Hh in E. injection E as <- <-. rewrite Hl.
  cbn [orb]. destruct (Z.leb_spec NR_OPEN n) as [Hnl|Hnl].
  - rewrite (proj2 (Z.ltb_ge n NR_OPEN)) by lia. by apply refines_err.
  - rewrite (proj2 (Z.ltb_lt n NR_OPEN)) by lia. rewrite Ef, (proj2 (Z.eqb_neq _ _) Hf), Hb.
    destruct (dup3_spec G k (current k) o n b f b0 HS Hc Ho) as (k' & E & HS' & Hch); [done..|]. cbv zeta in *. rewrite E. by apply refines_put.
Qed.

Lemma setfl_refines k f arg :
  steady G k -> f <> 0 -> 0 < slots (tables k) f -> 0 <= arg < 2 ^ 64 ->
  refines k (Some (0, upd_file k f (fun x => set_f_flags (Z.lor (Z.land (f_flags x) (Z.lnot O_SETTABLE)) (s32 (Z.land arg O_SETTABLE))) x)))
    (0, desc k (current k), fun g => if decide (g = f) then Z.lor (Z.ldiff (status k f) O_SETTABLE) (Z.land arg O_SETTABLE) else status k g).
Proof using HG.
  intros HS Hf Hp Ha. destruct (counted_live G k nothing f HS Hf ltac:(unfold nothing; lia)) as [x Hx].
  assert (El : s32 (Z.land arg O_SETTABLE) = Z.land arg O_SETTABLE).
  { assert (E0 : Z.land arg O_SETTABLE = Z.land arg O_SETTABLE mod 2 ^ 14) by (rewrite <- Z.land_ones, <- Z.land_assoc by lia; reflexivity).
    assert (H := Z.mod_pos_bound (Z.land arg O_SETTABLE) (2 ^ 14) ltac:(lia)). apply wraps_id; lia. }
  set (g := fun y => _). set (k' := upd_file k f g).
  assert (Hac : forall y, Z.land (f_flags (g y)) O_ACCMODE = Z.land (f_flags y) O_ACCMODE).
  { intros y. unfold g. cbn. rewrite El. rewrite Z.land_lor_distr_l, <- !Z.land_assoc. change (Z.land O_SETTABLE O_ACCMODE) with 0.
    change (Z.land (Z.lnot O_SETTABLE) O_ACCMODE) with O_ACCMODE. by rewrite Z.land_0_r, Z.lor_0_r. }
  exists k'. split; [done|]. split; [|split; [done|split; [done|split; [done|]]]].
  - destruct HS as [HGk [H1 H2 H3]]. split.
    + apply (ends_frame k); [|done]. symmetry. apply bare_file; [by eexists|]. intros y. unfold file_key. rewrite Hac. done.
    + assert (Ek : k_files k' = <[f := g x]> (k_files k)) by (unfold k', upd_file, file_at; by rewrite Hx). split; [| |done].
      * intros h Hh. change (tables k') with (tables k). rewrite <- (H1 h Hh). unfold refcount_of. rewrite Ek. destruct (decide (f = h)) as [<-|]; [by rewrite lookup_insert_eq, Hx|by rewrite lookup_insert_ne].
      * intros h y. rewrite Ek. intros [[<- <-]|[_ Hy]]%lookup_insert_Some; [exact (H2 f x Hx)|exact (H2 h y Hy)].
  - intros h y. cbn. unfold k', upd_file, status, file_at. cbn. rewrite Hx. cbn. intros [[<- <-]|[Hne Hy]]%lookup_insert_Some.
    + rewrite decide_True by done. unfold g. cbn. by rewrite El, Z.ldiff_land.
    + rewrite decide_False by congruence. by rewrite Hy.
Qed.

Lemma dupfd_refines k f arg b :
  steady G k -> f <> 0 -> 0 < slots (tables k) f ->
  refines k
    (if (s32 (u32 arg) <? 0) || (NR_OPEN <=? u32 arg) then Some (- EINVAL, k)
     else '(newfd, k') ← install_copy (fun k' => install_fd_min k' (current k) f (u32 arg)) k f;
          if newfd <? 0 then Some (newfd, k') else Some (newfd, set_cloexec b k' (current k) newfd))
    (if u32 arg <? NR_OPEN then (copy_to_lowest (desc k (current k)) f (u32 arg) b, status k) else (- EINVAL, desc k (current k), status k)).
Proof using HG.
  intros HS Hf Hp. assert (Hu : 0 <= u32 arg < 2 ^ 32) by (apply Z.mod_pos_bound; lia). destruct (ends_current k (proj1 HS)) as [_ Hc].
  destruct (Z.leb_spec NR_OPEN (u32 arg)) as [Hm|Hm].
  { rewrite orb_true_r, (proj2 (Z.ltb_ge _ _)) by lia. by apply refines_err. }
  rewrite (proj2 (Z.ltb_lt (u32 arg) _)), (wraps_id 32 (u32 arg)), (proj2 (Z.ltb_ge (u32 arg) 0)) by (unfold NR_OPEN in *; lia). cbn [orb].
  assert (Ei : install_copy (fun k' => install_fd_min k' (current k) f (u32 arg)) k f =
      install_copy (fun k' => install_from (Z.to_nat (NR_OPEN - u32 arg)) k' (current k) f (u32 arg)) k f)
    by (unfold install_copy, install_fd_min; by rewrite (proj2 (Z.leb_gt _ _) Hm)).
  rewrite Ei. apply (copy_refines k f (u32 arg) (Z.to_nat (NR_OPEN - u32 arg)) b (fun newfd k' => Some (newfd, set_cloexec b k' (current k) newfd)) HS Hf Hp); [lia|lia|].
  intros k' r HS' Hr' Hch. destruct (set_cloexec_counted G b k' _ (current k) r HS') as [HS2 Hch2]; [by apply Hch|done|].
  eexists. split; [reflexivity|]. split; [exact HS2|]. eapply change_trans; [exact Hch|exact Hch2|]. intros u i Hi.
  rewrite (ch_desc _ _ _ Hch _ r Hr'), put_at. cbn. rewrite <- (put_put (desc k) (current k) r (Some (f, false))). apply put_ext; [by apply Hch|done].
Qed.

Lemma fcntl_refines k fd cmd arg f b :
  steady G k -> 0 <= arg < 2 ^ 64 -> held (desc k (current k)) fd = Some (f, b) -> is_fd fd ->
  refines k (ksys_fcntl k fd cmd arg) (fcntl_spec (desc k (current k)) (status k) fd f b cmd arg).
Proof using HG.
  intros HS Ha Hh Hr. destruct (ends_current k (proj1 HS)) as [Hc0 Hc].
  destruct (held_cases k fd HS) as [[E _]|(f' & b' & E & _ & Hl & Ef & Hf & Hd & Hb & Hp)]; [by destruct Hr|congruence|]. rewrite Hh in E. injection E as <- <-.
  unfold ksys_fcntl, fcntl_spec. rewrite (proj2 (Z.eqb_neq _ _) Hc0), Hl, Ef, (proj2 (Z.eqb_neq _ _) Hf). cbn [orb]. cbv zeta.
  assert (Hu : 0 <= u32 arg < 2 ^ 32) by (apply Z.mod_pos_bound; lia).
  destruct (Z.eqb_spec cmd F_DUPFD) as [->|H1]; [|destruct (Z.eqb_spec cmd F_DUPFD_CLOEXEC) as [->|H2]]; cbn [orb].
  3:{ rewrite decide_False by tauto. destruct (Z.eqb_spec cmd F_GETFD) as [->|H3].
      { rewrite decide_True by done. rewrite Hb. destruct b; by apply refines_err. }
      rewrite decide_False by done. destruct (Z.eqb_spec cmd F_SETFD) as [->|H4].
      { rewrite decide_True, setfd_flags by done. destruct (decide (arg = 0 \/ arg = FD_CLOEXEC)) as [D|D].
        - rewrite bool_decide_false by tauto. replace (has arg FD_CLOEXEC) with (bool_decide (arg = FD_CLOEXEC)) by (by destruct D as [->| ->]).
          destruct (set_cloexec_counted G (bool_decide (arg = FD_CLOEXEC)) k _ (current k) fd HS Hc Hr) as [HS' Hch]. rewrite Hd in Hch. by apply refines_put.
        - rewrite bool_decide_true by tauto. by apply refines_err. }
      rewrite decide_False by done. destruct (Z.eqb_spec cmd F_GETFL) as [->|H5]; [rewrite decide_True by done; by apply refines_err|].
      rewrite decide_False by done. destruct (Z.eqb_spec cmd F_SETFL) as [->|H6]; [|rewrite decide_False by done; by apply refines_err].
      rewrite decide_True by done. by apply setfl_refines. }
  all: rewrite decide_True by tauto; by apply dupfd_refines.
Qed.

Lemma fd_do_refines k c : steady G k -> fd_typed c -> refines k (fd_do k c) (fd_spec (desc k (current k)) (status k) c).
Proof using HG.
  intros HS Hty. destruct (ends_current k (proj1 HS)) as [Hc0 Hc]. destruct c as [fd|fd|o n|o n flags|fd cmd arg]; cbn [fd_do fd_spec fd_typed] in *.
  - unfold ksys_close. rewrite (proj2 (Z.eqb_neq _ _) Hc0). destruct (close_fd_spec G k (current k) fd HS Hc Hty) as (r & k' & -> & HS' & Hcase).
    destruct (held_cases k fd HS Hty) as [[-> Hg]|(f & b & -> & Hr & _ & _ & _ & Hd & _)].
    + rewrite decide_False in Hcase; [destruct Hcase as [-> ->]; by apply refines_err|]. intros [Hl Hn]. destruct Hg as [Hg%Z.leb_le|Hg%desc_none]; [lia|done].
    + rewrite decide_True in Hcase by (split; [apply Hr|by rewrite Hd]). destruct Hcase as [-> Hch]. by apply refines_put.
  - unfold ksys_dup. rewrite (proj2 (Z.eqb_neq _ _) Hc0). destruct (held_cases k fd HS Hty) as [[-> Hg]|(f & b & -> & Hr & -> & -> & Hf & Hd & _ & Hp)]; cbn [orb].
    + destruct Hg as [->| ->]; [by apply refines_err|]. case_match; by apply refines_err.
    + rewrite (proj2 (Z.eqb_neq _ _) Hf). assert (HR := copy_refines k f 0 (Z.to_nat NR_OPEN) false (fun r k' => Some (r, k')) HS Hf Hp).
      unfold install_fd. destruct (install_copy _ k f) as [[r k']|]; cbn [mbind option_bind] in HR; [|apply HR; [done|done|]; eauto].
      assert (E : (if r <? 0 then Some (r, k') else Some (r, k')) = Some (r, k')) by (by case_match). rewrite E in HR. apply HR; [done|done|]. eauto.
  - unfold ksys_dup2. rewrite (proj2 (Z.eqb_neq _ _) Hc0). destruct (held_cases k o HS (proj1 Hty)) as [[Eh Hg]|(f & b & Eh & Hr & Hl & Ef & Hf & Hd & _ & Hp)]; rewrite Eh.
    + destruct (Z.eqb_spec o n) as [<-|Hne].
      * cbn [orb]. destruct Hg as [->| ->]; [by apply refines_err|]. rewrite orb_true_r. by apply refines_err.
      * unfold ksys_dup3. rewrite (proj2 (Z.eqb_neq _ _) Hc0), (proj2 (Z.eqb_neq _ _) Hne). change (has 0 _) with false. cbn [orb].
        destruct Hg as [->| ->]; [by apply refines_err|]. destruct (_ || _); by apply refines_err.
    + destruct (Z.eqb_spec o n) as [<-|Hne].
      * rewrite decide_True, Hl, Ef, (proj2 (Z.eqb_neq _ _) Hf) by done. by apply refines_err.
      * rewrite decide_False by done. assert (HR := dup3_refines k o n 0 f b false HS Hr (proj2 Hty) Hne Eh eq_refl eq_refl). by destruct (n <? NR_OPEN).
  - destruct Hty as (Ho & Hn & Hfl). assert (E3 := dup3_flags flags Hfl). destruct (decide (_ \/ o = n)) as [D|D].
    + unfold ksys_dup3. rewrite E3. destruct D as [D| ->]; [rewrite bool_decide_true by done; by apply refines_err|]. rewrite Z.eqb_refl. case_match; by apply refines_err.
    + assert (Hne : o <> n) by tauto. rewrite bool_decide_false in E3 by tauto.
      destruct (held_cases k o HS Ho) as [[Eh Hg]|(f & b & Eh & Hr & Hl & Ef & Hf & Hd & _ & Hp)]; rewrite Eh.
      * unfold ksys_dup3. rewrite E3, (proj2 (Z.eqb_neq _ _) Hc0), (proj2 (Z.eqb_neq _ _) Hne). cbn [orb].
        destruct Hg as [->| ->]; [by apply refines_err|]. destruct (_ || _); by apply refines_err.
      * assert (Hb : has flags O_CLOEXEC = bool_decide (flags = O_CLOEXEC)).
        { destruct (decide (flags = O_CLOEXEC)) as [->|]; [done|]. assert (flags = 0) as -> by (destruct (decide (flags = 0)); [done|tauto]). done. }
        assert (HR := dup3_refines k o n flags f b _ HS Hr Hn Hne Eh E3 Hb). by destruct (n <? NR_OPEN).
  - destruct Hty as [Hfd Ha]. destruct (held_cases k fd HS Hfd) as [[Eh Hg]|(f & b & Eh & Hr & _)]; rewrite Eh.
    + unfold ksys_fcntl. rewrite (proj2 (Z.eqb_neq _ _) Hc0). cbn [orb]. destruct Hg as [->| ->]; [by apply refines_err|]. case_match; by apply refines_err.
    + by apply fcntl_refines.
Qed.
End Refine.

(** ** All operations on descriptors *)

Inductive fd_op :=
  | Call (c : fd_call)
  | Pipe2 (fildes flags : Z)
  | ForkFiles (child parent : Z)
  | ExecFiles (t : Z)
  | ExitFiles (t : Z).

Definition op_do (k : kernel) (op : fd_op) : option kernel :=
  match op with
  | Call c => snd <$> fd_do k c
  | Pipe2 fildes flags => snd <$> ksys_pipe2 k fildes flags
  | ForkFiles child parent => Some (copy_task_files k child parent)
  | ExecFiles t => close_on_exec_fds k t
  | ExitFiles t => exit_files k t
  end.

(** The table that a fork fills is new. *)
Definition op_ok (k : kernel) (op : fd_op) : Prop :=
  match op with
  | Call c => fd_typed c
  | Pipe2 _ _ => True
  | ForkFiles child parent => child <> parent /\ has_task k child /\ has_task k parent /\ forall i, is_fd i -> desc k child i = None
  | ExecFiles t => t <> 0 /\ has_task k t
  | ExitFiles t => has_task k t
  end.

Inductive fd_run : kernel -> list fd_op -> kernel -> Prop :=
  | run_nil k : fd_run k [] k
  | run_cons k op k1 ops k2 : op_ok k op -> op_do k op = Some k1 -> fd_run k1 ops k2 -> fd_run k (op :: ops) k2.

(** What holds between calls: a slot never holds a file that was freed, a file
    has as many references as there are slots that hold it, and none but the
    console is kept without one; an inode is counted once for each file that
    has it open, an end of a pipe once for each file that is one; and a pipe
    without ends is gone. *)
Record consistent (k : kernel) : Prop := {
  co_slot : forall t fd, has_task k t -> is_fd fd -> task_file k t fd <> 0 -> is_Some (k_files k !! task_file k t fd);
  co_count : forall f x, k_files k !! f = Some x -> f_refcount x = slots (tables k) f;
  co_used : forall f x, k_files k !! f = Some x -> f = uart_file \/ exists t fd, has_task k t /\ is_fd fd /\ task_file k t fd = f;
  co_inode : forall i, i <> 0 -> is_Some (k_inodes k !! i) -> i_count (inode_at k i) = opens (k_files k) i;
  co_pipe : forall p y, k_pipes k !! p = Some y ->
    p_readers y = ends true (k_files k) p /\ p_writers y = ends false (k_files k) p /\ 0 < p_readers y + p_writers y
}.

Lemma slots_found M f : 0 < slots M f -> exists t m fd, M !! t = Some m /\ is_fd fd /\ m.[fd] = f.
Proof.
  unfold slots. intros Hp. destruct (decide (map_Forall (fun _ m => fds m f = 0) M)) as [Hall|Hn].
  - rewrite msum_zero in Hp; [lia|]. intros t m Hm. exact (Hall t m Hm).
  - apply map_not_Forall in Hn as (t & m & Hm & Hf); [|apply _]. exists t, m. unfold fds in Hf.
    destruct (filter (fun fd => m.[fd] = f) (seqZ 0 NR_OPEN)) as [|fd l] eqn:E; [done|]. exists fd.
    assert (Hin : fd ∈ filter (fun fd => m.[fd] = f) (seqZ 0 NR_OPEN)) by (rewrite E; left). apply list_elem_of_filter in Hin as [E1 Hin%elem_of_seqZ].
    split; [done|]. split; [unfold is_fd; lia|done].
Qed.

Section All.
Context {heap : slub -> gmap Z Z -> Prop} `{HH : !HeapSpec heap} (O : gset Z).
Abbreviation G := (files_ok (heap := heap) O).

Lemma steady_consistent k : steady G k -> consistent k.
Proof using.
  intros HS. assert (HS' := HS). destruct HS' as [(H & D & I & Q & T & L & HI) HT]. split.
  - intros t fd Ht Hfd Hf. apply (counted_live G k nothing); [done|done|]. assert (Hp := slot_live k t fd Ht Hfd Hf). unfold nothing. lia.
  - intros f x Hx. rewrite (counted_count G k nothing f x HS Hx). unfold nothing. lia.
  - intros f x Hx. destruct (ti_live _ _ HT f x Hx) as [Hf [->|Hr]]; [by left|right]. rewrite (counted_count G k nothing f x HS Hx) in Hr.
    destruct (slots_found (tables k) f) as (t & m & fd & Hm & Hfd & E); [unfold nothing in Hr; lia|]. exists t, fd.
    assert (Ht : has_task k t). { unfold tables in Hm. rewrite lookup_fmap in Hm. unfold has_task. destruct (tasks (k_s k) !! t); [by eexists|discriminate Hm]. }
    split; [done|]. split; [done|]. rewrite (task_table k t Ht) in Hm. injection Hm as <-. exact E.
  - exact (oi_count HI).
  - intros p y Hy. destruct (oi_pipe HI p y Hy) as (_ & _ & ?). done.
Qed.

Lemma op_steady k op : steady G k -> op_ok k op -> exists k', op_do k op = Some k' /\ steady G k' /\ forall t, has_task k' t <-> has_task k t.
Proof using HH.
  intros HS Hok. destruct op as [c|fildes flags|child parent|t|t]; cbn [op_do op_ok] in *.
  - destruct (fd_do_refines G k c HS Hok) as (k' & -> & HS' & Ht & _). by exists k'.
  - destruct (pipe2_any O k fildes flags HS) as (r & k' & -> & HS' & Ht). by exists k'.
  - destruct Hok as (Hne & Hc & Hp & Hz). destruct (copy_files_spec G k child parent HS Hne Hc Hp Hz) as [HS' Hch]. eexists. split; [done|]. split; [done|]. apply Hch.
  - destruct Hok as [H0 Ht]. destruct (close_on_exec_spec G k t HS Ht H0) as (k' & -> & HS' & Hch). exists k'. split; [done|]. split; [done|]. apply Hch.
  - destruct (exit_files_spec G k t HS Hok) as (k' & -> & HS' & Hch). exists k'. split; [done|]. split; [done|]. apply Hch.
Qed.

Lemma run_steady k ops k' : fd_run k ops k' -> steady G k -> steady G k'.
Proof using HH. induction 1 as [|k op k1 ops k2 Hok E _ IH]; intros HS; [done|]. destruct (op_steady k op HS Hok) as (k3 & E3 & HS3 & _). rewrite E in E3. injection E3 as ->. by apply IH. Qed.

(** C6: [close], [dup], [dup2], [dup3] and [fcntl] return what the
    specification [fd_spec] returns and change the descriptors of the caller and
    the status flags of files as it says, on every branch; no other task sees a
    difference in its descriptors, and every file, inode and pipe is still
    counted. *)
Theorem descriptor_calls_refine k c :
  steady G k -> fd_typed c -> refines G k (fd_do k c) (fd_spec (desc k (current k)) (status k) c).
Proof using HH. exact (fd_do_refines G k c). Qed.

(** C3: after any sequence of calls on descriptors, of forks, execs and exits,
    no descriptor holds a file that was freed, no file but the console is kept
    that no descriptor holds, and references, open inodes and ends of pipes
    are counted exactly; and the next such operation returns. *)
Theorem descriptors_counted k ops k' :
  steady G k -> fd_run k ops k' -> consistent k' /\ forall op, op_ok k' op -> exists k2, op_do k' op = Some k2.
Proof using HH.
  intros HS HR. assert (HS' := run_steady k ops k' HR HS). split; [by apply steady_consistent|]. intros op Hok.
  destruct (op_steady k' op HS' Hok) as (k2 & E & _). by exists k2.
Qed.

(** The tasks exit one after the other. *)
Fixpoint exit_all (k : kernel) (ts : list Z) : option kernel :=
  match ts with [] => Some k | t :: ts' => k ← exit_files k t; exit_all k ts' end.

Lemma exit_all_spec ts : forall k,
  steady G k -> (forall t, t ∈ ts -> has_task k t) ->
  exists k', exit_all k ts = Some k' /\ steady G k' /\ (forall t, has_task k' t <-> has_task k t) /\
    forall t i, is_fd i -> desc k' t i = if decide (t ∈ ts) then None else desc k t i.
Proof using HH.
  induction ts as [|t ts IH]; intros k HS Hts; cbn [exit_all].
  - exists k. split; [done|]. split; [done|]. split; [done|]. intros t i _. rewrite decide_False; [done|apply not_elem_of_nil].
  - destruct (exit_files_spec G k t HS) as (k1 & -> & HS1 & Hc1); [apply Hts; left|]. cbn [mbind option_bind].
    destruct (IH k1 HS1) as (k' & -> & HS' & Ht' & Hd'); [intros u Hu; apply Hc1, Hts; by right|].
    exists k'. split; [done|]. split; [done|]. split; [intros u; rewrite Ht'; apply Hc1|]. intros u i Hi. rewrite Hd', (ch_desc _ _ _ Hc1) by done.
    destruct (decide (u ∈ ts)) as [Hin|Hn]; [rewrite decide_True; [done|by right]|]. destruct (decide (u = t)) as [->|Hne]; [rewrite decide_True; [done|left]|].
    rewrite decide_False; [done|]. by intros [?|?]%elem_of_cons.
Qed.

Lemma no_slot_no_file k : steady G k -> (forall t i, has_task k t -> is_fd i -> desc k t i = None) ->
  (forall f, is_Some (k_files k !! f) -> f = uart_file) /\ k_pipes k = ∅.
Proof using.
  intros HS Hn. destruct (steady_consistent k HS) as [_ _ Hu _ Hp]. assert (Hf : forall f, is_Some (k_files k !! f) -> f = uart_file).
  { intros f [x Hx]. destruct (Hu f x Hx) as [?|(t & fd & Ht & Hfd & E)]; [done|]. assert (Hz := proj1 (desc_none k t fd) (Hn t fd Ht Hfd)). rewrite E in Hz.
    destruct HS as [_ HT]. destruct (ti_live _ _ HT f x Hx) as [? _]. done. }
  split; [exact Hf|]. apply map_empty. intros p. apply eq_None_not_Some. intros [y Hy]. destruct (Hp p y Hy) as (Er & Ew & Hpos).
  destruct HS as [(H & D & I & Q & T & L & HI) _].
  assert (Hz : forall b, ends b (k_files k) p = 0).
  { intros b. unfold ends. apply msum_zero. intros f x Hx. apply not_end. assert (f = uart_file) as -> by (apply Hf; by eexists). by apply (oi_uart HI). }
  rewrite Er, Ew, !Hz in Hpos. lia.
Qed.

(** C8: when every task has exited, no file is left but the console and no pipe
    at all, and the heap holds nothing but the blocks of the file system and
    those of other parts. *)
Theorem exits_release_files k ts :
  steady G k -> (forall t, t ∈ ts <-> has_task k t) ->
  exists k', exit_all k ts = Some k' /\ (forall f, is_Some (k_files k' !! f) -> f = uart_file) /\ k_pipes k' = ∅ /\
    exists H D I, heap (k_k k') H /\ fs_inv k' H D I /\ forall x, is_Some (H !! x) -> x <> uart_file -> x ∈ O \/ fs_block k' D I x.
Proof using HH.
  intros HS Hts. destruct (exit_all_spec ts k HS) as (k' & E & HS' & Ht & Hd); [intros t; by apply Hts|].
  assert (Hnone : forall t i, has_task k' t -> is_fd i -> desc k' t i = None).
  { intros t i Hk' Hi. rewrite Hd, decide_True by (done || by apply Hts, Ht). done. }
  destruct (no_slot_no_file k' HS' Hnone) as [Hf Hp]. exists k'. split; [exact E|]. split; [exact Hf|]. split; [exact Hp|].
  destruct HS' as [(H & D & I & Q & T & L & HI) _]. exists H, D, I. split; [apply (oi_heap HI)|]. split; [apply (oi_fs HI)|]. intros x Hx Hne.
  destruct (oi_all HI x Hx) as [?|[?|[[y Hy]|?]]]; [by left|by destruct Hne; apply Hf| |by right]. rewrite Hp in Hy. discriminate Hy.
Qed.
End All.

(** ** Examples *)

(** The root file system and two tasks, the first of them of a user. *)
Definition user_tasks : sched := set_tasks (<[100 := set_t_is_user 1 (task_at running 100)]> (tasks running)) running.
Definition user_kernel : kernel := set_k_w (mkWaits user_tasks ∅ ∅ ∅) root_kernel.

Lemma no_fds f : f <> 0 -> fds ∅ f = 0.
Proof. intros Hf. unfold fds. assert (E : filter (fun fd => (∅ : gmap Z Z).[fd] = f) (seqZ 0 NR_OPEN) = []); [|by rewrite E]. apply elem_of_nil_inv. intros i [E _]%list_elem_of_filter. by apply Hf. Qed.

Lemma sched_inv_user s t Q T :
  sched_inv s Q T -> is_Some (tasks s !! t) -> sched_inv (set_tasks (<[t := set_t_is_user 1 (task_at s t)]> (tasks s)) s) Q T.
Proof.
  intros HI [x Hx]. apply (sched_inv_same s); [reflexivity..| |exact HI]. intros u. cbn [tasks set_tasks].
  destruct (decide (t = u)) as [<-|Hne]; [|by rewrite lookup_insert_ne]. rewrite lookup_insert_eq. unfold task_at. by rewrite Hx.
Qed.

Lemma user_tasks_inv : exists Q T, sched_inv user_tasks Q T.
Proof.
  destruct running_inv as (Q & T & HI & _). exists Q, T. apply (sched_inv_user running 100 Q T HI).
  apply (bool_decide_eq_true_1 (is_Some (tasks running !! 100))). vm_compute. reflexivity.
Qed.

Lemma user_sched : exists Q T, waits_inv (mkWaits user_tasks ∅ ∅ ∅) Q T (fun _ => []).
Proof.
  destruct user_tasks_inv as (Q & T & HI). exists Q, T. split.
  - exact HI.
  - intros q. reflexivity.
  - intros q q' x Hx. destruct (not_elem_of_nil _ Hx).
  - intros q x Hx. destruct (not_elem_of_nil _ Hx).
Qed.

(** No files are open yet. *)
Lemma steady_fresh k w D Q T :
  waits_inv w Q T (fun _ => []) -> slub_heap ∅ (k_k k) ∅ -> fs_inv k ∅ D ∅ -> k_files k = ∅ -> k_pipes k = ∅ ->
  (forall i, is_Some (k_inodes k !! i) -> i_count (inode_at k i) = 0) -> map_Forall (fun _ x => t_files x = ∅) (tasks (w_s w)) ->
  NR_OPEN * Z.of_nat (size (tasks (w_s w))) + 1 < 2 ^ 31 -> steady (files_ok (heap := slub_heap ∅) ∅) (set_k_w w k).
Proof.
  intros Hw Hh Hfs Ef Ep Hi Ht Hsz. split.
  - exists ∅, D, ∅, Q, T, (fun _ => []). split; cbn [k_files k_pipes k_w k_k set_k_w]; rewrite ?Ef, ?Ep; try done.
    + eapply fs_inv_frame; [exact Hfs|done..].
    + intros i _ His. exact (Hi i His).
    + intros x [s Hx]. discriminate Hx.
  - split.
    + intros f Hf. unfold refcount_of, nothing. cbn. rewrite Ef, Z.add_0_r. symmetry. unfold slots. apply msum_zero. intros t m Hm. unfold tables in Hm. rewrite lookup_fmap in Hm.
      change (k_s (set_k_w w k)) with (w_s w) in Hm. destruct (tasks (w_s w) !! t) as [x|] eqn:Ex; [|discriminate Hm]. injection Hm as <-. rewrite (Ht t x Ex). by apply no_fds.
    + intros f x. cbn. rewrite Ef. discriminate.
    + unfold tables. rewrite map_size_fmap. exact Hsz.
Qed.

Lemma root_uncounted i : is_Some (k_inodes root_kernel !! i) -> i_count (inode_at root_kernel i) = 0.
Proof.
  intros His. destruct (decide (root_inode = i)) as [<-|Hne]; [vm_compute; reflexivity|].
  unfold root_kernel, ramfs_init in His. cbn in His. rewrite lookup_insert_ne in His by done. by destruct His.
Qed.

Lemma user_steady : steady (files_ok (heap := slub_heap ∅) ∅) user_kernel.
Proof.
  destruct user_sched as (Q & T & Hw). apply (steady_fresh root_kernel _ _ Q T Hw root_heap root_inv).
  - reflexivity.
  - reflexivity.
  - exact root_uncounted.
  - cbn [w_s]. apply (bool_decide_eq_true_1 (map_Forall (fun _ x => t_files x = ∅) (tasks user_tasks))). vm_compute. reflexivity.
  - cbn [w_s]. vm_compute. reflexivity.
Qed.

Lemma user_piped : exists k fd0 fd1 p r w, ksys_pipe2 user_kernel 4096 0 = Some (0, k) /\ steady (files_ok (heap := slub_heap ∅) ∅) k /\
  piped user_kernel k 4096 0 fd0 fd1 p r w /\ forall t, has_task k t <-> has_task user_kernel t.
Proof.
  assert (W : fst <$> ksys_pipe2 user_kernel 4096 0 = Some 0) by (vm_compute; reflexivity).
  destruct (pipe2_spec ∅ user_kernel 4096 0 user_steady) as (r & k & E & HS & [[Hr _]|(-> & fd0 & fd1 & p & rf & wf & HP)] & Ht).
  - vm_compute. discriminate.
  - discriminate.
  - reflexivity.
  - rewrite E in W. injection W as ->. destruct Hr as [Hr|Hr]; discriminate Hr.
  - exists k, fd0, fd1, p, rf, wf. exact (conj E (conj HS (conj HP Ht))).
Qed.

Lemma descriptor_calls_refine_witness :
  exists k, (exists fd0 fd1 p r w, piped user_kernel k 4096 0 fd0 fd1 p r w) /\
    refines (files_ok (heap := slub_heap ∅) ∅) k (ksys_dup3 k 0 5 O_CLOEXEC) (fd_spec (desc k (current k)) (status k) (Dup3 0 5 O_CLOEXEC)).
Proof.
  destruct user_piped as (k & fd0 & fd1 & p & r & w & _ & HS & HP & _). exists k. split; [exists fd0, fd1, p, r, w; exact HP|].
  assert (Hty : fd_typed (Dup3 0 5 O_CLOEXEC)) by (vm_compute; repeat split; discriminate).
  exact (descriptor_calls_refine ∅ k (Dup3 0 5 O_CLOEXEC) HS Hty).
Defined.

Lemma pipe2_correct_witness : exists k fd0 fd1 p r w, ksys_pipe2 user_kernel 4096 0 = Some (0, k) /\ piped user_kernel k 4096 0 fd0 fd1 p r w.
Proof.
  assert (W : fst <$> ksys_pipe2 user_kernel 4096 0 = Some 0) by (vm_compute; reflexivity).
  assert (Hu : t_is_user (task_at (k_s user_kernel) (current user_kernel)) <> 0) by (vm_compute; discriminate).
  destruct (pipe2_correct ∅ user_kernel 4096 0 user_steady Hu ltac:(discriminate) eq_refl) as (r & k & E & _ & [[Hr _]|(-> & fd0 & fd1 & p & rf & wf & HP)]).
  - rewrite E in W. injection W as ->. destruct Hr as [Hr|Hr]; discriminate Hr.
  - exists k, fd0, fd1, p, rf, wf. exact (conj E HP).
Defined.

Lemma descriptors_counted_witness : exists k, fd_run user_kernel [Pipe2 4096 0; Call (Dup 0); Call (Close 0); Call (Close 1)] k /\ consistent k.
Proof.
  destruct (op_steady ∅ user_kernel (Pipe2 4096 0) user_steady) as (k1 & E1 & H1 & _); [exact Logic.I|].
  destruct (op_steady ∅ k1 (Call (Dup 0)) H1) as (k2 & E2 & H2 & _); [exact (Z.le_refl 0)|].
  destruct (op_steady ∅ k2 (Call (Close 0)) H2) as (k3 & E3 & H3 & _); [exact (Z.le_refl 0)|].
  destruct (op_steady ∅ k3 (Call (Close 1)) H3) as (k4 & E4 & H4 & _); [exact Z.le_0_1|].
  assert (HR : fd_run user_kernel [Pipe2 4096 0; Call (Dup 0); Call (Close 0); Call (Close 1)] k4).
  { apply (run_cons _ _ k1); [exact Logic.I|exact E1|]. apply (run_cons _ _ k2); [exact (Z.le_refl 0)|exact E2|].
    apply (run_cons _ _ k3); [exact (Z.le_refl 0)|exact E3|]. apply (run_cons _ _ k4); [exact Z.le_0_1|exact E4|]. apply run_nil. }
  exists k4. split; [exact HR|]. exact (proj1 (descriptors_counted ∅ user_kernel _ k4 user_steady HR)).
Defined.

Lemma exits_release_files_witness :
  exists k k', (exists fd0 fd1 p r w, piped user_kernel k 4096 0 fd0 fd1 p r w) /\ exit_all k (elements (dom (tasks (k_s k)))) = Some k' /\ k_pipes k' = ∅.
Proof.
  destruct user_piped as (k & fd0 & fd1 & p & r & w & _ & HS & HP & _).
  assert (Hts : forall t, t ∈ elements (dom (tasks (k_s k))) <-> has_task k t) by (intros t; rewrite elem_of_elements; apply elem_of_dom).
  destruct (exits_release_files ∅ k _ HS Hts) as (k' & E & _ & Hp & _). exists k, k'.
  exact (conj (ex_intro _ fd0 (ex_intro _ fd1 (ex_intro _ p (ex_intro _ r (ex_intro _ w HP))))) (conj E Hp)).
Defined.
