(* ===== verification/Tty.v ===== *)
(** * The console terminal ([drivers/tty/tty.c], [drivers/tty/serial.c])

    Characters arrive from the UART in [tty_receive_char] and wait in a ring of
    256 bytes for [tty_read]; in canonical mode a read gives one line.  The
    specification is a queue of bytes ([tty_rep]).  Job control: which group
    receives the signals of the keyboard, and who may change it. *)
From S2P Require Import Prelude Errno PageAlloc Slub ListHead Task Sched Signal Kill Wait Kernel Pipe Path Ramfs FileTable FileData PipeCreate.

Definition TTY_RX_SIZE : Z := 256.

(** The requests of [ioctl], the bits of the flag words and the signals of the
    keyboard. *)
Abbreviation TCGETS := 0x5401 (only parsing).
Abbreviation TCSETS := 0x5402 (only parsing).
Abbreviation TIOCGPGRP := 0x540F (only parsing).
Abbreviation TIOCSPGRP := 0x5410 (only parsing).
Abbreviation TIOCSCTTY := 0x540E (only parsing).
Abbreviation TIOCGSID := 0x5429 (only parsing).
Abbreviation TIOCNOTTY := 0x5422 (only parsing).
Abbreviation TIOCGWINSZ := 0x5413 (only parsing).
Abbreviation ICRNL := 0x0400 (only parsing).
Abbreviation OPOST := 0x0001 (only parsing).
Abbreviation ONLCR := 0x0004 (only parsing).
Abbreviation CS8 := 0x0030 (only parsing).
Abbreviation CREAD := 0x0800 (only parsing).
Abbreviation HUPCL := 0x0400 (only parsing).
Abbreviation ISIG := 0x0001 (only parsing).
Abbreviation ICANON := 0x0002 (only parsing).
Abbreviation ECHO := 0x0008 (only parsing).
Abbreviation ECHOE := 0x0010 (only parsing).
Abbreviation ECHOK := 0x0020 (only parsing).
Abbreviation IEXTEN := 0x8000 (only parsing).
Abbreviation SIGINT := 2 (only parsing).

(** [tty0.read_wait], a static object. *)
Definition tty_read_wait : Z := 32.

Definition upd_tty (k : kernel) (f : tty -> tty) : kernel := set_k_tty (f (k_tty k)) k.

(** ** The ring *)

Definition tty_rx_next (i : Z) : Z := let i := u32 (i + 1) in if i =? TTY_RX_SIZE then 0 else i.

Definition tty_rx_count_locked (t : tty) : Z :=
  if rx_tail t <=? rx_head t then rx_head t - rx_tail t else u32 (TTY_RX_SIZE - rx_tail t + rx_head t).

Fixpoint line_loop (fuel : nat) (t : tty) (i n : Z) : option Z :=
  match fuel with
  | O => None
  | S fuel' =>
      if i =? rx_head t then Some 0
      else
        let n := u32 (n + 1) in
        if (rx_buf t).[i] =? 10 then Some n else line_loop fuel' t (tty_rx_next i) n
  end.

Definition tty_rx_line_length_locked (t : tty) : option Z := line_loop (S (Z.to_nat TTY_RX_SIZE)) t (rx_tail t) 0.

Definition tty_read_ready_locked (t : tty) : option bool :=
  if tty_canonical t then n ← tty_rx_line_length_locked t; Some (0 <? n)
  else Some (0 <? tty_rx_count_locked t).

(** [tty_wake_reader] *)
Definition tty_wake_reader (k : kernel) : option kernel := k_wake_up k tty_read_wait.

(** ** The UART *)

Definition serial_putc (k : kernel) (c : Z) : kernel :=
  set_k_uart (k_uart k ++ (if c =? 10 then [13; 10] else [c])) k.

Definition serial_write_n (k : kernel) (buf : list Z) : kernel := foldl serial_putc k buf.

(** ** Input *)

Definition tty_receive_char (k : kernel) (c : Z) : option kernel :=
  let c := if c =? 13 then 10 else c in
  let t := k_tty k in
  if c =? 0x03 then
    if tty_isig t && negb (foreground_pgid t =? 0)
    then '(_, s) ← ksys_kill (k_s k) (- foreground_pgid t) SIGINT; Some (set_k_s s k)
    else Some k
  else if c =? 0x1a then
    if tty_isig t && negb (foreground_pgid t =? 0)
    then '(_, s) ← ksys_kill (k_s k) (- foreground_pgid t) SIGTSTP; Some (set_k_s s k)
    else Some k
  else
    let next := tty_rx_next (rx_head t) in
    let t :=
      if next =? rx_tail t then t else set_rx_head next (set_rx_buf (<[rx_head t := c]> (rx_buf t)) t) in
    let k := set_k_tty t k in
    let k := if tty_echo t then serial_putc k c else k in
    tty_wake_reader k.

(** [serial_irq]: the characters that the UART has received. *)
Fixpoint serial_irq (k : kernel) (fifo : list Z) : option kernel :=
  match fifo with
  | [] => Some k
  | d :: fifo => k ← tty_receive_char k (Z.land d 0xff); serial_irq k fifo
  end.

Fixpoint tty_copy (n : nat) (t : tty) : list Z * tty :=
  match n with
  | O => ([], t)
  | S n' =>
      let c := (rx_buf t).[rx_tail t] in
      let '(l, t) := tty_copy n' (set_rx_tail (tty_rx_next (rx_tail t)) t) in
      (c :: l, t)
  end.

(** [tty_read] after the wait. *)
Definition tty_read_ring (k : kernel) (count : Z) : option (Z * list Z * kernel) :=
  let t := k_tty k in
  ready ← tty_read_ready_locked t;
  if negb ready then Some (0, [], k)
  else
    n ← (if tty_canonical t then tty_rx_line_length_locked t else Some (tty_rx_count_locked t));
    let n := if count <? n then count else n in
    let '(bs, t) := tty_copy (Z.to_nat n) t in
    Some (n, bs, set_k_tty t k).

(** A turn of [tty_read], with its wait entry at [e]: the result and the bytes
    stored to the buffer, or asleep in [wait_event_interruptible]. *)
Definition tty_read (k : kernel) (buf count e : Z) : option (turn (list Z * kernel)) :=
  if buf =? 0 then Some (Return (- EFAULT) ([], k))
  else if count =? 0 then Some (Return 0 ([], k))
  else
    ready ← tty_read_ready_locked (k_tty k);
    r ← wait_event_interruptible_turn (declare_waitqueue (k_w k) e (current k)) tty_read_wait e ready;
    match r with
    | Asleep w => Some (Asleep ([], set_k_w w k))
    | Return wret w =>
        let k := set_k_w w k in
        if negb (wret =? 0) then Some (Return wret ([], k))
        else '(n, bs, k) ← tty_read_ring k count; Some (Return n (bs, k))
    end.

Definition tty_write (k : kernel) (null : bool) (buf : list Z) : Z * kernel :=
  if null then (- EFAULT, k) else (Z.of_nat (length buf), serial_write_n k buf).

(** ** Sessions and groups *)

Definition tty_getpgrp (k : kernel) : Z := foreground_pgid (k_tty k).

(** The loop of [tty_setpgrp] over the tasks. *)
Fixpoint pgrp_loop (fuel : nat) (s : sched) (pos : node) (pgid session : Z) (found : bool) : option Z :=
  match fuel with
  | O => None
  | S fuel' =>
      if bool_decide (pos = NAll) then Some (if found then 0 else - ESRCH)
      else
        let t := task_at s (task_entry pos) in
        if (t_is_user t =? 0) || bool_decide (t_state t = TASK_ZOMBIE) || bool_decide (t_state t = TASK_DEAD)
        then pgrp_loop fuel' s (nx (nodes s) pos) pgid session found
        else if negb (t_pgid t =? pgid) then pgrp_loop fuel' s (nx (nodes s) pos) pgid session found
        else if negb (session =? 0) && negb (t_sid t =? session) then Some (- EPERM)
        else pgrp_loop fuel' s (nx (nodes s) pos) pgid session true
  end.

Definition tty_setpgrp (k : kernel) (pgid : Z) : option (Z * kernel) :=
  if pgid <=? 0 then Some (- EINVAL, k)
  else if current k =? 0 then Some (- ENOTTY, k)
  else
    let session := session_id (k_tty k) in
    if negb (session =? 0) && negb (t_sid (current_task k) =? session) then Some (- ENOTTY, k)
    else
      r ← pgrp_loop (walk_fuel (k_s k)) (k_s k) (first_task (k_s k)) pgid session false;
      if r =? 0 then Some (0, upd_tty k (set_foreground_pgid pgid)) else Some (r, k).

Definition tty_sets_controlling (k : kernel) : Z * kernel :=
  let task := current_task k in
  if (current k =? 0) || (t_is_user task =? 0) then (- ENOTTY, k)
  else if negb (t_sid task =? t_pid task) then (- ENOTTY, k)
  else (0, upd_tty k (fun t => set_foreground_pgid (t_pgid task) (set_session_id (t_sid task) t))).

Definition tty_release_controlling (k : kernel) : Z * kernel :=
  let task := current_task k in
  if (current k =? 0) || (t_is_user task =? 0) then (- ENOTTY, k)
  else if negb (session_id (k_tty k) =? t_sid task) then (- ENOTTY, k)
  else (0, upd_tty k (fun t => set_foreground_pgid 0 (set_session_id 0 t))).

Definition tty_attach_session (k : kernel) (sid pgid : Z) : kernel :=
  upd_tty k (fun t => set_foreground_pgid pgid (set_session_id sid t)).

(** ** Modes *)

Definition tty_apply_termios (k : kernel) (t : termios) : option kernel :=
  let k := upd_tty k (fun x =>
    set_tty_isig (has (c_lflag t) ISIG) (set_tty_echo (has (c_lflag t) ECHO)
      (set_tty_canonical (has (c_lflag t) ICANON) (set_tty_termios t x)))) in
  tty_wake_reader k.

Definition tty_default_termios : termios :=
  mkTermios ICRNL (Z.lor OPOST ONLCR) (Z.lor (Z.lor CS8 CREAD) HUPCL)
    (Z.lor (Z.lor (Z.lor (Z.lor (Z.lor ISIG ICANON) ECHO) ECHOE) ECHOK) IEXTEN)
    (replicate 4 0 ++ <[6%nat := 1]> (<[4%nat := 4]> (replicate 32 0)) ++ replicate 8 0).

(** [struct user_termios] in memory, 60 bytes. *)
Definition termios_bytes (t : termios) : list Z :=
  le_bytes 4 (c_iflag t) ++ le_bytes 4 (c_oflag t) ++ le_bytes 4 (c_cflag t) ++ le_bytes 4 (c_lflag t) ++ c_rest t.

Fixpoint le_word (l : list Z) : Z := match l with [] => 0 | b :: l => b + 256 * le_word l end.

Definition termios_of (l : list Z) : termios :=
  mkTermios (le_word (take 4 l)) (le_word (take 4 (drop 4 l))) (le_word (take 4 (drop 8 l))) (le_word (take 4 (drop 12 l))) (drop 16 l).

(** [ioctl] on the terminal; [copy_from_user] and [copy_to_user] never fail. *)
Definition tty_file_ioctl (k : kernel) (cmd arg : Z) : option (Z * kernel) :=
  if cmd =? TCGETS then
    if arg =? 0 then Some (- EFAULT, k)
    else
      let '(err, k) := copy_to_user k arg (termios_bytes (tty_termios (k_tty k))) in
      Some (if negb (err =? 0) then - EFAULT else 0, k)
  else if cmd =? TCSETS then
    if arg =? 0 then Some (- EFAULT, k)
    else k ← tty_apply_termios k (termios_of (get_bytes (k_u k) arg 60)); Some (0, k)
  else if cmd =? TIOCGPGRP then
    let '(err, k) := copy_to_user k arg (le_bytes 4 (tty_getpgrp k)) in
    Some (if negb (err =? 0) then - EFAULT else 0, k)
  else if cmd =? TIOCSPGRP then tty_setpgrp k (s32 (le_word (get_bytes (k_u k) arg 4)))
  else if cmd =? TIOCSCTTY then Some (tty_sets_controlling k)
  else if cmd =? TIOCGSID then
    let '(err, k) := copy_to_user k arg (le_bytes 4 (session_id (k_tty k))) in
    Some (if negb (err =? 0) then - EFAULT else 0, k)
  else if cmd =? TIOCNOTTY then Some (tty_release_controlling k)
  else if cmd =? TIOCGWINSZ then
    if arg =? 0 then Some (- EFAULT, k)
    else
      let '(err, k) := copy_to_user k arg (le_bytes 2 24 ++ le_bytes 2 80 ++ le_bytes 2 0 ++ le_bytes 2 0) in
      Some (if negb (err =? 0) then - EFAULT else 0, k)
  else Some (- ENOTTY, k).

(** [tty_init] but for the interrupt controller and the UART's registers. *)
Definition tty_init (k : kernel) : option kernel :=
  let k := upd_tty k (fun t => set_foreground_pgid 0 (set_session_id 0 (set_rx_tail 0 (set_rx_head 0 t)))) in
  let k := set_k_w (init_waitqueue_head (k_w k) tty_read_wait) k in
  k ← tty_apply_termios (upd_tty k (set_tty_termios tty_default_termios)) tty_default_termios;
  Some (upd_file k uart_file (set_f_op tty_fops)).

(** ** The ring as a queue of bytes *)

Record tty_rep (t : tty) (l : list Z) : Prop := {
  tr_tail : 0 <= rx_tail t < TTY_RX_SIZE;
  tr_fits : Z.of_nat (length l) < TTY_RX_SIZE;
  tr_head : rx_head t = (rx_tail t + Z.of_nat (length l)) mod TTY_RX_SIZE;
  tr_buf : forall i b, l !! i = Some b -> (rx_buf t).[(rx_tail t + Z.of_nat i) mod TTY_RX_SIZE] = b
}.

(** The length of the first line, newline included; 0 without a newline. *)
Fixpoint line_len (l : list Z) : nat :=
  match l with
  | [] => O
  | c :: l => if c =? 10 then 1%nat else match line_len l with O => O | n => S n end
  end.

Lemma line_len_le l : (line_len l <= length l)%nat.
Proof. induction l as [|c l IH]; cbn; [lia|]. destruct (c =? 10); [lia|]. destruct (line_len l); lia. Qed.

Lemma rx_next_mod i : 0 <= i < TTY_RX_SIZE -> tty_rx_next i = (i + 1) mod TTY_RX_SIZE.
Proof.
  unfold tty_rx_next, TTY_RX_SIZE. intros Hi. rewrite wrapu_id by lia. destruct (Z.eqb_spec (i + 1) 256) as [E|E].
  - by rewrite E.
  - rewrite Z.mod_small; lia.
Qed.

Lemma rx_mod_bound i : 0 <= i mod TTY_RX_SIZE < TTY_RX_SIZE.
Proof. apply Z.mod_pos_bound. by vm_compute. Qed.

Lemma rx_shift i j : ((i + 1) mod TTY_RX_SIZE + j) mod TTY_RX_SIZE = (i + (j + 1)) mod TTY_RX_SIZE.
Proof. rewrite Zplus_mod_idemp_l. f_equal. lia. Qed.

Lemma rx_apart t i j : 0 <= i < j -> j < TTY_RX_SIZE -> (t + i) mod TTY_RX_SIZE <> (t + j) mod TTY_RX_SIZE.
Proof.
  intros Hi Hj E. assert (H : (j - i) mod TTY_RX_SIZE = 0).
  { replace (j - i) with ((t + j) - (t + i)) by lia. rewrite Zminus_mod, E, Z.sub_diag. done. }
  rewrite Z.mod_small in H by lia. lia.
Qed.

Lemma rx_count t l : tty_rep t l -> tty_rx_count_locked t = Z.of_nat (length l).
Proof.
  intros [Ht Hf Hh _]. unfold tty_rx_count_locked. rewrite Hh. unfold TTY_RX_SIZE in *.
  destruct (decide (rx_tail t + Z.of_nat (length l) < 256)) as [Hlt|Hge].
  - rewrite Z.mod_small by lia. zdec. lia.
  - replace ((rx_tail t + Z.of_nat (length l)) mod 256) with (rx_tail t + Z.of_nat (length l) - 256).
    + zdec. rewrite wrapu_id; lia.
    + apply (Zmod_unique _ _ 1); lia.
Qed.

Lemma line_loop_spec t l2 : forall l1 fuel n,
  tty_rep t (l1 ++ l2) -> n = Z.of_nat (length l1) -> (length l2 < fuel)%nat ->
  line_loop fuel t ((rx_tail t + Z.of_nat (length l1)) mod TTY_RX_SIZE) n =
    Some (match line_len l2 with O => 0 | m => n + Z.of_nat m end).
Proof.
  induction l2 as [|c l2 IH]; intros l1 fuel n HR Hn Hf; (destruct fuel as [|fuel]; [cbn in Hf; lia|]); cbn [line_loop].
  - rewrite (tr_head _ _ HR), app_nil_r, Z.eqb_refl. done.
  - assert (Hfit := tr_fits _ _ HR). rewrite length_app in Hfit. cbn [length] in Hfit.
    rewrite (proj2 (Z.eqb_neq _ _)); last first.
    { rewrite (tr_head _ _ HR), length_app. cbn [length]. apply rx_apart; lia. }
    rewrite (tr_buf _ _ HR (length l1) c) by (by apply list_lookup_middle). cbn [line_len].
    rewrite Hn. unfold TTY_RX_SIZE in Hfit. rewrite wrapu_id by lia. destruct (c =? 10); [f_equal; lia|].
    rewrite rx_next_mod by apply rx_mod_bound. rewrite Zplus_mod_idemp_l.
    replace (rx_tail t + Z.of_nat (length l1) + 1) with (rx_tail t + Z.of_nat (length (l1 ++ [c]))) by (rewrite length_app; cbn; lia).
    rewrite (IH (l1 ++ [c])); [|by rewrite <- app_assoc|rewrite length_app; cbn; lia|cbn in Hf; lia].
    destruct (line_len l2); f_equal; lia.
Qed.

Lemma line_length_spec t l : tty_rep t l -> tty_rx_line_length_locked t = Some (Z.of_nat (line_len l)).
Proof.
  intros HR. unfold tty_rx_line_length_locked. assert (Ht := tr_tail _ _ HR). assert (Hf := tr_fits _ _ HR).
  pose proof (line_loop_spec t l [] (S (Z.to_nat TTY_RX_SIZE)) 0 HR eq_refl) as H. cbn [length] in H. rewrite Z.add_0_r, Z.mod_small in H by done.
  rewrite H by lia. by destruct (line_len l).
Qed.

(** What a read may take. *)
Definition available (canonical : bool) (l : list Z) : nat := if canonical then line_len l else length l.

Lemma available_le b l : (available b l <= length l)%nat.
Proof. destruct b; cbn; [apply line_len_le|lia]. Qed.

Lemma read_ready_spec t l : tty_rep t l -> tty_read_ready_locked t = Some (negb (bool_decide (available (tty_canonical t) l = O))).
Proof.
  intros HR. unfold tty_read_ready_locked, available. rewrite (line_length_spec _ _ HR), (rx_count _ _ HR).
  destruct (tty_canonical t); cbn; f_equal; case_bool_decide; case Z.ltb_spec; done || lia.
Qed.

Lemma tty_copy_spec n : forall t l, tty_rep t l -> (n <= length l)%nat ->
  exists i, tty_copy n t = (take n l, set_rx_tail i t) /\ tty_rep (set_rx_tail i t) (drop n l).
Proof.
  induction n as [|n IH]; intros t l HR Hn. { exists (rx_tail t). by destruct t. }
  destruct l as [|b l]; cbn in Hn; [lia|]. cbn [tty_copy take drop].
  assert (Hb : (rx_buf t).[rx_tail t] = b).
  { rewrite <- (tr_buf _ _ HR 0%nat b eq_refl). f_equal. rewrite Z.add_0_r. symmetry. apply Z.mod_small, HR. }
  destruct (IH (set_rx_tail (tty_rx_next (rx_tail t)) t) l) as (i & E & HR'); [|lia|].
  { destruct HR as [Ht Hf Hh Hbuf]. cbn in Hf, Hh. split; cbn; rewrite ?(rx_next_mod _ Ht).
    - apply rx_mod_bound.
    - lia.
    - rewrite rx_shift, Hh. f_equal. lia.
    - intros j c Hc. rewrite rx_shift. rewrite <- (Hbuf (S j) c Hc). do 2 f_equal. lia. }
  exists i. rewrite E, Hb. by split.
Qed.

(** A character enters the queue unless 255 are waiting. *)
Definition accept (l : list Z) (c : Z) : list Z := if decide (Z.of_nat (length l) < TTY_RX_SIZE - 1) then l ++ [c] else l.

Lemma rx_push t l c :
  tty_rep t l ->
  tty_rep (if tty_rx_next (rx_head t) =? rx_tail t then t
           else set_rx_head (tty_rx_next (rx_head t)) (set_rx_buf (<[rx_head t := c]> (rx_buf t)) t)) (accept l c).
Proof.
  intros HR. pose proof HR as [Ht Hf Hh Hbuf]. unfold accept.
  assert (Enext : tty_rx_next (rx_head t) = (rx_tail t + Z.of_nat (S (length l))) mod TTY_RX_SIZE).
  { rewrite Hh, rx_next_mod by apply rx_mod_bound. rewrite Zplus_mod_idemp_l. f_equal. lia. }
  case_decide as Hroom.
  - rewrite (proj2 (Z.eqb_neq _ _)); last first.
    { rewrite Enext. intros E. apply (rx_apart (rx_tail t) 0 (Z.of_nat (S (length l)))); [lia|lia|].
      rewrite E, Z.add_0_r. by apply Z.mod_small. }
    split; cbn [rx_tail rx_head rx_buf set_rx_head set_rx_buf].
    + done.
    + rewrite length_app. cbn. lia.
    + rewrite Enext, length_app. f_equal. cbn. lia.
    + intros i b Hi. destruct (decide (i = length l)) as [->|Hne].
      * rewrite list_lookup_middle in Hi by done. injection Hi as <-. rewrite Hh. apply arr_get_insert.
      * apply lookup_app_Some in Hi as [Hi|[Hge Hi]].
        -- rewrite arr_get_insert_ne; [by apply Hbuf|]. apply lookup_lt_Some in Hi. rewrite Hh. apply not_eq_sym, rx_apart; lia.
        -- apply list_lookup_singleton_Some in Hi as [Hi' _]. lia.
  - rewrite (proj2 (Z.eqb_eq _ _)); [done|]. rewrite Enext. assert (Z.of_nat (S (length l)) = TTY_RX_SIZE) as -> by lia.
    replace (rx_tail t + TTY_RX_SIZE) with (rx_tail t + 1 * TTY_RX_SIZE) by lia. rewrite Z_mod_plus_full. by apply Z.mod_small.
Qed.

(** ** Input as a queue of lines *)

(** The character that the line discipline stores for one that arrives. *)
Definition cooked (c : Z) : Z := if c =? 13 then 10 else c.

(** A character that is no key of the keyboard signals. *)
Definition ordinary (c : Z) : Prop := cooked c <> 0x03 /\ cooked c <> 0x1a.

(** What the UART sends for a character. *)
Definition printed (c : Z) : list Z := if c =? 10 then [13; 10] else [c].

(** Only the ring differs. *)
Definition same_modes (t t' : tty) : Prop :=
  session_id t' = session_id t /\ foreground_pgid t' = foreground_pgid t /\ tty_echo t' = tty_echo t /\
  tty_canonical t' = tty_canonical t /\ tty_isig t' = tty_isig t /\ tty_termios t' = tty_termios t.

Lemma tty_receive_spec k Q T L l c :
  waits_inv (k_w k) Q T L -> tty_rep (k_tty k) l -> ordinary c ->
  exists w' t' Q',
    tty_receive_char k c = Some (set_k_w w' (set_k_uart (k_uart k ++ if tty_echo (k_tty k) then printed (cooked c) else []) (set_k_tty t' k))) /\
    tty_rep t' (accept l (cooked c)) /\ same_modes (k_tty k) t' /\ waits_inv w' Q' T L /\ woken k L Q' tty_read_wait.
Proof.
  intros HI HR [H3 H26]. unfold tty_receive_char. fold (cooked c). zdec.
  pose proof (rx_push (k_tty k) l (cooked c) HR) as HR'. set (t' := if _ =? rx_tail _ then _ else _) in *.
  assert (same_modes (k_tty k) t') as Hm by (unfold t'; by case_match).
  assert (tty_echo t' = tty_echo (k_tty k)) as -> by apply Hm.
  set (k1 := if tty_echo (k_tty k) then _ else _).
  assert (k1 = set_k_uart (k_uart k ++ if tty_echo (k_tty k) then printed (cooked c) else []) (set_k_tty t' k)) as ->.
  { unfold k1. destruct (tty_echo (k_tty k)); [done|]. rewrite app_nil_r. reflexivity. }
  set (k2 := set_k_uart _ _). destruct (k_wake_up_spec k2 Q T L tty_read_wait HI) as (w' & Q' & E & HI' & _ & _ & Hw).
  exists w', t', Q'. splits; try done.
Qed.

(** What a read of [count] bytes does when [n] bytes are available: the bytes
    and what is left. *)
Lemma tty_read_ring_spec k l count :
  tty_rep (k_tty k) l -> 0 < count -> available (tty_canonical (k_tty k)) l <> O ->
  let n := Nat.min (Z.to_nat count) (available (tty_canonical (k_tty k)) l) in
  exists t', tty_read_ring k count = Some (Z.of_nat n, take n l, set_k_tty t' k) /\ tty_rep t' (drop n l) /\ same_modes (k_tty k) t'.
Proof.
  intros HR Hc Ha n. unfold tty_read_ring. rewrite (read_ready_spec _ _ HR), bool_decide_false by done. cbn [mbind option_bind negb].
  assert ((if tty_canonical (k_tty k) then tty_rx_line_length_locked (k_tty k) else Some (tty_rx_count_locked (k_tty k))) =
    Some (Z.of_nat (available (tty_canonical (k_tty k)) l))) as ->.
  { unfold available. rewrite (line_length_spec _ _ HR), (rx_count _ _ HR). by destruct (tty_canonical _). }
  cbn [mbind option_bind]. set (m := if _ <? _ then _ else _). assert (m = Z.of_nat n) as -> by (unfold m, n; case Z.ltb_spec; lia).
  rewrite Nat2Z.id. pose proof (available_le (tty_canonical (k_tty k)) l).
  destruct (tty_copy_spec n (k_tty k) l HR ltac:(lia)) as (i & -> & HR'). by eexists.
Qed.

(** [pipe_wait] and [wait_event_interruptible] sleep alike. *)
Lemma wait_turn_asleep k Q T L q e :
  waits_inv (k_w k) Q T L -> may_block k L e -> interrupted k = false ->
  exists w' Q', wait_event_interruptible_turn (declare_waitqueue (k_w k) e (current k)) q e false = Some (Asleep w') /\
    asleep_on w' Q' T (<[q := e :: L q]> L) q e (current k).
Proof.
  intros HI (He & Hn & Hid) Hint. destruct (pipe_wait_spec k Q T L q e HI He Hn Hid) as (w' & Q' & E & Has).
  exists w', Q'. split; [|done]. unfold wait_event_interruptible_turn.
  change (signal_pending (w_s (declare_waitqueue (k_w k) e (current k))) (get_current (w_s (declare_waitqueue (k_w k) e (current k))))) with (interrupted k).
  rewrite Hint. unfold pipe_wait in E. destruct (prepare_to_wait _ q e) as [w1|]; [|done]. cbn [mbind option_bind] in E |- *.
  destruct (schedule (w_s w1)) as [s1|]; [|done]. cbn [mbind option_bind] in E |- *. injection E as <-. done.
Qed.

(** The result of a read: an error or the bytes; [None] when it must wait. *)
Definition spec_tty_read (canonical : bool) (l : list Z) (pending : bool) (buf count : Z) : option (Z * list Z * list Z) :=
  if buf =? 0 then Some (- EFAULT, [], l)
  else if count =? 0 then Some (0, [], l)
  else
    match available canonical l with
    | O => if pending then Some (- ERESTARTSYS, [], l) else None
    | a => let n := Nat.min (Z.to_nat count) a in Some (Z.of_nat n, take n l, drop n l)
    end.

Lemma tty_read_spec k Q T L l buf count e :
  waits_inv (k_w k) Q T L -> may_block k L e -> tty_rep (k_tty k) l -> 0 <= count ->
  match spec_tty_read (tty_canonical (k_tty k)) l (interrupted k) buf count with
  | Some (r, bs, l') =>
      exists w' t', tty_read k buf count e = Some (Return r (bs, set_k_w w' (set_k_tty t' k))) /\
        tty_rep t' l' /\ same_modes (k_tty k) t' /\ waits_inv w' Q T L
  | None =>
      exists w' Q', tty_read k buf count e = Some (Asleep ([], set_k_w w' k)) /\
        asleep_on w' Q' T (<[tty_read_wait := e :: L tty_read_wait]> L) tty_read_wait e (current k)
  end.
Proof.
  intros HI Hb HR Hc. unfold spec_tty_read, tty_read.
  assert (Hsame : same_modes (k_tty k) (k_tty k)) by done.
  assert (Ek : set_k_w (k_w k) (set_k_tty (k_tty k) k) = k) by (by destruct k).
  destruct (buf =? 0). { exists (k_w k), (k_tty k). by rewrite Ek. }
  destruct (Z.eqb_spec count 0) as [E0|E0]. { exists (k_w k), (k_tty k). by rewrite Ek. }
  rewrite (read_ready_spec _ _ HR). cbn [mbind option_bind].
  assert (HI0 : waits_inv (declare_waitqueue (k_w k) e (current k)) Q T L) by (apply declare_inv; [done|apply Hb]).
  set (w0 := declare_waitqueue (k_w k) e (current k)) in *.
  destruct (available (tty_canonical (k_tty k)) l) as [|a] eqn:Ea.
  - rewrite bool_decide_true by done. cbn [negb]. destruct (interrupted k) eqn:Ei.
    + unfold wait_event_interruptible_turn. change (signal_pending (w_s w0) (get_current (w_s w0))) with (interrupted k). rewrite Ei.
      exists w0, (k_tty k). split; [|done]. cbn [mbind option_bind]. done.
    + destruct (wait_turn_asleep k Q T L tty_read_wait e HI Hb Ei) as (w' & Q' & E & Has). fold w0 in E. rewrite E. by exists w', Q'.
  - rewrite bool_decide_false by done. cbn [negb wait_event_interruptible_turn mbind option_bind]. change (negb (0 =? 0)) with false. cbn iota.
    destruct (tty_read_ring_spec (set_k_w w0 k) l count HR ltac:(lia)) as (t' & E & HR' & Hm). { cbn. by rewrite Ea. }
    cbn [k_tty set_k_w] in E, HR'. rewrite Ea in E, HR'. rewrite E. cbn [mbind option_bind]. exists w0, t'. by splits.
Qed.

(** C11: the terminal is a queue of characters.  A character that arrives is
    stored (a carriage return as a newline) unless 255 are waiting, echoed
    when echo is on, and wakes the readers.  A read returns what the
    specification returns on every branch and removes exactly the bytes it
    returns: in canonical mode at most one line and nothing before its
    newline has arrived, otherwise whatever is there; when it must wait, the
    caller sleeps on the queue of the terminal.  Nothing else changes. *)
Theorem tty_input_refines k Q T L l :
  waits_inv (k_w k) Q T L -> tty_rep (k_tty k) l ->
  (forall c, ordinary c -> exists w' t' Q',
    tty_receive_char k c = Some (set_k_w w' (set_k_uart (k_uart k ++ if tty_echo (k_tty k) then printed (cooked c) else []) (set_k_tty t' k))) /\
    tty_rep t' (accept l (cooked c)) /\ same_modes (k_tty k) t' /\ waits_inv w' Q' T L /\ woken k L Q' tty_read_wait) /\
  (forall buf count e, may_block k L e -> 0 <= count ->
    match spec_tty_read (tty_canonical (k_tty k)) l (interrupted k) buf count with
    | Some (r, bs, l') =>
        exists w' t', tty_read k buf count e = Some (Return r (bs, set_k_w w' (set_k_tty t' k))) /\
          tty_rep t' l' /\ same_modes (k_tty k) t' /\ waits_inv w' Q T L
    | None =>
        exists w' Q', tty_read k buf count e = Some (Asleep ([], set_k_w w' k)) /\
          asleep_on w' Q' T (<[tty_read_wait := e :: L tty_read_wait]> L) tty_read_wait e (current k)
    end).
Proof.
  intros HI HR. split; [intros c Hc; by apply (tty_receive_spec k Q T L)|]. intros buf count e Hb Hc. by apply tty_read_spec.
Qed.

(** ** A line that does not fit *)

Lemma no_newline l : 10 ∉ l -> line_len l = O.
Proof.
  induction l as [|c l IH]; [done|]. rewrite not_elem_of_cons. intros [H1 H2]. cbn. rewrite (proj2 (Z.eqb_neq c 10)) by congruence. by rewrite IH.
Qed.

Lemma stuck_irq fifo : forall k Q T L l,
  waits_inv (k_w k) Q T L -> tty_rep (k_tty k) l -> Z.of_nat (length l) = TTY_RX_SIZE - 1 ->
  Forall (fun d => ordinary (Z.land d 0xff)) fifo ->
  exists k', serial_irq k fifo = Some k' /\ tty_rep (k_tty k') l /\ tty_canonical (k_tty k') = tty_canonical (k_tty k).
Proof.
  induction fifo as [|d fifo IH]; intros k Q T L l HI HR Hl Hd; [by exists k|].
  apply Forall_cons in Hd as [Hd Hr]. destruct (tty_receive_spec k Q T L l _ HI HR Hd) as (w' & t' & Q' & E & HR' & Hm & HI' & _).
  cbn [serial_irq]. rewrite E. cbn [mbind option_bind]. unfold accept in HR'. rewrite decide_False in HR' by lia.
  destruct (IH (set_k_w w' (set_k_uart (k_uart k ++ if tty_echo (k_tty k) then printed (cooked (Z.land d 0xff)) else []) (set_k_tty t' k))) Q' T L l) as (k' & E' & HR'' & Ec); try done.
  exists k'. splits; try done. rewrite Ec. apply Hm.
Qed.

(** C38: a line of 255 characters without a newline blocks the terminal in
    canonical mode: whatever arrives afterwards is dropped, the newline that
    would end the line included, so that no read ever becomes possible. *)
Theorem tty_line_stuck k Q T L l fifo :
  waits_inv (k_w k) Q T L -> tty_rep (k_tty k) l -> Z.of_nat (length l) = TTY_RX_SIZE - 1 -> 10 ∉ l -> tty_canonical (k_tty k) = true ->
  Forall (fun d => ordinary (Z.land d 0xff)) fifo ->
  exists k', serial_irq k fifo = Some k' /\ tty_rep (k_tty k') l /\ tty_read_ready_locked (k_tty k') = Some false.
Proof.
  intros HI HR Hl Hn Hc Hf. destruct (stuck_irq fifo k Q T L l HI HR Hl Hf) as (k' & E & HR' & Ec). exists k'. splits; try done.
  rewrite (read_ready_spec _ _ HR'), Ec, Hc. cbn. by rewrite (no_newline l Hn).
Qed.

(** ** Keyboard signals *)

Definition key_signal (c : Z) : Z := if c =? 0x03 then SIGINT else SIGTSTP.

Lemma receive_key k c :
  c = 0x03 \/ c = 0x1a ->
  tty_receive_char k c =
    if tty_isig (k_tty k) && negb (foreground_pgid (k_tty k) =? 0)
    then '(_, s) ← ksys_kill (k_s k) (- foreground_pgid (k_tty k)) (key_signal c); Some (set_k_s s k)
    else Some k.
Proof. by intros [->| ->]. Qed.

Lemma key_signal_valid c : signal_valid (key_signal c) = true /\ key_signal c <> SIGCONT /\ key_signal c <> 0.
Proof. unfold key_signal. by destruct (c =? 0x03). Qed.

(** Who hears of a key: the foreground group; the group 1 means everybody but
    the interrupted process. *)
Definition key_targets (s : sched) (pgid : Z) (T : list Z) : list Z :=
  if pgid =? 1 then chosen s (other_user (get_current s)) T else group s pgid T.

Lemma key_kill s Q T c pgid :
  sched_inv s Q T -> family s -> users_ok s T -> 1 <= pgid < 2 ^ 31 ->
  exists err s' Q', ksys_kill s (- pgid) (key_signal c) = Some (err, s') /\ delivered s s' Q Q' T (key_targets s pgid T) (key_signal c).
Proof.
  intros HI HF HU Hp. destruct (key_signal_valid c) as (Hv & Hcont & H0).
  assert (Hsig : 0 <= key_signal c < NSIG) by (unfold signal_valid in Hv; lia).
  assert (Hs : sent_to s Q T (key_targets s pgid T) (key_signal c) (ksys_kill s (- pgid) (key_signal c))).
  { unfold ksys_kill, key_targets. rewrite Hv. cbn [negb]. zdec. destruct (Z.eqb_spec pgid 1) as [->|].
    - change (-1 <? -1) with false. apply signal_all_spec; try done; [apply steady_other_user|]. intros t Ht Hu. apply (HU t Ht), is_user_true.
      by destruct (negb (t_is_user _ =? 0)).
    - zdec. rewrite wraps_id by lia. rewrite Z.opp_involutive. by apply signal_group_spec. }
  destruct Hs as (s' & Q' & -> & HD). rewrite decide_False in HD by done. by eexists _, s', Q'.
Qed.

(** C13: Ctrl-C and Ctrl-Z signal exactly the processes that the foreground
    group names: with signals enabled and a foreground group, every live user
    process of that group has SIGINT or SIGTSTP pending and is woken if it is
    to be, no other process is affected, and the character is not stored;
    with signals disabled or no foreground group the key is ignored.  The
    group 1 names every user process but the interrupted one, zombies
    included, whatever its group. *)
Theorem tty_interrupt_correct k Q T c :
  sched_inv (k_s k) Q T -> family (k_s k) -> users_ok (k_s k) T -> c = 0x03 \/ c = 0x1a ->
  let pgid := foreground_pgid (k_tty k) in
  0 <= pgid < 2 ^ 31 ->
  if tty_isig (k_tty k) && negb (pgid =? 0)
  then exists s' Q', tty_receive_char k c = Some (set_k_s s' k) /\ delivered (k_s k) s' Q Q' T (key_targets (k_s k) pgid T) (key_signal c)
  else tty_receive_char k c = Some k.
Proof.
  intros HI HF HU Hc pgid Hp. rewrite (receive_key k c Hc). fold pgid. destruct (_ && _) eqn:E; [|done].
  assert (pgid <> 0) by (intros E0; by rewrite E0, andb_false_r in E).
  destruct (key_kill (k_s k) Q T c pgid HI HF HU ltac:(lia)) as (err & s' & Q' & -> & HD). by exists s', Q'.
Qed.


(** ** Modes *)

Definition is_byte (b : Z) : Prop := 0 <= b < 256.

Lemma le_word_bound l : Forall is_byte l -> 0 <= le_word l < 256 ^ Z.of_nat (length l).
Proof.
  induction 1 as [|b l Hb _ IH]; cbn [le_word length]; [done|]. unfold is_byte in Hb.
  rewrite Nat2Z.inj_succ, Z.pow_succ_r by lia. lia.
Qed.

Lemma le_bytes_word l : Forall is_byte l -> le_bytes (length l) (le_word l) = l.
Proof.
  induction 1 as [|b l Hb Hl IH]; cbn [le_bytes le_word length]; [done|]. unfold is_byte in Hb. f_equal.
  - unfold u8, wrapu. rewrite Z.mul_comm, Z_mod_plus_full. by apply Z.mod_small.
  - rewrite Z.shiftr_div_pow2 by lia. change (2 ^ 8) with 256. rewrite Z.mul_comm, Z.div_add by lia.
    by rewrite (Z.div_small b) by done.
Qed.

Lemma termios_roundtrip l : Forall is_byte l -> length l = 60%nat -> termios_bytes (termios_of l) = l.
Proof.
  intros Hb Hl. unfold termios_bytes, termios_of. cbn [c_iflag c_oflag c_cflag c_lflag c_rest].
  assert (H4 : forall n, (n + 4 <= 60)%nat -> le_bytes 4 (le_word (take 4 (drop n l))) = take 4 (drop n l)).
  { intros n Hn. assert (length (take 4 (drop n l)) = 4%nat) as E by (rewrite length_take, length_drop; lia).
    rewrite <- E at 1. by apply le_bytes_word, Forall_take, Forall_drop. }
  pose proof (H4 0%nat) as H0. rewrite drop_0 in H0. rewrite H0, !H4 by lia.
  assert (Hd : forall n, take 4 (drop n l) ++ drop (n + 4) l = drop n l) by (intros n; by rewrite <- drop_drop, take_drop).
  rewrite (Hd 12%nat : _ ++ drop 16 l = _), (Hd 8%nat : _ ++ drop 12 l = _), (Hd 4%nat : _ ++ drop 8 l = _). apply take_drop.
Qed.

(** the modes of the terminal are a round trip: what TCGETS stores after
    TCSETS are the 60 bytes that TCSETS read; canonical mode, echo and
    keyboard signals are on exactly when their bits of the flag word are, and
    neither the characters that wait nor the session change. *)
Theorem tty_termios_roundtrip k Q T L l a b :
  waits_inv (k_w k) Q T L -> tty_rep (k_tty k) l -> a <> 0 -> b <> 0 -> Forall is_byte (get_bytes (k_u k) a 60) ->
  exists k1 k2, tty_file_ioctl k TCSETS a = Some (0, k1) /\ tty_file_ioctl k1 TCGETS b = Some (0, k2) /\
    get_bytes (k_u k2) b 60 = get_bytes (k_u k) a 60 /\ tty_rep (k_tty k1) l /\
    let flags := c_lflag (termios_of (get_bytes (k_u k) a 60)) in
    tty_canonical (k_tty k1) = has flags ICANON /\ tty_echo (k_tty k1) = has flags ECHO /\ tty_isig (k_tty k1) = has flags ISIG /\
    session_id (k_tty k1) = session_id (k_tty k) /\ foreground_pgid (k_tty k1) = foreground_pgid (k_tty k).
Proof.
  intros HI HR Ha Hb Hbytes. set (l0 := get_bytes (k_u k) a 60) in *. set (t0 := termios_of l0).
  set (k0 := upd_tty k (fun x => set_tty_isig (has (c_lflag t0) ISIG) (set_tty_echo (has (c_lflag t0) ECHO)
      (set_tty_canonical (has (c_lflag t0) ICANON) (set_tty_termios t0 x))))).
  destruct (k_wake_up_spec k0 Q T L tty_read_wait HI) as (w' & Q' & E & _).
  assert (E1 : tty_file_ioctl k TCSETS a = Some (0, set_k_w w' k0)).
  { unfold tty_file_ioctl. change (TCSETS =? TCGETS) with false. change (TCSETS =? TCSETS) with true. zdec. fold l0. fold t0.
    unfold tty_apply_termios, tty_wake_reader. fold k0. by rewrite E. }
  eexists _, _. split; [exact E1|]. split.
  { unfold tty_file_ioctl. change (TCGETS =? TCGETS) with true. zdec. unfold copy_to_user. change (negb (0 =? 0)) with false. reflexivity. }
  assert (Eb : termios_bytes t0 = l0). { apply termios_roundtrip; [done|]. apply get_bytes_length. }
  splits; try done; [|destruct HR; by split].
  cbn [k_u set_k_u k_tty set_k_w]. change (tty_termios (k_tty k0)) with t0. rewrite Eb.
  rewrite <- (get_put (k_u k) b l0) at 2. assert (length l0 = 60%nat) as -> by apply get_bytes_length. done.
Qed.

(** ** The foreground group *)

Lemma pgrp_loop_spec s T pgid session : ring (nodes s) NAll (NTask <$> T) -> forall l2 l1 fuel found,
  T = l1 ++ l2 -> (length l2 < fuel)%nat ->
  pgrp_loop fuel s (default NAll (NTask <$> head l2)) pgid session found =
    Some (if bool_decide (Exists (fun t => session <> 0 /\ t_sid (task_at s t) <> session) (chosen s (in_group pgid) l2)) then - EPERM
          else if found || negb (bool_decide (chosen s (in_group pgid) l2 = [])) then 0 else - ESRCH).
Proof.
  intros HR. induction l2 as [|t l2 IH]; intros l1 fuel found E Hf; (destruct fuel as [|fuel]; [cbn in Hf; lia|]).
  - change (default NAll (NTask <$> head [])) with NAll. change (chosen s (in_group pgid) []) with (@nil Z). cbn [pgrp_loop].
    rewrite bool_decide_true, (bool_decide_false (Exists _ [])), (bool_decide_true ([] = [])) by (done || by intros ?%Exists_nil).
    by rewrite orb_false_r.
  - change (default NAll (NTask <$> head (t :: l2))) with (NTask t). cbn [pgrp_loop task_entry]. rewrite bool_decide_false by done.
    rewrite (ring_step s T l1 t l2 HR E). assert (IH' := fun f => IH (l1 ++ [t]) fuel f ltac:(by rewrite <- app_assoc) ltac:(cbn in Hf; lia)).
    assert (Hch : chosen s (in_group pgid) (t :: l2) = (if in_group pgid t (task_at s t) then [t] else []) ++ chosen s (in_group pgid) l2).
    { unfold chosen. rewrite filter_cons. destruct (in_group pgid t (task_at s t)); [by rewrite decide_True|by rewrite decide_False]. }
    rewrite Hch. clear Hch. destruct (in_group pgid t (task_at s t)) eqn:Eg; unfold in_group in Eg; last first.
    { cbn [app]. destruct (t_is_user (task_at s t) =? 0); cbn [orb]; [apply IH'|].
      destruct (bool_decide (t_state (task_at s t) = TASK_ZOMBIE)); cbn [orb]; [apply IH'|].
      destruct (bool_decide (t_state (task_at s t) = TASK_DEAD)); cbn [orb]; [apply IH'|]. cbn in Eg. rewrite Eg. apply IH'. }
    rewrite !andb_true_iff, !negb_true_iff in Eg. destruct Eg as [[[-> ->] ->] ->]. cbn [orb negb app].
    destruct (Z.eqb_spec session 0) as [E0|E0]; [|destruct (Z.eqb_spec (t_sid (task_at s t)) session) as [E1|E1]]; cbn [negb andb].
    + assert (Hno : forall l, bool_decide (Exists (fun t => session <> 0 /\ t_sid (task_at s t) <> session) l) = false).
      { intros l. apply bool_decide_false. intros (x & _ & ? & _)%Exists_exists. done. }
      rewrite IH', !Hno, (bool_decide_false (t :: _ = [])) by done. by rewrite orb_true_r.
    + rewrite IH', (bool_decide_ext (Exists _ (t :: _)) (Exists (fun t => session <> 0 /\ t_sid (task_at s t) <> session) (chosen s (in_group pgid) l2))).
      * rewrite (bool_decide_false (t :: _ = [])) by done. by rewrite orb_true_r.
      * rewrite Exists_cons. tauto.
    + rewrite bool_decide_true; [done|]. apply Exists_cons. by left.
Qed.

(** Whether the group [pgid] may become the foreground group. *)
Definition spec_setpgrp (k : kernel) (T : list Z) (pgid : Z) : Z :=
  let session := session_id (k_tty k) in
  let members := chosen (k_s k) (in_group pgid) T in
  if pgid <=? 0 then - EINVAL
  else if bool_decide (session <> 0 /\ t_sid (current_task k) <> session) then - ENOTTY
  else if bool_decide (Exists (fun t => session <> 0 /\ t_sid (task_at (k_s k) t) <> session) members) then - EPERM
  else if bool_decide (members = []) then - ESRCH
  else 0.

(** The session and the foreground group of the terminal. *)
Definition owner (k : kernel) : Z * Z := (session_id (k_tty k), foreground_pgid (k_tty k)).

(** What a control call makes of them: [TIOCSPGRP] sets the group under the
    conditions above, [TIOCSCTTY] gives the terminal to any user process that
    leads a session, [TIOCNOTTY] by a user process of the session gives it up. *)
Definition owner_after (k : kernel) (T : list Z) (cmd arg : Z) : Z * Z :=
  let me := current_task k in
  let pgid := s32 (le_word (get_bytes (k_u k) arg 4)) in
  if (cmd =? TIOCSPGRP) && (spec_setpgrp k T pgid =? 0) then (session_id (k_tty k), pgid)
  else if (cmd =? TIOCSCTTY) && negb (t_is_user me =? 0) && (t_sid me =? t_pid me) then (t_sid me, t_pgid me)
  else if (cmd =? TIOCNOTTY) && negb (t_is_user me =? 0) && (session_id (k_tty k) =? t_sid me) then (0, 0)
  else owner k.

Lemma setpgrp_spec k Q T pgid :
  sched_inv (k_s k) Q T ->
  let r := spec_setpgrp k T pgid in
  tty_setpgrp k pgid = Some (r, if r =? 0 then upd_tty k (set_foreground_pgid pgid) else k).
Proof.
  intros HI. unfold spec_setpgrp, tty_setpgrp. destruct (pgid <=? 0); [done|].
  destruct (si_curr _ _ _ HI (this_cpu (k_s k)) (si_this _ _ _ HI)) as [Hcur _].
  rewrite (proj2 (Z.eqb_neq (current k) 0) Hcur). set (session := session_id (k_tty k)).
  assert (negb (session =? 0) && negb (t_sid (current_task k) =? session) = bool_decide (session <> 0 /\ t_sid (current_task k) <> session)) as ->.
  { case_bool_decide as H; destruct (Z.eqb_spec session 0), (Z.eqb_spec (t_sid (current_task k)) session); naive_solver. }
  case_bool_decide; [done|]. destruct (inv_all_size (k_s k) Q T HI) as [_ Hf].
  rewrite (first_task_eq _ T (si_all _ _ _ HI)), (pgrp_loop_spec (k_s k) T pgid session (si_all _ _ _ HI) T [] (walk_fuel (k_s k)) false eq_refl Hf).
  cbn [mbind option_bind orb]. by repeat case_bool_decide.
Qed.

Lemma owner_kept k T cmd arg :
  cmd <> TIOCSPGRP -> cmd <> TIOCSCTTY -> cmd <> TIOCNOTTY -> owner_after k T cmd arg = owner k.
Proof. intros H1 H2 H3. unfold owner_after. by rewrite (proj2 (Z.eqb_neq _ _) H1), (proj2 (Z.eqb_neq _ _) H2), (proj2 (Z.eqb_neq _ _) H3). Qed.

(** C34: who decides the foreground group of the terminal.  [tty_setpgrp]
    sets it to a positive group that has live user processes, and if the
    terminal has a session, only for a caller of that session and a group all
    of whose live processes are in it; every refusal has its error number and
    changes nothing.  A terminal without a session checks no session.  Every
    control call ends; none but TIOCSPGRP, which is this function, TIOCSCTTY
    by a session leader, which takes the terminal from whatever session has
    it, and TIOCNOTTY by a process of the session changes the session or the
    foreground group. *)
Theorem tty_setpgrp_correct k Q T :
  sched_inv (k_s k) Q T ->
  (forall pgid, let r := spec_setpgrp k T pgid in
    tty_setpgrp k pgid = Some (r, if r =? 0 then upd_tty k (set_foreground_pgid pgid) else k)) /\
  (forall L cmd arg, waits_inv (k_w k) Q T L ->
    exists r k', tty_file_ioctl k cmd arg = Some (r, k') /\ owner k' = owner_after k T cmd arg).
Proof.
  intros HI. split; [intros pgid; by apply (setpgrp_spec k Q)|]. intros L cmd arg HW. unfold tty_file_ioctl.
  destruct (Z.eqb_spec cmd TCGETS) as [->|]. { rewrite owner_kept by done. case_match; by eexists _, _. }
  destruct (Z.eqb_spec cmd TCSETS) as [->|].
  { rewrite owner_kept by done. case_match; [by eexists _, _|]. unfold tty_apply_termios, tty_wake_reader. set (k0 := upd_tty k _).
    destruct (k_wake_up_spec k0 Q T L tty_read_wait HW) as (w' & Q' & -> & _). by eexists _, _. }
  destruct (Z.eqb_spec cmd TIOCGPGRP) as [->|]. { rewrite owner_kept by done. by eexists _, _. }
  destruct (Z.eqb_spec cmd TIOCSPGRP) as [->|].
  { rewrite (setpgrp_spec k Q T) by done. eexists _, _. split; [done|]. unfold owner_after. change (TIOCSPGRP =? TIOCSPGRP) with true. cbn [andb]. by case_match. }
  destruct (current k =? 0) eqn:E0. { destruct (si_curr _ _ _ HI (this_cpu (k_s k)) (si_this _ _ _ HI)) as [Hcur _]. by apply Z.eqb_eq in E0. }
  destruct (Z.eqb_spec cmd TIOCSCTTY) as [->|].
  { unfold tty_sets_controlling, owner_after. rewrite E0. change (TIOCSCTTY =? TIOCSPGRP) with false. change (TIOCSCTTY =? TIOCSCTTY) with true. cbn [andb orb].
    destruct (t_is_user (current_task k) =? 0), (t_sid (current_task k) =? t_pid (current_task k)); by eexists _, _. }
  destruct (Z.eqb_spec cmd TIOCGSID) as [->|]. { rewrite owner_kept by done. by eexists _, _. }
  destruct (Z.eqb_spec cmd TIOCNOTTY) as [->|].
  { unfold tty_release_controlling, owner_after. rewrite E0. change (TIOCNOTTY =? TIOCSPGRP) with false. change (TIOCNOTTY =? TIOCSCTTY) with false. change (TIOCNOTTY =? TIOCNOTTY) with true.
    cbn [andb orb]. destruct (t_is_user (current_task k) =? 0), (session_id (k_tty k) =? t_sid (current_task k)); by eexists _, _. }
  rewrite owner_kept by done. destruct (cmd =? TIOCGWINSZ); [destruct (arg =? 0)|]; by eexists _, _.
Qed.

(** ** Examples *)

Lemma set_tty_waits t k Q T L : waits_inv (k_w k) Q T L -> waits_inv (k_w (set_k_tty t k)) Q T L.
Proof. done. Qed.

(** A terminal in canonical mode with [n] characters waiting, all of them 0. *)
Definition console (n : Z) : tty := mkTty ∅ n 0 1 7 true true true (mkTermios 0 0 0 0 []).
Definition console_kernel (n : Z) : kernel := set_k_tty (console n) pipe_kernel.

Lemma console_rep n : (n < 256)%nat -> tty_rep (console (Z.of_nat n)) (replicate n 0).
Proof.
  intros Hn. split; cbn [console rx_tail rx_head rx_buf]; unfold TTY_RX_SIZE; rewrite ?length_replicate; [lia|lia|rewrite Z.mod_small; lia|].
  intros i b Hb. apply lookup_replicate in Hb as [-> _]. done.
Qed.

(** A newline is stored and echoed; then a read takes the line. *)
Lemma tty_input_refines_witness :
  exists w' t', tty_receive_char (console_kernel 0) 13 = Some (set_k_w w' (set_k_uart [13; 10] (set_k_tty t' (console_kernel 0)))) /\ tty_rep t' [10].
Proof.
  destruct pipe_kernel_inv as (Q & T & HI).
  destruct (tty_input_refines (console_kernel 0) Q T _ [] (set_tty_waits (console 0) pipe_kernel Q T _ HI) (console_rep 0 ltac:(lia))) as [Hr _].
  destruct (Hr 13 ltac:(by vm_compute)) as (w' & t' & Q' & E & HR & _). exists w', t'. split; [exact E|exact HR].
Defined.

Lemma tty_line_stuck_witness :
  exists k', serial_irq (console_kernel 255) [97; 10; 13] = Some k' /\ tty_read_ready_locked (k_tty k') = Some false.
Proof.
  destruct pipe_kernel_inv as (Q & T & HI).
  destruct (tty_line_stuck (console_kernel 255) Q T _ (replicate 255 0) [97; 10; 13] (set_tty_waits (console 255) pipe_kernel Q T _ HI)
    (console_rep 255 ltac:(lia)) ltac:(rewrite length_replicate; reflexivity) ltac:(intros [? _]%elem_of_replicate; lia) eq_refl
    ltac:(repeat constructor; by vm_compute)) as (k' & E & _ & Hr).
  exists k'. split; [exact E|exact Hr].
Defined.

Definition console_job (pgid : Z) : kernel :=
  mkKernel (mkWaits job ∅ ∅ ∅) k16 ∅ ∅ ∅ ∅ ∅ ∅ ∅ 1 (mkTty ∅ 0 0 1 pgid true true true (mkTermios 0 0 0 0 [])) [].

Lemma tty_interrupt_correct_witness :
  exists s' Q Q' T, tty_receive_char (console_job 7) 0x03 = Some (set_k_s s' (console_job 7)) /\ delivered job s' Q Q' T (key_targets job 7 T) SIGINT.
Proof.
  destruct job_inv as (Q & T & HI).
  destruct (tty_interrupt_correct (console_job 7) Q T 0x03 HI job_family (job_users T) (or_introl eq_refl) ltac:(cbn; lia)) as (s' & Q' & E & HD).
  exists s', Q, Q', T. split; [exact E|exact HD].
Defined.


Lemma tty_termios_roundtrip_witness :
  exists k1 k2, tty_file_ioctl (console_kernel 0) TCSETS 4096 = Some (0, k1) /\ tty_file_ioctl k1 TCGETS 8192 = Some (0, k2) /\
    tty_canonical (k_tty k1) = false.
Proof.
  destruct pipe_kernel_inv as (Q & T & HI).
  assert (Hb : Forall is_byte (get_bytes (k_u (console_kernel 0)) 4096 60)).
  { change (k_u (console_kernel 0)) with (∅ : gmap Z Z). vm_compute. repeat (constructor; [by split|]). constructor. }
  destruct (tty_termios_roundtrip (console_kernel 0) Q T _ [] 4096 8192 (set_tty_waits (console 0) pipe_kernel Q T _ HI) (console_rep 0 ltac:(lia))
    ltac:(lia) ltac:(lia) Hb) as (k1 & k2 & E1 & E2 & _ & _ & Ec & _).
  exists k1, k2. split; [exact E1|]. split; [exact E2|]. rewrite Ec. vm_compute. reflexivity.
Defined.

(** A terminal of the session 1 with the foreground group 5; the caller is in
    the session, and the other task of its group in the session [sid]. *)
Definition console_session (sid : Z) : kernel :=
  mkKernel (mkWaits (upd_task (upd_task paused 100 (set_t_sid sid)) 200 (set_t_sid 1)) ∅ ∅ ∅) k16 ∅ ∅ ∅ ∅ ∅ ∅ ∅ 1
    (mkTty ∅ 0 0 1 5 true true true (mkTermios 0 0 0 0 [])) [].

Lemma sid_inv s Q T t sid : sched_inv s Q T -> is_Some (tasks s !! t) -> sched_inv (upd_task s t (set_t_sid sid)) Q T.
Proof. intros HI Ht. apply inv_task_fields; auto. Qed.

Lemma console_session_inv sid : exists Q T, sched_inv (k_s (console_session sid)) Q T.
Proof.
  destruct paused_inv as (Q & T & HI). exists Q, T. change (k_s (console_session sid)) with (upd_task (upd_task paused 100 (set_t_sid sid)) 200 (set_t_sid 1)).
  assert (H1 : is_Some (tasks paused !! 100)) by (eexists; vm_compute; reflexivity).
  assert (H2 : is_Some (tasks paused !! 200)) by (eexists; vm_compute; reflexivity).
  revert HI H1 H2. generalize paused. intros s HI H1 H2. apply sid_inv; [by apply sid_inv|]. by apply upd_is_some.
Qed.

Lemma outcome_known {A} (o : option (Z * A)) (r v : Z) (f : Z -> A) :
  o = Some (r, f r) -> (fst <$> o) = Some v -> o = Some (v, f v).
Proof. intros -> [= ->]. done. Qed.

(** The group is accepted when it is in the session and refused when not, and
    setting the modes leaves the owner of the terminal alone. *)
Lemma tty_setpgrp_correct_witness :
  tty_setpgrp (console_session 1) 7 = Some (0, upd_tty (console_session 1) (set_foreground_pgid 7)) /\
  tty_setpgrp (console_session 2) 7 = Some (- EPERM, console_session 2) /\
  exists r k', tty_file_ioctl (console_kernel 0) TCSETS 4096 = Some (r, k') /\ owner k' = (1, 7).
Proof.
  split; [|split].
  - destruct (console_session_inv 1) as (Q & T & HI). assert (H := proj1 (tty_setpgrp_correct (console_session 1) Q T HI) 7).
    exact (outcome_known _ _ 0 (fun r => if r =? 0 then upd_tty (console_session 1) (set_foreground_pgid 7) else console_session 1) H ltac:(vm_compute; reflexivity)).
  - destruct (console_session_inv 2) as (Q & T & HI). assert (H := proj1 (tty_setpgrp_correct (console_session 2) Q T HI) 7).
    exact (outcome_known _ _ (- EPERM) (fun r => if r =? 0 then upd_tty (console_session 2) (set_foreground_pgid 7) else console_session 2) H ltac:(vm_compute; reflexivity)).
  - destruct pipe_kernel_inv as (Q & T & HI). assert (HI' := set_tty_waits (console 0) pipe_kernel Q T _ HI).
    destruct (proj2 (tty_setpgrp_correct (console_kernel 0) Q T (wi_sched _ _ _ _ HI')) _ TCSETS 4096 HI') as (r & k' & E & Ho).
    exists r, k'. split; [exact E|exact Ho].
Defined.
